(* ===== verification/_CoqProject ===== *)
-Q . S2P
Prelude.v
Endian.v
ByteArray.v
ByteArrayFacts.v
ByteArrayCodec.v
ByteArrayCodecFacts.v
ByteArrayTheorems.v
ByteArrayViews.v
CLib.v
Words.v
Decimal.v
OrderedSet.v
Timer.v
TimerTheorems.v
Http.v
HttpRequest.v
HttpResponse.v
HttpFacts.v
Ragel.v
Http11States.v
HttpClientStates.v
UriStates.v
Http11Parser.v
HttpParserSafe.v
HttpRequestParser.v
HttpRequestSafe.v
HttpLines.v
HttpRequestSegments.v
HttpRoundtrip.v
HttpClientParser.v
HttpResponseParser.v
HttpResponseSegments.v
HttpResponseRoundtrip.v
HttpClientSafe.v
HttpResponseSafe.v
Uri.v
UriRoundtrip.v
Servlet.v
IOManager.v
IOManagerTheorems.v
Address.v
AddressFacts.v
AddressText.v
AddressOrder.v
AddressLookup.v
Idle.v
FdManager.v
Hook.v
HookTheorems.v
Sleep.v
Socket.v
SocketTheorems.v
Stream.v
HttpSession.v
HttpSessionTheorems.v
HttpServer.v
HttpConnection.v
HttpConnectionTheorems.v
HttpPool.v
Fiber.v
FiberFacts.v
FiberTheorems.v
Scheduler.v
SchedulerTheorems.v
Env.v
Files.v
LexicalCast.v
Config.v
ConfigTheorems.v
LogFormat.v
Log.v
LogTheorems.v
LogConfig.v
LogConfigTheorems.v
TcpServer.v
TcpServerTheorems.v
Locks.v
Thread.v
Application.v
ApplicationTheorems.v
