(* ===== verification/Prelude.v ===== *)
(** * Azure: a verification library of the C++ fiber and network server framework

    The program is a coroutine server: fibers run on the worker threads of a
    scheduler, an [IOManager] waits for descriptors and timers and schedules what
    they wake, hooked system calls put the calling fiber to sleep instead of its
    thread, and on top of that stand addresses, sockets, streams, byte buffers and
    an HTTP server and client.  Around it are the configuration, the log, the command
    line, threads and locks, and the application that starts the servers.  This
    library models these parts as pure functions over explicit states and proves what
    they promise.

    ** How the code is read

    An operation on a state [S] is a function [ST S A]: it returns a value and a new
    state, throws an exception and keeps the state ([Throw]), or has no defined
    result ([Crash]: null or dangling pointers, accesses out of bounds, failed
    assertions, undefined arithmetic, endless loops).  A theorem that an operation
    is a [Ret] says that none of these happen.  Integers are [Z]; every conversion
    of the code is one of the wraps [u8] ... [u64], [i8] ... [i64] below.  Bytes are
    [Z] in [[0, 256)], memory is a list of them, objects live in a [gmap] from their
    addresses when they are shared.  What is not in the repository (the C library, the kernel, YAML,
    [boost::lexical_cast], [fnmatch]) is a parameter or a class with laws, and what
    the code leaves uninitialised is an arbitrary argument.

    A part [X] of the program is the file [X.v] with its state and operations, named
    as in the code; its theorems stand in the same file or in [XFacts.v],
    [XTheorems.v], [XSafe.v].  The last section of a file of theorems shows where
    the code departs from its purpose.

    ** The parts

    - Endian: [include/endian_.h], the conversions of byte order.
    - ByteArray, ByteArrayCodec: [bytearray.cpp], the list of blocks with its cursor,
      and the typed writers and readers.  ByteArrayFacts: the buffer is a byte string
      with a cursor; ByteArrayTheorems: every sequence of operations refines it, what was
      written is read back; ByteArrayViews: the scatter/gather views and files.
    - OrderedSet: [std::set] and [std::map] with a comparator, as sorted lists.
    - Timer: [timer.cpp], the set of timers, which the code keeps sorted by due time and
      address, and the callbacks that are bound to a condition.
    - IOManager: [iomanager.cpp], who waits for which descriptor; [addEvent] is made of
      a look under the read lock, a resize under the write lock and an act under the
      context's mutex.  Its theorems refine it by a table of waiting handlers.  Idle: a
      turn of [IOManager::idle], which joins the timers and the events: one part ends
      at [epoll_wait], the other follows it, on whatever state the wait has left.
    - Fiber: [fiber.cpp], contexts and the switches between them, the references that
      keep a fiber alive, and the root fiber of a caller's thread.  FiberFacts: what
      holds between the steps of threads.  Scheduler: [scheduler.cpp], the task queue
      and the workers' loop, as a step relation over the threads with the states of
      the fibers; the tickles of [iomanager.cpp] and the root of a thread that takes
      part ([use_caller]).
    - FdManager, Hook: [fdmanager.cpp], [hook.cpp]: the contexts of descriptors, and
      the hooked calls as steps between which the timer, the kernel and other fibers act.
      Sleep: the hooked sleeps over the timers, the turns of idle and the queue.
    - Address: [address.cpp], addresses down to the bytes of their structures.
    - Socket, Stream: [socket.cpp], [stream.cpp], [socket_stream.cpp], over the class
      [Net] of the calls below; its laws are [NetLaws], which descriptors are open,
      [NetServes], which are bound and listen, [Stream] and [Segments].
    - Http, HttpRequest, HttpResponse: [http.h], [http.cpp].
    - Ragel: the control flow of the generated machines; Http11States and
      Http11Parser, HttpClientStates and HttpClientParser, UriStates and Uri: their
      blocks, label by label, with the actions of the grammars.  HttpRequestParser,
      HttpResponseParser: [http_parser.cpp], the callbacks that fill the messages.
    - HttpRequestSegments, HttpRoundtrip, HttpResponseSegments, HttpResponseRoundtrip,
      UriRoundtrip: printed messages and URIs through the machines; HttpLines what both
      kinds of messages share; HttpParserSafe, HttpClientSafe and the files that end in
      [Safe]: the machines on arbitrary bytes.
    - Servlet: [servlet.cpp], the dispatch of paths.
    - HttpSession, HttpServer: [http_session.cpp], [http_server.cpp], a server's side of
      a connection; HttpConnection, HttpPool: [http_connection.cpp], the client's side and
      its pool.
    - Env: [env.cpp], the command line.  Files: the listing and making of directories,
      the process file, clocks and backtraces of [util.cpp].
    - LexicalCast: the conversions of containers in [config.h], over the class [Yaml] of
      the library's nodes.  Config: [config.h], [config.cpp], variables with listeners
      in a registry, and the loading of documents.  The types that variables have are
      the codes of a [ConfigTypes]; what listeners change is the registry's [outside].
      The static copies that [hook.cpp] and [http_parser.cpp] keep of variables are there too.
    - LogFormat: levels, events and the pattern parser of [log.cpp]; Log: appenders,
      loggers and their manager on a heap, over a [Disk]; LogConfig: the definitions of
      loggers, the listener that applies them, and the loggers as YAML.
    - TcpServer: [tcp_server.cpp], a server's sockets and its accepting tasks, whose
      turns interleave with [stop] and with the clients' tasks.  A task inside
      [accept] has no turn until a client comes or its event is cancelled.
    - Locks: the guards and [CASLock] of [mutex.h].  Thread: [thread.cpp] and
      [Semaphore], each access to the shared object a step.
    - Application: [application.cpp], [daemon.cpp], which put Env, Config, Files, Address
      and TcpServer together.
    - Prelude, Words, Decimal, CLib: integers, bytes, lists; words in memory; printed
      numbers; [strtol].

    ** How they interact, and what is shown of it

    - A request goes from a client to a servlet and a response back.  Printing and
      parsing are inverse ([HttpRoundtrip], [HttpResponseRoundtrip]), fixed-size
      transfers deliver the stream however it is cut ([Stream]), so a session
      gets the request that was sent ([HttpSessionTheorems]), the server answers the
      requests in order, each once, through the servlet that [Servlet] specifies
      ([HttpServer]), and the client gets the response, chunked or not
      ([HttpConnectionTheorems]).  Theorems of this chain are proved against the classes
      [Stream] and [Segments], of which [Stream] and [HttpServer] have
      instances.
    - Fibers are contexts that are switched by hand, and the model's steps enter and
      reset them whenever the code would, with what then fails.  [FiberTheorems] shows
      that in histories with the discipline of a scheduler - a fiber is entered or
      reset only while no thread is on its stack, and reset only when it is new or
      over ([disciplined]) - they behave as calls do: each switch finds its context, a
      callback does its work in order and once, and it can be brought to its end; what
      happens without the discipline, which [scheduler.cpp] does not always keep, is
      shown there and in [SchedulerTheorems].
    - A call that would block registers its fiber with the [IOManager] and a timer.
      [HookTheorems] takes the table of handlers that IOManagerTheorems proves to be implemented and
      shows that the fiber is held exactly once while it waits and that its timer
      ends the wait, as long as reports name events that are still registered and the
      fiber is resumed only after it has left its stack; [Idle] that neither due timers nor reported events
      are slept through; [Sleep] that a sleeping fiber is in one place, its timer or the
      queue, goes on no earlier than it asked, and goes on once the loop turns after
      that; [IOManagerTheorems] that every handler is scheduled once or
      dropped, when no resize shrinks the table; [SchedulerTheorems] that every task is
      taken once, and when exactly [stopping] holds: no task waits and each worker has
      come back from its own, which may still have a READY fiber to put back.
    - Configuration: a document sets exactly the variables it names ([ConfigTheorems]),
      containers read back ([LexicalCast]); the variable of the loggers drives the
      log through its listener, so that the loggers are always as configured, and what
      the manager writes of its loggers reads back as a configuration
      ([LogConfigTheorems]); and a statement reaches each appender once ([LogTheorems])
      in the text that the pattern asks for ([LogFormat]).
    - Start and end: [Env] and [ApplicationTheorems] say which command lines start
      the process and that it then has a server for each entry of the configuration,
      with one socket for each address that [Address] finds, bound to it and listening;
      [TcpServerTheorems] that a server, whatever its tasks do, loses no descriptor,
      and ends when it is stopped unless a failed [bind] has dropped a socket that was
      served.
    - Threads: a started thread runs its callback and does not outlive its object
      before it gave the callback away ([Thread]); guards balance their calls
      and the spinning lock excludes ([Locks]).
    - Resources: sockets close what they opened ([SocketTheorems]), descriptors behave as blocking
      ones above the hooks ([FdManager]), pooled connections are in one place ([HttpPool]).

    ** Atomicity

    An operation that holds its object's lock is one step.  Where the code lets go of
    a lock, or works on shared objects without one, the model has separate steps and
    theorems quantify over all their orders.
    - IOManager: the look, the resize and the act of [addEvent].
    - Scheduler: what a worker does behind a switch - counting down, looking at the
      fiber's state, putting it back or marking it - is a step each; the tickle that
      [schedule] or the loop makes belongs to the step before it.
    - Fiber: each access of a thread to a fiber's context and state.
    - Hook: adding the condition timer, the try of the call, [addEvent], the switch
      away, the callback's mark and its [cancelEvent]; [addEvent] of the waiting fiber
      is one step here, and other fibers work on other events.
    - Sleep: adding the timer and leaving the stack; collecting the due callbacks and
      handing them over.  Idle's [stopping] and its [epoll_wait] are where others act.
    - HttpPool, Locks, Thread: each access to the shared object.
    - TcpServer: its tasks take turns, as on the one thread that the application gives
      them; a turn ends where the code can wait.
    - Config, Log: each call is one step.

    ** Fuel and bounds

    Loops whose end depends on data take fuel and are [Diverges] without; the
    theorems about them say how much is enough (one more than the bytes to transfer,
    the requests to serve, the chunks to read, the depth of a document or of a
    directory; two for a logger and its root) and so that they end.  Messages are
    shorter than 2^31 bytes where the code counts in [int].  Times lie below 2^63 ms
    where differences of unsigned times are taken.

    ** Not modelled

    What the code logs about itself, and the texts of error messages; the memory of
    stacks and registers; signals; the flags of sending and receiving; the wrappers of
    pthread mutexes and of [strftime], which are single calls of the system, as are the
    hooks of [shutdown] and [getsockopt]; the programs under tests/ and example/ and the
    vendored webbench/. *)
From stdpp Require Export base numbers list list_numbers strings pretty gmap fin_maps sets.
From stdpp Require Import options.
From Stdlib Require Export ZArith Lia.

#[global] Open Scope Z_scope.

(** ** Machine integers

    A [w]-bit unsigned value is a [Z] in [[0, 2^w)]; a signed one is in
    [[-2^(w-1), 2^(w-1))].  The C++ conversions are the two wraps below. *)
Definition uwrap (w z : Z) : Z := z `mod` 2 ^ w.
Definition swrap (w z : Z) : Z := (z + 2 ^ (w - 1)) `mod` 2 ^ w - 2 ^ (w - 1).

Definition is_u (w z : Z) : Prop := 0 ≤ z < 2 ^ w.
Definition is_s (w z : Z) : Prop := - 2 ^ (w - 1) ≤ z < 2 ^ (w - 1).

Declare Scope azure_scope.
Delimit Scope azure_scope with azure.
Notation "'u8' z" := (uwrap 8 z) (at level 10, z at level 9) : azure_scope.
Notation "'u16' z" := (uwrap 16 z) (at level 10, z at level 9) : azure_scope.
Notation "'u32' z" := (uwrap 32 z) (at level 10, z at level 9) : azure_scope.
Notation "'u64' z" := (uwrap 64 z) (at level 10, z at level 9) : azure_scope.
Notation "'i8' z" := (swrap 8 z) (at level 10, z at level 9) : azure_scope.
Notation "'i16' z" := (swrap 16 z) (at level 10, z at level 9) : azure_scope.
Notation "'i32' z" := (swrap 32 z) (at level 10, z at level 9) : azure_scope.
Notation "'i64' z" := (swrap 64 z) (at level 10, z at level 9) : azure_scope.
#[global] Open Scope azure_scope.

Lemma uwrap_small w z : is_u w z → uwrap w z = z.
Proof. apply Z.mod_small. Qed.

Lemma uwrap_range w z : 0 ≤ w → is_u w (uwrap w z).
Proof. intros. apply Z.mod_pos_bound. lia. Qed.

Lemma swrap_small w z : 0 < w → is_s w z → swrap w z = z.
Proof.
  unfold is_s, swrap. intros Hw Hz.
  assert (2 ^ w = 2 * 2 ^ (w - 1)) by (rewrite <- Z.pow_succ_r by lia; f_equal; lia).
  rewrite Z.mod_small; lia.
Qed.

Lemma swrap_range w z : 0 < w → is_s w (swrap w z).
Proof.
  unfold is_s, swrap. intros Hw.
  assert (2 ^ w = 2 * 2 ^ (w - 1)) by (rewrite <- Z.pow_succ_r by lia; f_equal; lia).
  pose proof (Z.mod_pos_bound (z + 2 ^ (w - 1)) (2 ^ w)). lia.
Qed.

(** The signed conversion only looks at the value modulo [2^w]. *)
Lemma swrap_uwrap w z : 0 < w → swrap w (uwrap w z) = swrap w z.
Proof.
  intros Hw. unfold swrap, uwrap. f_equal.
  by rewrite Zplus_mod_idemp_l.
Qed.

Lemma uwrap_swrap w z : 0 < w → uwrap w (swrap w z) = uwrap w z.
Proof.
  intros Hw. unfold swrap, uwrap.
  rewrite Zminus_mod_idemp_l. f_equal. lia.
Qed.

Lemma swrap_of_uwrap_id w z : 0 < w → is_s w z → swrap w (uwrap w z) = z.
Proof. intros. rewrite swrap_uwrap by done. by apply swrap_small. Qed.

(** ** Outcomes

    An operation on a state [S] returns a value, throws a C++ exception (the
    state keeps the changes made before the throw), or has no defined result:
    a null or out-of-bounds access, undefined arithmetic (a signed overflow, a
    shift beyond the width), a failed [AZURE_ASSERT] (which calls
    [assert]), or a loop that does not end. *)
Inductive exn :=
  | out_of_range
  | logic_error
  | length_error
  | runtime_error
  | bad_function_call
  | invalid_argument (what : string).

Inductive fault :=
  | NullDeref
  | UseAfterFree
  | OutOfBounds
  | AssertFailed
  | UndefinedArith
  | Diverges.

Inductive outcome (S A : Type) :=
  | Ret (a : A) (s : S)
  | Throw (e : exn) (s : S)
  | Crash (f : fault).
Arguments Ret {S A} a s.
Arguments Throw {S A} e s.
Arguments Crash {S A} f.

Definition ST (S A : Type) : Type := S → outcome S A.

Definition ret {S A} (a : A) : ST S A := λ s, Ret a s.
Definition throw {S A} (e : exn) : ST S A := λ s, Throw e s.
Definition crash {S A} (f : fault) : ST S A := λ _, Crash f.
Definition bind {S A B} (m : ST S A) (k : A → ST S B) : ST S B := λ s,
  match m s with
  | Ret a s' => k a s'
  | Throw e s' => Throw e s'
  | Crash f => Crash f
  end.
Definition gets {S A} (f : S → A) : ST S A := λ s, Ret (f s) s.
Definition modify {S} (f : S → S) : ST S unit := λ s, Ret tt (f s).

Notation "'let*' x := m 'in' k" := (bind m (λ x, k))
  (at level 10, x name, m at level 100, k at level 200) : azure_scope.
Notation "m ;;; k" := (bind m (λ _ : unit, k))
  (at level 100, right associativity) : azure_scope.

Lemma bind_Ret {S A B} (m : ST S A) (k : A → ST S B) s a s' :
  m s = Ret a s' → bind m k s = k a s'.
Proof. unfold bind. by intros ->. Qed.

Lemma bind_assoc {S A B C} (m : ST S A) (k : A → ST S B) (h : B → ST S C) s :
  bind (bind m k) h s = bind m (λ a, bind (k a) h) s.
Proof. unfold bind. by destruct (m s). Qed.

Lemma bind_gets {S A B} (f : S → A) (k : A → ST S B) s : bind (gets f) k s = k (f s) s.
Proof. done. Qed.
Lemma bind_modify {S B} (f : S → S) (k : unit → ST S B) s : bind (modify f) k s = k tt (f s).
Proof. done. Qed.
Lemma bind_ret {S A B} (a : A) (k : A → ST S B) s : bind (ret a) k s = k a s.
Proof. done. Qed.

Lemma bind_modify_if {S B} (b : bool) (f : S → S) (k : unit → ST S B) s :
  bind (if b then modify f else ret tt) k s = k tt (if b then f s else s).
Proof. by destruct b. Qed.

(** Run the state accesses at the head of a monadic computation. *)
Ltac step_monad :=
  repeat first [rewrite bind_gets | rewrite bind_modify | rewrite bind_ret]; cbv beta; unfold id.

(** A value, if the outcome is one; used to evaluate witnesses. *)
Definition out_val {S A} (o : outcome S A) : option A :=
  match o with Ret a _ => Some a | _ => None end.

(** ** Bytes and strings

    A byte is a [Z] in [[0, 256)]; memory blocks are lists of bytes.  A
    [std::string] is a [string] of 8-bit characters (it may contain NULs). *)
Definition zlen {A} (l : list A) : Z := Z.of_nat (length l).
Definition is_byte (z : Z) : Prop := is_u 8 z.
Definition bytes_ok (l : list Z) : Prop := Forall is_byte l.

Definition char_code (c : Ascii.ascii) : Z := Z.of_N (Ascii.N_of_ascii c).
Definition code_char (z : Z) : Ascii.ascii := Ascii.ascii_of_N (Z.to_N z).
Definition bytes_of_string (s : string) : list Z := char_code <$> String.list_ascii_of_string s.
Definition string_of_bytes (l : list Z) : string := String.string_of_list_ascii (code_char <$> l).

(** [std::string::max_size()] *)
Definition string_max_size : Z := 2 ^ 63 - 1.

Lemma zlen_nonneg {A} (l : list A) : 0 ≤ zlen l.
Proof. unfold zlen. lia. Qed.
Lemma zlen_app {A} (l1 l2 : list A) : zlen (l1 ++ l2) = zlen l1 + zlen l2.
Proof. unfold zlen. rewrite length_app. lia. Qed.
Lemma zlen_cons {A} (x : A) l : zlen (x :: l) = 1 + zlen l.
Proof. unfold zlen. simpl. lia. Qed.

Lemma char_code_byte c : is_byte (char_code c).
Proof.
  unfold is_byte, is_u, char_code. pose proof (Ascii.N_ascii_bounded c). lia.
Qed.
Lemma code_char_code c : code_char (char_code c) = c.
Proof. unfold code_char, char_code. by rewrite N2Z.id, Ascii.ascii_N_embedding. Qed.

Lemma bytes_of_string_ok s : bytes_ok (bytes_of_string s).
Proof.
  unfold bytes_ok, bytes_of_string. apply Forall_fmap, Forall_true.
  intros c. apply char_code_byte.
Qed.

Lemma string_of_bytes_of_string s : string_of_bytes (bytes_of_string s) = s.
Proof.
  unfold string_of_bytes, bytes_of_string. rewrite <- list_fmap_compose.
  rewrite (list_fmap_ext (code_char ∘ char_code) id).
  - by rewrite list_fmap_id, String.string_of_list_ascii_of_string.
  - intros ? x _. apply code_char_code.
Qed.

Lemma length_bytes_of_string s : length (bytes_of_string s) = String.length s.
Proof.
  unfold bytes_of_string. rewrite length_fmap.
  induction s; simpl; congruence.
Qed.

(** ** Little-endian byte sequences of integers *)
Fixpoint le_split (n : nat) (z : Z) : list Z :=
  match n with
  | O => []
  | S n => z `mod` 256 :: le_split n (z `div` 256)
  end.

Fixpoint le_combine (l : list Z) : Z :=
  match l with
  | [] => 0
  | b :: l => b + 256 * le_combine l
  end.

Lemma length_le_split n z : length (le_split n z) = n.
Proof. revert z. induction n; intros; simpl; congruence. Qed.

Lemma le_split_ok n z : bytes_ok (le_split n z).
Proof.
  revert z. induction n; intros z; simpl; constructor; [|apply IHn].
  apply (Z.mod_pos_bound z 256). lia.
Qed.

Lemma pow_256_succ n : 2 ^ (8 * Z.of_nat (S n)) = 256 * 2 ^ (8 * Z.of_nat n).
Proof.
  replace (8 * Z.of_nat (S n)) with (8 + 8 * Z.of_nat n) by lia.
  rewrite Z.pow_add_r by lia. reflexivity.
Qed.

Lemma le_combine_split n z : le_combine (le_split n z) = z `mod` 2 ^ (8 * Z.of_nat n).
Proof.
  revert z. induction n as [|n IH]; intros z.
  - simpl. by rewrite Z.mod_1_r.
  - cbn [le_split le_combine]. rewrite IH, pow_256_succ.
    rewrite Z.rem_mul_r by lia. lia.
Qed.

Lemma le_split_combine l : bytes_ok l → le_split (length l) (le_combine l) = l.
Proof.
  induction 1 as [|b l Hb Hl IH]; [done|]. cbn [length le_split le_combine].
  unfold is_byte, is_u in Hb.
  f_equal.
  - rewrite Z.mul_comm, Z.mod_add by lia. apply Z.mod_small. lia.
  - rewrite Z.mul_comm, Z.div_add by lia. rewrite Z.div_small by lia. exact IH.
Qed.

Lemma le_combine_bound l : bytes_ok l → 0 ≤ le_combine l < 2 ^ (8 * zlen l).
Proof.
  intros H. pose proof (le_combine_split (length l) (le_combine l)) as E.
  rewrite (le_split_combine l H) in E. rewrite E.
  apply Z.mod_pos_bound, Z.pow_pos_nonneg; unfold zlen; lia.
Qed.

(** ** Overwriting a segment of a list *)
Definition splice {A} (l : list A) (p : nat) (d : list A) : list A :=
  take p l ++ d ++ drop (p + length d) l.

Definition slice {A} (l : list A) (p n : nat) : list A := take n (drop p l).

Lemma length_splice {A} (l : list A) p d :
  (p + length d ≤ length l)%nat → length (splice l p d) = length l.
Proof.
  intros. unfold splice. rewrite !length_app, length_take, length_drop. lia.
Qed.

Lemma splice_nil {A} (l : list A) p : splice l p [] = l.
Proof. unfold splice. simpl. by rewrite Nat.add_0_r, take_drop. Qed.

Lemma slice_splice {A} (l : list A) p d :
  (p + length d ≤ length l)%nat → slice (splice l p d) p (length d) = d.
Proof.
  intros. unfold slice, splice.
  rewrite drop_app_length' by (rewrite length_take; lia).
  by rewrite take_app_length.
Qed.

Lemma splice_app_data {A} (l : list A) p d1 d2 :
  (p + length d1 + length d2 ≤ length l)%nat →
  splice (splice l p d1) (p + length d1) d2 = splice l p (d1 ++ d2).
Proof.
  intros H. unfold splice.
  assert (length (take p l) = p) as Hp by (rewrite length_take; lia).
  rewrite length_app, !(assoc_L (++)).
  set (a := take p l ++ d1).
  assert (length a = (p + length d1)%nat) as Ha by (unfold a; rewrite length_app; lia).
  rewrite <- Ha. rewrite take_app_length.
  rewrite <- drop_drop, drop_app_length, drop_drop, Ha.
  do 2 f_equal. lia.
Qed.

Lemma length_slice {A} (l : list A) p n :
  (p + n ≤ length l)%nat → length (slice l p n) = n.
Proof. intros. unfold slice. rewrite length_take, length_drop. lia. Qed.

Lemma slice_app {A} (l : list A) p n m :
  slice l p (n + m) = slice l p n ++ slice l (p + n) m.
Proof.
  unfold slice. rewrite <- drop_drop.
  generalize (drop p l). clear. intros l. revert l.
  induction n as [|n IH]; intros [|x l]; simpl; rewrite ?take_nil; [done..|].
  by rewrite IH.
Qed.

Create HintDb azure.
Create Rewrite HintDb azure_len.
#[export] Hint Resolve zlen_nonneg bytes_of_string_ok le_split_ok char_code_byte : azure.
#[export] Hint Rewrite @length_splice @length_slice @length_app @length_take @length_drop
  using lia : azure_len.

Lemma splice_app_l {A} (l1 l2 : list A) p d :
  (p + length d ≤ length l1)%nat → splice (l1 ++ l2) p d = splice l1 p d ++ l2.
Proof.
  intros. unfold splice. rewrite take_app_le by lia.
  rewrite drop_app_le by lia. by rewrite !app_assoc.
Qed.

Lemma splice_app_r {A} (l1 l2 : list A) p d :
  splice (l1 ++ l2) (length l1 + p) d = l1 ++ splice l2 p d.
Proof.
  unfold splice. rewrite take_app_add, <- Nat.add_assoc, drop_app_add.
  by rewrite <- app_assoc.
Qed.

Lemma slice_app_l {A} (l1 l2 : list A) p n :
  (p + n ≤ length l1)%nat → slice (l1 ++ l2) p n = slice l1 p n.
Proof.
  intros. unfold slice. rewrite drop_app_le by lia.
  apply take_app_le. rewrite length_drop. lia.
Qed.

Lemma slice_app_r {A} (l1 l2 : list A) p n :
  slice (l1 ++ l2) (length l1 + p) n = slice l2 p n.
Proof. unfold slice. by rewrite drop_app_add. Qed.

(** Index arithmetic of uniform blocks. *)
Lemma to_nat_block (i : nat) (b off : Z) :
  0 ≤ b → 0 ≤ off → Z.to_nat (Z.of_nat i * b + off) = (i * Z.to_nat b + Z.to_nat off)%nat.
Proof. intros. rewrite Z2Nat.inj_add, Z2Nat.inj_mul, Nat2Z.id by lia. done. Qed.

Lemma block_div i b off : 0 ≤ off < b → (i * b + off) `div` b = i.
Proof. intros. rewrite Z.div_add_l by lia. rewrite Z.div_small by lia. lia. Qed.
Lemma block_mod i b off : 0 ≤ off < b → (i * b + off) `mod` b = off.
Proof. intros. rewrite Z.add_comm, Z.mod_add by lia. by apply Z.mod_small. Qed.

Lemma zlen_take {A} (l : list A) n : 0 ≤ n ≤ zlen l → zlen (take (Z.to_nat n) l) = n.
Proof. unfold zlen. intros. rewrite length_take. lia. Qed.
Lemma zlen_drop {A} (l : list A) n : 0 ≤ n ≤ zlen l → zlen (drop (Z.to_nat n) l) = zlen l - n.
Proof. unfold zlen. intros. rewrite length_drop. lia. Qed.
Lemma zlen_0 {A} (l : list A) : zlen l = 0 ↔ l = [].
Proof. unfold zlen. destruct l; simpl; split; intros; try lia; done. Qed.

(** Overwriting commutes with cutting the list behind the written part. *)
Lemma take_splice {A} (l : list A) p d s :
  (p ≤ s ≤ length l)%nat →
  take (s `max` (p + length d)) (splice l p d) = splice (take s l) p d.
Proof.
  intros H. unfold splice. rewrite take_take, Nat.min_l by lia.
  assert (length (take p l) = p) as Hp by (rewrite length_take; lia).
  rewrite app_assoc, (app_assoc (take p l)).
  assert (length (take p l ++ d) = p + length d)%nat as Ha by (rewrite length_app; lia).
  replace (s `max` (p + length d))%nat with (length (take p l ++ d) + (s - (p + length d)))%nat by lia.
  rewrite take_app_add. f_equal.
  destruct (decide (p + length d ≤ s)%nat).
  - rewrite take_drop_commute. do 2 f_equal. lia.
  - rewrite (drop_ge (take s l)) by (rewrite length_take; lia).
    by replace (s - (p + length d))%nat with 0%nat by lia.
Qed.

(** Cutting a slice out of a prefix. *)
Lemma slice_take {A} (l : list A) p n s :
  (p + n ≤ s)%nat → slice (take s l) p n = slice l p n.
Proof.
  intros. unfold slice. rewrite !take_drop_commute, take_take, Nat.min_l by lia. done.
Qed.
Lemma slice_all {A} (l : list A) n : (length l ≤ n)%nat → slice l 0 n = l.
Proof. intros. unfold slice. rewrite drop_0. by apply take_ge. Qed.

(** ** Bit operations *)
Lemma lor_shiftl_add r x i : 0 ≤ i → 0 ≤ r < 2 ^ i → 0 ≤ x →
  Z.lor r (Z.shiftl x i) = r + x * 2 ^ i.
Proof.
  intros Hi Hr Hx. rewrite <- Z.shiftl_mul_pow2 by done.
  rewrite Z.add_nocarry_lxor, <- Z.lxor_lor; [done|..].
  all: apply Z.bits_inj'; intros n Hn; rewrite Z.land_spec, Z.bits_0.
  all: destruct (decide (n < i)); [rewrite Z.shiftl_spec_low by lia; by rewrite andb_false_r|].
  all: rewrite <- (Z.mod_small r (2 ^ i)) by done; rewrite Z.mod_pow2_bits_high by lia; done.
Qed.

Lemma lxor_ones w a : 0 ≤ w → 0 ≤ a < 2 ^ w → Z.lxor a (2 ^ w - 1) = 2 ^ w - 1 - a.
Proof.
  intros Hw Ha. replace (2 ^ w - 1) with (Z.ones w) by (rewrite Z.ones_equiv; lia).
  rewrite Z.sub_nocarry_ldiff.
  - apply Z.bits_inj'. intros n Hn. rewrite Z.lxor_spec, Z.ldiff_spec.
    destruct (decide (n < w)).
    + rewrite Z.ones_spec_low by lia. by destruct (Z.testbit a n).
    + rewrite Z.ones_spec_high by lia. rewrite <- (Z.mod_small a (2 ^ w)) by done.
      by rewrite Z.mod_pow2_bits_high by lia.
  - apply Z.bits_inj'. intros n Hn. rewrite Z.ldiff_spec, Z.bits_0.
    destruct (decide (n < w)).
    + rewrite Z.ones_spec_low by lia. by rewrite andb_false_r.
    + rewrite <- (Z.mod_small a (2 ^ w)) by done. by rewrite Z.mod_pow2_bits_high by lia.
Qed.

Lemma land_127 v : Z.land v 127 = v `mod` 128.
Proof. change 127 with (Z.ones 7). by rewrite Z.land_ones by lia. Qed.

Lemma lor_128 x : 0 ≤ x < 128 → Z.lor x 128 = x + 128.
Proof. intros. change 128 with (Z.shiftl 1 7) at 1. rewrite lor_shiftl_add by lia. done. Qed.

(** ** Strings in memory *)

Definition size (s : string) : Z := Z.of_nat (String.length s).

(** [std::string(at, length)] *)
Definition string_at {S} (mem : list Z) (at_ length : Z) : ST S string :=
  if string_max_size <? length then throw length_error
  else if (0 <=? at_) && (at_ + length <=? zlen mem)
  then ret (string_of_bytes (slice mem (Z.to_nat at_) (Z.to_nat length)))
  else crash OutOfBounds.

(** [strncmp(a, b, n) == 0] on the memory from [a] on. *)
Fixpoint strncmp_n (n : nat) (a b : list Z) : bool :=
  match n, a, b with
  | O, _, _ => true
  | S n, x :: a, y :: b => if x =? y then (if x =? 0 then true else strncmp_n n a b) else false
  | _, _, _ => false
  end.
(** A string literal in memory. *)
Definition literal (s : string) : list Z := bytes_of_string s ++ [0].

Lemma string_at_ret {S} mem a l (s : S) : 0 ≤ a → 0 ≤ l → a + l ≤ zlen mem → zlen mem ≤ string_max_size →
  ∃ w, string_at mem a l s = Ret w s.
Proof.
  intros. unfold string_at. rewrite (proj2 (Z.ltb_ge string_max_size l)) by lia.
  rewrite (proj2 (Z.leb_le 0 a)), (proj2 (Z.leb_le (a + l) _)) by lia. eexists. done.
Qed.

(** [memmove(data, data + n, k)] *)
Lemma moved_to_front {A} (mem : list A) (n k : nat) : (n + k ≤ length mem)%nat →
  let mem' := splice mem 0 (slice mem n k) in
  slice mem' 0 k = slice mem n k ∧ drop k mem' = drop k mem ∧ zlen mem' = zlen mem.
Proof.
  intros H mem'. assert (length (slice mem n k) = k) as Hlen by (unfold slice; rewrite length_take, length_drop; lia).
  revert Hlen. unfold mem'. generalize (slice mem n k). intros l Hlen.
  unfold splice, slice. rewrite take_0, drop_0, Nat.add_0_l, Hlen. cbn [app]. split_and!.
  - by rewrite <- Hlen, take_app_length.
  - by rewrite <- Hlen at 1; rewrite drop_app_length.
  - unfold zlen in *. rewrite length_app, Hlen, length_drop. lia.
Qed.

(** ** Lists with one element taken out or exchanged *)
Lemma exists_delete {A} (P : A → Prop) (l : list A) i t : l !! i = Some t → Exists P l ↔ P t ∨ Exists P (delete i l).
Proof.
  intros Hi. rewrite <- (take_drop_middle l i t Hi) at 1. rewrite delete_take_drop, !Exists_app, Exists_cons. tauto.
Qed.
Lemma exists_insert {A} (P : A → Prop) (l : list A) i t t' : l !! i = Some t → Exists P (<[i := t']> l) ↔ P t' ∨ Exists P (delete i l).
Proof.
  intros Hi. rewrite insert_take_drop by (by eapply lookup_lt_Some). rewrite delete_take_drop, !Exists_app, Exists_cons. tauto.
Qed.
Lemma sum_delete {A} (f : A → nat) (l : list A) i t : l !! i = Some t → list_sum (f <$> l) = (f t + list_sum (f <$> delete i l))%nat.
Proof.
  intros Hi. rewrite <- (take_drop_middle l i t Hi) at 1. rewrite delete_take_drop, !fmap_app, !list_sum_app, fmap_cons. unfold list_sum. cbn [fold_right]. lia.
Qed.
Lemma sum_insert {A} (f : A → nat) (l : list A) i t t' : l !! i = Some t →
  list_sum (f <$> <[i := t']> l) = (f t' + list_sum (f <$> delete i l))%nat.
Proof.
  intros Hi. rewrite insert_take_drop by (by eapply lookup_lt_Some). rewrite delete_take_drop, !fmap_app, !list_sum_app, fmap_cons. unfold list_sum. cbn [fold_right]. lia.
Qed.
Lemma sum_zero {A} (f : A → nat) (l : list A) : list_sum (f <$> l) = 0%nat ↔ Forall (λ x, f x = 0%nat) l.
Proof.
  induction l as [|x l IH]; [done|]. rewrite fmap_cons, Forall_cons, <- IH. unfold list_sum. cbn [fold_right]. lia.
Qed.
