(* ===== verification/Endian.v ===== *)
(** * Endian: byte order conversion ([include/endian_.h])

    The host byte order is a parameter [host] of the development
    ([AZURE_LITTLE_ENDIAN] or [AZURE_BIG_ENDIAN], what [AZURE_BYTE_ORDER]
    expands to).  [bswap n] is [bswap_16/32/64] of <byteswap.h> on [n] bytes. *)
From S2P Require Import Prelude.

Definition AZURE_LITTLE_ENDIAN : Z := 1.
Definition AZURE_BIG_ENDIAN : Z := 2.

(** [bswap_16], [bswap_32], [bswap_64] for [n = 2, 4, 8]. *)
Definition bswap (n : nat) (z : Z) : Z := le_combine (rev (le_split n z)).

(** An integer type: its width in bytes and its signedness. *)
Record ctype := CType { cbytes : nat; csigned : bool }.
Definition cbits (t : ctype) : Z := 8 * Z.of_nat (cbytes t).

(** The C++ conversion of an integer to the type [t]. *)
Definition conv (t : ctype) (z : Z) : Z :=
  if csigned t then swrap (cbits t) z else uwrap (cbits t) z.
Definition in_range (t : ctype) (z : Z) : Prop :=
  if csigned t then is_s (cbits t) z else is_u (cbits t) z.

Definition int8_t := CType 1 true.
Definition uint8_t := CType 1 false.
Definition int16_t := CType 2 true.
Definition uint16_t := CType 2 false.
Definition int32_t := CType 4 true.
Definition uint32_t := CType 4 false.
Definition int64_t := CType 8 true.
Definition uint64_t := CType 8 false.

(** [byteswap<T>(value)]: [(T)bswap_N((uintN_t)value)]. *)
Definition byteswap (t : ctype) (value : Z) : Z :=
  conv t (bswap (cbytes t) (uwrap (cbits t) value)).

Definition byteswapOnLittleEndian (host : Z) (t : ctype) (v : Z) : Z :=
  if host =? AZURE_BIG_ENDIAN then v else byteswap t v.
Definition byteswapOnBigEndian (host : Z) (t : ctype) (v : Z) : Z :=
  if host =? AZURE_BIG_ENDIAN then byteswap t v else v.

(** The bytes of an object of type [t] in memory, and back. *)
Definition repr (host : Z) (t : ctype) (v : Z) : list Z :=
  let l := le_split (cbytes t) v in
  if host =? AZURE_BIG_ENDIAN then rev l else l.
Definition unrepr (host : Z) (t : ctype) (l : list Z) : Z :=
  conv t (le_combine (if host =? AZURE_BIG_ENDIAN then rev l else l)).

Lemma bytes_ok_rev l : bytes_ok l → bytes_ok (rev l).
Proof.
  apply List.Forall_rev.
Qed.

Lemma length_repr host t v : length (repr host t v) = cbytes t.
Proof.
  unfold repr. case_match; rewrite ?length_rev; apply length_le_split.
Qed.

Lemma repr_ok host t v : bytes_ok (repr host t v).
Proof. unfold repr. case_match; auto using bytes_ok_rev, le_split_ok. Qed.

Lemma conv_uwrap t v : (0 < cbytes t)%nat → conv t (uwrap (cbits t) v) = conv t v.
Proof.
  intros. unfold conv. case_match.
  - apply swrap_uwrap. unfold cbits. lia.
  - unfold uwrap. apply Zmod_mod.
Qed.

Lemma uwrap_conv t v : (0 < cbytes t)%nat → uwrap (cbits t) (conv t v) = uwrap (cbits t) v.
Proof.
  intros. unfold conv. case_match.
  - apply uwrap_swrap. unfold cbits. lia.
  - unfold uwrap. apply Zmod_mod.
Qed.

Lemma conv_in_range t v : (0 < cbytes t)%nat → in_range t (conv t v).
Proof.
  intros. unfold conv, in_range. assert (0 < cbits t) by (unfold cbits; lia).
  case_match; [by apply swrap_range | apply uwrap_range; lia].
Qed.

Lemma conv_id t v : (0 < cbytes t)%nat → in_range t v → conv t v = v.
Proof.
  intros. unfold conv, in_range in *. assert (0 < cbits t) by (unfold cbits; lia).
  case_match; [by apply swrap_small | by apply uwrap_small].
Qed.

Lemma unrepr_repr host t v : (0 < cbytes t)%nat → in_range t v → unrepr host t (repr host t v) = v.
Proof.
  intros Ht Hv. unfold unrepr, repr.
  transitivity (conv t (le_combine (le_split (cbytes t) v))).
  - case_match; rewrite ?rev_involutive; done.
  - rewrite le_combine_split. fold (cbits t).
    change (v `mod` 2 ^ cbits t) with (uwrap (cbits t) v).
    rewrite conv_uwrap by done. by apply conv_id.
Qed.

Lemma uwrap_le_split n w z : w = 8 * Z.of_nat n → le_split n (uwrap w z) = le_split n z.
Proof.
  intros ->. unfold uwrap. rewrite <- le_combine_split.
  rewrite <- (length_le_split n z) at 1. apply le_split_combine, le_split_ok.
Qed.

Lemma le_split_conv t v : (0 < cbytes t)%nat → le_split (cbytes t) (conv t v) = le_split (cbytes t) v.
Proof.
  intros. rewrite <- (uwrap_le_split (cbytes t) (cbits t) (conv t v)) by done.
  rewrite uwrap_conv by done. by apply uwrap_le_split.
Qed.

(** Byte swapping reverses the bytes of the representation. *)
Lemma le_split_byteswap t v : (0 < cbytes t)%nat →
  le_split (cbytes t) (byteswap t v) = rev (le_split (cbytes t) v).
Proof.
  intros Ht. unfold byteswap, bswap. rewrite le_split_conv by done.
  rewrite uwrap_le_split by done.
  rewrite <- (length_le_split (cbytes t) v) at 1.
  rewrite <- length_rev. apply le_split_combine, bytes_ok_rev, le_split_ok.
Qed.

Lemma le_split_inj t v w : (0 < cbytes t)%nat → in_range t v → in_range t w →
  le_split (cbytes t) v = le_split (cbytes t) w → v = w.
Proof.
  intros Ht Hv Hw E. apply (f_equal le_combine) in E.
  rewrite !le_combine_split in E. fold (cbits t) in E.
  rewrite <- (conv_id t v), <- (conv_id t w) by done.
  rewrite <- (conv_uwrap t v), <- (conv_uwrap t w) by done. by unfold uwrap; rewrite E.
Qed.

Lemma byteswap_in_range t v : (0 < cbytes t)%nat → in_range t (byteswap t v).
Proof. apply conv_in_range. Qed.

Lemma byteswap_twice t v : (0 < cbytes t)%nat → in_range t v → byteswap t (byteswap t v) = v.
Proof.
  intros Ht Hv. eapply le_split_inj; eauto using byteswap_in_range.
  rewrite !le_split_byteswap by done. apply rev_involutive.
Qed.
#[export] Hint Resolve repr_ok byteswap_in_range conv_in_range : azure.
