(* ===== verification/ByteArray.v ===== *)
(** * ByteArray: the chunked byte buffer ([include/bytearray.h], [src/bytearray.cpp])

    The linked list of [Node]s is the list [m_nodes], in the order of the
    [next] pointers from [m_root]; a [Node*] is an index into it and
    [nullptr] is [None].  [fresh] is the unspecified contents of
    [new char[s]]: every theorem holds for all of them. *)
From S2P Require Import Prelude Endian.

Record Node := mkNode { ptr : list Z; nsize : Z }.

Record ByteArray := mkByteArray {
  m_basesize : Z;
  m_position : Z;
  m_capacity : Z;
  m_size : Z;
  m_endian : Z;
  m_nodes : list Node;
  m_cur : option nat
}.

Definition set_nodes (l : list Node) (ba : ByteArray) : ByteArray :=
  mkByteArray (m_basesize ba) (m_position ba) (m_capacity ba) (m_size ba) (m_endian ba) l (m_cur ba).
Definition set_cur (c : option nat) (ba : ByteArray) : ByteArray :=
  mkByteArray (m_basesize ba) (m_position ba) (m_capacity ba) (m_size ba) (m_endian ba) (m_nodes ba) c.
Definition set_position (p : Z) (ba : ByteArray) : ByteArray :=
  mkByteArray (m_basesize ba) p (m_capacity ba) (m_size ba) (m_endian ba) (m_nodes ba) (m_cur ba).
Definition set_size (s : Z) (ba : ByteArray) : ByteArray :=
  mkByteArray (m_basesize ba) (m_position ba) (m_capacity ba) s (m_endian ba) (m_nodes ba) (m_cur ba).
Definition set_capacity (c : Z) (ba : ByteArray) : ByteArray :=
  mkByteArray (m_basesize ba) (m_position ba) c (m_size ba) (m_endian ba) (m_nodes ba) (m_cur ba).
Definition set_endian (e : Z) (ba : ByteArray) : ByteArray :=
  mkByteArray (m_basesize ba) (m_position ba) (m_capacity ba) (m_size ba) e (m_nodes ba) (m_cur ba).

(** ** Pointer operations *)

(** [c->next] for a non-null [c]. *)
Definition next_of (ba : ByteArray) (i : nat) : option nat :=
  if decide (S i < length (m_nodes ba))%nat then Some (S i) else None.

Definition deref (c : option nat) : ST ByteArray Node := λ ba,
  match c with
  | None => Crash NullDeref
  | Some i => match m_nodes ba !! i with
              | Some nd => Ret nd ba
              | None => Crash NullDeref
              end
  end.

(** [c = c->next] *)
Definition step_next (c : option nat) : ST ByteArray (option nat) := λ ba,
  match c with
  | None => Crash NullDeref
  | Some i => Ret (next_of ba i) ba
  end.

(** [memcpy(c->ptr + off, data, |data|)] *)
Definition store (c : option nat) (off : Z) (data : list Z) : ST ByteArray unit := λ ba,
  match c with
  | None => Crash NullDeref
  | Some i => match m_nodes ba !! i with
              | None => Crash NullDeref
              | Some nd =>
                  if decide (0 ≤ off ∧ off + zlen data ≤ zlen (ptr nd))
                  then Ret tt (set_nodes (<[i := mkNode (splice (ptr nd) (Z.to_nat off) data) (nsize nd)]> (m_nodes ba)) ba)
                  else Crash OutOfBounds
              end
  end.

(** [memcpy(dst, c->ptr + off, n)] *)
Definition load (c : option nat) (off n : Z) : ST ByteArray (list Z) := λ ba,
  match c with
  | None => Crash NullDeref
  | Some i => match m_nodes ba !! i with
              | None => Crash NullDeref
              | Some nd =>
                  if decide (0 ≤ off ∧ 0 ≤ n ∧ off + n ≤ zlen (ptr nd))
                  then Ret (slice (ptr nd) (Z.to_nat off) (Z.to_nat n)) ba
                  else Crash OutOfBounds
              end
  end.

Definition getPosition (ba : ByteArray) : Z := m_position ba.
Definition getBaseSize (ba : ByteArray) : Z := m_basesize ba.
Definition getSize (ba : ByteArray) : Z := m_size ba.
Definition getReadSize (ba : ByteArray) : Z := u64 (m_size ba - m_position ba).
Definition getCapacity (ba : ByteArray) : Z := u64 (m_capacity ba - m_position ba).

Definition isLittleEndian (ba : ByteArray) : bool := m_endian ba =? AZURE_LITTLE_ENDIAN.
Definition setIsLittleEndian (val : bool) : ST ByteArray unit :=
  modify (set_endian (if val then AZURE_LITTLE_ENDIAN else AZURE_BIG_ENDIAN)).

Section ByteArray.
Variable fresh : nat → Z.

Definition Node_new (s : Z) : Node := mkNode (fresh <$> seq 0 (Z.to_nat s)) s.

Definition ByteArray_new (basesize : Z) : ByteArray :=
  mkByteArray basesize 0 basesize 0 AZURE_BIG_ENDIAN [Node_new basesize] (Some 0%nat).

(** [ceil(1.0 * size / m_basesize)]; the double quotient is rounded up to the
    exact ceiling for every [size < 2^53]. *)
Definition ceil_div (a b : Z) : Z := (a + b - 1) `div` b.

(** The [for] loop of [addCapacity]: append [count] nodes. *)
Fixpoint add_nodes (count : nat) (ba : ByteArray) : ByteArray :=
  match count with
  | O => ba
  | S count =>
      add_nodes count
        (set_capacity (m_capacity ba + m_basesize ba)
          (set_nodes (m_nodes ba ++ [Node_new (m_basesize ba)]) ba))
  end.

Definition addCapacity (size : Z) : ST ByteArray unit := λ ba,
  if size =? 0 then Ret tt ba
  else
    let old_cap := getCapacity ba in
    if size <=? old_cap then Ret tt ba
    else
      let count := Z.to_nat (ceil_div (size - old_cap) (m_basesize ba)) in
      let first := if (count =? 0)%nat then None else Some (length (m_nodes ba)) in
      let ba' := add_nodes count ba in
      Ret tt (if old_cap =? 0 then set_cur first ba' else ba').

(** The loop of [write]: [buf] is what is left to copy, [size] its length. *)
Fixpoint write_loop (fuel : nat) (npos ncap : Z) (buf : list Z) : ST ByteArray unit :=
  match fuel with
  | O => crash Diverges
  | S fuel =>
      let size := zlen buf in
      if 0 <? size then
        let* cur := gets m_cur in
        if size <=? ncap then
          store cur npos buf ;;;
          let* nd := deref cur in
          (if nsize nd =? npos + size
           then let* c := step_next cur in modify (set_cur c)
           else ret tt) ;;;
          modify (λ ba, set_position (m_position ba + size) ba) ;;;
          write_loop fuel npos ncap []
        else
          store cur npos (take (Z.to_nat ncap) buf) ;;;
          modify (λ ba, set_position (m_position ba + ncap) ba) ;;;
          let* c := step_next cur in
          modify (set_cur c) ;;;
          let* nd := deref c in
          write_loop fuel 0 (nsize nd) (drop (Z.to_nat ncap) buf)
      else ret tt
  end.

(** One iteration per remaining node, one for the final part and one for the exit test. *)
Definition loop_fuel (ba : ByteArray) : nat := (length (m_nodes ba) + 2)%nat.

Definition write (buf : list Z) : ST ByteArray unit :=
  let size := zlen buf in
  if size =? 0 then ret tt
  else
    addCapacity size ;;;
    let* ba := gets id in
    let npos := m_position ba `mod` m_basesize ba in
    let* nd := deref (m_cur ba) in
    let ncap := u64 (nsize nd - npos) in
    write_loop (loop_fuel ba) npos ncap buf ;;;
    modify (λ ba, if m_size ba <? m_position ba then set_size (m_position ba) ba else ba).

(** The loop of [read]: [acc] is the part of the caller's buffer already filled. *)
Fixpoint read_loop (fuel : nat) (npos ncap size : Z) (acc : list Z) : ST ByteArray (list Z) :=
  match fuel with
  | O => crash Diverges
  | S fuel =>
      if 0 <? size then
        let* cur := gets m_cur in
        if size <=? ncap then
          let* d := load cur npos size in
          let* nd := deref cur in
          (if nsize nd =? npos + size
           then let* c := step_next cur in modify (set_cur c)
           else ret tt) ;;;
          modify (λ ba, set_position (m_position ba + size) ba) ;;;
          read_loop fuel npos ncap 0 (acc ++ d)
        else
          let* d := load cur npos ncap in
          modify (λ ba, set_position (m_position ba + ncap) ba) ;;;
          let* c := step_next cur in
          modify (set_cur c) ;;;
          let* nd := deref c in
          read_loop fuel 0 (nsize nd) (size - ncap) (acc ++ d)
      else ret acc
  end.

Definition read (size : Z) : ST ByteArray (list Z) :=
  let* ba := gets id in
  if getReadSize ba <? size then throw out_of_range
  else
    let npos := m_position ba `mod` m_basesize ba in
    let* nd := deref (m_cur ba) in
    let ncap := u64 (nsize nd - npos) in
    read_loop (loop_fuel ba) npos ncap size [].

(** The [const] overload keeps its own [cur] and [position]. *)
Fixpoint read_at_loop (fuel : nat) (cur : option nat) (npos ncap size : Z) (acc : list Z) :
    ST ByteArray (list Z) :=
  match fuel with
  | O => crash Diverges
  | S fuel =>
      if 0 <? size then
        if size <=? ncap then
          let* d := load cur npos size in
          read_at_loop fuel cur npos ncap 0 (acc ++ d)
        else
          let* d := load cur npos ncap in
          let* c := step_next cur in
          let* nd := deref c in
          read_at_loop fuel c 0 (nsize nd) (size - ncap) (acc ++ d)
      else ret acc
  end.

Definition read_at (size position : Z) : ST ByteArray (list Z) :=
  let* ba := gets id in
  if u64 (m_size ba - position) <? size then throw out_of_range
  else
    let npos := position `mod` m_basesize ba in
    let* nd := deref (m_cur ba) in
    let ncap := u64 (nsize nd - npos) in
    read_at_loop (loop_fuel ba) (m_cur ba) npos ncap size [].

(** The walk of [setPosition]: [nodes] is the list from node [i] on. *)
Fixpoint seek (nodes : list Node) (i : nat) (v : Z) : ST ByteArray (option nat) :=
  match nodes with
  | [] => crash NullDeref
  | nd :: rest =>
      if nsize nd <? v then seek rest (S i) (v - nsize nd)
      else if v =? nsize nd then step_next (Some i) else ret (Some i)
  end.

Definition setPosition (v : Z) : ST ByteArray unit :=
  let* ba := gets id in
  if m_capacity ba <? v then throw out_of_range
  else
    modify (set_position v) ;;;
    modify (λ ba, if m_size ba <? m_position ba then set_size (m_position ba) ba else ba) ;;;
    let* c := seek (m_nodes ba) 0 v in
    modify (set_cur c).

(** [clear]: keep the first node, delete the others. *)
Definition clear : ST ByteArray unit :=
  modify (λ ba, set_capacity (m_basesize ba) (set_size 0 (set_position 0 ba))) ;;;
  modify (λ ba, set_nodes (take 1 (m_nodes ba)) (set_cur (Some 0%nat) ba)).

Definition toString : ST ByteArray (list Z) :=
  let* ba := gets id in
  let n := getReadSize ba in
  if n =? 0 then ret [] else read_at n (m_position ba).

(** ** Scatter/gather views: an [iovec] points into a node. *)
Record iovec := mkIovec { iov_node : nat; iov_off : Z; iov_len : Z }.

(** The loop shared by [getReadBuffers] and [getWriteBuffers]. *)
Fixpoint iov_loop (fuel : nat) (cur : option nat) (npos ncap len : Z) (buffers : list iovec) :
    ST ByteArray (list iovec) :=
  match fuel with
  | O => crash Diverges
  | S fuel =>
      if 0 <? len then
        match cur with
        | None => crash NullDeref
        | Some i =>
            if len <=? ncap then
              iov_loop fuel cur npos ncap 0 (buffers ++ [mkIovec i npos len])
            else
              let* c := step_next cur in
              let* nd := deref c in
              iov_loop fuel c 0 (nsize nd) (len - ncap) (buffers ++ [mkIovec i npos ncap])
        end
      else ret buffers
  end.

(** [getReadBuffers(buffers, len)]; the result is the returned size and the vector. *)
Definition getReadBuffers (buffers : list iovec) (len : Z) : ST ByteArray (Z * list iovec) :=
  let* ba := gets id in
  let len := if getReadSize ba <? len then u32 (getReadSize ba) else len in
  if len =? 0 then ret (0, buffers)
  else
    let npos := m_position ba `mod` m_basesize ba in
    let* nd := deref (m_cur ba) in
    let ncap := u64 (nsize nd - npos) in
    let* bs := iov_loop (loop_fuel ba) (m_cur ba) npos ncap len buffers in
    ret (len, bs).

(** The [while(count > 0)] walk from [m_root]. *)
Fixpoint walk (count : nat) (cur : option nat) : ST ByteArray (option nat) :=
  match count with
  | O => ret cur
  | S count => let* c := step_next cur in walk count c
  end.

Definition getReadBuffersAt (buffers : list iovec) (len position : Z) : ST ByteArray (Z * list iovec) :=
  let* ba := gets id in
  let len := if getReadSize ba <? len then u32 (getReadSize ba) else len in
  if len =? 0 then ret (0, buffers)
  else
    let npos := position `mod` m_basesize ba in
    let* cur := walk (Z.to_nat (position `div` m_basesize ba)) (Some 0%nat) in
    let* nd := deref cur in
    let ncap := u64 (nsize nd - npos) in
    let* bs := iov_loop (loop_fuel ba) cur npos ncap len buffers in
    ret (len, bs).

Definition getWriteBuffers (buffers : list iovec) (len : Z) : ST ByteArray (Z * list iovec) :=
  if len =? 0 then ret (0, buffers)
  else
    addCapacity len ;;;
    let* ba := gets id in
    let npos := m_position ba `mod` m_basesize ba in
    let* nd := deref (m_cur ba) in
    let ncap := u64 (nsize nd - npos) in
    let* bs := iov_loop (loop_fuel ba) (m_cur ba) npos ncap len buffers in
    ret (len, bs).

(** The bytes an [iovec] denotes. *)
Definition iov_bytes (ba : ByteArray) (v : iovec) : list Z :=
  match m_nodes ba !! iov_node v with
  | Some nd => slice (ptr nd) (Z.to_nat (iov_off v)) (Z.to_nat (iov_len v))
  | None => []
  end.

(** ** Files: the stream is the list of bytes written so far and its [good] bit. *)
Fixpoint writeToFile_loop (fuel : nat) (cur : option nat) (pos read_size : Z) (good : bool) (out : list Z) :
    ST ByteArray (list Z) :=
  match fuel with
  | O => crash Diverges
  | S fuel =>
      if 0 <? read_size then
        let* ba := gets id in
        let diff := pos `mod` m_basesize ba in
        let len := (if m_basesize ba <? read_size then m_basesize ba else read_size) - diff in
        let* nd := deref cur in
        let* d := (if 0 <=? len then load cur diff len else ret []) in
        let good := good && (0 <=? len) in
        let* c := step_next cur in
        writeToFile_loop fuel c (pos + len) (read_size - len) good (if good then out ++ d else out)
      else ret out
  end.

(** [None]: the file could not be opened ([false] is returned). *)
Definition writeToFile (opened : bool) : ST ByteArray (option (list Z)) :=
  if negb opened then ret None
  else
    let* ba := gets id in
    let* out := writeToFile_loop (loop_fuel ba) (m_cur ba) (m_position ba) (getReadSize ba) true [] in
    ret (Some out).

(** The loop of [readFromFile]: [file] is what is left of the input; end of
    file is hit by the first [ifs.read] that gets fewer bytes than asked. *)
Fixpoint readFromFile_loop (fuel : nat) (file : list Z) : ST ByteArray unit :=
  match fuel with
  | O => crash Diverges
  | S fuel =>
      let* ba := gets id in
      let n := m_basesize ba in
      write (take (Z.to_nat n) file) ;;;
      if zlen file <? n then ret tt
      else readFromFile_loop fuel (drop (Z.to_nat n) file)
  end.

Definition readFromFile (file : option (list Z)) : ST ByteArray bool :=
  match file with
  | None => ret false
  | Some file => readFromFile_loop (length file + 2) file ;;; ret true
  end.

(** [toHexString]: two hex digits and a blank per byte, a newline every 32 bytes. *)
Definition hex_digit (z : Z) : Z := if z <? 10 then 48 + z else 87 + z.
Fixpoint hex_loop (i : nat) (str : list Z) : list Z :=
  match str with
  | [] => []
  | b :: str =>
      (if ((0 <? i)%nat && (i `mod` 32 =? 0)%nat) then [10] else [])
      ++ [hex_digit (b `div` 16); hex_digit (b `mod` 16); 32] ++ hex_loop (S i) str
  end.
Definition toHexString : ST ByteArray (list Z) :=
  let* str := toString in ret (hex_loop 0 str).
End ByteArray.
