(* ===== verification/ByteArrayFacts.v ===== *)
(** * ByteArrayFacts: the invariant of [ByteArray] and what its operations do

    The abstract view of a buffer is a byte string with a cursor:
    [data ba] (the first [m_size] bytes of the concatenated nodes) and
    [m_position ba].  [wf] is the representation invariant. *)
From S2P Require Import Prelude Endian ByteArray.

Definition uniform (b : Z) (l : list Node) : Prop :=
  Forall (λ nd, nsize nd = b ∧ zlen (ptr nd) = b) l.

Definition joined (l : list Node) : list Z := mjoin (ptr <$> l).
Definition contents (ba : ByteArray) : list Z := joined (m_nodes ba).
Definition data (ba : ByteArray) : list Z := take (Z.to_nat (m_size ba)) (contents ba).

(** Where [m_cur] must point for a position [p] over [n] nodes of [b] bytes. *)
Definition cur_at (b : Z) (n : nat) (p : Z) : option nat :=
  if decide (p < b * Z.of_nat n) then Some (Z.to_nat (p `div` b)) else None.

Record wf (ba : ByteArray) : Prop := {
  wf_base : 0 < m_basesize ba;
  wf_uniform : uniform (m_basesize ba) (m_nodes ba);
  wf_root : (0 < length (m_nodes ba))%nat;
  wf_capacity : m_capacity ba = m_basesize ba * Z.of_nat (length (m_nodes ba));
  wf_position : 0 ≤ m_position ba ≤ m_size ba;
  wf_size : m_size ba ≤ m_capacity ba;
  wf_bound : m_capacity ba < 2 ^ 64;
  wf_cur : m_cur ba = cur_at (m_basesize ba) (length (m_nodes ba)) (m_position ba)
}.

Section uniform.
Context (b : Z) (Hb : 0 < b).

Lemma uniform_lookup l i nd : uniform b l → l !! i = Some nd → nsize nd = b ∧ zlen (ptr nd) = b.
Proof. intros H Hi. by apply (Forall_lookup_1 _ _ _ _ H Hi). Qed.

Lemma length_joined l : uniform b l → length (joined l) = (length l * Z.to_nat b)%nat.
Proof.
  unfold joined, zlen. induction 1 as [|nd l [_ H] Hl IH]; [done|].
  csimpl. rewrite length_app, IH. unfold zlen in H. lia.
Qed.

Lemma joined_insert l i nd off d : uniform b l → l !! i = Some nd →
  0 ≤ off → off + zlen d ≤ b →
  joined (<[i := mkNode (splice (ptr nd) (Z.to_nat off) d) (nsize nd)]> l)
  = splice (joined l) (Z.to_nat (Z.of_nat i * b + off)) d.
Proof.
  intros Hu Hi Ho Hd. rewrite to_nat_block by lia. revert i Hi.
  induction Hu as [|nd' l [_ Hn] Hl IH]; intros [|i] Hi; [done|done|injection Hi as <-|simpl in Hi].
  - unfold joined; csimpl. unfold zlen in *. by rewrite splice_app_l by lia.
  - unfold joined in *; csimpl. rewrite IH by done.
    assert (length (ptr nd') = Z.to_nat b) as <- by (unfold zlen in Hn; lia).
    by rewrite <- Nat.add_assoc, splice_app_r.
Qed.

Lemma joined_slice l i nd off n : uniform b l → l !! i = Some nd →
  0 ≤ off → 0 ≤ n → off + n ≤ b →
  slice (joined l) (Z.to_nat (Z.of_nat i * b + off)) (Z.to_nat n)
  = slice (ptr nd) (Z.to_nat off) (Z.to_nat n).
Proof.
  intros Hu Hi Ho Hn Hd. rewrite to_nat_block by lia. revert i Hi.
  induction Hu as [|nd' l [_ Hn'] Hl IH]; intros [|i] Hi; [done|done|injection Hi as <-|simpl in Hi].
  - unfold joined; csimpl. unfold zlen in *. by rewrite slice_app_l by lia.
  - unfold joined in *; csimpl. rewrite <- (IH i) by done.
    assert (length (ptr nd') = Z.to_nat b) as <- by (unfold zlen in Hn'; lia).
    by rewrite <- Nat.add_assoc, slice_app_r.
Qed.

Lemma uniform_insert l i nd off d : uniform b l → l !! i = Some nd →
  0 ≤ off → off + zlen d ≤ b →
  uniform b (<[i := mkNode (splice (ptr nd) (Z.to_nat off) d) (nsize nd)]> l).
Proof.
  intros Hu Hi Ho Hd. destruct (uniform_lookup l i nd Hu Hi) as [Hs Hp].
  apply Forall_insert; [done|]. simpl. split; [done|].
  unfold zlen in *. rewrite length_splice; lia.
Qed.

Lemma cur_at_Some n i off : 0 ≤ off < b → (i < n)%nat →
  cur_at b n (Z.of_nat i * b + off) = Some i.
Proof.
  intros. unfold cur_at. rewrite decide_True by nia.
  rewrite block_div by lia. by rewrite Nat2Z.id.
Qed.

(** The pointer after the last byte of node [i] has been consumed. *)
Lemma cur_at_next n i : (i < n)%nat →
  cur_at b n (Z.of_nat i * b + b) = if decide (S i < n)%nat then Some (S i) else None.
Proof.
  intros. unfold cur_at. replace (Z.of_nat i * b + b) with (Z.of_nat (S i) * b + 0) by lia.
  case_decide; case_decide; [|nia..|done].
  rewrite block_div by lia. f_equal. lia.
Qed.

(** A position below the capacity lies in node [p / b]. *)
Lemma cur_at_decompose n p : 0 ≤ p < b * Z.of_nat n →
  ∃ i, cur_at b n p = Some i ∧ (i < n)%nat ∧ p = Z.of_nat i * b + p `mod` b ∧ 0 ≤ p `mod` b < b.
Proof.
  intros Hp. exists (Z.to_nat (p `div` b)).
  pose proof (Z.mod_pos_bound p b Hb). pose proof (Z_div_mod_eq_full p b).
  assert (0 ≤ p `div` b) by (apply Z.div_pos; lia).
  unfold cur_at. rewrite decide_True by lia. repeat split; [|lia..].
  assert (p `div` b < Z.of_nat n) by (apply Z.div_lt_upper_bound; lia). lia.
Qed.
End uniform.

(** ** Steps of the loops *)
Lemma deref_ok ba i nd : m_nodes ba !! i = Some nd → deref (Some i) ba = Ret nd ba.
Proof. intros H. unfold deref. by rewrite H. Qed.

Lemma store_ok ba i nd off d : m_nodes ba !! i = Some nd →
  0 ≤ off → off + zlen d ≤ zlen (ptr nd) →
  store (Some i) off d ba
  = Ret tt (set_nodes (<[i := mkNode (splice (ptr nd) (Z.to_nat off) d) (nsize nd)]> (m_nodes ba)) ba).
Proof. intros H ??. unfold store. rewrite H. by rewrite decide_True. Qed.

Lemma load_ok ba i nd off n : m_nodes ba !! i = Some nd →
  0 ≤ off → 0 ≤ n → off + n ≤ zlen (ptr nd) →
  load (Some i) off n ba = Ret (slice (ptr nd) (Z.to_nat off) (Z.to_nat n)) ba.
Proof. intros H ???. unfold load. rewrite H. by rewrite decide_True. Qed.

Lemma next_of_lt ba i : (S i < length (m_nodes ba))%nat → next_of ba i = Some (S i).
Proof. intros. unfold next_of. by rewrite decide_True. Qed.

Lemma write_loop_spec b fuel buf ba i npos :
  m_basesize ba = b → 0 < b → uniform b (m_nodes ba) → m_cur ba = Some i →
  (i < length (m_nodes ba))%nat → 0 ≤ npos < b →
  Z.of_nat i * b + npos + zlen buf ≤ b * Z.of_nat (length (m_nodes ba)) →
  (length (m_nodes ba) - i + 1 < fuel)%nat → buf ≠ [] →
  ∃ nodes',
    write_loop fuel npos (b - npos) buf ba
    = Ret tt (set_cur (cur_at b (length (m_nodes ba)) (Z.of_nat i * b + npos + zlen buf))
               (set_position (m_position ba + zlen buf) (set_nodes nodes' ba)))
    ∧ uniform b nodes' ∧ length nodes' = length (m_nodes ba)
    ∧ joined nodes' = splice (joined (m_nodes ba)) (Z.to_nat (Z.of_nat i * b + npos)) buf.
Proof.
  intros Hbase Hb. revert buf ba i npos Hbase.
  induction fuel as [|fuel IH]; [intros; lia|].
  intros buf ba i npos Hbase Hu Hcur Hi Hnpos Hfit Hfuel Hbuf.
  destruct (lookup_lt_is_Some_2 _ _ Hi) as [nd Hnd].
  destruct (uniform_lookup b _ _ _ Hu Hnd) as [Hsz Hptr].
  assert (0 < zlen buf) as Hlen.
  { pose proof (zlen_nonneg buf). pose proof (zlen_0 buf). destruct (decide (zlen buf = 0)); [tauto|lia]. }
  cbn [write_loop]. rewrite (proj2 (Z.ltb_lt _ _) Hlen). step_monad. rewrite Hcur.
  case_match eqn:Hle; [apply Z.leb_le in Hle | apply Z.leb_gt in Hle].
  - (* the rest fits in the current node *)
    erewrite bind_Ret by (eapply store_ok; [done|lia..]).
    erewrite bind_Ret by (apply deref_ok; simpl; by rewrite list_lookup_insert_eq).
    set (nodes' := <[i:=_]> (m_nodes ba)).
    assert (length nodes' = length (m_nodes ba)) as Hln by apply length_insert.
    exists nodes'. split_and!; [|apply uniform_insert; done || lia|done|apply joined_insert; done || lia].
    simpl. destruct fuel as [|fuel]; [lia|]. case_match eqn:Heq; simpl.
    + apply Z.eqb_eq in Heq. unfold bind, step_next, modify; simpl.
      replace (Z.of_nat i * b + npos + zlen buf) with (Z.of_nat i * b + b) by lia.
      rewrite cur_at_next by done. unfold next_of; simpl. by rewrite Hln.
    + apply Z.eqb_neq in Heq. unfold bind, ret, modify; simpl.
      replace (Z.of_nat i * b + npos + zlen buf) with (Z.of_nat i * b + (npos + zlen buf)) by lia.
      rewrite cur_at_Some by lia. unfold set_cur, set_position, set_nodes; simpl. by rewrite Hcur.
  - (* fill the current node and go on with the next *)
    assert (zlen (take (Z.to_nat (b - npos)) buf) = b - npos) as Htake by (apply zlen_take; lia).
    assert (S i < length (m_nodes ba))%nat as Hnext by nia.
    erewrite bind_Ret by (eapply store_ok; [done|lia..]).
    set (nodes1 := <[i:=_]> (m_nodes ba)).
    assert (length nodes1 = length (m_nodes ba)) as Hln by apply length_insert.
    assert (uniform b nodes1) as Hu1 by (apply uniform_insert; lia || done).
    destruct (lookup_lt_is_Some_2 nodes1 (S i)) as [nd1 Hnd1]; [lia|].
    destruct (uniform_lookup b _ _ _ Hu1 Hnd1) as [Hsz1 _].
    unfold bind at 1, modify at 1. unfold bind at 1, step_next at 1. cbv beta iota.
    rewrite next_of_lt by (simpl; lia). unfold bind at 1, modify at 1.
    erewrite bind_Ret by (by apply deref_ok). rewrite Hsz1.
    destruct (IH (drop (Z.to_nat (b - npos)) buf)
                (set_cur (Some (S i)) (set_position (m_position ba + (b - npos)) (set_nodes nodes1 ba)))
                (S i) 0) as (nodes' & E & Hu' & Hl' & Hj'); simpl; try done; try lia.
    { rewrite zlen_drop, Hln by lia. lia. }
    { intros Hd. apply zlen_0 in Hd. rewrite zlen_drop in Hd by lia. lia. }
    simpl in *. rewrite zlen_drop in E by lia. replace (b - 0) with b in E by lia.
    exists nodes'. split_and!; [|done|lia|].
    + rewrite E, Hln. unfold set_cur, set_position, set_nodes; simpl.
      f_equal. f_equal; [lia|]. f_equal; lia.
    + rewrite Hj'. unfold nodes1. rewrite (joined_insert b) by (lia || done).
      rewrite <- (take_drop (Z.to_nat (b - npos)) buf) at 3.
      rewrite <- splice_app_data.
      * f_equal. unfold zlen in Htake. lia.
      * rewrite (length_joined b) by done. rewrite length_take, length_drop.
        unfold zlen in *. nia.
Qed.

Lemma read_loop_spec b fuel size acc ba i npos :
  m_basesize ba = b → 0 < b → uniform b (m_nodes ba) → m_cur ba = Some i →
  (i < length (m_nodes ba))%nat → 0 ≤ npos < b → 0 ≤ size →
  Z.of_nat i * b + npos + size ≤ b * Z.of_nat (length (m_nodes ba)) →
  (length (m_nodes ba) - i + 1 < fuel)%nat →
  read_loop fuel npos (b - npos) size acc ba
  = Ret (acc ++ slice (contents ba) (Z.to_nat (Z.of_nat i * b + npos)) (Z.to_nat size))
      (set_cur (cur_at b (length (m_nodes ba)) (Z.of_nat i * b + npos + size))
         (set_position (m_position ba + size) ba)).
Proof.
  intros Hbase Hb. revert size acc ba i npos Hbase.
  induction fuel as [|fuel IH]; [intros; lia|].
  intros size acc ba i npos Hbase Hu Hcur Hi Hnpos Hsize Hfit Hfuel.
  destruct (lookup_lt_is_Some_2 _ _ Hi) as [nd Hnd].
  destruct (uniform_lookup b _ _ _ Hu Hnd) as [Hsz Hptr].
  cbn [read_loop]. case_match eqn:Hlt; [apply Z.ltb_lt in Hlt | apply Z.ltb_ge in Hlt].
  2: { assert (size = 0) as -> by lia. unfold ret. rewrite !Z.add_0_r.
       rewrite cur_at_Some by lia. unfold slice. rewrite take_0, app_nil_r.
       f_equal. rewrite <- Hcur. by destruct ba. }
  step_monad. rewrite Hcur.
  case_match eqn:Hle; [apply Z.leb_le in Hle | apply Z.leb_gt in Hle].
  - erewrite bind_Ret by (eapply load_ok; [done|lia..]).
    erewrite bind_Ret by (by apply deref_ok).
    rewrite <- (joined_slice b Hb (m_nodes ba) i) by (done || lia).
    destruct fuel as [|fuel]; [lia|]. case_match eqn:Heq; simpl.
    + apply Z.eqb_eq in Heq. unfold bind, step_next, modify, ret; simpl.
      replace (Z.of_nat i * b + npos + size) with (Z.of_nat i * b + b) by lia.
      by rewrite cur_at_next.
    + apply Z.eqb_neq in Heq. unfold bind, modify, ret; simpl.
      replace (Z.of_nat i * b + npos + size) with (Z.of_nat i * b + (npos + size)) by lia.
      rewrite cur_at_Some by lia. f_equal. unfold set_cur, set_position; simpl. by rewrite Hcur.
  - assert (S i < length (m_nodes ba))%nat as Hnext by nia.
    destruct (lookup_lt_is_Some_2 (m_nodes ba) (S i)) as [nd1 Hnd1]; [done|].
    destruct (uniform_lookup b _ _ _ Hu Hnd1) as [Hsz1 _].
    erewrite bind_Ret by (eapply load_ok; [done|lia..]).
    rewrite <- (joined_slice b Hb (m_nodes ba) i) by (done || lia).
    unfold bind at 1, modify at 1. unfold bind at 1, step_next at 1. cbv beta iota.
    rewrite next_of_lt by (simpl; lia). unfold bind at 1, modify at 1.
    erewrite bind_Ret by (by apply deref_ok). rewrite Hsz1.
    replace (read_loop fuel 0 b) with (read_loop fuel 0 (b - 0)) by (f_equal; lia).
    rewrite (IH _ _ _ (S i)) by (simpl; done || lia).
    unfold contents, set_cur, set_position; simpl. rewrite <- app_assoc. f_equal.
    + f_equal. replace (Z.to_nat size) with (Z.to_nat (b - npos) + Z.to_nat (size - (b - npos)))%nat by lia.
      rewrite slice_app. do 2 f_equal. lia.
    + f_equal; [lia|]. f_equal; lia.
Qed.

Lemma read_at_loop_spec b fuel size acc ba i npos :
  m_basesize ba = b → 0 < b → uniform b (m_nodes ba) →
  (i < length (m_nodes ba))%nat → 0 ≤ npos < b → 0 ≤ size →
  Z.of_nat i * b + npos + size ≤ b * Z.of_nat (length (m_nodes ba)) →
  (length (m_nodes ba) - i + 1 < fuel)%nat →
  read_at_loop fuel (Some i) npos (b - npos) size acc ba
  = Ret (acc ++ slice (contents ba) (Z.to_nat (Z.of_nat i * b + npos)) (Z.to_nat size)) ba.
Proof.
  intros Hbase Hb. revert size acc i npos.
  induction fuel as [|fuel IH]; [intros; lia|].
  intros size acc i npos Hu Hi Hnpos Hsize Hfit Hfuel.
  destruct (lookup_lt_is_Some_2 _ _ Hi) as [nd Hnd].
  destruct (uniform_lookup b _ _ _ Hu Hnd) as [Hsz Hptr].
  cbn [read_at_loop]. case_match eqn:Hlt; [apply Z.ltb_lt in Hlt | apply Z.ltb_ge in Hlt].
  2: { replace size with 0 by lia. unfold slice. by rewrite take_0, app_nil_r. }
  case_match eqn:Hle; [apply Z.leb_le in Hle | apply Z.leb_gt in Hle].
  - erewrite bind_Ret by (eapply load_ok; [done|lia..]).
    rewrite <- (joined_slice b Hb (m_nodes ba) i) by (done || lia). by destruct fuel as [|fuel]; [lia|].
  - assert (S i < length (m_nodes ba))%nat as Hnext by nia.
    destruct (lookup_lt_is_Some_2 (m_nodes ba) (S i)) as [nd1 Hnd1]; [done|].
    destruct (uniform_lookup b _ _ _ Hu Hnd1) as [Hsz1 _].
    erewrite bind_Ret by (eapply load_ok; [done|lia..]).
    rewrite <- (joined_slice b Hb (m_nodes ba) i) by (done || lia).
    unfold bind at 1, step_next at 1. rewrite next_of_lt by done.
    erewrite bind_Ret by (by apply deref_ok). rewrite Hsz1.
    replace (read_at_loop fuel (Some (S i)) 0 b) with (read_at_loop fuel (Some (S i)) 0 (b - 0)) by (f_equal; lia).
    rewrite IH by (done || lia). unfold contents. rewrite <- app_assoc. do 2 f_equal.
    replace (Z.to_nat size) with (Z.to_nat (b - npos) + Z.to_nat (size - (b - npos)))%nat by lia.
    rewrite slice_app. do 2 f_equal. lia.
Qed.

(** ** The operations *)
Section ops.
Variable fresh : nat → Z.
#[local] Abbreviation junk n := (fresh <$> seq 0 (Z.to_nat n)).

Lemma wf_capacity_bound ba : wf ba → m_basesize ba ≤ m_capacity ba.
Proof. intros H. pose proof (wf_base ba H). pose proof (wf_root ba H). rewrite (wf_capacity ba H). nia. Qed.

Lemma length_contents ba : wf ba → zlen (contents ba) = m_capacity ba.
Proof.
  intros H. unfold zlen, contents. rewrite (length_joined (m_basesize ba)) by (apply wf_base || apply wf_uniform; done).
  rewrite (wf_capacity ba H). pose proof (wf_base ba H). lia.
Qed.

Lemma zlen_data ba : wf ba → zlen (data ba) = m_size ba.
Proof.
  intros H. unfold data. apply zlen_take. rewrite length_contents by done.
  pose proof (wf_position ba H). pose proof (wf_size ba H). lia.
Qed.

Lemma getReadSize_wf ba : wf ba → getReadSize ba = m_size ba - m_position ba.
Proof.
  intros H. apply uwrap_small. unfold is_u.
  pose proof (wf_position ba H). pose proof (wf_size ba H). pose proof (wf_bound ba H). lia.
Qed.

Lemma getCapacity_wf ba : wf ba → getCapacity ba = m_capacity ba - m_position ba.
Proof.
  intros H. apply uwrap_small. unfold is_u.
  pose proof (wf_position ba H). pose proof (wf_size ba H). pose proof (wf_bound ba H). lia.
Qed.

Lemma ByteArray_new_wf b : 0 < b < 2 ^ 64 → wf (ByteArray_new fresh b).
Proof.
  intros Hb. constructor; simpl; try lia.
  - repeat constructor. unfold zlen; simpl. rewrite length_fmap, length_seq. lia.
  - unfold cur_at. rewrite decide_True by lia. by rewrite Zdiv_0_l.
Qed.

Lemma add_nodes_spec count ba :
  add_nodes fresh count ba
  = set_capacity (m_capacity ba + Z.of_nat count * m_basesize ba)
      (set_nodes (m_nodes ba ++ replicate count (Node_new fresh (m_basesize ba))) ba).
Proof.
  revert ba. induction count as [|count IH]; intros ba; simpl.
  - rewrite app_nil_r, Z.add_0_r. by destruct ba.
  - rewrite IH; simpl. unfold set_capacity, set_nodes; simpl. f_equal; [lia|].
    by rewrite <- app_assoc.
Qed.

Lemma ceil_div_spec a b : 0 < b → a ≤ ceil_div a b * b < a + b.
Proof.
  intros Hb. unfold ceil_div. pose proof (Z_div_mod_eq_full (a + b - 1) b).
  pose proof (Z.mod_pos_bound (a + b - 1) b). lia.
Qed.

(** [addCapacity] makes room for [size] more bytes and changes nothing else. *)
Lemma addCapacity_spec ba size :
  wf ba → 0 ≤ size → m_position ba + size + m_basesize ba < 2 ^ 64 →
  ∃ ba' count, addCapacity fresh size ba = Ret tt ba' ∧ wf ba'
    ∧ contents ba' = contents ba ++ mjoin (replicate count (junk (m_basesize ba)))
    ∧ m_capacity ba' = m_capacity ba + Z.of_nat count * m_basesize ba
    ∧ m_basesize ba' = m_basesize ba ∧ m_position ba' = m_position ba
    ∧ m_size ba' = m_size ba ∧ m_endian ba' = m_endian ba
    ∧ m_position ba + size ≤ m_capacity ba'.
Proof.
  intros H Hs Hbd. pose proof (getCapacity_wf ba H) as Hc.
  destruct H as [Hb Hu Hr Hcap Hpos Hsize Hbound Hcur]. unfold addCapacity.
  destruct (size =? 0) eqn:H0; [|destruct (size <=? getCapacity ba) eqn:H1].
  1,2: exists ba, 0%nat; simpl; rewrite app_nil_r, Z.add_0_r; split_and!;
       solve [done | by constructor | apply Z.eqb_eq in H0; lia | apply Z.leb_le in H1; lia].
  apply Z.eqb_neq in H0. apply Z.leb_gt in H1. rewrite Hc in *.
  set (k := ceil_div (size - (m_capacity ba - m_position ba)) (m_basesize ba)).
  pose proof (ceil_div_spec (size - (m_capacity ba - m_position ba)) _ Hb) as Hk. fold k in Hk.
  assert (0 < k) as Hk0 by nia.
  rewrite add_nodes_spec. exists (if m_capacity ba - m_position ba =? 0
    then set_cur (Some (length (m_nodes ba))) (set_capacity (m_capacity ba + Z.of_nat (Z.to_nat k) * m_basesize ba)
      (set_nodes (m_nodes ba ++ replicate (Z.to_nat k) (Node_new fresh (m_basesize ba))) ba))
    else set_capacity (m_capacity ba + Z.of_nat (Z.to_nat k) * m_basesize ba)
      (set_nodes (m_nodes ba ++ replicate (Z.to_nat k) (Node_new fresh (m_basesize ba))) ba)), (Z.to_nat k).
  rewrite Z2Nat.id by lia. split_and!.
  - case_match; [|done]. destruct (Z.to_nat k) eqn:?; [lia|done].
  - constructor; case_match eqn:He; simpl; rewrite ?length_app, ?length_replicate; try lia; try done.
    1,2: apply Forall_app_2; [done|]; apply Forall_replicate; simpl; unfold zlen;
         rewrite length_fmap, length_seq; lia.
    + apply Z.eqb_eq in He. unfold cur_at. rewrite decide_True by nia. f_equal.
      replace (m_position ba) with (Z.of_nat (length (m_nodes ba)) * m_basesize ba) by lia.
      rewrite Z.div_mul by lia. lia.
    + apply Z.eqb_neq in He. rewrite Hcur. unfold cur_at. by rewrite !decide_True by nia.
  - unfold contents. case_match; simpl; unfold joined; rewrite fmap_app, join_app, fmap_replicate; done.
  - case_match; done.
  - case_match; done.
  - case_match; done.
  - case_match; done.
  - case_match; done.
  - case_match; simpl; lia.
Qed.

Lemma cur_of_wf ba : wf ba → m_position ba < m_capacity ba →
  ∃ i, m_cur ba = Some i ∧ (i < length (m_nodes ba))%nat
    ∧ m_position ba = Z.of_nat i * m_basesize ba + m_position ba `mod` m_basesize ba
    ∧ 0 ≤ m_position ba `mod` m_basesize ba < m_basesize ba.
Proof.
  intros [Hb Hu Hr Hcap Hpos Hsize Hbound Hcur] Hlt. rewrite Hcur.
  apply cur_at_decompose; lia.
Qed.

Lemma ncap_wf ba nd : wf ba → nsize nd = m_basesize ba →
  u64 (nsize nd - m_position ba `mod` m_basesize ba) = m_basesize ba - m_position ba `mod` m_basesize ba.
Proof.
  intros H ->. apply uwrap_small. unfold is_u. pose proof (wf_base ba H).
  pose proof (wf_capacity_bound ba H). pose proof (wf_bound ba H).
  pose proof (Z.mod_pos_bound (m_position ba) (m_basesize ba)). lia.
Qed.

(** Writing a non-empty buffer overwrites the data at the cursor, extending it
    when it ends before the cursor plus the length. *)
Lemma write_spec ba buf :
  wf ba → m_position ba + zlen buf + m_basesize ba < 2 ^ 64 → buf ≠ [] →
  ∃ ba', write fresh buf ba = Ret tt ba' ∧ wf ba'
    ∧ m_basesize ba' = m_basesize ba ∧ m_endian ba' = m_endian ba
    ∧ m_position ba' = m_position ba + zlen buf
    ∧ m_size ba' = m_size ba `max` (m_position ba + zlen buf)
    ∧ m_capacity ba ≤ m_capacity ba'
    ∧ data ba' = splice (data ba) (Z.to_nat (m_position ba)) buf.
Proof.
  intros H Hbd Hne.
  assert (0 < zlen buf) as Hlen.
  { pose proof (zlen_nonneg buf). destruct (decide (zlen buf = 0)) as [E|]; [|lia]. by apply zlen_0 in E. }
  unfold write. rewrite (proj2 (Z.eqb_neq (zlen buf) 0)) by lia.
  destruct (addCapacity_spec ba (zlen buf)) as (ba1 & k & E1 & H1 & Hc1 & Hcap1 & Hb1 & Hp1 & Hs1 & He1 & Hroom);
    [done|lia..|].
  erewrite bind_Ret by exact E1. step_monad.
  pose proof (wf_base ba1 H1) as Hb. pose proof (wf_position ba H) as Hpos. pose proof (wf_size ba H) as Hsize.
  destruct (cur_of_wf ba1 H1) as (i & Hcur & Hi & Hp & Hmod); [lia|].
  destruct (lookup_lt_is_Some_2 _ _ Hi) as [nd Hnd].
  destruct (uniform_lookup _ _ _ _ (wf_uniform ba1 H1) Hnd) as [Hsz Hptr].
  rewrite Hcur. erewrite bind_Ret by (by apply deref_ok).
  rewrite ncap_wf by done.
  destruct (write_loop_spec (m_basesize ba1) (loop_fuel ba1) buf ba1 i (m_position ba1 `mod` m_basesize ba1))
    as (nodes' & E & Hu' & Hl' & Hj'); try done; try apply H1; unfold loop_fuel; try lia.
  { rewrite <- Hp, <- (wf_capacity ba1 H1). lia. }
  rewrite <- Hp in E, Hj'.
  erewrite bind_Ret by exact E. unfold modify. eexists. split; [done|]. simpl. rewrite Hs1, Hp1.
  assert (length (contents ba) = Z.to_nat (m_capacity ba)) as Hlc.
  { pose proof (length_contents ba H) as L. unfold zlen in L. lia. }
  assert (zlen (contents ba1) = m_capacity ba1) as Hlc1 by (by apply length_contents).
  set (s' := m_size ba `max` (m_position ba + zlen buf)).
  assert (∀ ba2, ba2 = (if m_size ba <? m_position ba + zlen buf
     then set_size (m_position ba + zlen buf) (set_cur (cur_at (m_basesize ba1) (length (m_nodes ba1)) (m_position ba + zlen buf)) (set_position (m_position ba + zlen buf) (set_nodes nodes' ba1)))
     else set_cur (cur_at (m_basesize ba1) (length (m_nodes ba1)) (m_position ba + zlen buf)) (set_position (m_position ba + zlen buf) (set_nodes nodes' ba1)))
     → m_basesize ba2 = m_basesize ba ∧ m_endian ba2 = m_endian ba ∧ m_position ba2 = m_position ba + zlen buf
       ∧ m_size ba2 = s' ∧ m_capacity ba2 = m_capacity ba1 ∧ m_nodes ba2 = nodes'
       ∧ m_cur ba2 = cur_at (m_basesize ba1) (length (m_nodes ba1)) (m_position ba + zlen buf)) as Hfields.
  { intros ba2 ->. subst s'. case_match eqn:Hlt; simpl; split_and!; try done; try congruence;
      (apply Z.ltb_lt in Hlt || apply Z.ltb_ge in Hlt); lia. }
  edestruct Hfields as (F1 & F2 & F3 & F4 & F5 & F6 & F7); [reflexivity|].
  split.
  - constructor; rewrite ?F1, ?F2, ?F3, ?F4, ?F5, ?F6, ?F7, ?Hl'; try lia.
    + by rewrite <- Hb1.
    + rewrite <- Hb1. apply (wf_capacity ba1 H1).
    + pose proof (wf_bound ba1 H1). lia.
    + by rewrite Hb1.
  - split_and!; try done; [lia|]. unfold data. rewrite F4. unfold contents. rewrite F6, Hj', Hp1.
    change (joined (m_nodes ba1)) with (contents ba1). change (joined (m_nodes ba)) with (contents ba). subst s'. rewrite Z2Nat.inj_max, Z2Nat.inj_add by lia.
    unfold zlen in *. rewrite Nat2Z.id, take_splice by lia. f_equal.
    rewrite Hc1. rewrite take_app_le by lia. done.
Qed.

(** [read] on every branch: the bytes at the cursor, [out_of_range] when fewer
    are left, and the null dereference of [m_cur] at the end of the capacity. *)
Lemma read_spec ba n : wf ba → 0 ≤ n →
  read n ba
  = (if decide (m_size ba - m_position ba < n) then Throw out_of_range ba
     else if decide (m_position ba = m_capacity ba) then Crash NullDeref
     else Ret (slice (data ba) (Z.to_nat (m_position ba)) (Z.to_nat n))
            (set_cur (cur_at (m_basesize ba) (length (m_nodes ba)) (m_position ba + n))
               (set_position (m_position ba + n) ba))).
Proof.
  intros H Hn. unfold read. step_monad.  rewrite getReadSize_wf by done.
  pose proof (wf_position ba H). pose proof (wf_size ba H). pose proof (wf_capacity ba H).
  destruct (decide _) as [Hlt|Hge]; [by rewrite (proj2 (Z.ltb_lt _ _))|].
  rewrite (proj2 (Z.ltb_ge _ _)) by lia.
  destruct (decide _) as [Heq|Hne].
  - unfold bind, deref. rewrite (wf_cur ba H). unfold cur_at. by rewrite decide_False by lia.
  - destruct (cur_of_wf ba H) as (i & Hcur & Hi & Hp & Hmod); [lia|].
    destruct (lookup_lt_is_Some_2 _ _ Hi) as [nd Hnd].
    destruct (uniform_lookup _ _ _ _ (wf_uniform ba H) Hnd) as [Hsz Hptr].
    rewrite Hcur. erewrite bind_Ret by (by apply deref_ok). rewrite ncap_wf by done.
    rewrite (read_loop_spec (m_basesize ba) _ _ _ _ i); try done; try apply H; unfold loop_fuel; try lia.
    rewrite <- Hp. f_equal. unfold data. rewrite slice_take by lia. done.
Qed.

Lemma seek_spec b ba : 0 < b → ∀ nodes i v, uniform b nodes → 0 ≤ v ≤ b * Z.of_nat (length nodes) → nodes ≠ [] →
  length (m_nodes ba) = (i + length nodes)%nat →
  seek nodes i v ba = Ret (cur_at b (length (m_nodes ba)) (Z.of_nat i * b + v)) ba.
Proof.
  intros Hb nodes. induction nodes as [|nd nodes IH]; intros i v Hu Hv Hne Hl; [done|].
  inversion Hu as [|? ? [Hsz _] Hu']; subst. simpl in Hl, Hv. cbn [seek].
  destruct (Z.ltb_spec (nsize nd) v).
  - rewrite IH; try done; try lia; [|intros ->; simpl in *; lia]. do 2 f_equal. lia.
  - destruct (Z.eqb_spec v (nsize nd)) as [->|].
    + unfold step_next, next_of. by rewrite cur_at_next by lia.
    + unfold ret. by rewrite cur_at_Some by lia.
Qed.

(** [setPosition]: any position up to the capacity; past [m_size] it extends
    the data with the bytes that follow it in the nodes. *)
Lemma setPosition_spec ba v : wf ba → 0 ≤ v →
  setPosition v ba
  = if decide (m_capacity ba < v) then Throw out_of_range ba
    else Ret tt (set_cur (cur_at (m_basesize ba) (length (m_nodes ba)) v)
                   (set_size (m_size ba `max` v) (set_position v ba))).
Proof.
  intros H Hv. unfold setPosition. step_monad.
  destruct (decide _) as [Hlt|Hge]; [by rewrite (proj2 (Z.ltb_lt _ _))|].
  rewrite (proj2 (Z.ltb_ge _ _)) by lia. step_monad. simpl.
  destruct (Z.ltb_spec (m_size ba) v).
  - unfold bind. rewrite (seek_spec (m_basesize ba)); try apply H; simpl; try done.
    + unfold modify. rewrite Z.max_r by lia. done.
    + rewrite <- (wf_capacity ba H). lia.
    + intros E. pose proof (wf_root ba H) as Hr. rewrite E in Hr. simpl in Hr. lia.
  - unfold bind. rewrite (seek_spec (m_basesize ba)); try apply H; simpl; try done.
    + unfold modify. rewrite Z.max_l by lia. by destruct ba.
    + rewrite <- (wf_capacity ba H). lia.
    + intros E. pose proof (wf_root ba H) as Hr. rewrite E in Hr. simpl in Hr. lia.
Qed.

Lemma setPosition_wf ba v ba' : wf ba → 0 ≤ v → setPosition v ba = Ret tt ba' →
  wf ba' ∧ m_position ba' = v ∧ m_size ba' = m_size ba `max` v
  ∧ contents ba' = contents ba ∧ m_basesize ba' = m_basesize ba ∧ m_endian ba' = m_endian ba
  ∧ m_capacity ba' = m_capacity ba.
Proof.
  intros H Hv. rewrite setPosition_spec by done. destruct (decide _); [done|]. intros [= <-].
  destruct H as [Hb Hu Hr Hcap Hpos Hsize Hbound Hcur].
  split; [constructor; simpl; try done; lia|]. done.
Qed.

Lemma setPosition_ok ba v : wf ba → 0 ≤ v ≤ m_capacity ba →
  ∃ ba', setPosition v ba = Ret tt ba' ∧ wf ba' ∧ m_position ba' = v ∧ m_size ba' = m_size ba `max` v
  ∧ contents ba' = contents ba ∧ m_basesize ba' = m_basesize ba ∧ m_endian ba' = m_endian ba
  ∧ m_capacity ba' = m_capacity ba.
Proof.
  intros H Hv. assert (0 ≤ v) as Hv0 by lia.
  pose proof (setPosition_spec ba v H Hv0) as E. rewrite decide_False in E by lia.
  eexists. split; [exact E|]. by apply setPosition_wf.
Qed.

Lemma clear_spec ba : wf ba →
  ∃ ba', clear ba = Ret tt ba' ∧ wf ba' ∧ data ba' = [] ∧ m_position ba' = 0 ∧ m_size ba' = 0
    ∧ m_capacity ba' = m_basesize ba ∧ m_basesize ba' = m_basesize ba ∧ m_endian ba' = m_endian ba.
Proof.
  intros H. pose proof (wf_capacity_bound ba H). destruct H as [Hb Hu Hr Hcap Hpos Hsize Hbound Hcur].
  eexists. split; [done|]. split; [|done].
  destruct (m_nodes ba) as [|nd l] eqn:E; simpl in *; [lia|].
  inversion Hu; subst. constructor; simpl; rewrite ?E; simpl; rewrite ?take_0; simpl; try lia.
  - constructor; [done|constructor].
  - unfold cur_at. rewrite decide_True by lia. by rewrite Zdiv_0_l.
Qed.
End ops.
