(* ===== verification/ByteArrayCodec.v ===== *)
(** * ByteArrayCodec: the typed readers and writers of [ByteArray]
    ([src/bytearray.cpp], [writeFint8] ... [readStringVint])

    [host] is [AZURE_BYTE_ORDER].  A [float] or [double] is its IEEE bit
    pattern ([memcpy] to and from [uint32_t] / [uint64_t]). *)
From S2P Require Import Prelude Endian ByteArray.

Section codec.
Variables (fresh : nat → Z) (host : Z).

(** The two shapes all fixed-width writers and readers share. *)
Definition writeF (t : ctype) (value : Z) : ST ByteArray unit :=
  let* ba := gets id in
  let value := if m_endian ba =? host then value else byteswap t value in
  write fresh (repr host t value).

Definition readF (t : ctype) : ST ByteArray Z :=
  let* d := read (Z.of_nat (cbytes t)) in
  let* ba := gets id in
  let v := unrepr host t d in
  ret (if m_endian ba =? AZURE_BIG_ENDIAN then byteswap t v else v).

Definition writeFint8 (value : Z) : ST ByteArray unit := write fresh (repr host int8_t value).
Definition writeFuint8 (value : Z) : ST ByteArray unit := write fresh (repr host uint8_t value).
Definition writeFint16 : Z → ST ByteArray unit := writeF int16_t.
Definition writeFuint16 : Z → ST ByteArray unit := writeF uint16_t.
Definition writeFint32 : Z → ST ByteArray unit := writeF int32_t.
Definition writeFuint32 : Z → ST ByteArray unit := writeF uint32_t.
Definition writeFint64 : Z → ST ByteArray unit := writeF int64_t.
Definition writeFuint64 : Z → ST ByteArray unit := writeF uint64_t.

Definition readFint8 : ST ByteArray Z := let* d := read 1 in ret (unrepr host int8_t d).
Definition readFuint8 : ST ByteArray Z := let* d := read 1 in ret (unrepr host uint8_t d).
Definition readFint16 : ST ByteArray Z := readF int16_t.
Definition readFuint16 : ST ByteArray Z := readF uint16_t.
Definition readFint32 : ST ByteArray Z := readF int32_t.
Definition readFuint32 : ST ByteArray Z := readF uint32_t.
Definition readFint64 : ST ByteArray Z := readF int64_t.
Definition readFuint64 : ST ByteArray Z := readF uint64_t.

(** Zigzag.  The product [v * 2] and the negation [-v] are computed in the
    signed type, where an overflow is undefined; the rest is unsigned. *)
Definition EncodeZigzag32 (v : Z) : ST ByteArray Z :=
  if v <? 0 then
    if v =? - 2 ^ 31 then crash UndefinedArith else ret (u32 (u32 (- v) * 2 - 1))
  else if 2 ^ 31 <=? v * 2 then crash UndefinedArith else ret (u32 (v * 2)).
Definition EncodeZigzag64 (v : Z) : ST ByteArray Z :=
  if v <? 0 then
    if v =? - 2 ^ 63 then crash UndefinedArith else ret (u64 (u64 (- v) * 2 - 1))
  else if 2 ^ 63 <=? v * 2 then crash UndefinedArith else ret (u64 (v * 2)).
Definition DecodeZigzag32 (v : Z) : Z :=
  i32 (Z.lxor (Z.shiftr v 1) (u32 (- Z.land v 1))).
Definition DecodeZigzag64 (v : Z) : Z :=
  i64 (Z.lxor (Z.shiftr v 1) (u64 (- Z.land v 1))).

(** The [while] loop of [writeUint32/64]; [room] is what is left of [tmp],
    [None] a store past its end. *)
Fixpoint varint_bytes (room : nat) (value : Z) : option (list Z) :=
  match room with
  | O => None
  | S room =>
      if 128 <=? value
      then cons (Z.lor (Z.land value 127) 128) <$> varint_bytes room (Z.shiftr value 7)
      else Some [value]
  end.

Definition writeVarint (room : nat) (value : Z) : ST ByteArray unit :=
  match varint_bytes room value with
  | Some tmp => write fresh tmp
  | None => crash OutOfBounds
  end.

Definition writeUint32 (value : Z) : ST ByteArray unit := writeVarint 5 value.
Definition writeUint64 (value : Z) : ST ByteArray unit := writeVarint 10 value.
Definition writeInt32 (value : Z) : ST ByteArray unit := let* v := EncodeZigzag32 value in writeUint32 v.
Definition writeInt64 (value : Z) : ST ByteArray unit := let* v := EncodeZigzag64 value in writeUint64 v.

(** The [for] loop of [readUint32/64]: [bits] is 32 or 64. *)
Fixpoint readVarint_loop (fuel : nat) (bits i result : Z) : ST ByteArray Z :=
  match fuel with
  | O => crash Diverges
  | S fuel =>
      if i <? bits then
        let* b := readFuint8 in
        if b <? 128 then ret (Z.lor result (uwrap bits (Z.shiftl b i)))
        else readVarint_loop fuel bits (i + 7) (Z.lor result (uwrap bits (Z.shiftl (Z.land b 127) i)))
      else ret result
  end.

Definition readUint32 : ST ByteArray Z := readVarint_loop 6 32 0 0.
Definition readUint64 : ST ByteArray Z := readVarint_loop 11 64 0 0.
Definition readInt32 : ST ByteArray Z := let* v := readUint32 in ret (DecodeZigzag32 v).
Definition readInt64 : ST ByteArray Z := let* v := readUint64 in ret (DecodeZigzag64 v).

Definition writeFloat (bits : Z) : ST ByteArray unit := writeFint32 (conv int32_t bits).
Definition writeDouble (bits : Z) : ST ByteArray unit := writeFint64 (conv int64_t bits).
Definition readFloat : ST ByteArray Z := readFuint32.
Definition readDouble : ST ByteArray Z := readFuint64.

(** Strings. *)
Definition writeStringF16 (value : string) : ST ByteArray unit :=
  let b := bytes_of_string value in
  writeFint16 (conv int16_t (zlen b)) ;;; write fresh b.
Definition writeStringF32 (value : string) : ST ByteArray unit :=
  let b := bytes_of_string value in
  writeFint32 (conv int32_t (zlen b)) ;;; write fresh b.
Definition writeStringF64 (value : string) : ST ByteArray unit :=
  let b := bytes_of_string value in
  writeFint64 (conv int64_t (zlen b)) ;;; write fresh b.
Definition writeStringVint (value : string) : ST ByteArray unit :=
  let b := bytes_of_string value in
  writeFint64 (conv int64_t (zlen b)) ;;; write fresh b.
Definition writeStringWithoutLength (value : string) : ST ByteArray unit :=
  write fresh (bytes_of_string value).

(** [buf.resize(len); read(&buf[0], len)]; [resize] throws past [max_size()]. *)
Definition readBytes (len : Z) : ST ByteArray string :=
  if string_max_size <? len then throw length_error
  else let* d := read len in ret (string_of_bytes d).

Definition readStringF16 : ST ByteArray string := let* len := readFuint16 in readBytes len.
Definition readStringF32 : ST ByteArray string := let* len := readFuint32 in readBytes len.
Definition readStringF64 : ST ByteArray string := let* len := readFuint64 in readBytes len.
Definition readStringVint : ST ByteArray string := let* len := readUint64 in readBytes len.
End codec.

(** ** Values and their kinds: a common interface for the writers and readers. *)
Inductive kind :=
  | KFint8 | KFuint8 | KFint16 | KFuint16 | KFint32 | KFuint32 | KFint64 | KFuint64
  | KInt32 | KUint32 | KInt64 | KUint64 | KFloat | KDouble
  | KStringF16 | KStringF32 | KStringF64.

Inductive value := VInt (k : kind) (z : Z) | VStr (k : kind) (s : string).
Definition kind_of (v : value) : kind := match v with VInt k _ | VStr k _ => k end.

Section values.
Variables (fresh : nat → Z) (host : Z).

Definition write_value (v : value) : ST ByteArray unit :=
  match v with
  | VInt KFint8 z => writeFint8 fresh host z | VInt KFuint8 z => writeFuint8 fresh host z
  | VInt KFint16 z => writeFint16 fresh host z | VInt KFuint16 z => writeFuint16 fresh host z
  | VInt KFint32 z => writeFint32 fresh host z | VInt KFuint32 z => writeFuint32 fresh host z
  | VInt KFint64 z => writeFint64 fresh host z | VInt KFuint64 z => writeFuint64 fresh host z
  | VInt KInt32 z => writeInt32 fresh z | VInt KUint32 z => writeUint32 fresh z
  | VInt KInt64 z => writeInt64 fresh z | VInt KUint64 z => writeUint64 fresh z
  | VInt KFloat z => writeFloat fresh host z | VInt KDouble z => writeDouble fresh host z
  | VStr KStringF16 s => writeStringF16 fresh host s
  | VStr KStringF32 s => writeStringF32 fresh host s
  | VStr KStringF64 s => writeStringF64 fresh host s
  | _ => crash AssertFailed
  end.

Definition int_value (k : kind) (m : ST ByteArray Z) : ST ByteArray value := let* z := m in ret (VInt k z).
Definition str_value (k : kind) (m : ST ByteArray string) : ST ByteArray value := let* s := m in ret (VStr k s).

Definition read_value (k : kind) : ST ByteArray value :=
  match k with
  | KFint8 => int_value k (readFint8 host) | KFuint8 => int_value k (readFuint8 host)
  | KFint16 => int_value k (readFint16 host) | KFuint16 => int_value k (readFuint16 host)
  | KFint32 => int_value k (readFint32 host) | KFuint32 => int_value k (readFuint32 host)
  | KFint64 => int_value k (readFint64 host) | KFuint64 => int_value k (readFuint64 host)
  | KInt32 => int_value k (readInt32 host) | KUint32 => int_value k (readUint32 host)
  | KInt64 => int_value k (readInt64 host) | KUint64 => int_value k (readUint64 host)
  | KFloat => int_value k (readFloat host) | KDouble => int_value k (readDouble host)
  | KStringF16 => str_value k (readStringF16 host)
  | KStringF32 => str_value k (readStringF32 host)
  | KStringF64 => str_value k (readStringF64 host)
  end.

Fixpoint write_values (vs : list value) : ST ByteArray unit :=
  match vs with
  | [] => ret tt
  | v :: vs => write_value v ;;; write_values vs
  end.

Fixpoint read_values (ks : list kind) : ST ByteArray (list value) :=
  match ks with
  | [] => ret []
  | k :: ks => let* v := read_value k in let* vs := read_values ks in ret (v :: vs)
  end.
End values.

(** ** The wire format: the bytes of a value on a little-endian host, for the
    byte order [e] set in the buffer. *)
Definition encF (host : Z) (t : ctype) (z e : Z) : list Z :=
  repr host t (if e =? host then z else byteswap t z).

(** 0, -1, 1, -2, 2 ... are numbered 0, 1, 2, 3, 4 ... *)
Definition zigzag (v : Z) : Z := if v <? 0 then - 2 * v - 1 else 2 * v.
Definition varint (room : nat) (z : Z) : list Z := default [] (varint_bytes room z).

Definition enc_value (v : value) (e : Z) : list Z :=
  let host := AZURE_LITTLE_ENDIAN in
  match v with
  | VInt KFint8 z => repr host int8_t z | VInt KFuint8 z => repr host uint8_t z
  | VInt KFint16 z => encF host int16_t z e | VInt KFuint16 z => encF host uint16_t z e
  | VInt KFint32 z => encF host int32_t z e | VInt KFuint32 z => encF host uint32_t z e
  | VInt KFint64 z => encF host int64_t z e | VInt KFuint64 z => encF host uint64_t z e
  | VInt KInt32 z => varint 5 (zigzag z) | VInt KUint32 z => varint 5 z
  | VInt KInt64 z => varint 10 (zigzag z) | VInt KUint64 z => varint 10 z
  | VInt KFloat z => encF host uint32_t z e | VInt KDouble z => encF host uint64_t z e
  | VStr KStringF16 s => encF host uint16_t (zlen (bytes_of_string s)) e ++ bytes_of_string s
  | VStr KStringF32 s => encF host uint32_t (zlen (bytes_of_string s)) e ++ bytes_of_string s
  | VStr KStringF64 s => encF host uint64_t (zlen (bytes_of_string s)) e ++ bytes_of_string s
  | _ => []
  end.

Definition enc_values (vs : list value) (e : Z) : list Z := mjoin ((λ v, enc_value v e) <$> vs).

(** The values a writer accepts without loss.  The empty string is left out:
    reading it back at the very end of the capacity dereferences [nullptr]; so
    are the integers whose zigzag code is not computed within the signed type. *)
Definition doubles (w v : Z) : Prop := - 2 ^ (w - 1) < v < 2 ^ (w - 2).
Definition valid_string (max : Z) (s : string) : Prop := s ≠ ""%string ∧ zlen (bytes_of_string s) < max.
Definition valid (v : value) : Prop :=
  match v with
  | VInt KFint8 z => in_range int8_t z | VInt KFuint8 z => in_range uint8_t z
  | VInt KFint16 z => in_range int16_t z | VInt KFuint16 z => in_range uint16_t z
  | VInt KFint32 z => in_range int32_t z | VInt KInt32 z => doubles 32 z
  | VInt KFuint32 z | VInt KUint32 z | VInt KFloat z => in_range uint32_t z
  | VInt KFint64 z => in_range int64_t z | VInt KInt64 z => doubles 64 z
  | VInt KFuint64 z | VInt KUint64 z | VInt KDouble z => in_range uint64_t z
  | VStr KStringF16 s => valid_string (2 ^ 16) s
  | VStr KStringF32 s => valid_string (2 ^ 32) s
  | VStr KStringF64 s => valid_string (2 ^ 63) s
  | _ => False
  end.
