(* ===== verification/ByteArrayCodecFacts.v ===== *)
(** * ByteArrayCodecFacts: what the typed writers emit and the readers read back *)
From S2P Require Import Prelude Endian ByteArray ByteArrayFacts ByteArrayCodec.

(** ** Zigzag *)
Lemma zigzag_range w v : 2 < w → - 2 ^ (w - 1) < v < 2 ^ (w - 2) → is_u w (zigzag v) ∧ is_s w v.
Proof.
  intros Hw Hv. unfold is_u, is_s, zigzag. assert (2 ^ w = 2 * 2 ^ (w - 1)) by (rewrite <- Z.pow_succ_r by lia; f_equal; lia).
  assert (2 ^ (w - 1) = 2 * 2 ^ (w - 2)) by (rewrite <- Z.pow_succ_r by lia; f_equal; lia).
  destruct (Z.ltb_spec v 0); lia.
Qed.
Lemma EncodeZigzag32_ret v ba : - 2 ^ 31 < v < 2 ^ 30 → EncodeZigzag32 v ba = Ret (zigzag v) ba.
Proof.
  intros Hv. unfold EncodeZigzag32, zigzag. destruct (Z.ltb_spec v 0).
  - rewrite (proj2 (Z.eqb_neq _ _)) by lia. unfold ret. f_equal. rewrite (uwrap_small 32 (- v)) by (unfold is_u; lia). rewrite uwrap_small by (unfold is_u; lia). lia.
  - rewrite (proj2 (Z.leb_gt _ _)) by lia. unfold ret. f_equal. rewrite uwrap_small by (unfold is_u; lia). lia.
Qed.
Lemma EncodeZigzag64_ret v ba : - 2 ^ 63 < v < 2 ^ 62 → EncodeZigzag64 v ba = Ret (zigzag v) ba.
Proof.
  intros Hv. unfold EncodeZigzag64, zigzag. destruct (Z.ltb_spec v 0).
  - rewrite (proj2 (Z.eqb_neq _ _)) by lia. unfold ret. f_equal. rewrite (uwrap_small 64 (- v)) by (unfold is_u; lia). rewrite uwrap_small by (unfold is_u; lia). lia.
  - rewrite (proj2 (Z.leb_gt _ _)) by lia. unfold ret. f_equal. rewrite uwrap_small by (unfold is_u; lia). lia.
Qed.

(** The decoding formula, for any width. *)
Lemma zigzag_decode w v : 1 < w → is_s w v →
  let z := if v <? 0 then - 2 * v - 1 else 2 * v in
  swrap w (Z.lxor (Z.shiftr z 1) (uwrap w (- Z.land z 1))) = v.
Proof.
  intros Hw Hv. cbv zeta.
  assert (∀ z, Z.land z 1 = z `mod` 2) as Hland by (intros z; exact (Z.land_ones z 1 ltac:(lia))).
  rewrite Hland, Z.shiftr_div_pow2 by lia. change (2 ^ 1) with 2.
  unfold is_s in Hv. assert (2 ^ w = 2 * 2 ^ (w - 1)) as Hp by (rewrite <- Z.pow_succ_r by lia; f_equal; lia).
  assert (0 < 2 ^ (w - 1)) by (apply Z.pow_pos_nonneg; lia).
  destruct (Z.ltb_spec v 0).
  - replace ((- 2 * v - 1) `div` 2) with (- v - 1) by (Z.div_mod_to_equations; lia).
    replace ((- 2 * v - 1) `mod` 2) with 1 by (Z.div_mod_to_equations; lia).
    replace (uwrap w (- (1))) with (2 ^ w - 1).
    2: { unfold uwrap. apply Z.mod_unique with (-1); lia. }
    rewrite lxor_ones by lia. replace (2 ^ w - 1 - (- v - 1)) with (v + 1 * 2 ^ w) by lia.
    unfold swrap. replace (v + 1 * 2 ^ w + 2 ^ (w - 1)) with (v + 2 ^ (w - 1) + 1 * 2 ^ w) by lia.
    rewrite Z.mod_add, Z.mod_small by lia. lia.
  - replace ((2 * v) `div` 2) with v by (Z.div_mod_to_equations; lia).
    replace ((2 * v) `mod` 2) with 0 by (Z.div_mod_to_equations; lia).
    unfold uwrap. rewrite Z.mod_0_l by lia. rewrite Z.lxor_0_r. apply swrap_small; unfold is_s; lia.
Qed.

Lemma DecodeZigzag32_zigzag v : is_s 32 v → DecodeZigzag32 (zigzag v) = v.
Proof. intros Hv. by apply (zigzag_decode 32). Qed.
Lemma DecodeZigzag64_zigzag v : is_s 64 v → DecodeZigzag64 (zigzag v) = v.
Proof. intros Hv. by apply (zigzag_decode 64). Qed.

(** ** Effects of a writer and of a reader *)
Definition endian_ok (ba : ByteArray) : Prop :=
  m_endian ba = AZURE_LITTLE_ENDIAN ∨ m_endian ba = AZURE_BIG_ENDIAN.

(** [wrote ba l ba']: [ba'] is [ba] after the bytes [l] were written at the cursor. *)
Record wrote (ba : ByteArray) (l : list Z) (ba' : ByteArray) : Prop := {
  wrote_wf : wf ba';
  wrote_base : m_basesize ba' = m_basesize ba;
  wrote_endian : m_endian ba' = m_endian ba;
  wrote_position : m_position ba' = m_position ba + zlen l;
  wrote_size : m_size ba' = m_size ba `max` (m_position ba + zlen l);
  wrote_capacity : m_capacity ba ≤ m_capacity ba';
  wrote_data : data ba' = splice (data ba) (Z.to_nat (m_position ba)) l
}.

(** There is address space for [n] more bytes. *)
Definition room (ba : ByteArray) (n : Z) : Prop := m_position ba + n + m_basesize ba < 2 ^ 64.

Lemma wrote_nil ba : wf ba → wrote ba [] ba.
Proof.
  intros H. pose proof (wf_position ba H). constructor; unfold zlen; simpl; try done; try lia.
  by rewrite splice_nil.
Qed.

Lemma wrote_app ba l1 ba1 l2 ba2 : wf ba →
  wrote ba l1 ba1 → wrote ba1 l2 ba2 → wrote ba (l1 ++ l2) ba2.
Proof.
  intros H [W1 B1 E1 P1 S1 C1 D1] [W2 B2 E2 P2 S2 C2 D2].
  pose proof (wf_position ba H). pose proof (zlen_nonneg l1). pose proof (zlen_nonneg l2).
  constructor; rewrite ?zlen_app; try done; try lia; try congruence.
  rewrite D2, P1, D1. replace (Z.to_nat (m_position ba + zlen l1))
    with (Z.to_nat (m_position ba) + length l1)%nat by (unfold zlen; lia).
  unfold splice at 1. pose proof (zlen_data ba H) as Hd. unfold zlen in Hd.
  unfold splice. rewrite length_app.
  assert (length (take (Z.to_nat (m_position ba)) (data ba)) = Z.to_nat (m_position ba)) as Ht
    by (rewrite length_take; lia).
  rewrite !app_assoc. set (a := take (Z.to_nat (m_position ba)) (data ba) ++ l1).
  assert (length a = Z.to_nat (m_position ba) + length l1)%nat as Ha by (unfold a; rewrite length_app; lia).
  rewrite <- Ha, take_app_length, <- drop_drop, drop_app_length, drop_drop, Ha.
  do 2 f_equal. lia.
Qed.

(** [advance n ba]: the cursor moved over [n] bytes. *)
Definition advance (n : Z) (ba : ByteArray) : ByteArray :=
  set_cur (cur_at (m_basesize ba) (length (m_nodes ba)) (m_position ba + n))
    (set_position (m_position ba + n) ba).

(** The unread data starts with [l]. *)
Definition has_at (ba : ByteArray) (l : list Z) : Prop :=
  m_position ba + zlen l ≤ m_size ba ∧ slice (data ba) (Z.to_nat (m_position ba)) (length l) = l.

Lemma advance_advance n m ba : advance m (advance n ba) = advance (n + m) ba.
Proof. unfold advance, set_cur, set_position; simpl. by rewrite Z.add_assoc. Qed.

Lemma advance_wf n ba : wf ba → 0 ≤ n → m_position ba + n ≤ m_size ba → wf (advance n ba).
Proof. intros [Hb Hu Hr Hcap Hpos Hsize Hbound Hcur] ??. constructor; simpl; try done; lia. Qed.

Lemma has_at_app ba l1 l2 : wf ba → has_at ba (l1 ++ l2) →
  has_at ba l1 ∧ has_at (advance (zlen l1) ba) l2.
Proof.
  intros H [Hle Hs]. rewrite zlen_app in Hle. rewrite length_app, slice_app in Hs.
  pose proof (wf_position ba H). pose proof (zlen_data ba H) as Hd.
  pose proof (zlen_nonneg l1). pose proof (zlen_nonneg l2). unfold zlen in *.
  apply app_inj_1 in Hs as [Hs1 Hs2]; [|rewrite length_slice; lia].
  split; (split; [simpl; unfold zlen; lia|]); [done|].
  simpl. rewrite Z2Nat.inj_add, Nat2Z.id by lia. exact Hs2.
Qed.

Lemma read_has ba l : wf ba → has_at ba l → l ≠ [] →
  read (zlen l) ba = Ret l (advance (zlen l) ba).
Proof.
  intros H [Hle Hs] Hne. pose proof (wf_size ba H).
  assert (0 < zlen l) by (destruct l; [done|]; rewrite zlen_cons; pose proof (zlen_nonneg l); lia).
  rewrite read_spec by (done || lia). rewrite decide_False by lia. rewrite decide_False by lia.
  unfold zlen at 1. rewrite Nat2Z.id, Hs. done.
Qed.

Lemma write_wrote fresh ba l : wf ba → room ba (zlen l) →
  ∃ ba', write fresh l ba = Ret tt ba' ∧ wrote ba l ba'.
Proof.
  intros H Hr. destruct (decide (l = [])) as [->|Hne].
  - exists ba. split; [done|by apply wrote_nil].
  - destruct (write_spec fresh ba l H Hr Hne) as (ba' & E & ? & ? & ? & ? & ? & ? & ?).
    exists ba'. split; [done|by constructor].
Qed.

(** Writers and readers are described by the bytes they exchange, which
    depend on the byte order set in the buffer. *)
Definition emits (m : ST ByteArray unit) (enc : Z → list Z) : Prop := ∀ ba,
  wf ba → room ba (zlen (enc (m_endian ba))) →
  ∃ ba', m ba = Ret tt ba' ∧ wrote ba (enc (m_endian ba)) ba'.

Definition parses {A} (m : ST ByteArray A) (enc : Z → list Z) (a : A) : Prop := ∀ ba,
  wf ba → endian_ok ba → has_at ba (enc (m_endian ba)) →
  m ba = Ret a (advance (zlen (enc (m_endian ba))) ba).

Lemma emits_seq m1 e1 m2 e2 : emits m1 e1 → emits m2 e2 → emits (m1 ;;; m2) (λ e, e1 e ++ e2 e).
Proof.
  intros H1 H2 ba Hwf Hroom. rewrite zlen_app in Hroom. unfold room in *.
  pose proof (zlen_nonneg (e1 (m_endian ba))). pose proof (zlen_nonneg (e2 (m_endian ba))).
  destruct (H1 ba) as (ba1 & E1 & W1); [done|unfold room; lia|].
  destruct (H2 ba1) as (ba2 & E2 & W2); [apply W1|unfold room; rewrite (wrote_position _ _ _ W1), (wrote_base _ _ _ W1), (wrote_endian _ _ _ W1); lia|].
  exists ba2. rewrite (bind_Ret _ _ _ _ _ E1). split; [done|].
  rewrite (wrote_endian _ _ _ W1) in W2. by eapply wrote_app.
Qed.

Lemma parses_bind {A B} (m : ST ByteArray A) (k : A → ST ByteArray B) e1 e2 a b :
  parses m e1 a → parses (k a) e2 b → parses (bind m k) (λ e, e1 e ++ e2 e) b.
Proof.
  intros H1 H2 ba Hwf He Hat. destruct (has_at_app _ _ _ Hwf Hat) as [Hat1 Hat2].
  rewrite (bind_Ret _ _ _ _ _ (H1 ba Hwf He Hat1)).
  pose proof (zlen_nonneg (e1 (m_endian ba))).
  rewrite H2; [|apply advance_wf; [done|lia|apply Hat1]|done|done].
  rewrite advance_advance. by rewrite zlen_app.
Qed.

Lemma parses_ret {A} (a : A) : parses (ret a) (λ _, []) a.
Proof.
  intros ba Hwf _ _. unfold ret. f_equal. unfold advance, zlen; simpl.
  rewrite Z.add_0_r, <- (wf_cur ba Hwf). by destruct ba.
Qed.

Lemma parses_map {A B} (m : ST ByteArray A) (f : A → B) e a :
  parses m e a → parses (let* x := m in ret (f x)) e (f a).
Proof.
  intros H ba Hwf He Hat. by rewrite (bind_Ret _ _ _ _ _ (H ba Hwf He Hat)).
Qed.

(** ** Fixed width *)
Lemma zlen_encF host t z e : zlen (encF host t z e) = Z.of_nat (cbytes t).
Proof. unfold encF, zlen. by rewrite length_repr. Qed.

Lemma encF_ext host t1 t2 z1 z2 e : (0 < cbytes t1)%nat → cbytes t1 = cbytes t2 →
  le_split (cbytes t1) z1 = le_split (cbytes t2) z2 → encF host t1 z1 e = encF host t2 z2 e.
Proof.
  intros Hp Hc Hs. unfold encF, repr. destruct (e =? host); [by rewrite Hs|].
  rewrite !le_split_byteswap by lia. by rewrite Hs.
Qed.

Lemma encF_conv host t1 t2 z e : (0 < cbytes t1)%nat → cbytes t1 = cbytes t2 →
  encF host t1 (conv t1 z) e = encF host t2 z e.
Proof. intros Hp Hc. apply encF_ext; [done|done|]. rewrite le_split_conv by done. by rewrite Hc. Qed.

Section facts.
Variable fresh : nat → Z.
#[local] Abbreviation host := AZURE_LITTLE_ENDIAN.

Lemma emits_write l : emits (write fresh l) (λ _, l).
Proof. intros ba H Hr. by apply write_wrote. Qed.

Lemma emits_writeF h t z : emits (writeF fresh h t z) (encF h t z).
Proof. intros ba H Hr. unfold writeF. step_monad. by apply write_wrote. Qed.

Lemma parses_read l : l ≠ [] → parses (read (zlen l)) (λ _, l) l.
Proof. intros Hne ba H _ Hat. by apply read_has. Qed.

Lemma parses_readF t z : (0 < cbytes t)%nat → in_range t z → parses (readF host t) (encF host t z) z.
Proof.
  intros Ht Hz ba H He Hat. unfold readF.
  assert (encF host t z (m_endian ba) ≠ []) as Hne.
  { intros E. pose proof (zlen_encF host t z (m_endian ba)) as L. rewrite E in L. unfold zlen in L; simpl in L. lia. }
  pose proof (read_has ba _ H Hat Hne) as Hread. rewrite zlen_encF in Hread.
  rewrite (bind_Ret _ _ _ _ _ Hread). step_monad. rewrite zlen_encF. unfold ret. f_equal.
  simpl. unfold encF. destruct He as [->| ->]; simpl.
  - by apply unrepr_repr.
  - rewrite unrepr_repr by auto with azure. by apply byteswap_twice.
Qed.

Lemma emits_write8 h t z : emits (write fresh (repr h t z)) (λ _, repr h t z).
Proof. apply emits_write. Qed.

Lemma parses_read8 t z : cbytes t = 1%nat → in_range t z →
  parses (let* d := read 1 in ret (unrepr host t d)) (λ _, repr host t z) z.
Proof.
  intros Ht Hz.
  pose proof (parses_map (read 1) (unrepr host t) (λ _, repr host t z) (repr host t z)) as H.
  rewrite unrepr_repr in H by (lia || done). apply H. clear H.
  replace 1 with (zlen (repr host t z)) by (unfold zlen; by rewrite length_repr, Ht).
  apply parses_read. intros E. pose proof (length_repr host t z) as L. by rewrite E, Ht in L.
Qed.

(** ** Varints *)
Lemma varint_bytes_total n v : (0 < n)%nat → 0 ≤ v < 2 ^ (7 * Z.of_nat n) →
  ∃ bs, varint_bytes n v = Some bs ∧ (length bs ≤ n)%nat.
Proof.
  revert v. induction n as [|n IH]; [lia|]. intros v _ Hv. cbn [varint_bytes].
  destruct (Z.leb_spec 128 v).
  - destruct n as [|n]; [change (2 ^ _) with 128 in Hv; lia|].
    rewrite Z.shiftr_div_pow2 by lia. change (2 ^ 7) with 128.
    replace (7 * Z.of_nat (S (S n))) with (7 + 7 * Z.of_nat (S n)) in Hv by lia.
    rewrite Z.pow_add_r in Hv by lia. change (2 ^ 7) with 128 in Hv.
    destruct (IH (v `div` 128)) as (bs & -> & Hl); [lia| |].
    { split; [by apply Z.div_pos; lia|by apply Z.div_lt_upper_bound; lia]. }
    eexists. split; [done|]. simpl. lia.
  - eexists. split; [done|]. simpl. lia.
Qed.

Lemma varint_bytes_nonempty n v bs : varint_bytes n v = Some bs → bs ≠ [].
Proof.
  destruct n; simpl; [done|]. case_match; [|by intros [= <-]].
  destruct (varint_bytes _ _); simpl; [by intros [= <-]|done].
Qed.

Lemma emits_writeVarint n v bs : varint_bytes n v = Some bs → emits (writeVarint fresh n v) (λ _, bs).
Proof. intros E. unfold writeVarint. rewrite E. apply emits_write. Qed.

Lemma parses_readFuint8 b : is_byte b → parses (readFuint8 host) (λ _, [b]) b.
Proof.
  intros Hb. pose proof (parses_read8 uint8_t b eq_refl Hb) as H.
  unfold repr in H; simpl in H. rewrite Z.mod_small in H; [exact H|]. exact Hb.
Qed.

Lemma parses_varint bits n v bs : varint_bytes n v = Some bs → 0 ≤ v →
  ∀ fuel i r, (n < fuel)%nat → 0 ≤ i < bits → 0 ≤ r < 2 ^ i → v * 2 ^ i < 2 ^ bits →
  parses (readVarint_loop host fuel bits i r) (λ _, bs) (r + v * 2 ^ i).
Proof.
  revert v bs. induction n as [|n IH]; [done|]. intros v bs Hbs Hv fuel i r Hf Hi Hr Hmax.
  assert (0 < 2 ^ i) as Hpi by (apply Z.pow_pos_nonneg; lia).
  destruct fuel as [|fuel]; [lia|]. cbn [readVarint_loop].
  rewrite (proj2 (Z.ltb_lt i bits)) by lia.
  cbn [varint_bytes] in Hbs. destruct (Z.leb_spec 128 v) as [Hge|Hlt].
  - destruct (varint_bytes n (Z.shiftr v 7)) as [bs'|] eqn:E; simplify_eq/=.
    pose proof (Z.mod_pos_bound v 128 ltac:(lia)) as Hm. pose proof (Z_div_mod_eq_full v 128) as Hdm.
    rewrite land_127, lor_128 by lia.
    rewrite Z.shiftr_div_pow2 in E by lia. change (2 ^ 7) with 128 in E.
    apply (parses_bind _ _ (λ _, [v `mod` 128 + 128]) (λ _, bs') (v `mod` 128 + 128)).
    + apply parses_readFuint8. unfold is_byte, is_u. lia.
    + rewrite (proj2 (Z.ltb_ge _ _)) by lia. rewrite land_127.
      replace ((v `mod` 128 + 128) `mod` 128) with (v `mod` 128) by (Z.div_mod_to_equations; lia).
      assert (uwrap bits (Z.shiftl (v `mod` 128) i) = Z.shiftl (v `mod` 128) i) as ->.
      { apply uwrap_small. unfold is_u. rewrite Z.shiftl_mul_pow2 by lia. nia. }
      rewrite lor_shiftl_add by lia.
      assert (2 ^ (i + 7) = 128 * 2 ^ i) as Hp7 by (rewrite Z.pow_add_r by lia; lia).
      replace (r + v * 2 ^ i) with (r + v `mod` 128 * 2 ^ i + v `div` 128 * 2 ^ (i + 7)) by nia.
      assert (1 ≤ v `div` 128) by (apply Z.div_le_lower_bound; lia).
      apply IH; [done|lia|lia| |nia|nia].
      split; [lia|]. apply (Z.pow_lt_mono_r_iff 2); nia.
  - simplify_eq/=. rewrite <- (app_nil_r [v]).
    apply (parses_bind _ _ (λ _, [v]) (λ _, []) v); [apply parses_readFuint8; unfold is_byte, is_u; lia|].
    rewrite (proj2 (Z.ltb_lt v 128)) by done.
    assert (uwrap bits (Z.shiftl v i) = Z.shiftl v i) as ->.
    { apply uwrap_small. unfold is_u. rewrite Z.shiftl_mul_pow2 by lia. nia. }
    rewrite lor_shiftl_add by lia. apply parses_ret.
Qed.

Lemma parses_readVarint bits n v bs fuel : varint_bytes n v = Some bs → is_u bits v → 0 < bits →
  (n < fuel)%nat → parses (readVarint_loop host fuel bits 0 0) (λ _, bs) v.
Proof.
  intros Hbs [Hv0 Hv] Hb Hf. replace v with (0 + v * 2 ^ 0) by lia.
  by apply (parses_varint bits n v bs Hbs Hv0); lia.
Qed.

(** ** Strings *)
Lemma parses_readBytes b : b ≠ [] → zlen b ≤ string_max_size →
  parses (readBytes (zlen b)) (λ _, b) (string_of_bytes b).
Proof.
  intros Hne Hmax. unfold readBytes. rewrite (proj2 (Z.ltb_ge _ _)) by done.
  by apply (parses_map _ string_of_bytes), parses_read.
Qed.

Lemma parses_string t (b : list Z) : (0 < cbytes t)%nat → csigned t = false →
  in_range t (zlen b) → b ≠ [] → zlen b ≤ string_max_size →
  parses (let* len := readF host t in readBytes len) (λ e, encF host t (zlen b) e ++ b) (string_of_bytes b).
Proof.
  intros Ht Hu Hr Hne Hmax. eapply parses_bind; [by apply parses_readF|by apply parses_readBytes].
Qed.

(** ** One value *)
Lemma emits_ext m e1 e2 : (∀ e, e1 e = e2 e) → emits m e1 → emits m e2.
Proof. intros He H ba Hwf Hr. rewrite <- He in *. by apply H. Qed.

Lemma emits_string t1 t2 b : (0 < cbytes t1)%nat → cbytes t1 = cbytes t2 →
  emits (writeF fresh host t1 (conv t1 (zlen b)) ;;; write fresh b) (λ e, encF host t2 (zlen b) e ++ b).
Proof.
  intros Hp Hc. eapply emits_ext; [|apply emits_seq; [apply emits_writeF|apply emits_write]].
  intros e; simpl. by rewrite (encF_conv host t1 t2).
Qed.

Lemma string_ok max s : valid_string max s → max ≤ 2 ^ 63 →
  bytes_of_string s ≠ [] ∧ zlen (bytes_of_string s) ≤ string_max_size.
Proof.
  intros [Hne Hlen] Hmax. split; [|unfold string_max_size; lia].
  intros E. apply Hne. rewrite <- (string_of_bytes_of_string s), E. done.
Qed.

Lemma codec_string k t1 t2 m max s :
  (0 < cbytes t1)%nat → cbytes t1 = cbytes t2 → csigned t2 = false → max ≤ 2 ^ 63 → max ≤ 2 ^ cbits t2 →
  valid_string max s → read_value host k = str_value k m → m = (let* len := readF host t2 in readBytes len) →
  emits (writeF fresh host t1 (conv t1 (zlen (bytes_of_string s))) ;;; write fresh (bytes_of_string s))
    (λ e, encF host t2 (zlen (bytes_of_string s)) e ++ bytes_of_string s)
  ∧ parses (read_value host k) (λ e, encF host t2 (zlen (bytes_of_string s)) e ++ bytes_of_string s) (VStr k s).
Proof.
  intros Hp Hc Hu Hmax Hmax2 Hv Hr ->. destruct (string_ok max s Hv Hmax) as [Hne Hle].
  destruct Hv as [_ Hlen]. split; [by apply emits_string|]. rewrite Hr. unfold str_value.
  apply (parses_map _ (VStr k)). pose proof (parses_string t2 (bytes_of_string s)) as Hs.
  rewrite string_of_bytes_of_string in Hs. apply Hs; try done; [lia|].
  unfold in_range. rewrite Hu. unfold is_u. pose proof (zlen_nonneg (bytes_of_string s)). lia.
Qed.

Lemma codec_varint k n bits fuel v z m : (0 < n)%nat → (n < fuel)%nat → 0 < bits → is_u bits v → bits ≤ 7 * Z.of_nat n →
  read_value host k = int_value k m → (parses (readVarint_loop host fuel bits 0 0) (λ _, varint n v) v → parses m (λ _, varint n v) z) →
  emits (writeVarint fresh n v) (λ _, varint n v)
  ∧ parses (read_value host k) (λ _, varint n v) (VInt k z).
Proof.
  intros Hn Hf Hb Hv Hbits Hr Hm. unfold varint in *.
  assert (2 ^ bits ≤ 2 ^ (7 * Z.of_nat n)) by (apply Z.pow_le_mono_r; lia).
  destruct (varint_bytes_total n v Hn) as (bs & E & _); [unfold is_u in Hv; lia|].
  rewrite E in *; simpl in *. split; [by apply emits_writeVarint|].
  rewrite Hr. apply (parses_map _ (VInt k)). apply Hm. by apply (parses_readVarint bits n).
Qed.

Lemma codec_fixed k t z : (0 < cbytes t)%nat → in_range t z → read_value host k = int_value k (readF host t) →
  emits (writeF fresh host t z) (encF host t z) ∧ parses (read_value host k) (encF host t z) (VInt k z).
Proof.
  intros Ht Hz Hr. split; [apply emits_writeF|]. rewrite Hr.
  apply (parses_map _ (VInt k)). by apply parses_readF.
Qed.

Lemma codec_float k t1 t2 z : (0 < cbytes t1)%nat → cbytes t1 = cbytes t2 → in_range t2 z →
  read_value host k = int_value k (readF host t2) →
  emits (writeF fresh host t1 (conv t1 z)) (encF host t2 z) ∧ parses (read_value host k) (encF host t2 z) (VInt k z).
Proof.
  intros Ht Hc Hz Hr. split.
  - eapply emits_ext; [|apply emits_writeF]. intros e. by apply encF_conv.
  - rewrite Hr. apply (parses_map _ (VInt k)). apply parses_readF; [lia|done].
Qed.

(** A writer that first computes the code. *)
Lemma emits_after {A} (m : ST ByteArray A) (k : A → ST ByteArray unit) a e : (∀ ba, m ba = Ret a ba) → emits (k a) e → emits (bind m k) e.
Proof. intros E H ba Hwf Hr. rewrite (bind_Ret _ _ _ _ _ (E ba)). by apply H. Qed.

Local Tactic Notation "side" tactic(t) := t; first [done | simpl; lia].

Lemma value_codec v : valid v →
  emits (write_value fresh host v) (enc_value v) ∧ parses (read_value host (kind_of v)) (enc_value v) v.
Proof.
  destruct v as [k z|k s]; destruct k; intros Hv; try done.
  - split; [apply emits_write8|]. by apply (parses_map _ (VInt KFint8)), parses_read8.
  - split; [apply emits_write8|]. by apply (parses_map _ (VInt KFuint8)), parses_read8.
  - side (apply codec_fixed).
  - side (apply codec_fixed).
  - side (apply codec_fixed).
  - side (apply codec_fixed).
  - side (apply codec_fixed).
  - side (apply codec_fixed).
  - destruct (zigzag_range 32 z) as [Hu Hs]; [lia|exact Hv|].
    destruct (codec_varint KInt32 5 32 6 (zigzag z) z (readInt32 host)) as [He Hp]; try (done || lia).
    + intros Hp%(parses_map _ DecodeZigzag32). rewrite DecodeZigzag32_zigzag in Hp by done. exact Hp.
    + split; [|exact Hp]. apply (emits_after _ _ (zigzag z)); [|exact He]. intros ba. by apply EncodeZigzag32_ret.
  - side (apply (codec_varint _ 5 32 6 _ _ (readUint32 host))).
  - destruct (zigzag_range 64 z) as [Hu Hs]; [lia|exact Hv|].
    destruct (codec_varint KInt64 10 64 11 (zigzag z) z (readInt64 host)) as [He Hp]; try (done || lia).
    + intros Hp%(parses_map _ DecodeZigzag64). rewrite DecodeZigzag64_zigzag in Hp by done. exact Hp.
    + split; [|exact Hp]. apply (emits_after _ _ (zigzag z)); [|exact He]. intros ba. by apply EncodeZigzag64_ret.
  - side (apply (codec_varint _ 10 64 11 _ _ (readUint64 host))).
  - side (apply (codec_float _ int32_t uint32_t)).
  - side (apply (codec_float _ int64_t uint64_t)).
  - side (apply (codec_string _ int16_t uint16_t (readStringF16 host) (2 ^ 16))).
  - side (apply (codec_string _ int32_t uint32_t (readStringF32 host) (2 ^ 32))).
  - side (apply (codec_string _ int64_t uint64_t (readStringF64 host) (2 ^ 63))).
Qed.

(** ** Sequences of values *)
Lemma values_emit vs : Forall valid vs → emits (write_values fresh host vs) (enc_values vs).
Proof.
  induction 1 as [|v vs Hv Hvs IH]; simpl.
  - intros ba H _. exists ba. split; [done|]. by apply wrote_nil.
  - apply (emits_seq _ (enc_value v) _ (enc_values vs)); [by apply value_codec|done].
Qed.

Lemma values_parse vs : Forall valid vs → parses (read_values host (kind_of <$> vs)) (enc_values vs) vs.
Proof.
  induction 1 as [|v vs Hv Hvs IH]; simpl.
  - apply parses_ret.
  - apply (parses_bind _ _ (enc_value v) (enc_values vs) v); [by apply value_codec|].
    by apply (parses_map _ (cons v)).
Qed.

(** After a write, going back to the old position finds the bytes there. *)
Lemma wrote_rewind ba l ba' : wf ba → wrote ba l ba' →
  ∃ ba'', setPosition (m_position ba) ba' = Ret tt ba'' ∧ wf ba'' ∧ has_at ba'' l
    ∧ m_position ba'' = m_position ba ∧ data ba'' = data ba' ∧ m_endian ba'' = m_endian ba
    ∧ m_size ba'' = m_size ba'.
Proof.
  intros H [W B E P S C D]. pose proof (wf_position ba H). pose proof (wf_size ba H).
  pose proof (zlen_nonneg l). pose proof (zlen_data ba H) as Hd.
  destruct (setPosition (m_position ba) ba') as [[] ba''| |] eqn:Hset.
  2,3: rewrite setPosition_spec in Hset by (done || lia); rewrite decide_False in Hset by lia; done.
  exists ba''. split; [done|].
  destruct (setPosition_wf ba' (m_position ba) ba'' W ltac:(lia) Hset) as (W2 & P2 & S2 & C2 & B2 & E2 & Cap2).
  assert (m_size ba'' = m_size ba') as S3 by lia.
  assert (data ba'' = data ba') as D3 by (unfold data; by rewrite S3, C2).
  split_and!; try done; [|congruence].
  split; [lia|]. rewrite D3, D, P2. unfold zlen in Hd.
  unfold slice, splice. rewrite drop_app_length' by (rewrite length_take; lia).
  by rewrite take_app_length.
Qed.
End facts.
