(* ===== verification/ByteArrayTheorems.v ===== *)
(** * ByteArrayTheorems: the properties of [ByteArray]

    [bytestring] is the abstract specification (a byte string with a cursor);
    [run_refines] shows that sequences of operations on the chunked buffer
    answer as it does. *)
From S2P Require Import Prelude Endian ByteArray ByteArrayFacts ByteArrayCodec ByteArrayCodecFacts.

(** ** The specification: a byte string with a cursor *)
Record bytestring := { bs_data : list Z; bs_pos : Z }.
Definition abs (ba : ByteArray) : bytestring := {| bs_data := data ba; bs_pos := m_position ba |}.

Inductive cmd := Write (buf : list Z) | Read (n : Z) | SetPosition (v : Z) | Clear.
Inductive reply := Bytes (l : list Z) | Raised (e : exn).

Definition spec_cmd (c : cmd) (bs : bytestring) : reply * bytestring :=
  let '{| bs_data := d; bs_pos := p |} := bs in
  match c with
  | Write buf => (Bytes [], {| bs_data := splice d (Z.to_nat p) buf; bs_pos := p + zlen buf |})
  | Read n =>
      if decide (zlen d - p < n) then (Raised out_of_range, bs)
      else (Bytes (slice d (Z.to_nat p) (Z.to_nat n)), {| bs_data := d; bs_pos := p + n |})
  | SetPosition v => (Bytes [], {| bs_data := d; bs_pos := v |})
  | Clear => (Bytes [], {| bs_data := []; bs_pos := 0 |})
  end.

Fixpoint spec_run (cs : list cmd) (bs : bytestring) : list reply * bytestring :=
  match cs with
  | [] => ([], bs)
  | c :: cs => let '(r, bs1) := spec_cmd c bs in let '(rs, bs2) := spec_run cs bs1 in (r :: rs, bs2)
  end.

(** The calls the specification covers: reads of at least one byte and
    positions inside the data. *)
Definition cmd_ok (c : cmd) (bs : bytestring) : Prop :=
  match c with
  | Read n => 0 < n
  | SetPosition v => 0 ≤ v ≤ zlen (bs_data bs)
  | _ => True
  end.
Fixpoint run_ok (cs : list cmd) (bs : bytestring) : Prop :=
  match cs with
  | [] => True
  | c :: cs => cmd_ok c bs ∧ run_ok cs (spec_cmd c bs).2
  end.

Definition written (c : cmd) : Z := match c with Write buf => zlen buf | _ => 0 end.
Definition total_written (cs : list cmd) : Z := foldr (λ c n, written c + n) 0 cs.

Section run.
Variable fresh : nat → Z.

Definition exec_cmd (c : cmd) : ST ByteArray (list Z) :=
  match c with
  | Write buf => write fresh buf ;;; ret []
  | Read n => read n
  | SetPosition v => setPosition v ;;; ret []
  | Clear => clear ;;; ret []
  end.

(** A caller that catches the exceptions and goes on; [None] if an operation crashes. *)
Fixpoint run (cs : list cmd) (ba : ByteArray) : option (list reply * ByteArray) :=
  match cs with
  | [] => Some ([], ba)
  | c :: cs =>
      match exec_cmd c ba with
      | Ret l ba1 => prod_map (cons (Bytes l)) id <$> run cs ba1
      | Throw e ba1 => prod_map (cons (Raised e)) id <$> run cs ba1
      | Crash _ => None
      end
  end.

Definition answers (o : outcome ByteArray (list Z)) (r : reply) (ba' : ByteArray) : Prop :=
  match r with
  | Bytes l => o = Ret l ba'
  | Raised e => o = Throw e ba'
  end.

Lemma abs_write ba l ba' : wrote ba l ba' →
  abs ba' = {| bs_data := splice (data ba) (Z.to_nat (m_position ba)) l; bs_pos := m_position ba + zlen l |}.
Proof. intros W. unfold abs. by rewrite (wrote_data _ _ _ W), (wrote_position _ _ _ W). Qed.

Lemma total_written_nonneg cs : 0 ≤ total_written cs.
Proof. induction cs as [|[] cs IH]; simpl; try lia. pose proof (zlen_nonneg buf). lia. Qed.

(** One operation against the specification. *)
Lemma exec_cmd_refines c ba : wf ba → cmd_ok c (abs ba) →
  m_size ba + written c + m_basesize ba < 2 ^ 64 →
  ∃ ba', answers (exec_cmd c ba) (spec_cmd c (abs ba)).1 ba' ∧ wf ba'
    ∧ abs ba' = (spec_cmd c (abs ba)).2 ∧ m_basesize ba' = m_basesize ba
    ∧ m_size ba' ≤ m_size ba + written c.
Proof.
  intros H Hok Hroom. pose proof (wf_position ba H) as Hp. pose proof (wf_size ba H) as Hs.
  destruct c as [buf|n|v|]; simpl in *.
  - destruct (write_wrote fresh ba buf H) as (ba' & E & W); [unfold room; lia|].
    exists ba'. unfold bind. rewrite E. split_and!; [done|apply W|by apply abs_write|apply W|].
    rewrite (wrote_size _ _ _ W). pose proof (zlen_nonneg buf). lia.
  - rewrite zlen_data by done. rewrite read_spec by (done || lia).
    destruct (decide _); simpl; [exists ba; split_and!; done || lia|].
    rewrite decide_False by lia. eexists. split; [done|].
    split_and!; try done; [|simpl; lia].
    apply advance_wf; [done|lia|lia].
  - rewrite zlen_data in Hok by done. unfold bind.
    destruct (setPosition_ok ba v H ltac:(lia)) as (ba' & E & W2 & P2 & S2 & C2 & B2 & E2 & Cap2).
    rewrite E.
    exists ba'. split_and!; try done; [|lia].
    unfold abs, data. rewrite P2, S2, C2, Z.max_l by lia. done.
  - destruct (clear_spec ba H) as (ba' & E & W & D & P & S & C & B & En).
    exists ba'. unfold bind. rewrite E. split_and!; try done; [|lia].
    unfold abs. by rewrite D, P.
Qed.

#[local] Arguments spec_cmd : simpl never.

(** C23: Refinement.  From any well-formed buffer, a sequence of writes, reads of
    at least one byte, repositionings to places within the size and clears returns
    the bytes and raises the exceptions (of reads beyond the end) that the byte string
    with a cursor prescribes, and ends in a well-formed buffer that represents the
    specification's final state.  A read of nothing at the end of the capacity has no
    node to look at, and a position behind the size shows bytes never written. *)
Theorem run_refines cs ba :
  wf ba → run_ok cs (abs ba) → m_size ba + total_written cs + m_basesize ba < 2 ^ 64 →
  ∃ ba', run cs ba = Some ((spec_run cs (abs ba)).1, ba')
    ∧ wf ba' ∧ abs ba' = (spec_run cs (abs ba)).2.
Proof.
  revert ba. induction cs as [|c cs IH]; intros ba H Hok Hroom; simpl in *; [by eauto|].
  destruct Hok as [Hc Hok]. pose proof (total_written_nonneg cs).
  destruct (exec_cmd_refines c ba H Hc) as (ba1 & A & W & E & B & S); [lia|].
  destruct (IH ba1 W) as (ba2 & R & W2 & E2); [by rewrite E|lia|].
  rewrite E in R, E2. destruct (spec_cmd c (abs ba)) as [r bs1]. simpl in *.
  destruct (spec_run cs bs1) as [rs bs2]. simpl in *. exists ba2.
  unfold answers in A. destruct r; by rewrite A, R.
Qed.
End run.

Lemma run_refines_witness :
  let cs := [Write [1; 2; 3; 4; 5; 6]; SetPosition 1; Read 3; Read 9; Write [9]; Clear; Write [7]] in
  let ba := ByteArray_new (λ _, 0) 4 in
  ∃ ba', run (λ _, 0) cs ba = Some ((spec_run cs (abs ba)).1, ba')
    ∧ wf ba' ∧ abs ba' = (spec_run cs (abs ba)).2.
Proof.
  apply run_refines.
  - apply ByteArray_new_wf. lia.
  - vm_compute. repeat split; discriminate.
  - reflexivity.
Defined.

(** C4: Round trip.  On a little-endian host, for either byte order of the
    buffer, any list of values written at the cursor is read back unchanged by the
    corresponding readers after returning to the old position; the buffer holds
    exactly the wire encoding.  The values are fixed-width integers, plain varints,
    zigzag integers from above -2^(w-1) to below 2^(w-2) (the code overflows on the
    others), floats, and non-empty strings, shorter than their 16, 32 or 64 bit length
    field can say (an empty one at the end of the capacity dereferences null). *)
Theorem values_roundtrip fresh vs ba :
  wf ba → endian_ok ba → Forall valid vs →
  room ba (zlen (enc_values vs (m_endian ba))) →
  ∃ ba', (write_values fresh AZURE_LITTLE_ENDIAN vs ;;; setPosition (m_position ba) ;;;
          read_values AZURE_LITTLE_ENDIAN (kind_of <$> vs)) ba = Ret vs ba'
    ∧ wf ba' ∧ m_position ba' = m_position ba + zlen (enc_values vs (m_endian ba))
    ∧ data ba' = splice (data ba) (Z.to_nat (m_position ba)) (enc_values vs (m_endian ba)).
Proof.
  intros H He Hv Hr.
  destruct (values_emit fresh vs Hv ba H Hr) as (ba1 & E1 & W1).
  destruct (wrote_rewind ba _ ba1 H W1) as (ba2 & E2 & W2 & Hat & P2 & D2 & En2 & S2).
  rewrite (bind_Ret _ _ _ _ _ E1), (bind_Ret _ _ _ _ _ E2).
  assert (endian_ok ba2) as He2 by (unfold endian_ok; by rewrite En2).
  rewrite (values_parse fresh vs Hv ba2 W2 He2) by (by rewrite En2). eexists. split; [done|].
  rewrite En2. pose proof (zlen_nonneg (enc_values vs (m_endian ba))).
  split_and!; [|simpl; by rewrite P2|].
  - apply advance_wf; [done|done|apply Hat].
  - change (data ba2 = splice (data ba) (Z.to_nat (m_position ba)) (enc_values vs (m_endian ba))).
    rewrite D2. apply W1.
Qed.

Lemma values_roundtrip_witness :
  let vs := [VInt KFint32 (-5); VInt KInt64 (1 - 2 ^ 63); VStr KStringF16 "hello"; VInt KUint32 (2 ^ 32 - 1)] in
  let ba := ByteArray_new (λ _, 0) 4 in
  ∃ ba', (write_values (λ _, 0) AZURE_LITTLE_ENDIAN vs ;;; setPosition (m_position ba) ;;;
          read_values AZURE_LITTLE_ENDIAN (kind_of <$> vs)) ba = Ret vs ba'
    ∧ wf ba' ∧ m_position ba' = m_position ba + zlen (enc_values vs (m_endian ba))
    ∧ data ba' = splice (data ba) (Z.to_nat (m_position ba)) (enc_values vs (m_endian ba)).
Proof.
  apply values_roundtrip.
  - apply ByteArray_new_wf. lia.
  - by right.
  - repeat constructor; try (vm_compute; discriminate).
  - reflexivity.
Defined.

(** [read] on every branch, for every requested size: the next bytes and
    the cursor moved, [out_of_range] without any change when fewer bytes are
    left, and a null dereference when the cursor is at the end of the capacity. *)
Theorem read_behaviour ba n : wf ba → 0 ≤ n →
  (m_size ba - m_position ba < n → read n ba = Throw out_of_range ba)
  ∧ (n ≤ m_size ba - m_position ba → m_position ba = m_capacity ba → read n ba = Crash NullDeref)
  ∧ (n ≤ m_size ba - m_position ba → m_position ba < m_capacity ba →
     ∃ ba', read n ba = Ret (slice (data ba) (Z.to_nat (m_position ba)) (Z.to_nat n)) ba'
       ∧ wf ba' ∧ m_position ba' = m_position ba + n ∧ data ba' = data ba).
Proof.
  intros H Hn. rewrite read_spec by done. split_and!; intros.
  - by rewrite decide_True.
  - rewrite decide_False by lia. by rewrite decide_True.
  - rewrite decide_False, decide_False by lia. eexists. split; [done|].
    split_and!; [apply advance_wf; done || lia|done|done].
Qed.

Lemma read_behaviour_witness :
  let ba := ByteArray_new (λ _, 0) 4 in
  (m_size ba - m_position ba < 1 → read 1 ba = Throw out_of_range ba)
  ∧ (1 ≤ m_size ba - m_position ba → m_position ba = m_capacity ba → read 1 ba = Crash NullDeref)
  ∧ (1 ≤ m_size ba - m_position ba → m_position ba < m_capacity ba →
     ∃ ba', read 1 ba = Ret (slice (data ba) (Z.to_nat (m_position ba)) (Z.to_nat 1)) ba'
       ∧ wf ba' ∧ m_position ba' = m_position ba + 1 ∧ data ba' = data ba).
Proof. apply read_behaviour; [apply ByteArray_new_wf; lia|lia]. Defined.
