(* ===== verification/ByteArrayViews.v ===== *)
(** * ByteArrayViews: scatter/gather views, [toString] and file transfer

    A vector of [iovec]s handed to [readv]/[writev] is a tiling of a range of
    the buffer ([tiles]); [gather] reads the range, [scatter] fills it, as the
    kernel does. *)
From S2P Require Import Prelude Endian ByteArray ByteArrayFacts ByteArrayCodec ByteArrayCodecFacts.

Fixpoint tiles (b p : Z) (vs : list iovec) : Prop :=
  match vs with
  | [] => True
  | v :: vs =>
      Z.of_nat (iov_node v) * b + iov_off v = p ∧ 0 ≤ iov_off v ∧ 0 < iov_len v
      ∧ iov_off v + iov_len v ≤ b ∧ tiles b (p + iov_len v) vs
  end.
Definition iov_total (vs : list iovec) : Z := foldr (λ v n, iov_len v + n) 0 vs.

(** What [writev] sends. *)
Definition gather (ba : ByteArray) (vs : list iovec) : list Z := mjoin (iov_bytes ba <$> vs).

(** What [readv] leaves in memory when it receives [l]: the areas are filled in
    order, each completely before the next. *)
Fixpoint scatter (vs : list iovec) (l : list Z) : ST ByteArray unit :=
  match vs, l with
  | v :: vs, _ :: _ =>
      store (Some (iov_node v)) (iov_off v) (take (Z.to_nat (iov_len v)) l) ;;;
      scatter vs (drop (Z.to_nat (iov_len v)) l)
  | _, _ => ret tt
  end.

Section tiles.
Context (b : Z) (Hb : 0 < b).

Lemma iov_total_nonneg p vs : tiles b p vs → 0 ≤ iov_total vs.
Proof. revert p. induction vs as [|v vs IH]; simpl; intros p H; [lia|]. destruct H as (_&_&?&_&?%IH). lia. Qed.

Lemma iov_loop_tiles ba fuel len bufs i npos :
  m_basesize ba = b → uniform b (m_nodes ba) →
  (i < length (m_nodes ba))%nat → 0 ≤ npos < b → 0 ≤ len →
  Z.of_nat i * b + npos + len ≤ b * Z.of_nat (length (m_nodes ba)) →
  (length (m_nodes ba) - i + 1 < fuel)%nat →
  ∃ vs, iov_loop fuel (Some i) npos (b - npos) len bufs ba = Ret (bufs ++ vs) ba
    ∧ tiles b (Z.of_nat i * b + npos) vs ∧ iov_total vs = len.
Proof.
  intros Hbase. revert len bufs i npos.
  induction fuel as [|fuel IH]; [intros; lia|].
  intros len bufs i npos Hu Hi Hnpos Hlen Hfit Hfuel.
  cbn [iov_loop]. destruct (Z.ltb_spec 0 len) as [Hlt|Hlt].
  2: { exists []. rewrite app_nil_r. split_and!; [done|done|simpl; lia]. }
  destruct (Z.leb_spec len (b - npos)) as [Hle|Hle].
  - exists [mkIovec i npos len]. destruct fuel as [|fuel]; [lia|].
    split_and!; [done|simpl; lia|simpl; lia].
  - assert (S i < length (m_nodes ba))%nat as Hnext by nia.
    destruct (lookup_lt_is_Some_2 (m_nodes ba) (S i)) as [nd1 Hnd1]; [done|].
    destruct (uniform_lookup b _ _ _ Hu Hnd1) as [Hsz1 _].
    unfold bind at 1, step_next at 1. rewrite next_of_lt by done.
    erewrite bind_Ret by (by apply deref_ok). rewrite Hsz1.
    destruct (IH (len - (b - npos)) (bufs ++ [mkIovec i npos (b - npos)]) (S i) 0)
      as (vs & E & Hvs & Ht); try done; try lia.
    replace (b - 0) with b in E by lia.
    exists (mkIovec i npos (b - npos) :: vs). rewrite E, <- app_assoc.
    split_and!; [done| |simpl; lia]. simpl. split_and!; try lia.
    replace (Z.of_nat i * b + npos + (b - npos)) with (Z.of_nat (S i) * b + 0) by lia. done.
Qed.

(** A tiling lies in the nodes when its range does. *)
Lemma tiles_node ba v p : uniform b (m_nodes ba) →
  Z.of_nat (iov_node v) * b + iov_off v = p → 0 ≤ iov_off v → p < b * Z.of_nat (length (m_nodes ba)) →
  ∃ nd, m_nodes ba !! iov_node v = Some nd ∧ nsize nd = b ∧ zlen (ptr nd) = b.
Proof.
  intros Hu E ? ?. destruct (lookup_lt_is_Some_2 (m_nodes ba) (iov_node v)) as [nd Hnd]; [nia|].
  exists nd. split; [done|]. by apply (uniform_lookup b _ _ _ Hu Hnd).
Qed.

Lemma gather_slice ba vs p : uniform b (m_nodes ba) → 0 ≤ p → tiles b p vs →
  p + iov_total vs ≤ b * Z.of_nat (length (m_nodes ba)) →
  gather ba vs = slice (contents ba) (Z.to_nat p) (Z.to_nat (iov_total vs)).
Proof.
  intros Hu. unfold gather. revert p. induction vs as [|v vs IH]; intros p Hp Ht Hfit; [done|].
  simpl in Ht. destruct Ht as (E & Ho & Hl & Hf & Ht). csimpl.
  pose proof (iov_total_nonneg _ _ Ht). change (iov_total (v :: vs)) with (iov_len v + iov_total vs) in *.
  rewrite (IH (p + iov_len v)) by (done || lia). rewrite (Z2Nat.inj_add (iov_len v)) by lia.
  rewrite slice_app. f_equal; [|f_equal; lia]. unfold iov_bytes.
  destruct (tiles_node ba v p Hu E Ho) as (nd & Hnd & Hs & Hptr); [lia|]. rewrite Hnd.
  unfold contents. rewrite <- E. symmetry. apply (joined_slice b); done || lia.
Qed.

Lemma scatter_spec vs ba p l : uniform b (m_nodes ba) → 0 ≤ p → tiles b p vs →
  p + iov_total vs ≤ b * Z.of_nat (length (m_nodes ba)) → zlen l ≤ iov_total vs →
  ∃ nodes', scatter vs l ba = Ret tt (set_nodes nodes' ba)
    ∧ uniform b nodes' ∧ length nodes' = length (m_nodes ba)
    ∧ joined nodes' = splice (contents ba) (Z.to_nat p) l.
Proof.
  revert ba p l. induction vs as [|v vs IH]; intros ba p l Hu Hp Ht Hfit Hl.
  { simpl in Hl. pose proof (zlen_nonneg l).
    assert (l = []) as -> by (apply zlen_0; lia). exists (m_nodes ba). rewrite splice_nil.
    split_and!; try done. simpl. by destruct ba. }
  simpl in Ht. destruct Ht as (E & Ho & Hn & Hf & Ht).
  pose proof (iov_total_nonneg _ _ Ht). change (iov_total (v :: vs)) with (iov_len v + iov_total vs) in *.
  destruct l as [|x l']; [exists (m_nodes ba); rewrite splice_nil; split_and!; try done; by destruct ba|].
  cbn [scatter]. revert Hl. generalize (x :: l'). clear x l'. intros l Hl.
  set (n := Z.to_nat (iov_len v)).
  assert (length (take n l) ≤ n)%nat as Hd by (rewrite length_take; lia).
  assert (zlen (drop n l) ≤ iov_total vs) as Hr by (unfold zlen in *; rewrite length_drop; lia).
  destruct (tiles_node ba v p Hu E Ho) as (nd & Hnd & Hs & Hptr); [lia|].
  assert (zlen (take n l) ≤ iov_len v) as Hd' by (unfold zlen; lia).
  erewrite bind_Ret by (eapply store_ok; [done|lia..]).
  set (ba1 := set_nodes _ ba).
  destruct (IH ba1 (p + iov_len v) (drop n l)) as (nodes' & E' & Hu' & Hl' & Hj');
    [apply uniform_insert; done || lia|lia|done|simpl; rewrite length_insert; lia|done|].
  exists nodes'. split_and!; [by rewrite E'|done|by rewrite Hl'; apply length_insert|].
  rewrite Hj'. unfold contents at 1, ba1; simpl. rewrite (joined_insert b) by (done || lia).
  rewrite E. change (joined (m_nodes ba)) with (contents ba).
  destruct (decide (length l ≤ n)%nat).
  - rewrite drop_ge, take_ge, splice_nil by lia. done.
  - assert (length (take n l) = n) as Hn' by (rewrite length_take; lia).
    replace (Z.to_nat (p + iov_len v)) with (Z.to_nat p + length (take n l))%nat by lia.
    rewrite splice_app_data; [by rewrite take_drop|].
    unfold contents. rewrite (length_joined b), length_drop by done. unfold zlen in *. nia.
Qed.
End tiles.

Section views.
Variable fresh : nat → Z.

(** The start of every view: the cursor's node and its free part. *)
Lemma iov_loop_at_cursor ba len bufs : wf ba → 0 < len → m_position ba + len ≤ m_capacity ba →
  ∃ vs, (let* nd := deref (m_cur ba) in
         iov_loop (loop_fuel ba) (m_cur ba) (m_position ba `mod` m_basesize ba)
           (u64 (nsize nd - m_position ba `mod` m_basesize ba)) len bufs) ba = Ret (bufs ++ vs) ba
    ∧ tiles (m_basesize ba) (m_position ba) vs ∧ iov_total vs = len.
Proof.
  intros H Hlen Hfit. pose proof (wf_position ba H). pose proof (wf_base ba H).
  destruct (cur_of_wf ba H ltac:(lia)) as (i & Hcur & Hi & Hp & Hoff). rewrite Hcur.
  destruct (lookup_lt_is_Some_2 _ _ Hi) as [nd Hnd].
  destruct (uniform_lookup _ _ _ _ (wf_uniform ba H) Hnd) as [Hs _].
  erewrite bind_Ret by (by apply deref_ok). rewrite (ncap_wf ba nd H Hs).
  pose proof (wf_capacity ba H).
  destruct (iov_loop_tiles (m_basesize ba) ltac:(lia) ba (loop_fuel ba) len bufs i (m_position ba `mod` m_basesize ba))
    as (vs & E & Ht & Ht'); try done; [apply H|lia|lia|unfold loop_fuel; lia|].
  exists vs. by rewrite E, Hp at 1.
Qed.

Lemma slice_data ba p n : wf ba → 0 ≤ p → 0 ≤ n → p + n ≤ m_size ba →
  slice (data ba) (Z.to_nat p) (Z.to_nat n) = slice (contents ba) (Z.to_nat p) (Z.to_nat n).
Proof. intros. unfold data. apply slice_take. lia. Qed.

Lemma read_at_cursor ba n : wf ba → 0 ≤ n ≤ m_size ba - m_position ba → m_position ba < m_capacity ba →
  read_at n (m_position ba) ba = Ret (slice (data ba) (Z.to_nat (m_position ba)) (Z.to_nat n)) ba.
Proof.
  intros H Hn Hlt. unfold read_at. step_monad.
  change (u64 (m_size ba - m_position ba)) with (getReadSize ba). rewrite getReadSize_wf by done.
  rewrite (proj2 (Z.ltb_ge _ _)) by lia. pose proof (wf_base ba H). pose proof (wf_size ba H).
  pose proof (wf_position ba H).
  destruct (cur_of_wf ba H Hlt) as (i & Hcur & Hi & Hp & Hoff). rewrite Hcur.
  destruct (lookup_lt_is_Some_2 _ _ Hi) as [nd Hnd].
  destruct (uniform_lookup _ _ _ _ (wf_uniform ba H) Hnd) as [Hs _].
  erewrite bind_Ret by (by apply deref_ok). rewrite (ncap_wf ba nd H Hs).
  pose proof (wf_capacity ba H). rewrite (slice_data ba) by (done || lia).
  rewrite (read_at_loop_spec (m_basesize ba)); [by rewrite <- Hp|try done; try apply H; lia..|].
  unfold loop_fuel. lia.
Qed.

(** Read views.  [getReadBuffers] reports the requested length cut down to
    what is readable, appends areas that denote exactly the next bytes, and
    leaves the buffer unchanged. *)
Theorem getReadBuffers_view ba bufs len : wf ba → is_u 32 len →
  let n := len `min` (m_size ba - m_position ba) in
  ∃ vs, getReadBuffers bufs len ba = Ret (n, bufs ++ vs) ba
    ∧ gather ba vs = slice (data ba) (Z.to_nat (m_position ba)) (Z.to_nat n)
    ∧ iov_total vs = n.
Proof.
  intros H Hlen n. pose proof (wf_position ba H). pose proof (wf_size ba H). unfold is_u in Hlen.
  unfold getReadBuffers. step_monad. rewrite getReadSize_wf by done.
  replace (if m_size ba - m_position ba <? len then _ else len) with n.
  2: { destruct (Z.ltb_spec (m_size ba - m_position ba) len); unfold n; [|lia].
       rewrite uwrap_small by (unfold is_u; lia). lia. }
  destruct (Z.eqb_spec n 0) as [->|Hn].
  - exists []. by rewrite app_nil_r.
  - destruct (iov_loop_at_cursor ba n bufs H) as (vs & E & Ht & Hs); [lia..|].
    exists vs. rewrite <- bind_assoc, (bind_Ret _ _ _ _ _ E). split_and!; [done| |done].
    pose proof (wf_capacity ba H). pose proof (wf_base ba H).
    rewrite (gather_slice (m_basesize ba) ltac:(lia) ba vs (m_position ba)) by (done || apply H || lia).
    rewrite Hs. symmetry. apply slice_data; done || lia.
Qed.

Lemma getReadBuffers_view_witness :
  let ba := mkByteArray 2 0 4 3 AZURE_BIG_ENDIAN [mkNode [1; 2] 2; mkNode [3; 4] 2] (Some 0%nat) in
  let n := 9 `min` (m_size ba - m_position ba) in
  ∃ vs, getReadBuffers [] 9 ba = Ret (n, [] ++ vs) ba
    ∧ gather ba vs = slice (data ba) (Z.to_nat (m_position ba)) (Z.to_nat n)
    ∧ iov_total vs = n.
Proof.
  apply getReadBuffers_view.
  - constructor; try done; repeat constructor; done.
  - by split.
Defined.

Lemma wf_set_nodes ba nodes' : wf ba → uniform (m_basesize ba) nodes' →
  length nodes' = length (m_nodes ba) → wf (set_nodes nodes' ba).
Proof. intros [] ? E. constructor; simpl; rewrite ?E; done. Qed.

(** Writing inside the capacity, seen on the data. *)
Lemma data_splice ba ba' p l : wf ba → 0 ≤ p ≤ m_size ba →
  contents ba' = splice (contents ba) (Z.to_nat p) l → m_size ba' = m_size ba `max` (p + zlen l) →
  m_size ba ≤ m_capacity ba →
  data ba' = splice (data ba) (Z.to_nat p) l.
Proof.
  intros H Hp Hc Hs Hcap. pose proof (length_contents ba H) as L. unfold data. rewrite Hc, Hs.
  rewrite Z2Nat.inj_max, Z2Nat.inj_add by (pose proof (zlen_nonneg l); lia).
  unfold zlen in *. rewrite Nat2Z.id. apply take_splice. lia.
Qed.

Lemma getWriteBuffers_tiles ba bufs len : wf ba → 0 ≤ len →
  m_position ba + len + m_basesize ba < 2 ^ 64 →
  ∃ ba1 vs, getWriteBuffers fresh bufs len ba = Ret (len, bufs ++ vs) ba1 ∧ wf ba1 ∧ data ba1 = data ba
    ∧ m_basesize ba1 = m_basesize ba ∧ m_position ba1 = m_position ba ∧ m_size ba1 = m_size ba
    ∧ m_position ba + len ≤ m_capacity ba1
    ∧ tiles (m_basesize ba1) (m_position ba1) vs ∧ iov_total vs = len.
Proof.
  intros H Hlen Hroom. pose proof (wf_position ba H) as Hpos. pose proof (wf_size ba H) as Hsize. unfold getWriteBuffers.
  destruct (Z.eqb_spec len 0) as [->|Hn].
  { exists ba, []. rewrite app_nil_r. split_and!; done || lia. }
  destruct (addCapacity_spec fresh ba len H) as (ba1 & k & E1 & H1 & Hc1 & Hcap1 & Hb1 & Hp1 & Hs1 & He1 & Hr);
    [lia..|].
  rewrite (bind_Ret _ _ _ _ _ E1). step_monad.
  destruct (iov_loop_at_cursor ba1 len bufs H1) as (vs & E & Ht & Hs); [lia..|].
  exists ba1, vs. rewrite <- bind_assoc, (bind_Ret _ _ _ _ _ E). split_and!; try done.
  unfold data. rewrite Hs1, Hc1. apply take_app_le.
  pose proof (length_contents ba H) as L. unfold zlen in L. lia.
Qed.

(** Receiving into the areas of [getWriteBuffers] and moving the cursor over
    what was received. *)
Definition receive (len : Z) (l : list Z) : ST ByteArray unit :=
  let* r := getWriteBuffers fresh [] len in
  scatter r.2 l ;;;
  let* ba := gets id in setPosition (m_position ba + zlen l).

(** C40: Write views.  Filling the areas of [getWriteBuffers(len)] with up to
    [len] received bytes and moving the cursor behind them is the same as
    writing these bytes. *)
Theorem getWriteBuffers_receive ba len l : wf ba → zlen l ≤ len →
  m_position ba + len + m_basesize ba < 2 ^ 64 →
  ∃ ba', receive len l ba = Ret tt ba' ∧ wf ba'
    ∧ m_position ba' = m_position ba + zlen l ∧ m_size ba' = m_size ba `max` (m_position ba + zlen l)
    ∧ data ba' = splice (data ba) (Z.to_nat (m_position ba)) l.
Proof.
  intros H Hl Hroom. pose proof (zlen_nonneg l) as Hl0. pose proof (wf_position ba H) as Hpos. pose proof (wf_size ba H) as Hsize.
  unfold receive. destruct (getWriteBuffers_tiles ba [] len H) as (ba1 & vs & E1 & H1 & Hd1 & Hb1 & Hp1 & Hs1 & Hr1 & Ht & Hn);
    [lia..|].
  rewrite (bind_Ret _ _ _ _ _ E1). cbn [snd]. pose proof (wf_capacity ba1 H1).
  destruct (scatter_spec (m_basesize ba1) (wf_base ba1 H1) vs ba1 (m_position ba1) l)
    as (nodes' & E2 & Hu & Hl' & Hj); try apply H1; try done; [lia..|].
  rewrite app_nil_l, (bind_Ret _ _ _ _ _ E2). step_monad.
  assert (wf (set_nodes nodes' ba1)) as H2 by (by apply wf_set_nodes).
  destruct (setPosition_ok (set_nodes nodes' ba1) (m_position ba1 + zlen l) H2)
    as (ba' & E & H3 & P3 & S3 & C3 & _); [simpl; lia|].
  simpl in P3, S3, C3. exists ba'. split_and!; [done|done|lia|lia|].
  rewrite <- Hd1, <- Hp1. apply data_splice; [done|lia|by rewrite C3|lia|apply H1].
Qed.

End views.

Lemma getWriteBuffers_receive_witness :
  let ba := ByteArray_new (λ _, 0) 4 in let l := [1; 2; 3; 4; 5; 6] in
  ∃ ba', receive (λ _, 0) 10 l ba = Ret tt ba' ∧ wf ba'
    ∧ m_position ba' = m_position ba + zlen l ∧ m_size ba' = m_size ba `max` (m_position ba + zlen l)
    ∧ data ba' = splice (data ba) (Z.to_nat (m_position ba)) l.
Proof. apply getWriteBuffers_receive; [apply ByteArray_new_wf; lia|vm_compute; discriminate|reflexivity]. Defined.

(** ** [toString] and files *)
Section files.
Variable fresh : nat → Z.

Definition rest (ba : ByteArray) : list Z :=
  slice (data ba) (Z.to_nat (m_position ba)) (Z.to_nat (m_size ba - m_position ba)).

(** [toString] returns everything from the cursor to the end of the data
    and changes nothing, whatever the cursor, the end of the data included. *)
Lemma toString_rest ba : wf ba → toString ba = Ret (rest ba) ba.
Proof.
  intros H. pose proof (wf_position ba H). pose proof (wf_size ba H).
  unfold toString, rest. step_monad. rewrite getReadSize_wf by done.
  destruct (Z.eqb_spec (m_size ba - m_position ba) 0) as [->|Hn]; [done|].
  apply read_at_cursor; done || lia.
Qed.

Lemma readFromFile_loop_wrote fuel file ba : wf ba → room ba (zlen file) →
  (length file + 1 < fuel)%nat →
  ∃ ba', readFromFile_loop fresh fuel file ba = Ret tt ba' ∧ wrote ba file ba'.
Proof.
  revert file ba. induction fuel as [|fuel IH]; intros file ba H Hr Hf; [lia|].
  pose proof (wf_base ba H) as Hb. cbn [readFromFile_loop]. step_monad.
  set (n := m_basesize ba) in *. unfold room in Hr. pose proof (zlen_nonneg file).
  assert (zlen (take (Z.to_nat n) file) ≤ zlen file) by (unfold zlen; rewrite length_take; lia).
  destruct (write_wrote fresh ba (take (Z.to_nat n) file) H) as (ba1 & E1 & W1); [unfold room; lia|].
  rewrite (bind_Ret _ _ _ _ _ E1). destruct (Z.ltb_spec (zlen file) n) as [Hlt|Hge].
  - exists ba1. split; [done|]. rewrite take_ge in W1 by (unfold zlen in *; lia). done.
  - assert (length (drop (Z.to_nat n) file) < length file)%nat by (rewrite length_drop; unfold zlen in *; lia).
    destruct (IH (drop (Z.to_nat n) file) ba1) as (ba2 & E2 & W2); [apply W1| |lia|].
    { unfold room. rewrite (wrote_position _ _ _ W1), (wrote_base _ _ _ W1), zlen_drop, zlen_take by lia. lia. }
    exists ba2. split; [done|]. rewrite <- (take_drop (Z.to_nat n) file). by eapply wrote_app.
Qed.

(** [readFromFile] ends for every file, writes exactly the file's bytes at
    the cursor and returns true; it returns false, without effect, only when
    the file cannot be opened. *)
Theorem readFromFile_writes ba file : wf ba → room ba (zlen (default [] file)) →
  ∃ ba', readFromFile fresh file ba = Ret (bool_decide (is_Some file)) ba' ∧ wrote ba (default [] file) ba'.
Proof.
  intros H Hr. destruct file as [file|]; simpl in *.
  - destruct (readFromFile_loop_wrote (length file + 2) file ba H Hr) as (ba' & E & W); [lia|].
    exists ba'. by rewrite (bind_Ret _ _ _ _ _ E).
  - exists ba. split; [done|]. by apply wrote_nil.
Qed.

Lemma writeToFile_loop_spec fuel ba i p n out : wf ba →
  p = Z.of_nat i * m_basesize ba → 0 ≤ n → p + n ≤ m_capacity ba →
  (length (m_nodes ba) + 1 < fuel + i)%nat → (0 < fuel)%nat →
  writeToFile_loop fuel (cur_at (m_basesize ba) (length (m_nodes ba)) p) p n true out ba
  = Ret (out ++ slice (contents ba) (Z.to_nat p) (Z.to_nat n)) ba.
Proof.
  intros H. pose proof (wf_base ba H) as Hb. pose proof (wf_capacity ba H) as Hcap.
  revert i p n out. induction fuel as [|fuel IH]; intros i p n out -> Hn Hfit Hfuel Hpos; [lia|].
  set (b := m_basesize ba) in *. cbn [writeToFile_loop].
  destruct (Z.ltb_spec 0 n) as [Hlt|]; [|replace n with 0 by lia; unfold slice; by rewrite take_0, app_nil_r].
  step_monad. replace ((Z.of_nat i * b) `mod` m_basesize ba) with 0 by (symmetry; apply Z.mod_mul; lia).
  assert (i < length (m_nodes ba))%nat as Hi by nia.
  pose proof (cur_at_Some b Hb (length (m_nodes ba)) i 0 ltac:(lia) Hi) as Hc. rewrite Z.add_0_r in Hc. rewrite Hc.
  destruct (lookup_lt_is_Some_2 _ _ Hi) as [nd Hnd].
  destruct (uniform_lookup _ _ _ _ (wf_uniform ba H) Hnd) as [Hs Hptr].
  set (len := (if m_basesize ba <? n then m_basesize ba else n) - 0).
  assert (len = n `min` b) as Hl by (subst len b; destruct (Z.ltb_spec (m_basesize ba) n); lia).
  rewrite (bind_Ret _ _ _ _ _ (deref_ok ba i nd Hnd)), (proj2 (Z.leb_le 0 len)) by lia.
  erewrite bind_Ret by (eapply load_ok; [done|lia..]). unfold bind, step_next. simpl.
  pose proof (joined_slice b Hb (m_nodes ba) i nd 0 len (wf_uniform ba H) Hnd ltac:(lia) ltac:(lia) ltac:(lia)) as Hj.
  rewrite Z.add_0_r in Hj. rewrite <- Hj. change (joined (m_nodes ba)) with (contents ba).
  replace (Z.to_nat n) with (Z.to_nat len + Z.to_nat (n - len))%nat by lia.
  rewrite slice_app, app_assoc. destruct (decide (n ≤ b)) as [Hle|Hgt].
  - replace (n - len) with 0 by lia. unfold slice at 3. rewrite take_0, app_nil_r.
    destruct fuel; [lia|done].
  - unfold next_of. rewrite decide_True by nia.
    pose proof (cur_at_Some b Hb (length (m_nodes ba)) (S i) 0 ltac:(lia) ltac:(nia)) as Hc'. rewrite Z.add_0_r in Hc'.
    rewrite <- Hc'. replace (Z.of_nat i * b + len) with (Z.of_nat (S i) * b) by lia.
    rewrite (IH (S i)) by (done || lia). do 2 f_equal. f_equal. lia.
Qed.

(** [writeToFile] from a cursor on a block boundary writes exactly the
    unread data and changes nothing. *)
Theorem writeToFile_aligned ba : wf ba → m_position ba `mod` m_basesize ba = 0 →
  writeToFile true ba = Ret (Some (rest ba)) ba.
Proof.
  intros H Hal. pose proof (wf_position ba H). pose proof (wf_size ba H). pose proof (wf_base ba H).
  unfold writeToFile, rest. simpl. step_monad. rewrite getReadSize_wf, (wf_cur ba H) by done.
  rewrite (slice_data ba) by (done || lia).
  erewrite bind_Ret; [done|].
  rewrite (writeToFile_loop_spec _ ba (Z.to_nat (m_position ba `div` m_basesize ba))) ; [done|done| |lia|lia| |].
  - rewrite Z2Nat.id by (apply Z.div_pos; lia). Z.div_mod_to_equations. lia.
  - unfold loop_fuel. lia.
  - unfold loop_fuel. lia.
Qed.
End files.

(** A three-byte buffer over two nodes. *)
Definition sample : ByteArray :=
  mkByteArray 2 0 4 3 AZURE_BIG_ENDIAN [mkNode [1; 2] 2; mkNode [3; 4] 2] (Some 0%nat).
Lemma sample_wf : wf sample.
Proof. constructor; try done; repeat constructor; done. Defined.

Lemma toString_rest_witness : toString sample = Ret (rest sample) sample.
Proof. apply toString_rest, sample_wf. Defined.

Lemma readFromFile_writes_witness :
  ∃ ba', readFromFile (λ _, 0) (Some [7; 8; 9; 10]) sample = Ret (bool_decide (is_Some (Some [7; 8; 9; 10]))) ba'
    ∧ wrote sample (default [] (Some [7; 8; 9; 10])) ba'.
Proof. apply readFromFile_writes; [apply sample_wf|reflexivity]. Defined.

Lemma writeToFile_aligned_witness : writeToFile true sample = Ret (Some (rest sample)) sample.
Proof. apply writeToFile_aligned; [apply sample_wf|reflexivity]. Defined.

(** ** Where the code departs from its purpose *)

(** [writeToFile] with the cursor inside a block: the offset is subtracted from
    the length even when the rest fits, so the last byte is left for another
    round, which has no node left. *)
Lemma writeToFile_mid_block :
  writeToFile true (mkByteArray 2 1 2 2 AZURE_BIG_ENDIAN [mkNode [1; 2] 2] (Some 0%nat)) = Crash NullDeref.
Proof. reflexivity. Qed.

(** [writeStringVint] stores the length as eight fixed bytes; [readStringVint]
    expects a varint. *)
Lemma stringVint_no_roundtrip :
  out_val ((writeStringVint (λ _, 0) AZURE_LITTLE_ENDIAN "ab" ;;; setPosition 0 ;;;
            readStringVint AZURE_LITTLE_ENDIAN) (ByteArray_new (λ _, 0) 16)) = Some ""%string.
Proof. reflexivity. Qed.

(** Reading an empty string whose length prefix ends at the capacity. *)
Lemma empty_string_at_capacity :
  (writeStringF16 (λ _, 0) AZURE_LITTLE_ENDIAN "" ;;; setPosition 0 ;;; readStringF16 AZURE_LITTLE_ENDIAN)
    (ByteArray_new (λ _, 0) 1) = Crash NullDeref.
Proof. reflexivity. Qed.

(** On a big-endian host a little-endian buffer is written swapped and read unswapped. *)
Lemma big_endian_host_mismatch :
  out_val ((setIsLittleEndian true ;;; writeFuint16 (λ _, 0) AZURE_BIG_ENDIAN 258 ;;; setPosition 0 ;;;
            readFuint16 AZURE_BIG_ENDIAN) (ByteArray_new (λ _, 0) 16)) = Some 513.
Proof. reflexivity. Qed.

(** From 2^30 on, doubling an [int32_t] for its zigzag code overflows; so does negating the least one. *)
Lemma zigzag_overflows fresh ba :
  writeInt32 fresh (2 ^ 30) ba = Crash UndefinedArith ∧ writeInt32 fresh (- 2 ^ 31) ba = Crash UndefinedArith
  ∧ writeInt64 fresh (2 ^ 62) ba = Crash UndefinedArith ∧ writeInt64 fresh (- 2 ^ 63) ba = Crash UndefinedArith.
Proof. done. Qed.
