(* ===== verification/CLib.v ===== *)
(** * CLib: the conversions of the C library that the program calls *)
From S2P Require Import Prelude.

(** ** [strtol] *)
Definition isspace (c : Z) : bool := (c =? 32) || ((9 <=? c) && (c <=? 13)).
Fixpoint skip_spaces (l : list Z) : list Z :=
  match l with
  | c :: l' => if isspace c then skip_spaces l' else l
  | [] => []
  end.
Definition digit_of (base c : Z) : option Z :=
  let d := if (48 <=? c) && (c <=? 57) then c - 48
           else if (97 <=? c) && (c <=? 122) then c - 87
           else if (65 <=? c) && (c <=? 90) then c - 55 else base in
  if d <? base then Some d else None.
Fixpoint digits_value (base acc : Z) (l : list Z) : Z :=
  match l with
  | [] => acc
  | c :: l => match digit_of base c with Some d => digits_value base (acc * base + d) l | None => acc end
  end.
(** The optional [0x] of base 16. *)
Definition skip_0x (base : Z) (l : list Z) : list Z :=
  match l with
  | z :: x :: d :: l' =>
      if (base =? 16) && (z =? 48) && ((x =? 120) || (x =? 88)) && bool_decide (is_Some (digit_of 16 d)) then d :: l' else l
  | _ => l
  end.
Definition clamp_long (v : Z) : Z := Z.max (- 2 ^ 63) (Z.min v (2 ^ 63 - 1)).
Definition strtol (base : Z) (l : list Z) : Z :=
  match skip_spaces l with
  | [] => 0
  | c :: l' =>
      if c =? 45 then clamp_long (- digits_value base 0 (skip_0x base l'))
      else if c =? 43 then clamp_long (digits_value base 0 (skip_0x base l'))
      else clamp_long (digits_value base 0 (skip_0x base (c :: l')))
  end.

(** [atoi] of the C library *)
Definition atoi (l : list Z) : Z := i32 (strtol 10 l).

(** [tolower] in the C locale *)
Definition tolower (c : Z) : Z := if (65 <=? c) && (c <=? 90) then c + 32 else c.
