(* ===== verification/Words.v ===== *)
(** * Words: words of the parsers' inputs and the characters they are made of *)
From S2P Require Import Prelude.

(** ** Character classes *)
Definition one_of (l : list Z) (c : Z) : bool := existsb (Z.eqb c) l.
Definition between (a b c : Z) : bool := (a <=? c) && (c <=? b).
Definition alnum (c : Z) : bool := between 48 57 c || between 65 90 c || between 97 122 c.

(** [pchar] without percent-encoding. *)
Definition pchar (c : Z) : bool :=
  alnum c || one_of [45; 46; 95; 126] c || one_of [33; 36; 38; 39; 40; 41; 42; 43; 44; 59; 61] c
  || one_of [58; 64] c || between 128 255 c.
Definition path_char (c : Z) : bool := pchar c || (c =? 47).
Definition query_char (c : Z) : bool := path_char c || (c =? 63).

(** Header names and values. *)
Definition token (c : Z) : bool := alnum c || one_of [33; 35; 36; 37; 38; 39; 42; 43; 45; 46; 94; 95; 96; 124; 126] c.
Definition value_char (c : Z) : bool := between 1 8 c || (c =? 9) || between 11 12 c || between 14 126 c || between 128 255 c.
Definition value_start (c : Z) : bool := value_char c && negb (one_of [9; 32] c).

Definition all_in (class : Z → bool) (s : string) : bool := forallb class (bytes_of_string s).

Definition path_ok (s : string) : bool :=
  match bytes_of_string s with
  | 47 :: l => forallb path_char l && match l with c :: _ => negb (c =? 47) | [] => true end
  | _ => false
  end.
Definition name_ok (s : string) : bool := negb (String.eqb s "") && all_in token s.
Definition value_ok (s : string) : bool :=
  all_in value_char s && match bytes_of_string s with c :: _ => value_start c | [] => true end.

Lemma string_app_assoc (a b c : string) : a +:+ (b +:+ c) = (a +:+ b) +:+ c.
Proof. induction a as [|x a IH]; [done|]. by apply (f_equal (String x)). Qed.
Lemma string_app_nil (a : string) : "" +:+ a = a.
Proof. done. Qed.
Lemma string_app_nil_r (a : string) : a +:+ "" = a.
Proof. induction a as [|x a IH]; [done|]. by apply (f_equal (String x)). Qed.

(** ** Words in memory *)
Lemma bytes_of_string_app a b : bytes_of_string (a +:+ b) = bytes_of_string a ++ bytes_of_string b.
Proof.
  unfold bytes_of_string. induction a as [|c a IH]; simpl; [done|]. f_equal. apply IH.
Qed.
Lemma size_bytes s : zlen (bytes_of_string s) = size s.
Proof. unfold zlen, size. by rewrite length_bytes_of_string. Qed.
Lemma size_app a b : size (a +:+ b) = size a + size b.
Proof. by rewrite <- !size_bytes, bytes_of_string_app, zlen_app. Qed.

(** [w] stands in memory at offset [a]. *)
Definition at_mem (mem : list Z) (a : Z) (w : string) : Prop := ∃ pre post, mem = pre ++ bytes_of_string w ++ post ∧ a = zlen pre.

Lemma at_mem_app {mem} a w1 w2 : at_mem mem a (w1 +:+ w2) → at_mem mem a w1 ∧ at_mem mem (a + size w1) w2.
Proof.
  intros (pre & post & E & ->). rewrite bytes_of_string_app in E. split.
  - exists pre, (bytes_of_string w2 ++ post). by rewrite <- !app_assoc in *.
  - exists (pre ++ bytes_of_string w1), post. rewrite zlen_app, size_bytes. split; [|done].
    by rewrite <- !app_assoc in *.
Qed.

Lemma at_mem_bound {mem} a w : at_mem mem a w → 0 ≤ a ∧ a + size w ≤ zlen mem.
Proof.
  intros (pre & post & -> & ->). rewrite !zlen_app, size_bytes.
  pose proof (zlen_nonneg pre). pose proof (zlen_nonneg post). lia.
Qed.

Lemma string_at_word {S} mem a w (d : S) : at_mem mem a w → zlen mem ≤ string_max_size → string_at mem a (size w) d = Ret w d.
Proof.
  intros H Hmem. pose proof (at_mem_bound a w H). unfold string_at.
  destruct (Z.ltb_spec string_max_size (size w)); [lia|].
  rewrite (proj2 (Z.leb_le 0 a)), (proj2 (Z.leb_le _ _)) by lia. simpl. unfold ret. f_equal.
  destruct H as (pre & post & -> & ->). unfold slice, zlen at 1. rewrite Nat2Z.id, drop_app_length.
  rewrite <- size_bytes. unfold zlen. rewrite Nat2Z.id, take_app_length. apply string_of_bytes_of_string.
Qed.

Lemma size_nonneg w : 0 ≤ size w.
Proof. unfold size. lia. Qed.
