(* ===== verification/Decimal.v ===== *)
(** * Decimal: numbers printed by a stream and read back by [strtol] *)
From S2P Require Import Prelude CLib Words.

Lemma all_in_cons class c w : all_in class (String c w) = class (char_code c) && all_in class w.
Proof. done. Qed.

Lemma digits_ok x : all_in (between 48 57) (pretty_N_go x "") = true.
Proof.
  assert (∀ s, all_in (between 48 57) s = true → all_in (between 48 57) (pretty_N_go x s) = true) as H; [|by apply H].
  induction (N.lt_wf_0 x) as [x _ IH]. intros s Hs. destruct (decide (0 < x)%N) as [Hx|Hx].
  - rewrite pretty_N_go_step by done. apply IH; [apply N.div_lt; lia|].
    rewrite all_in_cons, Hs, andb_true_r.
    pose proof (N.mod_upper_bound x 10 ltac:(lia)) as Hm.
    revert Hm. generalize (x `mod` 10)%N. intros y Hy.
    assert (y = 0 ∨ y = 1 ∨ y = 2 ∨ y = 3 ∨ y = 4 ∨ y = 5 ∨ y = 6 ∨ y = 7 ∨ y = 8 ∨ y = 9)%N as Hin by lia.
    by repeat destruct Hin as [->|Hin]; [..|subst].
  - assert (x = 0%N) as -> by lia. by rewrite pretty_N_go_0.
Qed.

(** A digit as the character of its value. *)
Lemma digit_char x : (x < 10)%N → digit_of 10 (char_code (pretty_N_char x)) = Some (Z.of_N x)
  ∧ between 48 57 (char_code (pretty_N_char x)) = true.
Proof.
  intros Hx. assert (x = 0 ∨ x = 1 ∨ x = 2 ∨ x = 3 ∨ x = 4 ∨ x = 5 ∨ x = 6 ∨ x = 7 ∨ x = 8 ∨ x = 9)%N as Hin by lia.
  repeat destruct Hin as [->|Hin]; [done..|]. subst. done.
Qed.

(** What stops a number. *)
Definition stops (base : Z) (l : list Z) : Prop := match l with [] => True | c :: _ => digit_of base c = None end.

Lemma digits_value_stops base acc l : stops base l → digits_value base acc l = acc.
Proof. destruct l as [|c l]; simpl; [done|]. by intros ->. Qed.

Lemma digits_value_pretty x s l :
  digits_value 10 0 (bytes_of_string (pretty_N_go x s) ++ l) = digits_value 10 (Z.of_N x) (bytes_of_string s ++ l).
Proof.
  revert s. induction (N.lt_wf_0 x) as [x _ IH]. intros s. destruct (decide (0 < x)%N) as [Hx|Hx].
  - rewrite pretty_N_go_step by done. rewrite IH by (apply N.div_lt; lia).
    pose proof (N.mod_upper_bound x 10 ltac:(lia)) as Hm. destruct (digit_char _ Hm) as [Hd _].
    change (bytes_of_string (String ?c ?s)) with (char_code c :: bytes_of_string s). cbn [app digits_value]. rewrite Hd. f_equal.
    pose proof (N.div_mod x 10 ltac:(lia)). lia.
  - assert (x = 0%N) as -> by lia. by rewrite pretty_N_go_0.
Qed.

Lemma digits_value_pretty_N (n : N) l : stops 10 l → digits_value 10 0 (bytes_of_string (pretty n) ++ l) = Z.of_N n.
Proof.
  intros Hl. unfold pretty, pretty_N. case_decide as Hn.
  - subst. simpl. by apply digits_value_stops.
  - rewrite digits_value_pretty. by apply digits_value_stops.
Qed.

Lemma pretty_N_digits (n : N) : all_in (between 48 57) (pretty n) = true ∧ pretty n ≠ ""%string.
Proof.
  unfold pretty, pretty_N. case_decide as Hn; [done|]. split; [apply digits_ok|].
  rewrite pretty_N_go_step by lia. generalize (n `div` 10)%N. intros x.
  assert (∀ s, s ≠ ""%string → pretty_N_go x s ≠ ""%string) as H; [|by apply H].
  clear. induction (N.lt_wf_0 x) as [x _ IH]. intros s Hs. destruct (decide (0 < x)%N).
  - rewrite pretty_N_go_step by done. apply IH; [apply N.div_lt; lia|done].
  - assert (x = 0%N) as -> by lia. by rewrite pretty_N_go_0.
Qed.

Lemma skip_0x_10 l : skip_0x 10 l = l.
Proof. by destruct l as [|? [|? [|? ?]]]. Qed.

(** [atoi] reads a printed number back. *)
Lemma atoi_pretty n l : 0 ≤ n < 2 ^ 31 → stops 10 l → atoi (bytes_of_string (pretty n) ++ l) = n.
Proof.
  intros Hn Hl. assert (pretty n = pretty (Z.to_N n)) as -> by (destruct n as [|n|n]; [done|done|lia]).
  pose proof (digits_value_pretty_N (Z.to_N n) l Hl) as Hv.
  destruct (pretty_N_digits (Z.to_N n)) as [Hd Hne]. unfold atoi, strtol.
  destruct (pretty (Z.to_N n)) as [|c w]; [done|]. rewrite all_in_cons in Hd.
  change (bytes_of_string (String c w)) with (char_code c :: bytes_of_string w) in *. cbn [app] in *.
  apply andb_true_iff in Hd as [Hc _]. unfold between in Hc. apply andb_true_iff in Hc as [?%Z.leb_le ?%Z.leb_le].
  revert Hv. generalize (char_code c) H H0. intros x Hx1 Hx2 Hv. cbn [skip_spaces]. unfold isspace.
  rewrite (proj2 (Z.eqb_neq x 32)) by lia. rewrite (proj2 (Z.leb_gt x 13)) by lia. rewrite andb_false_r. simpl orb. cbv iota.
  rewrite (proj2 (Z.eqb_neq x 45)), (proj2 (Z.eqb_neq x 43)) by lia. rewrite skip_0x_10, Hv. unfold clamp_long.
  rewrite Z2N.id, Z.min_l, Z.max_r by lia. apply swrap_small; unfold is_s; lia.
Qed.
