(* ===== verification/OrderedSet.v ===== *)
(** * OrderedSet: [std::set] and [std::map] as sorted lists

    The containers are modelled by the sequence of their elements in iteration
    order; [less] is the comparator, a strict weak ordering, which may be
    coarser than equality: the elements that neither precede the other are
    equivalent, and at most one of them is stored. *)
From S2P Require Import Prelude.
From Stdlib Require Import Sorting.Sorted.

(** What a comparator promises to the container. *)
Class StrictWeakOrder {E} (less : E → E → bool) : Prop := {
  less_asym a b : less a b = true → less b a = false;
  less_neg_trans a b c : less a b = false → less b c = false → less a c = false
}.

Definition equivalent {E} (less : E → E → bool) (a b : E) : bool := negb (less a b) && negb (less b a).

Section operations.
Context {E : Type} (less : E → E → bool).

(** Iterators are indices; [end()] is the length. *)
Fixpoint lower_bound (l : list E) (x : E) : nat :=
  match l with
  | [] => 0
  | y :: l => if less y x then S (lower_bound l x) else 0
  end.

Fixpoint upper_bound (l : list E) (x : E) : nat :=
  match l with
  | [] => 0
  | y :: l => if less x y then 0 else S (upper_bound l x)
  end.

(** [find]: [None] is [end()]. *)
Definition set_find (l : list E) (x : E) : option nat :=
  let i := lower_bound l x in
  match l !! i with
  | Some y => if less x y then None else Some i
  | None => None
  end.

Definition insert_at (l : list E) (i : nat) (x : E) : list E := take i l ++ x :: drop i l.

(** [insert(x)]: the new sequence and [.first], the position of [x] or of the
    equivalent element that was there. *)
Definition set_insert (l : list E) (x : E) : list E * nat :=
  let i := lower_bound l x in
  match set_find l x with
  | Some i => (l, i)
  | None => (insert_at l i x, i)
  end.

Definition set_erase (l : list E) (i : nat) : list E := delete i l.
End operations.

Section facts.
Context {E : Type} (less : E → E → bool) `{!StrictWeakOrder less}.

Definition sorted (l : list E) : Prop := StronglySorted (λ a b, less a b = true) l.

Lemma less_irrefl a : less a a = false.
Proof. destruct (less a a) eqn:H; [|done]. by rewrite (less_asym _ _ H) in H. Qed.

Lemma less_trans a b c : less a b = true → less b c = true → less a c = true.
Proof.
  intros H1 H2. destruct (less a c) eqn:H; [done|].
  rewrite (less_neg_trans a c b H) in H1; [done|]. by apply less_asym.
Qed.

Lemma less_le_trans a b c : less a b = true → less c b = false → less a c = true.
Proof.
  intros H1 H2. destruct (less a c) eqn:H; [done|]. by rewrite (less_neg_trans a c b H H2) in H1.
Qed.

Lemma le_less_trans a b c : less b a = false → less b c = true → less a c = true.
Proof.
  intros H1 H2. destruct (less a c) eqn:H; [done|].
  by rewrite (less_neg_trans b a c H1 H) in H2.
Qed.

Lemma equivalent_spec a b : equivalent less a b = true ↔ less a b = false ∧ less b a = false.
Proof. unfold equivalent. rewrite andb_true_iff, !negb_true_iff. done. Qed.

Lemma equivalent_refl a : equivalent less a a = true.
Proof. rewrite equivalent_spec. by rewrite less_irrefl. Qed.
Lemma equivalent_sym a b : equivalent less a b = equivalent less b a.
Proof. unfold equivalent. apply andb_comm. Qed.
Lemma equivalent_trans a b c :
  equivalent less a b = true → equivalent less b c = true → equivalent less a c = true.
Proof.
  rewrite !equivalent_spec. intros [H1 H2] [H3 H4]. split; eapply less_neg_trans; eauto.
Qed.

(** The sequence splits at the bounds. *)
Lemma lower_bound_le l x : (lower_bound less l x ≤ length l)%nat.
Proof. induction l as [|y l IH]; simpl; [lia|]. case_match; lia. Qed.
Lemma upper_bound_le l x : (upper_bound less l x ≤ length l)%nat.
Proof. induction l as [|y l IH]; simpl; [lia|]. case_match; lia. Qed.

Lemma Forall_take_lower_bound l x : Forall (λ y, less y x = true) (take (lower_bound less l x) l).
Proof. induction l as [|y l IH]; simpl; [constructor|]. case_match; simpl; by constructor. Qed.

Lemma Forall_drop_lower_bound l x : sorted l → Forall (λ y, less y x = false) (drop (lower_bound less l x) l).
Proof.
  induction 1 as [|y l Hs IH Hy]; simpl; [constructor|]. case_match; simpl; [done|].
  constructor; [done|]. eapply Forall_impl; [exact Hy|]. intros z Hz; simpl in *.
  destruct (less z x) eqn:Hzx; [|done]. by rewrite (less_trans y z x Hz Hzx) in H.
Qed.

Lemma Forall_take_upper_bound l x : Forall (λ y, less x y = false) (take (upper_bound less l x) l).
Proof. induction l as [|y l IH]; simpl; [constructor|]. case_match; simpl; by constructor. Qed.

Lemma Forall_drop_upper_bound l x : sorted l → Forall (λ y, less x y = true) (drop (upper_bound less l x) l).
Proof.
  induction 1 as [|y l Hs IH Hy]; simpl; [constructor|]. case_match; simpl; [|done].
  constructor; [done|]. eapply Forall_impl; [exact Hy|]. intros z Hz; simpl in *. by eapply less_trans.
Qed.

Lemma sorted_app l1 l2 :
  sorted (l1 ++ l2) ↔ sorted l1 ∧ sorted l2 ∧ ∀ a b, a ∈ l1 → b ∈ l2 → less a b = true.
Proof.
  induction l1 as [|x l1 IH]; simpl.
  - split; [intros; split_and!; [constructor|done|by intros ?? ?%elem_of_nil]|by intros (_&?&_)].
  - split.
    + intros H. inversion H as [|?? H1 H2]; subst. apply IH in H1 as (Hs1 & Hs2 & Hc).
      apply Forall_app in H2 as [H2 H3]. split_and!; [by constructor|done|].
      intros a b [->|Ha]%elem_of_cons Hb; [|by apply Hc]. rewrite Forall_forall in H3. by apply H3.
    + intros (Hs1 & Hs2 & Hc). inversion Hs1 as [|?? H1 H2]; subst. constructor.
      * apply IH. split_and!; [done..|]. intros; apply Hc; [by right|done].
      * apply Forall_app. split; [done|]. apply Forall_forall. intros b Hb. apply Hc; [left|done].
Qed.

Lemma sorted_delete l i : sorted l → sorted (delete i l).
Proof.
  intros H. revert i. induction H as [|x l Hs IH Hx]; intros [|i]; simpl; [constructor..|done|].
  constructor; [apply IH|]. rewrite Forall_forall in Hx |- *. intros y Hy.
  by apply Hx, (list_elem_of_delete_inv _ i).
Qed.

(** Two stored elements are never equivalent. *)
Lemma sorted_NoDup l : sorted l → NoDup l.
Proof.
  induction 1 as [|x l Hs IH Hx]; constructor; [|done]. intros Hin.
  rewrite Forall_forall in Hx. specialize (Hx x Hin); simpl in Hx. by rewrite less_irrefl in Hx.
Qed.

Lemma sorted_lookup_equivalent l i j a b : sorted l → l !! i = Some a → l !! j = Some b →
  equivalent less a b = true → i = j.
Proof.
  intros H. revert i j. induction H as [|x l Hs IH Hx]; intros [|i] [|j] Hi Hj He; try done; simpl in *.
  - injection Hi as <-. apply list_elem_of_lookup_2 in Hj. rewrite Forall_forall in Hx.
    specialize (Hx b Hj); simpl in Hx. apply equivalent_spec in He as [He _]. by rewrite Hx in He.
  - injection Hj as <-. apply list_elem_of_lookup_2 in Hi. rewrite Forall_forall in Hx.
    specialize (Hx a Hi); simpl in Hx. apply equivalent_spec in He as [_ He]. by rewrite Hx in He.
  - f_equal. by eapply IH.
Qed.

(** [find] returns the position of the equivalent element, if there is one. *)
Lemma set_find_Some l x i : sorted l →
  set_find less l x = Some i ↔ ∃ y, l !! i = Some y ∧ equivalent less x y = true.
Proof.
  intros H. unfold set_find.
  pose proof (Forall_take_lower_bound l x) as Ht. pose proof (Forall_drop_lower_bound l x H) as Hd.
  split.
  - destruct (l !! lower_bound less l x) as [y|] eqn:Hl; [|done].
    destruct (less x y) eqn:Hxy; [done|]. intros [= <-]. exists y. split; [done|].
    apply equivalent_spec. split; [done|]. rewrite Forall_forall in Hd. apply Hd.
    apply list_elem_of_lookup. exists 0%nat. by rewrite lookup_drop, Nat.add_0_r.
  - intros (y & Hi & He). apply equivalent_spec in He as [H1 H2].
    assert (lower_bound less l x = i) as ->.
    { destruct (decide (i < lower_bound less l x)%nat) as [Hlt|Hge].
      - rewrite Forall_forall in Ht. specialize (Ht y). simpl in Ht. rewrite Ht in H2; [done|].
        apply list_elem_of_lookup. exists i. by rewrite lookup_take_lt.
      - destruct (decide (i = lower_bound less l x)) as [|Hne]; [done|].
        destruct (lookup_lt_is_Some_2 l (lower_bound less l x)) as [z Hz].
        { apply lookup_lt_Some in Hi. lia. }
        assert (less z x = false) as Hzx.
        { rewrite Forall_forall in Hd. apply Hd. apply list_elem_of_lookup. exists 0%nat.
          by rewrite lookup_drop, Nat.add_0_r. }
        assert (less z y = true) as Hzy.
        { rewrite <- (take_drop_middle _ _ _ Hz) in H. apply sorted_app in H as (_ & H & _).
          inversion H as [|?? _ Hall]; subst. rewrite Forall_forall in Hall. apply Hall.
          apply list_elem_of_lookup. exists (i - S (lower_bound less l x))%nat.
          rewrite lookup_drop. rewrite <- Hi. f_equal. lia. }
        by rewrite (less_neg_trans z x y Hzx H1) in Hzy. }
    by rewrite Hi, H1.
Qed.

Lemma set_find_None l x : sorted l →
  set_find less l x = None ↔ ∀ y, y ∈ l → equivalent less x y = false.
Proof.
  intros H. split.
  - intros Hf y Hy. destruct (equivalent less x y) eqn:He; [|done].
    apply list_elem_of_lookup in Hy as [i Hi].
    by rewrite (proj2 (set_find_Some l x i H)) in Hf by eauto.
  - intros Hn. destruct (set_find less l x) as [i|] eqn:Hf; [|done].
    apply (set_find_Some l x i H) in Hf as (y & Hi & He).
    rewrite Hn in He; [done|]. by eapply list_elem_of_lookup_2.
Qed.

Lemma sorted_insert_at l x : sorted l → set_find less l x = None →
  sorted (insert_at l (lower_bound less l x) x).
Proof.
  intros H Hf. pose proof (proj1 (set_find_None l x H) Hf) as Hn.
  pose proof (Forall_take_lower_bound l x) as Ht. pose proof (Forall_drop_lower_bound l x H) as Hd.
  set (i := lower_bound less l x) in *. unfold insert_at. rewrite Forall_forall in Ht, Hd.
  rewrite <- (take_drop i l) in H. apply sorted_app in H as (H1 & H2 & Hc).
  assert (∀ b, b ∈ drop i l → less x b = true) as Hx.
  { intros b Hb. specialize (Hd b Hb). simpl in Hd.
    assert (b ∈ l) as Hbl by (rewrite <- (take_drop i l); apply elem_of_app; by right).
    specialize (Hn b Hbl). unfold equivalent in Hn. rewrite Hd in Hn. by destruct (less x b). }
  apply sorted_app. split_and!; [done| |].
  - constructor; [done|]. by apply Forall_forall.
  - intros a b Ha [->|Hb]%elem_of_cons; [by apply Ht|by apply Hc].
Qed.

Lemma set_insert_sorted l x : sorted l → sorted (set_insert less l x).1.
Proof.
  intros H. unfold set_insert. destruct (set_find less l x) eqn:Hf; [done|]. by apply sorted_insert_at.
Qed.

Lemma elem_of_insert_at (l : list E) i x y : y ∈ insert_at l i x ↔ y = x ∨ y ∈ l.
Proof.
  unfold insert_at. rewrite elem_of_app, elem_of_cons.
  rewrite <- (take_drop i l) at 3. rewrite elem_of_app. tauto.
Qed.

(** An order that is not coarser than equality. *)
Lemma elem_of_set_insert l x y : (∀ a b, equivalent less a b = true → a = b) → sorted l →
  y ∈ (set_insert less l x).1 ↔ y = x ∨ y ∈ l.
Proof.
  intros Ht Hs. unfold set_insert. destruct (set_find less l x) as [i|] eqn:Hf; [|apply elem_of_insert_at].
  apply set_find_Some in Hf as (z & Hz & He); [|done]. apply Ht in He as ->. apply list_elem_of_lookup_2 in Hz. cbn. naive_solver.
Qed.
End facts.

(** ** [std::map]: pairs in key order, with one entry per class of equivalent keys *)
Section maps.
Context {K V : Type} (less : K → K → bool).

Definition map_find (m : list (K * V)) (k : K) : option V :=
  match set_find less m.*1 k with
  | Some i => snd <$> m !! i
  | None => None
  end.

(** [m[k] = v]: an equivalent key that is there keeps its spelling. *)
Definition map_set (m : list (K * V)) (k : K) (v : V) : list (K * V) :=
  match set_find less m.*1 k with
  | Some i => alter (λ kv, (kv.1, v)) i m
  | None => insert_at m (lower_bound less m.*1 k) (k, v)
  end.

(** [m.insert({k, v})]: an equivalent key that is there keeps its value. *)
Definition map_insert (m : list (K * V)) (k : K) (v : V) : list (K * V) :=
  match set_find less m.*1 k with
  | Some _ => m
  | None => insert_at m (lower_bound less m.*1 k) (k, v)
  end.

(** [m.erase(k)] *)
Definition map_erase (m : list (K * V)) (k : K) : list (K * V) :=
  match set_find less m.*1 k with
  | Some i => delete i m
  | None => m
  end.

Context `{!StrictWeakOrder less}.
Definition map_sorted (m : list (K * V)) : Prop := sorted less m.*1.

Lemma map_find_Some m k v : map_sorted m →
  map_find m k = Some v ↔ ∃ k', (k', v) ∈ m ∧ equivalent less k k' = true.
Proof.
  intros H. unfold map_find. split.
  - destruct (set_find less m.*1 k) as [i|] eqn:Hf; [|done]. intros Hv.
    apply (set_find_Some less m.*1 k i H) in Hf as (k' & Hk & He).
    rewrite list_lookup_fmap in Hk. destruct (m !! i) as [[k0 v0]|] eqn:Hi; [|done]. simpl in *.
    injection Hk as ->. injection Hv as ->. exists k'. split; [|done]. by eapply list_elem_of_lookup_2.
  - intros (k' & Hin & He). apply list_elem_of_lookup in Hin as [i Hi].
    rewrite (proj2 (set_find_Some less m.*1 k i H)); [by rewrite Hi|].
    exists k'. by rewrite list_lookup_fmap, Hi.
Qed.

Lemma map_find_None m k : map_sorted m →
  map_find m k = None ↔ ∀ kv, kv ∈ m → equivalent less k kv.1 = false.
Proof.
  intros H. split.
  - intros Hn [k' v] Hin. destruct (equivalent less k k') eqn:He; [|done].
    rewrite (proj2 (map_find_Some m k v H)) in Hn by eauto. done.
  - intros Hall. destruct (map_find m k) as [v|] eqn:Hf; [|done].
    apply (map_find_Some m k v H) in Hf as (k' & Hin & He). specialize (Hall _ Hin). simpl in Hall. by rewrite Hall in He.
Qed.

(** Lookups do not distinguish equivalent keys. *)
Lemma map_find_equivalent m k k' : map_sorted m → equivalent less k k' = true → map_find m k = map_find m k'.
Proof.
  intros H He. apply option_eq. intros v. rewrite !map_find_Some by done.
  split; intros (k0 & Hin & Hk); exists k0; (split; [done|]); eapply equivalent_trans; eauto.
  by rewrite equivalent_sym.
Qed.

Lemma fmap_insert_at {A B} (f : A → B) (l : list A) i x : f <$> insert_at l i x = insert_at (f <$> l) i (f x).
Proof. unfold insert_at. by rewrite fmap_app, fmap_cons, fmap_take, fmap_drop. Qed.

Lemma map_set_keys m k v i : set_find less m.*1 k = Some i → (map_set m k v).*1 = m.*1.
Proof.
  unfold map_set. intros ->. apply list_eq. intros j. rewrite !list_lookup_fmap, list_lookup_alter.
  case_decide; [subst|done]. by destruct (m !! j).
Qed.

Lemma map_set_sorted m k v : map_sorted m → map_sorted (map_set m k v).
Proof.
  intros H. unfold map_sorted. destruct (set_find less m.*1 k) as [i|] eqn:Hf.
  - by rewrite (map_set_keys m k v i Hf).
  - unfold map_set. rewrite Hf, fmap_insert_at. by apply sorted_insert_at.
Qed.

Lemma map_insert_sorted m k v : map_sorted m → map_sorted (map_insert m k v).
Proof.
  intros H. unfold map_insert, map_sorted. destruct (set_find less m.*1 k) as [i|] eqn:Hf; [done|].
  rewrite fmap_insert_at. by apply sorted_insert_at.
Qed.

Lemma fmap_delete {A B} (f : A → B) (l : list A) i : f <$> delete i l = delete i (f <$> l).
Proof. revert i. induction l as [|x l IH]; intros [|i]; simpl; try done. f_equal. apply IH. Qed.

Lemma map_erase_sorted m k : map_sorted m → map_sorted (map_erase m k).
Proof.
  intros H. unfold map_erase, map_sorted. destruct (set_find less m.*1 k); [|done].
  rewrite fmap_delete. by apply sorted_delete.
Qed.

Lemma map_find_set_eq m k k' v : map_sorted m → equivalent less k k' = true →
  map_find (map_set m k v) k' = Some v.
Proof.
  intros H He. rewrite <- (map_find_equivalent _ k k') by (done || by apply map_set_sorted).
  apply map_find_Some; [by apply map_set_sorted|]. unfold map_set.
  destruct (set_find less m.*1 k) as [i|] eqn:Hf.
  - apply (set_find_Some less m.*1 k i H) in Hf as (k0 & Hk & Hk0). exists k0. split; [|done].
    rewrite list_lookup_fmap in Hk. destruct (m !! i) as [[k1 v1]|] eqn:Hi; [|done]. injection Hk as <-.
    apply list_elem_of_lookup. exists i. by rewrite list_lookup_alter_eq, Hi.
  - exists k. split; [|by apply equivalent_refl]. apply elem_of_insert_at. by left.
Qed.

Lemma map_find_set_ne m k k' v : map_sorted m → equivalent less k k' = false →
  map_find (map_set m k v) k' = map_find m k'.
Proof.
  intros H He. apply option_eq. intros v'. rewrite !map_find_Some by (done || by apply map_set_sorted).
  assert (∀ k0, equivalent less k' k0 = true → (k0, v') ∈ map_set m k v ↔ (k0, v') ∈ m) as Hin.
  { intros k0 Hk0. assert (equivalent less k k0 = false) as Hk.
    { destruct (equivalent less k k0) eqn:E; [|done]. rewrite equivalent_sym in Hk0.
      by rewrite (equivalent_trans less k k0 k' E Hk0) in He. }
    unfold map_set. destruct (set_find less m.*1 k) as [i|] eqn:Hf.
    - apply (set_find_Some less m.*1 k i H) in Hf as (k1 & Hk1 & He1).
      rewrite list_lookup_fmap in Hk1. destruct (m !! i) as [[k2 v2]|] eqn:Hi; [|done]. injection Hk1 as <-.
      rewrite !list_elem_of_lookup. apply exist_proper. intros j. destruct (decide (i = j)) as [<-|].
      + rewrite list_lookup_alter_eq, Hi. simpl. simpl in He1. split; intros [=]; subst; by rewrite He1 in Hk.
      + by rewrite list_lookup_alter_ne.
    - rewrite elem_of_insert_at. split; [|tauto]. intros [[=]|]; [|done]. subst.
      by rewrite equivalent_refl in Hk. }
  split; intros (k0 & Hk & Hk0); exists k0; (split; [by apply Hin|done]).
Qed.

Lemma map_find_erase_eq m k k' : map_sorted m → equivalent less k k' = true →
  map_find (map_erase m k) k' = None.
Proof.
  intros H He. rewrite <- (map_find_equivalent _ k k') by (done || by apply map_erase_sorted).
  apply map_find_None; [by apply map_erase_sorted|]. unfold map_erase.
  destruct (set_find less m.*1 k) as [i|] eqn:Hf.
  - intros kv Hin. destruct (equivalent less k kv.1) eqn:E; [|done].
    apply (set_find_Some less m.*1 k i H) in Hf as (k1 & Hk1 & He1).
    pose proof (sorted_NoDup less _ H) as Hnd. apply list_elem_of_lookup in Hin as [j Hj].
    assert (∃ j', j' ≠ i ∧ m !! j' = Some kv) as (j' & Hne & Hj').
    { destruct (decide (j < i)%nat).
      - exists j. split; [lia|]. by rewrite list_lookup_delete_lt in Hj.
      - exists (S j). split; [lia|]. by rewrite list_lookup_delete_ge in Hj by lia. }
    destruct Hne. apply (sorted_lookup_equivalent less m.*1 j' i kv.1 k1 H); [by rewrite list_lookup_fmap, Hj'|done|].
    rewrite equivalent_sym in E. by eapply equivalent_trans.
  - intros [k0 v0] Hin. eapply (set_find_None less m.*1 k H) in Hf; [done|].
    by apply (list_elem_of_fmap_2 fst m (k0, v0)).
Qed.

Lemma map_find_erase_ne m k k' : map_sorted m → equivalent less k k' = false →
  map_find (map_erase m k) k' = map_find m k'.
Proof.
  intros H He. apply option_eq. intros v'. rewrite !map_find_Some by (done || by apply map_erase_sorted).
  assert (∀ k0, equivalent less k' k0 = true → (k0, v') ∈ map_erase m k ↔ (k0, v') ∈ m) as Hin.
  { intros k0 Hk0. unfold map_erase. destruct (set_find less m.*1 k) as [i|] eqn:Hf; [|done].
    split; [apply list_elem_of_delete_inv|]. intros Hin.
    apply (set_find_Some less m.*1 k i H) in Hf as (k1 & Hk1 & He1).
    apply list_elem_of_lookup in Hin as [j Hj]. apply list_elem_of_lookup.
    assert (i ≠ j) as Hne.
    { intros <-. rewrite list_lookup_fmap, Hj in Hk1. injection Hk1 as <-.
      rewrite equivalent_sym in Hk0. by rewrite (equivalent_trans less k _ k' He1 Hk0) in He. }
    destruct (decide (j < i)%nat).
    - exists j. by rewrite list_lookup_delete_lt.
    - exists (j - 1)%nat. rewrite list_lookup_delete_ge by lia. rewrite <- Hj. f_equal. lia. }
  split; intros (k0 & Hk & Hk0); exists k0; (split; [by apply Hin|done]).
Qed.
End maps.
