(* ===== verification/Timer.v ===== *)
(** * Timer: the timer queue ([src/timer.cpp], [include/timer.h])

    A [Timer::ptr] is an address; [t_heap] holds the live [Timer] objects.  The
    [std::set] is [m_timers], a sorted sequence of addresses (see OrderedSet)
    whose comparator reads the objects' current [m_next].  Every operation that
    asks for the time takes the value [now] that [GetCurrentMS()] returns.
    Each operation runs under the manager's lock and is one step.  The virtual
    [onTimerInsertedAtFront] is recorded by counting its calls. *)
From S2P Require Import Prelude OrderedSet.

Section Timer.
(** Callbacks. *)
Context {Cb : Type}.

Record Timer := mkTimer {
  m_recurring : bool;
  m_ms : Z;
  m_next : Z;
  m_cb : option Cb
}.

Record TimerManager := mkTimerManager {
  t_heap : gmap Z Timer;
  m_timers : list Z;
  m_tickled : bool;
  m_previousTime : Z;
  front_calls : nat
}.

Definition set_heap (h : gmap Z Timer) (s : TimerManager) : TimerManager :=
  mkTimerManager h (m_timers s) (m_tickled s) (m_previousTime s) (front_calls s).
Definition set_timers (l : list Z) (s : TimerManager) : TimerManager :=
  mkTimerManager (t_heap s) l (m_tickled s) (m_previousTime s) (front_calls s).
Definition set_tickled (b : bool) (s : TimerManager) : TimerManager :=
  mkTimerManager (t_heap s) (m_timers s) b (m_previousTime s) (front_calls s).
Definition set_previousTime (t : Z) (s : TimerManager) : TimerManager :=
  mkTimerManager (t_heap s) (m_timers s) (m_tickled s) t (front_calls s).
Definition onTimerInsertedAtFront (s : TimerManager) : TimerManager :=
  mkTimerManager (t_heap s) (m_timers s) (m_tickled s) (m_previousTime s) (S (front_calls s)).

Definition with_ms (v : Z) (t : Timer) : Timer := mkTimer (m_recurring t) v (m_next t) (m_cb t).
Definition with_next (v : Z) (t : Timer) : Timer := mkTimer (m_recurring t) (m_ms t) v (m_cb t).
Definition with_cb (v : option Cb) (t : Timer) : Timer := mkTimer (m_recurring t) (m_ms t) (m_next t) v.

(** [ptr->m_next], for a live [ptr]. *)
Definition next_at (h : gmap Z Timer) (p : Z) : Z := from_option m_next 0 (h !! p).

(** [Timer::Comparator]: null pointers first, then by time, then by address. *)
Definition Comparator (h : gmap Z Timer) (lhs rhs : option Z) : bool :=
  match lhs, rhs with
  | None, None => false
  | None, Some _ => true
  | Some _, None => false
  | Some l, Some r =>
      if next_at h l =? next_at h r then l <? r else next_at h l <? next_at h r
  end.
Definition earlier (h : gmap Z Timer) (l r : Z) : bool := Comparator h (Some l) (Some r).

Definition deref_timer (p : Z) : ST TimerManager Timer := λ s,
  match t_heap s !! p with
  | Some t => Ret t s
  | None => Crash NullDeref
  end.
Definition update_timer (p : Z) (f : Timer → Timer) : ST TimerManager unit :=
  modify (λ s, set_heap (alter f p (t_heap s)) s).

(** [m_timers.find(p)], [m_timers.erase(it)], [m_timers.insert(p)]. *)
Definition timers_find (p : Z) : ST TimerManager (option nat) :=
  gets (λ s, set_find (earlier (t_heap s)) (m_timers s) p).
Definition timers_erase (it : option nat) : ST TimerManager unit := λ s,
  match it with
  | Some i => Ret tt (set_timers (set_erase (m_timers s) i) s)
  | None => Crash OutOfBounds
  end.
Definition timers_insert (p : Z) : ST TimerManager nat := λ s,
  let '(l, i) := set_insert (earlier (t_heap s)) (m_timers s) p in Ret i (set_timers l s).

(** [Timer(ms, cb, recurring, manager)] *)
Definition Timer_new (ms : Z) (cb : option Cb) (recurring : bool) (now : Z) : Timer :=
  mkTimer recurring ms (u64 (now + ms)) cb.

(** [addTimer(timer, lock)] *)
Definition addTimer_locked (p : Z) : ST TimerManager unit :=
  let* it := timers_insert p in
  let* s := gets id in
  let at_front := (it =? 0)%nat && negb (m_tickled s) in
  (if at_front then modify (set_tickled true) else ret tt) ;;;
  (if at_front then modify onTimerInsertedAtFront else ret tt).

(** [addTimer(ms, cb, recurring)]; [p] is the address of the new object. *)
Definition addTimer (p ms : Z) (cb : option Cb) (recurring : bool) (now : Z) : ST TimerManager Z :=
  modify (λ s, set_heap (<[p := Timer_new ms cb recurring now]> (t_heap s)) s) ;;;
  addTimer_locked p ;;;
  ret p.

Definition cancel (p : Z) : ST TimerManager bool :=
  let* t := deref_timer p in
  match m_cb t with
  | Some _ =>
      update_timer p (with_cb None) ;;;
      let* it := timers_find p in
      timers_erase it ;;;
      ret true
  | None => ret false
  end.

Definition refresh (p now : Z) : ST TimerManager bool :=
  let* t := deref_timer p in
  match m_cb t with
  | None => ret false
  | Some _ =>
      let* it := timers_find p in
      match it with
      | None => ret false
      | Some _ =>
          timers_erase it ;;;
          update_timer p (with_next (u64 (now + m_ms t))) ;;;
          let* _i := timers_insert p in
          ret true
      end
  end.

Definition reset (p ms : Z) (from_now : bool) (now : Z) : ST TimerManager bool :=
  let* t := deref_timer p in
  if (ms =? m_ms t) && negb from_now then ret true
  else
    match m_cb t with
    | None => ret false
    | Some _ =>
        let* it := timers_find p in
        match it with
        | None => ret false
        | Some _ =>
            timers_erase it ;;;
            let start := if from_now then now else u64 (m_next t - m_ms t) in
            update_timer p (with_ms ms) ;;;
            update_timer p (with_next (u64 (start + ms))) ;;;
            addTimer_locked p ;;;
            ret true
        end
    end.

Definition hasTimer : ST TimerManager bool :=
  gets (λ s, negb (bool_decide (m_timers s = []))).

(** [~0ull] when there is no timer. *)
Definition getNextTimer (now : Z) : ST TimerManager Z :=
  modify (set_tickled false) ;;;
  let* s := gets id in
  match m_timers s with
  | [] => ret (2 ^ 64 - 1)
  | next :: _ =>
      let* t := deref_timer next in
      if m_next t <=? now then ret 0 else ret (u64 (m_next t - now))
  end.

Definition detectClockRollover (now_ms : Z) : ST TimerManager bool :=
  let* prev := gets m_previousTime in
  let rollover := (now_ms <? prev) && (now_ms <? u64 (prev - 60 * 60 * 1000)) in
  modify (set_previousTime now_ms) ;;;
  ret rollover.

(** The final loop of [listExpiredCb]. *)
Fixpoint fire (now_ms : Z) (expired : list Z) (cbs : list (option Cb)) :
    ST TimerManager (list (option Cb)) :=
  match expired with
  | [] => ret cbs
  | p :: expired =>
      let* t := deref_timer p in
      let cbs := cbs ++ [m_cb t] in
      (if m_recurring t
       then update_timer p (with_next (u64 (now_ms + m_ms t))) ;;;
            let* _i := timers_insert p in ret tt
       else update_timer p (with_cb None)) ;;;
      fire now_ms expired cbs
  end.

(** [now_addr] is the address of the temporary [now_timer], used only to compare. *)
Definition listExpiredCb (now_addr now_ms : Z) (cbs : list (option Cb)) :
    ST TimerManager (list (option Cb)) :=
  let* s := gets id in
  match m_timers s with
  | [] => ret cbs
  | first :: _ =>
      let* rollover := detectClockRollover now_ms in
      let* t := deref_timer first in
      if negb rollover && (now_ms <? m_next t) then ret cbs
      else
        let h := <[now_addr := mkTimer false 0 now_ms None]> (t_heap s) in
        let it := if rollover then length (m_timers s)
                  else upper_bound (earlier h) (m_timers s) now_addr in
        let expired := take it (m_timers s) in
        modify (set_timers (drop it (m_timers s))) ;;;
        fire now_ms expired cbs
  end.

(** The operations as one type of events; [p] of an addition is the fresh address. *)
Inductive op :=
  | AddTimer (p ms : Z) (cb : Cb) (recurring : bool) (now : Z)
  | Cancel (p : Z)
  | Refresh (p now : Z)
  | Reset (p ms : Z) (from_now : bool) (now : Z)
  | GetNextTimer (now : Z)
  | ListExpiredCb (now_addr now : Z).

(** Callbacks handed out by the operation. *)
Definition exec (o : op) : ST TimerManager (list (option Cb)) :=
  match o with
  | AddTimer p ms cb recurring now => let* _p := addTimer p ms (Some cb) recurring now in ret []
  | Cancel p => let* _b := cancel p in ret []
  | Refresh p now => let* _b := refresh p now in ret []
  | Reset p ms from_now now => let* _b := reset p ms from_now now in ret []
  | GetNextTimer now => let* _t := getNextTimer now in ret []
  | ListExpiredCb a now => listExpiredCb a now []
  end.

Definition TimerManager_new (now : Z) : TimerManager := mkTimerManager ∅ [] false now 0.
End Timer.
Arguments Timer : clear implicits.
Arguments TimerManager : clear implicits.
Arguments op : clear implicits.

(** ** Condition timers

    A callback of type [std::function] is a target [F], or one bound by
    [std::bind(&OnTimer, weak_cond, cb)], whose [cb] may be empty.  [run] calls a
    target in the state [S]; [lock] is whether [weak_ptr::lock] finds the object
    alive when the callback runs. *)
Inductive callback (F : Type) := Plain (f : F) | Bound (weak_cond : Z) (cb : option F).
Arguments Plain {F}. Arguments Bound {F}.

Section condition.
Context {F S : Type} (run : F → ST S unit) (lock : Z → S → bool).

(** [cb()] *)
Definition call_target (cb : option F) : ST S unit :=
  match cb with Some f => run f | None => throw bad_function_call end.
Definition OnTimer (weak_cond : Z) (cb : option F) : ST S unit :=
  let* alive := gets (lock weak_cond) in
  if alive then call_target cb else ret tt.
Definition invoke (c : callback F) : ST S unit :=
  match c with Plain f => run f | Bound w cb => OnTimer w cb end.

Definition addConditionTimer (p ms : Z) (cb : option F) (weak_cond : Z) (recurring : bool) (now : Z) :
    ST (TimerManager (callback F)) Z :=
  addTimer p ms (Some (Bound weak_cond cb)) recurring now.
End condition.

(** ** The invariant of the timer queue and the effect of its steps

    [inv]: the set is sorted for the current due times, and holds exactly the
    live timers whose callback is set.  [inv_but ps] is the invariant in the
    middle of an operation that has taken the timers [ps] out of the set. *)
Section facts.
Context {Cb : Type}.
Implicit Types (h : gmap Z (Timer Cb)) (s : TimerManager Cb) (t : Timer Cb) (p q : Z).

Lemma earlier_spec h a b :
  earlier h a b = true ↔ next_at h a < next_at h b ∨ (next_at h a = next_at h b ∧ a < b).
Proof. unfold earlier, Comparator. destruct (Z.eqb_spec (next_at h a) (next_at h b)); rewrite Z.ltb_lt; lia. Qed.
Lemma earlier_false h a b :
  earlier h a b = false ↔ next_at h b < next_at h a ∨ (next_at h a = next_at h b ∧ b ≤ a).
Proof.
  unfold earlier, Comparator. destruct (Z.eqb_spec (next_at h a) (next_at h b)); rewrite Z.ltb_ge; lia.
Qed.

#[export] Instance earlier_order h : StrictWeakOrder (earlier h).
Proof.
  split; intros a b.
  - rewrite earlier_spec, earlier_false. lia.
  - intros c. rewrite !earlier_false. lia.
Qed.

(** Equivalent pointers are equal. *)
Lemma earlier_equivalent h a b : equivalent (earlier h) a b = true ↔ a = b.
Proof. rewrite equivalent_spec, !earlier_false. split; [lia|intros ->; lia]. Qed.

Lemma sorted_same_next h h' l : (∀ p, p ∈ l → next_at h p = next_at h' p) →
  sorted (earlier h) l → sorted (earlier h') l.
Proof.
  intros Heq H. induction H as [|x l Hs IH Hx]; constructor.
  - apply IH. intros; apply Heq; by right.
  - rewrite Forall_forall in Hx |- *. intros y Hy. specialize (Hx y Hy). simpl in *.
    rewrite earlier_spec in *. rewrite <- !Heq; [done|by right|left].
Qed.

Definition active s p : Prop := ∃ t, t_heap s !! p = Some t ∧ is_Some (m_cb t).

Record inv_but (ps : list Z) s : Prop := {
  inv_nodup : NoDup ps;
  inv_sorted : sorted (earlier (t_heap s)) (m_timers s);
  inv_active p : active s p ↔ p ∈ m_timers s ∨ p ∈ ps;
  inv_apart p : p ∈ ps → p ∉ m_timers s
}.
Definition inv s : Prop := inv_but [] s.

Lemma inv_in s p : inv s → p ∈ m_timers s ↔ active s p.
Proof. intros H. rewrite (inv_active _ _ H). set_solver. Qed.

Lemma deref_timer_ok s p t : t_heap s !! p = Some t → deref_timer p s = Ret t s.
Proof. intros H. unfold deref_timer. by rewrite H. Qed.

Lemma next_at_alter h p q f : (∀ t, m_next (f t) = m_next t) → next_at (alter f p h) q = next_at h q.
Proof.
  intros Hf. unfold next_at. destruct (decide (p = q)) as [->|Hne].
  - rewrite lookup_alter_eq. destruct (h !! q); simpl; [apply Hf|done].
  - by rewrite lookup_alter_ne.
Qed.
Lemma next_at_alter_ne h p q f : p ≠ q → next_at (alter f p h) q = next_at h q.
Proof. intros. unfold next_at. by rewrite lookup_alter_ne. Qed.

Lemma active_alter s p q f :
  active (set_heap (alter f p (t_heap s)) s) q
  ↔ if decide (q = p) then ∃ t, t_heap s !! p = Some t ∧ is_Some (m_cb (f t)) else active s q.
Proof.
  unfold active; simpl. destruct (decide (q = p)) as [->|Hne].
  - rewrite lookup_alter_eq. destruct (t_heap s !! p) as [t|]; simpl; naive_solver.
  - by rewrite lookup_alter_ne.
Qed.

Lemma elem_of_delete_NoDup (l : list Z) i p : NoDup l → l !! i = Some p →
  ∀ q, q ∈ delete i l ↔ q ∈ l ∧ q ≠ p.
Proof.
  intros Hn Hi q. rewrite <- (take_drop_middle l i p Hi) in Hn. rewrite delete_take_drop.
  rewrite <- (take_drop_middle l i p Hi) at 3. apply NoDup_app in Hn as (_ & Hn1 & Hn2).
  apply NoDup_cons in Hn2 as [Hn2 _]. set_solver.
Qed.

(** Removing a timer from the set, found with the current comparator. *)
Lemma find_in s ps p h : inv_but ps s → p ∈ m_timers s →
  (∀ q, next_at h q = next_at (t_heap s) q) →
  ∃ i, set_find (earlier h) (m_timers s) p = Some i ∧ m_timers s !! i = Some p.
Proof.
  intros H Hp Hn. apply list_elem_of_lookup in Hp as [i Hi]. exists i. split; [|done].
  apply set_find_Some; [apply _| |].
  - eapply sorted_same_next; [|apply H]. done.
  - exists p. split; [done|]. by apply earlier_equivalent.
Qed.

Lemma inv_unlink s ps p i : inv_but ps s → m_timers s !! i = Some p →
  inv_but (p :: ps) (set_timers (delete i (m_timers s)) s).
Proof.
  intros H Hi. assert (p ∈ m_timers s) as Hp by (by eapply list_elem_of_lookup_2).
  pose proof (sorted_NoDup _ _ (inv_sorted _ _ H)) as Hnd.
  pose proof (elem_of_delete_NoDup _ _ _ Hnd Hi) as Hd. destruct H as [H1 H2 H3 H4].
  constructor; simpl.
  - constructor; [|done]. intros Hin. by destruct (H4 p Hin).
  - by apply sorted_delete.
  - intros q. unfold active in *; simpl. rewrite H3, Hd, elem_of_cons.
    destruct (decide (q = p)) as [->|]; naive_solver.
  - intros q Hq Hq'. apply Hd in Hq' as [? ?]. apply elem_of_cons in Hq as [->|Hq]; [done|].
    by destruct (H4 q Hq).
Qed.

Lemma inv_unlink_prefix s n : inv s → inv_but (take n (m_timers s)) (set_timers (drop n (m_timers s)) s).
Proof.
  intros H. pose proof (inv_sorted _ _ H) as Hs. pose proof (sorted_NoDup _ _ Hs) as Hnd.
  rewrite <- (take_drop n (m_timers s)) in Hs, Hnd. apply sorted_app in Hs as (_ & Hs & _).
  apply NoDup_app in Hnd as (Hn1 & Hn2 & _). constructor; simpl; try done.
  - intros p. change (active s p ↔ p ∈ drop n (m_timers s) ∨ p ∈ take n (m_timers s)).
    rewrite (inv_active _ _ H). rewrite <- (take_drop n (m_timers s)) at 1. set_solver.
Qed.

(** Putting a timer back. *)
Lemma inv_link s ps p : inv_but (p :: ps) s →
  ∃ l i, timers_insert p s = Ret i (set_timers l s) ∧ inv_but ps (set_timers l s)
    ∧ (i = 0%nat ↔ ∀ q, q ∈ m_timers s → earlier (t_heap s) p q = true).
Proof.
  intros [H1 H2 H3 H4]. unfold timers_insert, set_insert.
  assert (set_find (earlier (t_heap s)) (m_timers s) p = None) as Hf.
  { apply set_find_None; [apply _|done|]. intros y Hy.
    destruct (equivalent _ p y) eqn:He; [|done]. apply earlier_equivalent in He as <-.
    exfalso. apply (H4 p); [left|done]. }
  rewrite Hf. eexists _, _. split; [done|]. apply NoDup_cons in H1 as [Hp Hnd]. split.
  - constructor; simpl; [done| | |].
    + apply sorted_insert_at; [apply _|done|done].
    + intros q. change (active s q ↔ q ∈ insert_at (m_timers s) (lower_bound (earlier (t_heap s)) (m_timers s) p) p ∨ q ∈ ps).
      rewrite H3, elem_of_insert_at, elem_of_cons. tauto.
    + intros q Hq. rewrite elem_of_insert_at. intros [->|Hq']; [done|].
      by apply (H4 q); [right|].
  - pose proof (Forall_drop_lower_bound (earlier (t_heap s)) (m_timers s) p H2) as Hd.
    pose proof (Forall_take_lower_bound (earlier (t_heap s)) (m_timers s) p) as Ht.
    split.
    + intros E q Hq. rewrite E, drop_0 in Hd. rewrite Forall_forall in Hd. specialize (Hd q Hq).
      simpl in Hd. rewrite earlier_false in Hd. rewrite earlier_spec.
      destruct (decide (p = q)) as [->|]; [|lia]. by destruct (H4 q); [left|].
    + intros Hall. destruct (m_timers s) as [|y l]; [done|]. simpl.
      by rewrite (less_asym p y) by (apply Hall; left).
Qed.

(** Changing a timer that is out of the set. *)
Lemma inv_update s ps p f : inv_but ps s → p ∈ ps → (∀ t, is_Some (m_cb t) → is_Some (m_cb (f t))) →
  inv_but ps (set_heap (alter f p (t_heap s)) s).
Proof.
  intros [H1 H2 H3 H4] Hp Hf. constructor; simpl; try done.
  - eapply sorted_same_next; [|exact H2]. intros q Hq. rewrite next_at_alter_ne; [done|].
    intros ->. by destruct (H4 q).
  - intros q. rewrite active_alter. destruct (decide (q = p)) as [->|]; [|apply H3].
    split; [by right|]. intros _. destruct (proj2 (H3 p)) as (t & Ht & Hc); [by right|]. eauto.
Qed.

Lemma inv_kill s ps p : inv_but (p :: ps) s →
  inv_but ps (set_heap (alter (with_cb None) p (t_heap s)) s).
Proof.
  intros [H1 H2 H3 H4]. apply NoDup_cons in H1 as [Hp Hnd]. constructor; simpl; try done.
  - eapply sorted_same_next; [|exact H2]. intros q _. by rewrite next_at_alter.
  - intros q. rewrite active_alter. destruct (decide (q = p)) as [->|].
    + split; [intros (t & _ & [? Hc]); done|]. intros [Hq|Hq]; [|done]. by destruct (H4 p); [left|].
    + rewrite H3, elem_of_cons. naive_solver.
  - intros q Hq. apply H4. by right.
Qed.

Lemma inv_set_heap_new s p t : inv s → t_heap s !! p = None → is_Some (m_cb t) →
  inv_but [p] (set_heap (<[p := t]> (t_heap s)) s).
Proof.
  intros H Hp Ht. assert (p ∉ m_timers s) as Hn.
  { rewrite (inv_in s p H). intros (t' & E & _). by rewrite Hp in E. }
  destruct H as [H1 H2 H3 H4]. constructor; simpl.
  - apply NoDup_singleton.
  - eapply sorted_same_next; [|exact H2]. intros q Hq. unfold next_at.
    rewrite lookup_insert_ne; [done|]. by intros ->.
  - intros q. unfold active; simpl. destruct (decide (q = p)) as [->|Hne].
    + rewrite lookup_insert_eq. split; [intros _; right; by left|eauto].
    + rewrite lookup_insert_ne by done. change (active s q ↔ q ∈ m_timers s ∨ q ∈ [p]).
      rewrite H3. set_solver.
  - intros q ->%list_elem_of_singleton. done.
Qed.

Lemma inv_same_set s s' ps : t_heap s' = t_heap s → m_timers s' = m_timers s → inv_but ps s → inv_but ps s'.
Proof. intros E1 E2 [H1 H2 H3 H4]. constructor; unfold active; rewrite ?E1, ?E2; done. Qed.
End facts.
#[export] Hint Resolve inv_kill inv_unlink inv_unlink_prefix : azure.
