(* ===== verification/TimerTheorems.v ===== *)
(** * TimerTheorems: the properties of the timer queue *)
From S2P Require Import Prelude OrderedSet Timer.

Section theorems.
Context {Cb : Type}.
Implicit Types (h : gmap Z (Timer Cb)) (s : TimerManager Cb) (t : Timer Cb) (p q : Z).

Lemma bind_update {B} p f (k : unit → ST (TimerManager Cb) B) s :
  bind (update_timer p f) k s = k tt (set_heap (alter f p (t_heap s)) s).
Proof. done. Qed.

(** ** One lemma per operation *)

(** Whether the virtual hook is called: the timer becomes the earliest one and
    no notification is pending. *)
Definition notifies p s : Prop := m_tickled s = false ∧ ∀ q, q ∈ m_timers s → earlier (t_heap s) p q = true.

Lemma addTimer_locked_spec s ps p : inv_but (p :: ps) s →
  ∃ s', addTimer_locked p s = Ret tt s' ∧ inv_but ps s' ∧ t_heap s' = t_heap s
    ∧ m_previousTime s' = m_previousTime s
    ∧ ((notifies p s ∧ front_calls s' = S (front_calls s) ∧ m_tickled s' = true)
       ∨ (¬ notifies p s ∧ front_calls s' = front_calls s ∧ m_tickled s' = m_tickled s)).
Proof.
  intros H. destruct (inv_link s ps p H) as (l & i & E & Hi & Hz). unfold addTimer_locked.
  rewrite (bind_Ret _ _ _ _ _ E). step_monad. unfold notifies. setoid_rewrite <- Hz. simpl.
  destruct (Nat.eqb_spec i 0) as [->|Hne]; destruct (m_tickled s) eqn:Ht; simpl;
    eexists; (split; [reflexivity|]); (split; [eapply inv_same_set; [..|exact Hi]; done|]);
    (split; [done|]); (split; [done|]); simpl; rewrite ?Ht;
    first [left; split_and!; done | right; split_and!; [by intros [??]|done..]].
Qed.

Lemma cancel_spec s p t : inv s → t_heap s !! p = Some t →
  ∃ s', cancel p s = Ret (bool_decide (is_Some (m_cb t))) s' ∧ inv s'
    ∧ t_heap s' = alter (with_cb None) p (t_heap s).
Proof.
  intros H Hp. unfold cancel. rewrite (bind_Ret _ _ _ _ _ (deref_timer_ok s p t Hp)).
  destruct (m_cb t) as [cb|] eqn:Hc.
  - assert (p ∈ m_timers s) as Hin by (apply (inv_in s p H); exists t; rewrite Hc; eauto).
    rewrite bind_update.
    destruct (find_in s [] p (alter (with_cb None) p (t_heap s)) H Hin) as (i & Hf & Hi).
    { intros q. by rewrite next_at_alter. }
    unfold timers_find. step_monad. simpl. rewrite Hf. eexists. split; [reflexivity|]. split; [|done].
    pose proof (inv_kill _ _ _ (inv_unlink s [] p i H Hi)) as Hk. exact Hk.
  - exists s. split; [done|]. split; [done|]. apply map_eq. intros q. symmetry.
    destruct (decide (p = q)) as [<-|]; [|by rewrite lookup_alter_ne].
    rewrite lookup_alter_eq, Hp. simpl. destruct t; simpl in *; by subst.
Qed.

Definition rearmed (f : Timer Cb → Timer Cb) t : Timer Cb := match m_cb t with Some _ => f t | None => t end.

Lemma alter_rearmed_dead h p f t : h !! p = Some t → m_cb t = None → alter (rearmed f) p h = h.
Proof.
  intros Hp Hc. apply map_eq. intros q. destruct (decide (p = q)) as [<-|]; [|by rewrite lookup_alter_ne].
  rewrite lookup_alter_eq, Hp. simpl. unfold rearmed. by rewrite Hc.
Qed.
Lemma alter_rearmed_alive h p f t : h !! p = Some t → is_Some (m_cb t) → alter (rearmed f) p h = alter f p h.
Proof.
  intros Hp [cb Hc]. apply map_eq. intros q. destruct (decide (p = q)) as [<-|]; [|by rewrite !lookup_alter_ne].
  rewrite !lookup_alter_eq, Hp. simpl. unfold rearmed. by rewrite Hc.
Qed.

Lemma refresh_spec s p t now : inv s → t_heap s !! p = Some t →
  ∃ s', refresh p now s = Ret (bool_decide (is_Some (m_cb t))) s' ∧ inv s'
    ∧ t_heap s' = alter (rearmed (with_next (u64 (now + m_ms t)))) p (t_heap s).
Proof.
  intros H Hp. unfold refresh. rewrite (bind_Ret _ _ _ _ _ (deref_timer_ok s p t Hp)).
  destruct (m_cb t) as [cb|] eqn:Hc.
  - assert (p ∈ m_timers s) as Hin by (apply (inv_in s p H); exists t; rewrite Hc; eauto).
    destruct (find_in s [] p (t_heap s) H Hin ltac:(done)) as (i & Hf & Hi).
    unfold timers_find. step_monad. rewrite Hf.
    erewrite bind_Ret by reflexivity. rewrite bind_update.
    assert (∀ t', is_Some (m_cb t') → is_Some (m_cb (with_next (u64 (now + m_ms t)) t'))) as Hk by done.
    pose proof (inv_update _ _ p _ (inv_unlink s [] p i H Hi) ltac:(by left) Hk) as Hu.
    destruct (inv_link _ _ _ Hu) as (l & j & E & Hj & _). simpl in E.
    rewrite (bind_Ret _ _ _ _ _ E). eexists. split; [done|]. split; [done|]. simpl.
    erewrite alter_rearmed_alive by (rewrite ?Hc; eauto). done.
  - exists s. split; [done|]. split; [done|]. by erewrite alter_rearmed_dead by eauto.
Qed.

Definition reset_next t (ms : Z) (from_now : bool) (now : Z) : Z :=
  u64 ((if from_now then now else u64 (m_next t - m_ms t)) + ms).

Lemma reset_spec s p t ms from_now now : inv s → t_heap s !! p = Some t → ¬ (ms = m_ms t ∧ from_now = false) →
  ∃ s', reset p ms from_now now s = Ret (bool_decide (is_Some (m_cb t))) s' ∧ inv s'
    ∧ t_heap s' = alter (rearmed (with_next (reset_next t ms from_now now) ∘ with_ms ms)) p (t_heap s).
Proof.
  intros H Hp Hn. unfold reset. rewrite (bind_Ret _ _ _ _ _ (deref_timer_ok s p t Hp)).
  destruct ((ms =? m_ms t) && negb from_now) eqn:Hq.
  { apply andb_true_iff in Hq as [Hq1%Z.eqb_eq Hq2%negb_true_iff]. by destruct Hn. }
  destruct (m_cb t) as [cb|] eqn:Hc.
  - assert (p ∈ m_timers s) as Hin by (apply (inv_in s p H); exists t; rewrite Hc; eauto).
    destruct (find_in s [] p (t_heap s) H Hin ltac:(done)) as (i & Hf & Hi).
    unfold timers_find. step_monad. rewrite Hf.
    erewrite bind_Ret by reflexivity. rewrite !bind_update. simpl.
    rewrite alter_alter_eq. fold (reset_next t ms from_now now).
    set (f := with_next (reset_next t ms from_now now) ∘ with_ms ms).
    pose proof (inv_update _ _ p f (inv_unlink s [] p i H Hi) ltac:(by left) ltac:(done)) as Hu.
    destruct (addTimer_locked_spec _ _ _ Hu) as (s' & E & Hs' & Hh & _). simpl in E, Hh.
    exists s'. unfold set_heap in E; simpl in E. unfold set_heap; simpl.
    rewrite (bind_Ret _ _ _ _ _ E). split; [done|]. split; [done|].
    rewrite Hh. symmetry. apply (alter_rearmed_alive _ _ _ t Hp). rewrite Hc. eauto.
  - exists s. split; [done|]. split; [done|]. by erewrite alter_rearmed_dead by eauto.
Qed.

Lemma alter_insert_lookup h p f t : h !! p = Some t → alter f p h = <[p := f t]> h.
Proof.
  intros Hp. apply map_eq. intros q. destruct (decide (p = q)) as [<-|].
  - by rewrite lookup_alter_eq, lookup_insert_eq, Hp.
  - by rewrite lookup_alter_ne, lookup_insert_ne.
Qed.

Lemma addTimer_spec s p ms cb recurring now : inv s → t_heap s !! p = None →
  let s1 := set_heap (<[p := Timer_new ms (Some cb) recurring now]> (t_heap s)) s in
  ∃ s', addTimer p ms (Some cb) recurring now s = Ret p s' ∧ inv s' ∧ t_heap s' = t_heap s1
    ∧ ((notifies p s1 ∧ front_calls s' = S (front_calls s) ∧ m_tickled s' = true)
       ∨ (¬ notifies p s1 ∧ front_calls s' = front_calls s ∧ m_tickled s' = m_tickled s)).
Proof.
  intros H Hp s1. unfold addTimer. rewrite bind_modify. fold s1.
  pose proof (inv_set_heap_new s p (Timer_new ms (Some cb) recurring now) H Hp ltac:(done)) as H1.
  destruct (addTimer_locked_spec s1 [] p H1) as (s' & E & Hs & Hh & _ & Hf).
  exists s'. rewrite (bind_Ret _ _ _ _ _ E). done.
Qed.

(** What firing does to a timer. *)
Definition fired (now : Z) t : Timer Cb :=
  if m_recurring t then with_next (u64 (now + m_ms t)) t else with_cb None t.
Definition callbacks h (ps : list Z) : list (option Cb) := (λ p, from_option m_cb None (h !! p)) <$> ps.

Lemma fire_spec now ps s cbs : inv_but ps s →
  ∃ s', fire now ps cbs s = Ret (cbs ++ callbacks (t_heap s) ps) s' ∧ inv s'
    ∧ (∀ q, t_heap s' !! q = if decide (q ∈ ps) then fired now <$> t_heap s !! q else t_heap s !! q)
    ∧ m_previousTime s' = m_previousTime s.
Proof.
  revert s cbs. induction ps as [|p ps IH]; intros s cbs H.
  - exists s. simpl. unfold callbacks; simpl. rewrite app_nil_r. split_and!; try done.
  - destruct (proj2 (inv_active _ _ H p)) as (t & Hp & Hc); [right; left|].
    pose proof (inv_nodup _ _ H) as [Hnp Hnd]%NoDup_cons.
    cbn [fire]. rewrite (bind_Ret _ _ _ _ _ (deref_timer_ok s p t Hp)).
    (* the state after this timer *)
    assert (∃ s1, (if m_recurring t
       then update_timer p (with_next (u64 (now + m_ms t))) ;;; let* _i := timers_insert p in ret tt
       else update_timer p (with_cb None)) s = Ret tt s1 ∧ inv_but ps s1
       ∧ t_heap s1 = <[p := fired now t]> (t_heap s) ∧ m_previousTime s1 = m_previousTime s) as (s1 & E & H1 & Hh & Ht).
    { unfold fired. destruct (m_recurring t).
      - rewrite bind_update.
        pose proof (inv_update s (p :: ps) p (with_next (u64 (now + m_ms t))) H ltac:(by left) ltac:(done)) as Hu.
        destruct (inv_link _ _ _ Hu) as (l & i & E & Hi & _). rewrite (bind_Ret _ _ _ _ _ E).
        eexists. split; [done|]. split; [done|]. split; [|done]. simpl. by apply alter_insert_lookup.
      - eexists. split; [done|]. split; [by apply inv_kill|]. split; [|done].
        simpl. by apply alter_insert_lookup. }
    rewrite (bind_Ret _ _ _ _ _ E).
    destruct (IH s1 (cbs ++ [m_cb t]) H1) as (s' & E' & Hi' & Hh' & Ht'). exists s'.
    rewrite E', Ht', Ht. split_and!; [|done| |done].
    + f_equal. rewrite <- app_assoc. f_equal. unfold callbacks. csimpl. rewrite Hp. simpl. f_equal.
      apply list_fmap_ext. intros i q Hq. rewrite Hh, lookup_insert_ne; [done|].
      intros ->. by apply list_elem_of_lookup_2 in Hq.
    + intros q. rewrite Hh', Hh. destruct (decide (q = p)) as [->|Hne].
      * rewrite decide_False, decide_True by (done || by left). by rewrite lookup_insert_eq, Hp.
      * rewrite lookup_insert_ne by done. destruct (decide (q ∈ ps)).
        -- by rewrite decide_True by (by right).
        -- by rewrite decide_False by (intros [?|?]%elem_of_cons; done).
Qed.

Definition rolled s now : bool := (now <? m_previousTime s) && (now <? u64 (m_previousTime s - 60 * 60 * 1000)).

(** Due at [now]; a timer due at exactly [now] counts when its address is not
    above that of the temporary [a] it is compared with. *)
Definition due s a now p : Prop :=
  next_at (t_heap s) p < now ∨ (next_at (t_heap s) p = now ∧ p ≤ a).

(** The prefix that [listExpiredCb] takes out of the set. *)
Definition expired_prefix s a now : list Z :=
  if rolled s now then m_timers s
  else take (upper_bound (earlier (<[a := mkTimer false 0 now None]> (t_heap s))) (m_timers s) a) (m_timers s).

Lemma earlier_with_temp s a now p : t_heap s !! a = None → p ∈ m_timers s → inv s →
  earlier (<[a := mkTimer false 0 now None]> (t_heap s)) a p = false ↔ due s a now p.
Proof.
  intros Ha Hp H. apply (inv_in s p H) in Hp as (t & Ht & _). assert (a ≠ p) by (intros ->; by rewrite Ha in Ht).
  rewrite earlier_false. unfold due, next_at. rewrite lookup_insert_eq, lookup_insert_ne by done. simpl. lia.
Qed.

Lemma elem_of_expired_prefix s a now p : inv s → t_heap s !! a = None →
  p ∈ expired_prefix s a now ↔ active s p ∧ (rolled s now = true ∨ due s a now p).
Proof.
  intros H Ha. rewrite <- (inv_in s p H). unfold expired_prefix.
  destruct (rolled s now); [naive_solver|].
  set (h := <[a := mkTimer false 0 now None]> (t_heap s)).
  assert (sorted (earlier h) (m_timers s)) as Hs.
  { eapply sorted_same_next; [|apply H]. intros q (t & Ht & _)%(inv_in s q H). unfold next_at, h.
    rewrite lookup_insert_ne; [done|]. intros ->. by rewrite Ha in Ht. }
  pose proof (Forall_take_upper_bound (earlier h) (m_timers s) a) as Ht.
  pose proof (Forall_drop_upper_bound (earlier h) (m_timers s) a Hs) as Hd.
  rewrite Forall_forall in Ht, Hd. set (n := upper_bound _ _ _) in *. split.
  - intros Hp. assert (p ∈ m_timers s) as Hin by (rewrite <- (take_drop n); set_solver).
    split; [done|]. right. apply (earlier_with_temp s a now p Ha Hin H). by apply Ht.
  - intros [Hin [?|Hdue]]; [done|]. pose proof Hin as Hin'. rewrite <- (take_drop n) in Hin.
    apply elem_of_app in Hin as [?|Hp]; [done|]. apply Hd in Hp. simpl in Hp.
    apply (earlier_with_temp s a now p Ha Hin' H) in Hdue. unfold h in Hp. by rewrite Hdue in Hp.
Qed.

Lemma sorted_expired_prefix s a now : inv s → sorted (earlier (t_heap s)) (expired_prefix s a now).
Proof.
  intros H. pose proof (inv_sorted _ _ H) as Hs. unfold expired_prefix. destruct (rolled s now); [done|].
  set (n := upper_bound _ _ _). rewrite <- (take_drop n (m_timers s)) in Hs. by apply sorted_app in Hs as [Hs _].
Qed.

(** The body of [listExpiredCb] behind the early returns. *)
Lemma listExpiredCb_eq a now cbs s : inv s → t_heap s !! a = None →
  ∃ s1, t_heap s1 = t_heap s ∧ inv_but (expired_prefix s a now) s1
    ∧ listExpiredCb a now cbs s = fire now (expired_prefix s a now) cbs s1.
Proof.
  intros H Ha. pose proof (elem_of_expired_prefix s a now) as Hep.
  unfold listExpiredCb. step_monad.
  assert (expired_prefix s a now = [] → ∀ s1, t_heap s1 = t_heap s → m_timers s1 = m_timers s →
    inv_but (expired_prefix s a now) s1 ∧ fire now (expired_prefix s a now) cbs s1 = ret cbs s1) as Hnone.
  { intros -> s1 E1 E2. split; [|done]. by eapply inv_same_set. }
  destruct (m_timers s) as [|first rest] eqn:Em.
  { exists s. split; [done|]. destruct (Hnone) with (s1 := s) as [? ->]; try done.
    unfold expired_prefix. rewrite Em. by destruct (rolled s now). }
  assert (active s first) as (t & Hf & _) by (apply (inv_in s first H); rewrite Em; left).
  unfold detectClockRollover. rewrite bind_assoc, bind_gets, bind_assoc, bind_modify, bind_ret.
  cbv beta. fold (rolled s now). rewrite (bind_Ret _ _ _ _ _ (deref_timer_ok (set_previousTime now s) first t Hf)).
  destruct (negb (rolled s now) && (now <? m_next t)) eqn:Hw.
  - eexists (set_previousTime now s). split; [done|].
    destruct Hnone with (s1 := set_previousTime now s) as [? ->]; try done.
    apply andb_true_iff in Hw as [Hr%negb_true_iff Hlt%Z.ltb_lt].
    destruct (expired_prefix s a now) as [|p ps] eqn:Ee; [done|].
    destruct (proj1 (Hep p H Ha)) as [Hact Hd]; [left|]. rewrite Hr in Hd.
    destruct Hd as [?|Hd]; [done|]. apply (inv_in s p H) in Hact. rewrite Em in Hact.
    pose proof (inv_sorted _ _ H) as Hs. rewrite Em in Hs. inversion Hs as [|?? _ Hall]; subst.
    assert (next_at (t_heap s) first = m_next t) as Hnf by (unfold next_at; by rewrite Hf).
    apply elem_of_cons in Hact as [->|Hact]; [unfold due in Hd; lia|].
    rewrite Forall_forall in Hall. specialize (Hall p Hact). simpl in Hall.
    apply earlier_spec in Hall. unfold due in Hd. lia.
  - step_monad. set (it := if rolled s now then _ else _). rewrite <- Em in *.
    assert (expired_prefix s a now = take it (m_timers s)) as ->.
    { unfold expired_prefix, it. destruct (rolled s now); by rewrite <- ?Em, ?firstn_all. }
    exists (set_timers (drop it (m_timers s)) (set_previousTime now s)).
    split; [done|]. split; [|done].
    eapply inv_same_set; [..|apply (inv_unlink_prefix s it H)]; done.
Qed.

Lemma listExpiredCb_fires a now cbs s : inv s → t_heap s !! a = None →
  let ps := expired_prefix s a now in
  ∃ s', listExpiredCb a now cbs s = Ret (cbs ++ callbacks (t_heap s) ps) s' ∧ inv s'
    ∧ (∀ q, t_heap s' !! q = if decide (q ∈ ps) then fired now <$> t_heap s !! q else t_heap s !! q).
Proof.
  intros H Ha ps. destruct (listExpiredCb_eq a now cbs s H Ha) as (s1 & Eh & H1 & E).
  destruct (fire_spec now _ s1 cbs H1) as (s' & E' & Hs' & Hq & _). rewrite Eh in E', Hq.
  exists s'. by rewrite E.
Qed.

(** ** Sequences of operations *)

(** The caller's obligations: a new object has a fresh address, and the other
    operations are called through live pointers. *)
Definition op_ok (o : op Cb) s : Prop :=
  match o with
  | AddTimer p _ _ _ _ => t_heap s !! p = None
  | Cancel p | Refresh p _ | Reset p _ _ _ => is_Some (t_heap s !! p)
  | GetNextTimer _ => True
  | ListExpiredCb a _ => t_heap s !! a = None
  end.

(** Timers whose callback is gone. *)
Definition dead s p : Prop := ∃ t, t_heap s !! p = Some t ∧ m_cb t = None.

Lemma dead_not_active s p : dead s p → ¬ active s p.
Proof. intros (t & Ht & Hc) (t' & Ht' & ?). rewrite Ht in Ht'. injection Ht' as <-. rewrite Hc in *. by destruct H. Qed.

Lemma lookup_alter_rearmed h p q f t : h !! q = Some t → m_cb t = None → alter (rearmed f) p h !! q = Some t.
Proof.
  intros Hq Hc. destruct (decide (p = q)) as [<-|]; [|by rewrite lookup_alter_ne].
  by erewrite alter_rearmed_dead.
Qed.

Lemma getNextTimer_heap now s : inv s →
  ∃ r, getNextTimer now s = Ret r (set_tickled false s)
  ∧ r = match m_timers s with
        | [] => 2 ^ 64 - 1
        | p :: _ => if next_at (t_heap s) p <=? now then 0 else u64 (next_at (t_heap s) p - now)
        end.
Proof.
  intros H. unfold getNextTimer. step_monad. simpl. destruct (m_timers s) as [|p l] eqn:Em; [by eexists|].
  assert (active s p) as (t & Ht & _) by (apply (inv_in s p H); rewrite Em; left).
  rewrite (bind_Ret _ _ _ _ _ (deref_timer_ok (set_tickled false s) p t Ht)). unfold next_at. rewrite Ht. simpl.
  case_match; by eexists.
Qed.

(** Every operation succeeds, keeps the invariant and does not touch dead timers. *)
Lemma exec_inv o s : inv s → op_ok o s →
  ∃ r s', exec o s = Ret r s' ∧ inv s' ∧ ∀ p, dead s p → t_heap s' !! p = t_heap s !! p.
Proof.
  intros H Ho. destruct o as [p ms cb rc now|p|p now|p ms fn now|now|a now]; simpl in *.
  - destruct (addTimer_spec s p ms cb rc now H Ho) as (s' & E & Hs' & Hh & _). rewrite (bind_Ret _ _ _ _ _ E).
    eexists _, _. split; [done|]. split; [done|]. intros q (t & Ht & _). rewrite Hh. simpl.
    rewrite lookup_insert_ne; [done|]. intros ->. by rewrite Ht in Ho.
  - destruct Ho as [t Ht]. destruct (cancel_spec s p t H Ht) as (s' & E & Hs' & Hh). rewrite (bind_Ret _ _ _ _ _ E).
    eexists _, _. split; [done|]. split; [done|]. intros q (u & Hu & Hc). rewrite Hh.
    destruct (decide (p = q)) as [<-|]; [|by rewrite lookup_alter_ne].
    rewrite lookup_alter_eq, Hu. simpl. destruct u; simpl in *; by subst.
  - destruct Ho as [t Ht]. destruct (refresh_spec s p t now H Ht) as (s' & E & Hs' & Hh). rewrite (bind_Ret _ _ _ _ _ E).
    eexists _, _. split; [done|]. split; [done|]. intros q (u & Hu & Hc). rewrite Hh, Hu. by apply lookup_alter_rearmed.
  - destruct Ho as [t Ht]. destruct (decide (ms = m_ms t ∧ fn = false)) as [[-> ->]|Hn].
    + unfold reset. rewrite bind_assoc, (bind_Ret _ _ _ _ _ (deref_timer_ok s p t Ht)), Z.eqb_refl. simpl.
      eexists _, s. split; [done|]. by split.
    + destruct (reset_spec s p t ms fn now H Ht Hn) as (s' & E & Hs' & Hh). rewrite (bind_Ret _ _ _ _ _ E).
      eexists _, _. split; [done|]. split; [done|]. intros q (u & Hu & Hc). rewrite Hh, Hu. by apply lookup_alter_rearmed.
  - destruct (getNextTimer_heap now s H) as (r & E & _). rewrite (bind_Ret _ _ _ _ _ E).
    eexists _, _. split; [done|]. split; [|done]. by eapply inv_same_set; [..|exact H].
  - destruct (listExpiredCb_fires a now [] s H Ho) as (s' & E & Hs' & Hh).
    eexists _, _. split; [done|]. split; [done|]. intros q Hq. rewrite Hh. rewrite decide_False; [done|].
    rewrite (elem_of_expired_prefix s a now q H Ho). intros [? _]. by apply (dead_not_active s q).
Qed.

Inductive step : TimerManager Cb → TimerManager Cb → Prop :=
  | step_op o s r s' : op_ok o s → exec o s = Ret r s' → step s s'.
Definition reachable s : Prop := ∃ now, rtc step (TimerManager_new now) s.

Lemma inv_new now : inv (TimerManager_new (Cb := Cb) now).
Proof.
  constructor; simpl; [constructor|constructor| |by intros ? ?%elem_of_nil].
  intros p. unfold active; simpl. rewrite lookup_empty. set_solver.
Qed.

Lemma step_inv s s' : step s s' → inv s → inv s' ∧ ∀ p, dead s p → t_heap s' !! p = t_heap s !! p.
Proof.
  intros [o s0 r s1 Ho E] H. destruct (exec_inv o s0 H Ho) as (r' & s2 & E' & Hs & Hd).
  rewrite E in E'. injection E' as <- <-. done.
Qed.

Lemma steps_inv s s' : rtc step s s' → inv s → inv s' ∧ ∀ p, dead s p → t_heap s' !! p = t_heap s !! p.
Proof.
  induction 1 as [|s s1 s' Hst _ IH]; intros H; [done|].
  destruct (step_inv s s1 Hst H) as [H1 D1]. destruct (IH H1) as [H2 D2]. split; [done|].
  intros p Hp. rewrite D2; [by apply D1|]. destruct Hp as (t & Ht & Hc). exists t. by rewrite D1; [|exists t].
Qed.

(** C27: Expiry.  [listExpiredCb] hands out exactly the callbacks of the active
    timers that are due at [now] (all of them when the clock went back), in the
    order of their due times; these timers are cancelled, or re-armed at
    [now + ms] if they recur, and no other timer changes. *)
Theorem listExpiredCb_spec a now cbs s : inv s → t_heap s !! a = None →
  ∃ s' ps, listExpiredCb a now cbs s = Ret (cbs ++ callbacks (t_heap s) ps) s' ∧ inv s'
    ∧ sorted (earlier (t_heap s)) ps
    ∧ (∀ p, p ∈ ps ↔ active s p ∧ (rolled s now = true ∨ due s a now p))
    ∧ (∀ q, t_heap s' !! q = if decide (q ∈ ps) then fired now <$> t_heap s !! q else t_heap s !! q).
Proof.
  intros H Ha. destruct (listExpiredCb_fires a now cbs s H Ha) as (s' & E & Hs' & Hq).
  exists s', (expired_prefix s a now). split_and!; try done.
  - by apply sorted_expired_prefix.
  - intros p. by apply elem_of_expired_prefix.
Qed.

(** C20: Safety.  In every state reachable by adding, cancelling, refreshing,
    resetting and expiring timers, the set is sorted and holds exactly the live
    timers with a callback, and every further operation succeeds: no [erase]
    of [end()] and no dangling access. *)
Theorem timers_safe s o : reachable s → op_ok o s →
  inv s ∧ ∃ r s', exec o s = Ret r s' ∧ reachable s'.
Proof.
  intros [now Hr] Ho. destruct (steps_inv _ _ Hr (inv_new now)) as [H _]. split; [done|].
  destruct (exec_inv o s H Ho) as (r & s' & E & _). exists r, s'. split; [done|].
  exists now. eapply rtc_r; [done|]. by econstructor.
Qed.

(** A cancelled timer is gone for good.  [cancel] reports whether the timer
    was active; afterwards, whatever the operations, the timer object never
    changes again, is never active and is not in the set. *)
Theorem cancel_is_final s p t b s1 s2 : inv s → t_heap s !! p = Some t →
  cancel p s = Ret b s1 → rtc step s1 s2 →
  (b = true ↔ active s p) ∧ t_heap s2 !! p = Some (with_cb None t) ∧ ¬ active s2 p ∧ p ∉ m_timers s2.
Proof.
  intros H Ht E Hst. destruct (cancel_spec s p t H Ht) as (s1' & E' & H1 & Hh).
  rewrite E in E'. injection E' as -> <-.
  assert (t_heap s1 !! p = Some (with_cb None t)) as Hp by (by rewrite Hh, lookup_alter_eq, Ht).
  destruct (steps_inv _ _ Hst H1) as [H2 D2].
  assert (t_heap s2 !! p = Some (with_cb None t)) as Hp2 by (rewrite D2; [done|by eexists]).
  assert (¬ active s2 p) as Hn by (apply dead_not_active; by eexists).
  split_and!; [|done|done|by rewrite (inv_in s2 p H2)].
  rewrite bool_decide_eq_true. unfold active. rewrite Ht. naive_solver.
Qed.

Lemma next_earliest now s : inv s →
  ∃ r, getNextTimer now s = Ret r (set_tickled false s)
    ∧ ((r = 2 ^ 64 - 1 ∧ ∀ p, ¬ active s p)
       ∨ ∃ p, active s p ∧ (∀ q, active s q → next_at (t_heap s) p ≤ next_at (t_heap s) q)
           ∧ r = u64 (0 `max` (next_at (t_heap s) p - now))).
Proof.
  intros H. destruct (getNextTimer_heap now s H) as (r & E & Hr). exists r. split; [done|].
  pose proof (inv_in s) as Hin. pose proof (inv_sorted _ _ H) as Hs.
  destruct (m_timers s) as [|p l] eqn:Em.
  - left. split; [done|]. intros p Hp. apply (Hin p H) in Hp. by apply elem_of_nil in Hp.
  - right. exists p. split; [apply (Hin p H); left|]. split.
    + intros q Hq. apply (Hin q H) in Hq. apply elem_of_cons in Hq as [->|Hq]; [lia|].
      inversion Hs as [|?? _ Hall]; subst. rewrite Forall_forall in Hall. apply Hall, earlier_spec in Hq. lia.
    + rewrite Hr. destruct (Z.leb_spec (next_at (t_heap s) p) now).
      * by rewrite Z.max_l by lia.
      * by rewrite Z.max_r by lia.
Qed.

(** Adding a timer stores it with due time [now + ms] and calls
    [onTimerInsertedAtFront] exactly when it becomes the earliest timer and no
    earlier notification is pending. *)
Theorem addTimer_notifies s p ms cb recurring now : inv s → t_heap s !! p = None →
  ∃ s', addTimer p ms (Some cb) recurring now s = Ret p s' ∧ inv s'
    ∧ t_heap s' = <[p := mkTimer recurring ms (u64 (now + ms)) (Some cb)]> (t_heap s)
    ∧ (front_calls s' = S (front_calls s) ↔
       m_tickled s = false ∧ ∀ q, active s q →
         u64 (now + ms) < next_at (t_heap s) q ∨ (u64 (now + ms) = next_at (t_heap s) q ∧ p < q)).
Proof.
  intros H Hp. destruct (addTimer_spec s p ms cb recurring now H Hp) as (s' & E & Hs' & Hh & Hf).
  exists s'. split_and!; try done.
  set (s1 := set_heap _ s) in Hf.
  assert (notifies p s1 ↔ m_tickled s = false ∧ ∀ q, active s q →
         u64 (now + ms) < next_at (t_heap s) q ∨ (u64 (now + ms) = next_at (t_heap s) q ∧ p < q)) as <-.
  { assert (∀ q, q ∈ m_timers s → (earlier (t_heap s1) p q = true ↔
       u64 (now + ms) < next_at (t_heap s) q ∨ (u64 (now + ms) = next_at (t_heap s) q ∧ p < q))) as Hq.
    { intros q Hq. rewrite earlier_spec. unfold next_at, s1; simpl.
      assert (p ≠ q) by (intros <-; apply (inv_in s p H) in Hq as (t & Ht & _); by rewrite Hp in Ht).
      by rewrite lookup_insert_eq, lookup_insert_ne. }
    unfold notifies. simpl. split; intros [? Hall]; (split; [done|]); intros q Hin.
    - apply (inv_in s q H) in Hin. apply Hq; [done|]. by apply Hall.
    - apply Hq; [done|]. apply Hall. by apply (inv_in s q H). }
  destruct Hf as [(? & -> & _)|(? & -> & _)]; split; intros; try done. lia.
Qed.
End theorems.

(** ** Condition timers *)
Section condition.
Context {F S : Type} (run : F → ST S unit) (lock : Z → S → bool).
Implicit Types m : TimerManager (callback F).

(** A condition timer is handed out as any other timer when it is due; its
    callback runs exactly when the object it watches is alive at that moment. *)
Lemma condition_timer_calls m p ms cb weak recurring now a later x : inv m → t_heap m !! p = None → a ≠ p →
  t_heap m !! a = None → u64 (now + ms) < later →
  ∃ m1 cbs m2, addConditionTimer p ms (Some cb) weak recurring now m = Ret p m1 ∧
    listExpiredCb a later [] m1 = Ret cbs m2 ∧ inv m2 ∧ Some (Bound weak (Some cb)) ∈ cbs ∧
    invoke run lock (Bound weak (Some cb)) x = (if lock weak x then run cb x else Ret tt x).
Proof.
  intros Hi Hp Hap Ha Hl. destruct (addTimer_spec m p ms (Bound weak (Some cb)) recurring now Hi Hp) as (m1 & E & Hi1 & Hh & _).
  assert (t_heap m1 !! a = None) as Ha1 by (rewrite Hh; cbn; by rewrite lookup_insert_ne).
  assert (t_heap m1 !! p = Some (Timer_new ms (Some (Bound weak (Some cb))) recurring now)) as Hp1 by (rewrite Hh; cbn; by rewrite lookup_insert_eq).
  destruct (listExpiredCb_fires a later [] m1 Hi1 Ha1) as (m2 & E2 & Hi2 & _). eexists m1, _, m2.
  split_and!; [exact E|exact E2|exact Hi2| |].
  - cbn [app]. unfold callbacks. apply list_elem_of_fmap. exists p. rewrite Hp1. split; [done|].
    apply elem_of_expired_prefix; [done..|]. split; [by eexists; split; [exact Hp1|]|]. right. left.
    unfold next_at. by rewrite Hp1.
  - unfold invoke, OnTimer. rewrite bind_gets. by destruct (lock weak x).
Qed.
End condition.

(** ** Witnesses: three timers, one of them recurring *)
Definition demo_timers : TimerManager nat :=
  match (let* _a := addTimer 100 50 (Some 1%nat) false 1000 in
         let* _b := addTimer 200 20 (Some 2%nat) true 1000 in
         addTimer 300 90 (Some 3%nat) false 1000) (TimerManager_new 1000) with
  | Ret _ s => s
  | _ => TimerManager_new 0
  end.

Lemma demo_reachable : reachable demo_timers.
Proof.
  exists 1000. apply rtc_l with (y := mkTimerManager {[100 := Timer_new 50 (Some 1%nat) false 1000]} [100] true 1000 1).
  { by apply (step_op (AddTimer 100 50 1%nat false 1000) _ []). }
  eapply rtc_l; [by apply (step_op (AddTimer 200 20 2%nat true 1000) _ [])|].
  eapply rtc_l; [by apply (step_op (AddTimer 300 90 3%nat false 1000) _ [])|]. apply rtc_refl.
Defined.

Lemma demo_inv : inv demo_timers.
Proof. destruct demo_reachable as [now H]. by apply (steps_inv _ _ H), inv_new. Defined.

Lemma listExpiredCb_spec_witness : let s := demo_timers in
  ∃ s' ps, listExpiredCb 7 1060 [] s = Ret ([] ++ callbacks (t_heap s) ps) s' ∧ inv s'
    ∧ sorted (earlier (t_heap s)) ps
    ∧ (∀ p, p ∈ ps ↔ active s p ∧ (rolled s 1060 = true ∨ due s 7 1060 p))
    ∧ (∀ q, t_heap s' !! q = if decide (q ∈ ps) then fired 1060 <$> t_heap s !! q else t_heap s !! q).
Proof. apply listExpiredCb_spec; [apply demo_inv|reflexivity]. Defined.

Example listExpiredCb_demo : out_val (listExpiredCb 7 1060 [] demo_timers) = Some [Some 2; Some 1]%nat.
Proof. reflexivity. Qed.

Lemma timers_safe_witness :
  inv demo_timers ∧ ∃ r s', exec (Reset 200 5 true 1010) demo_timers = Ret r s' ∧ reachable s'.
Proof. apply timers_safe; [apply demo_reachable|by eexists]. Defined.

Lemma cancel_is_final_witness :
  ∃ b s1, cancel 100 demo_timers = Ret b s1 ∧
    let t := Timer_new 50 (Some 1%nat) false 1000 in
    (b = true ↔ active demo_timers 100) ∧ t_heap s1 !! 100 = Some (with_cb None t)
    ∧ ¬ active s1 100 ∧ 100 ∉ m_timers s1.
Proof.
  eexists _, _. split; [reflexivity|]. eapply cancel_is_final; [apply demo_inv|reflexivity|reflexivity|apply rtc_refl].
Defined.

Lemma addTimer_notifies_witness : let s := demo_timers in
  ∃ s', addTimer 400 1 (Some 4%nat) false 1000 s = Ret 400 s' ∧ inv s'
    ∧ t_heap s' = <[400 := mkTimer false 1 (u64 (1000 + 1)) (Some 4%nat)]> (t_heap s)
    ∧ (front_calls s' = S (front_calls s) ↔
       m_tickled s = false ∧ ∀ q, active s q →
         u64 (1000 + 1) < next_at (t_heap s) q ∨ (u64 (1000 + 1) = next_at (t_heap s) q ∧ 400 < q)).
Proof. apply addTimer_notifies; [apply demo_inv|reflexivity]. Defined.

(** ** Where the code departs from its purpose *)

(** [detectClockRollover] subtracts an hour from an unsigned time: with a
    previous time below an hour, any step back counts as a rollover. *)
Lemma rollover_wraps : rolled (TimerManager_new (Cb := nat) 1000) 999 = true.
Proof. reflexivity. Qed.

(** A timer due at exactly [now] is left in the set when its object lies above
    the temporary that [listExpiredCb] compares with. *)
Lemma due_now_depends_on_address :
  out_val (listExpiredCb 7 1020 [] demo_timers) = Some [] ∧
  out_val (listExpiredCb 900 1020 [] demo_timers) = Some [Some 2%nat].
Proof. split; reflexivity. Qed.
