(* ===== verification/Http.v ===== *)
(** * Http: methods, status codes and the case-insensitive order
    ([include/http/http.h], [src/http/http.cpp])

    The X-macro tables are lists of their rows, in the source's order.  A
    status is the integer it is cast from, as responses are parsed by a cast. *)
From S2P Require Import Prelude CLib OrderedSet.

(** [XX(num, name, string)] *)
Inductive HttpMethod :=
  | DELETE | GET | HEAD | POST | PUT | CONNECT
  | OPTIONS | TRACE | COPY | LOCK | MKCOL | MOVE
  | PROPFIND | PROPPATCH | SEARCH | UNLOCK | BIND | REBIND
  | UNBIND | ACL | REPORT | MKACTIVITY | CHECKOUT | MERGE
  | MSEARCH | NOTIFY | SUBSCRIBE | UNSUBSCRIBE | PATCH | PURGE
  | MKCALENDAR | LINK | UNLINK | SOURCE | HTTP_INVALID_METHOD.

#[export] Instance HttpMethod_eq_dec : EqDecision HttpMethod.
Proof. solve_decision. Defined.

Definition HTTP_METHOD_MAP : list (Z * HttpMethod * string) := [
  (0, DELETE, "DELETE");
  (1, GET, "GET");
  (2, HEAD, "HEAD");
  (3, POST, "POST");
  (4, PUT, "PUT");
  (5, CONNECT, "CONNECT");
  (6, OPTIONS, "OPTIONS");
  (7, TRACE, "TRACE");
  (8, COPY, "COPY");
  (9, LOCK, "LOCK");
  (10, MKCOL, "MKCOL");
  (11, MOVE, "MOVE");
  (12, PROPFIND, "PROPFIND");
  (13, PROPPATCH, "PROPPATCH");
  (14, SEARCH, "SEARCH");
  (15, UNLOCK, "UNLOCK");
  (16, BIND, "BIND");
  (17, REBIND, "REBIND");
  (18, UNBIND, "UNBIND");
  (19, ACL, "ACL");
  (20, REPORT, "REPORT");
  (21, MKACTIVITY, "MKACTIVITY");
  (22, CHECKOUT, "CHECKOUT");
  (23, MERGE, "MERGE");
  (24, MSEARCH, "M-SEARCH");
  (25, NOTIFY, "NOTIFY");
  (26, SUBSCRIBE, "SUBSCRIBE");
  (27, UNSUBSCRIBE, "UNSUBSCRIBE");
  (28, PATCH, "PATCH");
  (29, PURGE, "PURGE");
  (30, MKCALENDAR, "MKCALENDAR");
  (31, LINK, "LINK");
  (32, UNLINK, "UNLINK");
  (33, SOURCE, "SOURCE")].

(** [XX(code, name, desc)] *)
Definition HTTP_STATUS_MAP : list (Z * string * string) := [
  (100, "CONTINUE", "Continue");
  (101, "SWITCHING_PROTOCOLS", "Switching Protocols");
  (102, "PROCESSING", "Processing");
  (200, "OK", "OK");
  (201, "CREATED", "Created");
  (202, "ACCEPTED", "Accepted");
  (203, "NON_AUTHORITATIVE_INFORMATION", "Non-Authoritative Information");
  (204, "NO_CONTENT", "No Content");
  (205, "RESET_CONTENT", "Reset Content");
  (206, "PARTIAL_CONTENT", "Partial Content");
  (207, "MULTI_STATUS", "Multi-Status");
  (208, "ALREADY_REPORTED", "Already Reported");
  (226, "IM_USED", "IM Used");
  (300, "MULTIPLE_CHOICES", "Multiple Choices");
  (301, "MOVED_PERMANENTLY", "Moved Permanently");
  (302, "FOUND", "Found");
  (303, "SEE_OTHER", "See Other");
  (304, "NOT_MODIFIED", "Not Modified");
  (305, "USE_PROXY", "Use Proxy");
  (307, "TEMPORARY_REDIRECT", "Temporary Redirect");
  (308, "PERMANENT_REDIRECT", "Permanent Redirect");
  (400, "BAD_REQUEST", "Bad Request");
  (401, "UNAUTHORIZED", "Unauthorized");
  (402, "PAYMENT_REQUIRED", "Payment Required");
  (403, "FORBIDDEN", "Forbidden");
  (404, "NOT_FOUND", "Not Found");
  (405, "METHOD_NOT_ALLOWED", "Method Not Allowed");
  (406, "NOT_ACCEPTABLE", "Not Acceptable");
  (407, "PROXY_AUTHENTICATION_REQUIRED", "Proxy Authentication Required");
  (408, "REQUEST_TIMEOUT", "Request Timeout");
  (409, "CONFLICT", "Conflict");
  (410, "GONE", "Gone");
  (411, "LENGTH_REQUIRED", "Length Required");
  (412, "PRECONDITION_FAILED", "Precondition Failed");
  (413, "PAYLOAD_TOO_LARGE", "Payload Too Large");
  (414, "URI_TOO_LONG", "URI Too Long");
  (415, "UNSUPPORTED_MEDIA_TYPE", "Unsupported Media Type");
  (416, "RANGE_NOT_SATISFIABLE", "Range Not Satisfiable");
  (417, "EXPECTATION_FAILED", "Expectation Failed");
  (421, "MISDIRECTED_REQUEST", "Misdirected Request");
  (422, "UNPROCESSABLE_ENTITY", "Unprocessable Entity");
  (423, "LOCKED", "Locked");
  (424, "FAILED_DEPENDENCY", "Failed Dependency");
  (426, "UPGRADE_REQUIRED", "Upgrade Required");
  (428, "PRECONDITION_REQUIRED", "Precondition Required");
  (429, "TOO_MANY_REQUESTS", "Too Many Requests");
  (431, "REQUEST_HEADER_FIELDS_TOO_LARGE", "Request Header Fields Too Large");
  (451, "UNAVAILABLE_FOR_LEGAL_REASONS", "Unavailable For Legal Reasons");
  (500, "INTERNAL_SERVER_ERROR", "Internal Server Error");
  (501, "NOT_IMPLEMENTED", "Not Implemented");
  (502, "BAD_GATEWAY", "Bad Gateway");
  (503, "SERVICE_UNAVAILABLE", "Service Unavailable");
  (504, "GATEWAY_TIMEOUT", "Gateway Timeout");
  (505, "HTTP_VERSION_NOT_SUPPORTED", "HTTP Version Not Supported");
  (506, "VARIANT_ALSO_NEGOTIATES", "Variant Also Negotiates");
  (507, "INSUFFICIENT_STORAGE", "Insufficient Storage");
  (508, "LOOP_DETECTED", "Loop Detected");
  (510, "NOT_EXTENDED", "Not Extended");
  (511, "NETWORK_AUTHENTICATION_REQUIRED", "Network Authentication Required")].

Definition HttpStatus : Type := Z.

(** ** C strings *)

(** The characters before the first NUL: what [s.c_str()] denotes. *)
Fixpoint c_str (s : string) : string :=
  match s with
  | EmptyString => EmptyString
  | String c s => if char_code c =? 0 then EmptyString else String c (c_str s)
  end.

(** [strcmp(a, s) == 0] and [strncmp(a, s, strlen(a)) == 0] for a literal [a];
    [s] is the memory from the pointer on. *)
Definition strcmp_eq (a s : string) : bool := bool_decide (a = c_str s).
Definition strncmp_eq (a s : string) : bool := String.prefix a (c_str s).

Fixpoint cmp_bytes (a b : list Z) : Z :=
  match a, b with
  | [], [] => 0
  | [], y :: _ => - y
  | x :: _, [] => x
  | x :: a, y :: b => if x =? y then cmp_bytes a b else x - y
  end.

(** The lower-case bytes of a string, up to its first NUL. *)
Definition fold_key (s : string) : list Z := tolower <$> bytes_of_string (c_str s).
Definition strcasecmp (l r : string) : Z := cmp_bytes (fold_key l) (fold_key r).

Definition CaseInsensitiveLess (lhs rhs : string) : bool := strcasecmp lhs rhs <? 0.

(** ** Conversions *)
Definition method_of (r : Z * HttpMethod * string) : HttpMethod := r.1.2.

Fixpoint find_method (f : string → bool) (l : list (Z * HttpMethod * string)) : HttpMethod :=
  match l with
  | [] => HTTP_INVALID_METHOD
  | (_, name, str) :: l => if f str then name else find_method f l
  end.

Definition StringToHttpMethod (m : string) : HttpMethod :=
  find_method (λ str, strcmp_eq str m) HTTP_METHOD_MAP.
Definition CharsToHttpMethod (m : string) : HttpMethod :=
  find_method (λ str, strncmp_eq str m) HTTP_METHOD_MAP.

(** The enumerator's value: the last one follows the table. *)
Definition method_num (m : HttpMethod) : Z :=
  match list_find (λ r, method_of r = m) HTTP_METHOD_MAP with
  | Some (_, (num, _, _)) => num
  | None => 34
  end.

Definition s_method_string : list string := snd <$> HTTP_METHOD_MAP.

Definition HttpMethodToString (m : HttpMethod) : string :=
  let idx := u32 (method_num m) in
  if zlen s_method_string <=? idx then "<unknown>"
  else default "" (s_method_string !! Z.to_nat idx).

Fixpoint find_status (s : HttpStatus) (l : list (Z * string * string)) : string :=
  match l with
  | [] => "<unknown>"
  | (code, _, msg) :: l => if s =? code then msg else find_status s l
  end.
Definition HttpStatusToString (s : HttpStatus) : string := find_status s HTTP_STATUS_MAP.

(** ** Maps with case-insensitive keys *)
Definition MapType : Type := list (string * string).
Definition find (m : MapType) (key : string) : option string := map_find CaseInsensitiveLess m key.
Definition assign (m : MapType) (key val : string) : MapType := map_set CaseInsensitiveLess m key val.
Definition erase (m : MapType) (key : string) : MapType := map_erase CaseInsensitiveLess m key.

(** [checkGetAs], [getAs]: [lexical_cast] is [boost::lexical_cast<T>], [None] when it throws. *)
Definition checkGetAs {T} (lexical_cast : string → option T) (m : MapType) (key : string) (def : T) : bool * T :=
  match find m key with
  | None => (false, def)
  | Some s => match lexical_cast s with Some v => (true, v) | None => (false, def) end
  end.
Definition getAs {T} (lexical_cast : string → option T) (m : MapType) (key : string) (def : T) : T :=
  match find m key with
  | None => def
  | Some s => match lexical_cast s with Some v => v | None => def end
  end.

(** ** Output *)
Definition CRLF : string := String (Ascii.ascii_of_nat 13) (String (Ascii.ascii_of_nat 10) EmptyString).
Definition dec (n : Z) : string := pretty (Z.to_N n).

(** The header lines of [dump]: everything but [connection]. *)
Fixpoint dump_headers (m : MapType) : string :=
  match m with
  | [] => ""
  | (k, v) :: m =>
      (if strcasecmp k "connection" =? 0 then "" else k +:+ ": " +:+ v +:+ CRLF) +:+ dump_headers m
  end.
Definition dump_connection (close : bool) : string :=
  "connection: " +:+ (if close then "close" else "keep-alive") +:+ CRLF.
Definition dump_body (body : string) : string :=
  if String.eqb body "" then CRLF
  else "content-length: " +:+ dec (size body) +:+ CRLF +:+ CRLF +:+ body.
Definition dump_version (version : Z) : string :=
  "HTTP/" +:+ dec (Z.shiftr version 4) +:+ "." +:+ dec (Z.land version 15).
