(* ===== verification/HttpRequest.v ===== *)
(** * HttpRequest: the request object ([include/http/http.h], [src/http/http.cpp]) *)
From S2P Require Import Prelude OrderedSet Http.

Record HttpRequest := mkHttpRequest {
  m_method : HttpMethod;
  m_status : HttpStatus;
  m_version : Z;
  m_close : bool;
  m_path : string;
  m_query : string;
  m_fragment : string;
  m_body : string;
  m_headers : MapType;
  m_params : MapType;
  m_cookies : MapType
}.

(** [HttpRequest(version, close)]; the constructor leaves [m_status]
    uninitialised: [garbage] is the value found there. *)
Definition HttpRequest_new (garbage : HttpStatus) (version : Z) (close : bool) : HttpRequest :=
  mkHttpRequest GET garbage version close "/" "" "" "" [] [] [].

Section setters.
Implicit Type r : HttpRequest.

Definition setMethod v r := mkHttpRequest v (m_status r) (m_version r) (m_close r) (m_path r) (m_query r) (m_fragment r) (m_body r) (m_headers r) (m_params r) (m_cookies r).
Definition setStatus v r := mkHttpRequest (m_method r) v (m_version r) (m_close r) (m_path r) (m_query r) (m_fragment r) (m_body r) (m_headers r) (m_params r) (m_cookies r).
Definition setVersion v r := mkHttpRequest (m_method r) (m_status r) v (m_close r) (m_path r) (m_query r) (m_fragment r) (m_body r) (m_headers r) (m_params r) (m_cookies r).
Definition setClose v r := mkHttpRequest (m_method r) (m_status r) (m_version r) v (m_path r) (m_query r) (m_fragment r) (m_body r) (m_headers r) (m_params r) (m_cookies r).
Definition setPath v r := mkHttpRequest (m_method r) (m_status r) (m_version r) (m_close r) v (m_query r) (m_fragment r) (m_body r) (m_headers r) (m_params r) (m_cookies r).
Definition setQuery v r := mkHttpRequest (m_method r) (m_status r) (m_version r) (m_close r) (m_path r) v (m_fragment r) (m_body r) (m_headers r) (m_params r) (m_cookies r).
Definition setFragment v r := mkHttpRequest (m_method r) (m_status r) (m_version r) (m_close r) (m_path r) (m_query r) v (m_body r) (m_headers r) (m_params r) (m_cookies r).
Definition setBody v r := mkHttpRequest (m_method r) (m_status r) (m_version r) (m_close r) (m_path r) (m_query r) (m_fragment r) v (m_headers r) (m_params r) (m_cookies r).
Definition setHeaders v r := mkHttpRequest (m_method r) (m_status r) (m_version r) (m_close r) (m_path r) (m_query r) (m_fragment r) (m_body r) v (m_params r) (m_cookies r).
Definition setParams v r := mkHttpRequest (m_method r) (m_status r) (m_version r) (m_close r) (m_path r) (m_query r) (m_fragment r) (m_body r) (m_headers r) v (m_cookies r).
Definition setCookies v r := mkHttpRequest (m_method r) (m_status r) (m_version r) (m_close r) (m_path r) (m_query r) (m_fragment r) (m_body r) (m_headers r) (m_params r) v.

Definition isClosed r : bool := m_close r.

Definition getHeader r (key def : string) : string := default def (find (m_headers r) key).
Definition getParam r (key def : string) : string := default def (find (m_params r) key).
Definition getCookie r (key def : string) : string := default def (find (m_cookies r) key).

Definition setHeader (key val : string) r := setHeaders (assign (m_headers r) key val) r.
Definition setParam (key val : string) r := setParams (assign (m_params r) key val) r.
Definition setCookie (key val : string) r := setCookies (assign (m_cookies r) key val) r.

Definition delHeader (key : string) r := setHeaders (erase (m_headers r) key) r.
Definition delParam (key : string) r := setParams (erase (m_params r) key) r.
Definition delCookie (key : string) r := setCookies (erase (m_cookies r) key) r.

(** [hasX(key, val)]: the result and what is left in [*val], if [val] is not null. *)
Definition has (m : MapType) (key : string) (val : option string) : bool * option string :=
  match find m key with
  | None => (false, val)
  | Some v => (true, match val with Some _ => Some v | None => None end)
  end.
Definition hasHeader r := has (m_headers r).
Definition hasParam r := has (m_params r).
Definition hasCookie r := has (m_cookies r).

(** The typed getters; those of parameters and cookies read the headers too. *)
Definition checkGetHeaderAs {T} (lc : string → option T) r key def := checkGetAs lc (m_headers r) key def.
Definition getHeaderAs {T} (lc : string → option T) r key def := getAs lc (m_headers r) key def.
Definition checkGetParamAs {T} (lc : string → option T) r key def := checkGetAs lc (m_headers r) key def.
Definition getParamAs {T} (lc : string → option T) r key def := getAs lc (m_headers r) key def.
Definition checkGetCookieAs {T} (lc : string → option T) r key def := checkGetAs lc (m_headers r) key def.
Definition getCookieAs {T} (lc : string → option T) r key def := getAs lc (m_headers r) key def.

Definition dump r : string :=
  HttpMethodToString (m_method r) +:+ " "
  +:+ m_path r
  +:+ (if String.eqb (m_query r) "" then "" else "?") +:+ m_query r
  +:+ (if String.eqb (m_fragment r) "" then "" else "#") +:+ m_fragment r
  +:+ " " +:+ dump_version (m_version r) +:+ CRLF
  +:+ dump_connection (m_close r)
  +:+ dump_headers (m_headers r)
  +:+ dump_body (m_body r).
Definition toString r : string := dump r.
End setters.
