(* ===== verification/HttpResponse.v ===== *)
(** * HttpResponse: the response object ([include/http/http.h], [src/http/http.cpp]) *)
From S2P Require Import Prelude OrderedSet Http.

Record HttpResponse := mkHttpResponse {
  m_status : HttpStatus;
  m_version : Z;
  m_close : bool;
  m_body : string;
  m_reason : string;
  m_headers : MapType
}.

Definition HttpResponse_new (version : Z) (close : bool) : HttpResponse :=
  mkHttpResponse 200 version close "" "" [].

Section setters.
Implicit Type r : HttpResponse.

Definition setStatus v r := mkHttpResponse v (m_version r) (m_close r) (m_body r) (m_reason r) (m_headers r).
Definition setVersion v r := mkHttpResponse (m_status r) v (m_close r) (m_body r) (m_reason r) (m_headers r).
Definition setClose v r := mkHttpResponse (m_status r) (m_version r) v (m_body r) (m_reason r) (m_headers r).
Definition setBody v r := mkHttpResponse (m_status r) (m_version r) (m_close r) v (m_reason r) (m_headers r).
Definition setReason v r := mkHttpResponse (m_status r) (m_version r) (m_close r) (m_body r) v (m_headers r).
Definition setHeaders v r := mkHttpResponse (m_status r) (m_version r) (m_close r) (m_body r) (m_reason r) v.
Definition isClosed r : bool := m_close r.

Definition getHeader r (key def : string) : string := default def (find (m_headers r) key).
Definition setHeader (key val : string) r := setHeaders (assign (m_headers r) key val) r.
Definition delHeader (key : string) r := setHeaders (erase (m_headers r) key) r.

Definition checkGetHeaderAs {T} (lc : string → option T) r key def := checkGetAs lc (m_headers r) key def.
Definition getHeaderAs {T} (lc : string → option T) r key def := getAs lc (m_headers r) key def.

Definition dump r : string :=
  dump_version (m_version r)
  +:+ " " +:+ dec (u32 (m_status r))
  +:+ " " +:+ (if String.eqb (m_reason r) "" then HttpStatusToString (m_status r) else m_reason r) +:+ CRLF
  +:+ dump_headers (m_headers r)
  +:+ dump_connection (m_close r)
  +:+ dump_body (m_body r).
Definition toString r : string := dump r.
End setters.
