(* ===== verification/HttpFacts.v ===== *)
(** * HttpFacts: the case-insensitive order and the properties of messages' tables *)
From S2P Require Import Prelude CLib OrderedSet Http HttpRequest HttpResponse.

(** ** [strcasecmp] *)
Lemma cmp_bytes_opp a b : cmp_bytes b a = - cmp_bytes a b.
Proof.
  revert b. induction a as [|x a IH]; intros [|y b]; simpl; try lia.
  destruct (Z.eqb_spec x y) as [->|]; [by rewrite Z.eqb_refl|].
  rewrite (proj2 (Z.eqb_neq y x)) by lia. lia.
Qed.

Lemma cmp_bytes_trans a b c : Forall (λ x, 0 < x) a → Forall (λ x, 0 < x) b → Forall (λ x, 0 < x) c →
  0 ≤ cmp_bytes a b → 0 ≤ cmp_bytes b c → 0 ≤ cmp_bytes a c.
Proof.
  intros Ha. revert b c. induction Ha as [|x a Hx Ha IH]; intros b c Hb Hc;
    destruct Hb as [|y b Hy Hb]; destruct Hc as [|z c Hz Hc]; simpl; intros H1 H2; try lia.
  destruct (Z.eqb_spec x y), (Z.eqb_spec y z), (Z.eqb_spec x z); try lia. by apply (IH b c).
Qed.

Lemma cmp_bytes_0 a b : Forall (λ x, 0 < x) a → Forall (λ x, 0 < x) b → cmp_bytes a b = 0 ↔ a = b.
Proof.
  intros Ha. revert b. induction Ha as [|x a Hx Ha IH]; intros b Hb; destruct Hb as [|y b Hy Hb];
    simpl; try (split; [lia|done]); [done|].
  destruct (Z.eqb_spec x y) as [->|].
  - rewrite IH by done. split; [by intros ->|by intros [=]].
  - split; [lia|by intros [=]].
Qed.

Lemma fold_key_pos s : Forall (λ x, 0 < x) (fold_key s).
Proof.
  unfold fold_key, bytes_of_string. induction s as [|c s IH]; simpl; [constructor|].
  destruct (Z.eqb_spec (char_code c) 0); simpl; [constructor|]. constructor; [|done].
  pose proof (char_code_byte c) as H. unfold is_byte, is_u in H. unfold tolower. case_match; lia.
Qed.
#[export] Hint Resolve fold_key_pos : azure.

#[export] Instance CaseInsensitiveLess_order : StrictWeakOrder CaseInsensitiveLess.
Proof.
  unfold CaseInsensitiveLess, strcasecmp. split; intros a b.
  - rewrite Z.ltb_lt, Z.ltb_ge, (cmp_bytes_opp (fold_key a)). lia.
  - intros c. rewrite !Z.ltb_ge. apply cmp_bytes_trans; auto with azure.
Qed.

(** Two names are the same header when they agree up to case (and up to a NUL). *)
Definition same_name (a b : string) : Prop := fold_key a = fold_key b.
#[export] Instance same_name_dec a b : Decision (same_name a b).
Proof. unfold same_name. apply _. Defined.

Lemma equivalent_same_name a b : equivalent CaseInsensitiveLess a b = true ↔ same_name a b.
Proof.
  rewrite equivalent_spec. unfold CaseInsensitiveLess, strcasecmp. rewrite !Z.ltb_ge, (cmp_bytes_opp (fold_key a)).
  unfold same_name. rewrite <- cmp_bytes_0 by auto with azure. lia.
Qed.

Definition headers_ok (m : MapType) : Prop := map_sorted CaseInsensitiveLess m.

(** Lookups respect the equivalence of names. *)
Lemma find_same_name m a b : headers_ok m → same_name a b → find m a = find m b.
Proof. intros. apply map_find_equivalent; [apply _|done|]. by apply equivalent_same_name. Qed.

Lemma find_assign m k v k' : headers_ok m →
  find (assign m k v) k' = if decide (same_name k k') then Some v else find m k'.
Proof.
  intros H. unfold find, assign. destruct (decide _) as [Hs|Hs].
  - apply map_find_set_eq; [apply _|done|]. by apply equivalent_same_name.
  - apply map_find_set_ne; [apply _|done|]. apply not_true_is_false. by rewrite equivalent_same_name.
Qed.

Lemma find_erase m k k' : headers_ok m →
  find (erase m k) k' = if decide (same_name k k') then None else find m k'.
Proof.
  intros H. unfold find, erase. destruct (decide _) as [Hs|Hs].
  - apply map_find_erase_eq; [apply _|done|]. by apply equivalent_same_name.
  - apply map_find_erase_ne; [apply _|done|]. apply not_true_is_false. by rewrite equivalent_same_name.
Qed.

Lemma assign_ok m k v : headers_ok m → headers_ok (assign m k v).
Proof. apply map_set_sorted, _. Qed.
Lemma erase_ok m k : headers_ok m → headers_ok (erase m k).
Proof. apply map_erase_sorted. Qed.
Lemma nil_ok : headers_ok [].
Proof. constructor. Qed.
#[export] Hint Resolve assign_ok erase_ok nil_ok : azure.

(** Headers form a map whose keys ignore case: a header that was set is
    found under every spelling of its name, deleting it removes it, other
    headers are not affected, and both operations keep the map's invariant. *)
Theorem header_map (r : HttpRequest) k v k' def : headers_ok (HttpRequest.m_headers r) →
  HttpRequest.getHeader (HttpRequest.setHeader k v r) k' def
    = (if decide (same_name k k') then v else HttpRequest.getHeader r k' def)
  ∧ HttpRequest.getHeader (HttpRequest.delHeader k r) k' def
    = (if decide (same_name k k') then def else HttpRequest.getHeader r k' def)
  ∧ headers_ok (HttpRequest.m_headers (HttpRequest.setHeader k v r))
  ∧ headers_ok (HttpRequest.m_headers (HttpRequest.delHeader k r)).
Proof.
  intros H. unfold HttpRequest.getHeader, HttpRequest.setHeader, HttpRequest.delHeader; simpl.
  rewrite find_assign, find_erase by done. split_and!; auto with azure; by case_decide.
Qed.

Lemma header_map_witness :
  let r := HttpRequest.setHeader "Host" "a" (HttpRequest_new 0 17 true) in
  HttpRequest.getHeader (HttpRequest.setHeader "hOST" "b" r) "HOST" ""
    = (if decide (same_name "hOST" "HOST") then "b"%string else HttpRequest.getHeader r "HOST" "")
  ∧ HttpRequest.getHeader (HttpRequest.delHeader "hOST" r) "HOST" ""
    = (if decide (same_name "hOST" "HOST") then ""%string else HttpRequest.getHeader r "HOST" "")
  ∧ headers_ok (HttpRequest.m_headers (HttpRequest.setHeader "hOST" "b" r))
  ∧ headers_ok (HttpRequest.m_headers (HttpRequest.delHeader "hOST" r)).
Proof. apply header_map. simpl. auto with azure. Defined.

(** ** Methods *)
Definition methods : list HttpMethod := method_of <$> HTTP_METHOD_MAP.

Lemma method_cases m : m ∈ methods ∨ m = HTTP_INVALID_METHOD.
Proof. destruct m; first [by right | left; by apply (bool_decide_unpack _); vm_compute]. Qed.

(** A check over the whole table, by evaluation. *)
Lemma methods_forallb (P : HttpMethod → bool) : forallb P methods = true → ∀ m, m ∈ methods → P m = true.
Proof. intros H m Hm. rewrite forallb_forall in H. apply H. by apply list_elem_of_In. Qed.

Lemma c_str_app a b : c_str a = a → c_str (a +:+ b) = a +:+ c_str b.
Proof.
  induction a as [|c a IH]; simpl; [done|]. case_match; [done|]. intros [= E]. by rewrite IH.
Qed.

#[local] Abbreviation SP := (code_char 32).

(** Whether a literal without blanks is a prefix of a word followed by a blank
    is decided by the word. *)
Definition no_blank (a : string) : bool := forallb (λ x, negb (Ascii.eqb x SP)) (String.list_ascii_of_string a).

Lemma prefix_blank a b rest : no_blank a = true → String.prefix a (b +:+ String SP rest) = String.prefix a b.
Proof.
  revert b. induction a as [|x a IH]; intros b Ha; [by destruct b|].
  apply andb_true_iff in Ha as [Hx%negb_true_iff Ha]. apply Ascii.eqb_neq in Hx.
  destruct b as [|y b]; simpl; destruct (Ascii.ascii_dec x _); try done. by apply IH.
Qed.

Lemma find_method_ext f g l : Forall (λ r, f r.2 = g r.2) l → find_method f l = find_method g l.
Proof. induction 1 as [|[[n m] str] l E Hl IH]; simpl; [done|]. simpl in E. by rewrite E, IH. Qed.

Lemma find_method_In f l : find_method f l ≠ HTTP_INVALID_METHOD →
  ∃ n str, (n, find_method f l, str) ∈ l ∧ f str = true.
Proof.
  induction l as [|[[n m] str] l IH]; simpl; intros H; [done|]. destruct (f str) eqn:E.
  - exists n, str. split; [left|done].
  - destruct (IH H) as (n' & str' & ? & ?). exists n', str'. split; [by right|done].
Qed.

(** What the table satisfies, by evaluation over its rows. *)
Definition row_ok (r : Z * HttpMethod * string) : bool :=
  let '(_, m, str) := r in
  bool_decide (HttpMethodToString m = str) && bool_decide (c_str str = str) && no_blank str
  && bool_decide (StringToHttpMethod str = m)
  && bool_decide (find_method (λ s, String.prefix s str) HTTP_METHOD_MAP = m).
Lemma rows_ok r : r ∈ HTTP_METHOD_MAP → row_ok r = true.
Proof.
  assert (forallb row_ok HTTP_METHOD_MAP = true) as H by (vm_compute; reflexivity).
  rewrite forallb_forall in H. intros Hr. apply H. by apply list_elem_of_In.
Qed.

Lemma method_row m : m ≠ HTTP_INVALID_METHOD → ∃ n, (n, m, HttpMethodToString m) ∈ HTTP_METHOD_MAP.
Proof.
  intros Hm. destruct (method_cases m) as [Hin|]; [|done].
  apply list_elem_of_fmap in Hin as ([[n m'] str] & -> & Hin).
  pose proof (rows_ok _ Hin) as Hr. exists n. unfold row_ok in Hr. rewrite !andb_true_iff, !bool_decide_eq_true in Hr.
  destruct Hr as ((((Hr & _) & _) & _) & _). unfold method_of; simpl. by rewrite Hr.
Qed.

(** The method at the head of a request line. *)
Lemma CharsToHttpMethod_head m rest : m ≠ HTTP_INVALID_METHOD →
  CharsToHttpMethod (HttpMethodToString m +:+ String SP rest) = m.
Proof.
  intros Hm. destruct (method_row m Hm) as [n Hin]. pose proof (rows_ok _ Hin) as Hr. unfold row_ok in Hr.
  rewrite !andb_true_iff, !bool_decide_eq_true in Hr. destruct Hr as ((((_ & Hc) & _) & Hs) & Hp).
  set (name := HttpMethodToString m) in *.
  rewrite <- Hp. unfold CharsToHttpMethod. apply find_method_ext, Forall_forall. intros r Hr.
  apply rows_ok in Hr. destruct r as [[n' m'] str]. unfold row_ok in Hr. rewrite !andb_true_iff in Hr.
  destruct Hr as (((_ & Hb) & _) & _). simpl. unfold strncmp_eq. rewrite c_str_app by done.
  by apply prefix_blank.
Qed.

(** Method names.  Printing a method and reading it back gives the method,
    both for a whole string and at the head of a request line, and
    [StringToHttpMethod] recognises exactly the printed names. *)
Theorem method_roundtrip m rest : m ≠ HTTP_INVALID_METHOD →
  StringToHttpMethod (HttpMethodToString m) = m
  ∧ CharsToHttpMethod (HttpMethodToString m +:+ String SP rest) = m
  ∧ (∀ s, StringToHttpMethod s = m ↔ c_str s = HttpMethodToString m).
Proof.
  intros Hm. destruct (method_row m Hm) as [n Hin]. pose proof (rows_ok _ Hin) as Hr. unfold row_ok in Hr.
  rewrite !andb_true_iff, !bool_decide_eq_true in Hr. destruct Hr as ((((_ & Hc) & _) & Hs) & Hp).
  set (name := HttpMethodToString m) in *. split_and!; [done|by apply CharsToHttpMethod_head|].
  - intros s. split.
    + intros E. rewrite <- E in Hm. apply find_method_In in Hm as (n' & str & Hrow & Hf).
      fold (StringToHttpMethod s) in Hrow. rewrite E in Hrow. apply rows_ok in Hrow. unfold row_ok in Hrow.
      rewrite !andb_true_iff, !bool_decide_eq_true in Hrow. destruct Hrow as ((((Hn & _) & _) & _) & _).
      unfold strcmp_eq in Hf. apply bool_decide_eq_true in Hf. by rewrite <- Hf.
    + intros E. rewrite <- Hs. unfold StringToHttpMethod. apply find_method_ext, Forall_forall.
      intros r _. unfold strcmp_eq. by rewrite E, Hc.
Qed.

Lemma method_roundtrip_witness :
  StringToHttpMethod (HttpMethodToString MSEARCH) = MSEARCH
  ∧ CharsToHttpMethod (HttpMethodToString MSEARCH +:+ String SP "/ HTTP/1.1") = MSEARCH
  ∧ (∀ s, StringToHttpMethod s = MSEARCH ↔ c_str s = HttpMethodToString MSEARCH).
Proof. apply method_roundtrip. done. Defined.

(** ** Where the code departs from its purpose *)

(** The typed getters of parameters read the headers. *)
Lemma getParamAs_reads_headers :
  let r := HttpRequest.setParam "id" "7" (HttpRequest.setHeader "id" "header" (HttpRequest_new 0 17 true)) in
  HttpRequest.getParamAs Some r "id" "" = "header"%string ∧ HttpRequest.getParam r "id" "" = "7"%string.
Proof. split; reflexivity. Qed.

(** At the head of a request line only a prefix of the method is compared. *)
Lemma CharsToHttpMethod_prefix : CharsToHttpMethod "GETX / HTTP/1.1" = GET.
Proof. reflexivity. Qed.

(** A [content-length] header set by the user is printed besides the generated one. *)
Lemma dump_two_content_lengths :
  dump_headers [("Content-Length", "3")] +:+ dump_body "ab"
  = "Content-Length: 3" +:+ CRLF +:+ "content-length: 2" +:+ CRLF +:+ CRLF +:+ "ab".
Proof. reflexivity. Qed.
