(* ===== verification/Ragel.v ===== *)
(** * Ragel: the execution scheme of the generated parsers

    [http11_parser.rl.cc], [httpclient_parser.rl.cc] and [uri.rl.cc] are
    goto-driven machines of the same form.  A block [case n:] inspects the
    character [*p] and jumps to a label: [stN] (enter state N), [trN] (run some
    actions, then enter a state) or [st0] (error: set [cs = 0] and leave).
    Entering a state increments [p] and leaves at [pe].  Here a block is a
    function from the character to the list of actions and the state entered,
    a label [trN] is the pair [tr_N], and [exec_loop] is the control flow
    around the blocks. *)
From S2P Require Import Prelude.

Definition target (A : Type) : Type := list A * Z.
Definition st {A} (n : Z) : target A := ([], n).

Notation "x --> y" := (x, y) (at level 55, right associativity, only parsing) : azure_scope.

(** [switch(c) { case k: goto l; ... }], falling through to [k]. *)
Definition switch {A} (c : Z) (cases : list (Z * target A)) (k : target A) : target A :=
  match List.find (λ x, x.1 =? c) cases with
  | Some (_, l) => l
  | None => k
  end.

(** The widened character of a conditional input class. *)
Definition widen (c : Z) : Z := i16 (128 + (c - (-128))).
Definition relax (cond : bool) (w : Z) : Z := if cond then i16 (w + 256) else w.

Definition all_bytes : list Z := seqZ 0 256.
Lemma all_bytes_In c : is_byte c → List.In c all_bytes.
Proof. intros H. apply list_elem_of_In, elem_of_seqZ. exact H. Qed.

Section machine.
Context {A S : Type}.
(** [state cs]: the block [case cs:], if there is one; it reads the parser. *)
Variable state : S → Z → option (Z → target A).
(** An action at [p]; [true] after [fbreak]. *)
Variable act : A → Z → ST S bool.

Fixpoint run_actions (acts : list A) (p : Z) : ST S bool :=
  match acts with
  | [] => ret false
  | a :: acts => let* brk := act a p in if brk then ret true else run_actions acts p
  end.

(** From the dispatch on [cs] at [p], with [rest] the bytes of [[p, pe)]; the
    result is [cs] and [p] at [_out].  Characters are signed. *)
Fixpoint exec_loop (rest : list Z) (cs p : Z) : ST S (Z * Z) :=
  match rest with
  | [] => ret (cs, p)
  | c :: rest =>
      let* f := gets (λ s, state s cs) in
      match f with
      | None => ret (cs, p)
      | Some f =>
          let '(acts, cs') := f (i8 c) in
          if cs' =? 0 then ret (0, p)
          else
            let* brk := run_actions acts p in
            if brk then ret (cs', p + 1) else exec_loop rest cs' (p + 1)
      end
  end.

(** [runs cs p l s cs' s']: from state [cs] at [p] the bytes [l] are consumed
    without leaving the loop. *)
Definition runs (cs p : Z) (l : list Z) (s : S) (cs' : Z) (s' : S) : Prop :=
  ∀ rest, exec_loop (l ++ rest) cs p s = exec_loop rest cs' (p + zlen l) s'.

Lemma runs_nil cs p s : runs cs p [] s cs s.
Proof. intros rest. unfold zlen. simpl. by rewrite Z.add_0_r. Qed.

Lemma runs_app cs p l1 s cs1 s1 l2 cs2 s2 :
  runs cs p l1 s cs1 s1 → runs cs1 (p + zlen l1) l2 s1 cs2 s2 → runs cs p (l1 ++ l2) s cs2 s2.
Proof. intros H1 H2 rest. rewrite <- app_assoc, H1, H2. f_equal. rewrite zlen_app. lia. Qed.

(** One character. *)
Lemma runs_one cs p c s f acts cs' s' :
  state s cs = Some f → f (i8 c) = (acts, cs') → cs' ≠ 0 → run_actions acts p s = Ret false s' →
  runs cs p [c] s cs' s'.
Proof.
  intros Hf Hc Hn Ha rest. cbn [app exec_loop]. rewrite bind_gets, Hf. cbv beta iota. rewrite Hc.
  rewrite (proj2 (Z.eqb_neq cs' 0)) by done. rewrite (bind_Ret _ _ _ _ _ Ha). by rewrite zlen_cons, Z.add_0_r.
Qed.

(** ** Steps over classes of characters, established by evaluating a block *)
Context `{!EqDecision A}.

(** On every character of [class], block [cs] goes to [tgt]. *)
Definition class_goes (blk : Z → option (Z → target A)) (cs : Z) (class : Z → bool) (tgt : target A) : bool :=
  match blk cs with
  | None => false
  | Some f => forallb (λ c, implb (class c) (bool_decide (f (i8 c) = tgt))) all_bytes
  end.

Lemma class_goes_spec blk cs class tgt c : class_goes blk cs class tgt = true → is_byte c → class c = true →
  ∃ f, blk cs = Some f ∧ f (i8 c) = tgt.
Proof.
  unfold class_goes. intros H Hb Hc. destruct (blk cs) as [f|]; [|done]. exists f. split; [done|].
  rewrite forallb_forall in H. specialize (H c (all_bytes_In c Hb)). rewrite Hc in H.
  by apply (bool_decide_eq_true_1 _) in H.
Qed.

Lemma runs_step cs p c s class acts cs' s' :
  class_goes (state s) cs class (acts, cs') = true → is_byte c → class c = true → cs' ≠ 0 →
  run_actions acts p s = Ret false s' → runs cs p [c] s cs' s'.
Proof. intros Hg Hb Hc Hn Ha. destruct (class_goes_spec _ _ _ _ _ Hg Hb Hc) as (f & ? & ?). by eapply runs_one. Qed.

(** A loop: the block goes back to itself, silently. *)
Lemma runs_class cs p l s class : class_goes (state s) cs class (st cs) = true → cs ≠ 0 →
  bytes_ok l → Forall (λ c, class c = true) l → runs cs p l s cs s.
Proof.
  intros Hg Hn Hb Hc. revert p. induction Hb as [|c l Hb Hbl IH]; intros p; [apply runs_nil|].
  inversion Hc; subst. apply (runs_app cs p [c] s cs s); [|by apply IH].
  by eapply runs_step.
Qed.

(** A silent path over a known word. *)
Fixpoint walk (blk : Z → option (Z → target A)) (cs : Z) (l : list Z) : option Z :=
  match l with
  | [] => Some cs
  | c :: l =>
      match blk cs with
      | None => None
      | Some f =>
          let '(acts, cs') := f (i8 c) in
          if bool_decide (acts = []) && negb (cs' =? 0) then walk blk cs' l else None
      end
  end.

Lemma runs_walk cs p l s cs' : walk (state s) cs l = Some cs' → runs cs p l s cs' s.
Proof.
  revert cs p. induction l as [|c l IH]; intros cs p; simpl; [intros [= ->]; apply runs_nil|].
  destruct (state s cs) as [f|] eqn:Hf; [|done]. destruct (f (i8 c)) as [acts cs1] eqn:Hc.
  destruct (bool_decide (acts = []) && negb (cs1 =? 0)) eqn:Hb; [|done].
  apply andb_true_iff in Hb as [->%bool_decide_eq_true Hn%negb_true_iff]. intros Hw.
  apply (runs_app cs p [c] s cs1 s); [|by apply IH].
  eapply runs_one; [done|done|by apply Z.eqb_neq|done].
Qed.

(** Leaving the loop. *)
Lemma exec_loop_break cs p c rest s f acts cs' s' :
  state s cs = Some f → f (i8 c) = (acts, cs') → cs' ≠ 0 → run_actions acts p s = Ret true s' →
  exec_loop (c :: rest) cs p s = Ret (cs', p + 1) s'.
Proof.
  intros Hf Hc Hn Ha. cbn [exec_loop]. rewrite bind_gets, Hf. cbv beta iota. rewrite Hc.
  rewrite (proj2 (Z.eqb_neq cs' 0)) by done. by rewrite (bind_Ret _ _ _ _ _ Ha).
Qed.

(** ** Safety of a run by facts about the states *)

(** Every edge of the blocks [1..n] satisfies [ok cs acts cs']. *)
Definition edges_ok (blk : Z → option (Z → target A)) (n : Z) (ok : Z → target A → bool) : bool :=
  forallb (λ cs, match blk cs with
                 | Some f => forallb (λ c, ok cs (f (i8 c))) all_bytes
                 | None => true
                 end) (seqZ 1 n).

Lemma edges_ok_spec blk n ok cs f c : edges_ok blk n ok = true → 1 ≤ cs ≤ n → blk cs = Some f → is_byte c →
  ok cs (f (i8 c)) = true.
Proof.
  unfold edges_ok. intros H Hcs Hf Hc. rewrite forallb_forall in H. specialize (H cs).
  rewrite Hf in H. rewrite forallb_forall in H. apply H; [|by apply all_bytes_In].
  apply list_elem_of_In, elem_of_seqZ. lia.
Qed.

(** An invariant indexed by the state: a run that keeps it ends in the input
    where the invariant, or what [fbreak] leaves, holds, or throws what an action
    may throw. *)
Lemma exec_loop_inv (Inv : Z → Z → S → Prop) (Out : Z → Z → S → Prop) (Exc : exn → Prop) (pe : Z) :
  (∀ cs p s, Inv cs p s → Out cs p s) →
  (∀ cs p s, Inv cs p s → Out 0 p s) →
  (∀ cs p s c f acts cs', Inv cs p s → p < pe → is_byte c → state s cs = Some f → f (i8 c) = (acts, cs') → cs' ≠ 0 →
    (∃ b s', run_actions acts p s = Ret b s' ∧ if b then Out cs' (p + 1) s' else Inv cs' (p + 1) s')
    ∨ ∃ e s', run_actions acts p s = Throw e s' ∧ Exc e) →
  ∀ rest cs p s, bytes_ok rest → Inv cs p s → p + zlen rest ≤ pe →
  (∃ cs' p' s', exec_loop rest cs p s = Ret (cs', p') s' ∧ p ≤ p' ≤ p + zlen rest ∧ Out cs' p' s')
  ∨ ∃ e s', exec_loop rest cs p s = Throw e s' ∧ Exc e.
Proof.
  intros HO H0 Hstep rest. induction rest as [|c rest IH]; intros cs p s Hb Hi Hp.
  - left. exists cs, p, s. split; [done|]. split; [unfold zlen; simpl; lia|]. by apply HO.
  - inversion Hb; subst. rewrite zlen_cons in *. pose proof (zlen_nonneg rest). cbn [exec_loop]. rewrite bind_gets.
    destruct (state s cs) as [f|] eqn:Hf; [|left; exists cs, p, s; split; [done|split; [lia|by apply HO]]].
    cbv beta iota. destruct (f (i8 c)) as [acts cs'] eqn:Hc.
    destruct (Z.eqb_spec cs' 0) as [->|Hn]; [left; exists 0, p, s; split; [done|split; [lia|by eapply H0]]|].
    destruct (Hstep cs p s c f acts cs') as [(b & s' & Ha & Hs)|(e & s' & Ha & He)]; try done; [lia| |].
    + rewrite (bind_Ret _ _ _ _ _ Ha). destruct b.
      * left. exists cs', (p + 1), s'. split; [done|]. split; [lia|done].
      * destruct (IH cs' (p + 1) s') as [(cs2 & p2 & s2 & E & Hr & HO2)|HE]; try done; [lia| |by right].
        left. exists cs2, p2, s2. split; [done|]. split; [lia|done].
    + right. exists e, s'. split; [|done]. unfold bind. by rewrite Ha.
Qed.

(** The case of actions that never throw. *)
Lemma exec_loop_safe (Inv : Z → Z → S → Prop) (Out : Z → S → Prop) (pe : Z) :
  (∀ cs p s, Inv cs p s → Out p s) →
  (∀ cs p s c f acts cs', Inv cs p s → p < pe → is_byte c → state s cs = Some f → f (i8 c) = (acts, cs') → cs' ≠ 0 →
    ∃ b s', run_actions acts p s = Ret b s' ∧ if b then Out (p + 1) s' else Inv cs' (p + 1) s') →
  ∀ rest cs p s, bytes_ok rest → Inv cs p s → p + zlen rest ≤ pe →
  ∃ cs' p' s', exec_loop rest cs p s = Ret (cs', p') s' ∧ p ≤ p' ≤ p + zlen rest ∧ Out p' s'.
Proof.
  intros HO Hstep rest cs p s Hb Hi Hp.
  destruct (exec_loop_inv Inv (λ _, Out) (λ _, False) pe) with rest cs p s as [H|(e & s' & _ & [])]; auto.
  intros. left. by eapply Hstep.
Qed.

(** ** Steps between sets of states *)

(** From every state of [X], every character of [class] runs [acts] and leads into [Y]. *)
Definition set_goes (blk : Z → option (Z → target A)) (X : list Z) (class : Z → bool) (acts : list A) (Y : list Z) : bool :=
  forallb (λ cs, match blk cs with
    | None => false
    | Some f => forallb (λ c, implb (class c)
        (let '(a, cs') := f (i8 c) in bool_decide (a = acts) && existsb (Z.eqb cs') Y)) all_bytes
    end) X && negb (existsb (Z.eqb 0) Y).

Lemma set_goes_spec blk X class acts Y cs c : set_goes blk X class acts Y = true → cs ∈ X → is_byte c → class c = true →
  ∃ f cs', blk cs = Some f ∧ f (i8 c) = (acts, cs') ∧ cs' ∈ Y ∧ cs' ≠ 0.
Proof.
  unfold set_goes. intros [H Hz]%andb_true_iff Hcs Hb Hc. rewrite forallb_forall in H.
  specialize (H cs (proj1 (list_elem_of_In _ _) Hcs)). destruct (blk cs) as [f|]; [|done].
  rewrite forallb_forall in H. specialize (H c (all_bytes_In c Hb)). rewrite Hc in H. simpl in H.
  destruct (f (i8 c)) as [a cs'] eqn:Hf. apply andb_true_iff in H as [->%bool_decide_eq_true Hin].
  apply existsb_exists in Hin as (y & Hy & ->%Z.eqb_eq). exists f, y. split_and!; try done.
  - by apply list_elem_of_In.
  - intros ->. apply negb_true_iff in Hz. apply not_true_iff_false in Hz. apply Hz, existsb_exists. by exists 0.
Qed.

Lemma runs_set X class acts Y cs p c s s' : set_goes (state s) X class acts Y = true → cs ∈ X → is_byte c → class c = true →
  run_actions acts p s = Ret false s' → ∃ cs', cs' ∈ Y ∧ runs cs p [c] s cs' s'.
Proof.
  intros H Hcs Hb Hc Ha. destruct (set_goes_spec _ _ _ _ _ _ _ H Hcs Hb Hc) as (f & cs' & Hf & Hfc & Hin & Hn).
  exists cs'. split; [done|]. by eapply runs_one.
Qed.

Lemma runs_set_loop X class cs p l s : set_goes (state s) X class [] X = true → cs ∈ X →
  bytes_ok l → Forall (λ c, class c = true) l → ∃ cs', cs' ∈ X ∧ runs cs p l s cs' s.
Proof.
  intros H Hcs Hb Hc. revert cs p Hcs. induction Hb as [|c l Hb Hbl IH]; intros cs p Hcs.
  - exists cs. split; [done|]. apply runs_nil.
  - inversion Hc; subst. destruct (runs_set X class [] X cs p c s s) as (cs1 & Hin & R); try done.
    destruct (IH ltac:(done) cs1 (p + zlen [c]) Hin) as (cs2 & Hin2 & R2). exists cs2. split; [done|].
    by apply (runs_app cs p [c] s cs1 s).
Qed.
End machine.
