(* ===== verification/Http11States.v ===== *)
(** * Http11States: the state blocks of the request parser
    ([include/http/http11_parser.rl.cc])

    One definition per label, in the notation of Ragel.v; the control flow and
    the actions are in Http11Parser. *)
From S2P Require Import Prelude Ragel.

(** The actions of the grammar [http11_parser.rl]. *)
Inductive action :=
  | mark | start_field | write_field | start_value | write_value
  | request_method | request_uri | fragment | start_query | query_string
  | http_version | request_path | done | xml | json.
#[export] Instance action_eq_dec : EqDecision action.
Proof. solve_decision. Defined.

(** ** The labels [trN] *)
Definition tr_0 : target action := ([mark], 2).
Definition tr_2 : target action := ([mark], 194).
Definition tr_3 : target action := ([mark], 198).
Definition tr_4 : target action := ([request_method], 3).
Definition tr_6 : target action := ([mark; request_path; request_uri], 4).
Definition tr_7 : target action := ([mark], 19).
Definition tr_8 : target action := ([mark; request_path; request_uri], 20).
Definition tr_9 : target action := ([mark], 24).
Definition tr_10 : target action := ([mark], 33).
Definition tr_11 : target action := ([mark; request_path], 29).
Definition tr_12 : target action := ([mark], 173).
Definition tr_13 : target action := ([mark], 5).
Definition tr_21 : target action := ([http_version], 13).
Definition tr_22 : target action := ([http_version], 17).
Definition tr_23 : target action := ([start_field], 14).
Definition tr_24 : target action := ([start_field; done], 348).
Definition tr_25 : target action := ([start_field], 18).
Definition tr_27 : target action := ([write_field], 15).
Definition tr_28 : target action := ([start_value], 16).
Definition tr_29 : target action := ([start_value], 15).
Definition tr_30 : target action := ([start_value; write_value], 13).
Definition tr_31 : target action := ([start_value; write_value], 17).
Definition tr_33 : target action := ([write_value], 13).
Definition tr_34 : target action := ([write_value], 17).
Definition tr_36 : target action := ([done], 348).
Definition tr_37 : target action := ([request_path; request_uri], 4).
Definition tr_39 : target action := ([request_path; request_uri], 20).
Definition tr_42 : target action := ([request_path], 29).
Definition tr_43 : target action := ([mark], 21).
Definition tr_44 : target action := ([mark; fragment], 4).
Definition tr_45 : target action := ([mark], 22).
Definition tr_47 : target action := ([fragment], 4).
Definition tr_53 : target action := ([start_query], 30).
Definition tr_54 : target action := ([start_query; query_string; request_uri], 4).
Definition tr_55 : target action := ([start_query; query_string; request_uri], 20).
Definition tr_56 : target action := ([start_query], 31).
Definition tr_58 : target action := ([query_string; request_uri], 4).
Definition tr_59 : target action := ([query_string; request_uri], 20).
Definition tr_203 : target action := ([mark], 26).
Definition tr_204 : target action := ([mark], 27).
Definition tr_224 : target action := ([request_path], 196).
Definition tr_227 : target action := ([xml; done], 349).
Definition tr_228 : target action := ([request_path], 199).
Definition tr_232 : target action := ([mark], 200).
Definition tr_235 : target action := ([json; done], 349).

(** ** The blocks [case n:] *)
Definition st_1 (c : Z) : target action :=
  switch c [60 --> tr_2; 64 --> tr_3] (
  if (57 <? c) then (
    if (65 <=? c) && (c <=? 90) then tr_0
    else st 0)
  else if (48 <=? c) then tr_0
  else st 0).
Definition st_2 (c : Z) : target action :=
  if (c =? 32) then tr_4
  else if (57 <? c) then (
    if (65 <=? c) && (c <=? 90) then st 175
    else st 0)
  else if (48 <=? c) then st 175
  else st 0.
Definition st_3 (relaxed : bool) (c : Z) : target action :=
  let w := (if (c <? 123) then (if (94 <=? c) && (c <=? 94) then relax relaxed (widen c) else c) else (if (123 <? c) then (if (125 <=? c) && (c <=? 125) then relax relaxed (widen c) else c) else relax relaxed (widen c))) in
  switch w [32 --> tr_6; 33 --> tr_7; 35 --> tr_8; 37 --> tr_9; 47 --> tr_10; 59 --> tr_7;
    61 --> tr_7; 63 --> tr_11; 64 --> tr_7; 95 --> tr_7; 126 --> tr_7; 606 --> tr_7;
    635 --> tr_7; 637 --> tr_7] (
  if (w <? 65) then (
    if (36 <=? w) && (w <=? 57) then tr_7
    else st 0)
  else if (90 <? w) then (
    if (97 <=? w) && (w <=? 122) then tr_12
    else st 0)
  else tr_12).
Definition st_4 (c : Z) : target action :=
  if (c =? 72) then tr_13
  else st 0.
Definition st_5 (c : Z) : target action :=
  if (c =? 84) then st 6
  else st 0.
Definition st_6 (c : Z) : target action :=
  if (c =? 84) then st 7
  else st 0.
Definition st_7 (c : Z) : target action :=
  if (c =? 80) then st 8
  else st 0.
Definition st_8 (c : Z) : target action :=
  if (c =? 47) then st 9
  else st 0.
Definition st_9 (c : Z) : target action :=
  if (c =? 49) then st 10
  else st 0.
Definition st_10 (c : Z) : target action :=
  if (c =? 46) then st 11
  else st 0.
Definition st_11 (c : Z) : target action :=
  if (48 <=? c) && (c <=? 49) then st 12
  else st 0.
Definition st_12 (c : Z) : target action :=
  switch c [10 --> tr_21; 13 --> tr_22] (
  st 0).
Definition st_13 (c : Z) : target action :=
  switch c [10 --> tr_24; 13 --> tr_25; 33 --> tr_23; 124 --> tr_23; 126 --> tr_23] (
  if (c <? 42) then (
    if (c <? 11) then (
      if (1 <=? c) && (c <=? 8) then tr_23
      else st 0)
    else if (31 <? c) then (
      if (35 <=? c) && (c <=? 39) then tr_23
      else st 0)
    else tr_23)
  else if (43 <? c) then (
    if (c <? 48) then (
      if (45 <=? c) && (c <=? 46) then tr_23
      else st 0)
    else if (57 <? c) then (
      if (90 <? c) then (
        if (94 <=? c) && (c <=? 122) then tr_23
        else st 0)
      else if (65 <=? c) then tr_23
      else st 0)
    else tr_23)
  else tr_23).
Definition st_14 (c : Z) : target action :=
  switch c [33 --> st 14; 58 --> tr_27; 124 --> st 14; 126 --> st 14] (
  if (c <? 42) then (
    if (c <? 10) then (
      if (1 <=? c) && (c <=? 8) then st 14
      else st 0)
    else if (31 <? c) then (
      if (35 <=? c) && (c <=? 39) then st 14
      else st 0)
    else st 14)
  else if (43 <? c) then (
    if (c <? 48) then (
      if (45 <=? c) && (c <=? 46) then st 14
      else st 0)
    else if (57 <? c) then (
      if (90 <? c) then (
        if (94 <=? c) && (c <=? 122) then st 14
        else st 0)
      else if (65 <=? c) then st 14
      else st 0)
    else st 14)
  else st 14).
Definition st_15 (c : Z) : target action :=
  switch c [0 --> st 0; 9 --> tr_29; 10 --> tr_30; 13 --> tr_31; 32 --> tr_29; 127 --> st 0] (
  tr_28).
Definition st_16 (c : Z) : target action :=
  switch c [0 --> st 0; 10 --> tr_33; 13 --> tr_34; 127 --> st 0] (
  st 16).
Definition st_17 (c : Z) : target action :=
  if (c =? 10) then st 13
  else st 0.
Definition st_18 (c : Z) : target action :=
  switch c [10 --> tr_36; 33 --> st 14; 58 --> tr_27; 124 --> st 14; 126 --> st 14] (
  if (c <? 42) then (
    if (c <? 11) then (
      if (1 <=? c) && (c <=? 8) then st 14
      else st 0)
    else if (31 <? c) then (
      if (35 <=? c) && (c <=? 39) then st 14
      else st 0)
    else st 14)
  else if (43 <? c) then (
    if (c <? 48) then (
      if (45 <=? c) && (c <=? 46) then st 14
      else st 0)
    else if (57 <? c) then (
      if (90 <? c) then (
        if (94 <=? c) && (c <=? 122) then st 14
        else st 0)
      else if (65 <=? c) then st 14
      else st 0)
    else st 14)
  else st 14).
Definition st_19 (relaxed : bool) (c : Z) : target action :=
  let w := (if (c <? 123) then (if (94 <=? c) && (c <=? 94) then relax relaxed (widen c) else c) else (if (123 <? c) then (if (125 <=? c) && (c <=? 125) then relax relaxed (widen c) else c) else relax relaxed (widen c))) in
  switch w [32 --> tr_37; 33 --> st 19; 35 --> tr_39; 37 --> st 24; 47 --> st 26; 59 --> st 19;
    61 --> st 19; 63 --> tr_42; 95 --> st 19; 126 --> st 19; 606 --> st 19; 635 --> st 19;
    637 --> st 19] (
  if (w <? 64) then (
    if (36 <=? w) && (w <=? 57) then st 19
    else st 0)
  else if (90 <? w) then (
    if (97 <=? w) && (w <=? 122) then st 19
    else st 0)
  else st 19).
Definition st_20 (relaxed : bool) (c : Z) : target action :=
  let w := (if (c <? 123) then (if (94 <=? c) && (c <=? 94) then relax relaxed (widen c) else c) else (if (123 <? c) then (if (125 <=? c) && (c <=? 125) then relax relaxed (widen c) else c) else relax relaxed (widen c))) in
  switch w [32 --> tr_44; 33 --> tr_43; 37 --> tr_45; 61 --> tr_43; 95 --> tr_43; 126 --> tr_43;
    606 --> tr_43; 635 --> tr_43; 637 --> tr_43] (
  if (w <? 36) then (
    if (w <=? (-1)) then tr_43
    else st 0)
  else if (59 <? w) then (
    if (90 <? w) then (
      if (97 <=? w) && (w <=? 122) then tr_43
      else st 0)
    else if (63 <=? w) then tr_43
    else st 0)
  else tr_43).
Definition st_21 (relaxed : bool) (c : Z) : target action :=
  let w := (if (c <? 123) then (if (94 <=? c) && (c <=? 94) then relax relaxed (widen c) else c) else (if (123 <? c) then (if (125 <=? c) && (c <=? 125) then relax relaxed (widen c) else c) else relax relaxed (widen c))) in
  switch w [32 --> tr_47; 33 --> st 21; 37 --> st 22; 61 --> st 21; 95 --> st 21; 126 --> st 21;
    606 --> st 21; 635 --> st 21; 637 --> st 21] (
  if (w <? 36) then (
    if (w <=? (-1)) then st 21
    else st 0)
  else if (59 <? w) then (
    if (90 <? w) then (
      if (97 <=? w) && (w <=? 122) then st 21
      else st 0)
    else if (63 <=? w) then st 21
    else st 0)
  else st 21).
Definition st_22 (c : Z) : target action :=
  if (c <? 65) then (
    if (48 <=? c) && (c <=? 57) then st 23
    else st 0)
  else if (70 <? c) then (
    if (97 <=? c) && (c <=? 102) then st 23
    else st 0)
  else st 23.
Definition st_23 (c : Z) : target action :=
  if (c <? 65) then (
    if (48 <=? c) && (c <=? 57) then st 21
    else st 0)
  else if (70 <? c) then (
    if (97 <=? c) && (c <=? 102) then st 21
    else st 0)
  else st 21.
Definition st_24 (c : Z) : target action :=
  if (c <? 65) then (
    if (48 <=? c) && (c <=? 57) then st 25
    else st 0)
  else if (70 <? c) then (
    if (97 <=? c) && (c <=? 102) then st 25
    else st 0)
  else st 25.
Definition st_25 (c : Z) : target action :=
  if (c <? 65) then (
    if (48 <=? c) && (c <=? 57) then st 19
    else st 0)
  else if (70 <? c) then (
    if (97 <=? c) && (c <=? 102) then st 19
    else st 0)
  else st 19.
Definition st_26 (relaxed : bool) (c : Z) : target action :=
  let w := (if (c <? 123) then (if (94 <=? c) && (c <=? 94) then relax relaxed (widen c) else c) else (if (123 <? c) then (if (125 <=? c) && (c <=? 125) then relax relaxed (widen c) else c) else relax relaxed (widen c))) in
  switch w [32 --> tr_37; 33 --> st 26; 35 --> tr_39; 37 --> st 27; 61 --> st 26; 63 --> tr_42;
    95 --> st 26; 126 --> st 26; 606 --> st 26; 635 --> st 26; 637 --> st 26] (
  if (w <? 36) then (
    if (w <=? (-1)) then st 26
    else st 0)
  else if (59 <? w) then (
    if (90 <? w) then (
      if (97 <=? w) && (w <=? 122) then st 26
      else st 0)
    else if (64 <=? w) then st 26
    else st 0)
  else st 26).
Definition st_27 (c : Z) : target action :=
  if (c <? 65) then (
    if (48 <=? c) && (c <=? 57) then st 28
    else st 0)
  else if (70 <? c) then (
    if (97 <=? c) && (c <=? 102) then st 28
    else st 0)
  else st 28.
Definition st_28 (c : Z) : target action :=
  if (c <? 65) then (
    if (48 <=? c) && (c <=? 57) then st 26
    else st 0)
  else if (70 <? c) then (
    if (97 <=? c) && (c <=? 102) then st 26
    else st 0)
  else st 26.
Definition st_29 (relaxed : bool) (c : Z) : target action :=
  let w := (if (c <? 123) then (if (94 <=? c) && (c <=? 94) then relax relaxed (widen c) else c) else (if (123 <? c) then (if (125 <=? c) && (c <=? 125) then relax relaxed (widen c) else c) else relax relaxed (widen c))) in
  switch w [32 --> tr_54; 33 --> tr_53; 35 --> tr_55; 37 --> tr_56; 61 --> tr_53; 95 --> tr_53;
    126 --> tr_53; 606 --> tr_53; 635 --> tr_53; 637 --> tr_53] (
  if (w <? 36) then (
    if (w <=? (-1)) then tr_53
    else st 0)
  else if (59 <? w) then (
    if (90 <? w) then (
      if (97 <=? w) && (w <=? 122) then tr_53
      else st 0)
    else if (63 <=? w) then tr_53
    else st 0)
  else tr_53).
Definition st_30 (relaxed : bool) (c : Z) : target action :=
  let w := (if (c <? 123) then (if (94 <=? c) && (c <=? 94) then relax relaxed (widen c) else c) else (if (123 <? c) then (if (125 <=? c) && (c <=? 125) then relax relaxed (widen c) else c) else relax relaxed (widen c))) in
  switch w [32 --> tr_58; 33 --> st 30; 35 --> tr_59; 37 --> st 31; 61 --> st 30; 95 --> st 30;
    126 --> st 30; 606 --> st 30; 635 --> st 30; 637 --> st 30] (
  if (w <? 36) then (
    if (w <=? (-1)) then st 30
    else st 0)
  else if (59 <? w) then (
    if (90 <? w) then (
      if (97 <=? w) && (w <=? 122) then st 30
      else st 0)
    else if (63 <=? w) then st 30
    else st 0)
  else st 30).
Definition st_31 (c : Z) : target action :=
  if (c <? 65) then (
    if (48 <=? c) && (c <=? 57) then st 32
    else st 0)
  else if (70 <? c) then (
    if (97 <=? c) && (c <=? 102) then st 32
    else st 0)
  else st 32.
Definition st_32 (c : Z) : target action :=
  if (c <? 65) then (
    if (48 <=? c) && (c <=? 57) then st 30
    else st 0)
  else if (70 <? c) then (
    if (97 <=? c) && (c <=? 102) then st 30
    else st 0)
  else st 30.
Definition st_33 (relaxed : bool) (c : Z) : target action :=
  let w := (if (c <? 123) then (if (94 <=? c) && (c <=? 94) then relax relaxed (widen c) else c) else (if (123 <? c) then (if (125 <=? c) && (c <=? 125) then relax relaxed (widen c) else c) else relax relaxed (widen c))) in
  switch w [32 --> tr_37; 33 --> st 26; 35 --> tr_39; 37 --> st 27; 47 --> st 34; 61 --> st 26;
    63 --> tr_42; 95 --> st 26; 126 --> st 26; 606 --> st 26; 635 --> st 26; 637 --> st 26] (
  if (w <? 36) then (
    if (w <=? (-1)) then st 26
    else st 0)
  else if (59 <? w) then (
    if (90 <? w) then (
      if (97 <=? w) && (w <=? 122) then st 26
      else st 0)
    else if (64 <=? w) then st 26
    else st 0)
  else st 26).
Definition st_34 (relaxed : bool) (c : Z) : target action :=
  let w := (if (c <? 123) then (if (94 <=? c) && (c <=? 94) then relax relaxed (widen c) else c) else (if (123 <? c) then (if (125 <=? c) && (c <=? 125) then relax relaxed (widen c) else c) else relax relaxed (widen c))) in
  switch w [32 --> tr_37; 33 --> st 35; 35 --> tr_39; 37 --> st 36; 47 --> st 26; 58 --> st 38;
    61 --> st 35; 63 --> tr_42; 64 --> st 42; 91 --> st 47; 95 --> st 35; 126 --> st 35;
    606 --> st 35; 635 --> st 35; 637 --> st 35] (
  if (w <? 65) then (
    if (36 <=? w) && (w <=? 59) then st 35
    else st 0)
  else if (90 <? w) then (
    if (97 <=? w) && (w <=? 122) then st 35
    else st 0)
  else st 35).
Definition st_35 (relaxed : bool) (c : Z) : target action :=
  let w := (if (c <? 123) then (if (94 <=? c) && (c <=? 94) then relax relaxed (widen c) else c) else (if (123 <? c) then (if (125 <=? c) && (c <=? 125) then relax relaxed (widen c) else c) else relax relaxed (widen c))) in
  switch w [32 --> tr_37; 33 --> st 35; 35 --> tr_39; 37 --> st 36; 47 --> st 26; 58 --> st 38;
    61 --> st 35; 63 --> tr_42; 64 --> st 42; 95 --> st 35; 126 --> st 35; 606 --> st 35;
    635 --> st 35; 637 --> st 35] (
  if (w <? 65) then (
    if (36 <=? w) && (w <=? 59) then st 35
    else st 0)
  else if (90 <? w) then (
    if (97 <=? w) && (w <=? 122) then st 35
    else st 0)
  else st 35).
Definition st_36 (c : Z) : target action :=
  if (c <? 65) then (
    if (48 <=? c) && (c <=? 57) then st 37
    else st 0)
  else if (70 <? c) then (
    if (97 <=? c) && (c <=? 102) then st 37
    else st 0)
  else st 37.
Definition st_37 (c : Z) : target action :=
  if (c <? 65) then (
    if (48 <=? c) && (c <=? 57) then st 35
    else st 0)
  else if (70 <? c) then (
    if (97 <=? c) && (c <=? 102) then st 35
    else st 0)
  else st 35.
Definition st_38 (relaxed : bool) (c : Z) : target action :=
  let w := (if (c <? 123) then (if (94 <=? c) && (c <=? 94) then relax relaxed (widen c) else c) else (if (123 <? c) then (if (125 <=? c) && (c <=? 125) then relax relaxed (widen c) else c) else relax relaxed (widen c))) in
  switch w [32 --> tr_37; 33 --> st 39; 35 --> tr_39; 37 --> st 40; 47 --> st 26; 61 --> st 39;
    63 --> tr_42; 64 --> st 42; 95 --> st 39; 126 --> st 39; 606 --> st 39; 635 --> st 39;
    637 --> st 39] (
  if (w <? 58) then (
    if (46 <? w) then (
      if (48 <=? w) && (w <=? 57) then st 38
      else st 0)
    else if (36 <=? w) then st 39
    else st 0)
  else if (59 <? w) then (
    if (90 <? w) then (
      if (97 <=? w) && (w <=? 122) then st 39
      else st 0)
    else if (65 <=? w) then st 39
    else st 0)
  else st 39).
Definition st_39 (relaxed : bool) (c : Z) : target action :=
  let w := (if (c <? 123) then (if (94 <=? c) && (c <=? 94) then relax relaxed (widen c) else c) else (if (123 <? c) then (if (125 <=? c) && (c <=? 125) then relax relaxed (widen c) else c) else relax relaxed (widen c))) in
  switch w [33 --> st 39; 37 --> st 40; 61 --> st 39; 64 --> st 42; 95 --> st 39; 126 --> st 39;
    606 --> st 39; 635 --> st 39; 637 --> st 39] (
  if (w <? 48) then (
    if (36 <=? w) && (w <=? 46) then st 39
    else st 0)
  else if (59 <? w) then (
    if (90 <? w) then (
      if (97 <=? w) && (w <=? 122) then st 39
      else st 0)
    else if (65 <=? w) then st 39
    else st 0)
  else st 39).
Definition st_40 (c : Z) : target action :=
  if (c <? 65) then (
    if (48 <=? c) && (c <=? 57) then st 41
    else st 0)
  else if (70 <? c) then (
    if (97 <=? c) && (c <=? 102) then st 41
    else st 0)
  else st 41.
Definition st_41 (c : Z) : target action :=
  if (c <? 65) then (
    if (48 <=? c) && (c <=? 57) then st 39
    else st 0)
  else if (70 <? c) then (
    if (97 <=? c) && (c <=? 102) then st 39
    else st 0)
  else st 39.
Definition st_42 (relaxed : bool) (c : Z) : target action :=
  let w := (if (c <? 123) then (if (94 <=? c) && (c <=? 94) then relax relaxed (widen c) else c) else (if (123 <? c) then (if (125 <=? c) && (c <=? 125) then relax relaxed (widen c) else c) else relax relaxed (widen c))) in
  switch w [32 --> tr_37; 33 --> st 43; 35 --> tr_39; 37 --> st 44; 47 --> st 26; 58 --> st 46;
    61 --> st 43; 63 --> tr_42; 91 --> st 47; 95 --> st 43; 126 --> st 43; 606 --> st 43;
    635 --> st 43; 637 --> st 43] (
  if (w <? 65) then (
    if (36 <=? w) && (w <=? 59) then st 43
    else st 0)
  else if (90 <? w) then (
    if (97 <=? w) && (w <=? 122) then st 43
    else st 0)
  else st 43).
Definition st_43 (relaxed : bool) (c : Z) : target action :=
  let w := (if (c <? 123) then (if (94 <=? c) && (c <=? 94) then relax relaxed (widen c) else c) else (if (123 <? c) then (if (125 <=? c) && (c <=? 125) then relax relaxed (widen c) else c) else relax relaxed (widen c))) in
  switch w [32 --> tr_37; 33 --> st 43; 35 --> tr_39; 37 --> st 44; 47 --> st 26; 58 --> st 46;
    61 --> st 43; 63 --> tr_42; 95 --> st 43; 126 --> st 43; 606 --> st 43; 635 --> st 43;
    637 --> st 43] (
  if (w <? 65) then (
    if (36 <=? w) && (w <=? 59) then st 43
    else st 0)
  else if (90 <? w) then (
    if (97 <=? w) && (w <=? 122) then st 43
    else st 0)
  else st 43).
Definition st_44 (c : Z) : target action :=
  if (c <? 65) then (
    if (48 <=? c) && (c <=? 57) then st 45
    else st 0)
  else if (70 <? c) then (
    if (97 <=? c) && (c <=? 102) then st 45
    else st 0)
  else st 45.
Definition st_45 (c : Z) : target action :=
  if (c <? 65) then (
    if (48 <=? c) && (c <=? 57) then st 43
    else st 0)
  else if (70 <? c) then (
    if (97 <=? c) && (c <=? 102) then st 43
    else st 0)
  else st 43.
Definition st_46 (c : Z) : target action :=
  switch c [32 --> tr_37; 35 --> tr_39; 47 --> st 26; 63 --> tr_42] (
  if (48 <=? c) && (c <=? 57) then st 46
  else st 0).
Definition st_47 (c : Z) : target action :=
  switch c [6 --> st 48; 58 --> st 167; 118 --> st 169] (
  if (c <? 65) then (
    if (48 <=? c) && (c <=? 57) then st 91
    else st 0)
  else if (70 <? c) then (
    if (97 <=? c) && (c <=? 102) then st 91
    else st 0)
  else st 91).
Definition st_48 (c : Z) : target action :=
  if (c <? 65) then (
    if (48 <=? c) && (c <=? 57) then st 49
    else st 0)
  else if (70 <? c) then (
    if (97 <=? c) && (c <=? 102) then st 49
    else st 0)
  else st 49.
Definition st_49 (c : Z) : target action :=
  if (c =? 58) then st 53
  else if (c <? 65) then (
    if (48 <=? c) && (c <=? 57) then st 50
    else st 0)
  else if (70 <? c) then (
    if (97 <=? c) && (c <=? 102) then st 50
    else st 0)
  else st 50.
Definition st_50 (c : Z) : target action :=
  if (c =? 58) then st 53
  else if (c <? 65) then (
    if (48 <=? c) && (c <=? 57) then st 51
    else st 0)
  else if (70 <? c) then (
    if (97 <=? c) && (c <=? 102) then st 51
    else st 0)
  else st 51.
Definition st_51 (c : Z) : target action :=
  if (c =? 58) then st 53
  else if (c <? 65) then (
    if (48 <=? c) && (c <=? 57) then st 52
    else st 0)
  else if (70 <? c) then (
    if (97 <=? c) && (c <=? 102) then st 52
    else st 0)
  else st 52.
Definition st_52 (c : Z) : target action :=
  if (c =? 58) then st 53
  else st 0.
Definition st_53 (c : Z) : target action :=
  switch c [49 --> st 84; 50 --> st 87] (
  if (c <? 65) then (
    if (48 <=? c) && (c <=? 57) then st 54
    else st 0)
  else if (70 <? c) then (
    if (97 <=? c) && (c <=? 102) then st 90
    else st 0)
  else st 90).
Definition st_54 (c : Z) : target action :=
  switch c [46 --> st 55; 58 --> st 80] (
  if (c <? 65) then (
    if (48 <=? c) && (c <=? 57) then st 77
    else st 0)
  else if (70 <? c) then (
    if (97 <=? c) && (c <=? 102) then st 77
    else st 0)
  else st 77).
Definition st_55 (c : Z) : target action :=
  switch c [49 --> st 72; 50 --> st 74] (
  if (48 <=? c) && (c <=? 57) then st 56
  else st 0).
Definition st_56 (c : Z) : target action :=
  if (c =? 46) then st 57
  else st 0.
Definition st_57 (c : Z) : target action :=
  switch c [49 --> st 67; 50 --> st 69] (
  if (48 <=? c) && (c <=? 57) then st 58
  else st 0).
Definition st_58 (c : Z) : target action :=
  if (c =? 46) then st 59
  else st 0.
Definition st_59 (c : Z) : target action :=
  switch c [49 --> st 62; 50 --> st 64] (
  if (48 <=? c) && (c <=? 57) then st 60
  else st 0).
Definition st_60 (c : Z) : target action :=
  if (c =? 93) then st 61
  else st 0.
Definition st_61 (c : Z) : target action :=
  switch c [32 --> tr_37; 35 --> tr_39; 47 --> st 26; 58 --> st 46; 63 --> tr_42] (
  st 0).
Definition st_62 (c : Z) : target action :=
  if (c =? 93) then st 61
  else if (48 <=? c) && (c <=? 57) then st 63
  else st 0.
Definition st_63 (c : Z) : target action :=
  if (c =? 93) then st 61
  else if (48 <=? c) && (c <=? 57) then st 60
  else st 0.
Definition st_64 (c : Z) : target action :=
  switch c [48 --> st 65; 53 --> st 66; 93 --> st 61] (
  st 0).
Definition st_65 (c : Z) : target action :=
  if (48 <=? c) && (c <=? 57) then st 60
  else st 0.
Definition st_66 (c : Z) : target action :=
  if (c =? 48) then st 60
  else st 0.
Definition st_67 (c : Z) : target action :=
  if (c =? 46) then st 59
  else if (48 <=? c) && (c <=? 57) then st 68
  else st 0.
Definition st_68 (c : Z) : target action :=
  if (c =? 46) then st 59
  else if (48 <=? c) && (c <=? 57) then st 58
  else st 0.
Definition st_69 (c : Z) : target action :=
  switch c [46 --> st 59; 48 --> st 70; 53 --> st 71] (
  st 0).
Definition st_70 (c : Z) : target action :=
  if (48 <=? c) && (c <=? 57) then st 58
  else st 0.
Definition st_71 (c : Z) : target action :=
  if (c =? 48) then st 58
  else st 0.
Definition st_72 (c : Z) : target action :=
  if (c =? 46) then st 57
  else if (48 <=? c) && (c <=? 57) then st 73
  else st 0.
Definition st_73 (c : Z) : target action :=
  if (c =? 46) then st 57
  else if (48 <=? c) && (c <=? 57) then st 56
  else st 0.
Definition st_74 (c : Z) : target action :=
  switch c [46 --> st 57; 48 --> st 75; 53 --> st 76] (
  st 0).
Definition st_75 (c : Z) : target action :=
  if (48 <=? c) && (c <=? 57) then st 56
  else st 0.
Definition st_76 (c : Z) : target action :=
  if (c =? 48) then st 56
  else st 0.
Definition st_77 (c : Z) : target action :=
  if (c =? 58) then st 80
  else if (c <? 65) then (
    if (48 <=? c) && (c <=? 57) then st 78
    else st 0)
  else if (70 <? c) then (
    if (97 <=? c) && (c <=? 102) then st 78
    else st 0)
  else st 78.
Definition st_78 (c : Z) : target action :=
  if (c =? 58) then st 80
  else if (c <? 65) then (
    if (48 <=? c) && (c <=? 57) then st 79
    else st 0)
  else if (70 <? c) then (
    if (97 <=? c) && (c <=? 102) then st 79
    else st 0)
  else st 79.
Definition st_79 (c : Z) : target action :=
  if (c =? 58) then st 80
  else st 0.
Definition st_80 (c : Z) : target action :=
  if (c <? 65) then (
    if (48 <=? c) && (c <=? 57) then st 81
    else st 0)
  else if (70 <? c) then (
    if (97 <=? c) && (c <=? 102) then st 81
    else st 0)
  else st 81.
Definition st_81 (c : Z) : target action :=
  if (c =? 93) then st 61
  else if (c <? 65) then (
    if (48 <=? c) && (c <=? 57) then st 82
    else st 0)
  else if (70 <? c) then (
    if (97 <=? c) && (c <=? 102) then st 82
    else st 0)
  else st 82.
Definition st_82 (c : Z) : target action :=
  if (c =? 93) then st 61
  else if (c <? 65) then (
    if (48 <=? c) && (c <=? 57) then st 83
    else st 0)
  else if (70 <? c) then (
    if (97 <=? c) && (c <=? 102) then st 83
    else st 0)
  else st 83.
Definition st_83 (c : Z) : target action :=
  if (c =? 93) then st 61
  else if (c <? 65) then (
    if (48 <=? c) && (c <=? 57) then st 60
    else st 0)
  else if (70 <? c) then (
    if (97 <=? c) && (c <=? 102) then st 60
    else st 0)
  else st 60.
Definition st_84 (c : Z) : target action :=
  switch c [46 --> st 55; 58 --> st 80] (
  if (c <? 65) then (
    if (48 <=? c) && (c <=? 57) then st 85
    else st 0)
  else if (70 <? c) then (
    if (97 <=? c) && (c <=? 102) then st 77
    else st 0)
  else st 77).
Definition st_85 (c : Z) : target action :=
  switch c [46 --> st 55; 58 --> st 80] (
  if (c <? 65) then (
    if (48 <=? c) && (c <=? 57) then st 86
    else st 0)
  else if (70 <? c) then (
    if (97 <=? c) && (c <=? 102) then st 78
    else st 0)
  else st 78).
Definition st_86 (c : Z) : target action :=
  switch c [46 --> st 55; 58 --> st 80] (
  if (c <? 65) then (
    if (48 <=? c) && (c <=? 57) then st 79
    else st 0)
  else if (70 <? c) then (
    if (97 <=? c) && (c <=? 102) then st 79
    else st 0)
  else st 79).
Definition st_87 (c : Z) : target action :=
  switch c [46 --> st 55; 48 --> st 88; 53 --> st 89; 58 --> st 80] (
  if (c <? 65) then (
    if (49 <=? c) && (c <=? 57) then st 77
    else st 0)
  else if (70 <? c) then (
    if (97 <=? c) && (c <=? 102) then st 77
    else st 0)
  else st 77).
Definition st_88 (c : Z) : target action :=
  if (c =? 58) then st 80
  else if (c <? 65) then (
    if (48 <=? c) && (c <=? 57) then st 86
    else st 0)
  else if (70 <? c) then (
    if (97 <=? c) && (c <=? 102) then st 78
    else st 0)
  else st 78.
Definition st_89 (c : Z) : target action :=
  switch c [48 --> st 86; 58 --> st 80] (
  if (c <? 65) then (
    if (49 <=? c) && (c <=? 57) then st 78
    else st 0)
  else if (70 <? c) then (
    if (97 <=? c) && (c <=? 102) then st 78
    else st 0)
  else st 78).
Definition st_90 (c : Z) : target action :=
  if (c =? 58) then st 80
  else if (c <? 65) then (
    if (48 <=? c) && (c <=? 57) then st 77
    else st 0)
  else if (70 <? c) then (
    if (97 <=? c) && (c <=? 102) then st 77
    else st 0)
  else st 77.
Definition st_91 (c : Z) : target action :=
  if (c =? 58) then st 95
  else if (c <? 65) then (
    if (48 <=? c) && (c <=? 57) then st 92
    else st 0)
  else if (70 <? c) then (
    if (97 <=? c) && (c <=? 102) then st 92
    else st 0)
  else st 92.
Definition st_92 (c : Z) : target action :=
  if (c =? 58) then st 95
  else if (c <? 65) then (
    if (48 <=? c) && (c <=? 57) then st 93
    else st 0)
  else if (70 <? c) then (
    if (97 <=? c) && (c <=? 102) then st 93
    else st 0)
  else st 93.
Definition st_93 (c : Z) : target action :=
  if (c =? 58) then st 95
  else if (c <? 65) then (
    if (48 <=? c) && (c <=? 57) then st 94
    else st 0)
  else if (70 <? c) then (
    if (97 <=? c) && (c <=? 102) then st 94
    else st 0)
  else st 94.
Definition st_94 (c : Z) : target action :=
  if (c =? 58) then st 95
  else st 0.
Definition st_95 (c : Z) : target action :=
  if (c =? 58) then st 166
  else if (c <? 65) then (
    if (48 <=? c) && (c <=? 57) then st 96
    else st 0)
  else if (70 <? c) then (
    if (97 <=? c) && (c <=? 102) then st 96
    else st 0)
  else st 96.
Definition st_96 (c : Z) : target action :=
  if (c =? 58) then st 100
  else if (c <? 65) then (
    if (48 <=? c) && (c <=? 57) then st 97
    else st 0)
  else if (70 <? c) then (
    if (97 <=? c) && (c <=? 102) then st 97
    else st 0)
  else st 97.
Definition st_97 (c : Z) : target action :=
  if (c =? 58) then st 100
  else if (c <? 65) then (
    if (48 <=? c) && (c <=? 57) then st 98
    else st 0)
  else if (70 <? c) then (
    if (97 <=? c) && (c <=? 102) then st 98
    else st 0)
  else st 98.
Definition st_98 (c : Z) : target action :=
  if (c =? 58) then st 100
  else if (c <? 65) then (
    if (48 <=? c) && (c <=? 57) then st 99
    else st 0)
  else if (70 <? c) then (
    if (97 <=? c) && (c <=? 102) then st 99
    else st 0)
  else st 99.
Definition st_99 (c : Z) : target action :=
  if (c =? 58) then st 100
  else st 0.
Definition st_100 (c : Z) : target action :=
  if (c =? 58) then st 165
  else if (c <? 65) then (
    if (48 <=? c) && (c <=? 57) then st 101
    else st 0)
  else if (70 <? c) then (
    if (97 <=? c) && (c <=? 102) then st 101
    else st 0)
  else st 101.
Definition st_101 (c : Z) : target action :=
  if (c =? 58) then st 105
  else if (c <? 65) then (
    if (48 <=? c) && (c <=? 57) then st 102
    else st 0)
  else if (70 <? c) then (
    if (97 <=? c) && (c <=? 102) then st 102
    else st 0)
  else st 102.
Definition st_102 (c : Z) : target action :=
  if (c =? 58) then st 105
  else if (c <? 65) then (
    if (48 <=? c) && (c <=? 57) then st 103
    else st 0)
  else if (70 <? c) then (
    if (97 <=? c) && (c <=? 102) then st 103
    else st 0)
  else st 103.
Definition st_103 (c : Z) : target action :=
  if (c =? 58) then st 105
  else if (c <? 65) then (
    if (48 <=? c) && (c <=? 57) then st 104
    else st 0)
  else if (70 <? c) then (
    if (97 <=? c) && (c <=? 102) then st 104
    else st 0)
  else st 104.
Definition st_104 (c : Z) : target action :=
  if (c =? 58) then st 105
  else st 0.
Definition st_105 (c : Z) : target action :=
  if (c =? 58) then st 164
  else if (c <? 65) then (
    if (48 <=? c) && (c <=? 57) then st 106
    else st 0)
  else if (70 <? c) then (
    if (97 <=? c) && (c <=? 102) then st 106
    else st 0)
  else st 106.
Definition st_106 (c : Z) : target action :=
  if (c =? 58) then st 110
  else if (c <? 65) then (
    if (48 <=? c) && (c <=? 57) then st 107
    else st 0)
  else if (70 <? c) then (
    if (97 <=? c) && (c <=? 102) then st 107
    else st 0)
  else st 107.
Definition st_107 (c : Z) : target action :=
  if (c =? 58) then st 110
  else if (c <? 65) then (
    if (48 <=? c) && (c <=? 57) then st 108
    else st 0)
  else if (70 <? c) then (
    if (97 <=? c) && (c <=? 102) then st 108
    else st 0)
  else st 108.
Definition st_108 (c : Z) : target action :=
  if (c =? 58) then st 110
  else if (c <? 65) then (
    if (48 <=? c) && (c <=? 57) then st 109
    else st 0)
  else if (70 <? c) then (
    if (97 <=? c) && (c <=? 102) then st 109
    else st 0)
  else st 109.
Definition st_109 (c : Z) : target action :=
  if (c =? 58) then st 110
  else st 0.
Definition st_110 (c : Z) : target action :=
  if (c =? 58) then st 163
  else if (c <? 65) then (
    if (48 <=? c) && (c <=? 57) then st 111
    else st 0)
  else if (70 <? c) then (
    if (97 <=? c) && (c <=? 102) then st 111
    else st 0)
  else st 111.
Definition st_111 (c : Z) : target action :=
  if (c =? 58) then st 115
  else if (c <? 65) then (
    if (48 <=? c) && (c <=? 57) then st 112
    else st 0)
  else if (70 <? c) then (
    if (97 <=? c) && (c <=? 102) then st 112
    else st 0)
  else st 112.
Definition st_112 (c : Z) : target action :=
  if (c =? 58) then st 115
  else if (c <? 65) then (
    if (48 <=? c) && (c <=? 57) then st 113
    else st 0)
  else if (70 <? c) then (
    if (97 <=? c) && (c <=? 102) then st 113
    else st 0)
  else st 113.
Definition st_113 (c : Z) : target action :=
  if (c =? 58) then st 115
  else if (c <? 65) then (
    if (48 <=? c) && (c <=? 57) then st 114
    else st 0)
  else if (70 <? c) then (
    if (97 <=? c) && (c <=? 102) then st 114
    else st 0)
  else st 114.
Definition st_114 (c : Z) : target action :=
  if (c =? 58) then st 115
  else st 0.
Definition st_115 (c : Z) : target action :=
  if (c =? 58) then st 151
  else if (c <? 65) then (
    if (48 <=? c) && (c <=? 57) then st 116
    else st 0)
  else if (70 <? c) then (
    if (97 <=? c) && (c <=? 102) then st 116
    else st 0)
  else st 116.
Definition st_116 (c : Z) : target action :=
  if (c =? 58) then st 120
  else if (c <? 65) then (
    if (48 <=? c) && (c <=? 57) then st 117
    else st 0)
  else if (70 <? c) then (
    if (97 <=? c) && (c <=? 102) then st 117
    else st 0)
  else st 117.
Definition st_117 (c : Z) : target action :=
  if (c =? 58) then st 120
  else if (c <? 65) then (
    if (48 <=? c) && (c <=? 57) then st 118
    else st 0)
  else if (70 <? c) then (
    if (97 <=? c) && (c <=? 102) then st 118
    else st 0)
  else st 118.
Definition st_118 (c : Z) : target action :=
  if (c =? 58) then st 120
  else if (c <? 65) then (
    if (48 <=? c) && (c <=? 57) then st 119
    else st 0)
  else if (70 <? c) then (
    if (97 <=? c) && (c <=? 102) then st 119
    else st 0)
  else st 119.
Definition st_119 (c : Z) : target action :=
  if (c =? 58) then st 120
  else st 0.
Definition st_120 (c : Z) : target action :=
  if (c =? 58) then st 150
  else if (c <? 65) then (
    if (48 <=? c) && (c <=? 57) then st 121
    else st 0)
  else if (70 <? c) then (
    if (97 <=? c) && (c <=? 102) then st 121
    else st 0)
  else st 121.
Definition st_121 (c : Z) : target action :=
  if (c =? 58) then st 125
  else if (c <? 65) then (
    if (48 <=? c) && (c <=? 57) then st 122
    else st 0)
  else if (70 <? c) then (
    if (97 <=? c) && (c <=? 102) then st 122
    else st 0)
  else st 122.
Definition st_122 (c : Z) : target action :=
  if (c =? 58) then st 125
  else if (c <? 65) then (
    if (48 <=? c) && (c <=? 57) then st 123
    else st 0)
  else if (70 <? c) then (
    if (97 <=? c) && (c <=? 102) then st 123
    else st 0)
  else st 123.
Definition st_123 (c : Z) : target action :=
  if (c =? 58) then st 125
  else if (c <? 65) then (
    if (48 <=? c) && (c <=? 57) then st 124
    else st 0)
  else if (70 <? c) then (
    if (97 <=? c) && (c <=? 102) then st 124
    else st 0)
  else st 124.
Definition st_124 (c : Z) : target action :=
  if (c =? 58) then st 125
  else st 0.
Definition st_125 (c : Z) : target action :=
  if (c =? 58) then st 126
  else if (c <? 65) then (
    if (48 <=? c) && (c <=? 57) then st 121
    else st 0)
  else if (70 <? c) then (
    if (97 <=? c) && (c <=? 102) then st 121
    else st 0)
  else st 121.
Definition st_126 (c : Z) : target action :=
  switch c [49 --> st 143; 50 --> st 146; 93 --> st 61] (
  if (c <? 48) then (
    if (2 <=? c) && (c <=? 3) then st 48
    else st 0)
  else if (57 <? c) then (
    if (70 <? c) then (
      if (97 <=? c) && (c <=? 102) then st 149
      else st 0)
    else if (65 <=? c) then st 149
    else st 0)
  else st 127).
Definition st_127 (c : Z) : target action :=
  switch c [46 --> st 55; 58 --> st 131; 93 --> st 61] (
  if (c <? 65) then (
    if (48 <=? c) && (c <=? 57) then st 128
    else st 0)
  else if (70 <? c) then (
    if (97 <=? c) && (c <=? 102) then st 128
    else st 0)
  else st 128).
Definition st_128 (c : Z) : target action :=
  switch c [58 --> st 131; 93 --> st 61] (
  if (c <? 65) then (
    if (48 <=? c) && (c <=? 57) then st 129
    else st 0)
  else if (70 <? c) then (
    if (97 <=? c) && (c <=? 102) then st 129
    else st 0)
  else st 129).
Definition st_129 (c : Z) : target action :=
  switch c [58 --> st 131; 93 --> st 61] (
  if (c <? 65) then (
    if (48 <=? c) && (c <=? 57) then st 130
    else st 0)
  else if (70 <? c) then (
    if (97 <=? c) && (c <=? 102) then st 130
    else st 0)
  else st 130).
Definition st_130 (c : Z) : target action :=
  switch c [58 --> st 131; 93 --> st 61] (
  st 0).
Definition st_131 (c : Z) : target action :=
  switch c [49 --> st 136; 50 --> st 139] (
  if (c <? 65) then (
    if (48 <=? c) && (c <=? 57) then st 132
    else st 0)
  else if (70 <? c) then (
    if (97 <=? c) && (c <=? 102) then st 142
    else st 0)
  else st 142).
Definition st_132 (c : Z) : target action :=
  switch c [46 --> st 55; 58 --> st 80; 93 --> st 61] (
  if (c <? 65) then (
    if (48 <=? c) && (c <=? 57) then st 133
    else st 0)
  else if (70 <? c) then (
    if (97 <=? c) && (c <=? 102) then st 133
    else st 0)
  else st 133).
Definition st_133 (c : Z) : target action :=
  switch c [58 --> st 80; 93 --> st 61] (
  if (c <? 65) then (
    if (48 <=? c) && (c <=? 57) then st 134
    else st 0)
  else if (70 <? c) then (
    if (97 <=? c) && (c <=? 102) then st 134
    else st 0)
  else st 134).
Definition st_134 (c : Z) : target action :=
  switch c [58 --> st 80; 93 --> st 61] (
  if (c <? 65) then (
    if (48 <=? c) && (c <=? 57) then st 135
    else st 0)
  else if (70 <? c) then (
    if (97 <=? c) && (c <=? 102) then st 135
    else st 0)
  else st 135).
Definition st_135 (c : Z) : target action :=
  switch c [58 --> st 80; 93 --> st 61] (
  st 0).
Definition st_136 (c : Z) : target action :=
  switch c [46 --> st 55; 58 --> st 80; 93 --> st 61] (
  if (c <? 65) then (
    if (48 <=? c) && (c <=? 57) then st 137
    else st 0)
  else if (70 <? c) then (
    if (97 <=? c) && (c <=? 102) then st 133
    else st 0)
  else st 133).
Definition st_137 (c : Z) : target action :=
  switch c [46 --> st 55; 58 --> st 80; 93 --> st 61] (
  if (c <? 65) then (
    if (48 <=? c) && (c <=? 57) then st 138
    else st 0)
  else if (70 <? c) then (
    if (97 <=? c) && (c <=? 102) then st 134
    else st 0)
  else st 134).
Definition st_138 (c : Z) : target action :=
  switch c [46 --> st 55; 58 --> st 80; 93 --> st 61] (
  if (c <? 65) then (
    if (48 <=? c) && (c <=? 57) then st 135
    else st 0)
  else if (70 <? c) then (
    if (97 <=? c) && (c <=? 102) then st 135
    else st 0)
  else st 135).
Definition st_139 (c : Z) : target action :=
  switch c [46 --> st 55; 48 --> st 140; 53 --> st 141; 58 --> st 80; 93 --> st 61] (
  if (c <? 65) then (
    if (49 <=? c) && (c <=? 57) then st 133
    else st 0)
  else if (70 <? c) then (
    if (97 <=? c) && (c <=? 102) then st 133
    else st 0)
  else st 133).
Definition st_140 (c : Z) : target action :=
  switch c [58 --> st 80; 93 --> st 61] (
  if (c <? 65) then (
    if (48 <=? c) && (c <=? 57) then st 138
    else st 0)
  else if (70 <? c) then (
    if (97 <=? c) && (c <=? 102) then st 134
    else st 0)
  else st 134).
Definition st_141 (c : Z) : target action :=
  switch c [48 --> st 138; 58 --> st 80; 93 --> st 61] (
  if (c <? 65) then (
    if (49 <=? c) && (c <=? 57) then st 134
    else st 0)
  else if (70 <? c) then (
    if (97 <=? c) && (c <=? 102) then st 134
    else st 0)
  else st 134).
Definition st_142 (c : Z) : target action :=
  switch c [58 --> st 80; 93 --> st 61] (
  if (c <? 65) then (
    if (48 <=? c) && (c <=? 57) then st 133
    else st 0)
  else if (70 <? c) then (
    if (97 <=? c) && (c <=? 102) then st 133
    else st 0)
  else st 133).
Definition st_143 (c : Z) : target action :=
  switch c [46 --> st 55; 58 --> st 131; 93 --> st 61] (
  if (c <? 65) then (
    if (48 <=? c) && (c <=? 57) then st 144
    else st 0)
  else if (70 <? c) then (
    if (97 <=? c) && (c <=? 102) then st 128
    else st 0)
  else st 128).
Definition st_144 (c : Z) : target action :=
  switch c [46 --> st 55; 58 --> st 131; 93 --> st 61] (
  if (c <? 65) then (
    if (48 <=? c) && (c <=? 57) then st 145
    else st 0)
  else if (70 <? c) then (
    if (97 <=? c) && (c <=? 102) then st 129
    else st 0)
  else st 129).
Definition st_145 (c : Z) : target action :=
  switch c [46 --> st 55; 58 --> st 131; 93 --> st 61] (
  if (c <? 65) then (
    if (48 <=? c) && (c <=? 57) then st 130
    else st 0)
  else if (70 <? c) then (
    if (97 <=? c) && (c <=? 102) then st 130
    else st 0)
  else st 130).
Definition st_146 (c : Z) : target action :=
  switch c [46 --> st 55; 48 --> st 147; 53 --> st 148; 58 --> st 131; 93 --> st 61] (
  if (c <? 65) then (
    if (49 <=? c) && (c <=? 57) then st 128
    else st 0)
  else if (70 <? c) then (
    if (97 <=? c) && (c <=? 102) then st 128
    else st 0)
  else st 128).
Definition st_147 (c : Z) : target action :=
  switch c [58 --> st 131; 93 --> st 61] (
  if (c <? 65) then (
    if (48 <=? c) && (c <=? 57) then st 145
    else st 0)
  else if (70 <? c) then (
    if (97 <=? c) && (c <=? 102) then st 129
    else st 0)
  else st 129).
Definition st_148 (c : Z) : target action :=
  switch c [48 --> st 145; 58 --> st 131; 93 --> st 61] (
  if (c <? 65) then (
    if (49 <=? c) && (c <=? 57) then st 129
    else st 0)
  else if (70 <? c) then (
    if (97 <=? c) && (c <=? 102) then st 129
    else st 0)
  else st 129).
Definition st_149 (c : Z) : target action :=
  switch c [58 --> st 131; 93 --> st 61] (
  if (c <? 65) then (
    if (48 <=? c) && (c <=? 57) then st 128
    else st 0)
  else if (70 <? c) then (
    if (97 <=? c) && (c <=? 102) then st 128
    else st 0)
  else st 128).
Definition st_150 (c : Z) : target action :=
  switch c [49 --> st 143; 50 --> st 146] (
  if (c <? 48) then (
    if (2 <=? c) && (c <=? 3) then st 48
    else st 0)
  else if (57 <? c) then (
    if (70 <? c) then (
      if (97 <=? c) && (c <=? 102) then st 149
      else st 0)
    else if (65 <=? c) then st 149
    else st 0)
  else st 127).
Definition st_151 (c : Z) : target action :=
  switch c [49 --> st 156; 50 --> st 159] (
  if (c <? 48) then (
    if (2 <=? c) && (c <=? 3) then st 48
    else st 0)
  else if (57 <? c) then (
    if (70 <? c) then (
      if (97 <=? c) && (c <=? 102) then st 162
      else st 0)
    else if (65 <=? c) then st 162
    else st 0)
  else st 152).
Definition st_152 (c : Z) : target action :=
  switch c [46 --> st 55; 58 --> st 131] (
  if (c <? 65) then (
    if (48 <=? c) && (c <=? 57) then st 153
    else st 0)
  else if (70 <? c) then (
    if (97 <=? c) && (c <=? 102) then st 153
    else st 0)
  else st 153).
Definition st_153 (c : Z) : target action :=
  if (c =? 58) then st 131
  else if (c <? 65) then (
    if (48 <=? c) && (c <=? 57) then st 154
    else st 0)
  else if (70 <? c) then (
    if (97 <=? c) && (c <=? 102) then st 154
    else st 0)
  else st 154.
Definition st_154 (c : Z) : target action :=
  if (c =? 58) then st 131
  else if (c <? 65) then (
    if (48 <=? c) && (c <=? 57) then st 155
    else st 0)
  else if (70 <? c) then (
    if (97 <=? c) && (c <=? 102) then st 155
    else st 0)
  else st 155.
Definition st_155 (c : Z) : target action :=
  if (c =? 58) then st 131
  else st 0.
Definition st_156 (c : Z) : target action :=
  switch c [46 --> st 55; 58 --> st 131] (
  if (c <? 65) then (
    if (48 <=? c) && (c <=? 57) then st 157
    else st 0)
  else if (70 <? c) then (
    if (97 <=? c) && (c <=? 102) then st 153
    else st 0)
  else st 153).
Definition st_157 (c : Z) : target action :=
  switch c [46 --> st 55; 58 --> st 131] (
  if (c <? 65) then (
    if (48 <=? c) && (c <=? 57) then st 158
    else st 0)
  else if (70 <? c) then (
    if (97 <=? c) && (c <=? 102) then st 154
    else st 0)
  else st 154).
Definition st_158 (c : Z) : target action :=
  switch c [46 --> st 55; 58 --> st 131] (
  if (c <? 65) then (
    if (48 <=? c) && (c <=? 57) then st 155
    else st 0)
  else if (70 <? c) then (
    if (97 <=? c) && (c <=? 102) then st 155
    else st 0)
  else st 155).
Definition st_159 (c : Z) : target action :=
  switch c [46 --> st 55; 48 --> st 160; 53 --> st 161; 58 --> st 131] (
  if (c <? 65) then (
    if (49 <=? c) && (c <=? 57) then st 153
    else st 0)
  else if (70 <? c) then (
    if (97 <=? c) && (c <=? 102) then st 153
    else st 0)
  else st 153).
Definition st_160 (c : Z) : target action :=
  if (c =? 58) then st 131
  else if (c <? 65) then (
    if (48 <=? c) && (c <=? 57) then st 158
    else st 0)
  else if (70 <? c) then (
    if (97 <=? c) && (c <=? 102) then st 154
    else st 0)
  else st 154.
Definition st_161 (c : Z) : target action :=
  switch c [48 --> st 158; 58 --> st 131] (
  if (c <? 65) then (
    if (49 <=? c) && (c <=? 57) then st 154
    else st 0)
  else if (70 <? c) then (
    if (97 <=? c) && (c <=? 102) then st 154
    else st 0)
  else st 154).
Definition st_162 (c : Z) : target action :=
  if (c =? 58) then st 131
  else if (c <? 65) then (
    if (48 <=? c) && (c <=? 57) then st 153
    else st 0)
  else if (70 <? c) then (
    if (97 <=? c) && (c <=? 102) then st 153
    else st 0)
  else st 153.
Definition st_163 (c : Z) : target action :=
  if (c <? 48) then (
    if (2 <=? c) && (c <=? 3) then st 48
    else st 0)
  else if (57 <? c) then (
    if (70 <? c) then (
      if (97 <=? c) && (c <=? 102) then st 49
      else st 0)
    else if (65 <=? c) then st 49
    else st 0)
  else st 49.
Definition st_164 (c : Z) : target action :=
  if (2 <=? c) && (c <=? 3) then st 48
  else st 0.
Definition st_165 (c : Z) : target action :=
  if (c =? 3) then st 48
  else st 0.
Definition st_166 (c : Z) : target action :=
  if (c =? 4) then st 48
  else st 0.
Definition st_167 (c : Z) : target action :=
  if (c =? 58) then st 168
  else st 0.
Definition st_168 (c : Z) : target action :=
  switch c [49 --> st 143; 50 --> st 146; 93 --> st 61] (
  if (c <? 48) then (
    if (2 <=? c) && (c <=? 5) then st 48
    else st 0)
  else if (57 <? c) then (
    if (70 <? c) then (
      if (97 <=? c) && (c <=? 102) then st 149
      else st 0)
    else if (65 <=? c) then st 149
    else st 0)
  else st 127).
Definition st_169 (c : Z) : target action :=
  if (c <? 65) then (
    if (48 <=? c) && (c <=? 57) then st 170
    else st 0)
  else if (70 <? c) then (
    if (97 <=? c) && (c <=? 102) then st 170
    else st 0)
  else st 170.
Definition st_170 (c : Z) : target action :=
  if (c =? 46) then st 171
  else if (c <? 65) then (
    if (48 <=? c) && (c <=? 57) then st 170
    else st 0)
  else if (70 <? c) then (
    if (97 <=? c) && (c <=? 102) then st 170
    else st 0)
  else st 170.
Definition st_171 (relaxed : bool) (c : Z) : target action :=
  let w := (if (c <? 123) then (if (94 <=? c) && (c <=? 94) then relax relaxed (widen c) else c) else (if (123 <? c) then (if (125 <=? c) && (c <=? 125) then relax relaxed (widen c) else c) else relax relaxed (widen c))) in
  switch w [33 --> st 172; 36 --> st 172; 61 --> st 172; 95 --> st 172; 126 --> st 172;
    606 --> st 172; 635 --> st 172; 637 --> st 172] (
  if (w <? 48) then (
    if (38 <=? w) && (w <=? 46) then st 172
    else st 0)
  else if (59 <? w) then (
    if (90 <? w) then (
      if (97 <=? w) && (w <=? 122) then st 172
      else st 0)
    else if (65 <=? w) then st 172
    else st 0)
  else st 172).
Definition st_172 (relaxed : bool) (c : Z) : target action :=
  let w := (if (c <? 123) then (if (94 <=? c) && (c <=? 94) then relax relaxed (widen c) else c) else (if (123 <? c) then (if (125 <=? c) && (c <=? 125) then relax relaxed (widen c) else c) else relax relaxed (widen c))) in
  switch w [33 --> st 172; 36 --> st 172; 61 --> st 172; 93 --> st 61; 95 --> st 172;
    126 --> st 172; 606 --> st 172; 635 --> st 172; 637 --> st 172] (
  if (w <? 48) then (
    if (38 <=? w) && (w <=? 46) then st 172
    else st 0)
  else if (59 <? w) then (
    if (90 <? w) then (
      if (97 <=? w) && (w <=? 122) then st 172
      else st 0)
    else if (65 <=? w) then st 172
    else st 0)
  else st 172).
Definition st_173 (relaxed : bool) (c : Z) : target action :=
  let w := (if (c <? 123) then (if (94 <=? c) && (c <=? 94) then relax relaxed (widen c) else c) else (if (123 <? c) then (if (125 <=? c) && (c <=? 125) then relax relaxed (widen c) else c) else relax relaxed (widen c))) in
  switch w [32 --> tr_37; 33 --> st 19; 35 --> tr_39; 37 --> st 24; 43 --> st 173; 47 --> st 26;
    58 --> st 174; 59 --> st 19; 61 --> st 19; 63 --> tr_42; 64 --> st 19; 95 --> st 19;
    126 --> st 19; 606 --> st 19; 635 --> st 19; 637 --> st 19] (
  if (w <? 45) then (
    if (36 <=? w) && (w <=? 44) then st 19
    else st 0)
  else if (57 <? w) then (
    if (90 <? w) then (
      if (97 <=? w) && (w <=? 122) then st 173
      else st 0)
    else if (65 <=? w) then st 173
    else st 0)
  else st 173).
Definition st_174 (relaxed : bool) (c : Z) : target action :=
  let w := (if (c <? 123) then (if (94 <=? c) && (c <=? 94) then relax relaxed (widen c) else c) else (if (123 <? c) then (if (125 <=? c) && (c <=? 125) then relax relaxed (widen c) else c) else relax relaxed (widen c))) in
  switch w [32 --> tr_6; 33 --> tr_203; 35 --> tr_8; 37 --> tr_204; 47 --> tr_10; 61 --> tr_203;
    63 --> tr_11; 95 --> tr_203; 126 --> tr_203; 606 --> tr_203; 635 --> tr_203; 637 --> tr_203] (
  if (w <? 36) then (
    if (w <=? (-1)) then tr_203
    else st 0)
  else if (59 <? w) then (
    if (90 <? w) then (
      if (97 <=? w) && (w <=? 122) then tr_203
      else st 0)
    else if (64 <=? w) then tr_203
    else st 0)
  else tr_203).
Definition st_175 (c : Z) : target action :=
  if (c =? 32) then tr_4
  else if (57 <? c) then (
    if (65 <=? c) && (c <=? 90) then st 176
    else st 0)
  else if (48 <=? c) then st 176
  else st 0.
Definition st_176 (c : Z) : target action :=
  if (c =? 32) then tr_4
  else if (57 <? c) then (
    if (65 <=? c) && (c <=? 90) then st 177
    else st 0)
  else if (48 <=? c) then st 177
  else st 0.
Definition st_177 (c : Z) : target action :=
  if (c =? 32) then tr_4
  else if (57 <? c) then (
    if (65 <=? c) && (c <=? 90) then st 178
    else st 0)
  else if (48 <=? c) then st 178
  else st 0.
Definition st_178 (c : Z) : target action :=
  if (c =? 32) then tr_4
  else if (57 <? c) then (
    if (65 <=? c) && (c <=? 90) then st 179
    else st 0)
  else if (48 <=? c) then st 179
  else st 0.
Definition st_179 (c : Z) : target action :=
  if (c =? 32) then tr_4
  else if (57 <? c) then (
    if (65 <=? c) && (c <=? 90) then st 180
    else st 0)
  else if (48 <=? c) then st 180
  else st 0.
Definition st_180 (c : Z) : target action :=
  if (c =? 32) then tr_4
  else if (57 <? c) then (
    if (65 <=? c) && (c <=? 90) then st 181
    else st 0)
  else if (48 <=? c) then st 181
  else st 0.
Definition st_181 (c : Z) : target action :=
  if (c =? 32) then tr_4
  else if (57 <? c) then (
    if (65 <=? c) && (c <=? 90) then st 182
    else st 0)
  else if (48 <=? c) then st 182
  else st 0.
Definition st_182 (c : Z) : target action :=
  if (c =? 32) then tr_4
  else if (57 <? c) then (
    if (65 <=? c) && (c <=? 90) then st 183
    else st 0)
  else if (48 <=? c) then st 183
  else st 0.
Definition st_183 (c : Z) : target action :=
  if (c =? 32) then tr_4
  else if (57 <? c) then (
    if (65 <=? c) && (c <=? 90) then st 184
    else st 0)
  else if (48 <=? c) then st 184
  else st 0.
Definition st_184 (c : Z) : target action :=
  if (c =? 32) then tr_4
  else if (57 <? c) then (
    if (65 <=? c) && (c <=? 90) then st 185
    else st 0)
  else if (48 <=? c) then st 185
  else st 0.
Definition st_185 (c : Z) : target action :=
  if (c =? 32) then tr_4
  else if (57 <? c) then (
    if (65 <=? c) && (c <=? 90) then st 186
    else st 0)
  else if (48 <=? c) then st 186
  else st 0.
Definition st_186 (c : Z) : target action :=
  if (c =? 32) then tr_4
  else if (57 <? c) then (
    if (65 <=? c) && (c <=? 90) then st 187
    else st 0)
  else if (48 <=? c) then st 187
  else st 0.
Definition st_187 (c : Z) : target action :=
  if (c =? 32) then tr_4
  else if (57 <? c) then (
    if (65 <=? c) && (c <=? 90) then st 188
    else st 0)
  else if (48 <=? c) then st 188
  else st 0.
Definition st_188 (c : Z) : target action :=
  if (c =? 32) then tr_4
  else if (57 <? c) then (
    if (65 <=? c) && (c <=? 90) then st 189
    else st 0)
  else if (48 <=? c) then st 189
  else st 0.
Definition st_189 (c : Z) : target action :=
  if (c =? 32) then tr_4
  else if (57 <? c) then (
    if (65 <=? c) && (c <=? 90) then st 190
    else st 0)
  else if (48 <=? c) then st 190
  else st 0.
Definition st_190 (c : Z) : target action :=
  if (c =? 32) then tr_4
  else if (57 <? c) then (
    if (65 <=? c) && (c <=? 90) then st 191
    else st 0)
  else if (48 <=? c) then st 191
  else st 0.
Definition st_191 (c : Z) : target action :=
  if (c =? 32) then tr_4
  else if (57 <? c) then (
    if (65 <=? c) && (c <=? 90) then st 192
    else st 0)
  else if (48 <=? c) then st 192
  else st 0.
Definition st_192 (c : Z) : target action :=
  if (c =? 32) then tr_4
  else if (57 <? c) then (
    if (65 <=? c) && (c <=? 90) then st 193
    else st 0)
  else if (48 <=? c) then st 193
  else st 0.
Definition st_193 (c : Z) : target action :=
  if (c =? 32) then tr_4
  else st 0.
Definition st_194 (c : Z) : target action :=
  if (c <? 48) then (
    if (45 <=? c) && (c <=? 46) then st 195
    else st 0)
  else if (57 <? c) then (
    if (90 <? c) then (
      if (97 <=? c) && (c <=? 122) then st 195
      else st 0)
    else if (65 <=? c) then st 195
    else st 0)
  else st 195.
Definition st_195 (c : Z) : target action :=
  switch c [32 --> tr_224; 47 --> tr_224; 62 --> tr_224] (
  if (c <? 45) then (
    if (9 <=? c) && (c <=? 13) then tr_224
    else st 0)
  else if (57 <? c) then (
    if (90 <? c) then (
      if (97 <=? c) && (c <=? 122) then st 195
      else st 0)
    else if (65 <=? c) then st 195
    else st 0)
  else st 195).
Definition st_196 (c : Z) : target action :=
  if (c =? 62) then st 197
  else st 196.
Definition st_197 (c : Z) : target action :=
  switch c [0 --> tr_227; 62 --> st 197] (
  st 196).
Definition st_198 (relaxed : bool) (c : Z) : target action :=
  let w := (if (c <? 123) then (if (94 <=? c) && (c <=? 94) then relax relaxed (widen c) else c) else (if (123 <? c) then (if (125 <=? c) && (c <=? 125) then relax relaxed (widen c) else c) else relax relaxed (widen c))) in
  switch w [32 --> tr_228; 33 --> st 202; 37 --> st 203; 47 --> st 208; 59 --> st 202;
    61 --> st 202; 95 --> st 202; 126 --> st 202; 606 --> st 202; 635 --> st 202; 637 --> st 202] (
  if (w <? 64) then (
    if (36 <=? w) && (w <=? 57) then st 202
    else st 0)
  else if (90 <? w) then (
    if (97 <=? w) && (w <=? 122) then st 202
    else st 0)
  else st 202).
Definition st_199 (c : Z) : target action :=
  if (c =? 123) then tr_232
  else st 0.
Definition st_200 (c : Z) : target action :=
  if (c =? 125) then st 201
  else st 200.
Definition st_201 (c : Z) : target action :=
  switch c [0 --> tr_235; 125 --> st 201] (
  st 200).
Definition st_202 (relaxed : bool) (c : Z) : target action :=
  let w := (if (c <? 123) then (if (94 <=? c) && (c <=? 94) then relax relaxed (widen c) else c) else (if (123 <? c) then (if (125 <=? c) && (c <=? 125) then relax relaxed (widen c) else c) else relax relaxed (widen c))) in
  switch w [32 --> tr_228; 33 --> st 202; 37 --> st 203; 47 --> st 205; 59 --> st 202;
    61 --> st 202; 95 --> st 202; 126 --> st 202; 606 --> st 202; 635 --> st 202; 637 --> st 202] (
  if (w <? 64) then (
    if (36 <=? w) && (w <=? 57) then st 202
    else st 0)
  else if (90 <? w) then (
    if (97 <=? w) && (w <=? 122) then st 202
    else st 0)
  else st 202).
Definition st_203 (c : Z) : target action :=
  if (c <? 65) then (
    if (48 <=? c) && (c <=? 57) then st 204
    else st 0)
  else if (70 <? c) then (
    if (97 <=? c) && (c <=? 102) then st 204
    else st 0)
  else st 204.
Definition st_204 (c : Z) : target action :=
  if (c <? 65) then (
    if (48 <=? c) && (c <=? 57) then st 202
    else st 0)
  else if (70 <? c) then (
    if (97 <=? c) && (c <=? 102) then st 202
    else st 0)
  else st 202.
Definition st_205 (relaxed : bool) (c : Z) : target action :=
  let w := (if (c <? 123) then (if (94 <=? c) && (c <=? 94) then relax relaxed (widen c) else c) else (if (123 <? c) then (if (125 <=? c) && (c <=? 125) then relax relaxed (widen c) else c) else relax relaxed (widen c))) in
  switch w [32 --> tr_228; 33 --> st 205; 37 --> st 206; 61 --> st 205; 95 --> st 205;
    126 --> st 205; 606 --> st 205; 635 --> st 205; 637 --> st 205] (
  if (w <? 36) then (
    if (w <=? (-1)) then st 205
    else st 0)
  else if (59 <? w) then (
    if (90 <? w) then (
      if (97 <=? w) && (w <=? 122) then st 205
      else st 0)
    else if (64 <=? w) then st 205
    else st 0)
  else st 205).
Definition st_206 (c : Z) : target action :=
  if (c <? 65) then (
    if (48 <=? c) && (c <=? 57) then st 207
    else st 0)
  else if (70 <? c) then (
    if (97 <=? c) && (c <=? 102) then st 207
    else st 0)
  else st 207.
Definition st_207 (c : Z) : target action :=
  if (c <? 65) then (
    if (48 <=? c) && (c <=? 57) then st 205
    else st 0)
  else if (70 <? c) then (
    if (97 <=? c) && (c <=? 102) then st 205
    else st 0)
  else st 205.
Definition st_208 (relaxed : bool) (c : Z) : target action :=
  let w := (if (c <? 123) then (if (94 <=? c) && (c <=? 94) then relax relaxed (widen c) else c) else (if (123 <? c) then (if (125 <=? c) && (c <=? 125) then relax relaxed (widen c) else c) else relax relaxed (widen c))) in
  switch w [32 --> tr_228; 33 --> st 205; 37 --> st 206; 47 --> st 209; 61 --> st 205;
    95 --> st 205; 126 --> st 205; 606 --> st 205; 635 --> st 205; 637 --> st 205] (
  if (w <? 36) then (
    if (w <=? (-1)) then st 205
    else st 0)
  else if (59 <? w) then (
    if (90 <? w) then (
      if (97 <=? w) && (w <=? 122) then st 205
      else st 0)
    else if (64 <=? w) then st 205
    else st 0)
  else st 205).
Definition st_209 (relaxed : bool) (c : Z) : target action :=
  let w := (if (c <? 123) then (if (94 <=? c) && (c <=? 94) then relax relaxed (widen c) else c) else (if (123 <? c) then (if (125 <=? c) && (c <=? 125) then relax relaxed (widen c) else c) else relax relaxed (widen c))) in
  switch w [32 --> tr_228; 33 --> st 210; 37 --> st 211; 47 --> st 205; 58 --> st 213;
    61 --> st 210; 64 --> st 217; 91 --> st 222; 95 --> st 210; 126 --> st 210; 606 --> st 210;
    635 --> st 210; 637 --> st 210] (
  if (w <? 65) then (
    if (36 <=? w) && (w <=? 59) then st 210
    else st 0)
  else if (90 <? w) then (
    if (97 <=? w) && (w <=? 122) then st 210
    else st 0)
  else st 210).
Definition st_210 (relaxed : bool) (c : Z) : target action :=
  let w := (if (c <? 123) then (if (94 <=? c) && (c <=? 94) then relax relaxed (widen c) else c) else (if (123 <? c) then (if (125 <=? c) && (c <=? 125) then relax relaxed (widen c) else c) else relax relaxed (widen c))) in
  switch w [32 --> tr_228; 33 --> st 210; 37 --> st 211; 47 --> st 205; 58 --> st 213;
    61 --> st 210; 64 --> st 217; 95 --> st 210; 126 --> st 210; 606 --> st 210; 635 --> st 210;
    637 --> st 210] (
  if (w <? 65) then (
    if (36 <=? w) && (w <=? 59) then st 210
    else st 0)
  else if (90 <? w) then (
    if (97 <=? w) && (w <=? 122) then st 210
    else st 0)
  else st 210).
Definition st_211 (c : Z) : target action :=
  if (c <? 65) then (
    if (48 <=? c) && (c <=? 57) then st 212
    else st 0)
  else if (70 <? c) then (
    if (97 <=? c) && (c <=? 102) then st 212
    else st 0)
  else st 212.
Definition st_212 (c : Z) : target action :=
  if (c <? 65) then (
    if (48 <=? c) && (c <=? 57) then st 210
    else st 0)
  else if (70 <? c) then (
    if (97 <=? c) && (c <=? 102) then st 210
    else st 0)
  else st 210.
Definition st_213 (relaxed : bool) (c : Z) : target action :=
  let w := (if (c <? 123) then (if (94 <=? c) && (c <=? 94) then relax relaxed (widen c) else c) else (if (123 <? c) then (if (125 <=? c) && (c <=? 125) then relax relaxed (widen c) else c) else relax relaxed (widen c))) in
  switch w [32 --> tr_228; 33 --> st 214; 37 --> st 215; 47 --> st 205; 61 --> st 214;
    64 --> st 217; 95 --> st 214; 126 --> st 214; 606 --> st 214; 635 --> st 214; 637 --> st 214] (
  if (w <? 58) then (
    if (46 <? w) then (
      if (48 <=? w) && (w <=? 57) then st 213
      else st 0)
    else if (36 <=? w) then st 214
    else st 0)
  else if (59 <? w) then (
    if (90 <? w) then (
      if (97 <=? w) && (w <=? 122) then st 214
      else st 0)
    else if (65 <=? w) then st 214
    else st 0)
  else st 214).
Definition st_214 (relaxed : bool) (c : Z) : target action :=
  let w := (if (c <? 123) then (if (94 <=? c) && (c <=? 94) then relax relaxed (widen c) else c) else (if (123 <? c) then (if (125 <=? c) && (c <=? 125) then relax relaxed (widen c) else c) else relax relaxed (widen c))) in
  switch w [33 --> st 214; 37 --> st 215; 61 --> st 214; 64 --> st 217; 95 --> st 214;
    126 --> st 214; 606 --> st 214; 635 --> st 214; 637 --> st 214] (
  if (w <? 48) then (
    if (36 <=? w) && (w <=? 46) then st 214
    else st 0)
  else if (59 <? w) then (
    if (90 <? w) then (
      if (97 <=? w) && (w <=? 122) then st 214
      else st 0)
    else if (65 <=? w) then st 214
    else st 0)
  else st 214).
Definition st_215 (c : Z) : target action :=
  if (c <? 65) then (
    if (48 <=? c) && (c <=? 57) then st 216
    else st 0)
  else if (70 <? c) then (
    if (97 <=? c) && (c <=? 102) then st 216
    else st 0)
  else st 216.
Definition st_216 (c : Z) : target action :=
  if (c <? 65) then (
    if (48 <=? c) && (c <=? 57) then st 214
    else st 0)
  else if (70 <? c) then (
    if (97 <=? c) && (c <=? 102) then st 214
    else st 0)
  else st 214.
Definition st_217 (relaxed : bool) (c : Z) : target action :=
  let w := (if (c <? 123) then (if (94 <=? c) && (c <=? 94) then relax relaxed (widen c) else c) else (if (123 <? c) then (if (125 <=? c) && (c <=? 125) then relax relaxed (widen c) else c) else relax relaxed (widen c))) in
  switch w [32 --> tr_228; 33 --> st 218; 37 --> st 219; 47 --> st 205; 58 --> st 221;
    61 --> st 218; 91 --> st 222; 95 --> st 218; 126 --> st 218; 606 --> st 218; 635 --> st 218;
    637 --> st 218] (
  if (w <? 65) then (
    if (36 <=? w) && (w <=? 59) then st 218
    else st 0)
  else if (90 <? w) then (
    if (97 <=? w) && (w <=? 122) then st 218
    else st 0)
  else st 218).
Definition st_218 (relaxed : bool) (c : Z) : target action :=
  let w := (if (c <? 123) then (if (94 <=? c) && (c <=? 94) then relax relaxed (widen c) else c) else (if (123 <? c) then (if (125 <=? c) && (c <=? 125) then relax relaxed (widen c) else c) else relax relaxed (widen c))) in
  switch w [32 --> tr_228; 33 --> st 218; 37 --> st 219; 47 --> st 205; 58 --> st 221;
    61 --> st 218; 95 --> st 218; 126 --> st 218; 606 --> st 218; 635 --> st 218; 637 --> st 218] (
  if (w <? 65) then (
    if (36 <=? w) && (w <=? 59) then st 218
    else st 0)
  else if (90 <? w) then (
    if (97 <=? w) && (w <=? 122) then st 218
    else st 0)
  else st 218).
Definition st_219 (c : Z) : target action :=
  if (c <? 65) then (
    if (48 <=? c) && (c <=? 57) then st 220
    else st 0)
  else if (70 <? c) then (
    if (97 <=? c) && (c <=? 102) then st 220
    else st 0)
  else st 220.
Definition st_220 (c : Z) : target action :=
  if (c <? 65) then (
    if (48 <=? c) && (c <=? 57) then st 218
    else st 0)
  else if (70 <? c) then (
    if (97 <=? c) && (c <=? 102) then st 218
    else st 0)
  else st 218.
Definition st_221 (c : Z) : target action :=
  switch c [32 --> tr_228; 47 --> st 205] (
  if (48 <=? c) && (c <=? 57) then st 221
  else st 0).
Definition st_222 (c : Z) : target action :=
  switch c [6 --> st 223; 58 --> st 342; 118 --> st 344] (
  if (c <? 65) then (
    if (48 <=? c) && (c <=? 57) then st 266
    else st 0)
  else if (70 <? c) then (
    if (97 <=? c) && (c <=? 102) then st 266
    else st 0)
  else st 266).
Definition st_223 (c : Z) : target action :=
  if (c <? 65) then (
    if (48 <=? c) && (c <=? 57) then st 224
    else st 0)
  else if (70 <? c) then (
    if (97 <=? c) && (c <=? 102) then st 224
    else st 0)
  else st 224.
Definition st_224 (c : Z) : target action :=
  if (c =? 58) then st 228
  else if (c <? 65) then (
    if (48 <=? c) && (c <=? 57) then st 225
    else st 0)
  else if (70 <? c) then (
    if (97 <=? c) && (c <=? 102) then st 225
    else st 0)
  else st 225.
Definition st_225 (c : Z) : target action :=
  if (c =? 58) then st 228
  else if (c <? 65) then (
    if (48 <=? c) && (c <=? 57) then st 226
    else st 0)
  else if (70 <? c) then (
    if (97 <=? c) && (c <=? 102) then st 226
    else st 0)
  else st 226.
Definition st_226 (c : Z) : target action :=
  if (c =? 58) then st 228
  else if (c <? 65) then (
    if (48 <=? c) && (c <=? 57) then st 227
    else st 0)
  else if (70 <? c) then (
    if (97 <=? c) && (c <=? 102) then st 227
    else st 0)
  else st 227.
Definition st_227 (c : Z) : target action :=
  if (c =? 58) then st 228
  else st 0.
Definition st_228 (c : Z) : target action :=
  switch c [49 --> st 259; 50 --> st 262] (
  if (c <? 65) then (
    if (48 <=? c) && (c <=? 57) then st 229
    else st 0)
  else if (70 <? c) then (
    if (97 <=? c) && (c <=? 102) then st 265
    else st 0)
  else st 265).
Definition st_229 (c : Z) : target action :=
  switch c [46 --> st 230; 58 --> st 255] (
  if (c <? 65) then (
    if (48 <=? c) && (c <=? 57) then st 252
    else st 0)
  else if (70 <? c) then (
    if (97 <=? c) && (c <=? 102) then st 252
    else st 0)
  else st 252).
Definition st_230 (c : Z) : target action :=
  switch c [49 --> st 247; 50 --> st 249] (
  if (48 <=? c) && (c <=? 57) then st 231
  else st 0).
Definition st_231 (c : Z) : target action :=
  if (c =? 46) then st 232
  else st 0.
Definition st_232 (c : Z) : target action :=
  switch c [49 --> st 242; 50 --> st 244] (
  if (48 <=? c) && (c <=? 57) then st 233
  else st 0).
Definition st_233 (c : Z) : target action :=
  if (c =? 46) then st 234
  else st 0.
Definition st_234 (c : Z) : target action :=
  switch c [49 --> st 237; 50 --> st 239] (
  if (48 <=? c) && (c <=? 57) then st 235
  else st 0).
Definition st_235 (c : Z) : target action :=
  if (c =? 93) then st 236
  else st 0.
Definition st_236 (c : Z) : target action :=
  switch c [32 --> tr_228; 47 --> st 205; 58 --> st 221] (
  st 0).
Definition st_237 (c : Z) : target action :=
  if (c =? 93) then st 236
  else if (48 <=? c) && (c <=? 57) then st 238
  else st 0.
Definition st_238 (c : Z) : target action :=
  if (c =? 93) then st 236
  else if (48 <=? c) && (c <=? 57) then st 235
  else st 0.
Definition st_239 (c : Z) : target action :=
  switch c [48 --> st 240; 53 --> st 241; 93 --> st 236] (
  st 0).
Definition st_240 (c : Z) : target action :=
  if (48 <=? c) && (c <=? 57) then st 235
  else st 0.
Definition st_241 (c : Z) : target action :=
  if (c =? 48) then st 235
  else st 0.
Definition st_242 (c : Z) : target action :=
  if (c =? 46) then st 234
  else if (48 <=? c) && (c <=? 57) then st 243
  else st 0.
Definition st_243 (c : Z) : target action :=
  if (c =? 46) then st 234
  else if (48 <=? c) && (c <=? 57) then st 233
  else st 0.
Definition st_244 (c : Z) : target action :=
  switch c [46 --> st 234; 48 --> st 245; 53 --> st 246] (
  st 0).
Definition st_245 (c : Z) : target action :=
  if (48 <=? c) && (c <=? 57) then st 233
  else st 0.
Definition st_246 (c : Z) : target action :=
  if (c =? 48) then st 233
  else st 0.
Definition st_247 (c : Z) : target action :=
  if (c =? 46) then st 232
  else if (48 <=? c) && (c <=? 57) then st 248
  else st 0.
Definition st_248 (c : Z) : target action :=
  if (c =? 46) then st 232
  else if (48 <=? c) && (c <=? 57) then st 231
  else st 0.
Definition st_249 (c : Z) : target action :=
  switch c [46 --> st 232; 48 --> st 250; 53 --> st 251] (
  st 0).
Definition st_250 (c : Z) : target action :=
  if (48 <=? c) && (c <=? 57) then st 231
  else st 0.
Definition st_251 (c : Z) : target action :=
  if (c =? 48) then st 231
  else st 0.
Definition st_252 (c : Z) : target action :=
  if (c =? 58) then st 255
  else if (c <? 65) then (
    if (48 <=? c) && (c <=? 57) then st 253
    else st 0)
  else if (70 <? c) then (
    if (97 <=? c) && (c <=? 102) then st 253
    else st 0)
  else st 253.
Definition st_253 (c : Z) : target action :=
  if (c =? 58) then st 255
  else if (c <? 65) then (
    if (48 <=? c) && (c <=? 57) then st 254
    else st 0)
  else if (70 <? c) then (
    if (97 <=? c) && (c <=? 102) then st 254
    else st 0)
  else st 254.
Definition st_254 (c : Z) : target action :=
  if (c =? 58) then st 255
  else st 0.
Definition st_255 (c : Z) : target action :=
  if (c <? 65) then (
    if (48 <=? c) && (c <=? 57) then st 256
    else st 0)
  else if (70 <? c) then (
    if (97 <=? c) && (c <=? 102) then st 256
    else st 0)
  else st 256.
Definition st_256 (c : Z) : target action :=
  if (c =? 93) then st 236
  else if (c <? 65) then (
    if (48 <=? c) && (c <=? 57) then st 257
    else st 0)
  else if (70 <? c) then (
    if (97 <=? c) && (c <=? 102) then st 257
    else st 0)
  else st 257.
Definition st_257 (c : Z) : target action :=
  if (c =? 93) then st 236
  else if (c <? 65) then (
    if (48 <=? c) && (c <=? 57) then st 258
    else st 0)
  else if (70 <? c) then (
    if (97 <=? c) && (c <=? 102) then st 258
    else st 0)
  else st 258.
Definition st_258 (c : Z) : target action :=
  if (c =? 93) then st 236
  else if (c <? 65) then (
    if (48 <=? c) && (c <=? 57) then st 235
    else st 0)
  else if (70 <? c) then (
    if (97 <=? c) && (c <=? 102) then st 235
    else st 0)
  else st 235.
Definition st_259 (c : Z) : target action :=
  switch c [46 --> st 230; 58 --> st 255] (
  if (c <? 65) then (
    if (48 <=? c) && (c <=? 57) then st 260
    else st 0)
  else if (70 <? c) then (
    if (97 <=? c) && (c <=? 102) then st 252
    else st 0)
  else st 252).
Definition st_260 (c : Z) : target action :=
  switch c [46 --> st 230; 58 --> st 255] (
  if (c <? 65) then (
    if (48 <=? c) && (c <=? 57) then st 261
    else st 0)
  else if (70 <? c) then (
    if (97 <=? c) && (c <=? 102) then st 253
    else st 0)
  else st 253).
Definition st_261 (c : Z) : target action :=
  switch c [46 --> st 230; 58 --> st 255] (
  if (c <? 65) then (
    if (48 <=? c) && (c <=? 57) then st 254
    else st 0)
  else if (70 <? c) then (
    if (97 <=? c) && (c <=? 102) then st 254
    else st 0)
  else st 254).
Definition st_262 (c : Z) : target action :=
  switch c [46 --> st 230; 48 --> st 263; 53 --> st 264; 58 --> st 255] (
  if (c <? 65) then (
    if (49 <=? c) && (c <=? 57) then st 252
    else st 0)
  else if (70 <? c) then (
    if (97 <=? c) && (c <=? 102) then st 252
    else st 0)
  else st 252).
Definition st_263 (c : Z) : target action :=
  if (c =? 58) then st 255
  else if (c <? 65) then (
    if (48 <=? c) && (c <=? 57) then st 261
    else st 0)
  else if (70 <? c) then (
    if (97 <=? c) && (c <=? 102) then st 253
    else st 0)
  else st 253.
Definition st_264 (c : Z) : target action :=
  switch c [48 --> st 261; 58 --> st 255] (
  if (c <? 65) then (
    if (49 <=? c) && (c <=? 57) then st 253
    else st 0)
  else if (70 <? c) then (
    if (97 <=? c) && (c <=? 102) then st 253
    else st 0)
  else st 253).
Definition st_265 (c : Z) : target action :=
  if (c =? 58) then st 255
  else if (c <? 65) then (
    if (48 <=? c) && (c <=? 57) then st 252
    else st 0)
  else if (70 <? c) then (
    if (97 <=? c) && (c <=? 102) then st 252
    else st 0)
  else st 252.
Definition st_266 (c : Z) : target action :=
  if (c =? 58) then st 270
  else if (c <? 65) then (
    if (48 <=? c) && (c <=? 57) then st 267
    else st 0)
  else if (70 <? c) then (
    if (97 <=? c) && (c <=? 102) then st 267
    else st 0)
  else st 267.
Definition st_267 (c : Z) : target action :=
  if (c =? 58) then st 270
  else if (c <? 65) then (
    if (48 <=? c) && (c <=? 57) then st 268
    else st 0)
  else if (70 <? c) then (
    if (97 <=? c) && (c <=? 102) then st 268
    else st 0)
  else st 268.
Definition st_268 (c : Z) : target action :=
  if (c =? 58) then st 270
  else if (c <? 65) then (
    if (48 <=? c) && (c <=? 57) then st 269
    else st 0)
  else if (70 <? c) then (
    if (97 <=? c) && (c <=? 102) then st 269
    else st 0)
  else st 269.
Definition st_269 (c : Z) : target action :=
  if (c =? 58) then st 270
  else st 0.
Definition st_270 (c : Z) : target action :=
  if (c =? 58) then st 341
  else if (c <? 65) then (
    if (48 <=? c) && (c <=? 57) then st 271
    else st 0)
  else if (70 <? c) then (
    if (97 <=? c) && (c <=? 102) then st 271
    else st 0)
  else st 271.
Definition st_271 (c : Z) : target action :=
  if (c =? 58) then st 275
  else if (c <? 65) then (
    if (48 <=? c) && (c <=? 57) then st 272
    else st 0)
  else if (70 <? c) then (
    if (97 <=? c) && (c <=? 102) then st 272
    else st 0)
  else st 272.
Definition st_272 (c : Z) : target action :=
  if (c =? 58) then st 275
  else if (c <? 65) then (
    if (48 <=? c) && (c <=? 57) then st 273
    else st 0)
  else if (70 <? c) then (
    if (97 <=? c) && (c <=? 102) then st 273
    else st 0)
  else st 273.
Definition st_273 (c : Z) : target action :=
  if (c =? 58) then st 275
  else if (c <? 65) then (
    if (48 <=? c) && (c <=? 57) then st 274
    else st 0)
  else if (70 <? c) then (
    if (97 <=? c) && (c <=? 102) then st 274
    else st 0)
  else st 274.
Definition st_274 (c : Z) : target action :=
  if (c =? 58) then st 275
  else st 0.
Definition st_275 (c : Z) : target action :=
  if (c =? 58) then st 340
  else if (c <? 65) then (
    if (48 <=? c) && (c <=? 57) then st 276
    else st 0)
  else if (70 <? c) then (
    if (97 <=? c) && (c <=? 102) then st 276
    else st 0)
  else st 276.
Definition st_276 (c : Z) : target action :=
  if (c =? 58) then st 280
  else if (c <? 65) then (
    if (48 <=? c) && (c <=? 57) then st 277
    else st 0)
  else if (70 <? c) then (
    if (97 <=? c) && (c <=? 102) then st 277
    else st 0)
  else st 277.
Definition st_277 (c : Z) : target action :=
  if (c =? 58) then st 280
  else if (c <? 65) then (
    if (48 <=? c) && (c <=? 57) then st 278
    else st 0)
  else if (70 <? c) then (
    if (97 <=? c) && (c <=? 102) then st 278
    else st 0)
  else st 278.
Definition st_278 (c : Z) : target action :=
  if (c =? 58) then st 280
  else if (c <? 65) then (
    if (48 <=? c) && (c <=? 57) then st 279
    else st 0)
  else if (70 <? c) then (
    if (97 <=? c) && (c <=? 102) then st 279
    else st 0)
  else st 279.
Definition st_279 (c : Z) : target action :=
  if (c =? 58) then st 280
  else st 0.
Definition st_280 (c : Z) : target action :=
  if (c =? 58) then st 339
  else if (c <? 65) then (
    if (48 <=? c) && (c <=? 57) then st 281
    else st 0)
  else if (70 <? c) then (
    if (97 <=? c) && (c <=? 102) then st 281
    else st 0)
  else st 281.
Definition st_281 (c : Z) : target action :=
  if (c =? 58) then st 285
  else if (c <? 65) then (
    if (48 <=? c) && (c <=? 57) then st 282
    else st 0)
  else if (70 <? c) then (
    if (97 <=? c) && (c <=? 102) then st 282
    else st 0)
  else st 282.
Definition st_282 (c : Z) : target action :=
  if (c =? 58) then st 285
  else if (c <? 65) then (
    if (48 <=? c) && (c <=? 57) then st 283
    else st 0)
  else if (70 <? c) then (
    if (97 <=? c) && (c <=? 102) then st 283
    else st 0)
  else st 283.
Definition st_283 (c : Z) : target action :=
  if (c =? 58) then st 285
  else if (c <? 65) then (
    if (48 <=? c) && (c <=? 57) then st 284
    else st 0)
  else if (70 <? c) then (
    if (97 <=? c) && (c <=? 102) then st 284
    else st 0)
  else st 284.
Definition st_284 (c : Z) : target action :=
  if (c =? 58) then st 285
  else st 0.
Definition st_285 (c : Z) : target action :=
  if (c =? 58) then st 338
  else if (c <? 65) then (
    if (48 <=? c) && (c <=? 57) then st 286
    else st 0)
  else if (70 <? c) then (
    if (97 <=? c) && (c <=? 102) then st 286
    else st 0)
  else st 286.
Definition st_286 (c : Z) : target action :=
  if (c =? 58) then st 290
  else if (c <? 65) then (
    if (48 <=? c) && (c <=? 57) then st 287
    else st 0)
  else if (70 <? c) then (
    if (97 <=? c) && (c <=? 102) then st 287
    else st 0)
  else st 287.
Definition st_287 (c : Z) : target action :=
  if (c =? 58) then st 290
  else if (c <? 65) then (
    if (48 <=? c) && (c <=? 57) then st 288
    else st 0)
  else if (70 <? c) then (
    if (97 <=? c) && (c <=? 102) then st 288
    else st 0)
  else st 288.
Definition st_288 (c : Z) : target action :=
  if (c =? 58) then st 290
  else if (c <? 65) then (
    if (48 <=? c) && (c <=? 57) then st 289
    else st 0)
  else if (70 <? c) then (
    if (97 <=? c) && (c <=? 102) then st 289
    else st 0)
  else st 289.
Definition st_289 (c : Z) : target action :=
  if (c =? 58) then st 290
  else st 0.
Definition st_290 (c : Z) : target action :=
  if (c =? 58) then st 326
  else if (c <? 65) then (
    if (48 <=? c) && (c <=? 57) then st 291
    else st 0)
  else if (70 <? c) then (
    if (97 <=? c) && (c <=? 102) then st 291
    else st 0)
  else st 291.
Definition st_291 (c : Z) : target action :=
  if (c =? 58) then st 295
  else if (c <? 65) then (
    if (48 <=? c) && (c <=? 57) then st 292
    else st 0)
  else if (70 <? c) then (
    if (97 <=? c) && (c <=? 102) then st 292
    else st 0)
  else st 292.
Definition st_292 (c : Z) : target action :=
  if (c =? 58) then st 295
  else if (c <? 65) then (
    if (48 <=? c) && (c <=? 57) then st 293
    else st 0)
  else if (70 <? c) then (
    if (97 <=? c) && (c <=? 102) then st 293
    else st 0)
  else st 293.
Definition st_293 (c : Z) : target action :=
  if (c =? 58) then st 295
  else if (c <? 65) then (
    if (48 <=? c) && (c <=? 57) then st 294
    else st 0)
  else if (70 <? c) then (
    if (97 <=? c) && (c <=? 102) then st 294
    else st 0)
  else st 294.
Definition st_294 (c : Z) : target action :=
  if (c =? 58) then st 295
  else st 0.
Definition st_295 (c : Z) : target action :=
  if (c =? 58) then st 325
  else if (c <? 65) then (
    if (48 <=? c) && (c <=? 57) then st 296
    else st 0)
  else if (70 <? c) then (
    if (97 <=? c) && (c <=? 102) then st 296
    else st 0)
  else st 296.
Definition st_296 (c : Z) : target action :=
  if (c =? 58) then st 300
  else if (c <? 65) then (
    if (48 <=? c) && (c <=? 57) then st 297
    else st 0)
  else if (70 <? c) then (
    if (97 <=? c) && (c <=? 102) then st 297
    else st 0)
  else st 297.
Definition st_297 (c : Z) : target action :=
  if (c =? 58) then st 300
  else if (c <? 65) then (
    if (48 <=? c) && (c <=? 57) then st 298
    else st 0)
  else if (70 <? c) then (
    if (97 <=? c) && (c <=? 102) then st 298
    else st 0)
  else st 298.
Definition st_298 (c : Z) : target action :=
  if (c =? 58) then st 300
  else if (c <? 65) then (
    if (48 <=? c) && (c <=? 57) then st 299
    else st 0)
  else if (70 <? c) then (
    if (97 <=? c) && (c <=? 102) then st 299
    else st 0)
  else st 299.
Definition st_299 (c : Z) : target action :=
  if (c =? 58) then st 300
  else st 0.
Definition st_300 (c : Z) : target action :=
  if (c =? 58) then st 301
  else if (c <? 65) then (
    if (48 <=? c) && (c <=? 57) then st 296
    else st 0)
  else if (70 <? c) then (
    if (97 <=? c) && (c <=? 102) then st 296
    else st 0)
  else st 296.
Definition st_301 (c : Z) : target action :=
  switch c [49 --> st 318; 50 --> st 321; 93 --> st 236] (
  if (c <? 48) then (
    if (2 <=? c) && (c <=? 3) then st 223
    else st 0)
  else if (57 <? c) then (
    if (70 <? c) then (
      if (97 <=? c) && (c <=? 102) then st 324
      else st 0)
    else if (65 <=? c) then st 324
    else st 0)
  else st 302).
Definition st_302 (c : Z) : target action :=
  switch c [46 --> st 230; 58 --> st 306; 93 --> st 236] (
  if (c <? 65) then (
    if (48 <=? c) && (c <=? 57) then st 303
    else st 0)
  else if (70 <? c) then (
    if (97 <=? c) && (c <=? 102) then st 303
    else st 0)
  else st 303).
Definition st_303 (c : Z) : target action :=
  switch c [58 --> st 306; 93 --> st 236] (
  if (c <? 65) then (
    if (48 <=? c) && (c <=? 57) then st 304
    else st 0)
  else if (70 <? c) then (
    if (97 <=? c) && (c <=? 102) then st 304
    else st 0)
  else st 304).
Definition st_304 (c : Z) : target action :=
  switch c [58 --> st 306; 93 --> st 236] (
  if (c <? 65) then (
    if (48 <=? c) && (c <=? 57) then st 305
    else st 0)
  else if (70 <? c) then (
    if (97 <=? c) && (c <=? 102) then st 305
    else st 0)
  else st 305).
Definition st_305 (c : Z) : target action :=
  switch c [58 --> st 306; 93 --> st 236] (
  st 0).
Definition st_306 (c : Z) : target action :=
  switch c [49 --> st 311; 50 --> st 314] (
  if (c <? 65) then (
    if (48 <=? c) && (c <=? 57) then st 307
    else st 0)
  else if (70 <? c) then (
    if (97 <=? c) && (c <=? 102) then st 317
    else st 0)
  else st 317).
Definition st_307 (c : Z) : target action :=
  switch c [46 --> st 230; 58 --> st 255; 93 --> st 236] (
  if (c <? 65) then (
    if (48 <=? c) && (c <=? 57) then st 308
    else st 0)
  else if (70 <? c) then (
    if (97 <=? c) && (c <=? 102) then st 308
    else st 0)
  else st 308).
Definition st_308 (c : Z) : target action :=
  switch c [58 --> st 255; 93 --> st 236] (
  if (c <? 65) then (
    if (48 <=? c) && (c <=? 57) then st 309
    else st 0)
  else if (70 <? c) then (
    if (97 <=? c) && (c <=? 102) then st 309
    else st 0)
  else st 309).
Definition st_309 (c : Z) : target action :=
  switch c [58 --> st 255; 93 --> st 236] (
  if (c <? 65) then (
    if (48 <=? c) && (c <=? 57) then st 310
    else st 0)
  else if (70 <? c) then (
    if (97 <=? c) && (c <=? 102) then st 310
    else st 0)
  else st 310).
Definition st_310 (c : Z) : target action :=
  switch c [58 --> st 255; 93 --> st 236] (
  st 0).
Definition st_311 (c : Z) : target action :=
  switch c [46 --> st 230; 58 --> st 255; 93 --> st 236] (
  if (c <? 65) then (
    if (48 <=? c) && (c <=? 57) then st 312
    else st 0)
  else if (70 <? c) then (
    if (97 <=? c) && (c <=? 102) then st 308
    else st 0)
  else st 308).
Definition st_312 (c : Z) : target action :=
  switch c [46 --> st 230; 58 --> st 255; 93 --> st 236] (
  if (c <? 65) then (
    if (48 <=? c) && (c <=? 57) then st 313
    else st 0)
  else if (70 <? c) then (
    if (97 <=? c) && (c <=? 102) then st 309
    else st 0)
  else st 309).
Definition st_313 (c : Z) : target action :=
  switch c [46 --> st 230; 58 --> st 255; 93 --> st 236] (
  if (c <? 65) then (
    if (48 <=? c) && (c <=? 57) then st 310
    else st 0)
  else if (70 <? c) then (
    if (97 <=? c) && (c <=? 102) then st 310
    else st 0)
  else st 310).
Definition st_314 (c : Z) : target action :=
  switch c [46 --> st 230; 48 --> st 315; 53 --> st 316; 58 --> st 255; 93 --> st 236] (
  if (c <? 65) then (
    if (49 <=? c) && (c <=? 57) then st 308
    else st 0)
  else if (70 <? c) then (
    if (97 <=? c) && (c <=? 102) then st 308
    else st 0)
  else st 308).
Definition st_315 (c : Z) : target action :=
  switch c [58 --> st 255; 93 --> st 236] (
  if (c <? 65) then (
    if (48 <=? c) && (c <=? 57) then st 313
    else st 0)
  else if (70 <? c) then (
    if (97 <=? c) && (c <=? 102) then st 309
    else st 0)
  else st 309).
Definition st_316 (c : Z) : target action :=
  switch c [48 --> st 313; 58 --> st 255; 93 --> st 236] (
  if (c <? 65) then (
    if (49 <=? c) && (c <=? 57) then st 309
    else st 0)
  else if (70 <? c) then (
    if (97 <=? c) && (c <=? 102) then st 309
    else st 0)
  else st 309).
Definition st_317 (c : Z) : target action :=
  switch c [58 --> st 255; 93 --> st 236] (
  if (c <? 65) then (
    if (48 <=? c) && (c <=? 57) then st 308
    else st 0)
  else if (70 <? c) then (
    if (97 <=? c) && (c <=? 102) then st 308
    else st 0)
  else st 308).
Definition st_318 (c : Z) : target action :=
  switch c [46 --> st 230; 58 --> st 306; 93 --> st 236] (
  if (c <? 65) then (
    if (48 <=? c) && (c <=? 57) then st 319
    else st 0)
  else if (70 <? c) then (
    if (97 <=? c) && (c <=? 102) then st 303
    else st 0)
  else st 303).
Definition st_319 (c : Z) : target action :=
  switch c [46 --> st 230; 58 --> st 306; 93 --> st 236] (
  if (c <? 65) then (
    if (48 <=? c) && (c <=? 57) then st 320
    else st 0)
  else if (70 <? c) then (
    if (97 <=? c) && (c <=? 102) then st 304
    else st 0)
  else st 304).
Definition st_320 (c : Z) : target action :=
  switch c [46 --> st 230; 58 --> st 306; 93 --> st 236] (
  if (c <? 65) then (
    if (48 <=? c) && (c <=? 57) then st 305
    else st 0)
  else if (70 <? c) then (
    if (97 <=? c) && (c <=? 102) then st 305
    else st 0)
  else st 305).
Definition st_321 (c : Z) : target action :=
  switch c [46 --> st 230; 48 --> st 322; 53 --> st 323; 58 --> st 306; 93 --> st 236] (
  if (c <? 65) then (
    if (49 <=? c) && (c <=? 57) then st 303
    else st 0)
  else if (70 <? c) then (
    if (97 <=? c) && (c <=? 102) then st 303
    else st 0)
  else st 303).
Definition st_322 (c : Z) : target action :=
  switch c [58 --> st 306; 93 --> st 236] (
  if (c <? 65) then (
    if (48 <=? c) && (c <=? 57) then st 320
    else st 0)
  else if (70 <? c) then (
    if (97 <=? c) && (c <=? 102) then st 304
    else st 0)
  else st 304).
Definition st_323 (c : Z) : target action :=
  switch c [48 --> st 320; 58 --> st 306; 93 --> st 236] (
  if (c <? 65) then (
    if (49 <=? c) && (c <=? 57) then st 304
    else st 0)
  else if (70 <? c) then (
    if (97 <=? c) && (c <=? 102) then st 304
    else st 0)
  else st 304).
Definition st_324 (c : Z) : target action :=
  switch c [58 --> st 306; 93 --> st 236] (
  if (c <? 65) then (
    if (48 <=? c) && (c <=? 57) then st 303
    else st 0)
  else if (70 <? c) then (
    if (97 <=? c) && (c <=? 102) then st 303
    else st 0)
  else st 303).
Definition st_325 (c : Z) : target action :=
  switch c [49 --> st 318; 50 --> st 321] (
  if (c <? 48) then (
    if (2 <=? c) && (c <=? 3) then st 223
    else st 0)
  else if (57 <? c) then (
    if (70 <? c) then (
      if (97 <=? c) && (c <=? 102) then st 324
      else st 0)
    else if (65 <=? c) then st 324
    else st 0)
  else st 302).
Definition st_326 (c : Z) : target action :=
  switch c [49 --> st 331; 50 --> st 334] (
  if (c <? 48) then (
    if (2 <=? c) && (c <=? 3) then st 223
    else st 0)
  else if (57 <? c) then (
    if (70 <? c) then (
      if (97 <=? c) && (c <=? 102) then st 337
      else st 0)
    else if (65 <=? c) then st 337
    else st 0)
  else st 327).
Definition st_327 (c : Z) : target action :=
  switch c [46 --> st 230; 58 --> st 306] (
  if (c <? 65) then (
    if (48 <=? c) && (c <=? 57) then st 328
    else st 0)
  else if (70 <? c) then (
    if (97 <=? c) && (c <=? 102) then st 328
    else st 0)
  else st 328).
Definition st_328 (c : Z) : target action :=
  if (c =? 58) then st 306
  else if (c <? 65) then (
    if (48 <=? c) && (c <=? 57) then st 329
    else st 0)
  else if (70 <? c) then (
    if (97 <=? c) && (c <=? 102) then st 329
    else st 0)
  else st 329.
Definition st_329 (c : Z) : target action :=
  if (c =? 58) then st 306
  else if (c <? 65) then (
    if (48 <=? c) && (c <=? 57) then st 330
    else st 0)
  else if (70 <? c) then (
    if (97 <=? c) && (c <=? 102) then st 330
    else st 0)
  else st 330.
Definition st_330 (c : Z) : target action :=
  if (c =? 58) then st 306
  else st 0.
Definition st_331 (c : Z) : target action :=
  switch c [46 --> st 230; 58 --> st 306] (
  if (c <? 65) then (
    if (48 <=? c) && (c <=? 57) then st 332
    else st 0)
  else if (70 <? c) then (
    if (97 <=? c) && (c <=? 102) then st 328
    else st 0)
  else st 328).
Definition st_332 (c : Z) : target action :=
  switch c [46 --> st 230; 58 --> st 306] (
  if (c <? 65) then (
    if (48 <=? c) && (c <=? 57) then st 333
    else st 0)
  else if (70 <? c) then (
    if (97 <=? c) && (c <=? 102) then st 329
    else st 0)
  else st 329).
Definition st_333 (c : Z) : target action :=
  switch c [46 --> st 230; 58 --> st 306] (
  if (c <? 65) then (
    if (48 <=? c) && (c <=? 57) then st 330
    else st 0)
  else if (70 <? c) then (
    if (97 <=? c) && (c <=? 102) then st 330
    else st 0)
  else st 330).
Definition st_334 (c : Z) : target action :=
  switch c [46 --> st 230; 48 --> st 335; 53 --> st 336; 58 --> st 306] (
  if (c <? 65) then (
    if (49 <=? c) && (c <=? 57) then st 328
    else st 0)
  else if (70 <? c) then (
    if (97 <=? c) && (c <=? 102) then st 328
    else st 0)
  else st 328).
Definition st_335 (c : Z) : target action :=
  if (c =? 58) then st 306
  else if (c <? 65) then (
    if (48 <=? c) && (c <=? 57) then st 333
    else st 0)
  else if (70 <? c) then (
    if (97 <=? c) && (c <=? 102) then st 329
    else st 0)
  else st 329.
Definition st_336 (c : Z) : target action :=
  switch c [48 --> st 333; 58 --> st 306] (
  if (c <? 65) then (
    if (49 <=? c) && (c <=? 57) then st 329
    else st 0)
  else if (70 <? c) then (
    if (97 <=? c) && (c <=? 102) then st 329
    else st 0)
  else st 329).
Definition st_337 (c : Z) : target action :=
  if (c =? 58) then st 306
  else if (c <? 65) then (
    if (48 <=? c) && (c <=? 57) then st 328
    else st 0)
  else if (70 <? c) then (
    if (97 <=? c) && (c <=? 102) then st 328
    else st 0)
  else st 328.
Definition st_338 (c : Z) : target action :=
  if (c <? 48) then (
    if (2 <=? c) && (c <=? 3) then st 223
    else st 0)
  else if (57 <? c) then (
    if (70 <? c) then (
      if (97 <=? c) && (c <=? 102) then st 224
      else st 0)
    else if (65 <=? c) then st 224
    else st 0)
  else st 224.
Definition st_339 (c : Z) : target action :=
  if (2 <=? c) && (c <=? 3) then st 223
  else st 0.
Definition st_340 (c : Z) : target action :=
  if (c =? 3) then st 223
  else st 0.
Definition st_341 (c : Z) : target action :=
  if (c =? 4) then st 223
  else st 0.
Definition st_342 (c : Z) : target action :=
  if (c =? 58) then st 343
  else st 0.
Definition st_343 (c : Z) : target action :=
  switch c [49 --> st 318; 50 --> st 321; 93 --> st 236] (
  if (c <? 48) then (
    if (2 <=? c) && (c <=? 5) then st 223
    else st 0)
  else if (57 <? c) then (
    if (70 <? c) then (
      if (97 <=? c) && (c <=? 102) then st 324
      else st 0)
    else if (65 <=? c) then st 324
    else st 0)
  else st 302).
Definition st_344 (c : Z) : target action :=
  if (c <? 65) then (
    if (48 <=? c) && (c <=? 57) then st 345
    else st 0)
  else if (70 <? c) then (
    if (97 <=? c) && (c <=? 102) then st 345
    else st 0)
  else st 345.
Definition st_345 (c : Z) : target action :=
  if (c =? 46) then st 346
  else if (c <? 65) then (
    if (48 <=? c) && (c <=? 57) then st 345
    else st 0)
  else if (70 <? c) then (
    if (97 <=? c) && (c <=? 102) then st 345
    else st 0)
  else st 345.
Definition st_346 (relaxed : bool) (c : Z) : target action :=
  let w := (if (c <? 123) then (if (94 <=? c) && (c <=? 94) then relax relaxed (widen c) else c) else (if (123 <? c) then (if (125 <=? c) && (c <=? 125) then relax relaxed (widen c) else c) else relax relaxed (widen c))) in
  switch w [33 --> st 347; 36 --> st 347; 61 --> st 347; 95 --> st 347; 126 --> st 347;
    606 --> st 347; 635 --> st 347; 637 --> st 347] (
  if (w <? 48) then (
    if (38 <=? w) && (w <=? 46) then st 347
    else st 0)
  else if (59 <? w) then (
    if (90 <? w) then (
      if (97 <=? w) && (w <=? 122) then st 347
      else st 0)
    else if (65 <=? w) then st 347
    else st 0)
  else st 347).
Definition st_347 (relaxed : bool) (c : Z) : target action :=
  let w := (if (c <? 123) then (if (94 <=? c) && (c <=? 94) then relax relaxed (widen c) else c) else (if (123 <? c) then (if (125 <=? c) && (c <=? 125) then relax relaxed (widen c) else c) else relax relaxed (widen c))) in
  switch w [33 --> st 347; 36 --> st 347; 61 --> st 347; 93 --> st 236; 95 --> st 347;
    126 --> st 347; 606 --> st 347; 635 --> st 347; 637 --> st 347] (
  if (w <? 48) then (
    if (38 <=? w) && (w <=? 46) then st 347
    else st 0)
  else if (59 <? w) then (
    if (90 <? w) then (
      if (97 <=? w) && (w <=? 122) then st 347
      else st 0)
    else if (65 <=? w) then st 347
    else st 0)
  else st 347).
Definition st_348 (c : Z) : target action :=
  switch c [33 --> st 14; 58 --> tr_27; 124 --> st 14; 126 --> st 14] (
  if (c <? 42) then (
    if (c <? 10) then (
      if (1 <=? c) && (c <=? 8) then st 14
      else st 0)
    else if (31 <? c) then (
      if (35 <=? c) && (c <=? 39) then st 14
      else st 0)
    else st 14)
  else if (43 <? c) then (
    if (c <? 48) then (
      if (45 <=? c) && (c <=? 46) then st 14
      else st 0)
    else if (57 <? c) then (
      if (90 <? c) then (
        if (94 <=? c) && (c <=? 122) then st 14
        else st 0)
      else if (65 <=? c) then st 14
      else st 0)
    else st 14)
  else st 14).
Definition st_349 (c : Z) : target action :=
  st 0.

(** The dispatch [switch(cs)]: the cases are numbered from 1. *)
Definition states (relaxed : bool) : list (Z → target action) := [
  st_1; st_2; st_3 relaxed; st_4; st_5; st_6; st_7; st_8; st_9; st_10; st_11; st_12; st_13;
  st_14; st_15; st_16; st_17; st_18; st_19 relaxed; st_20 relaxed; st_21 relaxed; st_22; st_23;
  st_24; st_25; st_26 relaxed; st_27; st_28; st_29 relaxed; st_30 relaxed; st_31; st_32;
  st_33 relaxed; st_34 relaxed; st_35 relaxed; st_36; st_37; st_38 relaxed; st_39 relaxed; st_40;
  st_41; st_42 relaxed; st_43 relaxed; st_44; st_45; st_46; st_47; st_48; st_49; st_50; st_51;
  st_52; st_53; st_54; st_55; st_56; st_57; st_58; st_59; st_60; st_61; st_62; st_63; st_64;
  st_65; st_66; st_67; st_68; st_69; st_70; st_71; st_72; st_73; st_74; st_75; st_76; st_77;
  st_78; st_79; st_80; st_81; st_82; st_83; st_84; st_85; st_86; st_87; st_88; st_89; st_90;
  st_91; st_92; st_93; st_94; st_95; st_96; st_97; st_98; st_99; st_100; st_101; st_102; st_103;
  st_104; st_105; st_106; st_107; st_108; st_109; st_110; st_111; st_112; st_113; st_114; st_115;
  st_116; st_117; st_118; st_119; st_120; st_121; st_122; st_123; st_124; st_125; st_126; st_127;
  st_128; st_129; st_130; st_131; st_132; st_133; st_134; st_135; st_136; st_137; st_138; st_139;
  st_140; st_141; st_142; st_143; st_144; st_145; st_146; st_147; st_148; st_149; st_150; st_151;
  st_152; st_153; st_154; st_155; st_156; st_157; st_158; st_159; st_160; st_161; st_162; st_163;
  st_164; st_165; st_166; st_167; st_168; st_169; st_170; st_171 relaxed; st_172 relaxed;
  st_173 relaxed; st_174 relaxed; st_175; st_176; st_177; st_178; st_179; st_180; st_181; st_182;
  st_183; st_184; st_185; st_186; st_187; st_188; st_189; st_190; st_191; st_192; st_193; st_194;
  st_195; st_196; st_197; st_198 relaxed; st_199; st_200; st_201; st_202 relaxed; st_203; st_204;
  st_205 relaxed; st_206; st_207; st_208 relaxed; st_209 relaxed; st_210 relaxed; st_211; st_212;
  st_213 relaxed; st_214 relaxed; st_215; st_216; st_217 relaxed; st_218 relaxed; st_219; st_220;
  st_221; st_222; st_223; st_224; st_225; st_226; st_227; st_228; st_229; st_230; st_231; st_232;
  st_233; st_234; st_235; st_236; st_237; st_238; st_239; st_240; st_241; st_242; st_243; st_244;
  st_245; st_246; st_247; st_248; st_249; st_250; st_251; st_252; st_253; st_254; st_255; st_256;
  st_257; st_258; st_259; st_260; st_261; st_262; st_263; st_264; st_265; st_266; st_267; st_268;
  st_269; st_270; st_271; st_272; st_273; st_274; st_275; st_276; st_277; st_278; st_279; st_280;
  st_281; st_282; st_283; st_284; st_285; st_286; st_287; st_288; st_289; st_290; st_291; st_292;
  st_293; st_294; st_295; st_296; st_297; st_298; st_299; st_300; st_301; st_302; st_303; st_304;
  st_305; st_306; st_307; st_308; st_309; st_310; st_311; st_312; st_313; st_314; st_315; st_316;
  st_317; st_318; st_319; st_320; st_321; st_322; st_323; st_324; st_325; st_326; st_327; st_328;
  st_329; st_330; st_331; st_332; st_333; st_334; st_335; st_336; st_337; st_338; st_339; st_340;
  st_341; st_342; st_343; st_344; st_345; st_346 relaxed; st_347 relaxed; st_348; st_349].
Definition block (relaxed : bool) (cs : Z) : option (Z → target action) :=
  if cs <? 1 then None else states relaxed !! Z.to_nat (cs - 1).
