(* ===== verification/HttpClientStates.v ===== *)
(** * HttpClientStates: the state blocks of the response parser
    ([include/http/httpclient_parser.rl.cc])

    One definition per label, in the notation of Ragel.v; the control flow and
    the actions are in HttpClientParser. *)
From S2P Require Import Prelude Ragel.

(** The actions of the grammar [httpclient_parser.rl]. *)
Inductive action :=
  | mark | start_field | write_field | start_value | write_content_len
  | write_connection_close | write_value | reason_phrase | status_code
  | http_version | chunk_size | trans_chunked | done.
#[export] Instance action_eq_dec : EqDecision action.
Proof. solve_decision. Defined.

(** ** The labels [trN] *)
Definition tr_0 : target action := ([mark], 2).
Definition tr_2 : target action := ([mark], 8).
Definition tr_3 : target action := ([chunk_size; done], 120).
Definition tr_4 : target action := ([chunk_size], 3).
Definition tr_6 : target action := ([chunk_size], 4).
Definition tr_7 : target action := ([done], 120).
Definition tr_8 : target action := ([start_field], 5).
Definition tr_9 : target action := ([write_field; start_value; write_value; done], 120).
Definition tr_10 : target action := ([write_field; start_value; write_value], 3).
Definition tr_12 : target action := ([write_field; start_value; write_value], 4).
Definition tr_13 : target action := ([write_field; start_value], 6).
Definition tr_14 : target action := ([start_value], 7).
Definition tr_15 : target action := ([write_value; done], 120).
Definition tr_16 : target action := ([write_value], 3).
Definition tr_18 : target action := ([write_value], 4).
Definition tr_26 : target action := ([http_version], 16).
Definition tr_27 : target action := ([mark], 17).
Definition tr_28 : target action := ([status_code], 18).
Definition tr_30 : target action := ([mark], 19).
Definition tr_32 : target action := ([reason_phrase], 20).
Definition tr_33 : target action := ([reason_phrase], 24).
Definition tr_35 : target action := ([start_field], 21).
Definition tr_36 : target action := ([start_field], 25).
Definition tr_37 : target action := ([start_field], 44).
Definition tr_39 : target action := ([write_field], 22).
Definition tr_40 : target action := ([start_value], 23).
Definition tr_41 : target action := ([start_value], 22).
Definition tr_42 : target action := ([start_value; write_value], 20).
Definition tr_43 : target action := ([start_value; write_value], 24).
Definition tr_45 : target action := ([write_value], 20).
Definition tr_46 : target action := ([write_value], 24).
Definition tr_58 : target action := ([write_field], 35).
Definition tr_59 : target action := ([start_value], 35).
Definition tr_60 : target action := ([start_value; write_value], 36).
Definition tr_61 : target action := ([start_value; write_value], 95).
Definition tr_62 : target action := ([start_value], 96).
Definition tr_64 : target action := ([done], 122).
Definition tr_66 : target action := ([start_field], 90).
Definition tr_74 : target action := ([write_connection_close; done], 120).
Definition tr_75 : target action := ([write_connection_close], 3).
Definition tr_76 : target action := ([write_connection_close; start_field], 21).
Definition tr_77 : target action := ([write_connection_close; start_field], 25).
Definition tr_78 : target action := ([write_connection_close; start_field], 44).
Definition tr_95 : target action := ([write_field], 61).
Definition tr_96 : target action := ([start_value], 61).
Definition tr_97 : target action := ([start_value; write_value], 62).
Definition tr_98 : target action := ([start_value; write_value], 80).
Definition tr_99 : target action := ([start_value], 81).
Definition tr_101 : target action := ([done], 121).
Definition tr_103 : target action := ([start_value; start_field], 73).
Definition tr_104 : target action := ([start_value], 64).
Definition tr_111 : target action := ([write_value; trans_chunked], 20).
Definition tr_112 : target action := ([write_value], 71).
Definition tr_113 : target action := ([trans_chunked], 20).
Definition tr_136 : target action := ([write_value], 43).
Definition tr_137 : target action := ([write_value], 88).
Definition tr_148 : target action := ([write_field], 112).
Definition tr_149 : target action := ([start_value], 112).
Definition tr_150 : target action := ([start_value; write_value], 113).
Definition tr_151 : target action := ([start_value; write_value], 118).
Definition tr_152 : target action := ([start_value], 119).
Definition tr_154 : target action := ([done], 123).
Definition tr_156 : target action := ([start_value; start_field], 117).
Definition tr_157 : target action := ([start_value], 115).
Definition tr_158 : target action := ([write_content_len; write_value], 20).
Definition tr_159 : target action := ([write_content_len; write_value], 24).

(** ** The blocks [case n:] *)
Definition st_1 (c : Z) : target action :=
  if (c =? 72) then tr_2
  else if (c <? 65) then (
    if (48 <=? c) && (c <=? 57) then tr_0
    else st 0)
  else if (70 <? c) then (
    if (97 <=? c) && (c <=? 102) then tr_0
    else st 0)
  else tr_0.
Definition st_2 (c : Z) : target action :=
  switch c [10 --> tr_3; 13 --> tr_4; 59 --> tr_6] (
  if (c <? 65) then (
    if (48 <=? c) && (c <=? 57) then st 2
    else st 0)
  else if (70 <? c) then (
    if (97 <=? c) && (c <=? 102) then st 2
    else st 0)
  else st 2).
Definition st_3 (c : Z) : target action :=
  if (c =? 10) then tr_7
  else st 0.
Definition st_4 (c : Z) : target action :=
  switch c [33 --> tr_8; 124 --> tr_8; 126 --> tr_8] (
  if (c <? 45) then (
    if (39 <? c) then (
      if (42 <=? c) && (c <=? 43) then tr_8
      else st 0)
    else if (35 <=? c) then tr_8
    else st 0)
  else if (46 <? c) then (
    if (c <? 65) then (
      if (48 <=? c) && (c <=? 57) then tr_8
      else st 0)
    else if (90 <? c) then (
      if (94 <=? c) && (c <=? 122) then tr_8
      else st 0)
    else tr_8)
  else tr_8).
Definition st_5 (c : Z) : target action :=
  switch c [10 --> tr_9; 13 --> tr_10; 33 --> st 5; 59 --> tr_12; 61 --> tr_13; 124 --> st 5;
    126 --> st 5] (
  if (c <? 45) then (
    if (39 <? c) then (
      if (42 <=? c) && (c <=? 43) then st 5
      else st 0)
    else if (35 <=? c) then st 5
    else st 0)
  else if (46 <? c) then (
    if (c <? 65) then (
      if (48 <=? c) && (c <=? 57) then st 5
      else st 0)
    else if (90 <? c) then (
      if (94 <=? c) && (c <=? 122) then st 5
      else st 0)
    else st 5)
  else st 5).
Definition st_6 (c : Z) : target action :=
  switch c [33 --> tr_14; 124 --> tr_14; 126 --> tr_14] (
  if (c <? 45) then (
    if (39 <? c) then (
      if (42 <=? c) && (c <=? 43) then tr_14
      else st 0)
    else if (35 <=? c) then tr_14
    else st 0)
  else if (46 <? c) then (
    if (c <? 65) then (
      if (48 <=? c) && (c <=? 57) then tr_14
      else st 0)
    else if (90 <? c) then (
      if (94 <=? c) && (c <=? 122) then tr_14
      else st 0)
    else tr_14)
  else tr_14).
Definition st_7 (c : Z) : target action :=
  switch c [10 --> tr_15; 13 --> tr_16; 33 --> st 7; 59 --> tr_18; 124 --> st 7; 126 --> st 7] (
  if (c <? 45) then (
    if (39 <? c) then (
      if (42 <=? c) && (c <=? 43) then st 7
      else st 0)
    else if (35 <=? c) then st 7
    else st 0)
  else if (46 <? c) then (
    if (c <? 65) then (
      if (48 <=? c) && (c <=? 57) then st 7
      else st 0)
    else if (90 <? c) then (
      if (94 <=? c) && (c <=? 122) then st 7
      else st 0)
    else st 7)
  else st 7).
Definition st_8 (c : Z) : target action :=
  if (c =? 84) then st 9
  else st 0.
Definition st_9 (c : Z) : target action :=
  if (c =? 84) then st 10
  else st 0.
Definition st_10 (c : Z) : target action :=
  if (c =? 80) then st 11
  else st 0.
Definition st_11 (c : Z) : target action :=
  if (c =? 47) then st 12
  else st 0.
Definition st_12 (c : Z) : target action :=
  if (48 <=? c) && (c <=? 57) then st 13
  else st 0.
Definition st_13 (c : Z) : target action :=
  if (c =? 46) then st 14
  else if (48 <=? c) && (c <=? 57) then st 13
  else st 0.
Definition st_14 (c : Z) : target action :=
  if (48 <=? c) && (c <=? 57) then st 15
  else st 0.
Definition st_15 (c : Z) : target action :=
  if (c =? 32) then tr_26
  else if (48 <=? c) && (c <=? 57) then st 15
  else st 0.
Definition st_16 (c : Z) : target action :=
  if (48 <=? c) && (c <=? 57) then tr_27
  else st 0.
Definition st_17 (c : Z) : target action :=
  if (c =? 32) then tr_28
  else if (48 <=? c) && (c <=? 57) then st 17
  else st 0.
Definition st_18 (c : Z) : target action :=
  if (c =? 10) then st 0
  else tr_30.
Definition st_19 (c : Z) : target action :=
  switch c [10 --> tr_32; 13 --> tr_33] (
  st 19).
Definition st_20 (c : Z) : target action :=
  switch c [10 --> tr_7; 13 --> st 3; 33 --> tr_35; 67 --> tr_36; 84 --> tr_37; 99 --> tr_36;
    116 --> tr_37; 124 --> tr_35; 126 --> tr_35] (
  if (c <? 45) then (
    if (39 <? c) then (
      if (42 <=? c) && (c <=? 43) then tr_35
      else st 0)
    else if (35 <=? c) then tr_35
    else st 0)
  else if (46 <? c) then (
    if (c <? 65) then (
      if (48 <=? c) && (c <=? 57) then tr_35
      else st 0)
    else if (90 <? c) then (
      if (94 <=? c) && (c <=? 122) then tr_35
      else st 0)
    else tr_35)
  else tr_35).
Definition st_21 (c : Z) : target action :=
  switch c [33 --> st 21; 58 --> tr_39; 124 --> st 21; 126 --> st 21] (
  if (c <? 45) then (
    if (39 <? c) then (
      if (42 <=? c) && (c <=? 43) then st 21
      else st 0)
    else if (35 <=? c) then st 21
    else st 0)
  else if (46 <? c) then (
    if (c <? 65) then (
      if (48 <=? c) && (c <=? 57) then st 21
      else st 0)
    else if (90 <? c) then (
      if (94 <=? c) && (c <=? 122) then st 21
      else st 0)
    else st 21)
  else st 21).
Definition st_22 (c : Z) : target action :=
  switch c [10 --> tr_42; 13 --> tr_43; 32 --> tr_41] (
  if (9 <=? c) && (c <=? 12) then tr_41
  else tr_40).
Definition st_23 (c : Z) : target action :=
  switch c [10 --> tr_45; 13 --> tr_46] (
  st 23).
Definition st_24 (c : Z) : target action :=
  if (c =? 10) then st 20
  else st 0.
Definition st_25 (c : Z) : target action :=
  switch c [33 --> st 21; 58 --> tr_39; 79 --> st 26; 111 --> st 26; 124 --> st 21; 126 --> st 21] (
  if (c <? 45) then (
    if (39 <? c) then (
      if (42 <=? c) && (c <=? 43) then st 21
      else st 0)
    else if (35 <=? c) then st 21
    else st 0)
  else if (46 <? c) then (
    if (c <? 65) then (
      if (48 <=? c) && (c <=? 57) then st 21
      else st 0)
    else if (90 <? c) then (
      if (94 <=? c) && (c <=? 122) then st 21
      else st 0)
    else st 21)
  else st 21).
Definition st_26 (c : Z) : target action :=
  switch c [33 --> st 21; 58 --> tr_39; 78 --> st 27; 110 --> st 27; 124 --> st 21; 126 --> st 21] (
  if (c <? 45) then (
    if (39 <? c) then (
      if (42 <=? c) && (c <=? 43) then st 21
      else st 0)
    else if (35 <=? c) then st 21
    else st 0)
  else if (46 <? c) then (
    if (c <? 65) then (
      if (48 <=? c) && (c <=? 57) then st 21
      else st 0)
    else if (90 <? c) then (
      if (94 <=? c) && (c <=? 122) then st 21
      else st 0)
    else st 21)
  else st 21).
Definition st_27 (c : Z) : target action :=
  switch c [33 --> st 21; 58 --> tr_39; 78 --> st 28; 84 --> st 101; 110 --> st 28;
    116 --> st 101; 124 --> st 21; 126 --> st 21] (
  if (c <? 45) then (
    if (39 <? c) then (
      if (42 <=? c) && (c <=? 43) then st 21
      else st 0)
    else if (35 <=? c) then st 21
    else st 0)
  else if (46 <? c) then (
    if (c <? 65) then (
      if (48 <=? c) && (c <=? 57) then st 21
      else st 0)
    else if (90 <? c) then (
      if (94 <=? c) && (c <=? 122) then st 21
      else st 0)
    else st 21)
  else st 21).
Definition st_28 (c : Z) : target action :=
  switch c [33 --> st 21; 58 --> tr_39; 69 --> st 29; 101 --> st 29; 124 --> st 21; 126 --> st 21] (
  if (c <? 45) then (
    if (39 <? c) then (
      if (42 <=? c) && (c <=? 43) then st 21
      else st 0)
    else if (35 <=? c) then st 21
    else st 0)
  else if (46 <? c) then (
    if (c <? 65) then (
      if (48 <=? c) && (c <=? 57) then st 21
      else st 0)
    else if (90 <? c) then (
      if (94 <=? c) && (c <=? 122) then st 21
      else st 0)
    else st 21)
  else st 21).
Definition st_29 (c : Z) : target action :=
  switch c [33 --> st 21; 58 --> tr_39; 67 --> st 30; 99 --> st 30; 124 --> st 21; 126 --> st 21] (
  if (c <? 45) then (
    if (39 <? c) then (
      if (42 <=? c) && (c <=? 43) then st 21
      else st 0)
    else if (35 <=? c) then st 21
    else st 0)
  else if (46 <? c) then (
    if (c <? 65) then (
      if (48 <=? c) && (c <=? 57) then st 21
      else st 0)
    else if (90 <? c) then (
      if (94 <=? c) && (c <=? 122) then st 21
      else st 0)
    else st 21)
  else st 21).
Definition st_30 (c : Z) : target action :=
  switch c [33 --> st 21; 58 --> tr_39; 84 --> st 31; 116 --> st 31; 124 --> st 21; 126 --> st 21] (
  if (c <? 45) then (
    if (39 <? c) then (
      if (42 <=? c) && (c <=? 43) then st 21
      else st 0)
    else if (35 <=? c) then st 21
    else st 0)
  else if (46 <? c) then (
    if (c <? 65) then (
      if (48 <=? c) && (c <=? 57) then st 21
      else st 0)
    else if (90 <? c) then (
      if (94 <=? c) && (c <=? 122) then st 21
      else st 0)
    else st 21)
  else st 21).
Definition st_31 (c : Z) : target action :=
  switch c [33 --> st 21; 58 --> tr_39; 73 --> st 32; 105 --> st 32; 124 --> st 21; 126 --> st 21] (
  if (c <? 45) then (
    if (39 <? c) then (
      if (42 <=? c) && (c <=? 43) then st 21
      else st 0)
    else if (35 <=? c) then st 21
    else st 0)
  else if (46 <? c) then (
    if (c <? 65) then (
      if (48 <=? c) && (c <=? 57) then st 21
      else st 0)
    else if (90 <? c) then (
      if (94 <=? c) && (c <=? 122) then st 21
      else st 0)
    else st 21)
  else st 21).
Definition st_32 (c : Z) : target action :=
  switch c [33 --> st 21; 58 --> tr_39; 79 --> st 33; 111 --> st 33; 124 --> st 21; 126 --> st 21] (
  if (c <? 45) then (
    if (39 <? c) then (
      if (42 <=? c) && (c <=? 43) then st 21
      else st 0)
    else if (35 <=? c) then st 21
    else st 0)
  else if (46 <? c) then (
    if (c <? 65) then (
      if (48 <=? c) && (c <=? 57) then st 21
      else st 0)
    else if (90 <? c) then (
      if (94 <=? c) && (c <=? 122) then st 21
      else st 0)
    else st 21)
  else st 21).
Definition st_33 (c : Z) : target action :=
  switch c [33 --> st 21; 58 --> tr_39; 78 --> st 34; 110 --> st 34; 124 --> st 21; 126 --> st 21] (
  if (c <? 45) then (
    if (39 <? c) then (
      if (42 <=? c) && (c <=? 43) then st 21
      else st 0)
    else if (35 <=? c) then st 21
    else st 0)
  else if (46 <? c) then (
    if (c <? 65) then (
      if (48 <=? c) && (c <=? 57) then st 21
      else st 0)
    else if (90 <? c) then (
      if (94 <=? c) && (c <=? 122) then st 21
      else st 0)
    else st 21)
  else st 21).
Definition st_34 (c : Z) : target action :=
  switch c [33 --> st 21; 58 --> tr_58; 124 --> st 21; 126 --> st 21] (
  if (c <? 45) then (
    if (39 <? c) then (
      if (42 <=? c) && (c <=? 43) then st 21
      else st 0)
    else if (35 <=? c) then st 21
    else st 0)
  else if (46 <? c) then (
    if (c <? 65) then (
      if (48 <=? c) && (c <=? 57) then st 21
      else st 0)
    else if (90 <? c) then (
      if (94 <=? c) && (c <=? 122) then st 21
      else st 0)
    else st 21)
  else st 21).
Definition st_35 (c : Z) : target action :=
  switch c [10 --> tr_60; 13 --> tr_61; 32 --> tr_59; 67 --> tr_62; 99 --> tr_62] (
  if (9 <=? c) && (c <=? 12) then tr_59
  else tr_40).
Definition st_36 (c : Z) : target action :=
  switch c [10 --> tr_64; 13 --> st 89; 32 --> st 37; 33 --> tr_35; 67 --> tr_66; 84 --> tr_37;
    99 --> tr_66; 116 --> tr_37; 124 --> tr_35; 126 --> tr_35] (
  if (c <? 45) then (
    if (c <? 35) then (
      if (9 <=? c) && (c <=? 12) then st 37
      else st 0)
    else if (39 <? c) then (
      if (42 <=? c) && (c <=? 43) then tr_35
      else st 0)
    else tr_35)
  else if (46 <? c) then (
    if (c <? 65) then (
      if (48 <=? c) && (c <=? 57) then tr_35
      else st 0)
    else if (90 <? c) then (
      if (94 <=? c) && (c <=? 122) then tr_35
      else st 0)
    else tr_35)
  else tr_35).
Definition st_37 (c : Z) : target action :=
  switch c [32 --> st 37; 67 --> st 38; 99 --> st 38] (
  if (9 <=? c) && (c <=? 13) then st 37
  else st 0).
Definition st_38 (c : Z) : target action :=
  switch c [76 --> st 39; 108 --> st 39] (
  st 0).
Definition st_39 (c : Z) : target action :=
  switch c [79 --> st 40; 111 --> st 40] (
  st 0).
Definition st_40 (c : Z) : target action :=
  switch c [83 --> st 41; 115 --> st 41] (
  st 0).
Definition st_41 (c : Z) : target action :=
  switch c [69 --> st 42; 101 --> st 42] (
  st 0).
Definition st_42 (c : Z) : target action :=
  switch c [10 --> st 43; 13 --> st 88] (
  st 0).
Definition st_43 (c : Z) : target action :=
  switch c [10 --> tr_74; 13 --> tr_75; 33 --> tr_76; 67 --> tr_77; 84 --> tr_78; 99 --> tr_77;
    116 --> tr_78; 124 --> tr_76; 126 --> tr_76] (
  if (c <? 45) then (
    if (39 <? c) then (
      if (42 <=? c) && (c <=? 43) then tr_76
      else st 0)
    else if (35 <=? c) then tr_76
    else st 0)
  else if (46 <? c) then (
    if (c <? 65) then (
      if (48 <=? c) && (c <=? 57) then tr_76
      else st 0)
    else if (90 <? c) then (
      if (94 <=? c) && (c <=? 122) then tr_76
      else st 0)
    else tr_76)
  else tr_76).
Definition st_44 (c : Z) : target action :=
  switch c [33 --> st 21; 58 --> tr_39; 82 --> st 45; 114 --> st 45; 124 --> st 21; 126 --> st 21] (
  if (c <? 45) then (
    if (39 <? c) then (
      if (42 <=? c) && (c <=? 43) then st 21
      else st 0)
    else if (35 <=? c) then st 21
    else st 0)
  else if (46 <? c) then (
    if (c <? 65) then (
      if (48 <=? c) && (c <=? 57) then st 21
      else st 0)
    else if (90 <? c) then (
      if (94 <=? c) && (c <=? 122) then st 21
      else st 0)
    else st 21)
  else st 21).
Definition st_45 (c : Z) : target action :=
  switch c [33 --> st 21; 58 --> tr_39; 65 --> st 46; 97 --> st 46; 124 --> st 21; 126 --> st 21] (
  if (c <? 45) then (
    if (39 <? c) then (
      if (42 <=? c) && (c <=? 43) then st 21
      else st 0)
    else if (35 <=? c) then st 21
    else st 0)
  else if (46 <? c) then (
    if (c <? 66) then (
      if (48 <=? c) && (c <=? 57) then st 21
      else st 0)
    else if (90 <? c) then (
      if (94 <=? c) && (c <=? 122) then st 21
      else st 0)
    else st 21)
  else st 21).
Definition st_46 (c : Z) : target action :=
  switch c [33 --> st 21; 58 --> tr_39; 78 --> st 47; 110 --> st 47; 124 --> st 21; 126 --> st 21] (
  if (c <? 45) then (
    if (39 <? c) then (
      if (42 <=? c) && (c <=? 43) then st 21
      else st 0)
    else if (35 <=? c) then st 21
    else st 0)
  else if (46 <? c) then (
    if (c <? 65) then (
      if (48 <=? c) && (c <=? 57) then st 21
      else st 0)
    else if (90 <? c) then (
      if (94 <=? c) && (c <=? 122) then st 21
      else st 0)
    else st 21)
  else st 21).
Definition st_47 (c : Z) : target action :=
  switch c [33 --> st 21; 58 --> tr_39; 83 --> st 48; 115 --> st 48; 124 --> st 21; 126 --> st 21] (
  if (c <? 45) then (
    if (39 <? c) then (
      if (42 <=? c) && (c <=? 43) then st 21
      else st 0)
    else if (35 <=? c) then st 21
    else st 0)
  else if (46 <? c) then (
    if (c <? 65) then (
      if (48 <=? c) && (c <=? 57) then st 21
      else st 0)
    else if (90 <? c) then (
      if (94 <=? c) && (c <=? 122) then st 21
      else st 0)
    else st 21)
  else st 21).
Definition st_48 (c : Z) : target action :=
  switch c [33 --> st 21; 58 --> tr_39; 70 --> st 49; 102 --> st 49; 124 --> st 21; 126 --> st 21] (
  if (c <? 45) then (
    if (39 <? c) then (
      if (42 <=? c) && (c <=? 43) then st 21
      else st 0)
    else if (35 <=? c) then st 21
    else st 0)
  else if (46 <? c) then (
    if (c <? 65) then (
      if (48 <=? c) && (c <=? 57) then st 21
      else st 0)
    else if (90 <? c) then (
      if (94 <=? c) && (c <=? 122) then st 21
      else st 0)
    else st 21)
  else st 21).
Definition st_49 (c : Z) : target action :=
  switch c [33 --> st 21; 58 --> tr_39; 69 --> st 50; 101 --> st 50; 124 --> st 21; 126 --> st 21] (
  if (c <? 45) then (
    if (39 <? c) then (
      if (42 <=? c) && (c <=? 43) then st 21
      else st 0)
    else if (35 <=? c) then st 21
    else st 0)
  else if (46 <? c) then (
    if (c <? 65) then (
      if (48 <=? c) && (c <=? 57) then st 21
      else st 0)
    else if (90 <? c) then (
      if (94 <=? c) && (c <=? 122) then st 21
      else st 0)
    else st 21)
  else st 21).
Definition st_50 (c : Z) : target action :=
  switch c [33 --> st 21; 58 --> tr_39; 82 --> st 51; 114 --> st 51; 124 --> st 21; 126 --> st 21] (
  if (c <? 45) then (
    if (39 <? c) then (
      if (42 <=? c) && (c <=? 43) then st 21
      else st 0)
    else if (35 <=? c) then st 21
    else st 0)
  else if (46 <? c) then (
    if (c <? 65) then (
      if (48 <=? c) && (c <=? 57) then st 21
      else st 0)
    else if (90 <? c) then (
      if (94 <=? c) && (c <=? 122) then st 21
      else st 0)
    else st 21)
  else st 21).
Definition st_51 (c : Z) : target action :=
  switch c [33 --> st 21; 45 --> st 52; 46 --> st 21; 58 --> tr_39; 124 --> st 21; 126 --> st 21] (
  if (c <? 48) then (
    if (39 <? c) then (
      if (42 <=? c) && (c <=? 43) then st 21
      else st 0)
    else if (35 <=? c) then st 21
    else st 0)
  else if (57 <? c) then (
    if (90 <? c) then (
      if (94 <=? c) && (c <=? 122) then st 21
      else st 0)
    else if (65 <=? c) then st 21
    else st 0)
  else st 21).
Definition st_52 (c : Z) : target action :=
  switch c [33 --> st 21; 58 --> tr_39; 69 --> st 53; 101 --> st 53; 124 --> st 21; 126 --> st 21] (
  if (c <? 45) then (
    if (39 <? c) then (
      if (42 <=? c) && (c <=? 43) then st 21
      else st 0)
    else if (35 <=? c) then st 21
    else st 0)
  else if (46 <? c) then (
    if (c <? 65) then (
      if (48 <=? c) && (c <=? 57) then st 21
      else st 0)
    else if (90 <? c) then (
      if (94 <=? c) && (c <=? 122) then st 21
      else st 0)
    else st 21)
  else st 21).
Definition st_53 (c : Z) : target action :=
  switch c [33 --> st 21; 58 --> tr_39; 78 --> st 54; 110 --> st 54; 124 --> st 21; 126 --> st 21] (
  if (c <? 45) then (
    if (39 <? c) then (
      if (42 <=? c) && (c <=? 43) then st 21
      else st 0)
    else if (35 <=? c) then st 21
    else st 0)
  else if (46 <? c) then (
    if (c <? 65) then (
      if (48 <=? c) && (c <=? 57) then st 21
      else st 0)
    else if (90 <? c) then (
      if (94 <=? c) && (c <=? 122) then st 21
      else st 0)
    else st 21)
  else st 21).
Definition st_54 (c : Z) : target action :=
  switch c [33 --> st 21; 58 --> tr_39; 67 --> st 55; 99 --> st 55; 124 --> st 21; 126 --> st 21] (
  if (c <? 45) then (
    if (39 <? c) then (
      if (42 <=? c) && (c <=? 43) then st 21
      else st 0)
    else if (35 <=? c) then st 21
    else st 0)
  else if (46 <? c) then (
    if (c <? 65) then (
      if (48 <=? c) && (c <=? 57) then st 21
      else st 0)
    else if (90 <? c) then (
      if (94 <=? c) && (c <=? 122) then st 21
      else st 0)
    else st 21)
  else st 21).
Definition st_55 (c : Z) : target action :=
  switch c [33 --> st 21; 58 --> tr_39; 79 --> st 56; 111 --> st 56; 124 --> st 21; 126 --> st 21] (
  if (c <? 45) then (
    if (39 <? c) then (
      if (42 <=? c) && (c <=? 43) then st 21
      else st 0)
    else if (35 <=? c) then st 21
    else st 0)
  else if (46 <? c) then (
    if (c <? 65) then (
      if (48 <=? c) && (c <=? 57) then st 21
      else st 0)
    else if (90 <? c) then (
      if (94 <=? c) && (c <=? 122) then st 21
      else st 0)
    else st 21)
  else st 21).
Definition st_56 (c : Z) : target action :=
  switch c [33 --> st 21; 58 --> tr_39; 68 --> st 57; 100 --> st 57; 124 --> st 21; 126 --> st 21] (
  if (c <? 45) then (
    if (39 <? c) then (
      if (42 <=? c) && (c <=? 43) then st 21
      else st 0)
    else if (35 <=? c) then st 21
    else st 0)
  else if (46 <? c) then (
    if (c <? 65) then (
      if (48 <=? c) && (c <=? 57) then st 21
      else st 0)
    else if (90 <? c) then (
      if (94 <=? c) && (c <=? 122) then st 21
      else st 0)
    else st 21)
  else st 21).
Definition st_57 (c : Z) : target action :=
  switch c [33 --> st 21; 58 --> tr_39; 73 --> st 58; 105 --> st 58; 124 --> st 21; 126 --> st 21] (
  if (c <? 45) then (
    if (39 <? c) then (
      if (42 <=? c) && (c <=? 43) then st 21
      else st 0)
    else if (35 <=? c) then st 21
    else st 0)
  else if (46 <? c) then (
    if (c <? 65) then (
      if (48 <=? c) && (c <=? 57) then st 21
      else st 0)
    else if (90 <? c) then (
      if (94 <=? c) && (c <=? 122) then st 21
      else st 0)
    else st 21)
  else st 21).
Definition st_58 (c : Z) : target action :=
  switch c [33 --> st 21; 58 --> tr_39; 78 --> st 59; 110 --> st 59; 124 --> st 21; 126 --> st 21] (
  if (c <? 45) then (
    if (39 <? c) then (
      if (42 <=? c) && (c <=? 43) then st 21
      else st 0)
    else if (35 <=? c) then st 21
    else st 0)
  else if (46 <? c) then (
    if (c <? 65) then (
      if (48 <=? c) && (c <=? 57) then st 21
      else st 0)
    else if (90 <? c) then (
      if (94 <=? c) && (c <=? 122) then st 21
      else st 0)
    else st 21)
  else st 21).
Definition st_59 (c : Z) : target action :=
  switch c [33 --> st 21; 58 --> tr_39; 71 --> st 60; 103 --> st 60; 124 --> st 21; 126 --> st 21] (
  if (c <? 45) then (
    if (39 <? c) then (
      if (42 <=? c) && (c <=? 43) then st 21
      else st 0)
    else if (35 <=? c) then st 21
    else st 0)
  else if (46 <? c) then (
    if (c <? 65) then (
      if (48 <=? c) && (c <=? 57) then st 21
      else st 0)
    else if (90 <? c) then (
      if (94 <=? c) && (c <=? 122) then st 21
      else st 0)
    else st 21)
  else st 21).
Definition st_60 (c : Z) : target action :=
  switch c [33 --> st 21; 58 --> tr_95; 124 --> st 21; 126 --> st 21] (
  if (c <? 45) then (
    if (39 <? c) then (
      if (42 <=? c) && (c <=? 43) then st 21
      else st 0)
    else if (35 <=? c) then st 21
    else st 0)
  else if (46 <? c) then (
    if (c <? 65) then (
      if (48 <=? c) && (c <=? 57) then st 21
      else st 0)
    else if (90 <? c) then (
      if (94 <=? c) && (c <=? 122) then st 21
      else st 0)
    else st 21)
  else st 21).
Definition st_61 (c : Z) : target action :=
  switch c [10 --> tr_97; 13 --> tr_98; 32 --> tr_96; 67 --> tr_99; 99 --> tr_99] (
  if (9 <=? c) && (c <=? 12) then tr_96
  else tr_40).
Definition st_62 (c : Z) : target action :=
  switch c [10 --> tr_101; 13 --> st 72; 32 --> st 63; 33 --> tr_35; 67 --> tr_103; 84 --> tr_37;
    99 --> tr_103; 116 --> tr_37; 124 --> tr_35; 126 --> tr_35] (
  if (c <? 45) then (
    if (c <? 35) then (
      if (9 <=? c) && (c <=? 12) then st 63
      else st 0)
    else if (39 <? c) then (
      if (42 <=? c) && (c <=? 43) then tr_35
      else st 0)
    else tr_35)
  else if (46 <? c) then (
    if (c <? 65) then (
      if (48 <=? c) && (c <=? 57) then tr_35
      else st 0)
    else if (90 <? c) then (
      if (94 <=? c) && (c <=? 122) then tr_35
      else st 0)
    else tr_35)
  else tr_35).
Definition st_63 (c : Z) : target action :=
  switch c [32 --> st 63; 67 --> tr_104; 99 --> tr_104] (
  if (9 <=? c) && (c <=? 13) then st 63
  else st 0).
Definition st_64 (c : Z) : target action :=
  switch c [72 --> st 65; 104 --> st 65] (
  st 0).
Definition st_65 (c : Z) : target action :=
  switch c [85 --> st 66; 117 --> st 66] (
  st 0).
Definition st_66 (c : Z) : target action :=
  switch c [78 --> st 67; 110 --> st 67] (
  st 0).
Definition st_67 (c : Z) : target action :=
  switch c [75 --> st 68; 107 --> st 68] (
  st 0).
Definition st_68 (c : Z) : target action :=
  switch c [69 --> st 69; 101 --> st 69] (
  st 0).
Definition st_69 (c : Z) : target action :=
  switch c [68 --> st 70; 100 --> st 70] (
  st 0).
Definition st_70 (c : Z) : target action :=
  switch c [10 --> tr_111; 13 --> tr_112] (
  st 0).
Definition st_71 (c : Z) : target action :=
  if (c =? 10) then tr_113
  else st 0.
Definition st_72 (c : Z) : target action :=
  switch c [10 --> tr_101; 32 --> st 63; 67 --> tr_104; 99 --> tr_104] (
  if (9 <=? c) && (c <=? 13) then st 63
  else st 0).
Definition st_73 (c : Z) : target action :=
  switch c [33 --> st 21; 58 --> tr_39; 72 --> st 74; 79 --> st 26; 104 --> st 74; 111 --> st 26;
    124 --> st 21; 126 --> st 21] (
  if (c <? 45) then (
    if (39 <? c) then (
      if (42 <=? c) && (c <=? 43) then st 21
      else st 0)
    else if (35 <=? c) then st 21
    else st 0)
  else if (46 <? c) then (
    if (c <? 65) then (
      if (48 <=? c) && (c <=? 57) then st 21
      else st 0)
    else if (90 <? c) then (
      if (94 <=? c) && (c <=? 122) then st 21
      else st 0)
    else st 21)
  else st 21).
Definition st_74 (c : Z) : target action :=
  switch c [33 --> st 21; 58 --> tr_39; 85 --> st 75; 117 --> st 75; 124 --> st 21; 126 --> st 21] (
  if (c <? 45) then (
    if (39 <? c) then (
      if (42 <=? c) && (c <=? 43) then st 21
      else st 0)
    else if (35 <=? c) then st 21
    else st 0)
  else if (46 <? c) then (
    if (c <? 65) then (
      if (48 <=? c) && (c <=? 57) then st 21
      else st 0)
    else if (90 <? c) then (
      if (94 <=? c) && (c <=? 122) then st 21
      else st 0)
    else st 21)
  else st 21).
Definition st_75 (c : Z) : target action :=
  switch c [33 --> st 21; 58 --> tr_39; 78 --> st 76; 110 --> st 76; 124 --> st 21; 126 --> st 21] (
  if (c <? 45) then (
    if (39 <? c) then (
      if (42 <=? c) && (c <=? 43) then st 21
      else st 0)
    else if (35 <=? c) then st 21
    else st 0)
  else if (46 <? c) then (
    if (c <? 65) then (
      if (48 <=? c) && (c <=? 57) then st 21
      else st 0)
    else if (90 <? c) then (
      if (94 <=? c) && (c <=? 122) then st 21
      else st 0)
    else st 21)
  else st 21).
Definition st_76 (c : Z) : target action :=
  switch c [33 --> st 21; 58 --> tr_39; 75 --> st 77; 107 --> st 77; 124 --> st 21; 126 --> st 21] (
  if (c <? 45) then (
    if (39 <? c) then (
      if (42 <=? c) && (c <=? 43) then st 21
      else st 0)
    else if (35 <=? c) then st 21
    else st 0)
  else if (46 <? c) then (
    if (c <? 65) then (
      if (48 <=? c) && (c <=? 57) then st 21
      else st 0)
    else if (90 <? c) then (
      if (94 <=? c) && (c <=? 122) then st 21
      else st 0)
    else st 21)
  else st 21).
Definition st_77 (c : Z) : target action :=
  switch c [33 --> st 21; 58 --> tr_39; 69 --> st 78; 101 --> st 78; 124 --> st 21; 126 --> st 21] (
  if (c <? 45) then (
    if (39 <? c) then (
      if (42 <=? c) && (c <=? 43) then st 21
      else st 0)
    else if (35 <=? c) then st 21
    else st 0)
  else if (46 <? c) then (
    if (c <? 65) then (
      if (48 <=? c) && (c <=? 57) then st 21
      else st 0)
    else if (90 <? c) then (
      if (94 <=? c) && (c <=? 122) then st 21
      else st 0)
    else st 21)
  else st 21).
Definition st_78 (c : Z) : target action :=
  switch c [33 --> st 21; 58 --> tr_39; 68 --> st 79; 100 --> st 79; 124 --> st 21; 126 --> st 21] (
  if (c <? 45) then (
    if (39 <? c) then (
      if (42 <=? c) && (c <=? 43) then st 21
      else st 0)
    else if (35 <=? c) then st 21
    else st 0)
  else if (46 <? c) then (
    if (c <? 65) then (
      if (48 <=? c) && (c <=? 57) then st 21
      else st 0)
    else if (90 <? c) then (
      if (94 <=? c) && (c <=? 122) then st 21
      else st 0)
    else st 21)
  else st 21).
Definition st_79 (c : Z) : target action :=
  switch c [10 --> tr_111; 13 --> tr_112; 33 --> st 21; 58 --> tr_39; 124 --> st 21; 126 --> st 21] (
  if (c <? 45) then (
    if (39 <? c) then (
      if (42 <=? c) && (c <=? 43) then st 21
      else st 0)
    else if (35 <=? c) then st 21
    else st 0)
  else if (46 <? c) then (
    if (c <? 65) then (
      if (48 <=? c) && (c <=? 57) then st 21
      else st 0)
    else if (90 <? c) then (
      if (94 <=? c) && (c <=? 122) then st 21
      else st 0)
    else st 21)
  else st 21).
Definition st_80 (c : Z) : target action :=
  switch c [10 --> st 62; 32 --> st 63; 67 --> tr_104; 99 --> tr_104] (
  if (9 <=? c) && (c <=? 13) then st 63
  else st 0).
Definition st_81 (c : Z) : target action :=
  switch c [10 --> tr_45; 13 --> tr_46; 72 --> st 82; 104 --> st 82] (
  st 23).
Definition st_82 (c : Z) : target action :=
  switch c [10 --> tr_45; 13 --> tr_46; 85 --> st 83; 117 --> st 83] (
  st 23).
Definition st_83 (c : Z) : target action :=
  switch c [10 --> tr_45; 13 --> tr_46; 78 --> st 84; 110 --> st 84] (
  st 23).
Definition st_84 (c : Z) : target action :=
  switch c [10 --> tr_45; 13 --> tr_46; 75 --> st 85; 107 --> st 85] (
  st 23).
Definition st_85 (c : Z) : target action :=
  switch c [10 --> tr_45; 13 --> tr_46; 69 --> st 86; 101 --> st 86] (
  st 23).
Definition st_86 (c : Z) : target action :=
  switch c [10 --> tr_45; 13 --> tr_46; 68 --> st 87; 100 --> st 87] (
  st 23).
Definition st_87 (c : Z) : target action :=
  switch c [10 --> tr_111; 13 --> tr_112] (
  st 23).
Definition st_88 (c : Z) : target action :=
  if (c =? 10) then st 43
  else st 0.
Definition st_89 (c : Z) : target action :=
  switch c [10 --> tr_64; 32 --> st 37; 67 --> st 38; 99 --> st 38] (
  if (9 <=? c) && (c <=? 13) then st 37
  else st 0).
Definition st_90 (c : Z) : target action :=
  switch c [33 --> st 21; 58 --> tr_39; 76 --> st 91; 79 --> st 26; 108 --> st 91; 111 --> st 26;
    124 --> st 21; 126 --> st 21] (
  if (c <? 45) then (
    if (39 <? c) then (
      if (42 <=? c) && (c <=? 43) then st 21
      else st 0)
    else if (35 <=? c) then st 21
    else st 0)
  else if (46 <? c) then (
    if (c <? 65) then (
      if (48 <=? c) && (c <=? 57) then st 21
      else st 0)
    else if (90 <? c) then (
      if (94 <=? c) && (c <=? 122) then st 21
      else st 0)
    else st 21)
  else st 21).
Definition st_91 (c : Z) : target action :=
  switch c [33 --> st 21; 58 --> tr_39; 79 --> st 92; 111 --> st 92; 124 --> st 21; 126 --> st 21] (
  if (c <? 45) then (
    if (39 <? c) then (
      if (42 <=? c) && (c <=? 43) then st 21
      else st 0)
    else if (35 <=? c) then st 21
    else st 0)
  else if (46 <? c) then (
    if (c <? 65) then (
      if (48 <=? c) && (c <=? 57) then st 21
      else st 0)
    else if (90 <? c) then (
      if (94 <=? c) && (c <=? 122) then st 21
      else st 0)
    else st 21)
  else st 21).
Definition st_92 (c : Z) : target action :=
  switch c [33 --> st 21; 58 --> tr_39; 83 --> st 93; 115 --> st 93; 124 --> st 21; 126 --> st 21] (
  if (c <? 45) then (
    if (39 <? c) then (
      if (42 <=? c) && (c <=? 43) then st 21
      else st 0)
    else if (35 <=? c) then st 21
    else st 0)
  else if (46 <? c) then (
    if (c <? 65) then (
      if (48 <=? c) && (c <=? 57) then st 21
      else st 0)
    else if (90 <? c) then (
      if (94 <=? c) && (c <=? 122) then st 21
      else st 0)
    else st 21)
  else st 21).
Definition st_93 (c : Z) : target action :=
  switch c [33 --> st 21; 58 --> tr_39; 69 --> st 94; 101 --> st 94; 124 --> st 21; 126 --> st 21] (
  if (c <? 45) then (
    if (39 <? c) then (
      if (42 <=? c) && (c <=? 43) then st 21
      else st 0)
    else if (35 <=? c) then st 21
    else st 0)
  else if (46 <? c) then (
    if (c <? 65) then (
      if (48 <=? c) && (c <=? 57) then st 21
      else st 0)
    else if (90 <? c) then (
      if (94 <=? c) && (c <=? 122) then st 21
      else st 0)
    else st 21)
  else st 21).
Definition st_94 (c : Z) : target action :=
  switch c [10 --> st 43; 13 --> st 88; 33 --> st 21; 58 --> tr_39; 124 --> st 21; 126 --> st 21] (
  if (c <? 45) then (
    if (39 <? c) then (
      if (42 <=? c) && (c <=? 43) then st 21
      else st 0)
    else if (35 <=? c) then st 21
    else st 0)
  else if (46 <? c) then (
    if (c <? 65) then (
      if (48 <=? c) && (c <=? 57) then st 21
      else st 0)
    else if (90 <? c) then (
      if (94 <=? c) && (c <=? 122) then st 21
      else st 0)
    else st 21)
  else st 21).
Definition st_95 (c : Z) : target action :=
  switch c [10 --> st 36; 32 --> st 37; 67 --> st 38; 99 --> st 38] (
  if (9 <=? c) && (c <=? 13) then st 37
  else st 0).
Definition st_96 (c : Z) : target action :=
  switch c [10 --> tr_45; 13 --> tr_46; 76 --> st 97; 108 --> st 97] (
  st 23).
Definition st_97 (c : Z) : target action :=
  switch c [10 --> tr_45; 13 --> tr_46; 79 --> st 98; 111 --> st 98] (
  st 23).
Definition st_98 (c : Z) : target action :=
  switch c [10 --> tr_45; 13 --> tr_46; 83 --> st 99; 115 --> st 99] (
  st 23).
Definition st_99 (c : Z) : target action :=
  switch c [10 --> tr_45; 13 --> tr_46; 69 --> st 100; 101 --> st 100] (
  st 23).
Definition st_100 (c : Z) : target action :=
  switch c [10 --> tr_136; 13 --> tr_137] (
  st 23).
Definition st_101 (c : Z) : target action :=
  switch c [33 --> st 21; 58 --> tr_39; 69 --> st 102; 101 --> st 102; 124 --> st 21;
    126 --> st 21] (
  if (c <? 45) then (
    if (39 <? c) then (
      if (42 <=? c) && (c <=? 43) then st 21
      else st 0)
    else if (35 <=? c) then st 21
    else st 0)
  else if (46 <? c) then (
    if (c <? 65) then (
      if (48 <=? c) && (c <=? 57) then st 21
      else st 0)
    else if (90 <? c) then (
      if (94 <=? c) && (c <=? 122) then st 21
      else st 0)
    else st 21)
  else st 21).
Definition st_102 (c : Z) : target action :=
  switch c [33 --> st 21; 58 --> tr_39; 78 --> st 103; 110 --> st 103; 124 --> st 21;
    126 --> st 21] (
  if (c <? 45) then (
    if (39 <? c) then (
      if (42 <=? c) && (c <=? 43) then st 21
      else st 0)
    else if (35 <=? c) then st 21
    else st 0)
  else if (46 <? c) then (
    if (c <? 65) then (
      if (48 <=? c) && (c <=? 57) then st 21
      else st 0)
    else if (90 <? c) then (
      if (94 <=? c) && (c <=? 122) then st 21
      else st 0)
    else st 21)
  else st 21).
Definition st_103 (c : Z) : target action :=
  switch c [33 --> st 21; 58 --> tr_39; 84 --> st 104; 116 --> st 104; 124 --> st 21;
    126 --> st 21] (
  if (c <? 45) then (
    if (39 <? c) then (
      if (42 <=? c) && (c <=? 43) then st 21
      else st 0)
    else if (35 <=? c) then st 21
    else st 0)
  else if (46 <? c) then (
    if (c <? 65) then (
      if (48 <=? c) && (c <=? 57) then st 21
      else st 0)
    else if (90 <? c) then (
      if (94 <=? c) && (c <=? 122) then st 21
      else st 0)
    else st 21)
  else st 21).
Definition st_104 (c : Z) : target action :=
  switch c [33 --> st 21; 45 --> st 105; 46 --> st 21; 58 --> tr_39; 124 --> st 21; 126 --> st 21] (
  if (c <? 48) then (
    if (39 <? c) then (
      if (42 <=? c) && (c <=? 43) then st 21
      else st 0)
    else if (35 <=? c) then st 21
    else st 0)
  else if (57 <? c) then (
    if (90 <? c) then (
      if (94 <=? c) && (c <=? 122) then st 21
      else st 0)
    else if (65 <=? c) then st 21
    else st 0)
  else st 21).
Definition st_105 (c : Z) : target action :=
  switch c [33 --> st 21; 58 --> tr_39; 76 --> st 106; 108 --> st 106; 124 --> st 21;
    126 --> st 21] (
  if (c <? 45) then (
    if (39 <? c) then (
      if (42 <=? c) && (c <=? 43) then st 21
      else st 0)
    else if (35 <=? c) then st 21
    else st 0)
  else if (46 <? c) then (
    if (c <? 65) then (
      if (48 <=? c) && (c <=? 57) then st 21
      else st 0)
    else if (90 <? c) then (
      if (94 <=? c) && (c <=? 122) then st 21
      else st 0)
    else st 21)
  else st 21).
Definition st_106 (c : Z) : target action :=
  switch c [33 --> st 21; 58 --> tr_39; 69 --> st 107; 101 --> st 107; 124 --> st 21;
    126 --> st 21] (
  if (c <? 45) then (
    if (39 <? c) then (
      if (42 <=? c) && (c <=? 43) then st 21
      else st 0)
    else if (35 <=? c) then st 21
    else st 0)
  else if (46 <? c) then (
    if (c <? 65) then (
      if (48 <=? c) && (c <=? 57) then st 21
      else st 0)
    else if (90 <? c) then (
      if (94 <=? c) && (c <=? 122) then st 21
      else st 0)
    else st 21)
  else st 21).
Definition st_107 (c : Z) : target action :=
  switch c [33 --> st 21; 58 --> tr_39; 78 --> st 108; 110 --> st 108; 124 --> st 21;
    126 --> st 21] (
  if (c <? 45) then (
    if (39 <? c) then (
      if (42 <=? c) && (c <=? 43) then st 21
      else st 0)
    else if (35 <=? c) then st 21
    else st 0)
  else if (46 <? c) then (
    if (c <? 65) then (
      if (48 <=? c) && (c <=? 57) then st 21
      else st 0)
    else if (90 <? c) then (
      if (94 <=? c) && (c <=? 122) then st 21
      else st 0)
    else st 21)
  else st 21).
Definition st_108 (c : Z) : target action :=
  switch c [33 --> st 21; 58 --> tr_39; 71 --> st 109; 103 --> st 109; 124 --> st 21;
    126 --> st 21] (
  if (c <? 45) then (
    if (39 <? c) then (
      if (42 <=? c) && (c <=? 43) then st 21
      else st 0)
    else if (35 <=? c) then st 21
    else st 0)
  else if (46 <? c) then (
    if (c <? 65) then (
      if (48 <=? c) && (c <=? 57) then st 21
      else st 0)
    else if (90 <? c) then (
      if (94 <=? c) && (c <=? 122) then st 21
      else st 0)
    else st 21)
  else st 21).
Definition st_109 (c : Z) : target action :=
  switch c [33 --> st 21; 58 --> tr_39; 84 --> st 110; 116 --> st 110; 124 --> st 21;
    126 --> st 21] (
  if (c <? 45) then (
    if (39 <? c) then (
      if (42 <=? c) && (c <=? 43) then st 21
      else st 0)
    else if (35 <=? c) then st 21
    else st 0)
  else if (46 <? c) then (
    if (c <? 65) then (
      if (48 <=? c) && (c <=? 57) then st 21
      else st 0)
    else if (90 <? c) then (
      if (94 <=? c) && (c <=? 122) then st 21
      else st 0)
    else st 21)
  else st 21).
Definition st_110 (c : Z) : target action :=
  switch c [33 --> st 21; 58 --> tr_39; 72 --> st 111; 104 --> st 111; 124 --> st 21;
    126 --> st 21] (
  if (c <? 45) then (
    if (39 <? c) then (
      if (42 <=? c) && (c <=? 43) then st 21
      else st 0)
    else if (35 <=? c) then st 21
    else st 0)
  else if (46 <? c) then (
    if (c <? 65) then (
      if (48 <=? c) && (c <=? 57) then st 21
      else st 0)
    else if (90 <? c) then (
      if (94 <=? c) && (c <=? 122) then st 21
      else st 0)
    else st 21)
  else st 21).
Definition st_111 (c : Z) : target action :=
  switch c [33 --> st 21; 58 --> tr_148; 124 --> st 21; 126 --> st 21] (
  if (c <? 45) then (
    if (39 <? c) then (
      if (42 <=? c) && (c <=? 43) then st 21
      else st 0)
    else if (35 <=? c) then st 21
    else st 0)
  else if (46 <? c) then (
    if (c <? 65) then (
      if (48 <=? c) && (c <=? 57) then st 21
      else st 0)
    else if (90 <? c) then (
      if (94 <=? c) && (c <=? 122) then st 21
      else st 0)
    else st 21)
  else st 21).
Definition st_112 (c : Z) : target action :=
  switch c [10 --> tr_150; 13 --> tr_151; 32 --> tr_149] (
  if (12 <? c) then (
    if (48 <=? c) && (c <=? 57) then tr_152
    else tr_40)
  else if (9 <=? c) then tr_149
  else tr_40).
Definition st_113 (c : Z) : target action :=
  switch c [10 --> tr_154; 13 --> st 116; 32 --> st 114; 33 --> tr_35; 67 --> tr_36;
    84 --> tr_37; 99 --> tr_36; 116 --> tr_37; 124 --> tr_35; 126 --> tr_35] (
  if (c <? 45) then (
    if (c <? 35) then (
      if (9 <=? c) && (c <=? 12) then st 114
      else st 0)
    else if (39 <? c) then (
      if (42 <=? c) && (c <=? 43) then tr_35
      else st 0)
    else tr_35)
  else if (46 <? c) then (
    if (c <? 65) then (
      if (48 <=? c) && (c <=? 57) then tr_156
      else st 0)
    else if (90 <? c) then (
      if (94 <=? c) && (c <=? 122) then tr_35
      else st 0)
    else tr_35)
  else tr_35).
Definition st_114 (c : Z) : target action :=
  if (c =? 32) then st 114
  else if (13 <? c) then (
    if (48 <=? c) && (c <=? 57) then tr_157
    else st 0)
  else if (9 <=? c) then st 114
  else st 0.
Definition st_115 (c : Z) : target action :=
  switch c [10 --> tr_158; 13 --> tr_159] (
  if (48 <=? c) && (c <=? 57) then st 115
  else st 0).
Definition st_116 (c : Z) : target action :=
  switch c [10 --> tr_154; 32 --> st 114] (
  if (13 <? c) then (
    if (48 <=? c) && (c <=? 57) then tr_157
    else st 0)
  else if (9 <=? c) then st 114
  else st 0).
Definition st_117 (c : Z) : target action :=
  switch c [10 --> tr_158; 13 --> tr_159; 33 --> st 21; 58 --> tr_39; 124 --> st 21; 126 --> st 21] (
  if (c <? 45) then (
    if (39 <? c) then (
      if (42 <=? c) && (c <=? 43) then st 21
      else st 0)
    else if (35 <=? c) then st 21
    else st 0)
  else if (46 <? c) then (
    if (c <? 65) then (
      if (48 <=? c) && (c <=? 57) then st 117
      else st 0)
    else if (90 <? c) then (
      if (94 <=? c) && (c <=? 122) then st 21
      else st 0)
    else st 21)
  else st 21).
Definition st_118 (c : Z) : target action :=
  switch c [10 --> st 113; 32 --> st 114] (
  if (13 <? c) then (
    if (48 <=? c) && (c <=? 57) then tr_157
    else st 0)
  else if (9 <=? c) then st 114
  else st 0).
Definition st_119 (c : Z) : target action :=
  switch c [10 --> tr_158; 13 --> tr_159] (
  if (48 <=? c) && (c <=? 57) then st 119
  else st 23).
Definition st_120 (c : Z) : target action :=
  st 0.
Definition st_121 (c : Z) : target action :=
  switch c [32 --> st 63; 67 --> tr_104; 99 --> tr_104] (
  if (9 <=? c) && (c <=? 13) then st 63
  else st 0).
Definition st_122 (c : Z) : target action :=
  switch c [32 --> st 37; 67 --> st 38; 99 --> st 38] (
  if (9 <=? c) && (c <=? 13) then st 37
  else st 0).
Definition st_123 (c : Z) : target action :=
  if (c =? 32) then st 114
  else if (13 <? c) then (
    if (48 <=? c) && (c <=? 57) then tr_157
    else st 0)
  else if (9 <=? c) then st 114
  else st 0.

(** The dispatch [switch(cs)]: the cases are numbered from 1. *)
Definition states : list (Z → target action) := [
  st_1; st_2; st_3; st_4; st_5; st_6; st_7; st_8; st_9; st_10; st_11; st_12; st_13; st_14; st_15;
  st_16; st_17; st_18; st_19; st_20; st_21; st_22; st_23; st_24; st_25; st_26; st_27; st_28;
  st_29; st_30; st_31; st_32; st_33; st_34; st_35; st_36; st_37; st_38; st_39; st_40; st_41;
  st_42; st_43; st_44; st_45; st_46; st_47; st_48; st_49; st_50; st_51; st_52; st_53; st_54;
  st_55; st_56; st_57; st_58; st_59; st_60; st_61; st_62; st_63; st_64; st_65; st_66; st_67;
  st_68; st_69; st_70; st_71; st_72; st_73; st_74; st_75; st_76; st_77; st_78; st_79; st_80;
  st_81; st_82; st_83; st_84; st_85; st_86; st_87; st_88; st_89; st_90; st_91; st_92; st_93;
  st_94; st_95; st_96; st_97; st_98; st_99; st_100; st_101; st_102; st_103; st_104; st_105;
  st_106; st_107; st_108; st_109; st_110; st_111; st_112; st_113; st_114; st_115; st_116; st_117;
  st_118; st_119; st_120; st_121; st_122; st_123].
Definition block (cs : Z) : option (Z → target action) :=
  if cs <? 1 then None else states !! Z.to_nat (cs - 1).
