(* ===== verification/UriStates.v ===== *)
(** * UriStates: the state blocks of the URI parser ([src/uri.rl.cc])

    One definition per label, in the notation of Ragel.v; the control flow and
    the actions are in Uri. *)
From S2P Require Import Prelude Ragel.

(** The actions of the grammar [uri.rl]. *)
Inductive action :=
  | marku | markh | save_scheme | save_port | save_userinfo | save_host
  | save_path | save_query | save_fragment.
#[export] Instance action_eq_dec : EqDecision action.
Proof. solve_decision. Defined.

(** ** The labels [trN] *)
Definition tr_38 : target action := ([save_userinfo], 469).
Definition tr_263 : target action := ([save_userinfo], 522).
Definition tr_461 : target action := ([marku], 508).
Definition tr_462 : target action := ([marku], 454).
Definition tr_463 : target action := ([marku], 1).
Definition tr_466 : target action := ([marku], 457).
Definition tr_467 : target action := ([marku; save_query], 453).
Definition tr_468 : target action := ([marku], 7).
Definition tr_469 : target action := ([save_query], 453).
Definition tr_472 : target action := ([markh], 9).
Definition tr_473 : target action := ([markh], 467).
Definition tr_474 : target action := ([markh; save_host], 453).
Definition tr_475 : target action := ([markh], 31).
Definition tr_476 : target action := ([markh; save_host], 455).
Definition tr_477 : target action := ([markh], 490).
Definition tr_478 : target action := ([markh], 504).
Definition tr_479 : target action := ([markh], 506).
Definition tr_480 : target action := ([markh], 505).
Definition tr_481 : target action := ([markh; save_host], 468).
Definition tr_482 : target action := ([markh; save_host], 456).
Definition tr_483 : target action := ([markh; save_userinfo], 469).
Definition tr_484 : target action := ([markh], 38).
Definition tr_485 : target action := ([save_host], 453).
Definition tr_486 : target action := ([save_host], 455).
Definition tr_487 : target action := ([save_host], 461).
Definition tr_488 : target action := ([save_host], 456).
Definition tr_489 : target action := ([markh; save_port], 453).
Definition tr_490 : target action := ([markh; save_port], 455).
Definition tr_491 : target action := ([markh], 462).
Definition tr_492 : target action := ([markh; save_port], 456).
Definition tr_493 : target action := ([save_port], 453).
Definition tr_494 : target action := ([save_port], 455).
Definition tr_496 : target action := ([save_port], 456).
Definition tr_499 : target action := ([save_host], 468).
Definition tr_500 : target action := ([markh], 489).
Definition tr_501 : target action := ([markh], 470).
Definition tr_502 : target action := ([markh], 36).
Definition tr_503 : target action := ([markh], 471).
Definition tr_504 : target action := ([markh], 485).
Definition tr_505 : target action := ([markh], 487).
Definition tr_506 : target action := ([markh], 486).
Definition tr_507 : target action := ([markh; save_host], 461).
Definition tr_543 : target action := ([save_scheme], 509).
Definition tr_546 : target action := ([markh], 229).
Definition tr_547 : target action := ([markh], 520).
Definition tr_548 : target action := ([markh; save_host; save_path], 453).
Definition tr_549 : target action := ([markh], 253).
Definition tr_550 : target action := ([markh; save_host], 513).
Definition tr_551 : target action := ([markh], 543).
Definition tr_552 : target action := ([markh], 557).
Definition tr_553 : target action := ([markh], 559).
Definition tr_554 : target action := ([markh], 558).
Definition tr_555 : target action := ([markh; save_host], 521).
Definition tr_556 : target action := ([markh; save_host; save_path], 456).
Definition tr_557 : target action := ([markh; save_userinfo], 522).
Definition tr_558 : target action := ([markh], 260).
Definition tr_559 : target action := ([save_host; markh; save_path], 453).
Definition tr_560 : target action := ([save_host; markh], 513).
Definition tr_561 : target action := ([save_host], 514).
Definition tr_562 : target action := ([save_host; markh; save_path], 456).
Definition tr_563 : target action := ([save_path], 453).
Definition tr_565 : target action := ([save_path], 456).
Definition tr_566 : target action := ([markh; save_port; save_path], 453).
Definition tr_567 : target action := ([markh; save_port], 513).
Definition tr_568 : target action := ([markh], 515).
Definition tr_569 : target action := ([markh; save_port; save_path], 456).
Definition tr_570 : target action := ([save_port; markh; save_path], 453).
Definition tr_571 : target action := ([save_port; markh], 513).
Definition tr_573 : target action := ([save_port; markh; save_path], 456).
Definition tr_576 : target action := ([save_host], 521).
Definition tr_577 : target action := ([markh], 542).
Definition tr_578 : target action := ([markh], 523).
Definition tr_579 : target action := ([markh], 258).
Definition tr_580 : target action := ([markh], 524).
Definition tr_581 : target action := ([markh], 538).
Definition tr_582 : target action := ([markh], 540).
Definition tr_583 : target action := ([markh], 539).
Definition tr_584 : target action := ([markh; save_host], 514).

(** ** The blocks [case n:] *)
Definition st_1 (c : Z) : target action :=
  if (c <? 65) then (
    if (48 <=? c) && (c <=? 57) then st 2
    else st 0)
  else if (70 <? c) then (
    if (97 <=? c) && (c <=? 102) then st 2
    else st 0)
  else st 2.
Definition st_2 (c : Z) : target action :=
  if (c <? 65) then (
    if (48 <=? c) && (c <=? 57) then st 454
    else st 0)
  else if (70 <? c) then (
    if (97 <=? c) && (c <=? 102) then st 454
    else st 0)
  else st 454.
Definition st_3 (c : Z) : target action :=
  if (c <? 65) then (
    if (48 <=? c) && (c <=? 57) then st 4
    else st 0)
  else if (70 <? c) then (
    if (97 <=? c) && (c <=? 102) then st 4
    else st 0)
  else st 4.
Definition st_4 (c : Z) : target action :=
  if (c <? 65) then (
    if (48 <=? c) && (c <=? 57) then st 452
    else st 0)
  else if (70 <? c) then (
    if (97 <=? c) && (c <=? 102) then st 452
    else st 0)
  else st 452.
Definition st_5 (c : Z) : target action :=
  if (c <? 65) then (
    if (48 <=? c) && (c <=? 57) then st 6
    else st 0)
  else if (70 <? c) then (
    if (97 <=? c) && (c <=? 102) then st 6
    else st 0)
  else st 6.
Definition st_6 (c : Z) : target action :=
  if (c <? 65) then (
    if (48 <=? c) && (c <=? 57) then st 455
    else st 0)
  else if (70 <? c) then (
    if (97 <=? c) && (c <=? 102) then st 455
    else st 0)
  else st 455.
Definition st_7 (c : Z) : target action :=
  if (c <? 65) then (
    if (48 <=? c) && (c <=? 57) then st 8
    else st 0)
  else if (70 <? c) then (
    if (97 <=? c) && (c <=? 102) then st 8
    else st 0)
  else st 8.
Definition st_8 (c : Z) : target action :=
  if (c <? 65) then (
    if (48 <=? c) && (c <=? 57) then st 457
    else st 0)
  else if (70 <? c) then (
    if (97 <=? c) && (c <=? 102) then st 457
    else st 0)
  else st 457.
Definition st_9 (c : Z) : target action :=
  if (48 <=? c) && (c <=? 52) then st 10
  else st 0.
Definition st_10 (c : Z) : target action :=
  if (48 <=? c) && (c <=? 57) then st 11
  else st 0.
Definition st_11 (c : Z) : target action :=
  if (c =? 46) then st 12
  else st 0.
Definition st_12 (c : Z) : target action :=
  switch c [2 --> st 13; 48 --> st 15; 49 --> st 27; 50 --> st 29] (
  if (51 <=? c) && (c <=? 57) then st 28
  else st 0).
Definition st_13 (c : Z) : target action :=
  if (48 <=? c) && (c <=? 52) then st 14
  else st 0.
Definition st_14 (c : Z) : target action :=
  if (48 <=? c) && (c <=? 57) then st 15
  else st 0.
Definition st_15 (c : Z) : target action :=
  if (c =? 46) then st 16
  else st 0.
Definition st_16 (c : Z) : target action :=
  switch c [2 --> st 17; 48 --> st 19; 49 --> st 23; 50 --> st 25] (
  if (51 <=? c) && (c <=? 57) then st 24
  else st 0).
Definition st_17 (c : Z) : target action :=
  if (48 <=? c) && (c <=? 52) then st 18
  else st 0.
Definition st_18 (c : Z) : target action :=
  if (48 <=? c) && (c <=? 57) then st 19
  else st 0.
Definition st_19 (c : Z) : target action :=
  if (c =? 46) then st 20
  else st 0.
Definition st_20 (c : Z) : target action :=
  switch c [2 --> st 21; 48 --> st 460; 49 --> st 463; 50 --> st 465] (
  if (51 <=? c) && (c <=? 57) then st 464
  else st 0).
Definition st_21 (c : Z) : target action :=
  if (48 <=? c) && (c <=? 52) then st 22
  else st 0.
Definition st_22 (c : Z) : target action :=
  if (48 <=? c) && (c <=? 57) then st 460
  else st 0.
Definition st_23 (c : Z) : target action :=
  if (c =? 46) then st 20
  else if (48 <=? c) && (c <=? 57) then st 24
  else st 0.
Definition st_24 (c : Z) : target action :=
  if (c =? 46) then st 20
  else if (48 <=? c) && (c <=? 57) then st 19
  else st 0.
Definition st_25 (c : Z) : target action :=
  switch c [46 --> st 20; 53 --> st 26] (
  if (48 <=? c) && (c <=? 57) then st 19
  else st 0).
Definition st_26 (c : Z) : target action :=
  if (c =? 46) then st 20
  else if (48 <=? c) && (c <=? 53) then st 19
  else st 0.
Definition st_27 (c : Z) : target action :=
  if (c =? 46) then st 16
  else if (48 <=? c) && (c <=? 57) then st 28
  else st 0.
Definition st_28 (c : Z) : target action :=
  if (c =? 46) then st 16
  else if (48 <=? c) && (c <=? 57) then st 15
  else st 0.
Definition st_29 (c : Z) : target action :=
  switch c [46 --> st 16; 53 --> st 30] (
  if (48 <=? c) && (c <=? 57) then st 15
  else st 0).
Definition st_30 (c : Z) : target action :=
  if (c =? 46) then st 16
  else if (48 <=? c) && (c <=? 53) then st 15
  else st 0.
Definition st_31 (c : Z) : target action :=
  if (c <? 65) then (
    if (48 <=? c) && (c <=? 57) then st 32
    else st 0)
  else if (70 <? c) then (
    if (97 <=? c) && (c <=? 102) then st 32
    else st 0)
  else st 32.
Definition st_32 (c : Z) : target action :=
  if (c <? 65) then (
    if (48 <=? c) && (c <=? 57) then st 467
    else st 0)
  else if (70 <? c) then (
    if (97 <=? c) && (c <=? 102) then st 467
    else st 0)
  else st 467.
Definition st_33 (c : Z) : target action :=
  switch c [33 --> st 33; 37 --> st 34; 61 --> st 33; 64 --> tr_38; 95 --> st 33; 126 --> st 33] (
  if (c <? 48) then (
    if (36 <=? c) && (c <=? 46) then st 33
    else st 0)
  else if (59 <? c) then (
    if (90 <? c) then (
      if (97 <=? c) && (c <=? 122) then st 33
      else st 0)
    else if (65 <=? c) then st 33
    else st 0)
  else st 33).
Definition st_34 (c : Z) : target action :=
  if (c <? 65) then (
    if (48 <=? c) && (c <=? 57) then st 35
    else st 0)
  else if (70 <? c) then (
    if (97 <=? c) && (c <=? 102) then st 35
    else st 0)
  else st 35.
Definition st_35 (c : Z) : target action :=
  if (c <? 65) then (
    if (48 <=? c) && (c <=? 57) then st 33
    else st 0)
  else if (70 <? c) then (
    if (97 <=? c) && (c <=? 102) then st 33
    else st 0)
  else st 33.
Definition st_36 (c : Z) : target action :=
  if (c <? 65) then (
    if (48 <=? c) && (c <=? 57) then st 37
    else st 0)
  else if (70 <? c) then (
    if (97 <=? c) && (c <=? 102) then st 37
    else st 0)
  else st 37.
Definition st_37 (c : Z) : target action :=
  if (c <? 65) then (
    if (48 <=? c) && (c <=? 57) then st 470
    else st 0)
  else if (70 <? c) then (
    if (97 <=? c) && (c <=? 102) then st 470
    else st 0)
  else st 470.
Definition st_38 (c : Z) : target action :=
  switch c [58 --> st 146; 118 --> st 225] (
  if (c <? 65) then (
    if (48 <=? c) && (c <=? 57) then st 39
    else st 0)
  else if (70 <? c) then (
    if (97 <=? c) && (c <=? 102) then st 39
    else st 0)
  else st 39).
Definition st_39 (c : Z) : target action :=
  if (c =? 58) then st 43
  else if (c <? 65) then (
    if (48 <=? c) && (c <=? 57) then st 40
    else st 0)
  else if (70 <? c) then (
    if (97 <=? c) && (c <=? 102) then st 40
    else st 0)
  else st 40.
Definition st_40 (c : Z) : target action :=
  if (c =? 58) then st 43
  else if (c <? 65) then (
    if (48 <=? c) && (c <=? 57) then st 41
    else st 0)
  else if (70 <? c) then (
    if (97 <=? c) && (c <=? 102) then st 41
    else st 0)
  else st 41.
Definition st_41 (c : Z) : target action :=
  if (c =? 58) then st 43
  else if (c <? 65) then (
    if (48 <=? c) && (c <=? 57) then st 42
    else st 0)
  else if (70 <? c) then (
    if (97 <=? c) && (c <=? 102) then st 42
    else st 0)
  else st 42.
Definition st_42 (c : Z) : target action :=
  if (c =? 58) then st 43
  else st 0.
Definition st_43 (c : Z) : target action :=
  if (c =? 58) then st 141
  else if (c <? 65) then (
    if (48 <=? c) && (c <=? 57) then st 44
    else st 0)
  else if (70 <? c) then (
    if (97 <=? c) && (c <=? 102) then st 44
    else st 0)
  else st 44.
Definition st_44 (c : Z) : target action :=
  if (c =? 58) then st 48
  else if (c <? 65) then (
    if (48 <=? c) && (c <=? 57) then st 45
    else st 0)
  else if (70 <? c) then (
    if (97 <=? c) && (c <=? 102) then st 45
    else st 0)
  else st 45.
Definition st_45 (c : Z) : target action :=
  if (c =? 58) then st 48
  else if (c <? 65) then (
    if (48 <=? c) && (c <=? 57) then st 46
    else st 0)
  else if (70 <? c) then (
    if (97 <=? c) && (c <=? 102) then st 46
    else st 0)
  else st 46.
Definition st_46 (c : Z) : target action :=
  if (c =? 58) then st 48
  else if (c <? 65) then (
    if (48 <=? c) && (c <=? 57) then st 47
    else st 0)
  else if (70 <? c) then (
    if (97 <=? c) && (c <=? 102) then st 47
    else st 0)
  else st 47.
Definition st_47 (c : Z) : target action :=
  if (c =? 58) then st 48
  else st 0.
Definition st_48 (c : Z) : target action :=
  if (c =? 58) then st 136
  else if (c <? 65) then (
    if (48 <=? c) && (c <=? 57) then st 49
    else st 0)
  else if (70 <? c) then (
    if (97 <=? c) && (c <=? 102) then st 49
    else st 0)
  else st 49.
Definition st_49 (c : Z) : target action :=
  if (c =? 58) then st 53
  else if (c <? 65) then (
    if (48 <=? c) && (c <=? 57) then st 50
    else st 0)
  else if (70 <? c) then (
    if (97 <=? c) && (c <=? 102) then st 50
    else st 0)
  else st 50.
Definition st_50 (c : Z) : target action :=
  if (c =? 58) then st 53
  else if (c <? 65) then (
    if (48 <=? c) && (c <=? 57) then st 51
    else st 0)
  else if (70 <? c) then (
    if (97 <=? c) && (c <=? 102) then st 51
    else st 0)
  else st 51.
Definition st_51 (c : Z) : target action :=
  if (c =? 58) then st 53
  else if (c <? 65) then (
    if (48 <=? c) && (c <=? 57) then st 52
    else st 0)
  else if (70 <? c) then (
    if (97 <=? c) && (c <=? 102) then st 52
    else st 0)
  else st 52.
Definition st_52 (c : Z) : target action :=
  if (c =? 58) then st 53
  else st 0.
Definition st_53 (c : Z) : target action :=
  if (c =? 58) then st 131
  else if (c <? 65) then (
    if (48 <=? c) && (c <=? 57) then st 54
    else st 0)
  else if (70 <? c) then (
    if (97 <=? c) && (c <=? 102) then st 54
    else st 0)
  else st 54.
Definition st_54 (c : Z) : target action :=
  if (c =? 58) then st 58
  else if (c <? 65) then (
    if (48 <=? c) && (c <=? 57) then st 55
    else st 0)
  else if (70 <? c) then (
    if (97 <=? c) && (c <=? 102) then st 55
    else st 0)
  else st 55.
Definition st_55 (c : Z) : target action :=
  if (c =? 58) then st 58
  else if (c <? 65) then (
    if (48 <=? c) && (c <=? 57) then st 56
    else st 0)
  else if (70 <? c) then (
    if (97 <=? c) && (c <=? 102) then st 56
    else st 0)
  else st 56.
Definition st_56 (c : Z) : target action :=
  if (c =? 58) then st 58
  else if (c <? 65) then (
    if (48 <=? c) && (c <=? 57) then st 57
    else st 0)
  else if (70 <? c) then (
    if (97 <=? c) && (c <=? 102) then st 57
    else st 0)
  else st 57.
Definition st_57 (c : Z) : target action :=
  if (c =? 58) then st 58
  else st 0.
Definition st_58 (c : Z) : target action :=
  if (c =? 58) then st 126
  else if (c <? 65) then (
    if (48 <=? c) && (c <=? 57) then st 59
    else st 0)
  else if (70 <? c) then (
    if (97 <=? c) && (c <=? 102) then st 59
    else st 0)
  else st 59.
Definition st_59 (c : Z) : target action :=
  if (c =? 58) then st 63
  else if (c <? 65) then (
    if (48 <=? c) && (c <=? 57) then st 60
    else st 0)
  else if (70 <? c) then (
    if (97 <=? c) && (c <=? 102) then st 60
    else st 0)
  else st 60.
Definition st_60 (c : Z) : target action :=
  if (c =? 58) then st 63
  else if (c <? 65) then (
    if (48 <=? c) && (c <=? 57) then st 61
    else st 0)
  else if (70 <? c) then (
    if (97 <=? c) && (c <=? 102) then st 61
    else st 0)
  else st 61.
Definition st_61 (c : Z) : target action :=
  if (c =? 58) then st 63
  else if (c <? 65) then (
    if (48 <=? c) && (c <=? 57) then st 62
    else st 0)
  else if (70 <? c) then (
    if (97 <=? c) && (c <=? 102) then st 62
    else st 0)
  else st 62.
Definition st_62 (c : Z) : target action :=
  if (c =? 58) then st 63
  else st 0.
Definition st_63 (c : Z) : target action :=
  if (c =? 58) then st 113
  else if (c <? 65) then (
    if (48 <=? c) && (c <=? 57) then st 64
    else st 0)
  else if (70 <? c) then (
    if (97 <=? c) && (c <=? 102) then st 64
    else st 0)
  else st 64.
Definition st_64 (c : Z) : target action :=
  if (c =? 58) then st 68
  else if (c <? 65) then (
    if (48 <=? c) && (c <=? 57) then st 65
    else st 0)
  else if (70 <? c) then (
    if (97 <=? c) && (c <=? 102) then st 65
    else st 0)
  else st 65.
Definition st_65 (c : Z) : target action :=
  if (c =? 58) then st 68
  else if (c <? 65) then (
    if (48 <=? c) && (c <=? 57) then st 66
    else st 0)
  else if (70 <? c) then (
    if (97 <=? c) && (c <=? 102) then st 66
    else st 0)
  else st 66.
Definition st_66 (c : Z) : target action :=
  if (c =? 58) then st 68
  else if (c <? 65) then (
    if (48 <=? c) && (c <=? 57) then st 67
    else st 0)
  else if (70 <? c) then (
    if (97 <=? c) && (c <=? 102) then st 67
    else st 0)
  else st 67.
Definition st_67 (c : Z) : target action :=
  if (c =? 58) then st 68
  else st 0.
Definition st_68 (c : Z) : target action :=
  switch c [2 --> st 69; 48 --> st 96; 49 --> st 104; 50 --> st 107; 58 --> st 111] (
  if (c <? 65) then (
    if (51 <=? c) && (c <=? 57) then st 110
    else st 0)
  else if (70 <? c) then (
    if (97 <=? c) && (c <=? 102) then st 112
    else st 0)
  else st 112).
Definition st_69 (c : Z) : target action :=
  if (48 <=? c) && (c <=? 52) then st 70
  else st 0.
Definition st_70 (c : Z) : target action :=
  if (48 <=? c) && (c <=? 57) then st 71
  else st 0.
Definition st_71 (c : Z) : target action :=
  if (c =? 46) then st 72
  else st 0.
Definition st_72 (c : Z) : target action :=
  switch c [2 --> st 73; 48 --> st 75; 49 --> st 92; 50 --> st 94] (
  if (51 <=? c) && (c <=? 57) then st 93
  else st 0).
Definition st_73 (c : Z) : target action :=
  if (48 <=? c) && (c <=? 52) then st 74
  else st 0.
Definition st_74 (c : Z) : target action :=
  if (48 <=? c) && (c <=? 57) then st 75
  else st 0.
Definition st_75 (c : Z) : target action :=
  if (c =? 46) then st 76
  else st 0.
Definition st_76 (c : Z) : target action :=
  switch c [2 --> st 77; 48 --> st 79; 49 --> st 88; 50 --> st 90] (
  if (51 <=? c) && (c <=? 57) then st 89
  else st 0).
Definition st_77 (c : Z) : target action :=
  if (48 <=? c) && (c <=? 52) then st 78
  else st 0.
Definition st_78 (c : Z) : target action :=
  if (48 <=? c) && (c <=? 57) then st 79
  else st 0.
Definition st_79 (c : Z) : target action :=
  if (c =? 46) then st 80
  else st 0.
Definition st_80 (c : Z) : target action :=
  switch c [2 --> st 81; 48 --> st 83; 49 --> st 84; 50 --> st 86] (
  if (51 <=? c) && (c <=? 57) then st 85
  else st 0).
Definition st_81 (c : Z) : target action :=
  if (48 <=? c) && (c <=? 52) then st 82
  else st 0.
Definition st_82 (c : Z) : target action :=
  if (48 <=? c) && (c <=? 57) then st 83
  else st 0.
Definition st_83 (c : Z) : target action :=
  if (c =? 93) then st 460
  else st 0.
Definition st_84 (c : Z) : target action :=
  if (c =? 93) then st 460
  else if (48 <=? c) && (c <=? 57) then st 85
  else st 0.
Definition st_85 (c : Z) : target action :=
  if (c =? 93) then st 460
  else if (48 <=? c) && (c <=? 57) then st 83
  else st 0.
Definition st_86 (c : Z) : target action :=
  switch c [53 --> st 87; 93 --> st 460] (
  if (48 <=? c) && (c <=? 57) then st 83
  else st 0).
Definition st_87 (c : Z) : target action :=
  if (c =? 93) then st 460
  else if (48 <=? c) && (c <=? 53) then st 83
  else st 0.
Definition st_88 (c : Z) : target action :=
  if (c =? 46) then st 80
  else if (48 <=? c) && (c <=? 57) then st 89
  else st 0.
Definition st_89 (c : Z) : target action :=
  if (c =? 46) then st 80
  else if (48 <=? c) && (c <=? 57) then st 79
  else st 0.
Definition st_90 (c : Z) : target action :=
  switch c [46 --> st 80; 53 --> st 91] (
  if (48 <=? c) && (c <=? 57) then st 79
  else st 0).
Definition st_91 (c : Z) : target action :=
  if (c =? 46) then st 80
  else if (48 <=? c) && (c <=? 53) then st 79
  else st 0.
Definition st_92 (c : Z) : target action :=
  if (c =? 46) then st 76
  else if (48 <=? c) && (c <=? 57) then st 93
  else st 0.
Definition st_93 (c : Z) : target action :=
  if (c =? 46) then st 76
  else if (48 <=? c) && (c <=? 57) then st 75
  else st 0.
Definition st_94 (c : Z) : target action :=
  switch c [46 --> st 76; 53 --> st 95] (
  if (48 <=? c) && (c <=? 57) then st 75
  else st 0).
Definition st_95 (c : Z) : target action :=
  if (c =? 46) then st 76
  else if (48 <=? c) && (c <=? 53) then st 75
  else st 0.
Definition st_96 (c : Z) : target action :=
  switch c [46 --> st 72; 58 --> st 100] (
  if (c <? 65) then (
    if (48 <=? c) && (c <=? 57) then st 97
    else st 0)
  else if (70 <? c) then (
    if (97 <=? c) && (c <=? 102) then st 97
    else st 0)
  else st 97).
Definition st_97 (c : Z) : target action :=
  if (c =? 58) then st 100
  else if (c <? 65) then (
    if (48 <=? c) && (c <=? 57) then st 98
    else st 0)
  else if (70 <? c) then (
    if (97 <=? c) && (c <=? 102) then st 98
    else st 0)
  else st 98.
Definition st_98 (c : Z) : target action :=
  if (c =? 58) then st 100
  else if (c <? 65) then (
    if (48 <=? c) && (c <=? 57) then st 99
    else st 0)
  else if (70 <? c) then (
    if (97 <=? c) && (c <=? 102) then st 99
    else st 0)
  else st 99.
Definition st_99 (c : Z) : target action :=
  if (c =? 58) then st 100
  else st 0.
Definition st_100 (c : Z) : target action :=
  if (c =? 58) then st 83
  else if (c <? 65) then (
    if (48 <=? c) && (c <=? 57) then st 101
    else st 0)
  else if (70 <? c) then (
    if (97 <=? c) && (c <=? 102) then st 101
    else st 0)
  else st 101.
Definition st_101 (c : Z) : target action :=
  if (c =? 93) then st 460
  else if (c <? 65) then (
    if (48 <=? c) && (c <=? 57) then st 102
    else st 0)
  else if (70 <? c) then (
    if (97 <=? c) && (c <=? 102) then st 102
    else st 0)
  else st 102.
Definition st_102 (c : Z) : target action :=
  if (c =? 93) then st 460
  else if (c <? 65) then (
    if (48 <=? c) && (c <=? 57) then st 103
    else st 0)
  else if (70 <? c) then (
    if (97 <=? c) && (c <=? 102) then st 103
    else st 0)
  else st 103.
Definition st_103 (c : Z) : target action :=
  if (c =? 93) then st 460
  else if (c <? 65) then (
    if (48 <=? c) && (c <=? 57) then st 83
    else st 0)
  else if (70 <? c) then (
    if (97 <=? c) && (c <=? 102) then st 83
    else st 0)
  else st 83.
Definition st_104 (c : Z) : target action :=
  switch c [46 --> st 72; 58 --> st 100] (
  if (c <? 65) then (
    if (48 <=? c) && (c <=? 57) then st 105
    else st 0)
  else if (70 <? c) then (
    if (97 <=? c) && (c <=? 102) then st 97
    else st 0)
  else st 97).
Definition st_105 (c : Z) : target action :=
  switch c [46 --> st 72; 58 --> st 100] (
  if (c <? 65) then (
    if (48 <=? c) && (c <=? 57) then st 106
    else st 0)
  else if (70 <? c) then (
    if (97 <=? c) && (c <=? 102) then st 98
    else st 0)
  else st 98).
Definition st_106 (c : Z) : target action :=
  switch c [46 --> st 72; 58 --> st 100] (
  if (c <? 65) then (
    if (48 <=? c) && (c <=? 57) then st 99
    else st 0)
  else if (70 <? c) then (
    if (97 <=? c) && (c <=? 102) then st 99
    else st 0)
  else st 99).
Definition st_107 (c : Z) : target action :=
  switch c [46 --> st 72; 53 --> st 109; 58 --> st 100] (
  if (c <? 65) then (
    if (48 <=? c) && (c <=? 57) then st 108
    else st 0)
  else if (70 <? c) then (
    if (97 <=? c) && (c <=? 102) then st 97
    else st 0)
  else st 97).
Definition st_108 (c : Z) : target action :=
  switch c [46 --> st 72; 58 --> st 100] (
  if (c <? 65) then (
    if (48 <=? c) && (c <=? 57) then st 98
    else st 0)
  else if (70 <? c) then (
    if (97 <=? c) && (c <=? 102) then st 98
    else st 0)
  else st 98).
Definition st_109 (c : Z) : target action :=
  switch c [46 --> st 72; 58 --> st 100] (
  if (c <? 54) then (
    if (48 <=? c) && (c <=? 53) then st 106
    else st 0)
  else if (57 <? c) then (
    if (70 <? c) then (
      if (97 <=? c) && (c <=? 102) then st 98
      else st 0)
    else if (65 <=? c) then st 98
    else st 0)
  else st 98).
Definition st_110 (c : Z) : target action :=
  switch c [46 --> st 72; 58 --> st 100] (
  if (c <? 65) then (
    if (48 <=? c) && (c <=? 57) then st 108
    else st 0)
  else if (70 <? c) then (
    if (97 <=? c) && (c <=? 102) then st 97
    else st 0)
  else st 97).
Definition st_111 (c : Z) : target action :=
  if (c <? 65) then (
    if (48 <=? c) && (c <=? 57) then st 101
    else st 0)
  else if (70 <? c) then (
    if (97 <=? c) && (c <=? 102) then st 101
    else st 0)
  else st 101.
Definition st_112 (c : Z) : target action :=
  if (c =? 58) then st 100
  else if (c <? 65) then (
    if (48 <=? c) && (c <=? 57) then st 97
    else st 0)
  else if (70 <? c) then (
    if (97 <=? c) && (c <=? 102) then st 97
    else st 0)
  else st 97.
Definition st_113 (c : Z) : target action :=
  switch c [2 --> st 69; 48 --> st 114; 49 --> st 118; 50 --> st 121] (
  if (c <? 65) then (
    if (51 <=? c) && (c <=? 57) then st 124
    else st 0)
  else if (70 <? c) then (
    if (97 <=? c) && (c <=? 102) then st 125
    else st 0)
  else st 125).
Definition st_114 (c : Z) : target action :=
  switch c [46 --> st 72; 58 --> st 111] (
  if (c <? 65) then (
    if (48 <=? c) && (c <=? 57) then st 115
    else st 0)
  else if (70 <? c) then (
    if (97 <=? c) && (c <=? 102) then st 115
    else st 0)
  else st 115).
Definition st_115 (c : Z) : target action :=
  if (c =? 58) then st 111
  else if (c <? 65) then (
    if (48 <=? c) && (c <=? 57) then st 116
    else st 0)
  else if (70 <? c) then (
    if (97 <=? c) && (c <=? 102) then st 116
    else st 0)
  else st 116.
Definition st_116 (c : Z) : target action :=
  if (c =? 58) then st 111
  else if (c <? 65) then (
    if (48 <=? c) && (c <=? 57) then st 117
    else st 0)
  else if (70 <? c) then (
    if (97 <=? c) && (c <=? 102) then st 117
    else st 0)
  else st 117.
Definition st_117 (c : Z) : target action :=
  if (c =? 58) then st 111
  else st 0.
Definition st_118 (c : Z) : target action :=
  switch c [46 --> st 72; 58 --> st 111] (
  if (c <? 65) then (
    if (48 <=? c) && (c <=? 57) then st 119
    else st 0)
  else if (70 <? c) then (
    if (97 <=? c) && (c <=? 102) then st 115
    else st 0)
  else st 115).
Definition st_119 (c : Z) : target action :=
  switch c [46 --> st 72; 58 --> st 111] (
  if (c <? 65) then (
    if (48 <=? c) && (c <=? 57) then st 120
    else st 0)
  else if (70 <? c) then (
    if (97 <=? c) && (c <=? 102) then st 116
    else st 0)
  else st 116).
Definition st_120 (c : Z) : target action :=
  switch c [46 --> st 72; 58 --> st 111] (
  if (c <? 65) then (
    if (48 <=? c) && (c <=? 57) then st 117
    else st 0)
  else if (70 <? c) then (
    if (97 <=? c) && (c <=? 102) then st 117
    else st 0)
  else st 117).
Definition st_121 (c : Z) : target action :=
  switch c [46 --> st 72; 53 --> st 123; 58 --> st 111] (
  if (c <? 65) then (
    if (48 <=? c) && (c <=? 57) then st 122
    else st 0)
  else if (70 <? c) then (
    if (97 <=? c) && (c <=? 102) then st 115
    else st 0)
  else st 115).
Definition st_122 (c : Z) : target action :=
  switch c [46 --> st 72; 58 --> st 111] (
  if (c <? 65) then (
    if (48 <=? c) && (c <=? 57) then st 116
    else st 0)
  else if (70 <? c) then (
    if (97 <=? c) && (c <=? 102) then st 116
    else st 0)
  else st 116).
Definition st_123 (c : Z) : target action :=
  switch c [46 --> st 72; 58 --> st 111] (
  if (c <? 54) then (
    if (48 <=? c) && (c <=? 53) then st 120
    else st 0)
  else if (57 <? c) then (
    if (70 <? c) then (
      if (97 <=? c) && (c <=? 102) then st 116
      else st 0)
    else if (65 <=? c) then st 116
    else st 0)
  else st 116).
Definition st_124 (c : Z) : target action :=
  switch c [46 --> st 72; 58 --> st 111] (
  if (c <? 65) then (
    if (48 <=? c) && (c <=? 57) then st 122
    else st 0)
  else if (70 <? c) then (
    if (97 <=? c) && (c <=? 102) then st 115
    else st 0)
  else st 115).
Definition st_125 (c : Z) : target action :=
  if (c =? 58) then st 111
  else if (c <? 65) then (
    if (48 <=? c) && (c <=? 57) then st 115
    else st 0)
  else if (70 <? c) then (
    if (97 <=? c) && (c <=? 102) then st 115
    else st 0)
  else st 115.
Definition st_126 (c : Z) : target action :=
  if (c <? 65) then (
    if (48 <=? c) && (c <=? 57) then st 127
    else st 0)
  else if (70 <? c) then (
    if (97 <=? c) && (c <=? 102) then st 127
    else st 0)
  else st 127.
Definition st_127 (c : Z) : target action :=
  if (c =? 58) then st 113
  else if (c <? 65) then (
    if (48 <=? c) && (c <=? 57) then st 128
    else st 0)
  else if (70 <? c) then (
    if (97 <=? c) && (c <=? 102) then st 128
    else st 0)
  else st 128.
Definition st_128 (c : Z) : target action :=
  if (c =? 58) then st 113
  else if (c <? 65) then (
    if (48 <=? c) && (c <=? 57) then st 129
    else st 0)
  else if (70 <? c) then (
    if (97 <=? c) && (c <=? 102) then st 129
    else st 0)
  else st 129.
Definition st_129 (c : Z) : target action :=
  if (c =? 58) then st 113
  else if (c <? 65) then (
    if (48 <=? c) && (c <=? 57) then st 130
    else st 0)
  else if (70 <? c) then (
    if (97 <=? c) && (c <=? 102) then st 130
    else st 0)
  else st 130.
Definition st_130 (c : Z) : target action :=
  if (c =? 58) then st 113
  else st 0.
Definition st_131 (c : Z) : target action :=
  if (c <? 65) then (
    if (48 <=? c) && (c <=? 57) then st 132
    else st 0)
  else if (70 <? c) then (
    if (97 <=? c) && (c <=? 102) then st 132
    else st 0)
  else st 132.
Definition st_132 (c : Z) : target action :=
  if (c =? 58) then st 126
  else if (c <? 65) then (
    if (48 <=? c) && (c <=? 57) then st 133
    else st 0)
  else if (70 <? c) then (
    if (97 <=? c) && (c <=? 102) then st 133
    else st 0)
  else st 133.
Definition st_133 (c : Z) : target action :=
  if (c =? 58) then st 126
  else if (c <? 65) then (
    if (48 <=? c) && (c <=? 57) then st 134
    else st 0)
  else if (70 <? c) then (
    if (97 <=? c) && (c <=? 102) then st 134
    else st 0)
  else st 134.
Definition st_134 (c : Z) : target action :=
  if (c =? 58) then st 126
  else if (c <? 65) then (
    if (48 <=? c) && (c <=? 57) then st 135
    else st 0)
  else if (70 <? c) then (
    if (97 <=? c) && (c <=? 102) then st 135
    else st 0)
  else st 135.
Definition st_135 (c : Z) : target action :=
  if (c =? 58) then st 126
  else st 0.
Definition st_136 (c : Z) : target action :=
  if (c <? 65) then (
    if (48 <=? c) && (c <=? 57) then st 137
    else st 0)
  else if (70 <? c) then (
    if (97 <=? c) && (c <=? 102) then st 137
    else st 0)
  else st 137.
Definition st_137 (c : Z) : target action :=
  if (c =? 58) then st 131
  else if (c <? 65) then (
    if (48 <=? c) && (c <=? 57) then st 138
    else st 0)
  else if (70 <? c) then (
    if (97 <=? c) && (c <=? 102) then st 138
    else st 0)
  else st 138.
Definition st_138 (c : Z) : target action :=
  if (c =? 58) then st 131
  else if (c <? 65) then (
    if (48 <=? c) && (c <=? 57) then st 139
    else st 0)
  else if (70 <? c) then (
    if (97 <=? c) && (c <=? 102) then st 139
    else st 0)
  else st 139.
Definition st_139 (c : Z) : target action :=
  if (c =? 58) then st 131
  else if (c <? 65) then (
    if (48 <=? c) && (c <=? 57) then st 140
    else st 0)
  else if (70 <? c) then (
    if (97 <=? c) && (c <=? 102) then st 140
    else st 0)
  else st 140.
Definition st_140 (c : Z) : target action :=
  if (c =? 58) then st 131
  else st 0.
Definition st_141 (c : Z) : target action :=
  if (c <? 65) then (
    if (48 <=? c) && (c <=? 57) then st 142
    else st 0)
  else if (70 <? c) then (
    if (97 <=? c) && (c <=? 102) then st 142
    else st 0)
  else st 142.
Definition st_142 (c : Z) : target action :=
  if (c =? 58) then st 136
  else if (c <? 65) then (
    if (48 <=? c) && (c <=? 57) then st 143
    else st 0)
  else if (70 <? c) then (
    if (97 <=? c) && (c <=? 102) then st 143
    else st 0)
  else st 143.
Definition st_143 (c : Z) : target action :=
  if (c =? 58) then st 136
  else if (c <? 65) then (
    if (48 <=? c) && (c <=? 57) then st 144
    else st 0)
  else if (70 <? c) then (
    if (97 <=? c) && (c <=? 102) then st 144
    else st 0)
  else st 144.
Definition st_144 (c : Z) : target action :=
  if (c =? 58) then st 136
  else if (c <? 65) then (
    if (48 <=? c) && (c <=? 57) then st 145
    else st 0)
  else if (70 <? c) then (
    if (97 <=? c) && (c <=? 102) then st 145
    else st 0)
  else st 145.
Definition st_145 (c : Z) : target action :=
  if (c =? 58) then st 136
  else st 0.
Definition st_146 (c : Z) : target action :=
  if (c =? 58) then st 147
  else st 0.
Definition st_147 (c : Z) : target action :=
  switch c [2 --> st 69; 48 --> st 148; 49 --> st 217; 50 --> st 220; 93 --> st 460] (
  if (c <? 65) then (
    if (51 <=? c) && (c <=? 57) then st 223
    else st 0)
  else if (70 <? c) then (
    if (97 <=? c) && (c <=? 102) then st 224
    else st 0)
  else st 224).
Definition st_148 (c : Z) : target action :=
  switch c [46 --> st 72; 58 --> st 152; 93 --> st 460] (
  if (c <? 65) then (
    if (48 <=? c) && (c <=? 57) then st 149
    else st 0)
  else if (70 <? c) then (
    if (97 <=? c) && (c <=? 102) then st 149
    else st 0)
  else st 149).
Definition st_149 (c : Z) : target action :=
  switch c [58 --> st 152; 93 --> st 460] (
  if (c <? 65) then (
    if (48 <=? c) && (c <=? 57) then st 150
    else st 0)
  else if (70 <? c) then (
    if (97 <=? c) && (c <=? 102) then st 150
    else st 0)
  else st 150).
Definition st_150 (c : Z) : target action :=
  switch c [58 --> st 152; 93 --> st 460] (
  if (c <? 65) then (
    if (48 <=? c) && (c <=? 57) then st 151
    else st 0)
  else if (70 <? c) then (
    if (97 <=? c) && (c <=? 102) then st 151
    else st 0)
  else st 151).
Definition st_151 (c : Z) : target action :=
  switch c [58 --> st 152; 93 --> st 460] (
  st 0).
Definition st_152 (c : Z) : target action :=
  switch c [2 --> st 69; 48 --> st 153; 49 --> st 209; 50 --> st 212] (
  if (c <? 65) then (
    if (51 <=? c) && (c <=? 57) then st 215
    else st 0)
  else if (70 <? c) then (
    if (97 <=? c) && (c <=? 102) then st 216
    else st 0)
  else st 216).
Definition st_153 (c : Z) : target action :=
  switch c [46 --> st 72; 58 --> st 157; 93 --> st 460] (
  if (c <? 65) then (
    if (48 <=? c) && (c <=? 57) then st 154
    else st 0)
  else if (70 <? c) then (
    if (97 <=? c) && (c <=? 102) then st 154
    else st 0)
  else st 154).
Definition st_154 (c : Z) : target action :=
  switch c [58 --> st 157; 93 --> st 460] (
  if (c <? 65) then (
    if (48 <=? c) && (c <=? 57) then st 155
    else st 0)
  else if (70 <? c) then (
    if (97 <=? c) && (c <=? 102) then st 155
    else st 0)
  else st 155).
Definition st_155 (c : Z) : target action :=
  switch c [58 --> st 157; 93 --> st 460] (
  if (c <? 65) then (
    if (48 <=? c) && (c <=? 57) then st 156
    else st 0)
  else if (70 <? c) then (
    if (97 <=? c) && (c <=? 102) then st 156
    else st 0)
  else st 156).
Definition st_156 (c : Z) : target action :=
  switch c [58 --> st 157; 93 --> st 460] (
  st 0).
Definition st_157 (c : Z) : target action :=
  switch c [2 --> st 69; 48 --> st 158; 49 --> st 201; 50 --> st 204] (
  if (c <? 65) then (
    if (51 <=? c) && (c <=? 57) then st 207
    else st 0)
  else if (70 <? c) then (
    if (97 <=? c) && (c <=? 102) then st 208
    else st 0)
  else st 208).
Definition st_158 (c : Z) : target action :=
  switch c [46 --> st 72; 58 --> st 162; 93 --> st 460] (
  if (c <? 65) then (
    if (48 <=? c) && (c <=? 57) then st 159
    else st 0)
  else if (70 <? c) then (
    if (97 <=? c) && (c <=? 102) then st 159
    else st 0)
  else st 159).
Definition st_159 (c : Z) : target action :=
  switch c [58 --> st 162; 93 --> st 460] (
  if (c <? 65) then (
    if (48 <=? c) && (c <=? 57) then st 160
    else st 0)
  else if (70 <? c) then (
    if (97 <=? c) && (c <=? 102) then st 160
    else st 0)
  else st 160).
Definition st_160 (c : Z) : target action :=
  switch c [58 --> st 162; 93 --> st 460] (
  if (c <? 65) then (
    if (48 <=? c) && (c <=? 57) then st 161
    else st 0)
  else if (70 <? c) then (
    if (97 <=? c) && (c <=? 102) then st 161
    else st 0)
  else st 161).
Definition st_161 (c : Z) : target action :=
  switch c [58 --> st 162; 93 --> st 460] (
  st 0).
Definition st_162 (c : Z) : target action :=
  switch c [2 --> st 69; 48 --> st 163; 49 --> st 193; 50 --> st 196] (
  if (c <? 65) then (
    if (51 <=? c) && (c <=? 57) then st 199
    else st 0)
  else if (70 <? c) then (
    if (97 <=? c) && (c <=? 102) then st 200
    else st 0)
  else st 200).
Definition st_163 (c : Z) : target action :=
  switch c [46 --> st 72; 58 --> st 167; 93 --> st 460] (
  if (c <? 65) then (
    if (48 <=? c) && (c <=? 57) then st 164
    else st 0)
  else if (70 <? c) then (
    if (97 <=? c) && (c <=? 102) then st 164
    else st 0)
  else st 164).
Definition st_164 (c : Z) : target action :=
  switch c [58 --> st 167; 93 --> st 460] (
  if (c <? 65) then (
    if (48 <=? c) && (c <=? 57) then st 165
    else st 0)
  else if (70 <? c) then (
    if (97 <=? c) && (c <=? 102) then st 165
    else st 0)
  else st 165).
Definition st_165 (c : Z) : target action :=
  switch c [58 --> st 167; 93 --> st 460] (
  if (c <? 65) then (
    if (48 <=? c) && (c <=? 57) then st 166
    else st 0)
  else if (70 <? c) then (
    if (97 <=? c) && (c <=? 102) then st 166
    else st 0)
  else st 166).
Definition st_166 (c : Z) : target action :=
  switch c [58 --> st 167; 93 --> st 460] (
  st 0).
Definition st_167 (c : Z) : target action :=
  switch c [2 --> st 69; 48 --> st 168; 49 --> st 185; 50 --> st 188] (
  if (c <? 65) then (
    if (51 <=? c) && (c <=? 57) then st 191
    else st 0)
  else if (70 <? c) then (
    if (97 <=? c) && (c <=? 102) then st 192
    else st 0)
  else st 192).
Definition st_168 (c : Z) : target action :=
  switch c [46 --> st 72; 58 --> st 172; 93 --> st 460] (
  if (c <? 65) then (
    if (48 <=? c) && (c <=? 57) then st 169
    else st 0)
  else if (70 <? c) then (
    if (97 <=? c) && (c <=? 102) then st 169
    else st 0)
  else st 169).
Definition st_169 (c : Z) : target action :=
  switch c [58 --> st 172; 93 --> st 460] (
  if (c <? 65) then (
    if (48 <=? c) && (c <=? 57) then st 170
    else st 0)
  else if (70 <? c) then (
    if (97 <=? c) && (c <=? 102) then st 170
    else st 0)
  else st 170).
Definition st_170 (c : Z) : target action :=
  switch c [58 --> st 172; 93 --> st 460] (
  if (c <? 65) then (
    if (48 <=? c) && (c <=? 57) then st 171
    else st 0)
  else if (70 <? c) then (
    if (97 <=? c) && (c <=? 102) then st 171
    else st 0)
  else st 171).
Definition st_171 (c : Z) : target action :=
  switch c [58 --> st 172; 93 --> st 460] (
  st 0).
Definition st_172 (c : Z) : target action :=
  switch c [2 --> st 69; 48 --> st 173; 49 --> st 177; 50 --> st 180] (
  if (c <? 65) then (
    if (51 <=? c) && (c <=? 57) then st 183
    else st 0)
  else if (70 <? c) then (
    if (97 <=? c) && (c <=? 102) then st 184
    else st 0)
  else st 184).
Definition st_173 (c : Z) : target action :=
  switch c [46 --> st 72; 58 --> st 111; 93 --> st 460] (
  if (c <? 65) then (
    if (48 <=? c) && (c <=? 57) then st 174
    else st 0)
  else if (70 <? c) then (
    if (97 <=? c) && (c <=? 102) then st 174
    else st 0)
  else st 174).
Definition st_174 (c : Z) : target action :=
  switch c [58 --> st 111; 93 --> st 460] (
  if (c <? 65) then (
    if (48 <=? c) && (c <=? 57) then st 175
    else st 0)
  else if (70 <? c) then (
    if (97 <=? c) && (c <=? 102) then st 175
    else st 0)
  else st 175).
Definition st_175 (c : Z) : target action :=
  switch c [58 --> st 111; 93 --> st 460] (
  if (c <? 65) then (
    if (48 <=? c) && (c <=? 57) then st 176
    else st 0)
  else if (70 <? c) then (
    if (97 <=? c) && (c <=? 102) then st 176
    else st 0)
  else st 176).
Definition st_176 (c : Z) : target action :=
  switch c [58 --> st 111; 93 --> st 460] (
  st 0).
Definition st_177 (c : Z) : target action :=
  switch c [46 --> st 72; 58 --> st 111; 93 --> st 460] (
  if (c <? 65) then (
    if (48 <=? c) && (c <=? 57) then st 178
    else st 0)
  else if (70 <? c) then (
    if (97 <=? c) && (c <=? 102) then st 174
    else st 0)
  else st 174).
Definition st_178 (c : Z) : target action :=
  switch c [46 --> st 72; 58 --> st 111; 93 --> st 460] (
  if (c <? 65) then (
    if (48 <=? c) && (c <=? 57) then st 179
    else st 0)
  else if (70 <? c) then (
    if (97 <=? c) && (c <=? 102) then st 175
    else st 0)
  else st 175).
Definition st_179 (c : Z) : target action :=
  switch c [46 --> st 72; 58 --> st 111; 93 --> st 460] (
  if (c <? 65) then (
    if (48 <=? c) && (c <=? 57) then st 176
    else st 0)
  else if (70 <? c) then (
    if (97 <=? c) && (c <=? 102) then st 176
    else st 0)
  else st 176).
Definition st_180 (c : Z) : target action :=
  switch c [46 --> st 72; 53 --> st 182; 58 --> st 111; 93 --> st 460] (
  if (c <? 65) then (
    if (48 <=? c) && (c <=? 57) then st 181
    else st 0)
  else if (70 <? c) then (
    if (97 <=? c) && (c <=? 102) then st 174
    else st 0)
  else st 174).
Definition st_181 (c : Z) : target action :=
  switch c [46 --> st 72; 58 --> st 111; 93 --> st 460] (
  if (c <? 65) then (
    if (48 <=? c) && (c <=? 57) then st 175
    else st 0)
  else if (70 <? c) then (
    if (97 <=? c) && (c <=? 102) then st 175
    else st 0)
  else st 175).
Definition st_182 (c : Z) : target action :=
  switch c [46 --> st 72; 58 --> st 111; 93 --> st 460] (
  if (c <? 54) then (
    if (48 <=? c) && (c <=? 53) then st 179
    else st 0)
  else if (57 <? c) then (
    if (70 <? c) then (
      if (97 <=? c) && (c <=? 102) then st 175
      else st 0)
    else if (65 <=? c) then st 175
    else st 0)
  else st 175).
Definition st_183 (c : Z) : target action :=
  switch c [46 --> st 72; 58 --> st 111; 93 --> st 460] (
  if (c <? 65) then (
    if (48 <=? c) && (c <=? 57) then st 181
    else st 0)
  else if (70 <? c) then (
    if (97 <=? c) && (c <=? 102) then st 174
    else st 0)
  else st 174).
Definition st_184 (c : Z) : target action :=
  switch c [58 --> st 111; 93 --> st 460] (
  if (c <? 65) then (
    if (48 <=? c) && (c <=? 57) then st 174
    else st 0)
  else if (70 <? c) then (
    if (97 <=? c) && (c <=? 102) then st 174
    else st 0)
  else st 174).
Definition st_185 (c : Z) : target action :=
  switch c [46 --> st 72; 58 --> st 172; 93 --> st 460] (
  if (c <? 65) then (
    if (48 <=? c) && (c <=? 57) then st 186
    else st 0)
  else if (70 <? c) then (
    if (97 <=? c) && (c <=? 102) then st 169
    else st 0)
  else st 169).
Definition st_186 (c : Z) : target action :=
  switch c [46 --> st 72; 58 --> st 172; 93 --> st 460] (
  if (c <? 65) then (
    if (48 <=? c) && (c <=? 57) then st 187
    else st 0)
  else if (70 <? c) then (
    if (97 <=? c) && (c <=? 102) then st 170
    else st 0)
  else st 170).
Definition st_187 (c : Z) : target action :=
  switch c [46 --> st 72; 58 --> st 172; 93 --> st 460] (
  if (c <? 65) then (
    if (48 <=? c) && (c <=? 57) then st 171
    else st 0)
  else if (70 <? c) then (
    if (97 <=? c) && (c <=? 102) then st 171
    else st 0)
  else st 171).
Definition st_188 (c : Z) : target action :=
  switch c [46 --> st 72; 53 --> st 190; 58 --> st 172; 93 --> st 460] (
  if (c <? 65) then (
    if (48 <=? c) && (c <=? 57) then st 189
    else st 0)
  else if (70 <? c) then (
    if (97 <=? c) && (c <=? 102) then st 169
    else st 0)
  else st 169).
Definition st_189 (c : Z) : target action :=
  switch c [46 --> st 72; 58 --> st 172; 93 --> st 460] (
  if (c <? 65) then (
    if (48 <=? c) && (c <=? 57) then st 170
    else st 0)
  else if (70 <? c) then (
    if (97 <=? c) && (c <=? 102) then st 170
    else st 0)
  else st 170).
Definition st_190 (c : Z) : target action :=
  switch c [46 --> st 72; 58 --> st 172; 93 --> st 460] (
  if (c <? 54) then (
    if (48 <=? c) && (c <=? 53) then st 187
    else st 0)
  else if (57 <? c) then (
    if (70 <? c) then (
      if (97 <=? c) && (c <=? 102) then st 170
      else st 0)
    else if (65 <=? c) then st 170
    else st 0)
  else st 170).
Definition st_191 (c : Z) : target action :=
  switch c [46 --> st 72; 58 --> st 172; 93 --> st 460] (
  if (c <? 65) then (
    if (48 <=? c) && (c <=? 57) then st 189
    else st 0)
  else if (70 <? c) then (
    if (97 <=? c) && (c <=? 102) then st 169
    else st 0)
  else st 169).
Definition st_192 (c : Z) : target action :=
  switch c [58 --> st 172; 93 --> st 460] (
  if (c <? 65) then (
    if (48 <=? c) && (c <=? 57) then st 169
    else st 0)
  else if (70 <? c) then (
    if (97 <=? c) && (c <=? 102) then st 169
    else st 0)
  else st 169).
Definition st_193 (c : Z) : target action :=
  switch c [46 --> st 72; 58 --> st 167; 93 --> st 460] (
  if (c <? 65) then (
    if (48 <=? c) && (c <=? 57) then st 194
    else st 0)
  else if (70 <? c) then (
    if (97 <=? c) && (c <=? 102) then st 164
    else st 0)
  else st 164).
Definition st_194 (c : Z) : target action :=
  switch c [46 --> st 72; 58 --> st 167; 93 --> st 460] (
  if (c <? 65) then (
    if (48 <=? c) && (c <=? 57) then st 195
    else st 0)
  else if (70 <? c) then (
    if (97 <=? c) && (c <=? 102) then st 165
    else st 0)
  else st 165).
Definition st_195 (c : Z) : target action :=
  switch c [46 --> st 72; 58 --> st 167; 93 --> st 460] (
  if (c <? 65) then (
    if (48 <=? c) && (c <=? 57) then st 166
    else st 0)
  else if (70 <? c) then (
    if (97 <=? c) && (c <=? 102) then st 166
    else st 0)
  else st 166).
Definition st_196 (c : Z) : target action :=
  switch c [46 --> st 72; 53 --> st 198; 58 --> st 167; 93 --> st 460] (
  if (c <? 65) then (
    if (48 <=? c) && (c <=? 57) then st 197
    else st 0)
  else if (70 <? c) then (
    if (97 <=? c) && (c <=? 102) then st 164
    else st 0)
  else st 164).
Definition st_197 (c : Z) : target action :=
  switch c [46 --> st 72; 58 --> st 167; 93 --> st 460] (
  if (c <? 65) then (
    if (48 <=? c) && (c <=? 57) then st 165
    else st 0)
  else if (70 <? c) then (
    if (97 <=? c) && (c <=? 102) then st 165
    else st 0)
  else st 165).
Definition st_198 (c : Z) : target action :=
  switch c [46 --> st 72; 58 --> st 167; 93 --> st 460] (
  if (c <? 54) then (
    if (48 <=? c) && (c <=? 53) then st 195
    else st 0)
  else if (57 <? c) then (
    if (70 <? c) then (
      if (97 <=? c) && (c <=? 102) then st 165
      else st 0)
    else if (65 <=? c) then st 165
    else st 0)
  else st 165).
Definition st_199 (c : Z) : target action :=
  switch c [46 --> st 72; 58 --> st 167; 93 --> st 460] (
  if (c <? 65) then (
    if (48 <=? c) && (c <=? 57) then st 197
    else st 0)
  else if (70 <? c) then (
    if (97 <=? c) && (c <=? 102) then st 164
    else st 0)
  else st 164).
Definition st_200 (c : Z) : target action :=
  switch c [58 --> st 167; 93 --> st 460] (
  if (c <? 65) then (
    if (48 <=? c) && (c <=? 57) then st 164
    else st 0)
  else if (70 <? c) then (
    if (97 <=? c) && (c <=? 102) then st 164
    else st 0)
  else st 164).
Definition st_201 (c : Z) : target action :=
  switch c [46 --> st 72; 58 --> st 162; 93 --> st 460] (
  if (c <? 65) then (
    if (48 <=? c) && (c <=? 57) then st 202
    else st 0)
  else if (70 <? c) then (
    if (97 <=? c) && (c <=? 102) then st 159
    else st 0)
  else st 159).
Definition st_202 (c : Z) : target action :=
  switch c [46 --> st 72; 58 --> st 162; 93 --> st 460] (
  if (c <? 65) then (
    if (48 <=? c) && (c <=? 57) then st 203
    else st 0)
  else if (70 <? c) then (
    if (97 <=? c) && (c <=? 102) then st 160
    else st 0)
  else st 160).
Definition st_203 (c : Z) : target action :=
  switch c [46 --> st 72; 58 --> st 162; 93 --> st 460] (
  if (c <? 65) then (
    if (48 <=? c) && (c <=? 57) then st 161
    else st 0)
  else if (70 <? c) then (
    if (97 <=? c) && (c <=? 102) then st 161
    else st 0)
  else st 161).
Definition st_204 (c : Z) : target action :=
  switch c [46 --> st 72; 53 --> st 206; 58 --> st 162; 93 --> st 460] (
  if (c <? 65) then (
    if (48 <=? c) && (c <=? 57) then st 205
    else st 0)
  else if (70 <? c) then (
    if (97 <=? c) && (c <=? 102) then st 159
    else st 0)
  else st 159).
Definition st_205 (c : Z) : target action :=
  switch c [46 --> st 72; 58 --> st 162; 93 --> st 460] (
  if (c <? 65) then (
    if (48 <=? c) && (c <=? 57) then st 160
    else st 0)
  else if (70 <? c) then (
    if (97 <=? c) && (c <=? 102) then st 160
    else st 0)
  else st 160).
Definition st_206 (c : Z) : target action :=
  switch c [46 --> st 72; 58 --> st 162; 93 --> st 460] (
  if (c <? 54) then (
    if (48 <=? c) && (c <=? 53) then st 203
    else st 0)
  else if (57 <? c) then (
    if (70 <? c) then (
      if (97 <=? c) && (c <=? 102) then st 160
      else st 0)
    else if (65 <=? c) then st 160
    else st 0)
  else st 160).
Definition st_207 (c : Z) : target action :=
  switch c [46 --> st 72; 58 --> st 162; 93 --> st 460] (
  if (c <? 65) then (
    if (48 <=? c) && (c <=? 57) then st 205
    else st 0)
  else if (70 <? c) then (
    if (97 <=? c) && (c <=? 102) then st 159
    else st 0)
  else st 159).
Definition st_208 (c : Z) : target action :=
  switch c [58 --> st 162; 93 --> st 460] (
  if (c <? 65) then (
    if (48 <=? c) && (c <=? 57) then st 159
    else st 0)
  else if (70 <? c) then (
    if (97 <=? c) && (c <=? 102) then st 159
    else st 0)
  else st 159).
Definition st_209 (c : Z) : target action :=
  switch c [46 --> st 72; 58 --> st 157; 93 --> st 460] (
  if (c <? 65) then (
    if (48 <=? c) && (c <=? 57) then st 210
    else st 0)
  else if (70 <? c) then (
    if (97 <=? c) && (c <=? 102) then st 154
    else st 0)
  else st 154).
Definition st_210 (c : Z) : target action :=
  switch c [46 --> st 72; 58 --> st 157; 93 --> st 460] (
  if (c <? 65) then (
    if (48 <=? c) && (c <=? 57) then st 211
    else st 0)
  else if (70 <? c) then (
    if (97 <=? c) && (c <=? 102) then st 155
    else st 0)
  else st 155).
Definition st_211 (c : Z) : target action :=
  switch c [46 --> st 72; 58 --> st 157; 93 --> st 460] (
  if (c <? 65) then (
    if (48 <=? c) && (c <=? 57) then st 156
    else st 0)
  else if (70 <? c) then (
    if (97 <=? c) && (c <=? 102) then st 156
    else st 0)
  else st 156).
Definition st_212 (c : Z) : target action :=
  switch c [46 --> st 72; 53 --> st 214; 58 --> st 157; 93 --> st 460] (
  if (c <? 65) then (
    if (48 <=? c) && (c <=? 57) then st 213
    else st 0)
  else if (70 <? c) then (
    if (97 <=? c) && (c <=? 102) then st 154
    else st 0)
  else st 154).
Definition st_213 (c : Z) : target action :=
  switch c [46 --> st 72; 58 --> st 157; 93 --> st 460] (
  if (c <? 65) then (
    if (48 <=? c) && (c <=? 57) then st 155
    else st 0)
  else if (70 <? c) then (
    if (97 <=? c) && (c <=? 102) then st 155
    else st 0)
  else st 155).
Definition st_214 (c : Z) : target action :=
  switch c [46 --> st 72; 58 --> st 157; 93 --> st 460] (
  if (c <? 54) then (
    if (48 <=? c) && (c <=? 53) then st 211
    else st 0)
  else if (57 <? c) then (
    if (70 <? c) then (
      if (97 <=? c) && (c <=? 102) then st 155
      else st 0)
    else if (65 <=? c) then st 155
    else st 0)
  else st 155).
Definition st_215 (c : Z) : target action :=
  switch c [46 --> st 72; 58 --> st 157; 93 --> st 460] (
  if (c <? 65) then (
    if (48 <=? c) && (c <=? 57) then st 213
    else st 0)
  else if (70 <? c) then (
    if (97 <=? c) && (c <=? 102) then st 154
    else st 0)
  else st 154).
Definition st_216 (c : Z) : target action :=
  switch c [58 --> st 157; 93 --> st 460] (
  if (c <? 65) then (
    if (48 <=? c) && (c <=? 57) then st 154
    else st 0)
  else if (70 <? c) then (
    if (97 <=? c) && (c <=? 102) then st 154
    else st 0)
  else st 154).
Definition st_217 (c : Z) : target action :=
  switch c [46 --> st 72; 58 --> st 152; 93 --> st 460] (
  if (c <? 65) then (
    if (48 <=? c) && (c <=? 57) then st 218
    else st 0)
  else if (70 <? c) then (
    if (97 <=? c) && (c <=? 102) then st 149
    else st 0)
  else st 149).
Definition st_218 (c : Z) : target action :=
  switch c [46 --> st 72; 58 --> st 152; 93 --> st 460] (
  if (c <? 65) then (
    if (48 <=? c) && (c <=? 57) then st 219
    else st 0)
  else if (70 <? c) then (
    if (97 <=? c) && (c <=? 102) then st 150
    else st 0)
  else st 150).
Definition st_219 (c : Z) : target action :=
  switch c [46 --> st 72; 58 --> st 152; 93 --> st 460] (
  if (c <? 65) then (
    if (48 <=? c) && (c <=? 57) then st 151
    else st 0)
  else if (70 <? c) then (
    if (97 <=? c) && (c <=? 102) then st 151
    else st 0)
  else st 151).
Definition st_220 (c : Z) : target action :=
  switch c [46 --> st 72; 53 --> st 222; 58 --> st 152; 93 --> st 460] (
  if (c <? 65) then (
    if (48 <=? c) && (c <=? 57) then st 221
    else st 0)
  else if (70 <? c) then (
    if (97 <=? c) && (c <=? 102) then st 149
    else st 0)
  else st 149).
Definition st_221 (c : Z) : target action :=
  switch c [46 --> st 72; 58 --> st 152; 93 --> st 460] (
  if (c <? 65) then (
    if (48 <=? c) && (c <=? 57) then st 150
    else st 0)
  else if (70 <? c) then (
    if (97 <=? c) && (c <=? 102) then st 150
    else st 0)
  else st 150).
Definition st_222 (c : Z) : target action :=
  switch c [46 --> st 72; 58 --> st 152; 93 --> st 460] (
  if (c <? 54) then (
    if (48 <=? c) && (c <=? 53) then st 219
    else st 0)
  else if (57 <? c) then (
    if (70 <? c) then (
      if (97 <=? c) && (c <=? 102) then st 150
      else st 0)
    else if (65 <=? c) then st 150
    else st 0)
  else st 150).
Definition st_223 (c : Z) : target action :=
  switch c [46 --> st 72; 58 --> st 152; 93 --> st 460] (
  if (c <? 65) then (
    if (48 <=? c) && (c <=? 57) then st 221
    else st 0)
  else if (70 <? c) then (
    if (97 <=? c) && (c <=? 102) then st 149
    else st 0)
  else st 149).
Definition st_224 (c : Z) : target action :=
  switch c [58 --> st 152; 93 --> st 460] (
  if (c <? 65) then (
    if (48 <=? c) && (c <=? 57) then st 149
    else st 0)
  else if (70 <? c) then (
    if (97 <=? c) && (c <=? 102) then st 149
    else st 0)
  else st 149).
Definition st_225 (c : Z) : target action :=
  if (c <? 65) then (
    if (48 <=? c) && (c <=? 57) then st 226
    else st 0)
  else if (70 <? c) then (
    if (97 <=? c) && (c <=? 102) then st 226
    else st 0)
  else st 226.
Definition st_226 (c : Z) : target action :=
  if (c =? 46) then st 227
  else if (c <? 65) then (
    if (48 <=? c) && (c <=? 57) then st 226
    else st 0)
  else if (70 <? c) then (
    if (97 <=? c) && (c <=? 102) then st 226
    else st 0)
  else st 226.
Definition st_227 (c : Z) : target action :=
  switch c [33 --> st 228; 36 --> st 228; 61 --> st 228; 95 --> st 228; 126 --> st 228] (
  if (c <? 48) then (
    if (38 <=? c) && (c <=? 46) then st 228
    else st 0)
  else if (59 <? c) then (
    if (90 <? c) then (
      if (97 <=? c) && (c <=? 122) then st 228
      else st 0)
    else if (65 <=? c) then st 228
    else st 0)
  else st 228).
Definition st_228 (c : Z) : target action :=
  switch c [33 --> st 228; 36 --> st 228; 61 --> st 228; 93 --> st 460; 95 --> st 228;
    126 --> st 228] (
  if (c <? 48) then (
    if (38 <=? c) && (c <=? 46) then st 228
    else st 0)
  else if (59 <? c) then (
    if (90 <? c) then (
      if (97 <=? c) && (c <=? 122) then st 228
      else st 0)
    else if (65 <=? c) then st 228
    else st 0)
  else st 228).
Definition st_229 (c : Z) : target action :=
  if (48 <=? c) && (c <=? 52) then st 230
  else st 0.
Definition st_230 (c : Z) : target action :=
  if (48 <=? c) && (c <=? 57) then st 231
  else st 0.
Definition st_231 (c : Z) : target action :=
  if (c =? 46) then st 232
  else st 0.
Definition st_232 (c : Z) : target action :=
  switch c [2 --> st 233; 48 --> st 235; 49 --> st 249; 50 --> st 251] (
  if (51 <=? c) && (c <=? 57) then st 250
  else st 0).
Definition st_233 (c : Z) : target action :=
  if (48 <=? c) && (c <=? 52) then st 234
  else st 0.
Definition st_234 (c : Z) : target action :=
  if (48 <=? c) && (c <=? 57) then st 235
  else st 0.
Definition st_235 (c : Z) : target action :=
  if (c =? 46) then st 236
  else st 0.
Definition st_236 (c : Z) : target action :=
  switch c [2 --> st 237; 48 --> st 239; 49 --> st 245; 50 --> st 247] (
  if (51 <=? c) && (c <=? 57) then st 246
  else st 0).
Definition st_237 (c : Z) : target action :=
  if (48 <=? c) && (c <=? 52) then st 238
  else st 0.
Definition st_238 (c : Z) : target action :=
  if (48 <=? c) && (c <=? 57) then st 239
  else st 0.
Definition st_239 (c : Z) : target action :=
  if (c =? 46) then st 240
  else st 0.
Definition st_240 (c : Z) : target action :=
  switch c [2 --> st 241; 48 --> st 512; 49 --> st 516; 50 --> st 518] (
  if (51 <=? c) && (c <=? 57) then st 517
  else st 0).
Definition st_241 (c : Z) : target action :=
  if (48 <=? c) && (c <=? 52) then st 242
  else st 0.
Definition st_242 (c : Z) : target action :=
  if (48 <=? c) && (c <=? 57) then st 512
  else st 0.
Definition st_243 (c : Z) : target action :=
  if (c <? 65) then (
    if (48 <=? c) && (c <=? 57) then st 244
    else st 0)
  else if (70 <? c) then (
    if (97 <=? c) && (c <=? 102) then st 244
    else st 0)
  else st 244.
Definition st_244 (c : Z) : target action :=
  if (c <? 65) then (
    if (48 <=? c) && (c <=? 57) then st 513
    else st 0)
  else if (70 <? c) then (
    if (97 <=? c) && (c <=? 102) then st 513
    else st 0)
  else st 513.
Definition st_245 (c : Z) : target action :=
  if (c =? 46) then st 240
  else if (48 <=? c) && (c <=? 57) then st 246
  else st 0.
Definition st_246 (c : Z) : target action :=
  if (c =? 46) then st 240
  else if (48 <=? c) && (c <=? 57) then st 239
  else st 0.
Definition st_247 (c : Z) : target action :=
  switch c [46 --> st 240; 53 --> st 248] (
  if (48 <=? c) && (c <=? 57) then st 239
  else st 0).
Definition st_248 (c : Z) : target action :=
  if (c =? 46) then st 240
  else if (48 <=? c) && (c <=? 53) then st 239
  else st 0.
Definition st_249 (c : Z) : target action :=
  if (c =? 46) then st 236
  else if (48 <=? c) && (c <=? 57) then st 250
  else st 0.
Definition st_250 (c : Z) : target action :=
  if (c =? 46) then st 236
  else if (48 <=? c) && (c <=? 57) then st 235
  else st 0.
Definition st_251 (c : Z) : target action :=
  switch c [46 --> st 236; 53 --> st 252] (
  if (48 <=? c) && (c <=? 57) then st 235
  else st 0).
Definition st_252 (c : Z) : target action :=
  if (c =? 46) then st 236
  else if (48 <=? c) && (c <=? 53) then st 235
  else st 0.
Definition st_253 (c : Z) : target action :=
  if (c <? 65) then (
    if (48 <=? c) && (c <=? 57) then st 254
    else st 0)
  else if (70 <? c) then (
    if (97 <=? c) && (c <=? 102) then st 254
    else st 0)
  else st 254.
Definition st_254 (c : Z) : target action :=
  if (c <? 65) then (
    if (48 <=? c) && (c <=? 57) then st 520
    else st 0)
  else if (70 <? c) then (
    if (97 <=? c) && (c <=? 102) then st 520
    else st 0)
  else st 520.
Definition st_255 (c : Z) : target action :=
  switch c [33 --> st 255; 37 --> st 256; 61 --> st 255; 64 --> tr_263; 95 --> st 255;
    126 --> st 255] (
  if (c <? 48) then (
    if (36 <=? c) && (c <=? 46) then st 255
    else st 0)
  else if (59 <? c) then (
    if (90 <? c) then (
      if (97 <=? c) && (c <=? 122) then st 255
      else st 0)
    else if (65 <=? c) then st 255
    else st 0)
  else st 255).
Definition st_256 (c : Z) : target action :=
  if (c <? 65) then (
    if (48 <=? c) && (c <=? 57) then st 257
    else st 0)
  else if (70 <? c) then (
    if (97 <=? c) && (c <=? 102) then st 257
    else st 0)
  else st 257.
Definition st_257 (c : Z) : target action :=
  if (c <? 65) then (
    if (48 <=? c) && (c <=? 57) then st 255
    else st 0)
  else if (70 <? c) then (
    if (97 <=? c) && (c <=? 102) then st 255
    else st 0)
  else st 255.
Definition st_258 (c : Z) : target action :=
  if (c <? 65) then (
    if (48 <=? c) && (c <=? 57) then st 259
    else st 0)
  else if (70 <? c) then (
    if (97 <=? c) && (c <=? 102) then st 259
    else st 0)
  else st 259.
Definition st_259 (c : Z) : target action :=
  if (c <? 65) then (
    if (48 <=? c) && (c <=? 57) then st 523
    else st 0)
  else if (70 <? c) then (
    if (97 <=? c) && (c <=? 102) then st 523
    else st 0)
  else st 523.
Definition st_260 (c : Z) : target action :=
  switch c [58 --> st 368; 118 --> st 447] (
  if (c <? 65) then (
    if (48 <=? c) && (c <=? 57) then st 261
    else st 0)
  else if (70 <? c) then (
    if (97 <=? c) && (c <=? 102) then st 261
    else st 0)
  else st 261).
Definition st_261 (c : Z) : target action :=
  if (c =? 58) then st 265
  else if (c <? 65) then (
    if (48 <=? c) && (c <=? 57) then st 262
    else st 0)
  else if (70 <? c) then (
    if (97 <=? c) && (c <=? 102) then st 262
    else st 0)
  else st 262.
Definition st_262 (c : Z) : target action :=
  if (c =? 58) then st 265
  else if (c <? 65) then (
    if (48 <=? c) && (c <=? 57) then st 263
    else st 0)
  else if (70 <? c) then (
    if (97 <=? c) && (c <=? 102) then st 263
    else st 0)
  else st 263.
Definition st_263 (c : Z) : target action :=
  if (c =? 58) then st 265
  else if (c <? 65) then (
    if (48 <=? c) && (c <=? 57) then st 264
    else st 0)
  else if (70 <? c) then (
    if (97 <=? c) && (c <=? 102) then st 264
    else st 0)
  else st 264.
Definition st_264 (c : Z) : target action :=
  if (c =? 58) then st 265
  else st 0.
Definition st_265 (c : Z) : target action :=
  if (c =? 58) then st 363
  else if (c <? 65) then (
    if (48 <=? c) && (c <=? 57) then st 266
    else st 0)
  else if (70 <? c) then (
    if (97 <=? c) && (c <=? 102) then st 266
    else st 0)
  else st 266.
Definition st_266 (c : Z) : target action :=
  if (c =? 58) then st 270
  else if (c <? 65) then (
    if (48 <=? c) && (c <=? 57) then st 267
    else st 0)
  else if (70 <? c) then (
    if (97 <=? c) && (c <=? 102) then st 267
    else st 0)
  else st 267.
Definition st_267 (c : Z) : target action :=
  if (c =? 58) then st 270
  else if (c <? 65) then (
    if (48 <=? c) && (c <=? 57) then st 268
    else st 0)
  else if (70 <? c) then (
    if (97 <=? c) && (c <=? 102) then st 268
    else st 0)
  else st 268.
Definition st_268 (c : Z) : target action :=
  if (c =? 58) then st 270
  else if (c <? 65) then (
    if (48 <=? c) && (c <=? 57) then st 269
    else st 0)
  else if (70 <? c) then (
    if (97 <=? c) && (c <=? 102) then st 269
    else st 0)
  else st 269.
Definition st_269 (c : Z) : target action :=
  if (c =? 58) then st 270
  else st 0.
Definition st_270 (c : Z) : target action :=
  if (c =? 58) then st 358
  else if (c <? 65) then (
    if (48 <=? c) && (c <=? 57) then st 271
    else st 0)
  else if (70 <? c) then (
    if (97 <=? c) && (c <=? 102) then st 271
    else st 0)
  else st 271.
Definition st_271 (c : Z) : target action :=
  if (c =? 58) then st 275
  else if (c <? 65) then (
    if (48 <=? c) && (c <=? 57) then st 272
    else st 0)
  else if (70 <? c) then (
    if (97 <=? c) && (c <=? 102) then st 272
    else st 0)
  else st 272.
Definition st_272 (c : Z) : target action :=
  if (c =? 58) then st 275
  else if (c <? 65) then (
    if (48 <=? c) && (c <=? 57) then st 273
    else st 0)
  else if (70 <? c) then (
    if (97 <=? c) && (c <=? 102) then st 273
    else st 0)
  else st 273.
Definition st_273 (c : Z) : target action :=
  if (c =? 58) then st 275
  else if (c <? 65) then (
    if (48 <=? c) && (c <=? 57) then st 274
    else st 0)
  else if (70 <? c) then (
    if (97 <=? c) && (c <=? 102) then st 274
    else st 0)
  else st 274.
Definition st_274 (c : Z) : target action :=
  if (c =? 58) then st 275
  else st 0.
Definition st_275 (c : Z) : target action :=
  if (c =? 58) then st 353
  else if (c <? 65) then (
    if (48 <=? c) && (c <=? 57) then st 276
    else st 0)
  else if (70 <? c) then (
    if (97 <=? c) && (c <=? 102) then st 276
    else st 0)
  else st 276.
Definition st_276 (c : Z) : target action :=
  if (c =? 58) then st 280
  else if (c <? 65) then (
    if (48 <=? c) && (c <=? 57) then st 277
    else st 0)
  else if (70 <? c) then (
    if (97 <=? c) && (c <=? 102) then st 277
    else st 0)
  else st 277.
Definition st_277 (c : Z) : target action :=
  if (c =? 58) then st 280
  else if (c <? 65) then (
    if (48 <=? c) && (c <=? 57) then st 278
    else st 0)
  else if (70 <? c) then (
    if (97 <=? c) && (c <=? 102) then st 278
    else st 0)
  else st 278.
Definition st_278 (c : Z) : target action :=
  if (c =? 58) then st 280
  else if (c <? 65) then (
    if (48 <=? c) && (c <=? 57) then st 279
    else st 0)
  else if (70 <? c) then (
    if (97 <=? c) && (c <=? 102) then st 279
    else st 0)
  else st 279.
Definition st_279 (c : Z) : target action :=
  if (c =? 58) then st 280
  else st 0.
Definition st_280 (c : Z) : target action :=
  if (c =? 58) then st 348
  else if (c <? 65) then (
    if (48 <=? c) && (c <=? 57) then st 281
    else st 0)
  else if (70 <? c) then (
    if (97 <=? c) && (c <=? 102) then st 281
    else st 0)
  else st 281.
Definition st_281 (c : Z) : target action :=
  if (c =? 58) then st 285
  else if (c <? 65) then (
    if (48 <=? c) && (c <=? 57) then st 282
    else st 0)
  else if (70 <? c) then (
    if (97 <=? c) && (c <=? 102) then st 282
    else st 0)
  else st 282.
Definition st_282 (c : Z) : target action :=
  if (c =? 58) then st 285
  else if (c <? 65) then (
    if (48 <=? c) && (c <=? 57) then st 283
    else st 0)
  else if (70 <? c) then (
    if (97 <=? c) && (c <=? 102) then st 283
    else st 0)
  else st 283.
Definition st_283 (c : Z) : target action :=
  if (c =? 58) then st 285
  else if (c <? 65) then (
    if (48 <=? c) && (c <=? 57) then st 284
    else st 0)
  else if (70 <? c) then (
    if (97 <=? c) && (c <=? 102) then st 284
    else st 0)
  else st 284.
Definition st_284 (c : Z) : target action :=
  if (c =? 58) then st 285
  else st 0.
Definition st_285 (c : Z) : target action :=
  if (c =? 58) then st 335
  else if (c <? 65) then (
    if (48 <=? c) && (c <=? 57) then st 286
    else st 0)
  else if (70 <? c) then (
    if (97 <=? c) && (c <=? 102) then st 286
    else st 0)
  else st 286.
Definition st_286 (c : Z) : target action :=
  if (c =? 58) then st 290
  else if (c <? 65) then (
    if (48 <=? c) && (c <=? 57) then st 287
    else st 0)
  else if (70 <? c) then (
    if (97 <=? c) && (c <=? 102) then st 287
    else st 0)
  else st 287.
Definition st_287 (c : Z) : target action :=
  if (c =? 58) then st 290
  else if (c <? 65) then (
    if (48 <=? c) && (c <=? 57) then st 288
    else st 0)
  else if (70 <? c) then (
    if (97 <=? c) && (c <=? 102) then st 288
    else st 0)
  else st 288.
Definition st_288 (c : Z) : target action :=
  if (c =? 58) then st 290
  else if (c <? 65) then (
    if (48 <=? c) && (c <=? 57) then st 289
    else st 0)
  else if (70 <? c) then (
    if (97 <=? c) && (c <=? 102) then st 289
    else st 0)
  else st 289.
Definition st_289 (c : Z) : target action :=
  if (c =? 58) then st 290
  else st 0.
Definition st_290 (c : Z) : target action :=
  switch c [2 --> st 291; 48 --> st 318; 49 --> st 326; 50 --> st 329; 58 --> st 333] (
  if (c <? 65) then (
    if (51 <=? c) && (c <=? 57) then st 332
    else st 0)
  else if (70 <? c) then (
    if (97 <=? c) && (c <=? 102) then st 334
    else st 0)
  else st 334).
Definition st_291 (c : Z) : target action :=
  if (48 <=? c) && (c <=? 52) then st 292
  else st 0.
Definition st_292 (c : Z) : target action :=
  if (48 <=? c) && (c <=? 57) then st 293
  else st 0.
Definition st_293 (c : Z) : target action :=
  if (c =? 46) then st 294
  else st 0.
Definition st_294 (c : Z) : target action :=
  switch c [2 --> st 295; 48 --> st 297; 49 --> st 314; 50 --> st 316] (
  if (51 <=? c) && (c <=? 57) then st 315
  else st 0).
Definition st_295 (c : Z) : target action :=
  if (48 <=? c) && (c <=? 52) then st 296
  else st 0.
Definition st_296 (c : Z) : target action :=
  if (48 <=? c) && (c <=? 57) then st 297
  else st 0.
Definition st_297 (c : Z) : target action :=
  if (c =? 46) then st 298
  else st 0.
Definition st_298 (c : Z) : target action :=
  switch c [2 --> st 299; 48 --> st 301; 49 --> st 310; 50 --> st 312] (
  if (51 <=? c) && (c <=? 57) then st 311
  else st 0).
Definition st_299 (c : Z) : target action :=
  if (48 <=? c) && (c <=? 52) then st 300
  else st 0.
Definition st_300 (c : Z) : target action :=
  if (48 <=? c) && (c <=? 57) then st 301
  else st 0.
Definition st_301 (c : Z) : target action :=
  if (c =? 46) then st 302
  else st 0.
Definition st_302 (c : Z) : target action :=
  switch c [2 --> st 303; 48 --> st 305; 49 --> st 306; 50 --> st 308] (
  if (51 <=? c) && (c <=? 57) then st 307
  else st 0).
Definition st_303 (c : Z) : target action :=
  if (48 <=? c) && (c <=? 52) then st 304
  else st 0.
Definition st_304 (c : Z) : target action :=
  if (48 <=? c) && (c <=? 57) then st 305
  else st 0.
Definition st_305 (c : Z) : target action :=
  if (c =? 93) then st 512
  else st 0.
Definition st_306 (c : Z) : target action :=
  if (c =? 93) then st 512
  else if (48 <=? c) && (c <=? 57) then st 307
  else st 0.
Definition st_307 (c : Z) : target action :=
  if (c =? 93) then st 512
  else if (48 <=? c) && (c <=? 57) then st 305
  else st 0.
Definition st_308 (c : Z) : target action :=
  switch c [53 --> st 309; 93 --> st 512] (
  if (48 <=? c) && (c <=? 57) then st 305
  else st 0).
Definition st_309 (c : Z) : target action :=
  if (c =? 93) then st 512
  else if (48 <=? c) && (c <=? 53) then st 305
  else st 0.
Definition st_310 (c : Z) : target action :=
  if (c =? 46) then st 302
  else if (48 <=? c) && (c <=? 57) then st 311
  else st 0.
Definition st_311 (c : Z) : target action :=
  if (c =? 46) then st 302
  else if (48 <=? c) && (c <=? 57) then st 301
  else st 0.
Definition st_312 (c : Z) : target action :=
  switch c [46 --> st 302; 53 --> st 313] (
  if (48 <=? c) && (c <=? 57) then st 301
  else st 0).
Definition st_313 (c : Z) : target action :=
  if (c =? 46) then st 302
  else if (48 <=? c) && (c <=? 53) then st 301
  else st 0.
Definition st_314 (c : Z) : target action :=
  if (c =? 46) then st 298
  else if (48 <=? c) && (c <=? 57) then st 315
  else st 0.
Definition st_315 (c : Z) : target action :=
  if (c =? 46) then st 298
  else if (48 <=? c) && (c <=? 57) then st 297
  else st 0.
Definition st_316 (c : Z) : target action :=
  switch c [46 --> st 298; 53 --> st 317] (
  if (48 <=? c) && (c <=? 57) then st 297
  else st 0).
Definition st_317 (c : Z) : target action :=
  if (c =? 46) then st 298
  else if (48 <=? c) && (c <=? 53) then st 297
  else st 0.
Definition st_318 (c : Z) : target action :=
  switch c [46 --> st 294; 58 --> st 322] (
  if (c <? 65) then (
    if (48 <=? c) && (c <=? 57) then st 319
    else st 0)
  else if (70 <? c) then (
    if (97 <=? c) && (c <=? 102) then st 319
    else st 0)
  else st 319).
Definition st_319 (c : Z) : target action :=
  if (c =? 58) then st 322
  else if (c <? 65) then (
    if (48 <=? c) && (c <=? 57) then st 320
    else st 0)
  else if (70 <? c) then (
    if (97 <=? c) && (c <=? 102) then st 320
    else st 0)
  else st 320.
Definition st_320 (c : Z) : target action :=
  if (c =? 58) then st 322
  else if (c <? 65) then (
    if (48 <=? c) && (c <=? 57) then st 321
    else st 0)
  else if (70 <? c) then (
    if (97 <=? c) && (c <=? 102) then st 321
    else st 0)
  else st 321.
Definition st_321 (c : Z) : target action :=
  if (c =? 58) then st 322
  else st 0.
Definition st_322 (c : Z) : target action :=
  if (c =? 58) then st 305
  else if (c <? 65) then (
    if (48 <=? c) && (c <=? 57) then st 323
    else st 0)
  else if (70 <? c) then (
    if (97 <=? c) && (c <=? 102) then st 323
    else st 0)
  else st 323.
Definition st_323 (c : Z) : target action :=
  if (c =? 93) then st 512
  else if (c <? 65) then (
    if (48 <=? c) && (c <=? 57) then st 324
    else st 0)
  else if (70 <? c) then (
    if (97 <=? c) && (c <=? 102) then st 324
    else st 0)
  else st 324.
Definition st_324 (c : Z) : target action :=
  if (c =? 93) then st 512
  else if (c <? 65) then (
    if (48 <=? c) && (c <=? 57) then st 325
    else st 0)
  else if (70 <? c) then (
    if (97 <=? c) && (c <=? 102) then st 325
    else st 0)
  else st 325.
Definition st_325 (c : Z) : target action :=
  if (c =? 93) then st 512
  else if (c <? 65) then (
    if (48 <=? c) && (c <=? 57) then st 305
    else st 0)
  else if (70 <? c) then (
    if (97 <=? c) && (c <=? 102) then st 305
    else st 0)
  else st 305.
Definition st_326 (c : Z) : target action :=
  switch c [46 --> st 294; 58 --> st 322] (
  if (c <? 65) then (
    if (48 <=? c) && (c <=? 57) then st 327
    else st 0)
  else if (70 <? c) then (
    if (97 <=? c) && (c <=? 102) then st 319
    else st 0)
  else st 319).
Definition st_327 (c : Z) : target action :=
  switch c [46 --> st 294; 58 --> st 322] (
  if (c <? 65) then (
    if (48 <=? c) && (c <=? 57) then st 328
    else st 0)
  else if (70 <? c) then (
    if (97 <=? c) && (c <=? 102) then st 320
    else st 0)
  else st 320).
Definition st_328 (c : Z) : target action :=
  switch c [46 --> st 294; 58 --> st 322] (
  if (c <? 65) then (
    if (48 <=? c) && (c <=? 57) then st 321
    else st 0)
  else if (70 <? c) then (
    if (97 <=? c) && (c <=? 102) then st 321
    else st 0)
  else st 321).
Definition st_329 (c : Z) : target action :=
  switch c [46 --> st 294; 53 --> st 331; 58 --> st 322] (
  if (c <? 65) then (
    if (48 <=? c) && (c <=? 57) then st 330
    else st 0)
  else if (70 <? c) then (
    if (97 <=? c) && (c <=? 102) then st 319
    else st 0)
  else st 319).
Definition st_330 (c : Z) : target action :=
  switch c [46 --> st 294; 58 --> st 322] (
  if (c <? 65) then (
    if (48 <=? c) && (c <=? 57) then st 320
    else st 0)
  else if (70 <? c) then (
    if (97 <=? c) && (c <=? 102) then st 320
    else st 0)
  else st 320).
Definition st_331 (c : Z) : target action :=
  switch c [46 --> st 294; 58 --> st 322] (
  if (c <? 54) then (
    if (48 <=? c) && (c <=? 53) then st 328
    else st 0)
  else if (57 <? c) then (
    if (70 <? c) then (
      if (97 <=? c) && (c <=? 102) then st 320
      else st 0)
    else if (65 <=? c) then st 320
    else st 0)
  else st 320).
Definition st_332 (c : Z) : target action :=
  switch c [46 --> st 294; 58 --> st 322] (
  if (c <? 65) then (
    if (48 <=? c) && (c <=? 57) then st 330
    else st 0)
  else if (70 <? c) then (
    if (97 <=? c) && (c <=? 102) then st 319
    else st 0)
  else st 319).
Definition st_333 (c : Z) : target action :=
  if (c <? 65) then (
    if (48 <=? c) && (c <=? 57) then st 323
    else st 0)
  else if (70 <? c) then (
    if (97 <=? c) && (c <=? 102) then st 323
    else st 0)
  else st 323.
Definition st_334 (c : Z) : target action :=
  if (c =? 58) then st 322
  else if (c <? 65) then (
    if (48 <=? c) && (c <=? 57) then st 319
    else st 0)
  else if (70 <? c) then (
    if (97 <=? c) && (c <=? 102) then st 319
    else st 0)
  else st 319.
Definition st_335 (c : Z) : target action :=
  switch c [2 --> st 291; 48 --> st 336; 49 --> st 340; 50 --> st 343] (
  if (c <? 65) then (
    if (51 <=? c) && (c <=? 57) then st 346
    else st 0)
  else if (70 <? c) then (
    if (97 <=? c) && (c <=? 102) then st 347
    else st 0)
  else st 347).
Definition st_336 (c : Z) : target action :=
  switch c [46 --> st 294; 58 --> st 333] (
  if (c <? 65) then (
    if (48 <=? c) && (c <=? 57) then st 337
    else st 0)
  else if (70 <? c) then (
    if (97 <=? c) && (c <=? 102) then st 337
    else st 0)
  else st 337).
Definition st_337 (c : Z) : target action :=
  if (c =? 58) then st 333
  else if (c <? 65) then (
    if (48 <=? c) && (c <=? 57) then st 338
    else st 0)
  else if (70 <? c) then (
    if (97 <=? c) && (c <=? 102) then st 338
    else st 0)
  else st 338.
Definition st_338 (c : Z) : target action :=
  if (c =? 58) then st 333
  else if (c <? 65) then (
    if (48 <=? c) && (c <=? 57) then st 339
    else st 0)
  else if (70 <? c) then (
    if (97 <=? c) && (c <=? 102) then st 339
    else st 0)
  else st 339.
Definition st_339 (c : Z) : target action :=
  if (c =? 58) then st 333
  else st 0.
Definition st_340 (c : Z) : target action :=
  switch c [46 --> st 294; 58 --> st 333] (
  if (c <? 65) then (
    if (48 <=? c) && (c <=? 57) then st 341
    else st 0)
  else if (70 <? c) then (
    if (97 <=? c) && (c <=? 102) then st 337
    else st 0)
  else st 337).
Definition st_341 (c : Z) : target action :=
  switch c [46 --> st 294; 58 --> st 333] (
  if (c <? 65) then (
    if (48 <=? c) && (c <=? 57) then st 342
    else st 0)
  else if (70 <? c) then (
    if (97 <=? c) && (c <=? 102) then st 338
    else st 0)
  else st 338).
Definition st_342 (c : Z) : target action :=
  switch c [46 --> st 294; 58 --> st 333] (
  if (c <? 65) then (
    if (48 <=? c) && (c <=? 57) then st 339
    else st 0)
  else if (70 <? c) then (
    if (97 <=? c) && (c <=? 102) then st 339
    else st 0)
  else st 339).
Definition st_343 (c : Z) : target action :=
  switch c [46 --> st 294; 53 --> st 345; 58 --> st 333] (
  if (c <? 65) then (
    if (48 <=? c) && (c <=? 57) then st 344
    else st 0)
  else if (70 <? c) then (
    if (97 <=? c) && (c <=? 102) then st 337
    else st 0)
  else st 337).
Definition st_344 (c : Z) : target action :=
  switch c [46 --> st 294; 58 --> st 333] (
  if (c <? 65) then (
    if (48 <=? c) && (c <=? 57) then st 338
    else st 0)
  else if (70 <? c) then (
    if (97 <=? c) && (c <=? 102) then st 338
    else st 0)
  else st 338).
Definition st_345 (c : Z) : target action :=
  switch c [46 --> st 294; 58 --> st 333] (
  if (c <? 54) then (
    if (48 <=? c) && (c <=? 53) then st 342
    else st 0)
  else if (57 <? c) then (
    if (70 <? c) then (
      if (97 <=? c) && (c <=? 102) then st 338
      else st 0)
    else if (65 <=? c) then st 338
    else st 0)
  else st 338).
Definition st_346 (c : Z) : target action :=
  switch c [46 --> st 294; 58 --> st 333] (
  if (c <? 65) then (
    if (48 <=? c) && (c <=? 57) then st 344
    else st 0)
  else if (70 <? c) then (
    if (97 <=? c) && (c <=? 102) then st 337
    else st 0)
  else st 337).
Definition st_347 (c : Z) : target action :=
  if (c =? 58) then st 333
  else if (c <? 65) then (
    if (48 <=? c) && (c <=? 57) then st 337
    else st 0)
  else if (70 <? c) then (
    if (97 <=? c) && (c <=? 102) then st 337
    else st 0)
  else st 337.
Definition st_348 (c : Z) : target action :=
  if (c <? 65) then (
    if (48 <=? c) && (c <=? 57) then st 349
    else st 0)
  else if (70 <? c) then (
    if (97 <=? c) && (c <=? 102) then st 349
    else st 0)
  else st 349.
Definition st_349 (c : Z) : target action :=
  if (c =? 58) then st 335
  else if (c <? 65) then (
    if (48 <=? c) && (c <=? 57) then st 350
    else st 0)
  else if (70 <? c) then (
    if (97 <=? c) && (c <=? 102) then st 350
    else st 0)
  else st 350.
Definition st_350 (c : Z) : target action :=
  if (c =? 58) then st 335
  else if (c <? 65) then (
    if (48 <=? c) && (c <=? 57) then st 351
    else st 0)
  else if (70 <? c) then (
    if (97 <=? c) && (c <=? 102) then st 351
    else st 0)
  else st 351.
Definition st_351 (c : Z) : target action :=
  if (c =? 58) then st 335
  else if (c <? 65) then (
    if (48 <=? c) && (c <=? 57) then st 352
    else st 0)
  else if (70 <? c) then (
    if (97 <=? c) && (c <=? 102) then st 352
    else st 0)
  else st 352.
Definition st_352 (c : Z) : target action :=
  if (c =? 58) then st 335
  else st 0.
Definition st_353 (c : Z) : target action :=
  if (c <? 65) then (
    if (48 <=? c) && (c <=? 57) then st 354
    else st 0)
  else if (70 <? c) then (
    if (97 <=? c) && (c <=? 102) then st 354
    else st 0)
  else st 354.
Definition st_354 (c : Z) : target action :=
  if (c =? 58) then st 348
  else if (c <? 65) then (
    if (48 <=? c) && (c <=? 57) then st 355
    else st 0)
  else if (70 <? c) then (
    if (97 <=? c) && (c <=? 102) then st 355
    else st 0)
  else st 355.
Definition st_355 (c : Z) : target action :=
  if (c =? 58) then st 348
  else if (c <? 65) then (
    if (48 <=? c) && (c <=? 57) then st 356
    else st 0)
  else if (70 <? c) then (
    if (97 <=? c) && (c <=? 102) then st 356
    else st 0)
  else st 356.
Definition st_356 (c : Z) : target action :=
  if (c =? 58) then st 348
  else if (c <? 65) then (
    if (48 <=? c) && (c <=? 57) then st 357
    else st 0)
  else if (70 <? c) then (
    if (97 <=? c) && (c <=? 102) then st 357
    else st 0)
  else st 357.
Definition st_357 (c : Z) : target action :=
  if (c =? 58) then st 348
  else st 0.
Definition st_358 (c : Z) : target action :=
  if (c <? 65) then (
    if (48 <=? c) && (c <=? 57) then st 359
    else st 0)
  else if (70 <? c) then (
    if (97 <=? c) && (c <=? 102) then st 359
    else st 0)
  else st 359.
Definition st_359 (c : Z) : target action :=
  if (c =? 58) then st 353
  else if (c <? 65) then (
    if (48 <=? c) && (c <=? 57) then st 360
    else st 0)
  else if (70 <? c) then (
    if (97 <=? c) && (c <=? 102) then st 360
    else st 0)
  else st 360.
Definition st_360 (c : Z) : target action :=
  if (c =? 58) then st 353
  else if (c <? 65) then (
    if (48 <=? c) && (c <=? 57) then st 361
    else st 0)
  else if (70 <? c) then (
    if (97 <=? c) && (c <=? 102) then st 361
    else st 0)
  else st 361.
Definition st_361 (c : Z) : target action :=
  if (c =? 58) then st 353
  else if (c <? 65) then (
    if (48 <=? c) && (c <=? 57) then st 362
    else st 0)
  else if (70 <? c) then (
    if (97 <=? c) && (c <=? 102) then st 362
    else st 0)
  else st 362.
Definition st_362 (c : Z) : target action :=
  if (c =? 58) then st 353
  else st 0.
Definition st_363 (c : Z) : target action :=
  if (c <? 65) then (
    if (48 <=? c) && (c <=? 57) then st 364
    else st 0)
  else if (70 <? c) then (
    if (97 <=? c) && (c <=? 102) then st 364
    else st 0)
  else st 364.
Definition st_364 (c : Z) : target action :=
  if (c =? 58) then st 358
  else if (c <? 65) then (
    if (48 <=? c) && (c <=? 57) then st 365
    else st 0)
  else if (70 <? c) then (
    if (97 <=? c) && (c <=? 102) then st 365
    else st 0)
  else st 365.
Definition st_365 (c : Z) : target action :=
  if (c =? 58) then st 358
  else if (c <? 65) then (
    if (48 <=? c) && (c <=? 57) then st 366
    else st 0)
  else if (70 <? c) then (
    if (97 <=? c) && (c <=? 102) then st 366
    else st 0)
  else st 366.
Definition st_366 (c : Z) : target action :=
  if (c =? 58) then st 358
  else if (c <? 65) then (
    if (48 <=? c) && (c <=? 57) then st 367
    else st 0)
  else if (70 <? c) then (
    if (97 <=? c) && (c <=? 102) then st 367
    else st 0)
  else st 367.
Definition st_367 (c : Z) : target action :=
  if (c =? 58) then st 358
  else st 0.
Definition st_368 (c : Z) : target action :=
  if (c =? 58) then st 369
  else st 0.
Definition st_369 (c : Z) : target action :=
  switch c [2 --> st 291; 48 --> st 370; 49 --> st 439; 50 --> st 442; 93 --> st 512] (
  if (c <? 65) then (
    if (51 <=? c) && (c <=? 57) then st 445
    else st 0)
  else if (70 <? c) then (
    if (97 <=? c) && (c <=? 102) then st 446
    else st 0)
  else st 446).
Definition st_370 (c : Z) : target action :=
  switch c [46 --> st 294; 58 --> st 374; 93 --> st 512] (
  if (c <? 65) then (
    if (48 <=? c) && (c <=? 57) then st 371
    else st 0)
  else if (70 <? c) then (
    if (97 <=? c) && (c <=? 102) then st 371
    else st 0)
  else st 371).
Definition st_371 (c : Z) : target action :=
  switch c [58 --> st 374; 93 --> st 512] (
  if (c <? 65) then (
    if (48 <=? c) && (c <=? 57) then st 372
    else st 0)
  else if (70 <? c) then (
    if (97 <=? c) && (c <=? 102) then st 372
    else st 0)
  else st 372).
Definition st_372 (c : Z) : target action :=
  switch c [58 --> st 374; 93 --> st 512] (
  if (c <? 65) then (
    if (48 <=? c) && (c <=? 57) then st 373
    else st 0)
  else if (70 <? c) then (
    if (97 <=? c) && (c <=? 102) then st 373
    else st 0)
  else st 373).
Definition st_373 (c : Z) : target action :=
  switch c [58 --> st 374; 93 --> st 512] (
  st 0).
Definition st_374 (c : Z) : target action :=
  switch c [2 --> st 291; 48 --> st 375; 49 --> st 431; 50 --> st 434] (
  if (c <? 65) then (
    if (51 <=? c) && (c <=? 57) then st 437
    else st 0)
  else if (70 <? c) then (
    if (97 <=? c) && (c <=? 102) then st 438
    else st 0)
  else st 438).
Definition st_375 (c : Z) : target action :=
  switch c [46 --> st 294; 58 --> st 379; 93 --> st 512] (
  if (c <? 65) then (
    if (48 <=? c) && (c <=? 57) then st 376
    else st 0)
  else if (70 <? c) then (
    if (97 <=? c) && (c <=? 102) then st 376
    else st 0)
  else st 376).
Definition st_376 (c : Z) : target action :=
  switch c [58 --> st 379; 93 --> st 512] (
  if (c <? 65) then (
    if (48 <=? c) && (c <=? 57) then st 377
    else st 0)
  else if (70 <? c) then (
    if (97 <=? c) && (c <=? 102) then st 377
    else st 0)
  else st 377).
Definition st_377 (c : Z) : target action :=
  switch c [58 --> st 379; 93 --> st 512] (
  if (c <? 65) then (
    if (48 <=? c) && (c <=? 57) then st 378
    else st 0)
  else if (70 <? c) then (
    if (97 <=? c) && (c <=? 102) then st 378
    else st 0)
  else st 378).
Definition st_378 (c : Z) : target action :=
  switch c [58 --> st 379; 93 --> st 512] (
  st 0).
Definition st_379 (c : Z) : target action :=
  switch c [2 --> st 291; 48 --> st 380; 49 --> st 423; 50 --> st 426] (
  if (c <? 65) then (
    if (51 <=? c) && (c <=? 57) then st 429
    else st 0)
  else if (70 <? c) then (
    if (97 <=? c) && (c <=? 102) then st 430
    else st 0)
  else st 430).
Definition st_380 (c : Z) : target action :=
  switch c [46 --> st 294; 58 --> st 384; 93 --> st 512] (
  if (c <? 65) then (
    if (48 <=? c) && (c <=? 57) then st 381
    else st 0)
  else if (70 <? c) then (
    if (97 <=? c) && (c <=? 102) then st 381
    else st 0)
  else st 381).
Definition st_381 (c : Z) : target action :=
  switch c [58 --> st 384; 93 --> st 512] (
  if (c <? 65) then (
    if (48 <=? c) && (c <=? 57) then st 382
    else st 0)
  else if (70 <? c) then (
    if (97 <=? c) && (c <=? 102) then st 382
    else st 0)
  else st 382).
Definition st_382 (c : Z) : target action :=
  switch c [58 --> st 384; 93 --> st 512] (
  if (c <? 65) then (
    if (48 <=? c) && (c <=? 57) then st 383
    else st 0)
  else if (70 <? c) then (
    if (97 <=? c) && (c <=? 102) then st 383
    else st 0)
  else st 383).
Definition st_383 (c : Z) : target action :=
  switch c [58 --> st 384; 93 --> st 512] (
  st 0).
Definition st_384 (c : Z) : target action :=
  switch c [2 --> st 291; 48 --> st 385; 49 --> st 415; 50 --> st 418] (
  if (c <? 65) then (
    if (51 <=? c) && (c <=? 57) then st 421
    else st 0)
  else if (70 <? c) then (
    if (97 <=? c) && (c <=? 102) then st 422
    else st 0)
  else st 422).
Definition st_385 (c : Z) : target action :=
  switch c [46 --> st 294; 58 --> st 389; 93 --> st 512] (
  if (c <? 65) then (
    if (48 <=? c) && (c <=? 57) then st 386
    else st 0)
  else if (70 <? c) then (
    if (97 <=? c) && (c <=? 102) then st 386
    else st 0)
  else st 386).
Definition st_386 (c : Z) : target action :=
  switch c [58 --> st 389; 93 --> st 512] (
  if (c <? 65) then (
    if (48 <=? c) && (c <=? 57) then st 387
    else st 0)
  else if (70 <? c) then (
    if (97 <=? c) && (c <=? 102) then st 387
    else st 0)
  else st 387).
Definition st_387 (c : Z) : target action :=
  switch c [58 --> st 389; 93 --> st 512] (
  if (c <? 65) then (
    if (48 <=? c) && (c <=? 57) then st 388
    else st 0)
  else if (70 <? c) then (
    if (97 <=? c) && (c <=? 102) then st 388
    else st 0)
  else st 388).
Definition st_388 (c : Z) : target action :=
  switch c [58 --> st 389; 93 --> st 512] (
  st 0).
Definition st_389 (c : Z) : target action :=
  switch c [2 --> st 291; 48 --> st 390; 49 --> st 407; 50 --> st 410] (
  if (c <? 65) then (
    if (51 <=? c) && (c <=? 57) then st 413
    else st 0)
  else if (70 <? c) then (
    if (97 <=? c) && (c <=? 102) then st 414
    else st 0)
  else st 414).
Definition st_390 (c : Z) : target action :=
  switch c [46 --> st 294; 58 --> st 394; 93 --> st 512] (
  if (c <? 65) then (
    if (48 <=? c) && (c <=? 57) then st 391
    else st 0)
  else if (70 <? c) then (
    if (97 <=? c) && (c <=? 102) then st 391
    else st 0)
  else st 391).
Definition st_391 (c : Z) : target action :=
  switch c [58 --> st 394; 93 --> st 512] (
  if (c <? 65) then (
    if (48 <=? c) && (c <=? 57) then st 392
    else st 0)
  else if (70 <? c) then (
    if (97 <=? c) && (c <=? 102) then st 392
    else st 0)
  else st 392).
Definition st_392 (c : Z) : target action :=
  switch c [58 --> st 394; 93 --> st 512] (
  if (c <? 65) then (
    if (48 <=? c) && (c <=? 57) then st 393
    else st 0)
  else if (70 <? c) then (
    if (97 <=? c) && (c <=? 102) then st 393
    else st 0)
  else st 393).
Definition st_393 (c : Z) : target action :=
  switch c [58 --> st 394; 93 --> st 512] (
  st 0).
Definition st_394 (c : Z) : target action :=
  switch c [2 --> st 291; 48 --> st 395; 49 --> st 399; 50 --> st 402] (
  if (c <? 65) then (
    if (51 <=? c) && (c <=? 57) then st 405
    else st 0)
  else if (70 <? c) then (
    if (97 <=? c) && (c <=? 102) then st 406
    else st 0)
  else st 406).
Definition st_395 (c : Z) : target action :=
  switch c [46 --> st 294; 58 --> st 333; 93 --> st 512] (
  if (c <? 65) then (
    if (48 <=? c) && (c <=? 57) then st 396
    else st 0)
  else if (70 <? c) then (
    if (97 <=? c) && (c <=? 102) then st 396
    else st 0)
  else st 396).
Definition st_396 (c : Z) : target action :=
  switch c [58 --> st 333; 93 --> st 512] (
  if (c <? 65) then (
    if (48 <=? c) && (c <=? 57) then st 397
    else st 0)
  else if (70 <? c) then (
    if (97 <=? c) && (c <=? 102) then st 397
    else st 0)
  else st 397).
Definition st_397 (c : Z) : target action :=
  switch c [58 --> st 333; 93 --> st 512] (
  if (c <? 65) then (
    if (48 <=? c) && (c <=? 57) then st 398
    else st 0)
  else if (70 <? c) then (
    if (97 <=? c) && (c <=? 102) then st 398
    else st 0)
  else st 398).
Definition st_398 (c : Z) : target action :=
  switch c [58 --> st 333; 93 --> st 512] (
  st 0).
Definition st_399 (c : Z) : target action :=
  switch c [46 --> st 294; 58 --> st 333; 93 --> st 512] (
  if (c <? 65) then (
    if (48 <=? c) && (c <=? 57) then st 400
    else st 0)
  else if (70 <? c) then (
    if (97 <=? c) && (c <=? 102) then st 396
    else st 0)
  else st 396).
Definition st_400 (c : Z) : target action :=
  switch c [46 --> st 294; 58 --> st 333; 93 --> st 512] (
  if (c <? 65) then (
    if (48 <=? c) && (c <=? 57) then st 401
    else st 0)
  else if (70 <? c) then (
    if (97 <=? c) && (c <=? 102) then st 397
    else st 0)
  else st 397).
Definition st_401 (c : Z) : target action :=
  switch c [46 --> st 294; 58 --> st 333; 93 --> st 512] (
  if (c <? 65) then (
    if (48 <=? c) && (c <=? 57) then st 398
    else st 0)
  else if (70 <? c) then (
    if (97 <=? c) && (c <=? 102) then st 398
    else st 0)
  else st 398).
Definition st_402 (c : Z) : target action :=
  switch c [46 --> st 294; 53 --> st 404; 58 --> st 333; 93 --> st 512] (
  if (c <? 65) then (
    if (48 <=? c) && (c <=? 57) then st 403
    else st 0)
  else if (70 <? c) then (
    if (97 <=? c) && (c <=? 102) then st 396
    else st 0)
  else st 396).
Definition st_403 (c : Z) : target action :=
  switch c [46 --> st 294; 58 --> st 333; 93 --> st 512] (
  if (c <? 65) then (
    if (48 <=? c) && (c <=? 57) then st 397
    else st 0)
  else if (70 <? c) then (
    if (97 <=? c) && (c <=? 102) then st 397
    else st 0)
  else st 397).
Definition st_404 (c : Z) : target action :=
  switch c [46 --> st 294; 58 --> st 333; 93 --> st 512] (
  if (c <? 54) then (
    if (48 <=? c) && (c <=? 53) then st 401
    else st 0)
  else if (57 <? c) then (
    if (70 <? c) then (
      if (97 <=? c) && (c <=? 102) then st 397
      else st 0)
    else if (65 <=? c) then st 397
    else st 0)
  else st 397).
Definition st_405 (c : Z) : target action :=
  switch c [46 --> st 294; 58 --> st 333; 93 --> st 512] (
  if (c <? 65) then (
    if (48 <=? c) && (c <=? 57) then st 403
    else st 0)
  else if (70 <? c) then (
    if (97 <=? c) && (c <=? 102) then st 396
    else st 0)
  else st 396).
Definition st_406 (c : Z) : target action :=
  switch c [58 --> st 333; 93 --> st 512] (
  if (c <? 65) then (
    if (48 <=? c) && (c <=? 57) then st 396
    else st 0)
  else if (70 <? c) then (
    if (97 <=? c) && (c <=? 102) then st 396
    else st 0)
  else st 396).
Definition st_407 (c : Z) : target action :=
  switch c [46 --> st 294; 58 --> st 394; 93 --> st 512] (
  if (c <? 65) then (
    if (48 <=? c) && (c <=? 57) then st 408
    else st 0)
  else if (70 <? c) then (
    if (97 <=? c) && (c <=? 102) then st 391
    else st 0)
  else st 391).
Definition st_408 (c : Z) : target action :=
  switch c [46 --> st 294; 58 --> st 394; 93 --> st 512] (
  if (c <? 65) then (
    if (48 <=? c) && (c <=? 57) then st 409
    else st 0)
  else if (70 <? c) then (
    if (97 <=? c) && (c <=? 102) then st 392
    else st 0)
  else st 392).
Definition st_409 (c : Z) : target action :=
  switch c [46 --> st 294; 58 --> st 394; 93 --> st 512] (
  if (c <? 65) then (
    if (48 <=? c) && (c <=? 57) then st 393
    else st 0)
  else if (70 <? c) then (
    if (97 <=? c) && (c <=? 102) then st 393
    else st 0)
  else st 393).
Definition st_410 (c : Z) : target action :=
  switch c [46 --> st 294; 53 --> st 412; 58 --> st 394; 93 --> st 512] (
  if (c <? 65) then (
    if (48 <=? c) && (c <=? 57) then st 411
    else st 0)
  else if (70 <? c) then (
    if (97 <=? c) && (c <=? 102) then st 391
    else st 0)
  else st 391).
Definition st_411 (c : Z) : target action :=
  switch c [46 --> st 294; 58 --> st 394; 93 --> st 512] (
  if (c <? 65) then (
    if (48 <=? c) && (c <=? 57) then st 392
    else st 0)
  else if (70 <? c) then (
    if (97 <=? c) && (c <=? 102) then st 392
    else st 0)
  else st 392).
Definition st_412 (c : Z) : target action :=
  switch c [46 --> st 294; 58 --> st 394; 93 --> st 512] (
  if (c <? 54) then (
    if (48 <=? c) && (c <=? 53) then st 409
    else st 0)
  else if (57 <? c) then (
    if (70 <? c) then (
      if (97 <=? c) && (c <=? 102) then st 392
      else st 0)
    else if (65 <=? c) then st 392
    else st 0)
  else st 392).
Definition st_413 (c : Z) : target action :=
  switch c [46 --> st 294; 58 --> st 394; 93 --> st 512] (
  if (c <? 65) then (
    if (48 <=? c) && (c <=? 57) then st 411
    else st 0)
  else if (70 <? c) then (
    if (97 <=? c) && (c <=? 102) then st 391
    else st 0)
  else st 391).
Definition st_414 (c : Z) : target action :=
  switch c [58 --> st 394; 93 --> st 512] (
  if (c <? 65) then (
    if (48 <=? c) && (c <=? 57) then st 391
    else st 0)
  else if (70 <? c) then (
    if (97 <=? c) && (c <=? 102) then st 391
    else st 0)
  else st 391).
Definition st_415 (c : Z) : target action :=
  switch c [46 --> st 294; 58 --> st 389; 93 --> st 512] (
  if (c <? 65) then (
    if (48 <=? c) && (c <=? 57) then st 416
    else st 0)
  else if (70 <? c) then (
    if (97 <=? c) && (c <=? 102) then st 386
    else st 0)
  else st 386).
Definition st_416 (c : Z) : target action :=
  switch c [46 --> st 294; 58 --> st 389; 93 --> st 512] (
  if (c <? 65) then (
    if (48 <=? c) && (c <=? 57) then st 417
    else st 0)
  else if (70 <? c) then (
    if (97 <=? c) && (c <=? 102) then st 387
    else st 0)
  else st 387).
Definition st_417 (c : Z) : target action :=
  switch c [46 --> st 294; 58 --> st 389; 93 --> st 512] (
  if (c <? 65) then (
    if (48 <=? c) && (c <=? 57) then st 388
    else st 0)
  else if (70 <? c) then (
    if (97 <=? c) && (c <=? 102) then st 388
    else st 0)
  else st 388).
Definition st_418 (c : Z) : target action :=
  switch c [46 --> st 294; 53 --> st 420; 58 --> st 389; 93 --> st 512] (
  if (c <? 65) then (
    if (48 <=? c) && (c <=? 57) then st 419
    else st 0)
  else if (70 <? c) then (
    if (97 <=? c) && (c <=? 102) then st 386
    else st 0)
  else st 386).
Definition st_419 (c : Z) : target action :=
  switch c [46 --> st 294; 58 --> st 389; 93 --> st 512] (
  if (c <? 65) then (
    if (48 <=? c) && (c <=? 57) then st 387
    else st 0)
  else if (70 <? c) then (
    if (97 <=? c) && (c <=? 102) then st 387
    else st 0)
  else st 387).
Definition st_420 (c : Z) : target action :=
  switch c [46 --> st 294; 58 --> st 389; 93 --> st 512] (
  if (c <? 54) then (
    if (48 <=? c) && (c <=? 53) then st 417
    else st 0)
  else if (57 <? c) then (
    if (70 <? c) then (
      if (97 <=? c) && (c <=? 102) then st 387
      else st 0)
    else if (65 <=? c) then st 387
    else st 0)
  else st 387).
Definition st_421 (c : Z) : target action :=
  switch c [46 --> st 294; 58 --> st 389; 93 --> st 512] (
  if (c <? 65) then (
    if (48 <=? c) && (c <=? 57) then st 419
    else st 0)
  else if (70 <? c) then (
    if (97 <=? c) && (c <=? 102) then st 386
    else st 0)
  else st 386).
Definition st_422 (c : Z) : target action :=
  switch c [58 --> st 389; 93 --> st 512] (
  if (c <? 65) then (
    if (48 <=? c) && (c <=? 57) then st 386
    else st 0)
  else if (70 <? c) then (
    if (97 <=? c) && (c <=? 102) then st 386
    else st 0)
  else st 386).
Definition st_423 (c : Z) : target action :=
  switch c [46 --> st 294; 58 --> st 384; 93 --> st 512] (
  if (c <? 65) then (
    if (48 <=? c) && (c <=? 57) then st 424
    else st 0)
  else if (70 <? c) then (
    if (97 <=? c) && (c <=? 102) then st 381
    else st 0)
  else st 381).
Definition st_424 (c : Z) : target action :=
  switch c [46 --> st 294; 58 --> st 384; 93 --> st 512] (
  if (c <? 65) then (
    if (48 <=? c) && (c <=? 57) then st 425
    else st 0)
  else if (70 <? c) then (
    if (97 <=? c) && (c <=? 102) then st 382
    else st 0)
  else st 382).
Definition st_425 (c : Z) : target action :=
  switch c [46 --> st 294; 58 --> st 384; 93 --> st 512] (
  if (c <? 65) then (
    if (48 <=? c) && (c <=? 57) then st 383
    else st 0)
  else if (70 <? c) then (
    if (97 <=? c) && (c <=? 102) then st 383
    else st 0)
  else st 383).
Definition st_426 (c : Z) : target action :=
  switch c [46 --> st 294; 53 --> st 428; 58 --> st 384; 93 --> st 512] (
  if (c <? 65) then (
    if (48 <=? c) && (c <=? 57) then st 427
    else st 0)
  else if (70 <? c) then (
    if (97 <=? c) && (c <=? 102) then st 381
    else st 0)
  else st 381).
Definition st_427 (c : Z) : target action :=
  switch c [46 --> st 294; 58 --> st 384; 93 --> st 512] (
  if (c <? 65) then (
    if (48 <=? c) && (c <=? 57) then st 382
    else st 0)
  else if (70 <? c) then (
    if (97 <=? c) && (c <=? 102) then st 382
    else st 0)
  else st 382).
Definition st_428 (c : Z) : target action :=
  switch c [46 --> st 294; 58 --> st 384; 93 --> st 512] (
  if (c <? 54) then (
    if (48 <=? c) && (c <=? 53) then st 425
    else st 0)
  else if (57 <? c) then (
    if (70 <? c) then (
      if (97 <=? c) && (c <=? 102) then st 382
      else st 0)
    else if (65 <=? c) then st 382
    else st 0)
  else st 382).
Definition st_429 (c : Z) : target action :=
  switch c [46 --> st 294; 58 --> st 384; 93 --> st 512] (
  if (c <? 65) then (
    if (48 <=? c) && (c <=? 57) then st 427
    else st 0)
  else if (70 <? c) then (
    if (97 <=? c) && (c <=? 102) then st 381
    else st 0)
  else st 381).
Definition st_430 (c : Z) : target action :=
  switch c [58 --> st 384; 93 --> st 512] (
  if (c <? 65) then (
    if (48 <=? c) && (c <=? 57) then st 381
    else st 0)
  else if (70 <? c) then (
    if (97 <=? c) && (c <=? 102) then st 381
    else st 0)
  else st 381).
Definition st_431 (c : Z) : target action :=
  switch c [46 --> st 294; 58 --> st 379; 93 --> st 512] (
  if (c <? 65) then (
    if (48 <=? c) && (c <=? 57) then st 432
    else st 0)
  else if (70 <? c) then (
    if (97 <=? c) && (c <=? 102) then st 376
    else st 0)
  else st 376).
Definition st_432 (c : Z) : target action :=
  switch c [46 --> st 294; 58 --> st 379; 93 --> st 512] (
  if (c <? 65) then (
    if (48 <=? c) && (c <=? 57) then st 433
    else st 0)
  else if (70 <? c) then (
    if (97 <=? c) && (c <=? 102) then st 377
    else st 0)
  else st 377).
Definition st_433 (c : Z) : target action :=
  switch c [46 --> st 294; 58 --> st 379; 93 --> st 512] (
  if (c <? 65) then (
    if (48 <=? c) && (c <=? 57) then st 378
    else st 0)
  else if (70 <? c) then (
    if (97 <=? c) && (c <=? 102) then st 378
    else st 0)
  else st 378).
Definition st_434 (c : Z) : target action :=
  switch c [46 --> st 294; 53 --> st 436; 58 --> st 379; 93 --> st 512] (
  if (c <? 65) then (
    if (48 <=? c) && (c <=? 57) then st 435
    else st 0)
  else if (70 <? c) then (
    if (97 <=? c) && (c <=? 102) then st 376
    else st 0)
  else st 376).
Definition st_435 (c : Z) : target action :=
  switch c [46 --> st 294; 58 --> st 379; 93 --> st 512] (
  if (c <? 65) then (
    if (48 <=? c) && (c <=? 57) then st 377
    else st 0)
  else if (70 <? c) then (
    if (97 <=? c) && (c <=? 102) then st 377
    else st 0)
  else st 377).
Definition st_436 (c : Z) : target action :=
  switch c [46 --> st 294; 58 --> st 379; 93 --> st 512] (
  if (c <? 54) then (
    if (48 <=? c) && (c <=? 53) then st 433
    else st 0)
  else if (57 <? c) then (
    if (70 <? c) then (
      if (97 <=? c) && (c <=? 102) then st 377
      else st 0)
    else if (65 <=? c) then st 377
    else st 0)
  else st 377).
Definition st_437 (c : Z) : target action :=
  switch c [46 --> st 294; 58 --> st 379; 93 --> st 512] (
  if (c <? 65) then (
    if (48 <=? c) && (c <=? 57) then st 435
    else st 0)
  else if (70 <? c) then (
    if (97 <=? c) && (c <=? 102) then st 376
    else st 0)
  else st 376).
Definition st_438 (c : Z) : target action :=
  switch c [58 --> st 379; 93 --> st 512] (
  if (c <? 65) then (
    if (48 <=? c) && (c <=? 57) then st 376
    else st 0)
  else if (70 <? c) then (
    if (97 <=? c) && (c <=? 102) then st 376
    else st 0)
  else st 376).
Definition st_439 (c : Z) : target action :=
  switch c [46 --> st 294; 58 --> st 374; 93 --> st 512] (
  if (c <? 65) then (
    if (48 <=? c) && (c <=? 57) then st 440
    else st 0)
  else if (70 <? c) then (
    if (97 <=? c) && (c <=? 102) then st 371
    else st 0)
  else st 371).
Definition st_440 (c : Z) : target action :=
  switch c [46 --> st 294; 58 --> st 374; 93 --> st 512] (
  if (c <? 65) then (
    if (48 <=? c) && (c <=? 57) then st 441
    else st 0)
  else if (70 <? c) then (
    if (97 <=? c) && (c <=? 102) then st 372
    else st 0)
  else st 372).
Definition st_441 (c : Z) : target action :=
  switch c [46 --> st 294; 58 --> st 374; 93 --> st 512] (
  if (c <? 65) then (
    if (48 <=? c) && (c <=? 57) then st 373
    else st 0)
  else if (70 <? c) then (
    if (97 <=? c) && (c <=? 102) then st 373
    else st 0)
  else st 373).
Definition st_442 (c : Z) : target action :=
  switch c [46 --> st 294; 53 --> st 444; 58 --> st 374; 93 --> st 512] (
  if (c <? 65) then (
    if (48 <=? c) && (c <=? 57) then st 443
    else st 0)
  else if (70 <? c) then (
    if (97 <=? c) && (c <=? 102) then st 371
    else st 0)
  else st 371).
Definition st_443 (c : Z) : target action :=
  switch c [46 --> st 294; 58 --> st 374; 93 --> st 512] (
  if (c <? 65) then (
    if (48 <=? c) && (c <=? 57) then st 372
    else st 0)
  else if (70 <? c) then (
    if (97 <=? c) && (c <=? 102) then st 372
    else st 0)
  else st 372).
Definition st_444 (c : Z) : target action :=
  switch c [46 --> st 294; 58 --> st 374; 93 --> st 512] (
  if (c <? 54) then (
    if (48 <=? c) && (c <=? 53) then st 441
    else st 0)
  else if (57 <? c) then (
    if (70 <? c) then (
      if (97 <=? c) && (c <=? 102) then st 372
      else st 0)
    else if (65 <=? c) then st 372
    else st 0)
  else st 372).
Definition st_445 (c : Z) : target action :=
  switch c [46 --> st 294; 58 --> st 374; 93 --> st 512] (
  if (c <? 65) then (
    if (48 <=? c) && (c <=? 57) then st 443
    else st 0)
  else if (70 <? c) then (
    if (97 <=? c) && (c <=? 102) then st 371
    else st 0)
  else st 371).
Definition st_446 (c : Z) : target action :=
  switch c [58 --> st 374; 93 --> st 512] (
  if (c <? 65) then (
    if (48 <=? c) && (c <=? 57) then st 371
    else st 0)
  else if (70 <? c) then (
    if (97 <=? c) && (c <=? 102) then st 371
    else st 0)
  else st 371).
Definition st_447 (c : Z) : target action :=
  if (c <? 65) then (
    if (48 <=? c) && (c <=? 57) then st 448
    else st 0)
  else if (70 <? c) then (
    if (97 <=? c) && (c <=? 102) then st 448
    else st 0)
  else st 448.
Definition st_448 (c : Z) : target action :=
  if (c =? 46) then st 449
  else if (c <? 65) then (
    if (48 <=? c) && (c <=? 57) then st 448
    else st 0)
  else if (70 <? c) then (
    if (97 <=? c) && (c <=? 102) then st 448
    else st 0)
  else st 448.
Definition st_449 (c : Z) : target action :=
  switch c [33 --> st 450; 36 --> st 450; 61 --> st 450; 95 --> st 450; 126 --> st 450] (
  if (c <? 48) then (
    if (38 <=? c) && (c <=? 46) then st 450
    else st 0)
  else if (59 <? c) then (
    if (90 <? c) then (
      if (97 <=? c) && (c <=? 122) then st 450
      else st 0)
    else if (65 <=? c) then st 450
    else st 0)
  else st 450).
Definition st_450 (c : Z) : target action :=
  switch c [33 --> st 450; 36 --> st 450; 61 --> st 450; 93 --> st 512; 95 --> st 450;
    126 --> st 450] (
  if (c <? 48) then (
    if (38 <=? c) && (c <=? 46) then st 450
    else st 0)
  else if (59 <? c) then (
    if (90 <? c) then (
      if (97 <=? c) && (c <=? 122) then st 450
      else st 0)
    else if (65 <=? c) then st 450
    else st 0)
  else st 450).
Definition st_451 (c : Z) : target action :=
  switch c [34 --> st 0; 35 --> st 453; 37 --> st 3; 47 --> st 458; 58 --> st 0; 60 --> st 0;
    62 --> st 0; 63 --> st 456; 96 --> st 0; 127 --> st 0] (
  if (c <? 91) then (
    if (32 <? c) then (
      if (65 <=? c) && (c <=? 90) then tr_461
      else st 452)
    else if (0 <=? c) then st 0
    else st 452)
  else if (94 <? c) then (
    if (122 <? c) then (
      if (123 <=? c) && (c <=? 125) then st 0
      else st 452)
    else if (97 <=? c) then tr_461
    else st 452)
  else st 0).
Definition st_452 (c : Z) : target action :=
  switch c [34 --> st 0; 35 --> st 453; 37 --> st 3; 47 --> st 455; 58 --> st 0; 60 --> st 0;
    62 --> st 0; 63 --> st 456; 96 --> st 0; 127 --> st 0] (
  if (c <? 91) then (
    if (0 <=? c) && (c <=? 32) then st 0
    else st 452)
  else if (94 <? c) then (
    if (123 <=? c) && (c <=? 125) then st 0
    else st 452)
  else st 0).
Definition st_453 (c : Z) : target action :=
  switch c [37 --> tr_463; 60 --> st 0; 62 --> st 0; 96 --> st 0; 127 --> st 0] (
  if (c <? 34) then (
    if (0 <=? c) && (c <=? 32) then st 0
    else tr_462)
  else if (35 <? c) then (
    if (94 <? c) then (
      if (123 <=? c) && (c <=? 125) then st 0
      else tr_462)
    else if (91 <=? c) then st 0
    else tr_462)
  else st 0).
Definition st_454 (c : Z) : target action :=
  switch c [37 --> st 1; 60 --> st 0; 62 --> st 0; 96 --> st 0; 127 --> st 0] (
  if (c <? 34) then (
    if (0 <=? c) && (c <=? 32) then st 0
    else st 454)
  else if (35 <? c) then (
    if (94 <? c) then (
      if (123 <=? c) && (c <=? 125) then st 0
      else st 454)
    else if (91 <=? c) then st 0
    else st 454)
  else st 0).
Definition st_455 (c : Z) : target action :=
  switch c [34 --> st 0; 35 --> st 453; 37 --> st 5; 60 --> st 0; 62 --> st 0; 63 --> st 456;
    96 --> st 0; 127 --> st 0] (
  if (c <? 91) then (
    if (0 <=? c) && (c <=? 32) then st 0
    else st 455)
  else if (94 <? c) then (
    if (123 <=? c) && (c <=? 125) then st 0
    else st 455)
  else st 0).
Definition st_456 (c : Z) : target action :=
  switch c [34 --> st 0; 35 --> tr_467; 37 --> tr_468; 60 --> st 0; 62 --> st 0; 96 --> st 0;
    127 --> st 0] (
  if (c <? 91) then (
    if (0 <=? c) && (c <=? 32) then st 0
    else tr_466)
  else if (94 <? c) then (
    if (123 <=? c) && (c <=? 125) then st 0
    else tr_466)
  else st 0).
Definition st_457 (c : Z) : target action :=
  switch c [34 --> st 0; 35 --> tr_469; 37 --> st 7; 60 --> st 0; 62 --> st 0; 96 --> st 0;
    127 --> st 0] (
  if (c <? 91) then (
    if (0 <=? c) && (c <=? 32) then st 0
    else st 457)
  else if (94 <? c) then (
    if (123 <=? c) && (c <=? 125) then st 0
    else st 457)
  else st 0).
Definition st_458 (c : Z) : target action :=
  switch c [34 --> st 0; 35 --> st 453; 37 --> st 5; 47 --> st 459; 60 --> st 0; 62 --> st 0;
    63 --> st 456; 96 --> st 0; 127 --> st 0] (
  if (c <? 91) then (
    if (0 <=? c) && (c <=? 32) then st 0
    else st 455)
  else if (94 <? c) then (
    if (123 <=? c) && (c <=? 125) then st 0
    else st 455)
  else st 0).
Definition st_459 (c : Z) : target action :=
  switch c [2 --> tr_472; 33 --> tr_473; 35 --> tr_474; 37 --> tr_475; 47 --> tr_476;
    48 --> tr_477; 49 --> tr_478; 50 --> tr_479; 58 --> tr_481; 59 --> tr_473; 61 --> tr_473;
    63 --> tr_482; 64 --> tr_483; 91 --> tr_484; 95 --> tr_473; 126 --> tr_473] (
  if (c <? 51) then (
    if (36 <=? c) && (c <=? 46) then tr_473
    else st 0)
  else if (57 <? c) then (
    if (90 <? c) then (
      if (97 <=? c) && (c <=? 122) then tr_473
      else st 0)
    else if (65 <=? c) then tr_473
    else st 0)
  else tr_480).
Definition st_460 (c : Z) : target action :=
  switch c [35 --> tr_485; 47 --> tr_486; 58 --> tr_487; 63 --> tr_488] (
  st 0).
Definition st_461 (c : Z) : target action :=
  switch c [35 --> tr_489; 47 --> tr_490; 63 --> tr_492] (
  if (48 <=? c) && (c <=? 57) then tr_491
  else st 0).
Definition st_462 (c : Z) : target action :=
  switch c [35 --> tr_493; 47 --> tr_494; 63 --> tr_496] (
  if (48 <=? c) && (c <=? 57) then st 462
  else st 0).
Definition st_463 (c : Z) : target action :=
  switch c [35 --> tr_485; 47 --> tr_486; 58 --> tr_487; 63 --> tr_488] (
  if (48 <=? c) && (c <=? 57) then st 464
  else st 0).
Definition st_464 (c : Z) : target action :=
  switch c [35 --> tr_485; 47 --> tr_486; 58 --> tr_487; 63 --> tr_488] (
  if (48 <=? c) && (c <=? 57) then st 460
  else st 0).
Definition st_465 (c : Z) : target action :=
  switch c [35 --> tr_485; 47 --> tr_486; 53 --> st 466; 58 --> tr_487; 63 --> tr_488] (
  if (48 <=? c) && (c <=? 57) then st 460
  else st 0).
Definition st_466 (c : Z) : target action :=
  switch c [35 --> tr_485; 47 --> tr_486; 58 --> tr_487; 63 --> tr_488] (
  if (48 <=? c) && (c <=? 53) then st 460
  else st 0).
Definition st_467 (c : Z) : target action :=
  switch c [33 --> st 467; 35 --> tr_485; 37 --> st 31; 47 --> tr_486; 58 --> tr_499;
    61 --> st 467; 63 --> tr_488; 64 --> tr_38; 95 --> st 467; 126 --> st 467] (
  if (c <? 65) then (
    if (36 <=? c) && (c <=? 59) then st 467
    else st 0)
  else if (90 <? c) then (
    if (97 <=? c) && (c <=? 122) then st 467
    else st 0)
  else st 467).
Definition st_468 (c : Z) : target action :=
  switch c [33 --> st 33; 35 --> tr_489; 37 --> st 34; 47 --> tr_490; 61 --> st 33;
    63 --> tr_492; 64 --> tr_38; 95 --> st 33; 126 --> st 33] (
  if (c <? 58) then (
    if (46 <? c) then (
      if (48 <=? c) && (c <=? 57) then tr_500
      else st 0)
    else if (36 <=? c) then st 33
    else st 0)
  else if (59 <? c) then (
    if (90 <? c) then (
      if (97 <=? c) && (c <=? 122) then st 33
      else st 0)
    else if (65 <=? c) then st 33
    else st 0)
  else st 33).
Definition st_469 (c : Z) : target action :=
  switch c [2 --> tr_472; 33 --> tr_501; 35 --> tr_474; 37 --> tr_502; 47 --> tr_476;
    48 --> tr_503; 49 --> tr_504; 50 --> tr_505; 58 --> tr_507; 59 --> tr_501; 61 --> tr_501;
    63 --> tr_482; 91 --> tr_484; 95 --> tr_501; 126 --> tr_501] (
  if (c <? 51) then (
    if (36 <=? c) && (c <=? 46) then tr_501
    else st 0)
  else if (57 <? c) then (
    if (90 <? c) then (
      if (97 <=? c) && (c <=? 122) then tr_501
      else st 0)
    else if (65 <=? c) then tr_501
    else st 0)
  else tr_506).
Definition st_470 (c : Z) : target action :=
  switch c [33 --> st 470; 35 --> tr_485; 37 --> st 36; 47 --> tr_486; 58 --> tr_487;
    61 --> st 470; 63 --> tr_488; 95 --> st 470; 126 --> st 470] (
  if (c <? 65) then (
    if (36 <=? c) && (c <=? 59) then st 470
    else st 0)
  else if (90 <? c) then (
    if (97 <=? c) && (c <=? 122) then st 470
    else st 0)
  else st 470).
Definition st_471 (c : Z) : target action :=
  switch c [33 --> st 470; 35 --> tr_485; 37 --> st 36; 46 --> st 472; 47 --> tr_486;
    58 --> tr_487; 61 --> st 470; 63 --> tr_488; 95 --> st 470; 126 --> st 470] (
  if (c <? 65) then (
    if (36 <=? c) && (c <=? 59) then st 470
    else st 0)
  else if (90 <? c) then (
    if (97 <=? c) && (c <=? 122) then st 470
    else st 0)
  else st 470).
Definition st_472 (c : Z) : target action :=
  switch c [2 --> st 13; 33 --> st 470; 35 --> tr_485; 37 --> st 36; 47 --> tr_486;
    48 --> st 473; 49 --> st 481; 50 --> st 483; 58 --> tr_487; 59 --> st 470; 61 --> st 470;
    63 --> tr_488; 95 --> st 470; 126 --> st 470] (
  if (c <? 51) then (
    if (36 <=? c) && (c <=? 46) then st 470
    else st 0)
  else if (57 <? c) then (
    if (90 <? c) then (
      if (97 <=? c) && (c <=? 122) then st 470
      else st 0)
    else if (65 <=? c) then st 470
    else st 0)
  else st 482).
Definition st_473 (c : Z) : target action :=
  switch c [33 --> st 470; 35 --> tr_485; 37 --> st 36; 46 --> st 474; 47 --> tr_486;
    58 --> tr_487; 61 --> st 470; 63 --> tr_488; 95 --> st 470; 126 --> st 470] (
  if (c <? 65) then (
    if (36 <=? c) && (c <=? 59) then st 470
    else st 0)
  else if (90 <? c) then (
    if (97 <=? c) && (c <=? 122) then st 470
    else st 0)
  else st 470).
Definition st_474 (c : Z) : target action :=
  switch c [2 --> st 17; 33 --> st 470; 35 --> tr_485; 37 --> st 36; 47 --> tr_486;
    48 --> st 475; 49 --> st 477; 50 --> st 479; 58 --> tr_487; 59 --> st 470; 61 --> st 470;
    63 --> tr_488; 95 --> st 470; 126 --> st 470] (
  if (c <? 51) then (
    if (36 <=? c) && (c <=? 46) then st 470
    else st 0)
  else if (57 <? c) then (
    if (90 <? c) then (
      if (97 <=? c) && (c <=? 122) then st 470
      else st 0)
    else if (65 <=? c) then st 470
    else st 0)
  else st 478).
Definition st_475 (c : Z) : target action :=
  switch c [33 --> st 470; 35 --> tr_485; 37 --> st 36; 46 --> st 476; 47 --> tr_486;
    58 --> tr_487; 61 --> st 470; 63 --> tr_488; 95 --> st 470; 126 --> st 470] (
  if (c <? 65) then (
    if (36 <=? c) && (c <=? 59) then st 470
    else st 0)
  else if (90 <? c) then (
    if (97 <=? c) && (c <=? 122) then st 470
    else st 0)
  else st 470).
Definition st_476 (c : Z) : target action :=
  switch c [2 --> st 21; 33 --> st 470; 35 --> tr_485; 37 --> st 36; 47 --> tr_486;
    58 --> tr_487; 61 --> st 470; 63 --> tr_488; 95 --> st 470; 126 --> st 470] (
  if (c <? 65) then (
    if (36 <=? c) && (c <=? 59) then st 470
    else st 0)
  else if (90 <? c) then (
    if (97 <=? c) && (c <=? 122) then st 470
    else st 0)
  else st 470).
Definition st_477 (c : Z) : target action :=
  switch c [33 --> st 470; 35 --> tr_485; 37 --> st 36; 46 --> st 476; 47 --> tr_486;
    58 --> tr_487; 59 --> st 470; 61 --> st 470; 63 --> tr_488; 95 --> st 470; 126 --> st 470] (
  if (c <? 48) then (
    if (36 <=? c) && (c <=? 45) then st 470
    else st 0)
  else if (57 <? c) then (
    if (90 <? c) then (
      if (97 <=? c) && (c <=? 122) then st 470
      else st 0)
    else if (65 <=? c) then st 470
    else st 0)
  else st 478).
Definition st_478 (c : Z) : target action :=
  switch c [33 --> st 470; 35 --> tr_485; 37 --> st 36; 46 --> st 476; 47 --> tr_486;
    58 --> tr_487; 59 --> st 470; 61 --> st 470; 63 --> tr_488; 95 --> st 470; 126 --> st 470] (
  if (c <? 48) then (
    if (36 <=? c) && (c <=? 45) then st 470
    else st 0)
  else if (57 <? c) then (
    if (90 <? c) then (
      if (97 <=? c) && (c <=? 122) then st 470
      else st 0)
    else if (65 <=? c) then st 470
    else st 0)
  else st 475).
Definition st_479 (c : Z) : target action :=
  switch c [33 --> st 470; 35 --> tr_485; 37 --> st 36; 46 --> st 476; 47 --> tr_486;
    53 --> st 480; 58 --> tr_487; 59 --> st 470; 61 --> st 470; 63 --> tr_488; 95 --> st 470;
    126 --> st 470] (
  if (c <? 48) then (
    if (36 <=? c) && (c <=? 45) then st 470
    else st 0)
  else if (57 <? c) then (
    if (90 <? c) then (
      if (97 <=? c) && (c <=? 122) then st 470
      else st 0)
    else if (65 <=? c) then st 470
    else st 0)
  else st 475).
Definition st_480 (c : Z) : target action :=
  switch c [33 --> st 470; 35 --> tr_485; 37 --> st 36; 46 --> st 476; 47 --> tr_486;
    58 --> tr_487; 61 --> st 470; 63 --> tr_488; 95 --> st 470; 126 --> st 470] (
  if (c <? 54) then (
    if (45 <? c) then (
      if (48 <=? c) && (c <=? 53) then st 475
      else st 0)
    else if (36 <=? c) then st 470
    else st 0)
  else if (59 <? c) then (
    if (90 <? c) then (
      if (97 <=? c) && (c <=? 122) then st 470
      else st 0)
    else if (65 <=? c) then st 470
    else st 0)
  else st 470).
Definition st_481 (c : Z) : target action :=
  switch c [33 --> st 470; 35 --> tr_485; 37 --> st 36; 46 --> st 474; 47 --> tr_486;
    58 --> tr_487; 59 --> st 470; 61 --> st 470; 63 --> tr_488; 95 --> st 470; 126 --> st 470] (
  if (c <? 48) then (
    if (36 <=? c) && (c <=? 45) then st 470
    else st 0)
  else if (57 <? c) then (
    if (90 <? c) then (
      if (97 <=? c) && (c <=? 122) then st 470
      else st 0)
    else if (65 <=? c) then st 470
    else st 0)
  else st 482).
Definition st_482 (c : Z) : target action :=
  switch c [33 --> st 470; 35 --> tr_485; 37 --> st 36; 46 --> st 474; 47 --> tr_486;
    58 --> tr_487; 59 --> st 470; 61 --> st 470; 63 --> tr_488; 95 --> st 470; 126 --> st 470] (
  if (c <? 48) then (
    if (36 <=? c) && (c <=? 45) then st 470
    else st 0)
  else if (57 <? c) then (
    if (90 <? c) then (
      if (97 <=? c) && (c <=? 122) then st 470
      else st 0)
    else if (65 <=? c) then st 470
    else st 0)
  else st 473).
Definition st_483 (c : Z) : target action :=
  switch c [33 --> st 470; 35 --> tr_485; 37 --> st 36; 46 --> st 474; 47 --> tr_486;
    53 --> st 484; 58 --> tr_487; 59 --> st 470; 61 --> st 470; 63 --> tr_488; 95 --> st 470;
    126 --> st 470] (
  if (c <? 48) then (
    if (36 <=? c) && (c <=? 45) then st 470
    else st 0)
  else if (57 <? c) then (
    if (90 <? c) then (
      if (97 <=? c) && (c <=? 122) then st 470
      else st 0)
    else if (65 <=? c) then st 470
    else st 0)
  else st 473).
Definition st_484 (c : Z) : target action :=
  switch c [33 --> st 470; 35 --> tr_485; 37 --> st 36; 46 --> st 474; 47 --> tr_486;
    58 --> tr_487; 61 --> st 470; 63 --> tr_488; 95 --> st 470; 126 --> st 470] (
  if (c <? 54) then (
    if (45 <? c) then (
      if (48 <=? c) && (c <=? 53) then st 473
      else st 0)
    else if (36 <=? c) then st 470
    else st 0)
  else if (59 <? c) then (
    if (90 <? c) then (
      if (97 <=? c) && (c <=? 122) then st 470
      else st 0)
    else if (65 <=? c) then st 470
    else st 0)
  else st 470).
Definition st_485 (c : Z) : target action :=
  switch c [33 --> st 470; 35 --> tr_485; 37 --> st 36; 46 --> st 472; 47 --> tr_486;
    58 --> tr_487; 59 --> st 470; 61 --> st 470; 63 --> tr_488; 95 --> st 470; 126 --> st 470] (
  if (c <? 48) then (
    if (36 <=? c) && (c <=? 45) then st 470
    else st 0)
  else if (57 <? c) then (
    if (90 <? c) then (
      if (97 <=? c) && (c <=? 122) then st 470
      else st 0)
    else if (65 <=? c) then st 470
    else st 0)
  else st 486).
Definition st_486 (c : Z) : target action :=
  switch c [33 --> st 470; 35 --> tr_485; 37 --> st 36; 46 --> st 472; 47 --> tr_486;
    58 --> tr_487; 59 --> st 470; 61 --> st 470; 63 --> tr_488; 95 --> st 470; 126 --> st 470] (
  if (c <? 48) then (
    if (36 <=? c) && (c <=? 45) then st 470
    else st 0)
  else if (57 <? c) then (
    if (90 <? c) then (
      if (97 <=? c) && (c <=? 122) then st 470
      else st 0)
    else if (65 <=? c) then st 470
    else st 0)
  else st 471).
Definition st_487 (c : Z) : target action :=
  switch c [33 --> st 470; 35 --> tr_485; 37 --> st 36; 46 --> st 472; 47 --> tr_486;
    53 --> st 488; 58 --> tr_487; 59 --> st 470; 61 --> st 470; 63 --> tr_488; 95 --> st 470;
    126 --> st 470] (
  if (c <? 48) then (
    if (36 <=? c) && (c <=? 45) then st 470
    else st 0)
  else if (57 <? c) then (
    if (90 <? c) then (
      if (97 <=? c) && (c <=? 122) then st 470
      else st 0)
    else if (65 <=? c) then st 470
    else st 0)
  else st 471).
Definition st_488 (c : Z) : target action :=
  switch c [33 --> st 470; 35 --> tr_485; 37 --> st 36; 46 --> st 472; 47 --> tr_486;
    58 --> tr_487; 61 --> st 470; 63 --> tr_488; 95 --> st 470; 126 --> st 470] (
  if (c <? 54) then (
    if (45 <? c) then (
      if (48 <=? c) && (c <=? 53) then st 471
      else st 0)
    else if (36 <=? c) then st 470
    else st 0)
  else if (59 <? c) then (
    if (90 <? c) then (
      if (97 <=? c) && (c <=? 122) then st 470
      else st 0)
    else if (65 <=? c) then st 470
    else st 0)
  else st 470).
Definition st_489 (c : Z) : target action :=
  switch c [33 --> st 33; 35 --> tr_493; 37 --> st 34; 47 --> tr_494; 61 --> st 33;
    63 --> tr_496; 64 --> tr_38; 95 --> st 33; 126 --> st 33] (
  if (c <? 58) then (
    if (46 <? c) then (
      if (48 <=? c) && (c <=? 57) then st 489
      else st 0)
    else if (36 <=? c) then st 33
    else st 0)
  else if (59 <? c) then (
    if (90 <? c) then (
      if (97 <=? c) && (c <=? 122) then st 33
      else st 0)
    else if (65 <=? c) then st 33
    else st 0)
  else st 33).
Definition st_490 (c : Z) : target action :=
  switch c [33 --> st 467; 35 --> tr_485; 37 --> st 31; 46 --> st 491; 47 --> tr_486;
    58 --> tr_499; 61 --> st 467; 63 --> tr_488; 64 --> tr_38; 95 --> st 467; 126 --> st 467] (
  if (c <? 65) then (
    if (36 <=? c) && (c <=? 59) then st 467
    else st 0)
  else if (90 <? c) then (
    if (97 <=? c) && (c <=? 122) then st 467
    else st 0)
  else st 467).
Definition st_491 (c : Z) : target action :=
  switch c [2 --> st 13; 33 --> st 467; 35 --> tr_485; 37 --> st 31; 47 --> tr_486;
    48 --> st 492; 49 --> st 500; 50 --> st 502; 58 --> tr_499; 59 --> st 467; 61 --> st 467;
    63 --> tr_488; 64 --> tr_38; 95 --> st 467; 126 --> st 467] (
  if (c <? 51) then (
    if (36 <=? c) && (c <=? 46) then st 467
    else st 0)
  else if (57 <? c) then (
    if (90 <? c) then (
      if (97 <=? c) && (c <=? 122) then st 467
      else st 0)
    else if (65 <=? c) then st 467
    else st 0)
  else st 501).
Definition st_492 (c : Z) : target action :=
  switch c [33 --> st 467; 35 --> tr_485; 37 --> st 31; 46 --> st 493; 47 --> tr_486;
    58 --> tr_499; 61 --> st 467; 63 --> tr_488; 64 --> tr_38; 95 --> st 467; 126 --> st 467] (
  if (c <? 65) then (
    if (36 <=? c) && (c <=? 59) then st 467
    else st 0)
  else if (90 <? c) then (
    if (97 <=? c) && (c <=? 122) then st 467
    else st 0)
  else st 467).
Definition st_493 (c : Z) : target action :=
  switch c [2 --> st 17; 33 --> st 467; 35 --> tr_485; 37 --> st 31; 47 --> tr_486;
    48 --> st 494; 49 --> st 496; 50 --> st 498; 58 --> tr_499; 59 --> st 467; 61 --> st 467;
    63 --> tr_488; 64 --> tr_38; 95 --> st 467; 126 --> st 467] (
  if (c <? 51) then (
    if (36 <=? c) && (c <=? 46) then st 467
    else st 0)
  else if (57 <? c) then (
    if (90 <? c) then (
      if (97 <=? c) && (c <=? 122) then st 467
      else st 0)
    else if (65 <=? c) then st 467
    else st 0)
  else st 497).
Definition st_494 (c : Z) : target action :=
  switch c [33 --> st 467; 35 --> tr_485; 37 --> st 31; 46 --> st 495; 47 --> tr_486;
    58 --> tr_499; 61 --> st 467; 63 --> tr_488; 64 --> tr_38; 95 --> st 467; 126 --> st 467] (
  if (c <? 65) then (
    if (36 <=? c) && (c <=? 59) then st 467
    else st 0)
  else if (90 <? c) then (
    if (97 <=? c) && (c <=? 122) then st 467
    else st 0)
  else st 467).
Definition st_495 (c : Z) : target action :=
  switch c [2 --> st 21; 33 --> st 467; 35 --> tr_485; 37 --> st 31; 47 --> tr_486;
    58 --> tr_499; 61 --> st 467; 63 --> tr_488; 64 --> tr_38; 95 --> st 467; 126 --> st 467] (
  if (c <? 65) then (
    if (36 <=? c) && (c <=? 59) then st 467
    else st 0)
  else if (90 <? c) then (
    if (97 <=? c) && (c <=? 122) then st 467
    else st 0)
  else st 467).
Definition st_496 (c : Z) : target action :=
  switch c [33 --> st 467; 35 --> tr_485; 37 --> st 31; 46 --> st 495; 47 --> tr_486;
    58 --> tr_499; 59 --> st 467; 61 --> st 467; 63 --> tr_488; 64 --> tr_38; 95 --> st 467;
    126 --> st 467] (
  if (c <? 48) then (
    if (36 <=? c) && (c <=? 45) then st 467
    else st 0)
  else if (57 <? c) then (
    if (90 <? c) then (
      if (97 <=? c) && (c <=? 122) then st 467
      else st 0)
    else if (65 <=? c) then st 467
    else st 0)
  else st 497).
Definition st_497 (c : Z) : target action :=
  switch c [33 --> st 467; 35 --> tr_485; 37 --> st 31; 46 --> st 495; 47 --> tr_486;
    58 --> tr_499; 59 --> st 467; 61 --> st 467; 63 --> tr_488; 64 --> tr_38; 95 --> st 467;
    126 --> st 467] (
  if (c <? 48) then (
    if (36 <=? c) && (c <=? 45) then st 467
    else st 0)
  else if (57 <? c) then (
    if (90 <? c) then (
      if (97 <=? c) && (c <=? 122) then st 467
      else st 0)
    else if (65 <=? c) then st 467
    else st 0)
  else st 494).
Definition st_498 (c : Z) : target action :=
  switch c [33 --> st 467; 35 --> tr_485; 37 --> st 31; 46 --> st 495; 47 --> tr_486;
    53 --> st 499; 58 --> tr_499; 59 --> st 467; 61 --> st 467; 63 --> tr_488; 64 --> tr_38;
    95 --> st 467; 126 --> st 467] (
  if (c <? 48) then (
    if (36 <=? c) && (c <=? 45) then st 467
    else st 0)
  else if (57 <? c) then (
    if (90 <? c) then (
      if (97 <=? c) && (c <=? 122) then st 467
      else st 0)
    else if (65 <=? c) then st 467
    else st 0)
  else st 494).
Definition st_499 (c : Z) : target action :=
  switch c [33 --> st 467; 35 --> tr_485; 37 --> st 31; 46 --> st 495; 47 --> tr_486;
    58 --> tr_499; 61 --> st 467; 63 --> tr_488; 64 --> tr_38; 95 --> st 467; 126 --> st 467] (
  if (c <? 54) then (
    if (45 <? c) then (
      if (48 <=? c) && (c <=? 53) then st 494
      else st 0)
    else if (36 <=? c) then st 467
    else st 0)
  else if (59 <? c) then (
    if (90 <? c) then (
      if (97 <=? c) && (c <=? 122) then st 467
      else st 0)
    else if (65 <=? c) then st 467
    else st 0)
  else st 467).
Definition st_500 (c : Z) : target action :=
  switch c [33 --> st 467; 35 --> tr_485; 37 --> st 31; 46 --> st 493; 47 --> tr_486;
    58 --> tr_499; 59 --> st 467; 61 --> st 467; 63 --> tr_488; 64 --> tr_38; 95 --> st 467;
    126 --> st 467] (
  if (c <? 48) then (
    if (36 <=? c) && (c <=? 45) then st 467
    else st 0)
  else if (57 <? c) then (
    if (90 <? c) then (
      if (97 <=? c) && (c <=? 122) then st 467
      else st 0)
    else if (65 <=? c) then st 467
    else st 0)
  else st 501).
Definition st_501 (c : Z) : target action :=
  switch c [33 --> st 467; 35 --> tr_485; 37 --> st 31; 46 --> st 493; 47 --> tr_486;
    58 --> tr_499; 59 --> st 467; 61 --> st 467; 63 --> tr_488; 64 --> tr_38; 95 --> st 467;
    126 --> st 467] (
  if (c <? 48) then (
    if (36 <=? c) && (c <=? 45) then st 467
    else st 0)
  else if (57 <? c) then (
    if (90 <? c) then (
      if (97 <=? c) && (c <=? 122) then st 467
      else st 0)
    else if (65 <=? c) then st 467
    else st 0)
  else st 492).
Definition st_502 (c : Z) : target action :=
  switch c [33 --> st 467; 35 --> tr_485; 37 --> st 31; 46 --> st 493; 47 --> tr_486;
    53 --> st 503; 58 --> tr_499; 59 --> st 467; 61 --> st 467; 63 --> tr_488; 64 --> tr_38;
    95 --> st 467; 126 --> st 467] (
  if (c <? 48) then (
    if (36 <=? c) && (c <=? 45) then st 467
    else st 0)
  else if (57 <? c) then (
    if (90 <? c) then (
      if (97 <=? c) && (c <=? 122) then st 467
      else st 0)
    else if (65 <=? c) then st 467
    else st 0)
  else st 492).
Definition st_503 (c : Z) : target action :=
  switch c [33 --> st 467; 35 --> tr_485; 37 --> st 31; 46 --> st 493; 47 --> tr_486;
    58 --> tr_499; 61 --> st 467; 63 --> tr_488; 64 --> tr_38; 95 --> st 467; 126 --> st 467] (
  if (c <? 54) then (
    if (45 <? c) then (
      if (48 <=? c) && (c <=? 53) then st 492
      else st 0)
    else if (36 <=? c) then st 467
    else st 0)
  else if (59 <? c) then (
    if (90 <? c) then (
      if (97 <=? c) && (c <=? 122) then st 467
      else st 0)
    else if (65 <=? c) then st 467
    else st 0)
  else st 467).
Definition st_504 (c : Z) : target action :=
  switch c [33 --> st 467; 35 --> tr_485; 37 --> st 31; 46 --> st 491; 47 --> tr_486;
    58 --> tr_499; 59 --> st 467; 61 --> st 467; 63 --> tr_488; 64 --> tr_38; 95 --> st 467;
    126 --> st 467] (
  if (c <? 48) then (
    if (36 <=? c) && (c <=? 45) then st 467
    else st 0)
  else if (57 <? c) then (
    if (90 <? c) then (
      if (97 <=? c) && (c <=? 122) then st 467
      else st 0)
    else if (65 <=? c) then st 467
    else st 0)
  else st 505).
Definition st_505 (c : Z) : target action :=
  switch c [33 --> st 467; 35 --> tr_485; 37 --> st 31; 46 --> st 491; 47 --> tr_486;
    58 --> tr_499; 59 --> st 467; 61 --> st 467; 63 --> tr_488; 64 --> tr_38; 95 --> st 467;
    126 --> st 467] (
  if (c <? 48) then (
    if (36 <=? c) && (c <=? 45) then st 467
    else st 0)
  else if (57 <? c) then (
    if (90 <? c) then (
      if (97 <=? c) && (c <=? 122) then st 467
      else st 0)
    else if (65 <=? c) then st 467
    else st 0)
  else st 490).
Definition st_506 (c : Z) : target action :=
  switch c [33 --> st 467; 35 --> tr_485; 37 --> st 31; 46 --> st 491; 47 --> tr_486;
    53 --> st 507; 58 --> tr_499; 59 --> st 467; 61 --> st 467; 63 --> tr_488; 64 --> tr_38;
    95 --> st 467; 126 --> st 467] (
  if (c <? 48) then (
    if (36 <=? c) && (c <=? 45) then st 467
    else st 0)
  else if (57 <? c) then (
    if (90 <? c) then (
      if (97 <=? c) && (c <=? 122) then st 467
      else st 0)
    else if (65 <=? c) then st 467
    else st 0)
  else st 490).
Definition st_507 (c : Z) : target action :=
  switch c [33 --> st 467; 35 --> tr_485; 37 --> st 31; 46 --> st 491; 47 --> tr_486;
    58 --> tr_499; 61 --> st 467; 63 --> tr_488; 64 --> tr_38; 95 --> st 467; 126 --> st 467] (
  if (c <? 54) then (
    if (45 <? c) then (
      if (48 <=? c) && (c <=? 53) then st 490
      else st 0)
    else if (36 <=? c) then st 467
    else st 0)
  else if (59 <? c) then (
    if (90 <? c) then (
      if (97 <=? c) && (c <=? 122) then st 467
      else st 0)
    else if (65 <=? c) then st 467
    else st 0)
  else st 467).
Definition st_508 (c : Z) : target action :=
  switch c [34 --> st 0; 35 --> st 453; 37 --> st 3; 43 --> st 508; 47 --> st 455; 58 --> tr_543;
    60 --> st 0; 62 --> st 0; 63 --> st 456; 96 --> st 0; 127 --> st 0] (
  if (c <? 65) then (
    if (32 <? c) then (
      if (45 <=? c) && (c <=? 57) then st 508
      else st 452)
    else if (0 <=? c) then st 0
    else st 452)
  else if (90 <? c) then (
    if (c <? 97) then (
      if (91 <=? c) && (c <=? 94) then st 0
      else st 452)
    else if (122 <? c) then (
      if (123 <=? c) && (c <=? 125) then st 0
      else st 452)
    else st 508)
  else st 508).
Definition st_509 (c : Z) : target action :=
  switch c [34 --> st 0; 35 --> st 453; 37 --> st 5; 47 --> st 510; 60 --> st 0; 62 --> st 0;
    63 --> st 456; 96 --> st 0; 127 --> st 0] (
  if (c <? 91) then (
    if (0 <=? c) && (c <=? 32) then st 0
    else st 455)
  else if (94 <? c) then (
    if (123 <=? c) && (c <=? 125) then st 0
    else st 455)
  else st 0).
Definition st_510 (c : Z) : target action :=
  switch c [34 --> st 0; 35 --> st 453; 37 --> st 5; 47 --> st 511; 60 --> st 0; 62 --> st 0;
    63 --> st 456; 96 --> st 0; 127 --> st 0] (
  if (c <? 91) then (
    if (0 <=? c) && (c <=? 32) then st 0
    else st 455)
  else if (94 <? c) then (
    if (123 <=? c) && (c <=? 125) then st 0
    else st 455)
  else st 0).
Definition st_511 (c : Z) : target action :=
  switch c [2 --> tr_546; 33 --> tr_547; 35 --> tr_548; 37 --> tr_549; 47 --> tr_550;
    48 --> tr_551; 49 --> tr_552; 50 --> tr_553; 58 --> tr_555; 59 --> tr_547; 61 --> tr_547;
    63 --> tr_556; 64 --> tr_557; 91 --> tr_558; 95 --> tr_547; 126 --> tr_547] (
  if (c <? 51) then (
    if (36 <=? c) && (c <=? 46) then tr_547
    else st 0)
  else if (57 <? c) then (
    if (90 <? c) then (
      if (97 <=? c) && (c <=? 122) then tr_547
      else st 0)
    else if (65 <=? c) then tr_547
    else st 0)
  else tr_554).
Definition st_512 (c : Z) : target action :=
  switch c [35 --> tr_559; 47 --> tr_560; 58 --> tr_561; 63 --> tr_562] (
  st 0).
Definition st_513 (c : Z) : target action :=
  switch c [34 --> st 0; 35 --> tr_563; 37 --> st 243; 60 --> st 0; 62 --> st 0; 63 --> tr_565;
    96 --> st 0; 127 --> st 0] (
  if (c <? 91) then (
    if (0 <=? c) && (c <=? 32) then st 0
    else st 513)
  else if (94 <? c) then (
    if (123 <=? c) && (c <=? 125) then st 0
    else st 513)
  else st 0).
Definition st_514 (c : Z) : target action :=
  switch c [35 --> tr_566; 47 --> tr_567; 63 --> tr_569] (
  if (48 <=? c) && (c <=? 57) then tr_568
  else st 0).
Definition st_515 (c : Z) : target action :=
  switch c [35 --> tr_570; 47 --> tr_571; 63 --> tr_573] (
  if (48 <=? c) && (c <=? 57) then st 515
  else st 0).
Definition st_516 (c : Z) : target action :=
  switch c [35 --> tr_559; 47 --> tr_560; 58 --> tr_561; 63 --> tr_562] (
  if (48 <=? c) && (c <=? 57) then st 517
  else st 0).
Definition st_517 (c : Z) : target action :=
  switch c [35 --> tr_559; 47 --> tr_560; 58 --> tr_561; 63 --> tr_562] (
  if (48 <=? c) && (c <=? 57) then st 512
  else st 0).
Definition st_518 (c : Z) : target action :=
  switch c [35 --> tr_559; 47 --> tr_560; 53 --> st 519; 58 --> tr_561; 63 --> tr_562] (
  if (48 <=? c) && (c <=? 57) then st 512
  else st 0).
Definition st_519 (c : Z) : target action :=
  switch c [35 --> tr_559; 47 --> tr_560; 58 --> tr_561; 63 --> tr_562] (
  if (48 <=? c) && (c <=? 53) then st 512
  else st 0).
Definition st_520 (c : Z) : target action :=
  switch c [33 --> st 520; 35 --> tr_559; 37 --> st 253; 47 --> tr_560; 58 --> tr_576;
    61 --> st 520; 63 --> tr_562; 64 --> tr_263; 95 --> st 520; 126 --> st 520] (
  if (c <? 65) then (
    if (36 <=? c) && (c <=? 59) then st 520
    else st 0)
  else if (90 <? c) then (
    if (97 <=? c) && (c <=? 122) then st 520
    else st 0)
  else st 520).
Definition st_521 (c : Z) : target action :=
  switch c [33 --> st 255; 35 --> tr_566; 37 --> st 256; 47 --> tr_567; 61 --> st 255;
    63 --> tr_569; 64 --> tr_263; 95 --> st 255; 126 --> st 255] (
  if (c <? 58) then (
    if (46 <? c) then (
      if (48 <=? c) && (c <=? 57) then tr_577
      else st 0)
    else if (36 <=? c) then st 255
    else st 0)
  else if (59 <? c) then (
    if (90 <? c) then (
      if (97 <=? c) && (c <=? 122) then st 255
      else st 0)
    else if (65 <=? c) then st 255
    else st 0)
  else st 255).
Definition st_522 (c : Z) : target action :=
  switch c [2 --> tr_546; 33 --> tr_578; 35 --> tr_548; 37 --> tr_579; 47 --> tr_550;
    48 --> tr_580; 49 --> tr_581; 50 --> tr_582; 58 --> tr_584; 59 --> tr_578; 61 --> tr_578;
    63 --> tr_556; 91 --> tr_558; 95 --> tr_578; 126 --> tr_578] (
  if (c <? 51) then (
    if (36 <=? c) && (c <=? 46) then tr_578
    else st 0)
  else if (57 <? c) then (
    if (90 <? c) then (
      if (97 <=? c) && (c <=? 122) then tr_578
      else st 0)
    else if (65 <=? c) then tr_578
    else st 0)
  else tr_583).
Definition st_523 (c : Z) : target action :=
  switch c [33 --> st 523; 35 --> tr_559; 37 --> st 258; 47 --> tr_560; 58 --> tr_561;
    61 --> st 523; 63 --> tr_562; 95 --> st 523; 126 --> st 523] (
  if (c <? 65) then (
    if (36 <=? c) && (c <=? 59) then st 523
    else st 0)
  else if (90 <? c) then (
    if (97 <=? c) && (c <=? 122) then st 523
    else st 0)
  else st 523).
Definition st_524 (c : Z) : target action :=
  switch c [33 --> st 523; 35 --> tr_559; 37 --> st 258; 46 --> st 525; 47 --> tr_560;
    58 --> tr_561; 61 --> st 523; 63 --> tr_562; 95 --> st 523; 126 --> st 523] (
  if (c <? 65) then (
    if (36 <=? c) && (c <=? 59) then st 523
    else st 0)
  else if (90 <? c) then (
    if (97 <=? c) && (c <=? 122) then st 523
    else st 0)
  else st 523).
Definition st_525 (c : Z) : target action :=
  switch c [2 --> st 233; 33 --> st 523; 35 --> tr_559; 37 --> st 258; 47 --> tr_560;
    48 --> st 526; 49 --> st 534; 50 --> st 536; 58 --> tr_561; 59 --> st 523; 61 --> st 523;
    63 --> tr_562; 95 --> st 523; 126 --> st 523] (
  if (c <? 51) then (
    if (36 <=? c) && (c <=? 46) then st 523
    else st 0)
  else if (57 <? c) then (
    if (90 <? c) then (
      if (97 <=? c) && (c <=? 122) then st 523
      else st 0)
    else if (65 <=? c) then st 523
    else st 0)
  else st 535).
Definition st_526 (c : Z) : target action :=
  switch c [33 --> st 523; 35 --> tr_559; 37 --> st 258; 46 --> st 527; 47 --> tr_560;
    58 --> tr_561; 61 --> st 523; 63 --> tr_562; 95 --> st 523; 126 --> st 523] (
  if (c <? 65) then (
    if (36 <=? c) && (c <=? 59) then st 523
    else st 0)
  else if (90 <? c) then (
    if (97 <=? c) && (c <=? 122) then st 523
    else st 0)
  else st 523).
Definition st_527 (c : Z) : target action :=
  switch c [2 --> st 237; 33 --> st 523; 35 --> tr_559; 37 --> st 258; 47 --> tr_560;
    48 --> st 528; 49 --> st 530; 50 --> st 532; 58 --> tr_561; 59 --> st 523; 61 --> st 523;
    63 --> tr_562; 95 --> st 523; 126 --> st 523] (
  if (c <? 51) then (
    if (36 <=? c) && (c <=? 46) then st 523
    else st 0)
  else if (57 <? c) then (
    if (90 <? c) then (
      if (97 <=? c) && (c <=? 122) then st 523
      else st 0)
    else if (65 <=? c) then st 523
    else st 0)
  else st 531).
Definition st_528 (c : Z) : target action :=
  switch c [33 --> st 523; 35 --> tr_559; 37 --> st 258; 46 --> st 529; 47 --> tr_560;
    58 --> tr_561; 61 --> st 523; 63 --> tr_562; 95 --> st 523; 126 --> st 523] (
  if (c <? 65) then (
    if (36 <=? c) && (c <=? 59) then st 523
    else st 0)
  else if (90 <? c) then (
    if (97 <=? c) && (c <=? 122) then st 523
    else st 0)
  else st 523).
Definition st_529 (c : Z) : target action :=
  switch c [2 --> st 241; 33 --> st 523; 35 --> tr_559; 37 --> st 258; 47 --> tr_560;
    58 --> tr_561; 61 --> st 523; 63 --> tr_562; 95 --> st 523; 126 --> st 523] (
  if (c <? 65) then (
    if (36 <=? c) && (c <=? 59) then st 523
    else st 0)
  else if (90 <? c) then (
    if (97 <=? c) && (c <=? 122) then st 523
    else st 0)
  else st 523).
Definition st_530 (c : Z) : target action :=
  switch c [33 --> st 523; 35 --> tr_559; 37 --> st 258; 46 --> st 529; 47 --> tr_560;
    58 --> tr_561; 59 --> st 523; 61 --> st 523; 63 --> tr_562; 95 --> st 523; 126 --> st 523] (
  if (c <? 48) then (
    if (36 <=? c) && (c <=? 45) then st 523
    else st 0)
  else if (57 <? c) then (
    if (90 <? c) then (
      if (97 <=? c) && (c <=? 122) then st 523
      else st 0)
    else if (65 <=? c) then st 523
    else st 0)
  else st 531).
Definition st_531 (c : Z) : target action :=
  switch c [33 --> st 523; 35 --> tr_559; 37 --> st 258; 46 --> st 529; 47 --> tr_560;
    58 --> tr_561; 59 --> st 523; 61 --> st 523; 63 --> tr_562; 95 --> st 523; 126 --> st 523] (
  if (c <? 48) then (
    if (36 <=? c) && (c <=? 45) then st 523
    else st 0)
  else if (57 <? c) then (
    if (90 <? c) then (
      if (97 <=? c) && (c <=? 122) then st 523
      else st 0)
    else if (65 <=? c) then st 523
    else st 0)
  else st 528).
Definition st_532 (c : Z) : target action :=
  switch c [33 --> st 523; 35 --> tr_559; 37 --> st 258; 46 --> st 529; 47 --> tr_560;
    53 --> st 533; 58 --> tr_561; 59 --> st 523; 61 --> st 523; 63 --> tr_562; 95 --> st 523;
    126 --> st 523] (
  if (c <? 48) then (
    if (36 <=? c) && (c <=? 45) then st 523
    else st 0)
  else if (57 <? c) then (
    if (90 <? c) then (
      if (97 <=? c) && (c <=? 122) then st 523
      else st 0)
    else if (65 <=? c) then st 523
    else st 0)
  else st 528).
Definition st_533 (c : Z) : target action :=
  switch c [33 --> st 523; 35 --> tr_559; 37 --> st 258; 46 --> st 529; 47 --> tr_560;
    58 --> tr_561; 61 --> st 523; 63 --> tr_562; 95 --> st 523; 126 --> st 523] (
  if (c <? 54) then (
    if (45 <? c) then (
      if (48 <=? c) && (c <=? 53) then st 528
      else st 0)
    else if (36 <=? c) then st 523
    else st 0)
  else if (59 <? c) then (
    if (90 <? c) then (
      if (97 <=? c) && (c <=? 122) then st 523
      else st 0)
    else if (65 <=? c) then st 523
    else st 0)
  else st 523).
Definition st_534 (c : Z) : target action :=
  switch c [33 --> st 523; 35 --> tr_559; 37 --> st 258; 46 --> st 527; 47 --> tr_560;
    58 --> tr_561; 59 --> st 523; 61 --> st 523; 63 --> tr_562; 95 --> st 523; 126 --> st 523] (
  if (c <? 48) then (
    if (36 <=? c) && (c <=? 45) then st 523
    else st 0)
  else if (57 <? c) then (
    if (90 <? c) then (
      if (97 <=? c) && (c <=? 122) then st 523
      else st 0)
    else if (65 <=? c) then st 523
    else st 0)
  else st 535).
Definition st_535 (c : Z) : target action :=
  switch c [33 --> st 523; 35 --> tr_559; 37 --> st 258; 46 --> st 527; 47 --> tr_560;
    58 --> tr_561; 59 --> st 523; 61 --> st 523; 63 --> tr_562; 95 --> st 523; 126 --> st 523] (
  if (c <? 48) then (
    if (36 <=? c) && (c <=? 45) then st 523
    else st 0)
  else if (57 <? c) then (
    if (90 <? c) then (
      if (97 <=? c) && (c <=? 122) then st 523
      else st 0)
    else if (65 <=? c) then st 523
    else st 0)
  else st 526).
Definition st_536 (c : Z) : target action :=
  switch c [33 --> st 523; 35 --> tr_559; 37 --> st 258; 46 --> st 527; 47 --> tr_560;
    53 --> st 537; 58 --> tr_561; 59 --> st 523; 61 --> st 523; 63 --> tr_562; 95 --> st 523;
    126 --> st 523] (
  if (c <? 48) then (
    if (36 <=? c) && (c <=? 45) then st 523
    else st 0)
  else if (57 <? c) then (
    if (90 <? c) then (
      if (97 <=? c) && (c <=? 122) then st 523
      else st 0)
    else if (65 <=? c) then st 523
    else st 0)
  else st 526).
Definition st_537 (c : Z) : target action :=
  switch c [33 --> st 523; 35 --> tr_559; 37 --> st 258; 46 --> st 527; 47 --> tr_560;
    58 --> tr_561; 61 --> st 523; 63 --> tr_562; 95 --> st 523; 126 --> st 523] (
  if (c <? 54) then (
    if (45 <? c) then (
      if (48 <=? c) && (c <=? 53) then st 526
      else st 0)
    else if (36 <=? c) then st 523
    else st 0)
  else if (59 <? c) then (
    if (90 <? c) then (
      if (97 <=? c) && (c <=? 122) then st 523
      else st 0)
    else if (65 <=? c) then st 523
    else st 0)
  else st 523).
Definition st_538 (c : Z) : target action :=
  switch c [33 --> st 523; 35 --> tr_559; 37 --> st 258; 46 --> st 525; 47 --> tr_560;
    58 --> tr_561; 59 --> st 523; 61 --> st 523; 63 --> tr_562; 95 --> st 523; 126 --> st 523] (
  if (c <? 48) then (
    if (36 <=? c) && (c <=? 45) then st 523
    else st 0)
  else if (57 <? c) then (
    if (90 <? c) then (
      if (97 <=? c) && (c <=? 122) then st 523
      else st 0)
    else if (65 <=? c) then st 523
    else st 0)
  else st 539).
Definition st_539 (c : Z) : target action :=
  switch c [33 --> st 523; 35 --> tr_559; 37 --> st 258; 46 --> st 525; 47 --> tr_560;
    58 --> tr_561; 59 --> st 523; 61 --> st 523; 63 --> tr_562; 95 --> st 523; 126 --> st 523] (
  if (c <? 48) then (
    if (36 <=? c) && (c <=? 45) then st 523
    else st 0)
  else if (57 <? c) then (
    if (90 <? c) then (
      if (97 <=? c) && (c <=? 122) then st 523
      else st 0)
    else if (65 <=? c) then st 523
    else st 0)
  else st 524).
Definition st_540 (c : Z) : target action :=
  switch c [33 --> st 523; 35 --> tr_559; 37 --> st 258; 46 --> st 525; 47 --> tr_560;
    53 --> st 541; 58 --> tr_561; 59 --> st 523; 61 --> st 523; 63 --> tr_562; 95 --> st 523;
    126 --> st 523] (
  if (c <? 48) then (
    if (36 <=? c) && (c <=? 45) then st 523
    else st 0)
  else if (57 <? c) then (
    if (90 <? c) then (
      if (97 <=? c) && (c <=? 122) then st 523
      else st 0)
    else if (65 <=? c) then st 523
    else st 0)
  else st 524).
Definition st_541 (c : Z) : target action :=
  switch c [33 --> st 523; 35 --> tr_559; 37 --> st 258; 46 --> st 525; 47 --> tr_560;
    58 --> tr_561; 61 --> st 523; 63 --> tr_562; 95 --> st 523; 126 --> st 523] (
  if (c <? 54) then (
    if (45 <? c) then (
      if (48 <=? c) && (c <=? 53) then st 524
      else st 0)
    else if (36 <=? c) then st 523
    else st 0)
  else if (59 <? c) then (
    if (90 <? c) then (
      if (97 <=? c) && (c <=? 122) then st 523
      else st 0)
    else if (65 <=? c) then st 523
    else st 0)
  else st 523).
Definition st_542 (c : Z) : target action :=
  switch c [33 --> st 255; 35 --> tr_570; 37 --> st 256; 47 --> tr_571; 61 --> st 255;
    63 --> tr_573; 64 --> tr_263; 95 --> st 255; 126 --> st 255] (
  if (c <? 58) then (
    if (46 <? c) then (
      if (48 <=? c) && (c <=? 57) then st 542
      else st 0)
    else if (36 <=? c) then st 255
    else st 0)
  else if (59 <? c) then (
    if (90 <? c) then (
      if (97 <=? c) && (c <=? 122) then st 255
      else st 0)
    else if (65 <=? c) then st 255
    else st 0)
  else st 255).
Definition st_543 (c : Z) : target action :=
  switch c [33 --> st 520; 35 --> tr_559; 37 --> st 253; 46 --> st 544; 47 --> tr_560;
    58 --> tr_576; 61 --> st 520; 63 --> tr_562; 64 --> tr_263; 95 --> st 520; 126 --> st 520] (
  if (c <? 65) then (
    if (36 <=? c) && (c <=? 59) then st 520
    else st 0)
  else if (90 <? c) then (
    if (97 <=? c) && (c <=? 122) then st 520
    else st 0)
  else st 520).
Definition st_544 (c : Z) : target action :=
  switch c [2 --> st 233; 33 --> st 520; 35 --> tr_559; 37 --> st 253; 47 --> tr_560;
    48 --> st 545; 49 --> st 553; 50 --> st 555; 58 --> tr_576; 59 --> st 520; 61 --> st 520;
    63 --> tr_562; 64 --> tr_263; 95 --> st 520; 126 --> st 520] (
  if (c <? 51) then (
    if (36 <=? c) && (c <=? 46) then st 520
    else st 0)
  else if (57 <? c) then (
    if (90 <? c) then (
      if (97 <=? c) && (c <=? 122) then st 520
      else st 0)
    else if (65 <=? c) then st 520
    else st 0)
  else st 554).
Definition st_545 (c : Z) : target action :=
  switch c [33 --> st 520; 35 --> tr_559; 37 --> st 253; 46 --> st 546; 47 --> tr_560;
    58 --> tr_576; 61 --> st 520; 63 --> tr_562; 64 --> tr_263; 95 --> st 520; 126 --> st 520] (
  if (c <? 65) then (
    if (36 <=? c) && (c <=? 59) then st 520
    else st 0)
  else if (90 <? c) then (
    if (97 <=? c) && (c <=? 122) then st 520
    else st 0)
  else st 520).
Definition st_546 (c : Z) : target action :=
  switch c [2 --> st 237; 33 --> st 520; 35 --> tr_559; 37 --> st 253; 47 --> tr_560;
    48 --> st 547; 49 --> st 549; 50 --> st 551; 58 --> tr_576; 59 --> st 520; 61 --> st 520;
    63 --> tr_562; 64 --> tr_263; 95 --> st 520; 126 --> st 520] (
  if (c <? 51) then (
    if (36 <=? c) && (c <=? 46) then st 520
    else st 0)
  else if (57 <? c) then (
    if (90 <? c) then (
      if (97 <=? c) && (c <=? 122) then st 520
      else st 0)
    else if (65 <=? c) then st 520
    else st 0)
  else st 550).
Definition st_547 (c : Z) : target action :=
  switch c [33 --> st 520; 35 --> tr_559; 37 --> st 253; 46 --> st 548; 47 --> tr_560;
    58 --> tr_576; 61 --> st 520; 63 --> tr_562; 64 --> tr_263; 95 --> st 520; 126 --> st 520] (
  if (c <? 65) then (
    if (36 <=? c) && (c <=? 59) then st 520
    else st 0)
  else if (90 <? c) then (
    if (97 <=? c) && (c <=? 122) then st 520
    else st 0)
  else st 520).
Definition st_548 (c : Z) : target action :=
  switch c [2 --> st 241; 33 --> st 520; 35 --> tr_559; 37 --> st 253; 47 --> tr_560;
    58 --> tr_576; 61 --> st 520; 63 --> tr_562; 64 --> tr_263; 95 --> st 520; 126 --> st 520] (
  if (c <? 65) then (
    if (36 <=? c) && (c <=? 59) then st 520
    else st 0)
  else if (90 <? c) then (
    if (97 <=? c) && (c <=? 122) then st 520
    else st 0)
  else st 520).
Definition st_549 (c : Z) : target action :=
  switch c [33 --> st 520; 35 --> tr_559; 37 --> st 253; 46 --> st 548; 47 --> tr_560;
    58 --> tr_576; 59 --> st 520; 61 --> st 520; 63 --> tr_562; 64 --> tr_263; 95 --> st 520;
    126 --> st 520] (
  if (c <? 48) then (
    if (36 <=? c) && (c <=? 45) then st 520
    else st 0)
  else if (57 <? c) then (
    if (90 <? c) then (
      if (97 <=? c) && (c <=? 122) then st 520
      else st 0)
    else if (65 <=? c) then st 520
    else st 0)
  else st 550).
Definition st_550 (c : Z) : target action :=
  switch c [33 --> st 520; 35 --> tr_559; 37 --> st 253; 46 --> st 548; 47 --> tr_560;
    58 --> tr_576; 59 --> st 520; 61 --> st 520; 63 --> tr_562; 64 --> tr_263; 95 --> st 520;
    126 --> st 520] (
  if (c <? 48) then (
    if (36 <=? c) && (c <=? 45) then st 520
    else st 0)
  else if (57 <? c) then (
    if (90 <? c) then (
      if (97 <=? c) && (c <=? 122) then st 520
      else st 0)
    else if (65 <=? c) then st 520
    else st 0)
  else st 547).
Definition st_551 (c : Z) : target action :=
  switch c [33 --> st 520; 35 --> tr_559; 37 --> st 253; 46 --> st 548; 47 --> tr_560;
    53 --> st 552; 58 --> tr_576; 59 --> st 520; 61 --> st 520; 63 --> tr_562; 64 --> tr_263;
    95 --> st 520; 126 --> st 520] (
  if (c <? 48) then (
    if (36 <=? c) && (c <=? 45) then st 520
    else st 0)
  else if (57 <? c) then (
    if (90 <? c) then (
      if (97 <=? c) && (c <=? 122) then st 520
      else st 0)
    else if (65 <=? c) then st 520
    else st 0)
  else st 547).
Definition st_552 (c : Z) : target action :=
  switch c [33 --> st 520; 35 --> tr_559; 37 --> st 253; 46 --> st 548; 47 --> tr_560;
    58 --> tr_576; 61 --> st 520; 63 --> tr_562; 64 --> tr_263; 95 --> st 520; 126 --> st 520] (
  if (c <? 54) then (
    if (45 <? c) then (
      if (48 <=? c) && (c <=? 53) then st 547
      else st 0)
    else if (36 <=? c) then st 520
    else st 0)
  else if (59 <? c) then (
    if (90 <? c) then (
      if (97 <=? c) && (c <=? 122) then st 520
      else st 0)
    else if (65 <=? c) then st 520
    else st 0)
  else st 520).
Definition st_553 (c : Z) : target action :=
  switch c [33 --> st 520; 35 --> tr_559; 37 --> st 253; 46 --> st 546; 47 --> tr_560;
    58 --> tr_576; 59 --> st 520; 61 --> st 520; 63 --> tr_562; 64 --> tr_263; 95 --> st 520;
    126 --> st 520] (
  if (c <? 48) then (
    if (36 <=? c) && (c <=? 45) then st 520
    else st 0)
  else if (57 <? c) then (
    if (90 <? c) then (
      if (97 <=? c) && (c <=? 122) then st 520
      else st 0)
    else if (65 <=? c) then st 520
    else st 0)
  else st 554).
Definition st_554 (c : Z) : target action :=
  switch c [33 --> st 520; 35 --> tr_559; 37 --> st 253; 46 --> st 546; 47 --> tr_560;
    58 --> tr_576; 59 --> st 520; 61 --> st 520; 63 --> tr_562; 64 --> tr_263; 95 --> st 520;
    126 --> st 520] (
  if (c <? 48) then (
    if (36 <=? c) && (c <=? 45) then st 520
    else st 0)
  else if (57 <? c) then (
    if (90 <? c) then (
      if (97 <=? c) && (c <=? 122) then st 520
      else st 0)
    else if (65 <=? c) then st 520
    else st 0)
  else st 545).
Definition st_555 (c : Z) : target action :=
  switch c [33 --> st 520; 35 --> tr_559; 37 --> st 253; 46 --> st 546; 47 --> tr_560;
    53 --> st 556; 58 --> tr_576; 59 --> st 520; 61 --> st 520; 63 --> tr_562; 64 --> tr_263;
    95 --> st 520; 126 --> st 520] (
  if (c <? 48) then (
    if (36 <=? c) && (c <=? 45) then st 520
    else st 0)
  else if (57 <? c) then (
    if (90 <? c) then (
      if (97 <=? c) && (c <=? 122) then st 520
      else st 0)
    else if (65 <=? c) then st 520
    else st 0)
  else st 545).
Definition st_556 (c : Z) : target action :=
  switch c [33 --> st 520; 35 --> tr_559; 37 --> st 253; 46 --> st 546; 47 --> tr_560;
    58 --> tr_576; 61 --> st 520; 63 --> tr_562; 64 --> tr_263; 95 --> st 520; 126 --> st 520] (
  if (c <? 54) then (
    if (45 <? c) then (
      if (48 <=? c) && (c <=? 53) then st 545
      else st 0)
    else if (36 <=? c) then st 520
    else st 0)
  else if (59 <? c) then (
    if (90 <? c) then (
      if (97 <=? c) && (c <=? 122) then st 520
      else st 0)
    else if (65 <=? c) then st 520
    else st 0)
  else st 520).
Definition st_557 (c : Z) : target action :=
  switch c [33 --> st 520; 35 --> tr_559; 37 --> st 253; 46 --> st 544; 47 --> tr_560;
    58 --> tr_576; 59 --> st 520; 61 --> st 520; 63 --> tr_562; 64 --> tr_263; 95 --> st 520;
    126 --> st 520] (
  if (c <? 48) then (
    if (36 <=? c) && (c <=? 45) then st 520
    else st 0)
  else if (57 <? c) then (
    if (90 <? c) then (
      if (97 <=? c) && (c <=? 122) then st 520
      else st 0)
    else if (65 <=? c) then st 520
    else st 0)
  else st 558).
Definition st_558 (c : Z) : target action :=
  switch c [33 --> st 520; 35 --> tr_559; 37 --> st 253; 46 --> st 544; 47 --> tr_560;
    58 --> tr_576; 59 --> st 520; 61 --> st 520; 63 --> tr_562; 64 --> tr_263; 95 --> st 520;
    126 --> st 520] (
  if (c <? 48) then (
    if (36 <=? c) && (c <=? 45) then st 520
    else st 0)
  else if (57 <? c) then (
    if (90 <? c) then (
      if (97 <=? c) && (c <=? 122) then st 520
      else st 0)
    else if (65 <=? c) then st 520
    else st 0)
  else st 543).
Definition st_559 (c : Z) : target action :=
  switch c [33 --> st 520; 35 --> tr_559; 37 --> st 253; 46 --> st 544; 47 --> tr_560;
    53 --> st 560; 58 --> tr_576; 59 --> st 520; 61 --> st 520; 63 --> tr_562; 64 --> tr_263;
    95 --> st 520; 126 --> st 520] (
  if (c <? 48) then (
    if (36 <=? c) && (c <=? 45) then st 520
    else st 0)
  else if (57 <? c) then (
    if (90 <? c) then (
      if (97 <=? c) && (c <=? 122) then st 520
      else st 0)
    else if (65 <=? c) then st 520
    else st 0)
  else st 543).
Definition st_560 (c : Z) : target action :=
  switch c [33 --> st 520; 35 --> tr_559; 37 --> st 253; 46 --> st 544; 47 --> tr_560;
    58 --> tr_576; 61 --> st 520; 63 --> tr_562; 64 --> tr_263; 95 --> st 520; 126 --> st 520] (
  if (c <? 54) then (
    if (45 <? c) then (
      if (48 <=? c) && (c <=? 53) then st 543
      else st 0)
    else if (36 <=? c) then st 520
    else st 0)
  else if (59 <? c) then (
    if (90 <? c) then (
      if (97 <=? c) && (c <=? 122) then st 520
      else st 0)
    else if (65 <=? c) then st 520
    else st 0)
  else st 520).

(** The dispatch [switch(cs)]: the cases are numbered from 1. *)
Definition states : list (Z → target action) := [
  st_1; st_2; st_3; st_4; st_5; st_6; st_7; st_8; st_9; st_10; st_11; st_12; st_13; st_14; st_15;
  st_16; st_17; st_18; st_19; st_20; st_21; st_22; st_23; st_24; st_25; st_26; st_27; st_28;
  st_29; st_30; st_31; st_32; st_33; st_34; st_35; st_36; st_37; st_38; st_39; st_40; st_41;
  st_42; st_43; st_44; st_45; st_46; st_47; st_48; st_49; st_50; st_51; st_52; st_53; st_54;
  st_55; st_56; st_57; st_58; st_59; st_60; st_61; st_62; st_63; st_64; st_65; st_66; st_67;
  st_68; st_69; st_70; st_71; st_72; st_73; st_74; st_75; st_76; st_77; st_78; st_79; st_80;
  st_81; st_82; st_83; st_84; st_85; st_86; st_87; st_88; st_89; st_90; st_91; st_92; st_93;
  st_94; st_95; st_96; st_97; st_98; st_99; st_100; st_101; st_102; st_103; st_104; st_105;
  st_106; st_107; st_108; st_109; st_110; st_111; st_112; st_113; st_114; st_115; st_116; st_117;
  st_118; st_119; st_120; st_121; st_122; st_123; st_124; st_125; st_126; st_127; st_128; st_129;
  st_130; st_131; st_132; st_133; st_134; st_135; st_136; st_137; st_138; st_139; st_140; st_141;
  st_142; st_143; st_144; st_145; st_146; st_147; st_148; st_149; st_150; st_151; st_152; st_153;
  st_154; st_155; st_156; st_157; st_158; st_159; st_160; st_161; st_162; st_163; st_164; st_165;
  st_166; st_167; st_168; st_169; st_170; st_171; st_172; st_173; st_174; st_175; st_176; st_177;
  st_178; st_179; st_180; st_181; st_182; st_183; st_184; st_185; st_186; st_187; st_188; st_189;
  st_190; st_191; st_192; st_193; st_194; st_195; st_196; st_197; st_198; st_199; st_200; st_201;
  st_202; st_203; st_204; st_205; st_206; st_207; st_208; st_209; st_210; st_211; st_212; st_213;
  st_214; st_215; st_216; st_217; st_218; st_219; st_220; st_221; st_222; st_223; st_224; st_225;
  st_226; st_227; st_228; st_229; st_230; st_231; st_232; st_233; st_234; st_235; st_236; st_237;
  st_238; st_239; st_240; st_241; st_242; st_243; st_244; st_245; st_246; st_247; st_248; st_249;
  st_250; st_251; st_252; st_253; st_254; st_255; st_256; st_257; st_258; st_259; st_260; st_261;
  st_262; st_263; st_264; st_265; st_266; st_267; st_268; st_269; st_270; st_271; st_272; st_273;
  st_274; st_275; st_276; st_277; st_278; st_279; st_280; st_281; st_282; st_283; st_284; st_285;
  st_286; st_287; st_288; st_289; st_290; st_291; st_292; st_293; st_294; st_295; st_296; st_297;
  st_298; st_299; st_300; st_301; st_302; st_303; st_304; st_305; st_306; st_307; st_308; st_309;
  st_310; st_311; st_312; st_313; st_314; st_315; st_316; st_317; st_318; st_319; st_320; st_321;
  st_322; st_323; st_324; st_325; st_326; st_327; st_328; st_329; st_330; st_331; st_332; st_333;
  st_334; st_335; st_336; st_337; st_338; st_339; st_340; st_341; st_342; st_343; st_344; st_345;
  st_346; st_347; st_348; st_349; st_350; st_351; st_352; st_353; st_354; st_355; st_356; st_357;
  st_358; st_359; st_360; st_361; st_362; st_363; st_364; st_365; st_366; st_367; st_368; st_369;
  st_370; st_371; st_372; st_373; st_374; st_375; st_376; st_377; st_378; st_379; st_380; st_381;
  st_382; st_383; st_384; st_385; st_386; st_387; st_388; st_389; st_390; st_391; st_392; st_393;
  st_394; st_395; st_396; st_397; st_398; st_399; st_400; st_401; st_402; st_403; st_404; st_405;
  st_406; st_407; st_408; st_409; st_410; st_411; st_412; st_413; st_414; st_415; st_416; st_417;
  st_418; st_419; st_420; st_421; st_422; st_423; st_424; st_425; st_426; st_427; st_428; st_429;
  st_430; st_431; st_432; st_433; st_434; st_435; st_436; st_437; st_438; st_439; st_440; st_441;
  st_442; st_443; st_444; st_445; st_446; st_447; st_448; st_449; st_450; st_451; st_452; st_453;
  st_454; st_455; st_456; st_457; st_458; st_459; st_460; st_461; st_462; st_463; st_464; st_465;
  st_466; st_467; st_468; st_469; st_470; st_471; st_472; st_473; st_474; st_475; st_476; st_477;
  st_478; st_479; st_480; st_481; st_482; st_483; st_484; st_485; st_486; st_487; st_488; st_489;
  st_490; st_491; st_492; st_493; st_494; st_495; st_496; st_497; st_498; st_499; st_500; st_501;
  st_502; st_503; st_504; st_505; st_506; st_507; st_508; st_509; st_510; st_511; st_512; st_513;
  st_514; st_515; st_516; st_517; st_518; st_519; st_520; st_521; st_522; st_523; st_524; st_525;
  st_526; st_527; st_528; st_529; st_530; st_531; st_532; st_533; st_534; st_535; st_536; st_537;
  st_538; st_539; st_540; st_541; st_542; st_543; st_544; st_545; st_546; st_547; st_548; st_549;
  st_550; st_551; st_552; st_553; st_554; st_555; st_556; st_557; st_558; st_559; st_560].
Definition block (cs : Z) : option (Z → target action) :=
  if cs <? 1 then None else states !! Z.to_nat (cs - 1).
