(* ===== verification/Http11Parser.v ===== *)
(** * Http11Parser: the request parser in C ([include/http/http11_parser.h],
    [include/http/http11_parser.rl.cc])

    A pointer [p] into the buffer is its offset.  The callbacks act on the
    object [data] points to; a callback that is not set is [None]. *)
From S2P Require Import Prelude Ragel Http11States.

Section parser.
Context {D : Type}.

(** [element_cb(data, at, length)] and [field_cb(data, field, flen, value, vlen)]. *)
Definition element_cb : Type := Z → Z → ST D unit.
Definition field_cb : Type := Z → Z → Z → Z → ST D unit.

Record http_parser := mkHttpParser {
  cs : Z;
  body_start : Z;
  content_len : Z;
  nread : Z;
  p_mark : Z;
  field_start : Z;
  field_len : Z;
  query_start : Z;
  xml_sent : Z;
  json_sent : Z;
  uri_relaxed : Z;
  data : D
}.

(** The callback members, which are set once. *)
Record callbacks := mkCallbacks {
  cb_http_field : option field_cb;
  cb_request_method : option element_cb;
  cb_request_uri : option element_cb;
  cb_fragment : option element_cb;
  cb_request_path : option element_cb;
  cb_query_string : option element_cb;
  cb_http_version : option element_cb;
  cb_header_done : option element_cb
}.

Definition set_cs v s := mkHttpParser v (body_start s) (content_len s) (nread s) (p_mark s) (field_start s) (field_len s) (query_start s) (xml_sent s) (json_sent s) (uri_relaxed s) (data s).
Definition set_body_start v s := mkHttpParser (cs s) v (content_len s) (nread s) (p_mark s) (field_start s) (field_len s) (query_start s) (xml_sent s) (json_sent s) (uri_relaxed s) (data s).
Definition set_content_len v s := mkHttpParser (cs s) (body_start s) v (nread s) (p_mark s) (field_start s) (field_len s) (query_start s) (xml_sent s) (json_sent s) (uri_relaxed s) (data s).
Definition set_nread v s := mkHttpParser (cs s) (body_start s) (content_len s) v (p_mark s) (field_start s) (field_len s) (query_start s) (xml_sent s) (json_sent s) (uri_relaxed s) (data s).
Definition set_mark v s := mkHttpParser (cs s) (body_start s) (content_len s) (nread s) v (field_start s) (field_len s) (query_start s) (xml_sent s) (json_sent s) (uri_relaxed s) (data s).
Definition set_field_start v s := mkHttpParser (cs s) (body_start s) (content_len s) (nread s) (p_mark s) v (field_len s) (query_start s) (xml_sent s) (json_sent s) (uri_relaxed s) (data s).
Definition set_field_len v s := mkHttpParser (cs s) (body_start s) (content_len s) (nread s) (p_mark s) (field_start s) v (query_start s) (xml_sent s) (json_sent s) (uri_relaxed s) (data s).
Definition set_query_start v s := mkHttpParser (cs s) (body_start s) (content_len s) (nread s) (p_mark s) (field_start s) (field_len s) v (xml_sent s) (json_sent s) (uri_relaxed s) (data s).
Definition set_xml_sent v s := mkHttpParser (cs s) (body_start s) (content_len s) (nread s) (p_mark s) (field_start s) (field_len s) (query_start s) v (json_sent s) (uri_relaxed s) (data s).
Definition set_json_sent v s := mkHttpParser (cs s) (body_start s) (content_len s) (nread s) (p_mark s) (field_start s) (field_len s) (query_start s) (xml_sent s) v (uri_relaxed s) (data s).
Definition set_data v s := mkHttpParser (cs s) (body_start s) (content_len s) (nread s) (p_mark s) (field_start s) (field_len s) (query_start s) (xml_sent s) (json_sent s) (uri_relaxed s) v.

(** Run a callback on the object behind [data]. *)
Definition on_data {X} (m : ST D X) : ST http_parser X := λ s,
  match m (data s) with
  | Ret a d => Ret a (set_data d s)
  | Throw e d => Throw e (set_data d s)
  | Crash f => Crash f
  end.
Definition call {C} (cb : option C) (k : C → ST D unit) : ST http_parser unit :=
  match cb with Some f => on_data (k f) | None => ret tt end.

Definition http_parser_start : Z := 1.
Definition http_parser_first_final : Z := 348.
Definition http_parser_error : Z := 0.

(** [http_parser_init]: [query_start] and [uri_relaxed] keep their values. *)
Definition http_parser_init (s : http_parser) : http_parser :=
  mkHttpParser http_parser_start 0 0 0 0 0 0 (query_start s) 0 0 (uri_relaxed s) (data s).

Definition http_parser_has_error (s : http_parser) : bool := cs s =? http_parser_error.
Definition http_parser_is_finished (s : http_parser) : bool := http_parser_first_final <=? cs s.
Definition http_parser_finish (s : http_parser) : Z :=
  if http_parser_has_error s then -1 else if http_parser_is_finished s then 1 else 0.

Section execute.
Variable cbs : callbacks.
(** [pe - buffer] *)
Variable pe : Z.

Definition LEN (at_ p : Z) : Z := u64 (p - at_).

(** The actions at [p]; [true] after [fbreak]. *)
Definition do_action (a : action) (p : Z) : ST http_parser bool :=
  let* s := gets id in
  match a with
  | mark | start_value => modify (set_mark p) ;;; ret false
  | start_field => modify (set_field_start p) ;;; ret false
  | write_field => modify (set_field_len (LEN (field_start s) p)) ;;; ret false
  | write_value =>
      call (cb_http_field cbs) (λ f, f (field_start s) (field_len s) (p_mark s) (LEN (p_mark s) p)) ;;; ret false
  | request_method => call (cb_request_method cbs) (λ f, f (p_mark s) (LEN (p_mark s) p)) ;;; ret false
  | request_uri => call (cb_request_uri cbs) (λ f, f (p_mark s) (LEN (p_mark s) p)) ;;; ret false
  | fragment => call (cb_fragment cbs) (λ f, f (p_mark s) (LEN (p_mark s) p)) ;;; ret false
  | start_query => modify (set_query_start p) ;;; ret false
  | query_string => call (cb_query_string cbs) (λ f, f (query_start s) (LEN (query_start s) p)) ;;; ret false
  | http_version => call (cb_http_version cbs) (λ f, f (p_mark s) (LEN (p_mark s) p)) ;;; ret false
  | request_path => call (cb_request_path cbs) (λ f, f (p_mark s) (LEN (p_mark s) p)) ;;; ret false
  | xml => modify (set_xml_sent 1) ;;; ret false
  | json => modify (set_json_sent 1) ;;; ret false
  | done =>
      (if negb (xml_sent s =? 0) || negb (json_sent s =? 0) then
         modify (set_body_start (p_mark s)) ;;;
         modify (set_content_len (i32 (p - p_mark s + 1)))
       else
         modify (set_body_start (u64 (p + 1))) ;;;
         call (cb_header_done cbs) (λ f, f (p + 1) (u64 (pe - p - 1)))) ;;;
      ret true
  end.

Definition exec : list Z → Z → Z → ST http_parser (Z * Z) :=
  exec_loop (λ s, block (negb (uri_relaxed s =? 0))) do_action.
End execute.

Definition assert (b : bool) : ST http_parser unit := if b then ret tt else crash AssertFailed.

(** [http_parser_execute(parser, buffer, len, off)] *)
Definition http_parser_execute (cbs : callbacks) (buffer : list Z) (len off : Z) : ST http_parser Z :=
  if len =? 0 then ret 0
  else
    modify (set_nread 0) ;;;
    modify (set_mark 0) ;;;
    modify (set_field_len 0) ;;;
    modify (set_field_start 0) ;;;
    let* cs0 := gets cs in
    assert (off <=? len) ;;;
    assert (len - off =? i32 len - i32 off) ;;;
    let* r := exec cbs len (slice buffer (Z.to_nat off) (Z.to_nat (len - off))) cs0 off in
    let '(cs1, p) := r in
    assert (p <=? len) ;;;
    let* err := gets http_parser_has_error in
    (if negb err then modify (set_cs cs1) else ret tt) ;;;
    modify (λ s, set_nread (u64 (nread s + (p - off))) s) ;;;
    let* s := gets id in
    assert (nread s <=? len) ;;;
    assert (body_start s <=? len) ;;;
    assert (p_mark s <? len) ;;;
    assert (field_len s <=? len) ;;;
    assert (field_start s <? len) ;;;
    ret (nread s).
End parser.
Arguments http_parser : clear implicits.
Arguments callbacks : clear implicits.
Arguments element_cb : clear implicits.
Arguments field_cb : clear implicits.
