(* ===== verification/HttpParserSafe.v ===== *)
(** * HttpParserSafe: the request parser never fails on its input

    The facts that hold in a state whatever path led there: [query_start] is a
    mark (facts [fq]), and the field noted last ends before [p] ([ff]). *)
From S2P Require Import Prelude Ragel Http11States Http11Parser.

(** What the parser's client provides: callbacks that succeed on every range of
    the input of [n] bytes. *)
Class SafeCallbacks {D} (n : Z) (cbs : callbacks D) : Prop := {
  safe_element : ∀ f a l d, Some f ∈ [cb_request_method cbs; cb_request_uri cbs; cb_fragment cbs; cb_request_path cbs;
      cb_query_string cbs; cb_http_version cbs; cb_header_done cbs] →
    0 ≤ a → 0 ≤ l → a + l ≤ n → ∃ d', f a l d = Ret tt d';
  safe_field : ∀ f a l b m d, cb_http_field cbs = Some f →
    0 ≤ a → 0 ≤ l → a + l ≤ n → 0 ≤ b → 0 ≤ m → b + m ≤ n → ∃ d', f a l b m d = Ret tt d'
}.

Definition facts : Type := bool * bool.
Definition fact_le (a b : facts) : bool := implb b.1 a.1 && implb b.2 a.2.

(** The facts of a state. *)
Definition state_facts (cs : Z) : facts :=
  ((30 <=? cs) && (cs <=? 32), negb ((cs =? 14) || (cs =? 18) || (cs =? 348))).

Definition act_facts (a : action) (f : facts) : option facts :=
  match a with
  | start_query => Some (true, f.2)
  | start_field => Some (f.1, false)
  | write_field => Some (f.1, true)
  | query_string => if f.1 then Some f else None
  | write_value => if f.2 then Some f else None
  | _ => Some f
  end.
Fixpoint acts_facts (acts : list action) (f : facts) : option facts :=
  match acts with
  | [] => Some f
  | a :: acts => match act_facts a f with Some f => acts_facts acts f | None => None end
  end.
Definition edge_ok (cs : Z) (t : target action) : bool :=
  match acts_facts t.1 (state_facts cs) with
  | Some f => (t.2 =? 0) || (fact_le f (state_facts t.2) && (1 <=? t.2) && (t.2 <=? 349))
  | None => false
  end.

Lemma edges_checked relaxed : edges_ok (block relaxed) 349 edge_ok = true.
Proof. destruct relaxed; vm_compute; reflexivity. Qed.

(** The distance of the pointers, compared as [int]s. *)
Lemma assert_int {D} pe : 0 ≤ pe < 2 ^ 31 → @assert D (pe - 0 =? i32 pe - i32 0) = ret tt.
Proof.
  intros H. unfold assert. change (i32 0) with 0. rewrite swrap_small by (unfold is_s; lia).
  by rewrite Z.eqb_refl.
Qed.

Section safe.
Context {D : Type} (cbs : callbacks D) (pe : Z) `{Hcbs : !SafeCallbacks pe cbs}.
Hypothesis Hpe : is_u 31 pe.
#[local] Abbreviation run_actions := (run_actions (do_action cbs pe)).

(** The marks of a parser at [p]. *)
Record sem (f : facts) (p : Z) (s : http_parser D) : Prop := {
  sem_mark : 0 ≤ p_mark s ≤ p ∧ p_mark s < pe;
  sem_field : 0 ≤ field_start s ≤ p ∧ field_start s < pe;
  sem_len : 0 ≤ field_len s ≤ p;
  sem_q : f.1 = true → 0 ≤ query_start s ≤ p;
  sem_f : f.2 = true → field_start s + field_len s ≤ p;
  sem_body : 0 ≤ body_start s ≤ pe;
  sem_nread : nread s = 0;
  sem_cs : cs s ≠ 0
}.

Lemma sem_weaken f g p s : fact_le f g = true → sem f p s → sem g p s.
Proof.
  destruct f as [q1 f1], g as [q2 f2]. unfold fact_le; simpl. rewrite andb_true_iff, !implb_true_iff.
  intros [Hq Hf] []; constructor; simpl in *; auto.
Qed.
Lemma sem_next f p s : sem f p s → sem f (p + 1) s.
Proof. intros []; constructor; try done; intros; try lia; [specialize (sem_q0 ltac:(done))|specialize (sem_f0 ltac:(done))]; lia. Qed.
Lemma sem_data f p s d : sem f p s → sem f p (set_data d s).
Proof. intros []; by constructor. Qed.

Lemma call_element f p s (cb : option (element_cb D)) a l :
  cb ∈ [cb_request_method cbs; cb_request_uri cbs; cb_fragment cbs; cb_request_path cbs;
      cb_query_string cbs; cb_http_version cbs; cb_header_done cbs] →
  0 ≤ a → 0 ≤ l → a + l ≤ pe → sem f p s →
  ∃ s', call cb (λ g, g a l) s = Ret tt s' ∧ sem f p s'.
Proof.
  intros Hin Ha Hl Hal Hs. destruct cb as [g|]; [|by exists s]. unfold call, on_data.
  destruct (safe_element g a l (data s) Hin Ha Hl Hal) as [d' ->]. eexists. split; [done|]. by apply sem_data.
Qed.

(** The length of a mark. *)
Lemma LEN_range a p : 0 ≤ a ≤ p → p ≤ pe → LEN a p = p - a.
Proof. intros. unfold LEN. apply uwrap_small. unfold is_u in *. lia. Qed.

Lemma do_action_safe a f f' p s : act_facts a f = Some f' → 0 ≤ p < pe → sem f p s →
  ∃ b s', do_action cbs pe a p s = Ret b s' ∧ sem f' p s'.
Proof.
  intros Ha Hp Hs. pose proof (sem_mark f p s Hs) as Hmark. pose proof (sem_field f p s Hs) as Hfield.
  pose proof (sem_len f p s Hs) as Hlen.
  assert (∀ cb l, cb ∈ [cb_request_method cbs; cb_request_uri cbs; cb_fragment cbs; cb_request_path cbs;
      cb_query_string cbs; cb_http_version cbs; cb_header_done cbs] → l = LEN (p_mark s) p →
    f' = f → ∃ b s', (call cb (λ g, g (p_mark s) l) ;;; ret false) s = Ret b s' ∧ sem f' p s') as Hcall.
  { intros cb l Hin -> ->. rewrite LEN_range by lia.
    destruct (call_element f p s cb (p_mark s) (p - p_mark s)) as (s' & E & Hs'); try done; try lia.
    exists false, s'. by rewrite (bind_Ret _ _ _ _ _ E). }
  destruct a; simpl in Ha; try (injection Ha as <-); unfold do_action; rewrite bind_gets; unfold id;
    try (apply Hcall; [by repeat constructor|done|done]);
    try (eexists false, _; split; [step_monad; done|]; destruct Hs; constructor; simpl; try done; lia).
  - (* write_field *)
    rewrite LEN_range by lia. eexists false, _. split; [step_monad; done|].
    destruct Hs; constructor; simpl; try done; lia.
  - (* write_value *)
    destruct f as [q [|]]; [|done]. injection Ha as <-. pose proof (sem_f _ p s Hs eq_refl) as Hf.
    rewrite LEN_range by lia. unfold call. destruct (cb_http_field cbs) as [g|] eqn:Hg; [|by exists false, s].
    destruct (safe_field g (field_start s) (field_len s) (p_mark s) (p - p_mark s) (data s) Hg) as [d' E]; try lia.
    exists false, (set_data d' s). split; [unfold on_data, bind; by rewrite E|]. by apply sem_data.
  - (* query_string *)
    destruct f as [[|] w]; [|done]. injection Ha as <-. pose proof (sem_q _ p s Hs eq_refl) as Hq.
    rewrite LEN_range by lia.
    destruct (call_element (true, w) p s (cb_query_string cbs) (query_start s) (p - query_start s)) as (s' & E & Hs');
      [by repeat constructor|lia..|done|]. exists false, s'. by rewrite (bind_Ret _ _ _ _ _ E).
  - (* done *)
    exists true. destruct (negb (xml_sent s =? 0) || negb (json_sent s =? 0)).
    + eexists. split; [step_monad; done|]. destruct Hs; constructor; simpl; try done; lia.
    + rewrite !uwrap_small by (unfold is_u in *; lia).
      destruct (call_element f p (set_body_start (p + 1) s) (cb_header_done cbs) (p + 1) (pe - p - 1)) as (s' & E & Hs');
        [by repeat constructor|lia..| |].
      { destruct Hs; constructor; simpl; try done; lia. }
      exists s'. split; [|done]. rewrite bind_assoc, bind_modify. by rewrite (bind_Ret _ _ _ _ _ E).
Qed.

Lemma run_actions_safe acts f f' p s : acts_facts acts f = Some f' → 0 ≤ p < pe → sem f p s →
  ∃ b s', run_actions acts p s = Ret b s' ∧ (∃ g, sem g p s') ∧ (b = false → sem f' p s').
Proof.
  intros Ha Hp. revert f s Ha. induction acts as [|a acts IH]; intros f s Ha Hs; cbn [acts_facts Ragel.run_actions] in *.
  - injection Ha as <-. exists false, s. split; [done|]. split; [by exists f|done].
  - destruct (act_facts a f) as [f1|] eqn:Hf1; [|done].
    destruct (do_action_safe a f f1 p s Hf1 Hp Hs) as (b & s1 & E & Hs1). rewrite (bind_Ret _ _ _ _ _ E).
    destruct b; [exists true, s1; split; [done|]; split; [by exists f1|done]|]. by apply (IH f1).
Qed.

Lemma exec_safe rest p s cs0 : bytes_ok rest → 1 ≤ cs0 ≤ 349 → sem (state_facts cs0) p s → p + zlen rest ≤ pe →
  ∃ cs' p' s', exec cbs pe rest cs0 p s = Ret (cs', p') s' ∧ p ≤ p' ≤ p + zlen rest ∧ ∃ g, sem g p' s'.
Proof.
  intros Hb Hcs Hs Hp.
  apply (exec_loop_safe _ _ (λ cs p s, 1 ≤ cs ≤ 349 ∧ 0 ≤ p ∧ sem (state_facts cs) p s) (λ p s, ∃ g, sem g p s) pe); try done.
  - intros cs1 p1 s1 (_ & _ & H). by eexists.
  - intros cs1 p1 s1 c f acts cs2 (Hcs1 & Hp1 & H1) Hlt Hc Hf Hfc Hn.
    pose proof (edges_ok_spec _ _ _ _ _ _ (edges_checked (negb (uri_relaxed s1 =? 0))) Hcs1 Hf Hc) as Hok.
    rewrite Hfc in Hok. unfold edge_ok in Hok; cbn [fst snd] in Hok.
    destruct (acts_facts acts (state_facts cs1)) as [f'|] eqn:Ha; [|done].
    rewrite (proj2 (Z.eqb_neq cs2 0) Hn), orb_false_l, !andb_true_iff, !Z.leb_le in Hok. destruct Hok as [[Hle H1'] H2'].
    destruct (run_actions_safe acts (state_facts cs1) f' p1 s1 Ha ltac:(lia) H1) as (b & s' & E & [g Hg] & Hn').
    exists b, s'. split; [done|]. destruct b; [exists g; by apply sem_next|].
    split; [lia|]. split; [lia|]. apply sem_next. eapply sem_weaken; [done|]. by apply Hn'.
  - split; [done|]. split; [|done]. destruct Hs. lia.
Qed.

(** A parser as [http_parser_init] leaves it. *)
Definition fresh (s : http_parser D) : Prop :=
  cs s = 1 ∧ body_start s = 0 ∧ p_mark s = 0 ∧ field_start s = 0 ∧ field_len s = 0 ∧ nread s = 0.

Lemma http_parser_execute_safe buffer s : fresh s → bytes_ok buffer → pe ≤ zlen buffer →
  ∃ n s', http_parser_execute cbs buffer pe 0 s = Ret n s' ∧ 0 ≤ n ≤ pe.
Proof.
  intros (Hc & Hb & Hm & Hf & Hl & Hn) Hbuf Hlen. pose proof Hpe as [Hpe0 _]. unfold http_parser_execute.
  destruct (Z.eqb_spec pe 0) as [E|E]; [exists 0, s; split; [done|lia]|].
  step_monad. set (s0 := set_field_start 0 _). change (cs s0) with (cs s). rewrite Hc.
  rewrite (proj2 (Z.leb_le 0 pe) Hpe0). unfold assert at 1. rewrite bind_ret.
  rewrite assert_int, bind_ret by (unfold is_u in *; lia).
  assert (zlen (slice buffer (Z.to_nat 0) (Z.to_nat (pe - 0))) = pe) as Hsl.
  { unfold slice, zlen in *. rewrite drop_0, length_take. lia. }
  destruct (exec_safe (slice buffer (Z.to_nat 0) (Z.to_nat (pe - 0))) 0 s0 1) as (cs' & p' & s' & Ex & Hp & g & Hs); try lia.
  { apply Forall_take. by apply Forall_drop. }
  { unfold s0. constructor; simpl; try lia; rewrite ?Hc; done. }
  rewrite (bind_Ret _ _ _ _ _ Ex). rewrite (proj2 (Z.leb_le p' pe)) by lia. unfold assert at 1. rewrite bind_ret.
  step_monad. rewrite bind_modify_if. unfold assert.
  set (s1 := if negb (http_parser_has_error s') then set_cs cs' s' else s').
  assert (nread s1 = 0 ∧ body_start s1 = body_start s' ∧ p_mark s1 = p_mark s' ∧ field_len s1 = field_len s'
    ∧ field_start s1 = field_start s') as (N1 & B1 & M1 & L1 & F1).
  { unfold s1. pose proof (sem_nread _ _ _ Hs). by destruct (negb _). }
  destruct Hs. step_monad. simpl. rewrite N1, B1, M1, L1, F1, Z.add_0_l, Z.sub_0_r.
  rewrite uwrap_small by (unfold is_u in *; lia).
  rewrite (proj2 (Z.leb_le p' pe)), (proj2 (Z.leb_le _ pe)), (proj2 (Z.ltb_lt _ pe)), (proj2 (Z.leb_le _ pe)), (proj2 (Z.ltb_lt _ pe)) by lia.
  step_monad. exists p'. eexists. split; [unfold ret; simpl; by rewrite ?N1|lia].
Qed.
End safe.
