(* ===== verification/HttpRequestParser.v ===== *)
(** * HttpRequestParser: the callbacks and the parser class
    ([src/http/http_parser.cpp], [include/http/http_parser.h])

    [mem] is the memory from the start of the buffer on. *)
From S2P Require Import Prelude Ragel Http11States Http11Parser Http HttpRequest.

(** What the callbacks change: the request and the error code. *)
Record parse_data := mkParseData { m_data : HttpRequest; m_error : Z }.
Definition setError (v : Z) (d : parse_data) : parse_data := mkParseData (m_data d) v.
Definition on_request (f : HttpRequest → HttpRequest) : ST parse_data unit :=
  modify (λ d, mkParseData (f (m_data d)) (m_error d)).

Section callbacks.
Variable mem : list Z.
Definition from (at_ : Z) : list Z := drop (Z.to_nat at_) mem.

Definition on_request_method (at_ length : Z) : ST parse_data unit :=
  let m := CharsToHttpMethod (string_of_bytes (from at_)) in
  if decide (m = HTTP_INVALID_METHOD) then modify (setError 1000)
  else on_request (setMethod m).

Definition on_request_uri (at_ length : Z) : ST parse_data unit := ret tt.

Definition on_request_fragment (at_ length : Z) : ST parse_data unit :=
  let* s := string_at mem at_ length in on_request (setFragment s).
Definition on_request_path (at_ length : Z) : ST parse_data unit :=
  let* s := string_at mem at_ length in on_request (setPath s).
Definition on_request_query (at_ length : Z) : ST parse_data unit :=
  let* s := string_at mem at_ length in on_request (setQuery s).

Definition on_request_version (at_ length : Z) : ST parse_data unit :=
  if strncmp_n (Z.to_nat length) (from at_) (literal "HTTP/1.1") then on_request (setVersion 17)
  else if strncmp_n (Z.to_nat length) (from at_) (literal "HTTP/1.0") then on_request (setVersion 16)
  else modify (setError 1001).

Definition on_request_header_done (at_ length : Z) : ST parse_data unit := ret tt.

Definition on_request_http_field (field flen value vlen : Z) : ST parse_data unit :=
  if flen =? 0 then ret tt
  else
    let* k := string_at mem field flen in
    let* v := string_at mem value vlen in
    on_request (setHeader k v).

Definition request_callbacks : callbacks parse_data := mkCallbacks
  (Some on_request_http_field) (Some on_request_method) (Some on_request_uri)
  (Some on_request_fragment) (Some on_request_path) (Some on_request_query)
  (Some on_request_version) (Some on_request_header_done).
End callbacks.

(** [HttpRequestParser]: the [http_parser], whose [data] is the object itself. *)
Definition HttpRequestParser : Type := http_parser parse_data.

(** The constructor; [q] and [relaxed] are the uninitialised [query_start] and
    [uri_relaxed], [garbage] the uninitialised status of the request. *)
Definition HttpRequestParser_new (garbage q relaxed : Z) : HttpRequestParser :=
  http_parser_init (mkHttpParser 0 0 0 0 0 0 0 q 0 0 relaxed
    (mkParseData (HttpRequest_new garbage 17 true) 0)).

(** [execute(data, len)] on the memory [mem]: the number of bytes parsed and the
    memory after the rest was moved to the front. *)
Definition execute (mem : list Z) (len : Z) : ST HttpRequestParser (Z * list Z) :=
  let* offset := http_parser_execute (request_callbacks mem) mem len 0 in
  if (0 <=? offset) && (offset <=? len) && (len <=? zlen mem)
  then ret (offset, splice mem 0 (slice mem (Z.to_nat offset) (Z.to_nat (len - offset))))
  else crash OutOfBounds.

Definition isFinished (s : HttpRequestParser) : Z := http_parser_finish s.
Definition hasError (s : HttpRequestParser) : bool :=
  negb (m_error (data s) =? 0) || http_parser_has_error s.

(** [getContentLength]: [lexical_cast] is [boost::lexical_cast<uint64_t>]. *)
Definition getContentLength (lexical_cast : string → option Z) (s : HttpRequestParser) : Z :=
  getHeaderAs lexical_cast (m_data (data s)) "content-length" 0.

Definition getData (s : HttpRequestParser) : HttpRequest := m_data (data s).
