(* ===== verification/HttpRequestSafe.v ===== *)
(** * HttpRequestSafe: safety of [HttpRequestParser::execute] and what it loses between reads *)
From S2P Require Import Prelude Ragel Http11States Http11Parser Http HttpRequest HttpRequestParser HttpParserSafe.

(** The callbacks of the request parser succeed on every range of the buffer. *)
#[export] Instance request_callbacks_safe n mem : n ≤ zlen mem → zlen mem ≤ string_max_size →
  SafeCallbacks n (request_callbacks mem).
Proof.
  intros Hn Hm. split.
  - intros f a l d Hin Ha Hl Hal.
    assert (∀ k : string → HttpRequest → HttpRequest, ∃ d', (let* w := string_at mem a l in on_request (k w)) d = Ret tt d') as Hs.
    { intros k. destruct (string_at_ret mem a l d) as [w E]; try lia. rewrite (bind_Ret _ _ _ _ _ E). by eexists. }
    simpl in Hin. rewrite !elem_of_cons, elem_of_nil in Hin.
    destruct Hin as [[= ->]|[[= ->]|[[= ->]|[[= ->]|[[= ->]|[[= ->]|[[= ->]|[]]]]]]]]; try apply Hs; try (by exists d).
    + unfold on_request_method. case_decide; by eexists.
    + unfold on_request_version. repeat case_match; by eexists.
  - intros f a l b m d [= <-] Ha Hl Hal Hb Hm0 Hbm. unfold on_request_http_field.
    destruct (l =? 0); [by exists d|]. destruct (string_at_ret mem a l d) as [k E]; try lia.
    rewrite (bind_Ret _ _ _ _ _ E). destruct (string_at_ret mem b m d) as [v E2]; try lia.
    rewrite (bind_Ret _ _ _ _ _ E2). by eexists.
Qed.

(** C35: Safety.  Whatever bytes arrive (fewer than 2^31), parsing them with a new parser ends
    without a failing assertion, a read outside the buffer or an exception; the
    number of parsed bytes is within the buffer, the unparsed ones are moved to
    its front and nothing after them changes. *)
Theorem request_execute_safe mem len g q x : bytes_ok mem → 0 ≤ len ≤ zlen mem → len < 2 ^ 31 → zlen mem ≤ string_max_size →
  ∃ n mem' s', execute mem len (HttpRequestParser_new g q x) = Ret (n, mem') s' ∧ 0 ≤ n ≤ len
  ∧ slice mem' 0 (Z.to_nat (len - n)) = slice mem (Z.to_nat n) (Z.to_nat (len - n))
  ∧ drop (Z.to_nat (len - n)) mem' = drop (Z.to_nat (len - n)) mem ∧ zlen mem' = zlen mem
  ∧ isFinished s' ∈ [-1; 0; 1].
Proof.
  intros Hb Hl Hl31 Hm. pose proof (request_callbacks_safe len mem ltac:(lia) Hm) as Hsafe.
  assert (is_u 31 len) as Hu by (unfold is_u, string_max_size in *; lia).
  destruct (http_parser_execute_safe (request_callbacks mem) len Hu mem (HttpRequestParser_new g q x)) as (n & s' & E & Hn);
    [done|done|lia|].
  unfold execute. rewrite (bind_Ret _ _ _ _ _ E).
  rewrite (proj2 (Z.leb_le 0 n)), (proj2 (Z.leb_le n len)), (proj2 (Z.leb_le len _)) by lia. simpl.
  eexists n, _, s'. split; [done|]. split; [done|].
  destruct (moved_to_front mem (Z.to_nat n) (Z.to_nat (len - n))) as (H1 & H2 & H3); [unfold zlen in *; lia|].
  split_and!; try done.
  unfold isFinished, http_parser_finish. destruct (http_parser_has_error s'), (http_parser_is_finished s'); set_solver.
Qed.

Lemma request_execute_safe_witness :
  let mem := bytes_of_string "GET / HTTP/1.1??" ++ [0; 255] in
  ∃ n mem' s', execute mem 16 (HttpRequestParser_new 1 2 0) = Ret (n, mem') s' ∧ 0 ≤ n ≤ 16
  ∧ slice mem' 0 (Z.to_nat (16 - n)) = slice mem (Z.to_nat n) (Z.to_nat (16 - n))
  ∧ drop (Z.to_nat (16 - n)) mem' = drop (Z.to_nat (16 - n)) mem ∧ zlen mem' = zlen mem
  ∧ isFinished s' ∈ [-1; 0; 1].
Proof. apply request_execute_safe; [by repeat constructor| | |]; by vm_compute. Defined.

(** ** What a second read loses *)

(** One read of [text] by parser [s]: the bytes left over and the parser. *)
Definition read_text (rest : list Z) (text : string) (s : HttpRequestParser) : outcome HttpRequestParser (list Z) :=
  let mem := rest ++ bytes_of_string text in
  match execute mem (zlen mem) s with
  | Ret (n, mem') s' => Ret (take (Z.to_nat (zlen mem - n)) mem') s'
  | Throw e s' => Throw e s'
  | Crash f => Crash f
  end.

(** The state survives between two reads, but the marks are reset: a path that
    arrives in two parts keeps only the second. *)
Lemma split_read_loses_path :
  match read_text [] "GET /ind" (HttpRequestParser_new 0 0 0) with
  | Ret rest s => match read_text rest ("ex.html HTTP/1.1" +:+ CRLF +:+ CRLF) s with
                  | Ret _ s' => (m_path (getData s'), isFinished s', hasError s')
                  | _ => (""%string, 0, true)
                  end
  | _ => (""%string, 0, true)
  end = ("ex.html"%string, 1, false).
Proof. vm_compute. reflexivity. Qed.

(** A query that arrives in two parts makes its length wrap around: the callback
    throws [std::length_error]. *)
Lemma split_read_throws :
  match read_text [] "GET /index?a=1&b=2" (HttpRequestParser_new 0 0 0) with
  | Ret rest s => match read_text rest "&c HTTP/1.1" s with
                  | Throw e _ => Some e
                  | _ => None
                  end
  | _ => None
  end = Some length_error.
Proof. vm_compute. reflexivity. Qed.

(** From 2^31 bytes on the lengths compared as [int] differ and the assertion
    of [http_parser_execute] fails, whatever the bytes are. *)
Lemma huge_input_asserts mem s : execute mem (2 ^ 31) s = Crash AssertFailed.
Proof. reflexivity. Qed.
