(* ===== verification/HttpLines.v ===== *)
(** * HttpLines: the header lines that [dump] prints, and the map they are read into *)
From S2P Require Import Prelude CLib Words Decimal OrderedSet Http HttpFacts.

Definition line (kv : string * string) : string := kv.1 +:+ ": " +:+ kv.2 +:+ CRLF.
Definition line_ok (kv : string * string) : bool := name_ok kv.1 && value_ok kv.2.

Definition connection_line (close : bool) : string * string := ("connection"%string, if close then "close"%string else "keep-alive"%string).
Definition other_lines (m : MapType) : list (string * string) := List.filter (λ kv, negb (strcasecmp kv.1 "connection" =? 0)) m.
Definition length_line (body : string) : list (string * string) :=
  if String.eqb body "" then [] else [("content-length"%string, dec (size body))].

Lemma foldr_app_string kvs1 kvs2 :
  foldr (λ kv w, line kv +:+ w) "" (kvs1 ++ kvs2)
  = foldr (λ kv w, line kv +:+ w) "" kvs1 +:+ foldr (λ kv w, line kv +:+ w) "" kvs2.
Proof. induction kvs1 as [|kv kvs1 IH]; [done|]. csimpl. by rewrite IH, string_app_assoc. Qed.

Lemma dump_headers_lines m :
  dump_headers m = foldr (λ kv w, line kv +:+ w) "" (other_lines m).
Proof.
  induction m as [|[k v] m IH]; [done|]. unfold other_lines in *. csimpl. rewrite IH. destruct (strcasecmp k "connection" =? 0); [done|].
  csimpl. unfold line; simpl. by rewrite !string_app_assoc.
Qed.

Lemma dec_value_ok n : value_ok (dec n) = true.
Proof.
  unfold dec, pretty, pretty_N. case_decide; [reflexivity|]. pose proof (digits_ok (Z.to_N n)) as Hd.
  unfold value_ok. rewrite andb_true_iff. unfold all_in in *. rewrite !forallb_forall in *.
  assert (∀ c, between 48 57 c = true → value_start c = true) as Hc.
  { intros c. unfold value_start, value_char, between, one_of. simpl. intros Hb.
    rewrite andb_true_iff in Hb. destruct Hb as [?%Z.leb_le ?%Z.leb_le].
    rewrite (proj2 (Z.leb_le 14 c)), (proj2 (Z.leb_le c 126)) by lia.
    rewrite (proj2 (Z.eqb_neq c 9)), (proj2 (Z.eqb_neq c 32)) by lia. by rewrite !orb_true_r. }
  split.
  - intros c Hin. specialize (Hc c (Hd c Hin)). unfold value_start in Hc. by apply andb_true_iff in Hc as [? _].
  - destruct (bytes_of_string _) as [|c l]; [done|]. apply Hc, Hd. by left.
Qed.

Lemma connection_line_ok close : line_ok (connection_line close) = true.
Proof. by destruct close. Qed.
Lemma other_lines_ok m : Forall (λ kv, line_ok kv = true) m → Forall (λ kv, line_ok kv = true) (other_lines m).
Proof.
  rewrite !Forall_forall. intros Hm kv Hin. apply Hm, list_elem_of_In. by apply list_elem_of_In, List.filter_In in Hin as [? _].
Qed.
Lemma length_line_ok body : Forall (λ kv, line_ok kv = true) (length_line body).
Proof.
  unfold length_line. destruct (String.eqb body ""); [constructor|]. constructor; [|constructor].
  unfold line_ok. cbn [fst snd]. by rewrite dec_value_ok.
Qed.

(** ** The map they are read into *)
Lemma strcasecmp_0 a b : strcasecmp a b = 0 ↔ same_name a b.
Proof. unfold strcasecmp. by rewrite cmp_bytes_0 by auto with azure. Qed.

Lemma fold_assign_ok kvs m : headers_ok m → headers_ok (foldl (λ m kv, assign m kv.1 kv.2) m kvs).
Proof. revert m. induction kvs as [|kv kvs IH]; intros m Hm; [done|]. apply IH. auto with azure. Qed.

(** Assigning a list of headers: the last one of a name counts. *)
Lemma find_fold_assign kvs m k : headers_ok m →
  match find (foldl (λ m kv, assign m kv.1 kv.2) m kvs) k with
  | Some v => (∃ k', (k', v) ∈ kvs ∧ same_name k' k) ∨ (find m k = Some v ∧ ∀ kv, kv ∈ kvs → ¬ same_name kv.1 k)
  | None => find m k = None ∧ ∀ kv, kv ∈ kvs → ¬ same_name kv.1 k
  end.
Proof.
  revert m. induction kvs as [|kv kvs IH]; intros m Hm.
  - assert (∀ kv, kv ∈ @nil (string * string) → ¬ same_name kv.1 k) as Hn by (intros kv Hkv; inversion Hkv).
    simpl. destruct (find m k); [by right|done].
  - csimpl. specialize (IH (assign m kv.1 kv.2) ltac:(auto with azure)).
    rewrite find_assign in IH by done. destruct (find _ k) as [v|].
    + destruct IH as [(k' & Hin & Hs)|[Hf Hn]]; [left; exists k'; split; [by right|done]|].
      case_decide as Hs; [injection Hf as <-; left; exists kv.1; split; [by destruct kv; left|done]|].
      right. split; [done|]. intros kv' [->|Hin]%elem_of_cons; auto.
    + destruct IH as [Hf Hn]. case_decide as Hs; [done|]. split; [done|]. intros kv' [->|Hin]%elem_of_cons; auto.
Qed.

Lemma find_Some m k v : headers_ok m → find m k = Some v ↔ ∃ k', (k', v) ∈ m ∧ same_name k' k.
Proof.
  intros Hm. unfold find. rewrite (map_find_Some CaseInsensitiveLess m k v Hm).
  split; intros (k' & Hin & He); exists k'; (split; [done|]).
  - symmetry. by apply equivalent_same_name.
  - apply equivalent_same_name. by symmetry.
Qed.

(** What the parsed headers hold under each name. *)
Definition expected (close : bool) (headers : MapType) (body : string) (k : string) : option string :=
  if decide (body ≠ ""%string ∧ same_name "content-length" k) then Some (dec (size body))
  else if decide (same_name "connection" k) then Some (connection_line close).2
  else find headers k.

Lemma other_lines_In m kv : kv ∈ other_lines m ↔ kv ∈ m ∧ ¬ same_name kv.1 "connection".
Proof. unfold other_lines. by rewrite !list_elem_of_In, List.filter_In, negb_true_iff, Z.eqb_neq, strcasecmp_0. Qed.

Section lines.
Variables (close : bool) (headers : MapType) (body : string) (front : list (string * string)).
Hypothesis headers_sorted : headers_ok headers.
Hypothesis front_In : ∀ kv, kv ∈ front ↔ kv = connection_line close ∨ (kv ∈ headers ∧ ¬ same_name kv.1 "connection").

Lemma find_front k : find (foldl (λ m kv, assign m kv.1 kv.2) [] front) k
  = if decide (same_name "connection" k) then Some (connection_line close).2 else find headers k.
Proof using headers_sorted front_In.
  pose proof (find_fold_assign front [] k nil_ok) as Hf.
  destruct (find (foldl _ _ _) k) as [v|].
  - destruct Hf as [(k' & [[= -> ->]|[Hin Hn]]%front_In & Hs)|[Hf _]]; [| |done].
    + by rewrite decide_True by done.
    + simpl in Hn. rewrite decide_False by (unfold same_name in *; congruence).
      symmetry. apply find_Some; [done|]. by exists k'.
  - destruct Hf as [_ Hn]. case_decide as Hs.
    + destruct (Hn (connection_line close)); [|done]. apply front_In. by left.
    + destruct (find headers k) as [v|] eqn:Hv; [|done].
      apply find_Some in Hv as (k' & Hin & Hk); [|done]. destruct (Hn (k', v)); [|done].
      apply front_In. right. split; [done|]. simpl. unfold same_name in *. congruence.
Qed.

Lemma find_lines k : find (foldl (λ m kv, assign m kv.1 kv.2) [] (front ++ length_line body)) k = expected close headers body k.
Proof using headers_sorted front_In.
  unfold expected, length_line. rewrite foldl_app. destruct (String.eqb_spec body "") as [E|E].
  - change (foldl ?f ?a []) with a. rewrite find_front. by destruct (decide (body ≠ ""%string ∧ same_name "content-length" k)) as [[? _]|_].
  - change (foldl ?f ?a [?b]) with (f a b). cbn [fst snd]. rewrite find_assign by (apply fold_assign_ok; auto with azure).
    rewrite find_front. destruct (decide (body ≠ ""%string ∧ same_name "content-length" k)) as [[_ Hs]|Hn].
    + by rewrite decide_True by done.
    + rewrite decide_False; [done|]. intros Hs. by apply Hn.
Qed.
End lines.
