(* ===== verification/HttpRequestSegments.v ===== *)
(** * HttpRequestSegments: the segments of a request line through the parser

    [seg cs p w s cs' f]: from block [cs] the generated parser reads the word
    [w] standing at offset [p], ends in block [cs'], and changes the request by
    [f].  Proved for the method and the request target; the version, the header
    lines and the whole message are in HttpRoundtrip. *)
From S2P Require Import Prelude Words OrderedSet Ragel Http11States Http11Parser Http HttpRequest HttpRequestParser HttpFacts.

(** Side conditions: hypotheses, literals and checks of a block by evaluation. *)
Ltac seg_side := first [assumption | discriminate | left; reflexivity | right; reflexivity | vm_compute; reflexivity].

Section roundtrip.
Variables (mem : list Z) (len : Z).
Hypothesis Hmem : zlen mem < string_max_size.
Implicit Types (s : HttpRequestParser) (p : Z) (w : string).

#[local] Abbreviation cbs := (request_callbacks mem).
Definition state s : Z → option (Z → target action) := block (negb (uri_relaxed s =? 0)).
#[local] Abbreviation act := (do_action cbs len).
#[local] Abbreviation run := (runs state act).

#[local] Abbreviation at_mem := (at_mem mem).

Lemma LEN_mem a w p : at_mem a w → p = a + size w → LEN a p = size w.
Proof.
  intros H ->. apply at_mem_bound in H. unfold LEN. replace (a + size w - a) with (size w) by lia.
  apply uwrap_small. unfold is_u, string_max_size in *. unfold size in *. lia.
Qed.

Lemma string_at_mem {S} a w p (d : S) : at_mem a w → p = a + size w → string_at mem a (LEN a p) d = Ret w d.
Proof. intros H Hp. rewrite (LEN_mem a w p H Hp). apply string_at_word; [done|lia]. Qed.

(** ** Steps *)
Definition goes (cs : Z) (class : Z → bool) (tgt : target action) : bool :=
  class_goes (block true) cs class tgt && class_goes (block false) cs class tgt.
Lemma goes_state s cs class tgt : goes cs class tgt = true → class_goes (state s) cs class tgt = true.
Proof. unfold goes, state. intros [? ?]%andb_true_iff. by destruct (negb _). Qed.

Lemma step s cs class acts cs' p c s' : goes cs class (acts, cs') = true → is_byte c → class c = true → cs' ≠ 0 →
  run_actions act acts p s = Ret false s' → run cs p [c] s cs' s'.
Proof. intros H. eapply runs_step, goes_state, H. Qed.

Lemma loop s cs class p w : goes cs class (st cs) = true → cs ≠ 0 → all_in class w = true →
  run cs p (bytes_of_string w) s cs s.
Proof.
  intros H Hn Hw. eapply runs_class; [by apply goes_state|done|apply bytes_of_string_ok|].
  unfold all_in in Hw. rewrite forallb_forall in Hw. apply Forall_forall. intros x Hx. apply Hw. by apply list_elem_of_In.
Qed.

Lemma walk_state s cs l cs' : walk (block true) cs l = Some cs' → walk (block false) cs l = Some cs' →
  walk (state s) cs l = Some cs'.
Proof. unfold state. by destruct (negb _). Qed.

(** A first character that starts a token in state [cs], then a loop in [cs']. *)
Lemma first_then_loop s cs first class acts cs' p w s' : goes cs first (acts, cs') = true →
  goes cs' class (st cs') = true → cs' ≠ 0 →
  (match bytes_of_string w with c :: _ => first c | [] => false end) = true → all_in class w = true →
  run_actions act acts p s = Ret false s' →
  run cs p (bytes_of_string w) s cs' s'.
Proof.
  intros H1 H2 Hn Hf Hw Ha. pose proof (bytes_of_string_ok w) as Hb. unfold all_in in Hw.
  destruct (bytes_of_string w) as [|c l]; [done|]. inversion Hb; subst. simpl in Hw. apply andb_true_iff in Hw as [_ Hw].
  apply (runs_app _ _ cs p [c] s cs' s'); [by eapply step|].
  eapply runs_class; [by apply goes_state|done|done|]. rewrite forallb_forall in Hw. apply Forall_forall.
  intros x Hx. apply Hw. by apply list_elem_of_In.
Qed.

#[local] Arguments string_at : simpl never.
#[local] Arguments LEN : simpl never.

(** ** Actions that hand a word to the request *)
Definition put (f : HttpRequest → HttpRequest) s : HttpRequestParser :=
  set_data (mkParseData (f (m_data (data s))) (m_error (data s))) s.

Lemma act_path s p w : at_mem (p_mark s) w → p = p_mark s + size w → act request_path p s = Ret false (put (setPath w) s).
Proof.
  intros H Hp. unfold do_action. step_monad. unfold call, on_data, bind. simpl. unfold on_request_path, bind.
  by rewrite (string_at_mem _ _ _ _ H Hp).
Qed.
Lemma act_fragment s p w : at_mem (p_mark s) w → p = p_mark s + size w → act fragment p s = Ret false (put (setFragment w) s).
Proof.
  intros H Hp. unfold do_action. step_monad. unfold call, on_data, bind. simpl. unfold on_request_fragment, bind.
  by rewrite (string_at_mem _ _ _ _ H Hp).
Qed.
Lemma act_query s p w : at_mem (query_start s) w → p = query_start s + size w → act query_string p s = Ret false (put (setQuery w) s).
Proof.
  intros H Hp. unfold do_action. step_monad. unfold call, on_data, bind. simpl. unfold on_request_query, bind.
  by rewrite (string_at_mem _ _ _ _ H Hp).
Qed.
Lemma act_uri s p : act request_uri p s = Ret false s.
Proof. by destruct s. Qed.

Lemma act_field s p k v : at_mem (field_start s) k → field_len s = size k → size k ≠ 0 →
  at_mem (p_mark s) v → p = p_mark s + size v → act write_value p s = Ret false (put (setHeader k v) s).
Proof.
  intros Hk Hl Hn Hv Hp. unfold do_action. step_monad. unfold call, on_data, bind. simpl. unfold on_request_http_field, bind.
  rewrite Hl, (proj2 (Z.eqb_neq _ _)) by done. simpl.
  rewrite <- (LEN_mem _ _ _ Hk eq_refl), (string_at_mem _ _ _ _ Hk eq_refl). by rewrite (string_at_mem _ _ _ _ Hv Hp).
Qed.

Lemma from_mem a w : at_mem a w → ∃ post, from mem a = bytes_of_string w ++ post.
Proof. intros (pre & post & -> & ->). exists post. unfold from, zlen. by rewrite Nat2Z.id, drop_app_length. Qed.

(** ** Segments of the message

    [keeps] relates the parser before and after a segment, up to the marks and
    the request; the marks stay at or below the position reached. *)
Record keeps (p : Z) s s' : Prop := {
  keeps_cs : cs s' = cs s;
  keeps_body : body_start s' = body_start s;
  keeps_nread : nread s' = nread s;
  keeps_xml : xml_sent s' = xml_sent s;
  keeps_json : json_sent s' = json_sent s;
  keeps_error : m_error (data s') = m_error (data s);
  keeps_mark : p_mark s' ≤ p;
  keeps_field : field_start s' ≤ p;
  keeps_len : field_len s' ≤ p
}.

Definition seg cs p w s cs' (f : HttpRequest → HttpRequest) : Prop :=
  at_mem p w → p_mark s ≤ p → field_start s ≤ p → field_len s ≤ p →
  ∃ s', run cs p (bytes_of_string w) s cs' s' ∧ keeps (p + size w) s s' ∧ m_data (data s') = f (m_data (data s)).

Lemma seg_app cs p w1 s cs1 f1 w2 cs2 f2 : seg cs p w1 s cs1 f1 →
  (∀ s1, seg cs1 (p + size w1) w2 s1 cs2 f2) → seg cs p (w1 +:+ w2) s cs2 (λ r, f2 (f1 r)).
Proof.
  intros H1 H2 Hat Hm Hf Hl. apply at_mem_app in Hat as [A1 A2].
  destruct (H1 A1 Hm Hf Hl) as (s1 & R1 & K1 & D1). destruct K1.
  destruct (H2 s1 A2) as (s2 & R2 & K2 & D2); [done..|]. destruct K2.
  exists s2. rewrite bytes_of_string_app. split; [|split].
  - eapply runs_app; [exact R1|]. by rewrite size_bytes.
  - rewrite size_app. constructor; first [congruence | lia].
  - by rewrite D2, D1.
Qed.

(** *** The method *)
Definition method_walks (m : HttpMethod) : bool :=
  match bytes_of_string (HttpMethodToString m) with
  | c :: l =>
      between 65 90 c &&
      match walk (block true) 2 l with
      | Some c' => bool_decide (walk (block false) 2 l = Some c') && goes c' (Z.eqb 32) ([request_method], 3)
      | None => false
      end
  | [] => false
  end.

Lemma methods_walk m : m ≠ HTTP_INVALID_METHOD → m ≠ MSEARCH → method_walks m = true.
Proof. intros. by destruct m; try done; vm_compute. Qed.

Lemma seg_method s m rest : mem = bytes_of_string (HttpMethodToString m +:+ String (code_char 32) rest) →
  m ≠ HTTP_INVALID_METHOD → m ≠ MSEARCH →
  seg 1 0 (HttpMethodToString m +:+ " ") s 3 (setMethod m).
Proof.
  intros E Hm Hm' Hat Hmk Hf Hl. pose proof (methods_walk m Hm Hm') as Hw. unfold method_walks in Hw.
  exists (put (setMethod m) (set_mark 0 s)). rewrite bytes_of_string_app. pose proof (bytes_of_string_ok (HttpMethodToString m)) as Hb.
  destruct (bytes_of_string (HttpMethodToString m)) as [|c l] eqn:En; [done|].
  apply andb_true_iff in Hw as [Hc Hw]. apply Forall_cons in Hb as [Hb1 Hb2].
  destruct (walk (block true) 2 l) as [c'|] eqn:W1; [|done].
  apply andb_true_iff in Hw as [W2%bool_decide_eq_true Hsp]. split; [|split; [|done]].
  - apply (runs_app _ _ 1 0 (c :: l) s c' (set_mark 0 s)).
    + apply (runs_app _ _ 1 0 [c] s 2 (set_mark 0 s)).
      * eapply (step _ _ (between 65 90) [mark]); [by vm_compute|done|done|done|done].
      * apply runs_walk. by apply walk_state.
    + eapply (step _ _ (Z.eqb 32)); [exact Hsp|done|done|done|].
      unfold run_actions, do_action. step_monad. unfold call, on_data, bind. simpl. unfold on_request_method, bind.
      assert (string_of_bytes (from mem 0) = HttpMethodToString m +:+ String (code_char 32) rest) as ->.
      { unfold from. rewrite drop_0, E. apply string_of_bytes_of_string. }
      rewrite CharsToHttpMethod_head by done. by rewrite decide_False.
  - rewrite size_app. change (size " ") with 1. pose proof (zlen_nonneg (bytes_of_string (HttpMethodToString m))).
    rewrite size_bytes in *. constructor; simpl; try done; lia.
Qed.

(** *** The request target: each part with the character that ends it *)
Lemma path_word s p w t acts cs' : at_mem p w → path_ok w = true → is_byte t → cs' ≠ 0 →
  acts = [request_path] ∨ acts = [request_path; request_uri] →
  goes 33 (Z.eqb t) (acts, cs') = true → goes 26 (Z.eqb t) (acts, cs') = true →
  run 3 p (bytes_of_string w ++ [t]) s cs' (put (setPath w) (set_mark p s)).
Proof.
  intros Hat Hw Ht Hn Ha H33 H26. pose proof (bytes_of_string_ok w) as Hb.
  assert (∃ cs1, (cs1 = 33 ∨ cs1 = 26) ∧ run 3 p (bytes_of_string w) s cs1 (set_mark p s)) as (cs1 & Hcs & R).
  { unfold path_ok in Hw. destruct (bytes_of_string w) as [|c l]; [done|].
    destruct (decide (c = 47)) as [->|]; [|by repeat case_match].
    inversion Hb as [|?? _ Hbl]; subst. apply andb_true_iff in Hw as [Hl Hf].
    assert (run 3 p [47] s 33 (set_mark p s)) as R1.
    { eapply (step _ _ (Z.eqb 47) [mark]); [by vm_compute|done|done|done|done]. }
    destruct l as [|c l]; [exists 33; auto|]. exists 26. split; [by right|].
    simpl in Hl. apply andb_true_iff in Hl as [Hc Hl]. inversion Hbl; subst.
    apply (runs_app _ _ 3 p [47] s 33 (set_mark p s)); [done|].
    apply (runs_app _ _ 33 _ [c] _ 26 (set_mark p s)).
    - eapply (step _ _ pchar []); [by vm_compute|done| |done|done].
      unfold path_char in Hc. apply orb_true_iff in Hc as [?|Hc]; [done|]. by rewrite Hc in Hf.
    - eapply (runs_class _ _ 26 _ l _ path_char); [apply goes_state; by vm_compute|done|done|].
      rewrite forallb_forall in Hl. apply Forall_forall. intros x Hx. apply Hl. by apply list_elem_of_In. }
  eapply runs_app; [exact R|]. eapply (step _ _ (Z.eqb t) acts); [by destruct Hcs as [-> | ->]|done|by apply Z.eqb_refl|done|].
  rewrite size_bytes. pose proof (act_path (set_mark p s) (p + size w) w Hat eq_refl) as E.
  destruct Ha as [-> | ->]; unfold run_actions; rewrite (bind_Ret _ _ _ _ _ E); [done|].
  rewrite (bind_Ret _ _ _ _ _ (act_uri _ _)). done.
Qed.

Lemma first_of w class : w ≠ ""%string → all_in class w = true →
  (match bytes_of_string w with c :: _ => class c | [] => false end) = true.
Proof. unfold all_in. destruct w as [|c w]; [done|]. simpl. by intros _ [? _]%andb_true_iff. Qed.

Lemma query_word s p w t cs' : at_mem p w → w ≠ ""%string → all_in query_char w = true → is_byte t → cs' ≠ 0 →
  goes 30 (Z.eqb t) ([query_string; request_uri], cs') = true →
  run 29 p (bytes_of_string w ++ [t]) s cs' (put (setQuery w) (set_query_start p s)).
Proof.
  intros Hat Hne Hw Ht Hn Hg. eapply runs_app.
  - eapply (first_then_loop _ 29 query_char query_char [start_query] 30); [by vm_compute|by vm_compute|done|by apply first_of|done|done].
  - eapply (step _ _ (Z.eqb t)); [exact Hg|done|by apply Z.eqb_refl|done|]. rewrite size_bytes.
    pose proof (act_query (set_query_start p s) (p + size w) w Hat eq_refl) as E. unfold run_actions.
    rewrite (bind_Ret _ _ _ _ _ E), (bind_Ret _ _ _ _ _ (act_uri _ _)). done.
Qed.

Lemma fragment_word s p w : at_mem p w → w ≠ ""%string → all_in query_char w = true →
  run 20 p (bytes_of_string w ++ [32]) s 4 (put (setFragment w) (set_mark p s)).
Proof.
  intros Hat Hne Hw. eapply runs_app.
  - eapply (first_then_loop _ 20 query_char query_char [mark] 21); [by vm_compute|by vm_compute|done|by apply first_of|done|done].
  - eapply (step _ _ (Z.eqb 32) [fragment]); [by vm_compute|done|done|done|]. rewrite size_bytes.
    pose proof (act_fragment (set_mark p s) (p + size w) w Hat eq_refl) as E. unfold run_actions.
    by rewrite (bind_Ret _ _ _ _ _ E).
Qed.

Definition target_text (path query frag : string) : string :=
  path +:+ (if String.eqb query "" then "" else "?" +:+ query) +:+ (if String.eqb frag "" then "" else "#" +:+ frag).

Lemma keeps_put p f s s' : keeps p s s' → keeps p s (put f s').
Proof. intros []. by constructor. Qed.
Lemma keeps_set_mark p a s s' : keeps p s s' → a ≤ p → keeps p s (set_mark a s').
Proof. intros [] ?. by constructor. Qed.
Lemma keeps_set_query p a s s' : keeps p s s' → keeps p s (set_query_start a s').
Proof. intros []. by constructor. Qed.
Lemma keeps_refl p s : p_mark s ≤ p → field_start s ≤ p → field_len s ≤ p → keeps p s s.
Proof. by constructor. Qed.

(** A word and the character that ends it. *)
Lemma seg_word cs p w t s cs' f s' : at_mem p (w +:+ t) → p_mark s ≤ p → field_start s ≤ p → field_len s ≤ p →
  (at_mem p w → run cs p (bytes_of_string w ++ bytes_of_string t) s cs' (put f s')) →
  s' = set_mark p s ∨ s' = set_query_start p s →
  ∃ s'', run cs p (bytes_of_string (w +:+ t)) s cs' s'' ∧ keeps (p + size (w +:+ t)) s s'' ∧ m_data (data s'') = f (m_data (data s)).
Proof.
  intros Hat Hm Hf Hl R Hs. apply at_mem_app in Hat as [Hat _].
  exists (put f s'). rewrite bytes_of_string_app. pose proof (size_nonneg (w +:+ t)).
  split; [by apply R|]. destruct Hs as [-> | ->]; (split; [|done]); apply keeps_put.
  - apply keeps_set_mark; [apply keeps_refl|]; lia.
  - apply keeps_set_query, keeps_refl; lia.
Qed.

Lemma seg_path p w s t acts cs' : path_ok w = true → cs' ≠ 0 →
  acts = [request_path] ∨ acts = [request_path; request_uri] →
  goes 33 (Z.eqb (char_code t)) (acts, cs') = true → goes 26 (Z.eqb (char_code t)) (acts, cs') = true →
  seg 3 p (w +:+ String t "") s cs' (setPath w).
Proof.
  intros Hw Hn Ha H33 H26 Hat ? ? ?. eapply seg_word; [done..| |by left].
  intros Hat'. eapply path_word; try done. apply char_code_byte.
Qed.
Lemma seg_query p w s t cs' : w ≠ ""%string → all_in query_char w = true → cs' ≠ 0 →
  goes 30 (Z.eqb (char_code t)) ([query_string; request_uri], cs') = true →
  seg 29 p (w +:+ String t "") s cs' (setQuery w).
Proof.
  intros Hne Hw Hn Hg Hat ? ? ?. eapply seg_word; [done..| |by right].
  intros Hat'. apply query_word; try done. apply char_code_byte.
Qed.
Lemma seg_fragment p w s : w ≠ ""%string → all_in query_char w = true → seg 20 p (w +:+ " ") s 4 (setFragment w).
Proof.
  intros Hne Hw Hat ? ? ?. eapply seg_word; [done..| |by left]. intros Hat'. by apply fragment_word.
Qed.

Definition set_if (w : string) (f : string → HttpRequest → HttpRequest) (r : HttpRequest) : HttpRequest :=
  if String.eqb w "" then r else f w r.

Lemma seg_target s p path query frag : path_ok path = true → all_in query_char query = true →
  all_in query_char frag = true →
  seg 3 p (target_text path query frag +:+ " ") s 4
    (λ r, set_if frag setFragment (set_if query setQuery (setPath path r))).
Proof.
  intros Hp Hq Hf. unfold target_text, set_if.
  destruct (String.eqb_spec query "") as [->|Hqn]; destruct (String.eqb_spec frag "") as [->|Hfn];
    rewrite <- ?string_app_assoc, ?string_app_nil.
  - apply (seg_path p path s (code_char 32) [request_path; request_uri]); seg_side.
  - rewrite string_app_assoc.
    apply (seg_app 3 p (path +:+ "#") s 20 (setPath path)); [|intros s1; by apply seg_fragment].
    apply (seg_path p path s (code_char 35) [request_path; request_uri]); seg_side.
  - rewrite string_app_assoc.
    apply (seg_app 3 p (path +:+ "?") s 29 (setPath path)).
    + apply (seg_path p path s (code_char 63) [request_path]); seg_side.
    + intros s1. apply (seg_query _ query s1 (code_char 32)); seg_side.
  - rewrite (string_app_assoc path), (string_app_assoc query).
    apply (seg_app 3 p (path +:+ "?") s 29 (setPath path) _ 4 (λ r, setFragment frag (setQuery query r))).
    + apply (seg_path p path s (code_char 63) [request_path]); seg_side.
    + intros s1. apply (seg_app 29 _ (query +:+ "#") s1 20 (setQuery query) _ 4 (setFragment frag)); [|intros s2; by apply seg_fragment].
      apply (seg_query _ query s1 (code_char 35)); seg_side.
Qed.
End roundtrip.
