(* ===== verification/HttpRoundtrip.v ===== *)
(** * HttpRoundtrip: parsing what [HttpRequest::dump] prints *)
From S2P Require Import Prelude CLib Words Decimal OrderedSet Ragel Http11States Http11Parser Http HttpRequest HttpRequestParser HttpFacts HttpLines HttpRequestSegments HttpParserSafe.

Section message.
Variables (mem : list Z) (len : Z).
Hypothesis Hmem : zlen mem < string_max_size.
Implicit Types (s : HttpRequestParser) (p : Z) (w : string).
#[local] Abbreviation act := (do_action (request_callbacks mem) len).
#[local] Abbreviation run := (runs state act).
#[local] Abbreviation seg := (seg mem len).
#[local] Abbreviation at_mem := (at_mem mem).

(** *** The version *)
Definition version_ok (v : Z) : bool := (v =? 17) || (v =? 16).

Lemma strncmp_version s p v : at_mem p (dump_version v) → version_ok v = true →
  on_request_version mem p 8 (data s) = Ret tt (mkParseData (setVersion v (m_data (data s))) (m_error (data s))).
Proof.
  intros Hat Hv. destruct (from_mem mem Hmem p _ Hat) as [post E]. unfold on_request_version. rewrite E.
  unfold version_ok in Hv. apply orb_true_iff in Hv as [->%Z.eqb_eq | ->%Z.eqb_eq]; reflexivity.
Qed.

Lemma seg_version p s v : version_ok v = true → seg 4 p (dump_version v +:+ CRLF) s 13 (setVersion v).
Proof.
  intros Hv Hat Hm Hf Hl. apply at_mem_app in Hat as [Hat _].
  assert (size (dump_version v) = 8 ∧ size (dump_version v +:+ CRLF) = 10) as [Hs8 Hs10].
  { unfold version_ok in Hv. apply orb_true_iff in Hv as [->%Z.eqb_eq | ->%Z.eqb_eq]; split; reflexivity. }
  exists (put (setVersion v) (set_mark p s)). rewrite Hs10. split; [|split; [|done]].
  - rewrite bytes_of_string_app. apply (runs_app _ _ 4 p _ s 12 (set_mark p s)).
    + assert (∃ l, bytes_of_string (dump_version v) = 72 :: l ∧
        walk (block true) 5 l = Some 12 ∧ walk (block false) 5 l = Some 12) as (l & -> & W1 & W2).
      { unfold version_ok in Hv. apply orb_true_iff in Hv as [->%Z.eqb_eq | ->%Z.eqb_eq];
          eexists; (split; [vm_compute; reflexivity|split; vm_compute; reflexivity]). }
      apply (runs_app _ _ 4 p [72] s 5 (set_mark p s)).
      * eapply (step mem len _ 4 (Z.eqb 72) [mark]); seg_side || done.
      * apply runs_walk. by apply walk_state.
    + rewrite size_bytes, Hs8.
      apply (runs_app _ _ 12 (p + 8) [13] _ 17 (put (setVersion v) (set_mark p s))).
      * eapply (step mem len _ 12 (Z.eqb 13) [http_version] 17); [seg_side|done|done|done|].
        unfold run_actions, do_action. step_monad. unfold call, on_data, bind. simpl.
        rewrite <- Hs8, (LEN_mem mem Hmem _ _ _ Hat eq_refl), Hs8, (strncmp_version s p v Hat Hv). done.
      * apply runs_walk. by apply walk_state.
  - apply keeps_put, keeps_set_mark; [apply keeps_refl|]; lia.
Qed.

(** *** Header lines *)
Lemma keeps_set_field p a s s' : keeps p s s' → a ≤ p → keeps p s (set_field_start a s').
Proof. intros [] ?. by constructor. Qed.
Lemma keeps_set_len p a s s' : keeps p s s' → a ≤ p → keeps p s (set_field_len a s').
Proof. intros [] ?. by constructor. Qed.

Lemma seg_line p s kv : line_ok kv = true → seg 13 p (line kv) s 13 (setHeader kv.1 kv.2).
Proof.
  destruct kv as [k v]. unfold line_ok, line, name_ok, value_ok; simpl. intros Hok Hat Hm Hf Hl.
  rewrite !andb_true_iff, negb_true_iff, String.eqb_neq in Hok. destruct Hok as [[Hk Hkt] [Hv Hv1]].
  apply at_mem_app in Hat as [Hak Hat]. apply at_mem_app in Hat as [_ Hat]. apply at_mem_app in Hat as [Hav _].
  change (size ": ") with 2 in Hav. pose proof (size_nonneg k) as Hk0. pose proof (size_nonneg v) as Hv0.
  set (s1 := set_field_start p s). set (s2 := set_field_len (size k) s1).
  set (q := p + size k + 2) in *. set (s3 := set_mark q s2).
  exists (put (setHeader k v) s3). rewrite !bytes_of_string_app, !size_app.
  change (size ": ") with 2. change (size CRLF) with 2. split; [|split; [|done]].
  - (* name *)
    apply (runs_app _ _ 13 p (bytes_of_string k) s 14 s1).
    { eapply (first_then_loop mem len s 13 token token [start_field] 14); [seg_side|seg_side|done|by apply first_of|done|done]. }
    rewrite size_bytes. change (bytes_of_string ": ") with ([58] ++ [32]). rewrite <- app_assoc.
    apply (runs_app _ _ 14 _ [58] s1 15 s2).
    { eapply (step mem len _ 14 (Z.eqb 58) [write_field]); [seg_side|done|done|done|].
      unfold run_actions, do_action. step_monad. unfold bind. simpl.
      by rewrite (LEN_mem mem Hmem _ _ _ Hak eq_refl). }
    apply (runs_app _ _ 15 _ [32] s2 15 (set_mark (p + size k + 1) s2)).
    { eapply (step mem len _ 15 (Z.eqb 32) [start_value]); [seg_side|done|done|done|done]. }
    change (bytes_of_string CRLF) with ([13] ++ [10]).
    replace (p + size k + zlen [58] + zlen [32]) with q by (unfold q, zlen; simpl; lia).
    assert (Hw : run_actions act [write_value] (q + size v) s3 = Ret false (put (setHeader k v) s3)).
    { unfold run_actions. rewrite (bind_Ret _ _ _ _ _ (act_field mem len Hmem s3 (q + size v) k v Hak eq_refl
        ltac:(intros E; apply Hk; destruct k; done) Hav eq_refl)). done. }
    destruct (decide (v = ""%string)) as [->|Hne].
    + change (bytes_of_string "") with (@nil Z). cbn [app].
      apply (runs_app _ _ 15 q [13] _ 17 (put (setHeader k "") s3)); [|apply runs_walk; by apply walk_state].
      eapply (step mem len _ 15 (Z.eqb 13) [start_value; write_value] 17); [seg_side|done|done|done|].
      change (size "") with 0 in Hw. rewrite Z.add_0_r in Hw. exact Hw.
    + apply (runs_app _ _ 15 q (bytes_of_string v) _ 16 s3).
      { eapply (first_then_loop mem len _ 15 value_start value_char [start_value] 16);
          [seg_side|seg_side|done| |done|done].
        destruct v as [|c v']; [done|]. exact Hv1. }
      rewrite size_bytes. apply (runs_app _ _ 16 _ [13] _ 17 (put (setHeader k v) s3)); [|apply runs_walk; by apply walk_state].
      eapply (step mem len _ 16 (Z.eqb 13) [write_value] 17); [seg_side|done|done|done|exact Hw].
  - destruct Hak as (pre & _ & _ & Hpre). pose proof (zlen_nonneg pre).
    apply keeps_put, keeps_set_mark; [|unfold q; lia]. apply keeps_set_len; [|lia].
    apply keeps_set_field; [apply keeps_refl|]; lia.
Qed.

Lemma seg_lines p s kvs : Forall (λ kv, line_ok kv = true) kvs →
  seg 13 p (foldr (λ kv w, line kv +:+ w) "" kvs) s 13 (λ r, foldl (λ r kv, setHeader kv.1 kv.2 r) r kvs).
Proof.
  intros H. revert p s. induction H as [|kv kvs Hkv H IH]; intros p s.
  - intros Hat Hm Hf Hl. exists s. split; [apply runs_nil|]. split; [apply keeps_refl; change (size _) with 0; lia|done].
  - apply (seg_app mem len 13 p (line kv) s 13 (setHeader kv.1 kv.2) _ 13
      (λ r, foldl (λ r kv, setHeader kv.1 kv.2 r) r kvs)); [by apply seg_line|]. intros s1. apply IH.
Qed.
End message.

(** ** The whole message *)
Definition lines (r : HttpRequest) : list (string * string) :=
  connection_line (m_close r) :: other_lines (m_headers r) ++ length_line (m_body r).

(** The text up to the end of the header lines. *)
Definition head_text (r : HttpRequest) : string :=
  (HttpMethodToString (m_method r) +:+ " ") +:+ (target_text (m_path r) (m_query r) (m_fragment r) +:+ " ")
  +:+ (dump_version (m_version r) +:+ CRLF) +:+ foldr (λ kv w, line kv +:+ w) "" (lines r).

Lemma dump_split r : dump r = head_text r +:+ CRLF +:+ m_body r.
Proof.
  unfold dump, head_text, target_text, lines, connection_line, other_lines, length_line. csimpl. rewrite foldr_app_string, dump_headers_lines.
  assert (dump_body (m_body r)
    = foldr (λ kv w, line kv +:+ w) "" (if String.eqb (m_body r) "" then [] else [("content-length"%string, dec (size (m_body r)))])
      +:+ CRLF +:+ m_body r) as ->.
  { unfold dump_body. destruct (String.eqb_spec (m_body r) "") as [->|]; [done|]. csimpl. unfold line; simpl.
    by rewrite string_app_nil_r, <- !string_app_assoc. }
  unfold dump_connection, line; simpl.
  rewrite <- !string_app_assoc.
  destruct (String.eqb_spec (m_query r) "") as [->|]; destruct (String.eqb_spec (m_fragment r) "") as [->|];
    destruct (m_close r); rewrite <- ?string_app_assoc, ?string_app_nil; done.
Qed.

(** The request that the parser builds. *)
Definition parsed (garbage : HttpStatus) (r : HttpRequest) : HttpRequest :=
  mkHttpRequest (m_method r) garbage (m_version r) true (m_path r) (m_query r) (m_fragment r) ""
    (foldl (λ m kv, assign m kv.1 kv.2) [] (lines r)) [] [].

(** Requests whose text the grammar covers. *)
Record dumpable (r : HttpRequest) : Prop := {
  ok_method : m_method r ≠ HTTP_INVALID_METHOD ∧ m_method r ≠ MSEARCH;
  ok_path : path_ok (m_path r) = true;
  ok_query : all_in query_char (m_query r) = true;
  ok_fragment : all_in query_char (m_fragment r) = true;
  ok_version : version_ok (m_version r) = true;
  ok_headers : Forall (λ kv, line_ok kv = true) (m_headers r);
  ok_size : size (dump r) < 2 ^ 31
}.

Lemma lines_ok r : dumpable r → Forall (λ kv, line_ok kv = true) (lines r).
Proof.
  intros H. unfold lines. constructor; [apply connection_line_ok|]. apply Forall_app. split; [apply other_lines_ok, H|apply length_line_ok].
Qed.

Lemma setHeader_fold kvs r :
  foldl (λ r kv, setHeader kv.1 kv.2 r) r kvs = setHeaders (foldl (λ m kv, assign m kv.1 kv.2) (m_headers r) kvs) r.
Proof.
  revert r. induction kvs as [|kv kvs IH]; intros r; [by destruct r|]. csimpl. rewrite IH. done.
Qed.

Section parse.
Variables (r : HttpRequest) (g q x : Z) (rest : string) (len : Z).
Hypothesis H : dumpable r.
#[local] Abbreviation mem := (bytes_of_string (head_text r +:+ CRLF +:+ rest)).
#[local] Abbreviation head := (size (head_text r) + 2).
Hypothesis Hmem : zlen mem < string_max_size.
Hypothesis Hlen : head ≤ len ≤ zlen mem ∧ len < 2 ^ 31.
#[local] Abbreviation act := (do_action (request_callbacks mem) len).
#[local] Abbreviation run := (runs state act).

Lemma at_mem_head : at_mem mem 0 (head_text r).
Proof using. exists [], (bytes_of_string (CRLF +:+ rest)). split; [|done]. by rewrite bytes_of_string_app at 1. Qed.

(** The head of the message, from a parser in its initial marks. *)
Lemma head_run s : p_mark s ≤ 0 → field_start s ≤ 0 → field_len s ≤ 0 →
  m_data (data s) = HttpRequest_new g 17 true →
  ∃ s', run 1 0 (bytes_of_string (head_text r)) s 13 s' ∧ keeps (size (head_text r)) s s'
    ∧ m_data (data s') = parsed g r.
Proof using H Hmem.
  intros Hm Hf Hl Hd. destruct (ok_method r H) as [Hm1 Hm2].
  assert (∃ rest', mem = bytes_of_string (HttpMethodToString (m_method r) +:+ String (code_char 32) rest')) as [rest' Er].
  { unfold head_text. rewrite <- !string_app_assoc. by eexists. }
  assert (seg mem len 1 0 (head_text r) s 13 (λ r0,
     foldl (λ r kv, setHeader kv.1 kv.2 r)
       (setVersion (m_version r) (set_if (m_fragment r) setFragment (set_if (m_query r) setQuery
          (setPath (m_path r) (setMethod (m_method r) r0))))) (lines r))) as Hs.
  { unfold head_text at 2.
    apply (seg_app mem len 1 0 _ s 3 (setMethod (m_method r)) _ 13 (λ r0, foldl (λ r kv, setHeader kv.1 kv.2 r)
       (setVersion (m_version r) (set_if (m_fragment r) setFragment (set_if (m_query r) setQuery (setPath (m_path r) r0)))) (lines r)));
      [by apply (seg_method mem len _ _ rest')|]. intros s1.
    apply (seg_app mem len 3 _ _ s1 4 (λ r0, set_if (m_fragment r) setFragment (set_if (m_query r) setQuery (setPath (m_path r) r0)))
       _ 13 (λ r0, foldl (λ r kv, setHeader kv.1 kv.2 r) (setVersion (m_version r) r0) (lines r)));
      [apply seg_target; done || apply H|]. intros s2.
    apply (seg_app mem len 4 _ _ s2 13 (setVersion (m_version r)) _ 13 (λ r0, foldl (λ r kv, setHeader kv.1 kv.2 r) r0 (lines r)));
      [apply seg_version; done || apply H|]. intros s3. apply seg_lines; [done|by apply lines_ok]. }
  destruct (Hs at_mem_head Hm Hf Hl) as (s' & R & K & D). exists s'. split; [exact R|]. split; [exact K|].
  rewrite D, Hd, setHeader_fold. unfold parsed, set_if.
  destruct (String.eqb_spec (m_query r) "") as [->|]; destruct (String.eqb_spec (m_fragment r) "") as [->|]; done.
Qed.

(** The empty line that ends the headers. *)
Lemma exec_message s : p_mark s ≤ 0 → field_start s ≤ 0 → field_len s ≤ 0 → xml_sent s = 0 → json_sent s = 0 →
  m_data (data s) = HttpRequest_new g 17 true →
  let p := size (head_text r) + 1 in
  ∃ s', exec (request_callbacks mem) len (slice mem 0 (Z.to_nat len)) 1 0 s = Ret (348, p + 1) s'
    ∧ keeps p s (set_body_start (body_start s) s') ∧ body_start s' = p + 1 ∧ m_data (data s') = parsed g r.
Proof using All.
  intros Hm Hf Hl Hx Hj Hd p. destruct (head_run s Hm Hf Hl Hd) as (s1 & R & K & D).
  pose proof (size_nonneg (head_text r)) as Hh0. unfold string_max_size in Hmem.
  assert (∃ l, slice mem 0 (Z.to_nat len) = bytes_of_string (head_text r) ++ [13] ++ 10 :: l) as [l El].
  { exists (take (Z.to_nat len - length (bytes_of_string (head_text r)) - 2) (bytes_of_string rest)).
    rewrite !bytes_of_string_app. unfold slice. rewrite drop_0, take_app, take_ge by (unfold size in Hlen; rewrite length_bytes_of_string; lia).
    f_equal. change (bytes_of_string CRLF) with [13; 10].
    assert (∃ k, (Z.to_nat len - length (bytes_of_string (head_text r)) = S (S k))%nat) as [k ->].
    { exists (Z.to_nat len - length (bytes_of_string (head_text r)) - 2)%nat. unfold size in Hlen. rewrite length_bytes_of_string. lia. }
    cbn. by rewrite Nat.sub_0_r. }
  set (s2 := set_field_start (size (head_text r)) s1).
  assert (run 13 (size (head_text r)) [13] s1 18 s2) as R2.
  { eapply (step mem len _ 13 (Z.eqb 13) [start_field]); [seg_side|done|done|done|done]. }
  exists (set_body_start (p + 1) s2). unfold exec. fold state. rewrite El.
  rewrite R, (size_bytes (head_text r)), Z.add_0_l, R2. change (zlen [13]) with 1. fold p. split; [|split; [|split; [done|exact D]]].
  - destruct K. eapply exec_loop_break with (acts := [done]) (f := st_18); [|reflexivity|done|].
    + unfold state, block. by destruct (negb _).
    + unfold run_actions, do_action, bind, gets, id, s2; simpl. rewrite keeps_xml, keeps_json, Hx, Hj. simpl.
      rewrite uwrap_small by (unfold is_u, p; lia). done.
  - destruct K. constructor; simpl; try done; unfold p; lia.
Qed.

(** The head is consumed, and what was read behind it moved to the front. *)
Lemma execute_message : ∃ mem' s',
  execute mem len (HttpRequestParser_new g q x) = Ret (head, mem') s'
  ∧ isFinished s' = 1 ∧ hasError s' = false ∧ getData s' = parsed g r ∧ zlen mem' = zlen mem
  ∧ take (Z.to_nat (len - head)) mem' = take (Z.to_nat (len - head)) (bytes_of_string rest).
Proof using All.
  pose proof (size_nonneg (head_text r)) as Hh. set (s0 := HttpRequestParser_new g q x).
  destruct (exec_message s0) as (s1 & E & K & B & D); try done; try (simpl; lia).
  set (p := size (head_text r) + 1) in *. destruct K. unfold string_max_size in Hmem.
  assert (http_parser_execute (request_callbacks mem) mem len 0 s0
          = Ret (p + 1) (set_nread (p + 1) (set_cs 348 s1))) as Ex.
  { unfold http_parser_execute. rewrite (proj2 (Z.eqb_neq len 0)) by lia. step_monad.
    change (set_field_start 0 (set_field_len 0 (set_mark 0 (set_nread 0 s0)))) with s0.
    change (cs s0) with 1. rewrite (proj2 (Z.leb_le 0 len)) by lia. unfold assert at 1. rewrite bind_ret.
    rewrite assert_int, bind_ret by lia. rewrite Z.sub_0_r. change (Z.to_nat 0) with 0%nat.
    rewrite (bind_Ret _ _ _ _ _ E). rewrite (proj2 (Z.leb_le (p + 1) len)) by (unfold p; lia).
    unfold assert at 1. rewrite bind_ret. step_monad. unfold http_parser_has_error.
    simpl in keeps_cs, keeps_nread, keeps_mark, keeps_field, keeps_len. rewrite keeps_cs. simpl. rewrite bind_modify. step_monad. simpl.
    rewrite keeps_nread, Z.sub_0_r, Z.add_0_l, B. rewrite uwrap_small by (unfold is_u, p; lia).
    rewrite (proj2 (Z.leb_le (p + 1) len)), (proj2 (Z.ltb_lt _ len)), (proj2 (Z.leb_le _ len)), (proj2 (Z.ltb_lt _ len)) by (unfold p in *; lia).
    done. }
  eexists _, (set_nread (p + 1) (set_cs 348 s1)). split; [|split; [done|split; [|split; [exact D|]]]].
  - unfold execute. rewrite (bind_Ret _ _ _ _ _ Ex).
    rewrite (proj2 (Z.leb_le 0 _)), (proj2 (Z.leb_le (p + 1) len)), (proj2 (Z.leb_le len _)) by (unfold p; lia). simpl.
    unfold ret. do 2 f_equal. unfold p. lia.
  - unfold hasError, http_parser_has_error. simpl. simpl in keeps_error. by rewrite keeps_error.
  - destruct (moved_to_front mem (Z.to_nat (p + 1)) (Z.to_nat (len - (p + 1)))) as (H1 & _ & H3); [unfold zlen, p in *; lia|].
    split; [exact H3|]. replace (len - head) with (len - (p + 1)) by (unfold p; lia). unfold slice at 1 in H1. rewrite drop_0 in H1.
    rewrite H1. unfold slice. f_equal.
    assert (Z.to_nat (p + 1) = length (bytes_of_string (head_text r +:+ CRLF))) as ->.
    { pose proof (size_bytes (head_text r +:+ CRLF)) as Hz. rewrite size_app in Hz. change (size CRLF) with 2 in Hz. unfold zlen, p in *. lia. }
    rewrite string_app_assoc, (bytes_of_string_app (head_text r +:+ CRLF)). apply drop_app_length.
Qed.
End parse.

(** The whole text of a request at once. *)
Lemma execute_dump r g q x : dumpable r → ∃ mem' s',
  execute (bytes_of_string (dump r)) (size (dump r)) (HttpRequestParser_new g q x) = Ret (size (dump r) - size (m_body r), mem') s'
  ∧ isFinished s' = 1 ∧ hasError s' = false ∧ getData s' = parsed g r
  ∧ take (String.length (m_body r)) mem' = bytes_of_string (m_body r).
Proof.
  intros H. pose proof (ok_size r H) as Hs. pose proof (size_nonneg (m_body r)) as Hb.
  assert (size (dump r) = size (head_text r) + 2 + size (m_body r)) as Hn.
  { rewrite dump_split, !size_app. change (size CRLF) with 2. lia. }
  destruct (execute_message r g q x (m_body r) (size (dump r)) H) as (mem' & s' & E & F & Er & D & _ & T).
  - rewrite <- dump_split, size_bytes. unfold string_max_size. lia.
  - rewrite <- dump_split, size_bytes. lia.
  - rewrite <- dump_split in E. exists mem', s'. rewrite E. split_and!; try done; [do 2 f_equal; lia|].
    assert (Z.to_nat (size (dump r) - (size (head_text r) + 2)) = String.length (m_body r)) as El by (unfold size in *; lia).
    rewrite El in T. rewrite T. apply take_ge. by rewrite length_bytes_of_string.
Qed.

(** ** The headers that come back *)
Definition expected_header (r : HttpRequest) (k : string) : option string := expected (m_close r) (m_headers r) (m_body r) k.
Lemma parsed_header r g k : headers_ok (m_headers r) → find (m_headers (parsed g r)) k = expected_header r k.
Proof.
  intros Hok. change (m_headers (parsed g r)) with (foldl (λ m kv, assign m kv.1 kv.2) [] ((connection_line (m_close r) :: other_lines (m_headers r)) ++ length_line (m_body r))).
  apply find_lines; [done|]. intros kv. by rewrite elem_of_cons, other_lines_In.
Qed.

(** C6: Round trip.  Parsing the text that [HttpRequest::dump] prints for a
    well-formed request finishes without error at the body and moves exactly the
    body to the front of the buffer.  The request it builds has the method, the
    target, the version and every header of the original, looked up under any
    spelling; [connection] states [m_close], [content-length] the body's size. *)
Theorem dump_parse (r : HttpRequest) (g q x : Z) : dumpable r → headers_ok (m_headers r) →
  ∃ mem' s',
  execute (bytes_of_string (dump r)) (size (dump r)) (HttpRequestParser_new g q x) = Ret (size (dump r) - size (m_body r), mem') s'
  ∧ isFinished s' = 1 ∧ hasError s' = false
  ∧ take (String.length (m_body r)) mem' = bytes_of_string (m_body r)
  ∧ m_method (getData s') = m_method r ∧ m_path (getData s') = m_path r ∧ m_query (getData s') = m_query r
  ∧ m_fragment (getData s') = m_fragment r ∧ m_version (getData s') = m_version r
  ∧ ∀ k, find (m_headers (getData s')) k = expected_header r k.
Proof.
  intros H Hok. destruct (execute_dump r g q x H) as (mem' & s' & E & F & Er & D & B).
  exists mem', s'. rewrite D. split_and!; try done. intros k. by apply parsed_header.
Qed.

Lemma dump_parse_witness :
  let r := setBody "hello" (setHeader "Host" "www.example.com" (setFragment "top" (setQuery "a=1&b=2" (setPath "/index.html"
             (setMethod POST (HttpRequest_new 0 17 false)))))) in
  ∃ mem' s',
  execute (bytes_of_string (dump r)) (size (dump r)) (HttpRequestParser_new 5 6 7) = Ret (size (dump r) - size (m_body r), mem') s'
  ∧ isFinished s' = 1 ∧ hasError s' = false
  ∧ take (String.length (m_body r)) mem' = bytes_of_string (m_body r)
  ∧ m_method (getData s') = m_method r ∧ m_path (getData s') = m_path r ∧ m_query (getData s') = m_query r
  ∧ m_fragment (getData s') = m_fragment r ∧ m_version (getData s') = m_version r
  ∧ ∀ k, find (m_headers (getData s')) k = expected_header r k.
Proof.
  apply dump_parse; [|simpl; auto with azure]. constructor; try done. repeat constructor.
Defined.
