(* ===== verification/HttpClientParser.v ===== *)
(** * HttpClientParser: the response parser in C ([include/http/httpclient_parser.h],
    [include/http/httpclient_parser.rl.cc])

    As in Http11Parser a pointer into the buffer is its offset.  [strtol]
    reads from a mark up to the first character that is not part of the number. *)
From S2P Require Import Prelude CLib Ragel HttpClientStates.

Section parser.
Context {D : Type}.
Definition element_cb : Type := Z → Z → ST D unit.
Definition field_cb : Type := Z → Z → Z → Z → ST D unit.

Record httpclient_parser := mkHttpClientParser {
  cs : Z;
  body_start : Z;
  content_len : Z;
  status : Z;
  chunked : Z;
  chunks_done : Z;
  close : Z;
  nread : Z;
  p_mark : Z;
  field_start : Z;
  field_len : Z;
  data : D
}.

(** The callback members, which are set once. *)
Record callbacks := mkCallbacks {
  cb_http_field : option field_cb;
  cb_reason_phrase : option element_cb;
  cb_status_code : option element_cb;
  cb_chunk_size : option element_cb;
  cb_http_version : option element_cb;
  cb_header_done : option element_cb;
  cb_last_chunk : option element_cb
}.

Definition set_cs v s := mkHttpClientParser v (body_start s) (content_len s) (status s) (chunked s) (chunks_done s) (close s) (nread s) (p_mark s) (field_start s) (field_len s) (data s).
Definition set_body_start v s := mkHttpClientParser (cs s) v (content_len s) (status s) (chunked s) (chunks_done s) (close s) (nread s) (p_mark s) (field_start s) (field_len s) (data s).
Definition set_content_len v s := mkHttpClientParser (cs s) (body_start s) v (status s) (chunked s) (chunks_done s) (close s) (nread s) (p_mark s) (field_start s) (field_len s) (data s).
Definition set_status v s := mkHttpClientParser (cs s) (body_start s) (content_len s) v (chunked s) (chunks_done s) (close s) (nread s) (p_mark s) (field_start s) (field_len s) (data s).
Definition set_chunked v s := mkHttpClientParser (cs s) (body_start s) (content_len s) (status s) v (chunks_done s) (close s) (nread s) (p_mark s) (field_start s) (field_len s) (data s).
Definition set_chunks_done v s := mkHttpClientParser (cs s) (body_start s) (content_len s) (status s) (chunked s) v (close s) (nread s) (p_mark s) (field_start s) (field_len s) (data s).
Definition set_close v s := mkHttpClientParser (cs s) (body_start s) (content_len s) (status s) (chunked s) (chunks_done s) v (nread s) (p_mark s) (field_start s) (field_len s) (data s).
Definition set_nread v s := mkHttpClientParser (cs s) (body_start s) (content_len s) (status s) (chunked s) (chunks_done s) (close s) v (p_mark s) (field_start s) (field_len s) (data s).
Definition set_mark v s := mkHttpClientParser (cs s) (body_start s) (content_len s) (status s) (chunked s) (chunks_done s) (close s) (nread s) v (field_start s) (field_len s) (data s).
Definition set_field_start v s := mkHttpClientParser (cs s) (body_start s) (content_len s) (status s) (chunked s) (chunks_done s) (close s) (nread s) (p_mark s) v (field_len s) (data s).
Definition set_field_len v s := mkHttpClientParser (cs s) (body_start s) (content_len s) (status s) (chunked s) (chunks_done s) (close s) (nread s) (p_mark s) (field_start s) v (data s).
Definition set_data v s := mkHttpClientParser (cs s) (body_start s) (content_len s) (status s) (chunked s) (chunks_done s) (close s) (nread s) (p_mark s) (field_start s) (field_len s) v.

Definition on_data {X} (m : ST D X) : ST httpclient_parser X := λ s,
  match m (data s) with
  | Ret a d => Ret a (set_data d s)
  | Throw e d => Throw e (set_data d s)
  | Crash f => Crash f
  end.
Definition call {C} (cb : option C) (k : C → ST D unit) : ST httpclient_parser unit :=
  match cb with Some f => on_data (k f) | None => ret tt end.

Definition httpclient_parser_start : Z := 1.
Definition httpclient_parser_first_final : Z := 120.
Definition httpclient_parser_error : Z := 0.

(** [httpclient_parser_init]: [status] keeps its value. *)
Definition httpclient_parser_init (s : httpclient_parser) : httpclient_parser :=
  mkHttpClientParser httpclient_parser_start 0 (-1) (status s) 0 0 0 0 0 0 0 (data s).

Definition httpclient_parser_has_error (s : httpclient_parser) : bool := cs s =? httpclient_parser_error.
Definition httpclient_parser_is_finished (s : httpclient_parser) : bool := cs s =? httpclient_parser_first_final.
Definition httpclient_parser_finish (s : httpclient_parser) : Z :=
  if httpclient_parser_has_error s then -1 else if httpclient_parser_is_finished s then 1 else 0.

Section execute.
Variable cbs : callbacks.
(** The memory from the start of the buffer on, and [pe - buffer]. *)
Variable mem : list Z.
Variable pe : Z.

Definition LEN (at_ p : Z) : Z := u64 (p - at_).
Definition PTR_TO (at_ : Z) : list Z := drop (Z.to_nat at_) mem.

(** The actions at [p]; [true] after [fbreak]. *)
Definition do_action (a : action) (p : Z) : ST httpclient_parser bool :=
  let* s := gets id in
  match a with
  | mark | start_value => modify (set_mark p) ;;; ret false
  | start_field => modify (set_field_start p) ;;; ret false
  | write_field => modify (set_field_len (LEN (field_start s) p)) ;;; ret false
  | write_content_len => modify (set_content_len (i32 (strtol 10 (PTR_TO (p_mark s))))) ;;; ret false
  | write_connection_close => modify (set_close 1) ;;; ret false
  | write_value =>
      call (cb_http_field cbs) (λ f, f (field_start s) (field_len s) (p_mark s) (LEN (p_mark s) p)) ;;; ret false
  | reason_phrase => call (cb_reason_phrase cbs) (λ f, f (p_mark s) (LEN (p_mark s) p)) ;;; ret false
  | status_code =>
      modify (set_status (i32 (strtol 10 (PTR_TO (p_mark s))))) ;;;
      call (cb_status_code cbs) (λ f, f (p_mark s) (LEN (p_mark s) p)) ;;; ret false
  | http_version => call (cb_http_version cbs) (λ f, f (p_mark s) (LEN (p_mark s) p)) ;;; ret false
  | chunk_size =>
      let len := i32 (strtol 16 (PTR_TO (p_mark s))) in
      modify (set_chunked 1) ;;;
      modify (set_content_len len) ;;;
      modify (set_chunks_done (if len <=? 0 then 1 else 0)) ;;;
      (if (len <=? 0) && bool_decide (is_Some (cb_last_chunk cbs))
       then call (cb_last_chunk cbs) (λ f, f (p_mark s) (LEN (p_mark s) p))
       else call (cb_chunk_size cbs) (λ f, f (p_mark s) (LEN (p_mark s) p))) ;;; ret false
  | trans_chunked => modify (set_chunked 1) ;;; ret false
  | done =>
      modify (set_body_start (u64 (p + 1))) ;;;
      call (cb_header_done cbs) (λ f, f (p + 1) (u64 (pe - p - 1))) ;;;
      ret true
  end.

Definition exec : list Z → Z → Z → ST httpclient_parser (Z * Z) := exec_loop (λ _, block) do_action.
End execute.

Definition assert (b : bool) : ST httpclient_parser unit := if b then ret tt else crash AssertFailed.

(** [httpclient_parser_execute(parser, buffer, len, off)], an [int] *)
Definition httpclient_parser_execute (cbs : callbacks) (buffer : list Z) (len off : Z) : ST httpclient_parser Z :=
  modify (set_nread 0) ;;;
  modify (set_mark 0) ;;;
  modify (set_field_len 0) ;;;
  modify (set_field_start 0) ;;;
  let* cs0 := gets cs in
  assert (off <=? len) ;;;
  match buffer !! Z.to_nat len with
  | None => crash OutOfBounds
  | Some c =>
      assert (c =? 0) ;;;
      assert (len - off =? i32 len - i32 off) ;;;
      let* r := exec cbs buffer len (slice buffer (Z.to_nat off) (Z.to_nat (len - off))) cs0 off in
      let '(cs1, p) := r in
      modify (set_cs cs1) ;;;
      modify (λ s, set_nread (u64 (nread s + (p - off))) s) ;;;
      let* s := gets id in
      assert (p <=? len) ;;;
      assert (nread s <=? len) ;;;
      assert (body_start s <=? len) ;;;
      if (p_mark s <? len) && (field_len s <=? len) && (field_start s <? len)
      then ret (i32 (nread s))
      else ret (-1)
  end.
End parser.
Arguments httpclient_parser : clear implicits.
Arguments callbacks : clear implicits.
Arguments element_cb : clear implicits.
Arguments field_cb : clear implicits.
