(* ===== verification/HttpResponseParser.v ===== *)
(** * HttpResponseParser: the callbacks and the parser class for responses
    ([src/http/http_parser.cpp], [include/http/http_parser.h])

    [mem] is the memory from the start of the buffer on. *)
From S2P Require Import Prelude CLib Ragel HttpClientStates HttpClientParser Http HttpResponse.

(** What the callbacks change: the response and the error code. *)
Record parse_data := mkParseData { m_data : HttpResponse; m_error : Z }.
Definition setError (v : Z) (d : parse_data) : parse_data := mkParseData (m_data d) v.
Definition on_response (f : HttpResponse → HttpResponse) : ST parse_data unit :=
  modify (λ d, mkParseData (f (m_data d)) (m_error d)).

Section callbacks.
Variable mem : list Z.
Definition from (at_ : Z) : list Z := drop (Z.to_nat at_) mem.

Definition on_response_reason (at_ length : Z) : ST parse_data unit :=
  let* s := string_at mem at_ length in on_response (setReason s).
Definition on_response_status (at_ length : Z) : ST parse_data unit :=
  on_response (setStatus (atoi (from at_))).
Definition on_response_chunk (at_ length : Z) : ST parse_data unit := ret tt.

Definition on_response_version (at_ length : Z) : ST parse_data unit :=
  if strncmp_n (Z.to_nat length) (from at_) (literal "HTTP/1.1") then on_response (setVersion 17)
  else if strncmp_n (Z.to_nat length) (from at_) (literal "HTTP/1.0") then on_response (setVersion 16)
  else modify (setError 1001).

Definition on_response_header_done (at_ length : Z) : ST parse_data unit := ret tt.
Definition on_response_last_chunk (at_ length : Z) : ST parse_data unit := ret tt.

Definition on_response_http_field (field flen value vlen : Z) : ST parse_data unit :=
  if flen =? 0 then ret tt
  else
    let* k := string_at mem field flen in
    let* v := string_at mem value vlen in
    on_response (setHeader k v).

Definition response_callbacks : callbacks parse_data := mkCallbacks
  (Some on_response_http_field) (Some on_response_reason) (Some on_response_status)
  (Some on_response_chunk) (Some on_response_version) (Some on_response_header_done)
  (Some on_response_last_chunk).
End callbacks.

(** [HttpResponseParser]: the [httpclient_parser], whose [data] is the object itself. *)
Definition HttpResponseParser : Type := httpclient_parser parse_data.

(** The constructor; [status] is the uninitialised member of the parser. *)
Definition HttpResponseParser_new (status : Z) : HttpResponseParser :=
  httpclient_parser_init (mkHttpClientParser 0 0 0 status 0 0 0 0 0 0 0
    (mkParseData (HttpResponse_new 17 true) 0)).

(** [execute(data, len, chunk)] on the memory [mem]: the offset, as the
    [size_t] made of the [int] result, and the memory after the [memmove]. *)
Definition execute (mem : list Z) (len : Z) (chunk : bool) : ST HttpResponseParser (Z * list Z) :=
  (if chunk then modify httpclient_parser_init else ret tt) ;;;
  let* r := httpclient_parser_execute (response_callbacks mem) mem len 0 in
  let offset := u64 r in
  if (0 <=? offset) && (offset <=? len) && (len <=? zlen mem)
  then ret (offset, splice mem 0 (slice mem (Z.to_nat offset) (Z.to_nat (len - offset))))
  else crash OutOfBounds.

Definition isFinished (s : HttpResponseParser) : Z := httpclient_parser_finish s.
Definition hasError (s : HttpResponseParser) : bool :=
  negb (m_error (data s) =? 0) || httpclient_parser_has_error s.

(** [getContentLength]: [lexical_cast] is [boost::lexical_cast<uint64_t>]. *)
Definition getContentLength (lexical_cast : string → option Z) (s : HttpResponseParser) : Z :=
  getHeaderAs lexical_cast (m_data (data s)) "content-length" 0.

Definition getData (s : HttpResponseParser) : HttpResponse := m_data (data s).
