(* ===== verification/HttpResponseSegments.v ===== *)
(** * HttpResponseSegments: the lines of a response through the generated client parser

    [seg X p w s Y f]: from a block of [X] the parser reads the word [w] standing
    at offset [p], ends in a block of [Y], and changes the response by [f].  The
    grammar reads some header lines in two ways at once, so a line leads through
    sets of blocks; the blocks that follow the name [Transfer-Encoding] are told
    apart from the others by following the name's letters. *)
From S2P Require Import Prelude CLib Words Decimal OrderedSet Ragel HttpClientStates HttpClientParser Http HttpFacts HttpLines HttpResponse HttpResponseParser.

Lemma c_str_token k : (∀ c, List.In c (bytes_of_string k) → token c = true) → c_str k = k.
Proof.
  induction k as [|x k IH]; intros Hk; [done|]. cbn [c_str].
  assert (token (char_code x) = true) as Hx by (apply Hk; by left).
  destruct (Z.eqb_spec (char_code x) 0) as [E|]; [by rewrite E in Hx|]. f_equal. apply IH. intros c Hc. apply Hk. by right.
Qed.

Section segments.
Variables (mem : list Z) (pe : Z).
Hypothesis Hmem : zlen mem < string_max_size.
Implicit Types (s : HttpResponseParser) (p : Z) (w : string) (X Y : list Z).

#[local] Abbreviation state := (λ _ : HttpResponseParser, block).
#[local] Abbreviation act := (do_action (response_callbacks mem) mem pe).
#[local] Abbreviation run := (runs state act).
#[local] Abbreviation at_mem := (at_mem mem).

Lemma LEN_word a w p : at_mem a w → p = a + size w → LEN a p = size w.
Proof using Hmem.
  intros H ->. apply at_mem_bound in H. unfold LEN. replace (a + size w - a) with (size w) by lia.
  apply uwrap_small. unfold is_u, string_max_size in *. unfold size in *. lia.
Qed.
Lemma string_at_LEN {S} a w p (d : S) : at_mem a w → p = a + size w → string_at mem a (LEN a p) d = Ret w d.
Proof using Hmem. intros H Hp. rewrite (LEN_word a w p H Hp). apply string_at_word; [done|lia]. Qed.
Lemma from_word a w : at_mem a w → ∃ post, from mem a = bytes_of_string w ++ post.
Proof using Hmem. intros (pre & post & -> & ->). exists post. unfold from, zlen. by rewrite Nat2Z.id, drop_app_length. Qed.

(** ** What an element changes *)
Definition put (f : HttpResponse → HttpResponse) s : HttpResponseParser :=
  set_data (mkParseData (f (m_data (data s))) (m_error (data s))) s.
(** [ch]: the message turned out to be chunked. *)
Record keeps (ch : bool) (p : Z) s s' : Prop := {
  keeps_cs : cs s' = cs s;
  keeps_body : body_start s' = body_start s;
  keeps_nread : nread s' = nread s;
  keeps_chunked : chunked s' = if ch then 1 else chunked s;
  keeps_error : m_error (data s') = m_error (data s);
  keeps_mark : p_mark s' ≤ p;
  keeps_field : field_start s' ≤ p;
  keeps_len : field_len s' ≤ p
}.
Definition seg (ch : bool) X p w s Y (f : HttpResponse → HttpResponse) : Prop :=
  ∀ cs, cs ∈ X → at_mem p w → p_mark s ≤ p → field_start s ≤ p → field_len s ≤ p →
  ∃ cs' s', cs' ∈ Y ∧ run cs p (bytes_of_string w) s cs' s' ∧ keeps ch (p + size w) s s' ∧ m_data (data s') = f (m_data (data s)).

Lemma response_seg_app c1 c2 X p w1 s Y f1 w2 Z' f2 : seg c1 X p w1 s Y f1 →
  (∀ s1, seg c2 Y (p + size w1) w2 s1 Z' f2) → seg (c1 || c2) X p (w1 +:+ w2) s Z' (λ r, f2 (f1 r)).
Proof using Hmem.
  intros H1 H2 cs Hcs Hat Hm Hf Hl. apply at_mem_app in Hat as [A1 A2].
  destruct (H1 cs Hcs A1 Hm Hf Hl) as (cs1 & s1 & Hc1 & R1 & K1 & D1). destruct K1.
  destruct (H2 s1 cs1 Hc1 A2) as (cs2 & s2 & Hc2 & R2 & K2 & D2); [done..|]. destruct K2.
  exists cs2, s2. rewrite bytes_of_string_app. split_and!; [done| | |].
  - eapply runs_app; [exact R1|]. by rewrite size_bytes.
  - rewrite size_app. constructor; first [congruence | lia | by destruct c1, c2; cbn in *; congruence].
  - by rewrite D2, D1.
Qed.

Lemma act_header s p k v : at_mem (field_start s) k → field_len s = size k → size k ≠ 0 →
  at_mem (p_mark s) v → p = p_mark s + size v → act write_value p s = Ret false (put (setHeader k v) s).
Proof using Hmem.
  intros Hk Hl Hn Hv Hp. unfold do_action. step_monad. unfold call, on_data, bind. simpl. unfold on_response_http_field, bind.
  rewrite Hl, (proj2 (Z.eqb_neq _ _)) by done. simpl.
  rewrite <- (LEN_word _ _ _ Hk eq_refl), (string_at_LEN _ _ _ _ Hk eq_refl). by rewrite (string_at_LEN _ _ _ _ Hv Hp).
Qed.
Lemma act_reason s p w : at_mem (p_mark s) w → p = p_mark s + size w → act reason_phrase p s = Ret false (put (setReason w) s).
Proof using Hmem.
  intros H Hp. unfold do_action. step_monad. unfold call, on_data, bind. simpl. unfold on_response_reason, bind.
  by rewrite (string_at_LEN _ _ _ _ H Hp).
Qed.

(** ** Header lines: the blocks in front of a line, in the name, behind the colon
    and in the value *)
Definition Lines : list Z := [20; 43].
Definition Names : list Z := 21 :: seqZ 25 10 ++ seqZ 44 17 ++ seqZ 101 11.
Definition Colons : list Z := [22; 35; 112].
Definition Values : list Z := 23 :: 119 :: seqZ 96 5.
Definition encoding_name : list Z := bytes_of_string "transfer-encoding".
(** Blocks 44 to 60 are reached by the letters of [Transfer-Encoding] only. *)
Definition tracks (first : bool) cs cs' (c : Z) : bool :=
  negb (between 44 60 cs') || ((if first then cs' =? 44 else cs' =? cs + 1) && bool_decide (encoding_name !! Z.to_nat (cs' - 44) = Some (tolower c))).
Definition name_steps (first : bool) X (acts : list action) : bool :=
  forallb (λ cs, match block cs with
    | None => false
    | Some f => forallb (λ c, implb (token c)
        (let '(a, cs') := f (i8 c) in bool_decide (a = acts) && existsb (Z.eqb cs') Names && tracks first cs cs' c)) all_bytes
    end) X.
Lemma name_start_20 : name_steps true [20] [start_field] = true.
Proof using. by vm_compute. Qed.
Lemma name_start_43 : name_steps true [43] [write_connection_close; start_field] = true.
Proof using. by vm_compute. Qed.
Lemma name_loop : name_steps false Names [] = true.
Proof using. by vm_compute. Qed.

Lemma name_step first X acts cs c : name_steps first X acts = true → cs ∈ X → is_byte c → token c = true →
  ∃ f cs', block cs = Some f ∧ f (i8 c) = (acts, cs') ∧ cs' ∈ Names ∧ tracks first cs cs' c = true.
Proof using.
  unfold name_steps. intros H Hcs Hb Hc. rewrite forallb_forall in H. specialize (H cs (proj1 (list_elem_of_In _ _) Hcs)).
  destruct (block cs) as [f|]; [|done]. rewrite forallb_forall in H. specialize (H c (all_bytes_In c Hb)). rewrite Hc in H. cbn [implb] in H.
  destruct (f (i8 c)) as [a cs'] eqn:Hf. rewrite !andb_true_iff in H. destruct H as [[->%bool_decide_eq_true Hin] Ht].
  apply existsb_exists in Hin as (y & Hy & ->%Z.eqb_eq). exists f, y. split_and!; try done. by apply list_elem_of_In.
Qed.
Lemma names_not_0 cs : cs ∈ Names → cs ≠ 0.
Proof using. intros H ->. apply (bool_decide_eq_true_2 (0 ∈ Names)) in H. by vm_compute in H. Qed.

(** What the letters [l] read so far say in block [cs]. *)
Definition tracked (l : list Z) cs : Prop := 44 ≤ cs ≤ 60 → tolower <$> l = take (Z.to_nat (cs - 43)) encoding_name.
Lemma tracked_step (first : bool) cs cs' (l : list Z) c : (if first then l = [] else cs ∈ Names ∧ tracked l cs) → tracks first cs cs' c = true → tracked (l ++ [c]) cs'.
Proof using.
  intros Hl Ht Hcs. unfold tracks in Ht. assert (between 44 60 cs' = true) as E by (unfold between; lia). rewrite E in Ht. cbn [negb orb] in Ht.
  apply andb_true_iff in Ht as [Hf Hc%bool_decide_eq_true]. rewrite fmap_app. cbn [fmap list_fmap].
  destruct first.
  - apply Z.eqb_eq in Hf as ->. subst l. by injection Hc as <-.
  - apply Z.eqb_eq in Hf. destruct Hl as [Hn Hl]. assert (cs ≠ 43) by (intros ->; apply (bool_decide_eq_true_2 (43 ∈ Names)) in Hn; by vm_compute in Hn).
    rewrite Hl by lia. replace (Z.to_nat (cs' - 43)) with (S (Z.to_nat (cs' - 44))) by lia. replace (Z.to_nat (cs - 43)) with (Z.to_nat (cs' - 44)) by lia.
    symmetry. by apply take_S_r.
Qed.

Lemma name_runs cs p s l : cs ∈ Lines → bytes_ok l → l ≠ [] → Forall (λ c, token c = true) l →
  ∃ cs' s', cs' ∈ Names ∧ tracked l cs' ∧ run cs p l s cs' s' ∧ (s' = set_field_start p s ∨ s' = set_field_start p (set_close 1 s)).
Proof using.
  intros Hcs Hb Hne Ht. destruct l as [|c l]; [done|]. inversion Hb as [|?? Hb1 Hb2]; inversion Ht as [|?? Ht1 Ht2]; subst.
  assert (∃ cs1 s1, cs1 ∈ Names ∧ tracked [c] cs1 ∧ run cs p [c] s cs1 s1 ∧ (s1 = set_field_start p s ∨ s1 = set_field_start p (set_close 1 s)))
    as (cs1 & s1 & Hc1 & T1 & R1 & E1).
  { apply elem_of_cons in Hcs as [-> | ->%list_elem_of_singleton].
    - destruct (name_step _ _ _ 20 c name_start_20) as (f & cs1 & Hf & Hfc & Hin & Htr); [by left|done|done|].
      exists cs1, (set_field_start p s). split_and!; try done; [by apply (tracked_step true 20 cs1 [] c)| |by left].
      eapply runs_one; [exact Hf|exact Hfc|by apply names_not_0|done].
    - destruct (name_step _ _ _ 43 c name_start_43) as (f & cs1 & Hf & Hfc & Hin & Htr); [by left|done|done|].
      exists cs1, (set_field_start p (set_close 1 s)). split_and!; try done; [by apply (tracked_step true 43 cs1 [] c)| |by right].
      eapply runs_one; [exact Hf|exact Hfc|by apply names_not_0|done]. }
  assert (∀ l' q cs1, bytes_ok l → Forall (λ c, token c = true) l → cs1 ∈ Names → tracked l' cs1 →
    ∃ cs2, cs2 ∈ Names ∧ tracked (l' ++ l) cs2 ∧ run cs1 q l s1 cs2 s1) as Hloop.
  { clear. induction l as [|d l IH]; intros l' q cs1 Hb Ht Hc1 T1; [exists cs1; rewrite app_nil_r; split_and!; [done..|apply runs_nil]|].
    inversion Hb; inversion Ht; subst.
    destruct (name_step _ _ _ cs1 d name_loop Hc1) as (f & cs2 & Hf & Hfc & Hin & Htr); [done|done|].
    destruct (IH (l' ++ [d]) (q + zlen [d]) cs2) as (cs3 & H3 & T3 & R3).
    1-3: assumption.
    { apply (tracked_step false cs1); [by split|done]. }
    exists cs3. rewrite <- app_assoc in T3. split_and!; [done|done|]. apply (runs_app _ _ cs1 q [d] s1 cs2 s1); [|exact R3].
    eapply runs_one; [exact Hf|exact Hfc|by apply names_not_0|done]. }
  destruct (Hloop [c] (p + zlen [c]) cs1 Hb2 Ht2 Hc1 T1) as (cs2 & Hc2 & T2 & R2).
  exists cs2, s1. split_and!; [done|exact T2| |done]. by apply (runs_app _ _ cs p [c] s cs1 s1).
Qed.

(** ** The rest of a line *)
Lemma colon_step : forallb (λ cs, set_goes block [cs] (Z.eqb 58) [write_field] (if cs =? 60 then [61] else Colons)) Names = true.
Proof using. by vm_compute. Qed.
Definition value_begin (c : Z) : bool := value_start c && negb (one_of [11; 12] c).
Lemma space_step : set_goes block Colons (Z.eqb 32) [start_value] Colons = true.
Proof using. by vm_compute. Qed.
Lemma value_step : set_goes block Colons value_begin [start_value] Values = true.
Proof using. by vm_compute. Qed.
Lemma value_loop : set_goes block Values value_char [] Values = true.
Proof using. by vm_compute. Qed.
Lemma end_step_length : set_goes block [119] (Z.eqb 13) [write_content_len; write_value] [24; 88] = true.
Proof using. by vm_compute. Qed.
Lemma end_step : set_goes block (23 :: seqZ 96 5) (Z.eqb 13) [write_value] [24; 88] = true.
Proof using. by vm_compute. Qed.
Lemma break_step : set_goes block [24; 88] (Z.eqb 10) [] Lines = true.
Proof using. by vm_compute. Qed.

Definition response_line_ok (kv : string * string) : bool :=
  name_ok kv.1 && negb (strcasecmp kv.1 "transfer-encoding" =? 0)
  && all_in value_char kv.2 && match bytes_of_string kv.2 with c :: _ => value_begin c | [] => false end.

Lemma run_set X class acts Y cs p c s s' : set_goes block X class acts Y = true → cs ∈ X → is_byte c → class c = true →
  run_actions act acts p s = Ret false s' → ∃ cs', cs' ∈ Y ∧ run cs p [c] s cs' s'.
Proof using. apply (runs_set state act). Qed.

(** Up to the colon, the space behind it included. *)
Lemma name_colon_runs cs p s k : cs ∈ Lines → at_mem p k → name_ok k = true → strcasecmp k "transfer-encoding" ≠ 0 →
  ∃ cs' s', cs' ∈ Colons ∧ run cs p (bytes_of_string (k +:+ ": ")) s cs' s'
  ∧ ∃ s0, (s0 = s ∨ s0 = set_close 1 s) ∧ s' = set_mark (p + size k + 1) (set_field_len (size k) (set_field_start p s0)).
Proof using Hmem.
  intros Hcs Hat Hk Hte. unfold name_ok in Hk. rewrite andb_true_iff, negb_true_iff, String.eqb_neq in Hk. destruct Hk as [Hne Htok].
  unfold all_in in Htok. rewrite forallb_forall in Htok.
  destruct (name_runs cs p s (bytes_of_string k) Hcs) as (cs1 & s1 & Hc1 & T1 & R1 & E1); [auto with azure|by destruct k| |].
  { apply Forall_forall. intros c Hc. by apply Htok, list_elem_of_In. }
  assert (∃ s0, (s0 = s ∨ s0 = set_close 1 s) ∧ s1 = set_field_start p s0) as (s0 & H0 & ->) by (destruct E1 as [-> | ->]; eauto). clear E1.
  assert (cs1 =? 60 = false) as E60.
  { apply Z.eqb_neq. intros ->. apply Hte. unfold strcasecmp. apply cmp_bytes_0; [auto with azure..|].
    unfold fold_key at 1. rewrite c_str_token by (intros c Hc; by apply Htok). by rewrite T1 by lia. }
  pose proof colon_step as Hcolon. rewrite forallb_forall in Hcolon. specialize (Hcolon cs1 (proj1 (list_elem_of_In _ _) Hc1)). cbv beta in Hcolon. rewrite E60 in Hcolon.
  destruct (run_set _ _ _ _ cs1 (p + size k) 58 (set_field_start p s0) (set_field_len (size k) (set_field_start p s0)) Hcolon) as (cs2 & Hc2 & R2); [by left|done|done| |].
  { unfold run_actions, do_action. step_monad. unfold bind. simpl. by rewrite (LEN_word _ _ _ Hat eq_refl). }
  destruct (run_set _ _ _ _ cs2 (p + size k + 1) 32 (set_field_len (size k) (set_field_start p s0)) (set_mark (p + size k + 1) (set_field_len (size k) (set_field_start p s0))) space_step Hc2) as (cs3 & Hc3 & R3); [done|done|done|].
  eexists cs3, _. split; [done|]. split; [|by exists s0].
  rewrite bytes_of_string_app. change (bytes_of_string ": ") with ([58] ++ [32]).
  apply (runs_app _ _ cs p _ s cs1 _ _ _ _ R1). rewrite size_bytes. by apply (runs_app _ _ cs1 _ [58] _ cs2 _ _ _ _ R2).
Qed.

Lemma value_runs cs p s k v : cs ∈ Colons → at_mem p v → at_mem (field_start s) k → field_len s = size k → size k ≠ 0 →
  all_in value_char v = true → (match bytes_of_string v with c :: _ => value_begin c | [] => false end) = true →
  ∃ cs' s', cs' ∈ Lines ∧ run cs p (bytes_of_string (v +:+ CRLF)) s cs' (put (setHeader k v) s')
  ∧ (s' = set_mark p s ∨ ∃ n, s' = set_content_len n (set_mark p s)).
Proof using Hmem.
  intros Hcs Hat Hk Hl Hn Hv Hv1. pose proof (bytes_of_string_ok v) as Hb. unfold all_in in Hv.
  rewrite bytes_of_string_app. change (bytes_of_string CRLF) with ([13] ++ [10]).
  assert (∃ cs1, cs1 ∈ Values ∧ run cs p (bytes_of_string v) s cs1 (set_mark p s)) as (cs1 & Hc1 & R1).
  { destruct (bytes_of_string v) as [|c l]; [done|]. apply Forall_cons in Hb as [Hb1 Hb2]. cbn [forallb] in Hv. apply andb_true_iff in Hv as [_ Hv].
    destruct (run_set _ _ _ _ cs p c s (set_mark p s) value_step Hcs Hb1 Hv1) as (cs1 & Hc1 & R1); [done|].
    destruct (runs_set_loop state act Values value_char cs1 (p + zlen [c]) l (set_mark p s)) as (cs2 & Hc2 & R2); [exact value_loop|done|done| |].
    { rewrite forallb_forall in Hv. apply Forall_forall. intros x Hx. by apply Hv, list_elem_of_In. }
    exists cs2. split; [done|]. by apply (runs_app _ _ cs p [c] s cs1 _ _ _ _ R1). }
  assert (∀ n, act write_value (p + size v) (set_content_len n (set_mark p s)) = Ret false (put (setHeader k v) (set_content_len n (set_mark p s)))) as Hw.
  { intros n. by apply act_header. }
  assert (∃ cs2 s', (s' = set_mark p s ∨ ∃ n, s' = set_content_len n (set_mark p s)) ∧ cs2 ∈ [24; 88] ∧ run cs1 (p + size v) [13] (set_mark p s) cs2 (put (setHeader k v) s')) as (cs2 & s' & Hs' & Hc2 & R2).
  { destruct (decide (cs1 = 119)) as [->|H119].
    - set (n := i32 (strtol 10 (PTR_TO mem p))). destruct (run_set _ _ _ _ 119 (p + size v) 13 (set_mark p s) (put (setHeader k v) (set_content_len n (set_mark p s))) end_step_length) as (cs2 & Hc2 & R2); [by left|done|done| |].
      { assert (act write_content_len (p + size v) (set_mark p s) = Ret false (set_content_len n (set_mark p s))) as Ew by done.
        unfold run_actions. rewrite (bind_Ret _ _ _ _ _ Ew), (bind_Ret _ _ _ _ _ (Hw n)). done. }
      exists cs2. eexists. split; [right; by exists n|]. done.
    - destruct (run_set _ _ _ _ cs1 (p + size v) 13 (set_mark p s) (put (setHeader k v) (set_mark p s)) end_step) as (cs2 & Hc2 & R2); [|done|done| |].
      { unfold Values in Hc1. apply elem_of_cons in Hc1 as [->|[?|?]%elem_of_cons]; [by left|done|by right]. }
      { unfold run_actions. rewrite (bind_Ret _ _ _ _ _ (act_header (set_mark p s) (p + size v) k v Hk Hl Hn Hat eq_refl)). done. }
      exists cs2. eexists. split; [by left|]. done. }
  destruct (run_set _ _ _ _ cs2 (p + size v + 1) 10 (put (setHeader k v) s') (put (setHeader k v) s') break_step Hc2) as (cs3 & Hc3 & R3); [done|done|done|].
  exists cs3, s'. split_and!; [done| |done].
  apply (runs_app _ _ cs p _ s cs1 _ _ _ _ R1). rewrite size_bytes. by apply (runs_app _ _ cs1 _ [13] _ cs2 _ _ _ _ R2).
Qed.
End segments.
