(* ===== verification/HttpResponseRoundtrip.v ===== *)
(** * HttpResponseRoundtrip: parsing what [HttpResponse::dump] prints, and the heads of chunks *)
From S2P Require Import Prelude CLib Words Decimal OrderedSet Ragel HttpClientStates HttpClientParser Http HttpFacts HttpLines HttpResponse HttpResponseParser HttpResponseSegments.

Section message.
Variables (mem : list Z) (pe : Z).
Hypothesis Hmem : zlen mem < string_max_size.
Implicit Types (s : HttpResponseParser) (p : Z) (w : string).
#[local] Abbreviation state := (λ _ : HttpResponseParser, block).
#[local] Abbreviation act := (do_action (response_callbacks mem) mem pe).
#[local] Abbreviation run := (runs state act).
#[local] Abbreviation seg := (seg mem pe false).
#[local] Abbreviation at_mem := (at_mem mem).

(** ** Header lines *)
Lemma response_seg_line p s kv : response_line_ok kv = true → seg Lines p (line kv) s Lines (setHeader kv.1 kv.2).
Proof using Hmem.
  destruct kv as [k v]. unfold response_line_ok, line. cbn [fst snd]. rewrite !andb_true_iff, negb_true_iff, Z.eqb_neq.
  intros [[[Hk Hte] Hv] Hv1] cs Hcs Hat Hm Hf Hl. replace (k +:+ ": " +:+ v +:+ CRLF) with ((k +:+ ": ") +:+ v +:+ CRLF) in * by (by rewrite <- string_app_assoc).
  apply at_mem_app in Hat as [Hak Hat]. apply at_mem_app in Hat as [Hav _]. apply at_mem_app in Hak as [Hak _].
  rewrite size_app in Hav. change (size ": ") with 2 in Hav.
  pose proof (size_nonneg k) as Hk0. pose proof (size_nonneg v) as Hv0. pose proof (at_mem_bound _ _ Hak) as [Hp0 _].
  assert (size k ≠ 0) as Hkn.
  { unfold name_ok in Hk. apply andb_true_iff in Hk as [Hk%negb_true_iff%String.eqb_neq _]. intros E. apply Hk. by destruct k. }
  destruct (name_colon_runs mem pe Hmem cs p s k Hcs Hak Hk Hte) as (cs1 & s1 & Hc1 & R1 & s0 & H0 & ->).
  set (s1 := set_mark _ _) in *.
  destruct (value_runs mem pe Hmem cs1 (p + size k + 2) s1 k v Hc1) as (cs2 & s2 & Hc2 & R2 & E2); try done.
  { by replace (p + size k + 2) with (p + (size k + 2)) by lia. }
  exists cs2, (put (setHeader k v) s2). split; [done|]. rewrite bytes_of_string_app. split; [|split].
  - apply (runs_app _ _ cs p _ s cs1 s1); [done|]. rewrite size_bytes, size_app. change (size ": ") with 2. by replace (p + (size k + 2)) with (p + size k + 2) by lia.
  - rewrite !size_app. change (size ": ") with 2. change (size CRLF) with 2.
    destruct E2 as [-> | [n ->]]; destruct H0 as [-> | ->]; constructor; simpl; try done; lia.
  - destruct E2 as [-> | [n ->]]; destruct H0 as [-> | ->]; done.
Qed.

Lemma response_seg_lines p s kvs : Forall (λ kv, response_line_ok kv = true) kvs →
  seg Lines p (foldr (λ kv w, line kv +:+ w) "" kvs) s Lines (λ r, foldl (λ r kv, setHeader kv.1 kv.2 r) r kvs).
Proof using Hmem.
  intros H. revert p s. induction H as [|kv kvs Hkv H IH]; intros p s.
  - intros cs Hcs Hat Hm Hf Hl. exists cs, s. split; [done|]. split; [apply runs_nil|]. split; [|done].
    change (size _) with 0. by constructor; rewrite ?Z.add_0_r.
  - apply (response_seg_app mem pe Hmem false false Lines p (line kv) s Lines (setHeader kv.1 kv.2) _ Lines
      (λ r, foldl (λ r kv, setHeader kv.1 kv.2 r) r kvs)); [by apply response_seg_line|]. intros s1. apply IH.
Qed.

(** ** The status line *)
Definition version_ok (v : Z) : bool := (v =? 17) || (v =? 16).
Definition reason_char (c : Z) : bool := negb (c =? 10) && negb (c =? 13).
Definition reason_ok (w : string) : bool := negb (String.eqb w "") && all_in reason_char w.

Lemma step_runs cs class acts cs' p c s s' : class_goes block cs class (acts, cs') = true → is_byte c → class c = true → cs' ≠ 0 →
  run_actions act acts p s = Ret false s' → run cs p [c] s cs' s'.
Proof using. intros H. apply (runs_step state act). exact H. Qed.
(** A word whose first character enters a loop. *)
Lemma word_runs cs cs' class acts p w s s' : class_goes block cs class (acts, cs') = true → class_goes block cs' class (st cs') = true → cs' ≠ 0 →
  w ≠ ""%string → all_in class w = true → run_actions act acts p s = Ret false s' → run cs p (bytes_of_string w) s cs' s'.
Proof using.
  intros H1 H2 Hn Hne Hw Ha. pose proof (bytes_of_string_ok w) as Hb. unfold all_in in Hw.
  destruct (bytes_of_string w) as [|c l] eqn:E; [by destruct w|]. apply Forall_cons in Hb as [Hb1 Hb2]. cbn [forallb] in Hw. apply andb_true_iff in Hw as [Hc Hw].
  apply (runs_app _ _ cs p [c] s cs' s'); [by eapply step_runs|].
  apply (runs_class _ _ cs' _ l s' class); [done|done|done|]. rewrite forallb_forall in Hw. apply Forall_forall. intros x Hx. by apply Hw, list_elem_of_In.
Qed.

(** The line that announces chunks. *)
Definition encoding_line : string * string := ("Transfer-Encoding"%string, "chunked"%string).
Lemma seg_encoding p s : HttpResponseSegments.seg mem pe true Lines p (line encoding_line) s Lines (setHeader encoding_line.1 encoding_line.2).
Proof using Hmem.
  unfold encoding_line, line. cbn [fst snd]. intros cs Hcs Hat Hm Hf Hl. set (k := "Transfer-Encoding"%string) in *. set (v := "chunked"%string) in *.
  replace (k +:+ ": " +:+ v +:+ CRLF) with ((k +:+ ": ") +:+ v +:+ CRLF) in * by (by rewrite <- string_app_assoc).
  apply at_mem_app in Hat as [Hak Hat]. apply at_mem_app in Hat as [Hav _]. apply at_mem_app in Hak as [Hak _].
  change (size (k +:+ ": ")) with 19 in Hav. pose proof (at_mem_bound _ _ Hak) as [Hp0 _].
  assert (∃ s0, (s0 = s ∨ s0 = set_close 1 s) ∧ run cs p [84] s 44 (set_field_start p s0)) as (s0 & H0 & R1).
  { apply elem_of_cons in Hcs as [-> | ->%list_elem_of_singleton].
    - exists s. split; [by left|]. apply (step_runs 20 (Z.eqb 84) [start_field] 44); [by vm_compute|done|done|done|done].
    - exists (set_close 1 s). split; [by right|]. apply (step_runs 43 (Z.eqb 84) [write_connection_close; start_field] 44); [by vm_compute|done|done|done|done]. }
  set (s1 := set_field_len 17 (set_field_start p s0)). set (s2 := set_mark (p + 19) s1). set (s3 := put (setHeader k v) s2).
  exists 20, (set_chunked 1 s3). split; [by left|]. change (size ((k +:+ ": ") +:+ v +:+ CRLF)) with 28.
  split; [|split; [destruct H0 as [-> | ->]; constructor; simpl; try done; lia|destruct H0 as [-> | ->]; done]].
  assert (bytes_of_string ((k +:+ ": ") +:+ v +:+ CRLF) = [84] ++ bytes_of_string "ransfer-Encoding" ++ [58] ++ [32] ++ [99] ++ bytes_of_string "hunked" ++ [13] ++ [10]) as -> by (by vm_compute).
  apply (runs_app _ _ cs p [84] s 44 (set_field_start p s0)); [exact R1|]. apply (runs_app _ _ 44 _ _ _ 60 (set_field_start p s0)); [apply runs_walk; by vm_compute|].
  change (zlen [84]) with 1. change (zlen (bytes_of_string "ransfer-Encoding")) with 16. replace (p + 1 + 16) with (p + 17) by lia.
  apply (runs_app _ _ 60 (p + 17) [58] _ 61 s1).
  { apply (step_runs 60 (Z.eqb 58) [write_field] 61); [by vm_compute|done|done|done|].
    assert (LEN p (p + 17) = 17) as El by (by rewrite (LEN_word mem Hmem p k (p + 17) Hak)).
    unfold run_actions, do_action. step_monad. unfold bind. simpl. by rewrite El. }
  change (zlen [58]) with 1. apply (runs_app _ _ 61 (p + 17 + 1) [32] s1 61 (set_mark (p + 17 + 1) s1)).
  { apply (step_runs 61 (Z.eqb 32) [start_value] 61); [by vm_compute|done|done|done|done]. }
  change (zlen [32]) with 1. replace (p + 17 + 1 + 1) with (p + 19) by lia. apply (runs_app _ _ 61 (p + 19) [99] _ 81 s2).
  { apply (step_runs 61 (Z.eqb 99) [start_value] 81); [by vm_compute|done|done|done|done]. }
  apply (runs_app _ _ 81 _ _ s2 87 s2); [apply runs_walk; by vm_compute|].
  change (zlen [99]) with 1. change (zlen (bytes_of_string "hunked")) with 6. replace (p + 19 + 1 + 6) with (p + 26) by lia.
  apply (runs_app _ _ 87 (p + 26) [13] s2 71 s3).
  { apply (step_runs 87 (Z.eqb 13) [write_value] 71); [by vm_compute|done|done|done|].
    unfold run_actions. rewrite (bind_Ret _ _ _ _ _ (act_header mem pe Hmem s2 (p + 26) k v Hak eq_refl ltac:(done) Hav ltac:(change (p_mark s2) with (p + 19); change (size v) with 7; lia))). done. }
  apply (step_runs 71 (Z.eqb 10) [trans_chunked] 20); [by vm_compute|done|done|done|done].
Qed.

Lemma response_seg_version p s v : version_ok v = true → seg [1] p (dump_version v +:+ " ") s [16] (setVersion v).
Proof using Hmem.
  intros Hv cs ->%list_elem_of_singleton Hat Hm Hf Hl. apply at_mem_app in Hat as [Hat _].
  assert (size (dump_version v) = 8 ∧ size (dump_version v +:+ " ") = 9) as [Hs8 Hs9].
  { unfold version_ok in Hv. apply orb_true_iff in Hv as [->%Z.eqb_eq | ->%Z.eqb_eq]; split; reflexivity. }
  exists 16, (put (setVersion v) (set_mark p s)). rewrite Hs9. split; [by left|]. split; [|split; [|done]].
  - rewrite bytes_of_string_app. apply (runs_app _ _ 1 p _ s 15 (set_mark p s)).
    + assert (∃ l, bytes_of_string (dump_version v) = 72 :: l ∧ walk block 8 l = Some 15) as (l & -> & W).
      { unfold version_ok in Hv. apply orb_true_iff in Hv as [->%Z.eqb_eq | ->%Z.eqb_eq];
          eexists; (split; [vm_compute; reflexivity|vm_compute; reflexivity]). }
      apply (runs_app _ _ 1 p [72] s 8 (set_mark p s)); [|by apply runs_walk].
      apply (step_runs 1 (Z.eqb 72) [mark] 8); [by vm_compute|done|done|done|done].
    + rewrite size_bytes, Hs8. apply (step_runs 15 (Z.eqb 32) [http_version] 16); [by vm_compute|done|done|done|].
      unfold run_actions, do_action. step_monad. unfold call, on_data, bind. simpl.
      rewrite <- Hs8, (LEN_word mem Hmem _ _ _ Hat eq_refl), Hs8. unfold on_response_version.
      destruct (from_word mem Hmem p _ Hat) as [post ->].
      unfold version_ok in Hv. by apply orb_true_iff in Hv as [->%Z.eqb_eq | ->%Z.eqb_eq].
  - constructor; simpl; try done; lia.
Qed.

Lemma atoi_dec n l : 0 ≤ n < 2 ^ 31 → stops 10 l → atoi (bytes_of_string (dec n) ++ l) = n.
Proof using.
  intros Hn Hl. rewrite <- (atoi_pretty n l) at 2 by done. unfold dec. by replace (pretty n) with (pretty (Z.to_N n)) by (destruct n; [done|done|lia]).
Qed.
Lemma seg_status p s n : 0 ≤ n < 2 ^ 31 → seg [16] p (dec n +:+ " ") s [18] (setStatus n).
Proof using Hmem.
  intros Hn cs ->%list_elem_of_singleton Hat Hm Hf Hl. destruct (from_word mem Hmem p _ Hat) as [post Epost]. apply at_mem_app in Hat as [Hat _].
  destruct (pretty_N_digits (Z.to_N n)) as [Hd Hne]. fold (dec n) in Hd, Hne. pose proof (size_nonneg (dec n)) as Hs0.
  eexists 18, _. split; [by left|]. split; [|split].
  - rewrite bytes_of_string_app. apply (runs_app _ _ 16 p _ s 17 (set_mark p s)).
    + apply (word_runs 16 17 (between 48 57) [mark]); [by vm_compute|by vm_compute|done|done|done|done].
    + rewrite size_bytes. apply (step_runs 17 (Z.eqb 32) [status_code] 18); [by vm_compute|done|done|done|].
      unfold run_actions, do_action. step_monad. unfold call, on_data, bind. simpl. unfold on_response_status.
      rewrite Epost, bytes_of_string_app, <- app_assoc, atoi_dec by done. reflexivity.
  - rewrite size_app. change (size " ") with 1. constructor; simpl; try done; lia.
  - done.
Qed.
Lemma seg_reason p s w : reason_ok w = true → seg [18] p (w +:+ CRLF) s Lines (setReason w).
Proof using Hmem.
  unfold reason_ok. rewrite andb_true_iff, negb_true_iff, String.eqb_neq. intros [Hne Hw] cs ->%list_elem_of_singleton Hat Hm Hf Hl.
  apply at_mem_app in Hat as [Hat _]. pose proof (size_nonneg w).
  exists 20, (put (setReason w) (set_mark p s)). split; [by left|]. split; [|split; [|done]].
  - rewrite bytes_of_string_app. change (bytes_of_string CRLF) with ([13] ++ [10]).
    apply (runs_app _ _ 18 p _ s 19 (set_mark p s)).
    { apply (word_runs 18 19 reason_char [mark]); [by vm_compute|by vm_compute|done|done|done|done]. }
    rewrite size_bytes. apply (runs_app _ _ 19 _ [13] _ 24 (put (setReason w) (set_mark p s))); [|by apply runs_walk].
    apply (step_runs 19 (Z.eqb 13) [reason_phrase] 24); [by vm_compute|done|done|done|].
    unfold run_actions. by rewrite (bind_Ret _ _ _ _ _ (act_reason mem pe Hmem (set_mark p s) (p + size w) w Hat eq_refl)).
  - rewrite size_app. change (size CRLF) with 2. constructor; simpl; try done; lia.
Qed.

(** The empty line. *)
Lemma blank_breaks cs p s rest : cs ∈ Lines → p_mark s ≤ p → field_start s ≤ p → field_len s ≤ p → 0 ≤ p → p + 2 < 2 ^ 63 →
  ∃ s', exec_loop state act ([13; 10] ++ rest) cs p s = Ret (120, p + 2) s'
  ∧ keeps false (p + 1) s (set_body_start (body_start s) s') ∧ body_start s' = p + 2 ∧ m_data (data s') = m_data (data s).
Proof using Hmem.
  intros Hcs Hm Hf Hl Hp0 Hp. change ([13; 10] ++ rest) with ([13] ++ 10 :: rest).
  assert (∃ s1, run cs p [13] s 3 s1 ∧ (s1 = s ∨ s1 = set_close 1 s)) as (s1 & R & E1).
  { apply elem_of_cons in Hcs as [-> | ->%list_elem_of_singleton].
    - exists s. split; [|by left]. apply (step_runs 20 (Z.eqb 13) [] 3); [by vm_compute|done|done|done|done].
    - exists (set_close 1 s). split; [|by right]. apply (step_runs 43 (Z.eqb 13) [write_connection_close] 3); [by vm_compute|done|done|done|done]. }
  exists (set_body_start (p + 2) s1). rewrite R. split; [|destruct E1 as [-> | ->]; (split; [constructor; simpl; try done; lia|done])].
  rewrite (exec_loop_break state act 3 (p + zlen [13]) 10 rest s1 st_3 [done] 120 (set_body_start (p + 2) s1)); [|done|by vm_compute|done|].
  - change (zlen [13]) with 1. by replace (p + 1 + 1) with (p + 2) by lia.
  - change (zlen [13]) with 1. unfold run_actions, do_action. step_monad. unfold bind. replace (p + 1 + 1) with (p + 2) by lia.
    rewrite (uwrap_small 64 (p + 2)) by (unfold is_u; lia). destruct E1 as [-> | ->]; by destruct s as [? ? ? ? ? ? ? ? ? ? ? []].
Qed.
End message.

(** ** The whole message *)
Definition lines (r : HttpResponse) : list (string * string) :=
  (other_lines (m_headers r) ++ [connection_line (m_close r)]) ++ length_line (m_body r).
Definition reason_text (r : HttpResponse) : string := if String.eqb (m_reason r) "" then HttpStatusToString (m_status r) else m_reason r.
(** The text of a head with the header lines [kvs], up to their end; with [te]
    the body is announced as chunks. *)
Definition head_of (r : HttpResponse) (kvs : list (string * string)) (te : bool) : string :=
  (dump_version (m_version r) +:+ " ") +:+ (dec (u32 (m_status r)) +:+ " ") +:+ (reason_text r +:+ CRLF)
  +:+ foldr (λ kv w, line kv +:+ w) "" kvs +:+ (if te then line encoding_line else "").
Definition head_text (r : HttpResponse) : string := head_of r (lines r) false.

Lemma response_dump_split r : dump r = head_text r +:+ CRLF +:+ m_body r.
Proof.
  unfold dump, head_text, head_of. rewrite string_app_nil_r. unfold lines, connection_line, length_line, reason_text. rewrite !foldr_app_string, dump_headers_lines. csimpl.
  assert (dump_body (m_body r)
    = foldr (λ kv w, line kv +:+ w) "" (if String.eqb (m_body r) "" then [] else [("content-length"%string, dec (size (m_body r)))])
      +:+ CRLF +:+ m_body r) as ->.
  { unfold dump_body. destruct (String.eqb_spec (m_body r) "") as [->|]; [done|]. csimpl. unfold line; simpl.
    by rewrite string_app_nil_r, <- !string_app_assoc. }
  unfold dump_connection, line; simpl. rewrite <- !string_app_assoc. destruct (m_close r); by rewrite <- ?string_app_assoc.
Qed.

(** The response that the parser builds. *)
Definition parsed_of (r : HttpResponse) (kvs : list (string * string)) (te : bool) : HttpResponse :=
  let m := foldl (λ m kv, assign m kv.1 kv.2) [] kvs in
  mkHttpResponse (m_status r) (m_version r) true "" (reason_text r) (if te then assign m encoding_line.1 encoding_line.2 else m).
Definition parsed (r : HttpResponse) : HttpResponse := parsed_of r (lines r) false.

(** Responses whose text the grammar covers, and whose length is their body's. *)
Record dumpable (r : HttpResponse) : Prop := {
  ok_status : 0 ≤ m_status r < 2 ^ 31;
  ok_version : version_ok (m_version r) = true;
  ok_reason : reason_ok (reason_text r) = true;
  ok_headers : Forall (λ kv, response_line_ok kv = true) (m_headers r);
  ok_size : size (dump r) < 2 ^ 31
}.

(** Heads whose text the grammar covers. *)
Record head_ok (r : HttpResponse) (kvs : list (string * string)) : Prop := {
  head_status : 0 ≤ m_status r < 2 ^ 31;
  head_version : version_ok (m_version r) = true;
  head_reason : reason_ok (reason_text r) = true;
  head_lines : Forall (λ kv, response_line_ok kv = true) kvs
}.

Lemma length_value_ok n : response_line_ok ("content-length"%string, dec n) = true.
Proof.
  unfold response_line_ok. cbn [fst snd]. pose proof (dec_value_ok n) as Hv. unfold value_ok in Hv. apply andb_true_iff in Hv as [-> _].
  destruct (pretty_N_digits (Z.to_N n)) as [Hd Hne]. fold (dec n) in Hd, Hne. unfold all_in in Hd.
  destruct (bytes_of_string (dec n)) as [|c l] eqn:E; [by destruct (dec n)|]. cbn [forallb] in Hd. apply andb_true_iff in Hd as [Hc _].
  rewrite !andb_true_iff. split_and!; try done. unfold between in Hc. apply andb_true_iff in Hc as [?%Z.leb_le ?%Z.leb_le].
  assert (forallb value_begin (seqZ 48 10) = true) as Hall by by vm_compute. rewrite forallb_forall in Hall.
  apply Hall, list_elem_of_In, elem_of_seqZ. lia.
Qed.
Lemma response_lines_ok r : dumpable r → Forall (λ kv, response_line_ok kv = true) (lines r).
Proof.
  intros H. unfold lines. rewrite !Forall_app. split_and!.
  - pose proof (ok_headers r H) as Hh. rewrite Forall_forall in Hh |- *. intros kv Hin. apply Hh. by apply other_lines_In in Hin as [? _].
  - constructor; [by destruct (m_close r)|constructor].
  - unfold length_line. destruct (String.eqb (m_body r) ""); constructor; [apply length_value_ok|constructor].
Qed.
Lemma dumpable_head r : dumpable r → head_ok r (lines r).
Proof. intros H. constructor; [apply H..|by apply response_lines_ok]. Qed.
Lemma response_setHeader_fold kvs r :
  foldl (λ r kv, setHeader kv.1 kv.2 r) r kvs = setHeaders (foldl (λ m kv, assign m kv.1 kv.2) (m_headers r) kvs) r.
Proof. revert r. induction kvs as [|kv kvs IH]; intros r; [by destruct r|]. csimpl. by rewrite IH. Qed.

Section parse.
Variables (r : HttpResponse) (kvs : list (string * string)) (te : bool) (status0 : Z) (rest : string) (len : Z).
Hypothesis H : head_ok r kvs.
#[local] Abbreviation mem := (bytes_of_string (head_of r kvs te +:+ CRLF +:+ rest)).
#[local] Abbreviation head := (size (head_of r kvs te) + 2).
Hypothesis Hmem : zlen mem < string_max_size.
Hypothesis Hlen : head ≤ len ∧ len < 2 ^ 31.
Hypothesis Hend : mem !! Z.to_nat len = Some 0.
#[local] Abbreviation act := (do_action (response_callbacks mem) mem len).
#[local] Abbreviation run := (runs (λ _ : HttpResponseParser, block) act).

Lemma len_in_mem : len < zlen mem.
Proof using Hlen Hend. apply lookup_lt_Some in Hend. pose proof (size_nonneg (head_of r kvs te)). unfold zlen. lia. Qed.
Lemma at_mem_response : at_mem mem 0 (head_of r kvs te).
Proof using. exists [], (bytes_of_string (CRLF +:+ rest)). split; [|done]. by rewrite bytes_of_string_app at 1. Qed.

(** The head of the message, from a parser in its initial marks. *)
Lemma response_head_run s : p_mark s ≤ 0 → field_start s ≤ 0 → field_len s ≤ 0 → m_data (data s) = HttpResponse_new 17 true →
  ∃ cs s', cs ∈ Lines ∧ run 1 0 (bytes_of_string (head_of r kvs te)) s cs s' ∧ keeps te (size (head_of r kvs te)) s s' ∧ m_data (data s') = parsed_of r kvs te.
Proof using H Hmem Hlen Hend.
  intros Hm Hf Hl Hd. pose proof (head_status r kvs H) as Hst. assert (u32 (m_status r) = m_status r) as Eu by (apply uwrap_small; unfold is_u; lia).
  assert (seg mem len te [1] 0 (head_of r kvs te) s Lines (λ r0, (if te then setHeader encoding_line.1 encoding_line.2 else id)
    (foldl (λ r kv, setHeader kv.1 kv.2 r) (setReason (reason_text r) (setStatus (m_status r) (setVersion (m_version r) r0))) kvs))) as Hs.
  { unfold head_of at 2. rewrite Eu.
    apply (response_seg_app mem len Hmem false te [1] 0 _ s [16] (setVersion (m_version r)) _ Lines (λ r0, (if te then setHeader encoding_line.1 encoding_line.2 else id)
      (foldl (λ r kv, setHeader kv.1 kv.2 r) (setReason (reason_text r) (setStatus (m_status r) r0)) kvs))); [apply response_seg_version; done || apply H|]. intros s1.
    apply (response_seg_app mem len Hmem false te [16] _ _ s1 [18] (setStatus (m_status r)) _ Lines (λ r0, (if te then setHeader encoding_line.1 encoding_line.2 else id)
      (foldl (λ r kv, setHeader kv.1 kv.2 r) (setReason (reason_text r) r0) kvs))); [by apply seg_status|]. intros s2.
    apply (response_seg_app mem len Hmem false te [18] _ _ s2 Lines (setReason (reason_text r)) _ Lines (λ r0, (if te then setHeader encoding_line.1 encoding_line.2 else id)
      (foldl (λ r kv, setHeader kv.1 kv.2 r) r0 kvs))); [apply seg_reason; done || apply H|]. intros s3.
    apply (response_seg_app mem len Hmem false te Lines _ _ s3 Lines (λ r0, foldl (λ r kv, setHeader kv.1 kv.2 r) r0 kvs) _ Lines (if te then setHeader encoding_line.1 encoding_line.2 else id));
      [apply response_seg_lines; [done|apply H]|]. intros s4. destruct te; [by apply seg_encoding|].
    intros cs Hcs _ Hm4 Hf4 Hl4. exists cs, s4. split; [done|]. split; [apply runs_nil|]. split; [constructor; change (size "") with 0; done || lia|done]. }
  destruct (Hs 1 ltac:(by left) at_mem_response Hm Hf Hl) as (cs & s' & Hcs & R & K & D). exists cs, s'. split; [done|]. split; [exact R|]. split; [exact K|].
  rewrite D, Hd, response_setHeader_fold. by destruct te.
Qed.

(** The head is consumed, and what was read behind it moved to the front. *)
Lemma execute_response : ∃ mem' s',
  execute mem len false (HttpResponseParser_new status0) = Ret (head, mem') s'
  ∧ isFinished s' = 1 ∧ hasError s' = false ∧ getData s' = parsed_of r kvs te ∧ chunked s' = (if te then 1 else 0) ∧ zlen mem' = zlen mem
  ∧ take (Z.to_nat (len - head)) mem' = take (Z.to_nat (len - head)) (bytes_of_string rest).
Proof using All.
  pose proof (size_nonneg (head_of r kvs te)) as Hh. set (s0 := HttpResponseParser_new status0). pose proof len_in_mem as Hin. unfold string_max_size in Hmem.
  destruct (response_head_run s0) as (cs1 & s1 & Hcs & R & K & D); [done..|]. set (p := size (head_of r kvs te)) in *. destruct K as [Kcs Kb Kn Kch Ke Km Kf Kl].
  assert (slice mem 0 (Z.to_nat len) = bytes_of_string (head_of r kvs te) ++ [13; 10] ++ take (Z.to_nat (len - head)) (bytes_of_string rest)) as El.
  { rewrite !bytes_of_string_app. unfold slice. pose proof (size_bytes (head_of r kvs te)) as Hz. unfold zlen in Hz.
    rewrite drop_0, take_app, take_ge by (unfold p in *; lia). f_equal. change (bytes_of_string CRLF) with [13; 10].
    assert (Z.to_nat len - length (bytes_of_string (head_of r kvs te)) = S (S (Z.to_nat (len - head))))%nat as -> by (unfold p in *; lia). done. }
  destruct (blank_breaks mem len Hmem cs1 p s1 (take (Z.to_nat (len - head)) (bytes_of_string rest)) Hcs) as (s2 & E & K2 & B & D2); try (unfold p in *; lia).
  destruct K2 as [K2cs K2b K2n K2ch K2e K2m K2f K2l]. simpl in K2cs, K2n, K2ch, K2e, K2m, K2f, K2l.
  assert (httpclient_parser_execute (response_callbacks mem) mem len 0 s0 = Ret (p + 2) (set_nread (p + 2) (set_cs 120 s2))) as Ex.
  { unfold httpclient_parser_execute. step_monad. change (set_field_start 0 (set_field_len 0 (set_mark 0 (set_nread 0 s0)))) with s0. change (cs s0) with 1.
    rewrite (proj2 (Z.leb_le 0 len)) by (unfold p in *; lia). unfold assert at 1. rewrite bind_ret, Hend. cbn [Z.eqb]. unfold assert at 1. rewrite bind_ret.
    rewrite (swrap_small 32 len), (swrap_small 32 0) by (unfold is_s, p in *; lia). rewrite Z.eqb_refl. unfold assert at 1. rewrite bind_ret, Z.sub_0_r. change (Z.to_nat 0) with 0%nat.
    unfold exec. rewrite El. rewrite (bind_Ret _ _ _ (120, p + 2) s2) by (rewrite R, size_bytes, Z.add_0_l; exact E).
    rewrite !bind_modify. step_monad. cbn [nread set_cs set_nread body_start p_mark field_len field_start]. rewrite K2n, Kn. change (nread s0) with 0. rewrite Z.sub_0_r.
    rewrite uwrap_small by (unfold is_u, p in *; lia).
    rewrite B, (proj2 (Z.leb_le (p + 2) len)) by (unfold p in *; lia). unfold assert. rewrite !bind_ret.
    rewrite (proj2 (Z.ltb_lt (p_mark s2) len)), (proj2 (Z.leb_le (field_len s2) len)), (proj2 (Z.ltb_lt (field_start s2) len)) by (unfold p in *; lia).
    rewrite Z.add_0_l, (proj2 (Z.leb_le (p + 2) len)) by (unfold p in *; lia). cbn [andb]. unfold bind, ret. rewrite swrap_small by (unfold is_s, p in *; lia). reflexivity. }
  exists (splice mem 0 (slice mem (Z.to_nat (p + 2)) (Z.to_nat (len - (p + 2))))), (set_nread (p + 2) (set_cs 120 s2)).
  destruct (moved_to_front mem (Z.to_nat (p + 2)) (Z.to_nat (len - (p + 2)))) as (H1 & _ & H3); [unfold zlen, p in *; lia|].
  split_and!; [|done| | | |exact H3|].
  - unfold execute. rewrite bind_ret, (bind_Ret _ _ _ _ _ Ex), (uwrap_small 64 (p + 2)) by (unfold is_u, p in *; lia).
    rewrite (proj2 (Z.leb_le 0 _)), (proj2 (Z.leb_le (p + 2) len)), (proj2 (Z.leb_le len _)) by (unfold p in *; lia). done.
  - unfold hasError, httpclient_parser_has_error. simpl. rewrite K2e, Ke. done.
  - unfold getData. simpl. by rewrite D2, D.
  - simpl. rewrite K2ch, Kch. by destruct te.
  - unfold slice at 1 in H1. rewrite drop_0 in H1. unfold p in H1. change (len - head) with (len - (p + 2)). unfold p. rewrite H1. unfold slice. f_equal.
    assert (Z.to_nat head = length (bytes_of_string (head_of r kvs te +:+ CRLF))) as ->.
    { pose proof (size_bytes (head_of r kvs te +:+ CRLF)) as Hz. rewrite size_app in Hz. change (size CRLF) with 2 in Hz. unfold zlen, p in *. lia. }
    rewrite string_app_assoc, (bytes_of_string_app (head_of r kvs te +:+ CRLF)). apply drop_app_length.
Qed.
End parse.

(** ** The head of a chunk: its size in hexadecimal digits *)
Definition xdigit (c : Z) : bool := between 48 57 c || between 65 70 c || between 97 102 c.
Lemma xdigit_digit c : xdigit c = true → digit_of 16 c ≠ None.
Proof.
  unfold xdigit, between, digit_of. rewrite !orb_true_iff, !andb_true_iff, !Z.leb_le. intros Hc.
  destruct (Z.leb_spec 48 c), (Z.leb_spec c 57); cbn [andb]; [rewrite (proj2 (Z.ltb_lt _ 16)) by lia; done|..];
    destruct (Z.leb_spec 97 c), (Z.leb_spec c 122); cbn [andb]; try (rewrite (proj2 (Z.ltb_lt _ 16)) by lia; done);
    destruct (Z.leb_spec 65 c), (Z.leb_spec c 90); cbn [andb]; try (rewrite (proj2 (Z.ltb_lt _ 16)) by lia; done); lia.
Qed.
Lemma digits_value_ends acc l l' : forallb xdigit l = true → stops 16 l' → digits_value 16 acc (l ++ l') = digits_value 16 acc l.
Proof.
  intros Hl Hs. revert acc. induction l as [|c l IH]; intros acc; cbn [app]; [by rewrite digits_value_stops|].
  cbn [forallb] in Hl. apply andb_true_iff in Hl as [Hc Hl]. cbn [digits_value]. pose proof (xdigit_digit c Hc). destruct (digit_of 16 c); [by apply IH|done].
Qed.
Lemma strtol_16 w l' : w ≠ ""%string → all_in xdigit w = true →
  0 ≤ digits_value 16 0 (bytes_of_string w) < 2 ^ 63 → strtol 16 (bytes_of_string w ++ 13 :: l') = digits_value 16 0 (bytes_of_string w).
Proof.
  intros Hne Hw Hv. unfold all_in in Hw. pose proof (digits_value_ends 0 (bytes_of_string w) (13 :: l') Hw eq_refl) as He.
  destruct (bytes_of_string w) as [|c l] eqn:E; [by destruct w|]. cbn [forallb] in Hw. apply andb_true_iff in Hw as [Hc Hl].
  assert (c ≠ 45 ∧ c ≠ 43 ∧ isspace c = false) as (H1 & H2 & H3).
  { unfold xdigit, between in Hc. rewrite !orb_true_iff, !andb_true_iff, !Z.leb_le in Hc. split; [lia|]. split; [lia|].
    unfold isspace. rewrite (proj2 (Z.eqb_neq c 32)), (proj2 (Z.leb_gt c 13)) by lia. by rewrite andb_false_r. }
  assert (skip_0x 16 (c :: l ++ 13 :: l') = c :: l ++ 13 :: l') as Hx.
  { unfold skip_0x. destruct l as [|x l]; cbn [app].
    - destruct l' as [|d l']; [done|]. by rewrite !andb_false_r.
    - cbn [forallb] in Hl. apply andb_true_iff in Hl as [Hx _]. assert (x ≠ 120 ∧ x ≠ 88) as [Ha Hb].
      { unfold xdigit, between in Hx. rewrite !orb_true_iff, !andb_true_iff, !Z.leb_le in Hx. lia. }
      rewrite (proj2 (Z.eqb_neq x 120)), (proj2 (Z.eqb_neq x 88)) by done. destruct (l ++ 13 :: l'); [done|]. cbn [orb]. by rewrite andb_false_r. }
  unfold strtol. cbn [app skip_spaces]. rewrite H3, (proj2 (Z.eqb_neq c 45)), (proj2 (Z.eqb_neq c 43)) by done. rewrite Hx.
  cbn [app] in He. rewrite He. unfold clamp_long. lia.
Qed.

Section chunk.
Variables (w : string) (rest : list Z) (len : Z) (s : HttpResponseParser).
#[local] Abbreviation mem := (bytes_of_string w ++ [13; 10] ++ rest).
#[local] Abbreviation n := (digits_value 16 0 (bytes_of_string w)).
Hypothesis w_ok : w ≠ ""%string ∧ all_in xdigit w = true ∧ 0 ≤ n < 2 ^ 31.
Hypothesis Hmem : zlen mem < string_max_size.
Hypothesis Hlen : size w + 2 ≤ len < 2 ^ 31.
Hypothesis Hend : mem !! Z.to_nat len = Some 0.
Hypothesis no_error : m_error (data s) = 0.

Lemma execute_chunk : ∃ mem' s',
  execute mem len true s = Ret (size w + 2, mem') s'
  ∧ isFinished s' = 1 ∧ hasError s' = false ∧ data s' = data s ∧ content_len s' = n ∧ chunks_done s' = (if n <=? 0 then 1 else 0)
  ∧ zlen mem' = zlen mem ∧ take (Z.to_nat (len - (size w + 2))) mem' = take (Z.to_nat (len - (size w + 2))) rest.
Proof using All.
  destruct w_ok as (Hne & Hw & Hn). pose proof (size_nonneg w) as Hw0. pose proof (size_bytes w) as Hzw.
  assert (len < zlen mem) as Hin by (apply lookup_lt_Some in Hend; unfold zlen; lia). unfold string_max_size in Hmem.
  set (s0 := httpclient_parser_init s). set (p := size w) in *.
  set (s1 := set_chunks_done (if n <=? 0 then 1 else 0) (set_content_len n (set_chunked 1 s0))).
  assert (slice mem 0 (Z.to_nat len) = bytes_of_string w ++ [13] ++ 10 :: take (Z.to_nat (len - (p + 2))) rest) as El.
  { unfold slice. unfold zlen in Hzw. rewrite drop_0, take_app, take_ge by lia. f_equal.
    assert (Z.to_nat len - length (bytes_of_string w) = S (S (Z.to_nat (len - (p + 2)))))%nat as -> by lia. done. }
  assert (i32 (strtol 16 mem) = n) as Hst.
  { change ([13; 10] ++ rest) with (13 :: 10 :: rest). rewrite strtol_16 by (done || lia). apply swrap_small; [lia|]. unfold is_s. lia. }
  assert (do_action (response_callbacks mem) mem len chunk_size p s0 = Ret false s1) as Ea.
  { unfold do_action, PTR_TO. unfold bind at 1, gets, id. change (p_mark s0) with 0. change (Z.to_nat 0) with 0%nat. rewrite drop_0, Hst.
    unfold bind, modify, ret, s1. destruct (n <=? 0); by destruct s as [? ? ? ? ? ? ? ? ? ? ? []]. }
  assert (exec (response_callbacks mem) mem len (slice mem 0 (Z.to_nat len)) 1 0 s0 = Ret (120, p + 2) (set_body_start (p + 2) s1)) as E.
  { unfold exec. rewrite El. rewrite (word_runs mem len 1 2 xdigit [mark] 0 w s0 s0); [|by vm_compute|by vm_compute|done|done|done|done].
    rewrite Hzw, Z.add_0_l. rewrite (step_runs mem len 2 (Z.eqb 13) [chunk_size] 3 p 13 s0 s1); [|by vm_compute|done|done|done|].
    - change (zlen [13]) with 1. rewrite (exec_loop_break _ _ 3 (p + 1) 10 _ s1 st_3 [done] 120 (set_body_start (p + 2) s1)); [|done|by vm_compute|done|].
      + by replace (p + 1 + 1) with (p + 2) by lia.
      + unfold run_actions, do_action. step_monad. unfold bind. replace (p + 1 + 1) with (p + 2) by lia.
        rewrite (uwrap_small 64 (p + 2)) by (unfold is_u; lia). by destruct s as [? ? ? ? ? ? ? ? ? ? ? []].
    - unfold run_actions. by rewrite (bind_Ret _ _ _ _ _ Ea). }
  assert (httpclient_parser_execute (response_callbacks mem) mem len 0 s0 = Ret (p + 2) (set_nread (p + 2) (set_cs 120 (set_body_start (p + 2) s1)))) as Ex.
  { unfold httpclient_parser_execute. step_monad. change (set_field_start 0 (set_field_len 0 (set_mark 0 (set_nread 0 s0)))) with s0. change (cs s0) with 1.
    rewrite (proj2 (Z.leb_le 0 len)) by lia. unfold assert at 1. rewrite bind_ret, Hend. cbn [Z.eqb]. unfold assert at 1. rewrite bind_ret.
    rewrite (swrap_small 32 len), (swrap_small 32 0) by (unfold is_s; lia). rewrite Z.eqb_refl. unfold assert at 1. rewrite bind_ret, Z.sub_0_r. change (Z.to_nat 0) with 0%nat.
    rewrite (bind_Ret _ _ _ _ _ E). rewrite !bind_modify. step_monad. cbn [nread set_cs set_nread body_start set_body_start p_mark field_len field_start].
    change (nread s1) with 0. change (p_mark s1) with 0. change (field_len s1) with 0. change (field_start s1) with 0. rewrite Z.sub_0_r, Z.add_0_l.
    rewrite uwrap_small by (unfold is_u; lia). rewrite (proj2 (Z.leb_le (p + 2) len)), (proj2 (Z.ltb_lt 0 len)), (proj2 (Z.leb_le 0 len)) by lia.
    unfold assert, bind, ret. cbn [andb]. rewrite swrap_small by (unfold is_s; lia). reflexivity. }
  exists (splice mem 0 (slice mem (Z.to_nat (p + 2)) (Z.to_nat (len - (p + 2))))), (set_nread (p + 2) (set_cs 120 (set_body_start (p + 2) s1))).
  destruct (moved_to_front mem (Z.to_nat (p + 2)) (Z.to_nat (len - (p + 2)))) as (H1 & _ & H3); [unfold zlen in *; lia|].
  split_and!; try done.
  - unfold execute. rewrite bind_modify. fold s0. rewrite (bind_Ret _ _ _ _ _ Ex), (uwrap_small 64 (p + 2)) by (unfold is_u; lia).
    rewrite (proj2 (Z.leb_le 0 _)), (proj2 (Z.leb_le (p + 2) len)), (proj2 (Z.leb_le len _)) by lia. done.
  - unfold hasError, httpclient_parser_has_error. cbn. by rewrite no_error.
  - unfold slice at 1 in H1. rewrite drop_0 in H1. rewrite H1. unfold slice. f_equal. unfold zlen in Hzw.
    rewrite app_assoc. apply drop_app_length'. rewrite length_app. simpl. lia.
Qed.
End chunk.
