(* ===== verification/HttpClientSafe.v ===== *)
(** * HttpClientSafe: how far the response parser reads

    In the states that read a header's value twice, as any header and as one of
    [Content-Length], [Transfer-Encoding], [Connection], a line break after the
    colon starts the next header for one reading and not for the other.  Then
    [field_start] is the start of the value and [field_len] still the length of
    the name.  The facts of a state bound how far such a field goes. *)
From S2P Require Import Prelude Ragel HttpClientStates HttpClientParser.

(** Callbacks that succeed on every element of the input of [n] bytes and on
    every field within [n + slack] bytes. *)
Class SafeCallbacks {D} (n slack : Z) (cbs : callbacks D) : Prop := {
  safe_element : ∀ f a l d, Some f ∈ [cb_reason_phrase cbs; cb_status_code cbs; cb_chunk_size cbs; cb_http_version cbs;
      cb_header_done cbs; cb_last_chunk cbs] →
    0 ≤ a → 0 ≤ l → a + l ≤ n → ∃ d', f a l d = Ret tt d';
  safe_field : ∀ f a l b m d, cb_http_field cbs = Some f →
    0 ≤ a → 0 ≤ l → a + l ≤ n + slack → 0 ≤ b → 0 ≤ m → b + m ≤ n → ∃ d', f a l b m d = Ret tt d'
}.

(** What is known before a character: the distance of [field_start], a bound on
    [field_len], and how far beyond [p] the field may end. *)
Definition facts : Type := option Z * option Z * option Z.

(** The facts of the states 1, 2, ... *)
Definition facts_table : list facts := [
  (Some 0, Some 0, Some 0); (None, Some 0, Some 0); (None, None, Some 11); (None, None, Some 0);
  (None, None, None); (None, None, Some 0); (None, None, Some 0); (Some 1, Some 0, Some 0);
  (Some 2, Some 0, Some 0); (Some 3, Some 0, Some 0); (Some 4, Some 0, Some 0); (Some 5, Some 0, Some 0);
  (None, Some 0, Some 0); (None, Some 0, Some 0); (None, Some 0, Some 0); (None, Some 0, Some 0);
  (None, Some 0, Some 0); (None, Some 0, Some 0); (None, Some 0, Some 0); (None, None, Some 12);
  (None, None, None); (None, None, Some 0); (None, None, Some 0); (None, None, Some 12);
  (Some 1, None, None); (Some 2, None, None); (Some 3, None, None); (Some 4, None, None);
  (Some 5, None, None); (Some 6, None, None); (Some 7, None, None); (Some 8, None, None);
  (Some 9, None, None); (Some 10, None, None); (None, Some 10, Some 0); (None, Some 10, Some 0);
  (None, Some 10, Some 0); (None, Some 10, Some 0); (None, Some 10, Some 0); (None, Some 10, Some 0);
  (None, Some 10, Some 0); (None, Some 10, Some 0); (None, Some 10, Some 4); (Some 1, None, None);
  (Some 2, None, None); (Some 3, None, None); (Some 4, None, None); (Some 5, None, None);
  (Some 6, None, None); (Some 7, None, None); (Some 8, None, None); (Some 9, None, None);
  (Some 10, None, None); (Some 11, None, None); (Some 12, None, None); (Some 13, None, None);
  (Some 14, None, None); (Some 15, None, None); (Some 16, None, None); (Some 17, None, None);
  (None, Some 17, Some 0); (None, Some 17, Some 0); (None, Some 17, Some 0); (None, Some 17, Some 0);
  (None, Some 17, Some 0); (None, Some 17, Some 0); (None, Some 17, Some 0); (None, Some 17, Some 0);
  (None, Some 17, Some 0); (None, Some 17, Some 0); (None, Some 17, Some 9); (None, Some 17, Some 0);
  (Some 1, Some 17, Some 16); (Some 2, Some 17, Some 15); (Some 3, Some 17, Some 14);
  (Some 4, Some 17, Some 13); (Some 5, Some 17, Some 12); (Some 6, Some 17, Some 11);
  (Some 7, Some 17, Some 10); (None, Some 17, Some 0); (None, Some 17, Some 0); (None, Some 17, Some 0);
  (None, Some 17, Some 0); (None, Some 17, Some 0); (None, Some 17, Some 0); (None, Some 17, Some 0);
  (None, Some 17, Some 0); (None, Some 10, Some 4); (None, Some 10, Some 0); (Some 1, Some 10, Some 9);
  (Some 2, Some 10, Some 8); (Some 3, Some 10, Some 7); (Some 4, Some 10, Some 6); (Some 5, Some 10, Some 5);
  (None, Some 10, Some 0); (None, Some 10, Some 0); (None, Some 10, Some 0); (None, Some 10, Some 0);
  (None, Some 10, Some 0); (None, Some 10, Some 0); (Some 4, None, None); (Some 5, None, None);
  (Some 6, None, None); (Some 7, None, None); (Some 8, None, None); (Some 9, None, None);
  (Some 10, None, None); (Some 11, None, None); (Some 12, None, None); (Some 13, None, None);
  (Some 14, None, None); (None, Some 14, Some 0); (None, Some 14, Some 0); (None, Some 14, Some 0);
  (None, Some 14, Some 0); (None, Some 14, Some 0); (None, Some 14, Some 13); (None, Some 14, Some 0);
  (None, Some 14, Some 0); (None, None, Some 11); (None, Some 17, Some 0); (None, Some 10, Some 0);
  (None, Some 14, Some 0)].
Definition state_facts (cs : Z) : facts := default (None, None, None) (facts_table !! Z.to_nat (cs - 1)).

(** The bytes a field may end beyond the character that ends its value. *)
Definition slack : Z := 12.

Definition act_facts (a : action) (f : facts) : option facts :=
  match a, f with
  | start_field, (_, l, _) => Some (Some 0, l, l)
  | write_field, (d, _, _) => Some (d, d, Some 0)
  | write_value, (_, _, Some k) => if k <=? slack + 1 then Some f else None
  | write_value, _ => None
  | _, _ => Some f
  end.
Fixpoint acts_facts (acts : list action) (f : facts) : option facts :=
  match acts with
  | [] => Some f
  | a :: acts => match act_facts a f with Some f => acts_facts acts f | None => None end
  end.
Definition next_facts (f : facts) : facts :=
  let '(d, l, k) := f in (Z.add 1 <$> d, l, (λ k, Z.max (k - 1) 0) <$> k).
Definition bound_le (a b : option Z) : bool :=
  match a, b with _, None => true | Some x, Some y => x <=? y | None, Some _ => false end.
Definition fact_le (a b : facts) : bool :=
  let '(d1, l1, k1) := a in let '(d2, l2, k2) := b in
  (bool_decide (d2 = None) || bool_decide (d1 = d2)) && bound_le l1 l2 && bound_le k1 k2.
Definition edge_ok (cs : Z) (t : target action) : bool :=
  match acts_facts t.1 (state_facts cs) with
  | Some f => (t.2 =? 0) || (fact_le (next_facts f) (state_facts t.2) && (1 <=? t.2) && (t.2 <=? 123))
  | None => false
  end.

Lemma client_edges_checked : edges_ok block 123 edge_ok = true.
Proof. vm_compute. reflexivity. Qed.

Lemma client_assert_int {D} pe : 0 ≤ pe < 2 ^ 31 → @assert D (pe - 0 =? i32 pe - i32 0) = ret tt.
Proof.
  intros H. unfold assert. change (i32 0) with 0. rewrite swrap_small by (unfold is_s; lia).
  by rewrite Z.eqb_refl.
Qed.

Section safe.
Context {D : Type} (cbs : callbacks D) (mem : list Z) (pe : Z) `{Hcbs : !SafeCallbacks pe slack cbs}.
Hypothesis Hpe : 1 ≤ pe < 2 ^ 31.
#[local] Abbreviation run_actions := (run_actions (do_action cbs mem pe)).

(** The marks of a parser at [p]. *)
Record sem (f : facts) (p : Z) (s : httpclient_parser D) : Prop := {
  sem_mark : 0 ≤ p_mark s ≤ p ∧ p_mark s < pe;
  sem_field : 0 ≤ field_start s ≤ p ∧ field_start s < pe;
  sem_len : 0 ≤ field_len s ≤ p;
  sem_d : ∀ k, f.1.1 = Some k → p - field_start s = k;
  sem_l : ∀ k, f.1.2 = Some k → field_len s ≤ k;
  sem_k : ∀ k, f.2 = Some k → field_start s + field_len s ≤ p + k;
  sem_body : 0 ≤ body_start s ≤ pe;
  sem_nread : nread s = 0
}.

Lemma bound_le_spec a b k : bound_le a b = true → b = Some k → ∃ k', a = Some k' ∧ k' ≤ k.
Proof. intros H ->. destruct a as [x|]; [|done]. exists x. split; [done|]. by apply Z.leb_le. Qed.

Lemma client_sem_weaken f g p s : fact_le f g = true → sem f p s → sem g p s.
Proof.
  destruct f as [[d1 l1] k1], g as [[d2 l2] k2]. unfold fact_le.
  rewrite !andb_true_iff, orb_true_iff, !bool_decide_eq_true. intros [[Hd Hl] Hk] []; constructor; simpl in *; try done.
  - intros k ->. apply sem_d0. by destruct Hd.
  - intros k Hk2. destruct (bound_le_spec _ _ _ Hl Hk2) as (k' & E & ?). specialize (sem_l0 k' E). lia.
  - intros k Hk2. destruct (bound_le_spec _ _ _ Hk Hk2) as (k' & E & ?). specialize (sem_k0 k' E). lia.
Qed.
Lemma client_sem_next f p s : sem f p s → sem (next_facts f) (p + 1) s.
Proof.
  destruct f as [[d l] k]. intros []; constructor; simpl in *; try done; try lia.
  - destruct d as [d|]; [|done]. simpl. intros ? [= <-]. specialize (sem_d0 d eq_refl). lia.
  - destruct k as [k|]; [|done]. simpl. intros ? [= <-]. specialize (sem_k0 k eq_refl). lia.
Qed.
Lemma sem_same f p s s' : p_mark s' = p_mark s → field_start s' = field_start s → field_len s' = field_len s →
  body_start s' = body_start s → nread s' = nread s → sem f p s → sem f p s'.
Proof. intros E1 E2 E3 E4 E5 []; constructor; by rewrite ?E1, ?E2, ?E3, ?E4, ?E5. Qed.

Lemma client_call_element f p s (cb : option (element_cb D)) a l :
  cb ∈ [cb_reason_phrase cbs; cb_status_code cbs; cb_chunk_size cbs; cb_http_version cbs;
      cb_header_done cbs; cb_last_chunk cbs] →
  0 ≤ a → 0 ≤ l → a + l ≤ pe → sem f p s →
  ∃ s', call cb (λ g, g a l) s = Ret tt s' ∧ sem f p s'.
Proof.
  intros Hin Ha Hl Hal Hs. destruct cb as [g|]; [|by exists s]. unfold call, on_data.
  destruct (safe_element g a l (data s) Hin Ha Hl Hal) as [d' ->]. eexists. split; [done|]. by apply (sem_same f p s).
Qed.

(** The length of a mark. *)
Lemma client_LEN_range a p : 0 ≤ a ≤ p → p ≤ pe → LEN a p = p - a.
Proof. intros. unfold LEN. apply uwrap_small. unfold is_u in *. lia. Qed.

Lemma client_do_action_safe a f f' p s : act_facts a f = Some f' → 0 ≤ p < pe → sem f p s →
  ∃ b s', do_action cbs mem pe a p s = Ret b s' ∧ sem f' p s'.
Proof.
  destruct f as [[d l] k]. intros Ha Hp Hs. pose proof (sem_mark _ p s Hs) as Hmark.
  pose proof (sem_field _ p s Hs) as Hfield. pose proof (sem_len _ p s Hs) as Hlen.
  assert (∀ s1 cb, cb ∈ [cb_reason_phrase cbs; cb_status_code cbs; cb_chunk_size cbs; cb_http_version cbs;
      cb_header_done cbs; cb_last_chunk cbs] → sem (d, l, k) p s1 →
    f' = (d, l, k) → ∃ b s', (call cb (λ g, g (p_mark s) (LEN (p_mark s) p)) ;;; ret false) s1 = Ret b s' ∧ sem f' p s') as Hcall.
  { intros s1 cb Hin Hs1 ->. rewrite client_LEN_range by lia.
    destruct (client_call_element (d, l, k) p s1 cb (p_mark s) (p - p_mark s)) as (s' & E & Hs'); try done; try lia.
    exists false, s'. by rewrite (bind_Ret _ _ _ _ _ E). }
  destruct a; cbn [act_facts] in Ha; try (injection Ha as <-); unfold do_action; rewrite bind_gets; unfold id;
    try (apply Hcall; [by repeat constructor|done|done]);
    try (eexists false, _; split; [step_monad; done|]; destruct Hs; constructor; simpl in *; try done; lia).
  - (* start_field *)
    eexists false, _. split; [step_monad; done|]. destruct Hs; constructor; simpl in *; try done; try lia.
    + intros k' [= <-]. lia.
    + intros k' Hk'. specialize (sem_l0 k' Hk'). lia.
  - (* write_field *)
    rewrite client_LEN_range by lia. eexists false, _. split; [step_monad; done|].
    destruct Hs; constructor; simpl in *; try done; try lia.
    + intros k' Hk'. specialize (sem_d0 k' Hk'). lia.
    + intros k' [= <-]. lia.
  - (* write_value *)
    destruct k as [k|]; [|done]. destruct (Z.leb_spec k (slack + 1)) as [Hk|]; [|done]. injection Ha as <-.
    pose proof (sem_k _ p s Hs k eq_refl) as Hf. unfold slack in *.
    rewrite client_LEN_range by lia. unfold call. destruct (cb_http_field cbs) as [g|] eqn:Hg; [|by exists false, s].
    destruct (safe_field g (field_start s) (field_len s) (p_mark s) (p - p_mark s) (data s) Hg) as [d' E];
      try (unfold slack; lia).
    exists false, (set_data d' s). split; [unfold on_data, bind; by rewrite E|]. by apply (sem_same _ p s).
  - (* status_code *)
    rewrite bind_modify. apply Hcall; [by repeat constructor| |done]. by apply (sem_same _ p s).
  - (* chunk_size *)
    step_monad.
    destruct (_ && _); apply Hcall; try done; try (by repeat constructor); by apply (sem_same _ p s).
  - (* done *)
    exists true. rewrite !uwrap_small by (unfold is_u in *; lia).
    destruct (client_call_element (d, l, k) p (set_body_start (p + 1) s) (cb_header_done cbs) (p + 1) (pe - p - 1)) as (s' & E & Hs');
      [by repeat constructor|lia..| |].
    { destruct Hs; constructor; simpl; try done; lia. }
    exists s'. split; [|done]. rewrite bind_modify. by rewrite (bind_Ret _ _ _ _ _ E).
Qed.

Lemma client_run_actions_safe acts f f' p s : acts_facts acts f = Some f' → 0 ≤ p < pe → sem f p s →
  ∃ b s', run_actions acts p s = Ret b s' ∧ (∃ g, sem g p s') ∧ (b = false → sem f' p s').
Proof.
  intros Ha Hp. revert f s Ha. induction acts as [|a acts IH]; intros f s Ha Hs; cbn [acts_facts Ragel.run_actions] in *.
  - injection Ha as <-. exists false, s. split; [done|]. split; [by exists f|done].
  - destruct (act_facts a f) as [f1|] eqn:Hf1; [|done].
    destruct (client_do_action_safe a f f1 p s Hf1 Hp Hs) as (b & s1 & E & Hs1). rewrite (bind_Ret _ _ _ _ _ E).
    destruct b; [exists true, s1; split; [done|]; split; [by exists f1|done]|]. by apply (IH f1).
Qed.

Lemma client_exec_safe rest p s cs0 : bytes_ok rest → 1 ≤ cs0 ≤ 123 → sem (state_facts cs0) p s → p + zlen rest ≤ pe →
  ∃ cs' p' s', exec cbs mem pe rest cs0 p s = Ret (cs', p') s' ∧ p ≤ p' ≤ p + zlen rest ∧ ∃ g, sem g p' s'.
Proof.
  intros Hb Hcs Hs Hp.
  apply (exec_loop_safe _ _ (λ cs p s, 1 ≤ cs ≤ 123 ∧ 0 ≤ p ∧ sem (state_facts cs) p s) (λ p s, ∃ g, sem g p s) pe); try done.
  - intros cs1 p1 s1 (_ & _ & H). by eexists.
  - intros cs1 p1 s1 c f acts cs2 (Hcs1 & Hp1 & H1) Hlt Hc Hf Hfc Hn.
    pose proof (edges_ok_spec _ _ _ _ _ _ client_edges_checked Hcs1 Hf Hc) as Hok.
    rewrite Hfc in Hok. unfold edge_ok in Hok; cbn [fst snd] in Hok.
    destruct (acts_facts acts (state_facts cs1)) as [f'|] eqn:Ha; [|done].
    rewrite (proj2 (Z.eqb_neq cs2 0) Hn), orb_false_l, !andb_true_iff, !Z.leb_le in Hok. destruct Hok as [[Hle H1'] H2'].
    destruct (client_run_actions_safe acts (state_facts cs1) f' p1 s1 Ha ltac:(lia) H1) as (b & s' & E & [g Hg] & Hn').
    exists b, s'. split; [done|]. destruct b; [exists (next_facts g); by apply client_sem_next|].
    split; [lia|]. split; [lia|]. eapply client_sem_weaken; [done|]. by apply client_sem_next, Hn'.
  - split; [done|]. split; [|done]. destruct Hs. lia.
Qed.

(** A parser as [httpclient_parser_init] leaves it. *)
Definition fresh (s : httpclient_parser D) : Prop :=
  cs s = 1 ∧ body_start s = 0 ∧ p_mark s = 0 ∧ field_start s = 0 ∧ field_len s = 0 ∧ nread s = 0.

Lemma httpclient_parser_execute_safe s : fresh s → bytes_ok mem → mem !! Z.to_nat pe = Some 0 →
  ∃ n s', httpclient_parser_execute cbs mem pe 0 s = Ret n s' ∧ 0 ≤ n ≤ pe.
Proof.
  intros (Hc & Hb & Hm & Hf & Hl & Hn) Hbuf Hnul. pose proof (lookup_lt_Some _ _ _ Hnul) as Hlen.
  unfold httpclient_parser_execute.
  step_monad. set (s0 := set_field_start 0 _). change (cs s0) with (cs s). rewrite Hc.
  rewrite (proj2 (Z.leb_le 0 pe)) by lia. unfold assert at 1. rewrite bind_ret, Hnul.
  change (assert (0 =? 0)) with (@ret (httpclient_parser D) unit tt). rewrite bind_ret, client_assert_int, bind_ret by lia.
  assert (zlen (slice mem (Z.to_nat 0) (Z.to_nat (pe - 0))) = pe) as Hsl.
  { unfold slice, zlen in *. rewrite drop_0, length_take. lia. }
  destruct (client_exec_safe (slice mem (Z.to_nat 0) (Z.to_nat (pe - 0))) 0 s0 1) as (cs' & p' & s' & Ex & Hp & g & Hs); try lia.
  { apply Forall_take. by apply Forall_drop. }
  { unfold s0. constructor; simpl; try lia; intros ? [= <-]; lia. }
  rewrite (bind_Ret _ _ _ _ _ Ex). step_monad. unfold assert. destruct Hs. simpl.
  rewrite sem_nread0, Z.add_0_l, Z.sub_0_r, uwrap_small by (unfold is_u; lia).
  rewrite (proj2 (Z.leb_le p' pe)), (proj2 (Z.leb_le _ pe)) by lia. step_monad.
  rewrite (proj2 (Z.ltb_lt _ pe)), (proj2 (Z.leb_le _ pe)), (proj2 (Z.ltb_lt _ pe)) by lia. simpl.
  rewrite swrap_small by (unfold is_s; lia). exists p'. eexists. split; [done|lia].
Qed.
End safe.
