(* ===== verification/HttpResponseSafe.v ===== *)
(** * HttpResponseSafe: safety of [HttpResponseParser::execute] *)
From S2P Require Import Prelude Ragel HttpClientStates HttpClientParser Http HttpResponse HttpResponseParser HttpClientSafe.

(** The callbacks of the response parser succeed on every range of the memory. *)
#[export] Instance response_callbacks_safe n mem : n + slack ≤ zlen mem → zlen mem ≤ string_max_size →
  SafeCallbacks n slack (response_callbacks mem).
Proof.
  unfold slack. intros Hn Hm. split.
  - intros f a l d Hin Ha Hl Hal. simpl in Hin. rewrite !elem_of_cons, elem_of_nil in Hin.
    destruct Hin as [[= ->]|[[= ->]|[[= ->]|[[= ->]|[[= ->]|[[= ->]|[]]]]]]]; try (by exists d).
    + unfold on_response_reason. destruct (string_at_ret mem a l d) as [w E]; try lia.
      rewrite (bind_Ret _ _ _ _ _ E). by eexists.
    + by eexists.
    + unfold on_response_version. repeat case_match; by eexists.
  - intros f a l b m d [= <-] Ha Hl Hal Hb Hm0 Hbm. unfold on_response_http_field.
    destruct (l =? 0); [by exists d|]. destruct (string_at_ret mem a l d) as [k E]; try lia.
    rewrite (bind_Ret _ _ _ _ _ E). destruct (string_at_ret mem b m d) as [v E2]; try lia.
    rewrite (bind_Ret _ _ _ _ _ E2). by eexists.
Qed.

(** C36: Safety.  Parsing any received bytes, at least one and ended by a NUL as
    the caller must provide, with a new or re-initialised response parser ends
    without a failing assertion or an exception and reads at most 12 bytes
    beyond the data; the parsed bytes are within the data and the rest is moved
    to the front. *)
Theorem response_execute_safe mem len s chunk : bytes_ok mem → 1 ≤ len < 2 ^ 31 → len + 12 ≤ zlen mem → zlen mem ≤ string_max_size →
  mem !! Z.to_nat len = Some 0 → (chunk = true ∨ ∃ status, s = HttpResponseParser_new status) →
  ∃ n mem' s', execute mem len chunk s = Ret (n, mem') s' ∧ 0 ≤ n ≤ len
  ∧ slice mem' 0 (Z.to_nat (len - n)) = slice mem (Z.to_nat n) (Z.to_nat (len - n))
  ∧ drop (Z.to_nat (len - n)) mem' = drop (Z.to_nat (len - n)) mem ∧ zlen mem' = zlen mem
  ∧ isFinished s' ∈ [-1; 0; 1].
Proof.
  intros Hb Hl Hslack Hm Hnul Hs. pose proof (response_callbacks_safe len mem Hslack Hm) as Hsafe.
  set (s0 := if chunk then httpclient_parser_init s else s).
  assert (fresh s0) as Hfresh.
  { unfold s0. destruct chunk; [done|]. destruct Hs as [|[status ->]]; done. }
  destruct (httpclient_parser_execute_safe (response_callbacks mem) mem len Hl s0) as (n & s' & E & Hn); try done.
  assert (u64 n = n) as Hu by (apply uwrap_small; unfold is_u; lia).
  unfold execute. rewrite bind_modify_if. fold s0. rewrite (bind_Ret _ _ _ _ _ E), Hu.
  rewrite (proj2 (Z.leb_le 0 n)), (proj2 (Z.leb_le n len)), (proj2 (Z.leb_le len _)) by lia. simpl.
  eexists n, _, s'. split; [done|]. split; [done|].
  destruct (moved_to_front mem (Z.to_nat n) (Z.to_nat (len - n))) as (H1 & H2 & H3); [unfold zlen in *; lia|].
  split_and!; try done.
  unfold isFinished, httpclient_parser_finish. destruct (httpclient_parser_has_error s'), (httpclient_parser_is_finished s'); set_solver.
Qed.

Lemma response_execute_safe_witness :
  let mem := bytes_of_string ("HTTP/1.1 200 OK" +:+ CRLF +:+ "Content-Length: 3" +:+ CRLF +:+ CRLF +:+ "abc") ++ replicate 13 0 in
  ∃ n mem' s', execute mem 41 false (HttpResponseParser_new 7) = Ret (n, mem') s' ∧ 0 ≤ n ≤ 41
  ∧ slice mem' 0 (Z.to_nat (41 - n)) = slice mem (Z.to_nat n) (Z.to_nat (41 - n))
  ∧ drop (Z.to_nat (41 - n)) mem' = drop (Z.to_nat (41 - n)) mem ∧ zlen mem' = zlen mem
  ∧ isFinished s' ∈ [-1; 0; 1].
Proof.
  apply response_execute_safe; [by repeat constructor|by vm_compute|by vm_compute|by vm_compute|reflexivity|].
  right. by exists 7.
Defined.

(** The result of one call on received text: finished flag, status, reason,
    [Content-Length] header and the bytes left. *)
Definition parse_text (text : string) (slack_bytes : nat) : option (Z * Z * string * string * string) :=
  let mem := bytes_of_string text ++ replicate slack_bytes 0 in
  match execute mem (size text) false (HttpResponseParser_new 0) with
  | Ret (n, mem') s => Some (isFinished s, m_status (getData s), m_reason (getData s),
      getHeader (getData s) "content-length" "", string_of_bytes (take (Z.to_nat (size text - n)) mem'))
  | _ => None
  end.
Example parse_text_ok :
  parse_text ("HTTP/1.1 404 Not Found" +:+ CRLF +:+ "Content-Length: 3" +:+ CRLF +:+ CRLF +:+ "abc") 1
  = Some (1, 404, "Not Found", "3", "abc")%string.
Proof. vm_compute. reflexivity. Qed.

(** ** Where the code departs from its purpose *)
#[local] Abbreviation LF := (String (code_char 10) "").

(** With only the NUL behind the data, a line break between [Content-Length:]
    and its value makes the parser read the name of a header behind the end of
    the memory. *)
Lemma content_length_over_read :
  let text := "HTTP/1.1 200 OK" +:+ CRLF +:+ "Content-Length:" +:+ LF +:+ "0" +:+ LF in
  execute (bytes_of_string text ++ [0]) (size text) false (HttpResponseParser_new 0) = Crash OutOfBounds.
Proof. vm_compute. reflexivity. Qed.

(** Without data the result -1 becomes the offset 2^64-1. *)
Lemma empty_input_underflows s rest : execute (0 :: rest) 0 true s = Crash OutOfBounds.
Proof. vm_compute. reflexivity. Qed.

(** A response that ends in a final state other than the first is not finished. *)
Lemma final_state_not_finished :
  match execute (bytes_of_string ("HTTP/1.1 200 OK" +:+ LF +:+ "Connection:" +:+ LF +:+ LF) ++ replicate 20 0) 29 false
          (HttpResponseParser_new 0) with
  | Ret _ s => (cs s, isFinished s, hasError s)
  | _ => (0, 0, true)
  end = (122, 0, false).
Proof. vm_compute. reflexivity. Qed.
