(* ===== verification/Uri.v ===== *)
(** * Uri: [azure::Uri] and its parser ([include/uri.h], [src/uri.rl.cc])

    [Uri::Create] runs the machine of UriStates over the string; [p] and [mark]
    are offsets into it, [mark = None] is the null pointer.  An offset is
    followed by the rest of the string and the NUL of [c_str]. *)
From S2P Require Import Prelude CLib Ragel UriStates Http.

Record Uri := mkUri {
  m_scheme : string;
  m_userinfo : string;
  m_host : string;
  m_path : string;
  m_query : string;
  m_fragment : string;
  m_port : Z
}.
Definition Uri_new : Uri := mkUri "" "" "" "" "" "" 0.

Definition setScheme v u := mkUri v (m_userinfo u) (m_host u) (m_path u) (m_query u) (m_fragment u) (m_port u).
Definition setUserinfo v u := mkUri (m_scheme u) v (m_host u) (m_path u) (m_query u) (m_fragment u) (m_port u).
Definition setHost v u := mkUri (m_scheme u) (m_userinfo u) v (m_path u) (m_query u) (m_fragment u) (m_port u).
Definition setPath v u := mkUri (m_scheme u) (m_userinfo u) (m_host u) v (m_query u) (m_fragment u) (m_port u).
Definition setQuery v u := mkUri (m_scheme u) (m_userinfo u) (m_host u) (m_path u) v (m_fragment u) (m_port u).
Definition setFragment v u := mkUri (m_scheme u) (m_userinfo u) (m_host u) (m_path u) (m_query u) v (m_port u).
Definition setPort v u := mkUri (m_scheme u) (m_userinfo u) (m_host u) (m_path u) (m_query u) (m_fragment u) v.

Definition isDefaultPort (u : Uri) : bool :=
  if m_port u =? 0 then true
  else if String.eqb (m_scheme u) "http" || String.eqb (m_scheme u) "ws" then m_port u =? 80
  else if String.eqb (m_scheme u) "https" || String.eqb (m_scheme u) "wss" then m_port u =? 443
  else false.

Definition getPath (u : Uri) : string := if String.eqb (m_path u) "" then "/" else m_path u.

Definition getPort (u : Uri) : Z :=
  if negb (m_port u =? 0) then m_port u
  else if String.eqb (m_scheme u) "http" || String.eqb (m_scheme u) "ws" then 80
  else if String.eqb (m_scheme u) "https" || String.eqb (m_scheme u) "wss" then 443
  else m_port u.

(** [std::to_string] of an [int32_t] *)
Definition to_string (n : Z) : string := pretty n.

Definition dump (u : Uri) : string :=
  m_scheme u +:+ "://" +:+ m_userinfo u +:+ (if String.eqb (m_userinfo u) "" then "" else "@")
  +:+ m_host u +:+ (if isDefaultPort u then "" else ":" +:+ to_string (m_port u))
  +:+ getPath u
  +:+ (if String.eqb (m_query u) "" then "" else "?") +:+ m_query u
  +:+ (if String.eqb (m_fragment u) "" then "" else "#") +:+ m_fragment u.
Definition toString (u : Uri) : string := dump u.

(** [createAddress]: [LookupAnyIPAddress] asks the resolver; the address it
    gives gets the port. *)
Definition createAddress {A} (LookupAnyIPAddress : string → option A) (setAddressPort : Z → A → A) (u : Uri) : option A :=
  setAddressPort (getPort u) <$> LookupAnyIPAddress (m_host u).

(** ** The parser *)
Record uri_parser := mkParser { mark : option Z; uri : Uri }.
Definition set_mark v s := mkParser v (uri s).
Definition on_uri f s := mkParser (mark s) (f (uri s)).

Definition uri_parser_start : Z := 451.
Definition uri_parser_first_final : Z := 451.
Definition uri_parser_error : Z := 0.

Section parse.
(** The string's bytes and the NUL behind them. *)
Variable mem : list Z.

(** [std::string(mark, p - mark)]; a null [mark] with a length is refused. *)
Definition marked (p : Z) : ST uri_parser string :=
  let* m := gets mark in
  match m with
  | Some m => string_at mem m (u64 (p - m))
  | None => if p =? 0 then ret ""%string else throw logic_error
  end.

Definition do_action (a : action) (p : Z) : ST uri_parser bool :=
  let* m := gets mark in
  match a with
  | marku | markh => modify (set_mark (Some p)) ;;; ret false
  | save_scheme => (let* w := marked p in modify (on_uri (setScheme w)) ;;; modify (set_mark None)) ;;; ret false
  | save_port =>
      (match m with
       | Some m => if p =? m then ret tt else modify (on_uri (setPort (atoi (drop (Z.to_nat m) mem))))
       | None => crash NullDeref
       end) ;;; modify (set_mark None) ;;; ret false
  | save_userinfo =>
      (match m with
       | Some _ => let* w := marked p in modify (on_uri (setUserinfo w))
       | None => ret tt
       end) ;;; modify (set_mark None) ;;; ret false
  | save_host =>
      (match m with
       | Some _ => let* w := marked p in modify (on_uri (setHost w))
       | None => ret tt
       end) ;;; ret false
  | save_path => (let* w := marked p in modify (on_uri (setPath w)) ;;; modify (set_mark None)) ;;; ret false
  | save_query => (let* w := marked p in modify (on_uri (setQuery w)) ;;; modify (set_mark None)) ;;; ret false
  | save_fragment => (let* w := marked p in modify (on_uri (setFragment w)) ;;; modify (set_mark None)) ;;; ret false
  end.

(** The actions at the end of the input, by state. *)
Definition eof_actions (cs : Z) : list action :=
  if (cs =? 462) || (cs =? 489)
  then [save_port]
  else if (cs =? 460) || ((463 <=? cs) && (cs <=? 467)) || ((470 <=? cs) && (cs <=? 488)) || ((490 <=? cs) && (cs <=? 507))
  then [save_host]
  else if (cs =? 513)
  then [save_path]
  else if (cs =? 457)
  then [save_query]
  else if (cs =? 454)
  then [save_fragment]
  else if (cs =? 456)
  then [marku; save_query]
  else if (cs =? 453)
  then [marku; save_fragment]
  else if (cs =? 461) || (cs =? 468)
  then [markh; save_port]
  else if (cs =? 459) || (cs =? 469)
  then [markh; save_host]
  else if (cs =? 514) || (cs =? 521)
  then [markh; save_port; save_path]
  else if (cs =? 511) || (cs =? 522)
  then [markh; save_host; save_path]
  else if (cs =? 515) || (cs =? 542)
  then [save_port; markh; save_path]
  else if (cs =? 512) || ((516 <=? cs) && (cs <=? 520)) || ((523 <=? cs) && (cs <=? 541)) || ((543 <=? cs) && (cs <=? 560))
  then [save_host; markh; save_path]
  else [].

Definition exec : list Z → Z → Z → ST uri_parser (Z * Z) := exec_loop (λ _, block) do_action.
End parse.

(** [Uri::Create(uristr)]: [None] is [nullptr]. *)
Definition Create (uristr : string) : outcome uri_parser (option Uri) :=
  let input := bytes_of_string uristr in
  let mem := input ++ [0] in
  let pe := zlen input in
  (let* r := exec mem input uri_parser_start 0 in
   let '(cs, p) := r in
   (if p =? pe then let* _ := run_actions (do_action mem) (eof_actions cs) p in ret tt else ret tt) ;;;
   let* u := gets uri in
   if cs =? uri_parser_error then ret None
   else if uri_parser_first_final <=? cs then ret (Some u)
   else ret None) (mkParser None Uri_new).

Example Create_full :
  out_val (Create "http://user:pw@www.example.com:8080/a/b?x=1#top")
  = Some (Some (mkUri "http" "user:pw" "www.example.com" "/a/b" "x=1" "top" 8080)).
Proof. vm_compute. reflexivity. Qed.
Example Create_bad : out_val (Create "http://exa mple/") = Some None.
Proof. vm_compute. reflexivity. Qed.

(** ** [Uri::Create] on every string *)
(** Whether a state is only reached with a mark. *)
Definition marked_state (cs : Z) : bool :=
  negb (existsb (Z.eqb cs) [3; 4; 5; 6; 243; 244; 452; 453; 455; 456; 513; 451; 458; 459; 469; 509; 510; 511; 522]).

(** The mark after an action; [None] if it needs a mark that may be missing.
    [save_path], alone, may do without: it throws. *)
Definition act_mark (a : action) (m : bool) : option bool :=
  match a with
  | marku | markh => Some true
  | save_host => Some m
  | save_userinfo => Some false
  | save_path => Some false
  | _ => if m then Some false else None
  end.
Fixpoint acts_mark (acts : list action) (m : bool) : option bool :=
  match acts with
  | [] => Some m
  | a :: acts => match act_mark a m with Some m => acts_mark acts m | None => None end
  end.
Definition edge_ok (cs : Z) (t : target action) : bool :=
  match acts_mark t.1 (marked_state cs) with
  | Some m => (t.2 =? 0) || (implb (marked_state t.2) m && (1 <=? t.2) && (t.2 <=? 560))
  | None => false
  end.

Lemma uri_edges_checked : edges_ok block 560 edge_ok = true.
Proof. vm_compute. reflexivity. Qed.

Lemma eof_checked : forallb (λ cs, bool_decide (is_Some (acts_mark (eof_actions cs) (marked_state cs)))) (seqZ 0 561) = true.
Proof. vm_compute. reflexivity. Qed.

Section safe.
Variable mem : list Z.
Hypothesis Hmem : zlen mem ≤ string_max_size.
#[local] Abbreviation run_actions := (run_actions (do_action mem)).

(** The mark is before [p], and there if the state says so. *)
Definition sem (m : bool) (p : Z) (s : uri_parser) : Prop :=
  match mark s with Some k => 0 ≤ k ≤ p | None => m = false end.

Lemma uri_sem_weaken m m' p s : implb m' m = true → sem m p s → sem m' p s.
Proof. unfold sem. destruct (mark s); [done|]. intros H ->. by destruct m'. Qed.
Lemma uri_sem_next m p s : sem m p s → sem m (p + 1) s.
Proof. unfold sem. destruct (mark s); [lia|done]. Qed.

Lemma marked_ret p s k : mark s = Some k → 0 ≤ k ≤ p → p ≤ zlen mem → ∃ w, marked mem p s = Ret w s.
Proof.
  intros Hk Hr Hp. unfold marked. rewrite bind_gets, Hk. unfold string_max_size in Hmem.
  rewrite uwrap_small by (unfold is_u; lia). apply string_at_ret; unfold string_max_size; lia.
Qed.

Lemma uri_do_action_safe a m m' p s : act_mark a m = Some m' → 0 ≤ p ≤ zlen mem → sem m p s →
  (∃ s', do_action mem a p s = Ret false s' ∧ sem m' p s') ∨ ∃ s', do_action mem a p s = Throw logic_error s'.
Proof.
  intros Ha Hp Hs. unfold sem in Hs.
  assert (∀ f : string → Uri → Uri, mark s ≠ None → ∃ s', ((let* w := marked mem p in modify (on_uri (f w)) ;;; modify (set_mark None)) ;;; ret false) s
      = Ret false s' ∧ mark s' = None) as Hsave.
  { intros f Hn. destruct (mark s) as [k|] eqn:Hk; [|done]. destruct (marked_ret p s k Hk Hs) as [w Hw]; [lia|].
    rewrite !bind_assoc, (bind_Ret _ _ _ _ _ Hw). eexists. split; done. }
  unfold do_action. rewrite bind_gets. destruct a; simpl in Ha;
    try (injection Ha as <-; left; eexists; split; [done|]; unfold sem; simpl; lia).
  - (* save_scheme *)
    destruct m; [|done]. injection Ha as <-. left.
    destruct (Hsave setScheme) as (s' & E & Hm); [by destruct (mark s)|]. exists s'. split; [done|]. unfold sem. by rewrite Hm.
  - (* save_port *)
    destruct m; [|done]. injection Ha as <-. left. destruct (mark s) as [k|]; [|done].
    destruct (p =? k); (eexists; split; [done|]; unfold sem; done).
  - (* save_userinfo *)
    injection Ha as <-. left. destruct (mark s) as [k|] eqn:Hk; [|eexists; split; [done|]; unfold sem; done].
    destruct (marked_ret p s k Hk Hs) as [w Hw]; [lia|]. rewrite !bind_assoc, (bind_Ret _ _ _ _ _ Hw).
    eexists. split; [done|]. unfold sem. done.
  - (* save_host *)
    injection Ha as <-. left. destruct (mark s) as [k|] eqn:Hk; [|exists s; split; [done|]; unfold sem; by rewrite Hk].
    destruct (marked_ret p s k Hk Hs) as [w Hw]; [lia|]. rewrite !bind_assoc, (bind_Ret _ _ _ _ _ Hw).
    eexists. split; [done|]. unfold sem; simpl. by rewrite Hk.
  - (* save_path *)
    injection Ha as <-. destruct (mark s) as [k|] eqn:Hk.
    + left. destruct (Hsave setPath) as (s' & E & Hm); [done|]. exists s'. split; [done|]. unfold sem. by rewrite Hm.
    + unfold marked. rewrite !bind_assoc, bind_gets, Hk. destruct (p =? 0); [left|right]; eexists; [split|]; done.
  - destruct m; [|done]. injection Ha as <-. left.
    destruct (Hsave setQuery) as (s' & E & Hm); [by destruct (mark s)|]. exists s'. split; [done|]. unfold sem. by rewrite Hm.
  - destruct m; [|done]. injection Ha as <-. left.
    destruct (Hsave setFragment) as (s' & E & Hm); [by destruct (mark s)|]. exists s'. split; [done|]. unfold sem. by rewrite Hm.
Qed.

Lemma uri_run_actions_safe acts m m' p s : acts_mark acts m = Some m' → 0 ≤ p ≤ zlen mem → sem m p s →
  (∃ s', run_actions acts p s = Ret false s' ∧ sem m' p s') ∨ ∃ s', run_actions acts p s = Throw logic_error s'.
Proof.
  intros Ha Hp. revert m s Ha. induction acts as [|a acts IH]; intros m s Ha Hs; cbn [acts_mark Ragel.run_actions] in *.
  - injection Ha as <-. left. by exists s.
  - destruct (act_mark a m) as [m1|] eqn:Hm1; [|done].
    destruct (uri_do_action_safe a m m1 p s Hm1 Hp Hs) as [(s1 & E & Hs1)|(s1 & E)].
    + rewrite (bind_Ret _ _ _ _ _ E). by apply (IH m1).
    + right. exists s1. unfold bind. by rewrite E.
Qed.

Lemma eof_safe cs p s : 0 ≤ cs ≤ 560 → 0 ≤ p ≤ zlen mem → sem (marked_state cs && negb (cs =? 0)) p s →
  (∃ s', run_actions (eof_actions cs) p s = Ret false s') ∨ ∃ s', run_actions (eof_actions cs) p s = Throw logic_error s'.
Proof.
  intros Hcs Hp Hs. destruct (Z.eqb_spec cs 0) as [->|Hn]; [left; by exists s|]. simpl in Hs. rewrite andb_true_r in Hs.
  pose proof eof_checked as Hc. rewrite forallb_forall in Hc.
  specialize (Hc cs ltac:(apply list_elem_of_In, elem_of_seqZ; lia)).
  apply bool_decide_eq_true in Hc as [m' Hm].
  destruct (uri_run_actions_safe _ _ _ _ _ Hm Hp Hs) as [(s' & E & _)|(s' & E)]; [left|right]; by exists s'.
Qed.
End safe.

(** C37: [Uri::Create] on every string ends, without an invalid access: it
    answers with a [Uri] or with [nullptr], or throws [std::logic_error]. *)
Theorem Create_total uristr : size uristr < string_max_size →
  (∃ o s', Create uristr = Ret o s') ∨ ∃ s', Create uristr = Throw logic_error s'.
Proof.
  intros Hsize. unfold Create. set (input := bytes_of_string uristr). set (mem := input ++ [0]).
  assert (zlen input = size uristr) as Hin by (unfold zlen, size; by rewrite <- length_bytes_of_string).
  assert (zlen mem = zlen input + 1) as Hlen by (unfold mem; rewrite zlen_app; done).
  pose proof (zlen_nonneg input) as Hn0.
  destruct (exec_loop_inv (λ _ : uri_parser, block) (do_action mem)
      (λ cs p s, 1 ≤ cs ≤ 560 ∧ 0 ≤ p ∧ sem (marked_state cs) p s)
      (λ cs p s, 0 ≤ cs ≤ 560 ∧ sem (marked_state cs && negb (cs =? 0)) p s) (λ e, e = logic_error) (zlen input)) with
      input uri_parser_start 0 (mkParser None Uri_new) as [(cs & p & s & E & Hp & Hcs & Hs)|(e & s & E & ->)].
  - intros cs p s (Hc & Hp & H). split; [lia|]. eapply uri_sem_weaken; [|done].
    by destruct (marked_state cs), (cs =? 0).
  - intros cs p s (Hc & Hp & H). split; [lia|]. by eapply uri_sem_weaken; [|done].
  - intros cs p s c f acts cs' (Hc & Hp & H) Hlt Hb Hf Hfc Hn.
    pose proof (edges_ok_spec _ _ _ _ _ _ uri_edges_checked Hc Hf Hb) as Hok.
    rewrite Hfc in Hok. unfold edge_ok in Hok; cbn [fst snd] in Hok.
    destruct (acts_mark acts (marked_state cs)) as [m'|] eqn:Ha; [|done].
    rewrite (proj2 (Z.eqb_neq cs' 0) Hn), orb_false_l, !andb_true_iff, !Z.leb_le in Hok. destruct Hok as [[Hle H1'] H2'].
    destruct (uri_run_actions_safe mem ltac:(lia) acts _ m' p s Ha ltac:(lia) H) as [(s' & E & Hs')|(s' & E)].
    + left. exists false, s'. split; [done|]. split; [lia|]. split; [lia|]. apply uri_sem_next. by eapply uri_sem_weaken.
    + right. by exists logic_error, s'.
  - apply bytes_of_string_ok.
  - split; [done|]. split; [lia|]. done.
  - lia.
  - unfold exec. rewrite (bind_Ret _ _ _ _ _ E).
    set (k := λ _ : unit, bind (gets uri) _).
    assert (∀ s1, ∃ o s', k tt s1 = Ret o s') as Hk.
    { intros s1. unfold k. rewrite bind_gets. destruct (_ =? _); [by eexists _, _|]. destruct (_ <=? _); by eexists _, _. }
    destruct (p =? zlen input); [|left; apply Hk].
    destruct (eof_safe mem ltac:(lia) cs p s Hcs ltac:(lia) Hs) as [(s1 & E1)|(s1 & E1)].
    + left. rewrite bind_assoc, (bind_Ret _ _ _ _ _ E1). apply Hk.
    + right. exists s1. rewrite bind_assoc. unfold bind at 1. by rewrite E1.
  - right. exists s. unfold exec, bind. by rewrite E.
Qed.

Lemma Create_total_witness : (∃ o s', Create "http://a:/b" = Ret o s') ∨ ∃ s', Create "http://a:/b" = Throw logic_error s'.
Proof. apply Create_total. by vm_compute. Defined.

(** ** Where the code departs from its purpose *)

(** An empty port before a path or at the end: [save_port] clears the mark that
    the path needs, and [std::string(NULL, n)] throws. *)
Lemma empty_port_throws :
  (∃ s, Create "http://a:/b" = Throw logic_error s) ∧ ∃ s, Create "http://a:" = Throw logic_error s.
Proof. split; eexists; vm_compute; reflexivity. Qed.

(** The path is saved behind an authority only. *)
Lemma path_without_authority_lost :
  (getPath <$> default None (out_val (Create "/a/b?x=1"))) = Some "/"%string
  ∧ (getPath <$> default None (out_val (Create "mailto:someone"))) = Some "/"%string.
Proof. split; vm_compute; reflexivity. Qed.

(** The port is not checked: [atoi] of its digits, as an [int32_t]. *)
Lemma port_wraps : (m_port <$> default None (out_val (Create "http://a:4294967376/"))) = Some 80.
Proof. vm_compute. reflexivity. Qed.
