(* ===== verification/UriRoundtrip.v ===== *)
(** * UriRoundtrip: parsing what [Uri::dump] prints *)
From S2P Require Import Prelude CLib Words Decimal Ragel UriStates Http Uri.

(** Schemes, and the registered names used as user information and host. *)
Definition alpha (c : Z) : bool := between 65 90 c || between 97 122 c.
Definition scheme_char (c : Z) : bool := alnum c || one_of [43; 45; 46] c.
Definition reg_char (c : Z) : bool :=
  alnum c || one_of [45; 46; 95; 126] c || one_of [33; 36; 38; 39; 40; 41; 42; 43; 44; 59; 61] c.
Definition scheme_ok (w : string) : bool :=
  match bytes_of_string w with c :: _ => alpha c | [] => false end && all_in scheme_char w.
Definition nonempty (w : string) : bool := negb (String.eqb w "").
Definition abs_path_ok (w : string) : bool :=
  match bytes_of_string w with c :: l => (c =? 47) && forallb path_char l | [] => true end.

(** The states of a host, from the states before it. *)
Definition host_start : list Z := [511; 522].
Definition reg_states : list Z := [520; 543; 544; 545; 546; 547; 548; 549; 550; 551; 552; 553; 554; 555; 556; 557; 558; 559; 560].
Definition host_states : list Z := reg_states ++
  [523; 524; 525; 526; 527; 528; 529; 530; 531; 532; 533; 534; 535; 536; 537; 538; 539; 540; 541].
Definition port_start : list Z := [521; 514].
Definition port_states : list Z := [542; 515].

Lemma to_string_digits n : 0 ≤ n → all_in (between 48 57) (to_string n) = true ∧ to_string n ≠ ""%string.
Proof.
  intros Hn. unfold to_string. assert (pretty n = pretty (Z.to_N n)) as -> by (destruct n as [|n|n]; [done|done|lia]).
  apply pretty_N_digits.
Qed.

Section roundtrip.
Variable mem : list Z.
Hypothesis Hmem : zlen mem ≤ string_max_size.
Implicit Types (p m : Z) (w : string) (u : Uri).
#[local] Abbreviation act := (do_action mem).
#[local] Abbreviation run := (runs (λ _ : uri_parser, block) act).
#[local] Abbreviation at_mem := (at_mem mem).

(** Reading [w] at [p] leads from every state of [X] into [Y]. *)
Definition reads (X : list Z) p w (s : uri_parser) (Y : list Z) (s' : uri_parser) : Prop :=
  ∀ cs, cs ∈ X → ∃ cs', cs' ∈ Y ∧ run cs p (bytes_of_string w) s cs' s'.

Lemma reads_app X p w1 s Y s1 w2 Z0 s2 :
  reads X p w1 s Y s1 → reads Y (p + size w1) w2 s1 Z0 s2 → reads X p (w1 +:+ w2) s Z0 s2.
Proof.
  intros H1 H2 cs Hcs. destruct (H1 cs Hcs) as (cs1 & Hcs1 & R1). destruct (H2 cs1 Hcs1) as (cs2 & Hcs2 & R2).
  exists cs2. split; [done|]. rewrite bytes_of_string_app. eapply runs_app; [done|]. by rewrite size_bytes.
Qed.

Lemma reads_nil X p s : reads X p "" s X s.
Proof. intros cs Hcs. exists cs. split; [done|apply runs_nil]. Qed.

(** One character. *)
Lemma reads_char X c p s acts Y s' : set_goes block X (Z.eqb (char_code c)) acts Y = true →
  run_actions act acts p s = Ret false s' → reads X p (String c "") s Y s'.
Proof.
  intros H Ha cs Hcs. apply (runs_set (λ _ : uri_parser, block) act X (Z.eqb (char_code c)) acts Y cs p (char_code c) s s');
    [done|done|apply char_code_byte|apply Z.eqb_refl|done].
Qed.

(** A first character and a loop. *)
Lemma reads_word X p w s first class acts Y s' : set_goes block X first acts Y = true → set_goes block Y class [] Y = true →
  (match bytes_of_string w with c :: _ => first c | [] => false end) = true → all_in class w = true →
  run_actions act acts p s = Ret false s' → reads X p w s Y s'.
Proof.
  intros H1 H2 Hf Hw Ha cs Hcs. pose proof (bytes_of_string_ok w) as Hb. unfold all_in in Hw.
  rewrite forallb_forall in Hw. destruct (bytes_of_string w) as [|c l]; [done|].
  apply Forall_cons in Hb as [Hc Hbl].
  destruct (runs_set (λ _ : uri_parser, block) act X first acts Y cs p c s s') as (cs1 & Hcs1 & R1); try done.
  destruct (runs_set_loop (λ _ : uri_parser, block) act Y class cs1 (p + zlen [c]) l s') as (cs2 & Hcs2 & R2); try done.
  { apply Forall_forall. intros x Hx. apply Hw. right. by apply list_elem_of_In. }
  exists cs2. split; [done|]. by apply (runs_app _ _ cs p [c] s cs1 s' l cs2 s').
Qed.

(** A word read by a loop only. *)
Lemma reads_loop X p w s class : set_goes block X class [] X = true → all_in class w = true → reads X p w s X s.
Proof.
  intros H Hw cs Hcs. apply (runs_set_loop (λ _ : uri_parser, block) act X class); try done; [apply bytes_of_string_ok|].
  unfold all_in in Hw. rewrite forallb_forall in Hw. apply Forall_forall. intros x Hx. apply Hw. by apply list_elem_of_In.
Qed.

Lemma marked_word p m w s : mark s = Some m → at_mem m w → p = m + size w → marked mem p s = Ret w s.
Proof.
  intros Hm Hat ->. unfold marked. rewrite bind_gets, Hm. pose proof (at_mem_bound m w Hat) as Hb.
  pose proof (size_nonneg w). unfold string_max_size in Hmem.
  replace (m + size w - m) with (size w) by lia. rewrite uwrap_small by (unfold is_u; lia).
  by apply string_at_word.
Qed.

(** The actions on a marked word. *)
Lemma save_word (f : string → Uri → Uri) p m w u : at_mem m w → p = m + size w →
  ((let* w := marked mem p in modify (on_uri (f w)) ;;; modify (set_mark None)) ;;; ret false) (mkParser (Some m) u)
  = Ret false (mkParser None (f w u)).
Proof. intros Hat Hp. rewrite !bind_assoc, (bind_Ret _ _ _ _ _ (marked_word p m w (mkParser (Some m) u) eq_refl Hat Hp)). done. Qed.

Lemma save_host_word p m w u : at_mem m w → p = m + size w →
  act save_host p (mkParser (Some m) u) = Ret false (mkParser (Some m) (setHost w u)).
Proof.
  intros Hat Hp. unfold do_action. rewrite bind_gets. simpl.
  rewrite !bind_assoc, (bind_Ret _ _ _ _ _ (marked_word p m w (mkParser (Some m) u) eq_refl Hat Hp)). done.
Qed.
Lemma save_userinfo_word p m w u : at_mem m w → p = m + size w →
  act save_userinfo p (mkParser (Some m) u) = Ret false (mkParser None (setUserinfo w u)).
Proof.
  intros Hat Hp. unfold do_action. rewrite bind_gets. simpl.
  rewrite !bind_assoc, (bind_Ret _ _ _ _ _ (marked_word p m w (mkParser (Some m) u) eq_refl Hat Hp)). done.
Qed.

Lemma run_one a p s s' : act a p s = Ret false s' → run_actions act [a] p s = Ret false s'.
Proof. intros H. unfold run_actions. by rewrite (bind_Ret _ _ _ _ _ H). Qed.
Lemma run_cons a acts p s s1 s' : act a p s = Ret false s1 → run_actions act acts p s1 = Ret false s' →
  run_actions act (a :: acts) p s = Ret false s'.
Proof. intros H H1. cbn [run_actions]. by rewrite (bind_Ret _ _ _ _ _ H). Qed.

Lemma save_port_word p m n u : 0 ≤ n < 2 ^ 31 → at_mem m (to_string n +:+ "/") → p = m + size (to_string n) →
  act save_port p (mkParser (Some m) u) = Ret false (mkParser None (setPort n u)).
Proof.
  intros Hn Hat ->. destruct (to_string_digits n ltac:(lia)) as [_ Hne]. unfold do_action. rewrite bind_gets. simpl.
  assert (0 < size (to_string n)) as Hs.
  { destruct (to_string n) as [|c w]; [done|]. unfold size. simpl. lia. }
  rewrite (proj2 (Z.eqb_neq _ m)) by lia. destruct Hat as (pre & post & E & ->).
  rewrite E. unfold zlen. rewrite Nat2Z.id, drop_app_length, bytes_of_string_app, <- app_assoc.
  unfold to_string at 1. rewrite atoi_pretty; done.
Qed.

(** *** The parts of a URI *)
Lemma reads_scheme w u : scheme_ok w = true → at_mem 0 w →
  reads [451] 0 (w +:+ "://") (mkParser None u) [511] (mkParser None (setScheme w u)).
Proof.
  unfold scheme_ok. intros [Hf Hw]%andb_true_iff Hat. apply (reads_app _ _ _ _ [508] (mkParser (Some 0) u)).
  - by apply (reads_word _ _ _ _ alpha scheme_char [marku]); [by vm_compute|by vm_compute|done|done|].
  - apply (reads_app _ _ ":" _ [509] (mkParser None (setScheme w u)) "//").
    + apply (reads_char _ _ _ _ [save_scheme]); [by vm_compute|].
      apply run_one. by apply (save_word setScheme _ 0).
    + apply (reads_app _ _ "/" _ [510] (mkParser None (setScheme w u)) "/");
        by apply (reads_char _ _ _ _ []); [by vm_compute|].
Qed.

(** User information, if any. *)
Lemma reads_userinfo p w u : all_in reg_char w = true → at_mem p w →
  reads [511] p (w +:+ (if String.eqb w "" then "" else "@")) (mkParser None u) host_start
    (mkParser None (if String.eqb w "" then u else setUserinfo w u)).
Proof.
  intros Hw Hat. destruct (String.eqb_spec w "") as [->|Hn].
  - intros cs Hcs. exists cs. split; [|apply runs_nil]. unfold host_start. set_solver.
  - apply (reads_app _ _ _ _ reg_states (mkParser (Some p) u)).
    + apply (reads_word _ _ _ _ reg_char reg_char [markh]); [by vm_compute|by vm_compute| |done|done].
      destruct w as [|c w]; [done|]. by apply andb_true_iff in Hw as [? _].
    + apply (reads_char _ _ _ _ [save_userinfo]); [by vm_compute|]. apply run_one. by apply save_userinfo_word.
Qed.

(** The host and the slash that starts the path, with the port between them. *)
Lemma reads_host p w u port : nonempty w = true → all_in reg_char w = true → 0 ≤ port < 2 ^ 31 → (port = 0 → False) →
  at_mem p (w +:+ ":" +:+ to_string port +:+ "/") →
  reads host_start p (w +:+ ":" +:+ to_string port +:+ "/") (mkParser None u) [513]
    (mkParser (Some (p + size w + 1 + size (to_string port))) (setPort port (setHost w u))).
Proof.
  intros Hn Hw Hp Hp0 Hat. pose proof Hat as Hat0. apply at_mem_app in Hat as [Hh Hat]. apply at_mem_app in Hat as [_ Hat].
  change (size ":") with 1 in Hat.
  apply (reads_app _ _ _ _ host_states (mkParser (Some p) u)).
  { apply (reads_word _ _ _ _ reg_char reg_char [markh]); [by vm_compute|by vm_compute| |done|done].
    destruct w as [|c w]; [done|]. by apply andb_true_iff in Hw as [? _]. }
  apply (reads_app _ _ ":" _ port_start (mkParser (Some p) (setHost w u))).
  { apply (reads_char _ _ _ _ [save_host]); [by vm_compute|]. apply run_one. by apply save_host_word. }
  change (size ":") with 1. set (q := p + size w + 1) in *.
  apply (reads_app _ _ _ _ port_states (mkParser (Some q) (setHost w u))).
  { destruct (to_string_digits port ltac:(lia)) as [Hd Hne].
    apply (reads_word _ _ _ _ (between 48 57) (between 48 57) [markh]); [by vm_compute|by vm_compute| |done|done].
    destruct (to_string port) as [|c v]; [done|]. by apply andb_true_iff in Hd as [? _]. }
  apply (reads_char _ _ _ _ [save_port; markh]); [by vm_compute|].   apply (run_cons _ _ _ _ (mkParser None (setPort port (setHost w u)))); [by apply save_port_word|done].
Qed.

Lemma reads_host_default p w u : nonempty w = true → all_in reg_char w = true → at_mem p (w +:+ "/") →
  reads host_start p (w +:+ "/") (mkParser None u) [513] (mkParser (Some (p + size w)) (setHost w u)).
Proof.
  intros Hn Hw Hat. apply at_mem_app in Hat as [Hh _].
  apply (reads_app _ _ _ _ host_states (mkParser (Some p) u)).
  { apply (reads_word _ _ _ _ reg_char reg_char [markh]); [by vm_compute|by vm_compute| |done|done].
    destruct w as [|c w]; [done|]. by apply andb_true_iff in Hw as [? _]. }
  apply (reads_char _ _ _ _ [save_host; markh]); [by vm_compute|].
  apply (run_cons _ _ _ _ (mkParser (Some p) (setHost w u))); [by apply save_host_word|done].
Qed.

(** The rest after the path: its end, a query, a fragment, and what the end of
    the input saves. *)
Definition set_if (w : string) (f : string → Uri → Uri) (u : Uri) : Uri := if String.eqb w "" then u else f w u.
Definition tail_text (q fr : string) : string :=
  (if String.eqb q "" then "" else "?") +:+ q +:+ (if String.eqb fr "" then "" else "#") +:+ fr.

Lemma reads_fragment p X acts s u fr : set_goes block X (Z.eqb 35) acts [453] = true → all_in query_char fr = true →
  nonempty fr = true → run_actions act acts p s = Ret false (mkParser None u) →
  reads X p ("#" +:+ fr) s [454] (mkParser (Some (p + 1)) u).
Proof.
  intros HX Hf Hn Ha. apply (reads_app _ _ _ _ [453] (mkParser None u)).
  - by apply (reads_char _ _ _ _ acts).
  - apply (reads_word _ _ _ _ query_char query_char [marku]); [by vm_compute|by vm_compute| |done|done].
    destruct fr as [|c fr]; [done|]. by apply andb_true_iff in Hf as [? _].
Qed.

(** What a run leaves at the end [pe] of the input. *)
Definition ends (Y : list Z) pe s u : Prop :=
  ∀ cs, cs ∈ Y → uri_parser_first_final ≤ cs ∧ run_actions act (eof_actions cs) pe s = Ret false (mkParser None u).

Lemma ends_one cs a pe s u : eof_actions cs = [a] → 451 ≤ cs → act a pe s = Ret false (mkParser None u) → ends [cs] pe s u.
Proof. intros E Hc Ha c Hin. assert (c = cs) as -> by set_solver. split; [done|]. rewrite E. by apply run_one. Qed.

Lemma ends_path m w u : at_mem m w → ends [513] (m + size w) (mkParser (Some m) u) (setPath w u).
Proof. intros Hat. apply (ends_one 513 save_path); [done|done|]. by apply (save_word setPath _ m). Qed.

Lemma ends_query m w u : at_mem m w → ends [457] (m + size w) (mkParser (Some m) u) (setQuery w u).
Proof. intros Hat. apply (ends_one 457 save_query); [done|done|]. by apply (save_word setQuery _ m). Qed.

Lemma ends_fragment m w u : at_mem m w → ends [454] (m + size w) (mkParser (Some m) u) (setFragment w u).
Proof. intros Hat. apply (ends_one 454 save_fragment); [done|done|]. by apply (save_word setFragment _ m). Qed.

(** A fragment, or nothing, behind a part [w] that [a] saves. *)
Lemma reads_fragment_end (f : string → Uri → Uri) a cs m w u fr :
  set_goes block [cs] (Z.eqb 35) [a] [453] = true → (∀ p, p = m + size w → act a p (mkParser (Some m) u) = Ret false (mkParser None (f w u))) →
  ends [cs] (m + size w) (mkParser (Some m) u) (f w u) →
  all_in query_char fr = true → let p := m + size w in let t := (if String.eqb fr "" then "" else "#") +:+ fr in at_mem p t →
  ∃ Y s, reads [cs] p t (mkParser (Some m) u) Y s ∧ ends Y (p + size t) s (set_if fr setFragment (f w u)).
Proof.
  intros Hg Ha He Hf p t Hat. unfold set_if, t in *. destruct (String.eqb_spec fr "") as [->|Hn].
  - exists [cs], (mkParser (Some m) u). split; [apply reads_nil|]. change (size ("" +:+ "")) with 0. by rewrite Z.add_0_r.
  - apply at_mem_app in Hat as [_ Hat]. change (size "#") with 1 in Hat.
    exists [454], (mkParser (Some (p + 1)) (f w u)). split.
    + apply (reads_fragment _ _ [a]); [done|done|by apply negb_true_iff, String.eqb_neq|]. by apply run_one, Ha.
    + rewrite size_app, Z.add_assoc. by apply ends_fragment.
Qed.

Lemma reads_tail m w u q fr : all_in query_char q = true → all_in query_char fr = true → at_mem m (w +:+ tail_text q fr) →
  let p := m + size w in
  ∃ Y s, reads [513] p (tail_text q fr) (mkParser (Some m) u) Y s
  ∧ ends Y (p + size (tail_text q fr)) s (set_if fr setFragment (set_if q setQuery (setPath w u))).
Proof.
  intros Hq Hf Hat p. apply at_mem_app in Hat as [Hw Hat]. fold p in Hat. unfold tail_text in *. unfold set_if at 2.
  destruct (String.eqb_spec q "") as [->|Hn].
  - apply (reads_fragment_end setPath save_path 513); [by vm_compute| |by apply ends_path|done|done].
    intros p0 Hp0. by apply (save_word setPath _ m).
  - apply at_mem_app in Hat as [_ Hat]. change (size "?") with 1 in Hat. pose proof Hat as Hat1.
    apply at_mem_app in Hat as [Hq1 Hat].
    destruct (reads_fragment_end setQuery save_query 457 (p + 1) q (setPath w u) fr) as (Y & s & R & E);
      [by vm_compute| |by apply ends_query|done|done|].
    { intros p0 Hp0. by apply (save_word setQuery _ (p + 1)). }
    exists Y, s. split.
    + apply (reads_app _ _ "?" _ [456] (mkParser None (setPath w u))).
      * apply (reads_char _ _ _ _ [save_path]); [by vm_compute|]. apply run_one. by apply (save_word setPath _ m).
      * apply (reads_app _ _ q _ [457] (mkParser (Some (p + 1)) (setPath w u))); [|done].
        apply (reads_word _ _ _ _ query_char query_char [marku]); [by vm_compute|by vm_compute| |done|done].
        destruct q as [|c q]; [done|]. by apply andb_true_iff in Hq as [? _].
    + rewrite size_app, size_app, !Z.add_assoc. exact E.
Qed.
End roundtrip.

(** URIs whose text the grammar covers without percent-encoding and IP literals. *)
Record uri_ok (u : Uri) : Prop := {
  ok_scheme : scheme_ok (m_scheme u) = true;
  ok_userinfo : all_in reg_char (m_userinfo u) = true;
  ok_host : nonempty (m_host u) = true ∧ all_in reg_char (m_host u) = true;
  ok_path : abs_path_ok (m_path u) = true;
  ok_query : all_in query_char (m_query u) = true;
  ok_fragment : all_in query_char (m_fragment u) = true;
  ok_port : 0 ≤ m_port u < 2 ^ 31;
  ok_size : size (toString u) < string_max_size
}.

(** What is parsed: a default path and a default port become explicit. *)
Definition normal (u : Uri) : Uri := setPort (if isDefaultPort u then 0 else m_port u) (setPath (getPath u) u).

(** The host, with or without a port, and the slash of the path. *)
Lemma reads_authority_end mem p u v : zlen mem ≤ string_max_size → uri_ok u →
  let port := if isDefaultPort u then "" else ":" +:+ to_string (m_port u) in
  at_mem mem p ((m_host u +:+ port) +:+ "/") → m_port v = 0 →
  reads mem host_start p ((m_host u +:+ port) +:+ "/") (mkParser None v) [513]
    (mkParser (Some (p + size (m_host u +:+ port))) (setPort (if isDefaultPort u then 0 else m_port u) (setHost (m_host u) v))).
Proof.
  intros Hmem H port Hat Hv. destruct (ok_host u H) as [Hn Hw]. unfold port in *. destruct (isDefaultPort u) eqn:Ed.
  - replace (m_host u +:+ "") with (m_host u) in * by (symmetry; apply string_app_nil_r).
    assert (setPort 0 (setHost (m_host u) v) = setHost (m_host u) v) as -> by (destruct v; simpl in *; by subst).
    by apply reads_host_default.
  - rewrite <- !string_app_assoc in *. rewrite !size_app, Z.add_assoc. change (size ":") with 1. rewrite Z.add_assoc.
    apply reads_host; try done; [apply (ok_port u H)|]. intros E. unfold isDefaultPort in Ed. by rewrite E in Ed.
Qed.

(** The path's slash is the last character before its rest. *)
Lemma getPath_slash u : uri_ok u → ∃ rest, getPath u = "/" +:+ rest ∧ all_in path_char rest = true.
Proof.
  intros H. pose proof (ok_path u H) as Hp. unfold abs_path_ok, getPath in *.
  destruct (m_path u) as [|c w]; [by exists ""%string|]. simpl.
  change (bytes_of_string (String c w)) with (char_code c :: bytes_of_string w) in Hp.
  apply andb_true_iff in Hp as [Hc%Z.eqb_eq Hw]. exists w. split; [|done].
  apply (f_equal (λ x, String x w)). rewrite <- (code_char_code c), Hc. done.
Qed.

(** The whole text. *)
Lemma reads_uri mem u rest : zlen mem ≤ string_max_size → uri_ok u → getPath u = "/" +:+ rest → all_in path_char rest = true →
  at_mem mem 0 (toString u) →
  ∃ Y s, reads mem [451] 0 (toString u) (mkParser None Uri_new) Y s ∧ ends mem Y (size (toString u)) s (normal u).
Proof.
  intros Hmem H Hpath Hrest Hat.
  set (ui := m_userinfo u +:+ (if String.eqb (m_userinfo u) "" then "" else "@")).
  set (hp := m_host u +:+ (if isDefaultPort u then "" else ":" +:+ to_string (m_port u))).
  assert (toString u = (m_scheme u +:+ "://") +:+ ui +:+ (hp +:+ "/") +:+ rest +:+ tail_text (m_query u) (m_fragment u)) as Et.
  { unfold toString, dump, ui, hp, tail_text. rewrite Hpath, <- !string_app_assoc. done. }
  rewrite Et in *. pose proof Hat as Hat0.
  apply at_mem_app in Hat0 as [Hs Hat0]. apply at_mem_app in Hs as [Hs _]. set (p1 := 0 + size _) in Hat0.
  apply at_mem_app in Hat0 as [Hu Hat0]. unfold ui in Hu. apply at_mem_app in Hu as [Hu _]. set (p2 := p1 + size _) in Hat0.
  pose proof Hat0 as Hp. rewrite <- string_app_assoc in Hp. apply at_mem_app in Hp as [_ Hp]. set (p3 := p2 + size hp) in Hp.
  apply at_mem_app in Hat0 as [Hh _]. rewrite string_app_assoc, <- Hpath in Hp.
  set (u1 := setScheme (m_scheme u) Uri_new).
  set (u2 := if String.eqb (m_userinfo u) "" then u1 else setUserinfo (m_userinfo u) u1).
  set (u3 := setPort (if isDefaultPort u then 0 else m_port u) (setHost (m_host u) u2)).
  destruct (reads_tail mem Hmem p3 (getPath u) u3 (m_query u) (m_fragment u) (ok_query u H) (ok_fragment u H) Hp)
    as (Y & s & R & E).
  exists Y, s. split.
  - eapply reads_app; [by apply reads_scheme, Hs; try apply (ok_scheme u H)|].
    eapply reads_app; [by apply reads_userinfo; [|apply (ok_userinfo u H)|exact Hu]|]. fold u1 u2 p1 p2.
    eapply reads_app; [by apply reads_authority_end; [| |exact Hh|unfold u2; case_match]|]. fold hp u3 p3.
    eapply reads_app; [by apply (reads_loop mem [513] _ _ _ path_char); [by vm_compute|]|].
    rewrite Hpath, size_app in R. replace (p2 + size (hp +:+ "/") + size rest) with (p3 + (size "/" + size rest)); [done|].
    rewrite size_app. unfold p3. lia.
  - replace (size _) with (p3 + size (getPath u) + size (tail_text (m_query u) (m_fragment u))).
    + replace (normal u) with (set_if (m_fragment u) setFragment (set_if (m_query u) setQuery (setPath (getPath u) u3))); [done|].
      unfold normal, u3, u2, u1, set_if. destruct u as [sc us ho pa qu fr po]; simpl.
      destruct (String.eqb_spec us "") as [->|], (String.eqb_spec qu "") as [->|], (String.eqb_spec fr "") as [->|]; done.
    + rewrite Hpath, !size_app. unfold p3, p2, p1. rewrite !size_app. lia.
Qed.

(** The normal form differs in what the getters and the printed text hide. *)
Lemma normal_same u : getPort (normal u) = getPort u ∧ toString (normal u) = toString u.
Proof.
  assert (isDefaultPort (normal u) = isDefaultPort u ∧ getPort (normal u) = getPort u
    ∧ (isDefaultPort u = false → m_port (normal u) = m_port u)) as (Hd & Hp & Hm).
  { destruct u as [sc us ho pa qu fr po]. unfold normal, getPort, isDefaultPort; simpl.
    generalize (String.eqb sc "http" || String.eqb sc "ws") (String.eqb sc "https" || String.eqb sc "wss"). intros b1 b2.
    destruct (Z.eqb_spec po 0) as [->|Hn]; [done|]. apply Z.eqb_neq in Hn.
    destruct b1; [destruct (Z.eqb_spec po 80) as [->|H80]|destruct b2; [destruct (Z.eqb_spec po 443) as [->|H80]|]];
      rewrite ?Hn; try done; apply Z.eqb_neq in H80; by rewrite H80. }
  split; [done|]. unfold toString, dump. rewrite Hd.
  assert (getPath (normal u) = getPath u) as ->.
  { unfold normal, getPath; simpl. by destruct (String.eqb_spec (m_path u) ""); [|destruct (String.eqb_spec (m_path u) "")]. }
  destruct (isDefaultPort u); [done|]. by rewrite Hm.
Qed.

(** C7: Round trip.  [Uri::Create] of the text that [Uri::toString] prints
    gives the URI back, with the default path written out and the scheme's
    default port left to the scheme; the port in effect and the printed text
    are the same. *)
Theorem uri_roundtrip u : uri_ok u →
  (∃ s, Create (toString u) = Ret (Some (normal u)) s)
  ∧ getPort (normal u) = getPort u ∧ toString (normal u) = toString u.
Proof.
  intros H. split.
  - destruct (getPath_slash u H) as (rest & Hpath & Hrest). pose proof (ok_size u H) as Hsize.
    set (input := bytes_of_string (toString u)). assert (zlen input = size (toString u)) as Hin by apply size_bytes.
    destruct (reads_uri (input ++ [0]) u rest) as (Y & s & R & E); try done.
    + rewrite zlen_app. change (zlen [0]) with 1. lia.
    + by exists [], [0].
    + destruct (R 451 ltac:(set_solver)) as (cs & Hcs & Hrun). destruct (E cs Hcs) as [Hf He].
      exists (mkParser None (normal u)). unfold Create. fold input.
      specialize (Hrun []). rewrite app_nil_r in Hrun. unfold exec, uri_parser_start. fold input in Hrun.
      rewrite (bind_Ret _ _ _ _ _ Hrun), Z.add_0_l, Z.eqb_refl, Hin, bind_assoc, (bind_Ret _ _ _ _ _ He), bind_ret, bind_gets.
      unfold uri_parser_error, uri_parser_first_final in *. rewrite (proj2 (Z.eqb_neq cs 0)), (proj2 (Z.leb_le 451 cs)) by lia.
      done.
  - by apply normal_same.
Qed.

Lemma uri_roundtrip_witness :
  let u := mkUri "http" "user" "www.example.com" "" "a=1&b=2" "top" 8080 in
  (∃ s, Create (toString u) = Ret (Some (normal u)) s)
  ∧ getPort (normal u) = getPort u ∧ toString (normal u) = toString u.
Proof. apply uri_roundtrip. constructor; by vm_compute. Defined.
