(* ===== verification/Servlet.v ===== *)
(** * Servlet: servlets and their dispatch ([include/http/servlet.h], [src/http/servlet.cpp])

    A handler works on the request, the response and the session that its
    arguments point to.  [fnmatch] is the C library's; a shared pointer that may
    be null is an [option].  Every operation of the dispatcher runs under its
    lock, so it is one step. *)
From S2P Require Import Prelude Http HttpRequest HttpResponse.

Section servlet.
Context {Session : Type}.

(** What a handler may read and change. *)
Record exchange := mkExchange { request : HttpRequest; response : HttpResponse; session : Session }.
Definition callback : Type := exchange → Z * exchange.

(** The classes derived from [Servlet]; a class of the user is its [handle]. *)
Inductive Servlet :=
  | FunctionServlet (m_cb : callback)
  | NotFoundServlet
  | UserServlet (m_name : string) (user_handle : callback).

Definition getName (s : Servlet) : string :=
  match s with
  | FunctionServlet _ => "FunctionServlet"
  | NotFoundServlet => "NotFoundServlet"
  | UserServlet n _ => n
  end.

Definition RSP_BODY : string :=
  "<html><head><title>404 Not Found" +:+ "</title></head><body><center><h1>404 Not Found</h1></center>"
  +:+ "<hr><center>azure/1.0.0</center></body></html>".

(** [HttpStatus::NOT_FOUND] *)
Definition NOT_FOUND : HttpStatus := 404.

Definition NotFoundServlet_handle : callback := λ x,
  let r := response x in
  let r := HttpResponse.setStatus NOT_FOUND r in
  let r := HttpResponse.setHeader "Server" "azure/1.0.0" r in
  let r := HttpResponse.setHeader "Content-Type" "text/html" r in
  let r := HttpResponse.setBody RSP_BODY r in
  (0, mkExchange (request x) r (session x)).

Definition servlet_handle (s : Servlet) : callback :=
  match s with
  | FunctionServlet cb => cb
  | NotFoundServlet => NotFoundServlet_handle
  | UserServlet _ h => h
  end.

Record ServletDispatch := mkDispatch {
  m_datas : gmap string (option Servlet);
  m_globs : list (string * option Servlet);
  m_default : option Servlet
}.

Definition ServletDispatch_new : ServletDispatch := mkDispatch ∅ [] (Some NotFoundServlet).

Definition addServlet (uri : string) (slt : option Servlet) (d : ServletDispatch) : ServletDispatch :=
  mkDispatch (<[uri := slt]> (m_datas d)) (m_globs d) (m_default d).
Definition addServlet_cb (uri : string) (cb : callback) (d : ServletDispatch) : ServletDispatch :=
  addServlet uri (Some (FunctionServlet cb)) d.

(** The loop that erases the first entry of [uri]. *)
Fixpoint erase_glob (uri : string) (l : list (string * option Servlet)) : list (string * option Servlet) :=
  match l with
  | [] => []
  | g :: l => if String.eqb g.1 uri then l else g :: erase_glob uri l
  end.

Definition addGlobServlet (uri : string) (slt : option Servlet) (d : ServletDispatch) : ServletDispatch :=
  mkDispatch (m_datas d) (erase_glob uri (m_globs d) ++ [(uri, slt)]) (m_default d).
Definition addGlobServlet_cb (uri : string) (cb : callback) (d : ServletDispatch) : ServletDispatch :=
  addGlobServlet uri (Some (FunctionServlet cb)) d.

Definition delServlet (uri : string) (d : ServletDispatch) : ServletDispatch :=
  mkDispatch (delete uri (m_datas d)) (m_globs d) (m_default d).
Definition delGlobServlett (uri : string) (d : ServletDispatch) : ServletDispatch :=
  mkDispatch (m_datas d) (erase_glob uri (m_globs d)) (m_default d).

Definition getDefault (d : ServletDispatch) : option Servlet := m_default d.
Definition setDefault (v : option Servlet) (d : ServletDispatch) : ServletDispatch :=
  mkDispatch (m_datas d) (m_globs d) v.

Definition getServlet (uri : string) (d : ServletDispatch) : option Servlet := mjoin (m_datas d !! uri).

Fixpoint find_glob (f : string → bool) (l : list (string * option Servlet)) : option (option Servlet) :=
  match l with
  | [] => None
  | g :: l => if f g.1 then Some g.2 else find_glob f l
  end.
Definition getGlobServlet (uri : string) (d : ServletDispatch) : option Servlet :=
  mjoin (find_glob (λ g, String.eqb g uri) (m_globs d)).

(** [fnmatch(pattern, string, 0) == 0], on the C strings. *)
Variable fnmatch : string → string → bool.

Definition getMatchedServlet (uri : string) (d : ServletDispatch) : option Servlet :=
  match m_datas d !! uri with
  | Some slt => slt
  | None =>
      match find_glob (λ g, fnmatch (c_str g) (c_str uri)) (m_globs d) with
      | Some slt => slt
      | None => m_default d
      end
  end.

(** [ServletDispatch::handle] *)
Definition handle (d : ServletDispatch) : callback := λ x,
  match getMatchedServlet (m_path (request x)) d with
  | Some slt => (0, (servlet_handle slt x).2)
  | None => (0, x)
  end.

(** ** Sequences of registrations *)
Inductive op :=
  | Add (uri : string) (slt : option Servlet)
  | Del (uri : string)
  | AddGlob (uri : string) (slt : option Servlet)
  | DelGlob (uri : string)
  | SetDefault (slt : option Servlet).

Definition apply_op (o : op) (d : ServletDispatch) : ServletDispatch :=
  match o with
  | Add u s => addServlet u s d
  | Del u => delServlet u d
  | AddGlob u s => addGlobServlet u s d
  | DelGlob u => delGlobServlett u d
  | SetDefault s => setDefault s d
  end.
Definition apply_ops (ops : list op) (d : ServletDispatch) : ServletDispatch := foldl (λ d o, apply_op o d) d ops.

(** The specification, read off the history: the servlet last registered for
    [uri] and not deleted since; the patterns in the order of their last
    registration; the default last set. *)
Fixpoint exact_of (uri : string) (cur : option (option Servlet)) (ops : list op) : option (option Servlet) :=
  match ops with
  | [] => cur
  | Add u s :: ops => exact_of uri (if String.eqb u uri then Some s else cur) ops
  | Del u :: ops => exact_of uri (if String.eqb u uri then None else cur) ops
  | _ :: ops => exact_of uri cur ops
  end.
Definition touches (uri : string) (o : op) : bool :=
  match o with AddGlob u _ | DelGlob u => String.eqb u uri | _ => false end.
Fixpoint globs_of (ops : list op) : list (string * option Servlet) :=
  match ops with
  | [] => []
  | AddGlob u s :: ops => if existsb (touches u) ops then globs_of ops else (u, s) :: globs_of ops
  | _ :: ops => globs_of ops
  end.
Fixpoint default_of (cur : option Servlet) (ops : list op) : option Servlet :=
  match ops with
  | [] => cur
  | SetDefault s :: ops => default_of s ops
  | _ :: ops => default_of cur ops
  end.

Lemma exact_of_ops uri ops d : m_datas (apply_ops ops d) !! uri = exact_of uri (m_datas d !! uri) ops.
Proof.
  revert d. induction ops as [|[u s|u|u s|u|s] ops IH]; intros d; simpl; [done|..]; rewrite IH; simpl; try done;
    destruct (String.eqb_spec u uri) as [->|]; by simplify_map_eq.
Qed.
Lemma default_of_ops ops d : m_default (apply_ops ops d) = default_of (m_default d) ops.
Proof. revert d. induction ops as [|[u s|u|u s|u|s] ops IH]; intros d; simpl; [done|..]; by rewrite IH. Qed.

(** The entries that no operation of [ops] touches. *)
Definition kept (ops : list op) (g : string * option Servlet) : bool := negb (existsb (touches g.1) ops).

Lemma erase_glob_filter uri l : NoDup l.*1 → erase_glob uri l = List.filter (λ g, negb (String.eqb uri g.1)) l.
Proof.
  induction l as [|[u s] l IH]; simpl; [done|]. intros [Hu Hl]%NoDup_cons. rewrite String.eqb_sym.
  destruct (String.eqb_spec uri u) as [->|Hn]; simpl; [|by rewrite IH].
  rewrite <- IH by done. clear IH Hl. induction l as [|[u' s'] l IH]; simpl; [done|].
  destruct (String.eqb_spec u' u) as [->|]; [set_solver|]. rewrite IH at 1; [done|set_solver].
Qed.

Lemma filter_NoDup (f : string * option Servlet → bool) l : NoDup l.*1 → NoDup (List.filter f l).*1.
Proof.
  induction l as [|g l IH]; simpl; [done|]. intros [Hg Hl]%NoDup_cons. destruct (f g); simpl; [|auto].
  constructor; [|auto]. intros Hin. apply Hg. apply list_elem_of_fmap in Hin as (g' & E & Hin).
  apply list_elem_of_In, List.filter_In in Hin as [Hin _]. apply list_elem_of_fmap. exists g'. split; [done|]. by apply list_elem_of_In.
Qed.

Lemma filter_filter (f h : string * option Servlet → bool) l :
  List.filter f (List.filter h l) = List.filter (λ g, h g && f g) l.
Proof. induction l as [|g l IH]; simpl; [done|]. destruct (h g); simpl; [destruct (f g)|]; by rewrite IH. Qed.

Lemma filter_ext_all (f h : string * option Servlet → bool) l : (∀ g, f g = h g) → List.filter f l = List.filter h l.
Proof. intros H. induction l as [|g l IH]; simpl; [done|]. by rewrite H, IH. Qed.

(** The patterns after [ops]: the old ones that [ops] leaves alone, then those of [ops]. *)
Lemma globs_of_ops ops d : NoDup (m_globs d).*1 →
  m_globs (apply_ops ops d) = List.filter (kept ops) (m_globs d) ++ globs_of ops ∧ NoDup (m_globs (apply_ops ops d)).*1.
Proof.
  revert d. induction ops as [|o ops IH]; intros d Hd.
  - simpl. rewrite app_nil_r. split; [|done]. induction (m_globs d) as [|g l IHl]; simpl; [done|].
    rewrite <- IHl; [done|]. by apply NoDup_cons in Hd as [_ ?].
  - assert (NoDup (m_globs (apply_op o d)).*1) as Hd'.
    { destruct o as [u s|u|u s|u|s]; simpl; try done; rewrite erase_glob_filter by done; [|by apply filter_NoDup].
      rewrite fmap_app. apply NoDup_app. split; [by apply filter_NoDup|]. split; [|by apply NoDup_singleton].
      intros x Hx Hx'. apply list_elem_of_fmap in Hx as (g & -> & Hg). apply list_elem_of_In, List.filter_In in Hg as [_ Hg].
      simpl in Hx'. apply negb_true_iff, String.eqb_neq in Hg. set_solver. }
    destruct (IH _ Hd') as [E Hn]. split; [|done]. simpl. rewrite E.
    destruct o as [u s|u|u s|u|s]; simpl; try done; rewrite erase_glob_filter by done.
    + rewrite List.filter_app, <- app_assoc, filter_filter. f_equal; [apply filter_ext_all; intros g; unfold kept; simpl; by rewrite negb_orb|]. simpl.
      unfold kept; simpl. by destruct (existsb (touches u) ops).
    + rewrite filter_filter. f_equal. apply filter_ext_all. intros g. unfold kept; simpl. by rewrite negb_orb.
Qed.

(** C28: Refinement.  Whatever servlets are registered and deleted in whatever
    order, a path is served by the servlet last registered for it and not
    deleted since; else by the first pattern that matches, in the order of their
    last registrations; else by the default. *)
Theorem dispatch_refines ops uri :
  getMatchedServlet uri (apply_ops ops ServletDispatch_new)
  = match exact_of uri None ops with
    | Some slt => slt
    | None => match find_glob (λ g, fnmatch (c_str g) (c_str uri)) (globs_of ops) with
              | Some slt => slt
              | None => default_of (Some NotFoundServlet) ops
              end
    end
  ∧ getServlet uri (apply_ops ops ServletDispatch_new) = mjoin (exact_of uri None ops)
  ∧ getGlobServlet uri (apply_ops ops ServletDispatch_new) = mjoin (find_glob (λ g, String.eqb g uri) (globs_of ops)).
Proof.
  unfold getMatchedServlet, getServlet, getGlobServlet. rewrite exact_of_ops, default_of_ops.
  destruct (globs_of_ops ops ServletDispatch_new) as [-> _]; [constructor|]. simpl. done.
Qed.
End servlet.
