(* ===== verification/IOManager.v ===== *)
(** * IOManager: events on file descriptors ([include/iomanager.h], [src/iomanager.cpp])

    Schedulers, fibers and callbacks are named by numbers.  Contexts are named by
    their descriptors: once found, a context is the same object for as long as the
    vector is not made shorter, so an operation is one step, the one in which it
    holds the mutex of its [FdContext].  [addEvent] has steps of its own: it looks
    under the read lock, grows the vector under the write lock, and works on the
    context under its mutex.  [epoll_ctl] is the
    kernel's: its result is an argument ([rt]) of the operation that calls it, and
    [epoll] records what the successful calls registered.  [scheduled] lists the
    calls of [Scheduler::schedule], each with the scheduler it was made on. *)
From S2P Require Import Prelude.

Definition NONE : Z := 0.
Definition READ : Z := 1.
Definition WRITE : Z := 4.

(** [sys/epoll.h] *)
Definition EPOLLIN : Z := 1.
Definition EPOLLOUT : Z := 4.
Definition EPOLLERR : Z := 8.
Definition EPOLLHUP : Z := 16.
Definition EPOLLET : Z := 2 ^ 31.
Inductive ctl := EPOLL_CTL_ADD | EPOLL_CTL_MOD | EPOLL_CTL_DEL.

Inductive task := TaskFiber (f : Z) | TaskCb (c : Z).
#[export] Instance task_eq_dec : EqDecision task.
Proof. solve_decision. Defined.

Record EventContext := mkEvent { scheduler : option Z; fiber : option Z; cb : option Z }.
Definition EventContext_new : EventContext := mkEvent None None None.

Record FdContext := mkFd { fd_of : Z; read : EventContext; write : EventContext; events : Z }.
Definition FdContext_new (i : nat) : FdContext := mkFd (Z.of_nat i) EventContext_new EventContext_new NONE.

Record IOManager := mkIOManager {
  m_fdContexts : list FdContext;
  m_pendingEventCount : Z;
  epoll : gmap Z Z;
  scheduled : list (Z * task)
}.

Definition set_contexts v s := mkIOManager v (m_pendingEventCount s) (epoll s) (scheduled s).
Definition set_pending v s := mkIOManager (m_fdContexts s) v (epoll s) (scheduled s).
Definition set_epoll v s := mkIOManager (m_fdContexts s) (m_pendingEventCount s) v (scheduled s).
Definition set_scheduled v s := mkIOManager (m_fdContexts s) (m_pendingEventCount s) (epoll s) v.
Definition set_events v c := mkFd (fd_of c) (read c) (write c) v.

(** [a & b], as a condition *)
Definition both (a b : Z) : bool := negb (Z.land a b =? 0).
(** [a & ~b] *)
Definition without (a b : Z) : Z := Z.land a (Z.lnot b).

Definition assert (b : bool) : ST IOManager unit := if b then ret tt else crash AssertFailed.

(** [m_fdContexts[fd]], unchecked, and a store to what it points to *)
Definition get_ctx (fd : Z) : ST IOManager FdContext :=
  let* l := gets m_fdContexts in
  if fd <? 0 then crash OutOfBounds
  else match l !! Z.to_nat fd with Some c => ret c | None => crash OutOfBounds end.
Definition set_ctx (fd : Z) (c : FdContext) : ST IOManager unit :=
  modify (λ s, set_contexts (<[Z.to_nat fd := c]> (m_fdContexts s)) s).

(** [getContext], and a store through the reference it gives *)
Definition getContext (c : FdContext) (event : Z) : ST IOManager EventContext :=
  if event =? READ then ret (read c) else if event =? WRITE then ret (write c) else crash AssertFailed.
Definition put_context (event : Z) (e : EventContext) (c : FdContext) : FdContext :=
  if event =? READ then mkFd (fd_of c) e (write c) (events c) else mkFd (fd_of c) (read c) e (events c).

Definition resetContext : EventContext := mkEvent None None None.

Definition schedule (s : Z) (t : option task) : ST IOManager unit :=
  match t with
  | Some t => modify (λ x, set_scheduled (scheduled x ++ [(s, t)]) x)
  | None => ret tt
  end.

(** [FdContext::triggerEvent]: [schedule(&ctx.cb)] swaps the callback out. *)
Definition triggerEvent (fd event : Z) : ST IOManager unit :=
  let* c := get_ctx fd in
  assert (both (events c) event) ;;;
  let c := set_events (without (events c) event) c in
  let* ctx := getContext c event in
  match scheduler ctx with
  | None => crash NullDeref
  | Some s =>
      match cb ctx with
      | Some f => schedule s (Some (TaskCb f)) ;;; set_ctx fd (put_context event (mkEvent None (fiber ctx) None) c)
      | None => schedule s (TaskFiber <$> fiber ctx) ;;; set_ctx fd (put_context event (mkEvent None None None) c)
      end
  end.

Definition pending_add (d : Z) : ST IOManager unit :=
  modify (λ s, set_pending (u64 (m_pendingEventCount s + d)) s).

(** [epoll_ctl(m_epollfd, op, fd, &epevent)] with result [rt] *)
Definition epoll_ctl (rt : Z) (op : ctl) (fd ev : Z) : ST IOManager Z :=
  (if rt =? 0 then modify (λ s, set_epoll (match op with EPOLL_CTL_DEL => delete fd (epoll s) | _ => <[fd := ev]> (epoll s) end) s)
   else ret tt) ;;; ret rt.

Definition contextResize (size : nat) : ST IOManager unit :=
  modify (λ s, let l := take size (m_fdContexts s) in
    set_contexts (l ++ (FdContext_new <$> seq (length l) (size - length l))) s).

(** An [IOManager] with its first contexts *)
Definition IOManager_new : IOManager := mkIOManager (FdContext_new <$> seq 0 32) 0 ∅ [].
(** The constructor up to [start], with the results of [epoll_create], [pipe],
    [fcntl] and the [epoll_ctl] that registers the pipe; [epoll] holds the
    contexts' registrations only. *)
Definition IOManager_construct (m_epollfd pipe_rt fcntl_rt ctl_rt : Z) : ST IOManager unit :=
  assert (0 <? m_epollfd) ;;;
  assert (pipe_rt =? 0) ;;;
  assert (fcntl_rt =? 0) ;;;
  assert (ctl_rt =? 0) ;;;
  contextResize 32.
(** The end of the destructor, behind [stop] and the closing of its three descriptors *)
Definition IOManager_destroy : ST IOManager unit := modify (set_contexts []).

(** [addEvent] under the read lock: whether there is a context ... *)
Definition find_context (fd : Z) : ST IOManager bool :=
  let* l := gets m_fdContexts in ret (fd <? i32 (zlen l)).
(** ... under the write lock, if there was none: the vector is resized, whatever its
    size is now, and the context is looked up ... *)
Definition grow_contexts (fd : Z) : ST IOManager unit :=
  contextResize (Z.to_nat (Z.quot (fd * 3) 2)) ;;;
  let* _ := get_ctx fd in ret tt.
(** ... and under the context's mutex; [cur_s], [cur_f]: [Scheduler::GetThis()] and
    [Fiber::GetThis()]. *)
Definition add_to_context (cur_s : option Z) (cur_f rt fd event : Z) (f : option Z) : ST IOManager Z :=
  let* c := get_ctx fd in
  assert (negb (both (events c) event)) ;;;
  let op := if events c =? 0 then EPOLL_CTL_ADD else EPOLL_CTL_MOD in
  let* r := epoll_ctl rt op fd (Z.lor (Z.lor EPOLLET (events c)) event) in
  if negb (r =? 0) then ret (-1)
  else
    pending_add 1 ;;;
    let c := set_events (Z.lor (events c) event) c in
    set_ctx fd c ;;;
    let* ctx := getContext c event in
    assert (bool_decide (scheduler ctx = None) && bool_decide (fiber ctx = None) && bool_decide (cb ctx = None)) ;;;
    match cur_s with
    | None => crash AssertFailed
    | Some s =>
        set_ctx fd (put_context event
          (match f with
           | Some _ => mkEvent (Some s) (fiber ctx) f
           | None => mkEvent (Some s) (Some cur_f) (cb ctx)
           end) c) ;;;
        ret 0
    end.

(** All of it, when no other thread comes in between. *)
Definition addEvent (cur_s : option Z) (cur_f rt fd event : Z) (f : option Z) : ST IOManager Z :=
  let* found := find_context fd in
  (if found then ret tt else grow_contexts fd) ;;;
  add_to_context cur_s cur_f rt fd event f.

Definition delEvent (rt fd event : Z) : ST IOManager bool :=
  let* l := gets m_fdContexts in
  if i32 (zlen l) <=? fd then ret false
  else
    let* c := get_ctx fd in
    if negb (both (events c) event) then ret false
    else
      let new_events := without (events c) event in
      let op := if new_events =? 0 then EPOLL_CTL_DEL else EPOLL_CTL_MOD in
      let* r := epoll_ctl rt op fd (Z.lor EPOLLET new_events) in
      if negb (r =? 0) then ret false
      else
        pending_add (-1) ;;;
        let c := set_events new_events c in
        let* _ := getContext c event in
        set_ctx fd (put_context event resetContext c) ;;;
        ret true.

Definition cancelEvent (rt fd event : Z) : ST IOManager bool :=
  let* l := gets m_fdContexts in
  if i32 (zlen l) <=? fd then ret false
  else
    let* c := get_ctx fd in
    if negb (both (events c) event) then ret false
    else
      let new_events := without (events c) event in
      let op := if new_events =? 0 then EPOLL_CTL_DEL else EPOLL_CTL_MOD in
      let* r := epoll_ctl rt op fd (Z.lor EPOLLET new_events) in
      if negb (r =? 0) then ret false
      else
        triggerEvent fd event ;;;
        pending_add (-1) ;;;
        ret true.

(** [if(fd_ctx->events & event) { triggerEvent(event); --m_pendingEventCount; }] *)
Definition trigger_if (b : bool) (fd event : Z) : ST IOManager unit :=
  if b then triggerEvent fd event ;;; pending_add (-1) else ret tt.

Definition cancelAll (rt fd : Z) : ST IOManager bool :=
  let* l := gets m_fdContexts in
  if i32 (zlen l) <=? fd then ret false
  else
    let* c := get_ctx fd in
    if events c =? 0 then ret false
    else
      let* r := epoll_ctl rt EPOLL_CTL_DEL fd 0 in
      if negb (r =? 0) then ret false
      else
        trigger_if (both (events c) READ) fd READ ;;;
        let* c := get_ctx fd in
        trigger_if (both (events c) WRITE) fd WRITE ;;;
        let* c := get_ctx fd in
        assert (events c =? 0) ;;;
        ret true.

(** What a reported event asks for. *)
Definition real_events (reported : Z) : Z :=
  let ev := if both reported (Z.lor EPOLLERR EPOLLHUP) then Z.lor reported (Z.lor EPOLLIN EPOLLOUT) else reported in
  Z.lor (if both ev EPOLLIN then READ else NONE) (if both ev EPOLLOUT then WRITE else NONE).

(** The body of the loop of [idle] over the events that [epoll_wait] reported,
    for the context of [fd]. *)
Definition handle_event (rt fd reported : Z) : ST IOManager unit :=
  let* c := get_ctx fd in
  let real := real_events reported in
  if Z.land (events c) real =? NONE then ret tt
  else
    let left_events := without (events c) real in
    let op := if left_events =? 0 then EPOLL_CTL_DEL else EPOLL_CTL_MOD in
    let* r := epoll_ctl rt op (fd_of c) (Z.lor EPOLLET left_events) in
    if negb (r =? 0) then ret tt
    else
      trigger_if (both real READ) fd READ ;;;
      trigger_if (both real WRITE) fd WRITE.

(** ** The event registrations as a table of waiting handlers *)
(** A handler: what to schedule, and on which scheduler. *)
Definition handler : Type := Z * task.
(** The handlers that wait on a descriptor, for reading and for writing. *)
Definition slots : Type := option handler * option handler.
#[export] Instance slots_eq_dec : EqDecision slots.
Proof. unfold slots, handler. apply _. Defined.
Definition no_slots : slots := (None, None).

Definition get_slot (event : Z) (x : slots) : option handler := if event =? READ then x.1 else x.2.
Definition set_slot (event : Z) (v : option handler) (x : slots) : slots := if event =? READ then (v, x.2) else (x.1, v).

(** How the code holds them. *)
Definition context_of (h : option handler) : EventContext :=
  match h with
  | None => EventContext_new
  | Some (s, TaskFiber f) => mkEvent (Some s) (Some f) None
  | Some (s, TaskCb c) => mkEvent (Some s) None (Some c)
  end.
Definition events_of (x : slots) : Z := (if x.1 then READ else 0) + (if x.2 then WRITE else 0).
Definition concrete (i : nat) (x : slots) : FdContext := mkFd (Z.of_nat i) (context_of x.1) (context_of x.2) (events_of x).
(** What the kernel was told. *)
Definition registered (x : slots) : option Z := if events_of x =? 0 then None else Some (Z.lor EPOLLET (events_of x)).
Definition waiting (x : slots) : list handler := option_list x.1 ++ option_list x.2.

Definition event_ok (event : Z) : Prop := event = READ ∨ event = WRITE.

(** ** Bits *)
Lemma both_event event x : event_ok event → both (events_of x) event = if get_slot event x then true else false.
Proof. intros [->| ->]; destruct x as [[|] [|]]; reflexivity. Qed.
Lemma without_event event x : event_ok event → without (events_of x) event = events_of (set_slot event None x).
Proof. intros [->| ->]; destruct x as [[|] [|]]; reflexivity. Qed.
Lemma lor_event event x h : event_ok event → Z.lor (events_of x) event = events_of (set_slot event (Some h) x).
Proof. intros [->| ->]; destruct x as [[|] [|]]; reflexivity. Qed.
Lemma events_of_0 x : (events_of x =? 0) = bool_decide (x = no_slots).
Proof. by destruct x as [[|] [|]]. Qed.
Lemma getContext_slot event i x s : event_ok event → ∀ ev, getContext (mkFd i (context_of x.1) (context_of x.2) ev) event s = Ret (context_of (get_slot event x)) s.
Proof. by intros [->| ->]. Qed.
Lemma put_context_slot event i x v ev : event_ok event →
  put_context event (context_of v) (mkFd (Z.of_nat i) (context_of x.1) (context_of x.2) ev)
  = mkFd (Z.of_nat i) (context_of (set_slot event v x).1) (context_of (set_slot event v x).2) ev.
Proof. by intros [->| ->]. Qed.

(** ** The table behind the contexts *)
Record contexts_ok (s : IOManager) (a : list slots) : Prop := {
  ok_length : length (m_fdContexts s) = length a;
  ok_lookup : ∀ i, m_fdContexts s !! i = concrete i <$> a !! i
}.

Definition pending (a : list slots) : list handler := concat (waiting <$> a).

(** The representation: the contexts, the count and the kernel's table all
    follow from the waiting handlers. *)
Record repr (s : IOManager) (a : list slots) : Prop := {
  repr_contexts : contexts_ok s a;
  repr_count : m_pendingEventCount s = u64 (zlen (pending a));
  repr_epoll : ∀ fd, epoll s !! fd = if fd <? 0 then None else a !! Z.to_nat fd ≫= registered;
  repr_size : (32 ≤ length a)%nat ∧ zlen a < 2 ^ 31
}.

Lemma get_ctx_ok s a i x : contexts_ok s a → a !! i = Some x → get_ctx (Z.of_nat i) s = Ret (concrete i x) s.
Proof.
  intros [_ Hl] Hx. unfold get_ctx. rewrite bind_gets, (proj2 (Z.ltb_ge _ 0)) by lia. rewrite Nat2Z.id, Hl, Hx. done.
Qed.

Definition put i c s := set_contexts (<[i := c]> (m_fdContexts s)) s.
Lemma set_ctx_put i c s : set_ctx (Z.of_nat i) c s = Ret tt (put i c s).
Proof. unfold set_ctx, modify, put. by rewrite Nat2Z.id. Qed.

Lemma contexts_put s a i x x' : contexts_ok s a → a !! i = Some x →
  contexts_ok (put i (concrete i x') s) (<[i := x']> a).
Proof.
  intros [Hn Hl] Hx. constructor; simpl; [by rewrite !length_insert|]. intros j.
  destruct (decide (i = j)) as [<-|Hij].
  - rewrite !list_lookup_insert_eq; [done|by eapply lookup_lt_Some|rewrite Hn; by eapply lookup_lt_Some].
  - by rewrite !list_lookup_insert_ne.
Qed.

Lemma contexts_same s s' a : m_fdContexts s' = m_fdContexts s → contexts_ok s a → contexts_ok s' a.
Proof. intros E [Hn Hl]. constructor; by rewrite E. Qed.

Lemma pending_insert a i x x' : a !! i = Some x →
  ∃ l r, pending a = l ++ waiting x ++ r ∧ pending (<[i := x']> a) = l ++ waiting x' ++ r.
Proof.
  intros Hx. exists (concat (waiting <$> take i a)), (concat (waiting <$> drop (S i) a)). unfold pending.
  pose proof (lookup_lt_Some _ _ _ Hx) as Hlt. split.
  - rewrite <- (take_drop_middle a i x Hx) at 1. rewrite fmap_app, fmap_cons, concat_app. done.
  - rewrite insert_take_drop, fmap_app, fmap_cons, concat_app by done. done.
Qed.

(** [triggerEvent] on a waiting handler schedules exactly this handler. *)
Lemma triggerEvent_spec s a i x event h : contexts_ok s a → a !! i = Some x → event_ok event → get_slot event x = Some h →
  triggerEvent (Z.of_nat i) event s
  = Ret tt (put i (concrete i (set_slot event None x)) (set_scheduled (scheduled s ++ [h]) s)).
Proof.
  intros Hc Hx He Hh. unfold triggerEvent. rewrite (bind_Ret _ _ _ _ _ (get_ctx_ok s a i x Hc Hx)).
  unfold concrete at 1; simpl. rewrite both_event, Hh by done. unfold assert. simpl. rewrite bind_ret.
  unfold concrete, set_events; simpl. rewrite (bind_Ret _ _ _ _ _ (getContext_slot event (Z.of_nat i) x s He _)), Hh.
  rewrite without_event by done.
  assert (∀ e, e = EventContext_new → ∀ s, set_ctx (Z.of_nat i) (put_context event e
    (mkFd (Z.of_nat i) (context_of x.1) (context_of x.2) (events_of (set_slot event None x)))) s
    = Ret tt (put i (concrete i (set_slot event None x)) s)) as Hput.
  { intros e -> s0. rewrite set_ctx_put. change EventContext_new with (context_of None). by rewrite put_context_slot. }
  destruct h as [sc [f|c]]; simpl; rewrite bind_modify; by apply Hput.
Qed.

(** ** Updates of one descriptor *)
Definition set_reg (fd : Z) (o : option Z) (m : gmap Z Z) : gmap Z Z :=
  match o with Some v => <[fd := v]> m | None => delete fd m end.

Lemma epoll_ctl_error rt op fd ev s : rt ≠ 0 → epoll_ctl rt op fd ev s = Ret rt s.
Proof. intros H. unfold epoll_ctl. by rewrite (proj2 (Z.eqb_neq rt 0)). Qed.
Lemma epoll_ctl_left fd x s :
  epoll_ctl 0 (if events_of x =? 0 then EPOLL_CTL_DEL else EPOLL_CTL_MOD) fd (Z.lor EPOLLET (events_of x)) s
  = Ret 0 (set_epoll (set_reg fd (registered x) (epoll s)) s).
Proof. unfold epoll_ctl, registered. by destruct (events_of x =? 0). Qed.

Lemma waiting_set event v x : event_ok event →
  zlen (waiting (set_slot event v x)) = zlen (waiting x) + (if v then 1 else 0) - (if get_slot event x then 1 else 0).
Proof. intros [-> | ->]; destruct x as [[|] [|]], v; reflexivity. Qed.

Lemma repr_update s s' a i x x' : repr s a → a !! i = Some x →
  contexts_ok s' (<[i := x']> a) →
  m_pendingEventCount s' = u64 (m_pendingEventCount s + (zlen (waiting x') - zlen (waiting x))) →
  epoll s' = set_reg (Z.of_nat i) (registered x') (epoll s) → repr s' (<[i := x']> a).
Proof.
  intros [Hc Hn He Hs] Hx Hc' Hn' He'. constructor; [done|..].
  - rewrite Hn', Hn. destruct (pending_insert a i x x' Hx) as (l & r & -> & ->). rewrite !zlen_app.
    unfold uwrap. rewrite Zplus_mod_idemp_l. f_equal. lia.
  - intros fd. rewrite He'. unfold set_reg. destruct (decide (fd = Z.of_nat i)) as [->|Hne].
    + rewrite (proj2 (Z.ltb_ge _ 0)), Nat2Z.id, list_lookup_insert_eq by (lia || by eapply lookup_lt_Some). simpl.
      destruct (registered x'); [by rewrite lookup_insert_eq|by rewrite lookup_delete_eq].
    + assert ((if fd <? 0 then None else (<[i := x']> a) !! Z.to_nat fd ≫= registered) = epoll s !! fd) as ->.
      { rewrite He. destruct (Z.ltb_spec fd 0); [done|]. rewrite list_lookup_insert_ne by lia. done. }
      destruct (registered x'); [by rewrite lookup_insert_ne|by rewrite lookup_delete_ne].
  - by rewrite length_insert, <- (length_insert a i x') at 1; rewrite ?length_insert; unfold zlen in *; rewrite length_insert.
Qed.

Lemma repr_in s a fd : repr s a → (fd <? i32 (zlen (m_fdContexts s))) = (fd <? zlen a).
Proof.
  intros [[Hn _] _ _ [_ Hs]]. unfold zlen in *. rewrite Hn. by rewrite swrap_small by (unfold is_s; lia).
Qed.
