(* ===== verification/IOManagerTheorems.v ===== *)
(** * IOManagerTheorems: what the event operations promise *)
From S2P Require Import Prelude IOManager.

(** ** Operations, as the threads and the kernel order them *)
Inductive op :=
  | OAdd (cur_s cur_f rt fd event : Z) (f : option Z)
  | ODel (rt fd event : Z)
  | OCancel (rt fd event : Z)
  | OCancelAll (rt fd : Z)
  | OReady (rt fd reported : Z).

Definition as_int (m : ST IOManager bool) : ST IOManager Z := let* b := m in ret (if b then 1 else 0).
Definition exec (o : op) : ST IOManager Z :=
  match o with
  | OAdd cs cf rt fd ev f => addEvent (Some cs) cf rt fd ev f
  | ODel rt fd ev => as_int (delEvent rt fd ev)
  | OCancel rt fd ev => as_int (cancelEvent rt fd ev)
  | OCancelAll rt fd => as_int (cancelAll rt fd)
  | OReady rt fd reported => handle_event rt fd reported ;;; ret 0
  end.

(** ** The specification: a table of waiting handlers *)
Definition handler_for (cs cf : Z) (f : option Z) : handler :=
  (cs, match f with Some c => TaskCb c | None => TaskFiber cf end).
(** The table when the vector is resized for [fd]. *)
Definition grown (fd : Z) (a : list slots) : list slots := a ++ replicate (Z.to_nat (Z.quot (fd * 3) 2) - length a) no_slots.
Definition resized (fd : Z) (a : list slots) : list slots :=
  if fd <? zlen a then a else grown fd a.

(** The slots that a reported event empties. *)
Definition taken (real : Z) (x : slots) : list handler :=
  (if both real READ then option_list x.1 else []) ++ (if both real WRITE then option_list x.2 else []).
Definition left_over (real : Z) (x : slots) : slots :=
  (if both real READ then None else x.1, if both real WRITE then None else x.2).

(** Result, table and the handlers that are scheduled, in order. *)
Definition spec (o : op) (a : list slots) : Z * list slots * list handler :=
  match o with
  | OAdd cs cf rt fd ev f =>
      let a := resized fd a in
      match a !! Z.to_nat fd with
      | Some x => if rt =? 0 then (0, <[Z.to_nat fd := set_slot ev (Some (handler_for cs cf f)) x]> a, []) else (-1, a, [])
      | None => (0, a, [])
      end
  | ODel rt fd ev | OCancel rt fd ev =>
      match a !! Z.to_nat fd with
      | Some x =>
          match get_slot ev x with
          | Some h => if rt =? 0 then (1, <[Z.to_nat fd := set_slot ev None x]> a,
                                       match o with OCancel _ _ _ => [h] | _ => [] end)
                      else (0, a, [])
          | None => (0, a, [])
          end
      | None => (0, a, [])
      end
  | OCancelAll rt fd =>
      match a !! Z.to_nat fd with
      | Some x => if bool_decide (x = no_slots) then (0, a, [])
                  else if rt =? 0 then (1, <[Z.to_nat fd := no_slots]> a, waiting x) else (0, a, [])
      | None => (0, a, [])
      end
  | OReady rt fd reported =>
      let real := real_events reported in
      match a !! Z.to_nat fd with
      | Some x => if rt =? 0 then (0, <[Z.to_nat fd := left_over real x]> a, taken real x) else (0, a, [])
      | None => (0, a, [])
      end
  end.

(** When an operation may be called: a descriptor of the process; no handler
    waits already for the event that is added; the kernel reports what was
    registered, or nothing that still is. *)
Definition valid (o : op) (a : list slots) : Prop :=
  match o with
  | OAdd _ _ _ fd ev _ => event_ok ev ∧ 0 ≤ fd ∧ fd * 3 < 2 ^ 32 ∧ get_slot ev (default no_slots (a !! Z.to_nat fd)) = None
  | ODel _ fd ev | OCancel _ fd ev => event_ok ev ∧ 0 ≤ fd
  | OCancelAll _ fd => 0 ≤ fd
  | OReady _ fd reported => 0 ≤ fd ∧ ∃ x, a !! Z.to_nat fd = Some x
      ∧ (Z.land (events_of x) (real_events reported) = 0 ∨ Z.land (events_of x) (real_events reported) = real_events reported)
  end.

Lemma lookup_fd s a fd : repr s a → 0 ≤ fd →
  (i32 (zlen (m_fdContexts s)) <=? fd) = match a !! Z.to_nat fd with Some _ => false | None => true end.
Proof.
  intros H Hfd. rewrite Z.leb_antisym, (repr_in s a fd H). destruct (a !! Z.to_nat fd) eqn:E.
  - apply lookup_lt_Some in E. rewrite (proj2 (Z.ltb_lt _ _)); [done|unfold zlen; lia].
  - apply lookup_ge_None in E. rewrite (proj2 (Z.ltb_ge _ _)); [done|unfold zlen; lia].
Qed.

(** The common shape: an operation answers and leaves a represented table. *)
Definition does (m : ST IOManager Z) s (r : Z) (a : list slots) (fired : list handler) : Prop :=
  ∃ s', m s = Ret r s' ∧ repr s' a ∧ scheduled s' = scheduled s ++ fired.

Lemma does_same m s r a : m s = Ret r s → repr s a → does m s r a [].
Proof. intros E H. exists s. split; [done|]. split; [done|]. by rewrite app_nil_r. Qed.

Lemma as_int_Ret m s b s' : m s = Ret b s' → as_int m s = Ret (if b then 1 else 0) s'.
Proof. intros E. unfold as_int. by rewrite (bind_Ret _ _ _ _ _ E). Qed.

(** The table row of a descriptor and its context. *)
Lemma get_ctx_fd s a fd x : repr s a → 0 ≤ fd → a !! Z.to_nat fd = Some x → get_ctx fd s = Ret (concrete (Z.to_nat fd) x) s.
Proof. intros H Hfd Hx. pose proof (get_ctx_ok s a _ x (repr_contexts s a H) Hx) as Hg. by rewrite Z2Nat.id in Hg. Qed.

Lemma getContext_set ev n i x s : event_ok ev → getContext (set_events n (concrete i x)) ev s = Ret (context_of (get_slot ev x)) s.
Proof. intros H. exact (getContext_slot ev (Z.of_nat i) x s H n). Qed.
Lemma put_context_set ev v i x : event_ok ev →
  put_context ev (context_of v) (set_events (events_of (set_slot ev v x)) (concrete i x)) = concrete i (set_slot ev v x).
Proof. intros H. exact (put_context_slot ev i x v _ H). Qed.
Lemma events_concrete i x : events (concrete i x) = events_of x.
Proof. done. Qed.

(** One guard of an operation, evaluated. *)
Ltac step_io :=
  cbv beta zeta; rewrite ?events_concrete; change (0 =? 0) with true; cbn [negb]; cbv iota.

(** A change of one row with its bookkeeping. *)
Lemma does_update m s r a i x x' fired : repr s a → a !! i = Some x →
  m s = Ret r (mkIOManager (<[i := concrete i x']> (m_fdContexts s)) (u64 (m_pendingEventCount s + (zlen (waiting x') - zlen (waiting x))))
                 (set_reg (Z.of_nat i) (registered x') (epoll s)) (scheduled s ++ fired)) →
  does m s r (<[i := x']> a) fired.
Proof.
  intros H Hx E. eexists. split; [exact E|]. split; [|done]. apply (repr_update s _ a i x x'); try done.
  apply (contexts_same (put i (concrete i x') s)); [done|]. apply (contexts_put s a i x x'); [apply H|done].
Qed.

Lemma contexts_epoll s a v : contexts_ok s a → contexts_ok (set_epoll v s) a.
Proof. by apply contexts_same. Qed.

Lemma trigger_fd s a fd x ev h : contexts_ok s a → 0 ≤ fd → a !! Z.to_nat fd = Some x → event_ok ev → get_slot ev x = Some h →
  triggerEvent fd ev s
  = Ret tt (put (Z.to_nat fd) (concrete (Z.to_nat fd) (set_slot ev None x)) (set_scheduled (scheduled s ++ [h]) s)).
Proof. intros Hc Hfd Hx He Hh. pose proof (triggerEvent_spec s a _ x ev h Hc Hx He Hh) as E. by rewrite Z2Nat.id in E. Qed.

(** [delEvent] and [cancelEvent] share their guards. *)
Section remove.
Context (s : IOManager) (a : list slots) (fd ev : Z) (H : repr s a) (Hev : event_ok ev) (Hfd : 0 ≤ fd).
#[local] Abbreviation i := (Z.to_nat fd).

Lemma removed_count x h : get_slot ev x = Some h → zlen (waiting (set_slot ev None x)) - zlen (waiting x) = -1.
Proof. intros Hh. rewrite waiting_set, Hh by done. lia. Qed.

Lemma del_refines rt : let '(r, a', fired) := spec (ODel rt fd ev) a in does (exec (ODel rt fd ev)) s r a' fired.
Proof.
  unfold spec. pose proof (lookup_fd s a fd H Hfd) as Hin.
  destruct (a !! i) as [x|] eqn:Hx.
  2:{ apply does_same; [|done]. apply (as_int_Ret _ _ false). unfold delEvent. by rewrite bind_gets, Hin. }
  pose proof (get_ctx_fd s a fd x H Hfd Hx) as Hg.
  destruct (get_slot ev x) as [h|] eqn:Hh.
  2:{ apply does_same; [|done]. apply (as_int_Ret _ _ false). unfold delEvent. rewrite bind_gets, Hin, (bind_Ret _ _ _ _ _ Hg).
      step_io. by rewrite both_event, Hh. }
  destruct (Z.eqb_spec rt 0) as [->|Hrt].
  2:{ apply does_same; [|done]. apply (as_int_Ret _ _ false). unfold delEvent. rewrite bind_gets, Hin, (bind_Ret _ _ _ _ _ Hg).
      step_io. rewrite both_event, Hh by done. step_io.
      rewrite (bind_Ret _ _ _ _ _ (epoll_ctl_error rt _ _ _ _ Hrt)). by rewrite (proj2 (Z.eqb_neq rt 0)). }
  apply (does_update _ s 1 a i x); [done|done|]. apply (as_int_Ret _ _ true).
  unfold delEvent. rewrite bind_gets, Hin, (bind_Ret _ _ _ _ _ Hg).
  step_io. rewrite both_event, Hh, without_event by done. step_io.
  rewrite (bind_Ret _ _ _ _ _ (epoll_ctl_left fd (set_slot ev None x) s)). step_io.
  unfold pending_add. rewrite bind_modify, (bind_Ret _ _ _ _ _ (getContext_set ev _ _ x _ Hev)).
  change resetContext with (context_of None). rewrite put_context_set by done. unfold set_ctx. rewrite bind_modify.
  unfold ret. f_equal. unfold set_contexts, set_pending, set_epoll; simpl. rewrite app_nil_r, Z2Nat.id, (removed_count x h) by done. done.
Qed.

Lemma cancel_refines rt : let '(r, a', fired) := spec (OCancel rt fd ev) a in does (exec (OCancel rt fd ev)) s r a' fired.
Proof.
  unfold spec. pose proof (lookup_fd s a fd H Hfd) as Hin.
  destruct (a !! i) as [x|] eqn:Hx.
  2:{ apply does_same; [|done]. apply (as_int_Ret _ _ false). unfold cancelEvent. by rewrite bind_gets, Hin. }
  pose proof (get_ctx_fd s a fd x H Hfd Hx) as Hg.
  destruct (get_slot ev x) as [h|] eqn:Hh.
  2:{ apply does_same; [|done]. apply (as_int_Ret _ _ false). unfold cancelEvent. rewrite bind_gets, Hin, (bind_Ret _ _ _ _ _ Hg).
      step_io. by rewrite both_event, Hh. }
  destruct (Z.eqb_spec rt 0) as [->|Hrt].
  2:{ apply does_same; [|done]. apply (as_int_Ret _ _ false). unfold cancelEvent. rewrite bind_gets, Hin, (bind_Ret _ _ _ _ _ Hg).
      step_io. rewrite both_event, Hh by done. step_io.
      rewrite (bind_Ret _ _ _ _ _ (epoll_ctl_error rt _ _ _ _ Hrt)). by rewrite (proj2 (Z.eqb_neq rt 0)). }
  apply (does_update _ s 1 a i x); [done|done|]. apply (as_int_Ret _ _ true).
  unfold cancelEvent. rewrite bind_gets, Hin, (bind_Ret _ _ _ _ _ Hg).
  step_io. rewrite both_event, Hh, without_event by done. step_io.
  rewrite (bind_Ret _ _ _ _ _ (epoll_ctl_left fd (set_slot ev None x) s)). step_io.
  rewrite (bind_Ret _ _ _ _ _ (trigger_fd (set_epoll (set_reg fd (registered (set_slot ev None x)) (epoll s)) s) a fd x ev h
    (contexts_epoll s a _ (repr_contexts s a H)) Hfd Hx Hev Hh)).
  unfold pending_add. rewrite bind_modify.
  unfold ret. f_equal. unfold put, set_contexts, set_pending, set_epoll, set_scheduled; simpl.
  rewrite Z2Nat.id, (removed_count x h) by done. done.
Qed.
End remove.

Lemma get_ctx_contexts s a fd x : contexts_ok s a → 0 ≤ fd → a !! Z.to_nat fd = Some x →
  get_ctx fd s = Ret (concrete (Z.to_nat fd) x) s.
Proof. intros H Hfd Hx. pose proof (get_ctx_ok s a _ x H Hx) as Hg. by rewrite Z2Nat.id in Hg. Qed.

(** [if(...) { triggerEvent(event); --m_pendingEventCount; }] *)
Lemma trigger_if_spec s a fd ev x (b : bool) : contexts_ok s a → 0 ≤ fd → a !! Z.to_nat fd = Some x → event_ok ev →
  (b = true → get_slot ev x ≠ None) → let x' := if b then set_slot ev None x else x in
  ∃ s', trigger_if b fd ev s = Ret tt s' ∧ contexts_ok s' (<[Z.to_nat fd := x']> a)
  ∧ m_pendingEventCount s' = (if b then u64 (m_pendingEventCount s - 1) else m_pendingEventCount s)
  ∧ epoll s' = epoll s ∧ scheduled s' = scheduled s ++ (if b then option_list (get_slot ev x) else []).
Proof.
  intros Hc Hfd Hx Hev Hb x'. unfold trigger_if. destruct b.
  - destruct (get_slot ev x) as [h|] eqn:Hh; [|by destruct (Hb eq_refl)].
    rewrite (bind_Ret _ _ _ _ _ (trigger_fd s a fd x ev h Hc Hfd Hx Hev Hh)). eexists. split; [done|]. split_and!; try done.
    apply (contexts_same (put (Z.to_nat fd) (concrete (Z.to_nat fd) x') s)); [done|]. by apply (contexts_put s a _ x x').
  - exists s. split; [done|]. unfold x'. rewrite list_insert_id, app_nil_r by done. done.
Qed.

(** Two triggers in a row, of the events in [b1] and [b2]: what [cancelAll] and
    the loop over ready events end with. *)
Definition after (b1 b2 : bool) (x : slots) : slots := (if b1 then None else x.1, if b2 then None else x.2).
Lemma trigger_both s a fd x (b1 b2 : bool) : contexts_ok s a → 0 ≤ fd → a !! Z.to_nat fd = Some x →
  (b1 = true → x.1 ≠ None) → (b2 = true → x.2 ≠ None) → m_pendingEventCount s = u64 (m_pendingEventCount s) →
  ∃ s1 s2, trigger_if b1 fd READ s = Ret tt s1 ∧ trigger_if b2 fd WRITE s1 = Ret tt s2
  ∧ contexts_ok s1 (<[Z.to_nat fd := after b1 false x]> a) ∧ contexts_ok s2 (<[Z.to_nat fd := after b1 b2 x]> a)
  ∧ m_pendingEventCount s2 = u64 (m_pendingEventCount s + (zlen (waiting (after b1 b2 x)) - zlen (waiting x)))
  ∧ epoll s2 = epoll s
  ∧ scheduled s2 = scheduled s ++ (if b1 then option_list x.1 else []) ++ (if b2 then option_list x.2 else []).
Proof.
  intros Hc Hfd Hx H1 H2 Hu. pose proof (lookup_lt_Some _ _ _ Hx) as Hlt.
  destruct (trigger_if_spec s a fd READ x b1 Hc Hfd Hx (or_introl eq_refl) H1) as (s1 & E1 & C1 & P1 & Ep1 & S1).
  assert ((if b1 then set_slot READ None x else x) = after b1 false x) as Ex by (destruct b1, x; done). rewrite Ex in C1.
  destruct (trigger_if_spec s1 _ fd WRITE (after b1 false x) b2 C1 Hfd (list_lookup_insert_eq _ _ _ Hlt) (or_intror eq_refl))
    as (s2 & E2 & C2 & P2 & Ep2 & S2); [by destruct x|].
  rewrite list_insert_insert_eq in C2. exists s1, s2. split_and!; try done.
  - by destruct b2.
  - rewrite P2, P1. assert (zlen (waiting (after b1 b2 x)) - zlen (waiting x) = - (if b1 then 1 else 0) - (if b2 then 1 else 0)) as ->.
    { destruct x as [[|] [|]], b1, b2; try reflexivity; exfalso; solve [by apply H1|by apply H2]. }
    destruct b1, b2; [..|rewrite Hu at 1]; unfold uwrap; rewrite ?Zminus_mod_idemp_l; f_equal; lia.
  - by rewrite Ep2.
  - rewrite S2, S1, <- app_assoc. done.
Qed.

Lemma does_finish m s r s' a i x x' fired : repr s a → a !! i = Some x → m s = Ret r s' →
  contexts_ok s' (<[i := x']> a) →
  m_pendingEventCount s' = u64 (m_pendingEventCount s + (zlen (waiting x') - zlen (waiting x))) →
  epoll s' = set_reg (Z.of_nat i) (registered x') (epoll s) → scheduled s' = scheduled s ++ fired →
  does m s r (<[i := x']> a) fired.
Proof. intros. exists s'. split; [done|]. split; [|done]. by apply (repr_update s s' a i x x'). Qed.

Lemma repr_count_wrapped s a : repr s a → m_pendingEventCount s = u64 (m_pendingEventCount s).
Proof. intros H. rewrite (repr_count s a H). unfold uwrap. by rewrite Zmod_mod. Qed.

Lemma cancelAll_refines rt fd s a : repr s a → 0 ≤ fd →
  let '(r, a', fired) := spec (OCancelAll rt fd) a in does (exec (OCancelAll rt fd)) s r a' fired.
Proof.
  intros H Hfd. unfold spec. pose proof (lookup_fd s a fd H Hfd) as Hin.
  destruct (a !! Z.to_nat fd) as [x|] eqn:Hx.
  2:{ apply does_same; [|done]. apply (as_int_Ret _ _ false). unfold cancelAll. by rewrite bind_gets, Hin. }
  pose proof (get_ctx_fd s a fd x H Hfd Hx) as Hg. pose proof (lookup_lt_Some _ _ _ Hx) as Hlt.
  destruct (bool_decide (x = no_slots)) eqn:Hn; [|destruct (Z.eqb_spec rt 0) as [->|Hrt]].
  - apply does_same; [|done]. apply (as_int_Ret _ _ false). unfold cancelAll. rewrite bind_gets, Hin, (bind_Ret _ _ _ _ _ Hg).
    step_io. by rewrite events_of_0, Hn.
  - set (b1 := if x.1 then true else false). set (b2 := if x.2 then true else false).
    destruct (trigger_both (set_epoll (delete fd (epoll s)) s) a fd x b1 b2 (contexts_epoll _ _ _ (repr_contexts s a H)) Hfd Hx)
      as (s1 & s2 & E1 & E2 & C1 & C2 & P & Ep & Sc); [unfold b1; by destruct x.1|unfold b2; by destruct x.2|by apply (repr_count_wrapped s a)|].
    assert (after b1 b2 x = no_slots) as Ex by (destruct x as [[|] [|]]; done). rewrite Ex in *.
    apply (does_finish _ s 1 s2 a _ x no_slots); try done.
    + apply (as_int_Ret _ _ true). unfold cancelAll. rewrite bind_gets, Hin, (bind_Ret _ _ _ _ _ Hg).
      step_io. rewrite events_of_0, Hn. unfold epoll_ctl. change (0 =? 0) with true. cbv iota. rewrite bind_assoc, bind_modify, bind_ret.
      step_io. rewrite (both_event READ) by (by left). change (get_slot READ x) with x.1. fold b1.
      rewrite (bind_Ret _ _ _ _ _ E1).
      rewrite (bind_Ret _ _ _ _ _ (get_ctx_contexts s1 _ fd _ C1 Hfd (list_lookup_insert_eq _ _ _ Hlt))). step_io.
      rewrite (both_event WRITE) by (by right). change (get_slot WRITE (after b1 false x)) with x.2. fold b2.
      rewrite (bind_Ret _ _ _ _ _ E2).
      rewrite (bind_Ret _ _ _ _ _ (get_ctx_contexts s2 _ fd _ C2 Hfd (list_lookup_insert_eq _ _ _ Hlt))). done.
    + rewrite Ep. simpl. by rewrite Z2Nat.id.
    + rewrite Sc. f_equal. destruct x as [[|] [|]]; done.
  - apply does_same; [|done]. apply (as_int_Ret _ _ false). unfold cancelAll. rewrite bind_gets, Hin, (bind_Ret _ _ _ _ _ Hg).
    step_io. rewrite events_of_0, Hn. rewrite (bind_Ret _ _ _ _ _ (epoll_ctl_error rt _ _ _ _ Hrt)).
    by rewrite (proj2 (Z.eqb_neq rt 0)).
Qed.

(** Reported events, as two bits. *)
Definition bits (r w : bool) : Z := Z.lor (if r then READ else NONE) (if w then WRITE else NONE).
Lemma real_bits reported : ∃ r w, real_events reported = bits r w.
Proof. unfold real_events. by eexists _, _. Qed.
Lemma both_bits r w : both (bits r w) READ = r ∧ both (bits r w) WRITE = w.
Proof. by destruct r, w. Qed.
Lemma without_bits x r w : without (events_of x) (bits r w) = events_of (after r w x).
Proof. by destruct x as [[|] [|]], r, w. Qed.
Lemma disjoint_bits x r w : Z.land (events_of x) (bits r w) = 0 → after r w x = x ∧ (if r then option_list x.1 else []) ++ (if w then option_list x.2 else []) = [].
Proof. by destruct x as [[|] [|]], r, w. Qed.
Lemma contained_bits x r w : Z.land (events_of x) (bits r w) = bits r w → (r = true → x.1 ≠ None) ∧ (w = true → x.2 ≠ None).
Proof. by destruct x as [[|] [|]], r, w. Qed.

Lemma ready_refines rt fd reported s a : repr s a → valid (OReady rt fd reported) a →
  let '(r, a', fired) := spec (OReady rt fd reported) a in does (exec (OReady rt fd reported)) s r a' fired.
Proof.
  intros H (Hfd & x & Hx & Hrep). unfold spec. rewrite Hx. pose proof (get_ctx_fd s a fd x H Hfd Hx) as Hg.
  unfold taken, left_over. destruct (real_bits reported) as (r & w & E). rewrite E in *. destruct (both_bits r w) as [-> ->].
  fold (after r w x). destruct (Z.eqb_spec (Z.land (events_of x) (bits r w)) 0) as [E0|E0].
  - destruct (disjoint_bits x r w E0) as [-> ->].
    assert (does (exec (OReady rt fd reported)) s 0 a []) as Hd.
    { apply does_same; [|done]. unfold exec, handle_event. rewrite bind_assoc, (bind_Ret _ _ _ _ _ Hg). step_io.
      rewrite E. unfold NONE. by rewrite E0. }
    destruct (rt =? 0); [by rewrite list_insert_id|done].
  - destruct Hrep as [Hrep|Hrep]; [done|]. destruct (contained_bits x r w Hrep) as [H1 H2].
    assert ((Z.land (events_of x) (bits r w) =? NONE) = false) as E0' by (by apply Z.eqb_neq).
    destruct (Z.eqb_spec rt 0) as [->|Hrt].
    + destruct (trigger_both (set_epoll (set_reg fd (registered (after r w x)) (epoll s)) s) a fd x r w
        (contexts_epoll _ _ _ (repr_contexts s a H)) Hfd Hx H1 H2 (repr_count_wrapped s a H))
        as (s1 & s2 & E1 & E2 & C1 & C2 & P & Ep & Sc).
      apply (does_finish _ s 0 s2 a _ x (after r w x)); try done.
      * unfold exec, handle_event. rewrite bind_assoc, (bind_Ret _ _ _ _ _ Hg). step_io. rewrite E, E0', without_bits. step_io.
        change (fd_of (concrete (Z.to_nat fd) x)) with (Z.of_nat (Z.to_nat fd)). rewrite Z2Nat.id by done.
        rewrite bind_assoc, (bind_Ret _ _ _ _ _ (epoll_ctl_left fd (after r w x) s)). step_io.
        destruct (both_bits r w) as [-> ->]. rewrite bind_assoc, (bind_Ret _ _ _ _ _ E1).
        by rewrite (bind_Ret _ _ _ _ _ E2).
      * rewrite Ep. simpl. by rewrite Z2Nat.id.
    + apply does_same; [|done]. unfold exec, handle_event. rewrite bind_assoc, (bind_Ret _ _ _ _ _ Hg). step_io. rewrite E, E0'. step_io.
      rewrite bind_assoc, (bind_Ret _ _ _ _ _ (epoll_ctl_error rt _ _ _ _ Hrt)). by rewrite (proj2 (Z.eqb_neq rt 0)).
Qed.

(** Growing the table. *)
Lemma grow_size fd : 32 ≤ fd → fd * 3 < 2 ^ 32 → fd < Z.quot (fd * 3) 2 < 2 ^ 31.
Proof.
  intros Hfd Hlim. rewrite Z.quot_div_nonneg by lia. pose proof (Z.div_mod (fd * 3) 2 ltac:(lia)). pose proof (Z.mod_pos_bound (fd * 3) 2 ltac:(lia)). lia.
Qed.
Lemma pending_grown fd a : pending (grown fd a) = pending a.
Proof.
  unfold grown, pending. rewrite fmap_app, concat_app, fmap_replicate. change (waiting no_slots) with (@nil handler).
  assert (∀ k, concat (replicate k (@nil handler)) = []) as -> by (intros k; by induction k). by rewrite app_nil_r.
Qed.
(** A resize that does not make the vector shorter. *)
Lemma grow_refines s a fd : repr s a → 32 ≤ fd → fd * 3 < 2 ^ 32 → zlen a ≤ Z.quot (fd * 3) 2 →
  ∃ s', grow_contexts fd s = Ret tt s' ∧ repr s' (grown fd a) ∧ scheduled s' = scheduled s ∧ fd < zlen (grown fd a).
Proof.
  intros H Hfd Hlim Hle. destruct (grow_size fd Hfd Hlim) as [Hn1 Hn2]. unfold grow_contexts, contextResize. rewrite bind_modify. cbv zeta.
  pose proof H as [[Hn Hl] Hc He [Hs1 Hs2]]. set (n := Z.to_nat (Z.quot (fd * 3) 2)) in *. rewrite take_ge by (unfold zlen in *; lia).
  match goal with |- ∃ s', _ ?v = _ ∧ _ => set (s1 := v) end. assert (length (grown fd a) = n) as Hlen by (unfold grown; rewrite length_app, length_replicate; unfold zlen in *; lia).
  assert (repr s1 (grown fd a)) as H1.
  { constructor; simpl.
    - constructor; simpl; [rewrite Hlen, length_app, length_fmap, length_seq; unfold zlen in *; lia|].
      intros i. rewrite Hn. unfold grown. fold n. destruct (decide (i < length a)%nat) as [Hi|Hi].
      + rewrite !lookup_app_l by lia. apply Hl.
      + rewrite !lookup_app_r by lia. rewrite Hn, list_lookup_fmap.
        destruct (decide (i - length a < n - length a)%nat) as [Hi2|Hi2].
        * rewrite lookup_seq_lt, lookup_replicate_2 by lia. simpl. unfold FdContext_new, concrete. repeat f_equal. lia.
        * rewrite lookup_seq_ge by lia. rewrite (lookup_ge_None_2 (replicate _ _)) by (rewrite length_replicate; lia). done.
    - by rewrite pending_grown.
    - intros k. rewrite He. unfold grown. destruct (Z.ltb_spec k 0); [done|].
      destruct (decide (Z.to_nat k < length a)%nat) as [Hi|Hi]; [by rewrite lookup_app_l|].
      rewrite (lookup_ge_None_2 a) by lia. rewrite lookup_app_r by lia.
      destruct (_ !! _) as [y|] eqn:Hy; [|done]. apply lookup_replicate in Hy as [-> _]. done.
    - unfold zlen. rewrite Hlen. unfold zlen in *. lia. }
  assert (fd < zlen (grown fd a)) as Hlt by (unfold zlen; rewrite Hlen; lia).
  destruct (lookup_lt_is_Some_2 (grown fd a) (Z.to_nat fd)) as [x Hx]; [unfold zlen in Hlt; lia|].
  exists s1. split_and!; try done. by rewrite (bind_Ret _ _ _ _ _ (get_ctx_fd s1 _ fd x H1 ltac:(lia) Hx)).
Qed.
Lemma find_refines s a fd : repr s a → find_context fd s = Ret (fd <? zlen a) s.
Proof. intros H. unfold find_context. rewrite bind_gets. by rewrite (repr_in s a fd H). Qed.
Lemma resize_refines s a fd : repr s a → 0 ≤ fd → fd * 3 < 2 ^ 32 →
  ∃ s', (let* found := find_context fd in if found then ret tt else grow_contexts fd) s = Ret tt s'
  ∧ repr s' (resized fd a) ∧ scheduled s' = scheduled s ∧ ∃ x, resized fd a !! Z.to_nat fd = Some x.
Proof.
  intros H Hfd Hlim. rewrite (bind_Ret _ _ _ _ _ (find_refines s a fd H)). unfold resized. destruct (Z.ltb_spec fd (zlen a)) as [Hlt|Hge].
  - exists s. split_and!; try done. apply lookup_lt_is_Some. unfold zlen in Hlt. lia.
  - pose proof (repr_size s a H) as [Hs1 Hs2]. assert (32 ≤ fd) as H32 by (unfold zlen in Hge; lia). pose proof (grow_size fd H32 Hlim).
    destruct (grow_refines s a fd H H32 Hlim ltac:(lia)) as (s1 & E & H1 & Hsch & Hlt). exists s1. split_and!; [done..|].
    apply lookup_lt_is_Some. unfold zlen, grown in *. lia.
Qed.

Lemma resized_lookup fd a n x : resized fd a !! n = Some x → x = default no_slots (a !! n).
Proof.
  unfold resized, grown. destruct (fd <? zlen a); [by intros ->|]. intros Hx. destruct (a !! n) as [y|] eqn:E.
  - by rewrite (lookup_app_l_Some _ _ _ _ E) in Hx; injection Hx as <-.
  - apply lookup_ge_None in E. rewrite lookup_app_r in Hx by done. by apply lookup_replicate in Hx as [-> _].
Qed.

Lemma registered_set ev h x : event_ok ev → registered (set_slot ev (Some h) x) = Some (Z.lor (Z.lor EPOLLET (events_of x)) ev).
Proof. intros Hev. rewrite <- Z.lor_assoc, (lor_event ev x h Hev). unfold registered. destruct Hev as [-> | ->]; by destruct x as [[|] [|]]. Qed.

Lemma context_of_handler cs cf f :
  (match f with Some _ => mkEvent (Some cs) None f | None => mkEvent (Some cs) (Some cf) None end)
  = context_of (Some (handler_for cs cf f)).
Proof. by destruct f. Qed.

(** What [addEvent] does under the mutex of a context. *)
Definition act_spec (cs cf rt fd ev : Z) (f : option Z) (x : slots) (a : list slots) : Z * list slots :=
  if rt =? 0 then (0, <[Z.to_nat fd := set_slot ev (Some (handler_for cs cf f)) x]> a) else (-1, a).
Lemma act_refines cs cf rt fd ev f x s1 a : repr s1 a → event_ok ev → 0 ≤ fd → a !! Z.to_nat fd = Some x → get_slot ev x = None →
  does (add_to_context (Some cs) cf rt fd ev f) s1 (act_spec cs cf rt fd ev f x a).1 (act_spec cs cf rt fd ev f x a).2 [].
Proof.
  intros H1 Hev Hfd Hx Hslot. pose proof (get_ctx_fd s1 _ fd x H1 Hfd Hx) as Hg. unfold act_spec, add_to_context.
  pose (x' := set_slot ev (Some (handler_for cs cf f)) x). destruct (Z.eqb_spec rt 0) as [->|Hrt]; cbn [fst snd].
  - apply (does_update _ s1 0 _ _ x x'); [done|done|]. rewrite (bind_Ret _ _ _ _ _ Hg). step_io.
    rewrite both_event, Hslot by done. unfold assert. cbn [negb]. cbv iota. rewrite bind_ret.
    assert (∀ s, epoll_ctl 0 (if events_of x =? 0 then EPOLL_CTL_ADD else EPOLL_CTL_MOD) fd (Z.lor (Z.lor EPOLLET (events_of x)) ev) s
      = Ret 0 (set_epoll (set_reg fd (registered x') (epoll s)) s)) as Hctl.
    { intros s0. unfold x'. rewrite registered_set by done. unfold epoll_ctl. by destruct (events_of x =? 0). }
    rewrite (bind_Ret _ _ _ _ _ (Hctl s1)). step_io. unfold pending_add, set_ctx. rewrite !bind_modify.
    rewrite (bind_Ret _ _ _ _ _ (getContext_set ev _ _ x _ Hev)), Hslot. rewrite !bool_decide_true by done. cbn [andb]. cbv iota. rewrite bind_ret.
    simpl scheduler; simpl fiber; simpl cb. rewrite bind_modify. unfold ret. f_equal.
    rewrite (lor_event ev x (handler_for cs cf f) Hev), (context_of_handler cs cf f), put_context_set by done.
    unfold set_contexts, set_pending, set_epoll; simpl. rewrite list_insert_insert_eq, app_nil_r, Z2Nat.id by done.
    fold x'. f_equal. f_equal. unfold x'. rewrite waiting_set, Hslot by done. lia.
  - apply does_same; [|done]. rewrite (bind_Ret _ _ _ _ _ Hg). step_io.
    rewrite both_event, Hslot by done. unfold assert. cbn [negb]. cbv iota. rewrite bind_ret.
    rewrite (bind_Ret _ _ _ _ _ (epoll_ctl_error rt _ _ _ _ Hrt)). by rewrite (proj2 (Z.eqb_neq rt 0)).
Qed.
Lemma add_refines cs cf rt fd ev f s a : repr s a → valid (OAdd cs cf rt fd ev f) a →
  let '(r, a', fired) := spec (OAdd cs cf rt fd ev f) a in does (exec (OAdd cs cf rt fd ev f)) s r a' fired.
Proof.
  intros H (Hev & Hfd & Hlim & Hslot). destruct (resize_refines s a fd H Hfd Hlim) as (s1 & E1 & H1 & Hsch & x & Hx).
  pose proof (resized_lookup fd a _ x Hx) as Ex. rewrite <- Ex in Hslot. clear Ex.
  pose proof (act_refines cs cf rt fd ev f x s1 _ H1 Hev Hfd Hx Hslot) as (s2 & E2 & H2 & S2). unfold spec. rewrite Hx. unfold act_spec in E2, H2.
  assert (∀ r, add_to_context (Some cs) cf rt fd ev f s1 = Ret r s2 → exec (OAdd cs cf rt fd ev f) s = Ret r s2) as Hex.
  { intros r Er. unfold exec, addEvent. rewrite <- bind_assoc, (bind_Ret _ _ _ _ _ E1). done. }
  destruct (rt =? 0); exists s2; rewrite <- Hsch; (split; [by apply Hex|done]).
Qed.

(** One operation. *)
Lemma exec_refines o s a : repr s a → valid o a →
  let '(r, a', fired) := spec o a in does (exec o) s r a' fired.
Proof.
  intros H Hv. destruct o as [cs cf rt fd ev f|rt fd ev|rt fd ev|rt fd|rt fd rep].
  - by apply add_refines.
  - destruct Hv. by apply del_refines.
  - destruct Hv. by apply cancel_refines.
  - by apply cancelAll_refines.
  - by apply ready_refines.
Qed.

(** ** Sequences of operations *)
Fixpoint run (ops : list op) : ST IOManager (list Z) :=
  match ops with
  | [] => ret []
  | o :: ops => let* r := exec o in let* rs := run ops in ret (r :: rs)
  end.
Fixpoint spec_run (ops : list op) (a : list slots) : list Z * list slots * list handler :=
  match ops with
  | [] => ([], a, [])
  | o :: ops => let '(r, a, fired) := spec o a in let '(rs, a, later) := spec_run ops a in (r :: rs, a, fired ++ later)
  end.
Fixpoint valid_run (ops : list op) (a : list slots) : Prop :=
  match ops with
  | [] => True
  | o :: ops => valid o a ∧ valid_run ops (spec o a).1.2
  end.
Definition no_handlers : list slots := replicate 32 no_slots.

Lemma construct_runs epollfd : 0 < epollfd → IOManager_construct epollfd 0 0 0 (mkIOManager [] 0 ∅ []) = Ret tt IOManager_new.
Proof. intros He. unfold IOManager_construct, assert. by rewrite (proj2 (Z.ltb_lt _ _)). Qed.
Lemma repr_new : repr IOManager_new no_handlers.
Proof.
  constructor; try done.
  - constructor; [done|]. intros i. destruct (decide (i < 32)%nat) as [Hi|Hi].
    + change (m_fdContexts IOManager_new) with (FdContext_new <$> seq 0 32). unfold no_handlers. rewrite list_lookup_fmap, lookup_seq_lt, lookup_replicate_2 by done. done.
    + change (m_fdContexts IOManager_new) with (FdContext_new <$> seq 0 32). unfold no_handlers.
      rewrite !lookup_ge_None_2 by (rewrite ?length_fmap, ?length_seq, ?length_replicate; lia). done.
  - intros fd. simpl. rewrite lookup_empty. destruct (fd <? 0); [done|]. destruct (_ !! _) as [x|] eqn:E; [|done].
    by apply lookup_replicate in E as [-> _].
Qed.

(** The table that represents the contexts is the only one. *)
Lemma repr_unique s a1 a2 : repr s a1 → repr s a2 → a1 = a2.
Proof.
  intros [[_ H1] _ _ _] [[_ H2] _ _ _]. apply list_eq. intros i. specialize (H1 i). specialize (H2 i). rewrite H1 in H2.
  destruct (a1 !! i) as [[x1 x2]|], (a2 !! i) as [[y1 y2]|]; try done. cbn in H2. injection H2 as Hx1 Hx2 _.
  assert (∀ u v, context_of u = context_of v → u = v) as Hc.
  { intros [[? []]|] [[? []]|] [=]; by subst. }
  by rewrite (Hc _ _ Hx1), (Hc _ _ Hx2).
Qed.

Lemma run_refines_from ops s a : repr s a → valid_run ops a →
  ∃ s', run ops s = Ret (spec_run ops a).1.1 s' ∧ repr s' (spec_run ops a).1.2 ∧ scheduled s' = scheduled s ++ (spec_run ops a).2.
Proof.
  revert s a. induction ops as [|o ops IH]; intros s a H Hv; simpl.
  - exists s. split_and!; try done. by rewrite app_nil_r.
  - destruct Hv as [Ho Hv]. pose proof (exec_refines o s a H Ho) as Hd. destruct (spec o a) as [[r a1] fired].
    destruct Hd as (s1 & E1 & H1 & S1). destruct (IH s1 a1 H1 Hv) as (s2 & E2 & H2 & S2).
    destruct (spec_run ops a1) as [[rs a2] later]. exists s2. rewrite (bind_Ret _ _ _ _ _ E1), (bind_Ret _ _ _ _ _ E2).
    split_and!; try done. simpl in *. by rewrite S2, S1, <- app_assoc.
Qed.

(** ** Threads between the steps of [addEvent] *)
(** A call of [addEvent], and whether its context has been found. *)
Record add_call := mkAdd { c_scheduler : Z; c_fiber : Z; c_fd : Z; c_event : Z; c_cb : option Z }.
Record flow := mkFlow { manager : IOManager; in_call : gmap nat (add_call * bool) }.
Definition on_manager {A} (m : ST IOManager A) : ST flow A := λ s,
  match m (manager s) with Ret a x => Ret a (mkFlow x (in_call s)) | Throw e x => Throw e (mkFlow x (in_call s)) | Crash f => Crash f end.
Definition set_calls (v : gmap nat (add_call * bool)) : ST flow unit := modify (λ s, mkFlow (manager s) v).
(** An operation of one step, or a step of the [i]-th thread in [addEvent]. *)
Inductive event_step := Whole (o : op) | Look (i : nat) (c : add_call) | Grow (i : nat) | Act (i : nat) (rt : Z).
Definition exec_step (e : event_step) : ST flow Z :=
  let* t := gets in_call in
  match e with
  | Whole o => on_manager (exec o)
  | Look i c =>
      match t !! i with
      | Some _ => ret 0
      | None => let* found := on_manager (find_context (c_fd c)) in set_calls (<[i := (c, found)]> t) ;;; ret 0
      end
  | Grow i =>
      match t !! i with
      | Some (c, false) => on_manager (grow_contexts (c_fd c)) ;;; set_calls (<[i := (c, true)]> t) ;;; ret 0
      | _ => ret 0
      end
  | Act i rt =>
      match t !! i with
      | Some (c, true) =>
          let* r := on_manager (add_to_context (Some (c_scheduler c)) (c_fiber c) rt (c_fd c) (c_event c) (c_cb c)) in
          set_calls (delete i t) ;;; ret r
      | _ => ret 0
      end
  end.
Fixpoint run_steps (es : list event_step) : ST flow (list Z) :=
  match es with
  | [] => ret []
  | e :: es => let* r := exec_step e in let* rs := run_steps es in ret (r :: rs)
  end.

(** The table, and the calls that are under way. *)
Definition table : Type := list slots * gmap nat (add_call * bool).
Definition spec_step (e : event_step) (t : table) : Z * table * list handler :=
  match e with
  | Whole o => let '(r, a, fired) := spec o t.1 in (r, (a, t.2), fired)
  | Look i c =>
      match t.2 !! i with
      | Some _ => (0, t, [])
      | None => (0, (t.1, <[i := (c, c_fd c <? zlen t.1)]> t.2), [])
      end
  | Grow i =>
      match t.2 !! i with
      | Some (c, false) => (0, (grown (c_fd c) t.1, <[i := (c, true)]> t.2), [])
      | _ => (0, t, [])
      end
  | Act i rt =>
      match t.2 !! i with
      | Some (c, true) =>
          match t.1 !! Z.to_nat (c_fd c) with
          | Some x => let p := act_spec (c_scheduler c) (c_fiber c) rt (c_fd c) (c_event c) (c_cb c) x t.1 in (p.1, (p.2, delete i t.2), [])
          | None => (0, t, [])
          end
      | _ => (0, t, [])
      end
  end.
Fixpoint spec_steps (es : list event_step) (t : table) : list Z * table * list handler :=
  match es with
  | [] => ([], t, [])
  | e :: es => let '(r, t, fired) := spec_step e t in let '(rs, t, later) := spec_steps es t in (r :: rs, t, fired ++ later)
  end.
(** As [valid]; a resize does not make the vector shorter than another thread has
    made it meanwhile, and a handler is added where none waits. *)
Definition valid_step (e : event_step) (t : table) : Prop :=
  match e with
  | Whole (OAdd _ _ _ _ _ _) => False
  | Whole o => valid o t.1
  | Look i c => event_ok (c_event c) ∧ 0 ≤ c_fd c ∧ c_fd c * 3 < 2 ^ 32
  | Grow i => match t.2 !! i with Some (c, false) => zlen t.1 ≤ Z.quot (c_fd c * 3) 2 | _ => True end
  | Act i rt => match t.2 !! i with Some (c, true) => get_slot (c_event c) (default no_slots (t.1 !! Z.to_nat (c_fd c))) = None | _ => True end
  end.
Fixpoint valid_steps (es : list event_step) (t : table) : Prop :=
  match es with [] => True | e :: es => valid_step e t ∧ valid_steps es (spec_step e t).1.2 end.

Lemma on_manager_Ret {A} (m : ST IOManager A) s a x : m (manager s) = Ret a x → on_manager m s = Ret a (mkFlow x (in_call s)).
Proof. unfold on_manager. by intros ->. Qed.
(** The steps of a call in a row are [addEvent]. *)
Lemma addEvent_steps i c rt x t r x' : t !! i = None →
  addEvent (Some (c_scheduler c)) (c_fiber c) rt (c_fd c) (c_event c) (c_cb c) x = Ret r x' →
  run_steps [Look i c; Grow i; Act i rt] (mkFlow x t) = Ret [0; 0; r] (mkFlow x' t).
Proof.
  intros Ht E. unfold addEvent, find_context in E. rewrite bind_assoc, bind_gets, bind_ret in E. set (b := c_fd c <? i32 (zlen (m_fdContexts x))) in *.
  assert (∃ x1, (if b then ret tt else grow_contexts (c_fd c)) x = Ret tt x1 ∧ add_to_context (Some (c_scheduler c)) (c_fiber c) rt (c_fd c) (c_event c) (c_cb c) x1 = Ret r x')
    as (x1 & E1 & E2).
  { unfold bind in E. destruct ((if b then ret tt else grow_contexts (c_fd c)) x) as [[] x1| |]; [by exists x1|done..]. }
  assert (∀ e es s r s1 rs s2, exec_step e s = Ret r s1 → run_steps es s1 = Ret rs s2 → run_steps (e :: es) s = Ret (r :: rs) s2) as Hcons.
  { intros e es s r1 s1 rs s2 H1 H2. cbn [run_steps]. by rewrite (bind_Ret _ _ _ _ _ H1), (bind_Ret _ _ _ _ _ H2). }
  eapply Hcons; [|eapply Hcons; [|eapply Hcons; [|reflexivity]]].
  - unfold exec_step. rewrite bind_gets. cbn [in_call]. rewrite Ht. erewrite bind_Ret by (apply on_manager_Ret; reflexivity). reflexivity.
  - cbn [manager in_call]. fold b. instantiate (1 := mkFlow x1 (<[i := (c, true)]> t)). unfold exec_step. rewrite bind_gets. cbn [in_call]. rewrite lookup_insert_eq.
    destruct b; [by injection E1 as <-|]. erewrite bind_Ret by (apply on_manager_Ret; exact E1). unfold set_calls. rewrite bind_modify. unfold ret. cbn. by rewrite insert_insert_eq.
  - unfold exec_step. rewrite bind_gets. cbn [in_call]. rewrite lookup_insert_eq. erewrite bind_Ret by (apply on_manager_Ret; exact E2).
    unfold set_calls. rewrite bind_modify. unfold ret. cbn. by rewrite delete_insert_eq, delete_id.
Qed.

Definition calls_ok (t : table) : Prop := ∀ i c b, t.2 !! i = Some (c, b) →
  event_ok (c_event c) ∧ 0 ≤ c_fd c ∧ c_fd c * 3 < 2 ^ 32 ∧ if b : bool then c_fd c < zlen t.1 else 32 ≤ c_fd c.
Lemma calls_ok_longer a a' m : calls_ok (a, m) → zlen a ≤ zlen a' → calls_ok (a', m).
Proof. intros H Hl i c b Hi. destruct (H i c b Hi) as (? & ? & ? & Hb). split_and!; try done. destruct b; cbn in *; [lia|done]. Qed.
Lemma calls_ok_insert t i c b : calls_ok t →
  event_ok (c_event c) → 0 ≤ c_fd c → c_fd c * 3 < 2 ^ 32 → (if b : bool then c_fd c < zlen t.1 else 32 ≤ c_fd c) → calls_ok (t.1, <[i := (c, b)]> t.2).
Proof.
  intros H H1 H2 H3 H4 j d b' Hj. cbn in Hj. destruct (decide (i = j)) as [<-|Hne].
  - rewrite lookup_insert_eq in Hj. injection Hj as <- <-. by split_and!.
  - rewrite lookup_insert_ne in Hj by done. by apply (H j).
Qed.
Lemma calls_ok_delete t i : calls_ok t → calls_ok (t.1, delete i t.2).
Proof. intros H j d b Hj. cbn in Hj. apply lookup_delete_Some in Hj as [_ Hj]. by apply (H j). Qed.
Lemma spec_length o a : match o with OAdd _ _ _ _ _ _ => False | _ => True end → zlen (spec o a).1.2 = zlen a.
Proof. unfold zlen. destruct o; [done|..]; intros _; cbn; repeat (case_match; cbn); by rewrite ?length_insert. Qed.

(** One step of one thread. *)
Lemma step_refines e s t : repr (manager s) t.1 → in_call s = t.2 → calls_ok t → valid_step e t →
  let '(r, t', fired) := spec_step e t in
  ∃ s', exec_step e s = Ret r s' ∧ repr (manager s') t'.1 ∧ in_call s' = t'.2 ∧ calls_ok t' ∧ scheduled (manager s') = scheduled (manager s) ++ fired.
Proof.
  intros H Hc Hok Hv. unfold exec_step. destruct e as [o|i c|i|i rt]; cbn [spec_step].
  - assert (match o with OAdd _ _ _ _ _ _ => False | _ => True end) as Ho by by destruct o. pose proof (spec_length o t.1 Ho) as Hlen.
    assert (valid o t.1) as Hvo by by destruct o. pose proof (exec_refines o (manager s) t.1 H Hvo) as Hd. destruct (spec o t.1) as [[r a'] fired].
    destruct Hd as (x & E & Hx & Hs). eexists. rewrite bind_gets, (on_manager_Ret _ s r x E). split_and!; try done.
    destruct t as [a m]. apply (calls_ok_longer a); [done|cbn in *; lia].
  - destruct Hv as (Hev & Hfd & Hlim). rewrite bind_gets, Hc. destruct (t.2 !! i) as [p|] eqn:Hi.
    { exists s. split_and!; try done. by rewrite app_nil_r. }
    rewrite (bind_Ret _ _ _ _ _ (on_manager_Ret _ s _ _ (find_refines _ _ (c_fd c) H))). eexists. split; [reflexivity|].
    split; [done|]. split; [done|]. split; [|cbn; by rewrite app_nil_r]. apply calls_ok_insert; try done.
    destruct (Z.ltb_spec (c_fd c) (zlen t.1)); [done|]. pose proof (repr_size _ _ H) as [? _]. unfold zlen in *. lia.
  - rewrite bind_gets, Hc. cbn in Hv. destruct (t.2 !! i) as [[c []]|] eqn:Hi; [exists s; split_and!; try done; by rewrite app_nil_r| |exists s; split_and!; try done; by rewrite app_nil_r].
    destruct (Hok i c false Hi) as (Hev & Hfd & Hlim & H32). destruct (grow_refines _ _ (c_fd c) H H32 Hlim Hv) as (x & E & Hx & Hs & Hlt).
    rewrite (bind_Ret _ _ _ _ _ (on_manager_Ret _ s _ _ E)). eexists. split; [reflexivity|]. split; [done|]. split; [done|]. split; [|cbn; by rewrite app_nil_r].
    destruct t as [a m]. apply (calls_ok_insert (grown (c_fd c) a, m) i c true); try done.
    apply (calls_ok_longer a); [done|]. unfold zlen, grown. rewrite length_app. lia.
  - rewrite bind_gets, Hc. cbn in Hv. destruct (t.2 !! i) as [[c []]|] eqn:Hi; [|exists s; split_and!; try done; by rewrite app_nil_r..].
    destruct (Hok i c true Hi) as (Hev & Hfd & Hlim & Hlt). destruct (lookup_lt_is_Some_2 t.1 (Z.to_nat (c_fd c))) as [x Hx]; [unfold zlen in Hlt; lia|].
    rewrite Hx in Hv |- *. cbn in Hv. destruct (act_refines (c_scheduler c) (c_fiber c) rt _ _ (c_cb c) x (manager s) _ H Hev Hfd Hx Hv) as (x' & E & Hx' & Hs).
    rewrite (bind_Ret _ _ _ _ _ (on_manager_Ret _ s _ _ E)). eexists. split; [reflexivity|]. split; [done|]. split; [done|]. split; [|done].
    apply (calls_ok_longer t.1); [by apply calls_ok_delete|]. unfold act_spec, zlen. destruct (rt =? 0); cbn; by rewrite ?length_insert.
Qed.
Lemma steps_refine_from es s t : repr (manager s) t.1 → in_call s = t.2 → calls_ok t → valid_steps es t →
  ∃ s', run_steps es s = Ret (spec_steps es t).1.1 s' ∧ repr (manager s') (spec_steps es t).1.2.1 ∧ scheduled (manager s') = scheduled (manager s) ++ (spec_steps es t).2.
Proof.
  revert s t. induction es as [|e es IH]; intros s t H Hc Hok Hv; simpl; [exists s; split_and!; try done; by rewrite app_nil_r|].
  destruct Hv as [He Hv]. pose proof (step_refines e s t H Hc Hok He) as Hd. destruct (spec_step e t) as [[r t1] fired].
  destruct Hd as (s1 & E1 & H1 & C1 & O1 & S1). destruct (IH s1 t1 H1 C1 O1 Hv) as (s2 & E2 & H2 & S2).
  destruct (spec_steps es t1) as [[rs t2] later]. exists s2. rewrite (bind_Ret _ _ _ _ _ E1), (bind_Ret _ _ _ _ _ E2).
  split_and!; try done. simpl in *. by rewrite S2, S1, <- app_assoc.
Qed.

(** C5: Refinement.  From a new [IOManager], any interleaving of deletions,
    cancellations and kernel reports with the steps of registrations, with any
    results of [epoll_ctl], fails no assertion, gives the results that the table of
    waiting handlers specifies and schedules its handlers in its order; the count of
    pending events is the number of waiting handlers and the kernel's registration of
    every descriptor is its set of events.  The conditions are those of
    [valid_steps]: descriptors of the process, no handler waits already for the event
    that is added, the kernel reports only events that are still registered, or none
    of them ([hangup_asserts] and [late_report_asserts] show what others do), and no
    resize makes the vector shorter than another thread has made it meanwhile
    ([resize_shrinks]). *)
Theorem events_refine es : valid_steps es (no_handlers, ∅) →
  let '(rs, t, fired) := spec_steps es (no_handlers, ∅) in
  ∃ s, run_steps es (mkFlow IOManager_new ∅) = Ret rs s ∧ scheduled (manager s) = fired
  ∧ length (m_fdContexts (manager s)) = length t.1 ∧ (∀ i, m_fdContexts (manager s) !! i = concrete i <$> t.1 !! i)
  ∧ m_pendingEventCount (manager s) = u64 (zlen (pending t.1))
  ∧ ∀ fd, epoll (manager s) !! fd = if fd <? 0 then None else t.1 !! Z.to_nat fd ≫= registered.
Proof.
  intros Hv. destruct (steps_refine_from es (mkFlow IOManager_new ∅) (no_handlers, ∅) repr_new eq_refl ltac:(by intros i c b) Hv) as (s & E & H & S).
  destruct (spec_steps es (no_handlers, ∅)) as [[rs t] fired]. exists s. destruct H as [[] ? ? ?]. by split_and!.
Qed.

Definition demo : list op :=
  [OAdd 1 7 0 3 READ None; OAdd 1 8 0 3 WRITE (Some 20); OAdd 1 9 0 50 READ (Some 21); OAdd 1 9 1 2 READ None;
   OReady 0 3 EPOLLIN; ODel 0 3 READ; OCancel 0 3 WRITE; OCancelAll 0 50].
Lemma demo_valid : valid_run demo no_handlers.
Proof. unfold demo. simpl valid_run. split_and!; try (by left); try (by right); try done. eexists. split; [reflexivity|]. by right. Qed.
(** Two registrations in turns, then what takes them away. *)
Definition demo_steps : list event_step :=
  [Look 1 (mkAdd 1 7 3 READ None); Look 2 (mkAdd 1 9 50 READ (Some 21)); Act 1 0; Grow 2; Look 1 (mkAdd 1 8 3 WRITE (Some 20)); Act 2 0;
   Whole (OReady 0 3 EPOLLIN); Act 1 0; Whole (ODel 0 3 READ); Whole (OCancel 0 3 WRITE); Whole (OCancelAll 0 50)].
Lemma demo_steps_valid : valid_steps demo_steps (no_handlers, ∅).
Proof.
  assert (∀ e es t r t' fired, valid_step e t → spec_step e t = (r, t', fired) → valid_steps es t' → valid_steps (e :: es) t) as Hcons.
  { intros e es t r t' fired He Es Hes. split; [done|]. by rewrite Es. }
  assert (∀ t i c, event_ok (c_event c) → 0 ≤ c_fd c → c_fd c * 3 < 2 ^ 32 → valid_step (Look i c) t) as Hlook by (intros t i c H1 H2 H3; exact (conj H1 (conj H2 H3))).
  unfold demo_steps. eapply Hcons; [apply Hlook; [by left|done|done]|vm_compute; reflexivity|]. eapply Hcons; [apply Hlook; [by left|done|done]|vm_compute; reflexivity|].
  eapply Hcons; [vm_compute; reflexivity..|]. eapply Hcons; [vm_compute; discriminate|vm_compute; reflexivity|].
  eapply Hcons; [apply Hlook; [by right|done|done]|vm_compute; reflexivity|]. eapply Hcons; [vm_compute; reflexivity..|].
  eapply Hcons; [split; [done|]; eexists; split; [vm_compute; reflexivity|right; vm_compute; reflexivity]|vm_compute; reflexivity|].
  eapply Hcons; [vm_compute; reflexivity..|]. eapply Hcons; [split; [by left|done]|vm_compute; reflexivity|].
  eapply Hcons; [split; [by right|done]|vm_compute; reflexivity|]. eapply Hcons; [cbn; lia|vm_compute; reflexivity|]. exact I.
Qed.
Lemma events_refine_witness :
  let '(rs, t, fired) := spec_steps demo_steps (no_handlers, ∅) in
  ∃ s, run_steps demo_steps (mkFlow IOManager_new ∅) = Ret rs s ∧ scheduled (manager s) = fired
  ∧ length (m_fdContexts (manager s)) = length t.1 ∧ (∀ i, m_fdContexts (manager s) !! i = concrete i <$> t.1 !! i)
  ∧ m_pendingEventCount (manager s) = u64 (zlen (pending t.1))
  ∧ ∀ fd, epoll (manager s) !! fd = if fd <? 0 then None else t.1 !! Z.to_nat fd ≫= registered.
Proof. apply (events_refine demo_steps). apply demo_steps_valid. Defined.
Example demo_result : (spec_steps demo_steps (no_handlers, ∅)).1.1 = [0; 0; 0; 0; 0; 0; 0; 0; 0; 1; 1]
  ∧ (spec_steps demo_steps (no_handlers, ∅)).2 = [(1, TaskFiber 7); (1, TaskCb 20); (1, TaskCb 21)].
Proof. by vm_compute. Qed.

(** ** Every handler is scheduled once, dropped by a deletion, or still waits *)

(** The handlers held by the contexts of the code. *)
Definition held (e : EventContext) : list handler :=
  match scheduler e with
  | Some s => match cb e, fiber e with
              | Some c, _ => [(s, TaskCb c)]
              | None, Some f => [(s, TaskFiber f)]
              | None, None => []
              end
  | None => []
  end.
Definition held_handlers (s : IOManager) : list handler := concat ((λ c, held (read c) ++ held (write c)) <$> m_fdContexts s).

(** The handler that a successful [addEvent] registers, and the one that a
    [delEvent] drops. *)
Definition added (o : op) (r : Z) : list handler :=
  match o with OAdd cs cf _ _ _ f => if r =? 0 then [handler_for cs cf f] else [] | _ => [] end.
Definition dropped (o : op) (a : list slots) : list handler :=
  match o with
  | ODel rt fd ev => if rt =? 0 then option_list (a !! Z.to_nat fd ≫= get_slot ev) else []
  | _ => []
  end.
Fixpoint all_added (ops : list op) (rs : list Z) : list handler :=
  match ops, rs with o :: ops, r :: rs => added o r ++ all_added ops rs | _, _ => [] end.
Fixpoint all_dropped (ops : list op) (a : list slots) : list handler :=
  match ops with [] => [] | o :: ops => dropped o a ++ all_dropped ops (spec o a).1.2 end.

Lemma held_context h : held (context_of h) = option_list h.
Proof. by destruct h as [[s [f|c]]|]. Qed.
Lemma held_pending s a : contexts_ok s a → held_handlers s = pending a.
Proof.
  intros [Hn Hl]. unfold held_handlers, pending. f_equal. apply list_eq. intros i. rewrite !list_lookup_fmap, Hl.
  destruct (a !! i) as [x|]; [|done]. simpl. by rewrite !held_context.
Qed.

Lemma pending_change a i x x' l l' : a !! i = Some x → waiting x' ++ l ≡ₚ waiting x ++ l' →
  pending (<[i := x']> a) ++ l ≡ₚ pending a ++ l'.
Proof.
  intros Hx Hp. destruct (pending_insert a i x x' Hx) as (u & v & -> & ->).
  rewrite <- !app_assoc. rewrite (Permutation_app_comm v l), (Permutation_app_comm v l').
  rewrite !(app_assoc (waiting _)), Hp. done.
Qed.

Lemma waiting_some event h x : event_ok event → get_slot event x = None → waiting (set_slot event (Some h) x) ≡ₚ h :: waiting x.
Proof. intros [-> | ->]; destruct x as [[|] [|]]; try done; intros _; simpl; solve_Permutation. Qed.
Lemma waiting_none event h x : event_ok event → get_slot event x = Some h → h :: waiting (set_slot event None x) ≡ₚ waiting x.
Proof. intros [-> | ->]; destruct x as [[|] [|]]; try done; intros [= ->]; simpl; solve_Permutation. Qed.
Lemma pending_resized fd a : pending (resized fd a) = pending a.
Proof.
  unfold resized. destruct (_ <? _); [done|]. apply pending_grown.
Qed.

Lemma conserve o s a : repr s a → valid o a → let '(r, a', fired) := spec o a in
  pending a' ++ fired ++ dropped o a ≡ₚ pending a ++ added o r.
Proof.
  destruct o as [cs cf rt fd ev f|rt fd ev|rt fd ev|rt fd|rt fd rep]; simpl; intros H Hv.
  - destruct Hv as (Hev & Hfd & Hlim & Hs). destruct (resize_refines s a fd H Hfd Hlim) as (_ & _ & _ & _ & x & Hx).
    pose proof (resized_lookup fd a _ x Hx) as Ex. rewrite <- Ex in Hs. clear Ex. rewrite <- (pending_resized fd a), Hx.
    destruct (rt =? 0); [|done]. apply (pending_change _ _ x); [done|]. rewrite waiting_some by done. solve_Permutation.
  - destruct Hv as [Hev Hfd]. destruct (a !! Z.to_nat fd) as [x|] eqn:Hx; simpl; [|by destruct (rt =? 0)].
    destruct (get_slot ev x) as [h|] eqn:Hh; [|by destruct (rt =? 0)]. destruct (rt =? 0); [|done].
    apply (pending_change _ _ x); [done|]. rewrite <- (waiting_none ev h x) by done. solve_Permutation.
  - destruct Hv as [Hev Hfd]. destruct (a !! Z.to_nat fd) as [x|] eqn:Hx; [|done].
    destruct (get_slot ev x) as [h|] eqn:Hh; [|done]. destruct (rt =? 0); [|done]. rewrite app_nil_r.
    rewrite (pending_change _ _ x _ [h] []); [done|done|]. rewrite <- (waiting_none ev h x) by done. solve_Permutation.
  - destruct (a !! Z.to_nat fd) as [x|] eqn:Hx; [|done]. destruct (bool_decide _); [done|]. destruct (rt =? 0); [|done].
    rewrite app_nil_r. apply (pending_change _ _ x); [done|]. by rewrite app_nil_r.
  - destruct (a !! Z.to_nat fd) as [x|] eqn:Hx; [|done]. destruct (rt =? 0); [|done].
    rewrite app_nil_r. apply (pending_change _ _ x); [done|]. rewrite app_nil_r. unfold left_over, taken, waiting.
    destruct (both _ READ), (both _ WRITE), x as [[|] [|]]; simpl; solve_Permutation.
Qed.

Lemma run_conserves ops s a : repr s a → valid_run ops a →
  pending (spec_run ops a).1.2 ++ (spec_run ops a).2 ++ all_dropped ops a ≡ₚ pending a ++ all_added ops (spec_run ops a).1.1.
Proof.
  revert s a. induction ops as [|o ops IH]; intros s a H Hv; simpl; [done|].
  destruct Hv as [Ho Hv]. pose proof (conserve o s a H Ho) as Hc. pose proof (exec_refines o s a H Ho) as Hd.
  destruct (spec o a) as [[r a1] fired]. simpl in Hv. destruct Hd as (s1 & _ & H1 & _). specialize (IH s1 a1 H1 Hv). simpl.
  destruct (spec_run ops a1) as [[rs a2] later]. simpl in *.
  rewrite (app_assoc (pending a)), <- Hc, <- !app_assoc. rewrite (Permutation_app_comm (dropped o a)), !(app_assoc later).
  transitivity (fired ++ (pending a2 ++ later ++ all_dropped ops a1) ++ dropped o a); [solve_Permutation|]. rewrite IH. solve_Permutation.
Qed.

(** Conservation.  Along every such order of operations each handler that
    [addEvent] accepted is, exactly once, scheduled, dropped by [delEvent] or
    still held by its context. *)
Theorem events_conserved ops : valid_run ops no_handlers →
  ∃ rs s, run ops IOManager_new = Ret rs s
  ∧ scheduled s ++ all_dropped ops no_handlers ++ held_handlers s ≡ₚ all_added ops rs.
Proof.
  intros Hv. destruct (run_refines_from ops _ _ repr_new Hv) as (s & E & H & S).
  exists (spec_run ops no_handlers).1.1, s. split; [done|].
  pose proof (run_conserves ops _ _ repr_new Hv) as Hp. rewrite (held_pending s _ (repr_contexts _ _ H)), S.
  change (pending no_handlers) with (@nil handler) in Hp. rewrite app_nil_l in Hp. rewrite <- Hp.
  change (scheduled IOManager_new) with (@nil handler). solve_Permutation.
Qed.

Lemma events_conserved_witness :
  ∃ rs s, run demo IOManager_new = Ret rs s
  ∧ scheduled s ++ all_dropped demo no_handlers ++ held_handlers s ≡ₚ all_added demo rs.
Proof. apply (events_conserved demo). apply demo_valid. Defined.

(** ** Where the code departs from its purpose *)

(** An error or hang-up reported for a descriptor that waits for reading only
    asks for both events, and [triggerEvent] of the one that was not registered
    fails its assertion. *)
Lemma hangup_asserts :
  run [OAdd 1 7 0 3 READ None; OReady 0 3 EPOLLHUP] IOManager_new = Crash AssertFailed.
Proof. vm_compute. reflexivity. Qed.

(** So does a report of both events after one of them was deleted. *)
Lemma late_report_asserts :
  run [OAdd 1 7 0 3 READ None; OAdd 1 8 0 3 WRITE None; ODel 0 3 WRITE; OReady 0 3 (Z.lor EPOLLIN EPOLLOUT)] IOManager_new
  = Crash AssertFailed.
Proof. vm_compute. reflexivity. Qed.

(** Two threads that find the vector too short resize it one after the other, each to
    one and a half times its own descriptor, so the second one can make it shorter: a
    context that the first one waits in is no longer found, and cancelling its event
    does not wake it. *)
Lemma resize_shrinks :
  match run_steps [Look 1 (mkAdd 1 7 40 READ None); Look 2 (mkAdd 1 8 70 READ None); Grow 2; Act 2 0; Grow 1; Act 1 0; Whole (OCancel 0 70 READ)]
    (mkFlow IOManager_new ∅) with
  | Ret rs s => rs = [0; 0; 0; 0; 0; 0; 0] ∧ zlen (m_fdContexts (manager s)) = 60 ∧ m_pendingEventCount (manager s) = 2 ∧ scheduled (manager s) = []
  | _ => False
  end.
Proof. vm_compute. split_and!; reflexivity. Qed.
