(* ===== verification/Address.v ===== *)
(** * Address: network addresses ([include/address.h], [src/address.cpp])

    An address object is the [sockaddr] structure that it holds, field by field;
    [getAddr] is the memory of that structure, for either host byte order.
    [getaddrinfo] and [getifaddrs] are parameters. *)
From S2P Require Import Prelude Endian CLib.

Definition AF_UNSPEC : Z := 0.
Definition AF_UNIX : Z := 1.
Definition AF_INET : Z := 2.
Definition AF_INET6 : Z := 10.

Record sockaddr_in := mkIn { sin_family : Z; sin_port : Z; s_addr : Z; sin_zero : list Z }.
Record sockaddr_in6 := mkIn6 { sin6_family : Z; sin6_port : Z; sin6_flowinfo : Z; s6_addr : list Z; sin6_scope_id : Z }.
Record sockaddr_un := mkUn { sun_family : Z; sun_path : list Z }.
Record sockaddr := mkSockaddr { sa_family : Z; sa_data : list Z }.
#[export] Instance sockaddr_in_eq_dec : EqDecision sockaddr_in.
Proof. solve_decision. Defined.
#[export] Instance sockaddr_in6_eq_dec : EqDecision sockaddr_in6.
Proof. solve_decision. Defined.

(** The classes: [IPv4Address], [IPv6Address], [UnixAddress] with its [m_length], [UnknowAddress]. *)
Inductive Address :=
  | IPv4Address (m_addr : sockaddr_in)
  | IPv6Address (m_addr : sockaddr_in6)
  | UnixAddress (m_addr : sockaddr_un) (m_length : Z)
  | UnknowAddress (m_addr : sockaddr).

(** [size_t] arithmetic: the count is [sizeof(T) * 8 - bits].  From 31 on the shift
    of the [int] 1, or the subtraction behind it, is undefined. *)
Definition CreateMask {S} (t : ctype) (bits : Z) : ST S Z :=
  let n := u64 (cbits t - bits) in
  if 31 <=? n then crash UndefinedArith else ret (conv t (Z.shiftl 1 n - 1)).

Fixpoint CountBytes_loop {S} (fuel : nat) (value result : Z) : ST S Z :=
  match fuel with
  | O => crash Diverges
  | Datatypes.S fuel =>
      if value =? 0 then ret result
      else CountBytes_loop fuel (Z.land value (value - 1)) (u32 (result + 1))
  end.
(** 33 rounds: one for each bit, and the test that ends the loop. *)
Definition CountBytes {S} (value : Z) : ST S Z := CountBytes_loop 33 value 0.

(** [os << std::hex << (int)v]: digits by repeated division; an [int] has eight. *)
Definition hex_char (d : Z) : string :=
  String (code_char (if d <? 10 then 48 + d else 87 + d)) EmptyString.
Fixpoint hex_loop (fuel : nat) (v : Z) (s : string) : string :=
  match fuel with
  | O => s
  | S fuel => let s := hex_char (v `mod` 16) +:+ s in if v `div` 16 =? 0 then s else hex_loop fuel (v `div` 16) s
  end.
Definition hex (v : Z) : string := hex_loop 8 v "".
Definition dec (v : Z) : string := pretty v.

Section host.
Context (host : Z).
Abbreviation swap := (byteswapOnLittleEndian host).

(** ** Structures in memory *)
Definition bytes_of_in (a : sockaddr_in) : list Z :=
  repr host uint16_t (sin_family a) ++ repr host uint16_t (sin_port a) ++ repr host uint32_t (s_addr a) ++ sin_zero a.
Definition bytes_of_in6 (a : sockaddr_in6) : list Z :=
  repr host uint16_t (sin6_family a) ++ repr host uint16_t (sin6_port a) ++ repr host uint32_t (sin6_flowinfo a)
  ++ s6_addr a ++ repr host uint32_t (sin6_scope_id a).
Definition bytes_of_un (a : sockaddr_un) : list Z := repr host uint16_t (sun_family a) ++ sun_path a.
Definition bytes_of_sockaddr (a : sockaddr) : list Z := repr host uint16_t (sa_family a) ++ sa_data a.

Definition in_of_bytes (l : list Z) : sockaddr_in :=
  mkIn (unrepr host uint16_t (slice l 0 2)) (unrepr host uint16_t (slice l 2 2)) (unrepr host uint32_t (slice l 4 4)) (slice l 8 8).
Definition in6_of_bytes (l : list Z) : sockaddr_in6 :=
  mkIn6 (unrepr host uint16_t (slice l 0 2)) (unrepr host uint16_t (slice l 2 2)) (unrepr host uint32_t (slice l 4 4))
    (slice l 8 16) (unrepr host uint32_t (slice l 24 4)).
Definition sockaddr_of_bytes (l : list Z) : sockaddr := mkSockaddr (unrepr host uint16_t (slice l 0 2)) (slice l 2 14).

(** ** [Address] *)
Definition getAddr (a : Address) : list Z :=
  match a with
  | IPv4Address a => bytes_of_in a
  | IPv6Address a => bytes_of_in6 a
  | UnixAddress a _ => bytes_of_un a
  | UnknowAddress a => bytes_of_sockaddr a
  end.
Definition getAddrLen (a : Address) : Z :=
  match a with
  | IPv4Address _ => 16
  | IPv6Address _ => 28
  | UnixAddress _ m_length => m_length
  | UnknowAddress _ => 16
  end.
Definition getFamily (a : Address) : Z := unrepr host uint16_t (slice (getAddr a) 0 2).

(** [*(const T * )addr]: the structure must lie in the memory at [addr]. *)
Definition load {S T} (l : list Z) (n : Z) (f : list Z → T) : ST S T :=
  if n <=? zlen l then ret (f l) else crash OutOfBounds.

(** [Address::Create]; the length is not used. *)
Definition Create {S} (addr : option (list Z)) (addrlen : Z) : ST S (option Address) :=
  match addr with
  | None => ret None
  | Some l =>
      let* h := load l 2 (λ l, unrepr host uint16_t (slice l 0 2)) in
      if h =? AF_INET then let* a := load l 16 in_of_bytes in ret (Some (IPv4Address a))
      else if h =? AF_INET6 then let* a := load l 28 in6_of_bytes in ret (Some (IPv6Address a))
      else let* a := load l 16 sockaddr_of_bytes in ret (Some (UnknowAddress a))
  end.

(** The sign of [memcmp(a, b, n)]. *)
Fixpoint compare_bytes (a b : list Z) : comparison :=
  match a, b with
  | x :: a, y :: b => match x ?= y with Eq => compare_bytes a b | c => c end
  | _, _ => Eq
  end.
Definition memcmp {S} (n : Z) (a b : list Z) : ST S comparison :=
  if (n <=? zlen a) && (n <=? zlen b) then ret (compare_bytes (take (Z.to_nat n) a) (take (Z.to_nat n) b))
  else crash OutOfBounds.
Definition less {S} (a b : Address) : ST S bool :=
  let minlen := Z.min (getAddrLen a) (getAddrLen b) in
  let* r := memcmp minlen (getAddr a) (getAddr b) in
  ret (match r with Eq => getAddrLen a <? getAddrLen b | Lt => true | Gt => false end).
Definition equal {S} (a b : Address) : ST S bool :=
  if negb (getAddrLen a =? getAddrLen b) then ret false
  else let* r := memcmp (getAddrLen a) (getAddr a) (getAddr b) in
    ret (match r with Eq => true | _ => false end).
Definition not_equal {S} (a b : Address) : ST S bool := let* r := equal a b in ret (negb r).

(** ** IPv4 *)
Definition IPv4_new (address port : Z) : sockaddr_in :=
  mkIn AF_INET (swap uint16_t port) (swap uint32_t address) (replicate 8 0).
Definition IPv4_getPort (a : sockaddr_in) : Z := swap uint16_t (sin_port a).
Definition IPv4_setPort (v : Z) (a : sockaddr_in) : sockaddr_in := mkIn (sin_family a) (swap uint16_t v) (s_addr a) (sin_zero a).
Definition set_s_addr (v : Z) (a : sockaddr_in) : sockaddr_in := mkIn (sin_family a) (sin_port a) v (sin_zero a).

Definition IPv4_insert (a : sockaddr_in) : string :=
  let addr := swap uint32_t (s_addr a) in
  dec (Z.land (Z.shiftr addr 24) 255) +:+ "." +:+ dec (Z.land (Z.shiftr addr 16) 255) +:+ "."
  +:+ dec (Z.land (Z.shiftr addr 8) 255) +:+ "." +:+ dec (Z.land addr 255)
  +:+ ":" +:+ dec (swap uint16_t (sin_port a)).

Definition IPv4_broadcastAddress {S} (prefix_len : Z) (a : sockaddr_in) : ST S (option Address) :=
  if 32 <? prefix_len then ret None
  else let* m := CreateMask uint32_t prefix_len in
    ret (Some (IPv4Address (set_s_addr (Z.lor (s_addr a) (swap uint32_t m)) a))).
Definition IPv4_networkAddress {S} (prefix_len : Z) (a : sockaddr_in) : ST S (option Address) :=
  if 32 <? prefix_len then ret None
  else let* m := CreateMask uint32_t prefix_len in
    ret (Some (IPv4Address (set_s_addr (Z.land (s_addr a) (u32 (Z.lnot (swap uint32_t m)))) a))).
(** Of any address: the memory of the result is cleared first. *)
Definition IPv4_subnetMask {S} (prefix_len : Z) : ST S (option Address) :=
  let* m := CreateMask uint32_t prefix_len in
  ret (Some (IPv4Address (mkIn AF_INET 0 (u32 (Z.lnot (swap uint32_t m))) (replicate 8 0)))).

(** ** IPv6 *)
(** The port is an [uint32_t] here: four bytes are swapped, and two are stored. *)
Definition IPv6_new (address : list Z) (port : Z) : sockaddr_in6 :=
  mkIn6 AF_INET6 (u16 (swap uint32_t port)) 0 (take 16 address) 0.
Definition IPv6_zero : sockaddr_in6 := mkIn6 AF_INET6 0 0 (replicate 16 0) 0.
Definition IPv6_getPort (a : sockaddr_in6) : Z := swap uint16_t (sin6_port a).
Definition IPv6_setPort (v : Z) (a : sockaddr_in6) : sockaddr_in6 :=
  mkIn6 (sin6_family a) (swap uint16_t v) (sin6_flowinfo a) (s6_addr a) (sin6_scope_id a).

(** [addr[i]] of the bytes read as [uint16_t] *)
Definition group (a : list Z) (i : nat) : Z := unrepr host uint16_t (slice a (2 * i) 2).
Fixpoint insert_loop (g : nat → Z) (n i : nat) (used_zeros : bool) (os : string) : bool * string :=
  match n with
  | O => (used_zeros, os)
  | S n =>
      if (g i =? 0) && negb used_zeros then insert_loop g n (S i) used_zeros os
      else
        let c := negb (Nat.eqb i 0) && (g (i - 1)%nat =? 0) && negb used_zeros in
        let os := if c then os +:+ ":" else os in
        let used_zeros := c || used_zeros in
        let os := if Nat.eqb i 0 then os else os +:+ ":" in
        insert_loop g n (S i) used_zeros (os +:+ hex (swap uint16_t (g i)))
  end.
Definition IPv6_insert (a : sockaddr_in6) : string :=
  let (used_zeros, os) := insert_loop (group (s6_addr a)) 8 0 false "[" in
  let os := if negb used_zeros && (group (s6_addr a) 7 =? 0) then os +:+ "::" else os in
  os +:+ "]:" +:+ dec (swap uint16_t (sin6_port a)).

Definition set_s6_addr (v : list Z) (a : sockaddr_in6) : sockaddr_in6 :=
  mkIn6 (sin6_family a) (sin6_port a) (sin6_flowinfo a) v (sin6_scope_id a).
(** [s6_addr[i] = f(s6_addr[i])]; the array has 16 elements. *)
Definition at_byte {S} (i : Z) (f : Z → Z) (l : list Z) : ST S (list Z) :=
  match l !! Z.to_nat i with
  | Some x => if i <? 0 then crash OutOfBounds else ret (<[Z.to_nat i := f x]> l)
  | None => crash OutOfBounds
  end.
Fixpoint fill (i : nat) (n : nat) (l : list Z) : list Z :=
  match n with O => l | S n => fill (S i) n (<[i := 255]> l) end.

Definition IPv6_broadcastAddress {S} (prefix_len : Z) (a : sockaddr_in6) : ST S (option Address) :=
  let* m := CreateMask uint8_t (prefix_len `mod` 8) in
  let* l := at_byte (prefix_len `div` 8) (λ x, Z.lor x m) (s6_addr a) in
  let i := Z.to_nat (prefix_len `div` 8 + 1) in
  ret (Some (IPv6Address (set_s6_addr (fill i (16 - i) l) a))).
Definition IPv6_networkAddress {S} (prefix_len : Z) (a : sockaddr_in6) : ST S (option Address) :=
  let* m := CreateMask uint8_t (prefix_len `mod` 8) in
  let* l := at_byte (prefix_len `div` 8) (λ x, Z.land x m) (s6_addr a) in
  ret (Some (IPv6Address (set_s6_addr l a))).
Definition IPv6_subnetMask {S} (prefix_len : Z) : ST S (option Address) :=
  let* m := CreateMask uint8_t (prefix_len `mod` 8) in
  let* l := at_byte (prefix_len `div` 8) (λ _, u8 (Z.lnot m)) (replicate 16 0) in
  ret (Some (IPv6Address (mkIn6 AF_INET6 0 0 (fill 0 (Z.to_nat (prefix_len `div` 8)) l) 0))).

(** ** Unix domain *)
Definition UnixAddress_default : Address := UnixAddress (mkUn AF_UNIX (replicate 108 0)) (2 + 107).
Definition UnixAddress_new {S} (path : string) : ST S Address :=
  let l := bytes_of_string path in
  let m_length := u32 (size path + 1) in
  let m_length := match l with 0 :: _ => u32 (m_length - 1) | _ => m_length end in
  if 108 <? m_length then throw logic_error
  else ret (UnixAddress (mkUn AF_UNIX (splice (replicate 108 0) 0 (take (Z.to_nat m_length) (l ++ [0])))) (u32 (m_length + 2))).
Definition setAddrLen (v : Z) (a : Address) : Address :=
  match a with UnixAddress u _ => UnixAddress u v | a => a end.

(** [os << (char * )l]: up to the first NUL. *)
Fixpoint c_string_at {S} (l : list Z) : ST S string :=
  match l with
  | [] => crash OutOfBounds
  | c :: l => if c =? 0 then ret EmptyString else let* s := c_string_at l in ret (String (code_char c) s)
  end.
Definition Unix_insert {S} (a : sockaddr_un) (m_length : Z) : ST S string :=
  if (2 <? m_length) && match sun_path a with 0 :: _ => true | _ => false end
  then let* s := string_at (sun_path a) 1 (m_length - 2 - 1) in ret ("\0" +:+ s)
  else c_string_at (sun_path a).

Definition UnknowAddress_new (family : Z) : Address := UnknowAddress (mkSockaddr (u16 family) (replicate 14 0)).
Definition Unknow_insert (a : sockaddr) : string := "[UnknownAddress family=" +:+ dec (sa_family a) +:+ "]".

(** ** Virtual functions *)
Definition insert {S} (a : Address) : ST S string :=
  match a with
  | IPv4Address a => ret (IPv4_insert a)
  | IPv6Address a => ret (IPv6_insert a)
  | UnixAddress a m_length => Unix_insert a m_length
  | UnknowAddress a => ret (Unknow_insert a)
  end.
Definition toString {S} (a : Address) : ST S string := insert a.
(** [dynamic_pointer_cast<IPAddress>] *)
Definition is_ip (a : Address) : bool := match a with IPv4Address _ | IPv6Address _ => true | _ => false end.
Definition setPort (v : Z) (a : Address) : Address :=
  match a with
  | IPv4Address a => IPv4Address (IPv4_setPort v a)
  | IPv6Address a => IPv6Address (IPv6_setPort v a)
  | a => a
  end.

(** ** Names *)
(** [memchr]: the offset of the first [c]. *)
Fixpoint memchr (c : Z) (l : list Z) : option nat :=
  match l with
  | [] => None
  | x :: l => if x =? c then Some O else option_map S (memchr c l)
  end.
(** What a pointer into [host.c_str()] at an offset denotes: the characters up to
    the first NUL. *)
Fixpoint c_bytes (l : list Z) : list Z :=
  match l with [] => [] | c :: l => if c =? 0 then [] else c :: c_bytes l end.
Definition c_str_at (host : list Z) (i : nat) : string := string_of_bytes (c_bytes (drop i host)).

(** The node and the service that [Lookup] asks for. *)
Definition Lookup_split (host : string) : string * option string :=
  let h := bytes_of_string host in
  let (node, service) :=
    match h with
    | 91 :: t =>
        match memchr 93 t with
        | Some j =>
            (take j t, match drop (j + 1) t with 58 :: _ => Some (j + 3)%nat | _ => None end)
        | None => ([], None)
        end
    | _ => ([], None)
    end in
  let (node, service) :=
    match node with
    | [] =>
        match memchr 58 h with
        | Some i =>
            match memchr 58 (drop (i + 1) h) with
            | None => (take i h, Some (i + 1)%nat)
            | Some _ => ([], Some i)
            end
        | None => ([], None)
        end
    | _ => (node, service)
    end in
  let node := match node with [] => h | _ => node end in
  (string_of_bytes (c_bytes node), c_str_at h <$> service).

Section names.
(** The addresses that the resolver answers, in memory, or [None] for an error. *)
Context (getaddrinfo : string → option string → Z → Z → Z → option (list (list Z))).

Fixpoint create_all {S} (results : list (list Z)) : ST S (list Address) :=
  match results with
  | [] => ret []
  | next :: results =>
      let* a := Create (Some next) (zlen next) in
      let* l := create_all results in
      ret (option_list a ++ l)
  end.
Definition Lookup {S} (result : list Address) (host : string) (family type protocol : Z) : ST S (bool * list Address) :=
  let (node, service) := Lookup_split host in
  match getaddrinfo node service family type protocol with
  | None => ret (false, result)
  | Some results =>
      let* l := create_all results in
      let result := result ++ l in
      ret (negb (bool_decide (result = [])), result)
  end.
Definition LookupAny {S} (host : string) (family type protocol : Z) : ST S (option Address) :=
  let* r := Lookup [] host family type protocol in
  if r.1 then ret (head r.2) else ret None.
Definition LookupAnyIPAddress {S} (host : string) (family type protocol : Z) : ST S (option Address) :=
  let* r := Lookup [] host family type protocol in
  if r.1 then ret (head (List.filter is_ip r.2)) else ret None.
(** [IPAddress::Create] *)
Definition IPAddress_Create {S} (address : string) (port : Z) : ST S (option Address) :=
  match getaddrinfo address None AF_UNSPEC 0 0 with
  | None => ret None
  | Some [] => crash NullDeref
  | Some (r :: _) =>
      let* a := Create (Some r) (zlen r) in
      ret (match a with Some a => if is_ip a then Some (setPort port a) else None | None => None end)
  end.
End names.

Section pton.
(** [inet_pton]: the memory of the address, in network order, or [None]. *)
Context (inet_pton : Z → string → option (list Z)).

Definition IPv4_Create (address : string) (port : Z) : option Address :=
  match inet_pton AF_INET address with
  | None => None
  | Some l => Some (IPv4Address (mkIn AF_INET (swap uint16_t port) (unrepr host uint32_t l) (replicate 8 0)))
  end.
Definition IPv6_Create (address : string) (port : Z) : option Address :=
  match inet_pton AF_INET6 address with
  | None => None
  | Some l => Some (IPv6Address (mkIn6 AF_INET6 (u16 (swap uint32_t port)) 0 l 0))
  end.
End pton.

(** ** Interfaces *)
Record ifaddrs := mkIf { ifa_name : string; ifa_addr : option (list Z); ifa_netmask : option (list Z) }.
Definition multimap : Type := list (string * (Address * Z)).
(** [std::multimap::insert]: behind the entries whose key is not greater. *)
Fixpoint multimap_insert (x : string * (Address * Z)) (m : multimap) : multimap :=
  match m with
  | [] => [x]
  | y :: m' => if String.ltb x.1 y.1 then x :: m else y :: multimap_insert x m'
  end.
(** The entries of [equal_range], in order. *)
Definition equal_range (k : string) (m : multimap) : list (Address * Z) := (List.filter (λ x, String.eqb x.1 k) m).*2.

Definition deref_mem {S} (l : option (list Z)) : ST S (list Z) := match l with Some l => ret l | None => crash NullDeref end.
Fixpoint count_all {S} (l : list Z) (prefix_length : Z) : ST S Z :=
  match l with
  | [] => ret prefix_length
  | b :: l => let* n := CountBytes b in count_all l (u32 (prefix_length + n))
  end.
(** A turn of the loop: what is inserted, if anything. *)
Definition interface {S} (family : Z) (next : ifaddrs) : ST S (option (string * (Address * Z))) :=
  let* addr := deref_mem (ifa_addr next) in
  let* h := load addr 2 (λ l, unrepr host uint16_t (slice l 0 2)) in
  if negb (family =? AF_UNSPEC) && negb (family =? h) then ret None
  else
    let entry (a : option Address) (n : Z) := (λ a, (ifa_name next, (a, u16 n))) <$> a in
    if h =? AF_INET then
      let* a := Create (Some addr) 16 in
      let* mask := deref_mem (ifa_netmask next) in
      let* m := load mask 16 in_of_bytes in
      let* n := CountBytes (s_addr m) in
      ret (entry a n)
    else if h =? AF_INET6 then
      let* a := Create (Some addr) 28 in
      let* mask := deref_mem (ifa_netmask next) in
      let* m := load mask 28 in6_of_bytes in
      let* n := count_all (s6_addr m) 0 in
      ret (entry a n)
    else ret None.
Fixpoint interface_loop {S} (family : Z) (l : list ifaddrs) (result : multimap) : ST S multimap :=
  match l with
  | [] => ret result
  | next :: l =>
      let* x := interface family next in
      interface_loop family l (match x with Some x => multimap_insert x result | None => result end)
  end.
(** [getifaddrs] gives the interfaces, or fails. *)
Definition GetInterfaceAddress {S} (results : option (list ifaddrs)) (result : multimap) (family : Z) : ST S (bool * multimap) :=
  match results with
  | None => ret (false, result)
  | Some l => let* result := interface_loop family l result in ret (true, result)
  end.
Definition GetInterfaceAddress_of {S} (results : option (list ifaddrs)) (result : list (Address * Z)) (iface : string) (family : Z) :
    ST S (bool * list (Address * Z)) :=
  if String.eqb iface "" || String.eqb iface "*" then
    let result := if (family =? AF_INET) || (family =? AF_UNSPEC) then result ++ [(IPv4Address (IPv4_new 0 0), 0)] else result in
    let result := if (family =? AF_INET6) || (family =? AF_UNSPEC) then result ++ [(IPv6Address IPv6_zero, 0)] else result in
    ret (true, result)
  else
    let* r := GetInterfaceAddress results [] family in
    if negb r.1 then ret (false, result) else ret (true, result ++ equal_range iface r.2).
End host.
