(* ===== verification/AddressFacts.v ===== *)
(** * AddressFacts: bitwise operations on network-order integers, and IPv4 networks *)
From S2P Require Import Prelude Endian CLib Address.

(** ** A bitwise operation commutes with the byte swap *)
Section bitwise.
Context (op : Z → Z → Z) (f : bool → bool → bool).
Hypothesis op_spec : ∀ a b i, Z.testbit (op a b) i = f (Z.testbit a i) (Z.testbit b i).
Hypothesis f_false : f false false = false.

Lemma op_mod a b k : 0 ≤ k → op a b `mod` 2 ^ k = op (a `mod` 2 ^ k) (b `mod` 2 ^ k).
Proof using op_spec f_false.
  intros Hk. apply Z.bits_inj'. intros i Hi. rewrite op_spec, !Z.testbit_mod_pow2, op_spec by done.
  destruct (i <? k); simpl; [done|]. by rewrite f_false.
Qed.
Lemma op_div a b k : 0 ≤ k → op a b `div` 2 ^ k = op (a `div` 2 ^ k) (b `div` 2 ^ k).
Proof using op_spec. intros Hk. apply Z.bits_inj'. intros i Hi. by rewrite op_spec, !Z.div_pow2_bits, op_spec. Qed.
Lemma op_range w a b : 0 ≤ w → is_u w a → is_u w b → is_u w (op a b).
Proof using op_spec f_false.
  unfold is_u. intros Hw Ha Hb. rewrite <- (Z.mod_small a (2 ^ w)), <- (Z.mod_small b (2 ^ w)), <- op_mod by done.
  apply Z.mod_pos_bound. lia.
Qed.
Lemma le_split_op n a b : le_split n (op a b) = zip_with op (le_split n a) (le_split n b).
Proof using op_spec f_false.
  revert a b. induction n as [|n IH]; intros a b; [done|]. cbn [le_split zip_with].
  change 256 with (2 ^ 8). by rewrite op_mod, op_div, IH by lia.
Qed.
Lemma rev_zip_with (l1 l2 : list Z) : length l1 = length l2 → rev (zip_with op l1 l2) = zip_with op (rev l1) (rev l2).
Proof using.
  revert l2. induction l1 as [|x l1 IH]; intros [|y l2] H; try done. injection H as H. cbn [zip_with rev].
  rewrite (zip_with_app op (rev l1) [x] (rev l2) [y]) by (by rewrite !length_rev). by rewrite IH.
Qed.
Lemma byteswap_op t a b : (0 < cbytes t)%nat → csigned t = false → in_range t a → in_range t b →
  byteswap t (op a b) = op (byteswap t a) (byteswap t b).
Proof using op_spec f_false.
  intros Ht Hs Ha Hb. apply (le_split_inj t); [done|by apply byteswap_in_range| |].
  - pose proof (byteswap_in_range t a Ht) as H1. pose proof (byteswap_in_range t b Ht) as H2.
    unfold in_range in *. rewrite Hs in *. apply op_range; [unfold cbits; lia|done..].
  - rewrite le_split_op, !le_split_byteswap, le_split_op by done. apply rev_zip_with. by rewrite !length_le_split.
Qed.
End bitwise.

Lemma swap_land host t a b : (0 < cbytes t)%nat → csigned t = false → in_range t a → in_range t b →
  byteswapOnLittleEndian host t (Z.land a b) = Z.land (byteswapOnLittleEndian host t a) (byteswapOnLittleEndian host t b).
Proof. intros. unfold byteswapOnLittleEndian. case_match; [done|]. by apply (byteswap_op Z.land andb Z.land_spec). Qed.
Lemma swap_lor host t a b : (0 < cbytes t)%nat → csigned t = false → in_range t a → in_range t b →
  byteswapOnLittleEndian host t (Z.lor a b) = Z.lor (byteswapOnLittleEndian host t a) (byteswapOnLittleEndian host t b).
Proof. intros. unfold byteswapOnLittleEndian. case_match; [done|]. by apply (byteswap_op Z.lor orb Z.lor_spec). Qed.
Lemma swap_lxor host t a b : (0 < cbytes t)%nat → csigned t = false → in_range t a → in_range t b →
  byteswapOnLittleEndian host t (Z.lxor a b) = Z.lxor (byteswapOnLittleEndian host t a) (byteswapOnLittleEndian host t b).
Proof. intros. unfold byteswapOnLittleEndian. case_match; [done|]. by apply (byteswap_op Z.lxor xorb Z.lxor_spec). Qed.
Lemma swap_twice host t v : (0 < cbytes t)%nat → in_range t v → byteswapOnLittleEndian host t (byteswapOnLittleEndian host t v) = v.
Proof. intros. unfold byteswapOnLittleEndian. case_match; [done|]. by apply byteswap_twice. Qed.
Lemma swap_range host t v : (0 < cbytes t)%nat → in_range t v → in_range t (byteswapOnLittleEndian host t v).
Proof. intros. unfold byteswapOnLittleEndian. case_match; [done|]. by apply byteswap_in_range. Qed.

(** ** Masks *)
Lemma u32_lnot m : is_u 32 m → u32 (Z.lnot m) = Z.lxor m (2 ^ 32 - 1).
Proof.
  intros Hm. rewrite lxor_ones by (unfold is_u in Hm; lia). unfold uwrap, Z.lnot, is_u in *.
  rewrite <- (Z.mod_add _ 1) by lia. rewrite Z.mod_small by lia. lia.
Qed.
Lemma swap_ones host : byteswapOnLittleEndian host uint32_t (2 ^ 32 - 1) = 2 ^ 32 - 1.
Proof. unfold byteswapOnLittleEndian. by case_match. Qed.

Lemma lor_low v k : 0 ≤ k → 0 ≤ v → Z.lor v (2 ^ k - 1) = v `div` 2 ^ k * 2 ^ k + (2 ^ k - 1).
Proof.
  intros Hk Hv. pose proof (Z.pow_pos_nonneg 2 k). rewrite (Z.div_mod v (2 ^ k)) at 1 by lia.
  rewrite Z.add_comm, Z.mul_comm, <- lor_shiftl_add by (try apply Z.mod_pos_bound; try apply Z.div_pos; lia).
  rewrite Z.lor_comm, Z.lor_assoc. replace (2 ^ k - 1) with (Z.ones k) by (rewrite Z.ones_equiv; lia).
  replace (Z.lor (Z.ones k) (v `mod` 2 ^ k)) with (Z.ones k).
  - rewrite lor_shiftl_add; [rewrite Z.ones_equiv; lia|done|rewrite Z.ones_equiv; lia|apply Z.div_pos; lia].
  - apply Z.bits_inj'. intros i Hi. rewrite Z.lor_spec, Z.testbit_mod_pow2 by done.
    destruct (Z.ltb_spec i k); [by rewrite Z.ones_spec_low by lia|]. by rewrite orb_false_r.
Qed.
Lemma land_high v k : 0 ≤ k ≤ 32 → is_u 32 v → Z.land v (2 ^ 32 - 1 - (2 ^ k - 1)) = v `div` 2 ^ k * 2 ^ k.
Proof.
  intros Hk Hv. rewrite <- (lxor_ones 32 (2 ^ k - 1)) by (pose proof (Z.pow_le_mono_r 2 k 32); pose proof (Z.pow_pos_nonneg 2 k); lia).
  rewrite <- Z.shiftl_mul_pow2, <- Z.shiftr_div_pow2 by lia. rewrite <- Z.ldiff_ones_r by lia.
  replace (2 ^ k - 1) with (Z.ones k) by (rewrite Z.ones_equiv; lia). change (2 ^ 32 - 1) with (Z.ones 32).
  apply Z.bits_inj'. intros i Hi. rewrite Z.land_spec, Z.lxor_spec, Z.ldiff_spec.
  destruct (Z.ltb_spec i 32) as [H|H].
  - rewrite (Z.ones_spec_low 32) by lia. by destruct (Z.testbit (Z.ones k) i).
  - unfold is_u in Hv. rewrite <- (Z.mod_small v (2 ^ 32)), Z.testbit_mod_pow2 by lia. by rewrite (proj2 (Z.ltb_ge i 32)).
Qed.

Lemma CreateMask_u32 {S} p (s : S) : 2 ≤ p ≤ 32 → CreateMask uint32_t p s = Ret (2 ^ (32 - p) - 1) s.
Proof.
  intros Hp. unfold CreateMask. change (cbits uint32_t) with 32.
  rewrite (uwrap_small 64) by (unfold is_u; lia). rewrite (proj2 (Z.leb_gt 31 _)) by lia. unfold ret. f_equal.
  pose proof (Z.pow_le_mono_r 2 (32 - p) 30). pose proof (Z.pow_pos_nonneg 2 (32 - p)).
  rewrite Z.shiftl_mul_pow2, Z.mul_1_l by lia. apply conv_id; [by vm_compute; lia|]. unfold in_range, is_u, cbits. simpl. lia.
Qed.
Lemma CreateMask_undefined {S} p (s : S) : 0 ≤ p ≤ 1 → CreateMask uint32_t p s = Crash UndefinedArith.
Proof. intros Hp. assert (p = 0 ∨ p = 1) as [-> | ->] by lia; done. Qed.
Lemma u32_range v : is_u 32 v → in_range uint32_t v.
Proof. done. Qed.
Lemma mask_range p : 2 ≤ p ≤ 32 → in_range uint32_t (2 ^ (32 - p) - 1).
Proof.
  intros. pose proof (Z.pow_le_mono_r 2 (32 - p) 30). pose proof (Z.pow_pos_nonneg 2 (32 - p)).
  apply u32_range. unfold is_u. lia.
Qed.
Lemma ones_range : in_range uint32_t (2 ^ 32 - 1).
Proof. apply u32_range. unfold is_u. lia. Qed.
Lemma lxor_range a b : in_range uint32_t a → in_range uint32_t b → in_range uint32_t (Z.lxor a b).
Proof. by apply (op_range Z.lxor xorb Z.lxor_spec). Qed.
Lemma swap_u32_range host v : is_u 32 v → in_range uint32_t (byteswapOnLittleEndian host uint32_t v).
Proof. intros. apply swap_range; [exact (Nat.lt_0_succ _)|done]. Qed.
#[export] Hint Resolve u32_range mask_range ones_range lxor_range swap_u32_range : azure.
(** The side conditions of rewriting under the byte swap of an [uint32_t]. *)
Ltac u32_side := first [exact (Nat.lt_0_succ _) | reflexivity | by eauto 4 with azure].

(** ** What the address classes promise *)
(** ** IPv4 networks *)
(** The address as a number. *)
Definition ip_value (host : Z) (a : sockaddr_in) : Z := byteswapOnLittleEndian host uint32_t (s_addr a).
Definition in_ok (a : sockaddr_in) : Prop := is_u 16 (sin_family a) ∧ is_u 16 (sin_port a) ∧ is_u 32 (s_addr a)
  ∧ length (sin_zero a) = 8%nat ∧ bytes_ok (sin_zero a).
(** Only the number differs. *)
Definition same_but_addr (a b : sockaddr_in) : Prop := b = set_s_addr (s_addr b) a.

Lemma broadcast_ret {S} host p a (s : S) : 2 ≤ p ≤ 32 → is_u 32 (s_addr a) →
  ∃ b, IPv4_broadcastAddress host p a s = Ret (Some (IPv4Address b)) s ∧ same_but_addr a b
    ∧ ip_value host b = ip_value host a `div` 2 ^ (32 - p) * 2 ^ (32 - p) + (2 ^ (32 - p) - 1).
Proof.
  intros Hp Ha. unfold IPv4_broadcastAddress. rewrite (proj2 (Z.ltb_ge 32 p)) by lia.
  rewrite (bind_Ret _ _ _ _ _ (CreateMask_u32 p s Hp)). eexists. split; [done|]. split; [done|].
  pose proof (mask_range p Hp). unfold ip_value; cbn [s_addr set_s_addr].
  rewrite swap_lor, swap_twice by u32_side. apply lor_low; [lia|]. by apply (swap_u32_range host).
Qed.

Lemma network_ret {S} host p a (s : S) : 2 ≤ p ≤ 32 → is_u 32 (s_addr a) →
  ∃ b, IPv4_networkAddress host p a s = Ret (Some (IPv4Address b)) s ∧ same_but_addr a b
    ∧ ip_value host b = ip_value host a `div` 2 ^ (32 - p) * 2 ^ (32 - p).
Proof.
  intros Hp Ha. unfold IPv4_networkAddress. rewrite (proj2 (Z.ltb_ge 32 p)) by lia.
  rewrite (bind_Ret _ _ _ _ _ (CreateMask_u32 p s Hp)). eexists. split; [done|]. split; [done|].
  pose proof (mask_range p Hp) as Hm. unfold ip_value; cbn [s_addr set_s_addr].
  rewrite u32_lnot by (by apply (swap_u32_range host)).
  rewrite swap_land, swap_lxor, swap_twice, swap_ones by u32_side. rewrite lxor_ones by (first [lia|exact Hm]).
  apply land_high; [lia|]. by apply (swap_u32_range host).
Qed.

Lemma subnet_ret {S} host p (s : S) : 2 ≤ p ≤ 32 →
  ∃ b, IPv4_subnetMask host p s = Ret (Some (IPv4Address b)) s ∧ ip_value host b = 2 ^ 32 - 2 ^ (32 - p).
Proof.
  intros Hp. unfold IPv4_subnetMask. rewrite (bind_Ret _ _ _ _ _ (CreateMask_u32 p s Hp)). eexists. split; [done|].
  pose proof (mask_range p Hp) as Hm. unfold ip_value; cbn [s_addr].
  rewrite u32_lnot by (by apply (swap_u32_range host)).
  rewrite swap_lxor, swap_twice, swap_ones by u32_side. rewrite lxor_ones by (first [lia|exact Hm]). lia.
Qed.

(** For a prefix of 2 to 32 bits the network address is the lowest and the
    broadcast address the highest number that shares the prefix with the address,
    the mask selects the prefix, and an address lies in between exactly when it
    has the same network; port and family stay. A longer prefix gives [nullptr];
    prefixes 0 and 1 shift or subtract out of the range of [int]. *)
Theorem ipv4_networks host p a c : is_u 32 (s_addr a) → is_u 32 (s_addr c) → 0 ≤ p →
  if 32 <? p then IPv4_broadcastAddress host p a tt = Ret None tt ∧ IPv4_networkAddress host p a tt = Ret None tt
  else if p <? 2 then IPv4_broadcastAddress host p a tt = Crash UndefinedArith ∧ IPv4_networkAddress host p a tt = Crash UndefinedArith
  else ∃ b n n' m,
    IPv4_broadcastAddress host p a tt = Ret (Some (IPv4Address b)) tt ∧ same_but_addr a b ∧
    IPv4_networkAddress host p a tt = Ret (Some (IPv4Address n)) tt ∧ same_but_addr a n ∧
    IPv4_networkAddress host p c tt = Ret (Some (IPv4Address n')) tt ∧
    IPv4_subnetMask host p tt = Ret (Some (IPv4Address m)) tt ∧
    ip_value host n ≤ ip_value host a ≤ ip_value host b ∧
    ip_value host b - ip_value host n = 2 ^ (32 - p) - 1 ∧
    Z.land (ip_value host a) (ip_value host m) = ip_value host n ∧
    (ip_value host n = ip_value host n' ↔ ip_value host n ≤ ip_value host c ≤ ip_value host b).
Proof.
  intros Ha Hc Hp0. destruct (Z.ltb_spec 32 p) as [H|H].
  { unfold IPv4_broadcastAddress, IPv4_networkAddress. by rewrite (proj2 (Z.ltb_lt 32 p)). }
  destruct (Z.ltb_spec p 2) as [H2|H2].
  { unfold IPv4_broadcastAddress, IPv4_networkAddress. rewrite (proj2 (Z.ltb_ge 32 p)) by lia. unfold bind.
    by rewrite (CreateMask_undefined p tt) by lia. }
  assert (2 ≤ p ≤ 32) as Hp by lia.
  destruct (broadcast_ret host p a tt Hp Ha) as (b & Eb & Sb & Vb). destruct (network_ret host p a tt Hp Ha) as (n & En & Sn & Vn).
  destruct (network_ret host p c tt Hp Hc) as (n' & En' & _ & Vn'). destruct (subnet_ret host p tt Hp) as (m & Em & Vm).
  exists b, n, n', m. split_and!; try done; rewrite ?Vb, ?Vn, ?Vn', ?Vm; pose proof (Z.pow_pos_nonneg 2 (32 - p)).
  1-2: pose proof (Z.mod_pos_bound (ip_value host a) (2 ^ (32 - p))); pose proof (Z.div_mod (ip_value host a) (2 ^ (32 - p))); lia.
  - lia.
  - rewrite <- land_high; [f_equal; lia|lia|]. by apply (swap_u32_range host).
  - pose proof (Z.mod_pos_bound (ip_value host c) (2 ^ (32 - p))). pose proof (Z.div_mod (ip_value host c) (2 ^ (32 - p))).
    split; [intros ->%Z.mul_cancel_r; nia|intros [Hlo Hhi]]. f_equal. apply (Z.div_unique _ _ _ (ip_value host c - ip_value host a `div` 2 ^ (32 - p) * 2 ^ (32 - p))); lia.
Qed.

Lemma ipv4_networks_witness :
  let a := IPv4_new AZURE_LITTLE_ENDIAN 3232236039 80 in
  let c := IPv4_new AZURE_LITTLE_ENDIAN 3232236288 80 in
  ∃ b n n' m,
    IPv4_broadcastAddress AZURE_LITTLE_ENDIAN 23 a tt = Ret (Some (IPv4Address b)) tt ∧ same_but_addr a b ∧
    IPv4_networkAddress AZURE_LITTLE_ENDIAN 23 a tt = Ret (Some (IPv4Address n)) tt ∧ same_but_addr a n ∧
    IPv4_networkAddress AZURE_LITTLE_ENDIAN 23 c tt = Ret (Some (IPv4Address n')) tt ∧
    IPv4_subnetMask AZURE_LITTLE_ENDIAN 23 tt = Ret (Some (IPv4Address m)) tt ∧
    ip_value AZURE_LITTLE_ENDIAN n ≤ ip_value AZURE_LITTLE_ENDIAN a ≤ ip_value AZURE_LITTLE_ENDIAN b ∧
    ip_value AZURE_LITTLE_ENDIAN b - ip_value AZURE_LITTLE_ENDIAN n = 2 ^ (32 - 23) - 1 ∧
    Z.land (ip_value AZURE_LITTLE_ENDIAN a) (ip_value AZURE_LITTLE_ENDIAN m) = ip_value AZURE_LITTLE_ENDIAN n ∧
    (ip_value AZURE_LITTLE_ENDIAN n = ip_value AZURE_LITTLE_ENDIAN n' ↔
     ip_value AZURE_LITTLE_ENDIAN n ≤ ip_value AZURE_LITTLE_ENDIAN c ≤ ip_value AZURE_LITTLE_ENDIAN b).
Proof.
  intros a c. refine (ipv4_networks AZURE_LITTLE_ENDIAN 23 a c _ _ _); [vm_compute; split; congruence..|lia].
Defined.
