(* ===== verification/AddressText.v ===== *)
(** * AddressText: the text of IP addresses reads back *)
From S2P Require Import Prelude Endian CLib Words Decimal Address AddressFacts.

(** ** Reading numbers (the specification side) *)
Definition is_digit (base c : Z) : bool := match digit_of base c with Some _ => true | None => false end.
Fixpoint digits (base : Z) (l : list Z) : list Z * list Z :=
  match l with
  | [] => ([], [])
  | c :: l' => if is_digit base c then let (ds, rest) := digits base l' in (c :: ds, rest) else ([], l)
  end.
Definition read_num (base : Z) (l : list Z) : option (Z * list Z) :=
  match digits base l with
  | ([], _) => None
  | (ds, rest) => Some (digits_value base 0 ds, rest)
  end.
Definition skip (c : Z) (l : list Z) : option (list Z) :=
  match l with x :: l => if x =? c then Some l else None | [] => None end.

(** A dotted quad and a port. *)
Definition read_v4 (s : string) : option (Z * Z) :=
  '(a, l) ← read_num 10 (bytes_of_string s); l ← skip 46 l;
  '(b, l) ← read_num 10 l; l ← skip 46 l;
  '(c, l) ← read_num 10 l; l ← skip 46 l;
  '(d, l) ← read_num 10 l; l ← skip 58 l;
  '(port, l) ← read_num 10 l;
  if forallb (λ x, x <? 256) [a; b; c; d] && bool_decide (l = []) then Some (((a * 256 + b) * 256 + c) * 256 + d, port) else None.

(** Groups of hexadecimal digits with single colons between them, as many as there are. *)
Fixpoint read_groups (fuel : nat) (l : list Z) : list Z * list Z :=
  match fuel with
  | O => ([], l)
  | S fuel =>
      match read_num 16 l with
      | Some (v, l1) =>
          match skip 58 l1 with
          | Some (c :: l2) => if is_digit 16 c then let (vs, l3) := read_groups fuel (c :: l2) in (v :: vs, l3) else ([v], l1)
          | _ => ([v], l1)
          end
      | None => ([], l)
      end
  end.
(** [::] stands for the groups that are missing. *)
Definition fill_zeros (hi : list Z) (l : list Z) : list Z * list Z :=
  match l with
  | x :: y :: l' =>
      if (x =? 58) && (y =? 58) then let (lo, l) := read_groups 8 l' in (hi ++ replicate (8 - length hi - length lo) 0 ++ lo, l)
      else (hi, l)
  | _ => (hi, l)
  end.
Definition read_body (l : list Z) : list Z * list Z := let (hi, l) := read_groups 8 l in fill_zeros hi l.
(** The text form of IPv6 addresses: eight groups, or fewer around one [::]. *)
Definition read_v6 (s : string) : option (list Z * Z) :=
  l ← skip 91 (bytes_of_string s);
  let (gs, l) := read_body l in
  l ← skip 93 l; l ← skip 58 l;
  '(port, l) ← read_num 10 l;
  if bool_decide (length gs = 8%nat) && bool_decide (l = []) then Some (gs, port) else None.

(** ** Numbers *)
Lemma digits_app base ds rest : forallb (is_digit base) ds = true → stops base rest → digits base (ds ++ rest) = (ds, rest).
Proof.
  induction ds as [|c ds IH]; cbn [forallb app digits]; intros H Hr.
  - destruct rest as [|c rest]; [done|]. simpl in Hr |- *. unfold is_digit. by rewrite Hr.
  - apply andb_true_iff in H as [-> H]. by rewrite IH.
Qed.
Lemma read_num_app base ds rest : forallb (is_digit base) ds = true → ds ≠ [] → stops base rest →
  read_num base (ds ++ rest) = Some (digits_value base 0 ds, rest).
Proof. intros. unfold read_num. rewrite digits_app by done. by destruct ds. Qed.

Lemma dec_facts n : 0 ≤ n →
  forallb (is_digit 10) (bytes_of_string (dec n)) = true ∧ bytes_of_string (dec n) ≠ [] ∧ digits_value 10 0 (bytes_of_string (dec n)) = n.
Proof.
  intros Hn. unfold dec. assert (pretty n = pretty (Z.to_N n)) as -> by (destruct n as [|n|n]; [done|done|lia]).
  destruct (pretty_N_digits (Z.to_N n)) as [Hd Hne]. split_and!.
  - unfold all_in in Hd. rewrite forallb_forall in *. intros c Hc. specialize (Hd c Hc). unfold is_digit, digit_of.
    unfold between in Hd. rewrite Hd. apply andb_true_iff in Hd as [?%Z.leb_le ?%Z.leb_le]. by rewrite (proj2 (Z.ltb_lt _ 10)) by lia.
  - by destruct (pretty (Z.to_N n)).
  - pose proof (digits_value_pretty_N (Z.to_N n) [] I) as H. rewrite app_nil_r in H. rewrite H. lia.
Qed.
Lemma read_dec n rest : 0 ≤ n → stops 10 rest → read_num 10 (bytes_of_string (dec n) ++ rest) = Some (n, rest).
Proof. intros Hn Hr. destruct (dec_facts n Hn) as (Hd & Hne & Hv). by rewrite read_num_app, Hv. Qed.

Lemma code_char_byte z : is_byte z → char_code (code_char z) = z.
Proof.
  unfold is_byte, is_u, char_code, code_char. intros Hz. rewrite Ascii.N_ascii_embedding by lia. lia.
Qed.
Lemma hex_char_digit d : 0 ≤ d < 16 → ∃ c, bytes_of_string (hex_char d) = [c] ∧ digit_of 16 c = Some d.
Proof.
  intros Hd. assert (Forall (λ d, ∃ c, bytes_of_string (hex_char d) = [c] ∧ digit_of 16 c = Some d) (seqZ 0 16)) as H.
  { repeat constructor; eexists; (split; [vm_compute; reflexivity|reflexivity]). }
  rewrite Forall_forall in H. apply H. apply elem_of_seqZ. lia.
Qed.
Lemma digits_value_app base acc l1 l2 : forallb (is_digit base) l1 = true →
  digits_value base acc (l1 ++ l2) = digits_value base (digits_value base acc l1) l2.
Proof.
  revert acc. induction l1 as [|c l1 IH]; intros acc H; [done|]. cbn [forallb app digits_value] in *.
  unfold is_digit in H at 1. destruct (digit_of base c); [|done]. by apply IH.
Qed.

Lemma hex_loop_facts fuel v s : 0 ≤ v < 16 ^ Z.of_nat fuel → (0 < fuel)%nat → ∃ ds, bytes_of_string (hex_loop fuel v s) = ds ++ bytes_of_string s
  ∧ forallb (is_digit 16) ds = true ∧ ds ≠ [] ∧ digits_value 16 0 ds = v.
Proof.
  revert v s. induction fuel as [|fuel IH]; intros v s Hv Hf; [lia|]. cbn [hex_loop].
  destruct (hex_char_digit (v `mod` 16)) as (c & Hc & Hd); [apply Z.mod_pos_bound; lia|].
  pose proof (Z.div_mod v 16 ltac:(lia)). destruct (Z.eqb_spec (v `div` 16) 0) as [E|E].
  - exists [c]. rewrite bytes_of_string_app, Hc. split_and!; [done| |done|].
    + simpl. unfold is_digit. by rewrite Hd.
    + simpl. rewrite Hd. lia.
  - rewrite Nat2Z.inj_succ, Z.pow_succ_r in Hv by lia.
    assert (0 < fuel)%nat by (destruct fuel; [by destruct E; apply Z.div_small; change (16 ^ Z.of_nat 0) with 1 in Hv; lia|lia]).
    destruct (IH (v `div` 16) (hex_char (v `mod` 16) +:+ s)) as (ds & E1 & H1 & H2 & H3); [|done|].
    { split; [apply Z.div_pos; lia|]. apply Z.div_lt_upper_bound; lia. }
    exists (ds ++ [c]). rewrite E1, bytes_of_string_app, Hc, <- app_assoc. split_and!; [done| |by destruct ds|].
    + rewrite forallb_app, H1. simpl. unfold is_digit. by rewrite Hd.
    + rewrite digits_value_app, H3 by done. simpl. rewrite Hd. lia.
Qed.
Lemma read_hex v rest : 0 ≤ v < 2 ^ 16 → stops 16 rest → read_num 16 (bytes_of_string (hex v) ++ rest) = Some (v, rest).
Proof.
  intros Hv Hr. destruct (hex_loop_facts 8 v "") as (ds & E & Hd & Hne & Hval); [change (16 ^ Z.of_nat 8) with (2 ^ 32); lia|lia|].
  unfold hex. rewrite E. change (bytes_of_string "") with (@nil Z). rewrite app_nil_r. by rewrite read_num_app, Hval.
Qed.
Lemma hex_head v : 0 ≤ v < 2 ^ 16 → ∃ c l, bytes_of_string (hex v) = c :: l ∧ is_digit 16 c = true.
Proof.
  intros Hv. destruct (hex_loop_facts 8 v "") as ([|c ds] & E & Hd & Hne & _); [change (16 ^ Z.of_nat 8) with (2 ^ 32); lia|lia|done|].
  exists c, ds. unfold hex. rewrite E. change (bytes_of_string "") with (@nil Z). rewrite app_nil_r. split; [done|].
  cbn [forallb] in Hd. by apply andb_true_iff in Hd as [? _].
Qed.

(** ** IPv4 *)
Lemma octets v : is_u 32 v →
  let a := Z.land (Z.shiftr v 24) 255 in let b := Z.land (Z.shiftr v 16) 255 in
  let c := Z.land (Z.shiftr v 8) 255 in let d := Z.land v 255 in
  (0 ≤ a < 256 ∧ 0 ≤ b < 256 ∧ 0 ≤ c < 256 ∧ 0 ≤ d < 256) ∧ ((a * 256 + b) * 256 + c) * 256 + d = v.
Proof.
  unfold is_u. intros Hv. change 255 with (Z.ones 8). rewrite !Z.land_ones, !Z.shiftr_div_pow2 by lia.
  change (2 ^ 8) with 256. change (2 ^ 16) with 65536. change (2 ^ 24) with 16777216. change (2 ^ 32) with 4294967296 in Hv.
  cbv zeta. Z.to_euclidean_division_equations. lia.
Qed.

Lemma read_v4_insert host a : is_u 32 (s_addr a) → is_u 16 (sin_port a) →
  read_v4 (IPv4_insert host a) = Some (byteswapOnLittleEndian host uint32_t (s_addr a), IPv4_getPort host a).
Proof.
  intros Ha Hp. unfold IPv4_insert, IPv4_getPort.
  assert (is_u 32 (byteswapOnLittleEndian host uint32_t (s_addr a))) as Hv by (by apply (swap_u32_range host)).
  assert (is_u 16 (byteswapOnLittleEndian host uint16_t (sin_port a))) as Hq by (by apply (swap_range host uint16_t); [exact (Nat.lt_0_succ _)|]).
  revert Hv Hq. generalize (byteswapOnLittleEndian host uint32_t (s_addr a)) (byteswapOnLittleEndian host uint16_t (sin_port a)).
  intros v q Hv Hq. destruct (octets v Hv) as ((Ba & Bb & Bc & Bd) & E). unfold read_v4. rewrite !bytes_of_string_app.
  change (bytes_of_string ".") with [46]. change (bytes_of_string ":") with [58]. rewrite <- (app_nil_r (bytes_of_string (dec q))).
  unfold is_u in Hq. cbn [app]. repeat (rewrite read_dec by first [lia | reflexivity | exact I]; cbn [mbind option_bind skip Z.eqb Pos.eqb]).
  cbn [forallb]. rewrite !(proj2 (Z.ltb_lt _ 256)) by lia. simpl. by rewrite E.
Qed.

(** ** IPv6 *)
(** The text that the loop prints, by the groups that are left. *)
Definition tail_text (l : list Z) : string := foldr (λ v s, ":" +:+ hex v +:+ s) "" l.
Fixpoint zeros_text (l : list Z) : string :=
  match l with
  | [] => "::"
  | v :: l => if v =? 0 then zeros_text l else "::" +:+ hex v +:+ tail_text l
  end.
Fixpoint head_text (first : bool) (l : list Z) : string :=
  match l with
  | [] => ""
  | v :: l => if v =? 0 then zeros_text l else (if first then "" else ":") +:+ hex v +:+ head_text false l
  end.

Section loop.
Context (host : Z) (g : nat → Z).
Abbreviation v := (λ i, byteswapOnLittleEndian host uint16_t (g i)).
Hypothesis same_zero : ∀ i, (g i =? 0) = (v i =? 0).

Lemma loop_tail n i os : i ≠ O → insert_loop host g n i true os = (true, os +:+ tail_text (v <$> seq i n)).
Proof using.
  revert i os. induction n as [|n IH]; intros i os Hi; [cbn; by rewrite string_app_nil_r|].
  cbn [insert_loop seq fmap list_fmap tail_text foldr]. rewrite !andb_false_r. apply Nat.eqb_neq in Hi. rewrite Hi. cbn [orb negb].
  rewrite IH by lia. by rewrite <- !string_app_assoc.
Qed.

(** What is appended behind the loop. *)
Definition closed (p : bool * string) (last : Z) : string :=
  if negb p.1 && (last =? 0) then p.2 +:+ "::" else p.2.

Lemma loop_zeros n i os : (v i =? 0) = true →
  closed (insert_loop host g n (S i) false os) (g (n + i)) = os +:+ zeros_text (v <$> seq (S i) n).
Proof using same_zero.
  revert i os. induction n as [|n IH]; intros i os Hi.
  - unfold closed. cbn [insert_loop seq fmap list_fmap zeros_text fst snd negb andb Nat.add]. by rewrite same_zero, Hi.
  - cbn [insert_loop seq fmap list_fmap zeros_text]. rewrite <- same_zero in Hi.
    rewrite (same_zero (S i)). destruct (Z.eqb_spec (v (S i)) 0) as [E|E]; cbn [andb negb].
    + replace (S n + i)%nat with (n + S i)%nat by lia. apply IH. rewrite E. done.
    + replace (S i - 1)%nat with i by lia. rewrite Hi. cbn [Nat.eqb negb andb orb]. rewrite loop_tail by lia.
      unfold closed. cbn [fst snd negb andb]. rewrite <- !string_app_assoc. done.
Qed.

Lemma loop_head n i os : (i ≠ O → (v (i - 1)%nat =? 0) = false) →
  closed (insert_loop host g n i false os) (if n is O then 1 else g (n + i - 1)) = os +:+ head_text (Nat.eqb i 0) (v <$> seq i n).
Proof using same_zero.
  revert i os. induction n as [|n IH]; intros i os Hi; [cbn; by rewrite string_app_nil_r|].
  cbn [insert_loop seq fmap list_fmap head_text]. rewrite (same_zero i). destruct (Z.eqb_spec (v i) 0) as [E|E]; cbn [andb negb].
  - replace (S n + i - 1)%nat with (n + i)%nat by lia. rewrite loop_zeros; [done|]. by rewrite E.
  - assert (negb (i =? 0)%nat && (g (i - 1)%nat =? 0) && true = false) as ->.
    { destruct (Nat.eqb_spec i 0) as [->|Hn]; [done|]. by rewrite same_zero, Hi. }
    cbn [orb]. specialize (IH (S i)). cbn [Nat.eqb] in IH.
    assert (S i ≠ 0%nat → (v (S i - 1)%nat =? 0) = false) as Hi' by (intros _; replace (S i - 1)%nat with i by lia; by apply Z.eqb_neq).
    destruct n as [|n].
    + unfold closed. cbn [insert_loop seq fmap list_fmap head_text fst snd negb andb Nat.add].
      replace (S i - 1)%nat with i by lia. rewrite (same_zero i), (proj2 (Z.eqb_neq _ _) E), string_app_nil_r.
      destruct (Nat.eqb i 0); by rewrite <- ?string_app_assoc.
    + replace (S (S n) + i - 1)%nat with (S n + S i - 1)%nat by lia. rewrite IH by done.
      destruct (Nat.eqb i 0); by rewrite <- ?string_app_assoc.
Qed.
End loop.

(** *** Reading the text *)
Definition group_ok (v : Z) : Prop := 0 ≤ v < 2 ^ 16.
(** What ends a sequence of groups. *)
Definition ends (rest : list Z) : Prop :=
  stops 16 rest ∧ match rest with x :: c :: _ => x = 58 → is_digit 16 c = false | _ => True end.

Lemma read_groups_text fuel v l rest : (length l < fuel)%nat → Forall group_ok (v :: l) → ends rest →
  read_groups fuel (bytes_of_string (hex v) ++ bytes_of_string (tail_text l) ++ rest) = (v :: l, rest).
Proof.
  revert v l. induction fuel as [|fuel IH]; intros v l Hl Hok [Hs He]; [lia|].
  apply Forall_cons in Hok as [Hv Hok]. cbn [read_groups]. destruct l as [|w l].
  - change (bytes_of_string (tail_text [])) with (@nil Z). cbn [app]. rewrite read_hex by done.
    destruct rest as [|x [|c rest]]; try done; cbn [skip]; destruct (Z.eqb_spec x 58) as [->|]; try done. by rewrite He.
  - cbn [tail_text foldr]. fold (tail_text l). rewrite !bytes_of_string_app, <- !app_assoc.
    change (bytes_of_string ":") with [58]. cbn [app]. rewrite read_hex by done. cbn [skip Z.eqb Pos.eqb].
    pose proof (proj1 (Forall_cons _ _ _) Hok) as [Hw _]. destruct (hex_head w Hw) as (c & cs & E & Hc).
    specialize (IH w l ltac:(simpl in Hl; lia) Hok (conj Hs He)). rewrite E in IH |- *. cbn [app] in IH |- *.
    by rewrite Hc, IH.
Qed.
Lemma read_groups_none fuel rest : ends rest → read_groups fuel rest = ([], rest).
Proof.
  intros [Hs _]. destruct fuel; [done|]. cbn [read_groups]. destruct rest as [|c rest]; [done|].
  unfold read_num. cbn [digits]. simpl in Hs. unfold is_digit. by rewrite Hs.
Qed.

Lemma zeros_text_shape l : ∃ k lo, l = replicate k 0 ++ lo ∧
  ((lo = [] ∧ zeros_text l = "::") ∨ ∃ w lo', lo = w :: lo' ∧ zeros_text l = "::" +:+ hex w +:+ tail_text lo').
Proof.
  induction l as [|v l (k & lo & -> & IH)]; [exists O, []; auto|]. cbn [zeros_text]. destruct (Z.eqb_spec v 0) as [->|Hv].
  - exists (S k), lo. split; [done|exact IH].
  - exists O, (v :: replicate k 0 ++ lo). split; [done|]. right. by eexists _, _.
Qed.
Lemma head_text_shape l : ∃ pre post, l = pre ++ post ∧
  ((post = [] ∧ head_text false l = tail_text pre) ∨ ∃ post', post = 0 :: post' ∧ head_text false l = tail_text pre +:+ zeros_text post').
Proof.
  induction l as [|v l (pre & post & -> & IH)]; [exists [], []; auto|]. cbn [head_text]. destruct (Z.eqb_spec v 0) as [->|Hv].
  - exists [], (0 :: pre ++ post). split; [done|]. right. by eexists.
  - exists (v :: pre), post. split; [done|]. destruct IH as [[-> ->]|(post' & -> & ->)]; [left; done|right].
    exists post'. split; [done|]. cbn [tail_text foldr]. fold (tail_text pre). by rewrite <- !string_app_assoc.
Qed.

(** The part from the [::] on. *)
Lemma read_compressed hi post rest : Forall group_ok post → ends rest → (length post < 8)%nat →
  (length hi + S (length post) = 8)%nat →
  fill_zeros hi (bytes_of_string (zeros_text post) ++ rest) = (hi ++ 0 :: post, rest).
Proof.
  intros Hok He Hlen Htotal. destruct (zeros_text_shape post) as (k & lo & -> & H). rewrite length_app, length_replicate in *.
  destruct H as [[-> ->]|(w & lo' & -> & ->)]; rewrite ?bytes_of_string_app; change (bytes_of_string "::") with [58; 58]; cbn [app fill_zeros Z.eqb Pos.eqb andb].
  - rewrite read_groups_none by done. simpl in Htotal |- *. rewrite !app_nil_r. f_equal. f_equal.
    by replace (8 - length hi - 0)%nat with (S k) by lia.
  - rewrite <- app_assoc, read_groups_text; [|simpl in Hlen; lia| |done].
    2: by apply Forall_app in Hok as [_ Hok]. simpl in Htotal |- *. f_equal. f_equal.
    by replace (8 - length hi - S (length lo'))%nat with (S k) by lia.
Qed.

Lemma ends_zeros post rest : ends (bytes_of_string (zeros_text post) ++ rest).
Proof.
  destruct (zeros_text_shape post) as (k & lo & -> & [[-> ->]|(w & lo' & -> & ->)]); rewrite ?bytes_of_string_app;
    change (bytes_of_string "::") with [58; 58]; cbn [app]; (split; [reflexivity|by intros _]).
Qed.
Lemma read_body_text vs rest : length vs = 8%nat → Forall group_ok vs →
  read_body (bytes_of_string (head_text true vs) ++ 93 :: rest) = (vs, 93 :: rest).
Proof.
  intros Hlen Hok. assert (ends (93 :: rest)) as He by (split; [done|by destruct rest]).
  destruct vs as [|v l]; [done|]. injection Hlen as Hlen. unfold read_body. cbn [head_text].
  destruct (Z.eqb_spec v 0) as [->|Hv].
  - rewrite read_groups_none by apply ends_zeros. apply Forall_cons in Hok as [_ Hok]. apply (read_compressed []); simpl; try done; lia.
  - rewrite string_app_nil. destruct (head_text_shape l) as (pre & post & -> & H).
    rewrite app_comm_cons in Hok. rewrite length_app in Hlen.
    pose proof (proj1 (Forall_app _ _ _) Hok) as [Hpre Hpost].
    destruct H as [[-> ->]|(post' & -> & ->)]; rewrite ?bytes_of_string_app, <- ?app_assoc, ?app_nil_r in *.
    + rewrite read_groups_text by (simpl in Hlen; first [lia | done]). by destruct rest.
    + rewrite read_groups_text; [|simpl in Hlen; lia|done|apply ends_zeros].
      apply Forall_cons in Hpost as [_ Hpost]. rewrite app_comm_cons. apply read_compressed; simpl in *; try done; lia.
Qed.

(** The groups of an address: pairs of bytes in network order. *)
Definition groups (l : list Z) : list Z := (λ i, 256 * nth (2 * i) l 0 + nth (2 * i + 1) l 0) <$> seq 0 8.

Lemma pair_value host b0 b1 : is_byte b0 → is_byte b1 →
  byteswapOnLittleEndian host uint16_t (unrepr host uint16_t [b0; b1]) = 256 * b0 + b1 ∧
  (unrepr host uint16_t [b0; b1] = 0 ↔ 256 * b0 + b1 = 0).
Proof.
  unfold is_byte, is_u. intros H0 H1. unfold byteswapOnLittleEndian, unrepr.
  assert (∀ x y, 0 ≤ x < 256 → 0 ≤ y < 256 → conv uint16_t (le_combine [x; y]) = x + 256 * y) as Hc.
  { intros x y Hx Hy. simpl. rewrite conv_id; [lia|exact (Nat.lt_0_succ _)|]. unfold in_range, is_u, cbits. simpl. lia. }
  destruct (host =? AZURE_BIG_ENDIAN); cbn [rev app]; rewrite Hc by done; [lia|]. split; [|lia].
  apply (le_split_inj uint16_t); [exact (Nat.lt_0_succ _)|apply byteswap_in_range; exact (Nat.lt_0_succ _)|unfold in_range, is_u, cbits; simpl; lia|].
  rewrite le_split_byteswap by exact (Nat.lt_0_succ _). change (cbytes uint16_t) with 2%nat.
  assert (∀ x y, 0 ≤ x < 256 → 0 ≤ y < 256 → le_split 2 (x + 256 * y) = [x; y]) as Hs.
  { intros x y Hx Hy. assert (bytes_ok [x; y]) as Hok by (repeat constructor; unfold is_byte, is_u; lia).
    rewrite <- (le_split_combine _ Hok). f_equal. simpl. lia. }
  rewrite Hs, (Z.add_comm (256 * b0)), Hs by done. done.
Qed.

Lemma group_value host l i : bytes_ok l → length l = 16%nat → (i < 8)%nat →
  byteswapOnLittleEndian host uint16_t (group host l i) = nth i (groups l) 0 ∧
  (group host l i =? 0) = (byteswapOnLittleEndian host uint16_t (group host l i) =? 0) ∧ group_ok (nth i (groups l) 0).
Proof.
  intros Hl Hlen Hi. do 17 (destruct l as [|? l]; try done). clear Hlen.
  unfold bytes_ok in Hl. repeat (apply Forall_cons in Hl as [? Hl]).
  do 8 (destruct i as [|i]; [
    match goal with |- context [group host ?l ?j] => let s := eval cbv in (slice l (2 * j) 2) in change (group host l j) with (unrepr host uint16_t s) end;
    match goal with |- context [unrepr host uint16_t [?a; ?b]] => destruct (pair_value host a b) as [E Hz]; [assumption..|]; rewrite E end;
    cbn [groups fmap list_fmap seq nth Nat.mul Nat.add]; split; [reflexivity|];
    split; [apply eq_true_iff_eq; by rewrite !Z.eqb_eq|]; unfold is_byte, is_u, group_ok in *; lia|]).
  lia.
Qed.

Lemma group_same_zero host l i : bytes_ok l → length l = 16%nat →
  (group host l i =? 0) = (byteswapOnLittleEndian host uint16_t (group host l i) =? 0).
Proof.
  intros Hl Hlen. destruct (decide (i < 8)%nat); [by apply group_value|].
  unfold group, slice. rewrite drop_ge by lia. unfold byteswapOnLittleEndian, unrepr. by case_match.
Qed.
Lemma groups_values host l : bytes_ok l → length l = 16%nat →
  (λ i, byteswapOnLittleEndian host uint16_t (group host l i)) <$> seq 0 8 = groups l.
Proof.
  intros Hl Hlen. apply list_eq_same_length with 8%nat; [done|done|]. intros i x y Hi Hx Hy.
  rewrite list_lookup_fmap, lookup_seq_lt in Hx by done. injection Hx as <-.
  destruct (group_value host l i Hl Hlen Hi) as [-> _]. by apply nth_lookup_Some.
Qed.

Definition in6_ok (a : sockaddr_in6) : Prop := length (s6_addr a) = 16%nat ∧ bytes_ok (s6_addr a) ∧ is_u 16 (sin6_port a).

Lemma read_v6_insert host a : in6_ok a →
  read_v6 (IPv6_insert host a) = Some (groups (s6_addr a), IPv6_getPort host a).
Proof.
  intros (Hlen & Hl & Hp). unfold IPv6_insert, IPv6_getPort.
  pose proof (loop_head host (group host (s6_addr a)) (λ i, group_same_zero host (s6_addr a) i Hl Hlen) 8 0 "[" ltac:(done)) as H.
  cbn [Nat.add Nat.sub Nat.eqb] in H. unfold closed in H.
  destruct (insert_loop host (group host (s6_addr a)) 8 0 false "[") as [used os]. cbn [fst snd] in H. rewrite H, (groups_values host) by done.
  assert (is_u 16 (byteswapOnLittleEndian host uint16_t (sin6_port a))) as Hq by (by apply (swap_range host uint16_t); [exact (Nat.lt_0_succ _)|]).
  revert Hq. generalize (byteswapOnLittleEndian host uint16_t (sin6_port a)). intros q Hq. unfold is_u in Hq.
  unfold read_v6. rewrite !bytes_of_string_app. change (bytes_of_string "[") with [91]. change (bytes_of_string "]:") with [93; 58].
  rewrite <- app_assoc. cbn [app skip Z.eqb Pos.eqb mbind option_bind].
  assert (Forall group_ok (groups (s6_addr a))) as Hg.
  { apply Forall_lookup. intros i x Hx. assert (i < 8)%nat as Hi by (by apply lookup_lt_Some in Hx).
    destruct (group_value host _ i Hl Hlen Hi) as (_ & _ & Hok). by rewrite (nth_lookup_Some _ _ _ _ Hx) in Hok. }
  rewrite read_body_text by done. cbn [skip Z.eqb Pos.eqb mbind option_bind].
  rewrite <- (app_nil_r (bytes_of_string (dec q))), read_dec by first [lia | exact I]. done.
Qed.

(** C39: The text of an IP address reads back: the dotted quad as the number, and
    the compressed IPv6 form, by the rules for [::], as the same eight groups; and
    the port, on either kind of host. *)
Theorem address_text host a : match a with IPv4Address a => is_u 32 (s_addr a) ∧ is_u 16 (sin_port a) | IPv6Address a => in6_ok a | _ => False end →
  ∃ s, toString host a tt = Ret s tt ∧
    match a with
    | IPv4Address a => read_v4 s = Some (byteswapOnLittleEndian host uint32_t (s_addr a), IPv4_getPort host a)
    | IPv6Address a => read_v6 s = Some (groups (s6_addr a), IPv6_getPort host a)
    | _ => True
    end.
Proof.
  destruct a as [a|a|a n|a]; try done.
  - intros [Ha Hp]. eexists. split; [done|]. by apply read_v4_insert.
  - intros Ha. eexists. split; [done|]. by apply read_v6_insert.
Qed.

Lemma address_text_witness :
  let a := IPv6_new AZURE_LITTLE_ENDIAN [32; 1; 13; 184; 0; 0; 0; 0; 0; 1; 0; 0; 0; 0; 0; 1] 80 in
  ∃ s, toString AZURE_LITTLE_ENDIAN (IPv6Address a) tt = Ret s tt ∧
    read_v6 s = Some (groups (s6_addr a), IPv6_getPort AZURE_LITTLE_ENDIAN a).
Proof.
  apply (address_text AZURE_LITTLE_ENDIAN (IPv6Address (IPv6_new AZURE_LITTLE_ENDIAN [32; 1; 13; 184; 0; 0; 0; 0; 0; 1; 0; 0; 0; 0; 0; 1] 80))).
  split; [reflexivity|]. split; [repeat constructor; vm_compute; congruence|vm_compute; split; congruence].
Defined.

Example ipv6_text : IPv6_insert AZURE_LITTLE_ENDIAN (IPv6_setPort AZURE_LITTLE_ENDIAN 8080 (IPv6_new AZURE_LITTLE_ENDIAN [32; 1; 13; 184; 0; 0; 0; 0; 0; 1; 0; 0; 0; 0; 0; 1] 0))
  = "[2001:db8::1:0:0:1]:8080".
Proof. vm_compute. reflexivity. Qed.
