(* ===== verification/AddressOrder.v ===== *)
(** * AddressOrder: comparison and copying of addresses *)
From S2P Require Import Prelude Endian CLib Address.

(** ** The lexicographic order on bytes *)
Fixpoint lex (a b : list Z) : comparison :=
  match a, b with
  | [], [] => Eq
  | [], _ => Lt
  | _, [] => Gt
  | x :: a, y :: b => match x ?= y with Eq => lex a b | c => c end
  end.
Lemma lex_eq a b : lex a b = Eq ↔ a = b.
Proof.
  revert b. induction a as [|x a IH]; intros [|y b]; simpl; try done.
  destruct (Z.compare_spec x y) as [->|H|H].
  - rewrite IH. split; [by intros ->|by intros [= ->]].
  - split; [done|]. intros [= -> ->]. lia.
  - split; [done|]. intros [= -> ->]. lia.
Qed.
Lemma lex_antisym a b : lex b a = CompOpp (lex a b).
Proof.
  revert b. induction a as [|x a IH]; intros [|y b]; simpl; try done.
  rewrite Z.compare_antisym. destruct (x ?= y); simpl; auto.
Qed.
Lemma lex_trans a b c : lex a b = Lt → lex b c = Lt → lex a c = Lt.
Proof.
  revert b c. induction a as [|x a IH]; intros [|y b] [|z c]; simpl; try done.
  destruct (Z.compare_spec x y), (Z.compare_spec y z); intros; try done;
    [subst; rewrite Z.compare_refl; eauto|by rewrite (proj2 (Z.compare_lt_iff x z)) by lia..].
Qed.

(** [memcmp] on the shorter length, then the lengths. *)
Lemma lex_compare_bytes a b :
  lex a b = match compare_bytes (take (min (length a) (length b)) a) (take (min (length a) (length b)) b) with
            | Eq => (length a ?= length b)%nat
            | c => c
            end.
Proof.
  revert b. induction a as [|x a IH]; intros [|y b]; simpl; try done. destruct (x ?= y); [apply IH|done..].
Qed.
Lemma compare_bytes_eq a b : length a = length b → compare_bytes a b = Eq ↔ a = b.
Proof.
  revert b. induction a as [|x a IH]; intros [|y b] H; simpl in *; try done. injection H as H.
  destruct (Z.compare_spec x y) as [->|Hl|Hl].
  - rewrite IH by done. split; [by intros ->|by intros [= ->]].
  - split; [done|]. intros [= -> ->]. lia.
  - split; [done|]. intros [= -> ->]. lia.
Qed.

(** ** Addresses *)
Definition addr_ok (a : Address) : Prop :=
  match a with
  | IPv4Address a => is_u 16 (sin_family a) ∧ is_u 16 (sin_port a) ∧ is_u 32 (s_addr a) ∧ length (sin_zero a) = 8%nat
  | IPv6Address a => is_u 16 (sin6_family a) ∧ is_u 16 (sin6_port a) ∧ is_u 32 (sin6_flowinfo a) ∧ length (s6_addr a) = 16%nat ∧ is_u 32 (sin6_scope_id a)
  | UnixAddress a m_length => length (sun_path a) = 108%nat ∧ 0 ≤ m_length ≤ 110
  | UnknowAddress a => is_u 16 (sa_family a) ∧ length (sa_data a) = 14%nat
  end.

Section host.
Context (host : Z).

(** The memory that is compared. *)
Definition image (a : Address) : list Z := take (Z.to_nat (getAddrLen a)) (getAddr host a).

Lemma image_length a : addr_ok a → zlen (image a) = getAddrLen a ∧ getAddrLen a ≤ zlen (getAddr host a) ∧ 0 ≤ getAddrLen a.
Proof using.
  intros H. unfold image, zlen. rewrite length_take. destruct a as [a|a|a n|a]; cbn [addr_ok getAddr getAddrLen] in *;
    unfold bytes_of_in, bytes_of_in6, bytes_of_un, bytes_of_sockaddr; rewrite ?length_app, ?length_repr; destruct_and?;
    cbn [cbytes uint16_t uint32_t]; lia.
Qed.

Lemma less_lex {S} a b (s : S) : addr_ok a → addr_ok b →
  less host a b s = Ret (match lex (image a) (image b) with Lt => true | _ => false end) s.
Proof using.
  intros Ha Hb. destruct (image_length a Ha) as (La & Ma & Pa), (image_length b Hb) as (Lb & Mb & Pb).
  unfold less, memcmp. rewrite (proj2 (Z.leb_le _ (zlen (getAddr host a)))), (proj2 (Z.leb_le _ (zlen (getAddr host b)))) by lia.
  cbn [andb]. rewrite bind_ret. unfold ret. f_equal. rewrite lex_compare_bytes.
  assert (min (length (image a)) (length (image b)) = Z.to_nat (Z.min (getAddrLen a) (getAddrLen b))) as -> by (unfold zlen in *; lia).
  unfold image. rewrite !take_take.
  replace (Z.to_nat (Z.min (getAddrLen a) (getAddrLen b)) `min` Z.to_nat (getAddrLen a))%nat with (Z.to_nat (Z.min (getAddrLen a) (getAddrLen b))) by lia.
  replace (Z.to_nat (Z.min (getAddrLen a) (getAddrLen b)) `min` Z.to_nat (getAddrLen b))%nat with (Z.to_nat (Z.min (getAddrLen a) (getAddrLen b))) by lia.
  destruct (compare_bytes _ _); try done. fold (image a) (image b). unfold zlen in *.
  destruct (Nat.compare_spec (length (image a)) (length (image b))), (Z.ltb_spec (getAddrLen a) (getAddrLen b)); try done; lia.
Qed.

Lemma equal_image {S} a b (s : S) : addr_ok a → addr_ok b → equal host a b s = Ret (bool_decide (image a = image b)) s.
Proof using.
  intros Ha Hb. destruct (image_length a Ha) as (La & Ma & Pa), (image_length b Hb) as (Lb & Mb & Pb).
  unfold equal. destruct (Z.eqb_spec (getAddrLen a) (getAddrLen b)) as [E|E]; cbn [negb].
  - unfold memcmp. rewrite E, (proj2 (Z.leb_le _ (zlen (getAddr host a)))), (proj2 (Z.leb_le _ (zlen (getAddr host b)))) by lia.
    cbn [andb]. rewrite bind_ret. unfold ret. f_equal. rewrite <- E at 1. fold (image a) (image b).
    destruct (compare_bytes_eq (image a) (image b)) as [H1 H2]; [unfold zlen in *; lia|].
    destruct (compare_bytes (image a) (image b)); [by rewrite bool_decide_true by auto|..]; rewrite bool_decide_false; try done; by intros ?%H2.
  - rewrite bool_decide_false; [done|]. intros Ei. apply E. by rewrite <- La, <- Lb, Ei.
Qed.

(** The comparison of addresses never reads outside of them and is a strict
    total order up to [operator==], which is equality of the structures' bytes. So
    addresses of any classes can be keys of an ordered container. *)
Theorem address_order a b c : addr_ok a → addr_ok b → addr_ok c →
  let L x y := less host x y tt = Ret true tt in let E x y := equal host x y tt = Ret true tt in
  (∃ r, less host a b tt = Ret r tt) ∧ (∃ r, equal host a b tt = Ret r tt) ∧
  ¬ L a a ∧ (L a b → L b c → L a c) ∧ (L a b → ¬ L b a) ∧ (¬ L a b → ¬ L b a → E a b) ∧
  (E a b ↔ image a = image b) ∧ (E a b → ¬ L a b).
Proof using.
  intros Ha Hb Hc L E. unfold L, E. rewrite !less_lex, !equal_image by done.
  assert (∀ x y, (Ret (match lex x y with Lt => true | _ => false end) tt = Ret true tt) ↔ lex x y = Lt) as HL.
  { intros x y. destruct (lex x y); split; done. }
  assert (∀ x y : list Z, (Ret (bool_decide (x = y)) tt = Ret true tt) ↔ x = y) as HE.
  { intros x y. split; [by intros [= ?%bool_decide_eq_true]|intros ->; by rewrite bool_decide_true]. }
  rewrite !HL, !HE. pose proof (lex_antisym (image a) (image b)) as Han. split_and!; try by eexists.
  - rewrite (proj2 (lex_eq _ _)) by done. done.
  - apply lex_trans.
  - intros H. by rewrite Han, H.
  - intros H1 H2. apply lex_eq. rewrite Han in H2. by destruct (lex (image a) (image b)).
  - intros ->. by rewrite (proj2 (lex_eq _ _)).
Qed.

(** ** Copying *)
Definition family_ok (a : Address) : Prop :=
  match a with
  | IPv4Address a => sin_family a = AF_INET
  | IPv6Address a => sin6_family a = AF_INET6
  | UnixAddress _ _ => False
  | UnknowAddress a => sa_family a ≠ AF_INET ∧ sa_family a ≠ AF_INET6
  end.

Lemma slice_repr p n t v l rest : n = cbytes t → drop p l = repr host t v ++ rest → slice l p n = repr host t v.
Proof using. intros -> H. unfold slice. rewrite H. rewrite <- (length_repr host t v). apply take_app_length. Qed.
Lemma unrepr_u16 v : is_u 16 v → unrepr host uint16_t (repr host uint16_t v) = v.
Proof using. intros. by apply unrepr_repr; [exact (Nat.lt_0_succ _)|]. Qed.
Lemma unrepr_u32 v : is_u 32 v → unrepr host uint32_t (repr host uint32_t v) = v.
Proof using. intros. by apply unrepr_repr; [exact (Nat.lt_0_succ _)|]. Qed.
Lemma drop_repr p n t v l : n = cbytes t → drop (n + p) (repr host t v ++ l) = drop p l.
Proof using. intros ->. rewrite <- drop_drop. rewrite <- (length_repr host t v) at 1. by rewrite drop_app_length. Qed.

Lemma in_of_bytes_of a : addr_ok (IPv4Address a) → in_of_bytes host (bytes_of_in host a) = a.
Proof using.
  destruct a as [fam port addr zero]. intros (Hf & Hp & Ha & Hz). cbn in Hf, Hp, Ha, Hz. unfold in_of_bytes, bytes_of_in. cbn [sin_family sin_port s_addr sin_zero].
  rewrite (slice_repr 0 2 uint16_t fam _ (repr host uint16_t port ++ repr host uint32_t addr ++ zero)) by done.
  rewrite (slice_repr 2 2 uint16_t port _ (repr host uint32_t addr ++ zero)) by (first [done | by rewrite (drop_repr 0 2)]).
  rewrite (slice_repr 4 4 uint32_t addr _ zero) by (first [done | by rewrite (drop_repr 2 2), (drop_repr 0 2)]).
  unfold slice. rewrite (drop_repr 6 2), (drop_repr 4 2), (drop_repr 0 4), drop_0, take_ge by (first [done|lia]).
  by rewrite !unrepr_u16, unrepr_u32.
Qed.
Lemma in6_of_bytes_of a : addr_ok (IPv6Address a) → in6_of_bytes host (bytes_of_in6 host a) = a.
Proof using.
  destruct a as [fam port flow addr scope]. intros (Hf & Hp & Hfl & Ha & Hs). cbn in Hf, Hp, Hfl, Ha, Hs.
  unfold in6_of_bytes, bytes_of_in6. cbn [sin6_family sin6_port sin6_flowinfo s6_addr sin6_scope_id].
  rewrite (slice_repr 0 2 uint16_t fam _ (repr host uint16_t port ++ repr host uint32_t flow ++ addr ++ repr host uint32_t scope)) by done.
  rewrite (slice_repr 2 2 uint16_t port _ (repr host uint32_t flow ++ addr ++ repr host uint32_t scope)) by (first [done | by rewrite (drop_repr 0 2)]).
  rewrite (slice_repr 4 4 uint32_t flow _ (addr ++ repr host uint32_t scope)) by (first [done | by rewrite (drop_repr 2 2), (drop_repr 0 2)]).
  rewrite (slice_repr 24 4 uint32_t scope _ []).
  2: done.
  2: { rewrite (drop_repr 22 2), (drop_repr 20 2), (drop_repr 16 4) by done. rewrite <- Ha, drop_app_length. by rewrite app_nil_r. }
  unfold slice. rewrite (drop_repr 6 2), (drop_repr 4 2), (drop_repr 0 4), drop_0 by done. rewrite <- Ha at 1. rewrite take_app_length.
  by rewrite !unrepr_u16, !unrepr_u32.
Qed.
Lemma sockaddr_of_bytes_of a : addr_ok (UnknowAddress a) → sockaddr_of_bytes host (bytes_of_sockaddr host a) = a.
Proof using.
  destruct a as [fam data]. intros (Hf & Hd). cbn in Hf, Hd. unfold sockaddr_of_bytes, bytes_of_sockaddr. cbn [sa_family sa_data].
  rewrite (slice_repr 0 2 uint16_t fam _ data) by done. unfold slice. rewrite (drop_repr 0 2), drop_0, take_ge by (first [done|lia]).
  by rewrite unrepr_u16.
Qed.

Lemma load_ret {S T} l n (f : list Z → T) (s : S) : n ≤ zlen l → load l n f s = Ret (f l) s.
Proof using. intros. unfold load. by rewrite (proj2 (Z.leb_le n _)). Qed.

(** [Address::Create] on the memory of an address gives that address back, of
    the class of its family; nothing is read outside the structure. *)
Theorem create_copies {S} a n (s : S) : addr_ok a → family_ok a → Create host (Some (getAddr host a)) n s = Ret (Some a) s.
Proof using.
  intros Hok Hf. destruct (image_length a Hok) as (_ & Hlen & _). unfold Create.
  destruct a as [a|a|a k|a]; [| |done|]; cbn [getAddr getAddrLen] in *; (erewrite bind_Ret; [|apply load_ret; lia]).
  - rewrite (slice_repr 0 2 uint16_t (sin_family a) (bytes_of_in host a) _ eq_refl eq_refl), unrepr_u16, Hf by (first [done|apply Hok]).
    cbn [Z.eqb AF_INET Pos.eqb]. (erewrite bind_Ret; [|by apply load_ret]). by rewrite in_of_bytes_of.
  - rewrite (slice_repr 0 2 uint16_t (sin6_family a) (bytes_of_in6 host a) _ eq_refl eq_refl), unrepr_u16, Hf by (first [done|apply Hok]).
    cbn [Z.eqb AF_INET AF_INET6 Pos.eqb]. (erewrite bind_Ret; [|by apply load_ret]). by rewrite in6_of_bytes_of.
  - destruct Hf as [H1 H2].
    rewrite (slice_repr 0 2 uint16_t (sa_family a) (bytes_of_sockaddr host a) _ eq_refl eq_refl), unrepr_u16 by (first [done|apply Hok]).
    rewrite (proj2 (Z.eqb_neq _ _) H1), (proj2 (Z.eqb_neq _ _) H2). (erewrite bind_Ret; [|by apply load_ret]). by rewrite sockaddr_of_bytes_of.
Qed.
End host.

Lemma address_order_witness :
  let a := IPv4Address (IPv4_new AZURE_LITTLE_ENDIAN 2130706433 80) in
  let L x y := less AZURE_LITTLE_ENDIAN x y tt = Ret true tt in let E x y := equal AZURE_LITTLE_ENDIAN x y tt = Ret true tt in
  (∃ r, less AZURE_LITTLE_ENDIAN a UnixAddress_default tt = Ret r tt) ∧ (∃ r, equal AZURE_LITTLE_ENDIAN a UnixAddress_default tt = Ret r tt) ∧
  ¬ L a a ∧ (L a UnixAddress_default → L UnixAddress_default a → L a a) ∧ (L a UnixAddress_default → ¬ L UnixAddress_default a) ∧
  (¬ L a UnixAddress_default → ¬ L UnixAddress_default a → E a UnixAddress_default) ∧
  (E a UnixAddress_default ↔ image AZURE_LITTLE_ENDIAN a = image AZURE_LITTLE_ENDIAN UnixAddress_default) ∧ (E a UnixAddress_default → ¬ L a UnixAddress_default).
Proof.
  intros a L E. apply (address_order AZURE_LITTLE_ENDIAN a UnixAddress_default a).
  - repeat split; vm_compute; congruence.
  - repeat split; vm_compute; congruence.
  - repeat split; vm_compute; congruence.
Defined.

Lemma create_copies_witness :
  Create AZURE_BIG_ENDIAN (Some (getAddr AZURE_BIG_ENDIAN (IPv6Address (IPv6_new AZURE_BIG_ENDIAN (replicate 16 7) 80)))) 28 tt
  = Ret (Some (IPv6Address (IPv6_new AZURE_BIG_ENDIAN (replicate 16 7) 80))) tt.
Proof. apply create_copies; [repeat split; vm_compute; congruence|reflexivity]. Defined.
