(* ===== verification/AddressLookup.v ===== *)
(** * AddressLookup: network interfaces and the names of hosts *)
From Stdlib Require Import Sorted.
From S2P Require Import Prelude Endian CLib Words Address AddressOrder.

(** ** Counting bits *)
Fixpoint pos_ones (p : positive) : Z :=
  match p with xH => 1 | xO p => pos_ones p | xI p => 1 + pos_ones p end.
Definition ones_of (v : Z) : Z := match v with Zpos p => pos_ones p | _ => 0 end.

Lemma ones_double v : 0 ≤ v → ones_of (2 * v) = ones_of v ∧ ones_of (2 * v + 1) = 1 + ones_of v.
Proof. intros Hv. destruct v as [|p|p]; [done|done|lia]. Qed.
(** [v & (v - 1)] clears the lowest bit that is set. *)
Lemma clear_lowest p : ones_of (Z.land (Zpos p) (Zpos p - 1)) = pos_ones p - 1 ∧ 0 ≤ Z.land (Zpos p) (Zpos p - 1).
Proof.
  split; [|apply Z.land_nonneg; lia]. induction p as [p IH|p IH|]; [| |done].
  - replace (Z.land (Zpos p~1) (Zpos p~1 - 1)) with (2 * Zpos p); [change (2 * Zpos p) with (Zpos p~0); cbn [ones_of pos_ones]; lia|].
    apply Z.bits_inj'. intros i Hi. rewrite Z.land_spec. destruct (decide (i = 0)) as [->|]; [done|].
    replace (Zpos p~1 - 1) with (2 * Zpos p) by lia. rewrite (Pos2Z.inj_xI p).
    replace i with (Z.succ (i - 1)) by lia. rewrite Z.double_bits_succ, Z.testbit_odd_succ by lia. by destruct (Z.testbit _ _).
  - assert (Z.land (Zpos p~0) (Zpos p~0 - 1) = 2 * Z.land (Zpos p) (Zpos p - 1)) as ->.
    { apply Z.bits_inj'. intros i Hi. rewrite Z.land_spec. replace (Zpos p~0 - 1) with (2 * (Zpos p - 1) + 1) by lia.
      rewrite (Pos2Z.inj_xO p). destruct (decide (i = 0)) as [->|].
      - rewrite !Z.bit0_odd, !Z.odd_mul. done.
      - replace i with (Z.succ (i - 1)) by lia. rewrite !Z.double_bits_succ, Z.testbit_odd_succ, Z.land_spec by lia. done. }
    destruct (ones_double (Z.land (Zpos p) (Zpos p - 1))) as [-> _]; [apply Z.land_nonneg; lia|]. exact IH.
Qed.
Lemma pos_ones_bound p : 1 ≤ pos_ones p.
Proof. induction p; simpl; lia. Qed.
Lemma ones_bound w v : 0 ≤ w → is_u w v → 0 ≤ ones_of v ≤ w.
Proof.
  intros Hw. revert v. pattern w. apply natlike_ind; [| |done].
  - intros v Hv. unfold is_u in Hv. assert (v = 0) as -> by (simpl in Hv; lia). simpl. lia.
  - clear. intros w Hw IH v Hv. unfold is_u in Hv. rewrite Z.pow_succ_r in Hv by done.
    pose proof (Z.div_mod v 2 ltac:(lia)). pose proof (Z.mod_pos_bound v 2 ltac:(lia)).
    assert (is_u w (v `div` 2)) as Hd by (unfold is_u; split; [apply Z.div_pos; lia|apply Z.div_lt_upper_bound; lia]).
    specialize (IH _ Hd). destruct (ones_double (v `div` 2)) as [E0 E1]; [apply Hd|].
    assert (v `mod` 2 = 0 ∨ v `mod` 2 = 1) as [E|E] by lia; rewrite E in H.
    + rewrite Z.add_0_r in H. rewrite H, E0. lia.
    + rewrite H, E1. lia.
Qed.

Lemma CountBytes_loop_ones {S} fuel v r (s : S) : 0 ≤ v → ones_of v < Z.of_nat fuel → 0 ≤ r → r + ones_of v < 2 ^ 32 →
  CountBytes_loop fuel v r s = Ret (r + ones_of v) s.
Proof.
  revert v r. induction fuel as [|fuel IH]; intros v r Hv Hf Hr Hb; [destruct v as [|p|p]; simpl in Hf; try lia; pose proof (pos_ones_bound p); lia|].
  cbn [CountBytes_loop]. destruct v as [|p|p]; [cbn; unfold ret; f_equal; lia| |lia]. cbn [Z.eqb].
  destruct (clear_lowest p) as [E Hn]. cbn [ones_of] in *. pose proof (pos_ones_bound p).
  rewrite (uwrap_small 32) by (unfold is_u; lia). rewrite IH; rewrite ?E; first [lia | f_equal; lia].
Qed.
Lemma CountBytes_ones {S} v (s : S) : is_u 32 v → CountBytes v s = Ret (ones_of v) s.
Proof.
  intros Hv. pose proof (ones_bound 32 v ltac:(lia) Hv). unfold CountBytes.
  rewrite CountBytes_loop_ones; unfold is_u in Hv; lia || done.
Qed.
Lemma count_all_ones {S} l n (s : S) : bytes_ok l → 0 ≤ n → n + 8 * zlen l < 2 ^ 32 →
  count_all l n s = Ret (foldl (λ n b, n + ones_of b) n l) s.
Proof.
  revert n. induction l as [|b l IH]; intros n Hl Hn Hb; [done|]. apply Forall_cons in Hl as [Hx Hl]. cbn [count_all foldl].
  rewrite zlen_cons in Hb. pose proof (ones_bound 8 b ltac:(lia) Hx). pose proof (zlen_nonneg l).
  (erewrite bind_Ret; [|apply CountBytes_ones; unfold is_byte, is_u in *; lia]).
  rewrite (uwrap_small 32) by (unfold is_u; lia). apply IH; [done|lia|lia].
Qed.

(** ** The ordered multimap *)
Lemma string_compare_lex a b : String.compare a b = lex (bytes_of_string a) (bytes_of_string b).
Proof.
  revert b. induction a as [|x a IH]; intros [|y b]; try done.
  change (bytes_of_string (String ?c ?s)) with (char_code c :: bytes_of_string s). cbn [String.compare lex].
  unfold Ascii.compare, char_code. rewrite <- N2Z.inj_compare. by case_match.
Qed.
Lemma bytes_of_string_inj a b : bytes_of_string a = bytes_of_string b → a = b.
Proof. intros E. rewrite <- (string_of_bytes_of_string a), <- (string_of_bytes_of_string b). by rewrite E. Qed.
Lemma ltb_lex a b : String.ltb a b = true ↔ lex (bytes_of_string a) (bytes_of_string b) = Lt.
Proof. unfold String.ltb. rewrite string_compare_lex. by destruct (lex _ _). Qed.

(** Keys do not decrease. *)
Definition key_le (x y : string * (Address * Z)) : Prop := String.ltb y.1 x.1 = false.
Definition sorted_map : multimap → Prop := StronglySorted key_le.

Lemma key_le_trans (x y z : string * (Address * Z)) : String.ltb x.1 y.1 = true → key_le y z → String.ltb x.1 z.1 = true.
Proof.
  unfold key_le. rewrite !ltb_lex, <- not_true_iff_false, ltb_lex. intros H1 H2.
  destruct (lex (bytes_of_string y.1) (bytes_of_string z.1)) eqn:E.
  - apply lex_eq in E. by rewrite <- E.
  - by eapply lex_trans.
  - destruct H2. by rewrite lex_antisym, E.
Qed.
Lemma ltb_asym a b : String.ltb a b = true → String.ltb b a = false.
Proof. rewrite <- not_true_iff_false, !ltb_lex. intros H. by rewrite lex_antisym, H. Qed.
Lemma ltb_irrefl a : String.ltb a a = false.
Proof. rewrite <- not_true_iff_false, ltb_lex, (proj2 (lex_eq _ _)); done. Qed.

Lemma insert_range k x m : sorted_map m →
  equal_range k (multimap_insert x m) = equal_range k m ++ (if String.eqb x.1 k then [x.2] else []).
Proof.
  unfold equal_range, sorted_map. induction 1 as [|y m Hm IH Hy]; cbn [multimap_insert List.filter fmap list_fmap].
  - by destruct (String.eqb x.1 k).
  - destruct (String.ltb x.1 y.1) eqn:E.
    + cbn [List.filter]. destruct (String.eqb_spec x.1 k) as [<-|Hn]; [|by rewrite app_nil_r].
      assert (List.filter (λ z, String.eqb z.1 x.1) (y :: m) = []) as H.
      { assert (Forall (λ z, String.ltb x.1 z.1 = true) (y :: m)) as Hf.
        { constructor; [done|]. eapply Forall_impl; [exact Hy|]. intros z Hz. by eapply key_le_trans. }
        clear - Hf. induction Hf as [|z l Hz Hl IH]; [done|]. cbn [List.filter].
        destruct (String.eqb_spec z.1 x.1) as [Ez|]; [|done]. by rewrite Ez, ltb_irrefl in Hz. }
      cbn [List.filter] in H. by rewrite H.
    + cbn [List.filter]. destruct (String.eqb y.1 k); cbn [fmap list_fmap app]; by rewrite IH.
Qed.
Lemma insert_sorted_map x m : sorted_map m → sorted_map (multimap_insert x m).
Proof.
  unfold sorted_map. induction 1 as [|y m Hm IH Hy]; cbn [multimap_insert]; [by repeat constructor|].
  destruct (String.ltb x.1 y.1) eqn:E.
  - constructor; [by constructor|]. constructor; [by apply ltb_asym|]. eapply Forall_impl; [exact Hy|].
    intros z Hz. apply ltb_asym. by eapply key_le_trans.
  - constructor; [done|]. clear IH. induction m as [|z m IHm]; cbn [multimap_insert]; [by repeat constructor|].
    apply Forall_cons in Hy as [Hz Hy]. apply StronglySorted_inv in Hm as [Hm _]. destruct (String.ltb x.1 z.1); repeat constructor; try done. by apply IHm.
Qed.

(** ** Interfaces *)
Section host.
Context (host : Z).

(** What an interface contributes: the number of ones of its mask, if it is of an
    IP family that was asked for. *)
Definition in_mask (l : list Z) : Z := ones_of (s_addr (in_of_bytes host l)).
Definition in6_mask (l : list Z) : Z := foldl (λ n b, n + ones_of b) 0 (s6_addr (in6_of_bytes host l)).
Definition contribution (family : Z) (i : ifaddrs) : option (string * (Address * Z)) :=
  match ifa_addr i, ifa_netmask i with
  | Some l, Some m =>
      let h := unrepr host uint16_t (slice l 0 2) in
      if negb (family =? AF_UNSPEC) && negb (family =? h) then None
      else if h =? AF_INET then Some (ifa_name i, (IPv4Address (in_of_bytes host l), in_mask m))
      else if h =? AF_INET6 then Some (ifa_name i, (IPv6Address (in6_of_bytes host l), in6_mask m))
      else None
  | _, _ => None
  end.
(** Addresses and masks are there and large enough. *)
Definition iface_ok (i : ifaddrs) : Prop :=
  ∃ l m, ifa_addr i = Some l ∧ ifa_netmask i = Some m ∧ bytes_ok l ∧ bytes_ok m ∧ 28 ≤ zlen l ∧ 28 ≤ zlen m.

Lemma s_addr_range l : bytes_ok l → is_u 32 (s_addr (in_of_bytes host l)).
Proof using. intros _. cbn. apply (conv_in_range uint32_t). exact (Nat.lt_0_succ _). Qed.
Lemma s6_addr_bytes l : bytes_ok l → bytes_ok (s6_addr (in6_of_bytes host l)) ∧ zlen (s6_addr (in6_of_bytes host l)) ≤ 16.
Proof using.
  intros Hl. cbn. split; [by apply Forall_take, Forall_drop|]. unfold slice, zlen. rewrite length_take. lia.
Qed.
Lemma foldl_ones l n : bytes_ok l → n ≤ foldl (λ n b, n + ones_of b) n l ≤ n + 8 * zlen l.
Proof using.
  revert n. induction l as [|b l IH]; intros n Hl; [unfold zlen; simpl; lia|]. apply Forall_cons in Hl as [Hb Hl]. cbn [foldl]. rewrite zlen_cons.
  pose proof (ones_bound 8 b ltac:(lia) Hb). specialize (IH (n + ones_of b) Hl). lia.
Qed.

Lemma interface_ret {S} family i (s : S) : iface_ok i → interface host family i s = Ret (contribution family i) s.
Proof using.
  intros (l & m & El & Em & Hl & Hm & Ll & Lm). unfold interface, contribution. rewrite El, Em. cbn [deref_mem]. rewrite bind_ret.
  (erewrite bind_Ret; [|apply load_ret; lia]). destruct (negb _ && negb _); [done|].
  destruct (Z.eqb_spec (unrepr host uint16_t (slice l 0 2)) AF_INET) as [E|E].
  - unfold Create. rewrite bind_assoc. (erewrite bind_Ret; [|apply load_ret; lia]). rewrite E. cbn [Z.eqb AF_INET Pos.eqb].
    rewrite bind_assoc. (erewrite bind_Ret; [|apply load_ret; lia]). rewrite !bind_ret. (erewrite bind_Ret; [|apply load_ret; lia]).
    (erewrite bind_Ret; [|apply CountBytes_ones, s_addr_range; done]). unfold ret. cbn. do 4 f_equal. unfold in_mask.
    pose proof (ones_bound 32 _ ltac:(lia) (s_addr_range m Hm)). apply uwrap_small. unfold is_u. lia.
  - destruct (Z.eqb_spec (unrepr host uint16_t (slice l 0 2)) AF_INET6) as [E6|E6]; [|done].
    unfold Create. rewrite bind_assoc. (erewrite bind_Ret; [|apply load_ret; lia]). rewrite E6. cbn [Z.eqb AF_INET AF_INET6 Pos.eqb].
    rewrite bind_assoc. (erewrite bind_Ret; [|apply load_ret; lia]). rewrite !bind_ret. (erewrite bind_Ret; [|apply load_ret; lia]).
    destruct (s6_addr_bytes m Hm) as [H6 L6]. (erewrite bind_Ret; [|apply count_all_ones; [done|lia|lia]]).
    unfold ret. cbn [fmap option_fmap option_map]. do 4 f_equal. unfold in6_mask. pose proof (foldl_ones _ 0 H6). apply uwrap_small. unfold is_u. lia.
Qed.

Lemma interface_loop_ret {S} family l m (s : S) : Forall iface_ok l → sorted_map m →
  ∃ m', interface_loop host family l m s = Ret m' s ∧ sorted_map m' ∧
    ∀ k, equal_range k m' = equal_range k m ++ equal_range k (omap (contribution family) l).
Proof using.
  intros Hl. revert m. induction Hl as [|i l Hi Hl IH]; intros m Hm; cbn [interface_loop omap list_omap].
  - exists m. split_and!; try done. intros k. cbn. by rewrite app_nil_r.
  - (erewrite bind_Ret; [|by apply interface_ret]). destruct (contribution family i) as [x|].
    + destruct (IH (multimap_insert x m)) as (m' & E & Hs & Hk); [by apply insert_sorted_map|]. exists m'. split_and!; try done.
      intros k. rewrite Hk, insert_range, <- app_assoc by done. f_equal. unfold equal_range. cbn [List.filter]. by destruct (String.eqb x.1 k).
    + by apply IH.
Qed.

(** The addresses of an interface: those that [getifaddrs] lists under its
    name, in that order, of the families asked for, each with the number of ones
    of its mask; the loops of [CountBytes] end and nothing else changes. *)
Theorem interface_addresses {S} family l result iface (s : S) : Forall iface_ok l → iface ≠ ""%string → iface ≠ "*"%string →
  GetInterfaceAddress_of host (Some l) result iface family s
  = Ret (true, result ++ (List.filter (λ x, String.eqb x.1 iface) (omap (contribution family) l)).*2) s.
Proof using.
  intros Hl H1 H2. unfold GetInterfaceAddress_of. apply String.eqb_neq in H1, H2. rewrite H1, H2. cbn [orb].
  unfold GetInterfaceAddress. rewrite bind_assoc.
  destruct (interface_loop_ret family l [] s Hl) as (m & E & _ & Hk); [constructor|]. (erewrite bind_Ret; [|exact E]).
  rewrite bind_ret. cbn [fst snd negb]. by rewrite Hk.
Qed.
End host.

Definition sample_interfaces : list ifaddrs :=
  let inet a := bytes_of_in AZURE_LITTLE_ENDIAN (IPv4_new AZURE_LITTLE_ENDIAN a 0) ++ replicate 12 0 in
  [mkIf "lo" (Some (inet 2130706433)) (Some (inet 4278190080));
   mkIf "eth0" (Some (inet 3232235777)) (Some (inet 4294967040));
   mkIf "lo" (Some (bytes_of_in6 AZURE_LITTLE_ENDIAN IPv6_zero)) (Some (bytes_of_in6 AZURE_LITTLE_ENDIAN IPv6_zero))].
Lemma sample_interfaces_ok : Forall iface_ok sample_interfaces.
Proof.
  repeat constructor; eexists _, _; (split; [reflexivity|]); (split; [reflexivity|]);
    repeat split; try (vm_compute; congruence); vm_compute; repeat constructor; congruence.
Qed.
Lemma interface_addresses_witness :
  GetInterfaceAddress_of AZURE_LITTLE_ENDIAN (Some sample_interfaces) [] "lo" AF_INET tt
  = Ret (true, (List.filter (λ x, String.eqb x.1 "lo") (omap (contribution AZURE_LITTLE_ENDIAN AF_INET) sample_interfaces)).*2) tt.
Proof. refine (interface_addresses AZURE_LITTLE_ENDIAN AF_INET sample_interfaces [] "lo" tt sample_interfaces_ok _ _); congruence. Defined.

(** ** Names *)
Lemma memchr_none c l : c ∉ l → memchr c l = None.
Proof.
  induction l as [|x l IH]; [done|]. rewrite not_elem_of_cons. intros [Hx Hl]. cbn [memchr]. rewrite (proj2 (Z.eqb_neq x c)) by congruence.
  by rewrite IH.
Qed.
Lemma memchr_app c l1 l2 : c ∉ l1 → memchr c (l1 ++ c :: l2) = Some (length l1).
Proof.
  induction l1 as [|x l IH]; intros H; cbn [memchr app length]; [by rewrite Z.eqb_refl|].
  apply not_elem_of_cons in H as [Hx Hl]. rewrite (proj2 (Z.eqb_neq x c)) by congruence. by rewrite IH.
Qed.
Lemma c_bytes_id l : 0 ∉ l → c_bytes l = l.
Proof.
  induction l as [|x l IH]; [done|]. rewrite not_elem_of_cons. intros [Hx Hl]. cbn [c_bytes]. rewrite (proj2 (Z.eqb_neq x 0)) by congruence.
  by rewrite IH.
Qed.
Definition no_char (c : Z) (s : string) : Prop := c ∉ bytes_of_string s.

(** A host name, with or without a service. *)
Lemma split_name node : no_char 58 node → no_char 0 node → no_char 91 node → Lookup_split node = (node, None).
Proof.
  unfold no_char. intros H1 H2 H3. unfold Lookup_split.
  assert (match bytes_of_string node with
          | 91 :: t => match memchr 93 t with
                       | Some j => (take j t, match drop (j + 1) t with 58 :: _ => Some (j + 3)%nat | _ => None end)
                       | None => ([], None) end
          | _ => ([], None) end = (@nil Z, @None nat)) as ->.
  { destruct (bytes_of_string node) as [|x l]; [done|]. apply not_elem_of_cons in H3 as [H3 _].
    do 8 (destruct x as [|x|x]; try done). }
  cbn beta iota. rewrite memchr_none by done. rewrite c_bytes_id; [by rewrite string_of_bytes_of_string|by destruct (bytes_of_string node)].
Qed.
Lemma c_str_at_app l s n : n = length l → no_char 0 s → c_str_at (l ++ bytes_of_string s) n = s.
Proof.
  intros -> H. unfold c_str_at. rewrite drop_app_length, c_bytes_id by done. apply string_of_bytes_of_string.
Qed.
Lemma split_service node service : node ≠ ""%string → no_char 58 node → no_char 0 node → no_char 91 node →
  no_char 58 service → no_char 0 service → Lookup_split (node +:+ ":" +:+ service) = (node, Some service).
Proof.
  unfold no_char. intros Hne H1 H2 H3 H4 H5. unfold Lookup_split. rewrite !bytes_of_string_app. change (bytes_of_string ":") with [58]. cbn [app].
  assert (∃ x l, bytes_of_string node = x :: l ∧ x ≠ 91) as (x & l & E & Hx).
  { destruct node as [|c node]; [done|]. exists (char_code c), (bytes_of_string node). split; [done|].
    intros Hc. apply H3. change (bytes_of_string (String c node)) with (char_code c :: bytes_of_string node). rewrite Hc. by left. }
  set (h := bytes_of_string node ++ 58 :: bytes_of_string service).
  assert (match h with
          | 91 :: t => match memchr 93 t with
                       | Some j => (take j t, match drop (j + 1) t with 58 :: _ => Some (j + 3)%nat | _ => None end)
                       | None => ([], None) end
          | _ => ([], None) end = (@nil Z, @None nat)) as ->.
  { unfold h. rewrite E. cbn [app]. clear - Hx. do 8 (destruct x as [|x|x]; try done). }
  cbn beta iota. unfold h. rewrite memchr_app by done.
  assert (drop (length (bytes_of_string node) + 1) (bytes_of_string node ++ 58 :: bytes_of_string service) = bytes_of_string service) as ->.
  { rewrite <- drop_drop, drop_app_length. done. }
  rewrite memchr_none by done. rewrite take_app_length. cbn beta iota. rewrite E. rewrite <- E. cbn [fmap option_fmap option_map].
  rewrite c_bytes_id by done. rewrite string_of_bytes_of_string. f_equal. f_equal.
  change (58 :: bytes_of_string service) with ([58] ++ bytes_of_string service). rewrite app_assoc.
  apply c_str_at_app; [by rewrite length_app|done].
Qed.

(** ** Unix addresses *)
Lemma c_string_at_app {S} l (rest : list Z) (s : S) : 0 ∉ l → bytes_ok l → c_string_at (l ++ 0 :: rest) s = Ret (string_of_bytes l) s.
Proof.
  induction l as [|x l IH]; intros H Hl; [done|]. apply not_elem_of_cons in H as [Hx H]. apply Forall_cons in Hl as [_ Hl].
  cbn [c_string_at app]. rewrite (proj2 (Z.eqb_neq x 0)) by congruence. by (erewrite bind_Ret; [|by apply IH]).
Qed.
(** A path without NUL that fits is printed as it was given. *)
Lemma unix_path {S} host path (s : S) : path ≠ ""%string → no_char 0 path → size path ≤ 107 →
  ∃ a, UnixAddress_new path s = Ret a s ∧ getAddrLen a = size path + 3 ∧ toString host a s = Ret path s.
Proof.
  unfold no_char. intros Hne H0 Hlen. pose proof (size_nonneg path). unfold UnixAddress_new.
  destruct (bytes_of_string path) as [|x l] eqn:E.
  { destruct Hne. by apply (bytes_of_string_inj path ""). }
  assert (x ≠ 0) as Hx by (intros ->; apply H0; by left).
  rewrite (uwrap_small 32 (size path + 1)) by (unfold is_u; lia).
  assert (match x with 0 => u32 (size path + 1 - 1) | _ => size path + 1 end = size path + 1) as -> by (by destruct x).
  rewrite (proj2 (Z.ltb_ge 108 _)) by lia. eexists. split; [done|]. cbn [getAddrLen].
  rewrite (uwrap_small 32) by (unfold is_u; lia). split; [lia|].
  assert (length (x :: l) = Z.to_nat (size path)) as Hl by (rewrite <- E, length_bytes_of_string; unfold size; lia).
  unfold toString, insert, Unix_insert. cbn [sun_path].
  rewrite (take_ge (x :: l ++ [0])) by (rewrite app_comm_cons, length_app, Hl; simpl; lia). rewrite app_comm_cons.
  unfold splice. rewrite take_0. cbn [app]. assert ((2 <? size path + 1 + 2) && match x :: (l ++ [0]) ++ drop (0 + length (x :: l ++ [0])) (replicate 108 0) with 0 :: _ => true | _ => false end = false) as ->.
  { rewrite andb_false_iff. right. by destruct x. }
  rewrite <- app_assoc. cbn [app]. rewrite app_comm_cons, c_string_at_app; [|done|rewrite <- E; apply bytes_of_string_ok].
  by rewrite <- E, string_of_bytes_of_string.
Qed.

(** ** Where the code departs from its purpose *)

(** The port of an IPv6 address is swapped as four bytes and cut to two. *)
Lemma ipv6_port_lost : IPv6_getPort AZURE_LITTLE_ENDIAN (IPv6_new AZURE_LITTLE_ENDIAN (replicate 16 0) 8080) = 0.
Proof. reflexivity. Qed.

(** The network address of an IPv6 address keeps host bits: the mask is not
    complemented and the bytes behind it stay. *)
Lemma ipv6_network_keeps_host :
  match IPv6_networkAddress 12 (IPv6_new AZURE_LITTLE_ENDIAN (replicate 16 255) 0) tt with
  | Ret (Some (IPv6Address a)) _ => s6_addr a = [255; 15] ++ replicate 14 255
  | _ => False
  end.
Proof. reflexivity. Qed.

(** With a prefix of 128 bits all three write behind the address. *)
Lemma ipv6_prefix_128 a : length (s6_addr a) = 16%nat →
  IPv6_broadcastAddress 128 a tt = Crash OutOfBounds ∧ IPv6_networkAddress 128 a tt = Crash OutOfBounds
  ∧ IPv6_subnetMask 128 tt = Crash OutOfBounds.
Proof.
  intros H. assert (∀ f, at_byte (128 `div` 8) f (s6_addr a) tt = Crash OutOfBounds) as E.
  { intros f. unfold at_byte. by rewrite (lookup_ge_None_2 _ (Z.to_nat (128 `div` 8))) by (rewrite H; done). }
  assert (∀ {B} (k : list Z → ST unit B) f, bind (at_byte (128 `div` 8) f (s6_addr a)) k tt = Crash OutOfBounds) as Ek.
  { intros B k f. unfold bind. by rewrite E. }
  split_and!; [exact (Ek _ _ _)..|reflexivity].
Qed.

(** An IPv6 address without brackets is looked up with itself as the service. *)
Lemma colons_become_service : Lookup_split "::1" = ("::1"%string, Some "::1"%string) ∧ Lookup_split "fe80::1" = ("fe80::1"%string, Some "::1"%string).
Proof. split; reflexivity. Qed.
