(* ===== verification/Idle.v ===== *)
(** * Idle: one turn of [IOManager::idle] ([src/iomanager.cpp])

    The timers and the events of one [IOManager] together.  [now1] and [now2] are
    the times before and behind [epoll_wait], [interrupts] how often that was
    interrupted, [reports] what it reported in the end.  [waited] records the
    timeouts it was called with. *)
From S2P Require Import Prelude OrderedSet Timer IOManager.

Record idler := mkIdler { timers : TimerManager Z; io : IOManager; waited : list Z }.
Definition on_timers {A} (m : ST (TimerManager Z) A) : ST idler A := λ s,
  match m (timers s) with
  | Ret a t => Ret a (mkIdler t (io s) (waited s)) | Throw e t => Throw e (mkIdler t (io s) (waited s)) | Crash f => Crash f end.
Definition on_io {A} (m : ST IOManager A) : ST idler A := λ s,
  match m (io s) with
  | Ret a t => Ret a (mkIdler (timers s) t (waited s)) | Throw e t => Throw e (mkIdler (timers s) t (waited s)) | Crash f => Crash f end.

(** A byte in the tickle pipe, or [events] of a descriptor and the result of the [epoll_ctl] that follows. *)
Inductive report := Tickle | Ready (rt2 fd reported : Z).

(** [~0ull] *)
Definition never : Z := 2 ^ 64 - 1.
Definition stopping (scheduler_stopping : bool) (now : Z) : ST idler (bool * Z) :=
  let* timeout := on_timers (getNextTimer now) in
  let* n := gets (λ s, m_pendingEventCount (io s)) in
  ret ((timeout =? never) && (n =? 0) && scheduler_stopping, timeout).

Definition MAX_TIMEOUT : Z := 3000.
Definition clamp (next_timeout : Z) : Z :=
  if negb (next_timeout =? never) then (if MAX_TIMEOUT <? i32 next_timeout then MAX_TIMEOUT else next_timeout)
  else MAX_TIMEOUT.
(** The [do] loop around [epoll_wait(..., (int)next_timeout)] *)
Fixpoint waits (interrupts : nat) (next_timeout : Z) : list Z :=
  let t := clamp next_timeout in
  i32 t :: match interrupts with O => [] | S n => waits n t end.

(** [schedule(begin, end)] of callbacks; an empty one is dropped. *)
Fixpoint schedule_all (self : Z) (cbs : list (option Z)) : ST IOManager unit :=
  match cbs with
  | [] => ret tt
  | c :: cbs => schedule self (TaskCb <$> c) ;;; schedule_all self cbs
  end.
Fixpoint handle_all (reports : list report) : ST IOManager unit :=
  match reports with
  | [] => ret tt
  | Tickle :: l => handle_all l
  | Ready rt2 fd reported :: l => handle_event rt2 fd reported ;;; handle_all l
  end.

(** A turn up to the end of the wait; [true] when the loop is left. *)
Definition turn_wait (scheduler_stopping : bool) (now1 : Z) (interrupts : nat) : ST idler bool :=
  let* st := stopping scheduler_stopping now1 in
  let '(stop, next_timeout) := st in
  if stop && (next_timeout =? never) then ret true
  else
    modify (λ s, mkIdler (timers s) (io s) (waited s ++ waits interrupts next_timeout)) ;;;
    ret false.
(** Behind the wait: the callbacks of due timers are collected and scheduled ... *)
Definition collect (now_addr now2 : Z) : ST idler (list (option Z)) := on_timers (listExpiredCb now_addr now2 []).
(** ... and the reports are handled, up to [swapOut]. *)
Definition turn_work (self now_addr now2 : Z) (reports : list report) : ST idler unit :=
  let* cbs := collect now_addr now2 in
  on_io (schedule_all self cbs) ;;;
  on_io (handle_all reports).
Definition turn (self : Z) (scheduler_stopping : bool) (now1 : Z) (interrupts : nat) (now_addr now2 : Z) (reports : list report) : ST idler bool :=
  let* b := turn_wait scheduler_stopping now1 interrupts in
  if b then ret true else turn_work self now_addr now2 reports ;;; ret false.

(** ** No timer and no event is slept through *)
From S2P Require Import Timer TimerTheorems IOManager IOManagerTheorems.
(** ** The timeout *)
Lemma clamp_small t : 0 ≤ t < 2 ^ 31 → clamp t = Z.min t MAX_TIMEOUT.
Proof.
  intros Ht. unfold clamp, never, MAX_TIMEOUT. rewrite (proj2 (Z.eqb_neq t _)) by lia. cbn [negb].
  rewrite swrap_small by (unfold is_s; lia). destruct (Z.ltb_spec 3000 t); lia.
Qed.
Lemma waits_small n t : 0 ≤ t < 2 ^ 31 ∨ t = never → Forall (λ x, x = Z.min t MAX_TIMEOUT) (waits n t).
Proof.
  assert (∀ t, 0 ≤ t < 2 ^ 31 ∨ t = never → clamp t = Z.min t MAX_TIMEOUT) as Hc by (intros x [Hx | ->]; [by apply clamp_small|done]).
  revert t. induction n as [|n IH]; intros t Ht; cbn [waits]; rewrite (Hc t Ht);
    (assert (0 ≤ Z.min t MAX_TIMEOUT < 2 ^ 31) as Hm by (unfold MAX_TIMEOUT; destruct Ht as [Ht | ->]; unfold never; lia));
    rewrite swrap_small by (unfold is_s; lia).
  - by repeat constructor.
  - constructor; [done|]. eapply Forall_impl; [apply IH; by left|]. intros x ->. cbn. lia.
Qed.

(** ** The tasks *)
Definition tasks (self : Z) (cbs : list (option Z)) : list handler := (λ c, (self, TaskCb c)) <$> omap id cbs.
Lemma schedule_all_runs self cbs s : schedule_all self cbs s = Ret tt (set_scheduled (scheduled s ++ tasks self cbs) s).
Proof.
  revert s. induction cbs as [|[c|] cbs IH]; intros s; cbn [schedule_all].
  - unfold tasks. cbn. rewrite app_nil_r. by destruct s.
  - change (TaskCb <$> Some c) with (Some (TaskCb c)). unfold schedule at 1. rewrite bind_modify, IH. unfold tasks. cbn. by rewrite <- app_assoc.
  - change (TaskCb <$> @None Z) with (@None task). unfold schedule at 1. rewrite bind_ret. apply IH.
Qed.
Lemma repr_scheduled s a l : repr s a → repr (set_scheduled l s) a.
Proof. intros [Hc Hn He Hs]. constructor; try done. by apply (contexts_same s). Qed.

Definition ready_ops (reports : list report) : list IOManagerTheorems.op :=
  omap (λ r, match r with Tickle => None | Ready rt fd reported => Some (OReady rt fd reported) end) reports.
Lemma handle_all_runs reports s rs s' : run (ready_ops reports) s = Ret rs s' → handle_all reports s = Ret tt s'.
Proof.
  revert s rs. induction reports as [|[|rt fd rep] l IH]; intros s rs; cbn [handle_all ready_ops omap list_omap].
  - by intros [= _ <-].
  - apply IH.
  - fold (ready_ops l). cbn [run IOManagerTheorems.exec]. unfold bind. destruct (handle_event rt fd rep s) as [[] s1| |]; [|done..]. cbn.
    destruct (run (ready_ops l) s1) as [rs1 s2| |] eqn:E; [|done..]. intros [= _ <-]. by apply (IH s1 rs1).
Qed.

Section turns.
Context (self : Z) (s : idler) (a : list slots).
Hypothesis timers_ok : inv (timers s).
Hypothesis io_ok : repr (io s) a.

(** The time to the earliest timer. *)
Definition in_range : Prop := ∀ p, active (timers s) p → 0 ≤ next_at (t_heap (timers s)) p < 2 ^ 63.
Lemma next_timer now : in_range → 0 ≤ now → ∃ t, getNextTimer now (timers s) = Ret t (set_tickled false (timers s)) ∧
  (t = never ∧ (∀ p, ¬ active (timers s) p) ∨
   0 ≤ t < 2 ^ 63 ∧ (∃ p, active (timers s) p) ∧ ∀ p, active (timers s) p → t ≤ Z.max 0 (next_at (t_heap (timers s)) p - now)).
Proof using timers_ok.
  intros Hr Hnow. destruct (next_earliest now (timers s) timers_ok) as (t & E & [[-> Hn]|(p & Hp & Hmin & ->)]); eexists; (split; [exact E|]).
  - by left.
  - right. pose proof (Hr p Hp). rewrite uwrap_small by (unfold is_u; lia). split; [lia|]. split; [by exists p|]. intros q Hq. specialize (Hmin q Hq). lia.
Qed.

Lemma inv_tickled b t : inv t → inv (set_tickled (Cb := Z) b t).
Proof using. by apply inv_same_set. Qed.

(** What the wait does, whatever its times are. *)
Lemma wait_runs stop now1 interrupts : ∃ t (b : bool), getNextTimer now1 (timers s) = Ret t (set_tickled false (timers s)) ∧
  turn_wait stop now1 interrupts s = Ret b (mkIdler (set_tickled false (timers s)) (io s) (waited s ++ if b then [] else waits interrupts t)) ∧
  (b = true → stop = true ∧ t = never ∧ m_pendingEventCount (io s) = 0).
Proof using timers_ok.
  destruct (getNextTimer_heap now1 (timers s) timers_ok) as (t & E & _). exists t.
  remember (turn_wait _ _ _ _) as o eqn:Ho. unfold turn_wait, stopping in Ho.
  rewrite bind_assoc in Ho. unfold on_timers at 1 in Ho. unfold bind at 1 in Ho. rewrite E in Ho. cbn [timers] in Ho.
  rewrite bind_assoc, bind_gets, bind_ret in Ho. cbn [io] in Ho. destruct (_ && (t =? never)) eqn:Eb.
  - exists true. split; [done|]. rewrite app_nil_r. split; [exact Ho|]. intros _. apply andb_true_iff in Eb as [Eb Et].
    apply andb_true_iff in Eb as [Eb Estop]. apply andb_true_iff in Eb as [_ En]. by apply Z.eqb_eq in Et, En.
  - exists false. split; [done|]. split; [|done]. rewrite bind_modify in Ho. exact Ho.
Qed.
(** What is collected behind it. *)
Lemma collect_runs now_addr now2 : t_heap (timers s) !! now_addr = None →
  ∃ tm, collect now_addr now2 s = Ret (callbacks (t_heap (timers s)) (expired_prefix (timers s) now_addr now2)) (mkIdler tm (io s) (waited s))
  ∧ inv tm ∧ ∀ q, t_heap tm !! q = if decide (q ∈ expired_prefix (timers s) now_addr now2) then fired now2 <$> t_heap (timers s) !! q
                                   else t_heap (timers s) !! q.
Proof using timers_ok.
  intros Ha. destruct (listExpiredCb_fires now_addr now2 [] (timers s)) as (tm & E & Htm & Hh); [done|done|].
  exists tm. unfold collect, on_timers. rewrite E. by split_and!.
Qed.
Lemma work_runs now_addr now2 reports : t_heap (timers s) !! now_addr = None → valid_run (ready_ops reports) a →
  ∃ tm w, turn_work self now_addr now2 reports s = Ret tt (mkIdler tm w (waited s)) ∧ inv tm ∧ repr w (spec_run (ready_ops reports) a).1.2
  ∧ scheduled w = scheduled (io s) ++ tasks self (callbacks (t_heap (timers s)) (expired_prefix (timers s) now_addr now2)) ++ (spec_run (ready_ops reports) a).2.
Proof using timers_ok io_ok.
  intros Ha Hv. destruct (collect_runs now_addr now2 Ha) as (tm & E & Htm & _). unfold turn_work. rewrite (bind_Ret _ _ _ _ _ E).
  unfold on_io at 1. unfold bind at 1. cbn [io]. rewrite schedule_all_runs. cbn [timers waited].
  pose proof (λ l, run_refines_from (ready_ops reports) _ a (repr_scheduled (io s) a l io_ok) Hv) as Hrun. edestruct Hrun as (w & E3 & Hw & Hsch).
  exists tm, w. unfold on_io. cbn [io]. rewrite (handle_all_runs _ _ _ _ E3). cbn [timers waited]. split_and!; [done|done|exact Hw|].
  cbn [scheduled set_scheduled] in Hsch. by rewrite Hsch, <- app_assoc.
Qed.
End turns.


(** A timeout that does not fit an [int] turns negative, and the wait has no
    limit: with one timer 25 days ahead, [epoll_wait] is called with -2134967296. *)
Lemma long_timer_waits_forever t : 2 ^ 31 ≤ t < 2 ^ 32 → waits 0 t = [t - 2 ^ 32].
Proof.
  intros Ht. unfold waits, clamp, never, MAX_TIMEOUT. rewrite (proj2 (Z.eqb_neq t _)) by lia. cbn [negb].
  assert (i32 t = t - 2 ^ 32) as E.
  { unfold swrap. rewrite (Z.mod_eq (t + _)) by lia. rewrite <- (Z.div_unique (t + 2 ^ (32 - 1)) (2 ^ 32) 1 (t - 2 ^ 31)); lia. }
  rewrite E. destruct (Z.ltb_spec 3000 (t - 2 ^ 32)); [lia|]. by rewrite E.
Qed.

(** ** Witness: two timers, one of them recurring, and a reader *)
Definition demo_idle_timers : TimerManager Z :=
  match (let* _a := addTimer 100 50 (Some 31) false 1000 in addTimer 200 20 (Some 32) true 1000) (TimerManager_new 1000) with
  | Ret _ s => s
  | _ => TimerManager_new 0
  end.
Lemma demo_idle_timers_inv : inv demo_idle_timers.
Proof.
  eapply (steps_inv (TimerManager_new 1000)); [|apply TimerTheorems.inv_new].
  eapply rtc_l; [by apply (step_op (AddTimer 100 50 31 false 1000) _ [])|].
  eapply rtc_l; [by apply (step_op (AddTimer 200 20 32 true 1000) _ [])|]. apply rtc_refl.
Defined.
Definition demo_reader : list IOManagerTheorems.op := [OAdd 1 7 0 3 READ None].
Definition demo_idler : idler :=
  mkIdler demo_idle_timers match run demo_reader IOManager_new with Ret _ s => s | _ => IOManager_new end [].
Lemma demo_idler_repr : repr (io demo_idler) (spec_run demo_reader no_handlers).1.2.
Proof.
  destruct (run_refines_from demo_reader IOManager_new no_handlers repr_new) as (s & E & H & _).
  { split; [|done]. split_and!; try done. by left. }
  unfold demo_idler. cbn [io]. by rewrite E.
Qed.
Lemma demo_in_range : in_range demo_idler.
Proof.
  intros p Hp. apply (inv_in _ p demo_idle_timers_inv) in Hp. change (m_timers demo_idle_timers) with [200; 100] in Hp.
  apply list_elem_of_In in Hp as [<-|[<-|[]]]; by vm_compute.
Qed.
Example idle_demo : match turn 1 true 1010 2 7 1060 [Tickle; Ready 0 3 EPOLLIN] demo_idler with
  | Ret b s => b = false ∧ waited s = [10; 10; 10] ∧ scheduled (io s) = [(1, TaskCb 32); (1, TaskCb 31); (1, TaskFiber 7)]
  | _ => False end.
Proof. by vm_compute. Qed.
