(* ===== verification/FdManager.v ===== *)
(** * FdManager: what the server remembers of file descriptors
    ([include/fdmanager.h], [src/fdmanager.cpp])

    The C library below the hooks is an interface: [Libc] has the calls that the
    code makes, on a state of the kernel; [LibcLaws] what the code relies on. *)
From S2P Require Import Prelude.

Definition O_NONBLOCK : Z := 2048.
Definition SO_RCVTIMEO : Z := 20.
Definition SO_SNDTIMEO : Z := 21.
(** [flags & O_NONBLOCK], as a condition *)
Definition nonblock (flags : Z) : bool := negb (Z.land flags O_NONBLOCK =? 0).

Class Libc (K : Type) := {
  (** whether the descriptor is open, and then whether it is a socket *)
  fstat : Z → K → option bool;
  fcntl_getfl : Z → K → Z;
  fcntl_setfl : Z → Z → K → Z * K;
  (** the other commands, with their argument if they are given one *)
  fcntl_f : Z → Z → option Z → K → Z * K;
  ioctl_fionbio : Z → bool → K → Z * K;
  socket_f : K → Z * K;
  close_f : Z → K → Z * K
}.
(** On an open descriptor [F_SETFL] sets the non-blocking flag as it is told;
    [socket] gives a descriptor that was not open, or -1; no call touches the
    other descriptors, and the other commands of [fcntl] leave the types and flags of all
    that are open. *)
Definition others_same {K} `{Libc K} (fd : Z) (k k' : K) : Prop :=
  ∀ fd', fd' ≠ fd → fstat fd' k' = fstat fd' k ∧ fcntl_getfl fd' k' = fcntl_getfl fd' k.
Class LibcLaws (K : Type) `{Libc K} := {
  setfl_nonblock fd arg k b : fstat fd k = Some b → nonblock (fcntl_getfl fd (fcntl_setfl fd arg k).2) = nonblock arg;
  setfl_fstat fd arg k : fstat fd (fcntl_setfl fd arg k).2 = fstat fd k;
  setfl_others fd arg k : others_same fd k (fcntl_setfl fd arg k).2;
  fcntl_keeps fd cmd arg k fd' b : fstat fd' k = Some b →
    fstat fd' (fcntl_f fd cmd arg k).2 = Some b ∧ fcntl_getfl fd' (fcntl_f fd cmd arg k).2 = fcntl_getfl fd' k;
  socket_fresh k : let (fd, k') := socket_f k in
    (fd = -1 ∧ others_same (-1) k k') ∨
    (0 ≤ fd < 2 ^ 30 ∧ fstat fd k = None ∧ fstat fd k' = Some true ∧ others_same fd k k');
  close_others fd k : others_same fd k (close_f fd k).2
}.

Record FdCtx := mkFdCtx {
  m_isInit : bool; m_isSocket : bool; m_sysNonblock : bool; m_userNonblock : bool; m_isClosed : bool;
  m_fd : Z; m_readTimeout : Z; m_sendTimeout : Z
}.
#[export] Instance FdCtx_eq_dec : EqDecision FdCtx.
Proof. solve_decision. Defined.

Definition setUserNonblock (v : bool) (c : FdCtx) : FdCtx :=
  mkFdCtx (m_isInit c) (m_isSocket c) (m_sysNonblock c) v (m_isClosed c) (m_fd c) (m_readTimeout c) (m_sendTimeout c).
Definition setSysNonblock (v : bool) (c : FdCtx) : FdCtx :=
  mkFdCtx (m_isInit c) (m_isSocket c) v (m_userNonblock c) (m_isClosed c) (m_fd c) (m_readTimeout c) (m_sendTimeout c).
Definition setTimeout (type v : Z) (c : FdCtx) : FdCtx :=
  if type =? SO_RCVTIMEO
  then mkFdCtx (m_isInit c) (m_isSocket c) (m_sysNonblock c) (m_userNonblock c) (m_isClosed c) (m_fd c) v (m_sendTimeout c)
  else mkFdCtx (m_isInit c) (m_isSocket c) (m_sysNonblock c) (m_userNonblock c) (m_isClosed c) (m_fd c) (m_readTimeout c) v.
Definition getTimeout (type : Z) (c : FdCtx) : Z := if type =? SO_RCVTIMEO then m_readTimeout c else m_sendTimeout c.

Section kernel.
Context {K : Type} `{Libc K}.

(** The kernel and the table of the one [FdManager]. *)
Record World := mkWorld { kern : K; m_data : list (option FdCtx) }.
Definition set_kern (k : K) (w : World) : World := mkWorld k (m_data w).
Definition set_data (v : list (option FdCtx)) (w : World) : World := mkWorld (kern w) v.
Definition call {A} (f : K → A * K) : ST World A := λ w, let (a, k) := f (kern w) in Ret a (set_kern k w).

(** [FdCtx::FdCtx] and its [init] *)
Definition FdCtx_init (c : FdCtx) : ST World FdCtx :=
  if m_isInit c then ret c
  else
    let* st := gets (λ w, fstat (m_fd c) (kern w)) in
    let (i, sock) := match st with None => (false, false) | Some s => (true, s) end in
    (if sock then
       let* flags := gets (λ w, fcntl_getfl (m_fd c) (kern w)) in
       if negb (nonblock flags) then let* _ := call (fcntl_setfl (m_fd c) (Z.lor flags O_NONBLOCK)) in ret tt else ret tt
     else ret tt) ;;;
    ret (mkFdCtx i sock sock false false (m_fd c) (2 ^ 64 - 1) (2 ^ 64 - 1)).
Definition FdCtx_new (fd : Z) : ST World FdCtx :=
  FdCtx_init (mkFdCtx false false false false false fd (2 ^ 64 - 1) (2 ^ 64 - 1)).

Definition FdManager_new (k : K) : World := mkWorld k (replicate 64 None).

(** [m_data[fd]], unchecked *)
Definition at_fd (fd : Z) : ST World (option FdCtx) :=
  let* l := gets m_data in
  if fd <? 0 then crash OutOfBounds else match l !! Z.to_nat fd with Some c => ret c | None => crash OutOfBounds end.
Definition put_fd (fd : Z) (c : option FdCtx) : ST World unit :=
  let* l := gets m_data in
  if (0 <=? fd) && (fd <? zlen l) then modify (set_data (<[Z.to_nat fd := c]> l)) else crash OutOfBounds.

Definition get (fd : Z) (auto_create : bool) : ST World (option FdCtx) :=
  if fd =? -1 then ret None
  else
    let* l := gets m_data in
    let create : ST World (option FdCtx) :=
      let* ctx := FdCtx_new fd in
      (if i32 (zlen l) <=? fd
       then modify (λ w, set_data (let n := Z.to_nat (Z.quot (fd * 3) 2) in take n (m_data w) ++ replicate (n - length (m_data w)) None) w)
       else ret tt) ;;;
      put_fd fd (Some ctx) ;;;
      ret (Some ctx) in
    if i32 (zlen l) <=? fd then
      if auto_create then create else ret None
    else
      let* c := at_fd fd in
      if bool_decide (is_Some c) || negb auto_create then ret c else create.

Definition del (fd : Z) : ST World unit :=
  let* l := gets m_data in
  if i32 (zlen l) <=? fd then ret tt else put_fd fd None.

(** An update of the object that [get(fd)] gave; the table shares it. *)
Definition update (fd : Z) (f : FdCtx → FdCtx) : ST World unit :=
  let* c := at_fd fd in put_fd fd (f <$> c).

(** ** The hooks of [hook.cpp] that only use this table *)
Definition known (c : option FdCtx) : bool := match c with Some c => negb (m_isClosed c) && m_isSocket c | None => false end.

Definition hook_fcntl_setfl (fd arg : Z) : ST World Z :=
  let* c := get fd false in
  match c with
  | Some ctx =>
      if negb (known c) then call (fcntl_setfl fd arg)
      else
        update fd (setUserNonblock (nonblock arg)) ;;;
        call (fcntl_setfl fd (if m_sysNonblock ctx then Z.lor arg O_NONBLOCK else Z.land arg (Z.lnot O_NONBLOCK)))
  | None => call (fcntl_setfl fd arg)
  end.
Definition hook_fcntl_getfl (fd : Z) : ST World Z :=
  let* arg := gets (λ w, fcntl_getfl fd (kern w)) in
  let* c := get fd false in
  match c with
  | Some ctx =>
      if negb (known c) then ret arg
      else ret (if m_userNonblock ctx then Z.lor arg O_NONBLOCK else Z.land arg (Z.lnot O_NONBLOCK))
  | None => ret arg
  end.
Definition hook_ioctl_fionbio (fd : Z) (user_nonblock : bool) : ST World Z :=
  let* c := get fd false in
  (if known c then update fd (setUserNonblock user_nonblock) else ret tt) ;;;
  call (ioctl_fionbio fd user_nonblock).
Definition hook_socket (enabled : bool) : ST World Z :=
  let* fd := call socket_f in
  if negb enabled || (fd =? -1) then ret fd
  else let* _ := get fd true in ret fd.
(** [tv->tv_sec * 1000 + tv->tv_usec / 1000], as [long], given as [uint64_t] *)
Definition is_long (z : Z) : bool := (- 2 ^ 63 <=? z) && (z <? 2 ^ 63).
Definition millis (tv_sec tv_usec : Z) : ST World Z :=
  let s := tv_sec * 1000 in
  let v := s + Z.quot tv_usec 1000 in
  if is_long s && is_long v then ret (u64 v) else crash UndefinedArith.
(** [setsockopt(fd, SOL_SOCKET, optname, tv)] of the two timeouts, before it calls the C library. *)
Definition hook_setsockopt_timeout (enabled : bool) (fd optname tv_sec tv_usec : Z) : ST World unit :=
  if negb enabled then ret tt
  else
    let* c := get fd false in
    match c with
    | Some _ => let* v := millis tv_sec tv_usec in update fd (setTimeout optname v)
    | None => ret tt
    end.
(** [close], behind [IOManager::cancelAll]. *)
Definition hook_close (enabled : bool) (fd : Z) : ST World Z :=
  (if enabled then
     let* c := get fd false in
     match c with Some _ => del fd | None => ret tt end
   else ret tt) ;;;
  call (close_f fd).

(** [fcntl(fd, cmd, ...)].  [arg] is the word that stands for the variable argument;
    the original function gets it, or not. *)
Definition F_DUPFD : Z := 0.
Definition F_GETFL : Z := 3.
Definition F_SETFL : Z := 4.
(** [F_DUPFD], [F_DUPFD_CLOEXEC], [F_SETFD], [F_SETOWN], [F_SETSIG], [F_SETLEASE],
    [F_NOTIFY], [F_SETPIPE_SZ] *)
Definition int_commands : list Z := [F_DUPFD; 1030; 2; 8; 10; 1024; 1026; 1031].
(** [F_GETFD], [F_GETOWN], [F_GETSIG], [F_GETLEASE], [F_GETPIPE_SZ] *)
Definition void_commands : list Z := [1; 9; 11; 1025; 1032].
(** [F_SETLK], [F_SETLKW], [F_GETLK]; [F_GETOWN_EX], [F_SETOWN_EX] *)
Definition pointer_commands : list Z := [6; 7; 5; 16; 15].
Definition one_of (l : list Z) (cmd : Z) : bool := existsb (Z.eqb cmd) l.
Definition hook_fcntl (fd cmd arg : Z) : ST World Z :=
  if cmd =? F_SETFL then hook_fcntl_setfl fd (i32 arg)
  else if cmd =? F_GETFL then hook_fcntl_getfl fd
  else if one_of int_commands cmd then call (fcntl_f fd cmd (Some (i32 arg)))
  else if one_of void_commands cmd then call (fcntl_f fd cmd None)
  else if one_of pointer_commands cmd then call (fcntl_f fd cmd (Some arg))
  else call (fcntl_f fd cmd None).

(** A duplicate of a hooked socket is not in the table: its reads and writes go to the
    non-blocking descriptor directly. *)
Lemma duplicate_unknown fd arg w :
  ∃ n w', hook_fcntl fd F_DUPFD arg w = Ret n w' ∧ m_data w' = m_data w.
Proof using. unfold hook_fcntl. cbn. unfold call. destruct (fcntl_f _ _ _ _) as [n k]. by eexists _, _. Qed.
(** A command that the list leaves out loses its argument; [F_ADD_SEALS] is 1033. *)
Lemma other_command_without_argument fd arg : hook_fcntl fd 1033 arg = call (fcntl_f fd 1033 None).
Proof using. done. Qed.
End kernel.
Arguments World K : clear implicits.

(** ** What a user of the hooks sees of a socket *)
(** ** The specification: the options of the open sockets *)
Record view := mkView { user_nonblock : bool; read_timeout : Z; send_timeout : Z }.
Inductive op :=
  | OSocket
  | OFcntl (fd cmd arg : Z)
  | OTimeout (fd optname tv_sec tv_usec : Z)
  | OClose (fd : Z).

Definition unlimited : Z := 2 ^ 64 - 1.
Definition spec_timeout (optname v : Z) (x : view) : view :=
  if optname =? SO_RCVTIMEO then mkView (user_nonblock x) v (send_timeout x) else mkView (user_nonblock x) (read_timeout x) v.
(** [r] is the result of the operation. *)
Definition spec (o : op) (r : Z) (m : gmap Z view) : gmap Z view :=
  match o with
  | OSocket => if r =? -1 then m else <[r := mkView false unlimited unlimited]> m
  | OFcntl fd cmd arg => if cmd =? F_SETFL then alter (λ x, mkView (nonblock (i32 arg)) (read_timeout x) (send_timeout x)) fd m else m
  | OTimeout fd optname s us => alter (spec_timeout optname (u64 (s * 1000 + Z.quot us 1000))) fd m
  | OClose fd => delete fd m
  end.

(** ** The flag *)
Lemma nonblock_bit z : nonblock z = Z.testbit z 11.
Proof.
  unfold nonblock, O_NONBLOCK. change 2048 with (2 ^ 11). destruct (Z.testbit z 11) eqn:E.
  - apply negb_true_iff, Z.eqb_neq. intros H. apply (f_equal (λ x, Z.testbit x 11)) in H. by rewrite Z.land_spec, E in H.
  - apply negb_false_iff, Z.eqb_eq, Z.bits_inj'. intros i Hi. rewrite Z.land_spec, Z.bits_0, Z.pow2_bits_eqb by lia.
    destruct (Z.eqb_spec 11 i) as [<-|]; [by rewrite E|by rewrite andb_false_r].
Qed.
Lemma nonblock_lor z : nonblock (Z.lor z O_NONBLOCK) = true.
Proof. rewrite nonblock_bit, Z.lor_spec. by rewrite orb_true_r. Qed.
Lemma nonblock_without z : nonblock (Z.land z (Z.lnot O_NONBLOCK)) = false.
Proof. rewrite nonblock_bit, Z.land_spec. by rewrite andb_false_r. Qed.
Lemma alter_id' {A} (f : A → A) (m : gmap Z A) i : m !! i = None → alter f i m = m.
Proof. intros Hi. apply map_eq. intros j. destruct (decide (i = j)) as [<-|]; [by rewrite lookup_alter_eq, Hi|by rewrite lookup_alter_ne]. Qed.

Section kernel.
Context {K : Type} `{LibcLaws K}.

Definition exec (o : op) : ST (World K) Z :=
  match o with
  | OSocket => hook_socket true
  | OFcntl fd cmd arg => hook_fcntl fd cmd arg
  | OTimeout fd optname s us => hook_setsockopt_timeout true fd optname s us ;;; ret 0
  | OClose fd => hook_close true fd
  end.
(** A descriptor or -1, and a time that is computed in a [long]. *)
Definition op_ok (o : op) : Prop :=
  match o with
  | OSocket => True
  | OFcntl fd _ _ | OClose fd => -1 ≤ fd
  | OTimeout fd _ s us => -1 ≤ fd ∧ is_long (s * 1000) = true ∧ is_long (s * 1000 + Z.quot us 1000) = true
  end.

Definition ctx_of (fd : Z) (x : view) : FdCtx :=
  mkFdCtx true true true (user_nonblock x) false fd (read_timeout x) (send_timeout x).
Record refines (w : World K) (m : gmap Z view) : Prop := {
  ref_size : 64 ≤ zlen (m_data w) < 2 ^ 31;
  ref_table i : m_data w !! i = Some (ctx_of (Z.of_nat i) <$> m !! Z.of_nat i) ∨ (m_data w !! i = None ∧ m !! Z.of_nat i = None);
  ref_kernel fd x : m !! fd = Some x → 0 ≤ fd ∧ fstat fd (kern w) = Some true ∧ nonblock (fcntl_getfl fd (kern w)) = true
}.

Lemma refines_lookup w m fd : refines w m → 0 ≤ fd →
  if i32 (zlen (m_data w)) <=? fd then m !! fd = None else m_data w !! Z.to_nat fd = Some (ctx_of fd <$> m !! fd).
Proof using.
  intros [Hs Ht _] Hfd. rewrite swrap_small by (unfold is_s; lia). specialize (Ht (Z.to_nat fd)). rewrite Z2Nat.id in Ht by done.
  unfold zlen in *. destruct (Z.leb_spec (Z.of_nat (length (m_data w))) fd) as [Hl|Hl].
  - destruct Ht as [Ht|[_ Ht]]; [|done]. apply lookup_lt_Some in Ht. lia.
  - destruct Ht as [Ht|[Ht _]]; [done|]. apply lookup_ge_None_1 in Ht. lia.
Qed.

Lemma refines_fd w m fd x : refines w m → m !! fd = Some x → 0 ≤ fd.
Proof using. intros Hr Hx. by destruct (ref_kernel _ _ Hr fd x Hx). Qed.
Lemma get_refines w m fd : refines w m → -1 ≤ fd → get fd false w = Ret (ctx_of fd <$> m !! fd) w.
Proof using.
  intros Hr Hfd. unfold get. destruct (Z.eqb_spec fd (-1)) as [->|Hn].
  { destruct (m !! (-1)) as [x|] eqn:E; [|done]. pose proof (refines_fd w m _ x Hr E). lia. }
  pose proof (refines_lookup w m fd Hr ltac:(lia)) as Hl. rewrite bind_gets.
  destruct (i32 (zlen (m_data w)) <=? fd); [by rewrite Hl|]. unfold at_fd. rewrite bind_assoc, bind_gets, (proj2 (Z.ltb_ge fd 0)) by lia.
  rewrite Hl, bind_ret. by destruct (bool_decide _).
Qed.

Lemma refines_kern w m k : refines w m →
  (∀ fd x, m !! fd = Some x → fstat fd k = Some true ∧ nonblock (fcntl_getfl fd k) = true) → refines (set_kern k w) m.
Proof using. intros [Hs Ht Hk] Hk'. constructor; [done|done|]. intros fd x Hx. destruct (Hk fd x Hx) as (? & _). by destruct (Hk' fd x Hx). Qed.

Lemma table_update w m fd c o : refines w m → 0 ≤ fd < zlen (m_data w) → (c = ctx_of fd <$> o) →
  (∀ i, (m_data (set_data (<[Z.to_nat fd := c]> (m_data w)) w) !! i = Some (ctx_of (Z.of_nat i) <$> partial_alter (λ _, o) fd m !! Z.of_nat i))
    ∨ (m_data (set_data (<[Z.to_nat fd := c]> (m_data w)) w) !! i = None ∧ partial_alter (λ _, o) fd m !! Z.of_nat i = None)).
Proof using.
  intros [Hs Ht Hk] Hfd -> i. cbn [m_data set_data]. unfold zlen in Hfd. destruct (decide (Z.of_nat i = fd)) as [<-|Hi].
  - left. rewrite Nat2Z.id, list_lookup_insert_eq, lookup_partial_alter_eq by lia. done.
  - rewrite list_lookup_insert_ne, lookup_partial_alter_ne by lia. apply Ht.
Qed.
Lemma refines_put w m fd c o : refines w m → 0 ≤ fd < zlen (m_data w) → c = ctx_of fd <$> o →
  (is_Some o → fstat fd (kern w) = Some true ∧ nonblock (fcntl_getfl fd (kern w)) = true) →
  ∃ w', put_fd fd c w = Ret tt w' ∧ kern w' = kern w ∧ refines w' (partial_alter (λ _, o) fd m).
Proof using.
  intros Hr Hfd Hc Hok. unfold put_fd. rewrite bind_gets, (proj2 (Z.leb_le 0 fd)), (proj2 (Z.ltb_lt fd _)) by lia.
  eexists. split; [done|]. split; [done|]. constructor.
  - cbn [m_data set_data]. unfold zlen. rewrite length_insert. apply Hr.
  - by apply table_update.
  - intros fd' x. cbn [kern set_data]. destruct (decide (fd' = fd)) as [->|Hn].
    + rewrite lookup_partial_alter_eq. intros ->. destruct Hok; [by eexists|]. split_and!; [lia|done|done].
    + rewrite lookup_partial_alter_ne by done. apply Hr.
Qed.

Lemma known_ctx fd o : known (ctx_of fd <$> o) = bool_decide (is_Some o).
Proof using. by destruct o. Qed.

Lemma update_refines w m fd f g : refines w m → 0 ≤ fd → is_Some (m !! fd) → (∀ x, f (ctx_of fd x) = ctx_of fd (g x)) →
  ∃ w', update fd f w = Ret tt w' ∧ kern w' = kern w ∧ refines w' (alter g fd m).
Proof using.
  intros Hr Hfd [x Hx] Hfg. pose proof (refines_lookup w m fd Hr Hfd) as Hl. unfold update, at_fd. rewrite bind_assoc, bind_gets, (proj2 (Z.ltb_ge fd 0)) by lia.
  destruct (i32 (zlen (m_data w)) <=? fd) eqn:E; [congruence|]. rewrite Hl, bind_ret, Hx.
  destruct (refines_put w m fd (f <$> (ctx_of fd <$> Some x)) (Some (g x))) as (w' & E' & Hk & Hr'); [done| |by cbn; rewrite Hfg| |].
  - split; [done|]. apply lookup_lt_Some in Hl. unfold zlen. lia.
  - intros _. by destruct (ref_kernel _ _ Hr fd x Hx) as (_ & ?).
  - exists w'. split; [done|]. split; [done|]. replace (alter g fd m) with (partial_alter (λ _, Some (g x)) fd m); [done|].
    apply map_eq. intros i. destruct (decide (i = fd)) as [->|]; [by rewrite lookup_partial_alter_eq, lookup_alter_eq, Hx|].
    by rewrite lookup_partial_alter_ne, lookup_alter_ne.
Qed.

Lemma refines_others w m fd k : refines w m → m !! fd = None → others_same fd (kern w) k → refines (set_kern k w) m.
Proof using.
  intros Hr Hn Ho. apply refines_kern; [done|]. intros fd' x Hx. destruct (Ho fd') as [-> ->]; [congruence|].
  by destruct (ref_kernel _ _ Hr fd' x Hx) as (_ & ?).
Qed.

(** *** Creating a context *)
Lemma FdCtx_new_socket w fd : fstat fd (kern w) = Some true →
  ∃ k, FdCtx_new fd w = Ret (ctx_of fd (mkView false unlimited unlimited)) (set_kern k w)
    ∧ fstat fd k = Some true ∧ nonblock (fcntl_getfl fd k) = true ∧ others_same fd (kern w) k.
Proof using All.
  intros Hf. unfold FdCtx_new, FdCtx_init. cbn [m_isInit m_fd]. rewrite bind_gets, Hf. rewrite bind_assoc, bind_gets.
  destruct (nonblock (fcntl_getfl fd (kern w))) eqn:E; cbn [negb].
  - exists (kern w). split; [by destruct w|]. by split_and!.
  - set (k := (fcntl_setfl fd (Z.lor (fcntl_getfl fd (kern w)) O_NONBLOCK) (kern w)).2). exists k.
    split; [|split_and!].
    + unfold bind, call, k. by destruct (fcntl_setfl _ _ _).
    + unfold k. by rewrite setfl_fstat.
    + unfold k. by rewrite (setfl_nonblock _ _ _ _ Hf), nonblock_lor.
    + apply setfl_others.
Qed.
Lemma refines_resize w m n : refines w m → zlen (m_data w) ≤ Z.of_nat n < 2 ^ 31 →
  refines (set_data (take n (m_data w) ++ replicate (n - length (m_data w)) None) w) m.
Proof using.
  intros [Hs Ht Hk] Hn. unfold zlen in Hn. rewrite take_ge by lia. constructor; [|intros i|done]; cbn [m_data set_data].
  - rewrite zlen_app. unfold zlen in *. rewrite length_replicate. lia.
  - destruct (Ht i) as [E|[E1 E2]].
    + left. rewrite lookup_app_l by (by eapply lookup_lt_Some). done.
    + rewrite E2. rewrite lookup_app_r by (by apply lookup_ge_None_1). destruct (decide (i - length (m_data w) < n - length (m_data w)))%nat as [Hi|Hi].
      * left. by rewrite lookup_replicate_2.
      * right. split; [|done]. apply lookup_ge_None_2. rewrite length_replicate. lia.
Qed.
Lemma get_creates w m fd : refines w m → 0 ≤ fd < 2 ^ 30 → m !! fd = None → fstat fd (kern w) = Some true →
  ∃ c w', get fd true w = Ret c w' ∧ refines w' (<[fd := mkView false unlimited unlimited]> m).
Proof using All.
  intros Hr Hfd Hn Hf. pose proof (refines_lookup w m fd Hr (proj1 Hfd)) as Hl. unfold get.
  rewrite (proj2 (Z.eqb_neq fd (-1))), bind_gets by lia.
  destruct (FdCtx_new_socket w fd Hf) as (k & E & Hk1 & Hk2 & Hk3).
  pose proof (refines_others w m fd k Hr Hn Hk3) as Hr1. pose proof (ref_size _ _ Hr) as Hs.
  assert (∀ w2, kern w2 = k → refines w2 m → fd < zlen (m_data w2) →
    ∃ c w', (put_fd fd (Some (ctx_of fd (mkView false unlimited unlimited))) ;;; ret (Some (ctx_of fd (mkView false unlimited unlimited)))) w2 = Ret c w'
      ∧ refines w' (<[fd := mkView false unlimited unlimited]> m)) as Hput.
  { intros w2 Hk Hr2 Hlt. destruct (refines_put w2 m fd (Some (ctx_of fd (mkView false unlimited unlimited))) (Some (mkView false unlimited unlimited)))
      as (w' & E' & _ & Hr'); [done|lia|done|by rewrite Hk|]. rewrite (bind_Ret _ _ _ _ _ E'). by eexists _, w'. }
  destruct (Z.leb_spec (i32 (zlen (m_data w))) fd) as [H1|H1].
  - rewrite (bind_Ret _ _ _ _ _ E), bind_modify. rewrite swrap_small in H1 by (unfold is_s; lia).
    assert (zlen (m_data w) ≤ Z.of_nat (Z.to_nat (Z.quot (fd * 3) 2)) < 2 ^ 31 ∧ fd < Z.of_nat (Z.to_nat (Z.quot (fd * 3) 2))) as [Hn1 Hn2].
    { rewrite Z2Nat.id by (apply Z.quot_pos; lia). rewrite Z.quot_div_nonneg by lia. Z.to_euclidean_division_equations. lia. }
    apply Hput; [done|by apply (refines_resize (set_kern k w))|]. cbn [m_data set_data set_kern]. rewrite zlen_app. unfold zlen in *.
    rewrite length_take, length_replicate. lia.
  - unfold at_fd. rewrite bind_assoc, bind_gets, (proj2 (Z.ltb_ge fd 0)) by lia.
    rewrite Hl, Hn, bind_ret. cbn. rewrite (bind_Ret _ _ _ _ _ E), bind_ret. apply Hput; [done|done|].
    rewrite swrap_small in H1 by (unfold is_s; lia). exact H1.
Qed.

Lemma refines_absent w m fd : refines w m → fstat fd (kern w) = None → m !! fd = None.
Proof using. intros Hr Hn. destruct (m !! fd) as [x|] eqn:E; [|done]. destruct (ref_kernel _ _ Hr fd x E) as (_ & ? & _). congruence. Qed.
Lemma call_Ret {A} (f : K → A * K) (w : World K) : call f w = Ret (f (kern w)).1 (set_kern (f (kern w)).2 w).
Proof using. unfold call. by destruct (f (kern w)). Qed.

Lemma socket_refines w m : refines w m → ∃ r w', exec OSocket w = Ret r w' ∧ refines w' (spec OSocket r m).
Proof using All.
  intros Hr. cbn [exec]. unfold hook_socket. rewrite (bind_Ret _ _ _ _ _ (call_Ret socket_f w)). cbn [negb orb].
  pose proof (socket_fresh (kern w)) as Hs. destruct (socket_f (kern w)) as [fd k]. cbn [fst snd].
  destruct Hs as [[-> Ho]|(Hfd & Hn & Hf & Ho)].
  - cbn. eexists _, _. split; [done|]. cbn. apply (refines_others _ _ (-1)); [done| |done].
    destruct (m !! (-1)) as [x|] eqn:E; [|done]. destruct (ref_kernel _ _ Hr (-1) x E). lia.
  - rewrite (proj2 (Z.eqb_neq fd (-1))) by lia. pose proof (refines_absent w m fd Hr Hn) as Hm.
    destruct (get_creates (set_kern k w) m fd) as (c & w' & E & Hr'); [by apply (refines_others _ _ fd)|done|done|done|].
    rewrite (bind_Ret _ _ _ _ _ E). eexists _, _. split; [done|]. unfold spec. by rewrite (proj2 (Z.eqb_neq fd (-1))) by lia.
Qed.

Lemma setfl_refines w m fd arg : refines w m → -1 ≤ fd → ∃ r w', hook_fcntl_setfl fd arg w = Ret r w'
  ∧ refines w' (alter (λ x, mkView (nonblock arg) (read_timeout x) (send_timeout x)) fd m).
Proof using All.
  intros Hr Hfd. unfold hook_fcntl_setfl. rewrite (bind_Ret _ _ _ _ _ (get_refines w m fd Hr Hfd)).
  destruct (m !! fd) as [x|] eqn:E; cbn [fmap option_fmap option_map].
  - cbn [known ctx_of m_isClosed m_isSocket m_sysNonblock negb andb].
    destruct (update_refines w m fd (setUserNonblock (nonblock arg)) (λ x, mkView (nonblock arg) (read_timeout x) (send_timeout x)))
      as (w' & E' & Hk & Hr'); [done|by eapply refines_fd|by eexists|done|].
    rewrite (bind_Ret _ _ _ _ _ E'), call_Ret. eexists _, _. split; [done|]. apply refines_kern; [done|]. intros fd' x' Hx'.
    destruct (decide (fd' = fd)) as [->|Hn].
    + rewrite setfl_fstat, Hk. destruct (ref_kernel _ _ Hr fd x E) as (_ & Hf & _). split; [done|].
      by rewrite (setfl_nonblock _ _ _ _ Hf), nonblock_lor.
    + destruct (setfl_others fd (Z.lor arg O_NONBLOCK) (kern w') fd' Hn) as [-> ->]. by destruct (ref_kernel _ _ Hr' fd' x' Hx') as (_ & ?).
  - rewrite call_Ret. eexists _, _. split; [done|]. rewrite alter_id' by done. by apply (refines_others _ _ fd), setfl_others.
Qed.

Lemma timeout_refines w m fd optname s us : refines w m → op_ok (OTimeout fd optname s us) →
  ∃ w', exec (OTimeout fd optname s us) w = Ret 0 w' ∧ refines w' (spec (OTimeout fd optname s us) 0 m).
Proof using.
  intros Hr (Hfd & Hs & Hv). cbn [exec spec]. unfold hook_setsockopt_timeout, millis. cbn zeta. cbn [negb]. rewrite Hs, Hv. rewrite bind_assoc, (bind_Ret _ _ _ _ _ (get_refines w m fd Hr Hfd)).
  destruct (m !! fd) as [x|] eqn:E; cbn [fmap option_fmap option_map].
  - destruct (update_refines w m fd (setTimeout optname (u64 (s * 1000 + Z.quot us 1000))) (spec_timeout optname (u64 (s * 1000 + Z.quot us 1000))))
      as (w' & E' & Hk & Hr'); [done|by eapply refines_fd|by eexists| |].
    { intros y. unfold setTimeout, spec_timeout. by destruct (optname =? SO_RCVTIMEO). }
    cbn [andb]. rewrite bind_assoc, bind_ret, (bind_Ret _ _ _ _ _ E'). by eexists.
  - rewrite bind_ret. exists w. split; [done|]. by rewrite alter_id'.
Qed.

Lemma close_refines w m fd : refines w m → -1 ≤ fd → ∃ r w', exec (OClose fd) w = Ret r w' ∧ refines w' (spec (OClose fd) r m).
Proof using All.
  intros Hr Hfd. cbn [exec spec]. unfold hook_close.
  assert (∃ w', (let* c := get fd false in match c with Some _ => del fd | None => ret tt end) w = Ret tt w' ∧ kern w' = kern w ∧ refines w' (delete fd m))
    as (w' & E & Hk & Hr').
  { rewrite (bind_Ret _ _ _ _ _ (get_refines w m fd Hr Hfd)). destruct (m !! fd) as [x|] eqn:E; cbn [fmap option_fmap option_map].
    - pose proof (refines_fd w m fd x Hr E) as Hfd0. pose proof (refines_lookup w m fd Hr Hfd0) as Hl. rewrite E in Hl. unfold del. rewrite bind_gets. destruct (i32 (zlen (m_data w)) <=? fd); [congruence|].
      destruct (refines_put w m fd None None) as (w' & E' & Hk & Hr'); [done| |done|by intros []|].
      { split; [done|]. apply lookup_lt_Some in Hl. unfold zlen. lia. }
      by exists w'.
    - exists w. split_and!; [done|done|]. by rewrite delete_id. }
  rewrite (bind_Ret _ _ _ _ _ E), call_Ret. eexists _, _. split; [done|]. apply (refines_others _ _ fd); [done|by rewrite lookup_delete_eq|].
  rewrite Hk. apply close_others.
Qed.

Lemma getfl_refines w m fd : refines w m → -1 ≤ fd →
  ∃ r, hook_fcntl_getfl fd w = Ret r w ∧ ∀ x, m !! fd = Some x → nonblock r = user_nonblock x.
Proof using.
  intros Hr Hfd. unfold hook_fcntl_getfl. rewrite bind_gets, (bind_Ret _ _ _ _ _ (get_refines w m fd Hr Hfd)).
  destruct (m !! fd) as [x|]; cbn [fmap option_fmap option_map]; [|by eexists].
  cbn [known ctx_of m_isClosed m_isSocket m_userNonblock negb andb]. destruct x as [[] rt st]; (eexists; split; [done|]; intros y [= <-]); cbn.
  - apply nonblock_lor.
  - apply nonblock_without.
Qed.

(** The other commands only reach the kernel. *)
Lemma fcntl_refines w m fd cmd arg : refines w m → ∃ r w', call (fcntl_f fd cmd arg) w = Ret r w' ∧ refines w' m.
Proof using All.
  intros Hr. rewrite call_Ret. eexists _, _. split; [done|]. apply refines_kern; [done|]. intros fd' x Hx.
  destruct (ref_kernel _ _ Hr fd' x Hx) as (_ & Hf & Hb). destruct (fcntl_keeps fd cmd arg (kern w) fd' true Hf) as [-> ->]. done.
Qed.

Definition answers (o : op) (r : Z) (m : gmap Z view) : Prop :=
  match o with OFcntl fd cmd _ => cmd = F_GETFL → ∀ x, m !! fd = Some x → nonblock r = user_nonblock x | _ => True end.
Lemma hook_fcntl_refines w m fd cmd arg : refines w m → -1 ≤ fd →
  ∃ r w', exec (OFcntl fd cmd arg) w = Ret r w' ∧ refines w' (spec (OFcntl fd cmd arg) r m) ∧ answers (OFcntl fd cmd arg) r m.
Proof using All.
  intros Hr Hfd. cbn [exec spec answers]. unfold hook_fcntl. destruct (Z.eqb_spec cmd F_SETFL) as [->|Hs].
  { destruct (setfl_refines w m fd (i32 arg) Hr Hfd) as (r & w' & ? & ?). by exists r, w'. }
  destruct (Z.eqb_spec cmd F_GETFL) as [->|Hg]; [destruct (getfl_refines w m fd Hr Hfd) as (r & ? & ?); by exists r, w|].
  destruct (one_of int_commands cmd); [|destruct (one_of void_commands cmd); [|destruct (one_of pointer_commands cmd)]].
  all: edestruct (fcntl_refines w m fd cmd) as (r & w' & E & Hr'); [exact Hr|]; exists r, w'; split; [exact E|done].
Qed.
Lemma exec_refines_fd o w m : refines w m → op_ok o →
  ∃ r w', exec o w = Ret r w' ∧ refines w' (spec o r m) ∧ answers o r m.
Proof using All.
  intros Hr Ho. destruct o as [|fd cmd arg|fd optname s us|fd].
  - destruct (socket_refines w m Hr) as (r & w' & ? & ?). by exists r, w'.
  - by apply hook_fcntl_refines.
  - destruct (timeout_refines w m fd optname s us Hr Ho) as (w' & ? & ?). by exists 0, w'.
  - destruct (close_refines w m fd Hr Ho) as (r & w' & ? & ?). by exists r, w'.
Qed.
End kernel.

(** ** Runs *)
Section runs.
Context {K : Type} `{LibcLaws K}.

Fixpoint run_ops (ops : list op) : ST (World K) (list Z) :=
  match ops with
  | [] => ret []
  | o :: ops => let* r := exec o in let* rs := run_ops ops in ret (r :: rs)
  end.
(** The options after the operations that gave these results, and that what
    [F_GETFL] answered was the option at that point. *)
Fixpoint spec_ops (ops : list op) (rs : list Z) (m : gmap Z view) : gmap Z view :=
  match ops, rs with o :: ops, r :: rs => spec_ops ops rs (spec o r m) | _, _ => m end.
Fixpoint answers_ops (ops : list op) (rs : list Z) (m : gmap Z view) : Prop :=
  match ops, rs with o :: ops, r :: rs => answers o r m ∧ answers_ops ops rs (spec o r m) | _, _ => True end.

Lemma run_ops_refines ops w m : refines w m → Forall op_ok ops →
  ∃ rs w', run_ops ops w = Ret rs w' ∧ length rs = length ops ∧ refines w' (spec_ops ops rs m) ∧ answers_ops ops rs m.
Proof using All.
  intros Hr Hops. revert w m Hr. induction Hops as [|o ops Ho Hops IH]; intros w m Hr; [by exists [], w|].
  destruct (exec_refines_fd o w m Hr Ho) as (r & w1 & E & Hr1 & Ha). destruct (IH w1 _ Hr1) as (rs & w2 & E2 & Hl & Hr2 & Ha2).
  exists (r :: rs), w2. cbn [run_ops]. rewrite (bind_Ret _ _ _ _ _ E), (bind_Ret _ _ _ _ _ E2). split_and!; [done|by cbn; rewrite Hl|done|done].
Qed.
Lemma refines_new (k : K) : refines (FdManager_new k) ∅.
Proof using.
  constructor; cbn [m_data FdManager_new].
  - unfold zlen. rewrite length_replicate. lia.
  - intros i. rewrite lookup_empty. destruct (decide (i < 64)%nat); [left; by rewrite lookup_replicate_2|right].
    split; [|done]. apply lookup_ge_None_2. rewrite length_replicate. lia.
  - done.
Qed.

(** C24: Whatever sockets a server opens and closes through the hooks, whatever
    commands it gives [fcntl] and however it sets the two time limits - on
    descriptors from -1 on, with times whose milliseconds a [long] holds - no call
    goes out of the table, [F_GETFL] answers the non-blocking flag that
    [F_SETFL] set last, the time limits are those set last, and every socket
    that [socket] gave is non-blocking for the kernel, also when the user asked for
    a blocking one.  What [F_DUPFD] gives is not in the table. *)
Theorem sockets_refine ops (k : K) : Forall op_ok ops →
  ∃ rs w', run_ops ops (FdManager_new k) = Ret rs w' ∧ length rs = length ops ∧ answers_ops ops rs ∅ ∧
    let m := spec_ops ops rs ∅ in
    ∀ fd, -1 ≤ fd → get fd false w' = Ret (ctx_of fd <$> m !! fd) w' ∧
      (is_Some (m !! fd) → fstat fd (kern w') = Some true ∧ nonblock (fcntl_getfl fd (kern w')) = true).
Proof using All.
  intros Hops. destruct (run_ops_refines ops _ _ (refines_new k) Hops) as (rs & w' & E & Hl & Hr & Ha).
  exists rs, w'. split_and!; try done. intros m fd Hfd. split; [by apply get_refines|].
  intros [x Hx]. by destruct (ref_kernel _ _ Hr fd x Hx) as (_ & ?).
Qed.
End runs.

(** ** A kernel that satisfies the laws *)
Record files := mkFiles { open_files : gmap Z (bool * Z); next_fd : Z }.
Definition with_files (f : gmap Z (bool * Z)) (k : files) : files := mkFiles f (next_fd k).
#[export] Instance files_libc : Libc files := {|
  fstat fd k := fst <$> open_files k !! fd;
  fcntl_getfl fd k := match open_files k !! fd with Some (_, fl) => fl | None => -1 end;
  fcntl_setfl fd arg k := match open_files k !! fd with Some (s, _) => (0, with_files (<[fd := (s, arg)]> (open_files k)) k) | None => (-1, k) end;
  fcntl_f fd cmd arg k := match open_files k !! fd with
    | Some f => if one_of [F_DUPFD; 1030] cmd && bool_decide (open_files k !! next_fd k = None)
                then (next_fd k, mkFiles (<[next_fd k := f]> (open_files k)) (next_fd k + 1)) else (0, k)
    | None => (-1, k) end;
  ioctl_fionbio fd b k := match open_files k !! fd with
    | Some (s, fl) => (0, with_files (<[fd := (s, if b then Z.lor fl O_NONBLOCK else Z.land fl (Z.lnot O_NONBLOCK))]> (open_files k)) k)
    | None => (-1, k) end;
  socket_f k := if (0 <=? next_fd k) && (next_fd k <? 2 ^ 30) && bool_decide (open_files k !! next_fd k = None)
    then (next_fd k, mkFiles (<[next_fd k := (true, 2)]> (open_files k)) (next_fd k + 1)) else (-1, k);
  close_f fd k := (0, with_files (delete fd (open_files k)) k)
|}.
#[export] Instance files_laws : LibcLaws files.
Proof.
  split; cbn.
  - intros fd arg k b. destruct (open_files k !! fd) as [[s fl]|]; [|done]. intros _. cbn. by rewrite lookup_insert_eq.
  - intros fd arg k. destruct (open_files k !! fd) as [[s fl]|] eqn:E; cbn; [by rewrite lookup_insert_eq|by rewrite E].
  - intros fd arg k fd' Hn. destruct (open_files k !! fd) as [[s fl]|] eqn:E; cbn; [by rewrite lookup_insert_ne|done].
  - intros fd cmd arg k fd' b Hb. destruct (open_files k !! fd) as [f|]; [|done].
    match goal with |- context [if ?c && bool_decide ?P then _ else _] => destruct c; cbn [andb]; [case_bool_decide as Hn|] end; [|done..].
    cbn. rewrite lookup_insert_ne; [done|]. intros E. rewrite <- E, Hn in Hb. done.
  - intros k. destruct (Z.leb_spec 0 (next_fd k)), (Z.ltb_spec (next_fd k) (2 ^ 30)); cbn [andb]; try (left; split; [done|by intros ? _]).
    destruct (decide (open_files k !! next_fd k = None)) as [E|E]; [rewrite bool_decide_true by done|rewrite bool_decide_false by done; left; split; [done|by intros ? _]].
    right. split_and!; [done|done|by rewrite E|by cbn; rewrite lookup_insert_eq|]. intros fd' Hn. cbn. by rewrite lookup_insert_ne.
  - intros fd k fd' Hn. cbn. by rewrite lookup_delete_ne.
Qed.

Definition sample_ops : list op := [OSocket; OFcntl 70 F_SETFL O_NONBLOCK; OTimeout 70 SO_RCVTIMEO 3 500000; OFcntl 70 F_DUPFD 0; OFcntl 70 F_SETFL 0; OFcntl 70 F_GETFL 0; OSocket; OClose 70].
Lemma sockets_refine_witness :
  ∃ rs w', run_ops sample_ops (FdManager_new (mkFiles ∅ 70)) = Ret rs w' ∧ length rs = length sample_ops ∧ answers_ops sample_ops rs ∅ ∧
    let m := spec_ops sample_ops rs ∅ in
    ∀ fd, -1 ≤ fd → get fd false w' = Ret (ctx_of fd <$> m !! fd) w' ∧
      (is_Some (m !! fd) → fstat fd (kern w') = Some true ∧ nonblock (fcntl_getfl fd (kern w')) = true).
Proof. apply sockets_refine. repeat constructor; cbn; try discriminate. Defined.

(** ** Where the code departs from its purpose *)
(** [ioctl(FIONBIO)] of a blocking socket is passed on, so the kernel's socket
    becomes blocking and a call on it blocks the thread, not the fiber. *)
Lemma ioctl_blocks_socket :
  match (let* fd := hook_socket true in let* _ := hook_ioctl_fionbio fd false in ret fd) (FdManager_new (mkFiles ∅ 70)) with
  | Ret fd w => nonblock (fcntl_getfl fd (kern w)) = false
  | _ => False
  end.
Proof. vm_compute. reflexivity. Qed.

(** A negative descriptor other than -1 is used as an index. *)
Lemma negative_fd_out_of_bounds (k : files) : get (-2) false (FdManager_new k) = Crash OutOfBounds.
Proof. reflexivity. Qed.

(** A time limit of 2^63 milliseconds or more overflows, for a socket of the table. *)
Lemma timeout_overflows :
  (let* fd := hook_socket true in hook_setsockopt_timeout true fd SO_RCVTIMEO (2 ^ 54) 0) (FdManager_new (mkFiles ∅ 70)) = Crash UndefinedArith.
Proof. vm_compute. reflexivity. Qed.
