(* ===== verification/Hook.v ===== *)
(** * Hook: system calls that wait in the IOManager ([src/hook.cpp])

    One call of a hooked function by a fiber, between the points where the fiber
    leaves its thread or another thread can act: [do_io] (all hooked reads, writes
    and [accept]) and [connect_with_timeout]. What happens to it meanwhile (its
    timer, reports of the kernel, other fibers) is the labels of [step]. The
    original function is a parameter [sys] of the kernel's state: the result, the
    [errno] of a failure, the new state. *)
From S2P Require Import Prelude IOManager FdManager.

Definition EINTR : Z := 4.
Definition EBADF : Z := 9.
Definition EAGAIN : Z := 11.
Definition ETIMEDOUT : Z := 110.
Definition EINPROGRESS : Z := 115.
Definition no_timeout : Z := 2 ^ 64 - 1.

(** Where the fiber is in the function: in front of its first line, behind
    [retry], behind [addConditionTimer], behind a successful [addEvent], switched
    out, or returned. *)
Inductive phase := Begin | Trying | Armed | Added | Asleep | Finished (n : Z).
#[export] Instance phase_eq_dec : EqDecision phase.
Proof. solve_decision. Defined.

(** [tinfo]: [cancelled], and whether the call still holds it ([weak_ptr::lock]).
    [timer]: whether the local timer pointer is set. [outstanding]: callbacks of
    the call's timers that may still run; [cancelling]: those that have marked the
    call and not yet called [cancelEvent]. *)
Record hook (K : Type) := mkHook {
  fds : World K;
  iom : IOManager;
  errno : Z;
  at_phase : phase;
  to : Z;
  cancelled : Z;
  alive : bool;
  timer : bool;
  outstanding : nat;
  cancelling : nat
}.
Arguments mkHook {K}. Arguments fds {K}. Arguments iom {K}. Arguments errno {K}. Arguments at_phase {K}. Arguments to {K}.
Arguments cancelled {K}. Arguments alive {K}. Arguments timer {K}. Arguments outstanding {K}. Arguments cancelling {K}.

Section hook.
Context {K : Type} `{Libc K}.
Definition set_fds v (s : hook K) : hook K := mkHook v (iom s) (errno s) (at_phase s) (to s) (cancelled s) (alive s) (timer s) (outstanding s) (cancelling s).
Definition set_iom v (s : hook K) : hook K := mkHook (fds s) v (errno s) (at_phase s) (to s) (cancelled s) (alive s) (timer s) (outstanding s) (cancelling s).
Definition set_errno v (s : hook K) : hook K := mkHook (fds s) (iom s) v (at_phase s) (to s) (cancelled s) (alive s) (timer s) (outstanding s) (cancelling s).
Definition set_phase v (s : hook K) : hook K := mkHook (fds s) (iom s) (errno s) v (to s) (cancelled s) (alive s) (timer s) (outstanding s) (cancelling s).
Definition set_tinfo t c a (s : hook K) : hook K := mkHook (fds s) (iom s) (errno s) (at_phase s) t c a (timer s) (outstanding s) (cancelling s).
Definition set_timer b n (s : hook K) : hook K := mkHook (fds s) (iom s) (errno s) (at_phase s) (to s) (cancelled s) (alive s) b n (cancelling s).
Definition set_cancelling n (s : hook K) : hook K := mkHook (fds s) (iom s) (errno s) (at_phase s) (to s) (cancelled s) (alive s) (timer s) (outstanding s) n.

Definition on_fds {A} (m : ST (World K) A) : ST (hook K) A := λ s,
  match m (fds s) with Ret a w => Ret a (set_fds w s) | Throw e w => Throw e (set_fds w s) | Crash f => Crash f end.
Definition on_iom {A} (m : ST IOManager A) : ST (hook K) A := λ s,
  match m (iom s) with Ret a w => Ret a (set_iom w s) | Throw e w => Throw e (set_iom w s) | Crash f => Crash f end.

(** The call: the descriptor, the event to wait for, the scheduler and the fiber
    that call, and the original function. *)
Context (enabled : bool) (fd event cur_s cur_f : Z) (sys : K → Z * Z * K).

Definition call_fun : ST (hook K) Z :=
  let* r := on_fds (call (λ k, let '(n, e, k) := sys k in ((n, e), k))) in
  (if r.1 =? -1 then modify (set_errno r.2) else ret tt) ;;;
  ret r.1.
(** [while(n == -1 && errno == EINTR)]; the fuel bounds the interruptions. *)
Fixpoint eintr_loop (fuel : nat) (n : Z) : ST (hook K) Z :=
  match fuel with
  | O => crash Diverges
  | S fuel =>
      let* e := gets errno in
      if (n =? -1) && (e =? EINTR) then let* n := call_fun in eintr_loop fuel n else ret n
  end.

(** The locals end with the function. *)
Definition finish (n : Z) : ST (hook K) unit :=
  modify (λ s, set_timer false (outstanding s) (set_tinfo (to s) (cancelled s) false (set_phase (Finished n) s))).
Definition call_through : ST (hook K) unit := let* n := call_fun in finish n.

(** [addConditionTimer], if there is a timeout *)
Definition arm : ST (hook K) unit :=
  modify (λ s, if to s =? no_timeout then set_timer false (outstanding s) s else set_timer true (S (outstanding s)) s).
(** [if(timer) timer->cancel()]; [removed]: whether it was still in the queue. *)
Definition cancel_timer (removed : bool) : ST (hook K) unit :=
  modify (λ s, set_timer false (if timer s && removed then pred (outstanding s) else outstanding s) s).

(** ** [do_io] *)
Definition do_io_begin (timeout_so : Z) : ST (hook K) unit :=
  if negb enabled then call_through
  else
    let* c := on_fds (get fd false) in
    match c with
    | None => call_through
    | Some ctx =>
        if m_isClosed ctx then modify (set_errno EBADF) ;;; finish (-1)
        else if negb (m_isSocket ctx) || m_userNonblock ctx then call_through
        else modify (λ s, set_phase Trying (set_tinfo (getTimeout timeout_so ctx) 0 true s))
    end.

(** From [retry] up to [addConditionTimer] ... *)
Definition do_io_try (fuel : nat) : ST (hook K) unit :=
  let* n := call_fun in
  let* n := eintr_loop fuel n in
  let* e := gets errno in
  if (n =? -1) && (e =? EAGAIN) then arm ;;; modify (set_phase Armed)
  else finish n.
(** ... and from there; [rt] is the result of [epoll_ctl]. *)
Definition do_io_add (rt : Z) (removed : bool) : ST (hook K) unit :=
  let* r := on_iom (addEvent (Some cur_s) cur_f rt fd event None) in
  if negb (r =? 0) then cancel_timer removed ;;; finish (-1)
  else modify (set_phase Added).

(** Behind [YieldToHold]. *)
Definition do_io_resume (removed : bool) : ST (hook K) unit :=
  cancel_timer removed ;;;
  let* c := gets cancelled in
  if negb (c =? 0) then modify (set_errno c) ;;; finish (-1)
  else modify (set_phase Trying).

(** ** [connect_with_timeout]; [so_error]: the result of [getsockopt(SO_ERROR)] and the error *)
Context (so_error : K → Z * Z).
Definition connect_end : ST (hook K) unit :=
  let* r := gets (λ s, so_error (kern (fds s))) in
  if r.1 =? -1 then finish (-1)
  else if r.2 =? 0 then finish 0
  else modify (set_errno r.2) ;;; finish (-1).
Definition connect_begin (timeout_ms : Z) : ST (hook K) unit :=
  if negb enabled then call_through
  else
    let* c := on_fds (get fd false) in
    match c with
    | None => modify (set_errno EBADF) ;;; finish (-1)
    | Some ctx =>
        if m_isClosed ctx then modify (set_errno EBADF) ;;; finish (-1)
        else if negb (m_isSocket ctx) then call_through
        else if m_userNonblock ctx then call_through
        else
          let* n := call_fun in
          let* e := gets errno in
          if n =? 0 then finish 0
          else if negb (n =? -1) || negb (e =? EINPROGRESS) then finish n
          else
            modify (set_tinfo timeout_ms 0 true) ;;;
            arm ;;;
            modify (set_phase Armed)
    end.
Definition connect_add (rt : Z) (removed : bool) : ST (hook K) unit :=
  let* r := on_iom (addEvent (Some cur_s) cur_f rt fd WRITE None) in
  if r =? 0 then modify (set_phase Added)
  else cancel_timer removed ;;; connect_end.
Definition connect_resume (removed : bool) : ST (hook K) unit :=
  cancel_timer removed ;;;
  let* c := gets cancelled in
  if negb (c =? 0) then modify (set_errno c) ;;; finish (-1)
  else connect_end.

(** ** Around the call *)
(** [YieldToHold] *)
Definition yield_to_hold : ST (hook K) unit := modify (set_phase Asleep).
(** The lambda given to [addConditionTimer], when a worker runs it: up to the mark ... *)
Definition fire : ST (hook K) unit :=
  modify (λ s, set_timer (timer s) (pred (outstanding s)) s) ;;;
  let* s := gets id in
  if negb (alive s) || negb (cancelled s =? 0) then ret tt
  else modify (λ s, set_cancelling (S (cancelling s)) (set_tinfo (to s) ETIMEDOUT (alive s) s)).
(** ... and [iom->cancelEvent(fd, event)]. *)
Definition fire_cancel (ev rt : Z) : ST (hook K) unit :=
  modify (λ s, set_cancelling (pred (cancelling s)) s) ;;;
  let* _ := on_iom (cancelEvent rt fd ev) in ret tt.

(** A worker takes the fiber from the queue. *)
Fixpoint remove_first (t : Z * task) (l : list (Z * task)) : option (list (Z * task)) :=
  match l with
  | [] => None
  | x :: l => if bool_decide (x = t) then Some l else option_map (cons x) (remove_first t l)
  end.
Definition task_waits (s : hook K) : bool := bool_decide (is_Some (remove_first (cur_s, TaskFiber cur_f) (scheduled (iom s)))).
Definition take_task : ST (hook K) unit :=
  modify (λ s, set_iom (set_scheduled (default (scheduled (iom s)) (remove_first (cur_s, TaskFiber cur_f) (scheduled (iom s)))) (iom s)) s).

(** ** The other hooks that reach the [IOManager] or the table *)
(** [accept], behind [do_io] with result [n] *)
Definition accept_end (n : Z) : ST (hook K) Z :=
  if 0 <=? n then let* _ := on_fds (get n true) in ret n else ret n.
(** [close]; [iom_here]: whether the thread runs an [IOManager]. *)
Definition close (iom_here : bool) (rt : Z) : ST (hook K) Z :=
  if negb enabled then on_fds (call (close_f fd))
  else
    let* c := on_fds (get fd false) in
    match c with
    | Some _ =>
        (if iom_here then let* _ := on_iom (cancelAll rt fd) in ret tt else ret tt) ;;;
        on_fds (del fd)
    | None => ret tt
    end ;;;
    on_fds (call (close_f fd)).

(** ** Sleeping: [sleep], [usleep] and [nanosleep] add a timer of so many
    milliseconds that schedules the fiber, and yield. *)
Definition sleep_ms (seconds : Z) : Z := u32 (seconds * 1000).
Definition usleep_ms (usec : Z) : Z := Z.quot usec 1000.
(** The arithmetic of [nanosleep] is that of [long]. *)
Definition nanosleep_fits (tv_sec tv_nsec : Z) : bool :=
  bool_decide (- 2 ^ 63 ≤ tv_sec * 1000 < 2 ^ 63 ∧ - 2 ^ 63 ≤ tv_sec * 1000 + Z.quot (Z.quot tv_nsec 1000) 1000 < 2 ^ 63).
Definition nanosleep_ms (tv_sec tv_nsec : Z) : Z := u64 (i32 (tv_sec * 1000 + Z.quot (Z.quot tv_nsec 1000) 1000)).
End hook.

(** ** The functions that are hooked *)
Inductive io_fun := F_accept | F_read | F_readv | F_recv | F_recvfrom | F_recvmsg | F_write | F_writev | F_send | F_sendto | F_sendmsg.
(** The event each waits for, and the option that limits the wait. *)
Definition io_event (f : io_fun) : Z :=
  match f with F_write | F_writev | F_send | F_sendto | F_sendmsg => WRITE | _ => READ end.
Definition io_timeout (f : io_fun) : Z :=
  match f with F_write | F_writev | F_send | F_sendto | F_sendmsg => SO_SNDTIMEO | _ => SO_RCVTIMEO end.
Lemma io_event_ok f : event_ok (io_event f).
Proof. destruct f; by (left; reflexivity) || by right. Qed.

(** [s_connect_timeout], an [int] from the configuration kept as [uint64_t]: first
    and in the variable's listener. *)
Definition s_connect_timeout (tcp_connect_timeout : Z) : Z := u64 tcp_connect_timeout.
Section hooks.
Context {K : Type} `{Libc K} (enabled : bool) (fd cur_s cur_f : Z) (sys : K → Z * Z * K).
Definition hooked_begin (f : io_fun) : ST (hook K) unit := do_io_begin enabled fd sys (io_timeout f).
Definition hooked_try : nat → ST (hook K) unit := do_io_try sys.
Definition hooked_add (f : io_fun) : Z → bool → ST (hook K) unit := do_io_add fd (io_event f) cur_s cur_f.
Definition hooked_connect (tcp_connect_timeout : Z) : ST (hook K) unit :=
  connect_begin enabled fd sys (s_connect_timeout tcp_connect_timeout).
End hooks.
(** The configured -1 is no limit. *)
Lemma no_connect_limit : s_connect_timeout (-1) = no_timeout.
Proof. reflexivity. Qed.
