(* ===== verification/HookTheorems.v ===== *)
(** * HookTheorems: a call that waits, among all other activity of the server *)
From S2P Require Import Prelude FdManager IOManager IOManagerTheorems Hook.

(** ** The system of one [do_io] call *)
Section call.
Context {K : Type} `{Libc K}.
Context (enabled : bool) (fd event cur_s cur_f timeout_so : Z) (sys : K → Z * Z * K).
Hypothesis event_valid : event_ok event.
Hypothesis fd_valid : 0 ≤ fd ∧ fd * 3 < 2 ^ 32.

Definition me : handler := (cur_s, TaskFiber cur_f).

(** What other fibers and the kernel do to the same [IOManager]: anything but to
    wait for this event, or to delete it, or to speak for this fiber. *)
Definition foreign (o : op) : Prop :=
  match o with
  | OAdd cs cf _ fd' ev f => (fd' ≠ fd ∨ ev ≠ event) ∧ handler_for cs cf f ≠ me
  | ODel _ fd' ev => fd' ≠ fd ∨ ev ≠ event
  | _ => True
  end.

Inductive label :=
  | LBegin
  | LTry (fuel : nat)
  | LAdd (rt : Z) (removed : bool)
  | LYield
  | LResume (removed : bool)
  | LFire
  | LCancel (rt : Z)
  | LOther (o : op).

Definition can (l : label) (s : hook K) : Prop :=
  match l with
  | LBegin => at_phase s = Begin
  | LTry _ => at_phase s = Trying
  | LAdd _ _ => at_phase s = Armed
  | LYield => at_phase s = Added
  | LResume _ => at_phase s = Asleep ∧ task_waits cur_s cur_f s = true
  | LFire => (0 < outstanding s)%nat
  | LCancel _ => (0 < cancelling s)%nat
  | LOther o => foreign o ∧ ∃ a, repr (iom s) a ∧ valid o a
  end.
Definition exec_label (l : label) : ST (hook K) unit :=
  match l with
  | LBegin => do_io_begin enabled fd sys timeout_so
  | LTry fuel => do_io_try sys fuel
  | LAdd rt removed => do_io_add fd event cur_s cur_f rt removed
  | LYield => yield_to_hold
  | LResume removed => take_task cur_s cur_f ;;; do_io_resume removed
  | LFire => fire
  | LCancel rt => fire_cancel fd event rt
  | LOther o => let* _ := on_iom (exec o) in ret tt
  end.
Definition step (s : hook K) (l : label) (s' : hook K) : Prop := can l s ∧ exec_label l s = Ret tt s'.
Inductive steps : hook K → list label → hook K → Prop :=
  | steps_nil s : steps s [] s
  | steps_cons s l s1 ls s2 : step s l s1 → steps s1 ls s2 → steps s (l :: ls) s2.

(** ** Who holds the fiber *)
Definition is_me (x : handler) : bool := bool_decide (x = me).
Definition occ (l : list handler) : nat := length (List.filter is_me l).
Definition mine (a : list slots) : option handler := get_slot event (default no_slots (a !! Z.to_nat fd)).
Definition held_by (o : option handler) : nat := if bool_decide (o = Some me) then 1%nat else 0%nat.
(** The fiber waits in no other slot, and its slot holds nobody else. *)
Record only_own (a : list slots) : Prop := {
  own_elsewhere i x ev : a !! i = Some x → event_ok ev → get_slot ev x = Some me → i = Z.to_nat fd ∧ ev = event;
  own_slot : mine a = None ∨ mine a = Some me
}.

Lemma occ_app l1 l2 : occ (l1 ++ l2) = (occ l1 + occ l2)%nat.
Proof using. unfold occ. by rewrite List.filter_app, length_app. Qed.
Lemma occ_option o : occ (option_list o) = held_by o.
Proof using.
  unfold occ, held_by, is_me. destruct o as [x|]; [|done]. cbn. destruct (decide (x = me)) as [->|Hn].
  - by rewrite !bool_decide_true.
  - rewrite !bool_decide_false by congruence. done.
Qed.
Lemma held_none : held_by None = 0%nat.
Proof using. done. Qed.

(** A change of one slot. *)
Lemma own_insert a i x ev v : only_own a → a !! i = Some x → event_ok ev →
  (i = Z.to_nat fd ∧ ev = event → v = None ∨ v = Some me) → (¬ (i = Z.to_nat fd ∧ ev = event) → v ≠ Some me) →
  only_own (<[i := set_slot ev v x]> a) ∧
  mine (<[i := set_slot ev v x]> a) = if bool_decide (i = Z.to_nat fd ∧ ev = event) then v else mine a.
Proof using event_valid.
  intros [Hel Hown] Hx Hev Hv1 Hv2.
  assert (∀ ev', event_ok ev' → get_slot ev' (set_slot ev v x) = if bool_decide (ev' = ev) then v else get_slot ev' x) as Hg.
  { intros ev' Hev'. destruct Hev as [-> | ->], Hev' as [-> | ->]; done. }
  assert (mine (<[i := set_slot ev v x]> a) = if bool_decide (i = Z.to_nat fd ∧ ev = event) then v else mine a) as Hm.
  { unfold mine. destruct (decide (i = Z.to_nat fd)) as [->|Hi].
    - rewrite list_lookup_insert_eq by (by eapply lookup_lt_Some). cbn. rewrite Hg, Hx by done. cbn.
      destruct (decide (event = ev)) as [<-|He]; [by rewrite !bool_decide_true|]. rewrite !bool_decide_false; [done|by intros [_ ?]|done].
    - rewrite list_lookup_insert_ne, bool_decide_false; [done|by intros [? _]|done]. }
  split; [|done]. constructor.
  - intros j y ev' Hy Hev' Hs. destruct (decide (j = i)) as [->|Hj].
    + rewrite list_lookup_insert_eq in Hy by (by eapply lookup_lt_Some). injection Hy as <-. rewrite Hg in Hs by done.
      destruct (decide (ev' = ev)) as [->|He].
      * rewrite bool_decide_true in Hs by done. destruct (decide (i = Z.to_nat fd ∧ ev = event)) as [?|Hn]; [done|]. by destruct (Hv2 Hn).
      * rewrite bool_decide_false in Hs by done. by eapply Hel.
    + rewrite list_lookup_insert_ne in Hy by done. by eapply Hel.
  - rewrite Hm. case_bool_decide; auto.
Qed.

Lemma mine_elsewhere a i x ev : only_own a → a !! i = Some x → event_ok ev →
  held_by (get_slot ev x) = if bool_decide (i = Z.to_nat fd ∧ ev = event) then held_by (mine a) else 0%nat.
Proof using.
  intros [Hel Hown] Hx Hev. case_bool_decide as Hi.
  - destruct Hi as [-> ->]. unfold mine. by rewrite Hx.
  - unfold held_by. rewrite bool_decide_false; [done|]. intros Hs. by apply Hi, (Hel i x ev).
Qed.
(** A slot is emptied, or left: the fiber goes where its handler goes. *)
Lemma own_take a i x ev (b : bool) : only_own a → a !! i = Some x → event_ok ev →
  let x' := if b then set_slot ev None x else x in
  only_own (<[i := x']> a) ∧
  (held_by (mine (<[i := x']> a)) + occ (if b then option_list (get_slot ev x) else []) = held_by (mine a))%nat.
Proof using event_valid.
  intros Hown Hx Hev. destruct b; cbv zeta iota.
  - destruct (own_insert a i x ev None Hown Hx Hev) as [Ho Hm]; [by left|done|]. split; [done|].
    rewrite Hm, occ_option, (mine_elsewhere a i x ev) by done. by case_bool_decide.
  - rewrite list_insert_id by done. by rewrite Nat.add_0_r.
Qed.

Lemma own_take_both a i x (b1 b2 : bool) : only_own a → a !! i = Some x →
  only_own (<[i := after b1 b2 x]> a) ∧
  (held_by (mine (<[i := after b1 b2 x]> a)) + occ ((if b1 then option_list x.1 else []) ++ (if b2 then option_list x.2 else []))
   = held_by (mine a))%nat.
Proof using event_valid.
  intros Hown Hx. destruct (own_take a i x READ b1 Hown Hx (or_introl eq_refl)) as [Ho1 Hc1].
  set (x1 := if b1 then set_slot READ None x else x) in *.
  destruct (own_take _ i x1 WRITE b2 Ho1 (list_lookup_insert_eq _ _ _ (lookup_lt_Some _ _ _ Hx)) (or_intror eq_refl)) as [Ho2 Hc2].
  assert ((if b2 then set_slot WRITE None x1 else x1) = after b1 b2 x) as E by (unfold x1; by destruct b1, b2, x).
  assert (get_slot WRITE x1 = x.2) as E2 by (unfold x1; by destruct b1).
  rewrite list_insert_insert_eq, E in Ho2, Hc2. rewrite E2 in Hc2. split; [done|].
  rewrite occ_app. change (get_slot READ x) with x.1 in Hc1. lia.
Qed.

Lemma slot_resized fd' a i : default no_slots (resized fd' a !! i) = default no_slots (a !! i).
Proof using.
  unfold resized, grown. destruct (_ <? _); [done|]. destruct (decide (i < length a)%nat) as [Hi|Hi].
  - by rewrite lookup_app_l.
  - rewrite lookup_app_r, (lookup_ge_None_2 a) by lia. destruct (replicate _ _ !! _) eqn:E; [|done].
    apply lookup_replicate in E as [-> _]. done.
Qed.
Lemma own_resized fd' a : only_own a → only_own (resized fd' a) ∧ mine (resized fd' a) = mine a.
Proof using.
  intros [He Ho]. assert (mine (resized fd' a) = mine a) as Hm by (unfold mine; by rewrite slot_resized).
  split; [|done]. constructor; [|by rewrite Hm]. intros i x ev Hx Hev Hs.
  pose proof (slot_resized fd' a i) as Hr. rewrite Hx in Hr. cbn in Hr. destruct (a !! i) as [y|] eqn:Hy.
  - cbn in Hr. subst y. by eapply He.
  - cbn in Hr. subst x. by destruct Hev as [-> | ->].
Qed.

Lemma own_same a : only_own a → only_own a ∧ (held_by (mine a) + occ [] = held_by (mine a))%nat.
Proof using. intros Ho. split; [done|]. apply Nat.add_0_r. Qed.
(** Other operations keep account of the fiber. *)
Lemma spec_foreign o a : only_own a → foreign o → valid o a → let '(r, a', fired) := spec o a in
  only_own a' ∧ (held_by (mine a') + occ fired = held_by (mine a))%nat.
Proof using event_valid fd_valid.
  intros Hown Hf Hv. destruct o as [cs cf rt fd' ev f|rt fd' ev|rt fd' ev|rt fd'|rt fd' rep]; simpl.
  - destruct Hv as (Hev & Hfd & _). destruct Hf as [Hne Hme]. destruct (own_resized fd' a Hown) as [Ho Hm].
    destruct (resized fd' a !! Z.to_nat fd') as [x|] eqn:Hx; [|rewrite <- Hm; by apply own_same].
    destruct (rt =? 0); [|rewrite <- Hm; by apply own_same].
    assert (¬ (Z.to_nat fd' = Z.to_nat fd ∧ ev = event)) as Hn by (intros [? ?]; destruct Hne; [lia|done]).
    destruct (own_insert _ _ x ev (Some (handler_for cs cf f)) Ho Hx Hev) as [Ho' Hm']; [done|congruence|].
    split; [done|]. rewrite Hm', bool_decide_false, Hm by done. apply Nat.add_0_r.
  - destruct Hv as [Hev Hfd]. destruct (a !! Z.to_nat fd') as [x|] eqn:Hx; [|by apply own_same].
    destruct (get_slot ev x) eqn:Hs; [|by apply own_same]. destruct (rt =? 0); [|by apply own_same].
    destruct (own_insert a _ x ev None Hown Hx Hev) as [Ho' Hm']; [by left|done|]. split; [done|].
    rewrite Hm', bool_decide_false; [apply Nat.add_0_r|]. intros [? ?]. destruct Hf; [lia|done].
  - destruct Hv as [Hev Hfd]. destruct (a !! Z.to_nat fd') as [x|] eqn:Hx; [|by apply own_same].
    destruct (get_slot ev x) eqn:Hs; [|by apply own_same]. destruct (rt =? 0); [|by apply own_same].
    pose proof (own_take a _ x ev true Hown Hx Hev) as Hd. by rewrite Hs in Hd.
  - destruct (a !! Z.to_nat fd') as [x|] eqn:Hx; [|by apply own_same].
    destruct (bool_decide _); [by apply own_same|]. destruct (rt =? 0); [|by apply own_same].
    exact (own_take_both a _ x true true Hown Hx).
  - destruct (a !! Z.to_nat fd') as [x|] eqn:Hx; [|by apply own_same]. destruct (rt =? 0); [|by apply own_same].
    exact (own_take_both a _ x _ _ Hown Hx).
Qed.
(** The fiber starts to wait. *)
Lemma spec_add s a rt : repr s a → only_own a → mine a = None →
  let '(r, a', fired) := spec (OAdd cur_s cur_f rt fd event None) a in
  fired = [] ∧ only_own a' ∧ held_by (mine a') = if r =? 0 then 1%nat else 0%nat.
Proof using event_valid fd_valid.
  intros Hr Hown Hm. destruct (resize_refines s a fd Hr (proj1 fd_valid) (proj2 fd_valid)) as (_ & _ & _ & _ & x & Hx).
  destruct (own_resized fd a Hown) as [Ho Em]. unfold spec. rewrite Hx. destruct (rt =? 0).
  - destruct (own_insert _ _ x event (Some me) Ho Hx event_valid) as [Ho' Hm']; [by right|by intros []|].
    change (handler_for cur_s cur_f None) with me. split_and!; [done|done|].
    rewrite Hm', bool_decide_true by done. unfold held_by. by rewrite bool_decide_true.
  - split_and!; [done|done|]. by rewrite Em, Hm.
Qed.

(** The fiber in all the contexts is the fiber in its slot. *)
Lemma occ_none l : me ∉ l → occ l = 0%nat.
Proof using.
  unfold occ, is_me. induction l as [|x l IH]; [done|]. intros Hn. apply not_elem_of_cons in Hn as [Hx Hl]. cbn.
  rewrite bool_decide_false by congruence. by apply IH.
Qed.
Lemma occ_perm l1 l2 : l1 ≡ₚ l2 → occ l1 = occ l2.
Proof using.
  unfold occ. induction 1 as [|x l1 l2 _ IH|x y l|l1 l2 l3 _ IH1 _ IH2]; cbn; [done|..|congruence].
  - destruct (is_me x); cbn; congruence.
  - by destruct (is_me x), (is_me y).
Qed.
Lemma occ_slots a : (∀ i x ev, a !! i = Some x → event_ok ev → get_slot ev x ≠ Some me) → occ (pending a) = 0%nat.
Proof using.
  intros Hn. apply occ_none. unfold pending. rewrite list_elem_of_In, in_concat. intros (l & Hl & Hm). apply list_elem_of_In in Hl. apply list_elem_of_In in Hm.
  apply list_elem_of_fmap in Hl as (x & -> & Hx). apply list_elem_of_lookup in Hx as [i Hx].
  unfold waiting in Hm. rewrite elem_of_app in Hm. destruct Hm as [Hm|Hm].
  - apply (Hn i x READ Hx); [by left|]. destruct x as [[h|] ?]; cbn in Hm |- *; [|by apply not_elem_of_nil in Hm]. apply list_elem_of_singleton in Hm. congruence.
  - apply (Hn i x WRITE Hx); [by right|]. destruct x as [? [h|]]; cbn in Hm |- *; [|by apply not_elem_of_nil in Hm]. apply list_elem_of_singleton in Hm. congruence.
Qed.
Lemma occ_pending a : only_own a → occ (pending a) = held_by (mine a).
Proof using event_valid.
  intros Hown. pose proof (own_slot a Hown) as Hs. destruct Hs as [Hs|Hs].
  - rewrite Hs. apply occ_slots. intros i x ev Hx Hev Hg. destruct (own_elsewhere a Hown i x ev Hx Hev Hg) as [-> ->].
    unfold mine in Hs. rewrite Hx in Hs. cbn in Hs. congruence.
  - pose proof Hs as Hg. unfold mine in Hg. destruct (a !! Z.to_nat fd) as [x|] eqn:Hx; cbn in Hg; [|by destruct event_valid as [E|E]; rewrite E in Hg].
    destruct (own_insert a _ x event None Hown Hx event_valid) as [Ho Hm]; [by left|done|]. rewrite bool_decide_true in Hm by done.
    destruct (pending_insert a _ x (set_slot event None x) Hx) as (l & r & E1 & E2).
    assert (occ (pending (<[Z.to_nat fd := set_slot event None x]> a)) = 0%nat) as E0.
    { apply occ_slots. intros i y ev Hy Hev Hgy. destruct (own_elsewhere _ Ho i y ev Hy Hev Hgy) as [-> ->].
      unfold mine in Hm. rewrite Hy in Hm. cbn in Hm. congruence. }
    rewrite Hs. rewrite E2, !occ_app in E0. rewrite E1, !occ_app, <- (occ_perm _ _ (waiting_none event me x event_valid Hg)).
    unfold occ at 2. cbn. unfold is_me at 1, held_by. rewrite !bool_decide_true by done. cbn. fold (occ (waiting (set_slot event None x))). lia.
Qed.
Lemma occ_cons x l : occ (x :: l) = ((if bool_decide (x = me) then 1 else 0) + occ l)%nat.
Proof using. unfold occ. cbn. fold (is_me x). by destruct (is_me x). Qed.
Lemma remove_first_occ l l' : remove_first me l = Some l' → occ l = S (occ l').
Proof using.
  revert l'. induction l as [|x l IH]; intros l'; cbn [remove_first]; [done|]. rewrite occ_cons. case_bool_decide as Hx.
  - intros [= <-]. by rewrite ?bool_decide_true.
  - destruct (remove_first me l) as [l1|]; [|done]. intros [= <-]. rewrite occ_cons, ?bool_decide_false by done. by apply IH.
Qed.
Lemma remove_first_none l : remove_first me l = None → occ l = 0%nat.
Proof using.
  induction l as [|x l IH]; cbn [remove_first]; [done|]. rewrite occ_cons. case_bool_decide as Hx; [done|].
  destruct (remove_first me l) as [l1|]; [done|]. intros _. rewrite ?bool_decide_false by done. by apply IH.
Qed.

(** ** The parts of the function, forwards *)
(** What calls of the C library change. *)
Definition outside (w : World K) (e : Z) (s : hook K) : hook K := set_errno e (set_fds w s).
Definition finished (n : Z) (s : hook K) : hook K :=
  set_timer false (outstanding s) (set_tinfo (to s) (cancelled s) false (set_phase (Finished n) s)).

Lemma call_fun_runs s : ∃ n w e, call_fun sys s = Ret n (outside w e s).
Proof using.
  unfold call_fun, on_fds, call, bind. destruct (sys (kern (fds s))) as [[n e] k]. cbn. destruct (n =? -1).
  - by exists n, (mkWorld k (m_data (fds s))), e.
  - exists n, (mkWorld k (m_data (fds s))), (errno s). by destruct s.
Qed.
Lemma eintr_runs fuel n s : eintr_loop sys fuel n s = Crash Diverges ∨
  ∃ n' w e, eintr_loop sys fuel n s = Ret n' (outside w e s).
Proof using.
  revert n s. induction fuel as [|fuel IH]; intros n s; [by left|]. cbn [eintr_loop]. rewrite bind_gets.
  destruct (_ && _); [|right; exists n, (fds s), (errno s); by destruct s].
  destruct (call_fun_runs s) as (n1 & w & e & E). rewrite (bind_Ret _ _ _ _ _ E).
  destruct (IH n1 (outside w e s)) as [->|(n' & w' & e' & ->)]; [by left|right]. by exists n', w', e'.
Qed.
Lemma get_reads (w : World K) : ∃ c, get fd false w = Ret c w.
Proof using fd_valid.
  unfold get. rewrite (proj2 (Z.eqb_neq fd (-1))) by lia. rewrite bind_gets. destruct (Z.leb_spec (i32 (zlen (m_data w))) fd) as [Hl|Hl].
  - by exists None.
  - assert (fd < zlen (m_data w)) as Hlt.
    { unfold swrap in Hl. pose proof (zlen_nonneg (m_data w)).
      pose proof (Z.mod_le (zlen (m_data w) + 2 ^ (32 - 1)) (2 ^ 32) ltac:(lia) ltac:(lia)). lia. }
    unfold at_fd. rewrite bind_assoc, bind_gets, (proj2 (Z.ltb_ge fd 0)) by lia.
    destruct (m_data w !! Z.to_nat fd) as [c|] eqn:E.
    + rewrite bind_ret. exists c. by rewrite orb_true_r.
    + apply lookup_ge_None in E. unfold zlen in Hlt. lia.
Qed.

Lemma call_through_runs s : ∃ n w e, call_through sys s = Ret tt (finished n (outside w e s)).
Proof using.
  destruct (call_fun_runs s) as (n & w & e & E). exists n, w, e. unfold call_through. by rewrite (bind_Ret _ _ _ _ _ E).
Qed.
Lemma begin_runs s : ∃ w e s', do_io_begin enabled fd sys timeout_so s = Ret tt s' ∧
  ((∃ n, s' = finished n (outside w e s)) ∨ (∃ t, s' = set_phase Trying (set_tinfo t 0 true (outside w e s)))).
Proof using fd_valid.
  assert (∃ w e s', call_through sys s = Ret tt s' ∧ ((∃ n, s' = finished n (outside w e s)) ∨
    (∃ t, s' = set_phase Trying (set_tinfo t 0 true (outside w e s))))) as Hc.
  { destruct (call_through_runs s) as (n & w & e & E). exists w, e, (finished n (outside w e s)). eauto. }
  unfold do_io_begin. destruct enabled; [|done]. cbn [negb]. destruct (get_reads (fds s)) as [c E].
  assert (on_fds (get fd false) s = Ret c s) as Eg by (unfold on_fds; rewrite E; by destruct s).
  rewrite (bind_Ret _ _ _ _ _ Eg). destruct c as [ctx|]; [|done]. destruct (m_isClosed ctx).
  - exists (fds s), EBADF, (finished (-1) (outside (fds s) EBADF s)). split; [by destruct s|eauto].
  - destruct (_ || _); [done|]. exists (fds s), (errno s). eexists. split; [done|]. right. exists (getTimeout timeout_so ctx). by destruct s.
Qed.

(** ** The invariant *)
Definition in_wait (p : phase) : bool := match p with Added | Asleep => true | _ => false end.
Definition in_loop (p : phase) : bool := match p with Trying | Armed | Added | Asleep => true | _ => false end.
(** Whether the timer has been set for this attempt. *)
Definition armed (p : phase) : bool := match p with Armed | Added | Asleep => true | _ => false end.

Record call_ok (s : hook K) (a : list slots) : Prop := {
  call_repr : repr (iom s) a;
  call_own : only_own a;
  call_once : (held_by (mine a) + occ (scheduled (iom s)) = if in_wait (at_phase s) then 1 else 0)%nat;
  call_alive : alive s = in_loop (at_phase s);
  call_timer : armed (at_phase s) = true → to s ≠ no_timeout → cancelled s = 0 → (0 < outstanding s)%nat
}.
Lemma call_outside s a w e : call_ok s a → call_ok (outside w e s) a.
Proof using. intros []. by constructor. Qed.
Lemma call_finished s a n : call_ok s a → in_wait (at_phase s) = false → call_ok (finished n s) a.
Proof using. intros [] Hw. constructor; try done. rewrite Hw in call_once0. done. Qed.

(** A step ends in the invariant; or the loop over interrupted calls ran out. *)
Definition goes_on (l : label) (o : outcome (hook K) unit) : Prop :=
  (∃ s' a', o = Ret tt s' ∧ call_ok s' a') ∨ (∃ fuel, l = LTry fuel) ∧ o = Crash Diverges.

Lemma begin_ok s a : call_ok s a → at_phase s = Begin → goes_on LBegin (exec_label LBegin s).
Proof using fd_valid.
  intros Hc Hp. left. destruct (begin_runs s) as (w & e & s' & E & Hs'). exists s', a. split; [exact E|].
  pose proof (call_outside s a w e Hc) as Ho. destruct Hs' as [[n ->]|[t ->]].
  - apply call_finished; [done|]. cbn. by rewrite Hp.
  - destruct Ho. constructor; try done. change (at_phase (outside w e s)) with (at_phase s) in call_once0. by rewrite Hp in call_once0.
Qed.

Lemma on_iom_runs {A} (m : ST IOManager A) (s : hook K) r w : m (iom s) = Ret r w → on_iom m s = Ret r (set_iom w s).
Proof using. unfold on_iom. by intros ->. Qed.
Lemma iom_runs o (s : hook K) a : repr (iom s) a → valid o a → let '(r, a', fired) := spec o a in
  ∃ w, on_iom (exec o) s = Ret r (set_iom w s) ∧ repr w a' ∧ scheduled w = scheduled (iom s) ++ fired.
Proof using.
  intros Hr Hv. pose proof (exec_refines o (iom s) a Hr Hv) as Hd. destruct (spec o a) as [[r a'] fired].
  destruct Hd as (w & E & Hw & Hs). exists w. split; [by apply on_iom_runs|done].
Qed.

Lemma mine_free s a : call_ok s a → in_wait (at_phase s) = false → mine a = None ∧ occ (scheduled (iom s)) = 0%nat.
Proof using.
  intros Hc Hw. pose proof (call_once s a Hc) as Ho. rewrite Hw in Ho. split; [|lia].
  destruct (own_slot a (call_own s a Hc)) as [?|Hm]; [done|]. rewrite Hm in Ho. unfold held_by in Ho. rewrite bool_decide_true in Ho by done. lia.
Qed.

Lemma try_ok fuel s a : call_ok s a → at_phase s = Trying → goes_on (LTry fuel) (exec_label (LTry fuel) s).
Proof using event_valid fd_valid.
  intros Hc Hp. cbn [exec_label]. unfold do_io_try. destruct (call_fun_runs s) as (n & w & e & E). rewrite (bind_Ret _ _ _ _ _ E).
  destruct (eintr_runs fuel n (outside w e s)) as [E2|(n' & w' & e' & E2)].
  { right. split; [eauto|]. unfold bind at 1. by rewrite E2. }
  rewrite (bind_Ret _ _ _ _ _ E2), bind_gets. left. set (s2 := outside w' e' (outside w e s)).
  assert (call_ok s2 a) as Hc2 by (by do 2 apply call_outside). assert (at_phase s2 = Trying) as Hp2 by done. clearbody s2. destruct (_ && _).
  - unfold arm. rewrite bind_modify. eexists _, a. split; [reflexivity|]. destruct Hc2 as [Hr Hown Hone Hal _]. rewrite Hp2 in Hone, Hal.
    destruct (Z.eqb_spec (to s2) no_timeout); constructor; try done; cbn; intros; first [done|lia].
  - exists (finished n' s2), a. split; [done|]. apply call_finished; [done|]. by rewrite Hp2.
Qed.
(** [addEvent] of the waiting fiber. *)
Lemma add_ok rt removed s a : call_ok s a → at_phase s = Armed → goes_on (LAdd rt removed) (exec_label (LAdd rt removed) s).
Proof using event_valid fd_valid.
  intros Hc Hp. left. destruct (mine_free s a Hc) as [Hm Hq]; [by rewrite Hp|]. cbn [exec_label]. unfold do_io_add.
  assert (valid (OAdd cur_s cur_f rt fd event None) a) as Hv by (split_and!; try done; apply fd_valid).
  pose proof (spec_add (iom s) a rt (call_repr s a Hc) (call_own s a Hc) Hm) as Hs.
  pose proof (iom_runs (OAdd cur_s cur_f rt fd event None) s a (call_repr s a Hc) Hv) as Hd.
  destruct (spec _ a) as [[r a'] fired]. destruct Hs as (-> & Ho' & Hh). destruct Hd as (w & E & Hw & Hsch).
  cbn [exec] in E. rewrite (bind_Ret _ _ _ _ _ E). rewrite app_nil_r in Hsch. destruct Hc as [_ _ _ Hal Htm]. rewrite Hp in Hal, Htm. destruct (r =? 0); cbn [negb].
  - eexists _, a'. split; [done|]. constructor; cbn; try done. by rewrite Hsch, Hq, Hh.
  - unfold cancel_timer, finish. rewrite bind_modify. eexists _, a'. split; [done|].
    constructor; cbn; try done. by rewrite Hsch, Hq, Hh.
Qed.

Lemma resume_ok removed s a : call_ok s a → at_phase s = Asleep → task_waits cur_s cur_f s = true →
  goes_on (LResume removed) (exec_label (LResume removed) s).
Proof using.
  intros Hc Hp Ht. left. cbn [exec_label]. unfold take_task. rewrite bind_modify.
  unfold task_waits in Ht. fold me in Ht |- *. destruct (remove_first me (scheduled (iom s))) as [l|] eqn:Hl; [|done]. cbn [default].
  pose proof (remove_first_occ _ _ Hl) as Ho. pose proof (call_once s a Hc) as Hn. rewrite Hp in Hn. cbn in Hn.
  destruct Hc as [Hr Hown _ Hal _]. rewrite Hp in Hal. unfold do_io_resume, cancel_timer. rewrite bind_modify, bind_gets.
  assert (repr (set_scheduled l (iom s)) a) as Hr' by (destruct Hr; constructor; try done; by apply (contexts_same (iom s))).
  destruct (negb _); eexists _, a; (split; [done|]); constructor; try done;
    change (held_by (mine a) + occ l = 0)%nat; lia.
Qed.

Lemma cancel_own rt (s : hook K) a : repr (iom s) a → only_own a → ∃ w a' b,
  on_iom (cancelEvent rt fd event) s = Ret b (set_iom w s) ∧ repr w a' ∧ only_own a' ∧
  (held_by (mine a') + occ (scheduled w) = held_by (mine a) + occ (scheduled (iom s)))%nat ∧ (rt = 0 → mine a' = None).
Proof using event_valid fd_valid.
  intros Hr Hown. pose proof (exec_refines (OCancel rt fd event) (iom s) a Hr (conj event_valid (proj1 fd_valid))) as Hd.
  pose proof (spec_foreign (OCancel rt fd event) a Hown I (conj event_valid (proj1 fd_valid))) as Hs.
  assert (rt = 0 → mine (spec (OCancel rt fd event) a).1.2 = None) as Hm.
  { intros ->. cbn. destruct (a !! Z.to_nat fd) as [x|] eqn:Hx; [|unfold mine; cbn; rewrite Hx; by destruct event_valid as [-> | ->]].
    destruct (get_slot event x) eqn:Hg; cbn; [|unfold mine; by rewrite Hx]. unfold mine.
    rewrite list_lookup_insert_eq by (by eapply lookup_lt_Some). by destruct event_valid as [-> | ->]. }
  destruct (spec _ a) as [[r a'] fired]. destruct Hs as [Ho' Hh], Hd as (w & E & Hw & Hsch). cbn [exec] in E.
  unfold as_int, bind in E. destruct (cancelEvent rt fd event (iom s)) as [b w'| |] eqn:Ec; [|done..]. injection E as _ <-.
  exists w', a', b. split_and!; [by apply on_iom_runs|done|done| |done]. rewrite Hsch, occ_app. lia.
Qed.

Lemma fire_ok s a : call_ok s a → (0 < outstanding s)%nat → goes_on LFire (exec_label LFire s).
Proof using.
  intros Hc Hn. left. cbn [exec_label]. unfold fire. rewrite bind_modify, bind_gets. unfold id. cbn [alive cancelled set_timer].
  destruct Hc as [Hr Hown Hone Hal Htm]. destruct (alive s) eqn:Ea; [destruct (Z.eqb_spec (cancelled s) 0) as [Ec|Ec]|]; cbn [negb orb];
    (eexists _, a; split; [done|]; constructor; try done; try exact (eq_trans Ea Hal)).
  intros Hw. cbn in Hw. exfalso. by destruct (at_phase s).
Qed.
Lemma fire_cancel_ok rt s a : call_ok s a → goes_on (LCancel rt) (exec_label (LCancel rt) s).
Proof using event_valid fd_valid.
  intros [Hr Hown Hone Hal Htm]. left. cbn [exec_label]. unfold fire_cancel. rewrite bind_modify. set (s1 := set_cancelling _ s).
  destruct (cancel_own rt s1 a Hr Hown) as (w & a' & b & E & Hw & Ho' & Hh & _). rewrite (bind_Ret _ _ _ _ _ E). eexists _, a'. split; [done|].
  constructor; try done. cbn [scheduled iom set_iom]. rewrite Hh. exact Hone.
Qed.

Lemma other_ok o s a : call_ok s a → foreign o → valid o a → goes_on (LOther o) (exec_label (LOther o) s).
Proof using event_valid fd_valid.
  intros [Hr Hown Hone Hal Htm] Hf Hv. left. pose proof (iom_runs o s a Hr Hv) as Hd. pose proof (spec_foreign o a Hown Hf Hv) as Hs.
  destruct (spec o a) as [[r a'] fired]. destruct Hd as (w & E & Hw & Hsch), Hs as [Ho' Hh]. cbn [exec_label].
  rewrite (bind_Ret _ _ _ _ _ E). eexists _, a'. split; [done|]. constructor; try done.
  cbn [scheduled iom set_iom]. rewrite Hsch, occ_app. change (at_phase (set_iom w s)) with (at_phase s). lia.
Qed.

Lemma label_ok l s a : call_ok s a → can l s → goes_on l (exec_label l s).
Proof using event_valid fd_valid.
  intros Hc Hl. destruct l as [|fuel|rt removed| |removed| |rt|o].
  - by apply (begin_ok s a).
  - by apply (try_ok fuel s a).
  - by apply (add_ok rt removed s a).
  - left. eexists _, a. split; [done|]. destruct Hc as [Hr Hown Hone Hal Htm]. cbn in Hl. rewrite Hl in *. by constructor.
  - destruct Hl. by apply (resume_ok removed s a).
  - by apply (fire_ok s a).
  - by apply (fire_cancel_ok rt s a).
  - destruct Hl as [Hf (a' & Hr & Hv)]. rewrite (repr_unique _ _ _ Hr (call_repr s a Hc)) in Hv. by apply (other_ok o s a).
Qed.

Lemma steps_ok s ls s' a : call_ok s a → steps s ls s' → ∃ a', call_ok s' a'.
Proof using event_valid fd_valid.
  intros Hc Hs. revert a Hc. induction Hs as [s|s l s1 ls s2 [Hl E] _ IH]; intros a Hc; [by exists a|].
  destruct (label_ok l s a Hc Hl) as [(s1' & a1 & E1 & Hc1)|[_ E1]]; rewrite E in E1; [|done]. injection E1 as <-. by apply (IH a1).
Qed.

(** ** Histories *)
(** The fiber enters the function: no scheduler and no other handler knows of it. *)
Definition enters (s : hook K) : Prop :=
  at_phase s = Begin ∧ alive s = false ∧ occ (scheduled (iom s)) = 0%nat ∧
  ∃ a, repr (iom s) a ∧ mine a = None ∧ ∀ i x ev, a !! i = Some x → event_ok ev → get_slot ev x ≠ Some me.
Lemma enters_ok s : enters s → ∃ a, call_ok s a.
Proof using.
  intros (Hp & Ha & Hq & a & Hr & Hm & Hn). exists a. constructor; rewrite ?Hp; try done.
  - constructor; [|by left]. intros i x ev Hx Hev Hg. by destruct (Hn i x ev Hx Hev).
  - by rewrite Hm, Hq.
Qed.

(** C16: Fibers neither get lost nor resumed twice in a hooked call.  Along all
    interleavings of the call's steps with its timers and with what others do to the
    same [IOManager], the fiber is held exactly once - by one context, or in the queue
    of its scheduler - from a successful [addEvent] on until it is resumed, and not at
    all before and behind; and every step that is possible succeeds, but for a loop
    over interrupted calls that its fuel does not end.  What is possible is [can]:
    others are [foreign] (they do not wait for this event, delete it or speak for this
    fiber) and keep to [valid], so the kernel reports no events that are not registered
    any more or never were; and the fiber is resumed only when it has left its stack -
    [queued_while_running] shows that the code does not see to that. *)
Theorem do_io_waits_once s0 ls s : enters s0 → steps s0 ls s →
  (occ (held_handlers (iom s)) + occ (scheduled (iom s)) = if in_wait (at_phase s) then 1 else 0)%nat ∧
  ∀ l, can l s → (∃ s', step s l s') ∨ (∃ fuel, l = LTry fuel) ∧ exec_label l s = Crash Diverges.
Proof using event_valid fd_valid.
  intros He Hs. destruct (enters_ok s0 He) as [a0 Hc0]. destruct (steps_ok _ _ _ _ Hc0 Hs) as [a Hc]. split.
  - rewrite (held_pending _ a), occ_pending by apply Hc. apply Hc.
  - intros l Hl. destruct (label_ok l s a Hc Hl) as [(s' & _ & E & _)|?]; [left; by exists s'|by right].
Qed.

(** C17: Timeouts end the wait.  A sleeping call with a time limit that no callback of
    its timers has marked yet has the callback of its timer left, and this marks it,
    makes the fiber run again and return -1 with [ETIMEDOUT], if [epoll_ctl] lets it
    cancel the event.  A call that is marked when it goes to sleep may sleep on
    ([stale_timer_hangs], [early_timer_hangs]). *)
Theorem do_io_times_out s0 ls s removed : enters s0 → steps s0 ls s →
  at_phase s = Asleep → to s ≠ no_timeout → cancelled s = 0 →
  ∃ s1 s2 s3, step s LFire s1 ∧ step s1 (LCancel 0) s2 ∧ step s2 (LResume removed) s3 ∧ at_phase s3 = Finished (-1) ∧ errno s3 = ETIMEDOUT.
Proof using event_valid fd_valid.
  intros He Hs Hp Ht Hcan. destruct (enters_ok s0 He) as [a0 Hc0]. destruct (steps_ok _ _ _ _ Hc0 Hs) as [a [Hr Hown Hone Hal Htm]].
  rewrite Hp in *. specialize (Htm eq_refl Ht Hcan). cbn in Hal, Hone.
  set (sf := set_cancelling (S (cancelling s)) (set_tinfo (to s) ETIMEDOUT true (set_timer (timer s) (pred (outstanding s)) s))).
  set (sc := set_cancelling (cancelling s) sf).
  destruct (cancel_own 0 sc a Hr Hown) as (w & a' & b & E & Hw & Ho' & Hh & Hm). specialize (Hm eq_refl). rewrite Hm in Hh.
  change (0 + occ (scheduled w) = held_by (mine a) + occ (scheduled (iom s)))%nat in Hh. rewrite Hone in Hh.
  destruct (remove_first me (scheduled w)) as [l|] eqn:Hl; [|apply remove_first_none in Hl; lia].
  assert (step s LFire sf) as S1.
  { split; [exact Htm|]. cbn [exec_label]. unfold fire. rewrite bind_modify, bind_gets. unfold id. cbn [alive cancelled set_timer].
    rewrite Hal, Hcan. cbn [negb orb Z.eqb]. unfold modify, sf. cbn [alive to cancelling set_timer]. by rewrite Hal. }
  assert (step sf (LCancel 0) (set_iom w sc)) as S2.
  { split; [exact (Nat.lt_0_succ _)|]. cbn [exec_label]. unfold fire_cancel. rewrite bind_modify. change (set_cancelling _ sf) with sc. by rewrite (bind_Ret _ _ _ _ _ E). }
  exists sf, (set_iom w sc). eexists. split; [exact S1|]. split; [exact S2|]. split; [split; [|reflexivity]|by split].
  split; [exact Hp|]. unfold task_waits. fold me. cbn [iom set_iom]. by rewrite Hl.
Qed.

(** ** Interrupted calls *)
(** The kernel after so many calls of the function. *)
Fixpoint calls (n : nat) (k : K) : K := match n with O => k | S n => calls n (sys k).2 end.
Definition interrupted (k : K) : Prop := (sys k).1 = (-1, EINTR).

Lemma call_fun_eq s : let '(n, e, k) := sys (kern (fds s)) in
  call_fun sys s = Ret n (outside (mkWorld k (m_data (fds s))) (if n =? -1 then e else errno s) s).
Proof using.
  unfold call_fun, on_fds, call, bind. destruct (sys (kern (fds s))) as [[n e] k]. cbn. by destruct (n =? -1).
Qed.
Lemma outside_twice w e w' e' s : outside w e (outside w' e' s) = outside w e s.
Proof using. done. Qed.

Lemma repeats m : ∀ fuel s, let k := calls m (kern (fds s)) in let '(n, e, k') := sys k in
  (∀ i, (i < m)%nat → interrupted (calls i (kern (fds s)))) → ¬ interrupted k → (m < fuel)%nat →
  (let* n := call_fun sys in eintr_loop sys fuel n) s
  = Ret n (outside (mkWorld k' (m_data (fds s))) (if n =? -1 then e else if (m =? 0)%nat then errno s else EINTR) s).
Proof using.
  induction m as [|m IH]; intros fuel s; cbn [calls].
  - pose proof (call_fun_eq s) as E. unfold interrupted. destruct (sys (kern (fds s))) as [[n e] k'] eqn:Ek. intros _ Hi Hf.
    rewrite (bind_Ret _ _ _ _ _ E). destruct fuel as [|fuel]; [lia|]. cbn [eintr_loop]. rewrite bind_gets.
    cbn [errno outside set_errno]. destruct (Z.eqb_spec n (-1)) as [->|]; [|done].
    rewrite (proj2 (Z.eqb_neq e EINTR)); [done|]. intros ->. by apply Hi.
  - pose proof (call_fun_eq s) as E. destruct (sys (calls m (sys (kern (fds s))).2)) as [[n e] k'] eqn:Ek. intros Hint Hi Hf.
    pose proof (Hint 0%nat ltac:(lia)) as H0'. unfold interrupted in H0'. cbn [calls] in H0'.
    destruct (sys (kern (fds s))) as [[n1 e1] k1] eqn:E1. cbn in H0'. injection H0' as -> ->.
    rewrite (bind_Ret _ _ _ _ _ E). destruct fuel as [|fuel]; [lia|]. cbn [eintr_loop]. rewrite bind_gets.
    rewrite !Z.eqb_refl. cbn [errno outside set_errno]. set (s1 := outside _ _ s). cbv beta iota. rewrite ?Z.eqb_refl. cbn [andb].
    specialize (IH fuel s1). cbv zeta in IH. change (kern (fds s1)) with k1 in IH. cbn [snd] in Ek. rewrite Ek in IH.
    rewrite IH; [|intros i Hlt; pose proof (Hint (S i) ltac:(lia)) as Hn; cbn [calls] in Hn; by rewrite E1 in Hn|done|lia].
    unfold s1. rewrite outside_twice. by destruct (n =? -1), m.
Qed.

(** Interrupted calls are repeated.  When the first [m] calls of the
    original function fail with [EINTR] and the next one does not, the loop of the
    hook ends, with exactly the result, the [errno] and the effect of that one. *)
Theorem do_io_repeats_interrupted m fuel s n e k' : sys (calls m (kern (fds s))) = (n, e, k') →
  (∀ i, (i < m)%nat → interrupted (calls i (kern (fds s)))) → (n, e) ≠ (-1, EINTR) → (m < fuel)%nat →
  (let* n := call_fun sys in eintr_loop sys fuel n) s
  = Ret n (outside (mkWorld k' (m_data (fds s))) (if n =? -1 then e else if (m =? 0)%nat then errno s else EINTR) s).
Proof using.
  intros Ek Hi Hn Hf. pose proof (repeats m fuel s) as Hr. cbv zeta in Hr. unfold interrupted at 2 in Hr. rewrite Ek in Hr. by apply Hr.
Qed.
End call.

(** ** A call on a socket that is ready at the second attempt *)
Definition late_read (k : files) : Z * Z * files :=
  if next_fd k =? 0 then (-1, EINTR, mkFiles (open_files k) 1)
  else if next_fd k =? 1 then (-1, EAGAIN, mkFiles (open_files k) 2)
  else (5, 0, k).
Definition a_socket : FdCtx := mkFdCtx true true true false false 3 1000 no_timeout.
Definition entered : hook files :=
  mkHook (mkWorld (mkFiles ∅ 0) (<[3%nat := Some a_socket]> (replicate 64 None))) IOManager_new 0 Begin 0 0 false false 0 0.
(** The state behind a label. *)
Definition then_ (l : label) (s : hook files) : hook files :=
  match exec_label true 3 READ 1 7 SO_RCVTIMEO late_read l s with Ret _ s' => s' | _ => s end.
Definition asleep : hook files := then_ LYield (then_ (LAdd 0 true) (then_ (LTry 5) (then_ LBegin entered))).

Lemma entered_enters : enters (K := files) 3 READ 1 7 entered.
Proof.
  split_and!; [done|done|done|]. exists no_handlers. split_and!; [exact repr_new|done|].
  intros i x ev Hx _. unfold no_handlers in Hx. apply lookup_replicate in Hx as [-> _]. unfold get_slot. by destruct (_ =? _).
Qed.
Lemma entered_asleep : steps true 3 READ 1 7 SO_RCVTIMEO late_read entered [LBegin; LTry 5; LAdd 0 true; LYield] asleep.
Proof.
  eapply steps_cons; [by split; [|vm_compute]|]. eapply steps_cons; [by split; [|vm_compute]|]. eapply steps_cons; [by split; [|vm_compute]|].
  eapply steps_cons; [by split; [|vm_compute]|]. apply steps_nil.
Qed.

Lemma do_io_waits_once_witness :
  (occ 1 7 (held_handlers (iom asleep)) + occ 1 7 (scheduled (iom asleep)) = 1)%nat ∧
  ∀ l, can (K := files) 3 READ 1 7 l asleep →
    (∃ s', step true 3 READ 1 7 SO_RCVTIMEO late_read asleep l s') ∨
    (∃ fuel, l = LTry fuel) ∧ exec_label true 3 READ 1 7 SO_RCVTIMEO late_read l asleep = Crash Diverges.
Proof. apply (do_io_waits_once true 3 READ 1 7 SO_RCVTIMEO late_read (or_introl eq_refl) ltac:(lia) _ _ _ entered_enters entered_asleep). Defined.

Lemma do_io_times_out_witness : ∃ s1 s2 s3,
  step true 3 READ 1 7 SO_RCVTIMEO late_read asleep LFire s1 ∧ step true 3 READ 1 7 SO_RCVTIMEO late_read s1 (LCancel 0) s2 ∧
  step true 3 READ 1 7 SO_RCVTIMEO late_read s2 (LResume false) s3 ∧ at_phase s3 = Finished (-1) ∧ errno s3 = ETIMEDOUT.
Proof.
  apply (do_io_times_out true 3 READ 1 7 SO_RCVTIMEO late_read (or_introl eq_refl) ltac:(lia) _ _ _ false entered_enters entered_asleep);
    [by vm_compute|by vm_compute|by vm_compute].
Defined.

Lemma do_io_repeats_interrupted_witness :
  (let* n := call_fun late_read in eintr_loop late_read 2 n) entered
  = Ret (-1) (outside (mkWorld (mkFiles ∅ 2) (m_data (fds entered))) EAGAIN entered).
Proof.
  apply (do_io_repeats_interrupted late_read 1 2 entered (-1) EAGAIN (mkFiles ∅ 2)); [reflexivity| |done|lia].
  intros i Hi. destruct i; [reflexivity|lia].
Defined.

(** ** Where the code departs from its purpose *)

(** The callback of a timer that [cancel] came too late for marks the call as
    timed out although the fiber runs already; the timer of the next wait then
    does nothing: the fiber sleeps beyond its time limit. *)
Definition retries : hook files := then_ (LResume false) (then_ (LOther (OReady 0 3 EPOLLIN)) asleep).
Definition marked : hook files := then_ (LCancel 0) (then_ LFire retries).
(** A socket that is not ready for longer. *)
Definition sleeps_again : hook files :=
  then_ LYield (then_ (LAdd 0 true) (then_ (LTry 5) (set_fds (mkWorld (mkFiles ∅ 1) (m_data (fds marked))) marked))).
Lemma stale_timer_hangs :
  at_phase retries = Trying ∧ cancelled retries = 0 ∧ cancelled marked = ETIMEDOUT ∧ at_phase sleeps_again = Asleep ∧
  let s := then_ LFire sleeps_again in at_phase s = Asleep ∧ outstanding s = 0%nat ∧ cancelling s = 0%nat ∧ task_waits 1 7 s = false.
Proof. vm_compute. done. Qed.
(** The same when the timer is faster than [addEvent]: there is nothing to cancel yet,
    and the fiber goes to sleep with no timer. *)
Lemma early_timer_hangs :
  let s := then_ LYield (then_ (LAdd 0 true) (then_ (LCancel 0) (then_ LFire (then_ (LTry 5) (then_ LBegin entered))))) in
  at_phase s = Asleep ∧ to s = 1000 ∧ outstanding s = 0%nat ∧ cancelling s = 0%nat ∧ task_waits 1 7 s = false.
Proof. vm_compute. done. Qed.

(** When the timer or the kernel is faster than [YieldToHold], the fiber stands in
    the queue of its scheduler while it still runs. *)
Lemma queued_while_running :
  let s := then_ (LCancel 0) (then_ LFire (then_ (LAdd 0 true) (then_ (LTry 5) (then_ LBegin entered)))) in at_phase s = Added ∧ task_waits 1 7 s = true.
Proof. vm_compute. done. Qed.

(** When [addEvent] fails, [connect] asks for the error of the socket, which has
    none yet: it answers 0 although the connection is not there. *)
Definition pending_connect (k : files) : Z * Z * files := (-1, EINPROGRESS, k).
Lemma connect_reports_success :
  match (connect_begin true 3 pending_connect 5000 ;;; connect_add 3 1 7 (λ _, (0, 0)) (-1) true) entered with
  | Ret _ s => at_phase s = Finished 0
  | _ => False
  end.
Proof. by vm_compute. Qed.

(** Long sleeps are short, or endless. *)
Lemma sleep_wraps : sleep_ms 4294968 = 704 ∧ nanosleep_ms 2147484 0 = 2 ^ 64 - 2147483296.
Proof. by vm_compute. Qed.
