(* ===== verification/Sleep.v ===== *)
(** * Sleep: fibers that sleep ([src/hook.cpp]: [sleep], [usleep], [nanosleep])

    A hooked sleep adds a timer whose callback schedules the calling fiber, and then
    yields: two steps, between which the timer may be due and its callback may run.
    The timers and events are those of [Idle]: the idle fiber of some thread waits,
    collects the callbacks of due timers and schedules them one by one; a worker that
    takes one from the queue schedules the fiber, and a worker that takes the fiber
    goes on behind [YieldToHold].  [asleep] lists the fibers in between, with the time
    their timer was set for, [yielding] those of them that are still on their threads,
    and [collected] the callbacks that idle fibers have collected and not yet
    scheduled.  [seen] and [went_back], the latest time at which due timers were
    collected and whether the clock was then found set back, are read by the theorems
    only. *)
From S2P Require Import Prelude OrderedSet Hook IOManager IOManagerTheorems Timer TimerTheorems Idle.

Record sleepers := mkSleepers {
  idl : idler; asleep : list (Z * Z); yielding : list Z; collected : list handler; seen : Z; went_back : bool
}.
Definition set_idl v s := mkSleepers v (asleep s) (yielding s) (collected s) (seen s) (went_back s).
Definition set_asleep v s := mkSleepers (idl s) v (yielding s) (collected s) (seen s) (went_back s).
Definition set_yielding v s := mkSleepers (idl s) (asleep s) v (collected s) (seen s) (went_back s).
Definition set_collected v s := mkSleepers (idl s) (asleep s) (yielding s) v (seen s) (went_back s).
Definition set_seen t b s := mkSleepers (idl s) (asleep s) (yielding s) (collected s) t b.
Definition on_idler {A} (m : ST idler A) : ST sleepers A := λ s,
  match m (idl s) with Ret a i => Ret a (set_idl i s) | Throw e i => Throw e (set_idl i s) | Crash f => Crash f end.

(** Callbacks are named by numbers.  [wake_cb f] names
    [std::bind(&IOManager::schedule, iom, f, -1)] and the lambda of [nanosleep], and
    [wakes] tells such callbacks from all others. *)
Class WakeCbs := { wake_cb : Z → Z; wakes : Z → option Z; wakes_cb f : wakes (wake_cb f) = Some f }.

Section sleep.
Context `{WakeCbs}.
(** The original functions, for threads that are not hooked, and the number of the [IOManager]. *)
Context (sleep_f usleep_f : Z → Z) (nanosleep_f : Z → Z → Z) (self : Z).

(** [addTimer(ms, ...)]: fiber [f], its timer at [p]; [iom_here]: whether the thread
    runs the [IOManager] ... *)
Definition set_alarm (iom_here : bool) (ms f p now : Z) : ST sleepers unit :=
  if negb iom_here then crash NullDeref
  else
    let* _ := on_idler (on_timers (addTimer p ms (Some (wake_cb f)) false now)) in
    modify (λ s, set_yielding (f :: yielding s) (set_asleep ((f, u64 (now + ms)) :: asleep s) s)).
(** ... and [YieldToHold]: the fiber leaves its thread. *)
Definition hold (f : Z) : ST sleepers unit := modify (λ s, set_yielding (filter (λ g, g ≠ f) (yielding s)) s).

(** Up to [YieldToHold]: a result, or [None] when the fiber is about to yield. *)
Definition sleep (enabled iom_here : bool) (seconds f p now : Z) : ST sleepers (option Z) :=
  if negb enabled then ret (Some (sleep_f seconds))
  else set_alarm iom_here (sleep_ms seconds) f p now ;;; ret None.
Definition usleep (enabled iom_here : bool) (usec f p now : Z) : ST sleepers (option Z) :=
  if negb enabled then ret (Some (usleep_f usec))
  else set_alarm iom_here (usleep_ms usec) f p now ;;; ret None.
Definition nanosleep (enabled iom_here : bool) (tv_sec tv_nsec f p now : Z) : ST sleepers (option Z) :=
  if negb enabled then ret (Some (nanosleep_f tv_sec tv_nsec))
  else if negb (nanosleep_fits tv_sec tv_nsec) then crash UndefinedArith
  else set_alarm iom_here (nanosleep_ms tv_sec tv_nsec) f p now ;;; ret None.

(** A worker takes a task from the queue. *)
Definition take_queued (t : task) : ST sleepers unit :=
  modify (λ s, let w := io (idl s) in
    set_idl (mkIdler (timers (idl s)) (set_scheduled (default (scheduled w) (remove_first (self, t) (scheduled w))) w) (waited (idl s))) s).
Definition schedule_task (t : task) : ST sleepers unit := on_idler (on_io (schedule self (Some t))).
(** The callback of a sleep's timer, run by a worker. *)
Definition ring (c : Z) : ST sleepers unit :=
  match wakes c with Some f => schedule_task (TaskFiber f) | None => ret tt end.
(** Behind [YieldToHold] *)
Definition wake (f : Z) : ST sleepers Z :=
  modify (λ s, set_asleep (filter (λ x, x.1 ≠ f) (asleep s)) s) ;;; ret 0.

(** What the idle fiber of some thread does about timers. *)
Definition collect_due (now_addr now2 : Z) : ST sleepers unit :=
  let* back := gets (λ s, rolled (timers (idl s)) now2) in
  let* cbs := on_idler (collect now_addr now2) in
  modify (λ s, set_seen (Z.max (seen s) now2) (went_back s || back) (set_collected (collected s ++ tasks self cbs) s)).
Definition hand_over (c : Z) : ST sleepers unit :=
  modify (λ s, set_collected (default (collected s) (remove_first (self, TaskCb c) (collected s))) s) ;;;
  schedule_task (TaskCb c).

(** ** Histories
    What sleeping fibers, workers and idle fibers do, and what others do with the
    same timers, events (reported ones, too) and queue. *)
Inductive nap := Seconds (s : Z) | Micros (us : Z) | Timespec (s ns : Z).
Inductive slabel :=
  | LNap (n : nap) (f p now : Z)
  | LHold (f : Z)
  | LWait (stop : bool) (now1 : Z) (interrupts : nat)
  | LCollect (now_addr now2 : Z)
  | LHand (c : Z)
  | LRing (c : Z)
  | LWake (f : Z)
  | LTimer (o : Timer.op Z)
  | LEvent (o : IOManagerTheorems.op)
  | LSchedule (t : task)
  | LTake (t : task).

Definition nap_fits (n : nap) : bool := match n with Timespec s ns => nanosleep_fits s ns | _ => true end.
Definition nap_ms (n : nap) : Z :=
  match n with Seconds s => sleep_ms s | Micros us => usleep_ms us | Timespec s ns => nanosleep_ms s ns end.
Definition exec_nap (n : nap) (f p now : Z) : ST sleepers (option Z) :=
  match n with
  | Seconds s => sleep true true s f p now
  | Micros us => usleep true true us f p now
  | Timespec s ns => nanosleep true true s ns f p now
  end.
Definition exec_sleep (l : slabel) : ST sleepers unit :=
  match l with
  | LNap n f p now => let* _ := exec_nap n f p now in ret tt
  | LHold f => hold f
  | LWait stop now1 ints => let* _ := on_idler (turn_wait stop now1 ints) in ret tt
  | LCollect a now2 => collect_due a now2
  | LHand c => hand_over c
  | LRing c => take_queued (TaskCb c) ;;; ring c
  | LWake f => take_queued (TaskFiber f) ;;; let* _ := wake f in ret tt
  | LTimer o => let* _ := on_idler (on_timers (Timer.exec o)) in ret tt
  | LEvent o => let* _ := on_idler (on_io (IOManagerTheorems.exec o)) in ret tt
  | LSchedule t => schedule_task t
  | LTake t => take_queued t
  end.

(** What belongs to the sleeping fibers: nobody else has their timers' callbacks,
    or schedules them. *)
Definition sleeping (s : sleepers) : list Z := (asleep s).*1.
Definition owner (l : list Z) (t : task) : option Z :=
  match t with TaskCb c => wakes c | TaskFiber f => if decide (f ∈ l) then Some f else None end.
Definition queued (s : sleepers) (t : task) : Prop := (self, t) ∈ scheduled (io (idl s)).
Definition foreign_timer (o : Timer.op Z) (m : TimerManager Z) : Prop :=
  match o with
  | AddTimer _ _ cb _ _ => wakes cb = None
  | Cancel p | Refresh p _ | Reset p _ _ _ => ∀ t c, t_heap m !! p = Some t → m_cb t = Some c → wakes c = None
  | GetNextTimer _ => True
  | ListExpiredCb _ _ => False
  end.
Definition can_sleep (l : slabel) (s : sleepers) : Prop :=
  match l with
  | LNap n f p now => nap_fits n = true ∧ f ∉ sleeping s ∧ t_heap (timers (idl s)) !! p = None ∧
      (∀ sch, (sch, TaskFiber f) ∉ scheduled (io (idl s))) ∧ ∃ a, repr (io (idl s)) a ∧ ∀ sch, (sch, TaskFiber f) ∉ pending a
  | LHold f => f ∈ yielding s
  | LWait _ _ _ => True
  | LCollect now_addr _ => t_heap (timers (idl s)) !! now_addr = None
  | LHand c => (self, TaskCb c) ∈ collected s
  | LRing c => is_Some (wakes c) ∧ queued s (TaskCb c)
  | LWake f => f ∈ sleeping s ∧ f ∉ yielding s ∧ queued s (TaskFiber f)
  | LTimer o => op_ok o (timers (idl s)) ∧ foreign_timer o (timers (idl s))
  | LEvent o => (∃ a, repr (io (idl s)) a ∧ valid o a) ∧
      match o with OAdd cs cf _ _ _ f => owner (sleeping s) (handler_for cs cf f).2 = None | _ => True end
  | LSchedule t | LTake t => owner (sleeping s) t = None
  end.
Definition step_sleep (s : sleepers) (l : slabel) (s' : sleepers) : Prop := can_sleep l s ∧ exec_sleep l s = Ret tt s'.
Inductive naps : sleepers → list slabel → sleepers → Prop :=
  | naps_nil s : naps s [] s
  | naps_cons s l s1 ls s2 : step_sleep s l s1 → naps s1 ls s2 → naps s (l :: ls) s2.
End sleep.

(** ** Nobody oversleeps *)
Section facts.
Context `{WakeCbs} (sleep_f usleep_f : Z → Z) (nanosleep_f : Z → Z → Z) (self : Z).
Local Notation exec_sleep := (exec_sleep sleep_f usleep_f nanosleep_f self).
Local Notation step_sleep := (step_sleep sleep_f usleep_f nanosleep_f self).
Local Notation naps := (naps sleep_f usleep_f nanosleep_f self).

(** *** The alarms in the heap of timers *)
Definition alarm_of (t : Timer Z) : option (Z * Z) := c ← m_cb t; f ← wakes c; Some (f, m_next t).
Definition alarms (h : gmap Z (Timer Z)) : gmap Z (Z * Z) := omap alarm_of h.
Definition ringing (h : gmap Z (Timer Z)) : list (Z * Z) := (map_to_list (alarms h)).*2.

Lemma alarms_lookup h p : alarms h !! p = h !! p ≫= alarm_of.
Proof using. apply lookup_omap. Qed.
Lemma alarms_same h h' : (∀ p, h' !! p ≫= alarm_of = h !! p ≫= alarm_of) → alarms h' = alarms h.
Proof using. intros E. apply map_eq. intros p. by rewrite !alarms_lookup. Qed.
Lemma alarms_new h p t : h !! p = None → alarms (<[p := t]> h) = match alarm_of t with Some x => <[p := x]> (alarms h) | None => alarms h end.
Proof using.
  intros Hp. apply map_eq. intros q. rewrite alarms_lookup. destruct (decide (p = q)) as [<-|Hn].
  - rewrite lookup_insert_eq. cbn. destruct (alarm_of t); [by rewrite lookup_insert_eq|]. by rewrite alarms_lookup, Hp.
  - rewrite lookup_insert_ne by done. destruct (alarm_of t); [rewrite lookup_insert_ne by done|]; by rewrite alarms_lookup.
Qed.
Lemma ringing_new h p t x : h !! p = None → alarm_of t = Some x → ringing (<[p := t]> h) ≡ₚ x :: ringing h.
Proof using.
  intros Hp Ht. unfold ringing. rewrite alarms_new, Ht by done. rewrite map_to_list_insert; [done|]. by rewrite alarms_lookup, Hp.
Qed.

(** Taking the entries of some keys out of a map. *)
Lemma values_without {A} (ps : list Z) : ∀ m m' : gmap Z A, NoDup ps → (∀ q, m' !! q = if decide (q ∈ ps) then None else m !! q) →
  (map_to_list m).*2 ≡ₚ omap (m !!.) ps ++ (map_to_list m').*2.
Proof using.
  induction ps as [|p ps IH]; intros m m' Hnd Hm.
  - cbn. assert (m' = m) as -> by (apply map_eq; intros q; rewrite Hm, decide_False by apply not_elem_of_nil; done). done.
  - apply NoDup_cons in Hnd as [Hp Hnd]. rewrite (IH m (match m !! p with Some x => <[p := x]> m' | None => m' end)); [|done|].
    + cbn. destruct (m !! p) as [x|] eqn:Ex; [|done]. rewrite map_to_list_insert by (rewrite Hm, decide_True by left; done).
      cbn. by rewrite <- Permutation_middle.
    + intros q. destruct (decide (q = p)) as [->|Hq].
      * rewrite (decide_False (P := p ∈ ps)) by done. destruct (m !! p) eqn:Ex; [by rewrite lookup_insert_eq|].
        rewrite Hm, decide_True by left. done.
      * assert ((match m !! p with Some x => <[p := x]> m' | None => m' end) !! q = m' !! q) as ->
          by (destruct (m !! p); [by rewrite lookup_insert_ne|done]).
        rewrite Hm. destruct (decide (q ∈ ps)); [rewrite decide_True by (by right); done|].
        rewrite decide_False; [done|]. by intros [?|?]%elem_of_cons.
Qed.

(** *** The queue *)
Lemma remove_first_perm x l : x ∈ l → ∃ l', remove_first x l = Some l' ∧ l ≡ₚ x :: l'.
Proof using.
  induction l as [|y l IH]; [by intros ?%elem_of_nil|]. intros Hin. cbn [remove_first]. case_bool_decide as E; [subst; by eexists|].
  apply elem_of_cons in Hin as [->|Hin]; [done|]. destruct (IH Hin) as (l' & -> & Hp). eexists. split; [done|].
  rewrite Hp. apply Permutation_swap.
Qed.
Lemma remove_first_default x l : default l (remove_first x l) = l ∨ x :: default l (remove_first x l) ≡ₚ l.
Proof using.
  destruct (remove_first x l) as [l'|] eqn:E; [|by left]. right. cbn. revert l' E. induction l as [|y l IH]; intros l'; [done|].
  cbn [remove_first]. case_bool_decide as Ey; [intros [= <-]; by subst|]. destruct (remove_first x l) as [l1|]; [|done].
  intros [= <-]. rewrite Permutation_swap. f_equiv. by apply IH.
Qed.
Definition owners (l : list Z) (q : list handler) : list Z := omap (owner l ∘ snd) q.
Lemma owners_app l q1 q2 : owners l (q1 ++ q2) = owners l q1 ++ owners l q2.
Proof using. apply omap_app. Qed.
Lemma owners_none l q : Forall (λ x, owner l x.2 = None) q → owners l q = [].
Proof using. induction 1 as [|x q Hx _ IH]; [done|]. cbn. by rewrite Hx. Qed.
#[export] Instance owners_proper l : Proper ((≡ₚ) ==> (≡ₚ)) (owners l).
Proof using. intros q1 q2 E. unfold owners. by rewrite E. Qed.
(** A fiber that no entry is about. *)
Definition silent (f : Z) (q : list handler) : Prop := ∀ sch, (sch, TaskFiber f) ∉ q.
Lemma owner_other f l t : t ≠ TaskFiber f → owner (f :: l) t = owner l t.
Proof using.
  intros Hn. destruct t as [g|c]; [|done]. cbn. assert (g ≠ f) by congruence. destruct (decide (g ∈ l)).
  - by rewrite decide_True by (by right).
  - rewrite decide_False; [done|]. by intros [?|?]%elem_of_cons.
Qed.
Lemma silent_other f q x : silent f q → x ∈ q → x.2 ≠ TaskFiber f.
Proof using. destruct x as [sch t]. cbn. intros Hs Hin ->. by apply (Hs sch). Qed.
Lemma owners_silent f l q : silent f q → owners (f :: l) q = owners l q.
Proof using.
  intros Hs. assert (∀ x, x ∈ q → x.2 ≠ TaskFiber f) as Hx by (intros x; by apply silent_other). clear Hs.
  induction q as [|x q IH]; [done|]. cbn. rewrite (owner_other f l x.2) by (apply Hx; left). fold (owners (f :: l) q) (owners l q).
  rewrite IH by (intros; apply Hx; by right). done.
Qed.

(** *** The invariant *)
(** What is on its way to a worker. *)
Definition transit (s : sleepers) : list handler := collected s ++ scheduled (io (idl s)).
Record sleep_ok (s : sleepers) (a : list slots) (rung : list (Z * Z)) : Prop := {
  so_timers : inv (timers (idl s));
  so_io : repr (io (idl s)) a;
  so_once : NoDup (sleeping s);
  so_single p t c f : t_heap (timers (idl s)) !! p = Some t → m_cb t = Some c → wakes c = Some f → m_recurring t = false;
  so_pending : Forall (λ x, owner (sleeping s) x.2 = None) (pending a);
  so_self : Forall (λ x, is_Some (owner (sleeping s) x.2) → x.1 = self) (transit s);
  so_collected : Forall (λ x, ∃ c, x = (self, TaskCb c)) (collected s);
  so_all : ringing (t_heap (timers (idl s))) ++ rung ≡ₚ asleep s;
  so_queue : owners (sleeping s) (transit s) ≡ₚ rung.*1;
  so_time : Forall (λ x, x.2 ≤ seen s ∨ went_back s = true) rung
}.

Lemma owner_in s a rung x f : sleep_ok s a rung → x ∈ transit s → owner (sleeping s) x.2 = Some f →
  x.1 = self ∧ ∃ u, (f, u) ∈ rung ∧ (f, u) ∈ asleep s.
Proof using.
  intros Hok Hx Hf. split; [exact (proj1 (Forall_forall _ _) (so_self _ _ _ Hok) x Hx (ex_intro _ f Hf))|].
  assert (f ∈ rung.*1) as Hr by (rewrite <- (so_queue _ _ _ Hok); apply list_elem_of_omap; by exists x).
  apply list_elem_of_fmap in Hr as ([g u] & -> & Hin). exists u. split; [done|].
  rewrite <- (so_all _ _ _ Hok). apply elem_of_app. by right.
Qed.

(** A fiber lies down. *)
Lemma nap_ok n f p now s a rung : sleep_ok s a rung → can_sleep self (LNap n f p now) s →
  ∃ s', exec_sleep (LNap n f p now) s = Ret tt s' ∧ asleep s' = (f, u64 (now + nap_ms n)) :: asleep s ∧ ∃ a rung, sleep_ok s' a rung.
Proof using.
  intros Hok (Hfits & Hf & Hp & Hq & a' & Ha' & Hs). rewrite (repr_unique _ _ _ Ha' (so_io _ _ _ Hok)) in Hs. clear a' Ha'.
  assert (silent f (transit s)) as Hq'.
  { intros sch [Hin|Hin]%elem_of_app; [|by apply (Hq sch)]. pose proof (proj1 (Forall_forall _ _) (so_collected _ _ _ Hok) _ Hin) as [c Hc]. done. }
  destruct Hok as [Ht Hi Hn Hsing Hpend Hself Hcol Hall Hqueue Htime].
  destruct (addTimer_spec (timers (idl s)) p (nap_ms n) (wake_cb f) false now Ht Hp) as (tm & E & Htm & Hh & _). cbn in Hh.
  set (u := u64 (now + nap_ms n)).
  assert (alarm_of (Timer_new (nap_ms n) (Some (wake_cb f)) false now) = Some (f, u)) as Hal by (unfold alarm_of; cbn; by rewrite wakes_cb).
  exists (set_yielding (f :: yielding s) (set_asleep ((f, u) :: asleep s) (set_idl (mkIdler tm (io (idl s)) (waited (idl s))) s))). split; [|split; [done|]].
  { assert (set_alarm true (nap_ms n) f p now s = Ret tt (set_yielding (f :: yielding s) (set_asleep ((f, u) :: asleep s) (set_idl (mkIdler tm (io (idl s)) (waited (idl s))) s)))) as Ea.
    { unfold set_alarm. cbn [negb]. unfold on_idler, on_timers, bind. by rewrite E. }
    destruct n; cbn [exec_sleep exec_nap nap_ms nap_fits] in *; unfold sleep, usleep, nanosleep; rewrite ?Hfits; cbn [negb]; unfold bind; by rewrite Ea. }
  exists a, rung. constructor; cbn [idl asleep seen went_back set_asleep set_yielding set_idl timers io waited collected]; try done; unfold sleeping; cbn [asleep set_asleep set_yielding fmap list_fmap fst].
  - apply NoDup_cons. done.
  - intros q t c g. rewrite Hh. destruct (decide (p = q)) as [<-|Hpq]; [rewrite lookup_insert_eq; by intros [= <-]|].
    rewrite lookup_insert_ne by done. apply Hsing.
  - rewrite Forall_forall in Hpend |- *. intros x Hx. rewrite owner_other by (by apply (silent_other f (pending a))). by apply Hpend.
  - rewrite Forall_forall in Hself |- *. intros x Hx. rewrite owner_other by (by apply (silent_other f (transit s))). by apply Hself.
  - rewrite Hh, (ringing_new _ _ _ _ Hp Hal), <- Hall. done.
  - rewrite owners_silent by done. exact Hqueue.
Qed.

(** Time passes: the callbacks of due timers, and nobody else's, go to the queue. *)
Lemma owners_callbacks l h ps : owners l (tasks self (callbacks h ps)) = (omap (alarms h !!.) ps).*1.
Proof using.
  induction ps as [|p ps IH]; [done|]. unfold tasks, callbacks in *. cbn. rewrite alarms_lookup. unfold alarm_of.
  destruct (h !! p) as [t|]; cbn; [|exact IH]. destruct (m_cb t) as [c|]; cbn; [|exact IH]. destruct (wakes c) as [f|]; cbn; [|exact IH].
  f_equal. exact IH.
Qed.
Lemma alarms_fired s a rung now (ps : list Z) tm : sleep_ok s a rung →
  (∀ q, t_heap tm !! q = if decide (q ∈ ps) then fired now <$> t_heap (timers (idl s)) !! q else t_heap (timers (idl s)) !! q) →
  ∀ q, alarms (t_heap tm) !! q = if decide (q ∈ ps) then None else alarms (t_heap (timers (idl s))) !! q.
Proof using.
  intros Hok Hh q. rewrite !alarms_lookup, Hh. destruct (decide (q ∈ ps)); [|done].
  destruct (t_heap (timers (idl s)) !! q) as [t|] eqn:Hq; [|done]. cbn. unfold fired. destruct (m_recurring t) eqn:Hr; [|done].
  unfold alarm_of. cbn. destruct (m_cb t) as [c|] eqn:Hc; [|done]. cbn. destruct (wakes c) as [f|] eqn:Hw; [|done].
  by rewrite (so_single _ _ _ Hok q t c f) in Hr.
Qed.
Lemma Forall_kept {A : Type} (P : A → Prop) l1 l2 l3 l : l1 ++ l2 ++ l3 ≡ₚ l → Forall P l → Forall P l1 ∧ Forall P l2.
Proof using. intros E Hl. rewrite <- E, !Forall_app in Hl. by destruct Hl as (? & ? & _). Qed.
Lemma expired_alarms s a rung now_addr now x : sleep_ok s a rung → t_heap (timers (idl s)) !! now_addr = None →
  x ∈ omap (alarms (t_heap (timers (idl s))) !!.) (expired_prefix (timers (idl s)) now_addr now) →
  x.2 ≤ now ∨ rolled (timers (idl s)) now = true.
Proof using.
  intros Hok Ha (p & Hp & Hx)%list_elem_of_omap. apply (elem_of_expired_prefix _ _ _ _ (so_timers _ _ _ Hok) Ha) in Hp as [_ [Hr|Hd]]; [by right|left].
  rewrite alarms_lookup in Hx. destruct (t_heap (timers (idl s)) !! p) as [t|] eqn:Ht; [|done]. cbn in Hx. unfold alarm_of in Hx.
  destruct (m_cb t) as [c|]; [|done]. cbn in Hx. destruct (wakes c); [|done]. injection Hx as <-. cbn.
  unfold due, next_at in Hd. rewrite Ht in Hd. cbn in Hd. lia.
Qed.

Lemma collect_ok now_addr now2 s a rung : sleep_ok s a rung → can_sleep self (LCollect now_addr now2) s →
  ∃ s' rung', exec_sleep (LCollect now_addr now2) s = Ret tt s' ∧ asleep s' = asleep s ∧ sleep_ok s' a rung' ∧
    ∀ f u, (f, u) ∈ asleep s → u < now2 → (f, u) ∈ rung'.
Proof using.
  intros Hok Ha. cbn in Ha. destruct (collect_runs (idl s) (so_timers _ _ _ Hok) now_addr now2 Ha) as (tm & E & Htm & Hh).
  set (ps := expired_prefix (timers (idl s)) now_addr now2) in *. set (h := t_heap (timers (idl s))) in *.
  assert (NoDup ps) as Hps by (apply (sorted_NoDup (earlier h)), sorted_expired_prefix, Hok).
  pose proof (values_without ps _ _ Hps (alarms_fired s a rung now2 ps tm Hok Hh)) as Hval. fold h (ringing h) (ringing (t_heap tm)) in Hval.
  set (new := omap (alarms h !!.) ps) in *.
  exists (set_seen (Z.max (seen s) now2) (went_back s || rolled (timers (idl s)) now2)
    (set_collected (collected s ++ tasks self (callbacks h ps)) (set_idl (mkIdler tm (io (idl s)) (waited (idl s))) s))).
  exists (new ++ rung). split; [|split; [done|split]].
  - cbn [exec_sleep]. unfold collect_due. rewrite bind_gets. unfold on_idler, bind. by rewrite E.
  - pose proof (expired_alarms s a rung now_addr now2) as Hexp. destruct Hok as [Ht Hi Hn Hsing Hpend Hself Hcol Hall Hqueue Htime].
    assert (transit (set_seen (Z.max (seen s) now2) (went_back s || rolled (timers (idl s)) now2)
      (set_collected (collected s ++ tasks self (callbacks h ps)) (set_idl (mkIdler tm (io (idl s)) (waited (idl s))) s)))
      ≡ₚ tasks self (callbacks h ps) ++ transit s) as Htr by (unfold transit; cbn; solve_Permutation).
    constructor; cbn [idl asleep seen went_back set_seen set_collected set_idl timers io collected]; try done.
    * intros q u c f Hq Hcb Hwk. rewrite Hh in Hq. destruct (decide (q ∈ ps)); [|by apply (Hsing q u c f)].
      destruct (h !! q) as [t0|] eqn:Hq0; [|done]. cbn in Hq. injection Hq as <-. unfold fired in *. destruct (m_recurring t0) eqn:Hr; [|done].
      cbn in Hcb. by rewrite (Hsing q t0 c f) in Hr.
    * rewrite Htr, Forall_app. split; [|done]. unfold tasks. by apply Forall_fmap, Forall_true.
    * apply Forall_app. split; [done|]. unfold tasks. apply Forall_fmap, Forall_true. intros c. by exists c.
    * rewrite <- Hall; fold h; rewrite Hval. solve_Permutation.
    * rewrite Htr, owners_app, fmap_app. unfold sleeping in *. cbn [asleep set_seen set_collected set_idl].
      by rewrite Hqueue, owners_callbacks.
    * apply Forall_app. split.
      -- apply Forall_forall. intros x Hx. rewrite orb_true_iff. destruct (Hexp x) as [?|?]; [by constructor|done|done|left; lia|by right; right].
      -- eapply Forall_impl; [exact Htime|]. intros x [?|Hb]; cbn; [left; lia|right; by rewrite Hb].
  - intros f u Hin Hu. apply elem_of_app. rewrite <- (so_all _ _ _ Hok), elem_of_app in Hin. destruct Hin as [Hin|?]; [|by right]. left.
    unfold ringing in Hin. apply list_elem_of_fmap in Hin as ([p x] & Hx & Hin). cbn in Hx. subst x. apply elem_of_map_to_list in Hin.
    apply list_elem_of_omap. exists p. split; [|done]. apply (elem_of_expired_prefix _ _ _ _ (so_timers _ _ _ Hok) Ha).
    rewrite alarms_lookup in Hin. fold h in Hin. destruct (h !! p) as [t0|] eqn:Hp; [|done]. cbn in Hin. unfold alarm_of in Hin.
    destruct (m_cb t0) as [c|] eqn:Hcb; [|done]. cbn in Hin. destruct (wakes c); [|done]. injection Hin as -> <-.
    split; [exists t0; split; [done|by eexists]|]. right. left. unfold next_at. fold h. by rewrite Hp.
Qed.
(** The wait, and the end of the call's own steps. *)
Lemma wait_ok stop now1 ints s a rung : sleep_ok s a rung →
  ∃ s', exec_sleep (LWait stop now1 ints) s = Ret tt s' ∧ asleep s' = asleep s ∧ sleep_ok s' a rung.
Proof using.
  intros Hok. destruct (wait_runs (idl s) (so_timers _ _ _ Hok) stop now1 ints) as (t & b & _ & E & _).
  eexists. split; [cbn [exec_sleep]; unfold on_idler, bind; by rewrite E|]. split; [done|].
  destruct Hok. constructor; try done. by apply (inv_same_set (timers (idl s))).
Qed.
Lemma hold_ok f s a rung : sleep_ok s a rung → ∃ s', exec_sleep (LHold f) s = Ret tt s' ∧ asleep s' = asleep s ∧ idl s' = idl s ∧ f ∉ yielding s' ∧ sleep_ok s' a rung.
Proof using.
  intros Hok. eexists. split; [reflexivity|]. split; [done|]. split; [done|]. split; [|by destruct Hok]. cbn. intros Hin. apply list_elem_of_filter in Hin. by destruct Hin.
Qed.

(** Only the queue changes. *)
Definition requeued (q : list handler) (s : sleepers) : sleepers :=
  set_idl (mkIdler (timers (idl s)) (set_scheduled q (io (idl s))) (waited (idl s))) s.
Lemma requeue_ok q s a rung rung' : sleep_ok s a rung → rung ≡ₚ rung' →
  owners (sleeping s) (collected s ++ q) ≡ₚ rung'.*1 → Forall (λ x, is_Some (owner (sleeping s) x.2) → x.1 = self) (collected s ++ q) → sleep_ok (requeued q s) a rung'.
Proof using.
  intros [Ht Hi Hn Hsing Hpend Hself Hcol Hall Hqueue Htime] Hr Hq Hs. constructor; try done.
  - by apply repr_scheduled.
  - cbn. by rewrite <- Hr.
  - cbn. by rewrite <- Hr.
Qed.
Lemma schedule_task_runs t s : schedule_task self t s = Ret tt (requeued (scheduled (io (idl s)) ++ [(self, t)]) s).
Proof using. done. Qed.
Lemma take_queued_runs t s : take_queued self t s =
  Ret tt (requeued (default (scheduled (io (idl s))) (remove_first (self, t) (scheduled (io (idl s))))) s).
Proof using. done. Qed.
Lemma owners_cons l x q : owners l (x :: q) = option_list (owner l x.2) ++ owners l q.
Proof using. unfold owners. cbn. by destruct (owner l x.2). Qed.

(** A timer's callback schedules the fiber. *)
Lemma ring_ok c s a rung : sleep_ok s a rung → can_sleep self (LRing c) s →
  ∃ s' f, exec_sleep (LRing c) s = Ret tt s' ∧ wakes c = Some f ∧ asleep s' = asleep s ∧ queued self s' (TaskFiber f) ∧ sleep_ok s' a rung.
Proof using.
  intros Hok [[f Hf] Hq]. assert ((self, TaskCb c) ∈ transit s) as Hq' by (apply elem_of_app; by right).
  destruct (owner_in s a rung (self, TaskCb c) f Hok Hq' Hf) as [_ (u & _ & Hu)].
  assert (f ∈ sleeping s) as Hin by (apply list_elem_of_fmap; by exists (f, u)).
  destruct (remove_first_perm _ _ Hq) as (q & E & Hp). eexists _, f. split.
  { cbn [exec_sleep]. unfold bind at 1. rewrite take_queued_runs, E. unfold ring. rewrite Hf. apply schedule_task_runs. }
  split; [done|]. split; [done|]. split; [apply elem_of_app; right; left|].
  apply (requeue_ok (q ++ [(self, TaskFiber f)]) s a rung); [done|done| |].
  - rewrite <- (so_queue _ _ _ Hok). unfold transit. rewrite Hp, !owners_app, !owners_cons. cbn [snd owner]. rewrite Hf, decide_True by done. cbn.
    by rewrite (Permutation_app_comm (owners (sleeping s) q)).
  - pose proof (so_self _ _ _ Hok) as Hs. unfold transit in Hs. rewrite Hp in Hs. apply Forall_app in Hs as [Hs1 [_ Hs2]%Forall_cons]. rewrite !Forall_app.
    split; [done|]. split; [done|]. by apply Forall_singleton.
Qed.
(** An idle fiber schedules what it collected. *)
Lemma hand_ok c s a rung : sleep_ok s a rung → can_sleep self (LHand c) s →
  ∃ s', exec_sleep (LHand c) s = Ret tt s' ∧ asleep s' = asleep s ∧ queued self s' (TaskCb c) ∧ sleep_ok s' a rung.
Proof using.
  intros Hok Hc. cbn in Hc. destruct (remove_first_perm _ _ Hc) as (l & E & Hp).
  exists (set_collected l (requeued (scheduled (io (idl s)) ++ [(self, TaskCb c)]) s)). split.
  { cbn [exec_sleep]. unfold hand_over. rewrite bind_modify, E, schedule_task_runs. done. }
  split; [done|]. split; [apply elem_of_app; right; left|].
  assert (transit (set_collected l (requeued (scheduled (io (idl s)) ++ [(self, TaskCb c)]) s)) ≡ₚ transit s) as Htr.
  { unfold transit. cbn. rewrite Hp. solve_Permutation. }
  destruct Hok as [Ht Hi Hn Hsing Hpend Hself Hcol Hall Hqueue Htime]. constructor; try done.
  - by apply repr_scheduled.
  - by rewrite Htr.
  - cbn. rewrite Hp in Hcol. by apply Forall_cons in Hcol as [_ ?].
  - by rewrite Htr.
Qed.

(** Tasks of others come and go. *)
Lemma schedule_ok t s a rung : sleep_ok s a rung → owner (sleeping s) t = None →
  ∃ s', exec_sleep (LSchedule t) s = Ret tt s' ∧ asleep s' = asleep s ∧ sleep_ok s' a rung.
Proof using.
  intros Hok Ht. eexists. split; [apply schedule_task_runs|]. split; [done|]. apply requeue_ok with rung; [done|done|rewrite app_assoc..].
  - rewrite owners_app, owners_cons. cbn [snd]. rewrite Ht. cbn. rewrite app_nil_r. apply Hok.
  - apply Forall_app. split; [apply Hok|]. by apply Forall_singleton.
Qed.
Lemma take_ok t s a rung : sleep_ok s a rung → owner (sleeping s) t = None →
  ∃ s', exec_sleep (LTake t) s = Ret tt s' ∧ asleep s' = asleep s ∧ sleep_ok s' a rung.
Proof using.
  intros Hok Ht. eexists. split; [apply take_queued_runs|]. split; [done|].
  destruct (remove_first_default (self, t) (scheduled (io (idl s)))) as [E|E].
  - rewrite E. apply requeue_ok with rung; [done|done|apply Hok|apply Hok].
  - pose proof (so_self _ _ _ Hok) as Hs. pose proof (so_queue _ _ _ Hok) as Hq. unfold transit in Hs, Hq. rewrite <- E, <- Permutation_middle in Hs, Hq.
    apply Forall_cons in Hs as [_ Hs]. rewrite owners_cons in Hq. cbn [snd] in Hq. rewrite Ht in Hq.
    by apply requeue_ok with rung.
Qed.

(** The fiber goes on. *)
Lemma owner_same l l' f t : (∀ g, g ≠ f → g ∈ l' ↔ g ∈ l) → t ≠ TaskFiber f → owner l' t = owner l t.
Proof using.
  intros Hl Ht. destruct t as [g|c]; [|done]. cbn. assert (g ≠ f) as Hg by congruence. apply Hl in Hg.
  destruct (decide (g ∈ l)); [rewrite decide_True by (by apply Hg)|rewrite decide_False by (by rewrite Hg)]; done.
Qed.
Lemma owners_same l l' f q : (∀ g, g ≠ f → g ∈ l' ↔ g ∈ l) → silent f q → owners l' q = owners l q.
Proof using.
  intros Hl Hs. assert (∀ x, x ∈ q → x.2 ≠ TaskFiber f) as Hx by (intros x; by apply silent_other). clear Hs.
  induction q as [|x q IH]; [done|]. rewrite !owners_cons. rewrite (owner_same l l' f x.2) by (done || apply Hx; left).
  rewrite IH by (intros; apply Hx; by right). done.
Qed.
Lemma filter_others f u (l l1 : list (Z * Z)) : NoDup l.*1 → l ≡ₚ (f, u) :: l1 → filter (λ x, x.1 ≠ f) l ≡ₚ l1.
Proof using.
  intros Hn Hp. rewrite Hp in Hn |- *. cbn in Hn. apply NoDup_cons in Hn as [Hf _]. rewrite filter_cons_False by (intros Hx; by apply Hx).
  assert (filter (λ x, x.1 ≠ f) l1 = l1) as ->; [|done]. clear Hp. induction l1 as [|x l1 IH]; [done|].
  cbn in Hf. apply not_elem_of_cons in Hf as [Hx Hf]. rewrite filter_cons_True by congruence. by rewrite (IH Hf).
Qed.
Lemma wake_ok f s a rung : sleep_ok s a rung → can_sleep self (LWake f) s →
  ∃ s' u rung', exec_sleep (LWake f) s = Ret tt s' ∧ rung ≡ₚ (f, u) :: rung' ∧ f ∉ sleeping s' ∧
    asleep s ≡ₚ (f, u) :: asleep s' ∧ sleep_ok s' a rung'.
Proof using.
  intros Hok (Hf & _ & Hq). assert (owner (sleeping s) (TaskFiber f) = Some f) as Ho by (cbn; by rewrite decide_True).
  assert ((self, TaskFiber f) ∈ transit s) as Hq' by (apply elem_of_app; by right).
  destruct (owner_in s a rung (self, TaskFiber f) f Hok Hq' Ho) as [_ (u & Hu & _)]. clear Hq'.
  destruct (remove_first_perm _ _ Hq) as (q & E & Hp). apply elem_of_Permutation in Hu as [rung' Hr].
  destruct Hok as [Ht Hi Hn Hsing Hpend Hself Hcol Hall Hqueue Htime].
  pose proof Hall as Hall'. rewrite Hr, <- Permutation_middle in Hall'. symmetry in Hall'.
  pose proof (filter_others f u _ _ Hn Hall') as Hrest. unfold transit in Hqueue, Hself. rewrite Hp, <- Permutation_middle in Hqueue, Hself.
  rewrite owners_cons, Hr in Hqueue. cbn [snd] in Hqueue. rewrite Ho in Hqueue. cbn in Hqueue. apply (Permutation_cons_inv (a := f)) in Hqueue.
  pose proof Hn as Hn'. unfold sleeping in Hn'. rewrite Hall' in Hn'. cbn in Hn'. apply NoDup_cons in Hn' as [Hf1 Hn1].
  set (s' := set_asleep (filter (λ x, x.1 ≠ f) (asleep s)) (requeued q s)).
  assert (∀ g, g ≠ f → g ∈ sleeping s' ↔ g ∈ sleeping s) as Hsame.
  { intros g Hg. unfold sleeping. cbn [asleep s' set_asleep]. rewrite Hrest, Hall'. cbn. rewrite elem_of_cons. naive_solver. }
  assert (silent f (collected s ++ q)) as Hsil.
  { intros sch Hin. apply Hf1. rewrite fmap_app. apply elem_of_app. right. rewrite <- Hqueue. apply list_elem_of_omap.
    exists (sch, TaskFiber f). by split. }
  assert (silent f (pending a)) as Hsilp.
  { intros sch Hin. rewrite Forall_forall in Hpend. specialize (Hpend _ Hin). cbn [snd] in Hpend. congruence. }
  exists s', u, rung'. split.
  { cbn [exec_sleep]. unfold bind at 1. rewrite take_queued_runs, E. done. }
  split; [done|]. split; [|split].
  - unfold sleeping. cbn [asleep s' set_asleep]. by rewrite Hrest.
  - cbn [asleep s' set_asleep]. by rewrite Hrest.
  - constructor; cbn [idl io timers asleep s' set_asleep requeued set_idl seen went_back scheduled set_scheduled]; try done.
    + by apply repr_scheduled.
    + unfold sleeping. cbn [asleep s' set_asleep]. by rewrite Hrest.
    + eapply Forall_impl; [apply Forall_and; split; [exact Hpend|apply Forall_forall; intros x; by apply (silent_other f)]|].
      intros x [Hx Hxf]. by rewrite (owner_same _ _ f _ Hsame).
    + apply Forall_cons in Hself as [_ Hself].
      eapply Forall_impl; [apply Forall_and; split; [exact Hself|apply Forall_forall; intros x; by apply (silent_other f)]|].
      intros x [Hx Hxf]. by rewrite (owner_same _ _ f _ Hsame).
    + unfold transit. cbn [collected idl io scheduled]. change (collected s' ++ scheduled (io (idl s'))) with (collected s ++ q). by rewrite (owners_same _ _ f _ Hsame).
    + rewrite Hr in Htime. by apply Forall_cons in Htime as [_ ?].
Qed.

(** Other timers are none of theirs. *)
Definition no_alarm (o : option (Timer Z)) : Prop := ∀ t c, o = Some t → m_cb t = Some c → wakes c = None.
Definition harmless (h h' : gmap Z (Timer Z)) : Prop := ∀ q, h' !! q = h !! q ∨ no_alarm (h !! q) ∧ no_alarm (h' !! q).
Lemma no_alarm_none o : no_alarm o → o ≫= alarm_of = None.
Proof using.
  intros Ho. destruct o as [t|]; [|done]. cbn. unfold alarm_of. destruct (m_cb t) as [c|] eqn:Hc; [|done]. cbn. by rewrite (Ho t c).
Qed.
Lemma harmless_alarms h h' : harmless h h' → alarms h' = alarms h.
Proof using. intros Hh. apply alarms_same. intros p. destruct (Hh p) as [->|[H1 H2]]; [done|]. by rewrite !no_alarm_none. Qed.
Lemma harmless_alter h p g t : h !! p = Some t → no_alarm (h !! p) → (∀ c, m_cb (g t) = Some c → m_cb t = Some c) → harmless h (alter g p h).
Proof using.
  intros Hp Hn Hg q. destruct (decide (p = q)) as [<-|Hq]; [right|left; by rewrite lookup_alter_ne]. split; [done|].
  intros t' c. rewrite lookup_alter_eq, Hp. cbn. intros [= <-] Hc. apply (Hn t c Hp). by apply Hg.
Qed.
Lemma foreign_harmless o m : inv m → op_ok o m → foreign_timer o m →
  ∃ r m', Timer.exec o m = Ret r m' ∧ inv m' ∧ harmless (t_heap m) (t_heap m').
Proof using.
  intros Hi Ho Hf. destruct (exec_inv o m Hi Ho) as (r & m' & E & Hi' & _). exists r, m'. split; [done|]. split; [done|].
  assert (∀ f (t : Timer Z), rearmed f t = t ∨ rearmed f t = f t) as Hre by (intros f t; unfold rearmed; destruct (m_cb t); [by right|by left]).
  destruct o as [p ms cb rc now|p|p now|p ms fn now|now|a now]; cbn [op_ok foreign_timer Timer.exec] in *; [..|done].
  - destruct (addTimer_spec m p ms cb rc now Hi Ho) as (m1 & E1 & _ & Hh & _). rewrite (bind_Ret _ _ _ _ _ E1) in E. injection E as _ <-.
    intros q. rewrite Hh. cbn. destruct (decide (p = q)) as [<-|Hq]; [right|left; by rewrite lookup_insert_ne].
    rewrite Ho, lookup_insert_eq. split; [done|]. intros t c [= <-]. cbn. intros [= <-]. exact Hf.
  - destruct Ho as [t Ht]. destruct (cancel_spec m p t Hi Ht) as (m1 & E1 & _ & Hh). rewrite (bind_Ret _ _ _ _ _ E1) in E. injection E as _ <-.
    rewrite Hh. apply (harmless_alter _ p _ t Ht); [intros ??; apply Hf|done].
  - destruct Ho as [t Ht]. destruct (refresh_spec m p t now Hi Ht) as (m1 & E1 & _ & Hh). rewrite (bind_Ret _ _ _ _ _ E1) in E. injection E as _ <-.
    rewrite Hh. apply (harmless_alter _ p _ t Ht); [intros ??; apply Hf|]. intros c. by destruct (Hre (with_next (u64 (now + m_ms t))) t) as [-> | ->].
  - destruct Ho as [t Ht]. destruct (decide (ms = m_ms t ∧ fn = false)) as [[-> ->]|Hn].
    + unfold reset in E. rewrite bind_assoc, (bind_Ret _ _ _ _ _ (deref_timer_ok m p t Ht)), Z.eqb_refl in E. cbn in E. injection E as _ <-. by left.
    + destruct (reset_spec m p t ms fn now Hi Ht Hn) as (m1 & E1 & _ & Hh). rewrite (bind_Ret _ _ _ _ _ E1) in E. injection E as _ <-.
      rewrite Hh. apply (harmless_alter _ p _ t Ht); [intros ??; apply Hf|]. intros c. by destruct (Hre (with_next (reset_next t ms fn now) ∘ with_ms ms) t) as [-> | ->].
  - destruct (getNextTimer_heap now m Hi) as (x & E1 & _). rewrite (bind_Ret _ _ _ _ _ E1) in E. injection E as _ <-. by left.
Qed.
Lemma timer_ok o s a rung : sleep_ok s a rung → can_sleep self (LTimer o) s →
  ∃ s', exec_sleep (LTimer o) s = Ret tt s' ∧ asleep s' = asleep s ∧ sleep_ok s' a rung.
Proof using.
  intros Hok [Ho Hf]. destruct (foreign_harmless o _ (so_timers _ _ _ Hok) Ho Hf) as (r & m & E & Hi & Hh).
  eexists (set_idl (mkIdler m (io (idl s)) (waited (idl s))) s). split.
  { cbn [exec_sleep]. unfold on_idler, on_timers, bind. by rewrite E. }
  split; [done|]. destruct Hok. constructor; try done; cbn [idl set_idl timers io].
  - intros p t c f Hp Hc Hw. destruct (Hh p) as [E'|[_ Hn]]; [rewrite E' in Hp; eauto|]. rewrite (Hn t c Hp Hc) in Hw. done.
  - unfold ringing. by rewrite (harmless_alarms _ _ Hh).
Qed.

(** So are their events. *)
Lemma event_ok_sleep o s a rung : sleep_ok s a rung → can_sleep self (LEvent o) s →
  ∃ s' a', exec_sleep (LEvent o) s = Ret tt s' ∧ asleep s' = asleep s ∧ sleep_ok s' a' rung.
Proof using.
  intros Hok [(a0 & Ha0 & Hv) Hf]. rewrite (repr_unique _ _ _ Ha0 (so_io _ _ _ Hok)) in Hv. clear a0 Ha0.
  pose proof (exec_refines o _ a (so_io _ _ _ Hok) Hv) as Hd. pose proof (conserve o _ a (so_io _ _ _ Hok) Hv) as Hc.
  destruct (spec o a) as [[r a'] fired]. destruct Hd as (w & E & Hw & Hsch).
  destruct (Forall_kept (λ x, owner (sleeping s) x.2 = None) _ _ _ _ Hc) as [Hp1 Hp2].
  { apply Forall_app. split; [apply Hok|]. destruct o; cbn; try done. destruct (_ =? _); [|done]. by apply Forall_singleton. }
  exists (set_idl (mkIdler (timers (idl s)) w (waited (idl s))) s), a'. split.
  { cbn [exec_sleep]. unfold on_idler, on_io, bind. by rewrite E. }
  split; [done|]. destruct Hok. constructor; try done; cbn [idl set_idl timers io].
  - unfold transit. cbn [collected idl set_idl io]. rewrite Hsch, app_assoc. apply Forall_app. split; [done|]. eapply Forall_impl; [exact Hp2|].
    intros x Hx [? Hs]. unfold sleeping in *. cbn in Hs. congruence.
  - unfold transit. cbn [collected idl set_idl io]. rewrite Hsch, app_assoc, owners_app. unfold sleeping in *. cbn [asleep set_idl].
    by rewrite (owners_none _ fired), app_nil_r.
Qed.

(** *** Every label *)
Lemma sleep_label_ok l s a rung : sleep_ok s a rung → can_sleep self l s →
  ∃ s' a' rung', exec_sleep l s = Ret tt s' ∧ sleep_ok s' a' rung'.
Proof using.
  intros Hok Hl. destruct l as [n f p now|f|stop now1 ints|na now2|c|c|f|o|o|t|t].
  - destruct (nap_ok n f p now s a rung Hok Hl) as (s' & E & _ & a' & rung' & H'). by exists s', a', rung'.
  - destruct (hold_ok f s a rung Hok) as (s' & E & _ & _ & _ & H'). by exists s', a, rung.
  - destruct (wait_ok stop now1 ints s a rung Hok) as (s' & E & _ & H'). by exists s', a, rung.
  - destruct (collect_ok na now2 s a rung Hok Hl) as (s' & rung' & E & _ & H' & _). by exists s', a, rung'.
  - destruct (hand_ok c s a rung Hok Hl) as (s' & E & _ & _ & H'). by exists s', a, rung.
  - destruct (ring_ok c s a rung Hok Hl) as (s' & f & E & _ & _ & _ & H'). by exists s', a, rung.
  - destruct (wake_ok f s a rung Hok Hl) as (s' & u & rung' & E & _ & _ & _ & H'). by exists s', a, rung'.
  - destruct (timer_ok o s a rung Hok Hl) as (s' & E & _ & H'). by exists s', a, rung.
  - destruct (event_ok_sleep o s a rung Hok Hl) as (s' & a' & E & _ & H'). by exists s', a', rung.
  - destruct (schedule_ok t s a rung Hok Hl) as (s' & E & _ & H'). by exists s', a, rung.
  - destruct (take_ok t s a rung Hok Hl) as (s' & E & _ & H'). by exists s', a, rung.
Qed.
Lemma naps_ok s ls s' a rung : sleep_ok s a rung → naps s ls s' → ∃ a' rung', sleep_ok s' a' rung'.
Proof using.
  intros Hok Hs. revert a rung Hok. induction Hs as [s|s l s1 ls s2 [Hl E] _ IH]; intros a rung Hok; [by exists a, rung|].
  destruct (sleep_label_ok l s a rung Hok Hl) as (s1' & a' & rung' & E1 & Hok1). rewrite E in E1. injection E1 as <-. by apply (IH a' rung').
Qed.

(** Nobody sleeps, and nothing is left of earlier sleeps. *)
Definition all_awake (s : sleepers) : Prop :=
  asleep s = [] ∧ collected s = [] ∧ inv (timers (idl s)) ∧ (∀ p, no_alarm (t_heap (timers (idl s)) !! p)) ∧
  ∃ a, repr (io (idl s)) a ∧ Forall (λ x, owner [] x.2 = None) (scheduled (io (idl s)) ++ pending a).
Lemma all_awake_ok s : all_awake s → ∃ a, sleep_ok s a [].
Proof using.
  intros (Has & Hcol & Hi & Hno & a & Ha & Hq). exists a. apply Forall_app in Hq as [Hq Hp]. constructor; unfold sleeping, transit; rewrite ?Has, ?Hcol; try done.
  - by constructor.
  - intros p t c f Hp' Hc Hw. by rewrite (Hno p t c Hp' Hc) in Hw.
  - eapply Forall_impl; [exact Hq|]. intros x Hx [? Hs]. cbn in Hs. congruence.
  - unfold ringing. assert (alarms (t_heap (timers (idl s))) = ∅) as ->; [|by rewrite map_to_list_empty].
    apply map_eq. intros p. rewrite alarms_lookup, lookup_empty. by apply no_alarm_none.
  - change (owners [] (scheduled (io (idl s))) ≡ₚ []). by rewrite owners_none.
Qed.

(** Who is on the way to a worker can be brought back in four steps. *)
Lemma queued_wakes s a rung f : sleep_ok s a rung → f ∈ sleeping s → queued self s (TaskFiber f) →
  ∃ ls s', naps s ls s' ∧ (length ls ≤ 2)%nat ∧ f ∉ sleeping s'.
Proof using.
  assert (∀ s a rung, sleep_ok s a rung → f ∈ sleeping s → f ∉ yielding s → queued self s (TaskFiber f) →
    ∃ s', naps s [LWake f] s' ∧ f ∉ sleeping s') as Hwake.
  { clear. intros s a rung Hok Hf Hy Hq. destruct (wake_ok f s a rung Hok (conj Hf (conj Hy Hq))) as (s' & _ & _ & E & _ & Hn & _).
    exists s'. split; [|done]. econstructor; [by split|constructor]. }
  intros Hok Hf Hq. destruct (decide (f ∈ yielding s)) as [Hy|Hy].
  - destruct (hold_ok f s a rung Hok) as (s1 & E & Has & Hi & Hy1 & Hok1).
    destruct (Hwake s1 a rung Hok1) as (s' & Hn & Hf'); [unfold sleeping; by rewrite Has|done|unfold queued; by rewrite Hi|].
    exists [LHold f; LWake f], s'. split; [econstructor; [by split|exact Hn]|]. split; [cbn; lia|done].
  - destruct (Hwake s a rung Hok Hf Hy Hq) as (s' & Hn & Hf'). exists [LWake f], s'. split; [done|]. split; [cbn; lia|done].
Qed.
Lemma rung_wakes s a rung f u : sleep_ok s a rung → (f, u) ∈ rung → ∃ ls s', naps s ls s' ∧ (length ls ≤ 4)%nat ∧ f ∉ sleeping s'.
Proof using.
  intros Hok Hu. assert (∀ s a rung c, sleep_ok s a rung → f ∈ sleeping s → wakes c = Some f → queued self s (TaskCb c) →
    ∃ ls s', naps s ls s' ∧ (length ls ≤ 3)%nat ∧ f ∉ sleeping s') as Hring.
  { clear. intros s a rung c Hok Hf Hc Hq. assert (can_sleep self (LRing c) s) as Hl by (split; [by eexists|done]).
    destruct (ring_ok c s a rung Hok Hl) as (s1 & g & E & Hg & Has & Hq1 & Hok1). rewrite Hc in Hg. injection Hg as <-.
    destruct (queued_wakes s1 a rung f Hok1) as (ls & s' & Hn & Hlen & Hf'); [unfold sleeping; by rewrite Has|done|].
    exists (LRing c :: ls), s'. split; [econstructor; [by split|exact Hn]|]. split; [cbn; lia|done]. }
  assert (f ∈ owners (sleeping s) (transit s)) as Hf.
  { rewrite (so_queue _ _ _ Hok). apply list_elem_of_fmap. by exists (f, u). }
  apply list_elem_of_omap in Hf as ([sch t] & Hin & Ho). cbn in Ho.
  destruct (owner_in s a rung _ f Hok Hin Ho) as [Hs (v & _ & Hv)]. cbn in Hs. subst sch.
  assert (f ∈ sleeping s) as Hsl by (apply list_elem_of_fmap; by exists (f, v)).
  apply elem_of_app in Hin as [Hin|Hin].
  - pose proof (proj1 (Forall_forall _ _) (so_collected _ _ _ Hok) _ Hin) as [c Hc]. injection Hc as ->. cbn in Ho.
    destruct (hand_ok c s a rung Hok Hin) as (s1 & E & Has & Hq & Hok1).
    destruct (Hring s1 a rung c Hok1) as (ls & s' & Hn & Hlen & Hf'); [unfold sleeping; by rewrite Has|done|done|].
    exists (LHand c :: ls), s'. split; [econstructor; [by split|exact Hn]|]. split; [cbn; lia|done].
  - destruct t as [g|c]; cbn in Ho.
    + destruct (decide (g ∈ sleeping s)); [|done]. injection Ho as ->. destruct (queued_wakes s a rung f Hok Hsl Hin) as (ls & s' & Hn & Hlen & Hf').
      exists ls, s'. split; [done|]. split; [lia|done].
    + destruct (Hring s a rung c Hok Hsl Ho Hin) as (ls & s' & Hn & Hlen & Hf'). exists ls, s'. split; [done|]. split; [lia|done].
Qed.

End facts.

(** ** Witness: two fibers sleep, one behind the other; the shorter sleep ends first *)
#[local] Instance even_cbs : WakeCbs.
Proof.
  refine {| wake_cb f := 2 * f; wakes c := if Z.even c then Some (c / 2) else None |}.
  intros f. rewrite Z.even_mul. cbn [Z.even orb]. by rewrite Z.mul_comm, Z.div_mul.
Defined.
Definition demo_sleepers : sleepers := mkSleepers (mkIdler (TimerManager_new 1000) IOManager_new []) [] [] [] 0 false.
Definition demo_naps : list slabel :=
  [LNap (Seconds 2) 7 100 1000; LHold 7; LNap (Micros 30000) 8 200 1000; LWait false 1001 0; LCollect 1 1031; LHand 16; LRing 16; LHold 8].
Definition demo_state (h : gmap Z (Timer Z)) (l : list Z) (tickled : bool) (prev : Z) (calls : nat) (q : list handler) (w : list Z)
    (a : list (Z * Z)) (y : list Z) (c : list handler) (t : Z) : sleepers :=
  mkSleepers (mkIdler (mkTimerManager h l tickled prev calls) (set_scheduled q IOManager_new) w) a y c t false.
Definition long_alarm : Timer Z := mkTimer false 2000 3000 (Some 14).
Definition demo_slept : sleepers :=
  demo_state {[100 := long_alarm; 200 := mkTimer false 30 1030 None]} [100] false 1031 1 [(0, TaskFiber 8)] [29] [(8, 1030); (7, 3000)] [] [] 1031.
Lemma demo_awake : all_awake demo_sleepers.
Proof. split; [done|]. split; [done|]. split; [apply TimerTheorems.inv_new|]. split; [by intros p t c|]. exists no_handlers. split; [exact repr_new|by constructor]. Defined.
Lemma demo_slept_naps : naps id id (λ s _, s) 0 demo_sleepers demo_naps demo_slept.
Proof.
  assert (∀ f sch, (sch, TaskFiber f) ∉ pending no_handlers) as Hp by (intros f sch Hin; by apply elem_of_nil in Hin).
  assert (∀ f sch, (sch, TaskFiber f) ∉ scheduled IOManager_new) as Hq by (intros f sch Hin; by apply elem_of_nil in Hin).
  assert (∀ f s, asleep s = [] ∨ asleep s = [(7, 3000)] → f ≠ 7 ∨ asleep s = [] → f ∉ sleeping s) as Hf.
  { intros f s Hs Hf Hin. unfold sleeping in Hin. destruct Hs as [Hs|Hs]; rewrite Hs in Hin; cbn in Hin; [by apply elem_of_nil in Hin|].
    apply list_elem_of_singleton in Hin. destruct Hf as [Hf|Hf]; [done|]. by rewrite Hf in Hs. }
  assert (repr IOManager_new no_handlers) as Hr by exact repr_new.
  set (both := {[100 := long_alarm; 200 := mkTimer false 30 1030 (Some 16)]} : gmap Z (Timer Z)).
  set (rest := {[100 := long_alarm; 200 := mkTimer false 30 1030 None]} : gmap Z (Timer Z)).
  eapply (naps_cons _ _ _ _ _ _ (demo_state {[100 := long_alarm]} [100] true 1000 1 [] [] [(7, 3000)] [7] [] 0)).
  { split; [|vm_compute; reflexivity]. split_and!; [done|apply Hf; [by left|by right]|by vm_compute|apply Hq|by exists no_handlers]. }
  eapply (naps_cons _ _ _ _ _ _ (demo_state {[100 := long_alarm]} [100] true 1000 1 [] [] [(7, 3000)] [] [] 0)); [split; [left|vm_compute; reflexivity]|].
  eapply (naps_cons _ _ _ _ _ _ (demo_state both [200; 100] true 1000 1 [] [] [(8, 1030); (7, 3000)] [8] [] 0)).
  { split; [|vm_compute; reflexivity]. split_and!; [done|apply Hf; [by right|by left]|by vm_compute|apply Hq|by exists no_handlers]. }
  eapply (naps_cons _ _ _ _ _ _ (demo_state both [200; 100] false 1000 1 [] [29] [(8, 1030); (7, 3000)] [8] [] 0)); [split; [done|vm_compute; reflexivity]|].
  eapply (naps_cons _ _ _ _ _ _ (demo_state rest [100] false 1031 1 [] [29] [(8, 1030); (7, 3000)] [8] [(0, TaskCb 16)] 1031)); [split; [by vm_compute|vm_compute; reflexivity]|].
  eapply (naps_cons _ _ _ _ _ _ (demo_state rest [100] false 1031 1 [(0, TaskCb 16)] [29] [(8, 1030); (7, 3000)] [8] [] 1031)); [split; [left|vm_compute; reflexivity]|].
  eapply (naps_cons _ _ _ _ _ _ (demo_state rest [100] false 1031 1 [(0, TaskFiber 8)] [29] [(8, 1030); (7, 3000)] [8] [] 1031));
    [split; [split; [by eexists|left]|vm_compute; reflexivity]|].
  eapply naps_cons; [split; [left|vm_compute; reflexivity]|apply naps_nil].
Defined.
