(* ===== verification/Socket.v ===== *)
(** * Socket: the socket object ([include/socket.h], [src/socket.cpp])

    The calls below it, as the calling fiber sees them (the hooks included), are
    the class [Net] over a state of the system: their results, what they store
    and the new state; [NetLaws] says which descriptors they open and close. *)
From S2P Require Import Prelude Address.

Definition SOCK_STREAM : Z := 1.
Definition SOCK_DGRAM : Z := 2.
Definition TCP : Z := SOCK_STREAM.
Definition UDP : Z := SOCK_DGRAM.

(** The value of an option: an [int] or a [struct timeval]. *)
Inductive optval := IntOpt (v : Z) | TimeOpt (tv_sec tv_usec : Z).

Class Net (K : Type) := {
  net_socket : Z → Z → Z → K → Z * K;
  net_bind : Z → Address → K → Z * K;
  (** with the time limit of [connect_with_timeout], if it is that one *)
  net_connect : Z → Address → option Z → K → Z * K;
  net_listen : Z → Z → K → Z * K;
  net_accept : Z → K → Z * K;
  net_close : Z → K → K;
  net_send : Z → list Z → K → Z * K;
  net_recv : Z → Z → K → (Z * list Z) * K;
  (** datagrams; receiving stores the sender into the address it is given *)
  net_sendto : Z → list Z → Address → K → Z * K;
  net_recvfrom : Z → Z → Address → K → (Z * list Z * Address) * K;
  net_setsockopt : Z → Z → Z → optval → K → Z * K;
  (** the [int] that is stored, unless it fails *)
  net_getsockopt : Z → Z → Z → K → option Z * K;
  (** the time limit that [FdMgr] has for the descriptor *)
  net_timeout : Z → Z → K → option Z;
  (** [IOManager::cancelEvent] and [IOManager::cancelAll] *)
  net_cancelEvent : Z → Z → K → bool * K;
  net_cancelAll : Z → K → bool * K;
  (** the address that [getpeername] or [getsockname] stores, if it succeeds *)
  net_peername : Z → Z → K → option Address;
  net_sockname : Z → Z → K → option Address;
  (** whether [FdMgr] knows the descriptor as a socket that is not closed *)
  net_known : Z → K → bool
}.

(** The open descriptors. *)
Class NetLaws (K : Type) `{Net K} := {
  net_open : K → gset Z;
  open_socket f t p k : let (fd, k') := net_socket f t p k in
    (fd = -1 ∧ net_open k' = net_open k) ∨ (0 ≤ fd ∧ fd ∉ net_open k ∧ net_open k' = {[fd]} ∪ net_open k);
  open_accept fd k : let (fd', k') := net_accept fd k in
    (fd' = -1 ∧ net_open k' = net_open k) ∨ (0 ≤ fd' ∧ fd' ∉ net_open k ∧ net_open k' = {[fd']} ∪ net_open k);
  open_close fd k : net_open (net_close fd k) = net_open k ∖ {[fd]};
  open_bind fd a k : net_open (net_bind fd a k).2 = net_open k;
  open_connect fd a t k : net_open (net_connect fd a t k).2 = net_open k;
  open_listen fd b k : net_open (net_listen fd b k).2 = net_open k;
  open_send fd l k : net_open (net_send fd l k).2 = net_open k;
  open_recv fd n k : net_open (net_recv fd n k).2 = net_open k;
  open_sendto fd l a k : net_open (net_sendto fd l a k).2 = net_open k;
  open_recvfrom fd n a k : net_open (net_recvfrom fd n a k).2 = net_open k;
  open_setsockopt fd l o v k : net_open (net_setsockopt fd l o v k).2 = net_open k;
  open_getsockopt fd l o k : net_open (net_getsockopt fd l o k).2 = net_open k;
  open_cancelEvent fd e k : net_open (net_cancelEvent fd e k).2 = net_open k;
  open_cancelAll fd k : net_open (net_cancelAll fd k).2 = net_open k
}.

(** Where the open descriptors are bound and which of them listen. *)
Class NetServes (K : Type) `{NetLaws K} := {
  net_serves : Z → K → option Address * bool;
  serves_socket fd f t p k : fd ∈ net_open k → net_serves fd (net_socket f t p k).2 = net_serves fd k;
  serves_bind fd a k : (net_bind fd a k).1 = 0 → (net_serves fd (net_bind fd a k).2).1 = Some a;
  serves_bind_other fd fd' a k : fd ≠ fd' → net_serves fd (net_bind fd' a k).2 = net_serves fd k;
  serves_listen fd b k : (net_listen fd b k).1 = 0 → net_serves fd (net_listen fd b k).2 = ((net_serves fd k).1, true);
  serves_listen_other fd fd' b k : fd ≠ fd' → net_serves fd (net_listen fd' b k).2 = net_serves fd k;
  serves_setsockopt fd fd' l o v k : net_serves fd (net_setsockopt fd' l o v k).2 = net_serves fd k;
  serves_close fd fd' k : fd ≠ fd' → net_serves fd (net_close fd' k) = net_serves fd k
}.

Record Socket := mkSocket {
  m_sockfd : Z; m_family : Z; m_type : Z; m_protocol : Z; m_isConnected : bool;
  m_localAddress : option Address; m_remoteAddress : option Address
}.
Definition set_sockfd v s := mkSocket v (m_family s) (m_type s) (m_protocol s) (m_isConnected s) (m_localAddress s) (m_remoteAddress s).
Definition set_connected v s := mkSocket (m_sockfd s) (m_family s) (m_type s) (m_protocol s) v (m_localAddress s) (m_remoteAddress s).
Definition set_local v s := mkSocket (m_sockfd s) (m_family s) (m_type s) (m_protocol s) (m_isConnected s) v (m_remoteAddress s).
Definition set_remote v s := mkSocket (m_sockfd s) (m_family s) (m_type s) (m_protocol s) (m_isConnected s) (m_localAddress s) v.

Definition Socket_new (family type protocol : Z) : Socket := mkSocket (-1) family type protocol false None None.
Definition CreateTCP (host : Z) (a : Address) : Socket := Socket_new (getFamily host a) TCP 0.
Definition CreateUDP (host : Z) (a : Address) : Socket := Socket_new (getFamily host a) UDP 0.
Definition CreateTCPSocket : Socket := Socket_new AF_INET TCP 0.
Definition CreateUDPSocket : Socket := Socket_new AF_INET UDP 0.
Definition CreateTCPSocket6 : Socket := Socket_new AF_INET6 TCP 0.
Definition CreateUDPSocket6 : Socket := Socket_new AF_INET6 UDP 0.
Definition CreateTCPUnixSocket : Socket := Socket_new AF_UNIX TCP 0.
Definition CreateUDPUnixSocket : Socket := Socket_new AF_UNIX UDP 0.

(** [struct timeval tv{int(v / 1000), int(v % 1000 * 1000)}] *)
Definition timeval_of (v : Z) : Z * Z := (i32 (v / 1000), i32 (u64 (v `mod` 1000 * 1000))).

Section socket.
Context {K : Type} `{Net K} (host : Z).

(** One object and the system. *)
Record net := mkNet { obj : Socket; system : K }.
Definition set_obj v (w : net) : net := mkNet v (system w).
Definition set_system v (w : net) : net := mkNet (obj w) v.
Definition sys {A} (f : K → A * K) : ST net A := λ w, let (a, k) := f (system w) in Ret a (set_system k w).
Definition on_obj (f : Socket → Socket) : ST net unit := modify (λ w, set_obj (f (obj w)) w).

Definition isValid : ST net bool := gets (λ w, negb (m_sockfd (obj w) =? -1)).
Definition isConnected : ST net bool := gets (λ w, m_isConnected (obj w)).

Definition SOL_SOCKET : Z := 1.
Definition SO_REUSEADDR : Z := 2.
Definition SO_ERROR : Z := 4.
Definition SO_RCVTIMEO : Z := 20.
Definition SO_SNDTIMEO : Z := 21.
Definition IPPROTO_TCP : Z := 6.
Definition TCP_NODELAY : Z := 1.
Definition setOption (level option : Z) (val : optval) : ST net bool :=
  let* fd := gets (λ w, m_sockfd (obj w)) in
  let* r := sys (net_setsockopt fd level option val) in
  ret (r =? 0).
(** [getOption(level, option, &result, &len)] of an [int] *)
Definition getOption (level option : Z) : ST net (bool * Z) :=
  let* fd := gets (λ w, m_sockfd (obj w)) in
  let* r := sys (net_getsockopt fd level option) in
  ret (match r with Some v => (true, v) | None => (false, 0) end).
Definition getError : ST net Z :=
  let* r := getOption SOL_SOCKET SO_ERROR in
  ret (if r.1 then r.2 else -1).

(** The time limits; [uint64_t] where they are set, [int64_t] where they are read. *)
Definition getTimeout (option : Z) : ST net Z :=
  gets (λ w, match net_timeout (m_sockfd (obj w)) option (system w) with Some v => i64 v | None => -1 end).
Definition getSendTimeout : ST net Z := getTimeout SO_SNDTIMEO.
Definition getRecvTimeout : ST net Z := getTimeout SO_RCVTIMEO.
Definition setTimeout (option v : Z) : ST net unit :=
  let (sec, usec) := timeval_of v in
  let* _ := setOption SOL_SOCKET option (TimeOpt sec usec) in ret tt.
Definition setSendTimeout : Z → ST net unit := setTimeout SO_SNDTIMEO.
Definition setRecvTimeout : Z → ST net unit := setTimeout SO_RCVTIMEO.

Definition initSock : ST net unit :=
  let* _ := setOption SOL_SOCKET SO_REUSEADDR (IntOpt 1) in
  let* type := gets (λ w, m_type (obj w)) in
  if type =? SOCK_STREAM then let* _ := setOption IPPROTO_TCP TCP_NODELAY (IntOpt 1) in ret tt else ret tt.
Definition newSock : ST net unit :=
  let* s := gets obj in
  let* fd := sys (net_socket (m_family s) (m_type s) (m_protocol s)) in
  on_obj (set_sockfd fd) ;;;
  if negb (fd =? -1) then initSock else ret tt.

(** The address is kept once it is known. *)
Definition getRemoteAddress : ST net Address :=
  let* w := gets id in
  match m_remoteAddress (obj w) with
  | Some a => ret a
  | None =>
      match net_peername (m_sockfd (obj w)) (m_family (obj w)) (system w) with
      | None => ret (UnknowAddress_new (m_family (obj w)))
      | Some a => on_obj (set_remote (Some a)) ;;; ret a
      end
  end.
Definition getLocalAddress : ST net Address :=
  let* w := gets id in
  match m_localAddress (obj w) with
  | Some a => ret a
  | None =>
      match net_sockname (m_sockfd (obj w)) (m_family (obj w)) (system w) with
      | None => ret (UnknowAddress_new (m_family (obj w)))
      | Some a => on_obj (set_local (Some a)) ;;; ret a
      end
  end.

Definition close : ST net bool :=
  let* s := gets obj in
  if negb (m_isConnected s) && (m_sockfd s =? -1) then ret true
  else
    on_obj (set_connected false) ;;;
    (if negb (m_sockfd s =? -1) then
       let* _ := sys (λ k, (tt, net_close (m_sockfd s) k)) in
       on_obj (set_sockfd (-1))
     else ret tt) ;;;
    ret false.
(** The destructor *)
Definition destroy : ST net unit := let* _ := close in ret tt.

(** [bind] and [connect] start with a descriptor of their own, if there is none. *)
Definition need_sock (k : ST net bool) : ST net bool :=
  let* v := isValid in
  if negb v then
    newSock ;;;
    let* v := isValid in
    if negb v then ret false else k
  else k.
Definition same_family (addr : Address) (k : ST net bool) : ST net bool :=
  let* s := gets obj in
  if negb (getFamily host addr =? m_family s) then ret false else k.

Definition bind_ (addr : Address) : ST net bool :=
  need_sock (same_family addr (
    let* s := gets obj in
    let* r := sys (net_bind (m_sockfd s) addr) in
    if negb (r =? 0) then ret false
    else let* _ := getLocalAddress in ret true)).

Definition connect (addr : Address) (timeout_ms : Z) : ST net bool :=
  need_sock (same_family addr (
    let* s := gets obj in
    if timeout_ms =? 2 ^ 64 - 1 then
      let* r := sys (net_connect (m_sockfd s) addr None) in
      if negb (r =? 0) then let* _ := close in ret false
      else
        on_obj (set_connected true) ;;;
        let* _ := getRemoteAddress in
        let* _ := getLocalAddress in
        ret true
    else
      let* _ := sys (net_connect (m_sockfd s) addr (Some timeout_ms)) in
      let* _ := close in
      ret false)).

Definition listen (backlog : Z) : ST net bool :=
  let* v := isValid in
  if negb v then ret false
  else
    let* s := gets obj in
    let* r := sys (net_listen (m_sockfd s) backlog) in
    ret (r =? 0).

(** [init(sockfd)] of a fresh object, which it gives back. *)
Definition init (sockfd : Z) (s : Socket) : ST net (option Socket) := λ w,
  if net_known sockfd (system w) then
    match (initSock ;;; let* _ := getLocalAddress in let* _ := getRemoteAddress in ret tt)
            (mkNet (set_connected true (set_sockfd sockfd s)) (system w)) with
    | Ret _ w' => Ret (Some (obj w')) (set_system (system w') w)
    | Throw e w' => Throw e (set_system (system w') w)
    | Crash f => Crash f
    end
  else Ret None w.
(** [accept], whose descriptor is taken when the call starts. *)
Definition accept_on (fd : Z) : ST net (option Socket) :=
  let* newsock := sys (net_accept fd) in
  if newsock =? -1 then ret None
  else
    let* s := gets obj in
    init newsock (Socket_new (m_family s) (m_type s) (m_protocol s)).
Definition accept : ST net (option Socket) :=
  let* s := gets obj in
  accept_on (m_sockfd s).

(** [send] and [recv] give an [int]. *)
Definition send (buffer : list Z) : ST net Z :=
  let* s := gets obj in
  if m_isConnected s then let* r := sys (net_send (m_sockfd s) buffer) in ret (i32 r) else ret (-1).
Definition recv (length : Z) : ST net (Z * list Z) :=
  let* s := gets obj in
  if m_isConnected s then let* r := sys (net_recv (m_sockfd s) length) in ret (i32 r.1, r.2) else ret (-1, []).
(** With several buffers: [sendmsg] sends them in order, [recvmsg] fills areas of
    these lengths in order. *)
Definition sum_lengths (lengths : list Z) : Z := foldr Z.add 0 lengths.
Definition send_iov (buffers : list (list Z)) : ST net Z :=
  let* s := gets obj in
  if m_isConnected s then let* r := sys (net_send (m_sockfd s) (concat buffers)) in ret (i32 r) else ret (-1).
Definition recv_iov (lengths : list Z) : ST net (Z * list Z) :=
  let* s := gets obj in
  if m_isConnected s then let* r := sys (net_recv (m_sockfd s) (sum_lengths lengths)) in ret (i32 r.1, r.2) else ret (-1, []).
Definition sendTo (buffer : list Z) (to : Address) : ST net Z :=
  let* s := gets obj in
  if m_isConnected s then let* r := sys (net_sendto (m_sockfd s) buffer to) in ret (i32 r) else ret (-1).
Definition sendTo_iov (buffers : list (list Z)) (to : Address) : ST net Z :=
  let* s := gets obj in
  if m_isConnected s then let* r := sys (net_sendto (m_sockfd s) (concat buffers) to) in ret (i32 r) else ret (-1).
(** The result, the bytes and what [from] holds then. *)
Definition recvFrom (length : Z) (from : Address) : ST net (Z * list Z * Address) :=
  let* s := gets obj in
  if m_isConnected s then let* r := sys (net_recvfrom (m_sockfd s) length from) in ret (i32 r.1.1, r.1.2, r.2) else ret (-1, [], from).
Definition recvFrom_iov (lengths : list Z) (from : Address) : ST net (Z * list Z * Address) :=
  let* s := gets obj in
  if m_isConnected s then let* r := sys (net_recvfrom (m_sockfd s) (sum_lengths lengths) from) in ret (i32 r.1.1, r.1.2, r.2) else ret (-1, [], from).

(** [IOManager::GetThis()] is null in threads without one. *)
Definition EVENT_READ : Z := 1.
Definition EVENT_WRITE : Z := 4.
Definition cancel (iom_here : bool) (event : Z) : ST net bool :=
  if negb iom_here then crash NullDeref
  else let* s := gets obj in sys (net_cancelEvent (m_sockfd s) event).
Definition cancelRead (iom_here : bool) : ST net bool := cancel iom_here EVENT_READ.
Definition cancelWrite (iom_here : bool) : ST net bool := cancel iom_here EVENT_WRITE.
Definition cancelAccept (iom_here : bool) : ST net bool := cancel iom_here EVENT_READ.
Definition cancelAll (iom_here : bool) : ST net bool :=
  if negb iom_here then crash NullDeref
  else let* s := gets obj in sys (net_cancelAll (m_sockfd s)).

(** [dump], and [operator<<], which calls it *)
Definition address_part {S} (label : string) (a : option Address) : ST S string :=
  match a with
  | None => ret ""
  | Some a => let* s := toString host a in ret (label +:+ s)
  end.
Definition dump : ST net string :=
  let* s := gets obj in
  let* local := address_part " locl_address=" (m_localAddress s) in
  let* remote := address_part " m_remoteAddress=" (m_remoteAddress s) in
  ret ("[Socket sockfd=" +:+ dec (m_sockfd s) +:+ " is_connected=" +:+ (if m_isConnected s then "1" else "0")
       +:+ " family=" +:+ dec (m_family s) +:+ " type=" +:+ dec (m_type s) +:+ " protocol=" +:+ dec (m_protocol s)
       +:+ local +:+ remote +:+ "]").
End socket.
Arguments net K : clear implicits.
