(* ===== verification/SocketTheorems.v ===== *)
(** * SocketTheorems: descriptors of a socket object are closed *)
From S2P Require Import Prelude Endian Address Socket.

Section ledger.
Context {K : Type} `{NetLaws K} (host : Z).

(** A use of the object; [OAccept] gives the descriptor of the new one. *)
Inductive op :=
  | OBind (a : Address) | OConnect (a : Address) (timeout_ms : Z) | OListen (backlog : Z) | OAccept
  | OClose | OSend (l : list Z) | ORecv (n : Z) | OLocal | ORemote
  | OSendIov (l : list (list Z)) | ORecvIov (l : list Z) | OSendTo (l : list Z) (to : Address) | ORecvFrom (n : Z) (from : Address)
  | OSendToIov (l : list (list Z)) (to : Address) | ORecvFromIov (l : list Z) (from : Address)
  | OSetTimeout (option v : Z) | OGetTimeout (option : Z) | OGetError | OCancel (event : Z) | OCancelAll.
Definition exec (o : op) : ST (net K) (list Z) :=
  match o with
  | OBind a => let* _ := bind_ host a in ret []
  | OConnect a t => let* _ := connect host a t in ret []
  | OListen b => let* _ := listen b in ret []
  | OAccept => let* s := accept in ret (match s with Some s => [m_sockfd s] | None => [] end)
  | OClose => let* _ := close in ret []
  | OSend l => let* _ := send l in ret []
  | ORecv n => let* _ := recv n in ret []
  | OLocal => let* _ := getLocalAddress in ret []
  | ORemote => let* _ := getRemoteAddress in ret []
  | OSendIov l => let* _ := send_iov l in ret []
  | ORecvIov l => let* _ := recv_iov l in ret []
  | OSendTo l a => let* _ := sendTo l a in ret []
  | ORecvFrom n a => let* _ := recvFrom n a in ret []
  | OSendToIov l a => let* _ := sendTo_iov l a in ret []
  | ORecvFromIov l a => let* _ := recvFrom_iov l a in ret []
  | OSetTimeout o v => setTimeout o v ;;; ret []
  | OGetTimeout o => let* _ := getTimeout o in ret []
  | OGetError => let* _ := getError in ret []
  | OCancel e => let* _ := cancel true e in ret []
  | OCancelAll => let* _ := cancelAll true in ret []
  end.
Fixpoint run (ops : list op) : ST (net K) (list Z) :=
  match ops with
  | [] => ret []
  | o :: ops => let* a := exec o in let* b := run ops in ret (a ++ b)
  end.

Definition own (s : Socket) : gset Z := if m_sockfd s =? -1 then ∅ else {[m_sockfd s]}.
(** [held] are the descriptors that are open besides the object's own. *)
Record inv (held : gset Z) (w : net K) : Prop := {
  inv_open : net_open (system w) = own (obj w) ∪ held;
  inv_own : m_sockfd (obj w) ≠ -1 → m_sockfd (obj w) ∉ held;
  inv_connected : m_isConnected (obj w) = true → m_sockfd (obj w) ≠ -1
}.

Definition keeps {A} (held : gset Z) (m : ST (net K) A) : Prop :=
  ∀ w, inv held w → ∃ a w', m w = Ret a w' ∧ inv held w'.
Implicit Type h : gset Z.

Lemma socket_keeps_ret {A} h (a : A) : keeps h (ret a).
Proof using. intros w Hw. by exists a, w. Qed.
Lemma socket_keeps_gets {A} h (f : net K → A) : keeps h (gets f).
Proof using. intros w Hw. by exists (f w), w. Qed.
Lemma socket_keeps_bind {A B} h (m : ST (net K) A) (k : A → ST (net K) B) : keeps h m → (∀ a, keeps h (k a)) → keeps h (bind m k).
Proof using.
  intros Hm Hk w Hw. destruct (Hm w Hw) as (a & w1 & E & H1). rewrite (bind_Ret _ _ _ _ _ E). by apply Hk.
Qed.
Lemma keeps_get_bind {A B} h (f : net K → A) (k : A → ST (net K) B) : (∀ w, inv h w → ∃ b w', k (f w) w = Ret b w' ∧ inv h w') → keeps h (bind (gets f) k).
Proof using. intros Hk w Hw. rewrite bind_gets. by apply Hk. Qed.
Lemma keeps_if {A} h (b : bool) (m1 m2 : ST (net K) A) : keeps h m1 → keeps h m2 → keeps h (if b then m1 else m2).
Proof using. by destruct b. Qed.
(** A call that opens and closes nothing. *)
Lemma keeps_sys {A} h (f : K → A * K) : (∀ k, net_open (f k).2 = net_open k) → keeps h (sys f).
Proof using.
  intros Hf w [Ho Hn Hc]. unfold sys. specialize (Hf (system w)). destruct (f (system w)) as [a k]. exists a. eexists. split; [done|].
  constructor; [|done..]. etrans; [exact Hf|done].
Qed.
(** A change of the object that leaves the descriptor. *)
Lemma keeps_obj h (f : Socket → Socket) : (∀ s, m_sockfd (f s) = m_sockfd s) → (∀ s, m_isConnected (f s) = true → m_isConnected s = true) →
  keeps h (on_obj f).
Proof using.
  intros Hf Hc w [Ho Hn Hcn]. exists tt. eexists. split; [done|]. constructor; cbn; unfold own; rewrite Hf; auto.
Qed.

Create HintDb socket.
#[local] Hint Resolve socket_keeps_ret socket_keeps_gets keeps_if keeps_sys keeps_obj : socket.
#[local] Hint Resolve open_bind open_connect open_listen open_send open_recv open_sendto open_recvfrom : socket.
#[local] Hint Resolve open_setsockopt open_getsockopt open_cancelEvent open_cancelAll : socket.
(** A straight piece of code, call by call. *)
Ltac keep := repeat first [solve [auto with socket] | apply socket_keeps_bind; [|intros ?] | apply keeps_if | case_match].

Lemma keeps_setOption h level option v : keeps h (setOption level option v).
Proof using. unfold setOption. keep. Qed.
#[local] Hint Resolve keeps_setOption : socket.
Lemma keeps_setTimeout h option v : keeps h (setTimeout option v).
Proof using. unfold setTimeout. keep. Qed.
#[local] Hint Resolve keeps_setTimeout : socket.
Lemma keeps_initSock h : keeps h initSock.
Proof using. unfold initSock. keep. Qed.
#[local] Hint Resolve keeps_initSock : socket.
Lemma keeps_remote h : keeps h getRemoteAddress.
Proof using. unfold getRemoteAddress. keep. Qed.
Lemma keeps_local h : keeps h getLocalAddress.
Proof using. unfold getLocalAddress. keep. Qed.
#[local] Hint Resolve keeps_remote keeps_local : socket.

(** [close] leaves exactly the other descriptors open. *)
Lemma close_closes h w : inv h w → ∃ b w', close w = Ret b w' ∧ inv h w' ∧ m_sockfd (obj w') = -1.
Proof using.
  intros Hi. pose proof Hi as [Ho Hn Hc]. unfold close. rewrite bind_gets. destruct (Z.eqb_spec (m_sockfd (obj w)) (-1)) as [E|E].
  - destruct (m_isConnected (obj w)) eqn:Ec; [by destruct (Hc eq_refl)|]. exists true, w. done.
  - rewrite andb_false_r. unfold on_obj. rewrite bind_modify. cbn [negb]. eexists false, _. split; [reflexivity|]. split; [|done].
    constructor; cbn; [|done..]. rewrite open_close, Ho. unfold own. rewrite (proj2 (Z.eqb_neq _ _)) by done.
    specialize (Hn E). set_solver.
Qed.
Lemma keeps_close h : keeps h close.
Proof using. intros w Hw. destruct (close_closes h w Hw) as (b & w' & E & Hw' & _). by exists b, w'. Qed.
#[local] Hint Resolve keeps_close : socket.

Lemma keeps_newSock h w : inv h w → m_sockfd (obj w) = -1 → ∃ w', newSock w = Ret tt w' ∧ inv h w'.
Proof using.
  intros [Ho Hn Hc] E. unfold newSock. rewrite bind_gets. unfold sys.
  pose proof (open_socket (m_family (obj w)) (m_type (obj w)) (m_protocol (obj w)) (system w)) as Hs.
  unfold bind at 1. destruct (net_socket _ _ _ (system w)) as [fd k']. unfold on_obj. rewrite bind_modify.
  assert (own (obj w) = ∅) as Eo by (unfold own; by rewrite E). rewrite Eo in Ho.
  assert (inv h (mkNet (set_sockfd fd (obj w)) k')) as Hi.
  { constructor; cbn.
    - destruct Hs as [[-> Hs]|(Hf & Hnot & Hs)]; rewrite Hs, Ho; [done|]. unfold own. cbn. rewrite (proj2 (Z.eqb_neq fd (-1))) by lia. set_solver.
    - intros Hf. destruct Hs as [[-> _]|(_ & Hnot & _)]; [done|]. rewrite Ho in Hnot. set_solver.
    - intros Hcon. by destruct (Hc Hcon E). }
  destruct (negb _); [|by exists (mkNet (set_sockfd fd (obj w)) k')].
  destruct (keeps_initSock h _ Hi) as ([] & w' & Ew & Hw'). by exists w'.
Qed.
(** [need_sock] goes on with a descriptor. *)
Definition keeps_valid (h : gset Z) (k : ST (net K) bool) : Prop :=
  ∀ w, inv h w → m_sockfd (obj w) ≠ -1 → ∃ b w', k w = Ret b w' ∧ inv h w'.
Lemma keeps_need_sock h (k : ST (net K) bool) : keeps_valid h k → keeps h (need_sock k).
Proof using.
  intros Hk w Hw. unfold need_sock, isValid. rewrite bind_gets, negb_involutive.
  destruct (Z.eqb_spec (m_sockfd (obj w)) (-1)) as [E|E]; [|by apply Hk].
  destruct (keeps_newSock h w Hw E) as (w' & En & Hw'). rewrite (bind_Ret _ _ _ _ _ En), bind_gets, negb_involutive.
  destruct (Z.eqb_spec (m_sockfd (obj w')) (-1)) as [E'|E']; [by exists false, w'|by apply Hk].
Qed.
Lemma keeps_same_family h addr (k : ST (net K) bool) : keeps_valid h k → keeps_valid h (same_family host addr k).
Proof using.
  intros Hk w Hw Hv. unfold same_family. rewrite bind_gets. destruct (negb _); [by exists false, w|by apply Hk].
Qed.
Lemma keeps_bind_op h addr : keeps h (bind_ host addr).
Proof using.
  apply keeps_need_sock, keeps_same_family. intros w Hw _. rewrite bind_gets. revert w Hw.
  intros w Hw. assert (keeps h (let* r := sys (net_bind (m_sockfd (obj w)) addr) in
    if negb (r =? 0) then ret false else let* _ := getLocalAddress in ret true)) as Hk by keep. by apply Hk.
Qed.
Lemma keeps_connect h addr t : keeps h (connect host addr t).
Proof using.
  apply keeps_need_sock, keeps_same_family. intros w Hw Hv. rewrite bind_gets. destruct (t =? _).
  - destruct (keeps_sys h (net_connect (m_sockfd (obj w)) addr None) (open_connect _ _ _) w Hw) as (r & w1 & E & Hw1).
    rewrite (bind_Ret _ _ _ _ _ E). assert (obj w1 = obj w) as Eo.
    { unfold sys in E. destruct (net_connect _ _ _ _). by injection E as _ <-. }
    destruct (negb _).
    + assert (keeps h (let* _ := close in ret false)) as Hk by keep. by apply Hk.
    + unfold on_obj. rewrite bind_modify. assert (inv h (set_obj (set_connected true (obj w1)) w1)) as Hw2.
      { destruct Hw1 as [H1 H2 H3]. constructor; cbn; [done|done|]. intros _. by rewrite Eo. }
      assert (keeps h (let* _ := getRemoteAddress in let* _ := getLocalAddress in ret true)) as Hk by keep. by apply Hk.
  - assert (keeps h (let* _ := sys (net_connect (m_sockfd (obj w)) addr (Some t)) in let* _ := close in ret false)) as Hk by keep. by apply Hk.
Qed.

(** What leaves the descriptor and the connection as they are. *)
Definition fixes {A} (m : ST (net K) A) : Prop := ∀ w a w', m w = Ret a w' →
  m_sockfd (obj w') = m_sockfd (obj w) ∧ m_isConnected (obj w') = m_isConnected (obj w).
Lemma fixes_bind {A B} (m : ST (net K) A) (k : A → ST (net K) B) : fixes m → (∀ a, fixes (k a)) → fixes (bind m k).
Proof using.
  intros Hm Hk w b w2. unfold bind. destruct (m w) as [a w1| |] eqn:E; [|done..]. intros E2. destruct (Hm _ _ _ E), (Hk a _ _ _ E2). by split; etrans.
Qed.
Lemma fixes_ret {A} (a : A) : fixes (ret a).
Proof using. by intros w b w' [= _ <-]. Qed.
Lemma fixes_gets {A} (f : net K → A) : fixes (gets f).
Proof using. by intros w b w' [= _ <-]. Qed.
Lemma fixes_sys {A} (f : K → A * K) : fixes (sys f).
Proof using. intros w b w'. unfold sys. destruct (f (system w)). by intros [= _ <-]. Qed.
Lemma fixes_obj (f : Socket → Socket) : (∀ s, m_sockfd (f s) = m_sockfd s) → (∀ s, m_isConnected (f s) = m_isConnected s) → fixes (on_obj f).
Proof using. intros Hf Hc w b w' [= _ <-]. split; [apply Hf|apply Hc]. Qed.
#[local] Hint Resolve fixes_ret fixes_gets fixes_sys fixes_obj : socket.
Lemma fixes_init : fixes (initSock (K := K) ;;; let* _ := getLocalAddress in let* _ := getRemoteAddress in ret tt).
Proof using.
  unfold initSock, setOption, getLocalAddress, getRemoteAddress.
  repeat first [apply fixes_bind; [|intros ?] | case_match | progress auto with socket].
Qed.

Lemma keeps_listen h b : keeps h (listen b).
Proof using. unfold listen, isValid. keep. Qed.

(** [FdMgr] knows what the hooked [accept] returned. *)
Definition accept_registers : Prop := ∀ fd k, let (fd', k') := net_accept fd k in fd' ≠ -1 → net_known fd' k' = true.

Definition connected_to (s : option Socket) : list Z := match s with Some s => [m_sockfd s] | None => [] end.
Lemma accept_on_ok h w fd0 : accept_registers → inv h w → ∃ s w', accept_on fd0 w = Ret s w' ∧
  (∀ fd, fd ∈ connected_to s → 0 ≤ fd ∧ fd ∉ own (obj w) ∪ h) ∧ inv (list_to_set (connected_to s) ∪ h) w' ∧ obj w' = obj w.
Proof using.
  intros Hreg Hi. unfold accept_on, sys.
  pose proof (open_accept fd0 (system w)) as Ha. specialize (Hreg fd0 (system w)).
  unfold bind at 1. destruct (net_accept _ (system w)) as [fd k']. pose proof Hi as [Ho Hn Hc].
  destruct (Z.eqb_spec fd (-1)) as [E|E].
  - exists None, (set_system k' w). split_and!; [done|cbn; set_solver| |done].
    destruct Ha as [[_ Ha]|[? _]]; [|lia]. constructor; cbn; [rewrite Ha, Ho; set_solver|set_solver|done].
  - destruct Ha as [[? _]|(Hf & Hnot & Ha)]; [done|]. rewrite bind_gets. unfold init. cbn [system set_system obj]. rewrite (Hreg E).
    set (w0 := mkNet _ k'). rewrite Ho in Hnot, Ha.
    assert (inv (own (obj w) ∪ h) w0) as H0i.
    { constructor; cbn; [|done..]. rewrite Ha. unfold own at 2. cbn. by rewrite (proj2 (Z.eqb_neq fd (-1))). }
    assert (keeps (own (obj w) ∪ h) (initSock ;;; let* _ := getLocalAddress in let* _ := getRemoteAddress in ret tt)) as Hk by keep.
    destruct (Hk w0 H0i) as ([] & w1 & E1 & H1). rewrite E1. pose proof (fixes_init _ _ _ E1) as [Hfd _]. cbn in Hfd.
    exists (Some (obj w1)), (set_system (system w1) w). cbn [connected_to]. rewrite Hfd. split_and!; [done|by intros ? ->%list_elem_of_singleton| |done].
    pose proof (inv_open _ _ H1) as Ho1. unfold own at 1 in Ho1. rewrite Hfd, (proj2 (Z.eqb_neq fd (-1))) in Ho1 by done.
    constructor; cbn; [rewrite Ho1; set_solver| |done]. intros Hne. specialize (Hn Hne). unfold own in Hnot.
    rewrite (proj2 (Z.eqb_neq _ (-1))) in Hnot by done. set_solver.
Qed.
(** What is accepted is connected. *)
Lemma accept_on_connected fd0 w y w' : accept_on fd0 w = Ret (Some y) w' → m_isConnected y = true.
Proof using.
  unfold accept_on, sys. unfold bind at 1. destruct (net_accept _ (system w)) as [fd k']. destruct (_ =? _); [done|]. rewrite bind_gets. unfold init.
  destruct (net_known _ _); [|done]. destruct (bind _ _ _) as [v w1| |] eqn:E1; [|done..]. intros [= <- _]. by apply fixes_init in E1 as [_ ->].
Qed.
(** Setting a time limit leaves the object as it is. *)
Lemma setTimeout_obj o v w r w' : setTimeout o v w = Ret r w' → obj w' = obj w.
Proof using.
  unfold setTimeout, setOption, sys. destruct (timeval_of v) as [sec usec]. rewrite bind_assoc, bind_gets. unfold bind. destruct (net_setsockopt _ _ _ _ _). by intros [= _ <-].
Qed.
Lemma accept_ok h w : accept_registers → inv h w → ∃ acc w', exec OAccept w = Ret acc w' ∧ NoDup acc ∧
  (∀ fd, fd ∈ acc → 0 ≤ fd ∧ fd ∉ own (obj w) ∪ h) ∧ inv (list_to_set acc ∪ h) w' ∧ own (obj w') = own (obj w).
Proof using.
  intros Hreg Hi. destruct (accept_on_ok h w (m_sockfd (obj w)) Hreg Hi) as (s & w' & E & Hf & Hi' & Eo). exists (connected_to s), w'.
  unfold exec, accept. rewrite bind_assoc, bind_gets, (bind_Ret _ _ _ _ _ E). split_and!; [done| |done|done|by rewrite Eo].
  destruct s; cbn; [apply NoDup_singleton|constructor].
Qed.

Lemma exec_keeps h o : o ≠ OAccept → keeps h (exec o).
Proof using.
  intros Ho. destruct o; try done; cbn [exec]; (apply socket_keeps_bind; [|intros; apply socket_keeps_ret]).
  - apply keeps_bind_op.
  - apply keeps_connect.
  - apply keeps_listen.
  - apply keeps_close.
  - unfold send. keep.
  - unfold recv. keep.
  - apply keeps_local.
  - apply keeps_remote.
  - unfold send_iov. keep.
  - unfold recv_iov. keep.
  - unfold sendTo. keep.
  - unfold recvFrom. keep.
  - unfold sendTo_iov. keep.
  - unfold recvFrom_iov. keep.
  - apply keeps_setTimeout.
  - unfold getTimeout. keep.
  - unfold getError, getOption. keep.
  - unfold cancel. cbn [negb]. keep.
  - unfold cancelAll. cbn [negb]. keep.
Qed.
Lemma op_ok o h w : accept_registers → inv h w → ∃ acc w', exec o w = Ret acc w' ∧ NoDup acc ∧
  (∀ fd, fd ∈ acc → fd ∉ h) ∧ inv (list_to_set acc ∪ h) w'.
Proof using.
  intros Hreg Hi. assert (o = OAccept ∨ o ≠ OAccept) as [->|Ho] by (destruct o; by (left; reflexivity) || by right).
  - destruct (accept_ok h w Hreg Hi) as (acc & w' & E & Hd & Hn & Hi' & _). exists acc, w'. split_and!; try done. intros fd Hfd%Hn. set_solver.
  - destruct (exec_keeps h o Ho w Hi) as (acc & w' & E & Hi'). assert (acc = []) as ->.
    { revert E. destruct o; cbn [exec]; unfold bind; try (by case_match; intros [= <-]). }
    exists [], w'. split_and!; [done|constructor|set_solver|]. cbn. by rewrite union_empty_l_L.
Qed.
Lemma run_ok ops h w : accept_registers → inv h w → ∃ acc w', run ops w = Ret acc w' ∧ NoDup acc ∧
  (∀ fd, fd ∈ acc → fd ∉ h) ∧ inv (list_to_set acc ∪ h) w'.
Proof using.
  intros Hreg. revert h w. induction ops as [|o ops IH]; intros h w Hi; cbn [run].
  - exists [], w. split_and!; [done|constructor|set_solver|].
    cbn. by rewrite union_empty_l_L.
  - destruct (op_ok o h w Hreg Hi) as (a1 & w1 & E1 & N1 & D1 & H1). rewrite (bind_Ret _ _ _ _ _ E1).
    destruct (IH _ w1 H1) as (a2 & w2 & E2 & N2 & D2 & H2). rewrite (bind_Ret _ _ _ _ _ E2). exists (a1 ++ a2), w2.
    split_and!; [done|apply NoDup_app; set_solver|set_solver|]. rewrite list_to_set_app_L.
    by rewrite (union_comm_L (list_to_set a1)), <- union_assoc_L.
Qed.

(** C32: Sockets do not leak.  Whatever is done with a socket object, in any
    order and with any failures, its destructor leaves open exactly the descriptors
    that were open before and those of the connections it accepted; until then it
    is connected only while it has a descriptor. *)
Theorem socket_releases ops family type protocol k : accept_registers → (-1) ∉ net_open k →
  ∃ accepted w, run ops (mkNet (Socket_new family type protocol) k) = Ret accepted w
  ∧ (m_isConnected (obj w) = true → m_sockfd (obj w) ≠ -1)
  ∧ NoDup accepted ∧ (∀ fd, fd ∈ accepted → fd ∉ net_open k)
  ∧ ∃ w', destroy w = Ret tt w' ∧ net_open (system w') = list_to_set accepted ∪ net_open k.
Proof using.
  intros Hreg Hk. destruct (run_ok ops (net_open k) (mkNet (Socket_new family type protocol) k) Hreg) as (acc & w & E & N & D & Hi).
  { constructor; cbn; [|done..]. unfold own. cbn. by rewrite union_empty_l_L. }
  exists acc, w. split_and!; [done|apply Hi|done|done|]. destruct (close_closes _ w Hi) as (b & w' & E' & Hi' & Hfd).
  exists w'. unfold destroy. rewrite (bind_Ret _ _ _ _ _ E'). split; [done|]. rewrite (inv_open _ _ Hi'). unfold own. rewrite Hfd. set_solver.
Qed.
End ledger.

(** ** Bound and listening descriptors *)
Section serves.
Context {K : Type} `{NetServes K} (host : Z).
Implicit Type h : gset Z.

(** What leaves the descriptor and every binding as they are. *)
Definition quiet {A} (m : ST (net K) A) : Prop := ∀ w a w', m w = Ret a w' →
  m_sockfd (obj w') = m_sockfd (obj w) ∧ ∀ fd, net_serves fd (system w') = net_serves fd (system w).
Lemma quiet_bind {A B} (m : ST (net K) A) (k : A → ST (net K) B) : quiet m → (∀ a, quiet (k a)) → quiet (bind m k).
Proof using.
  intros Hm Hk w b w2. unfold bind. destruct (m w) as [a w1| |] eqn:E; [|done..]. intros E2.
  destruct (Hm _ _ _ E) as [E3 S3], (Hk a _ _ _ E2) as [E4 S4]. split; [by rewrite E4|]. intros fd. by rewrite S4.
Qed.
Lemma quiet_ret {A} (a : A) : quiet (ret a).
Proof using. by intros w b w' [= _ <-]. Qed.
Lemma quiet_gets {A} (f : net K → A) : quiet (gets f).
Proof using. by intros w b w' [= _ <-]. Qed.
Lemma quiet_obj (f : Socket → Socket) : (∀ s, m_sockfd (f s) = m_sockfd s) → quiet (on_obj f).
Proof using. intros Hf w b w' [= _ <-]. split; [apply Hf|done]. Qed.
Lemma quiet_setOption level option v : quiet (setOption level option v).
Proof using.
  unfold setOption. apply quiet_bind; [apply quiet_gets|]. intros fd. apply quiet_bind; [|intros r; apply quiet_ret].
  intros w b w'. unfold sys. destruct (net_setsockopt _ _ _ _ _) as [r k'] eqn:E. intros [= _ <-]. split; [done|]. intros fd'. cbn.
  change k' with (r, k').2. rewrite <- E. apply serves_setsockopt.
Qed.
Lemma quiet_initSock : quiet initSock.
Proof using. unfold initSock. repeat first [apply quiet_setOption | apply quiet_bind; [|intros ?] | apply quiet_gets | apply quiet_ret | case_match]. Qed.
Lemma quiet_local : quiet getLocalAddress.
Proof using. unfold getLocalAddress. repeat first [apply quiet_bind; [|intros ?] | apply quiet_gets | apply quiet_ret | by apply quiet_obj | case_match]. Qed.

Lemma newSock_serves h w w' : inv h w → m_sockfd (obj w) = -1 → newSock w = Ret tt w' →
  ∀ fd, fd ∈ h → net_serves fd (system w') = net_serves fd (system w).
Proof using.
  intros Hi E En fd Hfd. revert En. unfold newSock. rewrite bind_gets. unfold sys. pose proof (serves_socket fd (m_family (obj w)) (m_type (obj w)) (m_protocol (obj w)) (system w)) as Hs.
  unfold bind at 1. destruct (net_socket _ _ _ (system w)) as [fd' k']. unfold on_obj. rewrite bind_modify. rewrite <- Hs by (rewrite (inv_open _ _ Hi); set_solver).
  destruct (negb _); [|by intros [= <-]]. intros En. by apply quiet_initSock in En as [_ ->].
Qed.
(** [bind] binds its own descriptor to the address, and no other. *)
Lemma bind_serves h w addr b w' : inv h w → bind_ host addr w = Ret b w' →
  (∀ fd, fd ∈ h → net_serves fd (system w') = net_serves fd (system w))
  ∧ (b = true → m_sockfd (obj w') ≠ -1 ∧ (net_serves (m_sockfd (obj w')) (system w')).1 = Some addr).
Proof using.
  intros Hi. unfold bind_. set (k := same_family host addr _).
  assert (∀ w1, inv h w1 → m_sockfd (obj w1) ≠ -1 → k w1 = Ret b w' →
    (∀ fd, fd ∈ h → net_serves fd (system w') = net_serves fd (system w1))
    ∧ (b = true → m_sockfd (obj w') ≠ -1 ∧ (net_serves (m_sockfd (obj w')) (system w')).1 = Some addr)) as Hk.
  { intros w1 Hi1 Hne. unfold k, same_family. rewrite bind_gets. destruct (negb _); [by intros [= <- <-]|]. rewrite bind_gets. unfold sys.
    pose proof (serves_bind (m_sockfd (obj w1)) addr (system w1)) as Hb. pose proof (λ fd, serves_bind_other fd (m_sockfd (obj w1)) addr (system w1)) as Ho.
    unfold bind at 1. destruct (net_bind _ _ _) as [r k']. cbn [fst snd] in Hb, Ho.
    assert (∀ fd, fd ∈ h → net_serves fd k' = net_serves fd (system w1)) as Hh by (intros fd Hfd; apply Ho; intros ->; by apply (inv_own _ _ Hi1)).
    destruct (Z.eqb_spec r 0) as [Hr|]; cbn [negb]; [|by intros [= <- <-]]. unfold bind. destruct (getLocalAddress _) as [a w2| |] eqn:El; [|done..]. intros [= <- <-].
    apply quiet_local in El as [E2 S2]. cbn in E2, S2. split; [intros fd Hfd; rewrite S2; by apply Hh|]. intros _. rewrite E2, S2. split; [done|by apply Hb]. }
  unfold need_sock, isValid. rewrite bind_gets, negb_involutive. destruct (Z.eqb_spec (m_sockfd (obj w)) (-1)) as [E|E]; [|by apply Hk].
  destruct (keeps_newSock h w Hi E) as (w1 & En & Hi1). rewrite (bind_Ret _ _ _ _ _ En), bind_gets, negb_involutive. pose proof (newSock_serves h w w1 Hi E En) as Hs.
  destruct (Z.eqb_spec (m_sockfd (obj w1)) (-1)) as [E1|E1]; [by intros [= <- <-]|]. intros Ek. destruct (Hk w1 Hi1 E1 Ek) as [H3 H4]. split; [|done].
  intros fd Hfd. rewrite H3 by done. by apply Hs.
Qed.
Lemma listen_serves h w n b w' : inv h w → listen n w = Ret b w' → obj w' = obj w
  ∧ (∀ fd, fd ∈ h → net_serves fd (system w') = net_serves fd (system w))
  ∧ (b = true → m_sockfd (obj w) ≠ -1 ∧ net_serves (m_sockfd (obj w)) (system w') = ((net_serves (m_sockfd (obj w)) (system w)).1, true)).
Proof using.
  intros Hi. unfold listen, isValid. rewrite bind_gets, negb_involutive. destruct (Z.eqb_spec (m_sockfd (obj w)) (-1)) as [E|E]; [by intros [= <- <-]|].
  rewrite bind_gets. unfold sys. pose proof (serves_listen (m_sockfd (obj w)) n (system w)) as Hl. pose proof (λ fd, serves_listen_other fd (m_sockfd (obj w)) n (system w)) as Ho.
  unfold bind. destruct (net_listen _ _ _) as [r k']. intros [= <- <-]. split_and!; [done| |].
  - intros fd Hfd. apply Ho. intros ->. by apply (inv_own _ _ Hi).
  - intros Hr%Z.eqb_eq. split; [done|by apply Hl].
Qed.
Lemma close_serves h w b w' : inv h w → close w = Ret b w' → ∀ fd, fd ∈ h → net_serves fd (system w') = net_serves fd (system w).
Proof using.
  intros Hi. unfold close. rewrite bind_gets. destruct (_ && _); [by intros [= _ <-]|]. unfold on_obj. rewrite bind_modify.
  destruct (Z.eqb_spec (m_sockfd (obj w)) (-1)) as [E|E]; cbn [negb]; [by intros [= _ <-]|]. intros [= _ <-] fd Hfd. cbn. apply serves_close.
  intros ->. by apply (inv_own _ _ Hi).
Qed.
End serves.

(** ** A system that satisfies the laws *)
Record sockets := mkSystem { opened : gset Z; next : Z; served : gmap Z (option Address * bool) }.
Definition mkSockets (o : gset Z) (n : Z) : sockets := mkSystem o n ∅.
Definition open_next (k : sockets) : Z * sockets :=
  if (0 <=? next k) && bool_decide (next k ∉ opened k) then (next k, mkSystem ({[next k]} ∪ opened k) (next k + 1) (served k)) else (-1, k).
Definition serves_at (fd : Z) (k : sockets) : option Address * bool := default (None, false) (served k !! fd).
Definition set_serves (fd : Z) (v : option Address * bool) (k : sockets) : sockets := mkSystem (opened k) (next k) (<[fd := v]> (served k)).
#[export] Instance sockets_net : Net sockets := {|
  net_socket _ _ _ := open_next;
  net_bind fd a k := (0, set_serves fd (Some a, (serves_at fd k).2) k);
  net_connect _ _ _ k := (0, k);
  net_listen fd _ k := (0, set_serves fd ((serves_at fd k).1, true) k);
  net_accept _ := open_next;
  net_close fd k := mkSystem (opened k ∖ {[fd]}) (next k) (delete fd (served k));
  net_send _ l k := (zlen l, k);
  net_recv _ _ k := ((0, []), k);
  net_sendto _ l _ k := (zlen l, k);
  net_recvfrom _ _ from k := ((0, [], from), k);
  net_setsockopt _ _ _ _ k := (0, k);
  net_getsockopt _ _ _ k := (Some 0, k);
  net_timeout _ _ _ := None;
  net_cancelEvent _ _ k := (false, k);
  net_cancelAll _ k := (false, k);
  net_peername _ f k := None;
  net_sockname _ f k := Some (UnknowAddress_new f);
  net_known fd k := bool_decide (fd ∈ opened k)
|}.
Lemma open_next_law k : let (fd, k') := open_next k in
  (fd = -1 ∧ opened k' = opened k) ∨ (0 ≤ fd ∧ fd ∉ opened k ∧ opened k' = {[fd]} ∪ opened k).
Proof.
  unfold open_next. destruct (Z.leb_spec 0 (next k)); cbn [andb]; [|by left]. case_bool_decide; [by right|by left].
Qed.
#[export] Instance sockets_laws : NetLaws sockets.
Proof. refine {| net_open := opened |}; try done; intros; apply open_next_law. Defined.

Lemma serves_at_set fd fd' v k : serves_at fd (set_serves fd' v k) = if decide (fd = fd') then v else serves_at fd k.
Proof. unfold serves_at. cbn. destruct (decide (fd = fd')) as [->|]; [by rewrite lookup_insert_eq|by rewrite lookup_insert_ne]. Qed.
#[export] Instance sockets_serves : NetServes sockets.
Proof.
  refine {| net_serves := serves_at |}; intros; cbn; rewrite ?serves_at_set, ?decide_True, ?decide_False by done; try done.
  - unfold open_next. by destruct (_ && _).
  - unfold serves_at. cbn. by rewrite lookup_delete_ne.
Defined.

Lemma sockets_register : accept_registers (K := sockets).
Proof.
  intros fd k. cbn. unfold open_next. destruct (_ && _); [|done]. intros _. cbn. apply bool_decide_eq_true_2. set_solver.
Qed.

Definition sample : list op := [OBind (UnknowAddress_new 2); OListen 10; OAccept; OAccept; OClose; OConnect (UnknowAddress_new 2) 5000; OSend [65]].
Lemma socket_releases_witness :
  ∃ accepted w, run AZURE_LITTLE_ENDIAN sample (mkNet (Socket_new 2 TCP 0) (mkSockets ∅ 3)) = Ret accepted w
  ∧ (m_isConnected (obj w) = true → m_sockfd (obj w) ≠ -1)
  ∧ NoDup accepted ∧ (∀ fd, fd ∈ accepted → fd ∉ net_open (mkSockets ∅ 3))
  ∧ ∃ w', destroy w = Ret tt w' ∧ net_open (system w') = list_to_set accepted ∪ net_open (mkSockets ∅ 3).
Proof. apply (socket_releases AZURE_LITTLE_ENDIAN sample 2 TCP 0 (mkSockets ∅ 3) sockets_register). cbn. set_solver. Defined.

(** ** Where the code departs from its purpose *)
(** [connect] with a time limit closes the socket and reports failure even when
    the connection is there. *)
Lemma timed_connect_fails :
  match connect AZURE_LITTLE_ENDIAN (UnknowAddress_new 2) 5000 (mkNet (Socket_new 2 TCP 0) (mkSockets ∅ 3)) with
  | Ret ok w => ok = false ∧ m_sockfd (obj w) = -1
  | _ => False
  end ∧
  match connect AZURE_LITTLE_ENDIAN (UnknowAddress_new 2) (2 ^ 64 - 1) (mkNet (Socket_new 2 TCP 0) (mkSockets ∅ 3)) with
  | Ret ok w => ok = true
  | _ => False
  end.
Proof. by vm_compute. Qed.

(** ** Time limits and datagrams *)
(** A limit of less than 2^31 s survives the [timeval]: the hook of [setsockopt]
    puts the same number of milliseconds together again. *)
Lemma timeval_exact v : 0 ≤ v < 2 ^ 31 * 1000 → let (sec, usec) := timeval_of v in sec * 1000 + Z.quot usec 1000 = v.
Proof.
  intros Hv. unfold timeval_of. pose proof (Z.mod_pos_bound v 1000 ltac:(lia)) as Hm.
  pose proof (Z.div_le_lower_bound v 1000 0 ltac:(lia) ltac:(lia)). pose proof (Z.div_lt_upper_bound v 1000 (2 ^ 31) ltac:(lia) ltac:(lia)).
  rewrite (swrap_small 32 (v / 1000)) by (unfold is_s; lia).
  rewrite (uwrap_small 64 (v `mod` 1000 * 1000)), swrap_small by (unfold is_u, is_s; lia).
  rewrite Z.quot_mul by lia. pose proof (Z.div_mod v 1000 ltac:(lia)). lia.
Qed.
(** The limit -1, which means none, becomes one of 40 years. *)
Lemma no_limit_is_a_limit : timeval_of (2 ^ 64 - 1) = (1271310319, 615000).
Proof. reflexivity. Qed.
(** A bound UDP socket, which no one connects, neither sends nor receives: both
    ask for [m_isConnected], which only [connect] and [accept] set. *)
Lemma udp_never_receives {K} `{Net K} (w : net K) to n : m_isConnected (obj w) = false →
  sendTo [1] to w = Ret (-1) w ∧ recvFrom n to w = Ret (-1, [], to) w.
Proof. intros Hc. unfold sendTo, recvFrom. by rewrite !bind_gets, Hc. Qed.
