(* ===== verification/Stream.v ===== *)
(** * Stream: transfers of a fixed size over a socket
    ([include/stream.h], [src/stream.cpp], [src/socket_stream.cpp])

    A [SocketStream] is its socket object ([Socket.net]) and whether the pointer to
    it is set.  A caller's buffer is a list of bytes and a position in it; pointer
    arithmetic wraps as [size_t] does, and an access outside is [OutOfBounds]. *)
From S2P Require Import Prelude Socket ByteArray ByteArrayViews.

Section stream.
Context {K : Type} `{Net K} (has_socket : bool).

Definition isConnected : ST (net K) bool := let* c := Socket.isConnected in ret (has_socket && c).

(** [read(buffer, length)]: the result and the bytes stored *)
Definition read (length : Z) : ST (net K) (Z * list Z) :=
  let* c := isConnected in
  if negb c then ret (-1, []) else recv length.
Definition write (buffer : list Z) : ST (net K) Z :=
  let* c := isConnected in
  if negb c then ret (-1) else send buffer.
Definition close : ST (net K) unit :=
  if has_socket then let* _ := Socket.close in ret tt else ret tt.
(** The destructor *)
Definition destroy (owner : bool) : ST (net K) unit :=
  if owner && has_socket then let* _ := Socket.close in ret tt else ret tt.

(** What a call stores into, or takes from, the caller's buffer at [p]. *)
Definition put_bytes {S} (buf : list Z) (p : Z) (l : list Z) : ST S (list Z) :=
  match l with
  | [] => ret buf
  | _ => if (0 <=? p) && (p + zlen l <=? zlen buf) then ret (splice buf (Z.to_nat p) l) else crash OutOfBounds
  end.
Definition get_bytes {S} (buf : list Z) (p n : Z) : ST S (list Z) :=
  if (0 <=? p) && (p + n <=? zlen buf) then ret (slice buf (Z.to_nat p) (Z.to_nat n)) else crash OutOfBounds.

(** [readFixSize(buffer, length)], the buffer standing at [base] in [buf].
    [size_t len = read(...)]: a negative result becomes a huge length. *)
Fixpoint readFixSize_loop (fuel : nat) (base offset left total : Z) (buf : list Z) : ST (net K) (Z * list Z) :=
  match fuel with
  | O => crash Diverges
  | S fuel =>
      if 0 <? left then
        let* r := read left in
        let* buf := put_bytes buf (base + i64 offset) r.2 in
        let len := u64 r.1 in
        if len =? 0 then ret (i32 len, buf)
        else readFixSize_loop fuel base (u64 (offset + len)) (u64 (left - len)) total buf
      else ret (i32 total, buf)
  end.
Definition readFixSize (fuel : nat) (buf : list Z) (base length : Z) : ST (net K) (Z * list Z) :=
  readFixSize_loop fuel base 0 length length buf.

Fixpoint writeFixSize_loop (fuel : nat) (buf : list Z) (offset left total : Z) : ST (net K) Z :=
  match fuel with
  | O => crash Diverges
  | S fuel =>
      if 0 <? left then
        let* l := get_bytes buf (i64 offset) left in
        let* r := write l in
        let len := u64 r in
        if len =? 0 then ret (i32 len)
        else writeFixSize_loop fuel buf (u64 (offset + len)) (u64 (left - len)) total
      else ret (i32 total)
  end.
Definition writeFixSize (fuel : nat) (buf : list Z) (length : Z) : ST (net K) Z :=
  writeFixSize_loop fuel buf 0 length length.

(** ** With a [ByteArray] *)
Definition both : Type := net K * ByteArray.
Definition on_net {A} (m : ST (net K) A) : ST both A := λ w,
  match m w.1 with Ret a v => Ret a (v, w.2) | Throw e v => Throw e (v, w.2) | Crash f => Crash f end.
Definition on_ba {A} (m : ST ByteArray A) : ST both A := λ w,
  match m w.2 with Ret a v => Ret a (w.1, v) | Throw e v => Throw e (w.1, v) | Crash f => Crash f end.

(** [recvmsg] fills the areas in order, [sendmsg] sends them in order. *)
Context (fresh : nat → Z).
Definition read_ba (length : Z) : ST both Z :=
  let* c := on_net isConnected in
  if negb c then ret (-1)
  else
    let* v := on_ba (getWriteBuffers fresh [] length) in
    let* r := on_net (recv (iov_total v.2)) in
    on_ba (scatter v.2 r.2) ;;;
    (if 0 <? r.1 then on_ba (let* ba := gets id in setPosition (u64 (m_position ba + r.1))) else ret tt) ;;;
    ret r.1.
Definition write_ba (length : Z) : ST both Z :=
  let* c := on_net isConnected in
  if negb c then ret (-1)
  else
    let* v := on_ba (getReadBuffers [] (u32 length)) in
    let* ba := gets snd in
    let* r := on_net (send (gather ba v.2)) in
    (if 0 <? r then on_ba (let* ba := gets id in setPosition (u64 (m_position ba + r))) else ret tt) ;;;
    ret r.

Fixpoint fix_loop (op : Z → ST both Z) (fuel : nat) (left total : Z) : ST both Z :=
  match fuel with
  | O => crash Diverges
  | S fuel =>
      if 0 <? left then
        let* r := op left in
        let len := u64 r in
        if len =? 0 then ret (i32 len) else fix_loop op fuel (u64 (left - len)) total
      else ret (i32 total)
  end.
Definition readFixSize_ba (fuel : nat) (length : Z) : ST both Z := fix_loop read_ba fuel length length.
Definition writeFixSize_ba (fuel : nat) (length : Z) : ST both Z := fix_loop write_ba fuel length length.
End stream.
Arguments both K : clear implicits.

(** ** Fixed-size transfers deliver exactly the stream *)
(** A connection on which no call fails: [incoming] is what its peer sends from
    here on, up to the end of the stream, [outgoing] what was sent to it.  A call
    transfers at least one byte, and as many as the system likes. *)
Class Stream (K : Type) `{Net K} := {
  incoming : Z → K → list Z;
  outgoing : Z → K → list Z;
  recv_data fd n k : 0 < n → incoming fd k ≠ [] → let '((r, l), k') := net_recv fd n k in
    0 < r ≤ n ∧ r ≤ zlen (incoming fd k) ∧ l = take (Z.to_nat r) (incoming fd k) ∧
    incoming fd k' = drop (Z.to_nat r) (incoming fd k) ∧ outgoing fd k' = outgoing fd k;
  recv_end fd n k : 0 < n → incoming fd k = [] → net_recv fd n k = ((0, []), k);
  send_data fd l k : l ≠ [] → let (r, k') := net_send fd l k in
    0 < r ≤ zlen l ∧ outgoing fd k' = outgoing fd k ++ take (Z.to_nat r) l ∧ incoming fd k' = incoming fd k
}.

Section transfers.
Context {K : Type} `{Stream K}.
Implicit Type w : net K.
(** The stream of the object. *)
Definition coming w : list Z := incoming (m_sockfd (obj w)) (system w).
Definition gone w : list Z := outgoing (m_sockfd (obj w)) (system w).

(** How much the next call for up to [n] bytes gets. *)
Definition next_read w (n : Z) : Z := (net_recv (m_sockfd (obj w)) n (system w)).1.1.
(** A world reached by calls of [recv] and [send]. *)
Definition recvd (n : Z) w : net K := set_system (net_recv (m_sockfd (obj w)) n (system w)).2 w.
Definition sended (l : list Z) w : net K := set_system (net_send (m_sockfd (obj w)) l (system w)).2 w.
Inductive uses : net K → net K → Prop :=
  | uses_refl w : uses w w
  | uses_recv n w w' : 0 < n → uses (recvd n w) w' → uses w w'
  | uses_send l w w' : l ≠ [] → uses (sended l w) w' → uses w w'.
Lemma uses_trans w1 w2 w3 : uses w1 w2 → uses w2 w3 → uses w1 w3.
Proof using. induction 1; [done|..]; intros; [eapply uses_recv|eapply uses_send]; eauto. Qed.

Lemma read_runs w n : m_isConnected (obj w) = true → 0 < n < 2 ^ 31 →
  ∃ r k, read true n w = Ret (r, take (Z.to_nat r) (coming w)) (set_system k w) ∧ 0 ≤ r ≤ n ∧ r ≤ zlen (coming w)
  ∧ (r = 0 → coming w = []) ∧ coming (set_system k w) = drop (Z.to_nat r) (coming w) ∧ gone (set_system k w) = gone w ∧ r = next_read w n ∧ set_system k w = recvd n w.
Proof using.
  intros Hc Hn. unfold read, isConnected, Socket.isConnected. rewrite bind_assoc, bind_gets, bind_ret, Hc. cbn [andb negb].
  unfold recv. rewrite bind_gets, Hc. unfold sys, coming, gone, next_read, recvd. cbn [obj system set_system].
  destruct (decide (incoming (m_sockfd (obj w)) (system w) = [])) as [E|E].
  - unfold bind. rewrite (recv_end _ n _ ltac:(lia) E). exists 0, (system w). cbn. rewrite E. split_and!; done || lia.
  - pose proof (recv_data (m_sockfd (obj w)) n (system w) ltac:(lia) E) as Hr. unfold bind.
    destruct (net_recv _ n (system w)) as [[r l] k]. destruct Hr as (Hr1 & Hr2 & -> & Hin & Hout). exists r, k. cbn.
    rewrite swrap_small by (unfold is_s; lia). split_and!; try done; lia.
Qed.
Lemma write_runs w l : m_isConnected (obj w) = true → l ≠ [] → zlen l < 2 ^ 31 →
  ∃ r k, write true l w = Ret r (set_system k w) ∧ 0 < r ≤ zlen l
  ∧ gone (set_system k w) = gone w ++ take (Z.to_nat r) l ∧ coming (set_system k w) = coming w ∧ set_system k w = sended l w.
Proof using.
  intros Hc Hl Hn. unfold write, isConnected, Socket.isConnected. rewrite bind_assoc, bind_gets, bind_ret, Hc. cbn [andb negb].
  unfold send. rewrite bind_gets, Hc. unfold sys, bind, coming, gone, sended. cbn [obj system set_system].
  pose proof (send_data (m_sockfd (obj w)) l (system w) Hl) as Hs. destruct (net_send _ l (system w)) as [r k].
  destruct Hs as (Hr & Hout & Hin). exists r, k. cbn. rewrite swrap_small by (unfold is_s; lia). split_and!; done || lia.
Qed.

Lemma put_bytes_ok {S} (buf : list Z) p l (s : S) : 0 ≤ p → p + zlen l ≤ zlen buf → put_bytes buf p l s = Ret (splice buf (Z.to_nat p) l) s.
Proof using.
  intros Hp Hl. unfold put_bytes. destruct l as [|x l]; [by rewrite splice_nil|].
  by rewrite (proj2 (Z.leb_le 0 p)), (proj2 (Z.leb_le _ _)).
Qed.
Lemma zlen_splice (l : list Z) p d : (p + length d ≤ length l)%nat → zlen (splice l p d) = zlen l.
Proof using. intros Hp. unfold zlen. by rewrite length_splice. Qed.

Lemma readFixSize_runs fuel base offset left total buf w : m_isConnected (obj w) = true → 0 ≤ base → 0 ≤ offset → 0 ≤ left →
  base + offset + left ≤ zlen buf → offset + left < 2 ^ 31 → (Z.to_nat left < fuel)%nat → let n := Z.min left (zlen (coming w)) in
  ∃ k, readFixSize_loop true fuel base offset left total buf w
       = Ret (if left <=? zlen (coming w) then i32 total else 0,
              splice buf (Z.to_nat (base + offset)) (take (Z.to_nat n) (coming w))) (set_system k w)
  ∧ coming (set_system k w) = drop (Z.to_nat n) (coming w) ∧ gone (set_system k w) = gone w ∧ uses w (set_system k w).
Proof using.
  revert offset left buf w. induction fuel as [|fuel IH]; intros offset left buf w Hc Hb Ho Hl Hbuf Hmax Hf n; [lia|].
  pose proof (zlen_nonneg (coming w)) as Hz. cbn [readFixSize_loop]. destruct (Z.ltb_spec 0 left) as [Hlt|Hge].
  2:{ assert (left = 0) as -> by lia. exists (system w). unfold n. rewrite Z.min_l by lia. rewrite (proj2 (Z.leb_le 0 _)) by lia.
      change (take (Z.to_nat 0) ?l) with (@nil Z). rewrite splice_nil. split_and!; [by destruct w|done|done|]. destruct w. apply uses_refl. }
  destruct (read_runs w left Hc ltac:(lia)) as (r & k & E & Hr & Hr2 & Hr0 & Hd & Hg & _ & Hk). rewrite (bind_Ret _ _ _ _ _ E). cbn [fst snd].
  rewrite swrap_small by (unfold is_s; lia).
  assert (zlen (take (Z.to_nat r) (coming w)) = r) as Hzr by (apply zlen_take; lia).
  erewrite bind_Ret; [|apply put_bytes_ok; lia].
  rewrite (uwrap_small 64 r) by (unfold is_u; lia). destruct (Z.eqb_spec r 0) as [->|Hne].
  - specialize (Hr0 eq_refl). unfold n. rewrite Hr0 in *. exists k. rewrite !take_nil, drop_nil, splice_nil in *.
    change (zlen []) with 0. rewrite (proj2 (Z.leb_gt left 0)) by lia. split_and!; [done|by rewrite Hd|done|]. rewrite Hk. eapply uses_recv; [exact Hlt|apply uses_refl].
  - rewrite !uwrap_small by (unfold is_u; lia).
    destruct (IH (offset + r) (left - r) (splice buf (Z.to_nat (base + offset)) (take (Z.to_nat r) (coming w))) (set_system k w))
      as (k' & E' & Hd' & Hg' & Hrd); try done; try lia.
    { rewrite zlen_splice by (unfold zlen in *; lia). lia. }
    change (set_system k' (set_system k w)) with (set_system k' w) in *.
    exists k'. rewrite E', Hd', Hg', Hd, Hg, zlen_drop by lia.
    replace (Z.min (left - r) (zlen (coming w) - r)) with (n - r) by (unfold n; lia).
    replace (left - r <=? zlen (coming w) - r) with (left <=? zlen (coming w)) by (apply eq_true_iff_eq; rewrite !Z.leb_le; lia).
    split_and!; [|rewrite drop_drop; f_equal; unfold n; lia|done|rewrite Hk in Hrd; by eapply uses_recv]. do 2 f_equal.
    replace (Z.to_nat (base + (offset + r))) with (Z.to_nat (base + offset) + length (take (Z.to_nat r) (coming w)))%nat by (unfold zlen in *; lia).
    rewrite splice_app_data by (unfold zlen in *; rewrite !length_take, ?length_drop in *; lia).
    f_equal. rewrite <- (take_drop (Z.to_nat r) (take (Z.to_nat n) (coming w))).
    rewrite take_take, skipn_firstn_comm. f_equal; [f_equal; unfold n; lia|]. f_equal. unfold n. lia.
Qed.

Lemma get_bytes_ok {S} buf p n (s : S) : 0 ≤ p → p + n ≤ zlen buf → get_bytes buf p n s = Ret (slice buf (Z.to_nat p) (Z.to_nat n)) s.
Proof using. intros Hp Hn. unfold get_bytes. by rewrite (proj2 (Z.leb_le 0 p)), (proj2 (Z.leb_le _ _)). Qed.

Lemma writeFixSize_runs fuel buf offset left total w : m_isConnected (obj w) = true → 0 ≤ offset → 0 ≤ left →
  offset + left ≤ zlen buf → offset + left < 2 ^ 31 → (Z.to_nat left < fuel)%nat →
  ∃ k, writeFixSize_loop true fuel buf offset left total w = Ret (i32 total) (set_system k w)
  ∧ gone (set_system k w) = gone w ++ slice buf (Z.to_nat offset) (Z.to_nat left) ∧ coming (set_system k w) = coming w
  ∧ uses w (set_system k w).
Proof using.
  revert offset left w. induction fuel as [|fuel IH]; intros offset left w Hc Ho Hl Hbuf Hmax Hf; [lia|].
  cbn [writeFixSize_loop]. destruct (Z.ltb_spec 0 left) as [Hlt|Hge].
  2:{ assert (left = 0) as -> by lia. exists (system w). unfold slice. cbn. rewrite app_nil_r. split_and!; [by destruct w|done|done|]. destruct w. apply uses_refl. }
  rewrite swrap_small by (unfold is_s; lia). erewrite bind_Ret; [|apply get_bytes_ok; lia].
  set (l := slice buf (Z.to_nat offset) (Z.to_nat left)).
  assert (length l = Z.to_nat left) as Hll by (apply length_slice; unfold zlen in *; lia).
  assert (zlen l = left) as Hzl by (unfold zlen; lia).
  destruct (write_runs w l Hc) as (r & k & E & Hr & Hg & Hi & Hk); [by intros E; rewrite E in Hll; cbn in Hll; lia|lia|].
  rewrite (bind_Ret _ _ _ _ _ E), (uwrap_small 64 r) by (unfold is_u; lia). destruct (Z.eqb_spec r 0) as [->|Hne]; [lia|].
  rewrite !uwrap_small by (unfold is_u; lia).
  destruct (IH (offset + r) (left - r) (set_system k w)) as (k' & E' & Hg' & Hi' & Hu); try done; try lia.
  change (set_system k' (set_system k w)) with (set_system k' w) in *.
  exists k'. rewrite E', Hg', Hi', Hg, Hi.
  split_and!; [done| |done|rewrite Hk in Hu; eapply uses_send; [by intros El; rewrite El in Hll; cbn in Hll; lia|exact Hu]]. rewrite <- app_assoc. f_equal. unfold l.
  replace (Z.to_nat left) with (Z.to_nat r + Z.to_nat (left - r))%nat by lia. rewrite slice_app. f_equal.
  - apply take_app_length'. symmetry. apply length_slice. unfold zlen in *. lia.
  - f_equal. lia.
Qed.

(** Fixed-size reads.  On a connection without failures, however the stream
    is cut into pieces, [readFixSize(buffer, length)] ends; if the stream has
    [length] bytes left it returns [length], the buffer holds exactly these and the
    stream goes on behind them; if the stream ends before, it returns 0 and the
    buffer holds what there was.  Bytes outside the buffer are never touched. *)
Theorem readFixSize_exact fuel buf base length w : m_isConnected (obj w) = true → 0 ≤ base → 0 ≤ length < 2 ^ 31 →
  base + length ≤ zlen buf → (Z.to_nat length < fuel)%nat → let n := Z.to_nat (Z.min length (zlen (coming w))) in
  ∃ k, readFixSize true fuel buf base length w
       = Ret (if length <=? zlen (coming w) then length else 0, splice buf (Z.to_nat base) (take n (coming w))) (set_system k w)
  ∧ coming (set_system k w) = drop n (coming w) ∧ gone (set_system k w) = gone w.
Proof using.
  intros Hc Hb Hl Hbuf Hf n. destruct (readFixSize_runs fuel base 0 length length buf w) as (k & E & Hd & Hg & _); try done; try lia.
  exists k. unfold readFixSize. rewrite E, Z.add_0_r, swrap_small by (unfold is_s; lia). done.
Qed.
Lemma writeFixSize_exact fuel buf length w : m_isConnected (obj w) = true → 0 ≤ length < 2 ^ 31 → length ≤ zlen buf →
  (Z.to_nat length < fuel)%nat →
  ∃ k, writeFixSize true fuel buf length w = Ret length (set_system k w)
  ∧ gone (set_system k w) = gone w ++ take (Z.to_nat length) buf ∧ coming (set_system k w) = coming w ∧ uses w (set_system k w).
Proof using.
  intros Hc Hl Hbuf Hf. destruct (writeFixSize_runs fuel buf 0 length length w) as (k & E & Hg & Hi & Hu); try done; try lia.
  exists k. unfold writeFixSize. by rewrite E, swrap_small by (unfold is_s; lia).
Qed.
End transfers.

(** ** A system that delivers streams in small pieces *)
Record pipe := mkPipe { unread : list Z; sent : list Z; piece : Z }.
Definition piece_of (n : Z) (k : pipe) : Z := Z.max 1 (Z.min n (piece k)).
#[export] Instance pipe_net : Net pipe := {|
  net_socket _ _ _ k := (-1, k);
  net_bind _ _ k := (-1, k);
  net_connect _ _ _ k := (0, k);
  net_listen _ _ k := (-1, k);
  net_accept _ k := (-1, k);
  net_close _ k := k;
  net_send _ l k := let r := Z.min (zlen l) (piece_of (zlen l) k) in (r, mkPipe (unread k) (sent k ++ take (Z.to_nat r) l) (piece k));
  net_recv _ n k := let r := Z.min (zlen (unread k)) (piece_of n k) in
    ((r, take (Z.to_nat r) (unread k)), mkPipe (drop (Z.to_nat r) (unread k)) (sent k) (piece k));
  net_sendto _ l _ k := (zlen l, k);
  net_recvfrom _ _ from k := ((0, [], from), k);
  net_setsockopt _ _ _ _ k := (0, k);
  net_getsockopt _ _ _ k := (Some 0, k);
  net_timeout _ _ _ := None;
  net_cancelEvent _ _ k := (false, k);
  net_cancelAll _ k := (false, k);
  net_peername _ _ _ := None;
  net_sockname _ _ _ := None;
  net_known _ _ := true
|}.
#[export] Instance pipe_stream : Stream pipe.
Proof.
  refine {| incoming _ := unread; outgoing _ := sent |}.
  - intros fd n k Hn Hk. cbn. assert (0 < zlen (unread k)) by (destruct (unread k); [done|rewrite zlen_cons; pose proof (zlen_nonneg l); lia]).
    unfold piece_of. split_and!; done || lia.
  - intros fd n [[|x u] s p] Hn Hk; [|done]. cbn. change (zlen []) with 0. rewrite Z.min_l by (unfold piece_of; lia). done.
  - intros fd l k Hl. cbn. assert (0 < zlen l) by (destruct l; [done|rewrite zlen_cons; pose proof (zlen_nonneg l); lia]).
    unfold piece_of. split_and!; done || lia.
Defined.

Definition connected (k : pipe) : net pipe := mkNet (mkSocket 3 2 TCP 0 true None None) k.
Lemma readFixSize_exact_witness :
  let w := connected (mkPipe [1; 2; 3; 4; 5; 6; 7] [] 2) in let n := Z.to_nat (Z.min 5 (zlen (coming w))) in
  ∃ k, readFixSize true 6 (replicate 8 0) 2 5 w
       = Ret (if 5 <=? zlen (coming w) then 5 else 0, splice (replicate 8 0) 2 (take n (coming w))) (set_system k w)
  ∧ coming (set_system k w) = drop n (coming w) ∧ gone (set_system k w) = gone w.
Proof. apply (readFixSize_exact 6 (replicate 8 0) 2 5); [done|lia|lia|by vm_compute|cbn; lia]. Defined.

(** ** Where the code departs from its purpose *)
(** A read that fails is taken for a huge length: on a closed socket the loop
    goes on for ever, and asks for one byte more each time. *)
Definition closed : net pipe := mkNet (mkSocket (-1) 2 TCP 0 false None None) (mkPipe [] [] 1).
Lemma readFixSize_never_fails fuel : Z.of_nat fuel < 2 ^ 63 → readFixSize true fuel [0] 0 1 closed = Crash Diverges.
Proof.
  intros Hfuel. unfold readFixSize.
  assert (∀ left offset, 0 < left → left + Z.of_nat fuel < 2 ^ 64 →
    readFixSize_loop true fuel 0 offset left 1 [0] closed = Crash Diverges) as Hl; [|apply Hl; lia].
  clear Hfuel. induction fuel as [|fuel IH]; intros left offset Hp Hb; [done|]. cbn [readFixSize_loop].
  rewrite (proj2 (Z.ltb_lt 0 left)) by done.
  assert (read true left closed = Ret (-1, []) closed) as E by done. rewrite (bind_Ret _ _ _ _ _ E). cbn [fst snd put_bytes].
  rewrite bind_ret. change (u64 (-1)) with (2 ^ 64 - 1). rewrite (proj2 (Z.eqb_neq (2 ^ 64 - 1) 0)) by done.
  assert (u64 (left - (2 ^ 64 - 1)) = left + 1) as ->.
  { unfold uwrap. symmetry. apply (Z.mod_unique_pos _ _ (-1)); lia. }
  apply IH; lia.
Qed.
