(* ===== verification/HttpSession.v ===== *)
(** * HttpSession: one connection of the server ([src/http/http_session.cpp])

    The bytes of the receive buffer before the first read ([heap]), the
    uninitialised members of a parser ([garbage], [q], [relaxed]), the configured
    buffer size and [boost::lexical_cast<uint64_t>] are parameters.  Allocation
    succeeds. *)
From S2P Require Import Prelude CLib Socket Stream Http HttpResponse HttpRequest HttpRequestParser.

Section session.
Context {K : Type} `{Net K} (lexical_cast : string → option Z) (buffer_size : Z) (heap : list Z) (garbage q relaxed : Z).

Definition with_parser {A} (m : ST HttpRequestParser A) (p : HttpRequestParser) : ST (net K) (A * HttpRequestParser) := λ w,
  match m p with Ret a p' => Ret (a, p') w | Throw e _ => Throw e w | Crash f => Crash f end.

(** The session is closed and the caller gets a null pointer. *)
Definition give_up_session {A} : ST (net K) (option A) := close true ;;; ret None.

(** The loop that reads until the parser has seen the end of the head: the
    buffer, how many bytes behind the head it holds, and the parser. *)
Fixpoint recv_head (fuel : nat) (data : list Z) (offset : Z) (parser : HttpRequestParser) :
    ST (net K) (option (list Z * Z * HttpRequestParser)) :=
  match fuel with
  | O => crash Diverges
  | S fuel =>
      let* r := read true (u64 (buffer_size - offset)) in
      if r.1 <=? 0 then give_up_session
      else
        let* data := put_bytes data offset r.2 in
        let len := r.1 + offset in
        let* e := with_parser (execute data len) parser in
        let '(nparse, data, parser) := e in
        if hasError parser then give_up_session
        else
          let offset := i32 (len - nparse) in
          if offset =? i32 buffer_size then give_up_session
          else if negb (isFinished parser =? 0) then ret (Some (data, offset, parser))
          else recv_head fuel data offset parser
  end.

(** The body of [length] bytes, of which [offset] bytes may be in the buffer. *)
Definition recv_body (fuel : nat) (data : list Z) (offset length : Z) : ST (net K) (option (list Z)) :=
  let n := if offset <=? length then offset else length in
  let* part := get_bytes data 0 n in
  let* body := put_bytes (replicate (Z.to_nat length) 0) 0 part in
  if 0 <? length - offset then
    let* r := readFixSize true fuel body n (length - offset) in
    if r.1 <=? 0 then give_up_session else ret (Some r.2)
  else ret (Some body).

Definition keep_alive (r : HttpRequest) : HttpRequest :=
  if strcasecmp (getHeader r "Connection" "") "keep-alive" =? 0 then setClose false r else r.

Definition recvRequest (fuel : nat) : ST (net K) (option HttpRequest) :=
  let* h := recv_head fuel heap 0 (HttpRequestParser_new garbage q relaxed) in
  match h with
  | None => ret None
  | Some (data, offset, parser) =>
      let length := i64 (getContentLength lexical_cast parser) in
      if 0 <? length then
        let* body := recv_body fuel data offset length in
        match body with
        | None => ret None
        | Some body => ret (Some (keep_alive (setBody (string_of_bytes body) (getData parser))))
        end
      else ret (Some (keep_alive (getData parser)))
  end.

(** [writeFixSize(data.c_str(), data.size())] *)
Definition send_text (fuel : nat) (s : string) : ST (net K) Z := writeFixSize true fuel (bytes_of_string s) (size s).
Definition sendResponse (fuel : nat) (rsp : HttpResponse.HttpResponse) : ST (net K) Z := send_text fuel (HttpResponse.dump rsp).
(** [HttpConnection::sendRequest] *)
Definition sendRequest (fuel : nat) (req : HttpRequest) : ST (net K) Z := send_text fuel (dump req).
End session.
