(* ===== verification/HttpSessionTheorems.v ===== *)
(** * HttpSessionTheorems: a request travels from a client to a session *)
From S2P Require Import Prelude OrderedSet CLib Words Decimal Socket ByteArray ByteArrayViews Stream Http HttpFacts HttpRequest HttpRequestParser HttpLines HttpRequestSegments HttpRoundtrip HttpSession.

Lemma bytes_of_string_of_bytes l : bytes_ok l → bytes_of_string (string_of_bytes l) = l.
Proof.
  intros H. unfold bytes_of_string, string_of_bytes. rewrite String.list_ascii_of_string_of_list_ascii, <- list_fmap_compose.
  transitivity (id <$> l); [|apply list_fmap_id]. apply list_fmap_ext. intros i z Hz. cbn.
  pose proof (Forall_lookup_1 _ _ _ _ H Hz) as Hb. unfold is_byte, is_u in Hb.
  unfold char_code, code_char. rewrite Ascii.N_ascii_embedding by lia. lia.
Qed.

Section receive.
Context {K : Type} `{Stream K} (lexical_cast : string → option Z) (buffer_size : Z) (heap : list Z) (garbage q relaxed : Z).
Implicit Type w : net K.

(** The body, partly in the buffer. *)
Lemma recv_body_runs fuel data o body later w : m_isConnected (obj w) = true → 0 ≤ o ≤ zlen data →
  0 < zlen body < 2 ^ 31 → take (Z.to_nat o) data = take (Z.to_nat o) (body ++ later) → coming w = drop (Z.to_nat o) (body ++ later) →
  o ≤ zlen (body ++ later) → (length body < fuel)%nat →
  ∃ k, recv_body fuel data o (zlen body) w = Ret (Some body) (set_system k w)
  ∧ coming (set_system k w) = drop (Z.to_nat (Z.max o (zlen body))) (body ++ later) ∧ uses w (set_system k w) ∧ gone (set_system k w) = gone w.
Proof using.
  intros Hc Ho Hb Hd Hin Hol Hf. unfold recv_body. set (n := if o <=? zlen body then o else zlen body).
  assert (0 ≤ n ∧ n ≤ o ∧ n ≤ zlen body ∧ n = Z.min o (zlen body)) as (Hn0 & Hno & Hnb & Hn) by (unfold n; destruct (Z.leb_spec o (zlen body)); lia).
  clearbody n. erewrite bind_Ret; [|apply get_bytes_ok; lia].
  assert (slice data (Z.to_nat 0) (Z.to_nat n) = take (Z.to_nat n) body) as ->.
  { unfold slice. rewrite drop_0. transitivity (take (Z.to_nat n) (take (Z.to_nat o) data)); [rewrite take_take; f_equal; lia|].
    rewrite Hd, take_take, take_app_le by (unfold zlen in *; lia). f_equal. lia. }
  assert (zlen (replicate (Z.to_nat (zlen body)) 0) = zlen body) as Hr by (unfold zlen; rewrite length_replicate; lia).
  assert (zlen (take (Z.to_nat n) body) = n) as Ht by (apply zlen_take; lia).
  erewrite bind_Ret; [|apply put_bytes_ok; lia]. change (Z.to_nat 0) with 0%nat. set (b1 := splice _ _ _).
  assert (zlen b1 = zlen body) as Hb1.
  { unfold b1. rewrite zlen_splice; [done|]. unfold zlen in *. lia. }
  destruct (Z.ltb_spec 0 (zlen body - o)) as [Hlt|Hge].
  - assert (n = o) as -> by lia.
    assert (coming w = drop (Z.to_nat o) body ++ later) as Hin' by (rewrite Hin; apply drop_app_le; unfold zlen in *; lia).
    assert (zlen (drop (Z.to_nat o) body) = zlen body - o) as Hdz by (apply zlen_drop; lia).
    unfold readFixSize. destruct (readFixSize_runs fuel o 0 (zlen body - o) (zlen body - o) b1 w) as (k & E & Hd' & Hg' & Hrd); try done; try (unfold zlen in *; lia).
    pose proof (zlen_nonneg later) as Hz. rewrite Hin', zlen_app in E, Hd'. rewrite Z.min_l in E, Hd' by lia.
    rewrite (bind_Ret _ _ _ _ _ E). rewrite (proj2 (Z.leb_le (zlen body - o) _)) by lia. rewrite swrap_small by (unfold is_s; lia). cbn [fst snd].
    rewrite (proj2 (Z.leb_gt (zlen body - o) 0)) by lia. exists k. split; [|split; [|by split]].
    + unfold ret. do 2 f_equal. rewrite take_app_length' by (unfold zlen in *; lia). rewrite Z.add_0_r. unfold b1.
      pose proof (splice_app_data (replicate (Z.to_nat (zlen body)) 0) 0 (take (Z.to_nat o) body) (drop (Z.to_nat o) body)) as Hs.
      replace (0 + length (take (Z.to_nat o) body))%nat with (Z.to_nat o) in Hs by (unfold zlen in *; lia).
      rewrite Hs by (unfold zlen in *; lia). rewrite take_drop.
      unfold splice. rewrite take_0, drop_ge by (unfold zlen in *; lia). by rewrite app_nil_r.
    + rewrite Hd', drop_app_length' by (unfold zlen in *; lia). rewrite Z.max_r by lia. symmetry. apply drop_app_length'. unfold zlen. lia.
  - assert (n = zlen body) as -> by lia. exists (system w). split; [|split; [rewrite Z.max_l by lia; by destruct w|split; [destruct w; apply uses_refl|done]]].
    unfold ret. rewrite take_ge in Ht by (unfold zlen; lia). assert (b1 = body) as ->; [|by destruct w].
    unfold b1, splice. rewrite take_0, (take_ge body), drop_ge by (unfold zlen in *; lia). by rewrite app_nil_r.
Qed.

(** ** The whole request *)
Context (r : HttpRequest) (later : list Z).
Hypothesis r_ok : dumpable r.
Hypothesis heap_ok : bytes_ok heap ∧ zlen heap = buffer_size ∧ 0 < buffer_size < 2 ^ 31.
#[local] Abbreviation head := (size (head_text r) + 2).
#[local] Abbreviation body := (bytes_of_string (m_body r)).

Lemma head_runs fuel w : m_isConnected (obj w) = true → coming w = bytes_of_string (dump r) ++ later → bytes_ok later →
  head ≤ next_read w buffer_size → (0 < fuel)%nat → let n := next_read w buffer_size in
  ∃ data k parser, recv_head buffer_size fuel heap 0 (HttpRequestParser_new garbage q relaxed) w
    = Ret (Some (data, n - head, parser)) (set_system k w)
  ∧ getData parser = parsed garbage r ∧ zlen data = buffer_size ∧ head ≤ n ≤ buffer_size ∧ n ≤ zlen (bytes_of_string (dump r) ++ later)
  ∧ take (Z.to_nat (n - head)) data = take (Z.to_nat (n - head)) (body ++ later)
  ∧ coming (set_system k w) = drop (Z.to_nat (n - head)) (body ++ later) ∧ uses w (set_system k w) ∧ gone (set_system k w) = gone w.
Proof using heap_ok r_ok.
  intros Hc Hin Hlater Hhead Hfuel n. destruct heap_ok as (Hhb & Hhz & Hbs). pose proof (size_nonneg (head_text r)) as Hh0.
  destruct fuel as [|fuel]; [lia|]. cbn [recv_head]. rewrite Z.sub_0_r, uwrap_small by (unfold is_u; lia).
  destruct (read_runs w buffer_size Hc ltac:(lia)) as (r' & k & E & Hr & Hr2 & _ & Hd & Hg & Er & Hk). fold n in Er, Hhead. subst r'.
  rewrite (bind_Ret _ _ _ _ _ E). cbn [fst snd]. rewrite (proj2 (Z.leb_gt n 0)) by lia.
  assert (zlen (take (Z.to_nat n) (coming w)) = n) as Hzt by (apply zlen_take; lia).
  erewrite bind_Ret; [|apply put_bytes_ok; lia]. change (Z.to_nat 0) with 0%nat. rewrite Z.add_0_r.
  assert (bytes_of_string (dump r) ++ later = bytes_of_string (head_text r +:+ CRLF) ++ body ++ later) as Esplit.
  { rewrite dump_split, string_app_assoc, (bytes_of_string_app (head_text r +:+ CRLF)), <- app_assoc. done. }
  assert (length (bytes_of_string (head_text r +:+ CRLF)) = Z.to_nat head) as Hlh.
  { pose proof (size_bytes (head_text r +:+ CRLF)) as Hz. rewrite size_app in Hz. change (size CRLF) with 2 in Hz. unfold zlen in Hz. lia. }
  set (tail := take (Z.to_nat (n - head)) (body ++ later) ++ drop (Z.to_nat n) heap).
  assert (bytes_ok tail) as Htail.
  { unfold tail, bytes_ok. apply Forall_app. split; [apply Forall_take, Forall_app; split; [apply bytes_of_string_ok|done]|by apply Forall_drop]. }
  assert (splice heap 0 (take (Z.to_nat n) (coming w)) = bytes_of_string (head_text r +:+ CRLF +:+ string_of_bytes tail)) as ->.
  { rewrite string_app_assoc, (bytes_of_string_app (head_text r +:+ CRLF)), bytes_of_string_of_bytes by done.
    assert (length (take (Z.to_nat n) (coming w)) = Z.to_nat n) as Hlt by (unfold zlen in Hzt; lia).
    unfold splice, tail. rewrite take_0, Hlt, Hin, Esplit. cbn [app]. rewrite Nat.add_0_l, (app_assoc _ (take (Z.to_nat (n - head)) _)). f_equal.
    rewrite (take_app (bytes_of_string (head_text r +:+ CRLF))), (take_ge (bytes_of_string (head_text r +:+ CRLF))) by lia. do 2 f_equal. lia. }
  set (mem := bytes_of_string (head_text r +:+ CRLF +:+ string_of_bytes tail)).
  assert (zlen mem = buffer_size) as Hmem.
  { unfold mem. rewrite string_app_assoc, (bytes_of_string_app (head_text r +:+ CRLF)), bytes_of_string_of_bytes by done.
    unfold tail. rewrite !zlen_app. rewrite Hin, Esplit, zlen_app in Hr2.
    rewrite zlen_take, zlen_drop by (unfold zlen in *; lia). unfold zlen in *; lia. }
  destruct (execute_message r garbage q relaxed (string_of_bytes tail) n r_ok) as (mem' & s' & Ex & Hfin & Herr & Hdata & Hz & Htake).
  { fold mem. rewrite Hmem. unfold string_max_size. lia. }
  { fold mem. lia. }
  fold mem in Ex, Hz. unfold with_parser at 1. unfold bind at 1. rewrite Ex. rewrite Herr.
  rewrite swrap_small by (unfold is_s; lia). rewrite (swrap_small 32 buffer_size) by (unfold is_s; lia).
  rewrite (proj2 (Z.eqb_neq (n - head) buffer_size)) by lia. rewrite Hfin. cbn [negb Z.eqb].
  exists mem', k, s'. rewrite Hin, Esplit, zlen_app in Hr2.
  split_and!; try done; try lia.
  - by rewrite Esplit, zlen_app.
  - rewrite Htake, bytes_of_string_of_bytes by done. unfold tail. rewrite take_app_le by (rewrite length_take; unfold zlen in *; lia).
    rewrite take_take. f_equal. lia.
  - rewrite Hd, Hin, Esplit. rewrite (drop_app (bytes_of_string (head_text r +:+ CRLF))), (drop_ge (bytes_of_string (head_text r +:+ CRLF))) by lia. cbn [app]. f_equal. lia.
  - rewrite Hk. apply (uses_recv buffer_size); [lia|apply uses_refl].
Qed.

(** What the session hands to its servlets. *)
Definition received : HttpRequest := setClose (m_close r) (setBody (m_body r) (parsed garbage r)).
Hypothesis headers_r : headers_ok (m_headers r).
(** [lexical_cast] reads what [dump] prints. *)
Hypothesis lexical_dec : ∀ n, 0 ≤ n < 2 ^ 64 → lexical_cast (dec n) = Some n.
(** An empty body is not announced with another length. *)
Hypothesis no_length : m_body r = ""%string → find (m_headers r) "content-length" = None.

Lemma content_length parser : getData parser = parsed garbage r → getContentLength lexical_cast parser = size (m_body r).
Proof using r_ok headers_r lexical_dec no_length.
  intros Hd. unfold getContentLength, getHeaderAs. fold (getData parser). rewrite Hd. unfold getAs. rewrite parsed_header by done. unfold expected_header, expected.
  pose proof (ok_size r r_ok) as Hs. rewrite dump_split, !size_app in Hs. change (size CRLF) with 2 in Hs.
  pose proof (size_nonneg (head_text r)). pose proof (size_nonneg (m_body r)).
  destruct (decide (m_body r = ""%string)) as [E|E].
  - rewrite decide_False by (by intros [? _]). rewrite decide_False by (by vm_compute). by rewrite no_length, E.
  - rewrite decide_True by done. by rewrite lexical_dec by lia.
Qed.
Lemma keep_alive_close v : keep_alive (setBody v (parsed garbage r)) = setClose (m_close r) (setBody v (parsed garbage r)).
Proof using headers_r.
  unfold keep_alive, getHeader. change (m_headers (setBody v (parsed garbage r))) with (m_headers (parsed garbage r)).
  rewrite parsed_header by done. unfold expected_header, expected. rewrite decide_False by (intros [_ Hs]; by vm_compute in Hs).
  rewrite decide_True by done. by destruct (m_close r).
Qed.

Lemma recvRequest_runs fuel w : m_isConnected (obj w) = true → coming w = bytes_of_string (dump r) ++ later → bytes_ok later →
  head ≤ next_read w buffer_size → size (dump r) < Z.of_nat fuel →
  ∃ k, recvRequest lexical_cast buffer_size heap garbage q relaxed fuel w = Ret (Some received) (set_system k w)
  ∧ coming (set_system k w) = drop (Z.to_nat (Z.max (next_read w buffer_size) (size (dump r)))) (bytes_of_string (dump r) ++ later)
  ∧ uses w (set_system k w) ∧ gone (set_system k w) = gone w.
Proof using All.
  intros Hc Hin Hlater Hhead Hfuel. pose proof (size_nonneg (head_text r)) as Hh. pose proof (size_nonneg (m_body r)) as Hb.
  pose proof (ok_size r r_ok) as Hs. assert (size (dump r) = head + size (m_body r)) as Hsz.
  { rewrite dump_split, !size_app. change (size CRLF) with 2. lia. }
  set (n := next_read w buffer_size) in *.
  destruct (head_runs fuel w Hc Hin Hlater Hhead ltac:(lia)) as (data & k & parser & E & Hd & Hz & Hn & Hn2 & Ht & Hcom & Hrd & Hg). fold n in E, Hn, Hn2, Ht, Hcom.
  assert (∀ m, head ≤ m → drop (Z.to_nat m) (bytes_of_string (dump r) ++ later) = drop (Z.to_nat (m - head)) (body ++ later)) as Hdrop.
  { intros m Hm. assert (length (bytes_of_string (head_text r +:+ CRLF)) = Z.to_nat head) as Hlh.
    { pose proof (size_bytes (head_text r +:+ CRLF)) as Hz'. rewrite size_app in Hz'. change (size CRLF) with 2 in Hz'. unfold zlen in Hz'. lia. }
    rewrite dump_split, string_app_assoc, (bytes_of_string_app (head_text r +:+ CRLF)), <- app_assoc.
    rewrite (drop_app (bytes_of_string (head_text r +:+ CRLF))), (drop_ge (bytes_of_string (head_text r +:+ CRLF))) by lia. cbn [app]. f_equal. lia. }
  unfold recvRequest. rewrite (bind_Ret _ _ _ _ _ E), (content_length parser Hd), swrap_small by (unfold is_s; lia). rewrite Hd.
  pose proof (size_bytes (m_body r)) as Hzb. rewrite zlen_app, size_bytes in Hn2.
  destruct (Z.ltb_spec 0 (size (m_body r))) as [Hlt|Hge].
  - rewrite <- Hzb. destruct (recv_body_runs fuel data (n - head) body later (set_system k w)) as (k' & E' & Hcom' & Hrd' & Hg'); try done; try lia.
    { rewrite zlen_app. lia. } { unfold zlen in Hzb. lia. }
    rewrite (bind_Ret _ _ _ _ _ E'). exists k'. rewrite string_of_bytes_of_string, keep_alive_close. split; [done|].
    change (set_system k' (set_system k w)) with (set_system k' w) in *. split; [rewrite Hcom', Hdrop by lia; f_equal; lia|split; [by eapply uses_trans|congruence]].
  - assert (m_body r = ""%string) as E0 by (destruct (m_body r); [done|unfold size in Hge; cbn in Hge; lia]).
    exists k. assert (setBody (m_body r) (parsed garbage r) = parsed garbage r) as Eb by (by rewrite E0).
    rewrite <- Eb, keep_alive_close. split; [done|]. split; [rewrite Hcom, Hdrop by lia; f_equal; lia|done].
Qed.
End receive.

(** C3: A request arrives as it was sent.  [sendRequest] of a client writes
    exactly the text of the request to its connection.  A session whose stream
    starts with what the client wrote, and whose first read brings the head of the
    message, hands on a request with the same method, target, version, body and
    close flag and with the headers of the original, however the rest of the stream
    is cut into pieces; of what follows it loses what the first read brought. *)
Theorem request_arrives {K : Type} `{Stream K} (lexical_cast : string → option Z) buffer_size heap garbage q relaxed r fuel (wc : net K) :
  dumpable r → headers_ok (m_headers r) → (m_body r = ""%string → find (m_headers r) "content-length" = None) →
  (∀ n, 0 ≤ n < 2 ^ 64 → lexical_cast (dec n) = Some n) →
  bytes_ok heap ∧ zlen heap = buffer_size ∧ 0 < buffer_size < 2 ^ 31 →
  m_isConnected (obj wc) = true → size (dump r) < Z.of_nat fuel →
  ∃ kc sent, sendRequest fuel r wc = Ret (size (dump r)) (set_system kc wc) ∧ gone (set_system kc wc) = gone wc ++ sent ∧
  ∀ (ws : net K) later, m_isConnected (obj ws) = true → coming ws = sent ++ later → bytes_ok later →
    size (head_text r) + 2 ≤ next_read ws buffer_size →
    ∃ req ks, recvRequest lexical_cast buffer_size heap garbage q relaxed fuel ws = Ret (Some req) (set_system ks ws)
    ∧ m_method req = m_method r ∧ m_path req = m_path r ∧ m_query req = m_query r ∧ m_fragment req = m_fragment r
    ∧ m_version req = m_version r ∧ m_body req = m_body r ∧ m_close req = m_close r
    ∧ (∀ k, find (m_headers req) k = expected_header r k)
    ∧ coming (set_system ks ws) = drop (Z.to_nat (next_read ws buffer_size - size (dump r))) later.
Proof.
  intros Hr Hh Hno Hlex Hheap Hc Hf. pose proof (ok_size r Hr) as Hs. pose proof (size_nonneg (dump r)) as Hs0.
  destruct (writeFixSize_exact fuel (bytes_of_string (dump r)) (size (dump r)) wc Hc) as (kc & E & Hg & _); rewrite ?size_bytes; try lia.
  exists kc, (bytes_of_string (dump r)). rewrite take_ge in Hg by (rewrite length_bytes_of_string; unfold size; lia).
  split_and!; [done|done|]. intros ws later Hcs Hin Hl Hhead.
  destruct (recvRequest_runs lexical_cast buffer_size heap garbage q relaxed r later Hr Hheap Hh Hlex Hno fuel ws Hcs Hin Hl Hhead Hf) as (ks & E' & Hcom & _).
  exists (received garbage r), ks. split_and!; try done; [intros k; by apply parsed_header|].
  pose proof (size_bytes (dump r)) as Hz. unfold zlen in Hz.
  rewrite Hcom, drop_app, drop_ge by lia. cbn [app]. f_equal. lia.
Qed.

(** [boost::lexical_cast<uint64_t>] on texts of digits. *)
Definition cast_digits (s : string) : option Z :=
  let v := digits_value 10 0 (bytes_of_string s) in
  if all_in (between 48 57) s && negb (String.eqb s "") && (v <? 2 ^ 64) then Some v else None.
Lemma cast_digits_dec n : 0 ≤ n < 2 ^ 64 → cast_digits (dec n) = Some n.
Proof.
  intros Hn. unfold cast_digits, dec. destruct (pretty_N_digits (Z.to_N n)) as [-> Hne].
  pose proof (digits_value_pretty_N (Z.to_N n) [] I) as Hv. rewrite app_nil_r in Hv. rewrite Hv, Z2N.id by lia.
  rewrite (proj2 (Z.ltb_lt n _)) by lia. by destruct (String.eqb_spec (pretty (Z.to_N n)) "").
Qed.
Definition an_order : HttpRequest :=
  setBody "a=1&b=22" (setHeader "Host" "www.example.com" (setQuery "x=y" (setPath "/orders" (setMethod POST (HttpRequest_new 0 17 false))))).
Definition client : net pipe := connected (mkPipe [] [] 50).
Definition server : net pipe := connected (mkPipe (bytes_of_string (dump an_order) ++ [1; 2; 3]) [] 110).
Lemma request_arrives_witness :
  size (dump an_order) = 103 ∧
  ∃ kc sent, sendRequest 200 an_order client = Ret (size (dump an_order)) (set_system kc client) ∧ gone (set_system kc client) = gone client ++ sent ∧
  ∀ (ws : net pipe) later, m_isConnected (obj ws) = true → coming ws = sent ++ later → bytes_ok later →
    size (head_text an_order) + 2 ≤ next_read ws 256 →
    ∃ req ks, recvRequest cast_digits 256 (replicate 256 0) 1 2 3 200 ws = Ret (Some req) (set_system ks ws)
    ∧ m_method req = m_method an_order ∧ m_path req = m_path an_order ∧ m_query req = m_query an_order ∧ m_fragment req = m_fragment an_order
    ∧ m_version req = m_version an_order ∧ m_body req = m_body an_order ∧ m_close req = m_close an_order
    ∧ (∀ k, find (m_headers req) k = expected_header an_order k)
    ∧ coming (set_system ks ws) = drop (Z.to_nat (next_read ws 256 - size (dump an_order))) later.
Proof.
  split; [by vm_compute|]. apply (request_arrives cast_digits 256 (replicate 256 0) 1 2 3 an_order 200 client).
  - constructor; try done. repeat constructor.
  - unfold an_order. simpl. auto with azure.
  - done.
  - exact cast_digits_dec.
  - split; [|done]. apply Forall_replicate. done.
  - done.
  - by vm_compute.
Defined.
(** The hypotheses on the session hold, and the three bytes that follow are lost. *)
Lemma server_receives : size (head_text an_order) + 2 ≤ next_read server 256 ∧
  match recvRequest cast_digits 256 (replicate 256 0) 1 2 3 200 server with
  | Ret (Some req) w => (m_body req, coming w) = ("a=1&b=22"%string, [])
  | _ => False
  end.
Proof. vm_compute. split; [discriminate|reflexivity]. Qed.
