(* ===== verification/HttpServer.v ===== *)
(** * HttpServer: the loop over the requests of one client ([src/http/http_server.cpp])

    [fresh i] are the indeterminate bytes that the [i]-th call of [recvRequest]
    works with: its buffer and the uninitialised members of its parser.  Servlets
    get the request, the response and the session ([Servlet.exchange]). *)
From S2P Require Import Prelude Socket Stream Http HttpResponse HttpRequest HttpRequestParser Servlet HttpSession.

Record memory := mkMemory { heap : list Z; garbage : Z; query_start0 : Z; relaxed0 : Z }.

Section server.
Context {K : Type} `{Net K} (lexical_cast : string → option Z) (buffer_size : Z) (fresh : nat → memory).
Context (fnmatch : string → string → bool) (m_dispatch : ServletDispatch (Session := net K)) (m_isKeepalive : bool).

(** [m_dispatch->handle(req, rsp, session)] *)
Definition dispatch (req : HttpRequest) (rsp : HttpResponse.HttpResponse) : ST (net K) (HttpRequest * HttpResponse.HttpResponse) := λ w,
  let x := (handle fnmatch m_dispatch (mkExchange req rsp w)).2 in
  Ret (request x, response x) (session x).

Fixpoint handle_loop (fuel : nat) (io_fuel : nat) (i : nat) : ST (net K) unit :=
  match fuel with
  | O => crash Diverges
  | S fuel =>
      let m := fresh i in
      let* req := recvRequest lexical_cast buffer_size (heap m) (garbage m) (query_start0 m) (relaxed0 m) io_fuel in
      match req with
      | None => ret tt
      | Some req =>
          let rsp := HttpResponse_new (m_version req) (m_close req || negb m_isKeepalive) in
          let* x := dispatch req rsp in
          let '(req, rsp) := x in
          let* _ := sendResponse io_fuel rsp in
          if negb m_isKeepalive || m_close req then ret tt
          else if m_isKeepalive then handle_loop fuel io_fuel (S i) else ret tt
      end
  end.
Definition handleClient (fuel io_fuel : nat) : ST (net K) unit :=
  handle_loop fuel io_fuel 0 ;;; close true.
End server.

(** ** A client's requests are answered in order *)
From S2P Require Import OrderedSet Words Decimal Stream HttpFacts HttpRoundtrip HttpSessionTheorems.
(** ** Streams that arrive in segments *)
(** A call brings the next segment, or as much of it as was asked for; what was
    sent stays sent when the descriptor is closed. *)
Class Segments (K : Type) `{Stream K} := {
  segments : Z → K → list (list Z);
  seg_concat fd k : incoming fd k = concat (segments fd k);
  seg_recv fd n k s ss : 0 < n → segments fd k = s :: ss → s ≠ [] → let '((r, _), k') := net_recv fd n k in
    r = Z.min n (zlen s) ∧ segments fd k' = if n <? zlen s then drop (Z.to_nat n) s :: ss else ss;
  seg_send fd l k : segments fd (net_send fd l k).2 = segments fd k;
  seg_close fd fd' k : outgoing fd (net_close fd' k) = outgoing fd k
}.

Definition nonempty (ss : list (list Z)) : Prop := Forall (λ s, s ≠ []) ss.
(** What is left of a list of segments after some reads. *)
Inductive tail_of : list (list Z) → list (list Z) → Prop :=
  | tail_same ss : tail_of ss ss
  | tail_next s ss ss' : tail_of ss ss' → tail_of (s :: ss) ss'
  | tail_part u t ss : u ≠ [] → t ≠ [] → tail_of ((u ++ t) :: ss) (t :: ss).

Lemma tail_nonempty ss ss' : tail_of ss ss' → nonempty ss → nonempty ss'.
Proof.
  induction 1; intros Hn; [done|inversion Hn; auto|]. inversion Hn as [|? ? _ Hs]; subst. by constructor.
Qed.
Lemma tail_trans ss1 ss2 ss3 : tail_of ss1 ss2 → tail_of ss2 ss3 → tail_of ss1 ss3.
Proof.
  intros H12. revert ss3. induction H12 as [ss|s ss ss' _ IH|u t ss Hu Ht]; intros ss3 H23; [done|by apply tail_next, IH|].
  inversion H23 as [|? ? ? Hr|u' t' ? Hu' Ht']; subst; [by apply tail_part|by apply tail_next|].
  rewrite (assoc_L (++)). apply tail_part; [by destruct u|done].
Qed.
Lemma tail_length ss ss' : tail_of ss ss' → (length (concat ss') ≤ length (concat ss))%nat.
Proof. induction 1; cbn; rewrite ?length_app; lia. Qed.

(** After as many bytes as the first segments hold, the others are left. *)
Lemma tail_boundary ss1 ss2 ss' : nonempty (ss1 ++ ss2) → tail_of (ss1 ++ ss2) ss' → length (concat ss') = length (concat ss2) → ss' = ss2.
Proof.
  assert (∀ s : list Z, s ≠ [] → (0 < length s)%nat) as Hlen by (intros []; [done|cbn; lia]).
  induction ss1 as [|s ss1 IH]; cbn [app]; intros Hn Ht Hl.
  - inversion Ht as [|s ss ? Ht'|u t ss Hu ?]; subst; [done|..]; exfalso.
    + apply tail_length in Ht'. inversion Hn as [|? ? Hs]; subst. specialize (Hlen s Hs). cbn in Hl. rewrite length_app in Hl. lia.
    + specialize (Hlen u Hu). cbn in Hl. rewrite !length_app in Hl. lia.
  - inversion Hn as [|? ? Hs Hn']; subst. inversion Ht as [|? ss ? Ht'|u t ss Hu Hte]; subst.
    + exfalso. specialize (Hlen s Hs). cbn in Hl. rewrite concat_app, !length_app in Hl. lia.
    + by apply IH.
    + exfalso. specialize (Hlen t Hte). cbn in Hl. rewrite concat_app, !length_app in Hl. lia.
Qed.

Section segments.
Context {K : Type} `{Segments K}.
Definition segs (w : net K) : list (list Z) := segments (m_sockfd (obj w)) (system w).

Lemma recvd_tail n (w : net K) : 0 < n → nonempty (segs w) → tail_of (segs w) (segs (recvd n w)).
Proof using.
  intros Hn Hne. unfold segs in *. unfold recvd. cbn [obj system set_system]. destruct (segments (m_sockfd (obj w)) (system w)) as [|s ss] eqn:E.
  - assert (incoming (m_sockfd (obj w)) (system w) = []) as Ei by (by rewrite seg_concat, E).
    rewrite (recv_end _ n _ Hn Ei). cbn. rewrite E. apply tail_same.
  - inversion Hne as [|? ? Hs _]; subst. pose proof (seg_recv _ n _ s ss Hn E Hs) as Hr. destruct (net_recv _ n _) as [[r l] k']. cbn.
    destruct Hr as [_ ->]. destruct (Z.ltb_spec n (zlen s)) as [Hlt|Hge]; [|apply tail_next, tail_same].
    unfold zlen in Hlt. rewrite <- (take_drop (Z.to_nat n) s) at 1. apply tail_part; intros E'; apply (f_equal length) in E'; rewrite ?length_take, ?length_drop in E'; cbn in E'; lia.
Qed.
Lemma uses_tail (w w' : net K) : uses w w' → nonempty (segs w) → tail_of (segs w) (segs w').
Proof using.
  induction 1 as [w|n w w' Hn _ IH|l w w' _ _ IH]; intros Hne; [apply tail_same|..].
  - pose proof (recvd_tail n w Hn Hne) as Ht. eapply tail_trans; [exact Ht|]. apply IH. by eapply tail_nonempty.
  - assert (segs (sended l w) = segs w) as E by apply seg_send. rewrite E in IH. by apply IH.
Qed.
Lemma coming_segs w : coming w = concat (segs w).
Proof using. apply seg_concat. Qed.
Lemma next_read_segs w n s ss : 0 < n → segs w = s :: ss → s ≠ [] → next_read w n = Z.min n (zlen s).
Proof using.
  intros Hn E Hs. unfold next_read. pose proof (seg_recv _ n _ s ss Hn E Hs) as Hr. destruct (net_recv _ n _) as [[r l] k']. by destruct Hr.
Qed.
End segments.

(** ** Serving a client *)
Section serving.
Context {K : Type} `{SegK : Segments K} (lexical_cast : string → option Z) (buffer_size : Z) (fresh : nat → memory).
Context (fnmatch : string → string → bool) (d : ServletDispatch (Session := net K)) (keepalive : bool) (io_fuel : nat).
Implicit Type w : net K.

Hypothesis lexical_dec : ∀ n, 0 ≤ n < 2 ^ 64 → lexical_cast (dec n) = Some n.
Hypothesis fresh_ok : ∀ i, bytes_ok (heap (fresh i)) ∧ zlen (heap (fresh i)) = buffer_size ∧ 0 < buffer_size < 2 ^ 31.
(** The servlets fill in the response and leave the request and the connection alone. *)
Context (answer : HttpRequest → HttpResponse.HttpResponse → HttpResponse.HttpResponse).
Hypothesis servlets_answer : ∀ x, (handle fnmatch d x).2 = mkExchange (request x) (answer (request x) (response x)) (session x).

(** A request that arrives in these segments, the first of which has its head. *)
Record sent_as (r : HttpRequest) (ss : list (list Z)) : Prop := {
  sent_dumpable : dumpable r;
  sent_headers : headers_ok (m_headers r);
  sent_length : m_body r = ""%string → find (m_headers r) "content-length" = None;
  sent_text : concat ss = bytes_of_string (dump r);
  sent_segments : nonempty ss;
  sent_head : ∃ s rest, ss = s :: rest ∧ size (head_text r) + 2 ≤ zlen s;
  sent_fits : size (head_text r) + 2 ≤ buffer_size;
  sent_fuel : size (dump r) < Z.of_nat io_fuel
}.

Lemma receive_one i r ss rest w : m_isConnected (obj w) = true → segs w = ss ++ rest → nonempty (ss ++ rest) → bytes_ok (concat rest) →
  sent_as r ss → let m := fresh i in
  ∃ k, recvRequest lexical_cast buffer_size (heap m) (garbage m) (query_start0 m) (relaxed0 m) io_fuel w
       = Ret (Some (received (garbage m) r)) (set_system k w)
  ∧ segs (set_system k w) = rest ∧ gone (set_system k w) = gone w.
Proof using lexical_dec fresh_ok.
  intros Hc Hw Hne Hb Hs m. destruct (fresh_ok i) as (Hh1 & Hh2 & Hh3). destruct (sent_head r ss Hs) as (s & tl & Ess & Hhead).
  assert (coming w = bytes_of_string (dump r) ++ concat rest) as Hcom by (rewrite coming_segs, Hw, concat_app, (sent_text r ss Hs); done).
  assert (s ≠ []) as Hs0 by (pose proof (sent_segments r ss Hs) as Hn; rewrite Ess in Hn; by inversion Hn).
  assert (next_read w buffer_size = Z.min buffer_size (zlen s)) as Hnr.
  { apply (next_read_segs w buffer_size s (tl ++ rest)); [lia|by rewrite Hw, Ess|done]. }
  assert (zlen s ≤ size (dump r)) as Hsz.
  { rewrite <- size_bytes, <- (sent_text r ss Hs), Ess. cbn. rewrite zlen_app. pose proof (zlen_nonneg (concat tl)). lia. }
  pose proof (sent_fits r ss Hs).
  destruct (recvRequest_runs lexical_cast buffer_size (heap m) (garbage m) (query_start0 m) (relaxed0 m) r (concat rest)
    (sent_dumpable r ss Hs) (fresh_ok i) (sent_headers r ss Hs) lexical_dec (sent_length r ss Hs) io_fuel w Hc Hcom Hb) as (k & E & Hd & Hu & Hg);
    [lia|by apply (sent_fuel r ss)|].
  exists k. split_and!; [done| |done]. pose proof (uses_tail w _ Hu) as Ht. rewrite Hw in Ht.
  apply (tail_boundary ss rest); [done|by apply Ht|]. rewrite <- coming_segs, Hd. f_equal.
  rewrite Hnr, Z.max_r by lia. apply drop_app_length'. pose proof (size_bytes (dump r)) as Hz. unfold zlen in Hz. lia.
Qed.

(** The answers, in order: up to the first request that closes. *)
Definition reply (i : nat) (r : HttpRequest) : HttpResponse.HttpResponse :=
  answer (received (garbage (fresh i)) r) (HttpResponse_new (m_version r) (m_close r || negb keepalive)).
Fixpoint replies (i : nat) (rs : list HttpRequest) : list HttpResponse.HttpResponse :=
  match rs with
  | [] => []
  | r :: rs => reply i r :: if negb keepalive || m_close r then [] else replies (S i) rs
  end.
Definition replied (l : list HttpResponse.HttpResponse) : list Z := concat ((λ r, bytes_of_string (HttpResponse.dump r)) <$> l).
Definition fits (rsp : HttpResponse.HttpResponse) : Prop :=
  size (HttpResponse.dump rsp) < 2 ^ 31 ∧ size (HttpResponse.dump rsp) < Z.of_nat io_fuel.
Hypothesis io_pos : (0 < io_fuel)%nat.

Lemma send_one w rsp : m_isConnected (obj w) = true → fits rsp →
  nonempty (segs w) → ∃ k, sendResponse io_fuel rsp w = Ret (size (HttpResponse.dump rsp)) (set_system k w)
  ∧ gone (set_system k w) = gone w ++ bytes_of_string (HttpResponse.dump rsp) ∧ segs (set_system k w) = segs w.
Proof using io_pos.
  intros Hc [Hs Hf] Hne. pose proof (size_nonneg (HttpResponse.dump rsp)) as H0'.
  destruct (writeFixSize_exact io_fuel (bytes_of_string (HttpResponse.dump rsp)) (size (HttpResponse.dump rsp)) w Hc) as (k & E & Hg & Hi & Hu);
    rewrite ?size_bytes; try lia. exists k. rewrite take_ge in Hg by (rewrite length_bytes_of_string; unfold size; lia).
  split_and!; [done|done|]. apply (tail_boundary [] (segs w)); [done|by apply uses_tail|]. by rewrite <- !coming_segs, Hi.
Qed.

Lemma close_stream w : m_isConnected (obj w) = true → ∃ w', close true w = Ret tt w' ∧
  obj w' = set_sockfd (-1) (set_connected false (obj w)) ∧ outgoing (m_sockfd (obj w)) (system w') = gone w.
Proof using SegK.
  intros Hc. unfold close, Socket.close. rewrite bind_assoc, bind_gets, Hc. cbn [negb andb]. unfold on_obj. rewrite bind_assoc, bind_modify.
  destruct w as [[fd f t p c l r] k]. cbn in *. destruct (Z.eqb_spec fd (-1)) as [->|Hfd].
  - eexists. split; [reflexivity|done].
  - eexists. split; [reflexivity|]. split; [done|]. cbn. apply seg_close.
Qed.
Lemma receive_end i w : m_isConnected (obj w) = true → coming w = [] → let m := fresh i in
  ∃ w', recvRequest lexical_cast buffer_size (heap m) (garbage m) (query_start0 m) (relaxed0 m) io_fuel w = Ret None w' ∧
  obj w' = set_sockfd (-1) (set_connected false (obj w)) ∧ outgoing (m_sockfd (obj w)) (system w') = gone w.
Proof using SegK fresh_ok io_pos.
  intros Hc Hin m. destruct (fresh_ok i) as (_ & _ & Hbs). assert (∃ f, io_fuel = S f) as [f Ef] by (exists (pred io_fuel); lia). rewrite Ef.
  unfold recvRequest. cbn [recv_head]. rewrite Z.sub_0_r, uwrap_small by (unfold is_u; lia).
  destruct (read_runs w buffer_size Hc ltac:(lia)) as (r & k & E & Hr & Hr2 & _ & _ & Hg & _).
  rewrite Hin in Hr2. change (zlen []) with 0 in Hr2. assert (r = 0) as -> by lia.
  destruct (close_stream (set_system k w) Hc) as (w' & Ec & Ho & Hout). exists w'. split; [|split; [exact Ho|by rewrite <- Hg]].
  rewrite bind_assoc, (bind_Ret _ _ _ _ _ E). cbn [fst snd]. change (0 <=? 0) with true. cbv iota. unfold give_up_session.
  by rewrite bind_assoc, (bind_Ret _ _ _ _ _ Ec).
Qed.

Lemma sent_nonempty rs ss : Forall2 sent_as rs ss → nonempty (concat ss).
Proof using. induction 1 as [|r s rs ss Hr _ IH]; cbn; [constructor|]. apply Forall_app. split; [apply (sent_segments r s Hr)|exact IH]. Qed.

(** The loop: its socket is as before or closed. *)
Lemma loop_serves rs : ∀ ss i fuel w, Forall2 sent_as rs ss → segs w = concat ss → m_isConnected (obj w) = true → bytes_ok (coming w) →
  (length rs < fuel)%nat → (∀ j r, r ∈ rs → fits (reply j r)) →
  ∃ w', handle_loop lexical_cast buffer_size fresh fnmatch d keepalive fuel io_fuel i w = Ret tt w'
  ∧ (obj w' = obj w ∨ obj w' = set_sockfd (-1) (set_connected false (obj w)))
  ∧ outgoing (m_sockfd (obj w)) (system w') = gone w ++ replied (replies i rs).
Proof using lexical_dec fresh_ok servlets_answer io_pos.
  induction rs as [|r rs IH]; intros ss i fuel w Hrs Hw Hc Hb Hf Hfits; (destruct fuel as [|fuel]; [cbn in Hf; lia|]); cbn [handle_loop].
  - inversion Hrs; subst. destruct (receive_end i w Hc) as (w' & E & Ho & Hout); [by rewrite coming_segs, Hw|].
    rewrite (bind_Ret _ _ _ _ _ E). exists w'. split_and!; [done|by right|]. by rewrite Hout, app_nil_r.
  - inversion Hrs as [|? s1 ? ss' Hr Hrs']; subst. cbn [concat] in Hw. pose proof (sent_nonempty _ _ Hrs) as Hne. cbn [concat] in Hne.
    assert (bytes_ok (concat (concat ss'))) as Hb'.
    { rewrite coming_segs, Hw, concat_app in Hb. by apply Forall_app in Hb as [_ ?]. }
    destruct (receive_one i r s1 (concat ss') w Hc Hw Hne Hb' Hr) as (k1 & E1 & Hs1 & Hg1). rewrite (bind_Ret _ _ _ _ _ E1).
    set (w1 := set_system k1 w) in *. set (req := received _ r).
    assert (dispatch fnmatch d req (HttpResponse_new (HttpRequest.m_version req) (HttpRequest.m_close req || negb keepalive)) w1
      = Ret (req, reply i r) w1) as Ed by (unfold dispatch; by rewrite servlets_answer).
    rewrite (bind_Ret _ _ _ _ _ Ed).
    apply Forall_app in Hne as [_ Hne']. assert (nonempty (segs w1)) as Hne1 by (by rewrite Hs1).
    destruct (send_one w1 (reply i r) Hc (Hfits i r ltac:(by left)) Hne1) as (k2 & E2 & Hg2 & Hs2). rewrite (bind_Ret _ _ _ _ _ E2).
    change (HttpRequest.m_close req) with (HttpRequest.m_close r). cbn [replies].
    unfold replied. cbn [fmap list_fmap concat]. set (w2 := set_system k2 w1) in *.
    destruct (negb keepalive || HttpRequest.m_close r) eqn:Ecl.
    + exists w2. split_and!; [done|by left|]. cbn. rewrite app_nil_r, <- Hg1, <- Hg2. done.
    + apply orb_false_iff in Ecl as [Ek _]. apply negb_false_iff in Ek. rewrite Ek in *.
      destruct (IH ss' (S i) fuel w2 Hrs') as (w' & E & Ho & Hout); [by rewrite Hs2|done|by rewrite coming_segs, Hs2, Hs1|cbn in Hf; lia|intros j x Hx; apply Hfits; by right|].
      exists w'. split_and!; [done|done|]. etrans; [exact Hout|]. rewrite Hg2, Hg1, <- (assoc_L (++)). done.
Qed.

(** C1: Requests are answered in order.  A client that sends well-formed requests,
    each in segments of its own (none has the end of one request and the start of
    the next) of which the first has the whole head, and a head that one read takes,
    gets exactly the answers of the servlets to these requests, each once and in this order, up to
    the first request that asks to close (the first one of all if the server keeps
    no connection alive); then the connection is closed and its descriptor given
    back, also when the client just ends its stream. *)
Theorem requests_served rs ss fuel w : Forall2 sent_as rs ss → segs w = concat ss → m_isConnected (obj w) = true → bytes_ok (coming w) →
  (length rs < fuel)%nat → (∀ i r, r ∈ rs → fits (reply i r)) →
  ∃ w', handleClient lexical_cast buffer_size fresh fnmatch d keepalive fuel io_fuel w = Ret tt w'
  ∧ m_isConnected (obj w') = false ∧ m_sockfd (obj w') = -1
  ∧ outgoing (m_sockfd (obj w)) (system w') = gone w ++ replied (replies 0 rs).
Proof using lexical_dec fresh_ok servlets_answer io_pos.
  intros Hrs Hw Hc Hb Hf Hfits. destruct (loop_serves rs ss 0 fuel w Hrs Hw Hc Hb Hf Hfits) as (w1 & E & [Ho|Ho] & Hout);
    unfold handleClient; rewrite (bind_Ret _ _ _ _ _ E).
  - destruct (close_stream w1) as (w2 & E2 & Ho2 & Hout2); [by rewrite Ho|]. exists w2. rewrite Ho2, <- Hout, <- Ho, Hout2. done.
  - exists w1. rewrite Ho. split_and!; [|done|done|done]. unfold close, Socket.close. rewrite bind_assoc, bind_gets, Ho. done.
Qed.
End serving.

(** ** A server that satisfies the hypotheses *)
Record wire := mkWire { arriving : list (list Z); written : list Z }.
Fixpoint skip_empty (ss : list (list Z)) : list (list Z) := match ss with [] :: ss => skip_empty ss | _ => ss end.
#[export] Instance wire_net : Net wire := {|
  net_socket _ _ _ k := (-1, k);
  net_bind _ _ k := (-1, k);
  net_connect _ _ _ k := (0, k);
  net_listen _ _ k := (-1, k);
  net_accept _ k := (-1, k);
  net_close _ k := k;
  net_send _ l k := (zlen l, mkWire (arriving k) (written k ++ l));
  net_recv _ n k := match skip_empty (arriving k) with
    | [] => ((0, []), k)
    | s :: ss => ((Z.min n (zlen s), take (Z.to_nat n) s), mkWire (if n <? zlen s then drop (Z.to_nat n) s :: ss else ss) (written k))
    end;
  net_sendto _ l _ k := (zlen l, k);
  net_recvfrom _ _ from k := ((0, [], from), k);
  net_setsockopt _ _ _ _ k := (0, k);
  net_getsockopt _ _ _ k := (Some 0, k);
  net_timeout _ _ _ := None;
  net_cancelEvent _ _ k := (false, k);
  net_cancelAll _ k := (false, k);
  net_peername _ _ _ := None;
  net_sockname _ _ _ := None;
  net_known _ _ := true
|}.
Lemma skip_concat ss : concat (skip_empty ss) = concat ss.
Proof. induction ss as [|[|x s] ss IH]; done. Qed.
Lemma skip_head ss s tl : skip_empty ss = s :: tl → s ≠ [].
Proof. induction ss as [|[|x s0] ss IH]; cbn; [done|exact IH|]. by intros [= <- _]. Qed.
#[export] Instance wire_stream : Stream wire.
Proof.
  refine {| incoming _ k := concat (arriving k); outgoing _ := written |}.
  - intros fd n k Hn Hk. cbn. rewrite <- (skip_concat (arriving k)) in *. destruct (skip_empty (arriving k)) as [|s ss] eqn:E; [done|].
    assert (0 < zlen s) as Hs by (destruct s; [by destruct (skip_head _ _ _ E)|rewrite zlen_cons; pose proof (zlen_nonneg s); lia]).
    cbn [concat]. pose proof (zlen_nonneg (concat ss)). rewrite zlen_app.
    split_and!; [lia|lia|lia| |..|done]; cbn [arriving]; destruct (Z.ltb_spec n (zlen s)) as [Hlt|Hge].
    + rewrite Z.min_l, take_app_le by (unfold zlen in *; lia). done.
    + rewrite Z.min_r by lia. rewrite take_ge, take_app_length' by (unfold zlen in *; lia). done.
    + rewrite Z.min_l, drop_app_le by (unfold zlen in *; lia). done.
    + rewrite Z.min_r, drop_app_length' by (unfold zlen in *; lia). done.
  - intros fd n k Hn Hk. cbn. rewrite <- skip_concat in Hk. destruct (skip_empty (arriving k)) as [|s ss] eqn:E; [done|].
    cbn in Hk. apply app_eq_nil in Hk as [-> _]. by destruct (skip_head _ _ _ E).
  - intros fd l k Hl. cbn. assert (0 < zlen l) by (destruct l; [done|rewrite zlen_cons; pose proof (zlen_nonneg l); lia]).
    split_and!; [lia|lia| |done]. by rewrite take_ge by (unfold zlen; lia).
Defined.
#[export] Instance wire_segments : Segments wire.
Proof.
  refine {| segments _ := arriving |}; try done.
  intros fd n k s ss Hn E Hs. cbn. rewrite E. by destruct s.
Defined.

Definition a_visit : HttpRequest := HttpRequest.setHeader "Host" "www.example.com" (HttpRequest.setPath "/missing" (HttpRequest_new 0 17 true)).
Definition orders (q : HttpRequest) (p : HttpResponse.HttpResponse) : HttpResponse.HttpResponse :=
  HttpResponse.setBody ("order " +:+ HttpRequest.m_body q) p.
Definition shop : ServletDispatch (Session := net wire) :=
  addServlet_cb "/orders" (λ x, (0, mkExchange (request x) (orders (request x) (response x)) (session x))) ServletDispatch_new.
Definition shop_answer (q : HttpRequest) (p : HttpResponse.HttpResponse) : HttpResponse.HttpResponse :=
  if String.eqb "/orders" (HttpRequest.m_path q) then orders q p
  else response (NotFoundServlet_handle (mkExchange q p tt)).2.
Lemma shop_answers x : (handle (λ _ _, false) shop x).2 = mkExchange (request x) (shop_answer (request x) (response x)) (session x).
Proof.
  unfold handle, getMatchedServlet, shop, addServlet_cb, addServlet, shop_answer. cbn [m_datas m_globs m_default ServletDispatch_new].
  destruct (String.eqb_spec "/orders" (HttpRequest.m_path (request x))) as [<-|Hn].
  - by rewrite lookup_insert_eq.
  - by rewrite lookup_insert_ne, lookup_empty.
Qed.
(** The first request in two pieces. *)
Definition order_text : list Z := bytes_of_string (HttpRequest.dump an_order).
Definition visit_text : list Z := bytes_of_string (HttpRequest.dump a_visit).
Definition shop_segments : list (list (list Z)) := [[take 97 order_text; drop 97 order_text]; [visit_text]].
Definition shop_client : net wire := mkNet (mkSocket 3 2 TCP 0 true None None) (mkWire (concat shop_segments) []).
Definition shop_memory (i : nat) : memory := mkMemory (replicate 256 (Z.of_nat i `mod` 256)) (Z.of_nat i) 0 0.

Lemma order_sent : sent_as 256 500 an_order [take 97 order_text; drop 97 order_text].
Proof.
  constructor.
  - constructor; try done. repeat constructor.
  - unfold an_order. simpl. auto with azure.
  - done.
  - cbn [concat]. by rewrite app_nil_r, take_drop.
  - repeat constructor; by vm_compute.
  - eexists _, _. split; [done|]. by vm_compute.
  - by vm_compute.
  - by vm_compute.
Qed.
Lemma visit_sent : sent_as 256 500 a_visit [visit_text].
Proof.
  constructor.
  - constructor; try done. repeat constructor.
  - unfold a_visit. simpl. auto with azure.
  - intros _. by vm_compute.
  - cbn [concat]. by rewrite app_nil_r.
  - repeat constructor; by vm_compute.
  - eexists _, _. split; [done|]. by vm_compute.
  - by vm_compute.
  - by vm_compute.
Qed.
(** The replies do not depend on the indeterminate memory. *)
Lemma shop_replies i r : r ∈ [an_order; a_visit] → fits 500 (reply shop_memory true shop_answer i r).
Proof.
  intros Hr. rewrite !elem_of_cons in Hr. unfold fits. destruct Hr as [-> | [-> |Hr]]; [| |by apply not_elem_of_nil in Hr].
  - change (reply shop_memory true shop_answer i an_order) with (reply shop_memory true shop_answer 0 an_order). by vm_compute.
  - change (reply shop_memory true shop_answer i a_visit) with (reply shop_memory true shop_answer 0 a_visit). by vm_compute.
Qed.

Lemma requests_served_witness :
  ∃ w', handleClient cast_digits 256 shop_memory (λ _ _, false) shop true 3 500 shop_client = Ret tt w'
  ∧ m_isConnected (obj w') = false ∧ m_sockfd (obj w') = -1
  ∧ outgoing 3 (system w') = gone shop_client ++ replied (replies shop_memory true shop_answer 0 [an_order; a_visit]).
Proof.
  apply (requests_served cast_digits 256 shop_memory (λ _ _, false) shop true 500 cast_digits_dec) with (ss := shop_segments).
  - intros i. split_and!; try done. apply Forall_replicate. unfold is_byte, is_u. cbn. apply Z.mod_pos_bound. lia.
  - exact shop_answers.
  - lia.
  - constructor; [exact order_sent|]. constructor; [exact visit_sent|constructor].
  - done.
  - done.
  - assert (coming shop_client = bytes_of_string (HttpRequest.dump an_order +:+ HttpRequest.dump a_visit)) as -> by (by vm_compute).
    apply bytes_of_string_ok.
  - cbn. lia.
  - exact shop_replies.
Defined.
Example shop_statuses :
  (λ r, (HttpResponse.m_status r, HttpResponse.m_body r)) <$> take 1 (replies shop_memory true shop_answer 0 [an_order; a_visit])
  = [(200, "order a=1&b=22"%string)].
Proof. by vm_compute. Qed.
