(* ===== verification/HttpConnection.v ===== *)
(** * HttpConnection: the client's side of a connection ([src/http/http_connection.cpp])

    The receive buffer before the first read ([heap], of [buffer_size + 1] bytes),
    the uninitialised member of the parser ([status0]) and
    [boost::lexical_cast<uint64_t>] are parameters, as for a session.  The texts
    of the errors are left out. *)
From S2P Require Import Prelude OrderedSet CLib HttpClientParser Address Uri Socket Stream Http HttpResponse HttpRequest HttpResponseParser HttpSession.

Section response.
Context {K : Type} `{Net K} (lexical_cast : string → option Z) (buffer_size : Z) (heap : list Z) (status0 : Z).

Definition with_parser {A} (m : ST HttpResponseParser A) (p : HttpResponseParser) : ST (net K) (A * HttpResponseParser) := λ w,
  match m p with Ret a p' => Ret (a, p') w | Throw e _ => Throw e w | Crash f => Crash f end.
Definition no_response {A} : ST (net K) (option A) := close true ;;; ret None.

(** [data[len] = '\0'; parser->execute(data, len, chunk)] *)
Definition parse_data (chunk : bool) (data : list Z) (len : Z) (parser : HttpResponseParser) : ST (net K) (Z * list Z * HttpResponseParser) :=
  let* data := put_bytes data len [0] in
  with_parser (execute data len chunk) parser.

(** The loop that reads until the parser has seen the end of the head. *)
Fixpoint recv_head (fuel : nat) (data : list Z) (offset : Z) (parser : HttpResponseParser) :
    ST (net K) (option (list Z * Z * HttpResponseParser)) :=
  match fuel with
  | O => crash Diverges
  | S fuel =>
      let* r := read true (u64 (buffer_size - offset)) in
      if r.1 <=? 0 then no_response
      else
        let* data := put_bytes data offset r.2 in
        let len := r.1 + offset in
        let* e := parse_data false data len parser in
        let '(nparse, data, parser) := e in
        if hasError parser then no_response
        else
          let offset := i32 (len - nparse) in
          if offset =? i32 buffer_size then no_response
          else if negb (isFinished parser =? 0) then ret (Some (data, offset, parser))
          else recv_head fuel data offset parser
  end.

(** ** Chunks *)
(** The inner loop, up to the end of a chunk's head; [begin_] is its flag. *)
Fixpoint chunk_head (fuel : nat) (begin_ : bool) (data : list Z) (len : Z) (parser : HttpResponseParser) :
    ST (net K) (option (list Z * Z * HttpResponseParser)) :=
  match fuel with
  | O => crash Diverges
  | S fuel =>
      let* d :=
        (if negb begin_ || (len =? 0) then
           let* r := read true (u64 (buffer_size - len)) in
           if r.1 <=? 0 then no_response
           else let* data := put_bytes data len r.2 in ret (Some (data, len + r.1))
         else ret (Some (data, len))) in
      match d with
      | None => ret None
      | Some (data, len) =>
          let* e := parse_data true data len parser in
          let '(nparse, data, parser) := e in
          if hasError parser then no_response
          else
            let len := i32 (len - nparse) in
            if len =? i32 buffer_size then no_response
            else if negb (isFinished parser =? 0) then ret (Some (data, len, parser))
            else chunk_head fuel false data len parser
      end
  end.
(** [while(left > 0) { ... }]: the rest of a chunk's data and its line break. *)
Fixpoint chunk_rest (fuel : nat) (data body : list Z) (left : Z) : ST (net K) (option (list Z * list Z)) :=
  match fuel with
  | O => crash Diverges
  | S fuel =>
      if 0 <? left then
        let* r := read true (u64 (if i32 buffer_size <? left then i32 buffer_size else left)) in
        if r.1 <=? 0 then no_response
        else
          let* data := put_bytes data 0 r.2 in
          let* piece := get_bytes data 0 r.1 in
          chunk_rest fuel data (body ++ piece) (left - r.1)
      else ret (Some (data, body))
  end.
(** [body.append(data, n)]: a negative [int] is a huge length. *)
Definition append (body data : list Z) (n : Z) : ST (net K) (list Z) :=
  if n <? 0 then throw length_error else let* l := get_bytes data 0 n in ret (body ++ l).
Definition chunk_body (fuel : nat) (data body : list Z) (len content_len : Z) : ST (net K) (option (list Z * list Z * Z)) :=
  if 2 ^ 31 - 3 <? content_len then crash UndefinedArith
  else if content_len + 2 <=? len then
    let* body := append body data content_len in
    let* rest := get_bytes data (content_len + 2) (len - content_len - 2) in
    let* data := put_bytes data 0 rest in
    ret (Some (data, body, len - (content_len + 2)))
  else
    let* body := append body data len in
    let* r := chunk_rest fuel data body (content_len - len + 2) in
    match r with
    | None => ret None
    | Some (data, body) =>
        if zlen body <? 2 then throw length_error else ret (Some (data, take (length body - 2) body, 0))
    end.
Fixpoint recv_chunks (fuel io_fuel : nat) (data body : list Z) (len : Z) (parser : HttpResponseParser) : ST (net K) (option (list Z * HttpResponseParser)) :=
  match fuel with
  | O => crash Diverges
  | S fuel =>
      let* h := chunk_head io_fuel true data len parser in
      match h with
      | None => ret None
      | Some (data, len, parser) =>
          let* b := chunk_body io_fuel data body len (content_len parser) in
          match b with
          | None => ret None
          | Some (data, body, len) =>
              if chunks_done parser =? 0 then recv_chunks fuel io_fuel data body len parser else ret (Some (body, parser))
          end
      end
  end.

Definition recvResponse (fuel : nat) : ST (net K) (option HttpResponse) :=
  let* h := recv_head fuel heap 0 (HttpResponseParser_new status0) in
  match h with
  | None => ret None
  | Some (data, offset, parser) =>
      let* b :=
        (if negb (chunked parser =? 0) then recv_chunks fuel fuel data [] offset parser
         else
           let length := i64 (getContentLength lexical_cast parser) in
           if 0 <? length then
             let* body := recv_body fuel data offset length in
             ret (match body with Some body => Some (body, parser) | None => None end)
           else ret (Some ([], parser))) in
      match b with
      | None => ret None
      | Some (body, parser) =>
          ret (Some (match body with [] => getData parser | _ => HttpResponse.setBody (string_of_bytes body) (getData parser) end))
      end
  end.

(** ** Requests *)
Inductive Error :=
  | OK | INVALID_URL | INVALID_HOST | CREATE_SOCKET_ERROR | CONNECT_FAIL | SEND_CLOSE_BY_PEER | SEND_SOCKET_ERROR
  | TIMEOUT | POOL_GET_CONNECTION | POOL_INVALID_CONNECTION.
Definition error_code (e : Error) : Z :=
  match e with
  | OK => 0 | INVALID_URL => 1 | INVALID_HOST => 2 | CREATE_SOCKET_ERROR => 3 | CONNECT_FAIL => 4
  | SEND_CLOSE_BY_PEER => 5 | SEND_SOCKET_ERROR => 6 | TIMEOUT => 7 | POOL_GET_CONNECTION => 8 | POOL_INVALID_CONNECTION => 9
  end.
Record HttpResult := mkHttpResult { result : Z; response : option HttpResponse }.
Definition failed (e : Error) : HttpResult := mkHttpResult (error_code e) None.

(** From [sendRequest] on, over a connection that is up. *)
Definition exchange (fuel : nat) (req : HttpRequest) : ST (net K) HttpResult :=
  let* rt := sendRequest fuel req in
  if rt =? 0 then ret (failed SEND_CLOSE_BY_PEER)
  else if rt <? 0 then ret (failed SEND_SOCKET_ERROR)
  else
    let* rsp := recvResponse fuel in
    match rsp with
    | None => ret (failed TIMEOUT)
    | Some rsp => ret (mkHttpResult (error_code OK) (Some rsp))
    end.

(** [DoRequest(req, uri, timeout_ms)]; the connection, which owns its socket, goes
    at the end. *)
Definition DoRequest (host timeout_ms : Z) (fuel : nat) (addr : option Address) (req : HttpRequest) : ST (net K) HttpResult :=
  match addr with
  | None => ret (failed INVALID_HOST)
  | Some addr =>
      on_obj (λ _, CreateTCP host addr) ;;;
      let* up := connect host addr (2 ^ 64 - 1) in
      let* r :=
        (if negb up then ret (failed CONNECT_FAIL)
         else
           setRecvTimeout timeout_ms ;;;
           let* r := exchange fuel req in
           Stream.destroy true true ;;;
           ret r) in
      Socket.destroy ;;;
      ret r
  end.
End response.

(** [std::map<std::string, std::string>]: the headers in the order of their names *)
Definition header_list : Type := list (string * string).
Fixpoint add_headers (headers : header_list) (has_host : bool) (req : HttpRequest) : bool * HttpRequest :=
  match headers with
  | [] => (has_host, req)
  | (k, v) :: headers =>
      if strcasecmp k "connection" =? 0 then
        add_headers headers has_host (if strcasecmp v "keep-alive" =? 0 then HttpRequest.setClose false req else req)
      else
        add_headers headers (if negb has_host && (strcasecmp k "host" =? 0) then negb (String.eqb v "") else has_host) (HttpRequest.setHeader k v req)
  end.
Definition finish_request (headers : header_list) (host body : string) (req : HttpRequest) : HttpRequest :=
  let (has_host, req) := add_headers headers false req in
  HttpRequest.setBody body (if has_host then req else HttpRequest.setHeader "Host" host req).

(** [DoRequest(method, uri, timeout_ms, headers, body)] up to the call; [garbage] is
    the uninitialised status of a request. *)
Definition make_request (garbage : Z) (method : HttpMethod) (uri : Uri) (headers : header_list) (body : string) : HttpRequest :=
  finish_request headers (Uri.m_host uri) body
    (HttpRequest.setMethod method (HttpRequest.setFragment (Uri.m_fragment uri) (HttpRequest.setQuery (Uri.m_query uri)
      (HttpRequest.setPath (getPath uri) (HttpRequest_new garbage 17 true))))).

(** [doRequest(method, url, timeout_ms, headers, body)] of a pool, and the [url] it
    makes of a [Uri]. *)
Definition make_pool_request (garbage : Z) (m_host m_vhost : string) (method : HttpMethod) (url : string) (headers : header_list) (body : string) : HttpRequest :=
  finish_request headers (if String.eqb m_vhost "" then m_host else m_vhost) body
    (HttpRequest.setClose false (HttpRequest.setMethod method (HttpRequest.setPath url (HttpRequest_new garbage 17 true)))).
Definition pool_url (uri : Uri) : string :=
  getPath uri +:+ (if String.eqb (Uri.m_query uri) "" then "" else "?") +:+ Uri.m_query uri
  +:+ (if String.eqb (Uri.m_fragment uri) "" then "" else "#") +:+ Uri.m_fragment uri.

(** ** The functions with an address *)
Section requests.
Context {K : Type} `{Net K} (lexical_cast : string → option Z) (buffer_size : Z) (heap : list Z) (status0 : Z) (garbage : Z).
Context (LookupAnyIPAddress : string → option Address) (setAddressPort : Z → Address → Address) (host timeout_ms : Z) (fuel : nat).

Definition DoRequest_uri (method : HttpMethod) (uri : Uri) (headers : header_list) (body : string) : ST (net K) HttpResult :=
  DoRequest lexical_cast buffer_size heap status0 host timeout_ms fuel (createAddress LookupAnyIPAddress setAddressPort uri)
    (make_request garbage method uri headers body).
Definition with_uri (url : string) (k : Uri → ST (net K) HttpResult) : ST (net K) HttpResult :=
  match Uri.Create url with
  | Ret (Some uri) _ => k uri
  | Ret None _ => ret (failed INVALID_URL)
  | Throw e _ => throw e
  | Crash f => crash f
  end.
Definition DoRequest_url (method : HttpMethod) (url : string) (headers : header_list) (body : string) : ST (net K) HttpResult :=
  with_uri url (λ uri, DoRequest_uri method uri headers body).
Definition DoGet_uri : Uri → header_list → string → ST (net K) HttpResult := DoRequest_uri GET.
Definition DoPost_uri : Uri → header_list → string → ST (net K) HttpResult := DoRequest_uri POST.
Definition DoGet (url : string) (headers : header_list) (body : string) : ST (net K) HttpResult := with_uri url (λ uri, DoGet_uri uri headers body).
Definition DoPost (url : string) (headers : header_list) (body : string) : ST (net K) HttpResult := with_uri url (λ uri, DoPost_uri uri headers body).

(** [HttpConnectionPool::doRequest(req, timeout_ms)]: [conn] says whether
    [getConnection] gave a connection and whether that has a socket. *)
Definition pool_doRequest (conn : option bool) (req : HttpRequest) : ST (net K) HttpResult :=
  match conn with
  | None => ret (failed POOL_GET_CONNECTION)
  | Some false => ret (failed POOL_INVALID_CONNECTION)
  | Some true => setRecvTimeout timeout_ms ;;; exchange lexical_cast buffer_size heap status0 fuel req
  end.
Definition pool_request (m_host m_vhost : string) (conn : option bool) (method : HttpMethod) (url : string) (headers : header_list) (body : string) : ST (net K) HttpResult :=
  pool_doRequest conn (make_pool_request garbage m_host m_vhost method url headers body).
Definition pool_request_uri (m_host m_vhost : string) (conn : option bool) (method : HttpMethod) (uri : Uri) : header_list → string → ST (net K) HttpResult :=
  pool_request m_host m_vhost conn method (pool_url uri).
Definition doGet (m_host m_vhost : string) (conn : option bool) : string → header_list → string → ST (net K) HttpResult := pool_request m_host m_vhost conn GET.
Definition doPost (m_host m_vhost : string) (conn : option bool) : string → header_list → string → ST (net K) HttpResult := pool_request m_host m_vhost conn POST.
Definition doGet_uri (m_host m_vhost : string) (conn : option bool) (uri : Uri) : header_list → string → ST (net K) HttpResult := doGet m_host m_vhost conn (pool_url uri).
Definition doPost_uri (m_host m_vhost : string) (conn : option bool) (uri : Uri) : header_list → string → ST (net K) HttpResult := doPost m_host m_vhost conn (pool_url uri).
End requests.
