(* ===== verification/HttpConnectionTheorems.v ===== *)
(** * HttpConnectionTheorems: responses as they were sent, chunks put together *)
From S2P Require Import Prelude OrderedSet CLib Words Decimal HttpClientParser Socket ByteArray ByteArrayViews Stream Http HttpFacts HttpLines HttpResponse HttpRequest HttpResponseParser HttpResponseSegments HttpResponseRoundtrip HttpSession HttpSessionTheorems HttpServer HttpConnection.

(** ** The receive buffer *)
(** What was read, ended by a NUL, over what was there. *)
Lemma buffer_put {S} (heap l : list Z) (s : S) : zlen l < zlen heap →
  (let* d := put_bytes heap 0 l in put_bytes d (zlen l) [0]) s = Ret (l ++ 0 :: drop (length l + 1) heap) s.
Proof.
  intros Hl. pose proof (zlen_nonneg l) as H0. erewrite bind_Ret; [|apply put_bytes_ok; lia].
  assert (splice heap (Z.to_nat 0) l = l ++ drop (length l) heap) as -> by (unfold splice; by rewrite take_0).
  rewrite put_bytes_ok; [|lia|]; [f_equal|].
  - unfold splice. assert (Z.to_nat (zlen l) = length l) as -> by (unfold zlen; lia). rewrite take_app_length.
    rewrite drop_app_ge by (simpl; lia). rewrite drop_drop. simpl. do 3 f_equal. lia.
  - rewrite zlen_app. unfold zlen in *. rewrite length_drop. simpl. lia.
Qed.

Section head.
Context {K : Type} `{Stream K} (buffer_size : Z) (heap : list Z) (status0 : Z).
Implicit Type w : net K.

Context (r : HttpResponse) (kvs : list (string * string)) (te : bool) (after : list Z).
Hypothesis r_ok : head_ok r kvs.
Hypothesis heap_ok : bytes_ok heap ∧ zlen heap = buffer_size + 1 ∧ 0 < buffer_size < 2 ^ 31.
#[local] Abbreviation head := (size (head_of r kvs te) + 2).
#[local] Abbreviation text := (bytes_of_string (head_of r kvs te +:+ CRLF)).

Lemma length_head : length (bytes_of_string (head_of r kvs te +:+ CRLF)) = Z.to_nat head.
Proof using.
  pose proof (size_bytes (head_of r kvs te +:+ CRLF)) as Hz. rewrite size_app in Hz. change (size CRLF) with 2 in Hz. unfold zlen in Hz. lia.
Qed.

Lemma response_head_runs fuel w : m_isConnected (obj w) = true → coming w = text ++ after → bytes_ok after →
  head ≤ next_read w buffer_size → (0 < fuel)%nat → let n := next_read w buffer_size in
  ∃ data k parser, recv_head buffer_size fuel heap 0 (HttpResponseParser_new status0) w = Ret (Some (data, n - head, parser)) (set_system k w)
  ∧ getData parser = parsed_of r kvs te ∧ chunked parser = (if te then 1 else 0) ∧ m_error (HttpClientParser.data parser) = 0 ∧ zlen data = buffer_size + 1 ∧ head ≤ n ≤ buffer_size ∧ n ≤ zlen (text ++ after)
  ∧ take (Z.to_nat (n - head)) data = take (Z.to_nat (n - head)) (after)
  ∧ coming (set_system k w) = drop (Z.to_nat (n - head)) (after) ∧ uses w (set_system k w) ∧ gone (set_system k w) = gone w.
Proof using heap_ok r_ok.
  intros Hc Hin Hafter Hhead Hfuel n. destruct heap_ok as (Hhb & Hhz & Hbs). pose proof (size_nonneg (head_of r kvs te)) as Hh0.
  destruct fuel as [|fuel]; [lia|]. cbn [recv_head]. rewrite Z.sub_0_r, uwrap_small by (unfold is_u; lia).
  destruct (read_runs w buffer_size Hc ltac:(lia)) as (r' & k & E & Hr & Hr2 & _ & Hd & Hg & Er & Hk). fold n in Er, Hhead. subst r'.
  rewrite (bind_Ret _ _ _ _ _ E). cbn [fst snd]. rewrite (proj2 (Z.leb_gt n 0)) by lia.
  assert (zlen (take (Z.to_nat n) (coming w)) = n) as Hzt by (apply zlen_take; lia).
  pose proof length_head as Hlh.
  set (tail := take (Z.to_nat (n - head)) (after) ++ 0 :: drop (Z.to_nat n + 1) heap).
  assert (bytes_ok tail) as Htail.
  { unfold tail, bytes_ok. apply Forall_app. split; [by apply Forall_take|].
    constructor; [done|by apply Forall_drop]. }
  set (mem := bytes_of_string (head_of r kvs te +:+ CRLF +:+ string_of_bytes tail)).
  assert (mem = take (Z.to_nat n) (coming w) ++ 0 :: drop (Z.to_nat n + 1) heap) as Emem.
  { unfold mem. rewrite string_app_assoc, (bytes_of_string_app (head_of r kvs te +:+ CRLF)), bytes_of_string_of_bytes by done.
    unfold tail. rewrite Hin, (app_assoc _ (take (Z.to_nat (n - head)) _)). f_equal.
    rewrite (take_app (bytes_of_string (head_of r kvs te +:+ CRLF))), (take_ge (bytes_of_string (head_of r kvs te +:+ CRLF))) by lia.
    do 2 f_equal. lia. }
  assert (zlen mem = buffer_size + 1) as Hmem.
  { rewrite Emem, zlen_app, zlen_cons, Hzt. unfold zlen in *. rewrite length_drop. lia. }
  assert (length (take (Z.to_nat n) (coming w)) = Z.to_nat n) as Hlt by (unfold zlen in Hzt; lia).
  destruct (execute_response r kvs te status0 (string_of_bytes tail) n r_ok) as (mem' & s' & Ex & Hfin & Herr & Hdata & Hchunk & Hz & Htake).
  { fold mem. rewrite Hmem. unfold string_max_size. lia. }
  { lia. }
  { fold mem. rewrite Emem, lookup_app_r by lia. by replace (Z.to_nat n - _)%nat with 0%nat by lia. }
  fold mem in Ex, Hz.
  assert (zlen (take (Z.to_nat n) (coming w)) < zlen heap) as Hfit by (rewrite Hzt; lia).
  pose proof (buffer_put heap (take (Z.to_nat n) (coming w)) (set_system k w) Hfit) as Eput. rewrite Hzt, Hlt, <- Emem in Eput.
  erewrite bind_Ret in Eput; [|apply put_bytes_ok; lia].
  erewrite bind_Ret; [|apply put_bytes_ok; lia]. rewrite Z.add_0_r. unfold parse_data. rewrite bind_assoc, (bind_Ret _ _ _ _ _ Eput).
  unfold with_parser at 1. unfold bind at 1. rewrite Ex. rewrite Herr.
  rewrite swrap_small by (unfold is_s; lia). rewrite (swrap_small 32 buffer_size) by (unfold is_s; lia).
  rewrite (proj2 (Z.eqb_neq (n - head) buffer_size)) by lia. rewrite Hfin. cbn [negb Z.eqb].
  exists mem', k, s'. rewrite Hin in Hr2.
  split_and!; try done; try lia.
  - unfold hasError in Herr. by apply orb_false_iff in Herr as [?%negb_false_iff%Z.eqb_eq _].
  - rewrite Htake, bytes_of_string_of_bytes by done. unfold tail.
    rewrite Hin, length_take, length_app in Hlt. rewrite take_app_le by (rewrite length_take; lia).
    rewrite take_take. f_equal. lia.
  - rewrite Hd, Hin. rewrite (drop_app (bytes_of_string (head_of r kvs te +:+ CRLF))), (drop_ge (bytes_of_string (head_of r kvs te +:+ CRLF))) by lia.
    cbn [app]. f_equal. lia.
  - rewrite Hk. apply (uses_recv buffer_size); [lia|apply uses_refl].
Qed.

End head.

Section receive.
Context {K : Type} `{Stream K} (lexical_cast : string → option Z) (buffer_size : Z) (heap : list Z) (status0 : Z).
Implicit Type w : net K.
Context (r : HttpResponse) (later : list Z).
Hypothesis r_ok : HttpResponseRoundtrip.dumpable r.
Hypothesis heap_ok : bytes_ok heap ∧ zlen heap = buffer_size + 1 ∧ 0 < buffer_size < 2 ^ 31.
#[local] Abbreviation head := (size (HttpResponseRoundtrip.head_text r) + 2).
#[local] Abbreviation text := (HttpResponse.dump r).
#[local] Abbreviation body := (bytes_of_string (HttpResponse.m_body r)).
Lemma text_split : bytes_of_string text ++ later = bytes_of_string (HttpResponseRoundtrip.head_text r +:+ CRLF) ++ body ++ later.
Proof using. by rewrite response_dump_split, string_app_assoc, (bytes_of_string_app (HttpResponseRoundtrip.head_text r +:+ CRLF)), <- app_assoc. Qed.

(** What the caller gets; the close flag of a received response is always set. *)
Definition received_response : HttpResponse := HttpResponse.setBody (HttpResponse.m_body r) (parsed r).
Definition response_header (k : string) : option string := expected (HttpResponse.m_close r) (HttpResponse.m_headers r) (HttpResponse.m_body r) k.
Hypothesis headers_r : headers_ok (HttpResponse.m_headers r).
Hypothesis lexical_dec : ∀ n, 0 ≤ n < 2 ^ 64 → lexical_cast (dec n) = Some n.
Hypothesis no_length : HttpResponse.m_body r = ""%string → find (HttpResponse.m_headers r) "content-length" = None.

Lemma received_header k : find (HttpResponse.m_headers received_response) k = response_header k.
Proof using headers_r.
  change (HttpResponse.m_headers received_response) with (foldl (λ m kv, assign m kv.1 kv.2) [] ((other_lines (HttpResponse.m_headers r) ++ [connection_line (HttpResponse.m_close r)]) ++ length_line (HttpResponse.m_body r))).
  apply find_lines; [exact headers_r|]. intros kv. rewrite elem_of_app, other_lines_In, list_elem_of_singleton. apply or_comm.
Qed.
Lemma response_length parser : getData parser = parsed r → getContentLength lexical_cast parser = size (HttpResponse.m_body r).
Proof using r_ok headers_r lexical_dec no_length.
  intros Hd. unfold getContentLength, getHeaderAs. fold (getData parser). rewrite Hd. unfold HttpResponse.getHeaderAs, getAs.
  change (HttpResponse.m_headers (parsed r)) with (HttpResponse.m_headers received_response). rewrite received_header. unfold response_header, expected.
  pose proof (HttpResponseRoundtrip.ok_size r r_ok) as Hs. rewrite response_dump_split, !size_app in Hs. change (size CRLF) with 2 in Hs.
  pose proof (size_nonneg (HttpResponseRoundtrip.head_text r)). pose proof (size_nonneg (HttpResponse.m_body r)).
  destruct (decide (HttpResponse.m_body r = ""%string)) as [E|E].
  - rewrite decide_False by (by intros [? _]). rewrite decide_False by (by vm_compute). by rewrite no_length, E.
  - rewrite decide_True by done. by rewrite lexical_dec by lia.
Qed.

Lemma recvResponse_runs fuel w : m_isConnected (obj w) = true → coming w = bytes_of_string text ++ later → bytes_ok later →
  head ≤ next_read w buffer_size → size text < Z.of_nat fuel →
  ∃ k, recvResponse lexical_cast buffer_size heap status0 fuel w = Ret (Some received_response) (set_system k w)
  ∧ uses w (set_system k w) ∧ gone (set_system k w) = gone w.
Proof using All.
  intros Hc Hin Hlater Hhead Hfuel. pose proof (size_nonneg (HttpResponseRoundtrip.head_text r)) as Hh. pose proof (size_nonneg (HttpResponse.m_body r)) as Hb.
  pose proof (HttpResponseRoundtrip.ok_size r r_ok) as Hs. assert (size text = head + size (HttpResponse.m_body r)) as Hsz.
  { rewrite response_dump_split, !size_app. change (size CRLF) with 2. lia. }
  set (n := next_read w buffer_size) in *.
  rewrite text_split in Hin. destruct (response_head_runs buffer_size heap status0 r (lines r) false (body ++ later) (dumpable_head r r_ok) heap_ok fuel w Hc Hin) as (data & k & parser & E & Hd & Hch & _ & Hz & Hn & Hn2 & Ht & Hcom & Hrd & Hg); [apply Forall_app; split; [apply bytes_of_string_ok|done]|done|lia|].
  change (head_of r (lines r) false) with (HttpResponseRoundtrip.head_text r) in *. change (parsed_of r (lines r) false) with (parsed r) in Hd.
  fold n in E, Hn, Hn2, Ht, Hcom. rewrite <- text_split in Hn2. 
  unfold recvResponse. rewrite (bind_Ret _ _ _ _ _ E), Hch. cbn [negb Z.eqb]. rewrite (response_length parser Hd), swrap_small by (unfold is_s; lia).
  pose proof (size_bytes (HttpResponse.m_body r)) as Hzb. rewrite zlen_app, size_bytes in Hn2.
  destruct (Z.ltb_spec 0 (size (HttpResponse.m_body r))) as [Hlt|Hge].
  - rewrite <- Hzb. destruct (recv_body_runs fuel data (n - head) body later (set_system k w)) as (k' & E' & Hcom' & Hrd' & Hg'); try done; try lia.
    { rewrite zlen_app. lia. } { unfold zlen in Hzb. lia. }
    rewrite bind_assoc, (bind_Ret _ _ _ _ _ E'), bind_ret. exists k'.
    change (set_system k' (set_system k w)) with (set_system k' w) in *. split; [|split; [by eapply uses_trans|congruence]].
    assert (body ≠ []) as Hnb by (intros Eb; rewrite Eb in Hzb; change (zlen []) with 0 in Hzb; lia).
    rewrite string_of_bytes_of_string, Hd. by destruct body.
  - assert (HttpResponse.m_body r = ""%string) as E0 by (destruct (HttpResponse.m_body r); [done|unfold size in Hge; cbn in Hge; lia]).
    rewrite bind_ret. exists k. split; [|done]. unfold received_response. by rewrite E0, Hd.
Qed.
End receive.

(** ** An exchange *)
Lemma dump_nonempty req : 0 < size (HttpRequest.dump req).
Proof.
  unfold HttpRequest.dump. rewrite !size_app. change (size " ") with 1.
  repeat match goal with |- context [size ?x] => lazymatch goal with _ : 0 ≤ size x |- _ => fail | _ => pose proof (size_nonneg x) end end. lia.
Qed.
Section exchanges.
Context {K : Type} `{SegK : Segments K} (lexical_cast : string → option Z) (buffer_size : Z) (heap : list Z) (status0 : Z).

(** C2: An exchange over a connection.  [exchange], the common end of all request
    functions, writes exactly the text of the request and, if the peer's stream
    holds what [sendResponse] wrote for a response, with its whole head in the first
    segment and within one read, and the rest in any pieces, returns [OK] with a
    response of the same status, version, body and headers and with the reason that
    was printed. *)
Theorem exchange_answered fuel req r s ss later (w : net K) :
  size (HttpRequest.dump req) < 2 ^ 31 → size (HttpRequest.dump req) < Z.of_nat fuel →
  HttpResponseRoundtrip.dumpable r → headers_ok (HttpResponse.m_headers r) → size (HttpResponse.dump r) < Z.of_nat fuel →
  (HttpResponse.m_body r = ""%string → find (HttpResponse.m_headers r) "content-length" = None) →
  (∀ n, 0 ≤ n < 2 ^ 64 → lexical_cast (dec n) = Some n) →
  bytes_ok heap ∧ zlen heap = buffer_size + 1 ∧ 0 < buffer_size < 2 ^ 31 →
  m_isConnected (obj w) = true → segs w = s :: ss → nonempty (s :: ss) → bytes_of_string (HttpResponse.dump r) ++ later = concat (s :: ss) → bytes_ok later →
  size (HttpResponseRoundtrip.head_text r) + 2 ≤ Z.min buffer_size (zlen s) →
  ∃ rsp k, exchange lexical_cast buffer_size heap status0 fuel req w = Ret (mkHttpResult 0 (Some rsp)) (set_system k w)
  ∧ gone (set_system k w) = gone w ++ bytes_of_string (HttpRequest.dump req)
  ∧ HttpResponse.m_status rsp = HttpResponse.m_status r ∧ HttpResponse.m_version rsp = HttpResponse.m_version r
  ∧ HttpResponse.m_body rsp = HttpResponse.m_body r ∧ HttpResponse.m_reason rsp = reason_text r
  ∧ ∀ k, find (HttpResponse.m_headers rsp) k = response_header r k.
Proof using.
  intros Hreq Hf1 Hr Hh Hf2 Hno Hlex Hheap Hc Hseg Hnem Hcat Hl Hhead. pose proof (size_nonneg (HttpRequest.dump req)) as Hs0.
  unfold exchange, sendRequest, send_text. pose proof (size_bytes (HttpRequest.dump req)) as Hzb.
  destruct (writeFixSize_exact fuel (bytes_of_string (HttpRequest.dump req)) (size (HttpRequest.dump req)) w Hc) as (k & E & Hg & Hi & Hu); rewrite ?Hzb; try lia.
  rewrite (bind_Ret _ _ _ _ _ E). pose proof (dump_nonempty req) as Hpos.
  rewrite (proj2 (Z.eqb_neq _ 0)), (proj2 (Z.ltb_ge _ 0)) by lia.
  assert (segs (set_system k w) = s :: ss) as Hseg'.
  { apply (tail_boundary []); cbn [app]; [done| |by rewrite <- Hseg, <- !coming_segs, Hi].
    rewrite <- Hseg. apply uses_tail; [done|by rewrite Hseg]. }
  inversion Hnem as [|? ? Hs _]; subst.
  destruct (recvResponse_runs lexical_cast buffer_size heap status0 r later Hr Hheap Hh Hlex Hno fuel (set_system k w)) as (k' & E' & _ & Hg'); try done.
  { by rewrite coming_segs, Hseg', Hcat. }
  { by rewrite (next_read_segs _ buffer_size s ss) by (done || lia). }
  rewrite (bind_Ret _ _ _ _ _ E'). change (set_system k' (set_system k w)) with (set_system k' w) in *.
  eexists _, k'. split; [reflexivity|]. split; [|by split_and!; try done; intros ?; apply received_header].
  rewrite Hg', Hg. f_equal. apply take_ge. rewrite length_bytes_of_string. unfold size. lia.
Qed.
End exchanges.

(** A response in two pieces, to the request above. *)
Definition an_answer : HttpResponse :=
  HttpResponse.setBody "order taken" (HttpResponse.setHeader "Server" "azure/1.0.0" (HttpResponse.setReason "Done" (HttpResponse.setStatus 201 (HttpResponse_new 17 false)))).
Definition answer_text : list Z := bytes_of_string (HttpResponse.dump an_answer).
Definition caller : net wire := mkNet (mkSocket 3 2 TCP 0 true None None) (mkWire [take 92 answer_text; drop 92 answer_text] []).
Lemma exchange_answered_witness :
  ∃ rsp k, exchange cast_digits 256 (replicate 257 5) 7 500 an_order caller = Ret (mkHttpResult 0 (Some rsp)) (set_system k caller)
  ∧ gone (set_system k caller) = gone caller ++ bytes_of_string (HttpRequest.dump an_order)
  ∧ HttpResponse.m_status rsp = HttpResponse.m_status an_answer ∧ HttpResponse.m_version rsp = HttpResponse.m_version an_answer
  ∧ HttpResponse.m_body rsp = HttpResponse.m_body an_answer ∧ HttpResponse.m_reason rsp = reason_text an_answer
  ∧ ∀ k, find (HttpResponse.m_headers rsp) k = response_header an_answer k.
Proof.
  apply (exchange_answered cast_digits 256 (replicate 257 5) 7 500 an_order an_answer (take 92 answer_text) [drop 92 answer_text] []).
  - by vm_compute.
  - by vm_compute.
  - constructor; try done. repeat constructor.
  - unfold an_answer. simpl. auto with azure.
  - by vm_compute.
  - done.
  - exact cast_digits_dec.
  - split; [|done]. by apply Forall_replicate.
  - done.
  - done.
  - repeat constructor; by vm_compute.
  - cbn [concat]. rewrite !app_nil_r, take_drop. done.
  - constructor.
  - by vm_compute.
Defined.

(** ** Chunks *)
(** The digits of the size, and the data. *)
Definition chunk : Type := string * list Z.
Definition encode_chunk (c : chunk) : list Z := bytes_of_string c.1 ++ [13; 10] ++ c.2 ++ [13; 10].
Definition chunk_ok (c : chunk) : Prop :=
  c.1 ≠ ""%string ∧ all_in xdigit c.1 = true ∧ digits_value 16 0 (bytes_of_string c.1) = zlen c.2.
(** The buffer starts with the bytes [l]. *)
Definition holds (buffer_size : Z) (data l : list Z) : Prop :=
  zlen data = buffer_size + 1 ∧ zlen l ≤ buffer_size ∧ take (length l) data = l.

Section chunks.
Context {K : Type} `{Net K} (buffer_size : Z).
Hypothesis size_ok : 0 < buffer_size < 2 ^ 31.
Implicit Type w : net K.

Lemma holds_NUL data l w : holds buffer_size data l → ∃ t, put_bytes data (zlen l) [0] w = Ret (l ++ 0 :: t) w ∧ zlen (l ++ 0 :: t) = buffer_size + 1.
Proof using.
  intros (Hz & Hl & Ht). exists (drop (length l + 1) data). pose proof (zlen_nonneg l) as H0.
  rewrite put_bytes_ok; [|lia|change (zlen [0]) with 1; lia]. unfold splice.
  assert (Z.to_nat (zlen l) = length l) as -> by (unfold zlen; lia). rewrite Ht. split; [done|].
  rewrite zlen_app, zlen_cons. unfold zlen in *. rewrite length_drop. lia.
Qed.

Lemma chunk_head_runs fuel data c more parser w : chunk_ok c → holds buffer_size data (encode_chunk c ++ more) → m_error (HttpClientParser.data parser) = 0 →
  (0 < fuel)%nat →
  ∃ data' parser', chunk_head buffer_size fuel true data (zlen (encode_chunk c ++ more)) parser w
    = Ret (Some (data', zlen (c.2 ++ [13; 10] ++ more), parser')) w
  ∧ holds buffer_size data' (c.2 ++ [13; 10] ++ more) ∧ HttpClientParser.data parser' = HttpClientParser.data parser
  ∧ content_len parser' = zlen c.2 ∧ chunks_done parser' = (if zlen c.2 <=? 0 then 1 else 0).
Proof using size_ok.
  destruct c as [t d]. unfold chunk_ok, encode_chunk. cbn [fst snd]. intros (Hne & Ht & Hv) Hh He Hf.
  pose proof (zlen_nonneg d) as Hd0. pose proof (size_nonneg t) as Ht0. pose proof (size_bytes t) as Hzt. pose proof (zlen_nonneg more) as Hm0.
  set (l := (bytes_of_string t ++ [13; 10] ++ d ++ [13; 10]) ++ more) in *. set (l' := d ++ [13; 10] ++ more) in *.
  assert (l = bytes_of_string t ++ [13; 10] ++ l') as El by (unfold l, l'; by rewrite <- !app_assoc).
  assert (zlen l = size t + 2 + zlen l') as Hzl by (rewrite El, !zlen_app, Hzt; change (zlen [13; 10]) with 2; lia).
  assert (zlen l' = zlen d + 2 + zlen more) as Hzl' by (unfold l'; rewrite !zlen_app; change (zlen [13; 10]) with 2; lia).
  destruct (holds_NUL data l w Hh) as (u & Eput & Hzu). destruct Hh as (_ & Hlb & _).
  destruct fuel as [|fuel]; [lia|]. cbn [chunk_head negb orb]. rewrite (proj2 (Z.eqb_neq (zlen l) 0)), bind_ret by lia.
  unfold parse_data. rewrite bind_assoc, (bind_Ret _ _ _ _ _ Eput).
  assert (l ++ 0 :: u = bytes_of_string t ++ [13; 10] ++ (l' ++ 0 :: u)) as Emem by (by rewrite El, <- !app_assoc).
  assert (Z.to_nat (zlen l) = length l) as Hnat by (unfold zlen; lia).
  destruct (execute_chunk t (l' ++ 0 :: u) (zlen l) parser) as (data' & parser' & Ex & Hfin & Herr & Hdat & Hcl & Hcd & Hz & Htk); rewrite <- ?Emem.
  { split_and!; [done|done|lia|lia]. } { rewrite Hzu. unfold string_max_size. lia. } { lia. }
  { rewrite Hnat, lookup_app_r by lia. by rewrite Nat.sub_diag. } { done. }
  rewrite <- Emem in Ex, Hz. unfold with_parser at 1. unfold bind at 1. rewrite Ex, Herr.
  rewrite swrap_small by (unfold is_s; lia). rewrite (swrap_small 32 buffer_size) by (unfold is_s; lia).
  rewrite (proj2 (Z.eqb_neq _ buffer_size)) by lia. rewrite Hfin. cbn [negb Z.eqb].
  exists data', parser'. split_and!; [unfold ret; do 4 f_equal; lia| |done|by rewrite Hcl|by rewrite Hcd, Hv].
  split; [by rewrite Hz, Hzu|]. split; [lia|].
  replace (Z.to_nat (zlen l - (size t + 2))) with (length l') in Htk by (unfold zlen in *; lia). by rewrite Htk, take_app_length.
Qed.

Lemma chunk_body_runs fuel data d more body w : holds buffer_size data (d ++ [13; 10] ++ more) →
  ∃ data', chunk_body buffer_size fuel data body (zlen (d ++ [13; 10] ++ more)) (zlen d) w = Ret (Some (data', body ++ d, zlen more)) w
  ∧ holds buffer_size data' more.
Proof using size_ok.
  intros (Hz & Hl & Ht). pose proof (zlen_nonneg d) as Hd0. pose proof (zlen_nonneg more) as Hm0.
  assert (zlen (d ++ [13; 10] ++ more) = zlen d + 2 + zlen more) as Hzl by (rewrite !zlen_app; change (zlen [13; 10]) with 2; lia). rewrite Hzl in *.
  assert (∃ u, data = d ++ [13; 10] ++ more ++ u) as [u ->].
  { exists (drop (length (d ++ [13; 10] ++ more)) data). rewrite <- (take_drop (length (d ++ [13; 10] ++ more)) data) at 1. rewrite Ht. by rewrite <- !app_assoc. }
  assert (zlen (d ++ [13; 10] ++ more ++ u) = zlen d + 2 + zlen more + zlen u) as Hzd by (rewrite !zlen_app; change (zlen [13; 10]) with 2; lia).
  pose proof (zlen_nonneg u) as Hu0.
  unfold chunk_body. rewrite (proj2 (Z.ltb_ge _ (zlen d))), (proj2 (Z.leb_le _ _)) by lia.
  unfold append. rewrite (proj2 (Z.ltb_ge (zlen d) 0)) by lia. rewrite bind_assoc. erewrite bind_Ret; [|apply get_bytes_ok; lia]. rewrite bind_ret.
  assert (slice (d ++ [13; 10] ++ more ++ u) (Z.to_nat 0) (Z.to_nat (zlen d)) = d) as ->.
  { unfold slice. change (Z.to_nat 0) with 0%nat. rewrite drop_0. apply take_app_length'. unfold zlen. lia. }
  erewrite bind_Ret; [|apply get_bytes_ok; lia].
  assert (slice (d ++ [13; 10] ++ more ++ u) (Z.to_nat (zlen d + 2)) (Z.to_nat (zlen d + 2 + zlen more - zlen d - 2)) = more) as ->.
  { unfold slice. rewrite app_assoc, drop_app_length' by (rewrite length_app; unfold zlen; simpl; lia). apply take_app_length'. unfold zlen. lia. }
  erewrite bind_Ret; [|apply put_bytes_ok; lia]. change (Z.to_nat 0) with 0%nat.
  eexists. split; [unfold ret; do 4 f_equal; lia|]. split_and!; [rewrite zlen_splice; [lia|unfold zlen in *; lia]|lia|].
  unfold splice. rewrite take_0. cbn [app]. apply take_app_length.
Qed.

Lemma recv_chunks_runs fuel io_fuel data cs t0 extra body parser w : Forall (λ c, chunk_ok c ∧ c.2 ≠ []) cs → chunk_ok (t0, []) →
  holds buffer_size data (concat (encode_chunk <$> cs) ++ encode_chunk (t0, []) ++ extra) → m_error (HttpClientParser.data parser) = 0 →
  (length cs < fuel)%nat → (0 < io_fuel)%nat →
  ∃ parser', recv_chunks buffer_size fuel io_fuel data body (zlen (concat (encode_chunk <$> cs) ++ encode_chunk (t0, []) ++ extra)) parser w
    = Ret (Some (body ++ concat cs.*2, parser')) w ∧ HttpClientParser.data parser' = HttpClientParser.data parser.
Proof using size_ok.
  intros Hcs Ht0. revert fuel data body parser. induction Hcs as [|c cs [Hc Hcne] Hcs IH]; intros fuel data body parser Hh He Hf Hio;
    (destruct fuel as [|fuel]; [cbn in Hf; lia|]); cbn [recv_chunks].
  - cbn [fmap list_fmap concat app] in *. destruct (chunk_head_runs io_fuel data (t0, []) extra parser w Ht0 Hh He Hio) as (d1 & p1 & E1 & H1 & Hd1 & Hc1 & Hcd1).
    rewrite (bind_Ret _ _ _ _ _ E1), Hc1. cbn [snd] in *. destruct (chunk_body_runs io_fuel d1 [] extra body w H1) as (d2 & E2 & H2).
    rewrite (bind_Ret _ _ _ _ _ E2), Hcd1. exists p1. rewrite !app_nil_r. done.
  - cbn [fmap list_fmap concat] in *. rewrite <- app_assoc in *.
    destruct (chunk_head_runs io_fuel data c _ parser w Hc Hh He Hio) as (d1 & p1 & E1 & H1 & Hd1 & Hc1 & Hcd1).
    rewrite (bind_Ret _ _ _ _ _ E1), Hc1. destruct (chunk_body_runs io_fuel d1 c.2 _ body w H1) as (d2 & E2 & H2).
    rewrite (bind_Ret _ _ _ _ _ E2), Hcd1.
    assert (zlen c.2 <=? 0 = false) as -> by (apply Z.leb_gt; destruct c.2; [done|rewrite zlen_cons; pose proof (zlen_nonneg l); lia]). cbn [Z.eqb].
    destruct (IH fuel d2 (body ++ c.2) p1 H2) as (p' & E & Hd); [by rewrite Hd1|cbn in Hf; lia|done|].
    exists p'. rewrite E. cbn [fmap list_fmap concat]. rewrite <- app_assoc, Hd. done.
Qed.
End chunks.

(** Chunked bodies.  A response whose head announces chunks and which arrives
    in one piece with them, in any number of chunks of any sizes the buffer holds,
    is received with the chunks' data put together as its body and with all its
    headers, however many digits the sizes are written with. *)
Theorem chunks_joined {K : Type} `{Stream K} lexical_cast buffer_size heap status0 fuel r kvs cs t0 extra (w : net K) :
  head_ok r kvs → Forall (λ c, (chunk_ok c ∧ c.2 ≠ []) ∧ bytes_ok c.2) cs → chunk_ok (t0, []) → bytes_ok extra →
  bytes_ok heap ∧ zlen heap = buffer_size + 1 ∧ 0 < buffer_size < 2 ^ 31 → m_isConnected (obj w) = true →
  coming w = bytes_of_string (head_of r kvs true +:+ CRLF) ++ concat (encode_chunk <$> cs) ++ encode_chunk (t0, []) ++ extra →
  zlen (bytes_of_string (head_of r kvs true +:+ CRLF) ++ concat (encode_chunk <$> cs) ++ encode_chunk (t0, [])) ≤ next_read w buffer_size →
  (length cs < fuel)%nat →
  ∃ rsp k, recvResponse lexical_cast buffer_size heap status0 fuel w = Ret (Some rsp) (set_system k w)
  ∧ bytes_of_string (HttpResponse.m_body rsp) = concat cs.*2
  ∧ HttpResponse.m_status rsp = HttpResponse.m_status r ∧ HttpResponse.m_version rsp = HttpResponse.m_version r ∧ HttpResponse.m_reason rsp = reason_text r
  ∧ HttpResponse.m_headers rsp = foldl (λ m kv, assign m kv.1 kv.2) [] (kvs ++ [encoding_line]).
Proof.
  intros Hr Hcs Ht0 Hextra Hheap Hc Hin Hn Hf. destruct Hheap as (Hhb & Hhz & Hbs). apply Forall_and in Hcs as [Hcs Hbytes].
  set (enc := concat (encode_chunk <$> cs) ++ encode_chunk (t0, [])) in *.
  assert (concat (encode_chunk <$> cs) ++ encode_chunk (t0, []) ++ extra = enc ++ extra) as Ea by (unfold enc; by rewrite <- app_assoc).
  rewrite Ea in Hin. rewrite zlen_app, size_bytes, size_app in Hn. change (size CRLF) with 2 in Hn. pose proof (zlen_nonneg enc) as He0.
  pose proof (size_nonneg (head_of r kvs true)) as Hh0.
  assert (bytes_ok enc) as Henc.
  { unfold enc, bytes_ok. apply Forall_app. split; [|apply Forall_app; split; [apply bytes_of_string_ok|repeat constructor; done]].
    clear -Hbytes. induction Hbytes as [|c cs Hb _ IH]; [constructor|]. cbn [fmap list_fmap concat]. unfold encode_chunk at 1. rewrite !Forall_app.
    split_and!; try done; [apply bytes_of_string_ok|by repeat constructor..]. }
  destruct (response_head_runs buffer_size heap status0 r kvs true (enc ++ extra) Hr (conj Hhb (conj Hhz Hbs)) fuel w Hc Hin)
    as (data & k & parser & E & Hd & Hch & Herr & Hz & Hnb & Hn2 & Ht & _ & _ & _); [by apply Forall_app|lia|lia|].
  set (n := next_read w buffer_size - (size (head_of r kvs true) + 2)) in *. rewrite zlen_app, size_bytes, size_app in Hn2. change (size CRLF) with 2 in Hn2.
  set (extra' := take (Z.to_nat (n - zlen enc)) extra).
  assert (take (Z.to_nat n) (enc ++ extra) = enc ++ extra') as Etake.
  { rewrite take_app, take_ge by (unfold zlen, n in *; lia). unfold extra'. do 2 f_equal. unfold zlen. lia. }
  rewrite Etake in Ht. assert (zlen (enc ++ extra') = n) as Hzn by (rewrite <- Etake; apply zlen_take; unfold n; lia).
  assert (concat (encode_chunk <$> cs) ++ encode_chunk (t0, []) ++ extra' = enc ++ extra') as Ea' by (unfold enc; by rewrite <- app_assoc).
  destruct (recv_chunks_runs buffer_size Hbs fuel fuel data cs t0 extra' [] parser (set_system k w) Hcs Ht0) as (p' & E' & Hd'); [|done|done|lia|].
  { rewrite Ea'. split; [done|]. split; [unfold n in Hzn; lia|]. replace (length (enc ++ extra')) with (Z.to_nat n) by (unfold zlen in Hzn; lia). done. }
  rewrite Ea', Hzn in E'. unfold recvResponse. rewrite (bind_Ret _ _ _ _ _ E), Hch. cbn [negb Z.eqb]. rewrite (bind_Ret _ _ _ _ _ E').
  assert (getData p' = parsed_of r kvs true) as -> by (unfold getData in *; by rewrite Hd').
  assert (bytes_ok (concat cs.*2)) as Hbc by (clear -Hbytes; induction Hbytes; [constructor|cbn; by apply Forall_app]).
  eexists _, k. split; [reflexivity|]. cbn [app]. rewrite foldl_app.
  destruct (concat cs.*2) as [|b l] eqn:Ec; [done|]. split; [|done]. cbn [HttpResponse.setBody HttpResponse.m_body]. by apply bytes_of_string_of_bytes.
Qed.

Definition a_head : string := head_of an_answer [("Server", "azure/1.0.0")]%string true +:+ CRLF.
Definition some_chunks : list chunk := [("5", bytes_of_string "hello"); ("00a", bytes_of_string ", chunked!")]%string.
Definition streaming : net wire := mkNet (mkSocket 3 2 TCP 0 true None None)
  (mkWire [bytes_of_string a_head ++ concat (encode_chunk <$> some_chunks) ++ encode_chunk ("0", [])%string ++ [65; 66]] []).
Lemma chunks_joined_witness :
  ∃ rsp k, recvResponse cast_digits 256 (replicate 257 5) 7 10 streaming = Ret (Some rsp) (set_system k streaming)
  ∧ bytes_of_string (HttpResponse.m_body rsp) = concat some_chunks.*2
  ∧ HttpResponse.m_status rsp = HttpResponse.m_status an_answer ∧ HttpResponse.m_version rsp = HttpResponse.m_version an_answer
  ∧ HttpResponse.m_reason rsp = reason_text an_answer
  ∧ HttpResponse.m_headers rsp = foldl (λ m kv, assign m kv.1 kv.2) [] ([("Server", "azure/1.0.0")]%string ++ [encoding_line]).
Proof.
  apply (chunks_joined cast_digits 256 (replicate 257 5) 7 10 an_answer [("Server", "azure/1.0.0")]%string some_chunks "0"%string [65; 66] streaming).
  - constructor; try done. repeat constructor.
  - repeat constructor; try done; by vm_compute.
  - by split_and!.
  - by repeat constructor.
  - split; [|done]. by apply Forall_replicate.
  - done.
  - cbn. by rewrite app_nil_r.
  - by vm_compute.
  - cbn. lia.
Defined.

(** ** Where the code departs from its purpose *)
Definition arrives (l : list (list Z)) : net wire := mkNet (mkSocket 3 2 TCP 0 true None None) (mkWire l []).
(** A chunk size that arrives in two pieces is read from the last of them: of the
    18 bytes announced the first two are taken for the chunk. *)
Lemma split_size_misread :
  match chunk_head 256 10 true (bytes_of_string "1" ++ replicate 256 0) 1 (HttpResponseParser_new 0)
          (arrives [bytes_of_string ("2" +:+ CRLF) ++ replicate 20 65]) with
  | Ret (Some (_, _, p)) _ => content_len p = 2
  | _ => False
  end.
Proof. by vm_compute. Qed.
(** A size of eight digits is a negative [int]; the exception leaves [recvResponse]. *)
Lemma large_size_throws :
  match recvResponse cast_digits 256 (replicate 257 5) 7 10 (arrives [bytes_of_string (a_head +:+ "ffffffff" +:+ CRLF +:+ "more")]) with
  | Throw e _ => e = length_error
  | _ => False
  end.
Proof. by vm_compute. Qed.
(** The close flag of a received response does not depend on the response. *)
Lemma close_flag_lost r : HttpResponse.m_close (received_response r) = true.
Proof. done. Qed.
