(* ===== verification/HttpPool.v ===== *)
(** * HttpPool: the pool of client connections
    ([HttpConnectionPool] of [include/http/http_connection.h], [src/http/http_connection.cpp])

    Connections are objects of a heap, named by their addresses.  A call of
    [getConnection] is three pieces with other threads between them: the loop under
    the lock, the deletion of what it dropped, and the new connection if it found
    none; a release is the test and the [push_back].  The list is touched under the
    lock only, [m_total] is atomic and each object is in the hands of one thread.
    Whether a connection is still up may change at any time. *)
From S2P Require Import Prelude.

Record HttpConnection := mkConn { m_createTime : Z; m_request : Z; isConnected : bool }.
Definition HttpConnection_new (now : Z) : HttpConnection := mkConn now 0 true.

Record limits := mkLimits { m_maxSize : Z; m_maxAliveTime : Z; m_maxRequest : Z }.
(** The constructor's [uint32_t] arguments in [int32_t] members *)
Definition HttpConnectionPool_new (max_size max_alive_time max_request : Z) : limits :=
  mkLimits (i32 max_size) (i32 max_alive_time) (i32 max_request).

Record pool := mkPool { m_conns : list Z; m_total : Z; heap : gmap Z HttpConnection }.
Definition set_conns v p := mkPool v (m_total p) (heap p).
Definition add_total n p := mkPool (m_conns p) (i32 (m_total p + i32 n)) (heap p).
Definition set_heap v p := mkPool (m_conns p) (m_total p) v.

Definition deref (c : Z) : ST pool HttpConnection := λ p,
  match heap p !! c with Some x => Ret x p | None => Crash NullDeref end.
Definition delete_ (c : Z) : ST pool unit :=
  let* _ := deref c in modify (λ p, set_heap (delete c (heap p)) p).

(** [(conn->m_createTime + m_maxAliveTime) <= now_ms] in [uint64_t] *)
Definition expired (lim : limits) (now : Z) (x : HttpConnection) : bool :=
  u64 (m_createTime x + u64 (m_maxAliveTime lim)) <=? now.

(** The loop of [getConnection]: the invalid connections and the one to use. *)
Fixpoint take_loop (lim : limits) (now : Z) (conns invalid_conns : list Z) : ST pool (list Z * option Z) :=
  match conns with
  | [] => ret (invalid_conns, None)
  | conn :: rest =>
      modify (set_conns rest) ;;;
      let* x := deref conn in
      if negb (isConnected x) then take_loop lim now rest (invalid_conns ++ [conn])
      else if expired lim now x then take_loop lim now rest (invalid_conns ++ [conn])
      else ret (invalid_conns, Some conn)
  end.
Definition getConnection_take (lim : limits) (now : Z) : ST pool (list Z * option Z) :=
  let* conns := gets m_conns in take_loop lim now conns [].

Fixpoint delete_all (l : list Z) : ST pool unit :=
  match l with [] => ret tt | c :: l => delete_ c ;;; delete_all l end.
Definition getConnection_discard (invalid_conns : list Z) : ST pool unit :=
  delete_all invalid_conns ;;; modify (add_total (- zlen invalid_conns)).

(** [connected]: the address of the new object, unless the lookup, the socket or
    [connect] failed. *)
Definition getConnection_connect (connected : option Z) (now : Z) : ST pool (option Z) :=
  match connected with
  | None => ret None
  | Some ptr =>
      modify (λ p, set_heap (<[ptr := HttpConnection_new now]> (heap p)) p) ;;;
      modify (add_total 1) ;;;
      ret (Some ptr)
  end.

(** [ReleasePtr] up to the lock: whether [ptr] goes back to the pool. *)
Definition ReleasePtr_test (lim : limits) (ptr now : Z) : ST pool bool :=
  let* x := deref ptr in
  if m_request x =? 2 ^ 31 - 1 then crash UndefinedArith
  else
    let x := mkConn (m_createTime x) (m_request x + 1) (isConnected x) in
    modify (λ p, set_heap (<[ptr := x]> (heap p)) p) ;;;
    if negb (isConnected x) || expired lim now x || (m_maxRequest lim <=? m_request x) then
      delete_ ptr ;;; modify (add_total (-1)) ;;; ret false
    else ret true.
Definition ReleasePtr_push (ptr : Z) : ST pool unit := modify (λ p, set_conns (m_conns p ++ [ptr]) p).

(** ** The threads *)
Record world := mkWorld {
  the_pool : pool;
  discarding : list (list Z * option Z);   (* behind the loop of [getConnection] *)
  connecting : nat;                        (* in the lookup, the socket or [connect] *)
  lent : list Z;                           (* returned and not released *)
  returning : list Z                       (* between the two pieces of [ReleasePtr] *)
}.
Definition world_new : world := mkWorld (mkPool [] 0 ∅) [] 0 [] [].
Definition on_pool {A} (m : ST pool A) : ST world A := λ w,
  match m (the_pool w) with
  | Ret a p => Ret a (mkWorld p (discarding w) (connecting w) (lent w) (returning w))
  | Throw e p => Throw e (mkWorld p (discarding w) (connecting w) (lent w) (returning w))
  | Crash f => Crash f
  end.

Inductive label :=
  | LTake (now : Z)
  | LDiscard (i : nat)
  | LConnect (connected : option Z) (now : Z)
  | LRelease (i : nat) (now : Z)
  | LPush (i : nat)
  | LClose (c : Z).

Definition exec_label (lim : limits) (l : label) : ST world unit :=
  match l with
  | LTake now =>
      let* r := on_pool (getConnection_take lim now) in
      modify (λ w, mkWorld (the_pool w) (r :: discarding w) (connecting w) (lent w) (returning w))
  | LDiscard i =>
      let* d := gets discarding in
      match d !! i with
      | None => ret tt
      | Some (invalid, ptr) =>
          on_pool (getConnection_discard invalid) ;;;
          modify (λ w, mkWorld (the_pool w) (delete i (discarding w))
            (match ptr with None => S (connecting w) | Some _ => connecting w end) (option_list ptr ++ lent w) (returning w))
      end
  | LConnect connected now =>
      let* r := on_pool (getConnection_connect connected now) in
      modify (λ w, mkWorld (the_pool w) (discarding w) (pred (connecting w)) (option_list r ++ lent w) (returning w))
  | LRelease i now =>
      let* l := gets lent in
      match l !! i with
      | None => ret tt
      | Some ptr =>
          let* back := on_pool (ReleasePtr_test lim ptr now) in
          modify (λ w, mkWorld (the_pool w) (discarding w) (connecting w) (delete i (lent w))
            (if (back : bool) then ptr :: returning w else returning w))
      end
  | LPush i =>
      let* l := gets returning in
      match l !! i with
      | None => ret tt
      | Some ptr =>
          on_pool (ReleasePtr_push ptr) ;;;
          modify (λ w, mkWorld (the_pool w) (discarding w) (connecting w) (lent w) (delete i (returning w)))
      end
  | LClose c =>
      on_pool (modify (λ p, set_heap (alter (λ x, mkConn (m_createTime x) (m_request x) false) c (heap p)) p))
  end.

(** What can happen in a world: calls are under way, new objects are new. *)
Definition can (l : label) (w : world) : Prop :=
  match l with
  | LTake _ | LClose _ => True
  | LDiscard i => (i < length (discarding w))%nat
  | LConnect connected _ => (0 < connecting w)%nat ∧ match connected with Some c => heap (the_pool w) !! c = None | None => True end
  | LRelease i _ => (i < length (lent w))%nat
  | LPush i => (i < length (returning w))%nat
  end.
Fixpoint run (lim : limits) (ls : list label) (w : world) : outcome world unit :=
  match ls with
  | [] => Ret tt w
  | l :: ls => match exec_label lim l w with Ret _ w' => run lim ls w' | Throw e w' => Throw e w' | Crash f => Crash f end
  end.
Fixpoint can_run (lim : limits) (ls : list label) (w : world) : Prop :=
  match ls with
  | [] => True
  | l :: ls => can l w ∧ match exec_label lim l w with Ret _ w' => can_run lim ls w' | _ => True end
  end.

(** ** Every connection is in one place, and counted *)
Lemma swrap_add w a b : 0 < w → swrap w (swrap w a + swrap w b) = swrap w (a + b).
Proof.
  intros Hw. rewrite <- swrap_uwrap, <- (swrap_uwrap w (a + b)) by done. f_equal. unfold uwrap at 1. rewrite Zplus_mod.
  fold (uwrap w (swrap w a)) (uwrap w (swrap w b)). rewrite !uwrap_swrap by done. unfold uwrap. by rewrite <- Zplus_mod.
Qed.

(** ** The live connections *)
Definition keys (h : gmap Z HttpConnection) : list Z := (map_to_list h).*1.
Lemma elem_of_keys h c : c ∈ keys h ↔ is_Some (h !! c).
Proof.
  unfold keys. rewrite list_elem_of_fmap. split.
  - intros ([k x] & -> & Hx%elem_of_map_to_list). by exists x.
  - intros [x Hx]. exists (c, x). split; [done|]. by apply elem_of_map_to_list.
Qed.
Lemma keys_delete h c : is_Some (h !! c) → keys h ≡ₚ c :: keys (delete c h).
Proof. intros [x Hx]. unfold keys. by rewrite <- (map_to_list_delete h c x Hx). Qed.
Lemma keys_insert_new h c x : h !! c = None → keys (<[c := x]> h) ≡ₚ c :: keys h.
Proof. intros Hc. unfold keys. by rewrite map_to_list_insert. Qed.
Lemma keys_same_dom h h' : (∀ c, is_Some (h !! c) ↔ is_Some (h' !! c)) → keys h ≡ₚ keys h'.
Proof.
  intros Hd. apply NoDup_Permutation; [apply NoDup_fst_map_to_list..|]. intros c. by rewrite !elem_of_keys.
Qed.
Lemma keys_insert h c x : is_Some (h !! c) → keys (<[c := x]> h) ≡ₚ keys h.
Proof.
  intros Hc. apply keys_same_dom. intros d. destruct (decide (d = c)) as [->|Hd].
  - rewrite lookup_insert_eq. split; [done|]. by exists x.
  - by rewrite lookup_insert_ne.
Qed.
Lemma keys_alter h c f : keys (alter f c h) ≡ₚ keys h.
Proof. apply keys_same_dom. intros d. destruct (decide (d = c)) as [->|Hd]; [rewrite lookup_alter_eq|by rewrite lookup_alter_ne]. destruct (h !! c); split; by intros []. Qed.

(** ** The pieces *)
Definition usable (lim : limits) (now : Z) (x : HttpConnection) : bool := isConnected x && negb (expired lim now x).

(** The loop takes the first usable connection and drops those before it. *)
Lemma take_loop_takes lim now conns invalid p : m_conns p = conns → Forall (λ c, is_Some (heap p !! c)) conns →
  ∃ bad o rest, take_loop lim now conns invalid p = Ret (invalid ++ bad, o) (set_conns rest p)
  ∧ conns = bad ++ option_list o ++ rest ∧ (o = None → rest = [])
  ∧ Forall (λ c, ∃ x, heap p !! c = Some x ∧ usable lim now x = false) bad
  ∧ (∀ c, o = Some c → ∃ x, heap p !! c = Some x ∧ usable lim now x = true).
Proof.
  intros Hp Hall. revert invalid p Hp Hall. induction conns as [|c conns IH]; intros invalid p Hp Hall; cbn [take_loop].
  { exists [], None, []. rewrite app_nil_r. split_and!; try done. destruct p. simpl in *. by subst. }
  apply Forall_cons_1 in Hall as [[x Hx] Hall]. rewrite bind_modify. erewrite bind_Ret by (unfold deref; cbn [heap set_conns]; by rewrite Hx).
  destruct (usable lim now x) eqn:Hu; unfold usable in Hu.
  - apply andb_true_iff in Hu as [Hc He%negb_true_iff]. rewrite Hc, He. exists [], (Some c), conns. rewrite app_nil_r. split_and!; try done.
    intros d [= <-]. exists x. split; [done|]. unfold usable. by rewrite Hc, He.
  - destruct (IH (invalid ++ [c]) (set_conns conns p) eq_refl Hall) as (bad & o & rest & E & -> & Ho & Hb & Hg).
    exists (c :: bad), o, rest. replace (if negb (isConnected x) then _ else _) with (take_loop lim now (bad ++ option_list o ++ rest) (invalid ++ [c])).
    2: { destruct (isConnected x); [|done]. apply andb_false_iff in Hu as [|He%negb_false_iff]; [done|]. by rewrite He. }
    rewrite E, <- app_assoc. split_and!; try done. constructor; [|done]. exists x. done.
Qed.

Lemma delete_all_keys l others p : keys (heap p) ≡ₚ l ++ others →
  ∃ h, delete_all l p = Ret tt (set_heap h p) ∧ keys h ≡ₚ others ∧ ∀ c, c ∈ others → h !! c = heap p !! c.
Proof.
  revert p. induction l as [|c l IH]; intros p Hk; cbn [delete_all].
  { exists (heap p). split_and!; try done. by destruct p. }
  assert (is_Some (heap p !! c)) as Hc by (apply elem_of_keys; rewrite Hk; left).
  assert (NoDup (c :: l ++ others)) as Hnd by (rewrite <- Hk; apply NoDup_fst_map_to_list).
  rewrite (keys_delete _ _ Hc) in Hk. apply (Permutation_cons_inv (a := c)) in Hk.
  destruct (IH (set_heap (delete c (heap p)) p) Hk) as (h & E & Hk' & Hl). exists h. destruct Hc as [x Hx].
  unfold delete_. rewrite bind_assoc. erewrite bind_Ret by (unfold deref; by rewrite Hx). rewrite bind_modify. split_and!; try done.
  intros d Hd. rewrite Hl by done. apply lookup_delete_ne. intros ->. apply NoDup_cons in Hnd as [Hnd _]. apply Hnd, elem_of_app. by right.
Qed.

(** ** The worlds *)
Definition held_by_call (d : list Z * option Z) : list Z := d.1 ++ option_list d.2.
Definition places (w : world) : list Z :=
  m_conns (the_pool w) ++ (discarding w ≫= held_by_call) ++ lent w ++ returning w.
Definition live (w : world) : gmap Z HttpConnection := heap (the_pool w).

Section pool.
Variable lim : limits.
Hypothesis lim_small : m_maxRequest lim < 2 ^ 31.

Definition fresh (x : HttpConnection) : Prop := 0 ≤ m_request x ∧ (m_request x = 0 ∨ m_request x < m_maxRequest lim).
Definition worn (h : gmap Z HttpConnection) (c : Z) : Prop := ∃ x, h !! c = Some x ∧ 1 ≤ m_request x < m_maxRequest lim.
Record inv (w : world) : Prop := {
  inv_places : keys (live w) ≡ₚ places w;
  inv_total : m_total (the_pool w) = i32 (zlen (places w));
  inv_fresh c x : live w !! c = Some x → fresh x;
  inv_idle : Forall (worn (live w)) (m_conns (the_pool w) ++ returning w)
}.

Lemma total_changes w n m : m_total (the_pool w) = i32 n → m = n + (m - n) → i32 (m_total (the_pool w) + i32 (m - n)) = i32 m.
Proof using. intros -> E. rewrite swrap_add by lia. by rewrite <- E. Qed.
Lemma worn_same h h' l : (∀ c, c ∈ l → h' !! c = h !! c) → Forall (worn h) l → Forall (worn h') l.
Proof using.
  intros Hs. rewrite !Forall_forall. intros Hw c Hc. destruct (Hw c Hc) as (x & Hx & Hb). exists x. by rewrite Hs.
Qed.

Lemma take_inv now w : inv w → ∃ w', exec_label lim (LTake now) w = Ret tt w' ∧ inv w'.
Proof using.
  intros [Hp Ht Hf Hi]. cbn [exec_label]. unfold on_pool, getConnection_take.
  destruct (take_loop_takes lim now (m_conns (the_pool w)) [] (the_pool w) eq_refl) as (bad & o & rest & E & Hc & _).
  { apply Forall_forall. intros c Hc. apply elem_of_keys. fold (live w). rewrite Hp. unfold places. apply elem_of_app. by left. }
  unfold bind at 1. rewrite bind_gets, E. eexists. split; [reflexivity|].
  assert (places w ≡ₚ rest ++ (held_by_call (bad, o) ++ (discarding w ≫= held_by_call)) ++ lent w ++ returning w) as Hpl.
  { unfold places. rewrite Hc. unfold held_by_call at 2. cbn [fst snd]. solve_Permutation. }
  constructor; cbn; unfold live, places in *; cbn [the_pool heap set_conns m_conns m_total discarding lent returning mbind list_bind fst snd app] in *.
  - by rewrite Hp.
  - rewrite Ht. f_equal. unfold zlen. by rewrite Hpl.
  - done.
  - rewrite Hc, <- !app_assoc in Hi. by do 2 apply Forall_app in Hi as [_ Hi].
Qed.

Lemma discard_inv i w : inv w → can (LDiscard i) w → ∃ w', exec_label lim (LDiscard i) w = Ret tt w' ∧ inv w'.
Proof using lim_small.
  intros [Hp Ht Hf Hi] Hcan. apply lookup_lt_is_Some in Hcan as [[bad o] Hd]. cbn [exec_label]. rewrite bind_gets, Hd.
  set (others := m_conns (the_pool w) ++ (delete i (discarding w) ≫= held_by_call) ++ (option_list o ++ lent w) ++ returning w).
  assert (places w ≡ₚ bad ++ others) as Hpl.
  { unfold places, others. pose proof (bind_Permutation held_by_call _ _ (delete_Permutation _ _ _ Hd)) as Hb.
    cbn [mbind list_bind] in Hb. unfold held_by_call at 2 in Hb. cbn [fst snd] in Hb. cbn [mbind]. rewrite Hb. solve_Permutation. }
  destruct (delete_all_keys bad others (the_pool w)) as (h & E & Hk & Hl); [by rewrite <- Hpl|].
  unfold on_pool, getConnection_discard. unfold bind at 1 2. rewrite E. eexists. split; [reflexivity|].
  constructor; unfold live, places in *; cbn [the_pool heap add_total set_heap m_conns m_total discarding lent returning].
  - exact Hk.
  - fold others. assert (zlen (places w) = zlen bad + zlen others) as Hz by (unfold zlen; rewrite Hpl, length_app; lia).
    rewrite <- (total_changes w (zlen (places w)) (zlen others)); [|done|lia]. do 3 f_equal. lia.
  - intros c x Hx. apply (Hf c). rewrite <- Hl; [done|]. rewrite <- Hk. apply elem_of_keys. by exists x.
  - eapply worn_same; [|exact Hi]. intros c Hc. apply Hl. unfold others. set_solver.
Qed.

Lemma connect_inv connected now w : inv w → can (LConnect connected now) w → ∃ w', exec_label lim (LConnect connected now) w = Ret tt w' ∧ inv w'.
Proof using lim_small.
  intros [Hp Ht Hf Hi] [_ Hnew]. cbn [exec_label]. unfold on_pool, getConnection_connect. unfold bind at 1.
  destruct connected as [c|]; eexists; (split; [reflexivity|]); [|by constructor].
  set (others := m_conns (the_pool w) ++ (discarding w ≫= held_by_call) ++ (c :: lent w) ++ returning w).
  assert (others ≡ₚ c :: places w) as Hpl by (unfold others, places; solve_Permutation).
  constructor; unfold live in *; cbn [the_pool heap add_total set_heap m_conns m_total discarding lent returning].
  - rewrite (keys_insert_new _ _ _ Hnew), Hp. by symmetry.
  - change (i32 (m_total (the_pool w) + i32 1) = i32 (zlen others)).
    rewrite <- (total_changes w (zlen (places w)) (zlen others)); [|done|lia]. do 3 f_equal. unfold zlen. rewrite Hpl. cbn [length]. lia.
  - intros d x. destruct (decide (d = c)) as [->|Hd]; [rewrite lookup_insert_eq|rewrite lookup_insert_ne by done; apply Hf].
    intros [= <-]. split; [done|by left].
  - eapply worn_same; [|exact Hi]. intros d Hd. apply lookup_insert_ne. intros <-.
    apply Forall_forall with (x := c) in Hi as (x & Hx & _); [|done]. by rewrite Hx in Hnew.
Qed.

(** A connection that is released: deleted, or kept with its use counted. *)
Lemma release_test ptr now p x : heap p !! ptr = Some x → fresh x →
  ∃ y, m_request y = m_request x + 1 ∧
  ReleasePtr_test lim ptr now p =
    let dead := negb (isConnected x) || expired lim now x || (m_maxRequest lim <=? m_request x + 1) in
    if dead then Ret false (add_total (-1) (set_heap (delete ptr (heap p)) p)) else Ret true (set_heap (<[ptr := y]> (heap p)) p).
Proof using lim_small.
  intros Hx [Hf0 Hf]. exists (mkConn (m_createTime x) (m_request x + 1) (isConnected x)). split; [done|]. unfold ReleasePtr_test.
  erewrite bind_Ret by (unfold deref; by rewrite Hx). rewrite (proj2 (Z.eqb_neq _ _)) by lia.
  rewrite bind_modify. cbn [isConnected m_request]. unfold expired at 1. cbn [m_createTime]. fold (expired lim now x).
  destruct (_ || _); [|done]. unfold delete_. rewrite bind_assoc. erewrite bind_Ret by (unfold deref; cbn [heap set_heap]; by rewrite lookup_insert_eq).
  rewrite !bind_modify. cbn [heap set_heap]. by rewrite delete_insert_eq.
Qed.

Lemma release_inv i now w : inv w → can (LRelease i now) w → ∃ w', exec_label lim (LRelease i now) w = Ret tt w' ∧ inv w'.
Proof using lim_small.
  intros [Hp Ht Hf Hi] Hcan. apply lookup_lt_is_Some in Hcan as [ptr Hl]. cbn [exec_label]. rewrite bind_gets, Hl.
  set (others := m_conns (the_pool w) ++ (discarding w ≫= held_by_call) ++ delete i (lent w) ++ returning w).
  assert (places w ≡ₚ ptr :: others) as Hpl.
  { unfold places, others. pose proof (delete_Permutation _ _ _ Hl) as Hb. rewrite Hb at 1. solve_Permutation. }
  assert (is_Some (live w !! ptr)) as [x Hx] by (apply elem_of_keys; rewrite Hp, Hpl; left).
  assert (NoDup (ptr :: others)) as [Hout Hnd]%NoDup_cons by (rewrite <- Hpl, <- Hp; apply NoDup_fst_map_to_list).
  assert (ptr ∉ m_conns (the_pool w) ++ returning w) as Hout' by (unfold others in Hout; set_solver).
  pose proof (Hf ptr x Hx) as Hfx. destruct (release_test ptr now (the_pool w) x Hx Hfx) as (y & Hy & E).
  unfold on_pool. unfold bind at 1. rewrite E. cbv zeta. destruct (_ || _) eqn:Ed; eexists; (split; [reflexivity|]).
  - constructor; unfold live in *; cbn [the_pool heap add_total set_heap m_conns m_total discarding lent returning].
    + apply (Permutation_cons_inv (a := ptr)). rewrite <- keys_delete by by exists x. by rewrite Hp.
    + change (i32 (m_total (the_pool w) + i32 (-1)) = i32 (zlen others)).
      rewrite <- (total_changes w (zlen (places w)) (zlen others)); [|done|lia]. do 3 f_equal. unfold zlen. rewrite Hpl. cbn [length]. lia.
    + intros c z Hz. apply lookup_delete_Some in Hz as [_ Hz]. by apply (Hf c).
    + eapply worn_same; [|exact Hi]. intros c Hc. apply lookup_delete_ne. by intros <-.
  - apply orb_false_iff in Ed as [_ Ed%Z.leb_gt].
    constructor; unfold live in *; cbn [the_pool heap add_total set_heap m_conns m_total discarding lent returning].
    + rewrite keys_insert by by exists x. rewrite Hp, Hpl. unfold others, places. cbn [the_pool m_conns discarding lent returning set_heap]. solve_Permutation.
    + rewrite Ht. f_equal. unfold zlen. f_equal. apply Permutation_length. rewrite Hpl. unfold others, places.
      cbn [the_pool m_conns discarding lent returning set_heap]. solve_Permutation.
    + intros c z. destruct (decide (c = ptr)) as [->|Hc]; [rewrite lookup_insert_eq|rewrite lookup_insert_ne by done; apply Hf].
      intros [= <-]. destruct Hfx. split; rewrite Hy; [lia|right; lia].
    + rewrite Forall_app, Forall_cons. rewrite Forall_app in Hi. destruct Hi as [Hi1 Hi2]. split_and!.
      * eapply worn_same; [|exact Hi1]. intros c Hc. apply lookup_insert_ne. intros <-. apply Hout', elem_of_app. by left.
      * exists y. rewrite lookup_insert_eq, Hy. split; [done|]. destruct Hfx. lia.
      * eapply worn_same; [|exact Hi2]. intros c Hc. apply lookup_insert_ne. intros <-. apply Hout', elem_of_app. by right.
Qed.

Lemma push_inv i w : inv w → can (LPush i) w → ∃ w', exec_label lim (LPush i) w = Ret tt w' ∧ inv w'.
Proof using lim_small.
  intros [Hp Ht Hf Hi] Hcan. apply lookup_lt_is_Some in Hcan as [ptr Hl]. cbn [exec_label]. rewrite bind_gets, Hl.
  eexists. split; [reflexivity|]. pose proof (delete_Permutation _ _ _ Hl) as Hb.
  assert (∀ k, places (mkWorld (set_conns (m_conns (the_pool w) ++ [ptr]) (the_pool w)) (discarding w) k (lent w) (delete i (returning w))) ≡ₚ places w) as Hpl.
  { intros k. unfold places. cbn [the_pool m_conns discarding lent returning set_conns]. rewrite Hb at 2. solve_Permutation. }
  constructor; unfold live in *; cbn [the_pool heap set_conns m_conns m_total returning].
  - by rewrite Hpl.
  - rewrite Ht. f_equal. unfold zlen. by rewrite Hpl.
  - done.
  - rewrite Hb in Hi. rewrite <- app_assoc. done.
Qed.

Lemma close_inv c w : inv w → ∃ w', exec_label lim (LClose c) w = Ret tt w' ∧ inv w'.
Proof using lim_small.
  intros [Hp Ht Hf Hi]. eexists. split; [reflexivity|].
  constructor; unfold live in *; cbn [the_pool heap set_heap m_conns m_total returning].
  - by rewrite keys_alter.
  - done.
  - intros d x. destruct (decide (d = c)) as [->|Hd]; [rewrite lookup_alter_eq|rewrite lookup_alter_ne by done; apply Hf].
    destruct (heap (the_pool w) !! c) as [z|] eqn:E; [|done]. intros [= <-]. exact (Hf c z E).
  - eapply Forall_impl; [exact Hi|]. intros d (x & Hx & Hb). destruct (decide (d = c)) as [->|Hd].
    + eexists. rewrite lookup_alter_eq, Hx. by split.
    + exists x. by rewrite lookup_alter_ne.
Qed.

Lemma step_keeps l w : inv w → can l w → ∃ w', exec_label lim l w = Ret tt w' ∧ inv w'.
Proof using lim_small.
  destruct l; intros; [by apply take_inv|by apply discard_inv|by apply connect_inv|by apply release_inv|by apply push_inv|by apply close_inv].
Qed.
Lemma run_keeps ls w : inv w → can_run lim ls w → ∃ w', run lim ls w = Ret tt w' ∧ inv w'.
Proof using lim_small.
  revert w. induction ls as [|l ls IH]; intros w Hw; [by exists w|]. intros [Hc Hr]. cbn [run].
  destruct (step_keeps l w Hw Hc) as (w1 & E & H1). rewrite E in Hr |- *. by apply IH.
Qed.
Lemma inv_world_new : inv world_new.
Proof using. by constructor. Qed.
End pool.

Lemma limit_small a b c : m_maxRequest (HttpConnectionPool_new a b c) < 2 ^ 31.
Proof. pose proof (swrap_range 32 c). unfold is_s in *. cbn [HttpConnectionPool_new m_maxRequest]. lia. Qed.

(** C21: However many threads get and release connections, with any times, failed
    connects and closed connections, nothing that was deleted is used or deleted
    again and no counter overflows.  Every connection is in exactly one place, idle
    in the pool, in a call that drops or returns it, with one caller, or on its way
    back; [m_total] is their number; and an idle one was used, less than the limit. *)
Theorem pool_accounts a b c ls : let lim := HttpConnectionPool_new a b c in
  can_run lim ls world_new →
  ∃ w, run lim ls world_new = Ret tt w ∧ NoDup (places w)
  ∧ (∀ ptr, ptr ∈ places w ↔ is_Some (live w !! ptr))
  ∧ m_total (the_pool w) = i32 (zlen (places w))
  ∧ Forall (worn lim (live w)) (m_conns (the_pool w)).
Proof.
  intros lim Hr. destruct (run_keeps lim (limit_small a b c) ls world_new (inv_world_new lim) Hr) as (w & E & [Hp Ht Hf Hi]).
  exists w. split_and!; try done.
  - rewrite <- Hp. apply NoDup_fst_map_to_list.
  - intros ptr. by rewrite <- Hp, elem_of_keys.
  - by apply Forall_app in Hi as [Hi _].
Qed.

(** Two callers; one connection is released, reused and dropped. *)
Definition demo_pool : list label :=
  [LTake 5; LDiscard 0; LTake 6; LDiscard 0; LConnect (Some 700) 8; LConnect (Some 800) 9;
   LRelease 1 20; LPush 0; LTake 21; LDiscard 0; LClose 700; LRelease 0 22; LRelease 0 30; LPush 0; LTake 2000].
Lemma pool_accounts_witness : let lim := HttpConnectionPool_new 1 1000 50 in
  ∃ w, run lim demo_pool world_new = Ret tt w ∧ NoDup (places w)
  ∧ (∀ ptr, ptr ∈ places w ↔ is_Some (live w !! ptr))
  ∧ m_total (the_pool w) = i32 (zlen (places w))
  ∧ Forall (worn lim (live w)) (m_conns (the_pool w)).
Proof. apply (pool_accounts 1 1000 50). vm_compute. repeat split; lia. Defined.
Example demo_pool_result : match run (HttpConnectionPool_new 1 1000 50) demo_pool world_new with
  | Ret _ w => m_total (the_pool w) = 1 ∧ discarding w = [([800], None)] | _ => False end.
Proof. by vm_compute. Qed.

(** [m_maxSize] limits nothing: a pool of size 0 hands out any number of connections. *)
Fixpoint n_calls (n : nat) (ptr : Z) : list label :=
  match n with O => [] | S n => [LTake 0; LDiscard 0; LConnect (Some ptr) 0] ++ n_calls n (ptr + 1) end.
Lemma size_unlimited lim n : ∃ w, run lim (n_calls n 1) world_new = Ret tt w ∧ length (lent w) = n.
Proof.
  assert (∀ ptr w, m_conns (the_pool w) = [] → discarding w = [] →
    ∃ w', run lim (n_calls n ptr) w = Ret tt w' ∧ length (lent w') = (length (lent w) + n)%nat) as H.
  { induction n as [|n IH]; intros ptr [p d k l r] Hp Hd; cbn [the_pool discarding] in Hp, Hd; subst d.
    - eexists. split; [reflexivity|]. cbn. lia.
    - destruct p as [conns total h]. cbn [m_conns] in Hp. subst conns. cbn [n_calls app run].
      edestruct (IH (ptr + 1)) as (w' & E & Hl); [| |exists w'; split; [exact E|rewrite Hl; cbn; lia]]; done. }
  apply (H 1 world_new); done.
Qed.
