(* ===== verification/Fiber.v ===== *)
(** * Fiber: coroutines and their contexts ([include/fiber.h], [src/fiber.cpp])

    A callback is the list of what it does between its switches, or [Loop], which
    is [Scheduler::run] as the callback of the fiber that works on the caller's
    thread.  A context says where the code goes on when it is switched to; it is
    good for one switch, so a switch takes it, and switching to a context that is
    not there is the undefined resumption of a stack that has moved on.  Threads
    interleave between steps; the references that keep a fiber alive are those of
    threads, of the stacks of fibers ([cur] of [MainFunc]) and the pool [handles]
    of all others. *)
From S2P Require Import Prelude.

Inductive State := INIT | HOLD | EXEC | TERM | READY | EXCEPT.
#[export] Instance State_eq_dec : EqDecision State.
Proof. solve_decision. Defined.

Definition loc : Type := nat.
Inductive action := Work (n : Z) | DoYieldToHold | DoYieldToReady | Raise.
Inductive callback := Acts (l : list action) | Loop.

(** Where code goes on: a thread's own code, at the start of [MainFunc] or
    [CallerMainFunc], in the callback of [f], behind [cur->m_state = ...] of a yield,
    in the loop of the scheduler, behind [cur.reset()], behind the last switch. *)
Inductive code :=
  | OwnCode
  | Entering (f : loc) (use_caller : bool)
  | Running (f : loc) (use_caller : bool) (rest : list action)
  | Yielding (f : loc) (use_caller : bool) (rest : list action)
  | Looping (f : loc) (use_caller : bool)
  | Ending (f : loc) (use_caller : bool)
  | Ended (f : loc).
#[export] Instance action_eq_dec : EqDecision action.
Proof. solve_decision. Defined.
#[export] Instance code_eq_dec : EqDecision code.
Proof. solve_decision. Defined.
(** The fiber on whose stack the code runs, and that its [cur] refers to. *)
Definition on (c : code) : option loc :=
  match c with
  | OwnCode => None
  | Entering f _ | Running f _ _ | Yielding f _ _ | Looping f _ | Ending f _ | Ended f => Some f
  end.
Definition cur_of (c : code) : option loc :=
  match c with Running f _ _ | Yielding f _ _ | Looping f _ => Some f | _ => None end.

Record Fiber := mkFiber {
  m_id : Z; m_stacksize : Z; m_state : State; m_ctx : option code; m_stack : bool; m_cb : option callback
}.
Definition set_state v x := mkFiber (m_id x) (m_stacksize x) v (m_ctx x) (m_stack x) (m_cb x).
Definition set_ctx v x := mkFiber (m_id x) (m_stacksize x) (m_state x) v (m_stack x) (m_cb x).
Definition set_cb v x := mkFiber (m_id x) (m_stacksize x) (m_state x) (m_ctx x) (m_stack x) v.

(** The [thread_local]s, the [m_rootFiber] of the scheduler that was made on the
    thread, the fiber that its scheduler switched to, and where it is. *)
Record thread := mkThread {
  t_fiber : option loc; t_threadFiber : option loc; t_scheduler_fiber : option loc; m_rootFiber : option loc;
  holding : option loc; here : code
}.
Definition set_t_fiber v t := mkThread v (t_threadFiber t) (t_scheduler_fiber t) (m_rootFiber t) (holding t) (here t).
Definition set_threadFiber v t := mkThread (t_fiber t) v (t_scheduler_fiber t) (m_rootFiber t) (holding t) (here t).
Definition set_scheduler_fiber v t := mkThread (t_fiber t) (t_threadFiber t) v (m_rootFiber t) (holding t) (here t).
Definition set_rootFiber v t := mkThread (t_fiber t) (t_threadFiber t) (t_scheduler_fiber t) v (holding t) (here t).
Definition set_holding v t := mkThread (t_fiber t) (t_threadFiber t) (t_scheduler_fiber t) (m_rootFiber t) v (here t).
Definition set_here v t := mkThread (t_fiber t) (t_threadFiber t) (t_scheduler_fiber t) (m_rootFiber t) (holding t) v.
Definition thread_new : thread := mkThread None None None None None OwnCode.

(** [trace] is what the callbacks have done. *)
Record world := mkWorld {
  fibers : gmap loc Fiber; next_loc : loc; s_fiber_id : Z; s_fiber_count : Z; threads : gmap nat thread;
  handles : list loc; trace : list (loc * Z)
}.
Definition set_fibers v w := mkWorld v (next_loc w) (s_fiber_id w) (s_fiber_count w) (threads w) (handles w) (trace w).
Definition set_next v w := mkWorld (fibers w) v (s_fiber_id w) (s_fiber_count w) (threads w) (handles w) (trace w).
Definition set_fiber_id v w := mkWorld (fibers w) (next_loc w) v (s_fiber_count w) (threads w) (handles w) (trace w).
Definition set_fiber_count v w := mkWorld (fibers w) (next_loc w) (s_fiber_id w) v (threads w) (handles w) (trace w).
Definition set_threads v w := mkWorld (fibers w) (next_loc w) (s_fiber_id w) (s_fiber_count w) v (handles w) (trace w).
Definition set_handles v w := mkWorld (fibers w) (next_loc w) (s_fiber_id w) (s_fiber_count w) (threads w) v (trace w).
Definition set_trace v w := mkWorld (fibers w) (next_loc w) (s_fiber_id w) (s_fiber_count w) (threads w) (handles w) v.
Definition fibers_start : world := mkWorld ∅ 0%nat 0 0 ∅ [] [].

Definition deref (f : loc) : ST world Fiber := λ w, match fibers w !! f with Some x => Ret x w | None => Crash UseAfterFree end.
Definition update (f : loc) (g : Fiber → Fiber) : ST world unit :=
  let* x := deref f in modify (λ w, set_fibers (<[f := g x]> (fibers w)) w).
Definition assert (b : bool) : ST world unit := if b then ret tt else crash AssertFailed.
(** A [Fiber*] that must not be null. *)
Definition not_null (f : option loc) : ST world loc := match f with Some f => ret f | None => crash NullDeref end.
(** The [i]-th thread, which executes. *)
Definition me (i : nat) : ST world thread := gets (λ w, default thread_new (threads w !! i)).
Definition my (i : nat) (g : thread → thread) : ST world unit := modify (λ w, set_threads (alter g i (threads w)) w).
Definition is_state (st : State) (l : list State) : bool := bool_decide (st ∈ l).

Definition SetThis (i : nat) (f : option loc) : ST world unit := my i (set_t_fiber f).
(** [swapcontext]; the code that runs goes on at [after]. *)
Definition swapcontext (i : nat) (save load : loc) (after : code) : ST world unit :=
  update save (set_ctx (Some after)) ;;;
  let* x := deref load in
  match m_ctx x with
  | None => crash UseAfterFree
  | Some c => update load (set_ctx None) ;;; my i (set_here c)
  end.

(** ** Construction *)
Definition new_object (x : loc → Fiber) : ST world loc :=
  let* f := gets next_loc in
  modify (set_next (S f)) ;;;
  modify (λ w, set_fibers (<[f := x f]> (fibers w)) w) ;;;
  ret f.
Definition count (d : Z) : ST world unit := modify (λ w, set_fiber_count (u64 (s_fiber_count w + d)) w).
(** A thread's own fiber; its [getcontext] is no place to go on at. *)
Definition Fiber_main (i : nat) : ST world loc :=
  let* f := new_object (λ _, mkFiber 0 0 EXEC None false None) in
  SetThis i (Some f) ;;;
  count 1 ;;;
  ret f.
Definition Fiber_new (stack_size : Z) (cb : option callback) (stacksize : Z) (use_caller : bool) : ST world loc :=
  modify (λ w, set_fiber_id (u64 (s_fiber_id w + 1)) w) ;;;
  let* id := gets s_fiber_id in
  let* f := new_object (λ f, mkFiber id (u32 (if stacksize =? 0 then stack_size else stacksize)) INIT (Some (Entering f use_caller)) true cb) in
  count 1 ;;;
  ret f.
(** The destructor, in the [i]-th thread. *)
Definition destroy (i : nat) (f : loc) : ST world unit :=
  count (-1) ;;;
  let* x := deref f in
  (if m_stack x then assert (is_state (m_state x) [TERM; INIT; EXCEPT])
   else
     assert (bool_decide (m_cb x = None :> option callback)) ;;;
     assert (is_state (m_state x) [EXEC]) ;;;
     let* t := me i in
     if bool_decide (t_fiber t = Some f) then SetThis i None else ret tt) ;;;
  modify (λ w, set_fibers (delete f (fibers w)) w).
Definition GetThis (i : nat) : ST world loc :=
  let* t := me i in
  match t_fiber t with
  | Some f => let* _ := deref f in ret f
  | None =>
      let* main_fiber := Fiber_main i in
      let* t := me i in
      assert (bool_decide (t_fiber t = Some main_fiber)) ;;;
      my i (set_threadFiber (Some main_fiber)) ;;;
      ret main_fiber
  end.
Definition GetFiberId (i : nat) : ST world Z :=
  let* t := me i in
  match t_fiber t with Some f => let* x := deref f in ret (m_id x) | None => ret 0 end.
Definition TotalFibers : ST world Z := gets s_fiber_count.

(** ** Switches *)
Definition reset (f : loc) (cb : option callback) : ST world unit :=
  let* x := deref f in
  assert (m_stack x) ;;;
  assert (is_state (m_state x) [TERM; INIT]) ;;;
  update f (set_cb cb) ;;;
  update f (set_ctx (Some (Entering f false))) ;;;
  update f (set_state INIT).
Definition swapIn (i : nat) (f : loc) : ST world unit :=
  SetThis i (Some f) ;;;
  let* x := deref f in
  assert (negb (is_state (m_state x) [EXEC])) ;;;
  update f (set_state EXEC) ;;;
  let* t := me i in
  let* s := not_null (t_scheduler_fiber t) in
  swapcontext i s f (here t).
Definition swapOut (i : nat) (f : loc) (after : code) : ST world unit :=
  let* t := me i in
  SetThis i (t_scheduler_fiber t) ;;;
  let* s := not_null (t_scheduler_fiber t) in
  swapcontext i f s after.
Definition call (i : nat) (f : loc) : ST world unit :=
  SetThis i (Some f) ;;;
  update f (set_state EXEC) ;;;
  let* t := me i in
  let* m := not_null (t_threadFiber t) in
  swapcontext i m f (here t).
Definition back (i : nat) (f : loc) (after : code) : ST world unit :=
  let* t := me i in
  SetThis i (t_threadFiber t) ;;;
  let* m := not_null (t_threadFiber t) in
  swapcontext i f m after.
(** [YieldToReady] and [YieldToHold] up to the switch, from a callback *)
Definition yield_begin (i : nat) (f : loc) (st : State) (use_caller : bool) (rest : list action) : ST world unit :=
  let* cur := GetThis i in
  let* t := me i in
  if bool_decide (t_threadFiber t = Some cur) then my i (set_here (Running f use_caller rest))
  else
    update cur (set_state st) ;;;
    my i (set_here (Yielding cur use_caller rest)).

(** ** References *)
Definition thread_refers (f : loc) (t : thread) : bool :=
  bool_decide (holding t = Some f ∨ m_rootFiber t = Some f ∨ t_threadFiber t = Some f ∨ cur_of (here t) = Some f).
(** Also from the stack of a fiber that is switched out. *)
Definition stack_refers (f : loc) (x : Fiber) : bool := bool_decide ((m_ctx x ≫= cur_of) = Some f).
Definition referenced (f : loc) (w : world) : bool :=
  bool_decide (f ∈ handles w) || bool_decide (map_Exists (λ _ t, thread_refers f t = true) (threads w))
  || bool_decide (map_Exists (λ _ x, stack_refers f x = true) (fibers w)).
(** A reference goes away; with the last one, the fiber. *)
Definition release (i : nat) (f : loc) : ST world unit :=
  let* w := gets id in if referenced f w then ret tt else destroy i f.

(** ** [MainFunc] and [CallerMainFunc] *)
Definition finish (i : nat) (f : loc) (use_caller : bool) (st : State) (clear : bool) : ST world unit :=
  (if clear then update f (set_cb None) else ret tt) ;;;
  update f (set_state st) ;;;
  my i (set_here (Ending f use_caller)) ;;;
  release i f.
(** The code that the [i]-th thread executes, up to its next step. *)
Definition step (i : nat) : ST world unit :=
  let* t := me i in
  match here t with
  | OwnCode | Looping _ _ => ret tt
  | Entering _ uc =>
      let* cur := GetThis i in
      let* x := deref cur in
      match m_cb x with
      | Some (Acts l) => my i (set_here (Running cur uc l))
      | Some Loop => my i (set_here (Looping cur uc))
      | None => finish i cur uc EXCEPT false
      end
  | Running f uc [] => finish i f uc TERM true
  | Running f uc (Work n :: rest) => modify (λ w, set_trace (trace w ++ [(f, n)]) w) ;;; my i (set_here (Running f uc rest))
  | Running f uc (DoYieldToHold :: rest) => yield_begin i f HOLD uc rest
  | Running f uc (DoYieldToReady :: rest) => yield_begin i f READY uc rest
  | Running f uc (Raise :: rest) => finish i f uc EXCEPT false
  | Yielding f uc rest => swapOut i f (Running f uc rest)
  | Ending f uc => if uc then back i f (Ended f) else swapOut i f (Ended f)
  | Ended f => crash AssertFailed
  end.
(** [Scheduler::run] returns into [CallerMainFunc]. *)
Definition loop_ends (i : nat) : ST world unit :=
  let* t := me i in
  match here t with Looping f uc => finish i f uc TERM true | _ => ret tt end.

(** ** What a scheduler does with fibers *)
(** The constructor with [use_caller]. *)
Definition scheduler_root (stack_size : Z) (i : nat) : ST world unit :=
  let* _ := GetThis i in
  let* r := Fiber_new stack_size (Some Loop) 0 true in
  my i (set_rootFiber (Some r)) ;;;
  my i (set_scheduler_fiber (Some r)).
(** The prologue of [run]. *)
Definition run_prologue (i : nat) : ST world unit :=
  let* t := me i in
  match t_scheduler_fiber t with
  | Some _ => ret tt
  | None => let* f := GetThis i in my i (set_scheduler_fiber (Some f))
  end.
(** A fiber that [run] has taken: the local [ft] holds it until it is dropped or
    scheduled, and it is entered unless it has ended. *)
Definition enter (i : nat) (f : loc) : ST world unit :=
  my i (set_holding (Some f)) ;;;
  let* x := deref f in
  if is_state (m_state x) [TERM; EXCEPT] then ret tt else swapIn i f.
Fixpoint remove_first (f : loc) (l : list loc) : list loc :=
  match l with [] => [] | g :: l => if bool_decide (g = f) then l else g :: remove_first f l end.
Definition take_handle (f : loc) : ST world unit := modify (λ w, set_handles (remove_first f (handles w)) w).
Definition put_handle (f : loc) : ST world unit := modify (λ w, set_handles (handles w ++ [f]) w).
(** The thread's end drops its own fiber. *)
Definition thread_exit (i : nat) : ST world unit :=
  let* t := me i in
  my i (set_threadFiber None) ;;;
  (match t_threadFiber t with Some m => release i m | None => ret tt end) ;;;
  modify (λ w, set_threads (delete i (threads w)) w).

(** ** Histories *)
(** What threads do.  An operation of a thread that executes something else, or on a
    fiber that its caller has no pointer to, does nothing; there is no other guard. *)
Inductive op :=
  | NewThread (i : nat) | Prologue (i : nat) | NewRoot (i : nat) | CallRoot (i : nat) | LoopEnds (i : nat)
  | New (cb : option (list action)) (stacksize : Z) | Share (f : loc) | Drop (i : nat) (f : loc)
  | Enter (i : nat) (f : loc) | Step (i : nat) | Leave (i : nat)
  | Reset (f : loc) (cb : option (list action)) | Exit (i : nat).
Arguments Share f%_nat_scope.
Arguments Drop (i f)%_nat_scope.
Arguments Enter (i f)%_nat_scope.
Arguments Reset f%_nat_scope cb.
(** The thread executes the loop of its scheduler. *)
Definition schedules (t : thread) : bool :=
  match here t with
  | OwnCode => bool_decide (m_rootFiber t = None ∧ t_scheduler_fiber t ≠ None)
  | Looping _ _ => true
  | _ => false
  end.
Definition thread_is (ok : thread → bool) (i : nat) (w : world) : bool := match threads w !! i with Some t => ok t | None => false end.
(** In its own code, outside the loop of a scheduler. *)
Definition free (t : thread) : bool := bool_decide (here t = OwnCode ∧ holding t = None ∧ m_rootFiber t = None).
Definition when (b : world → bool) (m : ST world unit) : ST world unit := λ w, (if b w then m else ret tt) w.
Definition exec_op (stack_size : Z) (o : op) : ST world unit :=
  match o with
  | NewThread i => when (λ w, bool_decide (threads w !! i = None)) (modify (λ w, set_threads (<[i := thread_new]> (threads w)) w))
  | Prologue i => when (thread_is (λ t, bool_decide (here t = OwnCode)) i) (run_prologue i)
  | NewRoot i => when (thread_is (λ t, free t && bool_decide (t_scheduler_fiber t = None)) i) (scheduler_root stack_size i)
  | CallRoot i =>
      let* w := gets id in
      match threads w !! i ≫= m_rootFiber with
      | Some r => when (thread_is (λ t, bool_decide (here t = OwnCode)) i) (call i r)
      | None => ret tt
      end
  | LoopEnds i => when (thread_is (λ t, bool_decide (holding t = None)) i) (loop_ends i)
  | New cb stacksize => let* f := Fiber_new stack_size (Acts <$> cb) stacksize false in put_handle f
  | Share f => when (λ w, bool_decide (f ∈ handles w)) (put_handle f)
  | Drop i f => when (λ w, bool_decide (f ∈ handles w)) (take_handle f ;;; release i f)
  | Enter i f =>
      when (λ w, thread_is (λ t, schedules t && bool_decide (holding t = None)) i w && bool_decide (f ∈ handles w)) (take_handle f ;;; enter i f)
  | Step i => when (thread_is (λ _, true) i) (step i)
  | Leave i =>
      let* w := gets id in
      match threads w !! i ≫= holding with
      | Some f => when (thread_is schedules i) (my i (set_holding None) ;;; put_handle f)
      | None => ret tt
      end
  | Reset f cb => when (λ w, bool_decide (f ∈ handles w)) (reset f (Acts <$> cb))
  | Exit i => when (thread_is free i) (thread_exit i)
  end.
Fixpoint run_ops (stack_size : Z) (ops : list op) : ST world unit :=
  match ops with [] => ret tt | o :: ops => exec_op stack_size o ;;; run_ops stack_size ops end.

(** ** The discipline *)
(** What the class asks of its callers and does not test: a fiber is entered, or
    reset, only when no thread is on its stack any more; only one that is new or has
    ended is reset, and a root is called once. *)
Definition nobody_on (f : loc) (w : world) : bool := bool_decide (¬ map_Exists (λ _ t, on (here t) = Some f) (threads w)).
Definition state_in (f : loc) (l : list State) (w : world) : bool := match fibers w !! f with Some x => is_state (m_state x) l | None => false end.
Definition keeps_rules (o : op) (w : world) : bool :=
  match o with
  | Enter _ f => nobody_on f w
  | Reset f _ => nobody_on f w && state_in f [TERM; INIT] w
  | CallRoot i => match threads w !! i ≫= m_rootFiber with Some r => state_in r [INIT] w | None => true end
  | _ => true
  end.
(** Every operation of a history keeps to it at its time. *)
Fixpoint disciplined (stack_size : Z) (ops : list op) (w : world) : bool :=
  match ops with
  | [] => true
  | o :: ops => keeps_rules o w && match exec_op stack_size o w with Ret _ w' => disciplined stack_size ops w' | _ => true end
  end.
