(* ===== verification/FiberFacts.v ===== *)
(** * FiberFacts: a thread at work, what holds between its steps, and that steps keep it *)
From S2P Require Import Prelude Fiber.

Implicit Types (w : world) (t u : thread) (f g m r s : loc) (F : gmap loc Fiber).

(** ** A thread at work *)
(** The state in which the [i]-th thread is [t] and the fibers are [F]. *)
Definition at_ (i : nat) t F w : world := set_threads (<[i := t]> (threads w)) (set_fibers F w).
Lemma at_id i t w : threads w !! i = Some t → at_ i t (fibers w) w = w.
Proof. intros E. unfold at_. rewrite insert_id by done. by destruct w. Qed.
Lemma me_at i t F w : me i (at_ i t F w) = Ret t (at_ i t F w).
Proof. unfold me, gets. cbn. by rewrite lookup_insert_eq. Qed.
Lemma my_at i h t F w : my i h (at_ i t F w) = Ret tt (at_ i (h t) F w).
Proof.
  unfold my, modify, at_, set_threads. cbn. do 2 f_equal. apply map_eq. intros j. destruct (decide (i = j)) as [<-|Hne].
  - by rewrite lookup_alter_eq, !lookup_insert_eq.
  - by rewrite lookup_alter_ne, !lookup_insert_ne.
Qed.
Lemma deref_at i t F w f x : F !! f = Some x → deref f (at_ i t F w) = Ret x (at_ i t F w).
Proof. intros E. unfold deref. cbn. by rewrite E. Qed.
Lemma update_at i t F w f h x : F !! f = Some x → update f h (at_ i t F w) = Ret tt (at_ i t (<[f := h x]> F) w).
Proof. intros E. unfold update. by rewrite (bind_Ret _ _ _ _ _ (deref_at i t F w f x E)). Qed.
Lemma GetThis_at i t F w f x : t_fiber t = Some f → F !! f = Some x → GetThis i (at_ i t F w) = Ret f (at_ i t F w).
Proof. intros Et Ef. unfold GetThis. rewrite (bind_Ret _ _ _ _ _ (me_at _ _ _ _)), Et. by rewrite (bind_Ret _ _ _ _ _ (deref_at i t F w f x Ef)). Qed.
Lemma swapcontext_at i t F w s l y x c after : s ≠ l → F !! s = Some y → F !! l = Some x → m_ctx x = Some c →
  swapcontext i s l after (at_ i t F w) = Ret tt (at_ i (set_here c t) (<[l := set_ctx None x]> (<[s := set_ctx (Some after) y]> F)) w).
Proof.
  intros Hne Es El Ec. unfold swapcontext. rewrite (bind_Ret _ _ _ _ _ (update_at i t F w s _ y Es)).
  assert (<[s := set_ctx (Some after) y]> F !! l = Some x) as El' by by rewrite lookup_insert_ne.
  rewrite (bind_Ret _ _ _ _ _ (deref_at i t _ w l x El')), Ec, (bind_Ret _ _ _ _ _ (update_at i t _ w l _ x El')). apply my_at.
Qed.
(** Switching from the running fiber [f] to one whose context is there, and back. *)
Lemma swapIn_at i t F w f s x y c : t_scheduler_fiber t = Some s → s ≠ f → F !! f = Some x → F !! s = Some y →
  m_state x ≠ EXEC → m_ctx x = Some c →
  swapIn i f (at_ i t F w) = Ret tt (at_ i (set_here c (set_t_fiber (Some f) t))
    (<[f := set_ctx None (set_state EXEC x)]> (<[s := set_ctx (Some (here t)) y]> F)) w).
Proof.
  intros Es Hne Ef Ey Hst Hc. unfold swapIn, SetThis. rewrite (bind_Ret _ _ _ _ _ (my_at _ _ _ _ _)), (bind_Ret _ _ _ _ _ (deref_at _ _ _ _ _ _ Ef)).
  unfold is_state. rewrite bool_decide_false by set_solver. cbn [negb assert]. rewrite bind_ret, (bind_Ret _ _ _ _ _ (update_at _ _ _ _ _ _ _ Ef)).
  rewrite (bind_Ret _ _ _ _ _ (me_at _ _ _ _)). cbn [t_scheduler_fiber set_t_fiber]. rewrite Es. unfold not_null. rewrite bind_ret.
  rewrite (swapcontext_at i _ _ w s f y (set_state EXEC x) c); [|done|by rewrite lookup_insert_ne|by rewrite lookup_insert_eq|done].
  do 2 f_equal. cbn [here set_t_fiber]. rewrite (insert_insert_ne F s f) by done. by rewrite insert_insert_eq.
Qed.
Lemma swapOut_at i t F w f s x y c after : t_scheduler_fiber t = Some s → f ≠ s → F !! f = Some x → F !! s = Some y → m_ctx y = Some c →
  swapOut i f after (at_ i t F w) = Ret tt (at_ i (set_here c (set_t_fiber (Some s) t)) (<[s := set_ctx None y]> (<[f := set_ctx (Some after) x]> F)) w).
Proof.
  intros Es Hne Ef Ey Hc. unfold swapOut, SetThis. rewrite (bind_Ret _ _ _ _ _ (me_at _ _ _ _)), (bind_Ret _ _ _ _ _ (my_at _ _ _ _ _)), Es.
  unfold not_null. rewrite bind_ret. by rewrite (swapcontext_at _ _ _ _ f s x y c).
Qed.
Lemma back_at i t F w f s x y c after : t_threadFiber t = Some s → f ≠ s → F !! f = Some x → F !! s = Some y → m_ctx y = Some c →
  back i f after (at_ i t F w) = Ret tt (at_ i (set_here c (set_t_fiber (Some s) t)) (<[s := set_ctx None y]> (<[f := set_ctx (Some after) x]> F)) w).
Proof.
  intros Es Hne Ef Ey Hc. unfold back, SetThis. rewrite (bind_Ret _ _ _ _ _ (me_at _ _ _ _)), (bind_Ret _ _ _ _ _ (my_at _ _ _ _ _)), Es.
  unfold not_null. rewrite bind_ret. by rewrite (swapcontext_at _ _ _ _ f s x y c).
Qed.
Lemma call_at i t F w f s x y c : t_threadFiber t = Some s → s ≠ f → F !! f = Some x → F !! s = Some y → m_ctx x = Some c →
  call i f (at_ i t F w) = Ret tt (at_ i (set_here c (set_t_fiber (Some f) t))
    (<[f := set_ctx None (set_state EXEC x)]> (<[s := set_ctx (Some (here t)) y]> F)) w).
Proof.
  intros Es Hne Ef Ey Hc. unfold call, SetThis. rewrite (bind_Ret _ _ _ _ _ (my_at _ _ _ _ _)), (bind_Ret _ _ _ _ _ (update_at _ _ _ _ _ _ _ Ef)).
  rewrite (bind_Ret _ _ _ _ _ (me_at _ _ _ _)). cbn [t_threadFiber set_t_fiber]. rewrite Es. unfold not_null. rewrite bind_ret.
  rewrite (swapcontext_at i _ _ w s f y (set_state EXEC x) c); [|done|by rewrite lookup_insert_ne|by rewrite lookup_insert_eq|done].
  do 2 f_equal. cbn [here set_t_fiber]. rewrite (insert_insert_ne F s f) by done. by rewrite insert_insert_eq.
Qed.

Lemma deref_fiber f w x : fibers w !! f = Some x → deref f w = Ret x w.
Proof. intros E. unfold deref. by rewrite E. Qed.
Lemma update_ok f h w x : fibers w !! f = Some x → update f h w = Ret tt (set_fibers (<[f := h x]> (fibers w)) w).
Proof. intros E. unfold update. by rewrite (bind_Ret _ _ _ _ _ (deref_fiber f w x E)). Qed.

(** ** What holds between steps *)
Definition owns t f : Prop := on (here t) = Some f ∨ t_threadFiber t = Some f ∨ m_rootFiber t = Some f.
(** A fiber that no thread has on its stacks. *)
Definition suspended x : Prop := ∃ f uc rest, m_ctx x = Some (Running f uc rest).
Definition parked f x : Prop := m_stack x = true ∧
  ((m_state x = INIT ∧ m_ctx x = Some (Entering f false) ∧ m_cb x ≠ Some Loop)
   ∨ ((m_state x = HOLD ∨ m_state x = READY) ∧ ∃ rest, m_ctx x = Some (Running f false rest))
   ∨ ((m_state x = TERM ∨ m_state x = EXCEPT) ∧ m_ctx x = Some (Ended f))).
Definition held w f : Prop := f ∈ handles w ∨ ∃ i t, threads w !! i = Some t ∧ holding t = Some f.

(** A thread's own fiber, a root, and a fiber that runs [c]. *)
Definition main_at F m (c : option code) : Prop :=
  ∃ x, F !! m = Some x ∧ m_stack x = false ∧ m_state x = EXEC ∧ m_cb x = None ∧ m_ctx x = c.
Definition root_at F r (c : code) : Prop := ∃ x, F !! r = Some x ∧ m_stack x = true ∧
  match c with
  | OwnCode => (m_state x = INIT ∧ m_ctx x = Some (Entering r true) ∧ m_cb x = Some Loop) ∨ (m_state x = TERM ∧ m_ctx x = Some (Ended r))
  | Entering g true => g = r ∧ m_state x = EXEC ∧ m_ctx x = None ∧ m_cb x = Some Loop
  | Looping g true => g = r ∧ m_state x = EXEC ∧ m_ctx x = None
  | Ending g true => g = r ∧ m_state x = TERM ∧ m_ctx x = None
  | _ => False
  end.
Definition fiber_at F f (c : code) : Prop := ∃ x, F !! f = Some x ∧ m_stack x = true ∧ m_ctx x = None ∧
  match c with
  | Entering g false => g = f ∧ m_state x = EXEC ∧ m_cb x ≠ Some Loop
  | Running g false _ => g = f ∧ m_state x = EXEC
  | Yielding g false _ => g = f ∧ (m_state x = HOLD ∨ m_state x = READY)
  | Ending g false => g = f ∧ (m_state x = TERM ∨ m_state x = EXCEPT)
  | _ => False
  end.
(** Where a fiber of the thread whose own fiber is [m] switches out to: the
    scheduler's fiber, the root and the code that waits there. *)
Inductive returns F m : loc → option loc → code → Prop :=
  | returns_own : main_at F m (Some OwnCode) → returns F m m None OwnCode
  | returns_root r x : r ≠ m → main_at F m (Some OwnCode) → F !! r = Some x → m_stack x = true → m_state x = EXEC → m_ctx x = Some (Looping r true) →
      returns F m r (Some r) (Looping r true).
(** The contexts of a thread are those of a stack of calls. *)
Inductive thread_ok F : thread → Prop :=
  | ok_new : thread_ok F thread_new
  | ok_own m o h : main_at F m None → (o = None ∨ o = Some m) → thread_ok F (mkThread (Some m) (Some m) o None h OwnCode)
  | ok_fiber m s R k f c : returns F m s R k → f ≠ m → f ≠ s → fiber_at F f c → thread_ok F (mkThread (Some f) (Some m) (Some s) R (Some f) c)
  | ok_rooted m r : main_at F m None → r ≠ m → root_at F r OwnCode → thread_ok F (mkThread (Some m) (Some m) (Some r) (Some r) None OwnCode)
  | ok_root m r c h : main_at F m (Some OwnCode) → r ≠ m → root_at F r c → on c = Some r → (h = None ∨ c = Looping r true) →
      thread_ok F (mkThread (Some r) (Some m) (Some r) (Some r) h c).

Record inv w : Prop := {
  inv_fresh : ∀ f, is_Some (fibers w !! f) → (f < next_loc w)%nat;
  inv_count : s_fiber_count w = u64 (Z.of_nat (base.size (fibers w)));
  inv_thread : ∀ i t, threads w !! i = Some t → thread_ok (fibers w) t;
  inv_own : ∀ i j t u f, threads w !! i = Some t → threads w !! j = Some u → owns t f → owns u f → i = j;
  inv_parked : ∀ f x, fibers w !! f = Some x → (∃ i t, threads w !! i = Some t ∧ owns t f) ∨ (parked f x ∧ (suspended x ∨ held w f));
  inv_held : ∀ f, held w f → is_Some (fibers w !! f) ∧ ∀ i t, threads w !! i = Some t → t_threadFiber t ≠ Some f ∧ m_rootFiber t ≠ Some f
}.

Lemma inv_fibers_start : inv fibers_start.
Proof.
  split; [|done|..]; cbn; intros *; rewrite ?lookup_empty; try done.
  intros [H|(i & t & H & _)]; cbn in H; [by apply elem_of_nil in H|by rewrite lookup_empty in H].
Qed.
Lemma fiber_on F f c : fiber_at F f c → on c = Some f.
Proof. intros (x & _ & _ & _ & H). destruct c as [|? []|? [] ?|? [] ?|? []|? []|]; naive_solver. Qed.
(** It depends on the fibers that the thread owns. *)
Lemma thread_ok_frame F F' t : (∀ g, owns t g → F' !! g = F !! g) → thread_ok F t → thread_ok F' t.
Proof.
  intros HF H. inversion H as [|m o h Hm Hs|m s R k f c Hr Hfm Hfs Hf|m r Hm Hr Hroot|m r c h Hm Hr Hroot Hc Hh]; subst t; unfold owns in HF; cbn in HF.
  - constructor.
  - destruct Hm as (x & Hx & Hm). constructor; [|done]. exists x. split; [|done]. rewrite HF; [done|]. naive_solver.
  - pose proof (fiber_on _ _ _ Hf) as Hc.
    apply (ok_fiber _ _ _ _ k); try done.
    + inversion Hr as [(y & Hy & Hm)|r x Hrm (y & Hy & Hm) Hx]; subst; econstructor; try done; [exists y| exists y|]; try (split; [|done]); rewrite HF; naive_solver.
    + destruct Hf as (x & Hx & Hf). exists x. split; [|done]. rewrite HF; naive_solver.
  - destruct Hm as (x & Hx & Hm), Hroot as (y & Hy & Hroot). constructor; [|done|]; [exists x|exists y]; (split; [|done]); rewrite HF; naive_solver.
  - destruct Hm as (x & Hx & Hm), Hroot as (y & Hy & Hroot). constructor; try done; [exists x|exists y]; (split; [|done]); rewrite HF; naive_solver.
Qed.
(** A step of one thread. *)
Lemma inv_at i t t' F' hs tr w : inv w → threads w !! i = Some t →
  let w' := set_trace tr (set_handles hs (at_ i t' F' w)) in
  dom F' = dom (fibers w) → thread_ok F' t' →
  t_threadFiber t' = t_threadFiber t → m_rootFiber t' = m_rootFiber t →
  (∀ g, ¬ owns t g → ¬ owns t' g → F' !! g = fibers w !! g) →
  (∀ g, owns t' g → ¬ owns t g → ∀ j u, threads w !! j = Some u → ¬ owns u g) →
  (∀ g x, owns t g → ¬ owns t' g → F' !! g = Some x → parked g x ∧ (suspended x ∨ held w' g)) →
  (∀ g, held w' g ↔ held w g) → inv w'.
Proof.
  intros [I1 I2 I3 I4 I5 I6] Hi w' Hdom Hok Em Er Hsame Hnew Hleft Hheld.
  assert (∀ j u, threads w' !! j = Some u → (j = i ∧ u = t') ∨ (j ≠ i ∧ threads w !! j = Some u)) as Hth.
  { intros j u. cbn. destruct (decide (i = j)) as [<-|Hne]; [rewrite lookup_insert_eq|rewrite lookup_insert_ne by done]; naive_solver. }
  assert (∀ g, is_Some (F' !! g) ↔ is_Some (fibers w !! g)) as Hd by (intros g; by rewrite <- !elem_of_dom, Hdom).
  assert (∀ j u g, j ≠ i → threads w !! j = Some u → owns u g → ¬ owns t g ∧ ¬ owns t' g) as Hothers.
  { intros j u g Hji Hj Hu. destruct (decide (owns t g)) as [Ht|Ht]; [|split; [done|]]; [by destruct (Hji (I4 _ _ _ _ _ Hj Hi Hu Ht))|].
    intros Ht'. by destruct (Hnew g Ht' Ht j u Hj). }
  split.
  - intros f Hf. apply I1. by apply Hd.
  - cbn. rewrite I2, <- !size_dom. by rewrite Hdom.
  - intros j u [[-> ->]|[Hne Hj]]%Hth; [done|]. eapply thread_ok_frame, I3, Hj. intros g Hg. cbn. apply Hsame; eapply Hothers; eauto.
  - intros j1 j2 u1 u2 f [[-> ->]|[Hne1 H1]]%Hth [[-> ->]|[Hne2 H2]]%Hth O1 O2; [done|..].
    + by destruct (Hothers _ _ _ Hne2 H2 O2).
    + by destruct (Hothers _ _ _ Hne1 H1 O1).
    + by eapply I4.
  - intros f x Hx. destruct (decide (owns t' f)) as [Ho|Ho]; [left; exists i, t'; split; [apply lookup_insert_eq|done]|].
    destruct (decide (owns t f)) as [Ht|Ht]; [right; by apply Hleft|]. cbn in Hx. rewrite Hsame in Hx by done.
    destruct (I5 f x Hx) as [(j & u & Hj & Hu)|[Hp Hs]].
    + left. exists j, u. split; [|done]. cbn. rewrite lookup_insert_ne; [done|]. intros <-. congruence.
    + right. split; [done|]. destruct Hs; [by left|right; by apply Hheld].
  - intros f Hf%Hheld. destruct (I6 f Hf) as [Hs Hb]. split; [by apply Hd|]. intros j u [[-> ->]|[_ Hj]]%Hth; [|by eapply Hb].
    rewrite Em, Er. by apply (Hb i t).
Qed.

(** ** References *)
Lemma referenced_by f w : referenced f w = true ↔
  f ∈ handles w ∨ (∃ i t, threads w !! i = Some t ∧ thread_refers f t = true) ∨ ∃ g x, fibers w !! g = Some x ∧ stack_refers f x = true.
Proof. unfold referenced. rewrite !orb_true_iff, !bool_decide_eq_true. unfold map_Exists. tauto. Qed.
Lemma release_kept i j f t w : threads w !! i = Some t → thread_refers f t = true → release j f w = Ret tt w.
Proof.
  intros Hi Hr. unfold release. rewrite bind_gets. unfold id. assert (referenced f w = true) as -> by (apply referenced_by; right; left; eauto). done.
Qed.
Lemma finish_at i t F w f uc st (clear : bool) x : F !! f = Some x → (holding t = Some f ∨ m_rootFiber t = Some f) →
  finish i f uc st clear (at_ i t F w)
  = Ret tt (at_ i (set_here (Ending f uc) t) (<[f := set_state st (if clear then set_cb None x else x)]> F) w).
Proof.
  intros Hx Hr. unfold finish. set (x1 := if clear then set_cb None x else x).
  assert ((if clear then update f (set_cb None) else ret tt) (at_ i t F w) = Ret tt (at_ i t (<[f := x1]> F) w)) as E1.
  { unfold x1. destruct clear; [by apply update_at|]. by rewrite insert_id. }
  rewrite (bind_Ret _ _ _ _ _ E1). assert (<[f := x1]> F !! f = Some x1) as Hx1 by by rewrite lookup_insert_eq.
  rewrite (bind_Ret _ _ _ _ _ (update_at _ _ _ _ _ _ _ Hx1)), insert_insert_eq, (bind_Ret _ _ _ _ _ (my_at _ _ _ _ _)).
  eapply release_kept; [apply lookup_insert_eq|]. unfold thread_refers. apply bool_decide_eq_true. cbn. tauto.
Qed.

(** ** What callbacks have to do *)
(** Up to an exception. *)
Fixpoint works (l : list action) : list Z :=
  match l with
  | [] | Raise :: _ => []
  | Work n :: l => n :: works l
  | _ :: l => works l
  end.
Definition code_owed (cb : option callback) (c : code) : list Z :=
  match c with
  | Entering _ _ => match cb with Some (Acts l) => works l | _ => [] end
  | Running _ _ rest | Yielding _ _ rest => works rest
  | _ => []
  end.
(** The code that [f] runs, or goes on with. *)
Definition code_of w f x (c : code) : Prop :=
  match m_ctx x with
  | Some c' => c = c'
  | None => ∃ i t, threads w !! i = Some t ∧ on (here t) = Some f ∧ c = here t
  end.
Definition owes w f (l : list Z) : Prop := ∃ x c, fibers w !! f = Some x ∧ m_stack x = true ∧ code_of w f x c ∧ l = code_owed (m_cb x) c.
Definition done_by f w : list Z := snd <$> filter (λ p, p.1 = f) (trace w).
(** Nothing that [f] has to do gets lost or is done twice. *)
Definition keeps f w w' : Prop := ∀ l, owes w f l → ∃ l', owes w' f l' ∧ done_by f w' ++ l' = done_by f w ++ l.

Lemma work_refl f w : keeps f w w.
Proof. intros l Hl. by exists l. Qed.
Lemma work_trans f w1 w2 w3 : keeps f w1 w2 → keeps f w2 w3 → keeps f w1 w3.
Proof. intros H1 H2 l Hl. destruct (H1 l Hl) as (l2 & Hl2 & E2). destruct (H2 l2 Hl2) as (l3 & Hl3 & E3). exists l3. split; [done|congruence]. Qed.
(** A step of one thread only counts for the fibers it is on. *)
Lemma keeps_at i t t' F' hs tr w : threads w !! i = Some t →
  let w' := set_trace tr (set_handles hs (at_ i t' F' w)) in ∀ g,
  on (here t) ≠ Some g → F' !! g = fibers w !! g → done_by g w' = done_by g w → keeps g w w'.
Proof.
  intros Hi w' g Ht HF Hd l (x & c & Hx & Hst & Hc & ->). exists (code_owed (m_cb x) c). rewrite Hd. split; [|done].
  exists x, c. split_and!; [cbn; congruence|done| |done]. unfold code_of in *. destruct (m_ctx x); [done|]. destruct Hc as (j & u & Hj & Hon & ->).
  exists j, u. split; [|done]. cbn. rewrite lookup_insert_ne; [done|]. intros <-. by assert (u = t) as -> by congruence.
Qed.

(** ** Steps *)
Section fiber_steps.
Context (i : nat) (m s : loc) (R : option loc) (k : code) (f : loc) (w : world).
#[local] Notation F := (fibers w).
#[local] Notation thr c := (mkThread (Some f) (Some m) (Some s) R (Some f) c).
Context (Hinv : inv w) (Hr : returns F m s R k) (Hfm : f ≠ m) (Hfs : f ≠ s).

Lemma returns_other x : returns (<[f := x]> F) m s R k.
Proof using All.
  inversion Hr as [(y & Hy & Hm)|r y Hrm (z & Hz & Hm) Hy]; subst; econstructor; try done; [exists y|exists z|]; try (split; [|done]); by rewrite lookup_insert_ne.
Qed.
(** The fiber goes on at [c'], as [x']. *)
Lemma stays c c' x' tr : threads w !! i = Some (thr c) → fiber_at F f c → fiber_at (<[f := x']> F) f c' →
  let w' := set_trace tr (set_handles (handles w) (at_ i (thr c') (<[f := x']> F) w)) in
  (∀ g, g ≠ f → done_by g w' = done_by g w) →
  (∀ x, F !! f = Some x → done_by f w' ++ code_owed (m_cb x') c' = done_by f w ++ code_owed (m_cb x) c) →
  inv w' ∧ ∀ g, keeps g w w'.
Proof using All.
  intros Hi Hf Hf' w' Hothers Hown. pose proof (fiber_on _ _ _ Hf) as Hon. pose proof (fiber_on _ _ _ Hf') as Hon'.
  destruct Hf as (x & Hx & Hst & Hctx & _).
  assert (∀ g, owns (thr c') g ↔ owns (thr c) g) as Ho by (intros g; unfold owns; cbn; by rewrite Hon, Hon').
  split.
  - apply (inv_at i (thr c) (thr c') (<[f := x']> F) (handles w) tr w); try done.
    + rewrite dom_insert_lookup_L; [done|by eexists].
    + apply (ok_fiber _ _ _ _ k); try done. apply returns_other.
    + intros g _ Hg. rewrite lookup_insert_ne; [done|]. intros <-. apply Hg. by left.
    + intros g Hg1 Hg2. by apply Ho in Hg1.
    + intros g y Hg1 Hg2. by apply Ho in Hg1.
    + intros g. unfold held. cbn. f_equiv. f_equiv. intros j. split; intros (u & Hu & Hh).
      * destruct (decide (i = j)) as [<-|Hne]; [rewrite lookup_insert_eq in Hu|rewrite lookup_insert_ne in Hu by done; by exists u].
        injection Hu as <-. by exists (thr c).
      * destruct (decide (i = j)) as [<-|Hne]; [|exists u; by rewrite lookup_insert_ne]. exists (thr c'). rewrite lookup_insert_eq.
        split; [done|]. assert (u = thr c) as -> by congruence. done.
  - intros g. destruct (decide (g = f)) as [->|Hne].
    + intros l (y & c0 & Hy & _ & Hc & ->). assert (y = x) as -> by congruence. unfold code_of in Hc. rewrite Hctx in Hc. destruct Hc as (j & u & Hj & Hu & ->).
      assert (j = i) as -> by (eapply inv_own; [exact Hinv|exact Hj|exact Hi|by left|by left]). assert (u = thr c) as -> by congruence.
      exists (code_owed (m_cb x') c'). split; [|by apply Hown]. destruct Hf' as (z & Hz & Hzst & Hzc & _). rewrite lookup_insert_eq in Hz. injection Hz as <-.
      exists x', c'. split_and!; [apply lookup_insert_eq|done| |done]. unfold code_of. rewrite Hzc. exists i, (thr c'). split; [apply lookup_insert_eq|done].
    + apply (keeps_at i (thr c)); [done|cbn; congruence|by rewrite lookup_insert_ne|by apply Hothers].
Qed.

(** What the scheduler's fiber is when it goes on. *)
#[local] Notation home := (mkThread (Some s) (Some m) (Some s) R (Some f) k).
Lemma returns_at : ∃ y, F !! s = Some y ∧ m_ctx y = Some k ∧ (k = OwnCode ∨ k = Looping s true)
  ∧ ∀ x', thread_ok (<[s := set_ctx None y]> (<[f := x']> F)) home.
Proof using All.
  inversion Hr as [(y & Hy & Hyst & Hys & Hyc & Hyx)|r y Hrm (z & Hz & Hm) Hy Hyst Hys Hyx]; subst.
  - exists y. split_and!; [done|done|by left|]. intros x'. apply ok_own; [|by right]. exists (set_ctx None y). by rewrite lookup_insert_eq.
  - exists y. split_and!; [done|done|by right|]. intros x'. apply ok_root; [|done| |done|by right].
    + exists z. split; [|done]. by rewrite !lookup_insert_ne.
    + exists (set_ctx None y). rewrite lookup_insert_eq. by split_and!.
Qed.
(** The fiber is switched out, as [x']. *)
Lemma leaves c x' y : threads w !! i = Some (thr c) → fiber_at F f c → F !! s = Some y → parked f x' →
  (∀ x, F !! f = Some x → ∀ c', m_ctx x' = Some c' → code_owed (m_cb x') c' = code_owed (m_cb x) c) →
  let w' := at_ i home (<[s := set_ctx None y]> (<[f := x']> F)) w in inv w' ∧ ∀ g, keeps g w w'.
Proof using All.
  intros Hi Hf Hs Hp Hown w'. pose proof (fiber_on _ _ _ Hf) as Hon. destruct Hf as (x & Hx & Hst & Hctx & _).
  destruct returns_at as (y' & Hy & Hyc & Hk & Hhome). assert (y' = y) as -> by congruence.
  assert (R = None ∧ s = m ∨ R = Some s) as HR by (inversion Hr; subst; [by left|by right]).
  assert (∀ g, owns home g ↔ owns (thr c) g ∧ g ≠ f) as Ho.
  { intros g. unfold owns; cbn. rewrite Hon. destruct Hk as [-> | ->]; cbn; naive_solver. }
  assert (w' = set_trace (trace w) (set_handles (handles w) w')) as Ew by done.
  split.
  - rewrite Ew. apply (inv_at i (thr c) home _ (handles w) (trace w) w); try done.
    + rewrite !dom_insert_lookup_L; [done|by eexists|]. rewrite lookup_insert_ne; [by eexists|done].
    + intros g Hg _. unfold owns in Hg. cbn in Hg. rewrite Hon in Hg. rewrite !lookup_insert_ne; naive_solver.
    + intros g [Hg _]%Ho Hn. done.
    + intros g z Hg Hn Hz. assert (g = f) as -> by (destruct (decide (g = f)); [done|]; destruct Hn; by apply Ho).
      rewrite lookup_insert_ne, lookup_insert_eq in Hz by done. injection Hz as <-. split; [done|]. right. right. exists i, home. split; [apply lookup_insert_eq|done].
    + intros g. unfold held. cbn. f_equiv. f_equiv. intros j. split; intros (u & Hu & Hh).
      * destruct (decide (i = j)) as [<-|Hne]; [rewrite lookup_insert_eq in Hu|rewrite lookup_insert_ne in Hu by done; by exists u].
        injection Hu as <-. by exists (thr c).
      * destruct (decide (i = j)) as [<-|Hne]; [|exists u; by rewrite lookup_insert_ne]. exists home. rewrite lookup_insert_eq.
        split; [done|]. assert (u = thr c) as -> by congruence. done.
  - intros g. destruct (decide (g = f)) as [->|Hgf]; [|destruct (decide (g = s)) as [->|Hgs]].
    + intros l (z & c0 & Hz & _ & Hc & ->). assert (z = x) as -> by congruence. unfold code_of in Hc. rewrite Hctx in Hc. destruct Hc as (j & u & Hj & Hu & ->).
      assert (j = i) as -> by (eapply inv_own; [exact Hinv|exact Hj|exact Hi|by left|by left]). assert (u = thr c) as -> by congruence.
      assert (∃ c', m_ctx x' = Some c') as [c' Hc'] by (destruct Hp as [_ [(_ & ? & _)|[(_ & ? & ?)|(_ & ?)]]]; by eexists).
      exists (code_owed (m_cb x') c'). rewrite (Hown x Hx c' Hc'). split; [|done]. exists x', c'.
      split_and!; [cbn; by rewrite lookup_insert_ne, lookup_insert_eq|by destruct Hp| |by rewrite (Hown x Hx c' Hc')]. unfold code_of. by rewrite Hc'.
    + intros l (z & c0 & Hz & Hzst & Hc & ->). assert (z = y) as -> by congruence. unfold code_of in Hc. rewrite Hyc in Hc. subst c0.
      exists (code_owed (m_cb y) k). split; [|done]. exists (set_ctx None y), k. split_and!; [apply lookup_insert_eq|done| |done].
      unfold code_of. cbn [m_ctx set_ctx]. destruct Hk as [-> | ->].
      * inversion Hr as [(z & Hz' & Hzst' & _)|]; subst. congruence.
      * eexists i, _. split; [apply lookup_insert_eq|done].
    + rewrite Ew. apply (keeps_at i (thr c)); [done|cbn; congruence|by rewrite !lookup_insert_ne|done].
Qed.
End fiber_steps.

(** How far a callback has to go, in steps. *)
Definition acts_of (cb : option callback) : list action := match cb with Some (Acts l) => l | _ => [] end.
Definition to_go (cb : option callback) (c : code) : nat :=
  match c with
  | Entering _ _ => 4 + 2 * length (acts_of cb)
  | Running _ _ rest => 3 + 2 * length rest
  | Yielding _ _ rest => 4 + 2 * length rest
  | Ending _ _ => 2
  | _ => 0
  end%nat.
(** A step on a fiber: it goes on, or the thread is back at its scheduler. *)
Inductive stepped (i : nat) m s (R : option loc) (k : code) f (n : nat) w w' : Prop :=
  | stepped_on c x : threads w' = <[i := mkThread (Some f) (Some m) (Some s) R (Some f) c]> (threads w) →
      returns (fibers w') m s R k → fiber_at (fibers w') f c → fibers w' !! f = Some x → (to_go (m_cb x) c < n)%nat → stepped i m s R k f n w w'
  | stepped_out c x : threads w' = <[i := mkThread (Some s) (Some m) (Some s) R (Some f) k]> (threads w) →
      fibers w' !! f = Some x → parked f x → m_state x ≠ INIT → m_ctx x = Some c → (to_go (m_cb x) c < n)%nat → stepped i m s R k f n w w'.

Lemma step_fiber i m s R k f c x w : inv w → threads w !! i = Some (mkThread (Some f) (Some m) (Some s) R (Some f) c) →
  returns (fibers w) m s R k → f ≠ m → f ≠ s → fiber_at (fibers w) f c → fibers w !! f = Some x →
  ∃ w', step i w = Ret tt w' ∧ inv w' ∧ (∀ g, keeps g w w') ∧ handles w' = handles w ∧ stepped i m s R k f (to_go (m_cb x) c) w w'.
Proof.
  intros Hinv Hi Hr Hfm Hfs Hf Hx. set (t := mkThread (Some f) (Some m) (Some s) R (Some f) c) in *.
  assert (step i w = step i (at_ i t (fibers w) w)) as -> by by rewrite at_id. pose proof Hf as (x0 & Hx0 & Hst & Hctx & Hph). assert (x0 = x) as -> by congruence.
  assert (∀ c' x' tr, fiber_at (<[f := x']> (fibers w)) f c' →
    let w' := set_trace tr (set_handles (handles w) (at_ i (set_here c' t) (<[f := x']> (fibers w)) w)) in
    step i (at_ i t (fibers w) w) = Ret tt w' → (∀ g, g ≠ f → done_by g w' = done_by g w) →
    done_by f w' ++ code_owed (m_cb x') c' = done_by f w ++ code_owed (m_cb x) c → (to_go (m_cb x') c' < to_go (m_cb x) c)%nat →
    ∃ w', step i (at_ i t (fibers w) w) = Ret tt w' ∧ inv w' ∧ (∀ g, keeps g w w') ∧ handles w' = handles w ∧ stepped i m s R k f (to_go (m_cb x) c) w w') as Hstay.
  { intros c' x' tr Hf' w' E Ho Hd Hlt. exists w'. split; [done|].
    destruct (stays i m s R k f w Hinv Hr Hfm Hfs c c' x' tr Hi Hf Hf' Ho) as [Hi' Hk]; [intros z Hz; by assert (z = x) as -> by congruence|].
    split_and!; [done..|]. apply (stepped_on i m s R k f _ w w' c' x'); [done|by apply (returns_other i m s R k f w)|done|apply lookup_insert_eq|done]. }
  assert (∀ x' c', parked f x' → m_state x' ≠ INIT → m_ctx x' = Some c' →
    (∀ y, fibers w !! s = Some y → step i (at_ i t (fibers w) w) = Ret tt (at_ i (mkThread (Some s) (Some m) (Some s) R (Some f) k) (<[s := set_ctx None y]> (<[f := x']> (fibers w))) w)) →
    code_owed (m_cb x') c' = code_owed (m_cb x) c → (to_go (m_cb x') c' < to_go (m_cb x) c)%nat →
    ∃ w', step i (at_ i t (fibers w) w) = Ret tt w' ∧ inv w' ∧ (∀ g, keeps g w w') ∧ handles w' = handles w ∧ stepped i m s R k f (to_go (m_cb x) c) w w') as Hout.
  { intros x' c' Hp Hs Hc' E Hd Hlt. destruct (returns_at i m s R k f w Hinv Hr Hfm Hfs) as (y & Hy & _). eexists. split; [by apply E|].
    destruct (leaves i m s R k f w Hinv Hr Hfm Hfs c x' y Hi Hf Hy Hp) as [Hi' Hk].
    { intros z Hz c0 Hc0. assert (z = x) as -> by congruence. by assert (c0 = c') as -> by congruence. }
    split_and!; [done..|]. eapply stepped_out; [done| |done..]. cbn. by rewrite lookup_insert_ne, lookup_insert_eq. }
  assert (∀ c', Ret tt (at_ i (set_here c' t) (fibers w) w) = Ret tt (set_trace (trace w) (set_handles (handles w) (at_ i (set_here c' t) (<[f := x]> (fibers w)) w))) :> outcome world unit) as Hsame.
  { intros c'. by rewrite insert_id. }
  assert (step i (at_ i t (fibers w) w) = _) as Estep by (unfold step; rewrite (bind_Ret _ _ _ _ _ (me_at _ _ _ _)); reflexivity). cbn [here t] in Estep.
  rewrite Estep in Hstay, Hout |- *. clear Estep.
  assert (∀ x', m_stack x' = true → m_ctx x' = None → ∀ c', match c' with
      | Entering g false => g = f ∧ m_state x' = EXEC ∧ m_cb x' ≠ Some Loop
      | Running g false _ => g = f ∧ m_state x' = EXEC
      | Yielding g false _ => g = f ∧ (m_state x' = HOLD ∨ m_state x' = READY)
      | Ending g false => g = f ∧ (m_state x' = TERM ∨ m_state x' = EXCEPT)
      | _ => False
      end → fiber_at (<[f := x']> (fibers w)) f c') as Hat by (intros x' ? ? c' ?; exists x'; by rewrite lookup_insert_eq).
  assert (∀ st (clear : bool), finish i f false st clear (at_ i t (fibers w) w) = _) as Efin by (intros; apply finish_at; [exact Hx|by left]).
  assert (∀ st rest, yield_begin i f st false rest (at_ i t (fibers w) w) = Ret tt (at_ i (set_here (Yielding f false rest) t) (<[f := set_state st x]> (fibers w)) w)) as Eyield.
  { intros st rest. unfold yield_begin. rewrite (bind_Ret _ _ _ _ _ (GetThis_at i t _ w f x eq_refl Hx)), (bind_Ret _ _ _ _ _ (me_at _ _ _ _)).
    cbn [t_threadFiber t]. rewrite bool_decide_false by congruence. rewrite (bind_Ret _ _ _ _ _ (update_at _ _ _ _ _ _ _ Hx)). apply my_at. }
  assert (∀ after, ∀ y, fibers w !! s = Some y → swapOut i f after (at_ i t (fibers w) w)
    = Ret tt (at_ i (mkThread (Some s) (Some m) (Some s) R (Some f) k) (<[s := set_ctx None y]> (<[f := set_ctx (Some after) x]> (fibers w))) w)) as Eout.
  { intros after y Hy. destruct (returns_at i m s R k f w Hinv Hr Hfm Hfs) as (y' & Hy' & Hk & _). assert (y' = y) as -> by congruence.
    by rewrite (swapOut_at i t _ w f s x y k). }
  assert (∀ n, done_by f (set_trace (trace w ++ [(f, n)]) w) = done_by f w ++ [n]) as Hdf.
  { intros n. unfold done_by. cbn. by rewrite filter_app, fmap_app, filter_cons_True. }
  assert (∀ n g, g ≠ f → done_by g (set_trace (trace w ++ [(f, n)]) w) = done_by g w) as Hdg.
  { intros n g Hg. unfold done_by. cbn. rewrite filter_app, filter_cons_False by (cbn; congruence). by rewrite filter_nil, app_nil_r. }
  destruct c as [|g []|g [] rest|g [] rest|g []|g []|g]; try done; destruct Hph as [-> Hph].
  - rewrite (bind_Ret _ _ _ _ _ (GetThis_at i t _ w f x eq_refl Hx)), (bind_Ret _ _ _ _ _ (deref_at i t _ w f x Hx)) in Hstay, Hout |- *.
    destruct Hph as [Hex Hloop]. destruct (m_cb x) as [[l|]|] eqn:Ecb; [|done|].
    + rewrite my_at in *. apply (Hstay (Running f false l) x (trace w)); [by apply Hat|apply Hsame|done|by rewrite Ecb|cbn; lia].
    + rewrite Efin in *. eapply (Hstay (Ending f false) _ (trace w)); [|reflexivity|done|done|cbn; lia]. apply Hat; [done..|]. split; [done|by right].
  - destruct rest as [|[n| | |] rest].
    + rewrite Efin in *. eapply (Hstay (Ending f false) _ (trace w)); [|reflexivity|done|done|cbn; lia]. apply Hat; [done..|]. split; [done|by left].
    + rewrite bind_modify in *. change (set_trace _ (at_ i t (fibers w) w)) with (at_ i t (fibers w) (set_trace (trace w ++ [(f, n)]) w)) in *.
      rewrite my_at in *. apply (Hstay (Running f false rest) x (trace w ++ [(f, n)])); [by apply Hat|by rewrite insert_id|intros g Hg; by apply Hdg| |cbn; lia].
      change (done_by f (set_trace (trace w ++ [(f, n)]) w) ++ works rest = done_by f w ++ n :: works rest). by rewrite Hdf, <- (assoc_L (++)).
    + rewrite Eyield in *. eapply (Hstay (Yielding f false rest) _ (trace w)); [|reflexivity|done|done|cbn; lia]. apply Hat; [done..|]. split; [done|by left].
    + rewrite Eyield in *. eapply (Hstay (Yielding f false rest) _ (trace w)); [|reflexivity|done|done|cbn; lia]. apply Hat; [done..|]. split; [done|by right].
    + rewrite Efin in *. eapply (Hstay (Ending f false) _ (trace w)); [|reflexivity|done|done|cbn; lia]. apply Hat; [done..|]. split; [done|by right].
  - apply (Hout (set_ctx (Some (Running f false rest)) x) (Running f false rest)); [|cbn; by destruct Hph as [-> | ->]|done|intros y Hy; by apply Eout|done|cbn; lia].
    split; [done|]. right. left. split; [done|by eexists].
  - apply (Hout (set_ctx (Some (Ended f)) x) (Ended f)); [|cbn; by destruct Hph as [-> | ->]|done|intros y Hy; by apply Eout|done|cbn; lia].
    split; [done|]. right. right. by split.
Qed.

(** ** Operations *)
Lemma keeps_frame g w w' : fibers w' !! g = fibers w !! g → trace w' = trace w →
  (∀ j u, threads w !! j = Some u → on (here u) = Some g → ∃ u', threads w' !! j = Some u' ∧ here u' = here u) → keeps g w w'.
Proof.
  intros HF Ht Hth l (x & c & Hx & Hst & Hc & ->). exists (code_owed (m_cb x) c). split; [|unfold done_by; by rewrite Ht].
  exists x, c. split_and!; [congruence|done| |done]. unfold code_of in *. destruct (m_ctx x); [done|]. destruct Hc as (j & u & Hj & Hon & ->).
  destruct (Hth j u Hj Hon) as (u' & Hj' & Hh). exists j, u'. by rewrite Hh.
Qed.
(** What an operation leaves: the invariant, and the work of the fibers that it does not reset. *)
Definition fine (but : option loc) w (r : outcome world unit) : Prop :=
  ∃ w', r = Ret tt w' ∧ inv w' ∧ ∀ g, Some g ≠ but → is_Some (fibers w' !! g) → keeps g w w'.
Lemma fine_ret but w : inv w → fine but w (Ret tt w).
Proof. intros H. exists w. split_and!; [done..|]. intros. apply work_refl. Qed.
Lemma fine_when but w b (p : ST world unit) : (b w = true → fine but w (p w)) → inv w → fine but w (when b p w).
Proof. intros H Hi. unfold when. destruct (b w); [by apply H|by apply fine_ret]. Qed.

(** Only the thread changes, and not where it is. *)
Lemma fine_thread but i t t' w : inv w → threads w !! i = Some t → thread_ok (fibers w) t' →
  here t' = here t → t_threadFiber t' = t_threadFiber t → m_rootFiber t' = m_rootFiber t → holding t' = holding t →
  fine but w (Ret tt (at_ i t' (fibers w) w)).
Proof.
  intros Hinv Hi Hok Eh Em Er Ehold. eexists. split; [done|]. split.
  - apply (inv_at i t t' (fibers w) (handles w) (trace w) w); try done.
    + intros g Hg Hg' j u Hj Hu. apply Hg'. revert Hg. unfold owns. by rewrite Eh, Em, Er.
    + intros g x Hg Hg'. destruct Hg'. revert Hg. unfold owns. by rewrite Eh, Em, Er.
    + intros g. unfold held. cbn. f_equiv. f_equiv. intros j. split; intros (u & Hu & Hh).
      * destruct (decide (i = j)) as [<-|Hne]; [rewrite lookup_insert_eq in Hu|rewrite lookup_insert_ne in Hu by done; by exists u].
        injection Hu as <-. exists t. split; [done|congruence].
      * destruct (decide (i = j)) as [<-|Hne]; [|exists u; by rewrite lookup_insert_ne]. exists t'. rewrite lookup_insert_eq.
        split; [done|]. assert (u = t) as -> by congruence. congruence.
  - intros g _ _. apply keeps_frame; [done|done|]. intros j u Hj _. cbn. destruct (decide (i = j)) as [<-|Hne].
    + exists t'. rewrite lookup_insert_eq. split; [done|]. by assert (u = t) as -> by congruence.
    + exists u. by rewrite lookup_insert_ne.
Qed.
(** Handles that come and go. *)
Lemma inv_handles hs w : inv w → (∀ f, f ∈ hs → held w f) → (∀ f, held w f → held (set_handles hs w) f) → inv (set_handles hs w).
Proof.
  intros [I1 I2 I3 I4 I5 I6] H1 H2. assert (∀ f, held (set_handles hs w) f → held w f) as H3 by (intros f [Hf|Hf]; [by apply H1|by right]).
  split; [done..| |].
  - intros f x Hx. destruct (I5 f x Hx) as [?|[Hp Hs]]; [by left|right]. split; [done|]. destruct Hs as [?|Hh]; [by left|right; by apply H2].
  - intros f Hf. by apply I6, H3.
Qed.
(** A fiber that a scheduler has for itself. *)
Lemma handle_parked f w : inv w → f ∈ handles w → nobody_on f w = true →
  ∃ x, fibers w !! f = Some x ∧ parked f x ∧ ∀ i t, threads w !! i = Some t → ¬ owns t f.
Proof.
  intros Hinv Hf Hn. unfold nobody_on in Hn. apply bool_decide_eq_true in Hn. destruct (inv_held w Hinv f (or_introl Hf)) as [[x Hx] Hb].
  assert (∀ i t, threads w !! i = Some t → ¬ owns t f) as Ho.
  { intros i t Hi [Ho|[Ho|Ho]]; [|by destruct (Hb i t Hi)..]. apply Hn. exists i, t. done. }
  exists x. split; [done|]. split; [|done]. destruct (inv_parked w Hinv f x Hx) as [(i & t & Hi & Ht)|[Hp _]]; [by destruct (Ho i t Hi)|done].
Qed.
Lemma state_in_true f l w : state_in f l w = true → ∃ x, fibers w !! f = Some x ∧ m_state x ∈ l.
Proof. unfold state_in. destruct (fibers w !! f) as [x|]; [|done]. intros H%bool_decide_eq_true. by exists x. Qed.

Lemma fine_share but f w : inv w → f ∈ handles w → fine but w (put_handle f w).
Proof.
  intros Hinv Hf. eexists. split; [reflexivity|]. split.
  - apply inv_handles; [done| |].
    + intros g [Hg|Hg%list_elem_of_singleton]%elem_of_app; [by left|]. subst g. by left.
    + intros g [Hg|Hg]; [left; apply elem_of_app; by left|by right].
  - intros g _ _. apply keeps_frame; try done. intros j u Hj _. by exists u.
Qed.
Lemma fine_reset f cb w : inv w → f ∈ handles w → nobody_on f w = true → state_in f [TERM; INIT] w = true → fine (Some f) w (reset f (Acts <$> cb) w).
Proof.
  intros Hinv Hf Hn (x & Hx & Hst)%state_in_true. destruct (handle_parked f w Hinv Hf Hn) as (x0 & Hx0 & [Hstack Hp] & Ho). assert (x0 = x) as -> by congruence.
  set (x' := set_state INIT (set_ctx (Some (Entering f false)) (set_cb (Acts <$> cb) x))).
  assert (reset f (Acts <$> cb) w = Ret tt (set_fibers (<[f := x']> (fibers w)) w)) as ->.
  { unfold reset. rewrite (bind_Ret _ _ _ _ _ (deref_fiber f w x Hx)), Hstack. unfold is_state. rewrite bool_decide_true by done. cbn [assert]. rewrite !bind_ret.
    rewrite (bind_Ret _ _ _ _ _ (update_ok _ _ _ _ Hx)). erewrite bind_Ret; [|apply update_ok, lookup_insert_eq].
    erewrite update_ok by apply lookup_insert_eq. cbn. by rewrite !insert_insert_eq. }
  eexists. split; [done|]. pose proof Hinv as [I1 I2 I3 I4 I5 I6]. split; [split|].
  - cbn. intros g Hg. apply I1. destruct (decide (g = f)) as [->|Hne]; [by eexists|]. by rewrite lookup_insert_ne in Hg.
  - cbn. rewrite I2, map_size_insert_Some; [done|]. by eexists.
  - cbn. intros i t Hi. eapply thread_ok_frame, I3, Hi. intros g Hg. rewrite lookup_insert_ne; [done|]. intros <-. by eapply Ho.
  - done.
  - cbn. intros g y Hy. destruct (decide (g = f)) as [->|Hne].
    + right. rewrite lookup_insert_eq in Hy. injection Hy as <-. split; [|right; by left]. split; [done|]. left. split_and!; [done..|by destruct cb].
    + rewrite lookup_insert_ne in Hy by done. by apply I5.
  - cbn. intros g Hg. destruct (I6 g Hg) as [Hs Hb]. split; [|done]. destruct (decide (g = f)) as [->|Hne]; [rewrite lookup_insert_eq; by eexists|by rewrite lookup_insert_ne].
  - intros g Hg _. apply keeps_frame; [cbn; rewrite lookup_insert_ne; [done|congruence]|done|]. intros j u Hj _. by exists u.
Qed.

(** *** References that go away *)
(** Without a reference a fiber is on no stack. *)
Lemma unreferenced f x hs w : inv w → fibers w !! f = Some x → referenced f (set_handles hs w) = false →
  (∀ i t, threads w !! i = Some t → ¬ owns t f) ∧ parked f x ∧ ¬ held (set_handles hs w) f ∧ ¬ suspended x.
Proof.
  intros Hinv Hx Hr. assert (¬ referenced f (set_handles hs w) = true) as Hn by congruence. rewrite referenced_by in Hn. unfold thread_refers in Hn.
  assert (∀ i t, threads w !! i = Some t → ¬ owns t f) as Ho.
  { intros i t Hi Ho. apply Hn. right. left. exists i, t. split; [done|]. apply bool_decide_eq_true.
    destruct Ho as [Hon|[?|?]]; [|naive_solver..].
    destruct (inv_thread w Hinv i t Hi) as [|m o h Hm _|m s R k g c _ _ _ Hg|m r _ _ _|m r c h _ _ _ Hc _]; cbn in *; try done; [|right; left; congruence].
    left. rewrite (fiber_on _ _ _ Hg) in Hon. done. }
  assert (¬ held (set_handles hs w) f) as Hh.
  { intros [Hh|(i & t & Hi & Hh)]; apply Hn; [by left|]. right. left. exists i, t. split; [done|]. apply bool_decide_eq_true. by left. }
  assert (¬ suspended x) as Hs.
  { intros (g & uc & rest & Hc). destruct (inv_parked w Hinv f x Hx) as [(i & t & Hi & Ht)|[[_ Hp] _]]; [by destruct (Ho i t Hi)|].
    apply Hn. right. right. exists f, x. split; [done|]. unfold stack_refers. apply bool_decide_eq_true.
    destruct Hp as [(_ & Hp & _)|[(_ & ? & Hp)|(_ & Hp)]]; rewrite Hp in Hc |- *; try discriminate. done. }
  split_and!; [done| |done..]. destruct (inv_parked w Hinv f x Hx) as [(i & t & Hi & Ht)|[Hp _]]; [by destruct (Ho i t Hi)|done].
Qed.
Lemma cur_on c f : cur_of c = Some f → on c = Some f.
Proof. by destruct c. Qed.
(** What a thread owns lives, and its contexts are its own. *)
Lemma owns_context F t f : thread_ok F t → owns t f → ∃ x, F !! f = Some x ∧ (m_ctx x = None ∨ m_ctx x = Some OwnCode ∨ ∃ c, m_ctx x = Some c ∧ on c = Some f).
Proof.
  intros Hok Ho. destruct Hok as [|m o h (x & Hx & _ & _ & _ & Hc) _|m s R k g c Hr _ _ Hg|m r (x & Hx & _ & _ & _ & Hxc) _ (y & Hy & _ & Hyc)
    |m r c h (x & Hx & _ & _ & _ & Hxc) _ (y & Hy & _ & Hyc) Hc _]; unfold owns in Ho; cbn in Ho.
  - naive_solver.
  - exists x. assert (m = f) as -> by naive_solver. split; [done|by left].
  - assert (on c = Some g) as Hon by by eapply fiber_on. rewrite Hon in Ho. destruct Ho as [[= ->]|Ho].
    + destruct Hg as (y & Hy & _ & Hyc & _). exists y. split; [done|by left].
    + inversion Hr as [(y & Hy & _ & _ & _ & Hyc)|r y Hrm (z & Hz & _ & _ & _ & Hzc) Hy _ _ Hyc]; subst.
      * exists y. destruct Ho as [[= <-]|[=]]. split; [done|right; by left].
      * destruct Ho as [[= <-]|[= <-]]; [exists z; split; [done|right; by left]|exists y; split; [done|]]. right. right. by eexists.
  - destruct Ho as [?|[[= ->]|[= ->]]]; [done|exists x; split; [done|by left]|exists y; split; [done|]]. right. right.
    destruct Hyc as [(_ & E & _)|(_ & E)]; by eexists.
  - assert (f = m ∨ f = r) as [-> | ->] by naive_solver; [exists x; split; [done|right; by left]|exists y; split; [done|]].
    destruct c as [|? []|? [] ?|? [] ?|? []|? []|]; try (left; naive_solver); right; right; eexists; (split; [apply Hyc|done]).
Qed.
(** The stack of a fiber refers to that fiber. *)
Lemma ctx_cur g x c f w : inv w → fibers w !! g = Some x → m_ctx x = Some c → cur_of c = Some f → f = g.
Proof.
  intros Hinv Hg Ec Hs. apply cur_on in Hs as Hon. assert (on c = Some g ∨ c = OwnCode) as [E| ->]; [|congruence|done].
  destruct (inv_parked w Hinv g x Hg) as [(i & t & Hi & Ht)|[[_ Hp] _]].
  - destruct (owns_context _ t g (inv_thread w Hinv i t Hi) Ht) as (y & Hy & H). assert (y = x) as -> by congruence. naive_solver.
  - left. destruct Hp as [(_ & Hp & _)|[(_ & ? & Hp)|(_ & Hp)]]; rewrite Hp in Ec; by injection Ec as <-.
Qed.
(** It is exactly the fibers that are referred to that live. *)
Lemma referenced_live f w : inv w → referenced f w = true → is_Some (fibers w !! f).
Proof.
  intros Hinv. rewrite referenced_by. intros [Hf|[(i & t & Hi & Ht)|(g & x & Hg & Hs)]].
  - by apply (inv_held w Hinv); left.
  - unfold thread_refers in Ht. apply bool_decide_eq_true in Ht. destruct (decide (holding t = Some f)) as [Hh|Hh]; [apply (inv_held w Hinv); right; eauto|].
    destruct (owns_context _ t f (inv_thread w Hinv i t Hi)) as (x & Hx & _); [|by eexists].
    destruct Ht as [?|[?|[?|?%cur_on]]]; [done|right; by right|right; by left|by left].
  - unfold stack_refers in Hs. apply bool_decide_eq_true in Hs. destruct (m_ctx x) as [c|] eqn:Ec; [|done].
    rewrite (ctx_cur g x c f w Hinv Hg Ec Hs). by eexists.
Qed.
Lemma live_referenced f w : inv w → is_Some (fibers w !! f) → referenced f w = true.
Proof.
  intros Hinv [x Hx]. destruct (referenced f w) eqn:Er; [done|].
  assert (set_handles (handles w) w = w) as Ew by by destruct w. rewrite <- Ew in Er. destruct (unreferenced f x _ w Hinv Hx Er) as (Ho & _ & Hh & Hs). rewrite Ew in Hh.
  destruct (inv_parked w Hinv f x Hx) as [(i & t & Hi & Ht)|[_ [?|?]]]; [by destruct (Ho i t Hi)|done..].
Qed.

Lemma remove_first_in f g l : g ∈ remove_first f l → g ∈ l.
Proof.
  induction l as [|h l IH]; [done|]. cbn. case_bool_decide; [by right|]. intros [->|Hg]%elem_of_cons; [by left|right; by apply IH].
Qed.
Lemma remove_first_other f g l : g ≠ f → g ∈ l → g ∈ remove_first f l.
Proof.
  intros Hne. induction l as [|h l IH]; [done|]. cbn. intros [->|Hg]%elem_of_cons; case_bool_decide; [congruence|by left|done|right; by apply IH].
Qed.
(** A fiber that nothing refers to is destroyed. *)
Lemma inv_delete hs f w : inv w → is_Some (fibers w !! f) → (∀ i t, threads w !! i = Some t → ¬ owns t f) → ¬ held (set_handles hs w) f →
  (∀ g, g ∈ hs → g ∈ handles w) → (∀ g, g ≠ f → g ∈ handles w → g ∈ hs) →
  inv (set_fibers (delete f (fibers w)) (set_fiber_count (u64 (s_fiber_count w + -1)) (set_handles hs w))).
Proof.
  intros [I1 I2 I3 I4 I5 I6] [x Hx] Ho Hh H1 H2. split.
  - cbn. intros g [y Hg]. rewrite lookup_delete_Some in Hg. apply I1. exists y. by destruct Hg.
  - cbn. assert (base.size (fibers w) ≠ 0%nat) as Hne by (intros E%map_size_empty_inv; by rewrite E, lookup_empty in Hx).
    rewrite I2, map_size_delete_Some by by eexists. unfold uwrap. rewrite Zplus_mod_idemp_l. f_equal. lia.
  - cbn. intros i t Hi. eapply thread_ok_frame, I3, Hi. intros g Hg. rewrite lookup_delete_ne; [done|]. intros <-. by eapply Ho.
  - done.
  - cbn. intros g y [Hne Hg]%lookup_delete_Some. destruct (I5 g y Hg) as [?|[Hp Hs]]; [by left|right]. split; [done|].
    destruct Hs as [?|[?|?]]; [by left|right; left; by apply H2|right; by right].
  - cbn. intros g Hg. assert (held w g) as Hg' by (destruct Hg as [?|?]; [left; by apply H1|by right]).
    destruct (I6 g Hg') as [Hs Hb]. split; [|done]. rewrite lookup_delete_ne; [done|]. by intros <-.
Qed.
(** One reference to a fiber goes: it stays if it is referred to. *)
Lemma inv_dropped f w : inv w → f ∈ handles w → let w1 := set_handles (remove_first f (handles w)) w in referenced f w1 = true → inv w1.
Proof.
  intros Hinv Hf w1 Er. pose proof Hinv as [I1 I2 I3 I4 I5 I6]. split; [done..| |].
  - intros g y Hy. destruct (I5 g y Hy) as [?|[Hp Hs]]; [by left|]. destruct (decide (g = f)) as [->|Hne].
    2: { right. split; [done|]. destruct Hs as [?|[?|?]]; [by left|right; left; by apply remove_first_other|right; by right]. }
    apply referenced_by in Er as [Hh|[(i & t & Hi & Ht)|(g & z & Hz & Hs')]].
    + right. split; [done|]. right. by left.
    + unfold thread_refers in Ht. apply bool_decide_eq_true in Ht. destruct Ht as [Ht|Ht]; [right; split; [done|]; right; right; by exists i, t|].
      left. exists i, t. split; [done|]. destruct Ht as [?|[?|?%cur_on]]; [right; by right|right; by left|by left].
    + unfold stack_refers in Hs'. apply bool_decide_eq_true in Hs'. destruct (m_ctx z) as [c|] eqn:Ec; [|done].
      pose proof (ctx_cur g z c f w Hinv Hz Ec Hs') as ->. assert (y = z) as -> by (cbn in Hz, Hy; congruence).
      right. split; [done|]. left. destruct Hp as [_ [(_ & Hq & _)|[(_ & rest & Hq)|(_ & Hq)]]]; rewrite Ec in Hq; injection Hq as ->; [done| |done].
      by eexists _, _, _.
  - intros g Hg. apply I6. destruct Hg as [Hg%remove_first_in|Hg]; [by left|by right].
Qed.
Lemma fine_drop but i f w : inv w → f ∈ handles w → fine but w ((take_handle f ;;; release i f) w).
Proof.
  intros Hinv Hf. unfold take_handle. rewrite bind_modify. destruct (inv_held w Hinv f (or_introl Hf)) as [[x Hx] Hb].
  unfold release. rewrite bind_gets. unfold id. set (hs := remove_first f (handles w)). destruct (referenced f (set_handles hs w)) eqn:Er.
  { eexists. split; [reflexivity|]. split; [by apply inv_dropped|]. intros g _ _. apply keeps_frame; try done. intros j u Hj _. by exists u. }
  destruct (unreferenced f x hs w Hinv Hx Er) as (Ho & Hp & Hh & Hs).
  assert (destroy i f (set_handles hs w) = Ret tt (set_fibers (delete f (fibers w)) (set_fiber_count (u64 (s_fiber_count w + -1)) (set_handles hs w)))) as ->.
  { unfold destroy, count. rewrite bind_modify. erewrite bind_Ret; [|apply deref_fiber; exact Hx]. destruct Hp as [-> Hp].
    unfold is_state. rewrite bool_decide_true; [cbn [assert]; by rewrite bind_ret|].
    destruct Hp as [(-> & _)|[(_ & rest & Hc)|([-> | ->] & _)]]; [set_solver| |set_solver..]. destruct Hs. by eexists _, _, _. }
  eexists. split; [done|]. split.
  - apply inv_delete; [done|by eexists|exact Ho|exact Hh|intros g; apply remove_first_in|intros g; apply remove_first_other].
  - intros g _ [y Hy]. cbn in Hy. rewrite lookup_delete_Some in Hy. apply keeps_frame; [cbn; rewrite lookup_delete_ne; [done|naive_solver]|done|].
    intros j u Hj _. by exists u.
Qed.
