(* ===== verification/FiberTheorems.v ===== *)
(** * FiberTheorems: contexts behave as calls

    Every operation keeps the invariant of FiberFacts and the work of the fibers
    that it does not reset; then the properties, and samples. *)
From S2P Require Import Prelude Fiber FiberFacts.

Implicit Types (w : world) (t u : thread) (f g m r s : loc) (F : gmap loc Fiber).

(** *** New fibers *)
Lemma inv_next w : inv w → fibers w !! next_loc w = None.
Proof. intros Hinv. destruct (fibers w !! next_loc w) as [x|] eqn:E; [|done]. pose proof (inv_fresh w Hinv (next_loc w) (mk_is_Some _ _ E)). lia. Qed.
Lemma thread_new_fiber w x t : inv w → thread_ok (fibers w) t → thread_ok (<[next_loc w := x]> (fibers w)) t ∧ ¬ owns t (next_loc w).
Proof.
  intros Hinv Hok. assert (¬ owns t (next_loc w)) as Hn.
  { intros Ho. destruct (owns_context _ t _ Hok Ho) as (y & Hy & _). by rewrite inv_next in Hy. }
  split; [|done]. eapply thread_ok_frame, Hok. intros g Hg. rewrite lookup_insert_ne; [done|]. by intros <-.
Qed.
Lemma fine_new but st cb stacksize w : inv w → fine but w (exec_op st (New cb stacksize) w).
Proof.
  intros Hinv. cbn [exec_op]. set (f := next_loc w). set (id := u64 (s_fiber_id w + 1)).
  set (x := mkFiber id (u32 (if stacksize =? 0 then st else stacksize)) INIT (Some (Entering f false)) true (Acts <$> cb)).
  eexists. split; [reflexivity|]. pose proof (inv_next w Hinv) as Hn. fold f in Hn.
  match goal with |- inv ?v ∧ _ => set (w' := v) end. assert (fibers w' = <[f := x]> (fibers w)) as HF by done.
  pose proof Hinv as [I1 I2 I3 I4 I5 I6]. split; [split|].
  - rewrite HF. intros g Hg. change (g < S f)%nat. destruct (decide (g = f)) as [->|Hne]; [lia|]. rewrite lookup_insert_ne in Hg by done. specialize (I1 g Hg). unfold f. lia.
  - rewrite HF, map_size_insert_None by done. change (s_fiber_count w') with (u64 (s_fiber_count w + 1)). rewrite I2. unfold uwrap. rewrite Zplus_mod_idemp_l. f_equal. lia.
  - rewrite HF. intros i t Hi. by apply thread_new_fiber, (I3 i t).
  - done.
  - rewrite HF. intros g y Hy. destruct (decide (g = f)) as [->|Hne].
    + right. rewrite lookup_insert_eq in Hy. injection Hy as <-. split; [|right; left; apply elem_of_app; right; by apply list_elem_of_singleton].
      split; [done|]. left. split_and!; [done..|by destruct cb].
    + rewrite lookup_insert_ne in Hy by done. destruct (I5 g y Hy) as [?|[Hp Hs]]; [by left|right; split; [done|]].
      destruct Hs as [?|[?|?]]; [by left|right; left; apply elem_of_app; by left|right; by right].
  - rewrite HF. intros g [[Hg|Hg%list_elem_of_singleton]%elem_of_app|Hg].
    + destruct (I6 g (or_introl Hg)) as [Hs Hb]. split; [|done]. rewrite lookup_insert_ne; [done|]. intros <-. rewrite Hn in Hs. by destruct Hs.
    + subst g. split; [rewrite lookup_insert_eq; by eexists|]. intros i t Hi. destruct (thread_new_fiber w x t Hinv (I3 i t Hi)) as [_ Ho]. unfold owns in Ho. tauto.
    + destruct (I6 g (or_intror Hg)) as [Hs Hb]. split; [|done]. rewrite lookup_insert_ne; [done|]. intros <-. rewrite Hn in Hs. by destruct Hs.
  - intros g _ Hg. destruct (decide (g = f)) as [->|Hne].
    + intros l (y & c & Hy & _). by rewrite Hn in Hy.
    + apply keeps_frame; [rewrite HF; by rewrite lookup_insert_ne|done|]. intros j u Hj _. by exists u.
Qed.
(** A fiber that a thread makes for itself. *)
Lemma fine_own but w i t t' x id cnt : inv w → threads w !! i = Some t → let f := next_loc w in
  cnt = u64 (s_fiber_count w + 1) → thread_ok (<[f := x]> (fibers w)) t' → here t' = here t → holding t' = holding t →
  (∀ g, owns t' g ↔ owns t g ∨ g = f) →
  (∀ g, t_threadFiber t' = Some g ∨ m_rootFiber t' = Some g → t_threadFiber t = Some g ∨ m_rootFiber t = Some g ∨ g = f) →
  fine but w (Ret tt (mkWorld (<[f := x]> (fibers w)) (S f) id cnt (<[i := t']> (threads w)) (handles w) (trace w))).
Proof.
  intros Hinv Hi f -> Hok Eh Ehold Ho Hb'. eexists. split; [done|]. pose proof (inv_next w Hinv) as Hn. fold f in Hn.
  match goal with |- inv ?v ∧ _ => set (w' := v) end. pose proof Hinv as [I1 I2 I3 I4 I5 I6].
  assert (∀ j u, threads w' !! j = Some u → (j = i ∧ u = t') ∨ (j ≠ i ∧ threads w !! j = Some u)) as Hth.
  { intros j u. cbn. destruct (decide (i = j)) as [<-|Hne]; [rewrite lookup_insert_eq|rewrite lookup_insert_ne by done]; naive_solver. }
  assert (∀ j u, threads w !! j = Some u → ¬ owns u f) as Hnew by (intros j u Hj; by apply (thread_new_fiber w x u Hinv (I3 j u Hj))).
  assert (∀ g, held w' g ↔ held w g) as Hheld.
  { intros g. unfold held. cbn. f_equiv. f_equiv. intros j. split; intros (u & Hu & Hh).
    - destruct (decide (i = j)) as [<-|Hne]; [rewrite lookup_insert_eq in Hu|rewrite lookup_insert_ne in Hu by done; by exists u].
      injection Hu as <-. exists t. split; [done|congruence].
    - destruct (decide (i = j)) as [<-|Hne]; [|exists u; by rewrite lookup_insert_ne]. exists t'. rewrite lookup_insert_eq.
      split; [done|]. assert (u = t) as -> by congruence. congruence. }
  split; [split|].
  - cbn. intros g Hg. destruct (decide (g = f)) as [->|Hne]; [lia|]. rewrite lookup_insert_ne in Hg by done. specialize (I1 g Hg). unfold f. lia.
  - cbn. rewrite map_size_insert_None by done. rewrite I2. unfold uwrap. rewrite Zplus_mod_idemp_l. f_equal. lia.
  - intros j u [[-> ->]|[Hne Hj]]%Hth; [done|]. by apply thread_new_fiber, (I3 j u).
  - intros j1 j2 u1 u2 g [[-> ->]|[Hne1 H1]]%Hth [[-> ->]|[Hne2 H2]]%Hth O1 O2; [done|..].
    + apply Ho in O1 as [O1| ->]; [by eapply I4|by destruct (Hnew j2 u2 H2)].
    + apply Ho in O2 as [O2| ->]; [by eapply I4|by destruct (Hnew j1 u1 H1)].
    + by eapply I4.
  - cbn. intros g y Hy. destruct (decide (g = f)) as [->|Hne]; [left; exists i, t'; split; [apply lookup_insert_eq|apply Ho; by right]|].
    rewrite lookup_insert_ne in Hy by done. destruct (I5 g y Hy) as [(j & u & Hj & Hu)|[Hp Hs]]; [left|right; split; [done|destruct Hs; [by left|right; by apply Hheld]]].
    destruct (decide (i = j)) as [<-|Hij]; [exists i, t'|exists j, u].
    + split; [apply lookup_insert_eq|]. apply Ho. left. by assert (u = t) as -> by congruence.
    + split; [by rewrite lookup_insert_ne|done].
  - intros g Hg%Hheld. destruct (I6 g Hg) as [Hs Hb]. assert (g ≠ f) as Hgf by (intros ->; rewrite Hn in Hs; by destruct Hs).
    split; [cbn; by rewrite lookup_insert_ne|]. intros j u [[-> ->]|[_ Hj]]%Hth; [|by eapply Hb]. destruct (Hb i t Hi). split; intros E.
    + destruct (Hb' g (or_introl E)) as [?|[?|?]]; congruence.
    + destruct (Hb' g (or_intror E)) as [?|[?|?]]; congruence.
  - intros g _ _. destruct (decide (g = f)) as [->|Hne]; [intros l (y & c & Hy & _); by rewrite Hn in Hy|].
    apply keeps_frame; [cbn; by rewrite lookup_insert_ne|done|]. intros j u Hj Hon. cbn. destruct (decide (i = j)) as [<-|Hij].
    + exists t'. rewrite lookup_insert_eq. split; [done|]. by assert (u = t) as -> by congruence.
    + exists u. by rewrite lookup_insert_ne.
Qed.

(** *** Threads and their schedulers *)
Definition main_fiber : Fiber := mkFiber 0 0 EXEC None false None.
Lemma me_ok i t w : threads w !! i = Some t → me i w = Ret t w.
Proof. intros E. unfold me, gets. by rewrite E. Qed.
Lemma my_ok i h t w : threads w !! i = Some t → my i h w = Ret tt (at_ i (h t) (fibers w) w).
Proof. intros E. pose proof (my_at i h t (fibers w) w) as H. by rewrite (at_id i t w E) in H. Qed.
Lemma GetThis_ok i t w f x : threads w !! i = Some t → t_fiber t = Some f → fibers w !! f = Some x → GetThis i w = Ret f w.
Proof. intros E Et Ef. pose proof (GetThis_at i t (fibers w) w f x Et Ef) as H. by rewrite (at_id i t w E) in H. Qed.
Lemma GetThis_new i w : threads w !! i = Some thread_new → let f := next_loc w in
  GetThis i w = Ret f (at_ i (mkThread (Some f) (Some f) None None None OwnCode) (<[f := main_fiber]> (fibers w))
    (set_next (S f) (set_fiber_count (u64 (s_fiber_count w + 1)) w))).
Proof.
  intros Hi f. unfold GetThis. rewrite (bind_Ret _ _ _ _ _ (me_ok i _ w Hi)). cbn [t_fiber thread_new].
  set (t1 := mkThread (Some f) None None None None OwnCode). set (w2 := set_next (S f) (set_fiber_count (u64 (s_fiber_count w + 1)) w)).
  assert (Fiber_main i w = Ret f (at_ i t1 (<[f := main_fiber]> (fibers w)) w2)) as E.
  { unfold Fiber_main, new_object, SetThis, count, my. rewrite !bind_assoc, bind_gets. cbv beta. rewrite !bind_assoc, bind_modify, bind_assoc, bind_modify, bind_ret.
    rewrite bind_modify, bind_modify. unfold ret, at_, set_threads, set_fibers, set_fiber_count, set_next. cbn. do 2 f_equal.
    apply map_eq. intros j. destruct (decide (i = j)) as [<-|Hne]; [by rewrite lookup_alter_eq, lookup_insert_eq, Hi|by rewrite lookup_alter_ne, lookup_insert_ne]. }
  rewrite (bind_Ret _ _ _ _ _ E), (bind_Ret _ _ _ _ _ (me_at _ _ _ _)). cbn [t_fiber t1]. rewrite bool_decide_true by done. cbn [assert]. rewrite bind_ret.
  by rewrite (bind_Ret _ _ _ _ _ (my_at _ _ _ _ _)).
Qed.
Lemma main_at_new F f : main_at (<[f := main_fiber]> F) f None.
Proof. exists main_fiber. by rewrite lookup_insert_eq. Qed.
Lemma owns_new f (o : option loc) g : owns (mkThread (Some f) (Some f) o None None OwnCode) g ↔ owns thread_new g ∨ g = f.
Proof. unfold owns. cbn. naive_solver. Qed.
Lemma fine_prologue but i t w : inv w → threads w !! i = Some t → here t = OwnCode → fine but w (run_prologue i w).
Proof.
  intros Hinv Hi Hh. unfold run_prologue. rewrite (bind_Ret _ _ _ _ _ (me_ok i t w Hi)). pose proof (inv_thread w Hinv i t Hi) as Hok.
  destruct (t_scheduler_fiber t) as [s|] eqn:Es; [by apply fine_ret|]. inversion Hok as [|m o h Hm Ho| | |]; subst; try done; cbn in Es; try discriminate.
  - rewrite (bind_Ret _ _ _ _ _ (GetThis_new i w Hi)), my_at. set (f := next_loc w).
    apply (fine_own but w i thread_new (mkThread (Some f) (Some f) (Some f) None None OwnCode) main_fiber (s_fiber_id w) (u64 (s_fiber_count w + 1))); try done.
    + apply ok_own; [apply main_at_new|by right].
    + intros g. apply owns_new.
    + cbn. naive_solver.
  - pose proof Hm as (x & Hx & _). rewrite (bind_Ret _ _ _ _ _ (GetThis_ok i _ w m x Hi eq_refl Hx)), (my_ok i _ _ w Hi).
    apply (fine_thread but i (mkThread (Some m) (Some m) o None h OwnCode)); try done. apply ok_own; [done|by right].
Qed.
(** The root of a scheduler that is made on a thread. *)
Lemma root_made st i m h w : inv w → threads w !! i = Some (mkThread (Some m) (Some m) None None h OwnCode) → h = None →
  ∀ but, fine but w ((let* r := Fiber_new st (Some Loop) 0 true in my i (set_rootFiber (Some r)) ;;; my i (set_scheduler_fiber (Some r))) w).
Proof.
  intros Hinv Hi -> but. set (r := next_loc w). set (t := mkThread (Some m) (Some m) None None None OwnCode) in *. set (id := u64 (s_fiber_id w + 1)).
  set (x := mkFiber id (u32 st) INIT (Some (Entering r true)) true (Some Loop)).
  pose proof (inv_thread w Hinv i t Hi) as Hok. inversion Hok as [|? ? ? Hm _| | |]; subst. destruct Hm as (y & Hy & Hm).
  assert (r ≠ m) as Hne by (unfold r; intros E; rewrite <- E, inv_next in Hy; done).
  assert ((let* r := Fiber_new st (Some Loop) 0 true in my i (set_rootFiber (Some r)) ;;; my i (set_scheduler_fiber (Some r))) w
    = Ret tt (mkWorld (<[r := x]> (fibers w)) (S r) id (u64 (s_fiber_count w + 1)) (<[i := mkThread (Some m) (Some m) (Some r) (Some r) None OwnCode]> (threads w)) (handles w) (trace w))) as ->.
  { unfold Fiber_new, new_object, count. rewrite !bind_assoc, bind_modify, bind_assoc, bind_gets. cbv beta. rewrite !bind_assoc, bind_gets. cbv beta.
    rewrite !bind_assoc, bind_modify, !bind_assoc, bind_modify, bind_ret, bind_assoc, bind_modify, bind_ret.
    erewrite bind_Ret; [|eapply my_ok; exact Hi]. rewrite my_at. done. }
  apply (fine_own but w i t _ x); try done.
  - apply ok_rooted; [exists y; by rewrite lookup_insert_ne|done|]. exists x. rewrite lookup_insert_eq. split_and!; [done..|]. left. by split_and!.
  - intros g. unfold owns. cbn. naive_solver.
  - cbn. naive_solver.
Qed.
Lemma fine_trans but w w1 (o : outcome world unit) : fine but w (Ret tt w1) → (inv w1 → fine but w1 o) →
  (∀ g, is_Some (fibers w !! g) → is_Some (fibers w1 !! g)) → fine but w o.
Proof.
  intros (w1' & [= <-] & Hi1 & K1) Hk Hd. destruct (Hk Hi1) as (w2 & E & Hi2 & K2). exists w2. split_and!; [done..|].
  intros g Hg H2 l Hl. assert (is_Some (fibers w1 !! g)) as H1 by (destruct Hl as (x & c & Hx & _); apply Hd; by eexists).
  destruct (K1 g Hg H1 l Hl) as (l1 & Hl1 & E1). destruct (K2 g Hg H2 l1 Hl1) as (l2 & Hl2 & E2). exists l2. split; [done|congruence].
Qed.
Lemma fine_root but st i t w : inv w → threads w !! i = Some t → free t = true → t_scheduler_fiber t = None → fine but w (scheduler_root st i w).
Proof.
  intros Hinv Hi (Hh & Hhold & HR)%bool_decide_eq_true Es. unfold scheduler_root.
  destruct (inv_thread w Hinv i t Hi) as [|m o h Hm Ho| | |]; cbn in Hh, Hhold, HR, Es; try done.
  - rewrite (bind_Ret _ _ _ _ _ (GetThis_new i w Hi)). eapply (fine_trans but w).
    + apply (fine_own but w i thread_new (mkThread (Some (next_loc w)) (Some (next_loc w)) None None None OwnCode) main_fiber (s_fiber_id w)); try done.
      * apply ok_own; [apply main_at_new|by left].
      * intros g. apply owns_new.
      * cbn. naive_solver.
    + intros Hi1. eapply root_made; [done|cbn; by rewrite lookup_insert_eq|done].
    + intros g Hg. cbn. destruct (decide (g = next_loc w)) as [->|]; [rewrite lookup_insert_eq; by eexists|by rewrite lookup_insert_ne].
  - subst. pose proof Hm as (x & Hx & _). rewrite (bind_Ret _ _ _ _ _ (GetThis_ok i _ w m x Hi eq_refl Hx)). by apply (root_made st i m None).
Qed.

(** *** The root *)
Lemma root_owes w i t r : inv w → threads w !! i = Some t → m_rootFiber t = Some r → owes w r [] ∧ ∀ l, owes w r l → l = [].
Proof.
  intros Hinv Hi HR. assert (∃ x c, fibers w !! r = Some x ∧ m_stack x = true ∧ code_of w r x c ∧ code_owed (m_cb x) c = []
    ∧ ∀ c', code_of w r x c' → c' = c) as (x & c & Hx & Hst & Hc & Ho & Hu).
  { destruct (inv_thread w Hinv i t Hi) as [|m o h Hm _|m s R k f c Hr _ _ _|m r' Hm _ (x & Hx & Hst & Hroot)|m r' c h Hm Hne (x & Hx & Hst & Hroot) Hc _]; cbn in HR; try done.
    - inversion Hr as [|r' x Hrm Hm Hx Hst Hs Hc]; subst; [done|]. simplify_eq. eexists x, _. unfold code_of. rewrite Hc. by split_and!.
    - injection HR as <-. unfold code_of. destruct Hroot as [(_ & Hc & Hcb)|(_ & Hc)]; eexists x, _; rewrite Hc; split_and!; try done. by rewrite Hcb.
    - injection HR as <-. assert (m_ctx x = None ∧ code_owed (m_cb x) c = []) as [Hctx Howed].
      { destruct c as [|? []|? [] ?|? [] ?|? []|? []|]; cbn in Hc, Hroot |- *; try done; [destruct Hroot as (_ & _ & -> & ->)|destruct Hroot as (_ & _ & ->)..]; done. }
      exists x, c. unfold code_of. rewrite Hctx. split_and!; try done; [by eexists i, _|]. intros c' (j & u & Hj & Hon & ->).
      assert (j = i) as -> by (eapply inv_own; [exact Hinv|exact Hj|exact Hi|by left|by left]). rewrite Hi in Hj. by injection Hj as <-. }
  split; [by exists x, c|]. intros l (y & c' & Hy & _ & Hc' & ->). assert (y = x) as -> by congruence. by rewrite (Hu c' Hc').
Qed.
(** A step of a thread between its own code and its root. *)
Lemma fine_rooted but i t t' m r F' w : inv w → threads w !! i = Some t → m_rootFiber t = Some r → m_rootFiber t' = Some r →
  t_threadFiber t = Some m → t_threadFiber t' = Some m → (∀ g, owns t g ↔ g = m ∨ g = r) → (∀ g, owns t' g ↔ g = m ∨ g = r) →
  holding t' = holding t → thread_ok F' t' → (∀ g, g ≠ m → g ≠ r → F' !! g = fibers w !! g) → dom F' = dom (fibers w) →
  (∀ x, fibers w !! m = Some x → m_stack x = false) → fine but w (Ret tt (at_ i t' F' w)).
Proof.
  intros Hinv Hi HR HR' Hm Hm' Ho Ho' Ehold Hok HF Hdom Hmain. eexists. split; [done|].
  assert (inv (at_ i t' F' w)) as Hinv'.
  { apply (inv_at i t t' F' (handles w) (trace w) w); try done; try congruence.
    - intros g Hg _. apply HF; intros ->; apply Hg, Ho; tauto.
    - intros g Hg%Ho' Hn. by destruct Hn; apply Ho.
    - intros g x Hg%Ho Hn. by destruct Hn; apply Ho'.
    - intros g. unfold held. cbn. f_equiv. f_equiv. intros j. split; intros (u & Hu & Hh).
      + destruct (decide (i = j)) as [<-|Hne]; [rewrite lookup_insert_eq in Hu|rewrite lookup_insert_ne in Hu by done; by exists u].
        injection Hu as <-. exists t. split; [done|congruence].
      + destruct (decide (i = j)) as [<-|Hne]; [|exists u; by rewrite lookup_insert_ne]. exists t'. rewrite lookup_insert_eq.
        split; [done|]. assert (u = t) as -> by congruence. congruence. }
  split; [done|]. intros g _ _. destruct (decide (g = r)) as [->|Hgr]; [|destruct (decide (g = m)) as [->|Hgm]].
  - intros l Hl. destruct (root_owes w i t r Hinv Hi HR) as [_ Hu]. rewrite (Hu l Hl).
    destruct (root_owes (at_ i t' F' w) i t' r Hinv' (lookup_insert_eq _ _ _) HR') as [H _]. by exists [].
  - intros l (x & c & Hx & Hst & _). by rewrite (Hmain x Hx) in Hst.
  - apply (keeps_at i t); [done| |by apply HF|done]. intros Hon. by destruct (proj1 (Ho g) (or_introl Hon)).
Qed.
Lemma owns_rooted m r c h g : on c = Some r ∨ c = OwnCode → owns (mkThread (Some r) (Some m) (Some r) (Some r) h c) g ↔ g = m ∨ g = r.
Proof. unfold owns. cbn. naive_solver. Qed.
Lemma owns_home m r h g : owns (mkThread (Some m) (Some m) (Some r) (Some r) h OwnCode) g ↔ g = m ∨ g = r.
Proof. unfold owns. cbn. naive_solver. Qed.
Lemma dom_insert_2 F f g x y : is_Some (F !! f) → is_Some (F !! g) → dom (<[f := x]> (<[g := y]> F)) = dom F.
Proof. intros Hf Hg. rewrite !dom_insert_lookup_L; try done. destruct (decide (f = g)) as [->|]; [rewrite lookup_insert_eq; by eexists|by rewrite lookup_insert_ne]. Qed.

Lemma fine_call_root but i t r w : inv w → threads w !! i = Some t → m_rootFiber t = Some r → here t = OwnCode → state_in r [INIT] w = true → fine but w (call i r w).
Proof.
  intros Hinv Hi HR Hh (x & Hx & Hst)%state_in_true. destruct (inv_thread w Hinv i t Hi) as [|m o h Hm _|m s R k f c Hr _ _ Hf|m r' Hm Hne Hroot|m r' c h Hm Hne Hroot Hc _]; cbn in HR, Hh; try done.
  - subst c. apply fiber_on in Hf. done.
  - injection HR as ->. destruct Hm as (y & Hy & Hyst & Hys & Hycb & Hyc), Hroot as (x' & Hx' & Hxst & Hroot). assert (x' = x) as -> by congruence.
    destruct Hroot as [(_ & Hxc & Hxcb)|(E & _)]; [|rewrite E in Hst; set_solver]. set (t := mkThread (Some m) (Some m) (Some r) (Some r) None OwnCode) in *.
    pose proof (call_at i t (fibers w) w r m x y _ eq_refl (not_eq_sym Hne) Hx Hy Hxc) as E. rewrite (at_id i t w Hi) in E. rewrite E. clear E.
    apply (fine_rooted but i t _ m r); try done.
    + intros g. apply owns_home.
    + intros g. cbn [set_here set_t_fiber t t_threadFiber t_scheduler_fiber m_rootFiber holding]. apply owns_rooted. by left.
    + apply ok_root; [|done| |done|by left].
      * exists (set_ctx (Some OwnCode) y). rewrite lookup_insert_ne, lookup_insert_eq by done. by split_and!.
      * exists (set_ctx None (set_state EXEC x)). rewrite lookup_insert_eq. by split_and!.
    + intros g H1 H2. by rewrite !lookup_insert_ne.
    + apply dom_insert_2; by eexists.
    + intros z Hz. by assert (z = y) as -> by congruence.
  - subst c. done.
Qed.
Lemma fine_loop_ends but i t w : inv w → threads w !! i = Some t → holding t = None → fine but w (loop_ends i w).
Proof.
  intros Hinv Hi Hhold. unfold loop_ends. rewrite (bind_Ret _ _ _ _ _ (me_ok i t w Hi)). destruct (here t) as [| | | |f uc| |] eqn:Eh; try by apply fine_ret.
  destruct (inv_thread w Hinv i t Hi) as [|m o h Hm _|m s R k g c Hr _ _ Hf|m r Hm Hne Hroot|m r c h Hm Hne Hroot Hc _]; cbn in Eh, Hhold; try done. subst c h.
  cbn in Hc. injection Hc as ->. set (t := mkThread (Some r) (Some m) (Some r) (Some r) None (Looping r uc)) in *. destruct Hroot as (x & Hx & Hst & Hroot), Hm as (y & Hy & Hm).
  destruct uc; [|done]. pose proof (finish_at i t (fibers w) w r true TERM true x Hx ltac:(by right)) as E. rewrite (at_id i t w Hi) in E. rewrite E. clear E.
  apply (fine_rooted but i t _ m r); try done.
  - intros g. apply owns_rooted. by left.
  - intros g. cbn [set_here t t_fiber t_threadFiber t_scheduler_fiber m_rootFiber holding]. apply owns_rooted. by left.
  - apply ok_root; [|done| |done|by left]; [exists y; by rewrite lookup_insert_ne|]. eexists. rewrite lookup_insert_eq. split_and!; [done..|]. by destruct Hroot as (_ & _ & ?).
  - intros g H1 H2. by rewrite lookup_insert_ne.
  - rewrite dom_insert_lookup_L; [done|by eexists].
  - intros z Hz. assert (z = y) as -> by congruence. by destruct Hm.
Qed.
Lemma fine_step_root but i m r c h w : inv w → threads w !! i = Some (mkThread (Some r) (Some m) (Some r) (Some r) h c) →
  main_at (fibers w) m (Some OwnCode) → r ≠ m → root_at (fibers w) r c → on c = Some r → (h = None ∨ c = Looping r true) → fine but w (step i w).
Proof.
  intros Hinv Hi (y & Hy & Hyst & Hys & Hycb & Hyc) Hne (x & Hx & Hst & Hroot) Hc Hh. set (t := mkThread (Some r) (Some m) (Some r) (Some r) h c) in *.
  unfold step. rewrite (bind_Ret _ _ _ _ _ (me_ok i t w Hi)). cbn [here t].
  destruct c as [|g []|? [] ?|? [] ?|g []|g []|]; try done; cbn in Hc; injection Hc as ->; try by apply fine_ret.
  - destruct Hroot as (_ & Hs & Hctx & Hcb). rewrite (bind_Ret _ _ _ _ _ (GetThis_ok i t w r x Hi eq_refl Hx)), (bind_Ret _ _ _ _ _ (deref_fiber r w x Hx)), Hcb, (my_ok i _ t w Hi).
    apply (fine_rooted but i t _ m r); try done.
    + intros g. apply owns_rooted. by left.
    + intros g. cbn [set_here t t_fiber t_threadFiber t_scheduler_fiber m_rootFiber holding]. apply owns_rooted. by left.
    + apply ok_root; [exists y; by split_and!|done| |done|by right]. exists x. by split_and!.
    + intros z Hz. by assert (z = y) as -> by congruence.
  - destruct Hroot as (_ & Hs & Hctx). destruct Hh as [->|]; [|done].
    pose proof (back_at i t (fibers w) w r m x y _ (Ended r) eq_refl Hne Hx Hy Hyc) as E. rewrite (at_id i t w Hi) in E. rewrite E. clear E.
    apply (fine_rooted but i t _ m r); try done.
    + intros g. apply owns_rooted. by left.
    + intros g. cbn [set_here set_t_fiber t t_fiber t_threadFiber t_scheduler_fiber m_rootFiber holding]. apply owns_home.
    + apply ok_rooted; [|done|].
      * exists (set_ctx None y). rewrite lookup_insert_eq. by split_and!.
      * exists (set_ctx (Some (Ended r)) x). rewrite lookup_insert_ne, lookup_insert_eq by done. split_and!; [done..|]. by right.
    + intros g H1 H2. by rewrite !lookup_insert_ne.
    + apply dom_insert_2; by eexists.
    + intros z Hz. by assert (z = y) as -> by congruence.
Qed.
Lemma fine_step but i t w : inv w → threads w !! i = Some t → fine but w (step i w).
Proof.
  intros Hinv Hi. assert (here t = OwnCode → fine but w (step i w)) as Hown.
  { intros Hh. unfold step. rewrite (bind_Ret _ _ _ _ _ (me_ok i t w Hi)), Hh. by apply fine_ret. }
  destruct (inv_thread w Hinv i t Hi) as [|m o h Hm _|m s R k f c Hr Hfm Hfs Hf|m r Hm Hne Hroot|m r c h Hm Hne Hroot Hc Hh]; try by apply Hown.
  - pose proof Hf as (x & Hx & _). destruct (step_fiber i m s R k f c x w Hinv Hi Hr Hfm Hfs Hf Hx) as (w' & E & Hinv' & Hk & _). exists w'. by split_and!.
  - by apply (fine_step_root but i m r c h).
Qed.

(** *** A scheduler and its fibers *)
(** Where a scheduler works. *)
Lemma schedules_spec F t : thread_ok F t → schedules t = true → ∃ m s R, t_threadFiber t = Some m ∧ t_scheduler_fiber t = Some s ∧ m_rootFiber t = R
  ∧ t_fiber t = Some s ∧ (R = None ∧ s = m ∧ here t = OwnCode ∨ R = Some s ∧ here t = Looping s true) ∧ (∃ y, m_stack y = bool_decide (R ≠ None) ∧ F !! s = Some y ∧ m_ctx y = None)
  ∧ (∀ g, owns t g ↔ g = m ∨ g = s)
  ∧ ∀ f x c, f ≠ m → f ≠ s → F !! f = Some x → m_stack x = true → on c = Some f →
      match c with Entering _ false => m_cb x ≠ Some Loop | Running _ false _ => True | _ => False end →
      ∀ y, F !! s = Some y →
      thread_ok (<[f := set_ctx None (set_state EXEC x)]> (<[s := set_ctx (Some (here t)) y]> F)) (mkThread (Some f) (Some m) (Some s) R (Some f) c).
Proof.
  intros Hok Hs. assert (∀ f x c m s R k F', returns F' m s R k → f ≠ m → f ≠ s → on c = Some f → m_stack x = true →
      match c with Entering _ false => m_cb x ≠ Some Loop | Running _ false _ => True | _ => False end →
      (∀ g, g ≠ f → F' !! g = (<[f := set_ctx None (set_state EXEC x)]> F') !! g) →
      thread_ok (<[f := set_ctx None (set_state EXEC x)]> F') (mkThread (Some f) (Some m) (Some s) R (Some f) c)) as Hfiber.
  { intros f x c m s R k F' Hr Hfm Hfs Hon Hst Hc HF. apply (ok_fiber _ m s R k f c); [|done|done|].
    - inversion Hr as [(y & Hy & Hm)|r y Hrm (z & Hz & Hm) Hy]; subst; econstructor; try done; [exists y|exists z|]; try (split; [|done]); by rewrite <- HF.
    - exists (set_ctx None (set_state EXEC x)). rewrite lookup_insert_eq. destruct c as [|? []|? [] ?| | | |]; try done; cbn in Hon; injection Hon as ->; by split_and!. }
  destruct Hok as [|m o h Hm Ho|m s R k f c Hr Hfm Hfs Hf|m r Hm Hne Hroot|m r c h Hm Hne Hroot Hc Hh]; unfold schedules in Hs; cbn in Hs.
  - done.
  - apply bool_decide_eq_true in Hs as [_ Hs]. destruct Ho as [-> | ->]; [done|]. destruct Hm as (y & Hy & Hyst & Hys & Hycb & Hyc).
    exists m, m, None. split_and!; [done..|by left|exists y; rewrite Hyst; by split_and!|unfold owns; cbn; naive_solver|].
    intros f x c H1 H2 Hx Hst Hon Hc y' Hy'. assert (y' = y) as -> by congruence. apply (Hfiber f x c m m None OwnCode); try done.
    + apply returns_own. exists (set_ctx (Some OwnCode) y). rewrite lookup_insert_eq. by split_and!.
    + intros g Hg. by rewrite (lookup_insert_ne _ f).
  - exfalso. pose proof (fiber_on _ _ _ Hf) as Hon. destruct Hf as (x & _ & _ & _ & Hf). by destruct c as [|? []|? [] ?|? [] ?|? []|? []|].
  - done.
  - destruct c as [| | | |g uc| |]; try done. cbn in Hc. injection Hc as ->. destruct uc; [|by destruct Hroot as (? & _ & _ & ?)].
    destruct Hroot as (y & Hy & Hyst & _ & Hys & Hyc). exists m, r, (Some r). split_and!; [done..|by right|exists y; rewrite Hyst; by split_and!|unfold owns; cbn; naive_solver|].
    intros f x c H1 H2 Hx Hst Hon Hc y' Hy'. assert (y' = y) as -> by congruence. destruct Hm as (z & Hz & Hm). apply (Hfiber f x c m r (Some r) (Looping r true)); try done.
    + apply (returns_root _ m r (set_ctx (Some (Looping r true)) y)); [done|exists z; by rewrite lookup_insert_ne|by rewrite lookup_insert_eq|done..].
    + intros g Hg. by rewrite (lookup_insert_ne _ f).
Qed.
(** A fiber that is entered is out of everybody's hands but the thread's. *)
Lemma enter_ok i t f w : inv w → threads w !! i = Some t → schedules t = true → holding t = None → f ∈ handles w → nobody_on f w = true →
  state_in f [INIT; HOLD; READY] w = true →
  ∃ w' m s R c x, (take_handle f ;;; enter i f) w = Ret tt w' ∧ inv w' ∧ (∀ g, keeps g w w')
  ∧ threads w' = <[i := mkThread (Some f) (Some m) (Some s) R (Some f) c]> (threads w) ∧ fibers w !! f = Some x ∧ m_ctx x = Some c
  ∧ (∀ x', fibers w' !! f = Some x' → m_cb x' = m_cb x) ∧ t_scheduler_fiber t = Some s.
Proof.
  intros Hinv Hi Hs Hhold Hf Hn (x & Hx & Hst)%state_in_true. destruct (handle_parked f w Hinv Hf Hn) as (x0 & Hx0 & [Hstack Hp] & Ho). assert (x0 = x) as -> by congruence.
  destruct (inv_held w Hinv f (or_introl Hf)) as [_ Hb]. destruct (schedules_spec _ t (inv_thread w Hinv i t Hi) Hs) as (m & s & R & Em & Es & ER & Et & Hh & (y & Hyst & Hy & Hyc) & Howns & Hok).
  assert (f ≠ m ∧ f ≠ s) as [Hfm Hfs] by (split; intros ->; apply (Ho i t Hi), Howns; tauto).
  assert (∃ c, m_ctx x = Some c ∧ on c = Some f ∧ m_state x ≠ EXEC ∧ match c with Entering _ false => m_cb x ≠ Some Loop | Running _ false _ => True | _ => False end) as (c & Hxc & Hon & Hne & Hc).
  { destruct Hp as [(E & Hc & Hcb)|[([E|E] & rest & Hc)|([E|E] & _)]]; [..|rewrite E in Hst; set_solver|rewrite E in Hst; set_solver]; eexists; (split; [exact Hc|]); by rewrite E. }
  set (w1 := set_handles (remove_first f (handles w)) w). set (t1 := set_holding (Some f) t). set (t' := mkThread (Some f) (Some m) (Some s) R (Some f) c).
  set (F' := <[f := set_ctx None (set_state EXEC x)]> (<[s := set_ctx (Some (here t)) y]> (fibers w))).
  assert ((take_handle f ;;; enter i f) w = Ret tt (set_trace (trace w) (set_handles (remove_first f (handles w)) (at_ i t' F' w)))) as E.
  { unfold take_handle, enter. rewrite bind_modify. fold w1. rewrite (bind_Ret _ _ _ _ _ (my_ok i _ t w1 Hi)). fold t1.
    rewrite (bind_Ret _ _ _ _ _ (deref_at i t1 (fibers w1) w1 f x Hx)). unfold is_state at 1. rewrite bool_decide_false by (clear -Hst; intros Hin; destruct (m_state x); set_solver).
    rewrite (swapIn_at i t1 (fibers w1) w1 f s x y c); [|done|done|done|done|done|done]. unfold t1. cbn [here set_holding set_t_fiber set_here].
    f_equal. unfold t', at_, set_threads, set_fibers, w1, set_here, set_t_fiber, set_holding. cbn. by rewrite Em, Es, ER. }
  eexists _, m, s, R, c, x. split; [exact E|]. specialize (Hok f x c Hfm Hfs Hx Hstack Hon Hc y Hy). fold F' t' in Hok.
  assert (∀ g, owns t' g ↔ g = m ∨ g = s ∨ g = f) as Howns'.
  { intros g. unfold t', owns. cbn. rewrite Hon. destruct Hh as [(-> & -> & _)|(-> & _)]; naive_solver. }
  assert (∀ g, g ≠ f → g ≠ s → F' !! g = fibers w !! g) as HF by (intros g H1 H2; unfold F'; by rewrite !lookup_insert_ne).
  split.
  - apply (inv_at i t t' F' (remove_first f (handles w)) (trace w) w Hinv Hi); [apply dom_insert_2; by eexists|exact Hok|cbn; congruence|cbn; congruence|..].
    + intros g _ Hg. apply HF; intros ->; apply Hg, Howns'; tauto.
    + intros g Hg%Howns' Hg2 j u Hj. destruct Hg as [->|[->| ->]]; [by destruct Hg2; apply Howns; left|by destruct Hg2; apply Howns; right|by apply (Ho j u Hj)].
    + intros g z Hg%Howns Hg2. destruct Hg2. apply Howns'. tauto.
    + intros g. unfold held. cbn. split.
      * intros [Hg%remove_first_in|(j & u & Hj & Hg)]; [by left|]. destruct (decide (i = j)) as [<-|Hij].
        -- rewrite lookup_insert_eq in Hj. injection Hj as <-. cbn in Hg. injection Hg as <-. by left.
        -- rewrite lookup_insert_ne in Hj by done. right. by exists j, u.
      * destruct (decide (g = f)) as [->|Hgf]; [intros _; right; exists i, t'; by rewrite lookup_insert_eq|].
        intros [Hg|(j & u & Hj & Hg)]; [left; by apply remove_first_other|right; exists j, u]. rewrite lookup_insert_ne; [done|]. intros <-. congruence.
  - split_and!; [|done|done|done| |done].
    + intros g. destruct (decide (g = f)) as [->|Hgf]; [|destruct (decide (g = s)) as [->|Hgs]].
      * intros l (z & c' & Hz & _ & Hc' & ->). assert (z = x) as -> by congruence. unfold code_of in Hc'. rewrite Hxc in Hc'. subst c'.
        exists (code_owed (m_cb x) c). split; [|done]. exists (set_ctx None (set_state EXEC x)), c. split_and!; [apply lookup_insert_eq|done| |done].
        unfold code_of. cbn. exists i, t'. by rewrite lookup_insert_eq.
      * intros l Hl. destruct Hh as [(-> & -> & _)|(HR & Hh)].
        -- destruct Hl as (z & c' & Hz & Hzst & _). assert (z = y) as -> by congruence. rewrite bool_decide_false in Hyst by naive_solver. congruence.
        -- rewrite HR in *. destruct (root_owes w i t s Hinv Hi ER) as [_ Hu]. rewrite (Hu l Hl). exists []. split; [|done].
           exists (set_ctx (Some (here t)) y), (here t). split_and!; [cbn; unfold F'; by rewrite lookup_insert_ne, lookup_insert_eq|cbn; rewrite Hyst; by apply bool_decide_true|done|by rewrite Hh].
      * apply (keeps_at i t); [done| |by apply HF|done]. intros Hon'. destruct (proj1 (Howns g) (or_introl Hon')) as [->| ->]; [|done].
        destruct Hh as [(_ & <- & _)|(_ & Hh)]; [done|]. rewrite Hh in Hon'. cbn in Hon'. congruence.
    + intros x' Hx'. cbn in Hx'. unfold F' in Hx'. rewrite lookup_insert_eq in Hx'. by injection Hx' as <-.
Qed.
Lemma leave_ok i t f w : inv w → threads w !! i = Some t → schedules t = true → holding t = Some f →
  ∃ w', (my i (set_holding None) ;;; put_handle f) w = Ret tt w' ∧ inv w' ∧ (∀ g, keeps g w w') ∧ fibers w' = fibers w
  ∧ threads w' = <[i := set_holding None t]> (threads w) ∧ handles w' = handles w ++ [f].
Proof.
  intros Hinv Hi Hs Hhold. rewrite (bind_Ret _ _ _ _ _ (my_ok i _ t w Hi)). set (t' := set_holding None t).
  exists (set_trace (trace w) (set_handles (handles w ++ [f]) (at_ i t' (fibers w) w))). split; [done|]. split_and!; try done.
  - apply (inv_at i t t' (fibers w) (handles w ++ [f]) (trace w) w Hinv Hi); try done.
    + destruct (inv_thread w Hinv i t Hi) as [|m o h Hm Ho|m s R k g c _ _ _ Hg|m r Hm Hne Hroot|m r c h Hm Hne Hroot Hc Hh]; cbn in Hhold; try done.
      * by apply ok_own.
      * exfalso. destruct Hg as (x & _ & _ & _ & Hg). by destruct c as [|? []|? [] ?|? [] ?|? []|? []|].
      * apply ok_root; try done. by left.
    + intros g. unfold held. cbn. split.
      * intros [[Hg|Hg%list_elem_of_singleton]%elem_of_app|(j & u & Hj & Hg)]; [by left|subst g; right; by exists i, t|].
        destruct (decide (i = j)) as [<-|Hij]; [rewrite lookup_insert_eq in Hj; by injection Hj as <-|rewrite lookup_insert_ne in Hj by done; right; by exists j, u].
      * intros [Hg|(j & u & Hj & Hg)]; [left; apply elem_of_app; by left|]. destruct (decide (i = j)) as [<-|Hij].
        -- left. apply elem_of_app. right. assert (u = t) as -> by congruence. apply list_elem_of_singleton. congruence.
        -- right. exists j, u. by rewrite lookup_insert_ne.
  - intros g. apply keeps_frame; [done|done|]. intros j u Hj _. cbn. destruct (decide (i = j)) as [<-|Hij].
    + exists t'. rewrite lookup_insert_eq. split; [done|]. by assert (u = t) as -> by congruence.
    + exists u. by rewrite lookup_insert_ne.
Qed.
(** The end of a thread. *)
Lemma inv_gone i t w : inv w → threads w !! i = Some t → (∀ g, ¬ owns t g) → holding t = None → inv (set_threads (delete i (threads w)) w).
Proof.
  intros [I1 I2 I3 I4 I5 I6] Hi Ho Hh. assert (∀ f, held (set_threads (delete i (threads w)) w) f → held w f) as Hd.
  { intros f [Hf|(j & u & Hj & Hu)]; [by left|right; exists j, u]. cbn in Hj. rewrite lookup_delete_Some in Hj. naive_solver. }
  split; [done|done|..]; cbn.
  - intros j u [_ Hj]%lookup_delete_Some. by eapply I3.
  - intros j1 j2 u1 u2 f [_ H1]%lookup_delete_Some [_ H2]%lookup_delete_Some. by apply I4.
  - intros f x Hx. destruct (I5 f x Hx) as [(j & u & Hj & Hu)|[Hp Hs]].
    + left. exists j, u. split; [|done]. rewrite lookup_delete_ne; [done|]. intros <-. assert (u = t) as -> by congruence. by eapply Ho.
    + right. split; [done|]. destruct Hs as [?|[?|(j & u & Hj & Hu)]]; [by left|right; by left|]. right. right. exists j, u. split; [|done].
      cbn. rewrite lookup_delete_ne; [done|]. intros <-. congruence.
  - intros f Hf. destruct (I6 f (Hd f Hf)) as [Hs Hb]. split; [done|]. intros j u [_ Hj]%lookup_delete_Some. by eapply Hb.
Qed.
Lemma keeps_gone i t w g : threads w !! i = Some t → here t = OwnCode → keeps g w (set_threads (delete i (threads w)) w).
Proof.
  intros Hi Hh. apply keeps_frame; [done|done|]. intros j u Hj Hon. exists u. split; [|done]. cbn. rewrite lookup_delete_ne; [done|].
  intros <-. assert (u = t) as -> by congruence. by rewrite Hh in Hon.
Qed.
Lemma fine_exit but i t w : inv w → threads w !! i = Some t → free t = true → fine but w (thread_exit i w).
Proof.
  intros Hinv Hi (Hh & Hhold & HR)%bool_decide_eq_true. unfold thread_exit. rewrite (bind_Ret _ _ _ _ _ (me_ok i t w Hi)), (bind_Ret _ _ _ _ _ (my_ok i _ t w Hi)).
  pose proof (inv_thread w Hinv i t Hi) as Hok. inversion Hok as [|m o h Hm Ho|m s R k f c _ _ _ Hf| |]; subst; cbn in Hh, Hhold, HR; try done.
  - cbn [t_threadFiber thread_new]. rewrite bind_ret. change (set_threadFiber None thread_new) with thread_new. rewrite (at_id i _ w Hi). eexists. split; [done|]. split.
    + apply (inv_gone i thread_new); try done. intros g. unfold owns. cbn. naive_solver.
    + intros g _ _. by apply (keeps_gone i thread_new).
  - subst h. set (t := mkThread (Some m) (Some m) o None None OwnCode) in *. cbn [t_threadFiber t]. set (t1 := set_threadFiber None t).
    assert (owns t m) as Hom by (right; by left). destruct Hm as (x & Hx & Hst & Hs & Hcb & Hc). pose proof Hinv as [I1 I2 I3 I4 I5 I6].
    assert (¬ held w m) as Hnh by (intros Hh'; by destruct (proj2 (I6 m Hh') i t Hi)).
    assert (∀ j u, threads w !! j = Some u → owns u m → j = i) as Hone by (intros j u Hj Hu; by eapply I4).
    assert (release i m (at_ i t1 (fibers w) w) = destroy i m (at_ i t1 (fibers w) w)) as E1.
    { unfold release. rewrite bind_gets. unfold id. destruct (referenced m (at_ i t1 (fibers w) w)) eqn:Er; [exfalso|done].
      apply referenced_by in Er as [Hm|[(j & u & Hj & Hu)|(g & y & Hy & Hsr)]]; [by apply Hnh; left| |].
      - cbn in Hj. destruct (decide (i = j)) as [<-|Hij]; [rewrite lookup_insert_eq in Hj; by injection Hj as <-|rewrite lookup_insert_ne in Hj by done].
        unfold thread_refers in Hu. apply bool_decide_eq_true in Hu. destruct Hu as [Hu|Hu]; [apply Hnh; right; by exists j, u|].
        destruct Hij. symmetry. apply (Hone j u Hj). destruct Hu as [?|[?|?%cur_on]]; [right; by right|right; by left|by left].
      - unfold stack_refers in Hsr. apply bool_decide_eq_true in Hsr. destruct (m_ctx y) as [c|] eqn:Ec; [|done].
        pose proof (ctx_cur g y c m w Hinv Hy Ec Hsr) as <-. cbn in Hy. congruence. }
    assert (destroy i m (at_ i t1 (fibers w) w) = Ret tt (at_ i (set_t_fiber None t1) (delete m (fibers w)) (set_fiber_count (u64 (s_fiber_count w + -1)) w))) as E2.
    { unfold destroy, count. rewrite bind_modify. set (w' := set_fiber_count _ w). change (set_fiber_count _ (at_ i t1 (fibers w) w)) with (at_ i t1 (fibers w) w').
      rewrite (bind_Ret _ _ _ _ _ (deref_at i t1 _ w' m x Hx)), Hst, Hcb, Hs. rewrite !bool_decide_true by done. unfold is_state. rewrite bool_decide_true by set_solver.
      cbn [assert]. rewrite !bind_assoc, bind_ret, bind_assoc, bind_ret, bind_assoc, (bind_Ret _ _ _ _ _ (me_at _ _ _ _)). cbn [t_fiber t1 t set_threadFiber].
      rewrite bool_decide_true by done. unfold SetThis. by rewrite (bind_Ret _ _ _ _ _ (my_at _ _ _ _ _)). }
    rewrite (bind_Ret _ _ _ _ _ (eq_trans E1 E2)). eexists. split; [reflexivity|]. cbn. rewrite delete_insert_eq. split; [split|]; cbn.
    + intros g [y Hg]. rewrite lookup_delete_Some in Hg. apply I1. exists y. by destruct Hg.
    + assert (base.size (fibers w) ≠ 0%nat) as Hne by (intros E%map_size_empty_inv; by rewrite E, lookup_empty in Hx).
      rewrite I2, map_size_delete_Some by by eexists. unfold uwrap. rewrite Zplus_mod_idemp_l. f_equal. lia.
    + intros j u [Hij Hj]%lookup_delete_Some. eapply thread_ok_frame, I3, Hj. intros g Hg. rewrite lookup_delete_ne; [done|]. intros <-. destruct Hij. symmetry. by eapply Hone.
    + intros j1 j2 u1 u2 f [_ H1]%lookup_delete_Some [_ H2]%lookup_delete_Some. by apply I4.
    + intros g y [Hgm Hg]%lookup_delete_Some. destruct (I5 g y Hg) as [(j & u & Hj & Hu)|[Hp Hsp]]; [left|right; split; [done|]].
      * exists j, u. split; [|done]. rewrite lookup_delete_ne; [done|]. intros <-. assert (u = t) as -> by congruence. unfold owns in Hu. cbn in Hu. naive_solver.
      * destruct Hsp as [?|[?|(j & u & Hj & Hu)]]; [by left|right; by left|right; right]. exists j, u. split; [|done]. cbn. rewrite lookup_delete_ne; [done|].
        intros <-. by assert (u = t) as -> by congruence.
    + intros g Hg. assert (held w g) as Hg'.
      { destruct Hg as [?|(j & u & Hj & Hu)]; [by left|right; exists j, u]. cbn in Hj. rewrite lookup_delete_Some in Hj. naive_solver. }
      destruct (I6 g Hg') as [Hsg Hb]. split; [rewrite lookup_delete_ne; [done|by intros <-]|]. intros j u [_ Hj]%lookup_delete_Some. by eapply Hb.
    + intros g _ [y Hg]. rewrite lookup_delete_Some in Hg. apply keeps_frame; [cbn; rewrite lookup_delete_ne; [done|naive_solver]|done|].
      intros j u Hj Hon. exists u. split; [|done]. cbn. rewrite lookup_delete_ne; [done|]. intros <-. by assert (u = t) as -> by congruence.
Qed.

(** A fiber that has ended is not entered. *)
Lemma hold_ended i t f x w : inv w → threads w !! i = Some t → schedules t = true → holding t = None → f ∈ handles w → fibers w !! f = Some x →
  is_state (m_state x) [TERM; EXCEPT] = true → ∃ w', (take_handle f ;;; enter i f) w = Ret tt w' ∧ inv w' ∧ ∀ g, keeps g w w'.
Proof.
  intros Hinv Hi Hs Hhold Hf Hx Hst. unfold take_handle, enter. rewrite bind_modify. set (w1 := set_handles _ w).
  rewrite (bind_Ret _ _ _ _ _ (my_ok i _ t w1 Hi)), (bind_Ret _ _ _ _ _ (deref_at i _ (fibers w1) w1 f x Hx)), Hst. eexists. split; [reflexivity|].
  set (t' := set_holding (Some f) t). split.
  - apply (inv_at i t t' (fibers w) (remove_first f (handles w)) (trace w) w Hinv Hi); try done.
    + destruct (inv_thread w Hinv i t Hi) as [|m o h Hm Ho|m s R k g c _ _ _ Hg|m r Hm Hne Hroot|m r c h Hm Hne Hroot Hc Hh]; cbn in Hhold; try done.
      * by apply ok_own.
      * apply ok_root; try done. right. cbn in Hs. destruct c as [| | | |g uc| |]; try done. cbn in Hc. injection Hc as ->. destruct uc; [done|].
        by destruct Hroot as (? & _ & _ & ?).
    + intros g. unfold held. cbn. split.
      * intros [Hg%remove_first_in|(j & u & Hj & Hg)]; [by left|]. destruct (decide (i = j)) as [<-|Hij].
        -- rewrite lookup_insert_eq in Hj. injection Hj as <-. cbn in Hg. injection Hg as <-. by left.
        -- rewrite lookup_insert_ne in Hj by done. right. by exists j, u.
      * destruct (decide (g = f)) as [->|Hgf]; [intros _; right; exists i, t'; by rewrite lookup_insert_eq|].
        intros [Hg|(j & u & Hj & Hg)]; [left; by apply remove_first_other|right; exists j, u]. rewrite lookup_insert_ne; [done|]. intros <-. congruence.
  - intros g. apply keeps_frame; [done|done|]. intros j u Hj _. cbn. destruct (decide (i = j)) as [<-|Hij].
    + exists t'. rewrite lookup_insert_eq. split; [done|]. by assert (u = t) as -> by congruence.
    + exists u. by rewrite lookup_insert_ne.
Qed.
Lemma fine_all but w (o : outcome world unit) : (∃ w', o = Ret tt w' ∧ inv w' ∧ ∀ g, keeps g w w') → fine but w o.
Proof. intros (w' & E & Hi & Hk). exists w'. by split_and!. Qed.
Lemma fine_enter but i t f w : inv w → threads w !! i = Some t → schedules t = true → holding t = None → f ∈ handles w → nobody_on f w = true →
  fine but w ((take_handle f ;;; enter i f) w).
Proof.
  intros Hinv Hi Hs Hh Hf Hn. apply fine_all. destruct (handle_parked f w Hinv Hf Hn) as (x & Hx & [_ Hp] & _).
  destruct (is_state (m_state x) [TERM; EXCEPT]) eqn:Hst; [by apply (hold_ended i t f x)|].
  assert (state_in f [INIT; HOLD; READY] w = true) as Hstate.
  { unfold state_in. rewrite Hx. apply bool_decide_eq_true. unfold is_state in Hst. apply bool_decide_eq_false in Hst.
    clear -Hst Hp. destruct Hp as [(E & _)|[([E|E] & _)|([E|E] & _)]]; rewrite E in *; try set_solver; destruct Hst; set_solver. }
  destruct (enter_ok i t f w Hinv Hi Hs Hh Hf Hn Hstate) as (w' & m & s & R & c & x' & E & Hi' & Hk & _). by exists w'.
Qed.

(** *** All of them *)
Definition reset_of (o : op) : option loc := match o with Reset f _ => Some f | _ => None end.
Lemma thread_is_true ok i w : thread_is ok i w = true → ∃ t, threads w !! i = Some t ∧ ok t = true.
Proof. unfold thread_is. destruct (threads w !! i) as [t|]; [|done]. intros E. by exists t. Qed.
Lemma fine_new_thread but i w : inv w → threads w !! i = None → fine but w (modify (λ w, set_threads (<[i := thread_new]> (threads w)) w) w).
Proof.
  intros [I1 I2 I3 I4 I5 I6] Hi. eexists. split; [reflexivity|]. set (w' := set_threads _ w).
  assert (∀ j u, threads w' !! j = Some u → (j = i ∧ u = thread_new) ∨ threads w !! j = Some u) as Hth.
  { intros j u. cbn. destruct (decide (i = j)) as [<-|Hne]; [rewrite lookup_insert_eq|rewrite lookup_insert_ne by done]; naive_solver. }
  assert (∀ j u, threads w !! j = Some u → threads w' !! j = Some u) as Hup by (intros j u Hj; cbn; rewrite lookup_insert_ne; [done|congruence]).
  assert (∀ g, ¬ owns thread_new g) as Hno by (intros g; unfold owns; cbn; naive_solver).
  assert (∀ g, held w' g → held w g) as Hd by (intros g [?|(j & u & [[-> ->]|Hj]%Hth & Hu)]; [by left|done|right; by exists j, u]).
  split; [split; [done|done|..]|].
  - intros j u [[-> ->]|Hj]%Hth; [constructor|by eapply I3].
  - intros j1 j2 u1 u2 f [[-> ->]|H1]%Hth [[-> ->]|H2]%Hth O1 O2; [done|by destruct (Hno f)..|by eapply I4].
  - intros f x Hx. destruct (I5 f x Hx) as [(j & u & Hj & Hu)|[Hp Hs]]; [left; exists j, u; split; [by apply Hup|done]|right]. split; [done|].
    destruct Hs as [?|[?|(j & u & Hj & Hu)]]; [by left|right; by left|right; right; exists j, u; split; [by apply Hup|done]].
  - intros f Hf%Hd. destruct (I6 f Hf) as [Hs Hb]. split; [done|]. intros j u [[-> ->]|Hj]%Hth; [done|by eapply Hb].
  - intros g _ _. apply keeps_frame; [done|done|]. intros j u Hj _. exists u. split; [by apply Hup|done].
Qed.
Lemma exec_fine st o w : inv w → keeps_rules o w = true → fine (reset_of o) w (exec_op st o w).
Proof.
  intros Hinv Hrules. destruct o as [i|i|i|i|i|cb n|f|i f|i f|i|i|f cb|i]; [..|].
  - apply fine_when; [|done]. intros H%bool_decide_eq_true. by apply fine_new_thread.
  - apply fine_when; [|done]. intros (t & Hi & Hh%bool_decide_eq_true)%thread_is_true. by apply (fine_prologue _ i t).
  - apply fine_when; [|done]. intros (t & Hi & [Hf Hs%bool_decide_eq_true]%andb_true_iff)%thread_is_true. by apply (fine_root _ st i t).
  - cbn [exec_op]. rewrite bind_gets. unfold id. destruct (threads w !! i) as [t|] eqn:Hi; [|by apply fine_ret]. cbn. destruct (m_rootFiber t) as [r|] eqn:HR; [|by apply fine_ret].
    cbn [keeps_rules] in Hrules. rewrite Hi in Hrules. cbn in Hrules. rewrite HR in Hrules.
    apply fine_when; [|done]. intros (t' & Hi' & Hh%bool_decide_eq_true)%thread_is_true. assert (t' = t) as -> by congruence. by apply (fine_call_root _ i t r).
  - apply fine_when; [|done]. intros (t & Hi & Hh%bool_decide_eq_true)%thread_is_true. by apply (fine_loop_ends _ i t).
  - by apply fine_new.
  - apply fine_when; [|done]. intros H%bool_decide_eq_true. by apply fine_share.
  - apply fine_when; [|done]. intros H%bool_decide_eq_true. by apply fine_drop.
  - apply fine_when; [|done]. intros [(t & Hi & [Hs Hh%bool_decide_eq_true]%andb_true_iff)%thread_is_true Hf%bool_decide_eq_true]%andb_true_iff.
    by apply (fine_enter _ i t f).
  - apply fine_when; [|done]. intros (t & Hi & _)%thread_is_true. by apply (fine_step _ i t).
  - cbn [exec_op]. rewrite bind_gets. unfold id. destruct (threads w !! i) as [t|] eqn:Hi; [|by apply fine_ret]. cbn. destruct (holding t) as [f|] eqn:Hh; [|by apply fine_ret].
    apply fine_when; [|done]. intros (t' & Hi' & Hs)%thread_is_true. assert (t' = t) as -> by congruence.
    destruct (leave_ok i t f w Hinv Hi Hs Hh) as (w' & E & Hi2 & Hk & _). apply fine_all. by exists w'.
  - apply fine_when; [|done]. intros Hf%bool_decide_eq_true. apply andb_true_iff in Hrules as [Hn Hs]. by apply fine_reset.
  - apply fine_when; [|done]. intros (t & Hi & Hf)%thread_is_true. by apply (fine_exit _ i t).
Qed.
Lemma disciplined_cons st o ops w : inv w → disciplined st (o :: ops) w = true →
  ∃ w1, exec_op st o w = Ret tt w1 ∧ inv w1 ∧ disciplined st ops w1 = true ∧ ∀ g, reset_of o ≠ Some g → is_Some (fibers w1 !! g) → keeps g w w1.
Proof.
  intros Hinv [Hr Hd]%andb_true_iff. destruct (exec_fine st o w Hinv Hr) as (w1 & E & H1 & K). exists w1. rewrite E in Hd. do 3 (split; [done|]). intros g Hg Hs. apply K; [congruence|done].
Qed.
Lemma run_inv st ops w : inv w → disciplined st ops w = true → ∃ w', run_ops st ops w = Ret tt w' ∧ inv w'.
Proof.
  revert w. induction ops as [|o ops IH]; intros w Hinv Hd; [by exists w|]. destruct (disciplined_cons st o ops w Hinv Hd) as (w1 & E & H1 & Hd1 & _).
  cbn [run_ops]. rewrite (bind_Ret _ _ _ _ _ E). by apply IH.
Qed.

(** *** A fiber that is gone does not come back *)
Definition grows_to w w' : Prop :=
  (next_loc w ≤ next_loc w')%nat ∧ ∀ g, (g < next_loc w)%nat → is_Some (fibers w' !! g) → is_Some (fibers w !! g).
Definition grows {A} (p : ST world A) : Prop := ∀ w a w', p w = Ret a w' → grows_to w w'.
Lemma grows_refl w : grows_to w w.
Proof. by split. Qed.
Lemma grows_trans w1 w2 w3 : grows_to w1 w2 → grows_to w2 w3 → grows_to w1 w3.
Proof. intros [L1 H1] [L2 H2]. split; [lia|]. intros g Hg H3. apply H1; [done|]. apply H2; [lia|done]. Qed.
Lemma grows_ret {A} (a : A) : grows (ret a).
Proof. intros w a' w' [= _ <-]. apply grows_refl. Qed.
Lemma grows_crash {A} e : grows (crash e : ST world A).
Proof. by intros w a w' [=]. Qed.
Lemma grows_gets {A} (h : world → A) : grows (gets h).
Proof. intros w a w' [= _ <-]. apply grows_refl. Qed.
Lemma grows_modify (h : world → world) : (∀ w, grows_to w (h w)) → grows (modify h).
Proof. intros H w a w' [= _ <-]. apply H. Qed.
Lemma grows_bind {A B} (p : ST world A) (k : A → ST world B) : grows p → (∀ a, grows (k a)) → grows (bind p k).
Proof.
  intros Hp Hk w b w' E. unfold bind in E. destruct (p w) as [a w1| |] eqn:E1; try done. eapply grows_trans; [by eapply Hp|by eapply Hk].
Qed.
Lemma grows_when b (p : ST world unit) : grows p → grows (when b p).
Proof. intros Hp w a w' E. unfold when in E. destruct (b w); [by eapply Hp|by eapply grows_ret]. Qed.
Lemma grows_deref f : grows (deref f).
Proof. intros w a w' E. unfold deref in E. destruct (fibers w !! f); [|done]. injection E as _ <-. apply grows_refl. Qed.
Lemma grows_update f h : grows (update f h).
Proof.
  intros w a w' E. unfold update, bind, deref, modify in E. destruct (fibers w !! f) as [x|] eqn:Hx; [|done]. injection E as _ <-. split; [done|]. cbn.
  intros g _ [y Hy]. destruct (decide (g = f)) as [->|Hne]; [by eexists|]. rewrite lookup_insert_ne in Hy by done. by eexists.
Qed.
Lemma grows_new (h : loc → Fiber) : grows (new_object h).
Proof.
  intros w a w' [= _ <-]. split; cbn; [lia|]. intros g Hg [y Hy]. rewrite lookup_insert_ne in Hy by lia. by eexists.
Qed.
Lemma grows_my i h : grows (my i h).
Proof. apply grows_modify. intros w. by split. Qed.
Create HintDb grow.
#[local] Hint Resolve grows_ret grows_crash grows_gets grows_deref grows_update grows_new grows_my grows_bind grows_when grows_refl : grow.
Ltac grow :=
  repeat first
    [ progress (eauto 3 with grow)
    | progress (intros)
    | apply grows_bind
    | apply grows_when
    | apply grows_modify; intros; by split
    | match goal with |- context [match ?x with _ => _ end] => destruct x end ].
Lemma grows_assert b : grows (assert b).
Proof. unfold assert. grow. Qed.
#[local] Hint Resolve grows_assert : grow.
Lemma grows_not_null (o : option loc) : grows (not_null o).
Proof. unfold not_null. grow. Qed.
#[local] Hint Resolve grows_not_null : grow.
Lemma grows_delete f : grows (modify (λ w, set_fibers (delete f (fibers w)) w)).
Proof. apply grows_modify. intros w. split; [done|]. cbn. intros g _ [y Hy]. rewrite lookup_delete_Some in Hy. exists y. by destruct Hy. Qed.
#[local] Hint Resolve grows_delete : grow.
Lemma grows_destroy i f : grows (destroy i f).
Proof. unfold destroy, count, me, SetThis. grow. Qed.
#[local] Hint Resolve grows_destroy : grow.
Lemma grows_GetThis i : grows (GetThis i).
Proof. unfold GetThis, Fiber_main, me, SetThis, count. grow. Qed.
#[local] Hint Resolve grows_GetThis : grow.
Lemma grows_exec st o : grows (exec_op st o).
Proof.
  destruct o; cbn [exec_op]; unfold run_prologue, scheduler_root, call, loop_ends, Fiber_new, finish, release, enter, take_handle, put_handle, swapIn, swapOut,
    back, swapcontext, yield_begin, step, thread_exit, reset, count, me, SetThis; grow.
Qed.

(** ** What fibers promise *)
(** The context of a fiber is away exactly while it runs. *)
Lemma context_away f x w : inv w → fibers w !! f = Some x → m_ctx x = None → ∃ i t, threads w !! i = Some t ∧ t_fiber t = Some f.
Proof.
  intros Hinv Hx Hc. destruct (inv_parked w Hinv f x Hx) as [(i & t & Hi & Ht)|[[_ Hp] _]].
  - exists i, t. split; [done|]. destruct (inv_thread w Hinv i t Hi) as [|m o h Hm _|m s R k g c Hr _ _ Hg|m r Hm _ Hroot|m r c h Hm _ Hroot Hon _]; unfold owns in Ht; cbn in Ht |- *.
    + naive_solver.
    + naive_solver.
    + rewrite (fiber_on _ _ _ Hg) in Ht. destruct Ht as [?|Ht]; [done|exfalso]. inversion Hr as [(y & Hy & _ & _ & _ & Hyc)|r y _ (z & Hz & _ & _ & _ & Hzc) Hy _ _ Hyc]; subst; naive_solver congruence.
    + destruct Ht as [?|[?|[= ->]]]; [done..|exfalso]. destruct Hroot as (y & Hy & _ & [(_ & Hyc & _)|(_ & Hyc)]); congruence.
    + rewrite Hon in Ht. destruct Ht as [?|[[= ->]|?]]; [done|exfalso|done]. destruct Hm as (y & Hy & _ & _ & _ & Hyc). congruence.
  - destruct Hp as [(_ & Hp & _)|[(_ & ? & Hp)|(_ & Hp)]]; congruence.
Qed.
Lemma running_known i t w : inv w → threads w !! i = Some t → t_fiber t = match on (here t) with Some f => Some f | None => t_threadFiber t end.
Proof.
  intros Hinv Hi. destruct (inv_thread w Hinv i t Hi) as [| |m s R k g c _ _ _ Hg| |m r c h _ _ _ Hon _]; cbn; try done; [by rewrite (fiber_on _ _ _ Hg)|by rewrite Hon].
Qed.

(** C10: Contexts behave as calls.  Whatever threads do with fibers - make, share,
    enter, yield, drop and reset them, raise exceptions, make a root and work in it,
    end - in any interleaving that keeps to the discipline (a fiber is entered or
    reset only when no thread is on its stack, reset only when it is new or has
    ended without an exception, and a root is called once), no assertion fails, no null pointer is followed, no
    fiber is used after its destruction and no context that is not there is
    switched to.  [GetThis] is always the fiber on whose stack a thread runs, no
    two threads run on one stack, a context is away only from a fiber that runs,
    the fibers that live are those that something refers to, and the counter
    counts them. *)
Theorem fibers_run st ops : disciplined st ops fibers_start = true → ∃ w, run_ops st ops fibers_start = Ret tt w
  ∧ (∀ i t, threads w !! i = Some t → t_fiber t = match on (here t) with Some f => Some f | None => t_threadFiber t end)
  ∧ (∀ i j t u f, threads w !! i = Some t → threads w !! j = Some u → on (here t) = Some f → on (here u) = Some f → i = j)
  ∧ (∀ f x, fibers w !! f = Some x → m_ctx x = None → ∃ i t, threads w !! i = Some t ∧ t_fiber t = Some f)
  ∧ (∀ f, is_Some (fibers w !! f) ↔ referenced f w = true)
  ∧ TotalFibers w = Ret (u64 (Z.of_nat (base.size (fibers w)))) w.
Proof.
  intros Hd. destruct (run_inv st ops _ inv_fibers_start Hd) as (w & E & Hinv). exists w. split_and!; [done|..].
  - intros i t Hi. by eapply running_known.
  - intros i j t u f Hi Hj Ht Hu. eapply inv_own; [done|exact Hi|exact Hj|by left|by left].
  - intros f x. by apply context_away.
  - intros f. split; [by apply live_referenced|by apply referenced_live].
  - unfold TotalFibers, gets. by rewrite (inv_count w Hinv).
Qed.

Lemma run_app st ops1 ops2 w : run_ops st (ops1 ++ ops2) w = (run_ops st ops1 ;;; run_ops st ops2) w.
Proof.
  revert w. induction ops1 as [|o ops1 IH]; intros w; [done|]. cbn [app run_ops]. unfold bind in *. destruct (exec_op st o w) as [[]| |]; [apply IH|done..].
Qed.
Lemma disciplined_app st ops1 ops2 w w1 : run_ops st ops1 w = Ret tt w1 → disciplined st (ops1 ++ ops2) w = disciplined st ops1 w && disciplined st ops2 w1.
Proof.
  revert w. induction ops1 as [|o ops1 IH]; intros w E; [by injection E as <-|]. cbn [app disciplined run_ops] in E |- *. unfold bind in E.
  destruct (exec_op st o w) as [[] w2| |]; [|done..]. by rewrite (IH w2 E), andb_assoc.
Qed.
Lemma runs_grow st ops w w' : run_ops st ops w = Ret tt w' → grows_to w w'.
Proof.
  revert w. induction ops as [|o ops IH]; intros w E; [injection E as <-; apply grows_refl|]. cbn [run_ops] in E. unfold bind in E.
  destruct (exec_op st o w) as [[] w1| |] eqn:E1; [|done..]. eapply grows_trans; [by eapply grows_exec|by apply IH].
Qed.
Lemma runs_keep st ops f w w' : inv w → disciplined st ops w = true → run_ops st ops w = Ret tt w' → Forall (λ o, reset_of o ≠ Some f) ops →
  is_Some (fibers w !! f) → is_Some (fibers w' !! f) → keeps f w w'.
Proof.
  revert w. induction ops as [|o ops IH]; intros w Hinv Hd E Hno Hf Hf'; [injection E as <-; apply work_refl|].
  apply Forall_cons in Hno as [Ho Hno]. destruct (disciplined_cons st o ops w Hinv Hd) as (w1 & E1 & H1 & Hd1 & K1). cbn [run_ops] in E. rewrite (bind_Ret _ _ _ _ _ E1) in E.
  assert (grows_to w w1) as [Hl _] by by eapply grows_exec. destruct (runs_grow st ops w1 w' E) as [_ Hg].
  assert (is_Some (fibers w1 !! f)) as Hf1 by (apply Hg; [|done]; pose proof (inv_fresh w Hinv f Hf); lia).
  eapply work_trans; [by apply K1|by apply IH].
Qed.
(** C11: No work is lost or done twice.  From any moment of any history that keeps
    to the discipline, whatever
    happens until the fiber is destroyed or reset, what its callback has done
    since, followed by what it still has to do up to its exception if it raises
    one, is what it had to do. *)
Theorem work_conserved st ops1 ops2 f w1 w2 : disciplined st (ops1 ++ ops2) fibers_start = true →
  run_ops st ops1 fibers_start = Ret tt w1 → run_ops st ops2 w1 = Ret tt w2 →
  Forall (λ o, reset_of o ≠ Some f) ops2 → is_Some (fibers w1 !! f) → is_Some (fibers w2 !! f) →
  ∀ l, owes w1 f l → ∃ l', owes w2 f l' ∧ done_by f w2 ++ l' = done_by f w1 ++ l.
Proof.
  intros Hd E1 E2 Hno Hf1 Hf2. rewrite (disciplined_app st ops1 ops2 _ w1 E1) in Hd. apply andb_true_iff in Hd as [Hd1 Hd2].
  destruct (run_inv st ops1 _ inv_fibers_start Hd1) as (w & E & Hinv). assert (w = w1) as -> by congruence. by apply (runs_keep st ops2).
Qed.

(** ** Every callback can be brought to its end *)
Lemma schedules_home m s R k (h : option loc) F : returns F m s R k → schedules (mkThread (Some s) (Some m) (Some s) R h k) = true.
Proof. by inversion 1. Qed.
Lemma nobody_on_true f w : (∀ i t, threads w !! i = Some t → on (here t) ≠ Some f) → nobody_on f w = true.
Proof. intros H. unfold nobody_on. apply bool_decide_eq_true. intros (i & t & Hi & Ht). by eapply H. Qed.
Lemma running_ok F m s R f c : thread_ok F (mkThread (Some f) (Some m) (Some s) R (Some f) c) → on c = Some f → f ≠ s →
  ∃ k, returns F m s R k ∧ f ≠ m ∧ fiber_at F f c.
Proof. intros Hok Hon Hfs. inversion Hok; subst; try done. by eexists. Qed.
(** Until the fiber is switched out. *)
Lemma disciplined_steps st i n w : disciplined st (replicate n (Step i)) w = true.
Proof. revert w. induction n as [|n IH]; intros w; [done|]. cbn [replicate disciplined keeps_rules andb]. by destruct (exec_op st (Step i) w). Qed.
Lemma run_out st i m s R k f n : ∀ c x w, inv w → threads w !! i = Some (mkThread (Some f) (Some m) (Some s) R (Some f) c) →
  returns (fibers w) m s R k → f ≠ m → f ≠ s → fiber_at (fibers w) f c → fibers w !! f = Some x → (to_go (m_cb x) c ≤ n)%nat →
  ∃ j w' c' x', (j ≤ n)%nat ∧ run_ops st (replicate j (Step i)) w = Ret tt w' ∧ inv w' ∧ (∀ g, keeps g w w') ∧ handles w' = handles w
  ∧ threads w' = <[i := mkThread (Some s) (Some m) (Some s) R (Some f) k]> (threads w)
  ∧ fibers w' !! f = Some x' ∧ parked f x' ∧ m_state x' ≠ INIT ∧ m_ctx x' = Some c' ∧ (to_go (m_cb x') c' + j ≤ to_go (m_cb x) c)%nat ∧ (0 < j)%nat.
Proof.
  induction n as [|n IH]; intros c x w Hinv Hi Hr Hfm Hfs Hf Hx Hn;
    destruct (step_fiber i m s R k f c x w Hinv Hi Hr Hfm Hfs Hf Hx) as (w1 & E & H1 & K1 & Eh & Hs).
  { exfalso. destruct Hs; lia. }
  assert (exec_op st (Step i) w = Ret tt w1) as Ex by (cbn [exec_op]; unfold when, thread_is; by rewrite Hi).
  destruct Hs as [c1 x1 Et1 Hr1 Hf1 Hx1 Hlt|c1 x1 Et1 Hx1 Hp Hst Hc Hlt].
  - destruct (IH c1 x1 w1 H1) as (j & w' & c' & x' & Hj & E' & H' & K' & Eh' & Et' & Hx' & Hp & Hst & Hc & Hl & Hj0); try done; [rewrite Et1; apply lookup_insert_eq|lia|].
    exists (S j), w', c', x'. split_and!; try done; [lia|cbn [replicate run_ops]; by rewrite (bind_Ret _ _ _ _ _ Ex)|intros g; by eapply work_trans|congruence| |lia|lia].
    by rewrite Et', Et1, insert_insert_eq.
  - exists 1%nat, w1, c1, x1. split_and!; try done; try lia. cbn [replicate run_ops]. by rewrite (bind_Ret _ _ _ _ _ Ex).
Qed.
(** A scheduler that has a fiber for itself, and nothing else to do. *)
Definition ready_for i f w : Prop :=
  (∃ t, threads w !! i = Some t ∧ schedules t = true ∧ holding t = None) ∧ f ∈ handles w ∧ nobody_on f w = true.
Definition ended f w : Prop := ∃ x, fibers w !! f = Some x ∧ (m_state x = TERM ∨ m_state x = EXCEPT).
Lemma ended_owes f w : inv w → f ∈ handles w → nobody_on f w = true → ended f w → ∀ l, owes w f l → l = [].
Proof.
  intros Hinv Hf Hn (x & Hx & Hst) l (y & c & Hy & _ & Hc & ->). assert (y = x) as -> by congruence.
  destruct (handle_parked f w Hinv Hf Hn) as (z & Hz & [_ Hp] & _). assert (z = x) as -> by congruence. unfold code_of in Hc.
  destruct Hp as [(E & _)|[([E|E] & _)|(_ & Hp)]]; [naive_solver congruence..|]. rewrite Hp in Hc. by subst c.
Qed.
Lemma run_to_end st i f n : ∀ w x c, inv w → ready_for i f w → fibers w !! f = Some x → m_ctx x = Some c → (to_go (m_cb x) c ≤ n)%nat →
  ∃ more w', run_ops st more w = Ret tt w' ∧ disciplined st more w = true ∧ inv w' ∧ ready_for i f w' ∧ ended f w' ∧ (∀ g, keeps g w w')
  ∧ (length more ≤ 3 * n)%nat.
Proof.
  induction n as [n IH] using lt_wf_ind; intros w x c Hinv Hready Hx Hc Hn. pose proof Hready as ((t & Hi & Hs & Hh) & Hf & Hno).
  destruct (handle_parked f w Hinv Hf Hno) as (x0 & Hx0 & [Hstack Hp] & Ho). assert (x0 = x) as -> by congruence.
  destruct (decide (m_state x = TERM ∨ m_state x = EXCEPT)) as [Hend|Hend].
  { exists [], w. split_and!; try done; [by exists x|intros; apply work_refl|cbn; lia]. }
  assert (m_state x ∈ [INIT; HOLD; READY]) as Hst by (destruct Hp as [(E & _)|[([E|E] & _)|(? & _)]]; try (rewrite E; set_solver); done).
  assert (state_in f [INIT; HOLD; READY] w = true) as Hstate by (unfold state_in; rewrite Hx; by apply bool_decide_eq_true).
  destruct (enter_ok i t f w Hinv Hi Hs Hh Hf Hno Hstate) as (w1 & m & s & R & c1 & x1 & E1 & H1 & K1 & Et1 & Hx1 & Hc1 & Hcb & Es).
  assert (x1 = x) as -> by congruence. assert (c1 = c) as -> by congruence.
  assert (threads w1 !! i = Some (mkThread (Some f) (Some m) (Some s) R (Some f) c)) as Hi1 by (rewrite Et1; apply lookup_insert_eq).
  assert (on c = Some f) as Hon by (destruct Hp as [(_ & Hp & _)|[(_ & ? & Hp)|(_ & Hp)]]; rewrite Hp in Hc; by injection Hc as <-).
  assert (f ≠ s) as Hfs by (intros ->; destruct (schedules_spec _ t (inv_thread w Hinv i t Hi) Hs) as (? & ? & ? & _ & Es' & _ & _ & _ & _ & Hos & _); apply (Ho i t Hi), Hos; right; congruence).
  destruct (running_ok _ m s R f c (inv_thread w1 H1 i _ Hi1) Hon Hfs) as (k & Hr & Hfm & Hf1). pose proof Hf1 as (xf & Hxf & _).
  destruct (run_out st i m s R k f (to_go (m_cb xf) c) c xf w1 H1 Hi1 Hr Hfm Hfs Hf1 Hxf (le_n _)) as (j & w2 & c2 & x2 & _ & E2 & H2 & K2 & Eh2 & Et2 & Hx2 & Hp2 & Hst2 & Hc2 & Hlt & Hj).
  rewrite (Hcb xf Hxf) in Hlt. set (t2 := mkThread (Some s) (Some m) (Some s) R (Some f) k) in *.
  assert (threads w2 !! i = Some t2) as Hi2 by (rewrite Et2; apply lookup_insert_eq).
  destruct (leave_ok i t2 f w2 H2 Hi2 (schedules_home m s R k (Some f) _ Hr) eq_refl) as (w3 & E3 & H3 & K3 & EF3 & Et3 & Eh3).
  assert (ready_for i f w3) as Hready3.
  { split; [|split].
    - exists (set_holding None t2). split; [rewrite Et3; apply lookup_insert_eq|]. split; [by apply (schedules_home m s R k None _ Hr)|done].
    - rewrite Eh3. apply elem_of_app. right. by apply list_elem_of_singleton.
    - apply nobody_on_true. intros i' t' Hi'. rewrite Et3, Et2, Et1 in Hi'. rewrite !insert_insert_eq in Hi'. destruct (decide (i = i')) as [<-|Hne].
      + rewrite lookup_insert_eq in Hi'. injection Hi' as <-. cbn. inversion Hr; subst; cbn; [done|congruence].
      + rewrite lookup_insert_ne in Hi' by done. intros Hon'. apply (Ho i' t' Hi'). by left. }
  destruct (IH (to_go (m_cb x2) c2) ltac:(lia) w3 x2 c2 H3 Hready3) as (more & w4 & E4 & D4 & H4 & R4 & En4 & K4 & Hlen); [congruence|done|lia|].
  assert (exec_op st (Enter i f) w = Ret tt w1) as Ex1 by (cbn [exec_op]; unfold when, thread_is; rewrite Hi, Hs; by rewrite !bool_decide_true).
  assert (exec_op st (Leave i) w2 = Ret tt w3) as Ex3.
  { cbn [exec_op]. rewrite bind_gets. unfold id. rewrite Hi2. cbn. unfold when, thread_is. assert (schedules t2 = true) as Hs2 by apply (schedules_home m s R k (Some f) _ Hr). by rewrite Hi2, Hs2. }
  exists (Enter i f :: replicate j (Step i) ++ Leave i :: more), w4. split_and!; try done.
  - cbn [run_ops]. rewrite (bind_Ret _ _ _ _ _ Ex1), run_app, (bind_Ret _ _ _ _ _ E2). cbn [run_ops]. by rewrite (bind_Ret _ _ _ _ _ Ex3).
  - cbn [disciplined keeps_rules]. rewrite Hno, Ex1. cbn [andb]. rewrite (disciplined_app _ _ _ _ w2 E2), disciplined_steps. cbn [disciplined keeps_rules andb]. by rewrite Ex3.
  - intros g. eapply work_trans; [apply K1|]. eapply work_trans; [apply K2|]. eapply work_trans; [apply K3|apply K4].
  - cbn [length]. rewrite length_app, length_replicate. cbn [length]. lia.
Qed.
(** C26: Every callback can be brought to its end.  After any history that keeps to
    the discipline, a scheduler
    that has a fiber for itself and enters it again whenever it yields gets it, in
    a bounded number of steps, to the end of its callback or to its exception, and
    then all that it had to do is done, in order and once. *)
Theorem fiber_finishes st ops i f w x c l : disciplined st ops fibers_start = true → run_ops st ops fibers_start = Ret tt w → ready_for i f w →
  fibers w !! f = Some x → m_ctx x = Some c → owes w f l →
  ∃ more w', run_ops st more w = Ret tt w' ∧ disciplined st more w = true ∧ (length more ≤ 3 * to_go (m_cb x) c)%nat
  ∧ ready_for i f w' ∧ ended f w' ∧ done_by f w' = done_by f w ++ l.
Proof.
  intros Hd E Hready Hx Hc Hl. destruct (run_inv st ops _ inv_fibers_start Hd) as (w0 & E0 & Hinv). assert (w0 = w) as -> by congruence.
  destruct (run_to_end st i f _ w x c Hinv Hready Hx Hc (le_n _)) as (more & w' & E' & D' & Hinv' & Hready' & Hend & Hk & Hlen). exists more, w'. split_and!; try done.
  destruct (Hk f l Hl) as (l' & Hl' & Ed). destruct Hready' as (_ & Hf' & Hn'). rewrite (ended_owes f w' Hinv' Hf' Hn' Hend l' Hl'), app_nil_r in Ed. done.
Qed.

(** ** At work *)
Definition sample_callback : list action := [Work 1; DoYieldToHold; Work 2; DoYieldToReady; Work 3; Raise; Work 4].
Definition sample_start : list op := [NewThread 0; Prologue 0; New (Some sample_callback) 0].
Definition sample_first : list op := sample_start ++ [Enter 0 1; Step 0; Step 0; Step 0; Step 0; Leave 0].
Definition world_of (o : outcome world unit) : world := match o with Ret _ w => w | _ => fibers_start end.
Definition started : world := Eval vm_compute in world_of (run_ops 1048576 sample_start fibers_start).
Definition yielded : world := Eval vm_compute in world_of (run_ops 1048576 sample_first fibers_start).
Lemma started_ready : ready_for 0 1%nat started.
Proof.
  split; [|split; [by left|by vm_compute]]. exists (mkThread (Some 0%nat) (Some 0%nat) (Some 0%nat) None None OwnCode). split_and!; by vm_compute.
Qed.
Lemma started_owes : owes started 1%nat [1; 2; 3].
Proof.
  eexists (mkFiber 1 1048576 INIT (Some (Entering 1%nat false)) true (Some (Acts sample_callback))), _. by split_and!.
Qed.
Lemma work_conserved_witness :
  run_ops 1048576 sample_start fibers_start = Ret tt started ∧ owes started 1%nat [1; 2; 3]
  ∧ ∃ l', owes yielded 1%nat l' ∧ done_by 1%nat yielded ++ l' = done_by 1%nat started ++ [1; 2; 3].
Proof.
  assert (run_ops 1048576 sample_start fibers_start = Ret tt started) as E1 by (vm_compute; reflexivity).
  assert (run_ops 1048576 [Enter 0 1; Step 0; Step 0; Step 0; Step 0; Leave 0] started = Ret tt yielded) as E2 by (vm_compute; reflexivity).
  split; [exact E1|]. split; [exact started_owes|].
  apply (work_conserved 1048576 sample_start [Enter 0 1; Step 0; Step 0; Step 0; Step 0; Leave 0] 1%nat started yielded eq_refl E1 E2);
    [repeat constructor; discriminate|eexists; reflexivity|eexists; reflexivity|exact started_owes].
Defined.
Lemma sample_yielded : done_by 1%nat yielded = [1] ∧ state_in 1%nat [HOLD] yielded = true.
Proof. by vm_compute. Qed.
Lemma fiber_finishes_witness : ready_for 0 1%nat started ∧ owes started 1%nat [1; 2; 3] ∧
  ∃ more w', run_ops 1048576 more started = Ret tt w' ∧ disciplined 1048576 more started = true ∧ (length more ≤ 3 * to_go (Some (Acts sample_callback)) (Entering 1%nat false))%nat
  ∧ ready_for 0 1%nat w' ∧ ended 1%nat w' ∧ done_by 1%nat w' = done_by 1%nat started ++ [1; 2; 3].
Proof.
  split; [exact started_ready|]. split; [exact started_owes|].
  apply (fiber_finishes 1048576 sample_start 0 1%nat started (mkFiber 1 1048576 INIT (Some (Entering 1%nat false)) true (Some (Acts sample_callback)))
    (Entering 1%nat false) [1; 2; 3]); [vm_compute; reflexivity|vm_compute; reflexivity|exact started_ready|reflexivity|reflexivity|exact started_owes].
Defined.
(** The loop of a scheduler on the caller's thread, in its root. *)
Definition sample_caller : list op :=
  [NewThread 0; NewRoot 0; New (Some [Work 5; DoYieldToHold; Work 6]) 0; CallRoot 0; Step 0; Enter 0 2; Step 0; Step 0; Step 0; Step 0; Leave 0;
   Enter 0 2; Step 0; Step 0; Step 0; Leave 0; LoopEnds 0; Step 0].
Lemma sample_caller_done :
  (λ w, (trace w, here <$> threads w !! 0%nat, state_in 2%nat [TERM] w, state_in 1%nat [TERM] w)) (world_of (run_ops 1048576 sample_caller fibers_start))
  = ([(2%nat, 5); (2%nat, 6)], Some OwnCode, true, true).
Proof. by vm_compute. Qed.

Lemma fibers_run_witness : disciplined 1048576 sample_caller fibers_start = true ∧ ∃ w, run_ops 1048576 sample_caller fibers_start = Ret tt w
  ∧ (∀ i t, threads w !! i = Some t → t_fiber t = match on (here t) with Some f => Some f | None => t_threadFiber t end)
  ∧ (∀ i j t u f, threads w !! i = Some t → threads w !! j = Some u → on (here t) = Some f → on (here u) = Some f → i = j)
  ∧ (∀ f x, fibers w !! f = Some x → m_ctx x = None → ∃ i t, threads w !! i = Some t ∧ t_fiber t = Some f)
  ∧ (∀ f, is_Some (fibers w !! f) ↔ referenced f w = true)
  ∧ TotalFibers w = Ret (u64 (Z.of_nat (base.size (fibers w)))) w.
Proof. split; [vm_compute; reflexivity|]. apply (fibers_run 1048576 sample_caller). vm_compute. reflexivity. Defined.

(** ** Where the code departs from its purpose *)
(** A fiber that waits refers to itself from its own stack: when nothing else does,
    it stays for ever, with its stack. *)
Lemma held_fiber_leaks :
  match run_ops 1048576 (sample_first ++ [Drop 0 1]) fibers_start with
  | Ret _ w => handles w = [] ∧ state_in 1%nat [HOLD] w = true ∧ s_fiber_count w = 2
  | _ => False
  end.
Proof. by vm_compute. Qed.
(** Between the two halves of a yield the state says that the fiber can be entered,
    but its context is not there yet: a worker that takes it then switches to a
    context that is not there. *)
Lemma entered_too_early :
  run_ops 1048576 (sample_start ++ [Share 1; NewThread 1; Prologue 1; Enter 0 1; Step 0; Step 0; Step 0; Enter 1 1]) fibers_start = Crash UseAfterFree.
Proof. by vm_compute. Qed.
(** In the same way [TERM] is set before the last switch: a fiber that is reset
    in between has its new context overwritten, and entering it runs into the
    assertion behind the switch. *)
Lemma reset_too_early :
  run_ops 1048576 [NewThread 0; Prologue 0; NewThread 1; Prologue 1; New (Some []) 0; Share 2; Enter 0 2; Step 0; Step 0;
    Reset 2 (Some [Work 1]); Step 0; Enter 1 2; Step 1] fibers_start = Crash AssertFailed.
Proof. by vm_compute. Qed.
(** The fiber of a callback that ended with an exception is reset by the scheduler,
    which its assertion refuses. *)
Lemma reset_of_failed : run_ops 1048576 (sample_start ++ [Enter 0 1; Step 0; Step 0; Step 0; Step 0; Leave 0; Enter 0 1; Step 0; Step 0; Step 0; Leave 0;
    Enter 0 1; Step 0; Step 0; Step 0; Leave 0; Reset 1 None]) fibers_start = Crash AssertFailed.
Proof. by vm_compute. Qed.
(** A fiber made for the caller's thread is reset to one that is not. *)
Lemma reset_forgets_caller :
  match run_ops 1048576 (sample_caller) fibers_start with
  | Ret _ w => match reset 1%nat (Some Loop) w with Ret _ w' => (fibers w' !! 1%nat ≫= m_ctx) = Some (Entering 1%nat false) | _ => False end
  | _ => False
  end.
Proof. by vm_compute. Qed.
(** Without a scheduler on the thread there is nothing to switch to. *)
Lemma swapIn_needs_scheduler :
  match run_ops 1048576 [NewThread 0; New (Some []) 0] fibers_start with Ret _ w => swapIn 0 0%nat w = Crash NullDeref | _ => False end.
Proof. by vm_compute. Qed.
