(* ===== verification/Scheduler.v ===== *)
(** * Scheduler: the task queue and the loop of the worker threads
    ([include/scheduler.h], [src/scheduler.cpp], [src/fiber.cpp])

    The threads interleave between the points where [Scheduler::run] holds the
    queue's mutex, switches into a fiber and comes back, so a turn of its loop is
    the labels [LPick], [LEnter], [LSet]/[LOut] (what the fiber does) and, behind the
    switch, where no lock is held, one [LBack] for each access to what is shared: the
    counter, the fiber's state, which is read twice, and the queue or the state again.
    Fibers and callbacks are named by numbers; a fiber's stack and registers are
    not modelled, its state and who runs it are.  A scheduler that its creator takes
    part in ([use_caller]) has a root fiber, which [stop] enters ([call_root]); the
    tickles are those of [IOManager]: what is in its pipe. *)
From S2P Require Import Prelude.

(** [Fiber::State] *)
Inductive State := INIT | HOLD | EXEC | TERM | READY | EXCEPT.
#[export] Instance State_eq_dec : EqDecision State.
Proof. solve_decision. Defined.

Record FiberAndThread := mkFT { fiber : option Z; cb : option Z; thread : Z }.
#[export] Instance FiberAndThread_eq_dec : EqDecision FiberAndThread.
Proof. solve_decision. Defined.
(** What callers schedule: a fiber or a callback, either of which may be null. *)
Inductive FiberOrCb := AFiber (f : option Z) | ACb (c : option Z).
(** The constructors; those from a pointer take the value and leave null there. *)
Definition FT_new (fc : FiberOrCb) (thr : Z) : FiberAndThread :=
  match fc with AFiber f => mkFT f None thr | ACb c => mkFT None c thr end.
Definition swapped (fc : FiberOrCb) : FiberOrCb := match fc with AFiber _ => AFiber None | ACb _ => ACb None end.
Definition FT_reset : FiberAndThread := mkFT None None (-1).

(** What a thread has switched into. *)
Inductive kind := KFiber | KCb | KIdle.
(** What it makes of the state in which the fiber came back. *)
Inductive verdict := Ready | Ended | Left.
(** Where a thread is in [run]; behind the switch: before the counter, before
    [getState() == READY], before the tests for [TERM] and [EXCEPT], before what
    follows from them. *)
Inductive pc :=
  | Top
  | Picked (ft : FiberAndThread) (is_active : bool)
  | In (k : kind) (f : Z)
  | Back (k : kind) (f : Z)
  | Asks (k : kind) (f : Z)
  | Judges (k : kind) (f : Z)
  | Acts (k : kind) (f : Z) (v : verdict)
  | Done.

Record worker := mkWorker { tid : Z; at_ : pc; cb_fiber : option Z; idle_fiber : Z }.

(** [tickles] counts the calls of the virtual [tickle], [pipe] the bytes that the
    [IOManager]'s writes for them.  [m_rootFiber] is the state of the root fiber, if
    the scheduler was made with [use_caller]; the thread that called is then a worker
    while it is in [stop]. *)
Record Scheduler := mkScheduler {
  m_fibers : list FiberAndThread;
  m_activeThreadCount : Z;
  m_idleThreadCount : Z;
  m_stopping : bool;
  m_autostop : bool;
  tickles : Z;
  pipe : Z;
  states : gmap Z State;
  next_fiber : Z;
  workers : list worker;
  m_threadCount : Z;
  m_rootFiber : option State;
  m_rootThreadId : Z
}.

Definition set_fibers v s := mkScheduler v (m_activeThreadCount s) (m_idleThreadCount s) (m_stopping s) (m_autostop s) (tickles s) (pipe s) (states s) (next_fiber s) (workers s) (m_threadCount s) (m_rootFiber s) (m_rootThreadId s).
Definition set_active v s := mkScheduler (m_fibers s) v (m_idleThreadCount s) (m_stopping s) (m_autostop s) (tickles s) (pipe s) (states s) (next_fiber s) (workers s) (m_threadCount s) (m_rootFiber s) (m_rootThreadId s).
Definition set_idle v s := mkScheduler (m_fibers s) (m_activeThreadCount s) v (m_stopping s) (m_autostop s) (tickles s) (pipe s) (states s) (next_fiber s) (workers s) (m_threadCount s) (m_rootFiber s) (m_rootThreadId s).
Definition set_stopping v s := mkScheduler (m_fibers s) (m_activeThreadCount s) (m_idleThreadCount s) v (m_autostop s) (tickles s) (pipe s) (states s) (next_fiber s) (workers s) (m_threadCount s) (m_rootFiber s) (m_rootThreadId s).
Definition set_autostop v s := mkScheduler (m_fibers s) (m_activeThreadCount s) (m_idleThreadCount s) (m_stopping s) v (tickles s) (pipe s) (states s) (next_fiber s) (workers s) (m_threadCount s) (m_rootFiber s) (m_rootThreadId s).
Definition set_tickles v s := mkScheduler (m_fibers s) (m_activeThreadCount s) (m_idleThreadCount s) (m_stopping s) (m_autostop s) v (pipe s) (states s) (next_fiber s) (workers s) (m_threadCount s) (m_rootFiber s) (m_rootThreadId s).
Definition set_pipe v s := mkScheduler (m_fibers s) (m_activeThreadCount s) (m_idleThreadCount s) (m_stopping s) (m_autostop s) (tickles s) v (states s) (next_fiber s) (workers s) (m_threadCount s) (m_rootFiber s) (m_rootThreadId s).
Definition set_states v s := mkScheduler (m_fibers s) (m_activeThreadCount s) (m_idleThreadCount s) (m_stopping s) (m_autostop s) (tickles s) (pipe s) v (next_fiber s) (workers s) (m_threadCount s) (m_rootFiber s) (m_rootThreadId s).
Definition set_next v s := mkScheduler (m_fibers s) (m_activeThreadCount s) (m_idleThreadCount s) (m_stopping s) (m_autostop s) (tickles s) (pipe s) (states s) v (workers s) (m_threadCount s) (m_rootFiber s) (m_rootThreadId s).
Definition set_workers v s := mkScheduler (m_fibers s) (m_activeThreadCount s) (m_idleThreadCount s) (m_stopping s) (m_autostop s) (tickles s) (pipe s) (states s) (next_fiber s) v (m_threadCount s) (m_rootFiber s) (m_rootThreadId s).
Definition set_root v s := mkScheduler (m_fibers s) (m_activeThreadCount s) (m_idleThreadCount s) (m_stopping s) (m_autostop s) (tickles s) (pipe s) (states s) (next_fiber s) (workers s) (m_threadCount s) v (m_rootThreadId s).

Definition assert (b : bool) : ST Scheduler unit := if b then ret tt else crash AssertFailed.

(** ** Fibers *)
Definition getState (s : Scheduler) (f : Z) : State := default INIT (states s !! f).
Definition setState (f : Z) (st : State) : ST Scheduler unit := modify (λ s, set_states (<[f := st]> (states s)) s).
Definition is_state (st : State) (l : list State) : bool := existsb (λ x, bool_decide (st = x)) l.

(** [new Fiber(cb)] *)
Definition Fiber_new : ST Scheduler Z :=
  let* f := gets next_fiber in modify (set_next (f + 1)) ;;; setState f INIT ;;; ret f.
(** [Fiber::reset] *)
Definition Fiber_reset (f : Z) : ST Scheduler unit :=
  let* st := gets (λ s, getState s f) in
  assert (is_state st [TERM; INIT]) ;;; setState f INIT.
(** [Fiber::swapIn], up to the switch *)
Definition swapIn (f : Z) : ST Scheduler unit :=
  let* st := gets (λ s, getState s f) in
  assert (negb (is_state st [EXEC])) ;;; setState f EXEC.

(** ** The queue *)
Definition hasIdleThreads (s : Scheduler) : bool := 0 <? m_idleThreadCount s.
Definition tickled (s : Scheduler) : Scheduler :=
  set_pipe (if hasIdleThreads s then pipe s + 1 else pipe s) (set_tickles (tickles s + 1) s).
Definition tickle : ST Scheduler unit := modify tickled.
Definition valid_task (ft : FiberAndThread) : bool := bool_decide (is_Some (fiber ft)) || bool_decide (is_Some (cb ft)).

Definition scheduleNoLock (fc : FiberOrCb) (thr : Z) : ST Scheduler bool :=
  let* q := gets m_fibers in
  let ft := FT_new fc thr in
  (if valid_task ft then modify (set_fibers (q ++ [ft])) else ret tt) ;;;
  ret (bool_decide (q = [])).
Definition schedule (fc : FiberOrCb) (thr : Z) : ST Scheduler unit :=
  let* need_tickle := scheduleNoLock fc thr in
  if need_tickle then tickle else ret tt.
(** The batch version: [need_tickle = scheduleNoLock(&( *begin), -1) || need_tickle];
    the result is [need_tickle] and the range as it is left. *)
Fixpoint schedule_loop (l : list FiberOrCb) (need_tickle : bool) : ST Scheduler (bool * list FiberOrCb) :=
  match l with
  | [] => ret (need_tickle, [])
  | fc :: l =>
      let* b := scheduleNoLock fc (-1) in
      let* r := schedule_loop l (b || need_tickle) in
      ret (r.1, swapped fc :: r.2)
  end.
Definition schedule_all (l : list FiberOrCb) : ST Scheduler (list FiberOrCb) :=
  let* r := schedule_loop l false in
  (if r.1 then tickle else ret tt) ;;;
  ret r.2.

Definition stopping (s : Scheduler) : bool :=
  m_autostop s && m_stopping s && bool_decide (m_fibers s = []) && (m_activeThreadCount s =? 0).

(** ** A turn of [run] on worker [i] *)
Definition active_add (d : Z) : ST Scheduler unit := modify (λ s, set_active (u64 (m_activeThreadCount s + d)) s).
Definition idle_add (d : Z) : ST Scheduler unit := modify (λ s, set_idle (u64 (m_idleThreadCount s + d)) s).

(** The scan of the queue by thread [id]: the task taken, the queue without it
    and [tickle_me]; [None] where the assertion on an entry fails. *)
Fixpoint pick_loop (st : Z → State) (id : Z) (q : list FiberAndThread) : option (option FiberAndThread * list FiberAndThread * bool) :=
  match q with
  | [] => Some (None, [], false)
  | ft :: q =>
      if negb (thread ft =? -1) && negb (thread ft =? id) then
        match pick_loop st id q with
        | Some (r, q, _) => Some (r, ft :: q, true)
        | None => None
        end
      else if negb (valid_task ft) then None
      else if match fiber ft with Some f => is_state (st f) [EXEC] | None => false end then
        match pick_loop st id q with
        | Some (r, q, t) => Some (r, ft :: q, t)
        | None => None
        end
      else Some (Some ft, q, false)
  end.

Definition get_worker (i : nat) : ST Scheduler worker :=
  let* l := gets workers in match l !! i with Some w => ret w | None => crash OutOfBounds end.
Definition set_at (i : nat) (p : pc) : ST Scheduler unit :=
  modify (λ s, set_workers (alter (λ w, mkWorker (tid w) p (cb_fiber w) (idle_fiber w)) i (workers s)) s).
Definition set_cb_fiber (i : nat) (v : option Z) : ST Scheduler unit :=
  modify (λ s, set_workers (alter (λ w, mkWorker (tid w) (at_ w) v (idle_fiber w)) i (workers s)) s).

Definition pick (i : nat) : ST Scheduler unit :=
  let* w := get_worker i in
  let* s := gets id in
  match pick_loop (getState s) (tid w) (m_fibers s) with
  | None => crash AssertFailed
  | Some (r, q, tickle_me) =>
      modify (set_fibers q) ;;;
      (match r with Some _ => active_add 1 | None => ret tt end) ;;;
      (if tickle_me then tickle else ret tt) ;;;
      set_at i (Picked (default FT_reset r) (bool_decide (is_Some r)))
  end.

(** [else if(ft.cb)]: the thread's fiber for callbacks is reused or made. *)
Definition enter_cb (i : nat) (w : worker) : ST Scheduler unit :=
  let* g :=
    (match cb_fiber w with
     | Some g => Fiber_reset g ;;; ret g
     | None => let* g := Fiber_new in set_cb_fiber i (Some g) ;;; ret g
     end) in
  swapIn g ;;;
  set_at i (In KCb g).

(** [else]: nothing to run. *)
Definition enter_idle (i : nat) (w : worker) (is_active : bool) : ST Scheduler unit :=
  (if is_active then active_add (-1) else ret tt) ;;;
  let* st := gets (λ s, getState s (idle_fiber w)) in
  if bool_decide (st = TERM) then tickle ;;; set_at i Done
  else
    idle_add 1 ;;;
    swapIn (idle_fiber w) ;;;
    set_at i (In KIdle (idle_fiber w)).

(** From the task taken to the switch into a fiber. *)
Definition enter (i : nat) : ST Scheduler unit :=
  let* w := get_worker i in
  let* s := gets id in
  match at_ w with
  | Picked ft is_active =>
      match fiber ft with
      | Some f =>
          if negb (is_state (getState s f) [TERM; EXCEPT]) then swapIn f ;;; set_at i (In KFiber f)
          else match cb ft with Some _ => enter_cb i w | None => enter_idle i w is_active end
      | None => match cb ft with Some _ => enter_cb i w | None => enter_idle i w is_active end
      end
  | _ => ret tt
  end.

(** The fiber that runs sets its state ([YieldToReady], [YieldToHold], the end of
    [MainFunc]) and switches back ([swapOut]). *)
Definition fiber_sets (i : nat) (st : State) : ST Scheduler unit :=
  let* w := get_worker i in
  match at_ w with In _ f => setState f st | _ => ret tt end.
Definition swapOut (i : nat) : ST Scheduler unit :=
  let* w := get_worker i in
  match at_ w with In k f => set_at i (Back k f) | _ => ret tt end.

(** Behind [swapIn], step by step. *)
Definition back (i : nat) : ST Scheduler unit :=
  let* w := get_worker i in
  match at_ w with
  | Back KIdle f => idle_add (-1) ;;; set_at i (Judges KIdle f)
  | Back k f => active_add (-1) ;;; set_at i (Asks k f)
  | Asks k f =>
      let* st := gets (λ s, getState s f) in
      set_at i (if bool_decide (st = READY) then Acts k f Ready else Judges k f)
  | Judges k f =>
      let* st := gets (λ s, getState s f) in
      set_at i (Acts k f (if is_state st [TERM; EXCEPT] then Ended else Left))
  | Acts KFiber f v =>
      (match v with Ready => schedule (AFiber (Some f)) (-1) | Ended => ret tt | Left => setState f HOLD end) ;;;
      set_at i Top
  | Acts KCb g v =>
      (match v with
       | Ready => schedule (AFiber (Some g)) (-1) ;;; set_cb_fiber i None
       | Ended => Fiber_reset g
       | Left => setState g HOLD ;;; set_cb_fiber i None
       end) ;;;
      set_at i Top
  | Acts KIdle f v => (match v with Left => setState f HOLD | _ => ret tt end) ;;; set_at i Top
  | _ => ret tt
  end.

(** ** Starting and stopping *)
(** The constructor; [caller]: the number of the calling thread, with [use_caller];
    [has_scheduler]: whether that thread has a scheduler already. *)
Definition Scheduler_new (thread_num : Z) (caller : option Z) (has_scheduler : bool) : ST unit Scheduler :=
  if negb (0 <? thread_num) then crash AssertFailed
  else
    match caller with
    | Some t => if has_scheduler then crash AssertFailed
                else ret (mkScheduler [] 0 0 true false 0 0 ∅ 0 [] (thread_num - 1) (Some INIT) t)
    | None => ret (mkScheduler [] 0 0 true false 0 0 ∅ 0 [] thread_num None (-1))
    end.
(** The destructor *)
Definition destroy : ST Scheduler unit := let* b := gets m_stopping in assert b.

(** [start]: a thread per number in [tids] (they come from the system), each with
    its idle fiber. *)
Definition new_workers (first : Z) (tids : list Z) : list worker :=
  imap (λ i t, mkWorker t Top None (first + Z.of_nat i)) tids.
Definition start (tids : list Z) : ST Scheduler unit :=
  let* s := gets id in
  if negb (m_stopping s) then ret tt
  else
    modify (set_stopping false) ;;;
    assert (forallb (λ w, tid w =? m_rootThreadId s) (workers s)) ;;;
    modify (set_next (next_fiber s + zlen tids)) ;;;
    modify (set_workers (workers s ++ new_workers (next_fiber s) tids)).

Fixpoint tickles_loop (n : nat) : ST Scheduler unit :=
  match n with O => ret tt | S n => tickle ;;; tickles_loop n end.
(** [m_rootFiber->call()]: the calling thread enters [run] with an idle fiber of its
    own.  A root that runs or has ended has no context to enter. *)
Definition call_root : ST Scheduler unit :=
  let* s := gets id in
  match m_rootFiber s with
  | None => ret tt
  | Some st =>
      if stopping s then ret tt
      else
        assert (bool_decide (st = INIT)) ;;;
        modify (set_root (Some EXEC)) ;;;
        modify (set_next (next_fiber s + 1)) ;;;
        modify (set_workers (workers s ++ [mkWorker (m_rootThreadId s) Top None (next_fiber s)]))
  end.
(** [stop], up to the joins; [here]: whether the scheduler is the calling thread's. *)
Definition stop (here : bool) : ST Scheduler unit :=
  modify (set_autostop true) ;;;
  let* s := gets id in
  let quick := match m_rootFiber s with Some st => (m_threadCount s =? 0) && is_state st [TERM; INIT] | None => false end in
  (if quick then modify (set_stopping true) else ret tt) ;;;
  let* s := gets id in
  if quick && stopping s then ret tt
  else
    assert (Bool.eqb (negb (m_rootThreadId s =? -1)) here) ;;;
    modify (set_stopping true) ;;;
    tickles_loop (Z.to_nat (m_threadCount s)) ;;;
    (match m_rootFiber s with Some _ => tickle | None => ret tt end) ;;;
    call_root.
(** ... and when every thread, and the root, has returned from [run]. *)
Definition join : ST Scheduler unit :=
  modify (λ s, set_root (match m_rootFiber s with Some EXEC => Some TERM | r => r end) (set_workers [] s)).

(** ** Interleavings *)
Inductive label :=
  | LStart (tids : list Z)
  | LSchedule (fc : FiberOrCb) (thr : Z)
  | LScheduleAll (l : list FiberOrCb)
  | LPick (i : nat)
  | LEnter (i : nat)
  | LSet (i : nat) (st : State)
  | LOut (i : nat)
  | LBack (i : nat)
  | LStop (here : bool)
  | LJoin.

Definition is_done (w : worker) : bool := match at_ w with Done => true | _ => false end.
Definition at_worker (s : Scheduler) (i : nat) (P : pc → bool) : bool :=
  match workers s !! i with Some w => P (at_ w) | None => false end.
Definition enabled (l : label) (s : Scheduler) : bool :=
  match l with
  | LStart tids => (zlen tids =? m_threadCount s) && (zlen (workers s) + zlen tids <? 2 ^ 64)
  | LStop _ => zlen (workers s) + 1 <? 2 ^ 64
  | LSchedule _ _ | LScheduleAll _ => true
  | LPick i => at_worker s i (λ p, match p with Top => true | _ => false end)
  | LEnter i => at_worker s i (λ p, match p with Picked _ _ => true | _ => false end)
  | LSet i _ | LOut i => at_worker s i (λ p, match p with In _ _ => true | _ => false end)
  | LBack i => at_worker s i (λ p, match p with Back _ _ | Asks _ _ | Judges _ _ | Acts _ _ _ => true | _ => false end)
  | LJoin => m_stopping s && forallb is_done (workers s)
  end.
Definition exec (l : label) : ST Scheduler unit :=
  match l with
  | LStart tids => start tids
  | LSchedule fc thr => schedule fc thr
  | LScheduleAll l => let* _ := schedule_all l in ret tt
  | LPick i => pick i
  | LEnter i => enter i
  | LSet i st => fiber_sets i st
  | LOut i => swapOut i
  | LBack i => back i
  | LStop here => stop here
  | LJoin => join
  end.

Fixpoint run_labels (ls : list label) : ST Scheduler unit :=
  match ls with
  | [] => ret tt
  | l :: ls => λ s, if enabled l s then (exec l ;;; run_labels ls) s else Ret tt s
  end.
