(* ===== verification/SchedulerTheorems.v ===== *)
(** * SchedulerTheorems: what the queue and the workers' loop promise *)
From S2P Require Import Prelude Scheduler.

(** ** Taking a task *)
Definition other_thread (id : Z) (ft : FiberAndThread) : bool := negb (thread ft =? -1) && negb (thread ft =? id).
Definition eligible (st : Z → State) (id : Z) (ft : FiberAndThread) : bool :=
  negb (other_thread id ft) && negb (match fiber ft with Some f => is_state (st f) [EXEC] | None => false end).

(** What the scan does: the first eligible task of the queue. *)
Definition picked (st : Z → State) (id : Z) (q : list FiberAndThread) (r : option FiberAndThread) (q' : list FiberAndThread) (t : bool) : Prop :=
  match r with
  | Some ft => ∃ pre post, q = pre ++ ft :: post ∧ q' = pre ++ post ∧ eligible st id ft = true
      ∧ Forall (λ x, eligible st id x = false) pre ∧ t = existsb (other_thread id) pre
  | None => q' = q ∧ Forall (λ x, eligible st id x = false) q ∧ t = existsb (other_thread id) q
  end.

Lemma picked_cons st id ft q r q' t : eligible st id ft = false → picked st id q r q' t →
  picked st id (ft :: q) r (ft :: q') (other_thread id ft || t).
Proof.
  intros He. destruct r as [x|]; simpl.
  - intros (pre & post & -> & -> & Hx & Hpre & ->). exists (ft :: pre), post. split_and!; try done. by constructor.
  - intros (-> & Hq & ->). split_and!; try done. by constructor.
Qed.

Lemma pick_scan st id q : Forall (λ ft, valid_task ft = true) q →
  ∃ r q' t, pick_loop st id q = Some (r, q', t) ∧ picked st id q r q' t.
Proof.
  induction 1 as [|ft q Hv Hq IH]; [by exists None, [], false|].
  destruct IH as (r & q' & t & E & Hp). cbn [pick_loop]. fold (other_thread id ft).
  destruct (other_thread id ft) eqn:Ho.
  - rewrite E. exists r, (ft :: q'), true. split; [done|].
    pose proof (picked_cons st id ft q r q' t) as H. rewrite Ho in H. apply H; [|done]. unfold eligible. by rewrite Ho.
  - rewrite Hv. cbn [negb]. destruct (match fiber ft with Some f => is_state (st f) [EXEC] | None => false end) eqn:Hx.
    + rewrite E. exists r, (ft :: q'), t. split; [done|].
      pose proof (picked_cons st id ft q r q' t) as H. rewrite Ho in H. apply H; [|done]. unfold eligible. by rewrite Ho, Hx.
    + exists (Some ft), q, false. split; [done|]. exists [], q. split_and!; try done. unfold eligible. by rewrite Ho, Hx.
Qed.

(** The scan of the queue takes the first task that this thread may run and
    whose fiber does not run elsewhere, leaves the order of the others, asks for
    a tickle exactly when it passed a task of another thread, and never fails
    its assertion on a queue of valid tasks. *)
Theorem pick_takes_first st id q : Forall (λ ft, valid_task ft = true) q →
  ∃ r q' t, pick_loop st id q = Some (r, q', t) ∧ picked st id q r q' t.
Proof. exact (pick_scan st id q). Qed.

Lemma pick_takes_first_witness :
  let q := [mkFT (Some 3) None 9; mkFT (Some 4) None (-1); mkFT None (Some 5) (-1)] in
  let st := λ f, if f =? 4 then EXEC else HOLD in
  ∃ r q' t, pick_loop st 1 q = Some (r, q', t) ∧ picked st 1 q r q' t.
Proof. apply pick_takes_first. repeat constructor. Defined.

(** ** Counting workers *)
Fixpoint count (P : worker → bool) (l : list worker) : Z :=
  match l with [] => 0 | w :: l => (if P w then 1 else 0) + count P l end.
Lemma count_alter P f i l w : l !! i = Some w →
  count P (alter f i l) = count P l + ((if P (f w) then 1 else 0) - (if P w then 1 else 0)).
Proof.
  revert i. induction l as [|x l IH]; intros [|i]; simpl; try done.
  - intros [= ->]. cbn. lia.
  - intros Hi. specialize (IH i Hi). cbn [count]. unfold alter in IH. lia.
Qed.
Lemma count_bounds P l : 0 ≤ count P l ≤ zlen l.
Proof. induction l as [|w l IH]; [done|]. rewrite zlen_cons. simpl. destruct (P w); lia. Qed.
Lemma count_0 P l : count P l = 0 → Forall (λ w, P w = false) l.
Proof.
  induction l as [|w l IH]; simpl; [by constructor|]. pose proof (count_bounds P l).
  destruct (P w) eqn:E; intros; [lia|]. constructor; [done|]. apply IH. lia.
Qed.

(** A worker that holds a task, one that has come back from it and not yet done what
    follows, one that the counter counts, and one in its idle fiber. *)
Definition has_task (w : worker) : bool :=
  match at_ w with
  | Picked _ b => b
  | In KIdle _ | Back KIdle _ | Asks KIdle _ | Judges KIdle _ | Acts KIdle _ _ | Top | Done => false
  | In _ _ | Back _ _ | Asks _ _ | Judges _ _ | Acts _ _ _ => true
  end.
Definition settles (w : worker) : bool := match at_ w with Asks _ _ | Judges _ _ | Acts _ _ _ => true | _ => false end.
Definition busy (w : worker) : bool := has_task w && negb (settles w).
Definition idling (w : worker) : bool := match at_ w with In KIdle _ | Back KIdle _ => true | _ => false end.

(** The task a worker holds is valid and may run on it. *)
Definition worker_ok (w : worker) : Prop :=
  match at_ w with
  | Picked ft true => valid_task ft = true ∧ (thread ft = -1 ∨ thread ft = tid w)
  | Picked ft false => ft = FT_reset
  | _ => True
  end.

(** One step of one thread. *)
Definition step (s : Scheduler) (l : label) (s' : Scheduler) : Prop := enabled l s = true ∧ exec l s = Ret tt s'.
Inductive steps : Scheduler → list label → Scheduler → Prop :=
  | steps_nil s : steps s [] s
  | steps_cons s l s1 ls s2 : step s l s1 → steps s1 ls s2 → steps s (l :: ls) s2.

(** What an operation leaves alone. *)
Record same_threads (s s' : Scheduler) : Prop := {
  same_active : m_activeThreadCount s' = m_activeThreadCount s;
  same_idle : m_idleThreadCount s' = m_idleThreadCount s;
  same_workers : workers s' = workers s
}.
Lemma same_refl s : same_threads s s.
Proof. done. Qed.
Lemma same_trans s1 s2 s3 : same_threads s1 s2 → same_threads s2 s3 → same_threads s1 s3.
Proof. intros [] []. constructor; congruence. Qed.

(** *** Scheduling *)
Definition kept_tasks (l : list FiberAndThread) : list FiberAndThread := List.filter valid_task l.
Lemma kept_valid l : Forall (λ ft, valid_task ft = true) (kept_tasks l).
Proof. apply Forall_forall. intros ft H%list_elem_of_In%filter_In. apply H. Qed.

Lemma scheduleNoLock_spec fc thr s : ∃ s', scheduleNoLock fc thr s = Ret (bool_decide (m_fibers s = [])) s'
  ∧ m_fibers s' = m_fibers s ++ kept_tasks [FT_new fc thr] ∧ same_threads s s'.
Proof.
  unfold scheduleNoLock. rewrite bind_gets. unfold kept_tasks; simpl. destruct (valid_task _); [rewrite bind_modify|rewrite bind_ret];
    (eexists; split; [done|]; split; [|done]); [done|by rewrite app_nil_r].
Qed.

Lemma schedule_spec fc thr s : ∃ s', schedule fc thr s = Ret tt s'
  ∧ m_fibers s' = m_fibers s ++ kept_tasks [FT_new fc thr] ∧ same_threads s s'.
Proof.
  unfold schedule. destruct (scheduleNoLock_spec fc thr s) as (s1 & E & Hq & Hs). rewrite (bind_Ret _ _ _ _ _ E).
  destruct (bool_decide _); [|by exists s1]. eexists. split; [done|]. split; [done|]. by eapply same_trans.
Qed.

Lemma schedule_loop_spec l b s : ∃ c s', schedule_loop l b s = Ret (c, swapped <$> l) s'
  ∧ m_fibers s' = m_fibers s ++ kept_tasks ((λ fc, FT_new fc (-1)) <$> l) ∧ same_threads s s'.
Proof.
  revert b s. induction l as [|fc l IH]; intros b s0; simpl; [exists b, s0; split_and!; try done; by rewrite app_nil_r|].
  destruct (scheduleNoLock_spec fc (-1) s0) as (s1 & E & Hq & Hs). rewrite (bind_Ret _ _ _ _ _ E).
  destruct (IH (bool_decide (m_fibers s0 = []) || b) s1) as (c & s2 & E2 & Hq2 & Hs2).
  rewrite (bind_Ret _ _ _ _ _ E2). exists c, s2. split; [done|].
  split; [|by eapply same_trans]. rewrite Hq2, Hq, <- app_assoc. f_equal. unfold kept_tasks; simpl. by destruct (valid_task _).
Qed.

Lemma schedule_all_spec l s : ∃ s', schedule_all l s = Ret (swapped <$> l) s'
  ∧ m_fibers s' = m_fibers s ++ kept_tasks ((λ fc, FT_new fc (-1)) <$> l) ∧ same_threads s s'.
Proof.
  unfold schedule_all. destruct (schedule_loop_spec l false s) as (c & s1 & E & Hq & Hs). rewrite (bind_Ret _ _ _ _ _ E).
  destruct c; [|by exists s1]. eexists. split; [done|]. split; [done|]. by eapply same_trans.
Qed.

(** ** The invariant, operation by operation
    Between the change of a counter and the move of the worker that explains it
    the counters are off by a debt: [owes da di] says by how much. *)
Record owes (da di : Z) (s : Scheduler) : Prop := {
  owes_active : m_activeThreadCount s = u64 (count busy (workers s) + da);
  owes_idle : m_idleThreadCount s = u64 (count idling (workers s) + di);
  owes_queue : Forall (λ ft, valid_task ft = true) (m_fibers s);
  owes_workers : Forall worker_ok (workers s);
  owes_many : zlen (workers s) < 2 ^ 64
}.
Definition b2z (b : bool) : Z := if b then 1 else 0.
(** Worker [i] is thread [t] at [p]. *)
Definition stands (i : nat) (t : Z) (p : pc) (s : Scheduler) : Prop := ∃ w, workers s !! i = Some w ∧ tid w = t ∧ at_ w = p.
Definition busy_at (p : pc) : bool := busy (mkWorker 0 p None 0).
Definition idling_at (p : pc) : bool := idling (mkWorker 0 p None 0).
Definition ok_at (t : Z) (p : pc) : Prop := worker_ok (mkWorker t p None 0).

(** What holds when an operation returns. *)
Definition triple {A} (P : Scheduler → Prop) (m : ST Scheduler A) (Q : A → Scheduler → Prop) : Prop :=
  ∀ s a s', P s → m s = Ret a s' → Q a s'.

Lemma triple_bind {A B} P (m : ST Scheduler A) R (k : A → ST Scheduler B) Q :
  triple P m R → (∀ a, triple (R a) (k a) Q) → triple P (bind m k) Q.
Proof. intros Hm Hk s b s' HP E. unfold bind in E. destruct (m s) as [a s1| |] eqn:Em; try done. eapply Hk, E. by eapply Hm. Qed.
Lemma triple_seq {A B} P (m : ST Scheduler A) R (k : ST Scheduler B) Q :
  triple P m (λ _, R) → triple R k Q → triple P (bind m (λ _, k)) Q.
Proof. intros Hm Hk. by eapply triple_bind. Qed.
Lemma triple_gets {A B} P (f : Scheduler → A) (k : A → ST Scheduler B) Q :
  (∀ a, triple (λ s, P s ∧ f s = a) (k a) Q) → triple P (bind (gets f) k) Q.
Proof. intros H s b s' HP E. rewrite bind_gets in E. by eapply H, E. Qed.
Lemma triple_forget {A} P (X : Scheduler → Prop) (m : ST Scheduler A) Q : triple P m Q → triple (λ s, P s ∧ X s) m Q.
Proof. intros H s a s' [HP _]. by apply H. Qed.
Lemma triple_ret {A} (a : A) P : triple P (ret a) (λ _, P).
Proof. by intros s x s' HP [= -> ->]. Qed.
Lemma triple_crash {A} P f Q : triple P (crash f : ST Scheduler A) Q.
Proof. by intros s a s' _ E. Qed.

Lemma triple_use {A} P (m : ST Scheduler A) (Q : Scheduler → Prop) s a s' : triple P m (λ _, Q) → P s → m s = Ret a s' → Q s'.
Proof. intros H HP E. by eapply H. Qed.

(** Operations that leave threads, counters and queue alone keep every assertion here. *)
Definition at_rest (da di : Z) (i : nat) (t : Z) (p : pc) (s : Scheduler) : Prop := owes da di s ∧ stands i t p s.
Lemma at_rest_same da di i t p s s' : same_threads s s' → Forall (λ ft, valid_task ft = true) (m_fibers s') →
  at_rest da di i t p s → at_rest da di i t p s'.
Proof.
  intros [Ha Hi Hw] Hq [[] (w & Hl & Ht & Hp)]. split.
  - constructor; [by rewrite Ha, Hw|by rewrite Hi, Hw|done|by rewrite Hw..].
  - exists w. by rewrite Hw.
Qed.

Section primitives.
Context (da di : Z) (i : nat) (t : Z) (p : pc).
Abbreviation R := (at_rest da di i t p).

Lemma keep_modify f : (∀ s, same_threads s (f s) ∧ m_fibers (f s) = m_fibers s) → triple R (modify f) (λ _, R).
Proof using. intros H s a s' HR [= <- <-]. destruct (H s) as [Hs Hq]. eapply at_rest_same; [done| |done]. rewrite Hq. apply HR. Qed.
Lemma keep_setState f st : triple R (setState f st) (λ _, R).
Proof using. by apply keep_modify. Qed.
Lemma keep_tickle : triple R tickle (λ _, R).
Proof using. by apply keep_modify. Qed.
Lemma keep_assert b : triple R (assert b) (λ _, R).
Proof using. destruct b; [apply triple_ret|apply triple_crash]. Qed.
Lemma keep_Fiber_reset g : triple R (Fiber_reset g) (λ _, R).
Proof using. apply triple_gets. intros st. apply triple_forget. eapply triple_seq; [apply keep_assert|apply keep_setState]. Qed.
Lemma keep_swapIn g : triple R (swapIn g) (λ _, R).
Proof using. apply triple_gets. intros st. apply triple_forget. eapply triple_seq; [apply keep_assert|apply keep_setState]. Qed.
Lemma keep_Fiber_new : triple R Fiber_new (λ _, R).
Proof using.
  apply triple_gets. intros g. apply triple_forget.
  eapply triple_seq; [by apply keep_modify|]. eapply triple_seq; [apply keep_setState|apply triple_ret].
Qed.
Lemma keep_schedule fc thr : triple R (schedule fc thr) (λ _, R).
Proof using.
  intros s x s' HR E. destruct (schedule_spec fc thr s) as (s1 & E1 & Hq & Hs). rewrite E in E1. injection E1 as -> ->.
  eapply at_rest_same; [done| |done]. rewrite Hq. apply Forall_app. split; [apply HR|]. apply kept_valid.
Qed.

Lemma owe_active d : triple R (active_add d) (λ _, at_rest (da + d) di i t p).
Proof using.
  intros s x s' [[Ha Hi Hq Hw Hn] Hst] [= <- <-]. split; [|done]. constructor; [|done..].
  cbn [m_activeThreadCount set_active workers]. rewrite Ha. unfold uwrap. rewrite Zplus_mod_idemp_l. f_equal. lia.
Qed.
Lemma owe_idle d : triple R (idle_add d) (λ _, at_rest da (di + d) i t p).
Proof using.
  intros s x s' [[Ha Hi Hq Hw Hn] Hst] [= <- <-]. split; [|done]. constructor; [done| |done..].
  cbn [m_idleThreadCount set_idle workers]. rewrite Hi. unfold uwrap. rewrite Zplus_mod_idemp_l. f_equal. lia.
Qed.

Lemma at_rest_alter f s p' : R s → (∀ w, workers s !! i = Some w → tid (f w) = tid w ∧ worker_ok (f w) ∧ at_ (f w) = p') →
  at_rest (da - (b2z (busy_at p') - b2z (busy_at p))) (di - (b2z (idling_at p') - b2z (idling_at p))) i t p'
    (set_workers (alter f i (workers s)) s).
Proof using.
  intros [[Ha Hi Hq Hw Hn] (w & Hl & Ht & Hp)] Hf. destruct (Hf w Hl) as (Htid & Hok & Hp').
  assert (∀ w', busy w' = busy_at (at_ w')) as Hb by done. assert (∀ w', idling w' = idling_at (at_ w')) as Hd by done.
  split; [constructor|]; cbn [m_activeThreadCount m_idleThreadCount m_fibers workers set_workers].
  - rewrite Ha, (count_alter _ _ _ _ w Hl), !Hb, Hp', Hp. f_equal. unfold b2z. lia.
  - rewrite Hi, (count_alter _ _ _ _ w Hl), !Hd, Hp', Hp. f_equal. unfold b2z. lia.
  - done.
  - apply Forall_lookup. intros j x Hx. destruct (decide (j = i)) as [->|Hj].
    + rewrite list_lookup_alter_eq, Hl in Hx. by injection Hx as <-.
    + rewrite list_lookup_alter_ne in Hx by done. by eapply Forall_lookup_1.
  - unfold zlen. by rewrite length_alter.
  - exists (f w). cbn [workers set_workers]. rewrite list_lookup_alter_eq, Hl. split_and!; [done|congruence|done].
Qed.
Lemma move_set_at p' : ok_at t p' → triple R (set_at i p')
  (λ _, at_rest (da - (b2z (busy_at p') - b2z (busy_at p))) (di - (b2z (idling_at p') - b2z (idling_at p))) i t p').
Proof using.
  intros Hok s x s' HR [= <- <-]. apply at_rest_alter; [done|]. intros w Hl. split_and!; [done| |done].
  destruct HR as [_ (w' & Hl' & Ht & _)]. rewrite Hl in Hl'. injection Hl' as <-. unfold ok_at in Hok. rewrite <- Ht in Hok. exact Hok.
Qed.
Lemma keep_cb_fiber v : triple R (set_cb_fiber i v) (λ _, R).
Proof using.
  intros s x s' HR [= <- <-]. replace R with (at_rest (da - (b2z (busy_at p) - b2z (busy_at p))) (di - (b2z (idling_at p) - b2z (idling_at p))) i t p)
    by (f_equal; lia).
  apply at_rest_alter; [done|]. intros w Hl. destruct HR as [HR (w' & Hl' & Ht & Hp)]. rewrite Hl in Hl'. injection Hl' as <-.
  split_and!; [done| |done]. exact (Forall_lookup_1 _ _ _ _ (owes_workers _ _ _ HR) Hl).
Qed.
End primitives.

(** The invariant: no debt. *)
Definition inv : Scheduler → Prop := owes 0 0.
Lemma settled da di i t p s : at_rest da di i t p s → da = 0 → di = 0 → inv s.
Proof. by intros [H _] -> ->. Qed.

(** A step that ends with a move of the worker, once the debts are paid. *)
Lemma triple_settles da di i t p p' : ok_at t p' → da = b2z (busy_at p') - b2z (busy_at p) → di = b2z (idling_at p') - b2z (idling_at p) →
  triple (at_rest da di i t p) (set_at i p') (λ _, inv).
Proof. intros Hok -> -> s a s' HR E. eapply settled; [by eapply move_set_at|lia|lia]. Qed.

Lemma picked_ok st id q r q' t : picked st id q r q' t → Forall (λ ft, valid_task ft = true) q →
  Forall (λ ft, valid_task ft = true) q' ∧ ok_at id (Picked (default FT_reset r) (bool_decide (is_Some r))).
Proof.
  destruct r as [ft|]; simpl.
  - intros (pre & post & -> & -> & He & _) [Hpre [Hft Hpost]%Forall_cons]%Forall_app. split; [by apply Forall_app|].
    split; [done|]. unfold eligible, other_thread in He. simpl.
    destruct (thread ft =? -1) eqn:E1; [left; lia|]. destruct (thread ft =? id) eqn:E2; [right; lia|done].
  - by intros (-> & _).
Qed.

Lemma pick_inv i t : triple (at_rest 0 0 i t Top) (pick i) (λ _, inv).
Proof.
  intros s a s' HR E. pose proof HR as [Ho (w & Hl & Ht & Hp)]. unfold pick, get_worker in E.
  rewrite bind_assoc, bind_gets, Hl, bind_ret, bind_gets in E. unfold id in E. rewrite Ht in E.
  destruct (pick_scan (getState s) t (m_fibers s) (owes_queue _ _ _ Ho)) as (r & q' & tk & Ep & Hpk). rewrite Ep in E.
  destruct (picked_ok _ _ _ _ _ _ Hpk (owes_queue _ _ _ Ho)) as [Hq' Hok]. rewrite bind_modify in E.
  assert (at_rest 0 0 i t Top (set_fibers q' s)) as HR1.
  { by apply (at_rest_same _ _ _ _ _ s). }
  eapply (triple_use _ _ inv); [|exact HR1|exact E].
  destruct r as [ft|]; (eapply triple_seq; [first [apply owe_active|apply triple_ret]|]);
    (eapply triple_seq; [destruct tk; [apply keep_tickle|apply triple_ret]|]); by apply triple_settles.
Qed.

Section entering.
Context (i : nat) (t : Z) (ft : FiberAndThread) (b : bool).
Abbreviation R := (at_rest 0 0 i t (Picked ft b)).

Lemma enter_cb_inv w : b = true → triple R (enter_cb i w) (λ _, inv).
Proof using.
  intros ->. unfold enter_cb. eapply triple_bind.
  - instantiate (1 := λ _, at_rest 0 0 i t (Picked ft true)). destruct (cb_fiber w) as [g|].
    + eapply triple_seq; [apply keep_Fiber_reset|apply triple_ret].
    + eapply triple_bind; [apply keep_Fiber_new|]. intros g. eapply triple_seq; [apply keep_cb_fiber|apply triple_ret].
  - intros g. eapply triple_seq; [apply keep_swapIn|]. by apply triple_settles.
Qed.
Lemma enter_idle_inv w : triple R (enter_idle i w b) (λ _, inv).
Proof using.
  unfold enter_idle. eapply triple_seq.
  - instantiate (1 := at_rest (- b2z b) 0 i t (Picked ft b)). destruct b; [apply owe_active|apply triple_ret].
  - apply triple_gets. intros st. apply triple_forget. destruct (bool_decide _).
    + eapply triple_seq; [apply keep_tickle|]. destruct b; by apply triple_settles.
    + eapply triple_seq; [apply owe_idle|]. eapply triple_seq; [apply keep_swapIn|]. destruct b; by apply triple_settles.
Qed.
End entering.

Lemma enter_inv i t ft b : triple (at_rest 0 0 i t (Picked ft b)) (enter i) (λ _, inv).
Proof.
  intros s a s' HR E. pose proof HR as [Ho (w & Hl & Ht & Hp)]. unfold enter, get_worker in E.
  rewrite bind_assoc, bind_gets, Hl, bind_ret, bind_gets, Hp in E.
  assert (Forall worker_ok (workers s)) as Hok by apply Ho. rewrite Forall_lookup in Hok. specialize (Hok _ _ Hl).
  unfold worker_ok in Hok. rewrite Hp in Hok.
  assert (b = false → ft = FT_reset) as Hb by (intros ->; exact Hok).
  destruct (fiber ft) as [f|] eqn:Ef.
  - assert (b = true) as -> by (destruct b; [done|by rewrite Hb in Ef]).
    destruct (negb _).
    + eapply (triple_use _ _ inv); [|exact HR|exact E]. eapply triple_seq; [apply keep_swapIn|]. by apply triple_settles.
    + destruct (cb ft); [by eapply enter_cb_inv|by eapply enter_idle_inv].
  - destruct (cb ft) eqn:Ec; [|by eapply enter_idle_inv]. eapply enter_cb_inv; [|done|done]. destruct b; [done|by rewrite Hb in Ec].
Qed.

Definition behind (p : pc) : bool := match p with Back _ _ | Asks _ _ | Judges _ _ | Acts _ _ _ => true | _ => false end.
Lemma back_inv i t p : behind p = true → triple (at_rest 0 0 i t p) (back i) (λ _, inv).
Proof.
  intros Hb s a s' HR E. pose proof HR as [Ho (w & Hl & Ht & Hp)]. unfold back, get_worker in E.
  rewrite bind_assoc, bind_gets, Hl, bind_ret, Hp in E. clear Ho w Hl Ht Hp. eapply (triple_use _ _ inv); [|exact HR|exact E]. clear -Hb.
  destruct p as [| | |k f|k f|k f|k f v|]; try done; clear Hb.
  - destruct k; (eapply triple_seq; [first [apply owe_active|apply owe_idle]|]); by apply triple_settles.
  - apply triple_gets. intros st. apply triple_forget. destruct k; case_bool_decide; by apply triple_settles.
  - apply triple_gets. intros st. apply triple_forget. destruct k; by apply triple_settles.
  - assert (triple (at_rest 0 0 i t (Acts k f v)) (set_at i Top) (λ _, inv)) as Htop by (destruct k; by apply triple_settles).
    destruct k, v; (eapply triple_seq; [|exact Htop]);
      first [apply keep_schedule | apply keep_setState | apply keep_Fiber_reset | apply triple_ret
            | eapply triple_seq; [first [apply keep_schedule|apply keep_setState]|apply keep_cb_fiber]].
Qed.

Lemma set_inv i t k f st : triple (at_rest 0 0 i t (In k f)) (fiber_sets i st) (λ _, inv).
Proof.
  intros s a s' HR E. pose proof HR as [Ho (w & Hl & Ht & Hp)]. unfold fiber_sets, get_worker in E.
  rewrite bind_assoc, bind_gets, Hl, bind_ret, Hp in E. eapply keep_setState in E; [|exact HR]. apply E.
Qed.
Lemma out_inv i t k f : triple (at_rest 0 0 i t (In k f)) (swapOut i) (λ _, inv).
Proof.
  intros s a s' HR E. pose proof HR as [Ho (w & Hl & Ht & Hp)]. unfold swapOut, get_worker in E.
  rewrite bind_assoc, bind_gets, Hl, bind_ret, Hp in E. eapply triple_use; [|exact HR|exact E]. by destruct k; apply triple_settles.
Qed.

Lemma inv_queue_grows s s' l : inv s → m_fibers s' = m_fibers s ++ kept_tasks l → same_threads s s' → inv s'.
Proof.
  intros [Ha Hi Hq Hw Hn] Hf [Ea Ei Ew]. constructor; rewrite ?Ea, ?Ei, ?Ew, ?Hf; try done.
  apply Forall_app. split; [done|apply kept_valid].
Qed.

Lemma at_worker_stands s i P : inv s → at_worker s i P = true → ∃ t p, at_rest 0 0 i t p s ∧ P p = true.
Proof.
  intros Hi H. unfold at_worker in H. destruct (workers s !! i) as [w|] eqn:E; [|done].
  exists (tid w), (at_ w). split; [|done]. split; [done|]. by exists w.
Qed.

Lemma count_none P l : Forall (λ w, P w = false) l → count P l = 0.
Proof. induction 1 as [|w l E _ IH]; [done|]. simpl. by rewrite E. Qed.

Lemma sched_inv_new n c h u s : Scheduler_new n c h u = Ret s u → inv s.
Proof. unfold Scheduler_new. repeat case_match; try done; intros [= <-]; by constructor. Qed.

Lemma new_workers_at first tids : Forall (λ w, at_ w = Top) (new_workers first tids).
Proof.
  apply Forall_lookup. intros i w H. unfold new_workers in H. rewrite list_lookup_imap in H.
  destruct (tids !! i); [|done]. by injection H as <-.
Qed.
(** Workers at the top of their loop join. *)
Lemma inv_more_workers s s' l : inv s → Forall (λ w, at_ w = Top) l → zlen (workers s) + zlen l < 2 ^ 64 →
  workers s' = workers s ++ l → m_fibers s' = m_fibers s →
  m_activeThreadCount s' = m_activeThreadCount s → m_idleThreadCount s' = m_idleThreadCount s → inv s'.
Proof.
  intros [Ha Hi Hq Hw Hn] Hl Hlen Ew Ef Ea Ei.
  assert (∀ P, (∀ w, at_ w = Top → P w = false) → count P (workers s ++ l) = count P (workers s)) as Hc.
  { intros P HP. clear -Hl HP. induction (workers s) as [|w ws IH]; cbn; [|by rewrite IH].
    apply count_none. eapply Forall_impl; [exact Hl|]. done. }
  constructor; rewrite ?Ew, ?Ef, ?Ea, ?Ei.
  - rewrite Hc; [done|]. intros w H. unfold busy, has_task. by rewrite H.
  - rewrite Hc; [done|]. intros w H. unfold idling. by rewrite H.
  - done.
  - apply Forall_app. split; [done|]. eapply Forall_impl; [exact Hl|]. intros w H. unfold worker_ok. by rewrite H.
  - by rewrite zlen_app.
Qed.
Lemma start_inv s tids a s' : inv s → zlen (workers s) + zlen tids < 2 ^ 64 → start tids s = Ret a s' → inv s'.
Proof.
  intros Hi Hl. unfold start. rewrite bind_gets. unfold id. destruct (m_stopping s); cbn [negb]; [|by intros [= _ <-]].
  rewrite bind_modify. unfold assert. destruct (forallb _ _); [|done].
  rewrite bind_ret, bind_modify. intros [= _ <-]. apply (inv_more_workers s _ (new_workers (next_fiber s) tids)); try done.
  - apply new_workers_at.
  - unfold zlen, new_workers in *. by rewrite length_imap.
Qed.

Lemma tickles_spec n s : ∃ s', tickles_loop n s = Ret tt s' ∧ m_fibers s' = m_fibers s ∧ same_threads s s'.
Proof.
  revert s. induction n as [|n IH]; intros s; [by exists s|]. simpl. unfold tickle. rewrite bind_modify.
  destruct (IH (tickled s)) as (s' & E & Hq & Hs). exists s'. split; [done|]. split; [done|]. by eapply same_trans; [|exact Hs].
Qed.
(** What is the same but for a root that joins the workers. *)
Definition root_joins (s s' : Scheduler) : Prop :=
  m_fibers s' = m_fibers s ∧ m_activeThreadCount s' = m_activeThreadCount s ∧ m_idleThreadCount s' = m_idleThreadCount s ∧
  ∃ l, workers s' = workers s ++ l ∧ (length l ≤ 1)%nat ∧ Forall (λ w, at_ w = Top) l.
Lemma root_joins_same s s' : m_fibers s' = m_fibers s → same_threads s s' → root_joins s s'.
Proof. intros Hq [Ha Hi Hw]. split_and!; try done. exists []. rewrite app_nil_r. split_and!; [done|cbn; lia|done]. Qed.
Lemma root_joins_before s s1 s' : m_fibers s1 = m_fibers s → same_threads s s1 → root_joins s1 s' → root_joins s s'.
Proof. intros Hq [Ha Hi Hw] (H1 & H2 & H3 & H4). unfold root_joins. by rewrite <- Hq, <- Ha, <- Hi, <- Hw. Qed.
Lemma call_root_spec s a s' : call_root s = Ret a s' → root_joins s s'.
Proof.
  unfold call_root. rewrite bind_gets. unfold id. destruct (m_rootFiber s) as [st|]; [|by intros [= _ <-]; apply root_joins_same].
  destruct (stopping s); [by intros [= _ <-]; apply root_joins_same|]. unfold assert. destruct (bool_decide _); [|done].
  rewrite bind_ret, !bind_modify. intros [= _ <-]. split_and!; try done. eexists. split; [done|]. split; [done|]. by constructor.
Qed.
Lemma stop_spec here s a s' : stop here s = Ret a s' → root_joins s s'.
Proof.
  unfold stop. rewrite bind_modify, bind_gets. unfold id. set (quick := match m_rootFiber _ with Some _ => _ | None => false end).
  set (s1 := if quick then set_stopping true (set_autostop true s) else set_autostop true s).
  assert ((if quick then modify (set_stopping true) else ret tt) (set_autostop true s) = Ret tt s1) as E by (unfold s1; by destruct quick).
  assert (m_fibers s1 = m_fibers s ∧ same_threads s s1) as [Hq1 Hs1] by (unfold s1; by destruct quick).
  rewrite (bind_Ret _ _ _ _ _ E), bind_gets. destruct (quick && stopping s1); [by intros [= _ <-]; apply root_joins_same|].
  unfold assert. destruct (Bool.eqb _ _); [|done]. rewrite bind_ret, bind_modify.
  destruct (tickles_spec (Z.to_nat (m_threadCount s1)) (set_stopping true s1)) as (s2 & E2 & Hq2 & Hs2). rewrite (bind_Ret _ _ _ _ _ E2).
  assert (∃ s3, (match m_rootFiber s1 with Some _ => tickle | None => ret tt end) s2 = Ret tt s3 ∧ m_fibers s3 = m_fibers s2 ∧ same_threads s2 s3)
    as (s3 & E3 & Hq3 & Hs3) by (destruct (m_rootFiber s1); by eexists).
  rewrite (bind_Ret _ _ _ _ _ E3). intros Hc%call_root_spec.
  apply (root_joins_before _ s1); [done|done|]. apply (root_joins_before _ (set_stopping true s1)); [done|done|].
  apply (root_joins_before _ s2); [done|done|]. by apply (root_joins_before _ s3).
Qed.
Lemma stop_inv here s a s' : inv s → zlen (workers s) + 1 < 2 ^ 64 → stop here s = Ret a s' → inv s'.
Proof.
  intros Hi Hn (Hq & Ha & Hd & l & Hw & Hl & Ht)%stop_spec. apply (inv_more_workers s s' l); try done. unfold zlen in *. lia.
Qed.
Lemma join_inv s : inv s → forallb is_done (workers s) = true → inv (set_workers [] s).
Proof.
  intros [Ha Hi Hq Hw Hn] Hd. rewrite forallb_forall in Hd.
  assert (∀ P, (∀ w, at_ w = Done → P w = false) → count P (workers s) = 0) as Hc.
  { intros P HP. apply count_none, Forall_forall. intros w Hin. apply HP. apply list_elem_of_In in Hin.
    specialize (Hd w Hin). unfold is_done in Hd. by destruct (at_ w). }
  constructor; cbn [m_activeThreadCount m_idleThreadCount workers m_fibers set_workers]; try done.
  - rewrite Ha, Hc; [done|]. intros w H. unfold busy, has_task. by rewrite H.
  - rewrite Hi, Hc; [done|]. intros w H. unfold idling. by rewrite H.
Qed.

Lemma sched_step_inv s l s' : inv s → step s l s' → inv s'.
Proof.
  intros Hi [He E]. destruct l as [tids|fc thr|l|i|i|i st|i|i|here|]; cbn [enabled] in He; cbn [exec] in E.
  - apply andb_true_iff in He as [_ He%Z.ltb_lt]. by apply (start_inv s tids tt).
  - destruct (schedule_spec fc thr s) as (s1 & E1 & Hq & Hs). rewrite E in E1. injection E1 as ->. by eapply inv_queue_grows.
  - destruct (schedule_all_spec l s) as (s1 & E1 & Hq & Hs). rewrite (bind_Ret _ _ _ _ _ E1) in E. injection E as <-. by eapply inv_queue_grows.
  - destruct (at_worker_stands _ _ _ Hi He) as (t & [] & HR & Hp); try done. by eapply pick_inv.
  - destruct (at_worker_stands _ _ _ Hi He) as (t & [] & HR & Hp); try done. by eapply enter_inv.
  - destruct (at_worker_stands _ _ _ Hi He) as (t & [] & HR & Hp); try done. by eapply set_inv.
  - destruct (at_worker_stands _ _ _ Hi He) as (t & [] & HR & Hp); try done. by eapply out_inv.
  - destruct (at_worker_stands _ _ _ Hi He) as (t & p & HR & Hp). by eapply (back_inv i t p).
  - apply Z.ltb_lt in He. by apply (stop_inv here s tt).
  - injection E as <-. apply andb_true_iff in He as [_ He]. pose proof (join_inv s Hi He) as Hj. by destruct Hj.
Qed.

Lemma sched_steps_inv s ls s' : inv s → steps s ls s' → inv s'.
Proof. induction 2; eauto using sched_step_inv. Qed.

Lemma inv_counts s : inv s → m_activeThreadCount s = count busy (workers s) ∧ m_idleThreadCount s = count idling (workers s).
Proof.
  intros [Ha Hi _ _ Hn]. rewrite Z.add_0_r in Ha, Hi.
  pose proof (count_bounds busy (workers s)). pose proof (count_bounds idling (workers s)).
  rewrite Ha, Hi. split; apply uwrap_small; unfold is_u; lia.
Qed.

(** C12: However the threads interleave, the counter of active workers is the number
    of workers that hold a task and have not come back from it yet, the counter of
    idle ones the number in their idle fiber, and a task is held only by a worker it
    may run on.  So [stopping] holds exactly when a stop was asked for, no task waits
    and every worker that holds one has come back from it: nothing that waits or runs
    is given up.  The counter goes down before the fiber's state is looked at, so
    [stopping] does not rule out that a worker is about to put a fiber that yielded
    back into the queue ([stops_early] below). *)
Theorem counters_exact thread_num caller has_scheduler u s0 ls s : Scheduler_new thread_num caller has_scheduler u = Ret s0 u → steps s0 ls s →
  m_activeThreadCount s = count (λ w, has_task w && negb (settles w)) (workers s) ∧
  m_idleThreadCount s = count idling (workers s) ∧
  Forall worker_ok (workers s) ∧
  (stopping s = true ↔ m_autostop s = true ∧ m_stopping s = true ∧ m_fibers s = [] ∧ Forall (λ w, has_task w = true → settles w = true) (workers s)).
Proof.
  intros Hnew Hs. pose proof (sched_steps_inv _ _ _ (sched_inv_new _ _ _ _ _ Hnew) Hs) as Hi. destruct (inv_counts s Hi) as [Ha Hd].
  split_and!; [done|done|apply Hi|]. unfold stopping. rewrite !andb_true_iff, bool_decide_eq_true, Ha.
  assert (Forall (λ w, has_task w = true → settles w = true) (workers s) ↔ Forall (λ w, busy w = false) (workers s)) as ->.
  { apply Forall_iff. intros w. unfold busy. destruct (has_task w), (settles w); naive_solver. }
  split.
  - intros (((? & ?) & ?) & Hzero). split_and!; try done. apply count_0. lia.
  - intros (? & ? & ? & Hnone). split_and!; try done. by rewrite count_none.
Qed.

(** ** No task is lost or made up *)
(** The tasks that a step puts into the queue, in order. *)
Definition given (l : label) (s : Scheduler) : list FiberAndThread :=
  match l with
  | LSchedule fc thr => kept_tasks [FT_new fc thr]
  | LScheduleAll l => kept_tasks ((λ fc, FT_new fc (-1)) <$> l)
  | LBack i =>
      match workers s !! i with
      | Some w =>
          match at_ w with
          | Acts KFiber f Ready | Acts KCb f Ready => [mkFT (Some f) None (-1)]
          | _ => []
          end
      | None => []
      end
  | _ => []
  end.
(** The tasks that a step takes out, seen at the worker that holds them. *)
Definition taken (l : label) (s' : Scheduler) : list FiberAndThread :=
  match l with
  | LPick i => match workers s' !! i with Some w => match at_ w with Picked ft true => [ft] | _ => [] end | None => [] end
  | _ => []
  end.
Inductive history : Scheduler → list FiberAndThread → list FiberAndThread → Scheduler → Prop :=
  | history_nil s : history s [] [] s
  | history_step s l s1 ins outs s2 : step s l s1 → history s1 ins outs s2 → history s (given l s ++ ins) (taken l s1 ++ outs) s2.

(** Operations that do not touch the queue. *)
Definition keeps {A} (m : ST Scheduler A) : Prop := ∀ s a s', m s = Ret a s' → m_fibers s' = m_fibers s.
Lemma keeps_bind {A B} (m : ST Scheduler A) (k : A → ST Scheduler B) : keeps m → (∀ a, keeps (k a)) → keeps (bind m k).
Proof.
  intros Hm Hk s b s' E. unfold bind in E. destruct (m s) as [a s1| |] eqn:Em; try done. rewrite (Hk _ _ _ _ E). by eapply Hm.
Qed.
Lemma keeps_gets {A} (f : Scheduler → A) : keeps (gets f).
Proof. by intros s a s' [= _ <-]. Qed.
Lemma keeps_ret {A} (a : A) : keeps (ret a).
Proof. by intros s x s' [= _ <-]. Qed.
Lemma keeps_crash {A} f : keeps (crash f : ST Scheduler A).
Proof. by intros s x s' E. Qed.
Lemma keeps_modify f : (∀ s, m_fibers (f s) = m_fibers s) → keeps (modify f).
Proof. by intros H s x s' [= _ <-]. Qed.
Create HintDb keeps_db.
#[export] Hint Resolve keeps_gets keeps_ret keeps_crash : keeps_db.
Ltac keeps_auto := repeat first
  [ solve [auto 2 with keeps_db nocore] | by apply keeps_modify
  | apply keeps_bind; [|intros] | case_match ].

Lemma keeps_Fiber_new : keeps Fiber_new.
Proof. unfold Fiber_new, setState. keeps_auto. Qed.
Lemma keeps_Fiber_reset g : keeps (Fiber_reset g).
Proof. unfold Fiber_reset, setState, assert. keeps_auto. Qed.
Lemma keeps_swapIn g : keeps (swapIn g).
Proof. unfold swapIn, setState, assert. keeps_auto. Qed.
Lemma keeps_get_worker i : keeps (get_worker i).
Proof. unfold get_worker. keeps_auto. Qed.
Lemma keeps_set_at i p : keeps (set_at i p).
Proof. by apply keeps_modify. Qed.
Lemma keeps_set_cb_fiber i v : keeps (set_cb_fiber i v).
Proof. by apply keeps_modify. Qed.
Lemma keeps_active_add d : keeps (active_add d).
Proof. by apply keeps_modify. Qed.
Lemma keeps_idle_add d : keeps (idle_add d).
Proof. by apply keeps_modify. Qed.
Lemma keeps_tickle : keeps tickle.
Proof. by apply keeps_modify. Qed.
Lemma keeps_setState f st : keeps (setState f st).
Proof. by apply keeps_modify. Qed.
#[export] Hint Resolve keeps_Fiber_new keeps_Fiber_reset keeps_swapIn keeps_get_worker keeps_set_at keeps_set_cb_fiber
  keeps_active_add keeps_idle_add keeps_tickle keeps_setState : keeps_db.

Lemma keeps_enter_cb i w : keeps (enter_cb i w).
Proof. unfold enter_cb. keeps_auto. Qed.
Lemma keeps_enter_idle i w b : keeps (enter_idle i w b).
Proof. unfold enter_idle. keeps_auto. Qed.
#[export] Hint Resolve keeps_enter_cb keeps_enter_idle : keeps_db.
Lemma keeps_enter i : keeps (enter i).
Proof. unfold enter. keeps_auto. Qed.
Lemma keeps_fiber_sets i st : keeps (fiber_sets i st).
Proof. unfold fiber_sets. keeps_auto. Qed.
Lemma keeps_swapOut i : keeps (swapOut i).
Proof. unfold swapOut. keeps_auto. Qed.

(** An operation that adds [l] at the end of the queue. *)
Definition adds {A} (l : list FiberAndThread) (m : ST Scheduler A) : Prop := ∀ s a s', m s = Ret a s' → m_fibers s' = m_fibers s ++ l.
Lemma adds_schedule fc thr : valid_task (FT_new fc thr) = true → adds [FT_new fc thr] (schedule fc thr).
Proof.
  intros Hv s a s' E. destruct (schedule_spec fc thr s) as (s1 & E1 & Hq & _). rewrite E in E1. injection E1 as -> ->.
  rewrite Hq. unfold kept_tasks. simpl. by rewrite Hv.
Qed.
Lemma adds_then {A B} l (m : ST Scheduler A) (k : A → ST Scheduler B) : adds l m → (∀ a, keeps (k a)) → adds l (bind m k).
Proof.
  intros Hm Hk s b s' E. unfold bind in E. destruct (m s) as [a s1| |] eqn:Em; try done. rewrite (Hk _ _ _ _ E). by eapply Hm.
Qed.

Lemma back_gives i s a s' : back i s = Ret a s' → m_fibers s' = m_fibers s ++ given (LBack i) s.
Proof.
  unfold back, get_worker. rewrite bind_assoc, bind_gets. cbn [given].
  destruct (workers s !! i) as [w|]; [|done]. rewrite bind_ret. revert s a s'.
  match goal with |- ∀ s a s', ?m s = _ → _ = _ ++ ?l => change (adds l m) end.
  assert (∀ {A} (m : ST Scheduler A), keeps m → adds [] m) as Hk by (intros A m H s a s' E; by rewrite app_nil_r, (H s a s' E)).
  assert (∀ f, adds [mkFT (Some f) None (-1)] (schedule (AFiber (Some f)) (-1))) as Hs by (intros f; by apply (adds_schedule (AFiber (Some f)) (-1))).
  destruct (at_ w) as [| | |[] f|k f|k f|[] f []|]; try (apply Hk; keeps_auto).
  - apply adds_then; [apply Hs|intros; apply keeps_set_at].
  - apply adds_then; [apply adds_then; [apply Hs|intros; apply keeps_set_cb_fiber]|intros; apply keeps_set_at].
Qed.

Lemma pick_takes i s a s' : inv s → pick i s = Ret a s' → m_fibers s ≡ₚ taken (LPick i) s' ++ m_fibers s'.
Proof.
  intros Hi. unfold pick, get_worker. rewrite bind_assoc, bind_gets.
  destruct (workers s !! i) as [w|] eqn:Ew; [|done]. rewrite bind_ret, bind_gets. unfold id.
  destruct (pick_scan (getState s) (tid w) (m_fibers s) (owes_queue _ _ _ Hi)) as (r & q' & tk & -> & Hpk).
  rewrite bind_modify. intros E.
  assert (∃ s1, workers s1 = workers s ∧ m_fibers s1 = q' ∧ set_at i (Picked (default FT_reset r) (bool_decide (is_Some r))) s1 = Ret a s') as (s1 & Hw & Hf & E1).
  { destruct r, tk; rewrite ?bind_ret in E; unfold active_add, tickle in E; rewrite ?bind_modify in E; eexists; (split; [|split; [|exact E]]); done. }
  injection E1 as _ <-. cbn [taken m_fibers workers set_workers]. rewrite Hw, list_lookup_alter_eq, Ew, Hf. cbn.
  destruct r as [ft|]; simpl in Hpk |- *.
  - destruct Hpk as (pre & post & -> & -> & _). by rewrite Permutation_middle.
  - by destruct Hpk as (-> & _).
Qed.

Lemma keeps_start tids : keeps (start tids).
Proof. unfold start, assert. keeps_auto. Qed.

Lemma step_conserves s l s' : inv s → step s l s' → m_fibers s ++ given l s ≡ₚ taken l s' ++ m_fibers s'.
Proof.
  intros Hi [He E]. destruct l as [tids|fc thr|l|i|i|i st|i|i|here|]; cbn [exec] in E.
  - cbn [given taken app]. by rewrite app_nil_r, (keeps_start _ _ _ _ E).
  - destruct (schedule_spec fc thr s) as (s1 & E1 & Hq & _). rewrite E in E1. injection E1 as ->. by rewrite Hq.
  - destruct (schedule_all_spec l s) as (s1 & E1 & Hq & _). rewrite (bind_Ret _ _ _ _ _ E1) in E. injection E as <-. by rewrite Hq.
  - cbn [given]. rewrite app_nil_r. by eapply pick_takes.
  - cbn [given taken app]. by rewrite app_nil_r, (keeps_enter _ _ _ _ E).
  - cbn [given taken app]. by rewrite app_nil_r, (keeps_fiber_sets _ _ _ _ _ E).
  - cbn [given taken app]. by rewrite app_nil_r, (keeps_swapOut _ _ _ _ E).
  - by rewrite (back_gives _ _ _ _ E).
  - destruct (stop_spec _ _ _ _ E) as [Hq _]. cbn [given taken app]. by rewrite app_nil_r, Hq.
  - injection E as <-. cbn. by rewrite app_nil_r.
Qed.

Lemma history_conserves s ins outs s' : inv s → history s ins outs s' → m_fibers s ++ ins ≡ₚ outs ++ m_fibers s'.
Proof.
  intros Hi H. induction H as [s|s l s1 ins outs s2 Hs H IH]; [by rewrite app_nil_r|].
  pose proof (sched_step_inv _ _ _ Hi Hs) as Hi1. rewrite app_assoc, (step_conserves _ _ _ Hi Hs), <- app_assoc, (IH Hi1).
  by rewrite app_assoc.
Qed.

(** C8: Every task put into the queue (by [schedule], by the batch version, or
    because a fiber yielded to be run again) is in the queue or was taken by
    exactly one worker, once, whatever the order in which the threads ran; tasks
    without a fiber or a callback are dropped. *)
Theorem tasks_conserved thread_num caller has_scheduler u s0 ins outs s : Scheduler_new thread_num caller has_scheduler u = Ret s0 u →
  history s0 ins outs s → ins ≡ₚ outs ++ m_fibers s.
Proof.
  intros Hnew H. pose proof (history_conserves _ _ _ _ (sched_inv_new _ _ _ _ _ Hnew) H) as Hp.
  assert (m_fibers s0 = []) as E by (unfold Scheduler_new in Hnew; repeat case_match; try done; by injection Hnew as <-).
  by rewrite E in Hp.
Qed.

(** ** Concrete runs *)
Definition fresh_scheduler (n : Z) : Scheduler := mkScheduler [] 0 0 true false 0 0 ∅ 0 [] n None (-1).
(** One worker takes a fiber that yields once and then ends, the other sees an
    empty queue and idles. *)
Definition sample_run : list label :=
  [LStart [1; 2]; LSchedule (AFiber (Some 7)) (-1); LSchedule (ACb None) (-1); LPick 0; LPick 1; LEnter 0; LEnter 1;
   LSet 0 READY; LOut 0; LBack 0; LBack 0; LBack 0; LPick 0; LEnter 0; LSet 0 TERM; LOut 0; LStop false; LBack 0; LBack 0; LBack 0; LBack 0;
   LPick 0; LEnter 0; LSet 0 TERM; LSet 1 TERM; LOut 0; LBack 0; LBack 0; LOut 1; LBack 1; LBack 1; LBack 0; LBack 1;
   LPick 0; LEnter 0; LPick 1; LEnter 1; LJoin].
Ltac step_through := repeat first [apply steps_nil | eapply steps_cons; [split; vm_compute; reflexivity|]].

Definition state_after (ls : list label) (s : Scheduler) : Scheduler := match run_labels ls s with Ret _ s' => s' | _ => s end.
Lemma sample_steps : steps (fresh_scheduler 2) sample_run (state_after sample_run (fresh_scheduler 2)).
Proof. unfold sample_run. step_through. Qed.
Lemma counters_exact_witness : let s := state_after sample_run (fresh_scheduler 2) in
  stopping s = true ∧
  m_activeThreadCount s = count (λ w, has_task w && negb (settles w)) (workers s) ∧
  m_idleThreadCount s = count idling (workers s) ∧
  Forall worker_ok (workers s) ∧
  (stopping s = true ↔ m_autostop s = true ∧ m_stopping s = true ∧ m_fibers s = [] ∧ Forall (λ w, has_task w = true → settles w = true) (workers s)).
Proof. split; [vm_compute; reflexivity|]. exact (counters_exact 2 None false tt _ sample_run _ eq_refl sample_steps). Defined.

Definition sample_tasks : list FiberOrCb := [AFiber (Some 7); ACb None; ACb (Some 9)].
Definition sample_state : Scheduler := state_after [LScheduleAll sample_tasks; LStart [1; 2]; LPick 0] (fresh_scheduler 2).
Lemma sample_history :
  history (fresh_scheduler 2) [mkFT (Some 7) None (-1); mkFT None (Some 9) (-1)] [mkFT (Some 7) None (-1)] sample_state.
Proof.
  set (s1 := state_after [LScheduleAll sample_tasks] (fresh_scheduler 2)). set (s2 := state_after [LStart [1; 2]] s1).
  change (history (fresh_scheduler 2) (given (LScheduleAll sample_tasks) (fresh_scheduler 2) ++ given (LStart [1; 2]) s1 ++ given (LPick 0) s2 ++ [])
    (taken (LScheduleAll sample_tasks) s1 ++ taken (LStart [1; 2]) s2 ++ taken (LPick 0) sample_state ++ []) sample_state).
  do 3 (eapply history_step; [split; vm_compute; reflexivity|]). apply history_nil.
Qed.
Lemma tasks_conserved_witness :
  [mkFT (Some 7) None (-1); mkFT None (Some 9) (-1)] ≡ₚ [mkFT (Some 7) None (-1)] ++ m_fibers sample_state.
Proof. exact (tasks_conserved 2 None false tt _ _ _ _ eq_refl sample_history). Defined.

(** A callback whose fiber ends with an exception stops the process: [run] resets
    that fiber, and [Fiber::reset] accepts only [TERM] and [INIT]. *)
Example except_callback_asserts :
  run_labels [LStart [1]; LSchedule (ACb (Some 9)) (-1); LPick 0; LEnter 0; LSet 0 EXCEPT; LOut 0; LBack 0; LBack 0; LBack 0; LBack 0] (fresh_scheduler 1)
  = Crash AssertFailed.
Proof. vm_compute. reflexivity. Qed.

(** Between the counter and the queue: a stop is asked for, a fiber has yielded to be
    run again, and a worker in its idle fiber sees that everything is done and ends
    while there is still a fiber to run. *)
Example stops_early :
  match run_labels [LStart [1; 2]; LSchedule (AFiber (Some 7)) (-1); LPick 0; LPick 1; LEnter 0; LEnter 1; LStop false; LSet 0 READY; LOut 0; LBack 0]
    (fresh_scheduler 2) with
  | Ret _ s => stopping s = true ∧ getState s 7 = READY ∧
      match run_labels [LSet 1 TERM; LOut 1; LBack 1; LBack 1; LBack 1; LPick 1; LEnter 1; LBack 0; LBack 0] s with
      | Ret _ s' => stopping s' = false ∧ m_fibers s' = [mkFT (Some 7) None (-1)] ∧ at_ <$> workers s' = [Top; Done]
      | _ => False
      end
  | _ => False
  end.
Proof. vm_compute. split_and!; reflexivity. Qed.
(** The fiber's state is read and set without a lock: a fiber that was scheduled and
    entered again by another worker in between is marked as held while it runs, and
    a third worker enters it, too. *)
Example running_marked_held :
  match run_labels [LStart [1; 2; 3]; LSchedule (AFiber (Some 7)) (-1); LPick 0; LEnter 0; LSet 0 HOLD; LOut 0; LBack 0; LBack 0; LBack 0;
      LSchedule (AFiber (Some 7)) (-1); LPick 1; LEnter 1; LBack 0; LSchedule (AFiber (Some 7)) (-1); LPick 2; LEnter 2] (fresh_scheduler 3) with
  | Ret _ s => at_ <$> workers s = [Top; In KFiber 7; In KFiber 7]
  | _ => False
  end.
Proof. vm_compute. reflexivity. Qed.

(** [YieldToHold] marks the fiber before it has left its stack, so a fiber that
    another thread schedules in between runs on two threads. *)
Example held_fiber_runs_twice :
  match run_labels [LStart [1; 2]; LSchedule (AFiber (Some 7)) (-1); LPick 0; LEnter 0; LSet 0 HOLD; LSchedule (AFiber (Some 7)) (-1); LPick 1; LEnter 1]
    (fresh_scheduler 2) with
  | Ret _ s => at_ <$> workers s = [In KFiber 7; In KFiber 7]
  | _ => False
  end.
Proof. vm_compute. reflexivity. Qed.

(** The same fiber scheduled twice before it runs ends in the assertion of
    [swapIn] once both workers have picked it. *)
Example double_schedule_asserts :
  run_labels [LStart [1; 2]; LScheduleAll [AFiber (Some 7); AFiber (Some 7)]; LPick 0; LPick 1; LEnter 0; LEnter 1] (fresh_scheduler 2)
  = Crash AssertFailed.
Proof. vm_compute. reflexivity. Qed.

(** With [use_caller] and one thread, nothing runs before [stop]: there the caller
    itself takes the tasks, and [stop] comes back when they are done. *)
Definition caller_scheduler : Scheduler := mkScheduler [] 0 0 true false 0 0 ∅ 0 [] 0 (Some INIT) 1.
Example caller_runs_tasks :
  Scheduler_new 1 (Some 1) false tt = Ret caller_scheduler tt ∧
  match run_labels [LStart []; LSchedule (ACb (Some 9)) (-1); LStop true; LPick 0; LEnter 0; LSet 0 TERM; LOut 0; LBack 0; LBack 0; LBack 0; LBack 0;
                    LPick 0; LEnter 0; LSet 0 TERM; LOut 0; LBack 0; LBack 0; LBack 0; LPick 0; LEnter 0; LJoin] caller_scheduler with
  | Ret _ s => workers s = [] ∧ m_fibers s = [] ∧ m_rootFiber s = Some TERM ∧ stopping s = true
  | _ => False
  end.
Proof. split; [reflexivity|]. vm_compute. split_and!; reflexivity. Qed.

(** ** Waking idle workers *)
(** The first task of an empty queue is announced when a worker is in its idle fiber. *)
Lemma schedule_wakes fc thr s : m_fibers s = [] → hasIdleThreads s = true → ∃ s', schedule fc thr s = Ret tt s' ∧ pipe s' = pipe s + 1.
Proof.
  intros Hq Hi. unfold schedule, scheduleNoLock. rewrite bind_assoc, bind_gets, Hq.
  destruct (valid_task _); eexists; (split; [reflexivity|]); cbn; unfold hasIdleThreads in *; cbn; by rewrite Hi.
Qed.
(** A worker that found the queue empty is not counted as idle yet: a task that
    comes in between is not announced, and waits in the queue while the worker
    sleeps in its idle fiber. *)
Example wakeup_lost :
  match run_labels [LStart [1]; LPick 0; LSchedule (ACb (Some 9)) (-1); LEnter 0] (fresh_scheduler 1) with
  | Ret _ s => pipe s = 0 ∧ m_fibers s = [mkFT None (Some 9) (-1)] ∧ at_ <$> workers s = [In KIdle 0]
  | _ => False
  end.
Proof. vm_compute. split_and!; reflexivity. Qed.
