(* ===== verification/Env.v ===== *)
(** * Env: the command line and the process's paths ([include/env.h], [src/env.cpp])

    The arguments are C strings.  [exe_link] is what [readlink] stores for
    [/proc/self/exe], if it succeeds.  The lock makes each operation one step. *)
From S2P Require Import Prelude Words.

Record Env := mkEnv {
  m_args : gmap string string; m_helps : list (string * string); m_program : string; m_exe : string; m_cwd : string
}.
Definition Env_new : Env := mkEnv ∅ [] "" "" "".
Definition set_args v e := mkEnv v (m_helps e) (m_program e) (m_exe e) (m_cwd e).
Definition set_helps v e := mkEnv (m_args e) v (m_program e) (m_exe e) (m_cwd e).
Definition set_program v e := mkEnv (m_args e) (m_helps e) v (m_exe e) (m_cwd e).
Definition set_paths exe cwd e := mkEnv (m_args e) (m_helps e) (m_program e) exe cwd.

(** *** The options that were given *)
Definition add (key val : string) : ST Env unit := modify (λ e, set_args (<[key := val]> (m_args e)) e).
Definition has (key : string) : ST Env bool := gets (λ e, bool_decide (is_Some (m_args e !! key))).
Definition del (key : string) : ST Env unit := modify (λ e, set_args (delete key (m_args e)) e).
Definition get (key default_value : string) : ST Env string := gets (λ e, default default_value (m_args e !! key)).

(** *** The options that are documented *)
Fixpoint remove_help (key : string) (l : list (string * string)) : list (string * string) :=
  match l with
  | [] => []
  | kd :: l => if bool_decide (kd.1 = key) then remove_help key l else kd :: remove_help key l
  end.
Definition removeHelp (key : string) : ST Env unit := modify (λ e, set_helps (remove_help key (m_helps e)) e).
Definition addHelp (key desc : string) : ST Env unit :=
  removeHelp key ;;;
  modify (λ e, set_helps (m_helps e ++ [(key, desc)]) e).
Definition newline : string := String (code_char 10) "".
(** [std::setw(5)] pads the dash. *)
Fixpoint help_lines (l : list (string * string)) : string :=
  match l with [] => "" | (k, d) :: l => "    -" +:+ k +:+ " : " +:+ d +:+ newline +:+ help_lines l end.
Definition printHelp : ST Env string :=
  gets (λ e, "Usage: " +:+ m_program e +:+ " [options]" +:+ newline +:+ help_lines (m_helps e)).

(** *** [init] *)
(** The text up to the last slash, that included; all of it is before [npos + 1 = 0]. *)
Fixpoint dirname (s : string) : string :=
  match s with
  | ""%string => ""
  | String c s' =>
      let d := dirname s' in
      if bool_decide (d ≠ ""%string) then String c d else if char_code c =? 47 then String c "" else ""
  end.
Definition is_option (arg : string) : bool := match arg with String c _ => char_code c =? 45 | ""%string => false end.
Definition tail (arg : string) : string := match arg with String _ s => s | ""%string => "" end.

Fixpoint init_loop (args : list string) (now_key : option string) : ST Env bool :=
  match args with
  | [] => match now_key with Some k => add k "" ;;; ret true | None => ret true end
  | arg :: args =>
      if is_option arg then
        if 1 <? size arg then
          match now_key with Some k => add k "" | None => ret tt end ;;;
          init_loop args (Some (tail arg))
        else ret false
      else
        match now_key with
        | Some k => add k arg ;;; init_loop args None
        | None => ret false
        end
  end.
(** [path] has 1024 bytes, and only a shorter link leaves its zero. *)
Definition init (exe_link : option string) (argv : list string) : ST Env bool :=
  let path := default ""%string exe_link in
  if 1024 <=? size path then crash OutOfBounds
  else
    modify (set_paths path (dirname path)) ;;;
    match argv with
    | [] => crash NullDeref
    | program :: args => modify (set_program program) ;;; init_loop args None
    end.

(** *** Paths *)
Definition getExe : ST Env string := gets m_exe.
Definition getCwd : ST Env string := gets m_cwd.
Definition getAbsolutePath (path : string) : ST Env string :=
  match path with
  | ""%string => ret "/"%string
  | String c _ => if char_code c =? 47 then ret path else gets (λ e, m_cwd e +:+ path)
  end.

(** *** The environment of the process ([setenv] and [getenv]) *)
Definition environ : Type := gmap string string.
Definition setEnv (key val : string) : ST environ bool :=
  if bool_decide (key = ""%string) || negb (all_in (λ c, negb (c =? 61)) key) then ret false
  else modify (<[key := val]>) ;;; ret true.
Definition getEnv (key default_value : string) : ST environ string := gets (λ e, default default_value (e !! key)).

(** ** The command lines that are accepted, and what they set *)
(** ** Command lines as lists of options *)
(** An option is [-key] or [-key value]. *)
Definition opt : Type := string * option string.
Definition dashed (key : string) : string := String (code_char 45) key.
Definition render_opt (o : opt) : list string := dashed o.1 :: match o.2 with Some v => [v] | None => [] end.
Definition render_opts (os : list opt) : list string := concat (render_opt <$> os).
Definition opt_ok (o : opt) : Prop := o.1 ≠ ""%string ∧ match o.2 with Some v => is_option v = false | None => True end.
(** Later options win; one without a value has the empty one. *)
Definition options (os : list opt) (m : gmap string string) : gmap string string :=
  foldl (λ m o, <[o.1 := default ""%string o.2]> m) m os.

Lemma dashed_option k : is_option (dashed k) = true ∧ tail (dashed k) = k ∧ (1 <? size (dashed k)) = bool_decide (k ≠ ""%string).
Proof.
  split_and!; [done..|]. destruct k as [|c k]; [done|]. rewrite bool_decide_true by done. apply Z.ltb_lt. unfold size. cbn [dashed String.length]. lia.
Qed.
Lemma is_option_dashed arg : is_option arg = true → arg = dashed (tail arg).
Proof.
  destruct arg as [|c s]; cbn; [done|]. intros E%Z.eqb_eq. unfold dashed. f_equal. rewrite <- (code_char_code c). by rewrite E.
Qed.

(** What is left of the loop's answer when a key is waiting. *)
Definition pending (now : option string) (os : list opt) : list opt := match now with Some k => (k, None) :: os | None => os end.

Lemma set_args_twice m m' e : set_args m' (set_args m e) = set_args m' e.
Proof. done. Qed.
Lemma set_args_same e : set_args (m_args e) e = e.
Proof. by destruct e. Qed.

Lemma init_loop_accepts os : ∀ e, Forall opt_ok os → init_loop (render_opts os) None e = Ret true (set_args (options os (m_args e)) e).
Proof.
  assert (∀ k e, init_loop [] (Some k) e = Ret true (set_args (<[k := ""%string]> (m_args e)) e)) as Hnil by done.
  assert (∀ os k e, Forall opt_ok os →
    init_loop (render_opts os) (Some k) e = init_loop (render_opts os) None (set_args (<[k := ""%string]> (m_args e)) e)) as Hkey.
  { intros [|[k' v'] os'] k e Hos; [done|]. inversion Hos as [|? ? [Hk _] _]; subst. cbn [render_opts fmap list_fmap concat render_opt app fst snd].
    destruct (dashed_option k') as (E1 & E2 & E3). cbn [init_loop]. rewrite E1, E3, bool_decide_true by done. unfold add. by rewrite bind_modify, bind_ret. }
  induction os as [|[k v] os IH]; intros e Hos; [by destruct e|]. inversion Hos as [|? ? [Hk Hv] Hos']; subst. cbn [fst snd] in Hk, Hv.
  unfold render_opts. cbn [fmap list_fmap concat render_opt app fst snd]. destruct (dashed_option k) as (E1 & E2 & E3). cbn [init_loop].
  rewrite E1, E3, bool_decide_true, E2, bind_ret by done. change (concat (render_opt <$> os)) with (render_opts os). destruct v as [v|]; cbn [app].
  - cbn [init_loop]. rewrite Hv. unfold add. rewrite bind_modify, IH by done. done.
  - rewrite Hkey, IH by done. done.
Qed.

(** The loop accepts nothing else. *)
Lemma init_loop_only args : ∀ now e e', (∀ k, now = Some k → k ≠ ""%string) → init_loop args now e = Ret true e' →
  ∃ os, Forall opt_ok os ∧ match now with Some k => dashed k :: args = render_opts os | None => args = render_opts os end.
Proof.
  induction args as [|arg args IH]; intros now e e' Hn; cbn [init_loop].
  - intros _. destruct now as [k|]; [|by exists []]. exists [(k, None)]. split; [|done]. repeat constructor. by apply Hn.
  - destruct (is_option arg) eqn:Eo.
    + destruct (dashed_option (tail arg)) as (_ & _ & E3). rewrite <- (is_option_dashed arg Eo) in E3. rewrite E3. case_bool_decide as Hk; [|done].
      intros E. assert (∃ e1, init_loop args (Some (tail arg)) e1 = Ret true e') as [e1 E1].
      { destruct now as [k|]; [unfold add in E; rewrite bind_modify in E|rewrite bind_ret in E]; by eexists. }
      destruct (IH (Some (tail arg)) e1 e' ltac:(congruence) E1) as (os & Hos & Eos). rewrite <- (is_option_dashed arg Eo) in Eos.
      destruct now as [k|]; [|by exists os]. exists ((k, None) :: os). split; [|by rewrite Eos]. constructor; [|done]. split; [by apply Hn|done].
    + destruct now as [k|]; [|done]. unfold add. rewrite bind_modify. intros E. destruct (IH None _ _ ltac:(done) E) as (os & Hos & ->).
      exists ((k, Some arg) :: os). split; [|done]. constructor; [|done]. split; [by apply Hn|done].
Qed.

Lemma init_cases link program args e : size (default ""%string link) < 1024 →
  (∀ e', init link (program :: args) e = Ret true e' →
     ∃ os, Forall opt_ok os ∧ args = render_opts os ∧ m_args e' = options os (m_args e) ∧ m_program e' = program)
  ∧ (∀ os, Forall opt_ok os → args = render_opts os →
     ∃ e', init link (program :: args) e = Ret true e' ∧ m_args e' = options os (m_args e))
  ∧ ∃ b e', init link (program :: args) e = Ret b e'.
Proof.
  intros Hl. unfold init. rewrite (proj2 (Z.leb_gt 1024 _)) by done. rewrite !bind_modify.
  set (e1 := set_program program (set_paths _ _ e)). split_and!.
  - intros e' E. destruct (init_loop_only args None e1 e' ltac:(done) E) as (os & Hos & ->). exists os. rewrite init_loop_accepts in E by done.
    assert (e' = set_args (options os (m_args e1)) e1) as -> by congruence. done.
  - intros os Hos ->. rewrite init_loop_accepts by done. by eexists.
  - generalize e1 (None : option string). clear. induction args as [|arg args IH]; intros e now; cbn [init_loop].
    + destruct now; by eexists _, _.
    + destruct (is_option arg); [destruct (1 <? size arg); [|by eexists _, _]|]; destruct now as [k|]; unfold add; rewrite ?bind_modify, ?bind_ret; try (by eexists _, _); apply IH.
Qed.
(** C34: [init] accepts exactly the command lines that are a program and options
    with nonempty keys and at most one value each that does not start with a
    dash; the options it then knows are these, the last of a key winning *)
Theorem init_exact link program args e : size (default ""%string link) < 1024 →
  (∀ e', init link (program :: args) e = Ret true e' →
     ∃ os, Forall opt_ok os ∧ args = render_opts os ∧ m_args e' = options os (m_args e) ∧ m_program e' = program)
  ∧ (∀ os, Forall opt_ok os → args = render_opts os →
     ∃ e', init link (program :: args) e = Ret true e' ∧ m_args e' = options os (m_args e))
  ∧ ∃ b e', init link (program :: args) e = Ret b e'.
Proof. apply init_cases. Qed.
Lemma init_exact_witness :
  size (default ""%string (Some "/opt/azure/bin/server"%string)) < 1024 ∧
  ∃ e', init (Some "/opt/azure/bin/server"%string) ("server" :: ["-d"; "-p"; "80"; "-p"; "8020"; "-s"])%string Env_new = Ret true e'
  ∧ m_args e' = options [("d", None); ("p", Some "80"); ("p", Some "8020"); ("s", None)]%string ∅.
Proof.
  split; [done|]. apply (init_exact (Some "/opt/azure/bin/server"%string) "server" ["-d"; "-p"; "80"; "-p"; "8020"; "-s"]%string Env_new ltac:(done));
    [repeat constructor; discriminate|reflexivity].
Defined.
Lemma sample_init :
  (λ e, (m_args e !! "p", m_args e !! "d", m_cwd e)) <$>
    (match init (Some "/opt/azure/bin/server"%string) ["server"; "-d"; "-p"; "80"; "-p"; "8020"]%string Env_new with Ret true e => Some e | _ => None end)
  = Some (Some "8020", Some "", "/opt/azure/bin/")%string.
Proof. vm_compute. reflexivity. Qed.
(** A value that starts with a dash is an option. *)
Lemma dash_value_is_option :
  (λ e, (m_args e !! "x", m_args e !! "1")) <$> (match init None ["server"; "-x"; "-1"]%string Env_new with Ret true e => Some e | _ => None end)
  = Some (Some "", Some "")%string.
Proof. vm_compute. reflexivity. Qed.

(** ** The documented options *)
Lemma remove_help_spec key l : remove_help key l = filter (λ kd, kd.1 ≠ key) l.
Proof.
  induction l as [|kd l IH]; [done|]. cbn [remove_help]. rewrite filter_cons, <- IH. repeat case_decide; case_bool_decide; naive_solver.
Qed.
(** A key is documented once, by the last call. *)
Lemma addHelp_once key desc e : NoDup (m_helps e).*1 → ∃ e', addHelp key desc e = Ret tt e' ∧ NoDup (m_helps e').*1
  ∧ ∀ k d, (k, d) ∈ m_helps e' ↔ (k = key ∧ d = desc) ∨ (k ≠ key ∧ (k, d) ∈ m_helps e).
Proof.
  intros Hd. eexists. split; [done|]. cbn. rewrite remove_help_spec. split.
  - rewrite fmap_app. apply NoDup_app. split_and!; [|intros k Hk|apply NoDup_singleton].
    + induction (m_helps e) as [|kd l IH]; [constructor|]. inversion Hd as [|? ? Hn Hd']; subst. rewrite filter_cons. case_decide; [|by apply IH].
      cbn. constructor; [|by apply IH]. intros [kd' [E Hin]]%list_elem_of_fmap. apply list_elem_of_filter in Hin as [_ Hin].
      apply Hn. rewrite E. apply list_elem_of_fmap. eauto.
    + apply list_elem_of_fmap in Hk as ([k' d'] & -> & [Hne _]%list_elem_of_filter). cbn in *. set_solver.
  - intros k d. rewrite elem_of_app, list_elem_of_filter, list_elem_of_singleton. cbn. naive_solver.
Qed.
