(* ===== verification/Files.v ===== *)
(** * Files: the utilities of [src/util.cpp]

    The file system is what the calls of the C library say of it: the entries of
    a directory, whether a path exists, the first line of a file; the clock is
    the [timeval] of [gettimeofday], and the stack what [backtrace_symbols] gives. *)
From S2P Require Import Prelude CLib Words.

(** ** The clock *)
Definition GetCurrentMS (tv_sec tv_usec : Z) : Z := u64 (u64 (tv_sec * 1000) + u64 (Z.quot tv_usec 1000)).
(** [tv.tv_sec * 1000] is computed in a [long], the rest in an [unsigned long]. *)
Definition GetCurrentUS {S} (tv_sec tv_usec : Z) : ST S Z :=
  if (- 2 ^ 63 <=? tv_sec * 1000) && (tv_sec * 1000 <? 2 ^ 63)
  then ret (u64 (u64 (tv_sec * 1000 * 1000) + u64 tv_usec)) else crash UndefinedArith.
(** Both clocks tell the same time, to the millisecond. *)
Lemma clocks_agree {S} tv_sec tv_usec (s : S) : 0 ≤ tv_sec < 2 ^ 40 → 0 ≤ tv_usec < 1000000 →
  GetCurrentUS tv_sec tv_usec s = Ret (tv_sec * 1000000 + tv_usec) s
  ∧ GetCurrentMS tv_sec tv_usec = (tv_sec * 1000000 + tv_usec) / 1000.
Proof.
  intros Hs Hu. unfold GetCurrentMS, GetCurrentUS. rewrite Z.quot_div_nonneg by lia.
  assert (0 ≤ tv_usec / 1000 < 1000) by (split; [apply Z.div_pos; lia|apply Z.div_lt_upper_bound; lia]).
  rewrite (proj2 (Z.leb_le _ _)), (proj2 (Z.ltb_lt _ _)) by lia. cbn [andb]. unfold ret.
  rewrite (uwrap_small 64 (tv_sec * 1000)), (uwrap_small 64 (tv_usec / 1000)), (uwrap_small 64 (tv_sec * 1000 * 1000)), (uwrap_small 64 tv_usec) by (unfold is_u; lia).
  rewrite !uwrap_small by (unfold is_u; lia). split; [f_equal; lia|].
  replace (tv_sec * 1000000 + tv_usec) with (tv_usec + tv_sec * 1000 * 1000) by lia. rewrite Z.div_add by lia. lia.
Qed.

(** ** The stack *)
(** What the loop adds to [bt]; [strings] is what [backtrace_symbols] gives. *)
Definition Backtrace (strings : option (list string)) (skip : Z) (bt : list string) : list string :=
  match strings with None => bt | Some l => if u64 skip <? zlen l then bt ++ drop (Z.to_nat skip) l else bt end.
Definition BacktraceToString (strings : option (list string)) (skip : Z) (prefix : string) : string :=
  foldl (λ ss s, ss +:+ prefix +:+ s +:+ String (Ascii.ascii_of_nat 10) EmptyString) ""%string (Backtrace strings skip []).
(** The first [skip] frames are left out; a negative [skip] leaves all out. *)
Lemma Backtrace_skips strings skip bt : - 2 ^ 31 ≤ skip < 2 ^ 31 → zlen strings < 2 ^ 31 →
  Backtrace (Some strings) skip bt = bt ++ if 0 <=? skip then drop (Z.to_nat skip) strings else [].
Proof.
  intros Hs Hl. unfold Backtrace. destruct (Z.leb_spec 0 skip).
  - rewrite uwrap_small by (unfold is_u; lia). destruct (Z.ltb_spec skip (zlen strings)); [done|]. rewrite drop_ge; [by rewrite app_nil_r|]. unfold zlen in *. lia.
  - rewrite app_nil_r. replace (u64 skip) with (skip + 2 ^ 64) by (unfold uwrap; by rewrite <- (Z.mod_add _ 1), Z.mod_small by lia).
    by rewrite (proj2 (Z.ltb_ge _ _)) by lia.
Qed.

(** [d_type]: directories, regular files, and the rest (symbolic links too). *)
Inductive dtype := DT_DIR | DT_REG | DT_OTHER.

(** [filename.size() < subfix.size()], or the end of the name is another. *)
Definition ends_with (subfix filename : string) : bool :=
  let n := (String.length filename - String.length subfix)%nat in
  (size subfix <=? size filename) && bool_decide (String.substring n (String.length subfix) filename = subfix).

Section list.
Context (readdir : string → option (list (string * dtype))).

(** The loop over the entries; [rec] is the recursive call. *)
Fixpoint list_entries (rec : string → ST (list string) unit) (path subfix : string) (es : list (string * dtype)) : ST (list string) unit :=
  match es with
  | [] => ret tt
  | (name, DT_DIR) :: es =>
      (if bool_decide (name = "."%string) || bool_decide (name = ".."%string) then ret tt else rec (path +:+ "/" +:+ name)) ;;;
      list_entries rec path subfix es
  | (name, DT_REG) :: es =>
      (if bool_decide (subfix = ""%string) || ends_with subfix name
       then modify (λ files, files ++ [path +:+ "/" +:+ name]) else ret tt) ;;;
      list_entries rec path subfix es
  | (_, DT_OTHER) :: es => list_entries rec path subfix es
  end.
(** [None] from [readdir]: the path is not accessible or not a directory. *)
Fixpoint ListAllFile (fuel : nat) (path subfix : string) : ST (list string) unit :=
  match fuel with
  | O => crash Diverges
  | S fuel =>
      match readdir path with
      | None => ret tt
      | Some es => list_entries (λ path, ListAllFile fuel path subfix) path subfix es
      end
  end.
End list.

(** [kill(pid, 0) == 0] is [alive]; [line] is what [getline] reads, if the file
    exists and is not empty. *)
Definition IsRunningPidfile (exists_ : bool) (line : option string) (alive : Z → bool) : bool :=
  if negb exists_ then false
  else
    match line with
    | None => false
    | Some line =>
        if bool_decide (line = ""%string) then false
        else
          let pid := atoi (bytes_of_string line) in
          if pid <=? 1 then false else alive pid
    end.

(** *** [Mkdir] *)
Class FileSystem (F : Type) := {
  fs_lstat : string → F → bool;
  fs_access : string → F → bool;
  fs_mkdir : string → F → bool * F
}.
Section mkdir.
Context {F : Type} `{FileSystem F}.
Definition mkdir1 (dirname : string) : ST F bool := λ f,
  if fs_access dirname f then Ret true f else let (ok, f) := fs_mkdir dirname f in Ret ok f.
(** The index of the next slash from [i] on. *)
Fixpoint next_slash (l : list Ascii.ascii) (i : nat) : option nat :=
  match l with
  | [] => None
  | c :: l => if char_code c =? 47 then Some i else next_slash l (S i)
  end.
Definition prefix_path (l : list Ascii.ascii) (i : nat) : string := String.string_of_list_ascii (take i l).
(** The loop over the slashes, then the whole path. *)
Fixpoint mkdir_loop (fuel : nat) (l : list Ascii.ascii) (ptr : option nat) : ST F bool :=
  match ptr with
  | None => mkdir1 (prefix_path l (length l))
  | Some i =>
      match fuel with
      | O => crash Diverges
      | S fuel =>
          let* ok := mkdir1 (prefix_path l i) in
          if ok : bool then mkdir_loop fuel l (next_slash (drop (i + 1) l) (i + 1)) else ret false
      end
  end.
(** [path + 1] of an empty path is past its terminating zero. *)
Definition Mkdir (dirname : string) : ST F bool :=
  let* f := gets id in
  if fs_lstat dirname f then ret true
  else if bool_decide (dirname = ""%string) then crash OutOfBounds
  else
    let l := String.list_ascii_of_string dirname in
    mkdir_loop (length l) l (next_slash (drop 1 l) 1).
End mkdir.

(** ** The files that are listed and the directories that are made *)
Section list.
Context (readdir : string → option (list (string * dtype))) (subfix : string).

Definition join (path name : string) : string := path +:+ "/" +:+ name.
Definition enters (name : string) : Prop := name ≠ "."%string ∧ name ≠ ".."%string.
(** The regular files below a directory whose name has the ending. *)
Inductive below : string → string → Prop :=
  | below_file path es name : readdir path = Some es → (name, DT_REG) ∈ es →
      subfix = ""%string ∨ ends_with subfix name = true → below path (join path name)
  | below_dir path es name file : readdir path = Some es → (name, DT_DIR) ∈ es → enters name →
      below (join path name) file → below path file.
(** The directories end after [n] levels. *)
Fixpoint shallow (n : nat) (path : string) : Prop :=
  match readdir path with
  | None => True
  | Some es => match n with O => False | S n => ∀ name, (name, DT_DIR) ∈ es → enters name → shallow n (join path name) end
  end.

(** What one entry gives, and a list of entries. *)
Definition gives (path : string) (e : string * dtype) (f : string) : Prop :=
  match e.2 with
  | DT_REG => (subfix = ""%string ∨ ends_with subfix e.1 = true) ∧ f = join path e.1
  | DT_DIR => enters e.1 ∧ below (join path e.1) f
  | DT_OTHER => False
  end.
Lemma below_gives path es f : readdir path = Some es → below path f ↔ Exists (λ e, gives path e f) es.
Proof using.
  intros E. rewrite Exists_exists. split.
  - inversion 1 as [? es' name E' Hin Hc|? es' name ? E' Hin He Hb]; subst; assert (es' = es) as -> by congruence; eexists; (split; [exact Hin|]); by split.
  - intros ([name []] & Hin & Hg); cbn in Hg; [..|done].
    + destruct Hg. by eapply below_dir.
    + destruct Hg as [? ->]. by eapply below_file.
Qed.
(** One directory, if its subdirectories are listed. *)
Lemma list_entries_lists (rec : string → ST (list string) unit) path es :
  (∀ name, (name, DT_DIR) ∈ es → enters name → ∀ files, ∃ out, rec (join path name) files = Ret tt (files ++ out) ∧ ∀ f, f ∈ out ↔ below (join path name) f) →
  ∀ files, ∃ out, list_entries rec path subfix es files = Ret tt (files ++ out) ∧ ∀ f, f ∈ out ↔ Exists (λ e, gives path e f) es.
Proof using.
  induction es as [|[name t] es IHes]; intros Hrec fs.
  { exists []. rewrite app_nil_r. split; [done|]. intros f. rewrite Exists_nil. by rewrite elem_of_nil. }
  assert (∀ fs, ∃ out, list_entries rec path subfix es fs = Ret tt (fs ++ out) ∧ ∀ f, f ∈ out ↔ Exists (λ e, gives path e f) es) as IH.
  { intros fs'. apply IHes. intros m Hm He. apply Hrec; [by right|done]. }
  (* an entry that gives the files [out1] *)
  assert (∀ fs1 out1, fs1 = fs ++ out1 → (∀ f, f ∈ out1 ↔ gives path (name, t) f) →
    ∃ out, list_entries rec path subfix es fs1 = Ret tt (fs ++ out) ∧ ∀ f, f ∈ out ↔ Exists (λ e, gives path e f) ((name, t) :: es)) as Hone.
  { intros fs1 out1 -> H1. destruct (IH (fs ++ out1)) as (out & Eo & Ho). exists (out1 ++ out). split; [by rewrite Eo, (assoc_L (++))|].
    intros f. by rewrite elem_of_app, Exists_cons, H1, Ho. }
  cbn [list_entries]. destruct t.
  - destruct (bool_decide (name = "."%string) || bool_decide (name = ".."%string)) eqn:En.
    + apply (Hone fs []); [by rewrite app_nil_r|]. intros f. rewrite elem_of_nil. split; [done|]. intros [[H1 H2] _].
      apply orb_true_iff in En as [?%bool_decide_eq_true|?%bool_decide_eq_true]; done.
    + apply orb_false_iff in En as [En1%bool_decide_eq_false En2%bool_decide_eq_false].
      destruct (Hrec name ltac:(left) (conj En1 En2) fs) as (out1 & E1 & H1). rewrite (bind_Ret _ _ _ _ _ E1).
      apply (Hone _ out1); [done|]. intros f. rewrite H1. split; [intros; by split|by intros [_ ?]].
  - destruct (bool_decide (subfix = ""%string) || ends_with subfix name) eqn:En.
    + apply (Hone _ [join path name]); [done|]. intros f. rewrite list_elem_of_singleton. apply orb_true_iff in En.
      split; [intros ->|by intros [_ ?]]. split; [|done]. destruct En as [?%bool_decide_eq_true|?]; auto.
    + apply (Hone fs []); [by rewrite app_nil_r|]. intros f. rewrite elem_of_nil. split; [done|].
      apply orb_false_iff in En as [En1%bool_decide_eq_false En2]. intros [[?|?] _]; cbn in *; congruence.
  - apply (Hone fs []); [by rewrite app_nil_r|]. intros f. by rewrite elem_of_nil.
Qed.

Lemma listing_ret n path files : shallow n path →
  ∃ out, ListAllFile readdir (S n) path subfix files = Ret tt (files ++ out) ∧ ∀ f, f ∈ out ↔ below path f.
Proof using.
  revert path files. induction n as [|n IH]; intros path files Hs; cbn [ListAllFile]; cbn in Hs; destruct (readdir path) as [es|] eqn:E; [done| | |].
  1, 3: exists []; rewrite app_nil_r; split; [done|]; intros f; split; [set_solver|]; inversion 1; congruence.
  destruct (list_entries_lists (λ path, ListAllFile readdir (S n) path subfix) path es) with (files := files) as (out & Eo & Ho).
  { intros name Hn He fs. apply IH. by apply Hs. }
  exists out. split; [done|]. intros f. by rewrite Ho, (below_gives path es).
Qed.

(** When the directories below a path end, the listing returns, and holds
    exactly the regular files below it whose names have the ending *)
Theorem files_listed n path files : shallow n path →
  ∃ out, ListAllFile readdir (S n) path subfix files = Ret tt (files ++ out) ∧ ∀ f, f ∈ out ↔ below path f.
Proof using. apply listing_ret. Qed.
End list.

Definition sample_dir (path : string) : option (list (string * dtype)) :=
  if bool_decide (path = "cfg"%string) then Some [(".", DT_DIR); ("a.yml", DT_REG); ("sub", DT_DIR); ("l.yml", DT_OTHER)]%string
  else if bool_decide (path = "cfg/sub"%string) then Some [("..", DT_DIR); ("b.yml", DT_REG); ("c.txt", DT_REG); ("yml", DT_REG)]%string else None.
Lemma files_listed_witness : shallow sample_dir 2 "cfg" ∧
  ∃ out, ListAllFile sample_dir 3 "cfg" ".yml" [] = Ret tt ([] ++ out) ∧ ∀ f, f ∈ out ↔ below sample_dir ".yml" "cfg" f.
Proof.
  assert (shallow sample_dir 2 "cfg") as H.
  { intros name Hn [H1 H2]. rewrite !elem_of_cons, elem_of_nil in Hn. destruct Hn as [[= ->]|[[=]|[[= ->]|[[=]|[]]]]]; [done|].
    intros name Hn [H3 H4]. rewrite !elem_of_cons, elem_of_nil in Hn. by destruct Hn as [[= ->]|[[=]|[[=]|[[=]|[]]]]]. }
  split; [exact H|]. apply (files_listed sample_dir ".yml" 2 "cfg" [] H).
Defined.
Lemma sample_listed : ListAllFile sample_dir 3 "cfg" ".yml" [] = Ret tt ["cfg/a.yml"; "cfg/sub/b.yml"]%string.
Proof. reflexivity. Qed.

(** ** Directories *)
Class FileLaws (F : Type) `{FileSystem F} : Prop := {
  mkdir_made p f : (fs_mkdir p f).1 = true → fs_access p (fs_mkdir p f).2 = true;
  mkdir_keeps p q f : fs_access q f = true → fs_access q (fs_mkdir p f).2 = true
}.

Section mkdir.
Context {F : Type} `{FileLaws F}.

(** The directories of a path: up to a slash that is not the first character, and all of it. *)
Definition cut_at (l : list Ascii.ascii) (i : nat) : Prop := i = length l ∨ ((0 < i)%nat ∧ ∃ c, l !! i = Some c ∧ char_code c = 47).

Lemma next_slash_Some l : ∀ k i, next_slash (drop k l) k = Some i → (k ≤ i)%nat ∧ (∃ c, l !! i = Some c ∧ char_code c = 47)
  ∧ ∀ j c, (k ≤ j < i)%nat → l !! j = Some c → char_code c ≠ 47.
Proof using.
  assert (∀ m k i, next_slash m k = Some i → (k ≤ i)%nat ∧ (∃ c, m !! (i - k)%nat = Some c ∧ char_code c = 47)
    ∧ ∀ j c, (j < i - k)%nat → m !! j = Some c → char_code c ≠ 47) as Hg.
  { induction m as [|c m IH]; intros k i; cbn; [done|]. destruct (Z.eqb_spec (char_code c) 47) as [E|E].
    - intros [= <-]. rewrite Nat.sub_diag. split_and!; [lia|by exists c|lia].
    - intros (Hle & (c' & Hc' & E') & Hn)%IH. split_and!; [lia|exists c'; replace (i - k)%nat with (S (i - S k)) by lia; done|].
      intros [|j] d Hj; cbn; [by intros [= <-]|]. apply Hn. lia. }
  intros k i (Hle & (c & Hc & E) & Hn)%Hg. rewrite lookup_drop in Hc. split_and!; [done|exists c; split; [|done]; rewrite <- Hc; f_equal; lia|].
  intros j d Hj Hd. apply (Hn (j - k)%nat d); [lia|]. rewrite lookup_drop, <- Hd. f_equal. lia.
Qed.
Lemma next_slash_None l k j c : next_slash (drop k l) k = None → (k ≤ j)%nat → l !! j = Some c → char_code c ≠ 47.
Proof using.
  assert (∀ m k, next_slash m k = None → ∀ j c, m !! j = Some c → char_code c ≠ 47) as Hg.
  { induction m as [|d m IH]; intros k'; cbn; [done|]. destruct (Z.eqb_spec (char_code d) 47) as [E|E]; [done|].
    intros Hm [|i] d'; cbn; [by intros [= <-]|by apply (IH (S k'))]. }
  intros Hm Hk Hj. apply (Hg _ _ Hm (j - k)%nat). rewrite lookup_drop, <- Hj. f_equal. lia.
Qed.

Lemma mkdir1_ret p f : ∃ b f', mkdir1 p f = Ret b f' ∧ (b = true → fs_access p f' = true) ∧ (∀ q, fs_access q f = true → fs_access q f' = true)
  ∧ (b = false → ∃ g, (fs_mkdir p g).1 = false ∧ fs_access p g = false).
Proof using All.
  unfold mkdir1. destruct (fs_access p f) eqn:E; [by eexists true, f|]. pose proof (mkdir_made p f) as Hm. pose proof (λ q, mkdir_keeps p q f) as Hk.
  destruct (fs_mkdir p f) as [b f'] eqn:Ef. cbn in *. exists b, f'. split_and!; [done..|]. intros ->. exists f. by rewrite Ef.
Qed.

(** The rest of the loop, when the directories before [ptr] are there. *)
Lemma mkdir_loop_ret l fuel : ∀ ptr k f, (length l - k ≤ fuel)%nat → (0 < k)%nat → ptr = next_slash (drop k l) k →
  (∀ i, cut_at l i → (i < k)%nat → i ≠ length l → fs_access (prefix_path l i) f = true) →
  ∃ b f', mkdir_loop fuel l ptr f = Ret b f' ∧ (b = true → ∀ i, cut_at l i → fs_access (prefix_path l i) f' = true)
  ∧ (b = false → ∃ i g, cut_at l i ∧ (fs_mkdir (prefix_path l i) g).1 = false ∧ fs_access (prefix_path l i) g = false).
Proof using All.
  induction fuel as [|fuel IH]; intros ptr k f Hf Hk Hp Hall; destruct ptr as [i|].
  1: { symmetry in Hp. apply next_slash_Some in Hp as (? & (c & Hc & _) & _). apply lookup_lt_Some in Hc. lia. }
  2: { pose proof Hp as Hs. symmetry in Hs. apply next_slash_Some in Hs as (Hle & (c & Hc & Ec) & Hn). pose proof (lookup_lt_Some _ _ _ Hc) as Hi.
    cbn [mkdir_loop]. destruct (mkdir1_ret (prefix_path l i) f) as (b & f1 & E1 & Hb & Hkeep & Hno). rewrite (bind_Ret _ _ _ _ _ E1).
    destruct b; [|exists false, f1; split_and!; [done..|]; intros _; destruct (Hno eq_refl) as (g & Hg); exists i, g; split; [right; split; [lia|by exists c]|done]].
    apply (IH _ (i + 1)%nat); [lia..|done|]. intros j Hj Hlt Hne. destruct (decide (j = i)) as [->|Hji]; [by apply Hb|].
    apply Hkeep, Hall; [done| |done]. destruct Hj as [?|[Hj (d & Hd & Ed)]]; [done|].
    destruct (decide (j < k)%nat); [done|]. exfalso. apply (Hn j d); [lia|done|done]. }
  all: cbn [mkdir_loop]; destruct (mkdir1_ret (prefix_path l (length l)) f) as (b & f1 & E1 & Hb & Hkeep & Hno); exists b, f1; split_and!; [done| |].
  1, 3: intros ->; intros i [-> |[Hi (c & Hc & Ec)]]; [by apply Hb|]; apply Hkeep, Hall; [right; split; [done|by exists c]| |apply lookup_lt_Some in Hc; lia];
    destruct (decide (i < k)%nat); [done|]; exfalso; apply (next_slash_None l k i c); [done|lia|done|done].
  all: intros ->; destruct (Hno eq_refl) as (g & Hg); exists (length l), g; split; [by left|done].
Qed.

Lemma Mkdir_ret dirname f : dirname ≠ ""%string → let l := String.list_ascii_of_string dirname in
  ∃ b f', Mkdir dirname f = Ret b f'
  ∧ (b = true → fs_lstat dirname f = true ∨ (fs_access dirname f' = true ∧ ∀ i, cut_at l i → fs_access (prefix_path l i) f' = true))
  ∧ (b = false → ∃ i g, cut_at l i ∧ (fs_mkdir (prefix_path l i) g).1 = false ∧ fs_access (prefix_path l i) g = false).
Proof using All.
  intros Hne l. unfold Mkdir. rewrite bind_gets. cbv beta. unfold id. destruct (fs_lstat dirname f); [exists true, f; by split_and!; [|left|]|].
  rewrite bool_decide_false by done. fold l. destruct (mkdir_loop_ret l (length l) (next_slash (drop 1 l) 1) 1 f) as (b & f' & E & Ht & Hn); [lia..|done| |].
  { intros i [?|[? _]] ? ?; [done|lia]. }
  exists b, f'. split_and!; [done| |done]. intros Hb. right. split; [|by apply Ht].
  assert (prefix_path l (length l) = dirname) as El by (unfold prefix_path, l; rewrite take_ge by lia; apply String.string_of_list_ascii_of_string).
  rewrite <- El. apply Ht; [done|by left].
Qed.
(** Making a directory returns; with success the path was there before, or it
    and every directory on the way can be accessed; without, one of them could
    neither be accessed nor made *)
Theorem Mkdir_makes dirname f : dirname ≠ ""%string → let l := String.list_ascii_of_string dirname in
  ∃ b f', Mkdir dirname f = Ret b f'
  ∧ (b = true → fs_lstat dirname f = true ∨ (fs_access dirname f' = true ∧ ∀ i, cut_at l i → fs_access (prefix_path l i) f' = true))
  ∧ (b = false → ∃ i g, cut_at l i ∧ (fs_mkdir (prefix_path l i) g).1 = false ∧ fs_access (prefix_path l i) g = false).
Proof using All. apply Mkdir_ret. Qed.
End mkdir.

(** A file system where directories are made below directories only. *)
#[local] Instance sample_files : FileSystem (gset string) := {
  fs_lstat p f := bool_decide (p ∈ f);
  fs_access p f := bool_decide (p ∈ f);
  fs_mkdir p f := if bool_decide (p = "/root"%string) then (false, f) else (true, {[p]} ∪ f)
}.
#[local] Instance sample_file_laws : FileLaws (gset string).
Proof.
  split.
  - intros p f. cbn. destruct (bool_decide (p = "/root"%string)); cbn; [done|]. intros _. apply bool_decide_eq_true. set_solver.
  - intros p q f. cbn. intros Hq%bool_decide_eq_true. apply bool_decide_eq_true. destruct (bool_decide (p = "/root"%string)); set_solver.
Qed.
Lemma Mkdir_makes_witness : "/apps/work"%string ≠ ""%string ∧ let l := String.list_ascii_of_string "/apps/work" in
  ∃ b f', Mkdir "/apps/work" (∅ : gset string) = Ret b f'
  ∧ (b = true → fs_lstat "/apps/work" (∅ : gset string) = true ∨ (fs_access "/apps/work" f' = true ∧ ∀ i, cut_at l i → fs_access (prefix_path l i) f' = true))
  ∧ (b = false → ∃ i (g : gset string), cut_at l i ∧ (fs_mkdir (prefix_path l i) g).1 = false ∧ fs_access (prefix_path l i) g = false).
Proof. split; [done|]. apply (Mkdir_makes "/apps/work" (∅ : gset string)). done. Defined.
Lemma sample_made : (λ f, bool_decide ("/apps" ∈ f ∧ "/apps/work" ∈ f)%string) <$> (match Mkdir "/apps/work" (∅ : gset string) with Ret true f => Some f | _ => None end) = Some true.
Proof. vm_compute. reflexivity. Qed.
