(* ===== verification/LexicalCast.v ===== *)
(** * LexicalCast: conversions between texts and values ([include/config.h])

    [boost::lexical_cast] and the functions of yaml-cpp that the conversions call
    are parameters; [None] is a [std::exception] that they throw. *)
From S2P Require Import Prelude OrderedSet.

(** [std::less<std::string>] *)
Fixpoint string_less (a b : string) : bool :=
  match a, b with
  | _, ""%string => false
  | ""%string, _ => true
  | String x a, String y b =>
      if char_code x <? char_code y then true
      else if char_code y <? char_code x then false else string_less a b
  end.

(** ** [YAML::Node], as far as the program uses it *)
Class Yaml := {
  node : Type;
  Load : string → option node;
  (** [ss << node] *)
  emit : node → string;
  IsMap : node → bool;
  IsScalar : node → bool;
  Scalar : node → string;
  node_size : node → nat;
  (** [node[i]] *)
  node_at : node → nat → node;
  (** [it->first.Scalar()] and [it->second] for the iterators of the node *)
  entries : node → option (list (string * node));
  null_node : node;
  push_back : node → node → node;
  (** [node[key] = value] *)
  set_key : string → node → node → node
}.

(** What the conversions of structures call besides. *)
Class YamlFields `{Yaml} := {
  (** [node[key]]: [None] when it throws, [Some None] when it is not defined *)
  field : node → string → option (option node);
  (** [as<std::string>()] *)
  as_string : node → option string;
  (** A node assigned from a string *)
  scalar_node : string → node
}.

(** [LexicalCast<F, T>()]; the base case is [boost::lexical_cast<T>]. *)
Class LexicalCast (F T : Type) := cast : F → option T.

(** ** The containers, as sequences of their elements in iteration order *)
Section containers.
Context `{Yaml} {T : Type} `{from : LexicalCast string T, to : LexicalCast T string}.

(** The loop of the conversion from a string: [add] is [push_back] or [insert]. *)
Fixpoint cast_elements (add : list T → T → list T) (n : node) (idx : list nat) (acc : list T) : option (list T) :=
  match idx with
  | [] => Some acc
  | i :: idx => x ← from (emit (node_at n i)); cast_elements add n idx (add acc x)
  end.
Definition sequence_from (add : list T → T → list T) (v : string) : option (list T) :=
  n ← Load v; cast_elements add n (seq 0 (node_size n)) [].
Fixpoint push_elements (l : list T) (n : node) : option node :=
  match l with
  | [] => Some n
  | x :: l => s ← to x; m ← Load s; push_elements l (push_back n m)
  end.
Definition sequence_to (l : list T) : option string := n ← push_elements l null_node; Some (emit n).

(** The same for maps with string keys; [add] is [insert]. *)
Fixpoint cast_entries (add : list (string * T) → string → T → list (string * T)) (es : list (string * node))
    (acc : list (string * T)) : option (list (string * T)) :=
  match es with
  | [] => Some acc
  | (k, m) :: es => x ← from (emit m); cast_entries add es (add acc k x)
  end.
Definition map_from (add : list (string * T) → string → T → list (string * T)) (v : string) : option (list (string * T)) :=
  n ← Load v; es ← entries n; cast_entries add es [].
Fixpoint set_entries (l : list (string * T)) (n : node) : option node :=
  match l with
  | [] => Some n
  | (k, x) :: l => s ← to x; m ← Load s; set_entries l (set_key k m n)
  end.
Definition map_to (l : list (string * T)) : option string := n ← set_entries l null_node; Some (emit n).
End containers.

(** [std::vector], [std::list] *)
Record vector (T : Type) := mkVector { vector_elems : list T }.
Arguments mkVector {T} _.
Arguments vector_elems {T} _.
#[export] Instance vector_from `{Yaml} {T} `{LexicalCast string T} : LexicalCast string (vector T) :=
  λ v, mkVector <$> sequence_from (λ l x, l ++ [x]) v.
#[export] Instance vector_to `{Yaml} {T} `{LexicalCast T string} : LexicalCast (vector T) string := λ v, sequence_to (vector_elems v).
Record std_list (T : Type) := mkList { list_elems : list T }.
Arguments mkList {T} _.
Arguments list_elems {T} _.
#[export] Instance list_from `{Yaml} {T} `{LexicalCast string T} : LexicalCast string (std_list T) :=
  λ v, mkList <$> sequence_from (λ l x, l ++ [x]) v.
#[export] Instance list_to `{Yaml} {T} `{LexicalCast T string} : LexicalCast (std_list T) string := λ v, sequence_to (list_elems v).

(** [std::set], in the order of [operator<] *)
Class Less (T : Type) := less : T → T → bool.
Record std_set (T : Type) := mkSet { set_elems : list T }.
Arguments mkSet {T} _.
Arguments set_elems {T} _.
#[export] Instance set_from `{Yaml} {T} `{LexicalCast string T, Less T} : LexicalCast string (std_set T) :=
  λ v, mkSet <$> sequence_from (λ l x, (set_insert less l x).1) v.
#[export] Instance set_to `{Yaml} {T} `{LexicalCast T string} : LexicalCast (std_set T) string := λ v, sequence_to (set_elems v).

(** [std::unordered_set], in the order of its buckets: [place] says where a new
    element comes. *)
Class Buckets (T : Type) := place : list T → T → nat.
Definition bucket_insert {T} `{EqDecision T, Buckets T} (l : list T) (x : T) : list T :=
  if decide (x ∈ l) then l else insert_at l (place l x) x.
Record unordered_set (T : Type) := mkUnordered { unordered_elems : list T }.
Arguments mkUnordered {T} _.
Arguments unordered_elems {T} _.
#[export] Instance unordered_from `{Yaml} {T} `{LexicalCast string T, EqDecision T, Buckets T} : LexicalCast string (unordered_set T) :=
  λ v, mkUnordered <$> sequence_from bucket_insert v.
#[export] Instance unordered_to `{Yaml} {T} `{LexicalCast T string} : LexicalCast (unordered_set T) string := λ v, sequence_to (unordered_elems v).

(** [std::map<std::string, T>] *)
Record std_map (T : Type) := mkMap { map_elems : list (string * T) }.
Arguments mkMap {T} _.
Arguments map_elems {T} _.
#[export] Instance std_map_from `{Yaml} {T} `{LexicalCast string T} : LexicalCast string (std_map T) :=
  λ v, mkMap <$> map_from (map_insert string_less) v.
#[export] Instance std_map_to `{Yaml} {T} `{LexicalCast T string} : LexicalCast (std_map T) string := λ v, map_to (map_elems v).

(** [std::unordered_map<std::string, T>] *)
Definition bucket_map_insert {T} `{Buckets string} (l : list (string * T)) (k : string) (x : T) : list (string * T) :=
  if decide (k ∈ l.*1) then l else insert_at l (place l.*1 k) (k, x).
Record unordered_map (T : Type) := mkUnorderedMap { unordered_map_elems : list (string * T) }.
Arguments mkUnorderedMap {T} _.
Arguments unordered_map_elems {T} _.
#[export] Instance unordered_map_from `{Yaml} {T} `{LexicalCast string T, Buckets string} : LexicalCast string (unordered_map T) :=
  λ v, mkUnorderedMap <$> map_from bucket_map_insert v.
#[export] Instance unordered_map_to `{Yaml} {T} `{LexicalCast T string} : LexicalCast (unordered_map T) string := λ v, map_to (unordered_map_elems v).

(** ** Containers survive the conversion to YAML and back *)
#[export] Instance string_less_order : StrictWeakOrder string_less.
Proof.
  constructor.
  - intros a. induction a as [|x a IH]; intros [|y b]; cbn; try done.
    destruct (Z.ltb_spec (char_code x) (char_code y)), (Z.ltb_spec (char_code y) (char_code x)); try done; [lia|apply IH].
  - intros a. induction a as [|x a IH]; intros [|y b] [|z c]; cbn; try done.
    destruct (Z.ltb_spec (char_code x) (char_code y)); [done|]. destruct (Z.ltb_spec (char_code y) (char_code z)); [done|].
    destruct (Z.ltb_spec (char_code y) (char_code x)), (Z.ltb_spec (char_code z) (char_code y)); intros Hab Hbc;
      rewrite (proj2 (Z.ltb_ge (char_code x) (char_code z))) by lia; try (rewrite (proj2 (Z.ltb_lt (char_code z) (char_code x))) by lia; done).
    assert (char_code z = char_code x) as -> by lia. rewrite Z.ltb_irrefl. by eapply IH.
Qed.

(** What yaml-cpp promises of the nodes that the program builds: a sequence or
    map of loaded nodes has those elements and survives [<<] and [Load]. *)
Definition seq_of `{Yaml} (l : list node) : node := foldl push_back null_node l.
Definition map_of `{Yaml} (l : list (string * node)) : node := foldl (λ n kv, set_key kv.1 kv.2 n) null_node l.
Definition loaded `{Yaml} (n : node) : Prop := ∃ s, Load s = Some n.
Class YamlLaws `{Yaml} : Prop := {
  size_seq l : Forall loaded l → node_size (seq_of l) = length l;
  at_seq l i n : Forall loaded l → l !! i = Some n → node_at (seq_of l) i = n;
  load_seq l : Forall loaded l → Load (emit (seq_of l)) = Some (seq_of l);
  entries_map l : Forall (loaded ∘ snd) l → NoDup l.*1 → entries (map_of l) = Some l;
  load_map l : Forall (loaded ∘ snd) l → NoDup l.*1 → Load (emit (map_of l)) = Some (map_of l)
}.

(** A value that survives, also as a part of a node. *)
Definition plain `{Yaml} {T} `{LexicalCast string T, LexicalCast T string} (x : T) : Prop :=
  ∃ s n, cast x = Some s ∧ Load s = Some n ∧ cast s = Some x ∧ cast (emit n) = Some x.

Section casts.
Context `{YamlLaws} {T : Type} `{from : LexicalCast string T, to : LexicalCast T string}.

Lemma push_elements_seq l : Forall plain l → ∃ ns, Forall loaded ns ∧ Forall2 (λ x n, from (emit n) = Some x) l ns
  ∧ ∀ n, push_elements l n = Some (foldl push_back n ns).
Proof using.
  induction 1 as [|x l (s & n & E1 & E2 & _ & E4) _ (ns & Hns & H2 & E)]; [by exists []|].
  exists (n :: ns). split_and!; [constructor; [by exists s|done]|by constructor|]. intros m. cbn. unfold cast in E1. rewrite E1. cbn. rewrite E2. cbn. apply E.
Qed.
Lemma cast_elements_seq add n : ∀ l ns i acc, Forall2 (λ x n, from (emit n) = Some x) l ns → (∀ j m, ns !! j = Some m → node_at n (i + j) = m) →
  cast_elements add n (seq i (length ns)) acc = Some (foldl add acc l).
Proof using.
  intros l ns i acc H2. revert i acc. induction H2 as [|x m l ns Hx H2 IH]; intros i acc Hat; [done|]. cbn.
  rewrite <- (Nat.add_0_r i), (Hat 0%nat m eq_refl), Nat.add_0_r, Hx. cbn. apply IH. intros j m' Hj. rewrite Nat.add_succ_comm. by apply Hat.
Qed.
Lemma sequence_roundtrip l : Forall plain l → ∃ s n, sequence_to l = Some s ∧ Load s = Some n ∧ emit n = s
  ∧ ∀ add, sequence_from add s = Some (foldl add [] l).
Proof using All.
  intros Hl. destruct (push_elements_seq l Hl) as (ns & Hns & H2 & E). exists (emit (seq_of ns)), (seq_of ns).
  unfold sequence_to. rewrite E. cbn. split_and!; [done|by apply load_seq|done|]. intros add. unfold sequence_from. rewrite load_seq by done. cbn.
  rewrite size_seq by done. apply cast_elements_seq; [done|]. intros j m Hj. by apply at_seq.
Qed.

Lemma set_entries_map l : Forall (plain ∘ snd) l → ∃ ns, Forall (loaded ∘ snd) ns ∧ Forall2 (λ kx kn, kx.1 = kn.1 ∧ from (emit kn.2) = Some kx.2) l ns
  ∧ ∀ n, set_entries l n = Some (foldl (λ n kv, set_key kv.1 kv.2 n) n ns).
Proof using.
  induction 1 as [|[k x] l (s & n & E1 & E2 & _ & E4) _ (ns & Hns & H2 & E)]; [by exists []|]. cbn in *.
  exists ((k, n) :: ns). split_and!; [constructor; [by exists s|done]|by constructor|]. intros m. cbn. unfold cast in E1. rewrite E1. cbn. rewrite E2. cbn. apply E.
Qed.
Lemma cast_entries_map add l ns acc : Forall2 (λ kx kn, kx.1 = kn.1 ∧ from (emit kn.2) = Some kx.2) l ns →
  cast_entries add ns acc = Some (foldl (λ m kx, add m kx.1 kx.2) acc l).
Proof using.
  intros H2. revert acc. induction H2 as [|[k x] [k' n] l ns [Hk Hx] H2 IH]; intros acc; [done|]. cbn in *. subst k'. rewrite Hx. cbn. apply IH.
Qed.
Lemma map_roundtrip l : Forall (plain ∘ snd) l → NoDup l.*1 → ∃ s n, map_to l = Some s ∧ Load s = Some n ∧ emit n = s
  ∧ ∀ add, map_from add s = Some (foldl (λ m kx, add m kx.1 kx.2) [] l).
Proof using All.
  intros Hl Hd. destruct (set_entries_map l Hl) as (ns & Hns & H2 & E). exists (emit (map_of ns)), (map_of ns).
  assert (ns.*1 = l.*1) as Hk by (clear -H2; induction H2 as [|? ? ? ? [? ?] _ IH]; cbn; congruence). rewrite <- Hk in Hd.
  unfold map_to. rewrite E. cbn. split_and!; [done|by apply load_map|done|]. intros add. unfold map_from. rewrite load_map by done. cbn.
  rewrite entries_map by done. cbn. by apply cast_entries_map.
Qed.
End casts.

(** ** Rebuilding a container from its elements in order *)
Lemma foldl_push {T} (l acc : list T) : foldl (λ l x, l ++ [x]) acc l = acc ++ l.
Proof. revert acc. induction l as [|x l IH]; intros acc; cbn; [by rewrite app_nil_r|]. by rewrite IH, <- (assoc_L (++)). Qed.

Lemma lower_bound_end {E} (lt : E → E → bool) l x : Forall (λ y, lt y x = true) l → lower_bound lt l x = length l.
Proof. induction 1 as [|y l Hy _ IH]; cbn; [done|]. by rewrite Hy, IH. Qed.
Lemma set_find_end {E} (lt : E → E → bool) l x : Forall (λ y, lt y x = true) l → set_find lt l x = None.
Proof. intros H. unfold set_find. rewrite lower_bound_end by done. by rewrite lookup_ge_None_2. Qed.
Lemma insert_at_end {E} (l : list E) x : insert_at l (length l) x = l ++ [x].
Proof. unfold insert_at. by rewrite take_ge, drop_ge by lia. Qed.
Lemma sorted_before {E} (lt : E → E → bool) acc x l : sorted lt (acc ++ x :: l) → Forall (λ y, lt y x = true) acc.
Proof.
  induction acc as [|y acc IH]; intros Hs; [done|]. inversion Hs as [|? ? Hs' Hy]; subst. constructor; [|by apply IH].
  rewrite List.Forall_forall in Hy. apply Hy, in_app_iff. by right; left.
Qed.
Lemma foldl_set_insert {E} (lt : E → E → bool) l : ∀ acc, sorted lt (acc ++ l) → foldl (λ l x, (set_insert lt l x).1) acc l = acc ++ l.
Proof.
  induction l as [|x l IH]; intros acc Hs; cbn; [by rewrite app_nil_r|]. pose proof (sorted_before lt acc x l Hs) as Hx.
  assert ((set_insert lt acc x).1 = acc ++ [x]) as -> by (unfold set_insert; rewrite set_find_end, lower_bound_end by done; apply insert_at_end).
  rewrite IH; by rewrite <- (assoc_L (++)).
Qed.
Lemma foldl_map_insert {V} (l : list (string * V)) : ∀ acc, map_sorted string_less (acc ++ l) →
  foldl (λ m kx, map_insert string_less m kx.1 kx.2) acc l = acc ++ l.
Proof.
  induction l as [|[k x] l IH]; intros acc Hs; cbn; [by rewrite app_nil_r|].
  assert (Forall (λ y, string_less y k = true) acc.*1) as Hk by (unfold map_sorted in Hs; rewrite fmap_app in Hs; by apply sorted_before in Hs).
  assert (map_insert string_less acc k x = acc ++ [(k, x)]) as ->.
  { unfold map_insert. rewrite set_find_end, lower_bound_end by done. rewrite length_fmap. apply insert_at_end. }
  rewrite IH; by rewrite <- (assoc_L (++)).
Qed.
Lemma insert_at_perm {E} (l : list E) i x : insert_at l i x ≡ₚ x :: l.
Proof. unfold insert_at. by rewrite <- Permutation_middle, take_drop. Qed.
Lemma foldl_bucket_insert {E} `{EqDecision E, Buckets E} (l : list E) : ∀ acc acc', acc ≡ₚ acc' → NoDup (acc' ++ l) → foldl bucket_insert acc l ≡ₚ acc' ++ l.
Proof.
  induction l as [|x l IH]; intros acc acc' Hp Hd; cbn; [by rewrite app_nil_r|].
  rewrite (IH _ (acc' ++ [x])); [by rewrite <- (assoc_L (++))| |by rewrite <- (assoc_L (++))].
  unfold bucket_insert. rewrite decide_False.
  - by rewrite insert_at_perm, Hp, Permutation_cons_append.
  - rewrite Hp. apply NoDup_app in Hd as (_ & Hd & _). intros Hx. apply (Hd x Hx). left.
Qed.
Lemma foldl_bucket_map {V} `{Buckets string} (l : list (string * V)) : ∀ acc acc', acc ≡ₚ acc' → NoDup (acc' ++ l).*1 →
  foldl (λ m kx, bucket_map_insert m kx.1 kx.2) acc l ≡ₚ acc' ++ l.
Proof.
  induction l as [|[k x] l IH]; intros acc acc' Hp Hd; cbn; [by rewrite app_nil_r|].
  rewrite (IH _ (acc' ++ [(k, x)])); [by rewrite <- (assoc_L (++))| |by rewrite <- (assoc_L (++))].
  unfold bucket_map_insert. rewrite decide_False.
  - by rewrite insert_at_perm, Hp, Permutation_cons_append.
  - rewrite Hp. rewrite fmap_app in Hd. apply NoDup_app in Hd as (_ & Hd & _). intros Hx. apply (Hd k Hx). left.
Qed.

(** A container whose elements survive the conversion survives it, also as an
    element of another container: vectors and lists keep their order, sets and
    maps their order and keys, unordered ones their elements *)
Theorem containers_roundtrip `{YamlLaws} {T} `{LexicalCast string T, LexicalCast T string} :
  (∀ l : list T, Forall plain l → plain (mkVector l) ∧ plain (mkList l)
    ∧ (∀ `{Less T}, sorted less l → plain (mkSet l))
    ∧ (∀ `{EqDecision T, Buckets T}, NoDup l → ∃ s l', cast (mkUnordered l) = Some s ∧ cast s = Some (mkUnordered l') ∧ l' ≡ₚ l))
  ∧ (∀ m : list (string * T), Forall (plain ∘ snd) m →
    (map_sorted string_less m → plain (mkMap m))
    ∧ (∀ `{Buckets string}, NoDup m.*1 → ∃ s m', cast (mkUnorderedMap m) = Some s ∧ cast s = Some (mkUnorderedMap m') ∧ m' ≡ₚ m)).
Proof.
  split.
  - intros l Hl. destruct (sequence_roundtrip l Hl) as (s & n & E1 & E2 & E3 & E4). unfold plain, cast. split_and!.
    + exists s, n. unfold vector_to, vector_from. rewrite E3, E4, foldl_push. by split_and!.
    + exists s, n. unfold list_to, list_from. rewrite E3, E4, foldl_push. by split_and!.
    + intros lt Hs. exists s, n. unfold set_to, set_from. rewrite E3, E4, (foldl_set_insert _ l []) by done. by split_and!.
    + intros Heq Hb Hd. eexists s, _. unfold unordered_to, unordered_from. rewrite E4. split_and!; [done..|]. by apply (foldl_bucket_insert l [] []).
  - intros m Hm. split.
    + intros Hs. assert (NoDup m.*1) as Hd by (by apply (sorted_NoDup string_less)).
      destruct (map_roundtrip m Hm Hd) as (s & n & E1 & E2 & E3 & E4). unfold plain, cast. exists s, n. unfold std_map_to, std_map_from.
      rewrite E3, E4, (foldl_map_insert m []) by done. by split_and!.
    + intros Hb Hd. destruct (map_roundtrip m Hm Hd) as (s & n & E1 & E2 & E3 & E4). eexists s, _. unfold cast, unordered_map_to, unordered_map_from.
      rewrite E4. split_and!; [done..|]. by apply (foldl_bucket_map m [] []).
Qed.

(** ** A text format for nodes

    Scalars that do not start with an exclamation mark stand for themselves;
    everything else is the number of the node in binary behind one. *)
Fixpoint bits (p : positive) : string :=
  match p with xH => "" | xO p => String (code_char 48) (bits p) | xI p => String (code_char 49) (bits p) end.
Fixpoint unbits (s : string) : positive :=
  match s with "" => xH | String c s => if char_code c =? 48 then xO (unbits s) else xI (unbits s) end.
Lemma unbits_bits p : unbits (bits p) = p.
Proof. induction p as [p IH|p IH|]; [change (xI (unbits (bits p)) = xI p)|change (xO (unbits (bits p)) = xO p)|done]; by rewrite IH. Qed.

Definition tree : Type := gen_tree string.
Definition marked (s : string) : bool := match s with String c _ => char_code c =? 33 | "" => false end.
Definition tree_emit (t : tree) : string :=
  match t with
  | GenLeaf s => if marked s then String (code_char 33) (bits (encode t)) else s
  | _ => String (code_char 33) (bits (encode t))
  end.
Definition tree_load (s : string) : option tree :=
  if marked s then match s with String _ s => decode (unbits s) | "" => None end%string else Some (GenLeaf s).
Fixpoint tree_pairs (l : list tree) : option (list (string * tree)) :=
  match l with
  | [] => Some []
  | GenLeaf k :: v :: l => m ← tree_pairs l; Some ((k, v) :: m)
  | _ => None
  end.
#[local] Instance tree_yaml : Yaml := {
  node := tree; Load := tree_load; emit := tree_emit;
  IsMap t := match t with GenNode 1 _ => true | _ => false end;
  IsScalar t := match t with GenLeaf _ => true | _ => false end;
  Scalar t := match t with GenLeaf s => s | _ => "" end;
  node_size t := match t with GenNode _ l => length l | GenLeaf _ => 0%nat end;
  node_at t i := match t with GenNode _ l => default (GenNode 0 []) (l !! i) | GenLeaf _ => GenNode 0 [] end;
  entries t := match t with GenNode 0 [] => Some [] | GenNode 1 l => tree_pairs l | _ => None end;
  null_node := GenNode 0 [];
  push_back t u := match t with GenNode 0 l => GenNode 0 (l ++ [u]) | _ => t end;
  set_key k v t := match t with GenNode _ l => GenNode 1 (l ++ [GenLeaf k; v]) | _ => t end
}.
Lemma tree_load_emit t : tree_load (tree_emit t) = Some t.
Proof.
  assert (tree_load (String (code_char 33) (bits (encode t))) = Some t) as H.
  { change (decode (unbits (bits (encode t))) = Some t). by rewrite unbits_bits, decode_encode. }
  destruct t as [s|n l]; cbn -[encode]; [|exact H]. destruct (marked s) eqn:E; [exact H|]. unfold tree_load. by rewrite E.
Qed.
Lemma tree_seq l : seq_of l = GenNode 0 l.
Proof.
  unfold seq_of. assert (∀ acc, foldl push_back (GenNode 0 acc : tree) l = GenNode 0 (acc ++ l)) as H; [|apply (H [])].
  induction l as [|x l IH]; intros acc; cbn; [by rewrite app_nil_r|]. by rewrite IH, <- (assoc_L (++)).
Qed.
Definition flat (m : list (string * tree)) : list tree := concat ((λ kv, [GenLeaf kv.1; kv.2]) <$> m).
Lemma tree_map kv m : map_of (kv :: m) = GenNode 1 (flat (kv :: m)).
Proof.
  unfold map_of. cbn [foldl set_key tree_yaml null_node]. assert (∀ acc, foldl (λ n kv, set_key kv.1 kv.2 n) (GenNode 1 acc : tree) m = GenNode 1 (acc ++ flat m)) as H; [|apply H].
  induction m as [|x m IH]; intros acc; cbn; [by rewrite app_nil_r|]. by rewrite IH, <- (assoc_L (++)).
Qed.
Lemma tree_pairs_flat m : tree_pairs (flat m) = Some m.
Proof.
  induction m as [|[k v] m IH]; [done|].
  change (tree_pairs (flat ((k, v) :: m))) with (m' ← tree_pairs (flat m); Some ((k, v) :: m')). by rewrite IH.
Qed.
#[local] Instance tree_laws : YamlLaws.
Proof.
  split.
  - intros l _. by rewrite tree_seq.
  - intros l i n _ Hn. rewrite tree_seq. exact (f_equal (default (GenNode 0 [] : tree)) Hn).
  - intros l _. apply tree_load_emit.
  - intros [|kv m] _ _; [done|]. rewrite tree_map. apply tree_pairs_flat.
  - intros l _ _. apply tree_load_emit.
Qed.

#[local] Instance tree_fields : YamlFields := {
  field n key :=
    match n : tree with
    | GenNode 1 l => m ← tree_pairs l; Some (snd <$> List.find (λ kv, String.eqb kv.1 key) m)
    | GenNode _ _ => Some None
    | GenLeaf _ => None
    end;
  as_string n := match n : tree with GenLeaf s => Some s | _ => None end;
  scalar_node s := (GenLeaf s : tree)
}.

#[local] Instance digit_from : LexicalCast string bool := λ s,
  if bool_decide (s = "1"%string) then Some true else if bool_decide (s = "0"%string) then Some false else None.
#[local] Instance digit_to : LexicalCast bool string := λ b, Some (if b then "1" else "0")%string.

Lemma containers_roundtrip_witness :
  YamlLaws ∧ Forall plain [true; false; true] ∧ plain (mkVector [mkVector [true; false; true]; mkVector []])
  ∧ plain (mkMap [("a", mkVector [true]); ("b", mkVector [])]%string).
Proof.
  assert (∀ b : bool, plain b) as Hb by (intros []; [exists "1"%string, (GenLeaf "1"%string)|exists "0"%string, (GenLeaf "0"%string)]; split_and!; vm_compute; reflexivity).
  assert (∀ l : list bool, plain (mkVector l)) as Hv.
  { intros l. apply (proj1 (containers_roundtrip (T := bool)) l). apply Forall_true, Hb. }
  split; [exact tree_laws|]. split; [repeat constructor; apply Hb|]. split.
  - apply (proj1 (containers_roundtrip (T := vector bool)) [mkVector [true; false; true]; mkVector []]). repeat constructor; apply Hv.
  - apply (proj2 (containers_roundtrip (T := vector bool)) [("a", mkVector [true]); ("b", mkVector [])]%string).
    + repeat constructor; apply Hv.
    + repeat constructor.
Defined.
