(* ===== verification/Config.v ===== *)
(** * Config: configuration variables and their registry ([include/config.h], [src/config.cpp])

    The value types that the program instantiates the templates with are the
    codes of a universe [ConfigTypes].  A variable is never removed, and is found
    under its name, so the name (with the type) stands for the pointer.  The
    callbacks of the listeners work on the rest of the program, [W].  Each
    operation is one step under its lock; what is logged is not modelled. *)
From S2P Require Import Prelude CLib Words OrderedSet LexicalCast Files Env.

Class ConfigTypes := {
  code : Type;
  code_eq :: EqDecision code;
  El : code → Type;
  (** [operator==] *)
  El_eq : ∀ c, El c → El c → bool;
  El_from :: ∀ c, LexicalCast string (El c);
  El_to :: ∀ c, LexicalCast (El c) string
}.

Definition lower (s : string) : string := string_of_bytes (tolower <$> bytes_of_string s).
(** The characters of [find_first_not_of]. *)
Definition name_char (c : Z) : bool := between 97 122 c || (c =? 46) || (c =? 95) || between 48 57 c.

Section config.
Context `{ConfigTypes} {W : Type}.

(** ** [ConfigVar<T>] *)
Definition on_change_cb (c : code) : Type := El c → El c → ST W unit.
Record ConfigVar (c : code) := mkVar {
  m_name : string; m_description : string; m_val : El c; m_cbs : list (Z * on_change_cb c)
}.
Arguments mkVar {c} _ _ _ _.
Arguments m_name {c} _.
Arguments m_description {c} _.
Arguments m_val {c} _.
Arguments m_cbs {c} _.
Definition ConfigVar_new {c} (name : string) (default_value : El c) (description : string) : ConfigVar c :=
  mkVar (lower name) description default_value [].
Definition set_m_val {c} v (x : ConfigVar c) : ConfigVar c := mkVar (m_name x) (m_description x) v (m_cbs x).
Definition set_m_cbs {c} v (x : ConfigVar c) : ConfigVar c := mkVar (m_name x) (m_description x) (m_val x) v.

(** A [ConfigVarBase] with its dynamic type. *)
Definition any_var : Type := { c : code & ConfigVar c }.
(** [s_fun_ids] has the static counter of each instance of the template. *)
Record config := mkConfig {
  s_data : list (string * any_var); s_fun_ids : code → Z; s_file2modifytime : gmap string Z; outside : W
}.
Definition set_data v s := mkConfig v (s_fun_ids s) (s_file2modifytime s) (outside s).
Definition set_fun_ids v s := mkConfig (s_data s) v (s_file2modifytime s) (outside s).
Definition set_modifytime v s := mkConfig (s_data s) (s_fun_ids s) v (outside s).
Definition set_outside v s := mkConfig (s_data s) (s_fun_ids s) (s_file2modifytime s) v.

Definition find_var (name : string) (s : config) : option any_var := map_find string_less (s_data s) name.
(** [std::dynamic_pointer_cast<ConfigVar<T>>] *)
Definition dynamic_cast (c : code) (x : any_var) : option (ConfigVar c) :=
  match decide (projT1 x = c) with left e => Some (eq_rect _ ConfigVar (projT2 x) c e) | right _ => None end.

Definition var_of (c : code) (name : string) : ST config (ConfigVar c) := λ s,
  match find_var name s ≫= dynamic_cast c with Some x => Ret x s | None => Crash NullDeref end.
Definition put_var {c} (name : string) (x : ConfigVar c) : ST config unit :=
  modify (λ s, set_data (map_set string_less (s_data s) name (existT c x)) s).
Definition on_outside {A} (m : ST W A) : ST config A := λ s,
  match m (outside s) with
  | Ret a w => Ret a (set_outside w s)
  | Throw e w => Throw e (set_outside w s)
  | Crash f => Crash f
  end.

(** [toString]: an exception of the conversion is caught. *)
Definition toString (c : code) (name : string) : ST config string :=
  let* x := var_of c name in ret (default ""%string (cast (m_val x))).
Definition getValue (c : code) (name : string) : ST config (El c) := let* x := var_of c name in ret (m_val x).

Fixpoint run_cbs {c} (cbs : list (Z * on_change_cb c)) (old new : El c) : ST config unit :=
  match cbs with
  | [] => ret tt
  | (_, cb) :: cbs => on_outside (cb old new) ;;; run_cbs cbs old new
  end.
Definition setValue (c : code) (name : string) (v : El c) : ST config unit :=
  let* x := var_of c name in
  if El_eq c v (m_val x) then ret tt
  else
    run_cbs (m_cbs x) (m_val x) v ;;;
    put_var name (set_m_val v x).
(** The conversion and the callbacks throw [std::exception]s, which are caught;
    the answer is [false] in any case. *)
Definition fromString (c : code) (name val : string) : ST config bool := λ s,
  match cast val : option (El c) with
  | None => Ret false s
  | Some v =>
      match setValue c name v s with
      | Ret _ s => Ret false s
      | Throw _ s => Ret false s
      | Crash f => Crash f
      end
  end.

Definition addListener (c : code) (name : string) (cb : on_change_cb c) : ST config Z :=
  modify (λ s, set_fun_ids (λ c', if decide (c' = c) then u64 (s_fun_ids s c + 1) else s_fun_ids s c') s) ;;;
  let* key := gets (λ s, s_fun_ids s c) in
  let* x := var_of c name in
  put_var name (set_m_cbs (map_set Z.ltb (m_cbs x) key cb) x) ;;;
  ret key.
Definition delListener (c : code) (name : string) (key : Z) : ST config unit :=
  let* x := var_of c name in put_var name (set_m_cbs (map_erase Z.ltb (m_cbs x) key) x).
Definition getListener (c : code) (name : string) (key : Z) : ST config (option (on_change_cb c)) :=
  let* x := var_of c name in ret (map_find Z.ltb (m_cbs x) key).
Definition clearListener (c : code) (name : string) : ST config unit :=
  let* x := var_of c name in put_var name (set_m_cbs [] x).

(** ** [Config] *)
(** [Lookup(name, default_value, description)]: whether there is a pointer. *)
Definition Lookup (c : code) (name : string) (default_value : El c) (description : string) : ST config bool :=
  let* s := gets id in
  match find_var name s with
  | Some x => match dynamic_cast c x with Some _ => ret true | None => ret false end
  | None =>
      if negb (all_in name_char name) then throw (invalid_argument name)
      else put_var name (ConfigVar_new name default_value description) ;;; ret true
  end.
(** [Lookup(name)] *)
Definition Lookup_only (c : code) (name : string) : ST config (option (ConfigVar c)) := gets (λ s, find_var name s ≫= dynamic_cast c).
Definition LookupBase (name : string) : ST config (option any_var) := gets (find_var name).
(** [var->fromString(val)] *)
Definition var_fromString (name val : string) : ST config bool :=
  let* x := LookupBase name in
  match x with Some x => fromString (projT1 x) name val | None => crash NullDeref end.
(** [Visit]: [cb] sees the variables in the order of their names. *)
Fixpoint visit_all (cb : any_var → ST config unit) (l : list (string * any_var)) : ST config unit :=
  match l with [] => ret tt | (_, x) :: l => cb x ;;; visit_all cb l end.
Definition Visit (cb : any_var → ST config unit) : ST config unit := let* l := gets s_data in visit_all cb l.
End config.
Arguments ConfigVar {_} _ _.
Arguments config {_} _.
Arguments any_var {_} _.
Arguments mkVar {_ _ c} _ _ _ _.
Arguments m_name {_ _ c} _.
Arguments m_description {_ _ c} _.
Arguments m_val {_ _ c} _.
Arguments m_cbs {_ _ c} _.

(** ** Loading a document *)
Section load.
Context `{ConfigTypes} `{Yaml} {W : Type}.

Definition member_name (prefix key : string) : string := if bool_decide (prefix = ""%string) then key else prefix +:+ "." +:+ key.
(** The loop over the members; [rec] is the recursive call. *)
Fixpoint list_members (rec : string → node → ST (list (string * node)) unit) (prefix : string) (es : list (string * node))
    : ST (list (string * node)) unit :=
  match es with
  | [] => ret tt
  | (key, m) :: es => rec (member_name prefix key) m ;;; list_members rec prefix es
  end.
(** [fuel] bounds the depth of the document; the output is the state. *)
Fixpoint ListAllMember (fuel : nat) (prefix : string) (n : node) : ST (list (string * node)) unit :=
  match fuel with
  | O => crash Diverges
  | S fuel =>
      (if bool_decide (prefix ≠ ""%string) then modify (λ out, out ++ [(prefix, n)]) else ret tt) ;;;
      if IsMap n then
        match entries n with
        | None => throw runtime_error
        | Some es => list_members (ListAllMember fuel) prefix es
        end
      else ret tt
  end.

Definition node_text (n : node) : string := if IsScalar n then Scalar n else emit n.
Fixpoint apply_nodes (l : list (string * node)) : ST (config W) unit :=
  match l with
  | [] => ret tt
  | (key, n) :: l =>
      (if bool_decide (key = ""%string) then ret tt
       else
         let key := lower key in
         let* var := LookupBase key in
         match var with
         | Some _ => let* _ := var_fromString key (node_text n) in ret tt
         | None => ret tt
         end) ;;;
      apply_nodes l
  end.
Definition LoadFromYaml (fuel : nat) (root : node) : ST (config W) unit := λ s,
  match ListAllMember fuel "" root [] with
  | Ret _ all_nodes => apply_nodes all_nodes s
  | Throw e _ => Throw e s
  | Crash f => Crash f
  end.

(** ** Loading a directory *)
(** The entries of directories, the modification times that [lstat] gives and
    [YAML::LoadFile], at the time of the call. *)
Record conf_files := mkConfFiles {
  conf_dir : string → option (list (string * dtype)); conf_mtime : string → Z; LoadFile : string → option node
}.
Fixpoint load_files (fuel : nat) (fs : conf_files) (files : list string) : ST (config W) unit :=
  match files with
  | [] => ret tt
  | f :: files =>
      (λ s,
        let known := default 0 (s_file2modifytime s !! f) in
        (* [operator[]] makes the entry *)
        let s := set_modifytime (<[f := known]> (s_file2modifytime s)) s in
        if known =? conf_mtime fs f then Ret tt s
        else
          let s := set_modifytime (<[f := conf_mtime fs f]> (s_file2modifytime s)) s in
          match LoadFile fs f with
          | None => Ret tt s
          | Some root =>
              match LoadFromYaml fuel root s with
              | Ret _ s => Ret tt s
              | Throw _ s => Ret tt s
              | Crash e => Crash e
              end
          end) ;;;
      load_files fuel fs files
  end.
Definition LoadFromConfDir (fuel dir_fuel : nat) (env : Env) (fs : conf_files) (path : string) : ST (config W) unit :=
  match getAbsolutePath path env with
  | Ret absolute_path _ =>
      match ListAllFile (conf_dir fs) dir_fuel absolute_path ".yml" [] with
      | Ret _ files => load_files fuel fs files
      | Throw e _ => throw e
      | Crash f => crash f
      end
  | Throw e _ => throw e
  | Crash f => crash f
  end.
End load.

(** ** Static copies of variables ([src/hook.cpp], [src/http/http_parser.cpp])

    Code that does not want to lock reads a static variable, which a listener
    keeps equal to the value of the configuration; the conversions of numbers
    are [boost::lexical_cast]'s. *)
Section copies.
Context (number_from : bool → string → option Z) (number_to : bool → Z → option string).

(** [int] is [true] and [uint64_t] is [false]. *)
#[export] Instance number_types : ConfigTypes := {
  code := bool; El _ := Z; El_eq _ := Z.eqb; El_from := number_from; El_to := number_to
}.
Inductive static :=
  | s_connect_timeout
  | s_http_request_buffer_size | s_http_request_max_body_size | s_http_response_buffer_size | s_http_response_max_body_size.
#[export] Instance static_eq : EqDecision static.
Proof. solve_decision. Defined.
Definition copies : Type := static → Z.
Definition copies_start : copies := λ x, match x with s_connect_timeout => u64 (-1) | _ => 0 end.
Definition assign (x : static) (v : Z) : ST copies unit := modify (λ m y, if decide (y = x) then v else m y).

Definition var_type (x : static) : bool := match x with s_connect_timeout => true | _ => false end.
Definition var_name (x : static) : string :=
  match x with
  | s_connect_timeout => "tcp.connect.timeout"
  | s_http_request_buffer_size => "http.request.buffer_size"
  | s_http_request_max_body_size => "http.request.max_body_size"
  | s_http_response_buffer_size => "http.response.buffer_size"
  | s_http_response_max_body_size => "http.response.max_body_size"
  end.
(** The assignment: [s_connect_timeout] is a [uint64_t] and its variable an [int]. *)
Definition to_static (x : static) (v : Z) : Z := match x with s_connect_timeout => u64 v | _ => v end.
Definition copy_value (x : static) : ST (config copies) unit :=
  let* v := getValue (var_type x) (var_name x) in on_outside (assign x (to_static x v)).
Definition copy_listener (x : static) : on_change_cb (W := copies) (var_type x) := λ ov nv, assign x (to_static x nv).
Definition listen (x : static) : ST (config copies) unit :=
  let* _ := addListener (var_type x) (var_name x) (copy_listener x) in ret tt.

(** [hook.cpp]: the variable, then [_HOOKIniter] *)
Definition HookIniter : ST (config copies) unit :=
  let* _ := Lookup (true : @code number_types) "tcp.connect.timeout" 5000 "tcp connect timeout" in
  copy_value s_connect_timeout ;;;
  listen s_connect_timeout.
(** [http_parser.cpp]: the variables, then [_RequestSizeIniter] *)
Definition RequestSizeIniter : ST (config copies) unit :=
  let* _ := Lookup (false : @code number_types) "http.request.buffer_size" (4 * 1024) "http request buffer size" in
  let* _ := Lookup (false : @code number_types) "http.request.max_body_size" (64 * 1024 * 1024) "http request max body size" in
  let* _ := Lookup (false : @code number_types) "http.response.buffer_size" (4 * 1024) "http response buffer size" in
  let* _ := Lookup (false : @code number_types) "http.response.max_body_size" (64 * 1024 * 1024) "http response max body size" in
  copy_value s_http_request_buffer_size ;;; copy_value s_http_request_max_body_size ;;;
  copy_value s_http_response_buffer_size ;;; copy_value s_http_response_max_body_size ;;;
  listen s_http_request_buffer_size ;;; listen s_http_request_max_body_size ;;;
  listen s_http_response_buffer_size ;;; listen s_http_response_max_body_size.
(** [GetHttpRequestBufferSize] and the other three *)
Definition get_static (x : static) : ST (config copies) Z := gets (λ s, outside s x).
End copies.
