(* ===== verification/ConfigTheorems.v ===== *)
(** * ConfigTheorems: what a configuration document changes *)
From S2P Require Import Prelude CLib Words OrderedSet LexicalCast Files Env Config.

Lemma string_less_total a b : equivalent string_less a b = true ↔ a = b.
Proof.
  unfold equivalent. split; [|intros ->; by rewrite (less_irrefl string_less)]. revert b. induction a as [|x a IH]; intros [|y b]; cbn; try done.
  destruct (Z.ltb_spec (char_code x) (char_code y)); [done|]. destruct (Z.ltb_spec (char_code y) (char_code x)); [done|].
  intros E. f_equal; [|by apply IH]. rewrite <- (code_char_code x), <- (code_char_code y). f_equal. lia.
Qed.

Section registry.
Context `{ConfigTypes} {W : Type}.
Implicit Types (s : config W) (c : code) (name : string).

(** ** The registry is sorted *)
Definition inv (s : config W) : Prop := map_sorted string_less (s_data s).

Lemma find_put {c} name (x : ConfigVar W c) s name' : inv s →
  find_var name' (set_data (map_set string_less (s_data s) name (existT c x)) s) = if decide (name' = name) then Some (existT c x) else find_var name' s.
Proof using.
  intros Hs. unfold find_var. cbn. case_decide as E.
  - subst. apply map_find_set_eq; [apply _|exact Hs|]. by apply string_less_total.
  - apply map_find_set_ne; [apply _|exact Hs|]. apply not_true_is_false. rewrite string_less_total. naive_solver.
Qed.
Lemma inv_put {c} name (x : ConfigVar W c) s : inv s → inv (set_data (map_set string_less (s_data s) name (existT c x)) s).
Proof using. intros Hs. unfold inv. cbn. by apply (map_set_sorted string_less). Qed.

Lemma dynamic_cast_same {c} (x : ConfigVar W c) : dynamic_cast c (existT c x) = Some x.
Proof using. unfold dynamic_cast. cbn. destruct (decide (c = c)) as [e|]; [|done]. by rewrite (proof_irrel e eq_refl). Qed.
Lemma dynamic_cast_other {c c'} (x : ConfigVar W c) : c ≠ c' → dynamic_cast c' (existT c x) = None.
Proof using. intros Hne. unfold dynamic_cast. cbn. by destruct (decide (c = c')). Qed.
Lemma var_of_ret {c} name (x : ConfigVar W c) s : find_var name s = Some (existT c x) → var_of c name s = Ret x s.
Proof using. intros E. unfold var_of. rewrite E. cbn. by rewrite dynamic_cast_same. Qed.

(** C38: the first lookup of a valid name makes the variable, with its default and
    no listener; every later one finds that variable with the value it has then,
    and only at its own type; an invalid name throws and changes nothing *)
Theorem lookup_exact c name d desc s : inv s →
  match find_var name s with
  | None =>
      if all_in name_char name then ∃ s', Lookup c name d desc s = Ret true s' ∧ inv s'
        ∧ (∀ name', find_var name' s' = if decide (name' = name) then Some (existT c (ConfigVar_new name d desc)) else find_var name' s)
        ∧ (∀ c' d' desc', Lookup c' name d' desc' s' = Ret (bool_decide (c' = c)) s')
        ∧ getValue c name s' = Ret d s'
      else Lookup c name d desc s = Throw (invalid_argument name) s
  | Some (existT c0 x) =>
      Lookup c name d desc s = Ret (bool_decide (c = c0)) s ∧ Lookup_only c name s = Ret (dynamic_cast c (existT c0 x)) s
      ∧ (c = c0 → ∃ x', dynamic_cast c (existT c0 x) = Some x' ∧ getValue c name s = Ret (m_val x') s)
  end.
Proof using.
  intros Hs.
  assert (∀ s0 c0 (x : ConfigVar W c0) c' d' desc', find_var name s0 = Some (existT c0 x) → Lookup c' name d' desc' s0 = Ret (bool_decide (c' = c0)) s0) as Hfound.
  { intros s0 c0 x c' d' desc' E. unfold Lookup. rewrite bind_gets. cbv beta. unfold id. rewrite E. destruct (decide (c' = c0)) as [->|Hne].
    - by rewrite dynamic_cast_same, bool_decide_true.
    - by rewrite dynamic_cast_other, bool_decide_false. }
  destruct (find_var name s) as [[c0 x]|] eqn:E.
  - split; [by eapply Hfound|]. split; [unfold Lookup_only, gets; by rewrite E|]. intros <-. exists x. split; [apply dynamic_cast_same|].
    unfold getValue. by rewrite (bind_Ret _ _ _ _ _ (var_of_ret name x s E)).
  - assert (Lookup c name d desc s = (if negb (all_in name_char name) then throw (invalid_argument name)
      else put_var name (ConfigVar_new name d desc) ;;; ret true) s) as E0 by (unfold Lookup; rewrite bind_gets; cbv beta; unfold id; by rewrite E).
    rewrite E0. destruct (all_in name_char name); [|reflexivity].
    eexists. split; [reflexivity|]. set (s' := set_data _ s). assert (find_var name s' = Some (existT c (ConfigVar_new name d desc))) as E' by (unfold s'; rewrite find_put by done; by rewrite decide_True).
    split_and!; [by apply inv_put|intros; by apply find_put|intros; by eapply Hfound|].
    unfold getValue. by rewrite (bind_Ret _ _ _ _ _ (var_of_ret name _ s' E')).
Qed.
End registry.

(** ** Loading *)
Section load.
Context `{ConfigTypes} `{Yaml} {W : Type}.
Implicit Types (s : config W) (c : code) (name : string) (n : node).

(** The names that a document gives to its nodes. *)
Inductive named (root : node) : string → node → Prop :=
  | named_root : named root "" root
  | named_member p n es key m : named root p n → IsMap n = true → entries n = Some es → (key, m) ∈ es → named root (member_name p key) m.
(** A document whose maps can be iterated and end after [k] levels. *)
Fixpoint bounded (k : nat) (n : node) : Prop :=
  IsMap n = true → match k, entries n with S k, Some es => Forall (λ e, bounded k e.2) es | _, _ => False end.

(** The nodes of a document of [k] levels, in the order in which they are written:
    one entry for every place of a node that has a name, a map before its members,
    and the members one after the other with all that is below them. *)
Fixpoint written (k : nat) (p : string) (n : node) : list (string * node) :=
  (if bool_decide (p = ""%string) then [] else [(p, n)])
  ++ match k, IsMap n, entries n with
     | S k, true, Some es => concat ((λ e, written k (member_name p e.1) e.2) <$> es)
     | _, _, _ => []
     end.

(** The names below a node that has the name [p]. *)
Inductive below_node (p : string) (n : node) : string → node → Prop :=
  | below_here : below_node p n p n
  | below_in es key m q r : IsMap n = true → entries n = Some es → (key, m) ∈ es → below_node (member_name p key) m q r → below_node p n q r.
Lemma below_named root p n q r : named root p n → below_node p n q r → named root q r.
Proof using. intros Hn Hb. induction Hb as [|p n es key m q r Hm He Hin _ IH]; [done|]. apply IH. by eapply named_member. Qed.
Lemma named_below root q r : named root q r → below_node "" root q r.
Proof using.
  assert (∀ p n q r es key m, below_node p n q r → IsMap r = true → entries r = Some es → (key, m) ∈ es → below_node p n (member_name q key) m) as Hsnoc.
  { intros p n q' r' es key m Hb Hm He Hin. induction Hb as [|p n es' key' m' q' r' Hm' He' Hin' _ IH]; [by eapply below_in; [..|apply below_here]|].
    eapply below_in; [done..|]. by apply IH. }
  induction 1 as [|p n es key m _ IH Hm He Hin]; [apply below_here|by eapply Hsnoc].
Qed.

Lemma ListAllMember_S k p n : ListAllMember (S k) p n =
  ((if bool_decide (p ≠ ""%string) then modify (λ out, out ++ [(p, n)]) else ret tt) ;;;
   if IsMap n then match entries n with None => throw runtime_error | Some es => list_members (ListAllMember k) p es end else ret tt).
Proof using. done. Qed.
Lemma ListAllMember_lists k : ∀ p n out, bounded k n →
  ∃ out', ListAllMember (S k) p n out = Ret tt (out ++ out') ∧ ∀ q r, (q, r) ∈ out' ↔ q ≠ ""%string ∧ below_node p n q r.
Proof using.
  induction k as [|k IH]; intros p n out Hb.
  all: rewrite ListAllMember_S; set (here := if bool_decide (p ≠ ""%string) then [(p, n)] else []).
  all: assert (∀ (m : ST (list (string * node)) unit), ((if bool_decide (p ≠ ""%string) then modify (λ out, out ++ [(p, n)]) else ret tt) ;;; m) out = m (out ++ here)) as Hhere
    by (intros m; unfold here; case_bool_decide; [by rewrite bind_modify|by rewrite bind_ret, app_nil_r]).
  all: assert (∀ q r, (q, r) ∈ here ↔ q ≠ ""%string ∧ q = p ∧ r = n) as Hin
    by (intros q r; unfold here; case_bool_decide; rewrite ?list_elem_of_singleton, ?elem_of_nil; naive_solver).
  all: rewrite Hhere; destruct (IsMap n) eqn:Em.
  1: by specialize (Hb Em).
  2: { cbn in Hb. specialize (Hb Em). destruct (entries n) as [es|] eqn:Ee; [|done].
    assert (∀ es0, Forall (λ e, bounded k e.2) es0 → ∀ out, ∃ out', list_members (ListAllMember (S k)) p es0 out = Ret tt (out ++ out')
      ∧ ∀ q r, (q, r) ∈ out' ↔ Exists (λ e, q ≠ ""%string ∧ below_node (member_name p e.1) e.2 q r) es0) as Hes.
    { induction 1 as [|[key m] es0 Hm _ IHes]; intros o; [exists []; rewrite app_nil_r; split; [done|]; intros q r; by rewrite Exists_nil, elem_of_nil|].
      cbn [list_members]. destruct (IH (member_name p key) m o Hm) as (o1 & E1 & H1). rewrite (bind_Ret _ _ _ _ _ E1).
      destruct (IHes (o ++ o1)) as (o2 & -> & H2). exists (o1 ++ o2). split; [by rewrite (assoc_L (++))|]. intros q r. by rewrite elem_of_app, Exists_cons, H1, H2. }
    destruct (Hes es Hb (out ++ here)) as (o & -> & Ho). exists (here ++ o). split; [by rewrite (assoc_L (++))|].
    intros q r. rewrite elem_of_app, Hin, Ho, Exists_exists. split.
    - intros [(? & -> & ->)|([key m] & He & ? & Hbl)]; [split; [done|apply below_here]|split; [done|by eapply below_in]].
    - intros [Hq Hbl]. inversion Hbl as [|es' key m ? ? _ E' He Hbl']; subst; [by left|right]. assert (es' = es) as -> by congruence. by exists (key, m). }
  all: exists here; split; [done|]; intros q r; rewrite Hin; split; [intros (? & -> & ->); split; [done|apply below_here]|].
  all: intros [Hq Hbl]; inversion Hbl; subst; [done|congruence].
Qed.

(** The value after a text: the text's value, if it has one. *)
Definition updated {c} (v : El c) (text : string) : El c :=
  match cast text with Some x => if El_eq c x v then v else x | None => v end.
Definition updates (x : any_var W) (texts : list string) : any_var W :=
  existT (projT1 x) (set_m_val (foldl updated (m_val (projT2 x)) texts) (projT2 x)).
Definition texts_for (name : string) (l : list (string * node)) : list string :=
  (λ pn, node_text pn.2) <$> filter (λ pn, pn.1 ≠ ""%string ∧ lower pn.1 = name) l.
Lemma texts_for_cons name key n l :
  texts_for name ((key, n) :: l) = (if decide (key ≠ ""%string ∧ lower key = name) then [node_text n] else []) ++ texts_for name l.
Proof using. unfold texts_for. rewrite filter_cons. cbn [fst]. by case_decide. Qed.
(** The listeners neither throw nor crash. *)
Definition calm_var (x : any_var W) : Prop := Forall (λ kcb, ∀ old new w, ∃ w', kcb.2 old new w = Ret tt w') (m_cbs (projT2 x)).
Definition calm (s : config W) : Prop := ∀ name x, find_var name s = Some x → calm_var x.

Lemma run_cbs_ret c (cbs : list (Z * on_change_cb c)) old new s : Forall (λ kcb, ∀ old new w, ∃ w', kcb.2 old new w = Ret tt w') cbs →
  ∃ w, run_cbs cbs old new s = Ret tt (set_outside w s).
Proof using.
  intros Hc. revert s. induction Hc as [|[k cb] cbs Hcb _ IH]; intros s; [exists (outside s); by destruct s|]. cbn [run_cbs].
  destruct (Hcb old new (outside s)) as [w E]. cbn in E. assert (on_outside (cb old new) s = Ret tt (set_outside w s)) as E1 by (unfold on_outside; by rewrite E).
  rewrite (bind_Ret _ _ _ _ _ E1). destruct (IH (set_outside w s)) as [w' E2]. exists w'. by rewrite E2.
Qed.
Lemma set_m_val_same {c} (x : ConfigVar W c) : set_m_val (m_val x) x = x.
Proof using. by destruct x. Qed.
Lemma updates_nil (x : any_var W) : updates x [] = x.
Proof using. destruct x as [c x]. unfold updates. cbn. by rewrite set_m_val_same. Qed.
Lemma updates_calm x texts : calm_var x → calm_var (updates x texts).
Proof using. by destruct x. Qed.

Lemma var_fromString_ret name (x : any_var W) text s : inv s → find_var name s = Some x → calm_var x →
  ∃ s', var_fromString name text s = Ret false s' ∧ inv s' ∧ s_file2modifytime s' = s_file2modifytime s
  ∧ ∀ name', find_var name' s' = if decide (name' = name) then Some (updates x [text]) else find_var name' s.
Proof using.
  intros Hs E Hc. unfold var_fromString, LookupBase. rewrite bind_gets, E. unfold fromString. destruct x as [c x]. cbn [projT1].
  assert (∀ v, updated (m_val x) text = v → v = m_val x →
    ∀ name', find_var name' s = if decide (name' = name) then Some (updates (existT c x) [text]) else find_var name' s) as Hsame.
  { intros v Hv -> name'. case_decide; [subst|done]. rewrite E. unfold updates. cbn. by rewrite Hv, set_m_val_same. }
  destruct (cast text) as [v|] eqn:Ev; [|exists s; split_and!; try done; eapply Hsame; [unfold updated; by rewrite Ev|done]].
  unfold setValue. rewrite (bind_Ret _ _ _ _ _ (var_of_ret name x s E)). destruct (El_eq c v (m_val x)) eqn:Eq.
  - exists s. split_and!; try done. eapply Hsame; [unfold updated; by rewrite Ev, Eq|done].
  - destruct (run_cbs_ret c (m_cbs x) (m_val x) v s Hc) as [w Ew]. rewrite (bind_Ret _ _ _ _ _ Ew). eexists. split; [done|].
    assert (inv (set_outside w s)) as Hs' by done. split_and!; [by apply (inv_put name (set_m_val v x) (set_outside w s))|done|].
    intros name'. rewrite (find_put name (set_m_val v x) (set_outside w s)) by done. case_decide; [|done]. unfold updates, updated. cbn. by rewrite Ev, Eq.
Qed.

Lemma apply_nodes_ret l : ∀ s, inv s → calm s → ∃ s', apply_nodes l s = Ret tt s' ∧ inv s' ∧ calm s' ∧ s_file2modifytime s' = s_file2modifytime s
  ∧ ∀ name, find_var name s' = (λ x, updates x (texts_for name l)) <$> find_var name s.
Proof using.
  induction l as [|[key n] l IH]; intros s Hs Hc; cbn [apply_nodes].
  { exists s. split_and!; try done. intros name. destruct (find_var name s); [cbn; by rewrite updates_nil|done]. }
  assert (∀ s1, inv s1 → calm s1 → s_file2modifytime s1 = s_file2modifytime s →
    (∀ name, find_var name s1 = (λ x, updates x (texts_for name [(key, n)])) <$> find_var name s) →
    ∃ s', apply_nodes l s1 = Ret tt s' ∧ inv s' ∧ calm s' ∧ s_file2modifytime s' = s_file2modifytime s
    ∧ ∀ name, find_var name s' = (λ x, updates x (texts_for name ((key, n) :: l))) <$> find_var name s) as Hrest.
  { intros s1 Hs1 Hc1 Ht1 H1. destruct (IH s1 Hs1 Hc1) as (s' & E & Hs' & Hc' & Ht' & H'). exists s'. split_and!; [done..|congruence|].
    intros name. rewrite H', H1. destruct (find_var name s) as [x|]; [|done]. cbn [fmap option_fmap option_map]. f_equal.
    rewrite !texts_for_cons. unfold updates. cbn [projT1 projT2]. case_decide; cbn [app]; by destruct (projT2 x). }
  assert (∀ name x, ¬ (key ≠ ""%string ∧ lower key = name) → updates x (texts_for name [(key, n)]) = x) as Hskip
    by (intros name x Hn; rewrite texts_for_cons, decide_False by done; apply updates_nil).
  case_bool_decide as Ek.
  - rewrite bind_ret. apply Hrest; [done..|]. intros name. destruct (find_var name s) as [x|]; [|done]. cbn [fmap option_fmap option_map]. rewrite Hskip by naive_solver. done.
  - unfold LookupBase. rewrite bind_assoc, bind_gets. cbv beta. destruct (find_var (lower key) s) as [x|] eqn:Ex.
    + destruct (var_fromString_ret (lower key) x (node_text n) s Hs Ex (Hc _ _ Ex)) as (s1 & E1 & Hs1 & Ht1 & H1).
      rewrite bind_assoc, (bind_Ret _ _ _ _ _ E1), bind_ret. apply Hrest; [done| |done|].
      * intros name x' Hx'. rewrite H1 in Hx'. case_decide; [|by eapply Hc]. assert (x' = updates x [node_text n]) as -> by congruence. by apply updates_calm, (Hc (lower key)).
      * intros name. rewrite H1. case_decide as Hd.
        -- subst. rewrite Ex, texts_for_cons, decide_True by done. done.
        -- destruct (find_var name s); [|done]. cbn [fmap option_fmap option_map]. rewrite Hskip by naive_solver. done.
    + rewrite bind_ret. apply Hrest; [done..|]. intros name. destruct (find_var name s) as [x|] eqn:Ex'; [|done]. cbn [fmap option_fmap option_map].
      rewrite Hskip by (intros [_ <-]; congruence). done.
Qed.

Lemma ListAllMember_written k : ∀ p n out, bounded k n → ListAllMember (S k) p n out = Ret tt (out ++ written k p n).
Proof using.
  induction k as [|k IH]; intros p n out Hb; rewrite ListAllMember_S; cbn [written bounded] in *.
  all: assert (∀ (m : ST (list (string * node)) unit), ((if bool_decide (p ≠ ""%string) then modify (λ out, out ++ [(p, n)]) else ret tt) ;;; m) out
    = m (out ++ (if bool_decide (p = ""%string) then [] else [(p, n)]))) as ->
    by (intros m; destruct (decide (p = ""%string)) as [E|E]; [rewrite (bool_decide_false (p ≠ _)), (bool_decide_true (p = _)), app_nil_r by tauto
          |rewrite (bool_decide_true (p ≠ _)), (bool_decide_false (p = _)) by done]; done).
  all: destruct (IsMap n) eqn:Em; [specialize (Hb eq_refl)|by rewrite app_nil_r].
  - done.
  - destruct (entries n) as [es|]; [|done]. rewrite (assoc_L (++)). generalize (out ++ if bool_decide (p = ""%string) then [] else [(p, n)]). clear out.
    induction Hb as [|[key m] es Hm _ IHes]; intros out; cbn [list_members fmap list_fmap concat fst snd]; [by rewrite app_nil_r|].
    rewrite (bind_Ret _ _ _ _ _ (IH _ m out Hm)), IHes. by rewrite (assoc_L (++)).
Qed.

(** C14: Loading a document of bounded depth, when no listener throws, returns.  Its
    nodes are listed in the order in which they are written, one entry for each
    place: a map before its members, the members one after the other; these are
    exactly the nodes that have a dotted name.  Every variable ends with the value of
    the last text under its name, in lower case, that converts; variables that are
    not named, and the set of variables, stay as they are. *)
Theorem yaml_loaded k root s : bounded k root → inv s → calm s →
  ∃ s', ListAllMember (S k) "" root [] = Ret tt (written k "" root)
  ∧ (∀ p n, (p, n) ∈ written k "" root ↔ p ≠ ""%string ∧ named root p n)
  ∧ LoadFromYaml (S k) root s = Ret tt s' ∧ inv s'
  ∧ ∀ name, find_var name s' = (λ x, updates x (texts_for name (written k "" root))) <$> find_var name s.
Proof using.
  intros Hb Hs Hc. pose proof (ListAllMember_written k "" root [] Hb) as E. cbn [app] in E.
  destruct (ListAllMember_lists k "" root [] Hb) as (out & E0 & Ho). rewrite E in E0. injection E0 as E0. cbn [app] in E0.
  destruct (apply_nodes_ret (written k "" root) s Hs Hc) as (s' & E' & Hs' & _ & _ & H').
  exists s'. split_and!; [done| |unfold LoadFromYaml; by rewrite E|done|done].
  intros p n. rewrite E0, Ho. split; intros [? ?]; (split; [done|]).
  - eapply below_named; [apply named_root|done].
  - by apply named_below.
Qed.
End load.

(** ** Reloading *)
Section reload.
Context `{ConfigTypes} `{Yaml} {W : Type}.
Implicit Types (s : config W) (fs : conf_files).

(** Nothing but [load_files] touches the times. *)
Definition keeps_times {A} (m : ST (config W) A) : Prop :=
  ∀ s, match m s with Ret _ s' | Throw _ s' => s_file2modifytime s' = s_file2modifytime s | Crash _ => True end.
Lemma times_bind {A B} (m : ST (config W) A) (k : A → ST (config W) B) : keeps_times m → (∀ v, keeps_times (k v)) → keeps_times (bind m k).
Proof using.
  intros Hm Hk s. unfold bind. specialize (Hm s). destruct (m s) as [v s1|e s1|f]; [|done..]. specialize (Hk v s1). destruct (k v s1); [congruence..|done].
Qed.
Lemma times_ret {A} (v : A) : keeps_times (ret v).
Proof using. done. Qed.
Lemma times_var_of c name : keeps_times (var_of c name).
Proof using. intros s. unfold var_of. by destruct (find_var name s ≫= dynamic_cast c). Qed.
Lemma times_run_cbs c (cbs : list (Z * on_change_cb c)) old new : keeps_times (run_cbs cbs old new).
Proof using.
  induction cbs as [|[k cb] cbs IH]; [done|]. cbn. apply times_bind; [|done]. intros s. unfold on_outside. by destruct (cb old new (outside s)).
Qed.
Lemma times_fromString c name val : keeps_times (fromString c name val).
Proof using.
  intros s. unfold fromString. destruct (cast val) as [v|]; [|done].
  assert (keeps_times (setValue c name v)) as Hset.
  { unfold setValue. apply times_bind; [apply times_var_of|]. intros x. destruct (El_eq c v (m_val x)); [done|]. apply times_bind; [apply times_run_cbs|done]. }
  specialize (Hset s). by destruct (setValue c name v s).
Qed.
Lemma times_apply_nodes l : keeps_times (apply_nodes l).
Proof using.
  induction l as [|[key n] l IH]; [done|]. cbn. apply times_bind; [|done]. case_bool_decide; [done|].
  apply times_bind; [done|]. intros [x|]; [|done]. apply times_bind; [|done]. unfold var_fromString. apply times_bind; [done|]. intros [y|]; [apply times_fromString|done].
Qed.
Lemma times_LoadFromYaml fuel root : keeps_times (LoadFromYaml fuel root).
Proof using. intros s. unfold LoadFromYaml. destruct (ListAllMember fuel "" root []); [apply times_apply_nodes|done..]. Qed.

Lemma load_files_times fuel fs files : ∀ s s', load_files fuel fs files s = Ret tt s' →
  ∀ f, s_file2modifytime s' !! f = if decide (f ∈ files) then Some (conf_mtime fs f) else s_file2modifytime s !! f.
Proof using.
  induction files as [|f0 files IH]; intros s s'; cbn [load_files]; [by intros [= <-]|]. unfold bind.
  set (known := default 0 _). set (s1 := set_modifytime _ s).
  assert (∀ s2, (∀ f, s_file2modifytime s2 !! f = if decide (f = f0) then Some (conf_mtime fs f0) else s_file2modifytime s !! f) →
    load_files fuel fs files s2 = Ret tt s' → ∀ f, s_file2modifytime s' !! f = if decide (f ∈ f0 :: files) then Some (conf_mtime fs f) else s_file2modifytime s !! f) as Hrest.
  { intros s2 H2 E f. rewrite (IH s2 s' E f). destruct (decide (f ∈ files)) as [Hf|Hf]; [by rewrite decide_True by (by right)|].
    rewrite H2. destruct (decide (f = f0)) as [->|Hne]; [by rewrite decide_True by left|]. rewrite decide_False; [done|]. by intros [|]%elem_of_cons. }
  destruct (Z.eqb_spec known (conf_mtime fs f0)) as [Ek|Ek].
  - apply Hrest. intros f. unfold s1. cbn. rewrite Ek. case_decide; [subst; by rewrite lookup_insert_eq|by rewrite lookup_insert_ne].
  - set (s2 := set_modifytime _ s1).
    assert (∀ f, s_file2modifytime s2 !! f = if decide (f = f0) then Some (conf_mtime fs f0) else s_file2modifytime s !! f) as H2.
    { intros f. unfold s2, s1. cbn. case_decide; [subst; by rewrite lookup_insert_eq|by rewrite !lookup_insert_ne]. }
    destruct (LoadFile fs f0) as [root|]; [|by apply Hrest]. pose proof (times_LoadFromYaml fuel root s2) as Ht.
    destruct (LoadFromYaml fuel root s2) as [v s3|e s3|]; [..|done]; apply Hrest; intros f; by rewrite Ht, H2.
Qed.
Lemma load_files_again fuel fs files s : (∀ f, f ∈ files → s_file2modifytime s !! f = Some (conf_mtime fs f)) → load_files fuel fs files s = Ret tt s.
Proof using.
  induction files as [|f0 files IH]; intros Hf; cbn [load_files]; [done|]. unfold bind. rewrite (Hf f0 ltac:(left)). cbn [default]. rewrite Z.eqb_refl.
  rewrite insert_id by (apply Hf; left). assert (set_modifytime (s_file2modifytime s) s = s) as -> by (by destruct s). apply IH. intros f Hin. apply Hf. by right.
Qed.

(** When the documents end, loading returns, and variables only change their values. *)
Lemma load_files_ret k fs files : (∀ f root, LoadFile fs f = Some root → bounded k root) → ∀ s, inv s → calm s →
  ∃ s', load_files (S k) fs files s = Ret tt s' ∧ inv s' ∧ calm s' ∧ ∀ name x, find_var name s = Some x → ∃ texts, find_var name s' = Some (updates x texts).
Proof using.
  intros Hb. induction files as [|f files IH]; intros s Hs Hc; cbn [load_files].
  { exists s. split_and!; try done. intros name x E. exists []. by rewrite updates_nil. }
  assert (∀ s1, inv s1 → calm s1 → (∀ name x, find_var name s = Some x → ∃ texts, find_var name s1 = Some (updates x texts)) →
    ∃ s', load_files (S k) fs files s1 = Ret tt s' ∧ inv s' ∧ calm s' ∧ ∀ name x, find_var name s = Some x → ∃ texts, find_var name s' = Some (updates x texts)) as Hrest.
  { intros s1 Hs1 Hc1 H1. destruct (IH s1 Hs1 Hc1) as (s' & E & Hs' & Hc' & H'). exists s'. split_and!; try done. intros name x Ex.
    destruct (H1 name x Ex) as (l1 & E1). destruct (H' _ _ E1) as (l2 & E2). exists (l1 ++ l2). rewrite E2. unfold updates. cbn. rewrite foldl_app. by destruct (projT2 x). }
  unfold bind. set (known := default 0 _). set (s1 := set_modifytime _ s).
  assert (inv s1 ∧ calm s1 ∧ ∀ name x, find_var name s = Some x → ∃ texts, find_var name s1 = Some (updates x texts)) as (I1 & C1 & F1).
  { split_and!; [done|done|]. intros name x E. exists []. by rewrite updates_nil. }
  destruct (known =? conf_mtime fs f); [by apply Hrest|]. set (s2 := set_modifytime _ s1).
  destruct (LoadFile fs f) as [root|] eqn:Er; [|by apply Hrest].
  unfold LoadFromYaml. destruct (ListAllMember_lists k "" root [] (Hb f root Er)) as (out & E & _). rewrite E. cbn [app].
  destruct (apply_nodes_ret out s2 I1 C1) as (s3 & E3 & I3 & C3 & _ & F3). rewrite E3. apply Hrest; [done..|].
  intros name x Ex. exists (texts_for name out). rewrite F3. change (find_var name s2) with (find_var name s). by rewrite Ex.
Qed.

(** Loading a directory again, with no file changed, does nothing - whatever
    the files hold, and whether loading them succeeded or failed *)
Theorem reload_idempotent fuel dir_fuel env fs path s s1 :
  LoadFromConfDir fuel dir_fuel env fs path s = Ret tt s1 → LoadFromConfDir fuel dir_fuel env fs path s1 = Ret tt s1.
Proof using.
  unfold LoadFromConfDir. destruct (getAbsolutePath path env) as [p env'| |]; [|done..].
  destruct (ListAllFile (conf_dir fs) dir_fuel p ".yml" []) as [v files| |]; [|done..]. intros E.
  apply load_files_again. intros f Hf. rewrite (load_files_times _ _ _ _ _ E f). by rewrite decide_True.
Qed.
End reload.

(** ** A sample *)
Fixpoint sortedb (l : list string) : bool := match l with [] => true | x :: l => forallb (string_less x) l && sortedb l end.
Lemma sortedb_sorted l : sortedb l = true → sorted string_less l.
Proof.
  induction l as [|x l IH]; [constructor|]. cbn. intros [Hx Hl]%andb_true_iff. constructor; [by apply IH|].
  apply List.Forall_forall. intros y Hy. by apply (proj1 (forallb_forall _ _) Hx).
Qed.
#[local] Existing Instance tree_yaml.
(** Two types: digits and strings. *)
#[local] Instance sample_types : ConfigTypes := {
  code := bool; code_eq := bool_eq_dec; El c := if c then bool else string;
  El_eq c := match c with true => λ a b, bool_decide (a = b) | false => λ a b, bool_decide (a = b) end;
  El_from c := match c with true => digit_from | false => λ s, Some s end;
  El_to c := match c with true => digit_to | false => λ s, Some s end
}.
(** The listeners log the texts of the values. *)
Definition log_change (c : code) : on_change_cb (W := list string) c := λ old new, modify (λ w, w ++ [default ""%string (cast old); default ""%string (cast new)]).
Definition sample_setup : ST (config (list string)) bool :=
  let* _ := Lookup true "server.keepalive" false "" in
  let* _ := Lookup false "server.name" "none"%string "" in
  let* _ := addListener true "server.keepalive" (log_change true) in
  Lookup false "log.file" "a.log"%string "".
Definition empty_config : config (list string) := mkConfig [] (λ _, 0) ∅ [].
Definition sample_config : config (list string) := match sample_setup empty_config with Ret _ s => s | _ => empty_config end.
Definition leaf (s : string) : tree := GenLeaf s.
Definition sample_doc : node := map_of [("server", map_of [("Keepalive", leaf "1"); ("name", leaf "azure"); ("port", leaf "80")]); ("log", leaf "x")]%string.

Lemma sample_inv : inv sample_config.
Proof. apply sortedb_sorted. vm_compute. reflexivity. Qed.
Lemma sample_calm : calm sample_config.
Proof.
  intros name x E. unfold find_var, map_find in E. destruct (set_find string_less (s_data sample_config).*1 name) as [i|]; [|done].
  assert (Forall (λ kx, calm_var kx.2) (s_data sample_config)) as Hall.
  { repeat constructor; cbn; unfold calm_var; cbn; repeat constructor; intros old new w; by eexists. }
  rewrite Forall_forall in Hall. destruct (s_data sample_config !! i) as [kx|] eqn:Ei; [|done]. cbn in E. injection E as <-. apply Hall. by eapply list_elem_of_lookup_2.
Qed.
Lemma sample_bounded : bounded 3 sample_doc.
Proof. vm_compute. repeat (constructor || discriminate || intros _). Qed.
Lemma yaml_loaded_witness : bounded 3 sample_doc ∧ inv sample_config ∧ calm sample_config ∧
  ∃ s', ListAllMember 4 "" sample_doc [] = Ret tt (written 3 "" sample_doc)
  ∧ (∀ p n, (p, n) ∈ written 3 "" sample_doc ↔ p ≠ ""%string ∧ named sample_doc p n)
  ∧ LoadFromYaml 4 sample_doc sample_config = Ret tt s' ∧ inv s'
  ∧ ∀ name, find_var name s' = (λ x, updates x (texts_for name (written 3 "" sample_doc))) <$> find_var name sample_config.
Proof.
  split; [exact sample_bounded|]. split; [exact sample_inv|]. split; [exact sample_calm|].
  exact (yaml_loaded 3 sample_doc sample_config sample_bounded sample_inv sample_calm).
Defined.
Lemma sample_doc_written : (written 3 "" sample_doc).*1 = ["server"; "server.Keepalive"; "server.name"; "server.port"; "log"]%string.
Proof. reflexivity. Qed.
Lemma sample_loaded :
  (λ s, (out_val (getValue true "server.keepalive" s), out_val (getValue false "server.name" s), out_val (getValue false "log.file" s), outside s))
    <$> (match LoadFromYaml 4 sample_doc sample_config with Ret _ s => Some s | _ => None end)
  = Some (Some true, Some "azure"%string, Some "a.log"%string, ["0"; "1"]%string).
Proof. vm_compute. reflexivity. Qed.

Lemma lookup_exact_witness : inv sample_config ∧
  match find_var "server.name"%string sample_config with
  | None =>
      if all_in name_char "server.name" then ∃ s', Lookup true "server.name" true "" sample_config = Ret true s' ∧ inv s'
        ∧ (∀ name', find_var name' s' = if decide (name' = "server.name"%string) then Some (existT true (ConfigVar_new (c := true) "server.name" true "")) else find_var name' sample_config)
        ∧ (∀ c' d' desc', Lookup c' "server.name" d' desc' s' = Ret (bool_decide (c' = true)) s')
        ∧ getValue true "server.name" s' = Ret true s'
      else Lookup true "server.name" true "" sample_config = Throw (invalid_argument "server.name") sample_config
  | Some (existT c0 x) =>
      Lookup true "server.name" true "" sample_config = Ret (bool_decide (true = c0)) sample_config
      ∧ Lookup_only true "server.name" sample_config = Ret (dynamic_cast true (existT c0 x)) sample_config
      ∧ (true = c0 → ∃ x', dynamic_cast true (existT c0 x) = Some x' ∧ getValue true "server.name" sample_config = Ret (m_val x') sample_config)
  end.
Proof. split; [exact sample_inv|]. exact (lookup_exact true "server.name" true "" sample_config sample_inv). Defined.

Definition sample_files : conf_files := mkConfFiles
  (λ p, if bool_decide (p = "/azure/cfg"%string) then Some [("a.yml", DT_REG); ("b.yml", DT_REG)]%string else None)
  (λ f, if bool_decide (f = "/azure/cfg/a.yml"%string) then 7 else 8)
  (λ f, if bool_decide (f = "/azure/cfg/a.yml"%string) then Some sample_doc else None).
Definition sample_env : Env := set_paths "/azure/bin" "/azure/" Env_new.
Definition sample_reloaded : config (list string) := match LoadFromConfDir 4 2 sample_env sample_files "cfg" sample_config with Ret _ s => s | _ => empty_config end.
Lemma reload_idempotent_witness :
  LoadFromConfDir 4 2 sample_env sample_files "cfg" sample_config = Ret tt sample_reloaded
  ∧ LoadFromConfDir 4 2 sample_env sample_files "cfg" sample_reloaded = Ret tt sample_reloaded.
Proof.
  assert (LoadFromConfDir 4 2 sample_env sample_files "cfg" sample_config = Ret tt sample_reloaded) as E by (vm_compute; reflexivity).
  split; [exact E|]. exact (reload_idempotent 4 2 sample_env sample_files "cfg" sample_config sample_reloaded E).
Defined.
(** A file that could not be loaded is remembered as loaded. *)
Lemma failed_file_remembered : s_file2modifytime sample_reloaded !! "/azure/cfg/b.yml"%string = Some 8 ∧ LoadFile sample_files "/azure/cfg/b.yml" = None.
Proof. vm_compute. done. Qed.

(** ** The static copies follow the variables *)
Section copies.
Context (number_from : bool → string → option Z) (number_to : bool → Z → option string).
#[local] Existing Instance number_types.
Notation copied := (@config (number_types number_from number_to) copies).
Implicit Types (s : copied) (x y : static).

(** Each variable has the listener, and each copy is the variable's value. *)
Definition follows s : Prop := inv s ∧ ∀ x, ∃ name desc v key,
  find_var (var_name x) s = Some (existT (var_type x) (mkVar name desc v [(key, copy_listener number_from number_to x)]))
  ∧ outside s x = to_static x v.
Lemma var_name_inj x y : var_name x = var_name y → x = y.
Proof using. by destruct x, y. Qed.
(** A text for one of them that converts changes this one and its copy. *)
Lemma copies_follow s x text : follows s →
  ∃ s', fromString (H := number_types number_from number_to) (var_type x) (var_name x) text s = Ret false s' ∧ follows s'
  ∧ (∀ v, number_from (var_type x) text = Some v → outside s' x = to_static x v) ∧ ∀ y, y ≠ x → outside s' y = outside s y.
Proof using.
  intros [Hi Hs]. destruct (Hs x) as (name & desc & v & key & Hv & Ho). unfold fromString, cast. cbn [El_from number_types].
  destruct (number_from (var_type x) text) as [nv|] eqn:En; [|by exists s].
  unfold setValue. rewrite (bind_Ret _ _ _ _ _ (var_of_ret _ _ _ Hv)). cbn [m_val m_cbs El_eq number_types].
  destruct (Z.eqb_spec nv v) as [->|Hne]; [exists s; split_and!; [done|done| |done]; by intros ? [= <-]|].
  cbn [run_cbs]. set (w := λ y, if decide (y = x) then to_static x nv else outside s y).
  rewrite bind_assoc, (bind_Ret _ _ s tt (set_outside w s)) by done. rewrite bind_ret. eexists. split; [done|].
  assert (inv (set_outside w s)) as Hi' by done. split; [split; [by apply inv_put|]|split].
  - intros y. rewrite find_put by done. destruct (decide (var_name y = var_name x)) as [->%var_name_inj|Hn].
    + exists name, desc, nv, key. split; [done|]. cbn. unfold w. by rewrite decide_True.
    + destruct (Hs y) as (name' & desc' & v' & key' & Hv' & Ho'). exists name', desc', v', key'. split; [done|]. cbn. unfold w. rewrite decide_False; [done|]. by intros ->.
  - intros ? [= <-]. cbn. unfold w. by rewrite decide_True.
  - intros y Hy. cbn. unfold w. by rewrite decide_False.
Qed.
(** How far the set-up of a variable is: not made, made, copied, listened to. *)
Definition stage_ok s x (k : nat) : Prop :=
  match k with
  | O => find_var (var_name x) s = None
  | S k => ∃ name desc v key,
      find_var (var_name x) s = Some (existT (var_type x) (mkVar name desc v (match k with S (S _) => [(key, copy_listener number_from number_to x)] | _ => [] end)))
      ∧ (k = 0%nat ∨ outside s x = to_static x v)
  end.
Definition staged s (st : static → nat) : Prop := inv s ∧ ∀ x, stage_ok s x (st x).
Definition advance x (st : static → nat) : static → nat := λ y, if decide (y = x) then S (st y) else st y.
Definition step_of (m : ST copied unit) x (k : nat) : Prop := ∀ s st, staged s st → st x = k → ∃ s', m s = Ret tt s' ∧ staged s' (advance x st).

Lemma find_put_static s x (v : @ConfigVar (number_types number_from number_to) copies (var_type x)) name' : inv s →
  find_var name' (set_data (map_set string_less (s_data s) (var_name x) (existT (var_type x) v)) s)
  = if decide (name' = var_name x) then Some (existT (var_type x) v) else find_var name' s.
Proof using. exact (find_put (c := var_type x : @code (number_types number_from number_to)) (var_name x) v s name'). Qed.
Lemma staged_put s st x (v : @ConfigVar (number_types number_from number_to) copies (var_type x)) : staged s st →
  stage_ok (set_data (map_set string_less (s_data s) (var_name x) (existT (var_type x) v)) s) x (S (st x)) →
  staged (set_data (map_set string_less (s_data s) (var_name x) (existT (var_type x) v)) s) (advance x st).
Proof using.
  intros [Hi Hs] Hx. split; [exact (inv_put (c := var_type x : @code (number_types number_from number_to)) (var_name x) v s Hi)|]. intros y. unfold advance. case_decide as Hy; [by subst|].
  specialize (Hs y). unfold stage_ok in *. destruct (st y) as [|k]; rewrite find_put_static, decide_False by (done || intros E; by apply Hy, var_name_inj).
  all: exact Hs.
Qed.
Lemma lookup_step x d desc : step_of (let* _ := Lookup (H := number_types number_from number_to) (var_type x) (var_name x) d desc in ret tt) x 0.
Proof using.
  intros s st Hst Hx. pose proof Hst as [Hi Hs]. specialize (Hs x). rewrite Hx in Hs. cbn in Hs.
  assert (all_in name_char (var_name x) = true) as Hn by (destruct x; vm_compute; reflexivity).
  eexists. split; [unfold Lookup; unfold bind at 1 2, gets; cbn [id]; rewrite Hs, Hn; done|].
  apply staged_put; [done|]. rewrite Hx. eexists _, _, _, 0. rewrite find_put_static, decide_True by done. split; [done|by left].
Qed.
Lemma copy_step x : step_of (copy_value number_from number_to x) x 1.
Proof using.
  intros s st [Hi Hs] Hx. pose proof (Hs x) as Hx1. rewrite Hx in Hx1. destruct Hx1 as (name & desc & v & key & Hv & _). cbn in Hv.
  eexists. split.
  { unfold copy_value, getValue. rewrite bind_assoc, (bind_Ret _ _ _ _ _ (var_of_ret _ _ _ Hv)), bind_ret. unfold on_outside, assign, modify. done. }
  split; [done|]. intros y. unfold advance. destruct (decide (y = x)) as [->|Hy].
  - rewrite Hx. exists name, desc, v, key. split; [done|]. right. cbn. by rewrite decide_True.
  - specialize (Hs y). unfold stage_ok in *. destruct (st y) as [|k]; [done|]. destruct Hs as (n' & d' & v' & key' & Hv' & Ho). exists n', d', v', key'.
    split; [done|]. cbn. by rewrite decide_False.
Qed.
Lemma listen_step x : step_of (listen number_from number_to x) x 2.
Proof using.
  intros s st Hst Hx. pose proof Hst as [Hi Hs]. specialize (Hs x). rewrite Hx in Hs. destruct Hs as (name & desc & v & key & Hv & Ho). cbn in Hv.
  set (k := u64 (s_fun_ids s (var_type x) + 1)). set (s1 := set_fun_ids (λ c', if decide (c' = (var_type x : @code (number_types number_from number_to))) then k else s_fun_ids s c') s).
  assert (staged s1 st) as Hst1 by exact Hst.
  eexists. split.
  { unfold listen, addListener. rewrite !bind_assoc, (bind_Ret _ _ s tt s1) by done. rewrite bind_assoc, bind_gets. cbv beta.
    rewrite bind_assoc, (bind_Ret _ _ s1 _ _ (var_of_ret _ _ s1 Hv)), bind_assoc. unfold put_var. by rewrite bind_modify, bind_ret. }
  apply staged_put; [done|]. rewrite Hx. exists name, desc, v, k. rewrite find_put_static, decide_True by done. split.
  - cbn [m_cbs set_m_cbs m_name m_description m_val]. unfold s1. cbn [s_fun_ids set_fun_ids]. by rewrite decide_True.
  - right. destruct Ho as [Ho|Ho]; done.
Qed.
(** The two files make them ready in either order. *)
Lemma then_step m x k s st (rest : ST copied unit) Q : step_of m x k → staged s st → st x = k →
  (∀ s', staged s' (advance x st) → ∃ s2, rest s' = Ret tt s2 ∧ Q s2) → ∃ s2, (m ;;; rest) s = Ret tt s2 ∧ Q s2.
Proof using. intros Hm Hs Hk Hr. destruct (Hm s st Hs Hk) as (s' & E & Hs'). rewrite (bind_Ret _ _ _ _ _ E). by apply Hr. Qed.
Lemma lookup_then x d desc s st (rest : ST copied unit) Q : staged s st → st x = 0%nat →
  (∀ s', staged s' (advance x st) → ∃ s2, rest s' = Ret tt s2 ∧ Q s2) →
  ∃ s2, (let* _ := Lookup (H := number_types number_from number_to) (var_type x) (var_name x) d desc in rest) s = Ret tt s2 ∧ Q s2.
Proof using.
  intros Hs Hk Hr. destruct (then_step _ _ _ s st rest Q (lookup_step x d desc) Hs Hk Hr) as (s2 & E & HQ). exists s2. split; [|done].
  by rewrite <- E, bind_assoc.
Qed.
Lemma last_step m x k s st (Q : copied → Prop) : step_of m x k → staged s st → st x = k →
  (∀ s', staged s' (advance x st) → Q s') → ∃ s2, m s = Ret tt s2 ∧ Q s2.
Proof using. intros Hm Hs Hk Hr. destruct (Hm s st Hs Hk) as (s' & E & Hs'). exists s'. auto. Qed.

(** The variables of [xs] are set up by [m] and the others are left. *)
Definition sets_up (m : ST copied unit) (xs : list static) : Prop := ∀ s st, staged s st → (∀ x, x ∈ xs → st x = 0%nat) →
  ∃ s', m s = Ret tt s' ∧ ∃ st', staged s' st' ∧ ∀ x, st' x = if decide (x ∈ xs) then 3%nat else st x.
Ltac stage_of H0 := unfold advance; cbn; try (rewrite H0; [done|set_solver]).
Ltac finish_stages H0 := eexists; split; [eassumption|]; intros []; unfold advance; cbn; (rewrite H0; [done|set_solver]) || done.
Lemma HookIniter_sets_up : sets_up (HookIniter number_from number_to) [s_connect_timeout].
Proof using.
  intros s st Hs H0. unfold HookIniter.
  eapply (lookup_then s_connect_timeout); [done|stage_of H0|intros s1 H1].
  eapply then_step; [apply copy_step|done|stage_of H0|intros s2 H2].
  eapply last_step; [apply listen_step|done|stage_of H0|intros s3 H3]. finish_stages H0.
Qed.
Lemma RequestSizeIniter_sets_up : sets_up (RequestSizeIniter number_from number_to)
  [s_http_request_buffer_size; s_http_request_max_body_size; s_http_response_buffer_size; s_http_response_max_body_size].
Proof using.
  intros s st Hs H0. unfold RequestSizeIniter.
  eapply (lookup_then s_http_request_buffer_size); [done|stage_of H0|intros s1 H1].
  eapply (lookup_then s_http_request_max_body_size); [done|stage_of H0|intros s2 H2].
  eapply (lookup_then s_http_response_buffer_size); [done|stage_of H0|intros s3 H3].
  eapply (lookup_then s_http_response_max_body_size); [done|stage_of H0|intros s4 H4].
  do 4 (eapply then_step; [apply copy_step|eassumption|stage_of H0|intros ? ?]).
  do 3 (eapply then_step; [apply listen_step|eassumption|stage_of H0|intros ? ?]).
  eapply last_step; [apply listen_step|eassumption|stage_of H0|intros s5 Hlast]. finish_stages H0.
Qed.
Lemma sets_up_both m1 m2 xs1 xs2 : sets_up m1 xs1 → sets_up m2 xs2 → (∀ x, x ∈ xs1 → x ∉ xs2) → (∀ x, x ∈ xs1 ∨ x ∈ xs2) →
  ∃ s, (m1 ;;; m2) (mkConfig [] (λ _, 0) ∅ copies_start) = Ret tt s ∧ follows s.
Proof using.
  intros H1 H2 Hdis Hall. destruct (H1 (mkConfig [] (λ _, 0) ∅ copies_start) (λ _, 0%nat)) as (s1 & E1 & st1 & Hs1 & Hst1); [split; [repeat constructor|]; by intros []|done|].
  rewrite (bind_Ret _ _ _ _ _ E1). destruct (H2 s1 st1 Hs1) as (s2 & E2 & st2 & [Hi Hs2] & Hst2); [intros x Hx; rewrite Hst1, decide_False; [done|]; intros Hx'; by eapply Hdis|].
  exists s2. split; [done|]. split; [done|]. intros x. specialize (Hs2 x).
  assert (st2 x = 3%nat) as E; [|rewrite E in Hs2; destruct Hs2 as (n & d & v & key & Hv & [?|Ho]); [done|by exists n, d, v, key]].
  rewrite Hst2. case_decide as Hx; [done|]. rewrite Hst1, decide_True; [done|]. by destruct (Hall x).
Qed.
Lemma copies_initialised (hook_first : bool) : ∃ s,
  (if hook_first then HookIniter number_from number_to ;;; RequestSizeIniter number_from number_to
   else RequestSizeIniter number_from number_to ;;; HookIniter number_from number_to) (mkConfig [] (λ _, 0) ∅ copies_start) = Ret tt s ∧ follows s.
Proof using.
  destruct hook_first; eapply sets_up_both; try apply HookIniter_sets_up; try apply RequestSizeIniter_sets_up; try (intros []; set_solver).
Qed.
End copies.
