(* ===== verification/LogFormat.v ===== *)
(** * LogFormat: log levels, events and the pattern formatter ([include/log.h], [src/log.cpp])

    A [std::shared_ptr<Logger>] is its address; a logger's name never changes,
    so [names] gives it.  What [localtime_r] and [strftime] write for a format
    and a time depends on the time zone and the locale: [local_time]. *)
From S2P Require Import Prelude.
From Stdlib Require Import Ascii.

(** ** Levels *)
Inductive Level := UNKNOWN | DEBUG | INFO | WARN | ERROR | FATAL.
Definition level_value (l : Level) : Z :=
  match l with UNKNOWN => 0 | DEBUG => 1 | INFO => 2 | WARN => 3 | ERROR => 4 | FATAL => 5 end.
#[global] Instance Level_eq_dec : EqDecision Level.
Proof. solve_decision. Defined.
(** [a >= b] *)
Definition level_ge (a b : Level) : bool := level_value b <=? level_value a.

Definition ToString (level : Level) : string :=
  match level with
  | DEBUG => "DEBUG" | INFO => "INFO" | WARN => "WARN" | ERROR => "ERROR" | FATAL => "FATAL"
  | UNKNOWN => "UNKNOWN"
  end.
Definition FromString (str : string) : Level :=
  if bool_decide (str = "debug") then DEBUG else
  if bool_decide (str = "info") then INFO else
  if bool_decide (str = "warn") then WARN else
  if bool_decide (str = "error") then ERROR else
  if bool_decide (str = "fatal") then FATAL else
  if bool_decide (str = "DEBUG") then DEBUG else
  if bool_decide (str = "INFO") then INFO else
  if bool_decide (str = "WARN") then WARN else
  if bool_decide (str = "ERROR") then ERROR else
  if bool_decide (str = "FATAL") then FATAL else UNKNOWN.

(** ** Events *)
Definition loc : Type := nat.
Record LogEvent := mkEvent {
  m_logger : loc; ev_level : Level; m_file : string; m_line : Z; m_elapse : Z;
  m_threadId : Z; m_threadName : string; m_fiberId : Z; m_time : Z; m_ss : string
}.
(** [getSs() << text] *)
Definition stream_text (text : string) (e : LogEvent) : LogEvent :=
  mkEvent (m_logger e) (ev_level e) (m_file e) (m_line e) (m_elapse e) (m_threadId e) (m_threadName e) (m_fiberId e)
    (m_time e) (m_ss e +:+ text).
Definition getContent (e : LogEvent) : string := m_ss e.

(** ** Items *)
Inductive FormatItem :=
  | MessageFormatItem | LevelFormatItem | ElapseFormatItem | NameFormatItem | ThreadIdFormatItem | ThreadNameFormatItem
  | FiberIdFormatItem | DateTimeFormatItem (m_format : string) | FilenameFormatItem | LineFormatItem
  | NewLineFormatItem | TabFormatItem | StringFormatItem (m_string : string).
Definition DateTimeFormatItem_new (format : string) : FormatItem :=
  DateTimeFormatItem (if bool_decide (format = "") then "%Y-%m-%d %H:%M:%S" else format).

Definition newline : string := String (code_char 10) "".
Definition tab : string := String (code_char 9) "".

Section formatter.
Context (local_time : string → Z → string) (names : loc → string).

(** [FormatItem::format]: what the item writes to the stream. *)
Definition item_format (it : FormatItem) (level : Level) (e : LogEvent) : string :=
  match it with
  | MessageFormatItem => getContent e
  | LevelFormatItem => ToString level
  | ElapseFormatItem => pretty (m_elapse e)
  | NameFormatItem => names (m_logger e)
  | ThreadIdFormatItem => pretty (m_threadId e)
  | ThreadNameFormatItem => m_threadName e
  | FiberIdFormatItem => pretty (m_fiberId e)
  | DateTimeFormatItem f => local_time f (i64 (m_time e))
  | FilenameFormatItem => m_file e
  | LineFormatItem => pretty (m_line e)
  | NewLineFormatItem => newline
  | TabFormatItem => tab
  | StringFormatItem s => s
  end.

Record LogFormatter := mkFormatter { m_pattern : string; m_items : list FormatItem; m_error : bool }.

Fixpoint format_items (l : list FormatItem) (level : Level) (e : LogEvent) : string :=
  match l with
  | [] => ""
  | it :: l => item_format it level e +:+ format_items l level e
  end.
Definition format (f : LogFormatter) (level : Level) (e : LogEvent) : string := format_items (m_items f) level e.
End formatter.

(** ** [LogFormatter::init]: parsing a pattern *)
Definition s_format_items : list (string * (string → FormatItem)) := [
  ("m", λ _, MessageFormatItem); ("p", λ _, LevelFormatItem); ("r", λ _, ElapseFormatItem);
  ("c", λ _, NameFormatItem); ("t", λ _, ThreadIdFormatItem); ("N", λ _, ThreadNameFormatItem);
  ("n", λ _, NewLineFormatItem); ("d", DateTimeFormatItem_new); ("f", λ _, FilenameFormatItem);
  ("l", λ _, LineFormatItem); ("T", λ _, TabFormatItem); ("F", λ _, FiberIdFormatItem)]%string.
Fixpoint find_item (key : string) (l : list (string * (string → FormatItem))) : option (string → FormatItem) :=
  match l with
  | [] => None
  | (k, mk) :: l => if bool_decide (k = key) then Some mk else find_item key l
  end.

(** A tuple of [vec]: text, argument and kind (0 text, 1 item, 2 error). *)
Definition entry : Type := string * string * Z.
Record scan := mkScan { sc_i : nat; sc_ss : string; sc_fmt : string; sc_vec : list entry; sc_error : bool }.

Definition char_string (c : Ascii.ascii) : string := String c "".
(** [while(i < size && m_pattern[i] != '}') ++i], on the characters from [i] on *)
Fixpoint close_from (l : list Ascii.ascii) (i : nat) : nat :=
  match l with
  | [] => i
  | c :: l => if bool_decide (c = "}"%char) then i else close_from l (S i)
  end.
Definition substr (p : list Ascii.ascii) (start n : nat) : string := String.string_of_list_ascii (slice p start n).

(** The part of the loop behind the comment on ['%'], then [++i].  The [i -= 1]
    of the third branch is undone by that [++i]. *)
Definition scan_percent (p : list Ascii.ascii) (st : scan) : scan :=
  match p !! (sc_i st + 1)%nat with
  | Some c =>
      if bool_decide (c = "%"%char) then
        mkScan (sc_i st + 2) (sc_ss st +:+ "%") (sc_fmt st) (sc_vec st) (sc_error st)
      else if bool_decide (sc_fmt st ≠ ""%string) then
        mkScan (sc_i st) (sc_ss st) "" (sc_vec st ++ [(sc_fmt st, ""%string, 1)]) (sc_error st)
      else if bool_decide (sc_ss st ≠ ""%string) then
        mkScan (sc_i st + 2) "" (char_string c) (sc_vec st ++ [(sc_ss st, ""%string, 0)]) (sc_error st)
      else mkScan (sc_i st + 2) (sc_ss st) (char_string c) (sc_vec st) (sc_error st)
  | None => mkScan (sc_i st + 1) (sc_ss st) (sc_fmt st) (sc_vec st ++ [("single '%'", "", 2)%string]) true
  end.
(** One turn of the loop at the character [c]. *)
Definition scan_step (p : list Ascii.ascii) (c : Ascii.ascii) (st : scan) : scan :=
  if bool_decide (c ≠ "%"%char) then
    if bool_decide (sc_fmt st = ""%string) then
      mkScan (sc_i st + 1) (sc_ss st +:+ char_string c) (sc_fmt st) (sc_vec st) (sc_error st)
    else if bool_decide (c ≠ "{"%char) then
      mkScan (sc_i st + 1) (sc_ss st +:+ char_string c) "" (sc_vec st ++ [(sc_fmt st, ""%string, 1)]) (sc_error st)
    else
      let start := (sc_i st + 1)%nat in
      let i := close_from (drop (sc_i st) p) (sc_i st) in
      if bool_decide (i = length p) then
        scan_percent p (mkScan i (sc_ss st) (sc_fmt st) (sc_vec st ++ [("lack of '}'", "", 2)%string]) true)
      else mkScan (i + 1) (sc_ss st) "" (sc_vec st ++ [(sc_fmt st, substr p start (i - start), 1)]) (sc_error st)
  else scan_percent p st.
Fixpoint scan_loop (fuel : nat) (p : list Ascii.ascii) (st : scan) : option scan :=
  match p !! sc_i st with
  | None => Some st
  | Some c => match fuel with O => None | S fuel => scan_loop fuel p (scan_step p c st) end
  end.
(** Behind the loop: the text and the item that are left. *)
Definition scan_flush (st : scan) : list entry :=
  sc_vec st ++ (if bool_decide (sc_ss st ≠ ""%string) then [(sc_ss st, ""%string, 0)] else [])
    ++ (if bool_decide (sc_fmt st ≠ ""%string) then [(sc_fmt st, ""%string, 1)] else []).

Definition make_item (v : entry) : FormatItem :=
  let '(str, arg, kind) := v in
  if kind =? 0 then StringFormatItem str
  else match find_item str s_format_items with
       | None => StringFormatItem ("<error_format: " +:+ str +:+ ">")
       | Some mk => mk arg
       end.
Definition bad_entry (v : entry) : bool :=
  let '(str, arg, kind) := v in
  negb (kind =? 0) && bool_decide (find_item str s_format_items = None).

Definition LogFormatter_new (pattern : string) : option LogFormatter :=
  let p := String.list_ascii_of_string pattern in
  match scan_loop (2 * length p + 1) p (mkScan 0 "" "" [] false) with
  | None => None
  | Some st =>
      let vec := scan_flush st in
      Some (mkFormatter pattern (make_item <$> vec) (sc_error st || existsb bad_entry vec))
  end.

(** ** Patterns print what they say *)
From S2P Require Import Words.
From Stdlib Require Import Ascii.

(** ** Patterns as a list of pieces *)
Inductive piece :=
  | Lit (c : ascii)
  | Percent
  | Item (k : ascii) (arg : option string).

Definition piece_chars (x : piece) : list ascii :=
  match x with
  | Lit c => [c]
  | Percent => ["%"; "%"]%char
  | Item k None => ["%"%char; k]
  | Item k (Some a) => ["%"%char; k; "{"%char] ++ String.list_ascii_of_string a ++ ["}"%char]
  end.
Definition pieces_chars (ps : list piece) : list ascii := concat (piece_chars <$> ps).
Definition render (ps : list piece) : string := String.string_of_list_ascii (pieces_chars ps).

Definition no_close (a : string) : bool := forallb (λ c, bool_decide (c ≠ "}"%char)) (String.list_ascii_of_string a).
(** Whether an item without an argument is still open for one, and whether
    escaped percent signs follow it. *)
Inductive mode := Free | Pending | Escaped.
Fixpoint well_formed (m : mode) (ps : list piece) : bool :=
  match ps with
  | [] => match m with Escaped => false | _ => true end
  | Lit c :: ps => bool_decide (c ≠ "%"%char) && (match m with Free => true | _ => bool_decide (c ≠ "{"%char) end) && well_formed Free ps
  | Percent :: ps => well_formed (match m with Free => Free | _ => Escaped end) ps
  | Item k None :: ps => bool_decide (k ≠ "%"%char) && well_formed Pending ps
  | Item k (Some a) :: ps => bool_decide (k ≠ "%"%char) && no_close a && well_formed Free ps
  end.

Definition piece_entry (k : ascii) (arg : option string) : entry := (char_string k, default ""%string arg, 1).
Definition bad_piece (x : piece) : bool := match x with Item k arg => bad_entry (piece_entry k arg) | _ => false end.

(** ** The loop *)
Lemma scan_loop_more n m p st r : scan_loop n p st = Some r → scan_loop (n + m) p st = Some r.
Proof.
  revert st. induction n as [|n IH]; intros st; cbn [scan_loop Nat.add].
  - destruct m; cbn [scan_loop]; by destruct (p !! sc_i st).
  - destruct (p !! sc_i st); [apply IH|done].
Qed.
Lemma scan_loop_det n m p st r r' : scan_loop n p st = Some r → scan_loop m p st = Some r' → r = r'.
Proof.
  intros H1%(scan_loop_more n m) H2%(scan_loop_more m n). rewrite (Nat.add_comm m n) in H2. congruence.
Qed.

Lemma length_list_ascii s : length (String.list_ascii_of_string s) = String.length s.
Proof. induction s; cbn; congruence. Qed.
Lemma close_from_le l i : (i ≤ close_from l i ≤ i + length l)%nat.
Proof.
  revert i. induction l as [|c l IH]; intros i; cbn; [lia|]. case_bool_decide; [lia|]. specialize (IH (S i)). lia.
Qed.
Lemma close_from_app a l i : no_close a = true →
  close_from (String.list_ascii_of_string a ++ "}"%char :: l) i = (i + String.length a)%nat.
Proof.
  revert i. induction a as [|c a IH]; intros i H; cbn -[bool_decide].
  - rewrite bool_decide_true by done. lia.
  - unfold no_close in H. cbn -[bool_decide] in H. apply andb_true_iff in H as [Hc%bool_decide_eq_true H].
    rewrite bool_decide_false by done. rewrite (IH (S i)) by done. lia.
Qed.

(** Every turn makes the rest shorter, or starts at the same sign without an open item. *)
Definition left_over (p : list ascii) (st : scan) : nat :=
  (2 * (length p - sc_i st) + if bool_decide (sc_fmt st = ""%string) then 0 else 1)%nat.
Lemma scan_percent_less p st : (sc_i st < length p)%nat → (left_over p (scan_percent p st) < left_over p st)%nat.
Proof.
  intros Hi. unfold left_over, scan_percent. destruct (p !! (sc_i st + 1)%nat) as [c|]; repeat case_bool_decide; cbn in *; try lia; done.
Qed.
Lemma scan_step_less p c st : p !! sc_i st = Some c → (left_over p (scan_step p c st) < left_over p st)%nat.
Proof.
  intros Hc. pose proof (lookup_lt_Some _ _ _ Hc) as Hi. unfold scan_step.
  case_bool_decide as H1; [|by apply scan_percent_less].
  case_bool_decide as H2; [unfold left_over; cbn; repeat case_bool_decide; try lia; done|].
  case_bool_decide as H3; [unfold left_over; cbn; repeat case_bool_decide; try lia; done|].
  pose proof (close_from_le (drop (sc_i st) p) (sc_i st)) as Hj. rewrite length_drop in Hj.
  case_bool_decide as H4.
  - assert (p !! (length p + 1)%nat = None) as E by (apply lookup_ge_None; lia).
    unfold scan_percent, left_over. cbn. rewrite H4, E. cbn. repeat case_bool_decide; try lia; done.
  - unfold left_over. cbn. repeat case_bool_decide; try lia; done.
Qed.
Lemma scan_loop_total p st n : (left_over p st ≤ n)%nat → is_Some (scan_loop n p st).
Proof.
  revert st. induction n as [|n IH]; intros st Hn; cbn [scan_loop]; destruct (p !! sc_i st) as [c|] eqn:Hc; [|done| |done].
  - pose proof (scan_step_less p c st Hc). lia.
  - apply IH. pose proof (scan_step_less p c st Hc). lia.
Qed.

(** A formatter is built from every pattern, and keeps it. *)
Lemma scan_total pattern : ∃ f, LogFormatter_new pattern = Some f ∧ m_pattern f = pattern.
Proof.
  unfold LogFormatter_new. set (p := String.list_ascii_of_string pattern).
  destruct (scan_loop_total p (mkScan 0 "" "" [] false) (2 * length p + 1)) as [st ->]; [|by eexists].
  unfold left_over. rewrite bool_decide_true by done. cbn [sc_i]. lia.
Qed.

(** ** What a pattern prints *)
Section printed.
Context (local_time : string → Z → string) (names : loc → string) (level : Level) (e : LogEvent).

Definition entries_text (v : list entry) : string := format_items local_time names (make_item <$> v) level e.
Definition piece_text (x : piece) : string :=
  match x with
  | Lit c => char_string c
  | Percent => "%"
  | Item k arg => item_format local_time names (make_item (piece_entry k arg)) level e
  end.
Fixpoint pieces_text (ps : list piece) : string :=
  match ps with [] => "" | x :: ps => piece_text x +:+ pieces_text ps end.

Lemma entries_text_app v w : entries_text (v ++ w) = entries_text v +:+ entries_text w.
Proof using.
  unfold entries_text. rewrite fmap_app. induction (make_item <$> v) as [|it l IH]; [done|]. cbn. by rewrite IH, string_app_assoc.
Qed.
Lemma entries_text_one v : entries_text [v] = item_format local_time names (make_item v) level e.
Proof using. apply string_app_nil_r. Qed.

(** What the state of the loop has printed, if the item that is open comes
    before the text. *)
Definition state_text (st : scan) : string :=
  entries_text (sc_vec st)
    +:+ (if bool_decide (sc_fmt st ≠ ""%string) then entries_text [(sc_fmt st, ""%string, 1)] else "")
    +:+ sc_ss st.
Definition state_bad (st : scan) : bool :=
  sc_error st || existsb bad_entry (sc_vec st) || bool_decide (sc_fmt st ≠ ""%string) && bad_entry (sc_fmt st, ""%string, 1).
Definition in_mode (m : mode) (st : scan) : Prop :=
  match m with
  | Free => sc_fmt st = ""%string
  | Pending => (∃ k, sc_fmt st = char_string k) ∧ sc_ss st = ""%string
  | Escaped => ∃ k, sc_fmt st = char_string k
  end.

(** A turn of the loop that prints [t] and may add a bad item. *)
Definition turn (p : list ascii) (st : scan) (t : string) (bad : bool) (m : mode) (i : nat) (n : nat) (st' : scan) : Prop :=
  (∀ fuel, scan_loop (n + fuel) p st = scan_loop fuel p st') ∧ sc_i st' = i
  ∧ state_text st' = state_text st +:+ t ∧ state_bad st' = state_bad st || bad ∧ in_mode m st'.

Lemma turn_trans p st t1 b1 m1 i1 n1 st1 t2 b2 m2 i2 n2 st2 :
  turn p st t1 b1 m1 i1 n1 st1 → turn p st1 t2 b2 m2 i2 n2 st2 →
  turn p st (t1 +:+ t2) (b1 || b2) m2 i2 (n1 + n2) st2.
Proof using.
  intros (R1 & _ & T1 & B1 & _) (R2 & I2 & T2 & B2 & M2). split_and!; [|done|..|done].
  - intros fuel. by rewrite <- Nat.add_assoc, R1, R2.
  - by rewrite T2, T1, string_app_assoc.
  - by rewrite B2, B1, orb_assoc.
Qed.

Lemma scan_loop_step p st c : p !! sc_i st = Some c → ∀ fuel, scan_loop (1 + fuel) p st = scan_loop fuel p (scan_step p c st).
Proof using. intros E fuel. cbn [scan_loop Nat.add]. by rewrite E. Qed.
Lemma lookup_at (pre : list ascii) c rest : (pre ++ c :: rest) !! length pre = Some c.
Proof using. by rewrite list_lookup_middle. Qed.
Lemma lookup_next (pre : list ascii) c d rest : (pre ++ c :: d :: rest) !! (length pre + 1)%nat = Some d.
Proof using. by rewrite lookup_app_r, Nat.add_comm, Nat.add_sub by lia. Qed.
Lemma char_string_ne c : char_string c ≠ ""%string.
Proof using. done. Qed.
Lemma bad_text s a : bad_entry (s, a, 0) = false.
Proof using. done. Qed.

Local Ltac open_state :=
  unfold state_text, state_bad; cbn [sc_vec sc_fmt sc_ss sc_error sc_i];
  rewrite ?entries_text_app, ?existsb_app, ?entries_text_one, ?(bool_decide_true (char_string _ ≠ _)), ?(bool_decide_false (""%string ≠ ""%string)),
    ?string_app_nil, ?string_app_nil_r, ?string_app_assoc, ?andb_false_l, ?andb_true_l, ?orb_false_r by (exact (char_string_ne _) || (by intros [])).

Lemma turn_lit pre c rest m st : sc_i st = length pre → in_mode m st → c ≠ "%"%char → (m = Free ∨ c ≠ "{"%char) →
  ∃ st', turn (pre ++ c :: rest) st (char_string c) false Free (length pre + 1) 1 st'.
Proof using.
  intros Hi Hm Hc Hb. exists (scan_step (pre ++ c :: rest) c st). unfold turn. split; [apply scan_loop_step; rewrite Hi; apply lookup_at|].
  destruct st as [i ss fmt vec err]. cbn in Hi. subst i. unfold scan_step. rewrite bool_decide_true by done. cbn [sc_fmt].
  assert (fmt = ""%string ∨ c ≠ "{"%char ∧ ∃ k, fmt = char_string k) as [-> | (Hc' & k & ->)].
  { destruct m; cbn in Hm; [by left|right..]; (split; [by destruct Hb|]); naive_solver. }
  - rewrite bool_decide_true by done. split_and!; [done| | |done]; open_state; done.
  - rewrite bool_decide_false by apply char_string_ne. rewrite bool_decide_true by done.
    split_and!; [done| | |done]; open_state; [done|]. cbn [existsb]. by rewrite orb_false_r, <- orb_assoc.
Qed.

Lemma turn_percent pre rest m st : sc_i st = length pre → in_mode m st →
  ∃ st', turn (pre ++ "%"%char :: "%"%char :: rest) st "%" false (match m with Free => Free | _ => Escaped end) (length pre + 2) 1 st'.
Proof using.
  intros Hi Hm. exists (scan_step (pre ++ "%"%char :: "%"%char :: rest) "%"%char st). unfold turn.
  split; [apply scan_loop_step; rewrite Hi; apply lookup_at|].
  destruct st as [i ss fmt vec err]. cbn in Hi. subst i. unfold scan_step. rewrite bool_decide_false by naive_solver.
  unfold scan_percent. cbn [sc_i]. rewrite lookup_next, bool_decide_true by done.
  split_and!; [done|open_state; done..|]. destruct m; cbn in *; naive_solver.
Qed.

(** A sign that starts an item closes the one before. *)
Lemma turn_close pre k rest m st : sc_i st = length pre → in_mode m st → k ≠ "%"%char →
  ∃ n st', turn (pre ++ "%"%char :: k :: rest) st "" false Free (length pre) n st'.
Proof using.
  intros Hi Hm Hk. destruct st as [i ss fmt vec err]. cbn in Hi. subst i.
  assert (fmt = ""%string ∨ ∃ q, fmt = char_string q) as [-> | [q ->]] by (destruct m; cbn in Hm; naive_solver).
  - exists 0%nat, (mkScan (length pre) ss "" vec err). split_and!; [done..| |by rewrite orb_false_r|done]. by rewrite string_app_nil_r.
  - exists 1%nat, (scan_step (pre ++ "%"%char :: k :: rest) "%"%char (mkScan (length pre) ss (char_string q) vec err)).
    unfold turn. split; [apply scan_loop_step, lookup_at|]. unfold scan_step. rewrite bool_decide_false by naive_solver.
    unfold scan_percent. cbn [sc_i]. rewrite lookup_next, bool_decide_false by done. cbn [sc_fmt]. rewrite bool_decide_true by apply char_string_ne.
    split_and!; [done|open_state..|done]; [done|]. cbn [existsb]. by rewrite orb_false_r, <- orb_assoc.
Qed.

(** With no item open, the text so far becomes an entry and the key is read. *)
Lemma open_item pre k rest st : sc_i st = length pre → sc_fmt st = ""%string → k ≠ "%"%char →
  ∃ vec err, (∀ fuel, scan_loop (1 + fuel) (pre ++ "%"%char :: k :: rest) st
      = scan_loop fuel (pre ++ "%"%char :: k :: rest) (mkScan (length pre + 2) "" (char_string k) vec err))
  ∧ entries_text vec = state_text st ∧ err || existsb bad_entry vec = state_bad st.
Proof using.
  intros Hi Hf Hk. destruct st as [i ss fmt vec err]. cbn in Hi, Hf. subst i fmt.
  exists (if bool_decide (ss ≠ ""%string) then vec ++ [(ss, ""%string, 0)] else vec), err. split.
  - intros fuel. rewrite (scan_loop_step _ (mkScan (length pre) ss "" vec err) _ (lookup_at pre _ _)). f_equal. unfold scan_step. rewrite bool_decide_false by naive_solver.
    unfold scan_percent. cbn [sc_i]. rewrite lookup_next, bool_decide_false by done. cbn [sc_fmt].
    rewrite bool_decide_false by (by intros []). cbn [sc_ss]. case_bool_decide as Hs; [done|by subst ss].
  - case_bool_decide as Hs; [|subst ss]; split; open_state; try done; by rewrite ?orb_false_r.
Qed.

Lemma turn_item pre k rest st : sc_i st = length pre → sc_fmt st = ""%string → k ≠ "%"%char →
  ∃ st', turn (pre ++ "%"%char :: k :: rest) st (piece_text (Item k None)) (bad_piece (Item k None)) Pending (length pre + 2) 1 st'.
Proof using.
  intros Hi Hf Hk. destruct (open_item pre k rest st Hi Hf Hk) as (vec & err & R & T & B). eexists. unfold turn. split; [exact R|].
  split_and!; [done| | |split; [by eexists|done]].
  - rewrite <- T. by open_state.
  - rewrite <- B. by open_state.
Qed.

Lemma turn_item_arg pre k a rest st : sc_i st = length pre → sc_fmt st = ""%string → k ≠ "%"%char → no_close a = true →
  let q := piece_chars (Item k (Some a)) in
  ∃ st', turn (pre ++ q ++ rest) st (piece_text (Item k (Some a))) (bad_piece (Item k (Some a))) Free (length pre + length q) 2 st'.
Proof using.
  intros Hi Hf Hk Ha q. set (l := String.list_ascii_of_string a). set (tl := "{"%char :: l ++ "}"%char :: rest).
  assert (pre ++ q ++ rest = pre ++ "%"%char :: k :: tl) as -> by (unfold q, tl; cbn; by rewrite <- (assoc_L (++))).
  destruct (open_item pre k tl st Hi Hf Hk) as (vec & err & R & T & B). set (p := pre ++ "%"%char :: k :: tl) in *.
  assert (∀ i, drop (length pre + (2 + i)) p = drop i tl) as Ed by (intros i; unfold p; by rewrite drop_app_add).
  assert (length l = String.length a) as El by apply length_list_ascii.
  assert (length p = length pre + 4 + length l + length rest)%nat as Elen by (unfold p, tl; repeat (rewrite length_app; cbn [length]); lia).
  assert (close_from tl (length pre + 2) = length pre + 3 + length l)%nat as Ec.
  { unfold tl. cbn [close_from]. rewrite bool_decide_false by done. unfold l. rewrite close_from_app, length_list_ascii by done. lia. }
  assert (length q = 4 + length l)%nat as Eq by (unfold q, l; cbn; rewrite length_app; cbn; lia).
  exists (mkScan (length pre + length q) "" "" (vec ++ [piece_entry k (Some a)]) err). unfold turn. split.
  - intros fuel. change (2 + fuel)%nat with (1 + (1 + fuel))%nat. rewrite R.
    assert (p !! (length pre + 2)%nat = Some "{"%char) as Hp by (unfold p; by rewrite lookup_app_r, Nat.add_comm, Nat.add_sub by lia).
    rewrite (scan_loop_step _ (mkScan (length pre + 2) "" (char_string k) vec err) _ Hp). f_equal. unfold scan_step. cbn [sc_i sc_fmt sc_ss sc_vec sc_error].
    rewrite bool_decide_true by done. rewrite (bool_decide_false (char_string k = _)) by done. rewrite bool_decide_false by naive_solver.
    assert (drop (length pre + 2) p = tl) as Ed0 by apply (Ed 0%nat). rewrite Ed0, Ec, bool_decide_false by lia.
    replace (length pre + 3 + length l + 1)%nat with (length pre + length q)%nat by lia. unfold piece_entry, substr, slice. cbn [default]. do 3 f_equal.
    replace (length pre + 2 + 1)%nat with (length pre + (2 + 1))%nat by lia. rewrite Ed. unfold tl. cbn [drop]. rewrite drop_0.
    replace (length pre + 3 + length l - _)%nat with (length l) by lia. rewrite take_app_length. unfold l. by rewrite String.string_of_list_ascii_of_string.
  - split_and!; [done|rewrite <- T|rewrite <- B|done]; open_state; [done|]. cbn [existsb]. by rewrite orb_false_r, <- orb_assoc.
Qed.

(** The loop over the rest of a well-formed pattern. *)
Lemma pieces_turns ps : ∀ pre m st, sc_i st = length pre → in_mode m st → well_formed m ps = true →
  let p := pre ++ pieces_chars ps in
  ∃ n m' st', turn p st (pieces_text ps) (existsb bad_piece ps) m' (length p) n st' ∧ m' ≠ Escaped.
Proof using.
  induction ps as [|x ps IH]; intros pre m st Hi Hm Hw p.
  - exists 0%nat, m, st. unfold p. cbn [pieces_chars fmap list_fmap concat]. rewrite app_nil_r. split; [|by destruct m].
    split_and!; [done|done|by rewrite string_app_nil_r|by rewrite orb_false_r|done].
  - assert (∀ t b m1 n1 st1, turn p st t b m1 (length (pre ++ piece_chars x)) n1 st1 → well_formed m1 ps = true →
      t = piece_text x → b = bad_piece x →
      ∃ n m' st', turn p st (pieces_text (x :: ps)) (existsb bad_piece (x :: ps)) m' (length p) n st' ∧ m' ≠ Escaped) as Hstep.
    { intros t b m1 n1 st1 Ht Hw1 -> ->. pose proof Ht as (_ & I1 & _ & _ & M1).
      assert ((pre ++ piece_chars x) ++ pieces_chars ps = p) as E by (symmetry; apply (assoc_L (++))).
      destruct (IH (pre ++ piece_chars x) m1 st1 I1 M1 Hw1) as (n & m' & st' & Ht' & Hm'). rewrite E in Ht'.
      exists (n1 + n)%nat, m', st'. split; [|done]. by eapply turn_trans. }
    revert Hstep. unfold p, pieces_chars. cbn [fmap list_fmap concat]. fold (piece_chars <$> ps). change (concat (piece_chars <$> ps)) with (pieces_chars ps).
    rewrite length_app. intros Hstep. destruct x as [c| |k [a|]]; cbn [well_formed] in Hw.
    + apply andb_true_iff in Hw as [[Hc%bool_decide_eq_true Hb]%andb_true_iff Hw].
      destruct (turn_lit pre c (pieces_chars ps) m st Hi Hm Hc) as [st1 Ht]; [destruct m; [by left|right; by apply bool_decide_eq_true in Hb..]|].
      by eapply Hstep.
    + destruct (turn_percent pre (pieces_chars ps) m st Hi Hm) as [st1 Ht]. by eapply Hstep.
    + apply andb_true_iff in Hw as [[Hk%bool_decide_eq_true Ha]%andb_true_iff Hw].
      destruct (turn_close pre k ("{"%char :: String.list_ascii_of_string a ++ "}"%char :: pieces_chars ps) m st Hi Hm Hk) as (n1 & st1 & Ht1).
      assert (pre ++ piece_chars (Item k (Some a)) ++ pieces_chars ps = pre ++ "%"%char :: k :: "{"%char :: String.list_ascii_of_string a ++ "}"%char :: pieces_chars ps) as E
        by (cbn; by rewrite <- (assoc_L (++))).
      rewrite <- E in Ht1. pose proof Ht1 as (_ & I1 & _ & _ & M1).
      destruct (turn_item_arg pre k a (pieces_chars ps) st1 I1 M1 Hk Ha) as [st2 Ht2].
      by eapply Hstep; [eapply turn_trans|..].
    + apply andb_true_iff in Hw as [Hk%bool_decide_eq_true Hw].
      destruct (turn_close pre k (pieces_chars ps) m st Hi Hm Hk) as (n1 & st1 & Ht1). pose proof Ht1 as (_ & I1 & _ & _ & M1).
      destruct (turn_item pre k (pieces_chars ps) st1 I1 M1 Hk) as [st2 Ht2].
      by eapply Hstep; [eapply turn_trans|..].
Qed.

Lemma flush_text m st : in_mode m st → m ≠ Escaped → entries_text (scan_flush st) = state_text st
  ∧ sc_error st || existsb bad_entry (scan_flush st) = state_bad st.
Proof using.
  intros Hm Hne. destruct st as [i ss fmt vec err]. unfold scan_flush. cbn [sc_fmt sc_ss sc_vec sc_error].
  destruct m; cbn in Hm; [subst fmt|destruct Hm as [[k ->] ->]|done].
  - rewrite (bool_decide_false (""%string ≠ ""%string)), app_nil_r by (by intros []). case_bool_decide as Hs; [|subst ss]; split; open_state; rewrite ?app_nil_r; done.
  - rewrite (bool_decide_false (""%string ≠ ""%string)) by (by intros []). rewrite bool_decide_true by apply char_string_ne.
    split; open_state; [done|]. cbn [existsb app]. by rewrite orb_false_r, orb_assoc.
Qed.
End printed.

(** C33: a formatter for the pattern of well-formed pieces prints them in order,
    with [%%] as a percent sign, each key as its item and an unknown key as an
    error text; it is in error exactly when there is an unknown key *)
Theorem pattern_printed ps : well_formed Free ps = true → ∃ f, LogFormatter_new (render ps) = Some f
  ∧ m_error f = existsb bad_piece ps
  ∧ ∀ local_time names level e, format local_time names f level e = pieces_text local_time names level e ps.
Proof.
  intros Hw. unfold LogFormatter_new, render. rewrite String.list_ascii_of_string_of_list_ascii. set (p := pieces_chars ps).
  destruct (scan_loop_total p (mkScan 0 "" "" [] false) (2 * length p + 1)) as [st E].
  { unfold left_over. rewrite bool_decide_true by done. cbn [sc_i]. lia. }
  rewrite E. eexists. split; [done|]. cbn [m_error format m_items].
  assert (∀ lt names level e, entries_text lt names level e (scan_flush st) = pieces_text lt names level e ps
    ∧ sc_error st || existsb bad_entry (scan_flush st) = existsb bad_piece ps) as H.
  { intros lt names level e. destruct (pieces_turns lt names level e ps [] Free (mkScan 0 "" "" [] false)) as (n & m & st' & (R & I & T & B & M) & Hne); [done..|].
    cbn [app] in R, I. fold p in R, I. specialize (R 0%nat). assert (scan_loop 0 p st' = Some st') as E' by (cbn; by rewrite I, lookup_ge_None_2 by lia).
    rewrite E' in R. pose proof (scan_loop_det _ _ _ _ _ _ E R) as <-. destruct (flush_text lt names level e m st M Hne) as [-> ->].
    split; [by rewrite T|by rewrite B]. }
  split; [apply (H (λ _ _, ""%string) (λ _, ""%string) INFO (mkEvent 0%nat INFO "" 0 0 0 "" 0 0 ""))|]. intros. apply H.
Qed.

Definition sample_pattern : list piece :=
  [Lit "["; Item "p" None; Lit "]"; Item "T" None; Item "d" (Some "%Y{"%string); Percent; Percent; Item "c" None; Percent; Item "q" None; Item "m" None]%char.
Lemma pattern_printed_witness :
  well_formed Free sample_pattern = true ∧ render sample_pattern = "[%p]%T%d{%Y{}%%%%%c%%%q%m"%string ∧
  ∃ f, LogFormatter_new (render sample_pattern) = Some f ∧ m_error f = existsb bad_piece sample_pattern
    ∧ ∀ local_time names level e, format local_time names f level e = pieces_text local_time names level e sample_pattern.
Proof. split; [done|]. split; [done|]. apply (pattern_printed sample_pattern). done. Defined.

Definition sample_event : LogEvent := mkEvent 1%nat INFO "a.cpp" 12 0 7 "main" 3 1000 "hello".
Definition printed (pattern : string) : option string :=
  (λ f, format (λ f _, f) (λ _, "root"%string) f WARN sample_event) <$> LogFormatter_new pattern.

Lemma sample_printed : printed (render sample_pattern) = Some ("[WARN]" +:+ tab +:+ "%Y{%%root%<error_format: q>hello")%string.
Proof. done. Qed.

(** An escaped sign behind an item does not close the item: at the end of the
    pattern it is printed before it, and a brace behind it is the item's argument. *)
Lemma percent_at_end_first : printed "%m%%" = Some "%hello"%string.
Proof. done. Qed.
Lemma percent_brace_taken : printed "%d%%{x}" = Some "x%"%string.
Proof. done. Qed.
(** A brace that is not closed is reported twice. *)
Lemma brace_not_closed : printed "%d{x" = Some "<error_format: lack of '}'><error_format: single '%'>%Y-%m-%d %H:%M:%S"%string.
Proof. done. Qed.
