(* ===== verification/Log.v ===== *)
(** * Log: appenders, loggers and the manager ([include/log.h], [src/log.cpp])

    Loggers and appenders are shared by pointer, so they live in a heap; a
    pointer is null only in [m_root].  Each operation holds the object's spin
    lock and is one step.  Whether a file opens, and takes a text, is up to the
    disk ([Disk]); [written] is what reached the streams, oldest first. *)
From S2P Require Import Prelude LogFormat.

Class Disk (D : Type) := {
  file_open : string → D → bool * D;
  file_write : string → string → D → bool * D;
  file_close : string → D → bool * D
}.

Inductive sink := Stdout | File (name : string).

(** [std::ofstream]: the file it has open and its fail and bad bits. *)
Record ofstream := mkStream { is_open : option string; failed : bool }.
Definition ofstream_new : ofstream := mkStream None false.

Inductive appender_kind :=
  | FileLogAppender (m_filename : string) (m_filestream : ofstream)
  | StdoutLogAppender.
Record LogAppender := mkAppender {
  a_kind : appender_kind; m_hasFormatter : bool; a_level : Level; a_formatter : option LogFormatter
}.
Definition FileLogAppender_new (filename : string) : LogAppender := mkAppender (FileLogAppender filename ofstream_new) false DEBUG None.
Definition StdoutLogAppender_new : LogAppender := mkAppender StdoutLogAppender false DEBUG None.
Definition set_a_kind v a := mkAppender v (m_hasFormatter a) (a_level a) (a_formatter a).
Definition set_a_level v a := mkAppender (a_kind a) (m_hasFormatter a) v (a_formatter a).
(** [LogAppender::setFormatter] *)
Definition appender_setFormatter (v : option LogFormatter) a := mkAppender (a_kind a) (match v with Some _ => true | None => false end) (a_level a) v.
(** [appender->m_formatter = ...], as the friend [Logger] does it *)
Definition assign_formatter v a := mkAppender (a_kind a) (m_hasFormatter a) (a_level a) v.

Record Logger := mkLogger {
  l_name : string; l_level : Level; m_appenders : list loc; l_formatter : option LogFormatter; m_root : option loc
}.
Definition set_l_level v l := mkLogger (l_name l) v (m_appenders l) (l_formatter l) (m_root l).
Definition set_m_appenders v l := mkLogger (l_name l) (l_level l) v (l_formatter l) (m_root l).
Definition set_l_formatter v l := mkLogger (l_name l) (l_level l) (m_appenders l) v (m_root l).
Definition set_m_root v l := mkLogger (l_name l) (l_level l) (m_appenders l) (l_formatter l) v.

Definition default_pattern : string := "%d%T%t%T%N%T%F%T[%p]%T[%c]%T%f:%l%T%m%n".

Section log.
Context {D : Type} `{Disk D} (local_time : string → Z → string).

(** The heap, the manager's root and table, the streams and the disk. *)
Record world := mkWorld {
  loggers : gmap loc Logger; appenders : gmap loc LogAppender;
  manager_root : loc; m_loggers : gmap string loc;
  written : list (sink * string); disk : D
}.
Definition set_loggers v w := mkWorld v (appenders w) (manager_root w) (m_loggers w) (written w) (disk w).
Definition set_appenders v w := mkWorld (loggers w) v (manager_root w) (m_loggers w) (written w) (disk w).
Definition set_m_loggers v w := mkWorld (loggers w) (appenders w) (manager_root w) v (written w) (disk w).
Definition set_written v w := mkWorld (loggers w) (appenders w) (manager_root w) (m_loggers w) v (disk w).
Definition set_disk v w := mkWorld (loggers w) (appenders w) (manager_root w) (m_loggers w) (written w) v.

(** Dereferencing a pointer. *)
Definition get_logger (l : loc) : ST world Logger := λ w,
  match loggers w !! l with Some x => Ret x w | None => Crash NullDeref end.
Definition get_appender (a : loc) : ST world LogAppender := λ w,
  match appenders w !! a with Some x => Ret x w | None => Crash NullDeref end.
Definition put_logger (l : loc) (f : Logger → Logger) : ST world unit :=
  let* _ := get_logger l in modify (λ w, set_loggers (alter f l (loggers w)) w).
Definition put_appender (a : loc) (f : LogAppender → LogAppender) : ST world unit :=
  let* _ := get_appender a in modify (λ w, set_appenders (alter f a (appenders w)) w).
(** [new] *)
Definition new_logger (x : Logger) : ST world loc := λ w,
  let l := fresh (dom (loggers w)) in Ret l (set_loggers (<[l := x]> (loggers w)) w).
Definition new_appender (x : LogAppender) : ST world loc := λ w,
  let a := fresh (dom (appenders w)) in Ret a (set_appenders (<[a := x]> (appenders w)) w).
Definition new_formatter {S} (pattern : string) : ST S LogFormatter :=
  match LogFormatter_new pattern with Some f => ret f | None => crash Diverges end.
(** [logger->getName()] *)
Definition name_in (w : world) (l : loc) : string := match loggers w !! l with Some x => l_name x | None => "" end.

Definition put_text (s : sink) (text : string) : ST world unit := modify (λ w, set_written (written w ++ [(s, text)]) w).
Fixpoint for_each {A} (f : A → ST world unit) (l : list A) : ST world unit :=
  match l with [] => ret tt | x :: l => f x ;;; for_each f l end.
Definition on_disk {A} (f : D → A * D) : ST world A := λ w, let (x, d) := f (disk w) in Ret x (set_disk d w).

(** *** [std::ofstream] *)
Definition stream_close (s : ofstream) : ST world ofstream :=
  match is_open s with
  | None => ret (mkStream None true)
  | Some f => let* ok := on_disk (file_close f) in ret (mkStream None (failed s || negb ok))
  end.
Definition stream_open (name : string) (s : ofstream) : ST world ofstream :=
  match is_open s with
  | Some _ => ret (mkStream (is_open s) true)
  | None =>
      let* ok := on_disk (file_open name) in
      ret (if ok : bool then mkStream (Some name) false else mkStream None true)
  end.
Definition stream_write (text : string) (s : ofstream) : ST world ofstream :=
  match is_open s, failed s with
  | Some f, false =>
      let* ok := on_disk (file_write f text) in
      if ok : bool then put_text (File f) text ;;; ret s else ret (mkStream (Some f) true)
  | _, _ => ret (mkStream (is_open s) true)
  end.

(** *** Appenders *)
Definition reopen (filename : string) (s : ofstream) : ST world ofstream :=
  let* s := (if negb (failed s) then stream_close s else ret s) in
  stream_open filename s.
Definition appender_log (a : loc) (level : Level) (e : LogEvent) : ST world unit :=
  let* x := get_appender a in
  if level_ge level (a_level x) then
    match a_kind x with
    | FileLogAppender filename s =>
        let* s := reopen filename s in
        match a_formatter x with
        | None => crash NullDeref
        | Some f =>
            let* w := gets id in
            let* s := stream_write (format local_time (name_in w) f level e) s in
            put_appender a (set_a_kind (FileLogAppender filename s))
        end
    | StdoutLogAppender =>
        match a_formatter x with
        | None => crash NullDeref
        | Some f => let* w := gets id in put_text Stdout (format local_time (name_in w) f level e)
        end
    end
  else ret tt.
Definition appender_setLevel (a : loc) (level : Level) : ST world unit := put_appender a (set_a_level level).

(** *** Loggers *)
Definition Logger_new (name : string) : ST world loc :=
  let* f := new_formatter default_pattern in
  new_logger (mkLogger name DEBUG [] (Some f) None).
Definition addAppender (l a : loc) : ST world unit :=
  let* x := get_logger l in
  let* y := get_appender a in
  match a_formatter y with
  | None => put_appender a (assign_formatter (l_formatter x))
  | Some _ => ret tt
  end ;;;
  put_logger l (set_m_appenders (m_appenders x ++ [a])).
(** The first that is equal goes. *)
Fixpoint remove_first (a : loc) (l : list loc) : list loc :=
  match l with [] => [] | b :: l => if bool_decide (b = a) then l else b :: remove_first a l end.
Definition delAppender (l a : loc) : ST world unit :=
  let* x := get_logger l in put_logger l (set_m_appenders (remove_first a (m_appenders x))).
Definition clearAppender (l : loc) : ST world unit := put_logger l (set_m_appenders []).
Definition setLevel (l : loc) (v : Level) : ST world unit := put_logger l (set_l_level v).
Definition getLevel (l : loc) : ST world Level := let* x := get_logger l in ret (l_level x).
Definition getFormatter (l : loc) : ST world (option LogFormatter) := let* x := get_logger l in ret (l_formatter x).

(** [fuel] bounds the chain of roots. *)
Fixpoint Logger_log (fuel : nat) (l : loc) (level : Level) (e : LogEvent) : ST world unit :=
  match fuel with
  | O => crash Diverges
  | S fuel =>
      let* x := get_logger l in
      if level_ge level (l_level x) then
        match m_appenders x with
        | [] => match m_root x with Some r => Logger_log fuel r level e | None => ret tt end
        | _ => for_each (λ a, appender_log a level e) (m_appenders x)
        end
      else ret tt
  end.

Definition setFormatter (l : loc) (v : option LogFormatter) : ST world unit :=
  put_logger l (set_l_formatter v) ;;;
  let* x := get_logger l in
  for_each (λ a,
    let* y := get_appender a in
    if negb (m_hasFormatter y) then put_appender a (appender_setFormatter v) else ret tt) (m_appenders x).
Definition setFormatter_pattern (l : loc) (v : string) : ST world unit :=
  let* f := new_formatter v in
  if m_error f then
    let* x := get_logger l in
    put_text Stdout ("Logger setFormatter name=" +:+ l_name x +:+ " value=" +:+ v +:+ " invalid formatter" +:+ newline)
  else setFormatter l (Some f).

(** [AZURE_LOG_LEVEL(logger, level) << text]: the event is written when its
    wrapper is destroyed. *)
Definition log_statement (fuel : nat) (l : loc) (level : Level) (file : string) (line thread fiber time : Z)
    (thread_name text : string) : ST world unit :=
  let* threshold := getLevel l in
  if level_ge level threshold then
    let e := stream_text text (mkEvent l level file line 0 thread thread_name fiber time "") in
    Logger_log fuel (m_logger e) (ev_level e) e
  else ret tt.

(** *** [LoggerManager] *)
Definition getLogger (name : string) : ST world loc :=
  let* w := gets id in
  match m_loggers w !! name with
  | Some l => ret l
  | None =>
      let* l := Logger_new name in
      put_logger l (set_m_root (Some (manager_root w))) ;;;
      modify (λ w, set_m_loggers (<[name := l]> (m_loggers w)) w) ;;;
      ret l
  end.
Definition LoggerManager_new : ST world unit :=
  let* root := Logger_new "root" in
  modify (λ w, mkWorld (loggers w) (appenders w) root (m_loggers w) (written w) (disk w)) ;;;
  let* a := new_appender StdoutLogAppender_new in
  addAppender root a ;;;
  let* x := get_logger root in
  modify (λ w, set_m_loggers (<[l_name x := root]> (m_loggers w)) w).
End log.
Arguments world D : clear implicits.
