(* ===== verification/LogTheorems.v ===== *)
(** * LogTheorems: what a log statement writes *)
From S2P Require Import Prelude LogFormat Log.

(** A disk on which every call succeeds. *)
Class DiskFine (D : Type) `{Disk D} := {
  open_fine f d : (file_open f d).1 = true;
  write_fine f t d : (file_write f t d).1 = true;
  close_fine f d : (file_close f d).1 = true
}.

Section theorems.
Context {D : Type} `{Disk D} (local_time : string → Z → string).
Implicit Types (w : world D) (l r a : loc) (lg : Logger) (x y : LogAppender).

(** ** The heap is sound *)
(** A stream that is open has the appender's file open. *)
Definition stream_named (x : LogAppender) : Prop :=
  match a_kind x with FileLogAppender f s => is_open s = None ∨ is_open s = Some f | StdoutLogAppender => True end.
Definition appender_ok (x : LogAppender) : Prop := a_formatter x ≠ None.
Definition logger_ok (aps : gmap loc LogAppender) (root : loc) (lg : Logger) : Prop :=
  l_formatter lg ≠ None ∧ (m_root lg = None ∨ m_root lg = Some root)
  ∧ Forall (λ a, ∃ x, aps !! a = Some x ∧ appender_ok x) (m_appenders lg).
Record inv (w : world D) : Prop := {
  inv_loggers : map_Forall (λ _, logger_ok (appenders w) (manager_root w)) (loggers w);
  inv_streams : map_Forall (λ _, stream_named) (appenders w);
  inv_root : ∃ lg, loggers w !! manager_root w = Some lg ∧ m_root lg = None ∧ l_name lg = "root"%string;
  inv_table : map_Forall (λ n l, ∃ lg, loggers w !! l = Some lg ∧ l_name lg = n) (m_loggers w);
  inv_named_root : m_loggers w !! "root"%string = Some (manager_root w)
}.

(** Changing the appenders of the heap keeps the loggers sound if none loses its formatter. *)
Lemma logger_ok_grow aps aps' root lg :
  (∀ a x, aps !! a = Some x → appender_ok x → ∃ x', aps' !! a = Some x' ∧ appender_ok x') →
  logger_ok aps root lg → logger_ok aps' root lg.
Proof using.
  intros Hg (Hf & Hr & Ha). split_and!; [done..|]. eapply Forall_impl; [exact Ha|].
  intros a (x & Hx & Hok). by apply (Hg a x).
Qed.
Lemma inv_appenders w aps' :
  (∀ a x, appenders w !! a = Some x → appender_ok x → ∃ x', aps' !! a = Some x' ∧ appender_ok x') →
  map_Forall (λ _, stream_named) aps' → inv w → inv (set_appenders aps' w).
Proof using.
  intros Hg Hs [I1 _ I2 I3 I4]. constructor; cbn; [|done..]. intros l lg Hl. by eapply logger_ok_grow, I1.
Qed.
Lemma inv_put_appender w a f x : (appender_ok x → appender_ok (f x)) → (stream_named x → stream_named (f x)) → appenders w !! a = Some x →
  inv w → inv (set_appenders (alter f a (appenders w)) w).
Proof using.
  intros Hf Hs Hx Hi. apply inv_appenders; [..|done].
  - intros a' x' Hx' Hok. destruct (decide (a' = a)) as [->|Hne].
    + rewrite lookup_alter_eq, Hx. eexists. split; [done|]. apply Hf. congruence.
    + rewrite lookup_alter_ne by done. eauto.
  - intros a' x'. destruct (decide (a' = a)) as [->|Hne].
    + rewrite lookup_alter_eq, Hx. intros [= <-]. apply Hs, (inv_streams w Hi a x Hx).
    + rewrite lookup_alter_ne by done. apply (inv_streams w Hi).
Qed.
Lemma inv_put_logger w l f lg : loggers w !! l = Some lg →
  (logger_ok (appenders w) (manager_root w) lg → logger_ok (appenders w) (manager_root w) (f lg)) →
  m_root (f lg) = m_root lg → l_name (f lg) = l_name lg → inv w → inv (set_loggers (alter f l (loggers w)) w).
Proof using.
  intros Hl Hok Hr Hn [I1 Is I2 I3 I4]. constructor; cbn; [|done|..|done].
  - intros l' lg'. destruct (decide (l' = l)) as [->|Hne]; [|rewrite lookup_alter_ne by done; apply I1].
    rewrite lookup_alter_eq, Hl. intros [= <-]. apply Hok, (I1 l lg Hl).
  - destruct I2 as (lr & Hlr & Hrr & Hnr). destruct (decide (manager_root w = l)) as [E|Hne].
    + rewrite E, lookup_alter_eq, Hl in *. eexists. split; [done|]. assert (lr = lg) as -> by congruence. by rewrite Hr, Hn.
    + rewrite lookup_alter_ne by done. eauto.
  - intros n l' Hl'. destruct (I3 n l' Hl') as (lg' & Hlg' & Hn'). destruct (decide (l' = l)) as [->|Hne].
    + rewrite lookup_alter_eq, Hl. eexists. split; [done|]. rewrite Hn. congruence.
    + rewrite lookup_alter_ne by done. eauto.
Qed.
Lemma inv_output w v d : inv w → inv (set_disk d (set_written v w)).
Proof using. intros [I1 Is I2 I3 I4]. by constructor. Qed.

(** ** What a statement should write *)
Definition sink_of (x : LogAppender) : sink := match a_kind x with FileLogAppender f _ => File f | StdoutLogAppender => Stdout end.
Definition writes (w : world D) (level : Level) (e : LogEvent) (a : loc) : list (sink * string) :=
  match appenders w !! a with
  | Some x =>
      match a_formatter x with
      | Some f => if level_ge level (a_level x) then [(sink_of x, format local_time (name_in w) f level e)] else []
      | None => []
      end
  | None => []
  end.
(** A logger without appenders hands the event to the root. *)
Definition expected (w : world D) (l : loc) (level : Level) (e : LogEvent) : list (sink * string) :=
  match loggers w !! l with
  | Some lg =>
      if level_ge level (l_level lg) then
        match m_appenders lg, m_root lg ≫= (loggers w !!.) with
        | [], Some root => if level_ge level (l_level root) then concat (writes w level e <$> m_appenders root) else []
        | l, _ => concat (writes w level e <$> l)
        end
      else []
  | None => []
  end.

(** No stream is open and failed. *)
Definition stream_fine (x : LogAppender) : Prop :=
  match a_kind x with FileLogAppender _ s => is_open s = None ∨ failed s = false | StdoutLogAppender => True end.
Definition streams_fine (w : world D) : Prop := map_Forall (λ _, stream_fine) (appenders w).

(** Writing changes streams only. *)
Definition same_appender (x y : LogAppender) : Prop :=
  sink_of x = sink_of y ∧ m_hasFormatter x = m_hasFormatter y ∧ a_level x = a_level y ∧ a_formatter x = a_formatter y.
Record kept (w w' : world D) : Prop := {
  kept_loggers : loggers w' = loggers w;
  kept_root : manager_root w' = manager_root w;
  kept_table : m_loggers w' = m_loggers w;
  kept_appenders a : option_Forall2 same_appender (appenders w !! a) (appenders w' !! a)
}.
#[local] Instance same_appender_refl : Reflexive same_appender.
Proof using. done. Qed.
#[local] Instance same_appender_trans : Transitive same_appender.
Proof using. intros x y z (? & ? & ? & ?) (? & ? & ? & ?). split_and!; congruence. Qed.
#[local] Instance kept_refl : Reflexive kept.
Proof using. intros w. by constructor. Qed.
#[local] Instance kept_trans : Transitive kept.
Proof using. intros w1 w2 w3 [A1 B1 C1 D1] [A2 B2 C2 D2]. constructor; [congruence..|]. intros a. by transitivity (appenders w2 !! a). Qed.

Lemma writes_kept w w' level e a : kept w w' → writes w' level e a = writes w level e a.
Proof using.
  intros [A B C K]. unfold writes, name_in. rewrite A. specialize (K a). inversion K as [x y (Hs & Hh & Hl & Hf) E1 E2|E1 E2]; [|done].
  by rewrite Hf, Hl, Hs.
Qed.

(** ** Streams *)
Lemma reopen_ret name s w : ∃ s' d, reopen name s w = Ret s' (set_disk d w)
  ∧ (is_open s = None ∨ is_open s = Some name → is_open s' = None ∨ is_open s' = Some name)
  ∧ (DiskFine D → is_open s = None ∨ failed s = false → s' = mkStream (Some name) false).
Proof using.
  clear local_time. unfold reopen, stream_close, stream_open, on_disk, bind, ret. destruct s as [[f|] [|]]; cbn.
  all: repeat (match goal with |- context [file_close ?f ?d] => let E := fresh "E" in destruct (file_close f d) as [? ?] eqn:E; cbn end).
  all: repeat (match goal with |- context [file_open ?f ?d] => let E := fresh "E" in destruct (file_open f d) as [[] ?] eqn:E; cbn end).
  all: destruct w as [w1 w2 w3 w4 w5 w6]; unfold set_disk; cbn; eexists _, _; (split; [reflexivity|]); split; cbn; [tauto|].
  all: intros F [|]; try done.
  all: match goal with E : file_open ?f ?d = _ |- _ => pose proof (open_fine f d) as F1; rewrite E in F1; cbn in F1 end; done.
Qed.
Lemma stream_write_ret text name s w : is_open s = None ∨ is_open s = Some name →
  ∃ s' d out, stream_write text s w = Ret s' (set_disk d (set_written (written w ++ out) w))
  ∧ (is_open s' = None ∨ is_open s' = Some name) ∧ out `sublist_of` [(File name, text)]
  ∧ (DiskFine D → s = mkStream (Some name) false → s' = s ∧ out = [(File name, text)]).
Proof using.
  clear local_time. intros Hs. destruct w as [w1 w2 w3 w4 w5 w6]. unfold stream_write, on_disk, put_text, modify, bind, ret, set_disk, set_written. cbn.
  assert (∀ s', is_open s' = is_open s → ∃ s'' d out, Ret s' (mkWorld w1 w2 w3 w4 w5 w6) = Ret s'' (mkWorld w1 w2 w3 w4 (w5 ++ out) d)
    ∧ (is_open s'' = None ∨ is_open s'' = Some name) ∧ out `sublist_of` [(File name, text)] ∧ out = []) as Hquiet.
  { intros s' E. exists s', w6, []. rewrite app_nil_r, E. split_and!; [done..|apply sublist_nil_l|done]. }
  destruct s as [[f|] [|]]; cbn in *.
  2: { destruct Hs as [|[= ->]]; [done|]. destruct (file_write name text w6) as [[] d] eqn:E; cbn.
    - eexists _, _, _. split_and!; [reflexivity|by right|done|done].
    - exists (mkStream (Some name) true), d, []. rewrite app_nil_r. split_and!; [done|by right|apply sublist_nil_l|].
      intros F. pose proof (write_fine name text w6) as F1. by rewrite E in F1. }
  all: match goal with |- context [Ret ?x _] => destruct (Hquiet x) as (s'' & d & out & E & Hs'' & Hsub & ->); [done|] end.
  all: exists s'', d, []; split_and!; [done..|]; intros ? [=].
Qed.
Lemma alter_kept w a x f d out : appenders w !! a = Some x → same_appender x (f x) →
  kept w (set_disk d (set_written out (set_appenders (alter f a (appenders w)) w))).
Proof using.
  intros Hx Hsame. constructor; cbn; [done..|]. intros a'. destruct (decide (a' = a)) as [->|Hne].
  - rewrite lookup_alter_eq, Hx. by constructor.
  - by rewrite lookup_alter_ne by done.
Qed.

(** ** A statement *)
(** [w'] is [w] after some of [todo] was written. *)
Definition wrote (w w' : world D) (todo : list (sink * string)) : Prop :=
  kept w w' ∧ inv w' ∧ ∃ out, written w' = written w ++ out ∧ out `sublist_of` todo
  ∧ (DiskFine D → streams_fine w → out = todo ∧ streams_fine w').

Lemma wrote_nothing w : inv w → wrote w w [].
Proof using. intros Hi. split_and!; [done..|]. exists []. rewrite app_nil_r. by split_and!. Qed.
Lemma wrote_trans w1 w2 w3 t1 t2 : wrote w1 w2 t1 → wrote w2 w3 t2 → wrote w1 w3 (t1 ++ t2).
Proof using.
  intros (K1 & I1 & o1 & E1 & S1 & F1) (K2 & I2 & o2 & E2 & S2 & F2). split_and!; [by etrans|done|]. exists (o1 ++ o2). split_and!.
  - by rewrite E2, E1, (assoc_L (++)).
  - by apply sublist_app.
  - intros F Fs. destruct (F1 F Fs) as [-> Fs2]. by destruct (F2 F Fs2) as [-> Fs3].
Qed.

Lemma appender_log_wrote w a x level e : inv w → appenders w !! a = Some x → appender_ok x →
  ∃ w', appender_log local_time a level e w = Ret tt w' ∧ wrote w w' (writes w level e a).
Proof using.
  intros Hi Hx Hf. pose proof (inv_streams w Hi a x Hx) as Hn. unfold appender_ok in Hf. unfold appender_log, writes. rewrite Hx. unfold get_appender. unfold bind at 1. rewrite Hx.
  destruct (a_formatter x) as [f|] eqn:Ef; [|done]. destruct (level_ge level (a_level x)); [|exists w; split; [done|by apply wrote_nothing]].
  unfold stream_named, sink_of, stream_fine in *. destruct (a_kind x) as [name s|] eqn:Ek.
  - destruct (reopen_ret name s w) as (s1 & d1 & E1 & Hn1 & Hf1). rewrite (bind_Ret _ _ _ _ _ E1). rewrite bind_gets. cbv beta. unfold id.
    destruct (stream_write_ret (format local_time (name_in (set_disk d1 w)) f level e) name s1 (set_disk d1 w) (Hn1 Hn)) as (s2 & d2 & out & E2 & Hn2 & Hsub & Hf2).
    rewrite (bind_Ret _ _ _ _ _ E2). unfold put_appender, get_appender, bind, modify. cbn. rewrite Hx. eexists. split; [reflexivity|].
    change (name_in (set_disk d1 w)) with (name_in w) in *.
    set (g := set_a_kind (FileLogAppender name s2)). split_and!.
    + apply (alter_kept w a x g d2 (written w ++ out) Hx). unfold same_appender, sink_of. rewrite Ek. by unfold g.
    + change (inv (set_disk d2 (set_written (written w ++ out) (set_appenders (alter g a (appenders w)) w)))). apply inv_output, (inv_put_appender w a g x); [by intros _; unfold appender_ok; cbn; rewrite Ef|done..].
    + exists out. split_and!; [done..|]. intros F Fs. pose proof (Fs a x Hx) as Fx. unfold stream_fine in Fx. rewrite Ek in Fx.
      specialize (Hf1 F Fx). destruct (Hf2 F Hf1) as [-> ->]. split; [done|]. intros a' x'. cbn. destruct (decide (a' = a)) as [->|Hne].
      * rewrite lookup_alter_eq, Hx. intros [= <-]. right. by rewrite Hf1.
      * rewrite lookup_alter_ne by done. apply Fs.
  - exists (set_written (written w ++ [(Stdout, format local_time (name_in w) f level e)]) w). split; [done|].
    split_and!; [by constructor|by apply (inv_output w _ (disk w))|]. eexists. split_and!; [done..|]. intros _ Fs. done.
Qed.

Lemma ok_kept w w' a : kept w w' → inv w' → ∀ l lg, loggers w !! l = Some lg → a ∈ m_appenders lg →
  ∃ x, appenders w' !! a = Some x ∧ appender_ok x.
Proof using.
  intros K [I1 _ _ _ _] l lg Hl Ha. rewrite <- (kept_loggers _ _ K) in Hl. destruct (I1 l lg Hl) as (_ & _ & Hall).
  rewrite Forall_forall in Hall. by apply Hall.
Qed.
Lemma appenders_wrote level e l lg : ∀ todo w, inv w → loggers w !! l = Some lg → incl todo (m_appenders lg) →
  ∃ w', for_each (λ a, appender_log local_time a level e) todo w = Ret tt w' ∧ wrote w w' (concat (writes w level e <$> todo)).
Proof using.
  induction todo as [|a todo IH]; intros w Hi Hl Hin; cbn; [exists w; split; [done|by apply wrote_nothing]|].
  destruct (ok_kept w w a (reflexivity _) Hi l lg Hl) as (x & Hx & Hok); [apply list_elem_of_In, Hin; by left|].
  destruct (appender_log_wrote w a x level e Hi Hx Hok) as (w1 & E1 & W1). rewrite (bind_Ret _ _ _ _ _ E1).
  destruct W1 as (K1 & I1 & Ho). assert (loggers w1 !! l = Some lg) as Hl1 by (by rewrite (kept_loggers _ _ K1)).
  destruct (IH w1 I1 Hl1) as (w2 & E2 & W2); [intros b Hb; apply Hin; by right|]. exists w2. split; [done|].
  eapply wrote_trans; [by split_and!|]. replace (writes w level e <$> todo) with (writes w1 level e <$> todo); [done|].
  apply list_fmap_ext. intros _ b _. by apply writes_kept.
Qed.

Lemma Logger_log_wrote w l lg level e n : inv w → loggers w !! l = Some lg →
  ∃ w', Logger_log local_time (2 + n) l level e w = Ret tt w' ∧ wrote w w' (expected w l level e).
Proof using.
  intros Hi Hl. unfold expected. rewrite Hl. cbn [Logger_log Nat.add]. unfold get_logger at 1. unfold bind at 1. rewrite Hl.
  destruct (level_ge level (l_level lg)); [|exists w; split; [done|by apply wrote_nothing]].
  destruct (inv_root w Hi) as (lr & Hlr & Hrr & _).
  destruct (m_appenders lg) as [|a as_] eqn:Ea.
  - destruct (inv_loggers w Hi l lg Hl) as (_ & [-> | ->] & _); [exists w; split; [done|by apply wrote_nothing]|].
    cbn [mbind option_bind]. rewrite Hlr. unfold get_logger at 1. unfold bind at 1. rewrite Hlr.
    destruct (level_ge level (l_level lr)); [|exists w; split; [done|by apply wrote_nothing]].
    destruct (m_appenders lr) as [|b bs] eqn:Eb; [rewrite Hrr; exists w; split; [done|by apply wrote_nothing]|].
    apply (appenders_wrote level e (manager_root w) lr); [done..|rewrite Eb; apply incl_refl].
  - apply (appenders_wrote level e l lg (a :: as_)); [done..|rewrite Ea; apply incl_refl].
Qed.

(** ** Histories *)
(** The calls of the program: objects are reached through pointers that it has. *)
Inductive command :=
  | CGet (name : string)
  | CNew (kind : appender_kind)
  | CAdd (l a : loc) | CDel (l a : loc) | CClear (l : loc)
  | CLevel (l : loc) (v : Level) | CPattern (l : loc) (v : string)
  | CAppenderLevel (a : loc) (v : Level) | CAppenderFormatter (a : loc) (f : LogFormatter)
  | CLog (l : loc) (level : Level) (e : LogEvent).
Definition fresh_kind (k : appender_kind) : appender_kind :=
  match k with FileLogAppender f _ => FileLogAppender f ofstream_new | StdoutLogAppender => StdoutLogAppender end.
Definition run (c : command) : ST (world D) unit :=
  match c with
  | CGet name => let* _ := getLogger name in ret tt
  | CNew k => let* _ := new_appender (mkAppender (fresh_kind k) false DEBUG None) in ret tt
  | CAdd l a => addAppender l a
  | CDel l a => delAppender l a
  | CClear l => clearAppender l
  | CLevel l v => setLevel l v
  | CPattern l v => setFormatter_pattern l v
  | CAppenderLevel a v => appender_setLevel a v
  | CAppenderFormatter a f => put_appender a (appender_setFormatter (Some f))
  | CLog l level e => Logger_log local_time 2 l level e
  end.
Definition knows (c : command) (w : world D) : Prop :=
  match c with
  | CGet _ | CNew _ => True
  | CAdd l a | CDel l a => l ∈ dom (loggers w) ∧ a ∈ dom (appenders w)
  | CClear l | CLevel l _ | CPattern l _ | CLog l _ _ => l ∈ dom (loggers w)
  | CAppenderLevel a _ | CAppenderFormatter a _ => a ∈ dom (appenders w)
  end.

(** A command runs, keeps the heap sound and forgets no pointer or name. *)
Definition runs {A} (m : ST (world D) A) (w : world D) : Prop := ∃ v w', m w = Ret v w' ∧ inv w'
  ∧ dom (loggers w) ⊆ dom (loggers w') ∧ dom (appenders w) ⊆ dom (appenders w')
  ∧ (DiskFine D → streams_fine w → streams_fine w').

Lemma put_appender_runs a f w : (∀ x, appender_ok x → appender_ok (f x)) → (∀ x, a_kind (f x) = a_kind x) →
  a ∈ dom (appenders w) → inv w → runs (put_appender a f) w.
Proof using.
  intros Hf Hk [x Hx]%elem_of_dom Hi. eexists tt, _. split.
  { unfold put_appender, get_appender. unfold bind at 1. by rewrite Hx. }
  assert (∀ x, stream_named (f x) = stream_named x) as Hs by (intros y; unfold stream_named; by rewrite Hk).
  split_and!; [|done| |].
  - apply (inv_put_appender w a f x); [apply Hf|by rewrite Hs|done..].
  - cbn. by rewrite dom_alter.
  - intros _ Fs a' x'. cbn. destruct (decide (a' = a)) as [->|Hne]; [|rewrite lookup_alter_ne by done; apply Fs].
    rewrite lookup_alter_eq, Hx. intros [= <-]. unfold stream_fine. rewrite Hk. apply (Fs a x Hx).
Qed.
Lemma put_logger_runs l f lg w : loggers w !! l = Some lg →
  (logger_ok (appenders w) (manager_root w) lg → logger_ok (appenders w) (manager_root w) (f lg)) →
  m_root (f lg) = m_root lg → l_name (f lg) = l_name lg → inv w → runs (put_logger l f) w.
Proof using.
  intros Hl Hok Hr Hn Hi. eexists tt, _. split.
  { unfold put_logger, get_logger. unfold bind at 1. by rewrite Hl. }
  split_and!; [|cbn; by rewrite dom_alter|done..]. by apply (inv_put_logger w l f lg).
Qed.
Lemma runs_then {A B} (m : ST (world D) A) (k : A → ST (world D) B) w : runs m w →
  (∀ v w', m w = Ret v w' → inv w' → dom (loggers w) ⊆ dom (loggers w') → dom (appenders w) ⊆ dom (appenders w') → runs (k v) w') → runs (bind m k) w.
Proof using.
  intros (x & w1 & E1 & I1 & L1 & A1 & F1) Hk. destruct (Hk x w1 E1 I1 L1 A1) as (y & w2 & E2 & I2 & L2 & A2 & F2).
  exists y, w2. rewrite (bind_Ret _ _ _ _ _ E1). split_and!; [done|done|set_solver|set_solver|auto].
Qed.
Lemma runs_after {A B} (m : ST (world D) A) (k : A → ST (world D) B) v w : m w = Ret v w → runs (k v) w → runs (bind m k) w.
Proof using. intros E. unfold runs. by rewrite (bind_Ret _ _ _ _ _ E). Qed.
Lemma runs_ret {A} (v : A) w : inv w → runs (ret v) w.
Proof using. intros Hi. by exists v, w. Qed.
Lemma get_logger_ret l w : l ∈ dom (loggers w) → ∃ lg, loggers w !! l = Some lg ∧ get_logger l w = Ret lg w.
Proof using. intros [lg Hl]%elem_of_dom. exists lg. unfold get_logger. by rewrite Hl. Qed.
Lemma get_appender_ret a w : a ∈ dom (appenders w) → ∃ x, appenders w !! a = Some x ∧ get_appender a w = Ret x w.
Proof using. intros [x Hx]%elem_of_dom. exists x. unfold get_appender. by rewrite Hx. Qed.
Lemma put_text_runs s t w : inv w → runs (put_text s t) w.
Proof using. intros Hi. eexists tt, _. split; [done|]. split_and!; [|done..]. by apply (inv_output w _ (disk w)). Qed.
Lemma new_appender_runs k lv w : inv w → runs (new_appender (mkAppender (fresh_kind k) false lv None)) w.
Proof using.
  intros Hi. eexists _, _. split; [done|]. set (a := fresh (dom (appenders w))).
  assert (appenders w !! a = None) as Ha by apply not_elem_of_dom, is_fresh.
  split_and!; [|done|cbn; rewrite dom_insert; set_solver|].
  - apply inv_appenders; [|apply map_Forall_insert_2; [destruct k; [by left|done]|apply (inv_streams w Hi)]|done].
    intros a' x' Hx' Hok. exists x'. split; [|done]. rewrite lookup_insert_ne; [done|]. intros <-. congruence.
  - intros _ Fs. apply map_Forall_insert_2; [destruct k; [by left|done]|exact Fs].
Qed.
Lemma new_formatter_ret {S} pattern (s : S) : ∃ f, LogFormatter_new pattern = Some f ∧ new_formatter pattern s = Ret f s.
Proof using.
  destruct (scan_total pattern) as (f & E & _). exists f. unfold new_formatter. by rewrite E.
Qed.
Lemma for_each_runs {A} (f : A → ST (world D) unit) (P : A → world D → Prop) todo :
  (∀ v w, P v w → inv w → runs (f v) w) →
  (∀ v v' w w', P v w → f v' w = Ret tt w' → P v w') →
  ∀ w, Forall (λ v, P v w) todo → inv w → runs (for_each f todo) w.
Proof using.
  intros Hf Hp. induction todo as [|v todo IH]; intros w Hall Hi; cbn; [by apply runs_ret|].
  inversion Hall as [|? ? Hv Hall']; subst. apply runs_then; [by apply Hf|]. intros [] w' E Hi' _ _. apply IH; [|done].
  eapply Forall_impl; [exact Hall'|]. intros v' Hv'. exact (Hp v' v w w' Hv' E).
Qed.

Lemma setFormatter_runs l f w : inv w → l ∈ dom (loggers w) → runs (setFormatter l (Some f)) w.
Proof using.
  intros Hi Hl. destruct (get_logger_ret l w Hl) as (lg & Hlg & _). unfold setFormatter. apply runs_then.
  - apply (put_logger_runs l _ lg); [done| |done..]. intros (_ & Hr & Ha). by split_and!.
  - intros [] w1 _ Hi1 Hd1 _. destruct (get_logger_ret l w1) as (lg1 & Hlg1 & E1); [set_solver|]. apply (runs_after _ _ _ _ E1).
    apply (for_each_runs _ (λ a w, a ∈ dom (appenders w))).
    + intros a w2 Ha Hi2. destruct (get_appender_ret a w2 Ha) as (x & Hx & E2). apply runs_then; [by eexists x, w2|].
      intros v w2'. rewrite E2. intros [= <- <-] _ _ _. destruct (negb (m_hasFormatter x)); [|by apply runs_ret]. by apply put_appender_runs.
    + intros a a' w2 w2' Ha. unfold bind at 1, get_appender. destruct (appenders w2 !! a') as [x|] eqn:Hx; [|done]. cbn.
      destruct (negb (m_hasFormatter x)); [|by intros [= <-]]. unfold put_appender, get_appender, bind. rewrite Hx. intros [= <-]. cbn. by rewrite dom_alter.
    + destruct (inv_loggers w1 Hi1 l lg1 Hlg1) as (_ & _ & Ha). eapply Forall_impl; [exact Ha|]. intros a (x & Hx & _). apply elem_of_dom. by eexists.
    + done.
Qed.
Lemma setFormatter_pattern_runs l v w : inv w → l ∈ dom (loggers w) → runs (setFormatter_pattern l v) w.
Proof using.
  intros Hi Hl. unfold setFormatter_pattern. destruct (new_formatter_ret v w) as (f & _ & E). apply (runs_after _ _ _ _ E).
  destruct (m_error f); [|by apply setFormatter_runs]. destruct (get_logger_ret l w Hl) as (lg & _ & E2). apply (runs_after _ _ _ _ E2).
  by apply put_text_runs.
Qed.
Lemma addAppender_runs l a w : inv w → l ∈ dom (loggers w) → a ∈ dom (appenders w) → runs (addAppender l a) w.
Proof using.
  intros Hi Hl Ha. destruct (get_logger_ret l w Hl) as (lg & Hlg & E1). destruct (get_appender_ret a w Ha) as (x & Hx & E2).
  unfold addAppender. apply (runs_after _ _ _ _ E1), (runs_after _ _ _ _ E2).
  assert (l_formatter lg ≠ None) as Hf by apply (inv_loggers w Hi l lg Hlg).
  apply runs_then; [destruct (a_formatter x); [by apply runs_ret|by apply put_appender_runs]|].
  intros [] w1 E Hi1 _ Hd. assert (loggers w1 !! l = Some lg ∧ ∃ x', appenders w1 !! a = Some x' ∧ appender_ok x') as (Hlg1 & x' & Hx' & Hok').
  { revert E. destruct (a_formatter x) as [f|] eqn:Ef.
    - intros [= <-]. split; [done|]. exists x. split; [done|]. unfold appender_ok. by rewrite Ef.
    - unfold put_appender, get_appender, bind. rewrite Hx. intros [= <-]. split; [done|]. cbn. rewrite lookup_alter_eq, Hx. by eexists. }
  apply (put_logger_runs l _ lg); [done| |done..]. intros (H1 & H2 & H3). split_and!; [done..|]. apply Forall_app. split; [done|]. constructor; [|done]. by exists x'.
Qed.
Lemma remove_first_Forall (P : loc → Prop) a as_ : Forall P as_ → Forall P (remove_first a as_).
Proof using.
  induction 1 as [|b as_ Hb Has IH]; cbn; [done|]. case_bool_decide; [done|by constructor].
Qed.
Lemma getLogger_runs name w : inv w → ∃ l w', getLogger name w = Ret l w' ∧ inv w' ∧ m_loggers w' !! name = Some l
  ∧ dom (loggers w) ⊆ dom (loggers w') ∧ appenders w' = appenders w ∧ written w' = written w ∧ m_loggers w ⊆ m_loggers w'
  ∧ (∀ l' lg, loggers w !! l' = Some lg → loggers w' !! l' = Some lg)
  ∧ (∀ l' lg, loggers w' !! l' = Some lg → loggers w !! l' = Some lg ∨ m_appenders lg = []).
Proof using.
  clear local_time. intros Hi. unfold getLogger. rewrite bind_gets. cbv beta. unfold id. destruct (m_loggers w !! name) as [l|] eqn:En.
  - exists l, w. split_and!; try done. by left.
  - unfold Logger_new. destruct (new_formatter_ret default_pattern w) as (f & _ & E). rewrite bind_assoc, (bind_Ret _ _ _ _ _ E). clear E.
    set (l := fresh (dom (loggers w))). assert (loggers w !! l = None) as Hl by apply not_elem_of_dom, is_fresh.
    unfold new_logger, put_logger, get_logger, bind, modify, ret. cbn. fold l. rewrite lookup_insert_eq. cbn.
    eexists _, _. split; [reflexivity|].
    set (lg := mkLogger name DEBUG [] (Some f) None). rewrite alter_insert_eq.
    assert (∀ l', l' ≠ l → <[l := set_m_root (Some (manager_root w)) lg]> (loggers w) !! l' = loggers w !! l') as Hne by (intros; by apply lookup_insert_ne).
    assert (∀ l' lg', loggers w !! l' = Some lg' → l' ≠ l) as Hl' by congruence.
    assert (name ≠ "root"%string) as Hroot by (intros ->; pose proof (inv_named_root w Hi); congruence).
    destruct Hi as [I1 Is (lr & Hlr & Hr) I3 I4]. split_and!; cbn.
    + constructor; cbn; [|done|..].
      * apply map_Forall_insert_2; [|done]. split_and!; [done|by right|done].
      * exists lr. rewrite Hne by eauto. split; [exact Hlr|exact Hr].
      * apply map_Forall_insert_2; [eexists; rewrite lookup_insert_eq; done|]. intros n l' Hn. destruct (I3 n l' Hn) as (lg' & Hlg' & Hn'). exists lg'. rewrite Hne by eauto. split; [exact Hlg'|exact Hn'].
      * by rewrite lookup_insert_ne.
    + by rewrite lookup_insert_eq.
    + rewrite dom_insert. set_solver.
    + done.
    + done.
    + by apply insert_subseteq.
    + intros l' lg' H'. rewrite Hne by eauto. done.
    + intros l' lg' H'. destruct (decide (l' = l)) as [->|Hl0]; [|left; by rewrite Hne in H'].
      right. rewrite lookup_insert_eq in H'. by injection H' as <-.
Qed.

(** Every command runs. *)
Lemma run_runs c w : inv w → knows c w → runs (run c) w.
Proof using.
  intros Hi. destruct c as [name|k|l a|l a|l|l v|l v|a v|a f|l level e]; cbn [knows run].
  - intros _. destruct (getLogger_runs name w Hi) as (l & w' & E & Hi' & _ & Hd & Ha & _).
    eexists tt, w'. rewrite (bind_Ret _ _ _ _ _ E). split_and!; [done..|by rewrite Ha|]. intros _. unfold streams_fine. by rewrite Ha.
  - intros _. apply runs_then; [by apply new_appender_runs|]. intros. by apply runs_ret.
  - intros [Hl Ha]. by apply addAppender_runs.
  - intros [Hl Ha]. destruct (get_logger_ret l w Hl) as (lg & Hlg & E). unfold delAppender. apply (runs_after _ _ _ _ E).
    apply (put_logger_runs l _ lg); [done| |done..]. intros (H1 & H2 & H3). split_and!; [done..|]. by apply remove_first_Forall.
  - intros Hl. destruct (get_logger_ret l w Hl) as (lg & Hlg & E). apply (put_logger_runs l _ lg); [done| |done..]. intros (H1 & H2 & _). by split_and!.
  - intros Hl. destruct (get_logger_ret l w Hl) as (lg & Hlg & E). apply (put_logger_runs l _ lg); done.
  - intros Hl. by apply setFormatter_pattern_runs.
  - intros Ha. by apply put_appender_runs.
  - intros Ha. by apply put_appender_runs.
  - intros [lg Hlg]%elem_of_dom. destruct (Logger_log_wrote w l lg level e 0 Hi Hlg) as (w' & E & K & Hi' & out & _ & _ & F).
    exists tt, w'. split_and!; [done..|by rewrite (kept_loggers _ _ K)| |].
    + intros a [x Hx]%elem_of_dom. pose proof (kept_appenders _ _ K a) as Ka. rewrite Hx in Ka. inversion Ka; subst. apply elem_of_dom. by eexists.
    + intros Hd Hs. by apply F.
Qed.

Definition before_start (d : D) : world D := mkWorld ∅ ∅ 0%nat ∅ [] d.
Lemma LoggerManager_new_ret d : ∃ w, LoggerManager_new (before_start d) = Ret tt w ∧ inv w ∧ streams_fine w.
Proof using.
  clear local_time. unfold LoggerManager_new, Logger_new. destruct (new_formatter_ret default_pattern (before_start d)) as (f & _ & E).
  rewrite !bind_assoc, (bind_Ret _ _ _ _ _ E). clear E. set (lg := mkLogger "root" DEBUG [] (Some f) None).
  set (l := fresh (dom (∅ : gmap loc Logger))). set (a := fresh (dom (∅ : gmap loc LogAppender))).
  exists (mkWorld (<[l := set_m_appenders [a] lg]> ∅) (<[a := assign_formatter (Some f) StdoutLogAppender_new]> ∅) l (<["root"%string := l]> ∅) [] d).
  assert (∀ P : LogAppender → Prop, P (assign_formatter (Some f) StdoutLogAppender_new) →
    map_Forall (λ _, P) (<[a := assign_formatter (Some f) StdoutLogAppender_new]> (∅ : gmap loc LogAppender))) as Hone.
  { intros P HP. apply map_Forall_insert_2; [exact HP|apply map_Forall_empty]. }
  split; [|split; [constructor; cbn|by apply Hone]].
  - unfold addAppender, put_appender, put_logger, new_logger, new_appender, get_logger, get_appender, bind, modify, ret. cbn. fold l a.
    rewrite !lookup_insert_eq. cbn. rewrite !lookup_insert_eq. cbn. rewrite !lookup_insert_eq. cbn. rewrite !alter_insert_eq. cbn. rewrite !lookup_insert_eq. done.
  - apply map_Forall_insert_2; [|apply map_Forall_empty]. split_and!; [done|by left|]. constructor; [|done].
    eexists. rewrite lookup_insert_eq. by split.
  - by apply Hone.
  - eexists. rewrite lookup_insert_eq. by split.
  - apply map_Forall_insert_2; [|apply map_Forall_empty]. eexists. rewrite lookup_insert_eq. by split.
  - by rewrite lookup_insert_eq.
Qed.
Inductive history : world D → list command → world D → Prop :=
  | history_nil w : history w [] w
  | history_cons w w1 w2 c cs : knows c w → run c w = Ret tt w1 → history w1 cs w2 → history w (c :: cs) w2.
Lemma history_inv w cs w' : history w cs w' → inv w → inv w' ∧ (DiskFine D → streams_fine w → streams_fine w').
Proof using.
  induction 1 as [|w w1 w2 c cs Hk E _ IH]; intros Hi; [done|]. destruct (run_runs c w Hi Hk) as ([] & w1' & E' & Hi1 & _ & _ & F).
  assert (w1' = w1) as -> by congruence. destruct (IH Hi1). split; auto.
Qed.

(** C13: after any calls that create and set up loggers and appenders, a log
    statement returns; it writes, in order and once each, the formatted event to
    the appenders of its logger - or of the root logger when it has none - whose
    level it reaches, unless the levels of the loggers are above it; a disk that
    fails can only lose texts of files, and nothing but the streams changes *)
Theorem statement_written d w0 w cs name l level file line thread fiber time thread_name text :
  LoggerManager_new (before_start d) = Ret tt w0 → history w0 cs w → m_loggers w !! name = Some l →
  let e := mkEvent l level file line 0 thread thread_name fiber time text in
  ∃ w' out, log_statement local_time 2 l level file line thread fiber time thread_name text w = Ret tt w'
  ∧ written w' = written w ++ out ∧ out `sublist_of` expected w l level e ∧ kept w w'
  ∧ (DiskFine D → out = expected w l level e).
Proof using.
  intros E0 Hh Hn e. destruct (LoggerManager_new_ret d) as (w0' & E0' & Hi0 & Fs0). assert (w0' = w0) as -> by congruence.
  destruct (history_inv w0 cs w Hh Hi0) as [Hi Fs]. destruct (inv_table w Hi name l Hn) as (lg & Hl & _).
  destruct (Logger_log_wrote w l lg level e 0 Hi Hl) as (w' & E & K & _ & out & Ho & Hs & F).
  unfold log_statement, getLevel, get_logger. unfold bind at 1 2. rewrite Hl. unfold ret. change (stream_text text _) with e. unfold expected in *. rewrite Hl in *.
  destruct (level_ge level (l_level lg)).
  - exists w', out. split_and!; [done..|]. intros Hd. by apply F; [|apply Fs].
  - exists w, []. rewrite app_nil_r. by split_and!.
Qed.

(** ** A file that could not be written *)
(** The stream is open and failed, so it is not closed, and cannot be opened. *)
Definition stuck (x : LogAppender) : Prop :=
  match a_kind x with FileLogAppender _ s => is_open s ≠ None ∧ failed s = true | StdoutLogAppender => False end.
(** After a write that failed, an appender never writes again, whatever the disk does. *)
Lemma stuck_forever a x level e w : appenders w !! a = Some x → stuck x → appender_ok x →
  ∃ w' x', appender_log local_time a level e w = Ret tt w' ∧ written w' = written w ∧ disk w' = disk w
  ∧ appenders w' !! a = Some x' ∧ stuck x'.
Proof using.
  intros Hx Hs Hf. unfold appender_ok in Hf. unfold appender_log, get_appender. unfold bind at 1. rewrite Hx.
  destruct (level_ge level (a_level x)); [|by exists w, x].
  unfold stuck in *. destruct (a_kind x) as [name [o b]|] eqn:Ek; [|done]. destruct Hs as [Ho Hb]. cbn in Ho, Hb. subst b. destruct o as [f'|]; [|done].
  destruct (a_formatter x) as [f|]; [|done]. unfold put_appender, get_appender, bind, modify. cbn. rewrite Hx. eexists _, _. split; [reflexivity|].
  cbn. rewrite lookup_alter_eq, Hx. by split_and!.
Qed.
End theorems.

(** ** A sample *)
(** A disk that takes every text except those of one file. *)
#[local] Instance sample_disk : Disk unit := {
  file_open _ _ := (true, tt); file_write f _ _ := (negb (bool_decide (f = "bad.log")), tt); file_close _ _ := (true, tt)
}.
Definition show_format (f : string) (t : Z) : string := "<" +:+ f +:+ ">".
Definition sample_calls : list command := [
  CGet "system"; CNew (FileLogAppender "bad.log" ofstream_new); CNew StdoutLogAppender; CAdd 1 1; CAdd 1 2; CLevel 1 INFO;
  CPattern 1 "%p %m%n"; CAppenderLevel 2 WARN; CGet "http"]%nat.
Definition state_of {S A} (o : outcome S A) : option S := match o with Ret _ s => Some s | _ => None end.
Definition sample_start : world unit := Eval vm_compute in default (before_start tt) (state_of (LoggerManager_new (before_start tt))).
Definition run_calls (cs : list command) (w : world unit) : world unit :=
  foldl (λ w c, default w (state_of (run show_format c w))) w cs.
Definition sample_world : world unit := Eval vm_compute in run_calls sample_calls sample_start.

Lemma sample_history_log : history show_format sample_start sample_calls sample_world.
Proof.
  unfold sample_calls.
  repeat (eapply history_cons; [cbn; first [done|split; apply elem_of_dom; eexists; vm_compute; reflexivity|apply elem_of_dom; eexists; vm_compute; reflexivity]|vm_compute; reflexivity|]).
  apply history_nil.
Qed.
(** The file is lost, the console is not; a logger without appenders uses the root's. *)
Lemma sample_written :
  (λ w, written w) <$> state_of (log_statement show_format 2 1%nat WARN "a.cpp" 3 7 9 100 "main" "hi" sample_world)
  = Some [(Stdout, "WARN hi" +:+ newline)]%string
  ∧ (λ w, written w) <$> state_of (log_statement show_format 2 1%nat INFO "a.cpp" 3 7 9 100 "main" "hi" sample_world) = Some []
  ∧ (λ w, written w) <$> state_of (log_statement show_format 2 2%nat DEBUG "a.cpp" 3 7 9 100 "main" "hi" sample_world)
    = Some [(Stdout, "<%Y-%m-%d %H:%M:%S>" +:+ tab +:+ "7" +:+ tab +:+ "main" +:+ tab +:+ "9" +:+ tab +:+ "[DEBUG]" +:+ tab +:+ "[http]"
        +:+ tab +:+ "a.cpp:3" +:+ tab +:+ "hi" +:+ newline)]%string.
Proof. split_and!; vm_compute; reflexivity. Qed.

Lemma statement_written_witness :
  LoggerManager_new (before_start tt) = Ret tt sample_start ∧ history show_format sample_start sample_calls sample_world
  ∧ m_loggers sample_world !! "system"%string = Some 1%nat ∧
  let e := mkEvent 1%nat WARN "a.cpp" 3 0 7 "main" 9 100 "hi" in
  ∃ w' out, log_statement show_format 2 1%nat WARN "a.cpp" 3 7 9 100 "main" "hi" sample_world = Ret tt w'
  ∧ written w' = written sample_world ++ out ∧ out `sublist_of` expected show_format sample_world 1%nat WARN e ∧ kept sample_world w'
  ∧ (DiskFine unit → out = expected show_format sample_world 1%nat WARN e).
Proof.
  assert (LoggerManager_new (before_start tt) = Ret tt sample_start) as E by (vm_compute; reflexivity).
  assert (m_loggers sample_world !! "system"%string = Some 1%nat) as En by (vm_compute; reflexivity).
  split; [exact E|]. split; [exact sample_history_log|]. split; [exact En|].
  exact (statement_written show_format tt sample_start sample_world sample_calls "system" 1%nat WARN "a.cpp" 3 7 9 100 "main" "hi" E sample_history_log En).
Defined.

(** After the failed write, the appender of [bad.log] is stuck. *)
Lemma sample_stuck :
  (λ w, stuck <$> appenders w !! 1%nat) <$> state_of (log_statement show_format 2 1%nat WARN "a.cpp" 3 7 9 100 "main" "hi" sample_world)
  = Some (Some (Some "bad.log"%string ≠ None ∧ true = true)).
Proof. vm_compute. reflexivity. Qed.
