(* ===== verification/LogConfig.v ===== *)
(** * LogConfig: the configuration of the loggers ([src/log.cpp])

    A [std::set<LogDefine>] is ordered by the names, so it is a list with one
    definition for each name.  The loggers also write themselves as YAML. *)
From S2P Require Import Prelude OrderedSet LexicalCast Config LogFormat Log.

(** 1 is a file, 2 the console. *)
Record LogAppenderDefine := mkAppenderDefine { ad_type : Z; ad_level : Level; ad_formatter : string; ad_file : string }.
Record LogDefine := mkDefine { ld_name : string; ld_level : Level; ld_formatter : string; ld_appenders : list LogAppenderDefine }.
#[global] Instance LogAppenderDefine_eq : EqDecision LogAppenderDefine.
Proof. solve_decision. Defined.
#[global] Instance LogDefine_eq : EqDecision LogDefine.
Proof. solve_decision. Defined.
(** [operator<] *)
#[global] Instance LogDefine_less : Less LogDefine := λ a b, string_less (ld_name a) (ld_name b).

Section casts.
Context `{YamlFields}.

(** An optional field as a string. *)
Definition string_field (n : node) (key : string) : option (option string) :=
  f ← field n key; match f with Some m => s ← as_string m; Some (Some s) | None => Some None end.

(** One turn of the loop over the appenders; [Some None] is [continue]. *)
Definition appender_define (a : node) : option (option LogAppenderDefine) :=
  type ← string_field a "type";
  match type with
  | None => Some None
  | Some type =>
      if bool_decide (type = "FileLogAppender"%string) then
        file ← string_field a "file";
        match file with
        | None => Some None
        | Some file =>
            formatter ← string_field a "formatter";
            Some (Some (mkAppenderDefine 1 UNKNOWN (default ""%string formatter) file))
        end
      else if bool_decide (type = "StdoutLogAppender"%string) then Some (Some (mkAppenderDefine 2 UNKNOWN "" ""))
      else Some None
  end.
Fixpoint appender_defines (n : node) (idx : list nat) : option (list LogAppenderDefine) :=
  match idx with
  | [] => Some []
  | i :: idx =>
      a ← appender_define (node_at n i);
      l ← appender_defines n idx;
      Some (match a with Some a => a :: l | None => l end)
  end.
#[export] Instance LogDefine_from : LexicalCast string LogDefine := λ str,
  n ← Load str;
  name ← string_field n "name";
  name ← name;
  level ← string_field n "level";
  formatter ← string_field n "formatter";
  appenders ← field n "appenders";
  defines ← match appenders with Some m => appender_defines m (seq 0 (node_size m)) | None => Some [] end;
  Some (mkDefine name (FromString (default ""%string level)) (default ""%string formatter) defines).

(** An appender's own level is asked for, but the logger's is written. *)
Definition appender_node (ld : LogDefine) (a : LogAppenderDefine) : node :=
  let na := null_node in
  let na := if ad_type a =? 1 then set_key "file" (scalar_node (ad_file a)) (set_key "type" (scalar_node "FileLogAppender") na)
            else if ad_type a =? 2 then set_key "type" (scalar_node "StdoutAppender") na else na in
  let na := if bool_decide (ad_level a ≠ UNKNOWN) then set_key "level" (scalar_node (ToString (ld_level ld))) na else na in
  if bool_decide (ad_formatter a ≠ ""%string) then set_key "formatter" (scalar_node (ad_formatter a)) na else na.
#[export] Instance LogDefine_to : LexicalCast LogDefine string := λ ld,
  let n := set_key "name" (scalar_node (ld_name ld)) null_node in
  let n := if bool_decide (ld_level ld ≠ UNKNOWN) then set_key "level" (scalar_node (ToString (ld_level ld))) n else n in
  let n := if bool_decide (ld_formatter ld ≠ ""%string) then set_key "formatter" (scalar_node (ld_formatter ld)) n else n in
  let n := match ld_appenders ld with
           | [] => n
           | l => set_key "appenders" (foldl push_back null_node (appender_node ld <$> l)) n
           end in
  Some (emit n).
End casts.

(** ** The listener *)
Section listener.
Context {D : Type} `{Disk D}.
Implicit Types l : loc.

(** [s.find(d)] *)
Definition find_define (d : LogDefine) (s : list LogDefine) : option LogDefine := set_find less s d ≫= (s !!.).

Definition set_appender_formatter (name : string) (a : LogAppenderDefine) (ap : loc) : ST (world D) unit :=
  if bool_decide (ad_formatter a ≠ ""%string) then
    let* f := new_formatter (ad_formatter a) in
    if m_error f then
      put_text Stdout ("logger name=" +:+ name +:+ ", appender type=" +:+ pretty (ad_type a) +:+ ", appender formatter="
        +:+ ad_formatter a +:+ " error" +:+ newline)
    else put_appender ap (appender_setFormatter (Some f))
  else ret tt.
Definition add_define (l : loc) (name : string) (a : LogAppenderDefine) : ST (world D) unit :=
  if (ad_type a =? 1) || (ad_type a =? 2) then
    let* ap := new_appender (if ad_type a =? 1 then FileLogAppender_new (ad_file a) else StdoutLogAppender_new) in
    appender_setLevel ap (ad_level a) ;;;
    set_appender_formatter name a ap ;;;
    addAppender l ap
  else ret tt.
(** What new and changed definitions have in common. *)
Definition apply_define (i : LogDefine) : ST (world D) unit :=
  let* l := getLogger (ld_name i) in
  setLevel l (ld_level i) ;;;
  (if bool_decide (ld_formatter i ≠ ""%string) then setFormatter_pattern l (ld_formatter i) else ret tt) ;;;
  clearAppender l ;;;
  for_each (add_define l (ld_name i)) (ld_appenders i).
Definition remove_define (i : LogDefine) : ST (world D) unit :=
  let* l := getLogger (ld_name i) in
  setLevel l UNKNOWN ;;;
  clearAppender l.
Definition on_change (old_value new_value : list LogDefine) : ST (world D) unit :=
  for_each (λ i,
    match find_define i old_value with
    | None => apply_define i
    | Some d => if bool_decide (i = d) then ret tt else apply_define i
    end) new_value ;;;
  for_each (λ i,
    match find_define i new_value with
    | None => remove_define i
    | Some _ => ret tt
    end) old_value.
End listener.

(** ** The loggers as YAML *)
Section yaml.
Context {D : Type} `{YamlFields}.

(** [YAML::Load], whose exception is a [std::runtime_error] *)
Definition loads (text : string) : ST (world D) node := match Load text with Some n => ret n | None => throw runtime_error end.
(** What all four functions write of a level that is known and of a formatter. *)
Definition set_level (v : Level) (n : node) : node :=
  if bool_decide (v ≠ UNKNOWN) then set_key "level" (scalar_node (ToString v)) n else n.
Definition set_formatter (v : option LogFormatter) (n : node) : node :=
  match v with Some f => set_key "formatter" (scalar_node (m_pattern f)) n | None => n end.
Definition appender_toYamlString (x : LogAppender) : string :=
  let n := match a_kind x with
           | FileLogAppender m_filename _ => set_key "file" (scalar_node m_filename) (set_key "type" (scalar_node "FileLogAppender") null_node)
           | StdoutLogAppender => set_key "type" (scalar_node "StdoutLogAppender") null_node
           end in
  let n := set_level (a_level x) n in
  emit (set_formatter (if m_hasFormatter x then a_formatter x else None) n).
(** The sequence at [node["appenders"]] grows with each appender. *)
Fixpoint push_appenders (l : list loc) (m : node) : ST (world D) node :=
  match l with
  | [] => ret m
  | a :: l => let* x := get_appender a in let* n := loads (appender_toYamlString x) in push_appenders l (push_back m n)
  end.
Definition logger_toYamlString (l : loc) : ST (world D) string :=
  let* x := get_logger l in
  let n := set_key "name" (scalar_node (l_name x)) null_node in
  let n := set_level (l_level x) n in
  let n := set_formatter (l_formatter x) n in
  let* n := match m_appenders x with
            | [] => ret n
            | ls => let* m := push_appenders ls null_node in ret (set_key "appenders" m n)
            end in
  ret (emit n).
(** [m_loggers] is a [std::map]: the loop sees the names in order. *)
Definition in_order (m : gmap string loc) : list string := foldl (λ l x, (set_insert string_less l x).1) [] (map_to_list m).*1.
Fixpoint push_loggers (l : list string) (n : node) : ST (world D) node :=
  match l with
  | [] => ret n
  | name :: names =>
      let* w := gets id in
      match m_loggers w !! name with
      | None => crash NullDeref
      | Some i => let* s := logger_toYamlString i in let* m := loads s in push_loggers names (push_back n m)
      end
  end.
Definition manager_toYamlString : ST (world D) string :=
  let* w := gets id in
  let* n := push_loggers (in_order (m_loggers w)) null_node in
  ret (emit n).
End yaml.

(** ** The configuration variable of the loggers *)
Section variable.
Context {D : Type} `{Disk D} `{YamlFields}.

(** [operator==] of the sets *)
Definition defines_eq (a b : std_set LogDefine) : bool := bool_decide (set_elems a = set_elems b).
#[export] Instance log_types : ConfigTypes := {
  code := unit; El _ := std_set LogDefine; El_eq _ := defines_eq; El_from _ := set_from; El_to _ := set_to
}.
(** [g_log_defines] and the constructor of [LogIniter] *)
Definition LogIniter : ST (config (world D)) Z :=
  let* _ := Lookup tt "logs" (mkSet []) "logs configuration" in
  addListener tt "logs" (λ old_value new_value, on_change (set_elems old_value) (set_elems new_value)).
End variable.
