(* ===== verification/LogConfigTheorems.v ===== *)
(** * LogConfigTheorems: after a change of the configuration the loggers are as it says,
    and what they write of themselves reads back *)
From S2P Require Import Prelude OrderedSet LexicalCast Config ConfigTheorems LogFormat Log LogTheorems LogConfig.

Section theorems.
Context {D : Type} `{Disk D}.
Implicit Types (w : world D) (l : loc) (lg : Logger) (d : LogDefine).

(** ** What a definition asks for *)
(** The formatter of a pattern that is given and has no error. *)
Definition chosen (pattern : string) : option LogFormatter :=
  if bool_decide (pattern = ""%string) then None
  else match LogFormatter_new pattern with Some f => if m_error f then None else Some f | None => None end.
(** An appender, with the formatter of its logger if it has none of its own. *)
Definition appender_of (f : option LogFormatter) (a : LogAppenderDefine) : LogAppender :=
  let kind := if ad_type a =? 1 then FileLogAppender (ad_file a) ofstream_new else StdoutLogAppender in
  match chosen (ad_formatter a) with
  | Some g => mkAppender kind true (ad_level a) (Some g)
  | None => mkAppender kind false (ad_level a) f
  end.
Definition wanted (d : LogDefine) : list LogAppenderDefine := List.filter (λ a, (ad_type a =? 1) || (ad_type a =? 2)) (ld_appenders d).
Definition as_asked (w : world D) (f : option LogFormatter) (a : LogAppenderDefine) (ap : loc) : Prop :=
  ∃ x, appenders w !! ap = Some x ∧ same_appender x (appender_of f a).
Definition conforms (w : world D) (d : LogDefine) : Prop :=
  ∃ l lg, m_loggers w !! ld_name d = Some l ∧ loggers w !! l = Some lg ∧ l_level lg = ld_level d
  ∧ (∀ f, chosen (ld_formatter d) = Some f → l_formatter lg = Some f)
  ∧ Forall2 (as_asked w (l_formatter lg)) (wanted d) (m_appenders lg).
(** A logger that was taken out of the configuration. *)
Definition retired (w : world D) (name : string) : Prop :=
  ∃ l lg, m_loggers w !! name = Some l ∧ loggers w !! l = Some lg ∧ l_level lg = UNKNOWN ∧ m_appenders lg = [].

(** No appender belongs to two loggers. *)
Definition apart (w : world D) : Prop := ∀ l1 l2 lg1 lg2 a,
  loggers w !! l1 = Some lg1 → loggers w !! l2 = Some lg2 → a ∈ m_appenders lg1 → a ∈ m_appenders lg2 → l1 = l2.

(** ** Changes to one logger *)
Record local (l : loc) (w w' : world D) : Prop := {
  local_table : m_loggers w ⊆ m_loggers w';
  local_loggers l' lg' : l' ≠ l → loggers w !! l' = Some lg' → loggers w' !! l' = Some lg';
  local_appenders l' lg' a : l' ≠ l → loggers w !! l' = Some lg' → a ∈ m_appenders lg' → appenders w' !! a = appenders w !! a
}.
#[local] Instance local_refl l : Reflexive (local l).
Proof using. by constructor. Qed.
#[local] Instance local_trans l : Transitive (local l).
Proof using.
  intros w1 w2 w3 [A1 B1 C1] [A2 B2 C2]. constructor; [by etrans|eauto|]. intros l' lg' a Hl Hlg Ha. rewrite (C2 l' lg'); eauto.
Qed.
Lemma local_same_logger l l' lg' w w' : l' ≠ l → local l w w' → loggers w !! l' = Some lg' →
  loggers w' !! l' = Some lg' ∧ ∀ a, a ∈ m_appenders lg' → appenders w' !! a = appenders w !! a.
Proof using. intros Hne [_ B C] Hl. split; [by apply B|]. intros a. by apply (C l'). Qed.

Lemma conforms_local l w w' d : local l w w' → m_loggers w !! ld_name d ≠ Some l → conforms w d → conforms w' d.
Proof using.
  intros Hloc Hne (l' & lg & Hn & Hl & Hlv & Hf & Ha). assert (l' ≠ l) as Hl' by congruence.
  destruct (local_same_logger l l' lg w w' Hl' Hloc Hl) as [Hlg Hap]. exists l', lg. split_and!; try done.
  - by eapply lookup_weaken; [|apply Hloc].
  - clear -Ha Hap. induction Ha as [|ad ap ads aps (x & Hx & Hs) _ IH]; constructor.
    + exists x. split; [|done]. rewrite Hap by left. done.
    + apply IH. intros b Hb. apply Hap. by right.
Qed.
Lemma retired_local l w w' n : local l w w' → m_loggers w !! n ≠ Some l → retired w n → retired w' n.
Proof using.
  intros Hloc Hne (l' & lg & Hn & Hl & Hlv & Ha). exists l', lg. split_and!; try done; [by eapply lookup_weaken; [|apply Hloc]|].
  apply Hloc; [congruence|done].
Qed.

(** Names stand for different loggers. *)
Lemma names_apart w n1 n2 l : inv w → m_loggers w !! n1 = Some l → m_loggers w !! n2 = Some l → n1 = n2.
Proof using.
  intros Hi H1 H2. destruct (inv_table w Hi n1 l H1) as (lg1 & E1 & <-). destruct (inv_table w Hi n2 l H2) as (lg2 & E2 & <-). congruence.
Qed.

(** A result, with the changes confined to a logger. *)
Definition good (w : world D) : Prop := inv w ∧ apart w.
Definition confined (l : loc) (m : ST (world D) unit) (w : world D) (post : world D → Prop) : Prop :=
  ∃ w', m w = Ret tt w' ∧ good w' ∧ local l w w' ∧ post w'.
Lemma confined_then l m k w P Q : confined l m w P → (∀ w', good w' → P w' → confined l (k) w' Q) → confined l (m ;;; k) w Q.
Proof using.
  intros (w1 & E1 & G1 & L1 & P1) Hk. destruct (Hk w1 G1 P1) as (w2 & E2 & G2 & L2 & Q2).
  exists w2. rewrite (bind_Ret _ _ _ _ _ E1). split_and!; [done..|by etrans|done].
Qed.
Lemma confined_ret l w (P : world D → Prop) : good w → P w → confined l (ret tt) w P.
Proof using. intros G HP. by exists w. Qed.
Lemma confined_weaken l m w (P Q : world D → Prop) : confined l m w P → (∀ w', P w' → Q w') → confined l m w Q.
Proof using. intros (w1 & E1 & G1 & L1 & P1) HQ. exists w1. eauto. Qed.

Lemma put_logger_confined l f lg w : loggers w !! l = Some lg →
  (logger_ok (appenders w) (manager_root w) lg → logger_ok (appenders w) (manager_root w) (f lg)) →
  m_root (f lg) = m_root lg → l_name (f lg) = l_name lg → good w →
  (∀ a, a ∈ m_appenders (f lg) → a ∈ m_appenders lg ∨ ∀ l' lg', loggers w !! l' = Some lg' → a ∉ m_appenders lg') →
  confined l (put_logger l f) w (λ w', w' = set_loggers (alter f l (loggers w)) w).
Proof using.
  intros Hl Hok Hr Hn [Hi Hap] Ha. eexists. split; [unfold put_logger, get_logger; unfold bind at 1; by rewrite Hl|].
  split; [split; [by apply (inv_put_logger w l f lg)|]|split; [|done]].
  - assert (∀ l' lg', alter f l (loggers w) !! l' = Some lg' → ∃ lg0, loggers w !! l' = Some lg0 ∧ ((l' ≠ l ∧ lg' = lg0) ∨ (l' = l ∧ lg' = f lg))) as Hcase.
    { intros l' lg' E. destruct (decide (l' = l)) as [->|Hne]; [rewrite lookup_alter_eq, Hl in E; injection E as <-; exists lg; split; [done|by right]|].
      rewrite lookup_alter_ne in E by done. exists lg'. split; [done|by left]. }
    intros l1 l2 lg1 lg2 a E1 E2 A1 A2. cbn in E1, E2. destruct (Hcase _ _ E1) as (lg1' & E1' & C1), (Hcase _ _ E2) as (lg2' & E2' & C2).
    destruct C1 as [[N1 ->]|[-> ->]], C2 as [[N2 ->]|[-> ->]]; [exact (Hap _ _ _ _ a E1' E2' A1 A2)| | |done].
    + destruct (Ha a A2) as [A2'|Hno]; [exact (Hap _ _ _ _ a E1' Hl A1 A2')|]. by destruct (Hno _ _ E1').
    + destruct (Ha a A1) as [A1'|Hno]; [exact (Hap _ _ _ _ a Hl E2' A1' A2)|]. by destruct (Hno _ _ E2').
  - constructor; [done| |done]. intros l' lg' Hne Hl'. cbn. by rewrite lookup_alter_ne.
Qed.

(** Only the appenders of [P] change. *)
Record touches (P : list loc) (w w' : world D) : Prop := {
  touch_loggers : loggers w' = loggers w;
  touch_table : m_loggers w' = m_loggers w;
  touch_appenders b : b ∉ P → appenders w' !! b = appenders w !! b
}.
Lemma touches_local l lg w w' : apart w → loggers w !! l = Some lg → touches (m_appenders lg) w w' → local l w w' ∧ apart w'.
Proof using All.
  intros Hap Hl [T1 T2 T3]. split.
  - constructor; [by rewrite T2|intros; by rewrite T1|]. intros l' lg' a Hne Hl' Ha. apply T3. intros Ha'. apply Hne. by apply (Hap l' l lg' lg a).
  - intros l1 l2 lg1 lg2 a. rewrite T1. apply Hap.
Qed.
Lemma setFormatter_touches l f lg w w' : loggers w !! l = Some lg → setFormatter l f w = Ret tt w' →
  touches (m_appenders lg) (set_loggers (alter (set_l_formatter f) l (loggers w)) w) w'.
Proof using All.
  intros Hl. unfold setFormatter, put_logger, get_logger. unfold bind at 1 2. rewrite Hl. unfold modify. unfold bind at 1. cbn.
  rewrite lookup_alter_eq, Hl. cbn. set (w1 := set_loggers _ w). generalize w1. clear. intros w1.
  assert (∀ todo w1, (∀ a, a ∈ todo → a ∈ m_appenders lg) → for_each (λ a, let* y := get_appender a in if negb (m_hasFormatter y) then put_appender a (appender_setFormatter f) else ret tt) todo w1 = Ret tt w' →
    touches (m_appenders lg) w1 w') as H; [|by apply H].
  clear w1. induction todo as [|a todo IH]; intros w1 Hin; cbn [for_each]; [by intros [= <-]|]. unfold bind at 1 2. unfold get_appender.
  destruct (appenders w1 !! a) as [y|] eqn:Hy; [|done]. destruct (negb (m_hasFormatter y)); [|by apply IH; set_solver].
  unfold put_appender, get_appender, modify, bind at 1. rewrite Hy. intros E. apply IH in E as [T1 T2 T3]; [|set_solver]. constructor; [done..|].
  intros b Hb. rewrite T3 by done. cbn. apply lookup_alter_ne. set_solver.
Qed.

Lemma chosen_None pattern f : LogFormatter_new pattern = Some f → m_error f = true → chosen pattern = None.
Proof using All. intros E Ef. unfold chosen. case_bool_decide; [done|]. by rewrite E, Ef. Qed.

(** The pattern of a definition. *)
Lemma pattern_confined l lg pattern w : good w → loggers w !! l = Some lg →
  confined l (if bool_decide (pattern ≠ ""%string) then setFormatter_pattern l pattern else ret tt) w
    (λ w', ∃ f, loggers w' !! l = Some (set_l_formatter f lg) ∧ m_loggers w' = m_loggers w ∧ (∀ g, chosen pattern = Some g → f = Some g)).
Proof using All.
  intros [Hi Hap] Hl. assert (set_l_formatter (l_formatter lg) lg = lg) as Hsame by (by destruct lg).
  unfold chosen. case_bool_decide as Hp; [rewrite bool_decide_false by done|apply confined_ret; [done|]; exists (l_formatter lg); rewrite bool_decide_true, Hsame by done; done].
  destruct (new_formatter_ret pattern w) as (f & Ef & En). rewrite Ef. destruct (m_error f) eqn:Ee.
  - unfold setFormatter_pattern. exists (set_written (written w ++ [(Stdout, "Logger setFormatter name=" +:+ l_name lg +:+ " value=" +:+ pattern +:+ " invalid formatter" +:+ newline)%string]) w).
    split; [rewrite (bind_Ret _ _ _ _ _ En), Ee; unfold get_logger; unfold bind; by rewrite Hl|].
    split; [split; [by apply (inv_output w _ (disk w))|done]|]. split; [by constructor|]. exists (l_formatter lg). rewrite Hsame. done.
  - destruct (setFormatter_runs l f w Hi ltac:(apply elem_of_dom; by eexists)) as ([] & w' & E & Hi' & _).
    pose proof (setFormatter_touches l (Some f) lg w w' Hl E) as T. set (w1 := set_loggers (alter (set_l_formatter (Some f)) l (loggers w)) w) in T.
    destruct (put_logger_confined l (set_l_formatter (Some f)) lg w Hl) as (w1' & _ & [_ Hap1] & L1 & ->); [|done..|by left|]; [intros (? & ? & ?); by split_and!|].
    fold w1 in Hap1, L1. assert (loggers w1 !! l = Some (set_l_formatter (Some f) lg)) as Hl1 by (unfold w1; cbn; by rewrite lookup_alter_eq, Hl).
    destruct (touches_local l (set_l_formatter (Some f) lg) w1 w' Hap1 Hl1 T) as [L2 Hap'].
    exists w'. split; [unfold setFormatter_pattern; by rewrite (bind_Ret _ _ _ _ _ En), Ee|]. split; [done|]. split; [by etrans|].
    exists (Some f). destruct T as [T1 T2 _]. split_and!; [by rewrite T1|by rewrite T2|by intros g [= ->]].
Qed.

(** A new appender, in a heap that has it. *)
Definition with_appender (a : loc) (x : LogAppender) (w : world D) : world D := set_appenders (<[a := x]> (appenders w)) w.
Lemma put_with a f x w : put_appender a f (with_appender a x w) = Ret tt (with_appender a (f x) w).
Proof using All.
  unfold put_appender, get_appender, modify, bind, with_appender. cbn. rewrite lookup_insert_eq. unfold set_appenders. cbn. by rewrite alter_insert_eq.
Qed.
Definition kind_of (a : LogAppenderDefine) : LogAppender := if ad_type a =? 1 then FileLogAppender_new (ad_file a) else StdoutLogAppender_new.
Definition own_formatter (a : LogAppenderDefine) (x : LogAppender) : LogAppender :=
  match chosen (ad_formatter a) with Some g => appender_setFormatter (Some g) x | None => x end.
Lemma formatter_with name a ap x w : ∃ w1, set_appender_formatter name a ap (with_appender ap x w) = Ret tt (with_appender ap (own_formatter a x) w1)
  ∧ ∃ out, w1 = set_written out w.
Proof using All.
  unfold set_appender_formatter, own_formatter, chosen. case_bool_decide as Hp; [rewrite bool_decide_false by done|rewrite bool_decide_true by done].
  - destruct (new_formatter_ret (ad_formatter a) (with_appender ap x w)) as (f & Ef & En). rewrite (bind_Ret _ _ _ _ _ En), Ef. destruct (m_error f).
    + eexists (set_written _ w). split; [|by eexists]. done.
    + exists w. split; [apply put_with|]. exists (written w). by destruct w.
  - exists w. split; [done|]. exists (written w). by destruct w.
Qed.
Lemma appender_of_steps f a : appender_of f a =
  let x := own_formatter a (set_a_level (ad_level a) (kind_of a)) in match a_formatter x with None => assign_formatter f x | Some _ => x end.
Proof using All. unfold appender_of, own_formatter, kind_of. destruct (ad_type a =? 1), (chosen (ad_formatter a)); done. Qed.

Lemma add_define_ret l lg name a w : loggers w !! l = Some lg → (ad_type a =? 1) || (ad_type a =? 2) = true →
  let ap := fresh (dom (appenders w)) in
  ∃ out, add_define l name a w = Ret tt (set_loggers (alter (set_m_appenders (m_appenders lg ++ [ap])) l (loggers w))
    (with_appender ap (appender_of (l_formatter lg) a) (set_written out w))).
Proof using All.
  intros Hl Ht ap. unfold add_define. rewrite Ht.
  assert (new_appender (kind_of a) w = Ret ap (with_appender ap (kind_of a) w)) as E1 by done. fold (kind_of a). rewrite (bind_Ret _ _ _ _ _ E1).
  unfold appender_setLevel. rewrite (bind_Ret _ _ _ _ _ (put_with _ _ _ _)).
  destruct (formatter_with name a ap (set_a_level (ad_level a) (kind_of a)) w) as (w1 & E2 & out & ->). rewrite (bind_Ret _ _ _ _ _ E2). exists out.
  rewrite appender_of_steps. set (x := own_formatter a _). cbv zeta.
  assert (∀ y, get_logger l (with_appender ap y (set_written out w)) = Ret lg (with_appender ap y (set_written out w))) as Eg by (intros y; unfold get_logger; cbn; by rewrite Hl).
  unfold addAppender. rewrite (bind_Ret _ _ _ _ _ (Eg x)).
  assert (get_appender ap (with_appender ap x (set_written out w)) = Ret x (with_appender ap x (set_written out w))) as Ea by (unfold get_appender; cbn; by rewrite lookup_insert_eq).
  rewrite (bind_Ret _ _ _ _ _ Ea). unfold put_logger. destruct (a_formatter x).
  - rewrite bind_ret, (bind_Ret _ _ _ _ _ (Eg x)). done.
  - rewrite (bind_Ret _ _ _ _ _ (put_with _ _ _ _)), (bind_Ret _ _ _ _ _ (Eg _)). done.
Qed.
Lemma appender_of_ok f a : f ≠ None → appender_ok (appender_of f a) ∧ stream_named (appender_of f a).
Proof using All. intros Hf. unfold appender_of, appender_ok. destruct (chosen (ad_formatter a)), (ad_type a =? 1); cbn; (split; [done|by try left]). Qed.

Lemma add_confined l lg name a w : good w → loggers w !! l = Some lg →
  confined l (add_define l name a) w (λ w', m_loggers w' = m_loggers w ∧ ∃ aps,
    loggers w' !! l = Some (set_m_appenders (m_appenders lg ++ aps) lg)
    ∧ Forall2 (as_asked w' (l_formatter lg)) (List.filter (λ a, (ad_type a =? 1) || (ad_type a =? 2)) [a]) aps
    ∧ ∀ b, b ∈ m_appenders lg → appenders w' !! b = appenders w !! b).
Proof using All.
  intros Hg Hl. pose proof Hg as [Hi Hap]. cbn [List.filter]. destruct ((ad_type a =? 1) || (ad_type a =? 2)) eqn:Ht.
  2: { unfold add_define. rewrite Ht. apply confined_ret; [done|]. split; [done|]. exists []. rewrite app_nil_r. split_and!; [by destruct lg|constructor|done]. }
  destruct (add_define_ret l lg name a w Hl Ht) as (out & E). set (ap := fresh (dom (appenders w))) in *. set (x := appender_of (l_formatter lg) a) in *.
  assert (appenders w !! ap = None) as Hfresh by apply not_elem_of_dom, is_fresh.
  assert (∀ l' lg', loggers w !! l' = Some lg' → ap ∉ m_appenders lg') as Hno.
  { intros l' lg' Hl' Hin. destruct (inv_loggers w Hi l' lg' Hl') as (_ & _ & Hall). rewrite Forall_forall in Hall. destruct (Hall ap Hin) as (y & Hy & _). congruence. }
  destruct (inv_loggers w Hi l lg Hl) as (Hf & _ & _). destruct (appender_of_ok (l_formatter lg) a Hf) as [Hok Hst].
  set (w1 := with_appender ap x (set_written out w)) in *.
  assert (inv w1) as Hi1.
  { unfold w1, with_appender. apply inv_appenders; [|by apply map_Forall_insert_2; [|apply (inv_streams w Hi)]|by apply (inv_output w out (disk w))].
    intros b y Hy Hyok. exists y. cbn in Hy |- *. rewrite lookup_insert_ne; [done|]. intros <-. congruence. }
  assert (loggers w1 !! l = Some lg) as Hl1 by done.
  destruct (put_logger_confined l (set_m_appenders (m_appenders lg ++ [ap])) lg w1 Hl1) as (w2 & _ & G2 & L2 & ->); [|done|done|by split| |].
  { intros (O1 & O2 & O3). split_and!; [done..|]. apply Forall_app. split; [done|]. constructor; [|done]. exists x. cbn. by rewrite lookup_insert_eq. }
  { cbn. intros b [Hb|Hb%list_elem_of_singleton]%elem_of_app; [by left|right]. intros l' lg' Hl'. subst b. by apply (Hno l'). }
  eexists. split; [exact E|]. split; [exact G2|]. split.
  - etrans; [|exact L2]. constructor; [done..|]. intros l' lg' b Hne Hl' Hb. cbn. apply lookup_insert_ne. intros <-. by apply (Hno l' lg').
  - split; [done|]. exists [ap]. cbn. split_and!; [by rewrite lookup_alter_eq, Hl| |].
    + constructor; [|constructor]. exists x. cbn. rewrite lookup_insert_eq. done.
    + intros b Hb. apply lookup_insert_ne. intros <-. by apply (Hno l lg).
Qed.

Lemma adds_confined l name ads : ∀ lg w done_, good w → loggers w !! l = Some lg → Forall2 (as_asked w (l_formatter lg)) done_ (m_appenders lg) →
  confined l (for_each (add_define l name) ads) w (λ w', m_loggers w' = m_loggers w ∧ ∃ lg', loggers w' !! l = Some lg'
    ∧ l_level lg' = l_level lg ∧ l_formatter lg' = l_formatter lg
    ∧ Forall2 (as_asked w' (l_formatter lg)) (done_ ++ List.filter (λ a, (ad_type a =? 1) || (ad_type a =? 2)) ads) (m_appenders lg')).
Proof using All.
  induction ads as [|a ads IH]; intros lg w dn Hg Hl Hd; cbn [for_each].
  - apply confined_ret; [done|]. split; [done|]. exists lg. cbn. rewrite app_nil_r. done.
  - eapply confined_then; [by apply add_confined|]. intros w1 Hg1 (Ht1 & aps & Hl1 & Ha1 & Hk1).
    eapply confined_weaken; [apply (IH _ w1 (dn ++ List.filter (λ a, (ad_type a =? 1) || (ad_type a =? 2)) [a]) Hg1 Hl1)|].
    + cbn [l_formatter set_m_appenders m_appenders]. apply Forall2_app; [|done]. clear -Hd Hk1. revert Hk1. induction Hd as [|d0 b ds bs (x & Hx & Hs) _ IHd]; intros Hk; constructor.
      * exists x. split; [|done]. rewrite Hk by left. done.
      * apply IHd. intros c Hc. apply Hk. by right.
    + intros w' (Ht & lg' & Hl' & Hlv & Hf & Ha). split; [congruence|]. exists lg'. split_and!; [done..|].
      cbn [l_formatter set_m_appenders] in Ha. rewrite <- (assoc_L (++)) in Ha. by rewrite (List.filter_app _ [a] ads).
Qed.

(** ** One definition *)
Definition step_at (n : string) (w w' : world D) : Prop := good w' ∧ ∃ l, m_loggers w' !! n = Some l ∧ local l w w'.

Lemma getLogger_step name w : good w → ∃ l lg w', getLogger name w = Ret l w' ∧ good w' ∧ m_loggers w' !! name = Some l
  ∧ loggers w' !! l = Some lg ∧ local l w w'.
Proof using All.
  intros [Hi Hap]. destruct (getLogger_runs name w Hi) as (l & w' & E & Hi' & Hn & _ & Ha & _ & Ht & Hl & Hold).
  destruct (inv_table w' Hi' name l Hn) as (lg & Hlg & _). exists l, lg, w'. split_and!; try done.
  - split; [done|]. intros l1 l2 lg1 lg2 a E1 E2 A1 A2. destruct (Hold _ _ E1) as [E1'|E1'], (Hold _ _ E2) as [E2'|E2']; [by apply (Hap l1 l2 lg1 lg2 a)| | |].
    all: rewrite ?E1', ?E2' in *; (by apply elem_of_nil in A1) || (by apply elem_of_nil in A2).
  - constructor; [done|intros; by apply Hl|]. intros. by rewrite Ha.
Qed.

Lemma setLevel_confined l lg v w : good w → loggers w !! l = Some lg → confined l (setLevel l v) w (λ w', loggers w' !! l = Some (set_l_level v lg) ∧ m_loggers w' = m_loggers w).
Proof using All.
  intros Hg Hl. eapply confined_weaken; [apply (put_logger_confined l _ lg); [done..|by left]|]. intros w' ->. cbn. by rewrite lookup_alter_eq, Hl.
Qed.
Lemma clear_confined l lg w : good w → loggers w !! l = Some lg → confined l (clearAppender l) w (λ w', loggers w' !! l = Some (set_m_appenders [] lg) ∧ m_loggers w' = m_loggers w).
Proof using All.
  intros Hg Hl. eapply confined_weaken; [apply (put_logger_confined l _ lg); [done| |done..|]|].
  - intros (O1 & O2 & _). by split_and!.
  - cbn. intros a Ha. by apply elem_of_nil in Ha.
  - intros w' ->. cbn. by rewrite lookup_alter_eq, Hl.
Qed.

Lemma apply_define_step i w : good w → ∃ w', apply_define i w = Ret tt w' ∧ step_at (ld_name i) w w' ∧ conforms w' i.
Proof using All.
  intros Hg. destruct (getLogger_step (ld_name i) w Hg) as (l & lg & w1 & E1 & G1 & N1 & L1 & Loc1).
  unfold apply_define. rewrite (bind_Ret _ _ _ _ _ E1).
  set (post := λ w', m_loggers w' = m_loggers w1 ∧ ∃ lg', loggers w' !! l = Some lg' ∧ l_level lg' = ld_level i
    ∧ (∀ f, chosen (ld_formatter i) = Some f → l_formatter lg' = Some f) ∧ Forall2 (as_asked w' (l_formatter lg')) (wanted i) (m_appenders lg')).
  match goal with |- ∃ _, ?m w1 = _ ∧ _ => assert (confined l m w1 post) as (w2 & E2 & G2 & Loc2 & T2 & lg' & Hl' & Hlv & Hf & Ha) end.
  { eapply confined_then; [by apply (setLevel_confined l lg)|]. intros w2 G2 [L2 T2].
    eapply confined_then; [by apply pattern_confined|]. intros w3 G3 (f & L3 & T3 & Hf).
    eapply confined_then; [by apply (clear_confined l _ w3 G3 L3)|]. intros w4 G4 [L4 T4].
    eapply confined_weaken; [apply (adds_confined l (ld_name i) (ld_appenders i) _ w4 [] G4 L4); constructor|].
    intros w5 (T5 & lg' & L5 & Hlv & Hlf & Ha). split; [congruence|]. exists lg'. rewrite Hlf, Hlv. split_and!; try done. }
  exists w2. split; [done|]. rewrite <- T2 in N1. split; [split; [done|]; exists l; split; [done|by etrans]|]. exists l, lg'. by split_and!.
Qed.
Lemma remove_define_step i w : good w → ∃ w', remove_define i w = Ret tt w' ∧ step_at (ld_name i) w w' ∧ retired w' (ld_name i).
Proof using All.
  intros Hg. destruct (getLogger_step (ld_name i) w Hg) as (l & lg & w1 & E1 & G1 & N1 & L1 & Loc1).
  unfold remove_define. rewrite (bind_Ret _ _ _ _ _ E1).
  match goal with |- ∃ _, ?m w1 = _ ∧ _ => assert (confined l m w1 (λ w', m_loggers w' = m_loggers w1 ∧ ∃ lg', loggers w' !! l = Some lg' ∧ l_level lg' = UNKNOWN ∧ m_appenders lg' = []))
    as (w2 & E2 & G2 & Loc2 & T2 & lg' & Hl' & Hlv & Ha) end.
  { eapply confined_then; [by apply (setLevel_confined l lg)|]. intros w2 G2 [L2 T2].
    eapply confined_weaken; [by apply (clear_confined l _ w2 G2 L2)|]. intros w3 [L3 T3]. split; [congruence|]. by eexists. }
  exists w2. split; [done|]. rewrite <- T2 in N1. split; [split; [done|]; exists l; split; [done|by etrans]|]. exists l, lg'. by split_and!.
Qed.

(** What a step leaves alone. *)
Lemma step_other n n' w w' l : step_at n w w' → n' ≠ n → m_loggers w !! n' = Some l → ∃ l0, m_loggers w' !! n = Some l0 ∧ local l0 w w' ∧ l ≠ l0.
Proof using All.
  intros [[Hi _] (l0 & Hn & Hloc)] Hne Hl. exists l0. split_and!; [done..|]. intros ->. apply Hne. apply (names_apart w' n' n l0); [done| |done].
  by eapply lookup_weaken; [|apply Hloc].
Qed.
Lemma conforms_step n w w' d : step_at n w w' → ld_name d ≠ n → conforms w d → conforms w' d.
Proof using All.
  intros Hs Hne Hc. pose proof Hc as (l & lg & Hn & _). destruct (step_other n (ld_name d) w w' l Hs Hne Hn) as (l0 & _ & Hloc & Hl).
  eapply conforms_local; [exact Hloc|congruence|done].
Qed.
Lemma retired_step n n' w w' : step_at n w w' → n' ≠ n → retired w n' → retired w' n'.
Proof using All.
  intros Hs Hne Hc. pose proof Hc as (l & lg & Hn & _). destruct (step_other n n' w w' l Hs Hne Hn) as (l0 & _ & Hloc & Hl).
  eapply retired_local; [exact Hloc|congruence|done].
Qed.
(** A logger and its appenders are as they were. *)
Definition untouched (n : string) (w w' : world D) : Prop := ∀ l lg, m_loggers w !! n = Some l → loggers w !! l = Some lg →
  m_loggers w' !! n = Some l ∧ loggers w' !! l = Some lg ∧ ∀ a, a ∈ m_appenders lg → appenders w' !! a = appenders w !! a.
Lemma untouched_step n n' w0 w w' : step_at n w w' → n' ≠ n → untouched n' w0 w → untouched n' w0 w'.
Proof using All.
  intros Hs Hne Hu l lg Hn Hl. destruct (Hu l lg Hn Hl) as (Hn1 & Hl1 & Ha1). destruct (step_other n n' w w' l Hs Hne Hn1) as (l0 & _ & Hloc & Hne').
  destruct (local_same_logger l0 l lg w w' Hne' Hloc Hl1) as [Hl2 Ha2]. split_and!; [by eapply lookup_weaken; [|apply Hloc]|done|].
  intros a Ha. by rewrite Ha2, Ha1.
Qed.

(** ** The whole change *)
#[global] Instance define_order : StrictWeakOrder (less : LogDefine → LogDefine → bool).
Proof using.
  split; unfold less, LogDefine_less; intros; [by apply (less_asym (less := string_less))|].
  by eapply (less_neg_trans (less := string_less)).
Qed.
Lemma same_name d d' : equivalent less d d' = true ↔ ld_name d = ld_name d'.
Proof using. apply string_less_total. Qed.
Definition names (s : list LogDefine) : list string := ld_name <$> s.
Lemma sorted_names s : sorted less s → NoDup (names s).
Proof using.
  intros Hs. apply (sorted_NoDup string_less). induction Hs as [|d s _ IH Hd]; [constructor|]. constructor; [done|].
  rewrite List.Forall_forall in Hd |- *. intros n Hn. apply list_elem_of_In, list_elem_of_fmap in Hn as (d' & -> & Hin). by apply Hd, list_elem_of_In.
Qed.
Lemma find_define_spec d s : sorted less s →
  match find_define d s with Some d' => d' ∈ s ∧ ld_name d' = ld_name d | None => ld_name d ∉ names s end.
Proof using.
  intros Hs. unfold find_define. destruct (set_find less s d) as [i|] eqn:E; cbn.
  - apply (set_find_Some less s d i Hs) in E as (d' & Hi & Hd%same_name). rewrite Hi. split; [by eapply list_elem_of_lookup_2|done].
  - intros (d' & Hd & Hin)%list_elem_of_fmap. apply (set_find_None less s d) with (y := d') in E; [|done..]. apply same_name in Hd. congruence.
Qed.

Lemma news_applied old new w0 : sorted less old → NoDup (names new) → good w0 → (∀ d, d ∈ old → conforms w0 d) →
  ∃ w, for_each (λ i, match find_define i old with None => apply_define i | Some d => if bool_decide (i = d) then ret tt else apply_define i end) new w0 = Ret tt w
  ∧ good w ∧ (∀ d, d ∈ new → conforms w d) ∧ ∀ n, n ∉ names new → untouched n w0 w.
Proof using All.
  intros Hold Hnd Hg Hc.
  assert (∀ todo done_ w, NoDup (names (done_ ++ todo)) → good w → (∀ d, d ∈ done_ → conforms w d) →
    (∀ d, d ∈ old → ld_name d ∉ names done_ → conforms w d) → (∀ n, n ∉ names done_ → untouched n w0 w) →
    ∃ w', for_each (λ i, match find_define i old with None => apply_define i | Some d => if bool_decide (i = d) then ret tt else apply_define i end) todo w = Ret tt w'
    ∧ good w' ∧ (∀ d, d ∈ done_ ++ todo → conforms w' d) ∧ ∀ n, n ∉ names (done_ ++ todo) → untouched n w0 w') as H0.
  { induction todo as [|i todo IH]; intros dn w Hn Gw Cd Co U; cbn [for_each]; [exists w; rewrite app_nil_r; by split_and!|].
    assert (ld_name i ∉ names dn) as Hi.
    { unfold names in *. rewrite fmap_app in Hn. apply NoDup_app in Hn as (_ & Hn & _). intros Hin. apply (Hn _ Hin). left. }
    rewrite cons_middle, (assoc_L (++)) in Hn |- *.
    assert (∀ m w1, m w = Ret tt w1 → good w1 → (m = ret tt ∧ conforms w i ∨ step_at (ld_name i) w w1 ∧ conforms w1 i) →
      ∃ w', (m ;;; for_each (λ i, match find_define i old with None => apply_define i | Some d => if bool_decide (i = d) then ret tt else apply_define i end) todo) w = Ret tt w'
      ∧ good w' ∧ (∀ d, d ∈ (dn ++ [i]) ++ todo → conforms w' d) ∧ ∀ n, n ∉ names ((dn ++ [i]) ++ todo) → untouched n w0 w') as Hstep.
    { intros m w1 E G1 Hcase. rewrite (bind_Ret _ _ _ _ _ E). unfold names in *. apply (IH (dn ++ [i]) w1 Hn G1).
      - intros d [Hd|Hd%list_elem_of_singleton]%elem_of_app; [|subst d; destruct Hcase as [[-> ?]|[_ ?]]; [by injection E as <-|done]].
        destruct Hcase as [[-> _]|[Hs _]]; [injection E as <-; by apply Cd|]. eapply conforms_step; [exact Hs| |by apply Cd].
        intros Heq. apply Hi. rewrite <- Heq. apply list_elem_of_fmap. by exists d.
      - intros d Hd Hnd0. rewrite fmap_app, not_elem_of_app in Hnd0. destruct Hnd0 as [Hnd1 Hnd2].
        destruct Hcase as [[-> _]|[Hs _]]; [injection E as <-; by apply Co|]. eapply conforms_step; [exact Hs| |by apply Co]. intros Heq. apply Hnd2. rewrite Heq. left.
      - intros n Hn0. rewrite fmap_app, not_elem_of_app in Hn0. destruct Hn0 as [Hn1 Hn2].
        destruct Hcase as [[-> _]|[Hs _]]; [injection E as <-; by apply U|]. eapply untouched_step; [exact Hs| |by apply U]. intros Heq. apply Hn2. rewrite Heq. left. }
    destruct (apply_define_step i w Gw) as (w1 & E1 & S1 & C1). pose proof (find_define_spec i old Hold) as Hf.
    destruct (find_define i old) as [d|]; [|eapply Hstep; [exact E1|apply S1|by right]]. destruct Hf as [Hd Hdn]. case_bool_decide as Hid.
    - subst d. eapply Hstep; [done|done|left]. split; [done|]. by apply Co.
    - eapply Hstep; [exact E1|apply S1|by right]. }
  destruct (H0 new [] w0) as (w & E & G & C & U); [done|done|intros d Hd; by apply elem_of_nil in Hd|by auto|by intros n _ l lg|]. by exists w.
Qed.

Lemma olds_removed old new w0 : sorted less new → NoDup (names old) → good w0 → (∀ d, d ∈ new → conforms w0 d) →
  ∃ w, for_each (λ i, match find_define i new with None => remove_define i | Some _ => ret tt end) old w0 = Ret tt w
  ∧ good w ∧ (∀ d, d ∈ new → conforms w d) ∧ (∀ d, d ∈ old → ld_name d ∉ names new → retired w (ld_name d))
  ∧ ∀ n, n ∉ names old → untouched n w0 w.
Proof using All.
  intros Hnew Hnd Hg Hc.
  assert (∀ todo done_ w, NoDup (names (done_ ++ todo)) → good w → (∀ d, d ∈ new → conforms w d) →
    (∀ d, d ∈ done_ → ld_name d ∉ names new → retired w (ld_name d)) → (∀ n, n ∉ names done_ → untouched n w0 w) →
    ∃ w', for_each (λ i, match find_define i new with None => remove_define i | Some _ => ret tt end) todo w = Ret tt w'
    ∧ good w' ∧ (∀ d, d ∈ new → conforms w' d) ∧ (∀ d, d ∈ done_ ++ todo → ld_name d ∉ names new → retired w' (ld_name d))
    ∧ ∀ n, n ∉ names (done_ ++ todo) → untouched n w0 w') as H0.
  { induction todo as [|i todo IH]; intros dn w Hn Gw Cn R U; cbn [for_each]; [exists w; rewrite app_nil_r; by split_and!|].
    assert (ld_name i ∉ names dn) as Hi.
    { unfold names in *. rewrite fmap_app in Hn. apply NoDup_app in Hn as (_ & Hn & _). intros Hin. apply (Hn _ Hin). left. }
    rewrite cons_middle, (assoc_L (++)) in Hn |- *. pose proof (find_define_spec i new Hnew) as Hf. destruct (find_define i new) as [d|].
    - rewrite bind_ret. destruct Hf as [Hd Hdn]. apply (IH (dn ++ [i]) w); [done..| |].
      + intros d' [Hd'|Hd'%list_elem_of_singleton]%elem_of_app Hno; [by apply R|]. subst d'. destruct Hno. rewrite <- Hdn. apply list_elem_of_fmap. by exists d.
      + intros n Hn0. unfold names in Hn0. rewrite fmap_app, not_elem_of_app in Hn0. by apply U, Hn0.
    - destruct (remove_define_step i w Gw) as (w1 & E1 & S1 & R1). rewrite (bind_Ret _ _ _ _ _ E1). apply (IH (dn ++ [i]) w1); [done|apply S1|..].
      + intros d Hd. eapply conforms_step; [exact S1| |by apply Cn]. intros Heq. apply Hf. rewrite <- Heq. apply list_elem_of_fmap. by exists d.
      + intros d' [Hd'|Hd'%list_elem_of_singleton]%elem_of_app Hno; [|by subst d'].
        eapply retired_step; [exact S1| |by apply R]. intros Heq. apply Hi. rewrite <- Heq. apply list_elem_of_fmap. by exists d'.
      + intros n Hn0. unfold names in Hn0. rewrite fmap_app, not_elem_of_app in Hn0. destruct Hn0 as [Hn1 Hn2].
        eapply untouched_step; [exact S1| |by apply U]. intros Heq. apply Hn2. rewrite Heq. left. }
  destruct (H0 old [] w0) as (w & E & G & C & R & U); [done|done|done|intros d Hd; by apply elem_of_nil in Hd|by intros n _ l lg|]. by exists w.
Qed.

(** When the loggers are as the old configuration says, the listener returns and
    they are as the new one says. *)
Lemma on_change_applies old new w : sorted less old → sorted less new → inv w → apart w → (∀ d, d ∈ old → conforms w d) →
  ∃ w', on_change old new w = Ret tt w' ∧ inv w' ∧ apart w' ∧ (∀ d, d ∈ new → conforms w' d)
  ∧ (∀ d, d ∈ old → ld_name d ∉ names new → retired w' (ld_name d))
  ∧ ∀ n, n ∉ names old → n ∉ names new → untouched n w w'.
Proof using All.
  intros Ho Hn Hi Hap Hc. destruct (news_applied old new w Ho (sorted_names new Hn) (conj Hi Hap) Hc) as (w1 & E1 & G1 & C1 & U1).
  destruct (olds_removed old new w1 Hn (sorted_names old Ho) G1 C1) as (w2 & E2 & [Hi2 Hap2] & C2 & R2 & U2).
  exists w2. unfold on_change. rewrite (bind_Ret _ _ _ _ _ E1). split_and!; [done..|]. intros n Hno Hnn l lg Hl Hlg.
  destruct (U1 n Hnn l lg Hl Hlg) as (Hl1 & Hlg1 & Ha1). destruct (U2 n Hno l lg Hl1 Hlg1) as (Hl2 & Hlg2 & Ha2).
  split_and!; [done..|]. intros a Ha. by rewrite Ha2, Ha1.
Qed.

(** Log statements keep the loggers as they are. *)
Lemma conforms_kept w w' d : kept w w' → conforms w d → conforms w' d.
Proof using All.
  intros [K1 K2 K3 K4] (l & lg & Hn & Hl & Hlv & Hf & Ha). exists l, lg. rewrite K1, K3. split_and!; [done..|].
  eapply Forall2_impl; [exact Ha|]. intros a ap (x & Hx & Hs). specialize (K4 ap). rewrite Hx in K4. inversion K4 as [? y (S1 & S2 & S3 & S4) E1 E2|]; subst.
  exists y. split; [done|]. destruct Hs as (T1 & T2 & T3 & T4). split_and!; congruence.
Qed.
End theorems.

(** ** The variable and its listener *)
Section variable.
Context {D : Type} `{Disk D} `{YamlFields}.
Implicit Types s : config (world D).

Definition listener : on_change_cb (W := world D) tt := λ old_value new_value, on_change (set_elems old_value) (set_elems new_value).
(** The variable has the listener, and the loggers are as its value says. *)
Record configured (s : config (world D)) (v : std_set LogDefine) : Prop := {
  conf_registry : ConfigTheorems.inv s;
  conf_var : ∃ key name desc, find_var "logs"%string s = Some (existT tt (mkVar name desc v [(key, listener)]));
  conf_sorted : sorted less (set_elems v);
  conf_heap : inv (outside s);
  conf_apart : apart (outside s);
  conf_loggers : ∀ d, d ∈ set_elems v → conforms (outside s) d
}.

(** A set that was read is sorted. *)
Lemma cast_sorted text v : (cast text : option (std_set LogDefine)) = Some v → sorted less (set_elems v).
Proof using.
  unfold cast, set_from, sequence_from. destruct (Load text) as [n|]; [|done]. cbn.
  assert (∀ idx acc l, sorted less acc → cast_elements (λ l x, (set_insert less l x).1) n idx acc = Some l → sorted less l) as Hall.
  { induction idx as [|i idx IH]; intros acc l Ha; cbn; [by intros [= <-]|].
    destruct (LogDefine_from (emit (node_at n i))) as [d|]; cbn; [|done]. apply IH. by apply (set_insert_sorted less). }
  destruct (cast_elements _ n _ []) as [l|] eqn:E; [|done]. intros [= <-]. eapply Hall; [|exact E]. constructor.
Qed.
Lemma defines_eq_true a b : defines_eq a b = true ↔ a = b.
Proof using. unfold defines_eq. rewrite bool_decide_eq_true. destruct a, b; cbn. split; congruence. Qed.

(** C22: once the variable of the loggers and its listener are set up, each text
    that is given to it leaves the registry and the heap sound and every logger
    as the value says - level, appenders in order with their files, levels and
    formatters, and the logger's formatter if it has a valid one; loggers that
    are not named any more have no appender and no level, loggers that were and
    are not named are untouched; a text that cannot be read changes nothing *)
Theorem logs_configured s v text : configured s v →
  let v' := ConfigTheorems.updated (c := tt) v text in
  ∃ s', fromString tt "logs" text s = Ret false s' ∧ configured s' v'
  ∧ (∀ d, d ∈ set_elems v → ld_name d ∉ names (set_elems v') → retired (outside s') (ld_name d))
  ∧ (∀ n, n ∉ names (set_elems v) → n ∉ names (set_elems v') → untouched n (outside s) (outside s'))
  ∧ (cast text = None :> option (std_set LogDefine) → s' = s).
Proof using All.
  intros [C1 (key & name & desc & C2) C3 C4 C5 C6] v'.
  assert (∀ n, untouched n (outside s) (outside s)) as Hrefl by (by intros n l lg).
  assert (v' = v → ∃ s', Ret false s = Ret false s' ∧ configured s' v'
    ∧ (∀ d, d ∈ set_elems v → ld_name d ∉ names (set_elems v') → retired (outside s') (ld_name d))
    ∧ (∀ n, n ∉ names (set_elems v) → n ∉ names (set_elems v') → untouched n (outside s) (outside s')) ∧ (cast text = None :> option (std_set LogDefine) → s' = s)) as Hsame.
  { intros ->. exists s. split_and!; [done|by constructor; eauto| |done|done]. intros d Hd Hno. destruct Hno. apply list_elem_of_fmap. by exists d. }
  unfold fromString. unfold v', ConfigTheorems.updated in *. destruct (cast text) as [x|] eqn:Ex; [|by apply Hsame].
  unfold setValue. rewrite (bind_Ret _ _ _ _ _ (var_of_ret "logs" _ s C2)). cbn [m_val m_cbs El_eq log_types] in *.
  destruct (defines_eq x v) eqn:Eq; [by apply Hsame|]. clear Hsame. pose proof (cast_sorted text x Ex) as Hx.
  destruct (on_change_applies (set_elems v) (set_elems x) (outside s) C3 Hx C4 C5 C6) as (w' & E & Hi & Hap & Hc & Hr & Hu).
  assert (run_cbs [(key, listener)] v x s = Ret tt (set_outside w' s)) as Erun by (unfold run_cbs, bind, on_outside, listener; by rewrite E).
  rewrite (bind_Ret _ _ _ _ _ Erun). eexists. split; [done|].
  assert (ConfigTheorems.inv (set_outside w' s)) as Hinv by exact C1.
  split_and!; [|exact Hr|exact Hu|done]. constructor; [by apply ConfigTheorems.inv_put| |done..].
  exists key, name, desc. rewrite (ConfigTheorems.find_put "logs" _ (set_outside w' s)) by done. by rewrite decide_True.
Qed.

(** The set-up, when the registry has no variable yet. *)
Lemma LogIniter_configures (w : world D) : inv w → apart w →
  ∃ key s, LogIniter (mkConfig [] (λ _, 0) ∅ w) = Ret key s ∧ configured s (mkSet []) ∧ outside s = w.
Proof using All.
  intros Hi Hap. set (key := u64 (0 + 1)).
  set (x := λ cbs, @mkVar log_types (world D) tt (lower "logs") "logs configuration" (mkSet []) cbs).
  set (entry := λ cbs, existT tt (x cbs) : @any_var log_types (world D)).
  set (s1 := @mkConfig log_types (world D) [("logs"%string, entry [])] (λ _, 0) ∅ w).
  exists key, (@mkConfig log_types (world D) [("logs"%string, entry [(key, listener)])] (λ c', if decide (c' = tt) then key else 0) ∅ w).
  split; [|split; [|done]].
  - assert (Lookup tt "logs" (mkSet []) "logs configuration" (@mkConfig log_types (world D) [] (λ _, 0) ∅ w) = Ret true s1) as E1 by reflexivity.
    unfold LogIniter. rewrite (bind_Ret _ _ _ _ _ E1). reflexivity.
  - constructor; cbn; [repeat constructor|by eexists _, _, _|constructor|done..|]. intros d Hd. by apply elem_of_nil in Hd.
Qed.
End variable.

(** ** What the loggers write of themselves is a configuration *)
(** What yaml-cpp promises of fields and of nodes that were assigned a string. *)
Class FieldLaws `{YamlFields} : Prop := {
  field_map l key : Forall (loaded ∘ snd) l → NoDup l.*1 → field (map_of l) key = Some (snd <$> List.find (λ kv, String.eqb kv.1 key) l);
  string_scalar s : as_string (scalar_node s) = Some s;
  loaded_scalar s : loaded (scalar_node s)
}.

Lemma in_order_spec (m : gmap string loc) : sorted string_less (in_order m) ∧ ∀ n, n ∈ in_order m ↔ is_Some (m !! n).
Proof.
  assert (∀ (l acc : list string), sorted string_less acc → let r := foldl (λ l s, (set_insert string_less l s).1) acc l in
    sorted string_less r ∧ ∀ n, n ∈ r ↔ n ∈ acc ∨ n ∈ l) as Hfold.
  { induction l as [|y l IH]; intros acc Hs r; unfold r; cbn; [split; [done|]; set_solver|].
    destruct (IH _ (set_insert_sorted string_less acc y Hs)) as [Hs' Hin]. split; [done|]. intros n.
    rewrite Hin, (elem_of_set_insert string_less acc y n (λ a b, proj1 (string_less_total a b)) Hs), elem_of_cons.
    clear. split; intros [?|?]; intuition. }
  destruct (Hfold (map_to_list m).*1 []) as [Hs Hin]; [constructor|]. split; [done|]. intros n. unfold in_order. rewrite Hin, elem_of_nil, list_elem_of_fmap. split.
  - intros [[]|([n' p] & -> & Hp%elem_of_map_to_list)]. by eexists.
  - intros [p Hp]. right. exists (n, p). split; [done|]. by apply elem_of_map_to_list.
Qed.
Lemma sorted_by_name ns ds : Forall2 (λ n d, ld_name d = n) ns ds → sorted string_less ns → sorted less ds.
Proof.
  intros H2. induction H2 as [|n d ns ds <- H2 IH]; intros Hs; [constructor|]. inversion_clear Hs as [|? ? Hs' Hlt]. constructor; [by apply IH|].
  clear IH Hs'. induction H2 as [|n' d' ns ds <- H2 IH]; [constructor|]. inversion_clear Hlt. constructor; [done|]. by apply IH.
Qed.

Section dump.
Context {D : Type} `{Disk D} `{YamlLaws} `{!YamlFields} `{!FieldLaws}.
Implicit Types (w : world D) (lg : Logger) (x : LogAppender) (es : list (string * node)).

(** The entries of the maps. *)
Definition level_entry (v : Level) : list (string * node) := if bool_decide (v ≠ UNKNOWN) then [("level", scalar_node (ToString v))] else [].
Definition formatter_entry (v : option LogFormatter) : list (string * node) :=
  match v with Some f => [("formatter", scalar_node (m_pattern f))] | None => [] end.
Definition own (x : LogAppender) : option LogFormatter := if m_hasFormatter x then a_formatter x else None.
Definition appender_entries (x : LogAppender) : list (string * node) :=
  match a_kind x with
  | FileLogAppender f _ => [("type", scalar_node "FileLogAppender"); ("file", scalar_node f)]
  | StdoutLogAppender => [("type", scalar_node "StdoutLogAppender")]
  end ++ level_entry (a_level x) ++ formatter_entry (own x).
Definition appenders_entry (xs : list LogAppender) : list (string * node) :=
  match xs with [] => [] | _ => [("appenders", seq_of ((map_of ∘ appender_entries) <$> xs))] end.
Definition logger_entries (lg : Logger) (xs : list LogAppender) : list (string * node) :=
  [("name", scalar_node (l_name lg))] ++ level_entry (l_level lg) ++ formatter_entry (l_formatter lg) ++ appenders_entry xs.

(** What is read from them: an appender's level, and the formatter of one on
    the console, are written and not read. *)
Definition pattern_of (v : option LogFormatter) : string := match v with Some f => m_pattern f | None => "" end.
Definition appender_read (x : LogAppender) : LogAppenderDefine :=
  match a_kind x with
  | FileLogAppender f _ => mkAppenderDefine 1 UNKNOWN (pattern_of (own x)) f
  | StdoutLogAppender => mkAppenderDefine 2 UNKNOWN "" ""
  end.
Definition logger_read (lg : Logger) (xs : list LogAppender) : LogDefine :=
  mkDefine (l_name lg) (l_level lg) (pattern_of (l_formatter lg)) (appender_read <$> xs).

Lemma set_key_last es k n : set_key k n (map_of es) = map_of (es ++ [(k, n)]).
Proof using. unfold map_of. by rewrite foldl_app. Qed.
Lemma set_level_entry v es : set_level v (map_of es) = map_of (es ++ level_entry v).
Proof using. unfold set_level, level_entry. case_bool_decide; [apply set_key_last|by rewrite app_nil_r]. Qed.
Lemma set_formatter_entry v es : set_formatter v (map_of es) = map_of (es ++ formatter_entry v).
Proof using. unfold set_formatter, formatter_entry. destruct v; [apply set_key_last|by rewrite app_nil_r]. Qed.
Lemma appender_text x : appender_toYamlString x = emit (map_of (appender_entries x)).
Proof using.
  unfold appender_toYamlString, appender_entries, own. change null_node with (map_of []). rewrite !(assoc_L (++)).
  destruct (a_kind x); by rewrite !set_key_last, set_level_entry, set_formatter_entry.
Qed.
Lemma scalars_loaded es : Forall (λ kv, ∃ s, kv.2 = scalar_node s) es → Forall (loaded ∘ snd) es.
Proof using All. intros Hl. eapply Forall_impl; [exact Hl|]. intros [k n] [s E]. cbn in *. subst n. apply loaded_scalar. Qed.
Lemma appender_entries_ok x : Forall (loaded ∘ snd) (appender_entries x) ∧ NoDup (appender_entries x).*1.
Proof using All.
  unfold appender_entries, level_entry, formatter_entry. split.
  - apply scalars_loaded. destruct (a_kind x), (own x); case_bool_decide; repeat constructor; by eexists.
  - destruct (a_kind x), (own x); case_bool_decide; apply (bool_decide_unpack _); reflexivity.
Qed.
Lemma map_loaded es : Forall (loaded ∘ snd) es → NoDup es.*1 → loaded (map_of es).
Proof using All. intros Hl Hd. eexists. by apply load_map. Qed.
Lemma appender_loaded xs : Forall loaded ((map_of ∘ appender_entries) <$> xs).
Proof using All. apply Forall_fmap, Forall_true. intros x. destruct (appender_entries_ok x). by apply map_loaded. Qed.
Lemma logger_entries_ok lg xs : Forall (loaded ∘ snd) (logger_entries lg xs) ∧ NoDup (logger_entries lg xs).*1.
Proof using All.
  unfold logger_entries, level_entry, formatter_entry, appenders_entry. split.
  - assert (loaded (seq_of ((map_of ∘ appender_entries) <$> xs))) as Hs by (eexists; apply load_seq, appender_loaded).
    destruct (l_formatter lg), xs; case_bool_decide; repeat constructor; try apply loaded_scalar; exact Hs.
  - destruct (l_formatter lg), xs; case_bool_decide; apply (bool_decide_unpack _); reflexivity.
Qed.
Lemma string_field_map es key : Forall (loaded ∘ snd) es → NoDup es.*1 →
  string_field (map_of es) key = match List.find (λ kv, String.eqb kv.1 key) es with Some kv => Some <$> as_string kv.2 | None => Some None end.
Proof using All. intros Hl Hd. unfold string_field. rewrite field_map by done. cbn. destruct (List.find _ es) as [kv|]; [|done]. cbn. by destruct (as_string kv.2). Qed.
Lemma appender_define_read x : appender_define (map_of (appender_entries x)) = Some (Some (appender_read x)).
Proof using All.
  destruct (appender_entries_ok x) as [Hl Hd]. unfold appender_define. rewrite !string_field_map by done. clear Hl Hd.
  unfold appender_read, appender_entries, level_entry, formatter_entry.
  destruct (a_kind x), (own x); case_bool_decide; cbn; by rewrite !string_scalar.
Qed.
Lemma appender_defines_read n : ∀ xs i, (∀ j m, ((map_of ∘ appender_entries) <$> xs) !! j = Some m → node_at n (i + j) = m) →
  appender_defines n (seq i (length xs)) = Some (appender_read <$> xs).
Proof using All.
  induction xs as [|x xs IH]; intros i Hat; [done|]. cbn. rewrite <- (Nat.add_0_r i), (Hat 0%nat _ eq_refl), Nat.add_0_r. cbn.
  rewrite appender_define_read. cbn. rewrite IH; [done|]. intros j m Hj. rewrite Nat.add_succ_comm. by apply Hat.
Qed.
Lemma FromString_ToString v : FromString (ToString v) = v.
Proof using. by destruct v. Qed.
Lemma appenders_field lg xs : field (map_of (logger_entries lg xs)) "appenders"
  = Some (match xs with [] => None | _ => Some (seq_of ((map_of ∘ appender_entries) <$> xs)) end).
Proof using All.
  destruct (logger_entries_ok lg xs) as [Hl Hd]. rewrite field_map by done. clear Hl Hd.
  unfold logger_entries, level_entry, formatter_entry, appenders_entry. destruct (l_formatter lg), xs; case_bool_decide; done.
Qed.
Lemma logger_string_field lg xs : let n := map_of (logger_entries lg xs) in
  string_field n "name" = Some (Some (l_name lg))
  ∧ string_field n "level" = Some (if bool_decide (l_level lg ≠ UNKNOWN) then Some (ToString (l_level lg)) else None)
  ∧ string_field n "formatter" = Some (m_pattern <$> l_formatter lg).
Proof using All.
  destruct (logger_entries_ok lg xs) as [Hl Hd]. cbn zeta. rewrite !string_field_map by done. clear Hl Hd.
  unfold logger_entries, level_entry, formatter_entry, appenders_entry.
  destruct (l_formatter lg), xs; case_bool_decide; cbn; by rewrite ?string_scalar.
Qed.
Lemma logger_define_read lg xs : cast (emit (map_of (logger_entries lg xs))) = Some (logger_read lg xs).
Proof using All.
  destruct (logger_entries_ok lg xs) as [Hl Hd]. unfold cast, LogDefine_from. rewrite load_map by done. cbn [mbind option_bind].
  destruct (logger_string_field lg xs) as (-> & -> & ->). cbn [mbind option_bind]. rewrite appenders_field. cbn [mbind option_bind].
  assert (match match xs with [] => None | _ => Some (seq_of ((map_of ∘ appender_entries) <$> xs)) end with
          | Some m => appender_defines m (seq 0 (node_size m)) | None => Some [] end = Some (appender_read <$> xs)) as ->.
  { destruct xs as [|x xs]; [done|]. rewrite size_seq by apply appender_loaded. rewrite length_fmap.
    apply appender_defines_read. intros j m Hj. apply at_seq; [apply appender_loaded|done]. }
  cbn [mbind option_bind]. unfold logger_read. f_equal. f_equal; [|by destruct (l_formatter lg)].
  case_bool_decide as Hu; [apply FromString_ToString|by rewrite Hu].
Qed.

(** The functions write these nodes. *)
Definition held (w : world D) : list loc → list LogAppender → Prop := Forall2 (λ a x, appenders w !! a = Some x).
Lemma push_appenders_ret w ls xs m : held w ls xs → push_appenders ls m w = Ret (foldl push_back m ((map_of ∘ appender_entries) <$> xs)) w.
Proof using All.
  intros Hh. revert m. induction Hh as [|a x ls xs Hx _ IH]; intros m; [done|]. cbn. unfold bind at 1, get_appender. rewrite Hx.
  destruct (appender_entries_ok x). rewrite (bind_Ret _ _ _ (map_of (appender_entries x)) w); [apply IH|].
  unfold loads. by rewrite appender_text, load_map.
Qed.
Lemma logger_toYamlString_ret w (p : loc) lg xs : loggers w !! p = Some lg → held w (m_appenders lg) xs →
  logger_toYamlString p w = Ret (emit (map_of (logger_entries lg xs))) w.
Proof using All.
  intros Hl Hh. unfold logger_toYamlString. rewrite (bind_Ret _ _ w lg w) by (unfold get_logger; by rewrite Hl).
  assert (set_formatter (l_formatter lg) (set_level (l_level lg) (set_key "name" (scalar_node (l_name lg)) null_node))
    = map_of ([("name", scalar_node (l_name lg))] ++ level_entry (l_level lg) ++ formatter_entry (l_formatter lg))) as En.
  { change null_node with (map_of []). by rewrite set_key_last, set_level_entry, set_formatter_entry, <- (assoc_L (++)). }
  cbv zeta. rewrite En. unfold logger_entries.
  destruct Hh as [|a x ls xs' Hx Hh]; [unfold appenders_entry; by rewrite app_nil_r|].
  erewrite bind_Ret; [|erewrite bind_Ret; [done|]; by apply push_appenders_ret; constructor].
  by rewrite set_key_last, <- !(assoc_L (++)).
Qed.
(** *** The manager *)
(** A definition that says how the logger of this name is. *)
Definition describes (w : world D) (name : string) (d : LogDefine) : Prop :=
  ∃ p lg xs, m_loggers w !! name = Some p ∧ loggers w !! p = Some lg ∧ held w (m_appenders lg) xs ∧ l_name lg = name ∧ d = logger_read lg xs.
Lemma push_loggers_ret w ns : inv w → (∀ n, n ∈ ns → is_Some (m_loggers w !! n)) →
  ∃ ds ms, Forall loaded ms ∧ Forall2 (λ d m, cast (emit m) = Some d) ds ms ∧ Forall2 (describes w) ns ds
  ∧ ∀ n, push_loggers ns n w = Ret (foldl push_back n ms) w.
Proof using All.
  intros Hi. induction ns as [|name ns IH]; intros Hin; [by exists [], []|].
  destruct IH as (ds & ms & Hms & Hd & Hw & E); [intros n Hn; apply Hin; by right|]. destruct (Hin name) as [p Hp]; [left|].
  destruct (inv_table w Hi _ _ Hp) as (lg & Hl & Hn). destruct (inv_loggers w Hi _ _ Hl) as (_ & _ & Ha).
  assert (∃ xs, held w (m_appenders lg) xs) as [xs Hxs].
  { clear -Ha. induction Ha as [|a ls Hx _ IH]; [exists []; constructor|]. destruct Hx as (x & Hx & _), IH as [xs IH]. exists (x :: xs). by constructor. }
  destruct (logger_entries_ok lg xs) as [Hok Hnd]. exists (logger_read lg xs :: ds), (map_of (logger_entries lg xs) :: ms). split_and!.
  - constructor; [by apply map_loaded|done].
  - constructor; [by apply logger_define_read|done].
  - constructor; [|done]. by exists p, lg, xs.
  - intros n. cbn [push_loggers]. rewrite (bind_Ret _ _ w w w) by done. rewrite Hp. erewrite bind_Ret; [|by apply logger_toYamlString_ret].
    rewrite (bind_Ret _ _ _ (map_of (logger_entries lg xs)) w); [apply E|]. unfold loads. by rewrite load_map.
Qed.
(** The text of [LoggerManager::toYamlString] is a configuration of the loggers
    that there are, in the order of their names. *)
Theorem loggers_dumped w : inv w →
  ∃ text ds, manager_toYamlString w = Ret text w ∧ cast text = Some (mkSet ds) ∧ sorted less ds
  ∧ Forall2 (describes w) (in_order (m_loggers w)) ds ∧ ∀ n, n ∈ in_order (m_loggers w) ↔ is_Some (m_loggers w !! n).
Proof using All.
  intros Hi. destruct (in_order_spec (m_loggers w)) as [Hs Hin].
  destruct (push_loggers_ret w (in_order (m_loggers w)) Hi) as (ds & ms & Hms & Hd & Hw & E); [intros n; apply Hin|].
  assert (sorted less ds) as Hsd.
  { eapply sorted_by_name; [|exact Hs]. eapply Forall2_impl; [exact Hw|]. by intros n d (p & lg & xs & _ & _ & _ & <- & ->). }
  exists (emit (seq_of ms)), ds. split_and!; [|..|done|done|done].
  - unfold manager_toYamlString. unfold bind at 1, gets. by rewrite (bind_Ret _ _ _ _ _ (E null_node)).
  - unfold cast, set_from, sequence_from. rewrite load_seq by done. cbn [mbind option_bind]. rewrite size_seq by done.
    rewrite (cast_elements_seq _ _ ds) by (done || intros j m Hj; by apply at_seq). cbn. by rewrite foldl_set_insert.
Qed.
End dump.

(** ** A sample *)
#[local] Existing Instance sample_disk.
Definition sample_old : list LogDefine := [mkDefine "http" INFO "%p %m%n" [mkAppenderDefine 1 UNKNOWN "" "http.log"]; mkDefine "system" WARN "" []]%string.
Definition sample_new : list LogDefine := [mkDefine "db" DEBUG "%q" [mkAppenderDefine 2 UNKNOWN "" ""]; mkDefine "http" ERROR "" [mkAppenderDefine 1 UNKNOWN "%m%n" "a.log"; mkAppenderDefine 2 UNKNOWN "" ""]]%string.
Lemma sample_sorted : sorted less sample_old ∧ sorted less sample_new.
Proof. by split; repeat constructor. Qed.
Lemma start_good : inv sample_start ∧ apart sample_start.
Proof.
  destruct (LoggerManager_new_ret tt) as (w & E & Hi & _).
  assert (LoggerManager_new (before_start tt) = Ret tt sample_start) as E0 by (vm_compute; reflexivity).
  assert (w = sample_start) as -> by congruence. split; [done|].
  intros l1 l2 lg1 lg2 a H1 H2 _ _. assert (∀ l lg, loggers sample_start !! l = Some lg → l = 0%nat) as Honly; [|by rewrite (Honly _ _ H1), (Honly _ _ H2)].
  intros l lg Hl. assert (l ∈ dom (loggers sample_start)) as Hd by (apply elem_of_dom; by eexists).
  assert (dom (loggers sample_start) = {[0%nat]}) as Ed by (apply (bool_decide_unpack _); vm_compute; exact I). rewrite Ed in Hd. by apply elem_of_singleton in Hd.
Qed.
#[local] Existing Instance tree_yaml.
#[local] Existing Instance tree_fields.
Definition sample_text : string := emit (seq_of [
  map_of [("name", leaf "http"); ("level", leaf "INFO"); ("appenders", seq_of [
    map_of [("type", leaf "FileLogAppender"); ("file", leaf "http.log"); ("formatter", leaf "%m%n")]; map_of [("file", leaf "no type")]])];
  map_of [("name", leaf "db"); ("formatter", leaf "%q")]])%string.
Lemma sample_read : set_elems (ConfigTheorems.updated (c := tt : @code log_types) (mkSet []) sample_text)
  = [mkDefine "db" UNKNOWN "%q" []; mkDefine "http" INFO "" [mkAppenderDefine 1 UNKNOWN "%m%n" "http.log"]]%string.
Proof. vm_compute. reflexivity. Qed.
Lemma logs_configured_witness :
  ∃ s s', configured s (mkSet []) ∧ outside s = sample_start ∧ fromString (H := log_types) tt "logs" sample_text s = Ret false s'
  ∧ configured s' (ConfigTheorems.updated (c := tt : @code log_types) (mkSet []) sample_text).
Proof.
  destruct start_good as [Hi Hap]. destruct (LogIniter_configures sample_start Hi Hap) as (key & s & _ & C & E).
  destruct (logs_configured s (mkSet []) sample_text C) as (s' & E' & C' & _). exists s, s'. split; [exact C|]. split; [exact E|]. split; [exact E'|exact C'].
Defined.

(** Dropping the root from the configuration leaves no logger that writes. *)
Definition root_define : list LogDefine := [mkDefine "root" INFO "" [mkAppenderDefine 2 UNKNOWN "" ""]]%string.
Lemma root_removed_silent :
  (λ w, (written w : list (sink * string))) <$> state_of ((on_change [] root_define ;;; on_change root_define [] ;;;
     let* l := getLogger "http" in log_statement show_format 2 l FATAL "a.cpp" 1 1 1 1 "t" "lost") sample_start) = Some [].
Proof. vm_compute. reflexivity. Qed.
(** A logger whose formatter leaves the configuration keeps it. *)
Lemma formatter_stays :
  (λ w, l_formatter <$> (m_loggers w !! "http"%string ≫= (loggers w !!.))) <$> state_of ((on_change [] sample_old ;;; on_change sample_old sample_new) sample_start)
  = Some (Some (LogFormatter_new "%p %m%n")).
Proof. vm_compute. reflexivity. Qed.

(** The start logger dumps as a configuration with the root in it. *)
#[local] Instance tree_field_laws : FieldLaws.
Proof.
  split; [|done|by intros s; eexists; apply tree_load_emit]. intros [|kv l] key _ _; [done|].
  rewrite tree_map. cbn -[flat]. by rewrite tree_pairs_flat.
Qed.
Lemma start_dumped : ∃ text, manager_toYamlString sample_start = Ret text sample_start
  ∧ cast text = Some (mkSet [mkDefine "root" DEBUG default_pattern [mkAppenderDefine 2 UNKNOWN "" ""]]%string).
Proof. eexists. split; vm_compute; reflexivity. Qed.
(** The formatter of an appender on the console is lost on the way back, and so
    is its level. *)
Definition console : list LogDefine := [mkDefine "http" INFO "" [mkAppenderDefine 2 ERROR "%m%n" ""]]%string.
Lemma console_formatter_lost :
  (s ← state_of (on_change [] console sample_start);
   match manager_toYamlString s with Ret text _ => d ← (cast text : option (std_set LogDefine)); Some (ld_appenders <$> set_elems d !! 0%nat) | _ => None end)
  = Some (Some [mkAppenderDefine 2 UNKNOWN "" ""])%string
  ∧ (s ← state_of (on_change [] console sample_start);
     l ← m_loggers s !! "http"%string; lg ← loggers s !! l; a ← m_appenders lg !! 0%nat; x ← appenders s !! a; Some (a_level x, m_pattern <$> own x))
    = Some (ERROR, Some "%m%n"%string).
Proof. split; vm_compute; reflexivity. Qed.
