(* ===== verification/TcpServer.v ===== *)
(** * TcpServer: the listening server ([include/tcp_server.h], [src/tcp_server.cpp])

    Sockets are shared by pointer and live in a heap until the last reference is
    gone: the members [m_socks], the fibers of [startAccept] and the clients
    that were handed to the worker.  The tasks of the accepting worker take
    turns, as on the one thread that [Application::main] gives it.  A fiber of
    [startAccept] lets the others run only inside [accept]; so a turn of it is
    from the top of the loop into the call, and another from the end of the call
    to the top of the loop.  Inside the call it is held by the hook until a
    client arrives ([arrive]) or the wait is cancelled: by [cancelAll], which is
    [IOManager::cancelAll] of a descriptor, or by the hook of [close], which
    does the same.  A cancelled call tries its descriptor again; it waits again
    when that is the descriptor of a socket that is no connection.  That two calls
    cannot wait for one descriptor at a time is an assertion of [addEvent], which is
    IOManager's part and not repeated here. *)
From S2P Require Import Prelude Address Socket.

Section server.
Context {K : Type} `{Net K} (host SOMAXCONN : Z) (cancelAll : Z → K → K).

(** The tasks of [m_acceptWorker]: the loops, at the top or inside
    [accept(fd)], and what [stop] schedules.  A call is held, or about to end
    with a client or an error, or it is scheduled because its event was
    cancelled. *)
Inductive waiting := Blocked | Ends | Cancelled.
Inductive task := AcceptTask (sock : nat) | Accepting (sock : nat) (fd : Z) (w : waiting) | StopTask.
(** The event of [fd] is cancelled. *)
Definition wake (fd : Z) (t : task) : task :=
  match t with Accepting a fd' Blocked => if fd' =? fd then Accepting a fd' Cancelled else t | _ => t end.
(** [clients] are the tasks of [m_ioworker], which run [handleClient]. *)
Record server := mkServer {
  sockets : gmap nat Socket; m_socks : list nat; m_isStop : bool; m_readTimeout : Z; m_name : string;
  accepts : list task; clients : list nat; sys_ : K
}.
Definition set_sockets v s := mkServer v (m_socks s) (m_isStop s) (m_readTimeout s) (m_name s) (accepts s) (clients s) (sys_ s).
Definition set_socks v s := mkServer (sockets s) v (m_isStop s) (m_readTimeout s) (m_name s) (accepts s) (clients s) (sys_ s).
Definition set_stop v s := mkServer (sockets s) (m_socks s) v (m_readTimeout s) (m_name s) (accepts s) (clients s) (sys_ s).
Definition set_readTimeout v s := mkServer (sockets s) (m_socks s) (m_isStop s) v (m_name s) (accepts s) (clients s) (sys_ s).
Definition set_name v s := mkServer (sockets s) (m_socks s) (m_isStop s) (m_readTimeout s) v (accepts s) (clients s) (sys_ s).
Definition set_accepts v s := mkServer (sockets s) (m_socks s) (m_isStop s) (m_readTimeout s) (m_name s) v (clients s) (sys_ s).
Definition set_clients v s := mkServer (sockets s) (m_socks s) (m_isStop s) (m_readTimeout s) (m_name s) (accepts s) v (sys_ s).
Definition set_sys v s := mkServer (sockets s) (m_socks s) (m_isStop s) (m_readTimeout s) (m_name s) (accepts s) (clients s) v.

(** [read_timeout] is the value of the configuration variable. *)
Definition TcpServer_new (read_timeout : Z) (k : K) : server := mkServer ∅ [] true read_timeout "azure/1.0.0" [] [] k.

(** A call has made [x], at [a], what it is in [w]; when its descriptor was closed,
    the fibers that waited on that were woken. *)
Definition put_socket (a : nat) (x : Socket) (w : net K) (s : server) : server :=
  set_accepts (if m_sockfd x =? m_sockfd (obj w) then accepts s else wake (m_sockfd x) <$> accepts s)
    (set_sys (system w) (set_sockets (<[a := obj w]> (sockets s)) s)).
(** A call on a socket object. *)
Definition on_socket {A} (a : nat) (m : ST (net K) A) : ST server A := λ s,
  match sockets s !! a with
  | None => Crash NullDeref
  | Some x =>
      match m (mkNet x (sys_ s)) with
      | Ret v w => Ret v (put_socket a x w s)
      | Throw e w => Throw e (put_socket a x w s)
      | Crash f => Crash f
      end
  end.
Definition new_socket (x : Socket) : ST server nat := λ s,
  let a := fresh (dom (sockets s)) in Ret a (set_sockets (<[a := x]> (sockets s)) s).

Definition task_refers (a : nat) (t : task) : bool := 
  match t with AcceptTask b | Accepting b _ _ => bool_decide (a = b) | StopTask => false end.
Definition referenced (a : nat) (s : server) : bool :=
  bool_decide (a ∈ m_socks s) || existsb (task_refers a) (accepts s) || bool_decide (a ∈ clients s).
(** A reference goes away; with the last one, the object. *)
Definition release (a : nat) : ST server unit :=
  let* s := gets id in
  if referenced a s then ret tt
  else
    on_socket a destroy ;;;
    modify (λ s, set_sockets (delete a (sockets s)) s).
Fixpoint for_socks (f : nat → ST server unit) (l : list nat) : ST server unit :=
  match l with [] => ret tt | a :: l => f a ;;; for_socks f l end.
(** [m_socks.clear()] *)
Definition clear_socks : ST server unit :=
  let* l := gets m_socks in
  modify (set_socks []) ;;;
  for_socks release l.

(** *** [bind] *)
Definition bind_one (addr : Address) : ST server bool :=
  let* a := new_socket (CreateTCP host addr) in
  let* bound := on_socket a (bind_ host addr) in
  if negb bound then release a ;;; ret false
  else
    let* listening := on_socket a (listen SOMAXCONN) in
    if negb listening then release a ;;; ret false
    else modify (λ s, set_socks (m_socks s ++ [a]) s) ;;; ret true.
Fixpoint bind_loop (addrs fails : list Address) : ST server (list Address) :=
  match addrs with
  | [] => ret fails
  | addr :: addrs =>
      let* ok := bind_one addr in
      bind_loop addrs (if ok : bool then fails else fails ++ [addr])
  end.
(** The answer and the addresses that failed, behind those that [fails] had. *)
Definition bind_addrs (addrs fails : list Address) : ST server (bool * list Address) :=
  let* fails := bind_loop addrs fails in
  match fails with
  | [] => ret (true, [])
  | _ => clear_socks ;;; ret (false, fails)
  end.
Definition bind_addr (addr : Address) : ST server bool := let* r := bind_addrs [addr] [] in ret r.1.

(** *** [start] and [stop] *)
Definition start : ST server bool :=
  let* s := gets id in
  if negb (m_isStop s) then ret true
  else
    modify (set_stop false) ;;;
    modify (λ s, set_accepts (accepts s ++ (AcceptTask <$> m_socks s)) s) ;;;
    ret true.
Definition stop : ST server unit :=
  modify (set_stop true) ;;;
  modify (λ s, set_accepts (accepts s ++ [StopTask]) s).

(** *** The tasks *)
(** [startAccept] in the [i]-th task: the loop's test and the call, *)
Definition accept_call (i : nat) (a : nat) : ST server unit :=
  let* s := gets id in
  if m_isStop s then
    modify (λ s, set_accepts (delete i (accepts s)) s) ;;;
    release a
  else
    let* fd := on_socket a (gets (λ w, m_sockfd (obj w))) in
    modify (λ s, set_accepts (<[i := Accepting a fd (if fd =? -1 then Ends else Blocked)]> (accepts s)) s).
(** A client, or an error of the socket, wakes the call. *)
Definition arrive (i : nat) : ST server unit :=
  let* s := gets id in
  match accepts s !! i with
  | Some (Accepting a fd Blocked) => modify (λ s, set_accepts (<[i := Accepting a fd Ends]> (accepts s)) s)
  | _ => ret tt
  end.
(** Whether [fd] is the descriptor of a socket that is no connection. *)
Definition taken (fd : Z) (s : server) : bool :=
  bool_decide (map_Exists (λ _ x, m_sockfd x = fd ∧ fd ≠ -1 ∧ m_isConnected x = false) (sockets s)).
(** and what follows it. *)
Definition accept_return (i : nat) (a : nat) (fd : Z) : ST server unit :=
  let* client := on_socket a (accept_on fd) in
  (match client with
   | None => ret tt
   | Some x =>
       let* c := new_socket x in
       let* v := gets m_readTimeout in
       on_socket c (setRecvTimeout v) ;;;
       modify (λ s, set_clients (clients s ++ [c]) s)
   end) ;;;
  modify (λ s, set_accepts (<[i := AcceptTask a]> (accepts s)) s).
Definition cancel_and_close (a : nat) : ST server unit :=
  let* fd := on_socket a (let* s := gets obj in sys (λ k, (m_sockfd s, cancelAll (m_sockfd s) k))) in
  modify (λ s, set_accepts (wake fd <$> accepts s) s) ;;;
  let* _ := on_socket a close in ret tt.
Definition stop_turn (i : nat) : ST server unit :=
  modify (λ s, set_accepts (delete i (accepts s)) s) ;;;
  let* l := gets m_socks in
  for_socks cancel_and_close l ;;;
  clear_socks.
Definition turn (i : nat) : ST server unit :=
  let* s := gets id in
  match accepts s !! i with
  | Some (AcceptTask a) => accept_call i a
  | Some (Accepting _ _ Blocked) => ret tt
  | Some (Accepting a fd Ends) => accept_return i a fd
  | Some (Accepting a fd Cancelled) =>
      if taken fd s then modify (λ s, set_accepts (<[i := Accepting a fd Blocked]> (accepts s)) s)
      else accept_return i a fd
  | Some StopTask => stop_turn i
  | None => ret tt
  end.
(** The task of the [i]-th client is done. *)
Definition client_done (i : nat) : ST server unit :=
  let* s := gets id in
  match clients s !! i with
  | Some c => modify (λ s, set_clients (delete i (clients s)) s) ;;; release c
  | None => ret tt
  end.
(** The destructor, which runs when no task refers to the server. *)
Definition destroy_server : ST server unit :=
  let* l := gets m_socks in
  for_socks (λ a, let* _ := on_socket a close in ret tt) l ;;;
  clear_socks.
End server.
Arguments server K : clear implicits.
