(* ===== verification/TcpServerTheorems.v ===== *)
(** * TcpServerTheorems: what a server owns and when it ends

    [ledger] and [good]: which descriptors and objects a server has between its
    steps.  [stopping]: what holds from the call of [stop] until its tasks are gone.
    [bound_at]: the sockets of a successful [bind] are bound and listen. *)
From S2P Require Import Prelude Address Socket SocketTheorems TcpServer.

Section ledger.
Context {K : Type} `{NetLaws K}.
Implicit Types (s : server K) (a : nat) (x : Socket) (base : gset Z).

(** ** Who has which descriptor *)
(** The open descriptors are those of [base], which are not the server's, and
    those of the objects in the heap, each of its own. *)
Record ledger (base : gset Z) (s : server K) : Prop := {
  led_open fd : fd ∈ net_open (sys_ s) ↔ fd ∈ base ∨ ∃ a x, sockets s !! a = Some x ∧ fd ∈ own x;
  led_base a x : sockets s !! a = Some x → own x ## base;
  led_apart a b x y : sockets s !! a = Some x → sockets s !! b = Some y → a ≠ b → own x ## own y;
  led_connected a x : sockets s !! a = Some x → m_isConnected x = true → m_sockfd x ≠ -1
}.
(** The live objects are those that something refers to. *)
Definition counted (s : server K) : Prop := ∀ a, a ∈ dom (sockets s) ↔ referenced a s = true.

Lemma own_new f t p : own (Socket_new f t p) = ∅.
Proof using. done. Qed.
Lemma ledger_inv base s a x : ledger base s → sockets s !! a = Some x → SocketTheorems.inv (net_open (sys_ s) ∖ own x) (mkNet x (sys_ s)).
Proof using.
  intros [L1 L2 L3 L4] Ha. constructor; cbn.
  - apply set_eq. intros fd. rewrite elem_of_union, elem_of_difference. destruct (decide (fd ∈ own x)); [|tauto]. rewrite L1. split; [tauto|]. intros _. right. by exists a, x.
  - intros Hfd. rewrite elem_of_difference. intros [_ Hn]. apply Hn. unfold own. rewrite (proj2 (Z.eqb_neq _ _) Hfd). set_solver.
  - by apply (L4 a).
Qed.
Lemma inv_own_apart h (w : net K) : SocketTheorems.inv h w → own (obj w) ## h.
Proof using.
  intros [_ Hn _] fd. unfold own. destruct (Z.eqb_spec (m_sockfd (obj w)) (-1)) as [|Hne]; [set_solver|]. intros ->%elem_of_singleton. by apply Hn.
Qed.

(** A changed object and system, when the rest is as before and [base] may grow by what was accepted. *)
Lemma ledger_put base extra s a x w : ledger base s → sockets s !! a = Some x →
  SocketTheorems.inv (extra ∪ (net_open (sys_ s) ∖ own x)) w → extra ## net_open (sys_ s) →
  ledger (extra ∪ base) (put_socket a x w s).
Proof using.
  intros L Ha Hi He. pose proof L as [L1 L2 L3 L4]. pose proof (inv_own_apart _ _ Hi) as Hap. pose proof Hi as [Ho _ Hc].
  assert (∀ b y, sockets s !! b = Some y → b ≠ a → own y ⊆ net_open (sys_ s) ∖ own x) as Hother.
  { intros b y Hb Hne fd Hfd. rewrite elem_of_difference. split; [apply L1; right; by exists b, y|]. intros Hfx. by apply (L3 b a y x Hb Ha Hne fd). }
  assert (base ⊆ net_open (sys_ s) ∖ own x) as Hbase.
  { intros fd Hfd. rewrite elem_of_difference. split; [apply L1; by left|]. intros Hfx. by apply (L2 a x Ha fd). }
  constructor; cbn.
  - intros fd. rewrite Ho, !elem_of_union, elem_of_difference, L1. split.
    + intros [Hfd|[Hfd|[[Hfd|(b & y & Hb & Hfd)] Hn]]]; [right; exists a, (obj w); by rewrite lookup_insert_eq|tauto..|].
      right. exists b, y. rewrite lookup_insert_ne; [done|]. intros <-. apply Hn. congruence.
    + intros [[?|Hfd]|(b & y & Hb & Hfd)]; [tauto| |].
      * right. right. apply Hbase in Hfd. rewrite elem_of_difference, L1 in Hfd. done.
      * destruct (decide (b = a)) as [->|Hne]; [rewrite lookup_insert_eq in Hb; left; congruence|]. rewrite lookup_insert_ne in Hb by done.
        right. right. pose proof (Hother b y Hb Hne fd Hfd) as Hx. rewrite elem_of_difference, L1 in Hx. done.
  - intros b y Hb. destruct (decide (b = a)) as [->|Hne].
    + rewrite lookup_insert_eq in Hb. injection Hb as <-. clear -Hap Hbase. set_solver.
    + rewrite lookup_insert_ne in Hb by done. pose proof (L2 b y Hb). pose proof (Hother b y Hb Hne). clear -H1 H2 He. set_solver.
  - assert (∀ b y, sockets s !! b = Some y → b ≠ a → own (obj w) ## own y) as Hnew.
    { intros b y Hb Hne. pose proof (Hother b y Hb Hne). clear -Hap H1. set_solver. }
    intros b c y z Hb Hc' Hne. destruct (decide (b = a)) as [->|Hba], (decide (c = a)) as [->|Hca]; [done|..].
    + rewrite lookup_insert_eq in Hb. rewrite lookup_insert_ne in Hc' by done. injection Hb as <-. by apply (Hnew c).
    + rewrite lookup_insert_eq in Hc'. rewrite lookup_insert_ne in Hb by done. injection Hc' as <-. symmetry. by apply (Hnew b).
    + rewrite lookup_insert_ne in Hb by done. rewrite lookup_insert_ne in Hc' by done. by apply (L3 b c).
  - intros b y Hb. destruct (decide (b = a)) as [->|Hne]; [rewrite lookup_insert_eq in Hb; injection Hb as <-; exact Hc|].
    rewrite lookup_insert_ne in Hb by done. by apply (L4 b).
Qed.
Lemma ledger_insert base s a x : ledger (own x ∪ base) s → sockets s !! a = None → own x ## base →
  (∀ b y, sockets s !! b = Some y → own y ## own x) → (m_isConnected x = true → m_sockfd x ≠ -1) → ledger base (set_sockets (<[a := x]> (sockets s)) s).
Proof using.
  intros [L1 L2 L3 L4] Ha Hx Hy Hc. constructor; cbn.
  - intros fd. rewrite L1, elem_of_union. split.
    + intros [[?|?]|(b & y & Hb & ?)]; [right; exists a, x; by rewrite lookup_insert_eq|by left|right; exists b, y; rewrite lookup_insert_ne by congruence; done].
    + intros [?|(b & y & Hb & ?)]; [tauto|]. destruct (decide (b = a)) as [->|Hne]; [rewrite lookup_insert_eq in Hb; left; left; congruence|].
      rewrite lookup_insert_ne in Hb by done. right. by exists b, y.
  - intros b y Hb. destruct (decide (b = a)) as [->|Hne]; [rewrite lookup_insert_eq in Hb; by injection Hb as <-|].
    rewrite lookup_insert_ne in Hb by done. specialize (L2 b y Hb). clear -L2. set_solver.
  - intros b c y z Hb Hc' Hne. destruct (decide (b = a)) as [->|Hba], (decide (c = a)) as [->|Hca]; [done|..].
    + rewrite lookup_insert_eq in Hb. rewrite lookup_insert_ne in Hc' by done. injection Hb as <-. symmetry. by apply (Hy c).
    + rewrite lookup_insert_eq in Hc'. rewrite lookup_insert_ne in Hb by done. injection Hc' as <-. by apply (Hy b).
    + rewrite lookup_insert_ne in Hb by done. rewrite lookup_insert_ne in Hc' by done. by apply (L3 b c).
  - intros b y Hb. destruct (decide (b = a)) as [->|Hne]; [rewrite lookup_insert_eq in Hb; by injection Hb as <-|].
    rewrite lookup_insert_ne in Hb by done. by apply (L4 b).
Qed.
Lemma ledger_delete base s a x : ledger base s → sockets s !! a = Some x → own x = ∅ → ledger base (set_sockets (delete a (sockets s)) s).
Proof using.
  intros [L1 L2 L3 L4] Ha Hx. constructor; cbn.
  - intros fd. rewrite L1. split; (intros [?|(b & y & Hb & Hfd)]; [by left|right]).
    + exists b, y. rewrite lookup_delete_ne; [done|]. intros <-. assert (y = x) as -> by congruence. rewrite Hx in Hfd. set_solver.
    + apply lookup_delete_Some in Hb as [_ Hb]. by exists b, y.
  - intros b y [_ Hb]%lookup_delete_Some. by apply (L2 b).
  - intros b c y z [_ Hb]%lookup_delete_Some [_ Hc]%lookup_delete_Some. by apply L3.
  - intros b y [_ Hb]%lookup_delete_Some. by apply (L4 b).
Qed.

(** ** Operations *)
(** Some of the calls that waited were woken. *)
Definition woke (t t' : task) : Prop := t' = t ∨ ∃ a fd, t = Accepting a fd Blocked ∧ t' = Accepting a fd Cancelled.
Definition woken (l l' : list task) : Prop := Forall2 woke l l'.
Lemma woken_refl l : woken l l.
Proof using. induction l; constructor; [by left|done]. Qed.
Lemma woken_trans l1 l2 l3 : woken l1 l2 → woken l2 l3 → woken l1 l3.
Proof using.
  intros H12. revert l3. induction H12 as [|t t' l1 l2 Ht _ IH]; intros l3 H23; inversion H23 as [|? t'' ? l Ht' Hl]; subst; constructor; [|by apply IH].
  destruct Ht as [->|(a & fd & -> & ->)]; [done|]. right. exists a, fd. by destruct Ht' as [->|(? & ? & ? & _)].
Qed.
Lemma woke_wake fd t : woke t (wake fd t).
Proof using. destruct t as [|a fd' []|]; cbn; try (by left). destruct (fd' =? fd); [right; by exists a, fd'|by left]. Qed.
Lemma woken_wake fd l : woken l (wake fd <$> l).
Proof using. induction l; constructor; [apply woke_wake|done]. Qed.
Lemma woken_exists a l l' : woken l l' → existsb (task_refers a) l' = existsb (task_refers a) l.
Proof using. induction 1 as [|t t' l l' Ht _ IH]; [done|]. cbn. rewrite IH. by destruct Ht as [->|(b & fd & -> & ->)]. Qed.
Lemma woken_nil l : woken [] l → l = [].
Proof using. by inversion 1. Qed.
Lemma woken_lookup l l' i t : woken l l' → l !! i = Some t → ∃ t', l' !! i = Some t' ∧ woke t t'.
Proof using. intros Hw Hi. by apply (Forall2_lookup_l _ _ _ _ _ Hw). Qed.
#[local] Hint Resolve woken_refl : core.

Definition frame (s s' : server K) : Prop :=
  m_socks s' = m_socks s ∧ m_isStop s' = m_isStop s ∧ woken (accepts s) (accepts s') ∧ clients s' = clients s.
Lemma frame_refl s : frame s s.
Proof using. by split_and!. Qed.
#[local] Hint Resolve frame_refl : core.
Lemma frame_trans s1 s2 s3 : frame s1 s2 → frame s2 s3 → frame s1 s3.
Proof using. intros (E1 & E2 & E3 & E4) (F1 & F2 & F3 & F4). split_and!; try congruence. by apply (woken_trans _ (accepts s2)). Qed.
Lemma frame_referenced s s' a : frame s s' → referenced a s' = referenced a s.
Proof using. intros (E1 & _ & E2 & E3). unfold referenced. by rewrite E1, (woken_exists _ _ _ E2), E3. Qed.
Lemma frame_put a x w s : frame s (put_socket a x w s).
Proof using. unfold put_socket. split_and!; try done. cbn. destruct (_ =? _); [done|apply woken_wake]. Qed.

(** A call on an object that keeps the descriptors keeps the ledger; [Q] is what else it says of the object. *)
Lemma on_socket_keeps {A} base s a (m : ST (net K) A) (Q : A → Socket → Prop) : ledger base s → a ∈ dom (sockets s) →
  (∀ h w, SocketTheorems.inv h w → ∃ v w', m w = Ret v w' ∧ SocketTheorems.inv h w' ∧ Q v (obj w')) →
  ∃ v s', on_socket a m s = Ret v s' ∧ ledger base s' ∧ frame s s' ∧ dom (sockets s') = dom (sockets s)
  ∧ ∃ x, sockets s' !! a = Some x ∧ Q v x.
Proof using.
  intros L [x Ha]%elem_of_dom Hm. destruct (Hm _ _ (ledger_inv _ _ _ _ L Ha)) as (v & w & E & Hi & HQ). unfold on_socket. rewrite Ha, E.
  eexists v, _. split; [done|]. split_and!; [|apply frame_put| |].
  - rewrite <- (union_empty_l_L base). apply (ledger_put base ∅ s a x w L Ha); [by rewrite union_empty_l_L|set_solver].
  - cbn. apply elem_of_dom_2 in Ha. set_solver.
  - exists (obj w). cbn. by rewrite lookup_insert_eq.
Qed.
Lemma on_socket_inv {A} s a (m : ST (net K) A) v s' : on_socket a m s = Ret v s' →
  ∃ x w, sockets s !! a = Some x ∧ m (mkNet x (sys_ s)) = Ret v w ∧ s' = put_socket a x w s.
Proof using.
  unfold on_socket. destruct (sockets s !! a) as [x|]; [|done]. destruct (m _) as [v' w| |] eqn:E; [|done..]. intros [= -> <-]. by exists x, w.
Qed.
(** A call that leaves the object as it is. *)
Lemma on_socket_still {A} s a (m : ST (net K) A) v s' : on_socket a m s = Ret v s' → (∀ w v w', m w = Ret v w' → obj w' = obj w) → ∃ k, s' = set_sys k s.
Proof using.
  intros (x & w & Hx & E & ->)%on_socket_inv Hm. apply Hm in E. cbn in E. exists (system w). unfold put_socket. rewrite E, Z.eqb_refl, insert_id by done. by destruct s.
Qed.
Lemma on_socket_kept {A} base s a (m : ST (net K) A) : ledger base s → a ∈ dom (sockets s) → (∀ h, keeps h m) →
  ∃ v s', on_socket a m s = Ret v s' ∧ ledger base s' ∧ frame s s' ∧ dom (sockets s') = dom (sockets s).
Proof using.
  intros L Ha Hm. destruct (on_socket_keeps base s a m (λ _ _, True) L Ha) as (v & s' & E & L' & F & D & _).
  - intros h w Hw. destruct (Hm h w Hw) as (v & w' & E & Hw'). by exists v, w'.
  - by exists v, s'.
Qed.

(** The objects that are live: those that are referenced, and those in [l]. *)
Definition counted_with (l : list nat) s : Prop := ∀ a, a ∈ dom (sockets s) ↔ referenced a s = true ∨ a ∈ l.
Lemma counted_nil s : counted_with [] s ↔ counted s.
Proof using. unfold counted_with, counted. set_solver. Qed.

Lemma release_ok base s a l : ledger base s → counted_with (a :: l) s → a ∉ l →
  ∃ s', release a s = Ret tt s' ∧ ledger base s' ∧ counted_with l s' ∧ frame s s'
  ∧ (∀ b, referenced b s = true → sockets s' !! b = sockets s !! b).
Proof using.
  intros L C Hl. unfold release. rewrite bind_gets. unfold id. destruct (referenced a s) eqn:Er.
  { exists s. split_and!; try done. intros b. specialize (C b). split; [|set_solver]. intros [?|[->|?]%elem_of_cons]%C; tauto. }
  assert (a ∈ dom (sockets s)) as Ha by (apply C; set_solver).
  destruct (on_socket_keeps base s a destroy (λ _ x, m_sockfd x = -1) L Ha) as ([] & s1 & E & L1 & F & D & x & Hx & Hn).
  { intros h w Hw. destruct (close_closes h w Hw) as (b & w' & E & Hw' & Hn). exists tt, w'. unfold destroy. by rewrite (bind_Ret _ _ _ _ _ E). }
  rewrite (bind_Ret _ _ _ _ _ E). eexists. split; [done|]. split_and!.
  - apply (ledger_delete base s1 a x L1 Hx). unfold own. by rewrite Hn.
  - intros b. pose proof (C b) as Cb. cbn. rewrite dom_delete_L, elem_of_difference, D, Cb. rewrite <- (frame_referenced s s1 b F).
    change (referenced b (set_sockets _ s1)) with (referenced b s1). rewrite (frame_referenced s s1 b F).
    rewrite elem_of_cons, elem_of_singleton. split; [tauto|]. intros [Hb|Hb]; (split; [tauto|]); congruence.
  - exact F.
  - intros b Hb. cbn. assert (b ≠ a) as Hne by congruence. rewrite lookup_delete_ne by done. revert E. unfold on_socket.
    destruct (sockets s !! a); [|done]. destruct (destroy _); intros [= _ <-]; cbn; by rewrite lookup_insert_ne.
Qed.
Lemma for_release_ok base l : ∀ s, ledger base s → NoDup l → counted_with l s →
  ∃ s', for_socks release l s = Ret tt s' ∧ ledger base s' ∧ counted s' ∧ frame s s'
  ∧ (∀ b, referenced b s = true → sockets s' !! b = sockets s !! b).
Proof using.
  induction l as [|a l IH]; intros s L Hnd C; cbn [for_socks].
  - exists s. split_and!; try done. by apply counted_nil.
  - apply NoDup_cons in Hnd as [Ha Hnd]. destruct (release_ok base s a l L C Ha) as (s1 & E & L1 & C1 & F1 & R1). rewrite (bind_Ret _ _ _ _ _ E).
    destruct (IH s1 L1 Hnd C1) as (s2 & E2 & L2 & C2 & F2 & R2). exists s2. split_and!; try done; [by apply (frame_trans s s1)|].
    intros b Hb. rewrite R2; [by apply R1|]. by rewrite (frame_referenced s s1 b F1).
Qed.

(** What holds between the steps. *)
Record good (base : gset Z) s : Prop := { good_ledger : ledger base s; good_counted : counted s; good_socks : NoDup (m_socks s) }.
Lemma referenced_spec a s : referenced a s = true ↔ a ∈ m_socks s ∨ Exists (λ t, task_refers a t = true) (accepts s) ∨ a ∈ clients s.
Proof using.
  unfold referenced. rewrite !orb_true_iff, !bool_decide_eq_true, existsb_exists, Exists_exists.
  assert ((∃ t, In t (accepts s) ∧ task_refers a t = true) ↔ (∃ t, t ∈ accepts s ∧ task_refers a t = true)) as ->; [|tauto].
  split; intros (t & Ht & ?); exists t; by rewrite list_elem_of_In in *.
Qed.
Lemma good_live base s a : good base s → a ∈ m_socks s → a ∈ dom (sockets s).
Proof using. intros [_ C _] Ha. apply C, referenced_spec. by left. Qed.

Lemma clear_socks_ok base s : good base s →
  ∃ s', clear_socks s = Ret tt s' ∧ good base s' ∧ m_socks s' = [] ∧ m_isStop s' = m_isStop s ∧ woken (accepts s) (accepts s') ∧ clients s' = clients s
  ∧ ∀ b z, sockets s' !! b = Some z → sockets s !! b = Some z.
Proof using.
  intros [L C Hnd]. unfold clear_socks. rewrite bind_gets, bind_modify.
  destruct (for_release_ok base (m_socks s) (set_socks [] s)) as (s' & E & L' & C' & F & R); [by destruct L|done| |].
  - intros a. specialize (C a). rewrite C, !referenced_spec. cbn. set_solver.
  - pose proof F as (F1 & F2 & F3 & F4). exists s'. split_and!; try done; [split; [done|done|rewrite F1; constructor]|].
    intros b z Hb. rewrite <- Hb. symmetry. apply R. rewrite <- (frame_referenced _ _ b F). apply C'. by eapply elem_of_dom_2.
Qed.

Lemma new_socket_ok base s x l : ledger (own x ∪ base) s → counted_with l s → own x ## base → (∀ b y, sockets s !! b = Some y → own y ## own x) →
  (m_isConnected x = true → m_sockfd x ≠ -1) →
  ∃ a s', new_socket x s = Ret a s' ∧ ledger base s' ∧ counted_with (a :: l) s' ∧ s' = set_sockets (<[a := x]> (sockets s)) s ∧ a ∉ dom (sockets s).
Proof using.
  intros L C Hx Hy Hc. unfold new_socket. set (a := fresh (dom (sockets s))). assert (a ∉ dom (sockets s)) as Ha by apply is_fresh.
  exists a. eexists. split; [done|]. split_and!; [| |done..].
  - apply ledger_insert; try done. by apply not_elem_of_dom.
  - intros b. change (referenced b (set_sockets _ s)) with (referenced b s). cbn. specialize (C b). rewrite dom_insert_L. set_solver.
Qed.
Lemma counted_frame l s s' : counted_with l s → frame s s' → dom (sockets s') = dom (sockets s) → counted_with l s'.
Proof using. intros C F D a. by rewrite D, (frame_referenced s s' a F). Qed.
(** Something refers to the object now, or does no longer. *)
Lemma good_step base s s' : good base s → sockets s' = sockets s → sys_ s' = sys_ s → m_socks s' = m_socks s →
  (∀ a, referenced a s' = referenced a s) → good base s'.
Proof using.
  intros [[L1 L2 L3 L4] C Hnd] E1 E2 E3 R. split; [|intros a; by rewrite R, E1|by rewrite E3]. constructor; rewrite ?E1, ?E2; auto.
Qed.

Section bind.
Context (host SOMAXCONN : Z).
Lemma bind_one_ok base s addr : good base s →
  ∃ ok s', bind_one host SOMAXCONN addr s = Ret ok s' ∧ good base s' ∧ m_isStop s' = m_isStop s ∧ woken (accepts s) (accepts s') ∧ clients s' = clients s
  ∧ length (m_socks s') = ((if ok then 1 else 0) + length (m_socks s))%nat.
Proof using.
  intros G. pose proof G as [L C Hnd]. unfold bind_one.
  destruct (new_socket_ok base s (CreateTCP host addr) []) as (a & s1 & E1 & L1 & C1 & Es1 & Ha); [unfold CreateTCP; by rewrite own_new, union_empty_l_L|by apply counted_nil|done|done|done|].
  rewrite (bind_Ret _ _ _ _ _ E1). assert (a ∈ dom (sockets s1)) as Ha1 by (apply C1; set_solver). assert (frame s s1) as F1 by by subst.
  destruct (on_socket_kept base s1 a (bind_ host addr) L1 Ha1 (λ h, keeps_bind_op host h addr)) as (bound & s2 & E2 & L2 & F2 & D2).
  rewrite (bind_Ret _ _ _ _ _ E2). pose proof (counted_frame _ _ _ C1 F2 D2) as C2. pose proof (frame_trans _ _ _ F1 F2) as F3.
  assert (∀ s3, frame s s3 → ledger base s3 → counted_with [a] s3 → ∃ s', (release a ;;; ret false) s3 = Ret false s' ∧ good base s' ∧
    m_isStop s' = m_isStop s ∧ woken (accepts s) (accepts s') ∧ clients s' = clients s ∧ length (m_socks s') = length (m_socks s)) as Hfail.
  { intros s3 Fa La Ca. destruct (release_ok base s3 a [] La Ca) as (s4 & E4 & L4 & C4 & F4 & _); [set_solver|].
    rewrite (bind_Ret _ _ _ _ _ E4). destruct (frame_trans _ _ _ Fa F4) as (Q1 & Q2 & Q3 & Q4). exists s4. split_and!; try done; [|by rewrite Q1].
    split; [done|by apply counted_nil|by rewrite Q1]. }
  destruct (negb bound). { destruct (Hfail s2 F3 L2 C2) as (s' & E & R). exists false, s'. done. }
  assert (a ∈ dom (sockets s2)) as Ha2 by by rewrite D2.
  destruct (on_socket_kept base s2 a (listen SOMAXCONN) L2 Ha2 (λ h, keeps_listen h SOMAXCONN)) as (li & s3 & E3 & L3 & F4 & D4).
  rewrite (bind_Ret _ _ _ _ _ E3). pose proof (counted_frame _ _ _ C2 F4 D4) as C3. pose proof (frame_trans _ _ _ F3 F4) as F5.
  destruct (negb li). { destruct (Hfail s3 F5 L3 C3) as (s' & E & R). exists false, s'. done. }
  rewrite bind_modify. eexists true, _. split; [done|]. destruct F5 as (Q1 & Q2 & Q3 & Q4). split_and!; [|done..|cbn; rewrite length_app, Q1; cbn; lia].
  split; [by destruct L3| |].
  - intros b. rewrite referenced_spec. cbn. specialize (C3 b). rewrite referenced_spec in C3. clear -C3. set_solver.
  - cbn. rewrite Q1. apply NoDup_app. split_and!; [done| |apply NoDup_singleton]. intros b Hb%(good_live base s) ->%list_elem_of_singleton; [done|exact G].
Qed.
Lemma bind_loop_ok base addrs : ∀ s fails, good base s →
  ∃ failed s', bind_loop host SOMAXCONN addrs fails s = Ret (fails ++ failed) s' ∧ good base s' ∧ m_isStop s' = m_isStop s ∧ woken (accepts s) (accepts s')
  ∧ clients s' = clients s ∧ (length (m_socks s') + length failed = length (m_socks s) + length addrs)%nat ∧ sublist failed addrs.
Proof using.
  induction addrs as [|addr addrs IH]; intros s fails G; cbn [bind_loop].
  - exists [], s. rewrite app_nil_r. split_and!; try done.
  - destruct (bind_one_ok base s addr G) as (ok & s1 & E & G1 & Q1 & Q2 & Q3 & Q4). rewrite (bind_Ret _ _ _ _ _ E).
    destruct (IH s1 (if ok then fails else fails ++ [addr]) G1) as (failed & s2 & E2 & G2 & R1 & R2 & R3 & R4 & R5).
    exists (if ok then failed else addr :: failed), s2. rewrite E2. split_and!; [|done|congruence|by apply (woken_trans _ (accepts s1))|congruence| |].
    + destruct ok; [done|]. by rewrite <- app_assoc.
    + destruct ok; cbn in *; lia.
    + destruct ok; by constructor.
Qed.
Lemma bind_addrs_ok base addrs s fails : good base s →
  ∃ ok failed s', bind_addrs host SOMAXCONN addrs fails s = Ret (ok, fails ++ failed) s' ∧ good base s' ∧ m_isStop s' = m_isStop s
  ∧ woken (accepts s) (accepts s') ∧ clients s' = clients s ∧ sublist failed addrs ∧ (ok = true ↔ fails ++ failed = [])
  ∧ length (m_socks s') = (if ok then length (m_socks s) + length addrs else 0)%nat.
Proof using.
  intros G. unfold bind_addrs. destruct (bind_loop_ok base addrs s fails G) as (failed & s1 & E & G1 & R1 & R2 & R3 & R4 & R5).
  rewrite (bind_Ret _ _ _ _ _ E). destruct (fails ++ failed) as [|f l] eqn:Ef.
  - exists true, [], s1. destruct (app_eq_nil _ _ Ef) as [-> ->]. split_and!; try done. cbn in R4. lia.
  - destruct (clear_socks_ok base s1 G1) as (s2 & E2 & G2 & Q1 & Q2 & Q3 & Q4 & _). rewrite (bind_Ret _ _ _ _ _ E2). exists false, failed, s2.
    split_and!; try congruence; [by rewrite Ef|by apply (woken_trans _ (accepts s1))|rewrite Ef; by split|by rewrite Q1].
Qed.
End bind.

(** ** Tasks *)
Lemma task_live base s i t a : good base s → accepts s !! i = Some t → task_refers a t = true → a ∈ dom (sockets s).
Proof using. intros [_ C _] Hi Ht. apply C, referenced_spec. right. left. rewrite (exists_delete _ _ _ _ Hi). by left. Qed.
Lemma good_insert base s i t t' : good base s → accepts s !! i = Some t → (∀ a, task_refers a t = task_refers a t') →
  good base (set_accepts (<[i := t']> (accepts s)) s).
Proof using.
  intros G Hi Ht. apply (good_step base s); try done. intros a. apply eq_iff_eq_true. rewrite !referenced_spec. cbn.
  by rewrite (exists_insert _ _ _ _ _ Hi), (exists_delete _ _ _ _ Hi), Ht.
Qed.
Lemma good_frame base s s' : good base s → ledger base s' → frame s s' → dom (sockets s') = dom (sockets s) → good base s'.
Proof using.
  intros [L C Hnd] L' F D. split; [done| |by destruct F as (-> & _)]. apply counted_nil, (counted_frame [] s); [by apply counted_nil|done|done].
Qed.
Lemma start_ok base s : good base s → ∃ s', start s = Ret true s' ∧ good base s' ∧ m_isStop s' = false.
Proof using.
  intros G. unfold start. rewrite bind_gets. unfold id. destruct (m_isStop s) eqn:Es; cbn [negb]; [|by exists s].
  rewrite !bind_modify. eexists. split; [done|]. split; [|done]. apply (good_step base s); try done. intros a. apply eq_iff_eq_true.
  rewrite !referenced_spec. cbn. rewrite Exists_app, (Exists_exists _ (AcceptTask <$> m_socks s)).
  assert ((∃ t, t ∈ AcceptTask <$> m_socks s ∧ task_refers a t = true) ↔ a ∈ m_socks s) as ->; [|tauto].
  split; [intros (t & (b & -> & Hb)%list_elem_of_fmap & Ht)|intros Ha; exists (AcceptTask a); split; [by apply list_elem_of_fmap_2|by apply bool_decide_eq_true]].
  cbn in Ht. apply bool_decide_eq_true in Ht. by subst.
Qed.
Lemma stop_ok base s : good base s → ∃ s', stop s = Ret tt s' ∧ good base s' ∧ m_isStop s' = true ∧ accepts s' = accepts s ++ [StopTask] ∧ clients s' = clients s.
Proof using.
  intros G. unfold stop. rewrite bind_modify. eexists. split; [done|]. split_and!; try done. apply (good_step base s); try done. intros a.
  apply eq_iff_eq_true. rewrite !referenced_spec. cbn. rewrite Exists_app, Exists_cons, Exists_nil. cbn. intuition discriminate.
Qed.

(** A task or a client goes, and with it its reference. *)
Lemma drop_ref_ok base s s1 a : good base s → sockets s1 = sockets s → sys_ s1 = sys_ s → m_socks s1 = m_socks s →
  (∀ b, referenced b s = true ↔ b = a ∨ referenced b s1 = true) →
  ∃ s', release a s1 = Ret tt s' ∧ good base s' ∧ frame s1 s' ∧ (∀ b, referenced b s1 = true → sockets s' !! b = sockets s !! b)
  ∧ ∀ b z, sockets s' !! b = Some z → sockets s !! b = Some z.
Proof using.
  intros [[L1 L2 L3 L4] C Hnd] E1 E2 E3 R. destruct (release_ok base s1 a []) as (s' & E & L' & C' & F & R'); [| |set_solver|].
  - constructor; rewrite ?E1, ?E2; auto.
  - intros b. rewrite E1. specialize (C b). specialize (R b). rewrite elem_of_cons, elem_of_nil. tauto.
  - apply counted_nil in C'. rewrite E1 in R'. exists s'. split_and!; try done; [pose proof F as (F1 & _); split; [done|done|by rewrite F1, E3]|].
    intros b z Hb. rewrite <- Hb. symmetry. apply R'. rewrite <- (frame_referenced _ _ b F). apply C'. by eapply elem_of_dom_2.
Qed.
Lemma accept_call_ok base s i a : good base s → accepts s !! i = Some (AcceptTask a) →
  ∃ s', accept_call i a s = Ret tt s' ∧ good base s' ∧ m_isStop s' = m_isStop s.
Proof using.
  intros G Hi. unfold accept_call. rewrite bind_gets. unfold id. destruct (m_isStop s) eqn:Es.
  - rewrite bind_modify. destruct (drop_ref_ok base s (set_accepts (delete i (accepts s)) s) a G) as (s' & E & G' & (F1 & F2 & F3 & F4) & _); try done.
    { intros b. rewrite !referenced_spec. cbn. rewrite (exists_delete _ _ _ _ Hi). cbn. rewrite bool_decide_eq_true. tauto. }
    exists s'. split_and!; [done|done|]. by rewrite F2.
  - pose proof (task_live base s i _ a G Hi (bool_decide_eq_true_2 _ eq_refl)) as Ha.
    destruct (on_socket_kept base s a (gets (λ w, m_sockfd (obj w)))) as (fd & s1 & E & L1 & F1 & D1); [by destruct G|done|intros h; apply socket_keeps_gets|].
    rewrite (bind_Ret _ _ _ _ _ E). eexists. split; [done|]. pose proof F1 as (Q1 & Q2 & Q3 & Q4). split; [|cbn; congruence].
    destruct (woken_lookup _ _ _ _ Q3 Hi) as (t' & Hi' & [->|(? & ? & ? & _)]); [|done]. apply (good_insert base s1 i (AcceptTask a)); [|done|done].
    by apply (good_frame base s).
Qed.
Lemma arrive_ok base s i : good base s → ∃ s', arrive i s = Ret tt s' ∧ good base s'.
Proof using.
  intros G. unfold arrive. rewrite bind_gets. unfold id. destruct (accepts s !! i) as [[b|b fd []|]|] eqn:Hi; try by exists s.
  eexists. split; [done|]. by apply (good_insert base s i _ _ G Hi).
Qed.
Lemma client_done_ok base s i : good base s → ∃ s', client_done i s = Ret tt s' ∧ good base s'.
Proof using.
  intros G. unfold client_done. rewrite bind_gets. unfold id. destruct (clients s !! i) as [c|] eqn:Hi.
  - rewrite bind_modify. destruct (drop_ref_ok base s (set_clients (delete i (clients s)) s) c G) as (s' & E & G' & _); try done.
    { intros b. rewrite !referenced_spec. cbn. rewrite <- (take_drop_middle (clients s) i c Hi) at 1. rewrite delete_take_drop, !elem_of_app, elem_of_cons. tauto. }
    by exists s'.
  - by exists s.
Qed.

(** The call ends: the objects are as before, and there is a new one if a client came. *)
Lemma accept_return_ok base s i a fd w : accept_registers (K := K) → good base s → accepts s !! i = Some (Accepting a fd w) →
  ∃ s', accept_return i a fd s = Ret tt s' ∧ good base s' ∧ m_isStop s' = m_isStop s ∧ m_socks s' = m_socks s
  ∧ accepts s' = <[i := AcceptTask a]> (accepts s)
  ∧ (∀ b z, sockets s !! b = Some z → sockets s' !! b = Some z) ∧ (∀ b z, sockets s' !! b = Some z → sockets s !! b = Some z ∨ m_isConnected z = true).
Proof using.
  intros Hreg G Hi. pose proof (task_live base s i _ a G Hi (bool_decide_eq_true_2 _ eq_refl)) as Ha. pose proof G as [L C Hnd].
  pose proof Ha as [x Hx]%elem_of_dom. unfold accept_return. rename w into wait.
  destruct (accept_on_ok _ (mkNet x (sys_ s)) fd Hreg (ledger_inv _ _ _ _ L Hx)) as (acc & w & E & Hacc & Hi' & Eo). cbn [obj] in Eo, Hacc.
  assert (on_socket a (accept_on fd) s = Ret acc (set_sys (system w) s)) as E1.
  { unfold on_socket. rewrite Hx, E. unfold put_socket. rewrite Eo, Z.eqb_refl, insert_id by done. by destruct s. }
  rewrite (bind_Ret _ _ _ _ _ E1). set (s1 := set_sys _ _) in *.
  assert (∀ fd', fd' ∈ connected_to acc → fd' ∉ net_open (sys_ s)) as Hnew.
  { intros fd' Hfd. destruct (Hacc fd' Hfd) as [_ Hn]. intros Ho. apply Hn. rewrite elem_of_union, elem_of_difference. destruct (decide (fd' ∈ own x)); tauto. }
  assert (ledger (list_to_set (connected_to acc) ∪ base) s1) as L1.
  { pose proof (ledger_put base _ s a x w L Hx Hi') as L1. unfold put_socket in L1. rewrite Eo, insert_id in L1 by done.
    destruct L1 as [M1 M2 M3 M4]; [set_solver|]. by constructor. }
  assert (counted_with [] s1) as C1 by (apply (counted_frame [] s); [by apply counted_nil|done|done]).
  assert (∀ s2, good base s2 → accepts s2 = accepts s → ∃ s', modify (λ s, set_accepts (<[i := AcceptTask a]> (accepts s)) s) s2 = Ret tt s'
    ∧ good base s' ∧ m_isStop s' = m_isStop s2 ∧ m_socks s' = m_socks s2 ∧ accepts s' = <[i := AcceptTask a]> (accepts s) ∧ sockets s' = sockets s2) as Hend.
  { intros s2 G2 Ea. eexists. split; [done|]. split_and!; [|done..|cbn; by rewrite Ea|done]. apply (good_insert base s2 i (Accepting a fd wait)); [done|by rewrite Ea|done]. }
  destruct acc as [y|].
  - destruct (Hacc (m_sockfd y)) as [Hy _]; [by left|]. pose proof (accept_on_connected _ _ _ _ E) as Hcy.
    assert (own y = list_to_set (connected_to (Some y))) as Eown by (unfold own; cbn; rewrite (proj2 (Z.eqb_neq _ _)) by lia; set_solver).
    rewrite <- Eown in L1. assert (own y ## net_open (sys_ s)) as Hyo by (rewrite Eown; set_solver).
    destruct (new_socket_ok base s1 y [] L1 C1) as (c & s2 & E2 & L2 & C2 & Es2 & Hc); [|intros b z Hb; pose proof (led_base _ _ L1 b z Hb); set_solver|lia|].
    { intros fd' Hfd Hb. apply (Hyo fd' Hfd). apply L. by left. }
    rewrite bind_assoc, (bind_Ret _ _ _ _ _ E2), bind_assoc, bind_gets, bind_assoc.
    destruct (on_socket_kept base s2 c (setRecvTimeout (m_readTimeout s2)) L2) as (v & s3 & E3 & L3 & F3 & D3); [apply C2; set_solver|intros h; apply keeps_setTimeout|].
    destruct (on_socket_still _ _ _ _ _ E3 (λ w r w', setTimeout_obj _ _ w r w')) as [k ->].
    rewrite (bind_Ret _ _ _ _ _ E3). rewrite bind_modify. subst s2.
    match goal with |- ∃ s', modify _ ?s4 = _ ∧ _ => destruct (Hend s4) as (s' & -> & G' & Q1 & Q2 & Q3 & Q4); [|done|exists s'; split_and!; try done] end.
    + split; [by destruct L3| |done]. pose proof (counted_frame _ _ _ C2 F3 D3) as C3. intros b. specialize (C3 b).
      rewrite referenced_spec in C3 |- *. cbn. clear -C3. set_solver.
    + intros b z Hb. rewrite Q4. cbn. rewrite lookup_insert_ne; [done|]. intros ->. apply Hc. by eapply elem_of_dom_2.
    + intros b z. rewrite Q4. cbn. intros [[_ <-]|[_ ?]]%lookup_insert_Some; [by right|by left].
  - rewrite bind_ret. destruct (Hend s1) as (s' & -> & G' & Q1 & Q2 & Q3 & Q4); [split; [by rewrite <- (union_empty_l_L base)|by apply counted_nil|done]|done|].
    exists s'. rewrite Q4. split_and!; try done. intros b z Hb. by left.
Qed.

Context (cancelAll : Z → K → K).
Hypothesis cancel_open : ∀ fd k, net_open (cancelAll fd k) = net_open k.
Lemma ledger_same base s s' : ledger base s → sockets s' = sockets s → net_open (sys_ s') = net_open (sys_ s) → ledger base s'.
Proof using. intros [L1 L2 L3 L4] E1 E2. constructor; rewrite ?E1, ?E2; auto. Qed.
Lemma wake_twice fd t : wake fd (wake fd t) = wake fd t.
Proof using. destruct t as [|a fd' []|]; try done. cbn. destruct (fd' =? fd) eqn:E; cbn; by rewrite ?E. Qed.
(** The calls on the descriptor are woken, and the socket has none. *)
Lemma cancel_and_close_ok base s a x : ledger base s → sockets s !! a = Some x → ∃ s', cancel_and_close cancelAll a s = Ret tt s' ∧ ledger base s'
  ∧ frame s s' ∧ dom (sockets s') = dom (sockets s) ∧ accepts s' = wake (m_sockfd x) <$> accepts s ∧ ∃ y, m_sockfd y = -1 ∧ sockets s' = <[a := y]> (sockets s).
Proof using cancel_open.
  intros L Hx. pose proof (elem_of_dom_2 _ _ _ Hx) as Ha. unfold cancel_and_close.
  assert (on_socket a (let* s := gets obj in sys (λ k, (m_sockfd s, cancelAll (m_sockfd s) k))) s = Ret (m_sockfd x) (set_sys (cancelAll (m_sockfd x) (sys_ s)) s)) as E1.
  { unfold on_socket. rewrite Hx, bind_gets. unfold sys, put_socket, set_system. cbn. rewrite Z.eqb_refl, insert_id by done. by destruct s. }
  rewrite (bind_Ret _ _ _ _ _ E1), bind_modify. set (s1 := set_accepts _ _).
  assert (ledger base s1) as L1 by (apply (ledger_same base s); [done|done|apply cancel_open]).
  assert (frame s s1) as F1 by (split_and!; try done; apply woken_wake).
  destruct (on_socket_keeps base s1 a close (λ _ x, m_sockfd x = -1) L1 Ha) as (b & s2 & E2 & L2 & F2 & D2 & y & Hy & Hn).
  { intros h w Hw. destruct (close_closes h w Hw) as (b & w' & E & R). by exists b, w'. }
  rewrite (bind_Ret _ _ _ _ _ E2). exists s2. split_and!; [done|done|by apply (frame_trans s s1)|done|..].
  - apply on_socket_inv in E2 as (x' & w & Hx' & _ & ->). assert (x' = x) as -> by (cbn in Hx'; congruence). cbn. destruct (_ =? _); [done|].
    rewrite <- list_fmap_compose. apply list_fmap_ext. intros i t _. apply wake_twice.
  - apply on_socket_inv in E2 as (x' & w & _ & _ & ->). exists y. split; [done|]. cbn in Hy |- *. rewrite lookup_insert_eq in Hy. by injection Hy as ->.
Qed.

(** ** Who waits *)
(** A held call waits on the descriptor of a socket in [l]; one that was cancelled
    tries a descriptor that no socket has but one in [l] or a connection. *)
Definition waits_for (l : list nat) s (t : task) : Prop :=
  match t with
  | Accepting _ fd Blocked => Exists (λ b, m_sockfd <$> sockets s !! b = Some fd) l
  | Accepting _ fd Cancelled => map_Forall (λ b x, m_sockfd x = fd → fd ≠ -1 → m_isConnected x = false → b ∈ l) (sockets s)
  | _ => True
  end.
#[global] Instance waits_for_decision l s t : Decision (waits_for l s t).
Proof using. destruct t as [|a fd []|]; apply _. Defined.
Definition waits_on (l : list nat) s : Prop := Forall (waits_for l s) (accepts s).

Lemma waits_for_mono l s s' t : (∀ b x, b ∈ l → sockets s !! b = Some x → sockets s' !! b = Some x) →
  (∀ b z, sockets s' !! b = Some z → sockets s !! b = Some z ∨ m_isConnected z = true) → waits_for l s t → waits_for l s' t.
Proof using.
  intros H1 H2. destruct t as [|a fd []|]; try done; cbn.
  - rewrite !Exists_exists. intros (b & Hb & (x & Hx & Hs)%fmap_Some). exists b. split; [done|]. rewrite (H1 b x Hb Hx). by rewrite Hs.
  - intros Hf b x Hx E Hne Hc. destruct (H2 b x Hx) as [Hx'|]; [|congruence]. by apply (Hf b x).
Qed.
Lemma waits_nothing s : waits_on [] s → ∀ s', woken (accepts s) (accepts s') → accepts s' = accepts s.
Proof using.
  unfold waits_on. intros Hw s'. generalize (accepts s'). induction Hw as [|t l Ht _ IH]; intros l' Hl; inversion Hl as [|? t' ? q Hx Hq]; [done|]. subst.
  rewrite (IH q Hq). destruct Hx as [->|(a & fd & -> & _)]; [done|]. by apply Exists_nil in Ht.
Qed.
(** Cancelling and closing one of [a :: l] leaves those of [l] to wait on. *)
Lemma waits_close base s s' a x y l : ledger base s → sockets s !! a = Some x → a ∉ l → m_sockfd y = -1 → sockets s' = <[a := y]> (sockets s) →
  accepts s' = wake (m_sockfd x) <$> accepts s → waits_on (a :: l) s → waits_on l s'.
Proof using.
  clear cancel_open cancelAll. intros L Hx Ha Hy Es Ea Hw. unfold waits_on. rewrite Ea, Forall_fmap. eapply Forall_impl; [exact Hw|]. clear Hw. intros t.
  assert (∀ fd, map_Forall (λ b x, m_sockfd x = fd → fd ≠ -1 → m_isConnected x = false → b ∈ a :: l) (sockets s) →
    map_Forall (λ b x, m_sockfd x = fd → fd ≠ -1 → m_isConnected x = false → b ∈ l) (sockets s')) as Hc.
  { intros fd Hf b z Hb E Hne Hc. rewrite Es in Hb. apply lookup_insert_Some in Hb as [[<- <-]|[Hab Hb]]; [congruence|].
    destruct (proj1 (elem_of_cons _ _ _) (Hf b z Hb E Hne Hc)) as [->|?]; done. }
  destruct t as [|c fd []|]; try done; cbn; [|by apply Hc]. destruct (Z.eqb_spec fd (m_sockfd x)) as [->|Hne]; cbn.
  - intros _. apply Hc. intros b z Hb E Hne _. destruct (decide (a = b)) as [<-|Hab]; [by left|]. destruct (led_apart _ _ L a b x z Hx Hb Hab (m_sockfd x)).
    + unfold own. rewrite (proj2 (Z.eqb_neq _ _) Hne). set_solver.
    + unfold own. rewrite E, (proj2 (Z.eqb_neq _ _) Hne). set_solver.
  - rewrite !Exists_exists. intros (b & [->|Hb]%elem_of_cons & E); [rewrite Hx in E; cbn in E; congruence|]. exists b. split; [done|].
    rewrite Es, lookup_insert_ne; [done|]. by intros <-.
Qed.
Lemma for_cancel_ok base l : ∀ s, ledger base s → NoDup l → (∀ a, a ∈ l → a ∈ dom (sockets s)) →
  ∃ s', for_socks (cancel_and_close cancelAll) l s = Ret tt s' ∧ ledger base s' ∧ frame s s' ∧ dom (sockets s') = dom (sockets s) ∧ (waits_on l s → waits_on [] s').
Proof using cancel_open.
  induction l as [|a l IH]; intros s L Hnd Hl; cbn [for_socks]; [by exists s|]. apply NoDup_cons in Hnd as [Ha Hnd].
  pose proof (Hl a ltac:(by left)) as [x Hx]%elem_of_dom. destruct (cancel_and_close_ok base s a x L Hx) as (s1 & E1 & L1 & F1 & D1 & Ea & y & Hy & Es).
  rewrite (bind_Ret _ _ _ _ _ E1). destruct (IH s1 L1 Hnd) as (s2 & E2 & L2 & F2 & D2 & W2); [intros b Hb; rewrite D1; apply Hl; by right|].
  exists s2. split_and!; [done|done|by apply (frame_trans s s1)|by rewrite D2|]. intros Hw. by apply W2, (waits_close base s s1 a x y l).
Qed.
Lemma for_close_ok base l : ∀ s, good base s → (∀ a, a ∈ l → a ∈ dom (sockets s)) →
  ∃ s', for_socks (λ a, let* _ := on_socket a close in ret tt) l s = Ret tt s' ∧ good base s' ∧ frame s s'.
Proof using.
  induction l as [|a l IH]; intros s G Hl; cbn [for_socks]; [by exists s|]. pose proof G as [L C Hnd].
  destruct (on_socket_kept base s a close L) as (b & s1 & E1 & L1 & F1 & D1); [apply Hl; by left|intros h; apply keeps_close|]. rewrite bind_assoc, (bind_Ret _ _ _ _ _ E1), bind_ret.
  destruct (IH s1) as (s2 & E2 & G2 & F2); [by apply (good_frame base s)|intros c Hc; rewrite D1; apply Hl; by right|].
  exists s2. split_and!; [done|done|by apply (frame_trans s s1)].
Qed.
Lemma stop_turn_ok base s i : good base s → accepts s !! i = Some StopTask →
  ∃ s', stop_turn cancelAll i s = Ret tt s' ∧ good base s' ∧ m_isStop s' = m_isStop s ∧ m_socks s' = [] ∧ woken (delete i (accepts s)) (accepts s')
  ∧ clients s' = clients s ∧ (waits_on (m_socks s) s → waits_on [] s').
Proof using cancel_open.
  intros G Hi. unfold stop_turn. rewrite bind_modify, bind_gets. set (s1 := set_accepts _ s).
  assert (good base s1) as G1.
  { apply (good_step base s); try done. intros a. apply eq_iff_eq_true. rewrite !referenced_spec. cbn. rewrite (exists_delete _ (accepts s) _ _ Hi). cbn. intuition discriminate. }
  destruct (for_cancel_ok base (m_socks s1) s1) as (s2 & E2 & L2 & F2 & D2 & W2); [by destruct G1|by destruct G1|intros a; by apply (good_live base)|].
  pose proof (good_frame base s1 s2 G1 L2 F2 D2) as G2. pose proof F2 as (F21 & F22 & F23 & F24).
  rewrite (bind_Ret _ _ _ _ _ E2). destruct (clear_socks_ok base s2 G2) as (s3 & E3 & G3 & Q1 & Q2 & Q3 & Q4 & Q5).
  exists s3. split_and!; [done|done|by rewrite Q2|done|by apply (woken_trans _ (accepts s2))|by rewrite Q4|].
  intros Hw. assert (waits_on [] s2) as W.
  { apply W2. unfold waits_on in *. cbn. rewrite Forall_forall in Hw |- *. intros t Ht. apply (waits_for_mono _ s); [done|by left|]. apply Hw.
    by eapply sublist_subseteq, Ht; apply sublist_delete. }
  unfold waits_on. rewrite (waits_nothing s2 W s3 Q3). eapply Forall_impl; [exact W|]. intros t. apply waits_for_mono; [by intros b x ?%elem_of_nil|].
  intros b z Hb. left. by apply Q5.
Qed.
Lemma destroy_server_ok base s : good base s → ∃ s', destroy_server s = Ret tt s' ∧ good base s' ∧ m_socks s' = [] ∧ woken (accepts s) (accepts s') ∧ clients s' = clients s.
Proof using.
  intros G. unfold destroy_server. rewrite bind_gets.
  destruct (for_close_ok base (m_socks s) s G) as (s2 & E2 & G2 & F1 & F2 & F3 & F4); [by intros a; apply (good_live base)|].
  rewrite (bind_Ret _ _ _ _ _ E2). destruct (clear_socks_ok base s2 G2) as (s3 & E3 & G3 & Q1 & Q2 & Q3 & Q4 & _). exists s3.
  split_and!; [done|done|done|by apply (woken_trans _ (accepts s2))|by rewrite Q4].
Qed.

(** ** Histories *)
(** What is done with a server: calls, turns of its tasks, the end of a wait in
    [accept], and what the clients' tasks do with their sockets, besides accepting. *)
Inductive server_op :=
  | DoBind (addrs fails : list Address) | DoStart | DoStop | DoTurn (i : nat) | DoArrive (i : nat) | DoUse (i : nat) (o : op) | DoClientDone (i : nat).
Definition is_accept (o : op) : bool := match o with OAccept => true | _ => false end.
Definition use_client (host : Z) (i : nat) (o : op) : ST (server K) unit :=
  let* s := gets id in
  match clients s !! i with
  | Some c => if is_accept o then ret tt else let* _ := on_socket c (exec host o) in ret tt
  | None => ret tt
  end.
Definition step_server (host SOMAXCONN : Z) (o : server_op) : ST (server K) unit :=
  match o with
  | DoBind addrs fails => let* _ := bind_addrs host SOMAXCONN addrs fails in ret tt
  | DoStart => let* _ := start in ret tt
  | DoStop => stop
  | DoTurn i => turn cancelAll i
  | DoArrive i => arrive i
  | DoUse i o => use_client host i o
  | DoClientDone i => client_done i
  end.
Fixpoint run_server (host SOMAXCONN : Z) (ops : list server_op) : ST (server K) unit :=
  match ops with [] => ret tt | o :: ops => step_server host SOMAXCONN o ;;; run_server host SOMAXCONN ops end.

Lemma turn_ok base s i : accept_registers (K := K) → good base s → ∃ s', turn cancelAll i s = Ret tt s' ∧ good base s' ∧ m_isStop s' = m_isStop s.
Proof using cancel_open.
  intros Hreg G. unfold turn. rewrite bind_gets. unfold id. destruct (accepts s !! i) as [[a|a fd w|]|] eqn:Hi.
  - destruct (accept_call_ok base s i a G Hi) as (s' & R). by exists s'.
  - destruct (accept_return_ok base s i a fd w Hreg G Hi) as (s' & E & G' & Q & _). destruct w; [by exists s|by exists s'|].
    destruct (taken fd s); [|by exists s']. eexists. split; [done|]. split; [|done]. by apply (good_insert base s i _ _ G Hi).
  - destruct (stop_turn_ok base s i G Hi) as (s' & E & G' & Q & _). by exists s'.
  - by exists s.
Qed.
Lemma use_client_ok base s host i o : good base s → ∃ s', use_client host i o s = Ret tt s' ∧ good base s'.
Proof using.
  intros G. unfold use_client. rewrite bind_gets. unfold id. destruct (clients s !! i) as [c|] eqn:Hi; [|by exists s].
  destruct (is_accept o) eqn:Eo; [by exists s|]. pose proof G as [L C Hnd].
  destruct (on_socket_kept base s c (exec host o) L) as (v & s1 & E & L1 & F1 & D1).
  - apply C, referenced_spec. right. right. by eapply list_elem_of_lookup_2.
  - intros h. apply exec_keeps. by intros ->.
  - rewrite (bind_Ret _ _ _ _ _ E). exists s1. split; [done|]. pose proof F1 as (Q & _). split; [done| |by rewrite Q].
    apply counted_nil, (counted_frame [] s); [by apply counted_nil|done|done].
Qed.
Lemma step_server_ok base s host SOMAXCONN o : accept_registers (K := K) → good base s → ∃ s', step_server host SOMAXCONN o s = Ret tt s' ∧ good base s'.
Proof using cancel_open.
  intros Hreg G. destruct o as [addrs fails| | |i|i|i o|i]; cbn [step_server].
  - destruct (bind_addrs_ok host SOMAXCONN base addrs s fails G) as (ok & failed & s' & E & G' & _). rewrite (bind_Ret _ _ _ _ _ E). by exists s'.
  - destruct (start_ok base s G) as (s' & E & G' & _). rewrite (bind_Ret _ _ _ _ _ E). by exists s'.
  - destruct (stop_ok base s G) as (s' & E & G' & _). by exists s'.
  - destruct (turn_ok base s i Hreg G) as (s' & E & G' & _). by exists s'.
  - by apply arrive_ok.
  - by apply use_client_ok.
  - by apply client_done_ok.
Qed.
Lemma run_server_ok base host SOMAXCONN ops : accept_registers (K := K) → ∀ s, good base s → ∃ s', run_server host SOMAXCONN ops s = Ret tt s' ∧ good base s'.
Proof using cancel_open.
  intros Hreg. induction ops as [|o ops IH]; intros s G; cbn [run_server]; [by exists s|].
  destruct (step_server_ok base s host SOMAXCONN o Hreg G) as (s1 & E & G1). rewrite (bind_Ret _ _ _ _ _ E). by apply IH.
Qed.
Lemma good_new rt (k : K) : good (net_open k) (TcpServer_new rt k).
Proof using.
  clear cancel_open cancelAll. split; [|intros a; rewrite referenced_spec; cbn; rewrite dom_empty_L, Exists_nil; set_solver|constructor].
  constructor; cbn; [|done..]. intros fd. split; [by left|]. by intros [?|(a & x & ? & _)].
Qed.


(** ** Stopping *)
(** What may happen while the tasks end: one that can run takes a turn, the [n]-th
    of them counted round, or a call ends with a client or an error. *)
Inductive moment := TakesTurn (n : nat) | Arrives (i : nat).
Definition runnable (t : task) : bool := match t with Accepting _ _ Blocked => false | _ => true end.
Definition runnable_tasks (s : server K) : list nat :=
  base.filter (λ i, runnable <$> accepts s !! i = Some true) (seq 0 (length (accepts s))).
Definition happens (m : moment) : ST (server K) unit :=
  let* s := gets id in
  match m with
  | TakesTurn n => match runnable_tasks s !! (n mod length (runnable_tasks s))%nat with Some i => turn cancelAll i | None => ret tt end
  | Arrives i => arrive i
  end.
Fixpoint moments (l : list moment) : ST (server K) unit :=
  match l with [] => ret tt | m :: l => happens m ;;; moments l end.
Definition turns_in (l : list moment) : nat := list_sum ((λ m, match m with TakesTurn _ => 1%nat | Arrives _ => 0%nat end) <$> l).

(** The turns that a task may still need, once the sockets are closed or before. *)
Definition task_left (closed : bool) (t : task) : nat :=
  match t with
  | AcceptTask _ | StopTask => 1
  | Accepting _ _ Ends => 2
  | Accepting _ _ Blocked => 3
  | Accepting _ _ Cancelled => if closed then 2 else 4
  end.
Definition left_over (s : server K) : nat := list_sum (task_left (bool_decide (m_socks s = [])) <$> accepts s).
(** A server that is stopped: the task of [stop] is to come, or has run. *)
Record stopping (base : gset Z) s : Prop := {
  st_good : good base s; st_flag : m_isStop s = true;
  st_task : StopTask ∈ accepts s ∨ m_socks s = []; st_waits : waits_on (m_socks s) s
}.
Lemma stop_stays (l : list task) i t : l !! i = Some t → t ≠ StopTask → StopTask ∈ l → StopTask ∈ delete i l.
Proof using.
  clear cancel_open cancelAll. intros Hi Ht. rewrite <- (take_drop_middle l i t Hi) at 1. rewrite delete_take_drop, !elem_of_app, elem_of_cons. intuition congruence.
Qed.
Lemma stop_stays_insert (l : list task) i t t' : l !! i = Some t → t ≠ StopTask → StopTask ∈ l → StopTask ∈ <[i := t']> l.
Proof using.
  clear cancel_open cancelAll. intros Hi Ht Hs. apply (stop_stays _ _ _ Hi Ht) in Hs. rewrite insert_take_drop by by eapply lookup_lt_Some.
  rewrite delete_take_drop in Hs. set_solver.
Qed.
Lemma woken_left b l l' : woken l l' → (list_sum (task_left true <$> l') ≤ list_sum (task_left b <$> l))%nat.
Proof using.
  clear cancel_open cancelAll. unfold list_sum. induction 1 as [|t t' l l' Ht _ IH]; [done|]. rewrite !fmap_cons. cbn [fold_right].
  assert (task_left true t' ≤ task_left b t)%nat; [|lia]. destruct Ht as [->|(a & fd & -> & ->)]; [|cbn; lia]. destruct t as [|a fd []|], b; cbn; lia.
Qed.
(** A release at the end of a loop wakes no call that waits on one of the server's sockets. *)
Lemma release_waits base s s' a x : ledger base s → sockets s !! a = Some x → a ∉ m_socks s → m_sockfd x ≠ -1 → waits_on (m_socks s) s →
  ∀ l, l ⊆ accepts s → wake (m_sockfd x) <$> l = l.
Proof using.
  clear cancel_open cancelAll. intros L Hx Ha Hne Hw l Hl. unfold waits_on in Hw. rewrite Forall_forall in Hw. induction l as [|t l IH]; [done|]. rewrite fmap_cons, IH by set_solver. f_equal.
  specialize (Hw t (Hl t ltac:(by left))). destruct t as [|c fd []|]; try done. cbn in Hw |- *. destruct (Z.eqb_spec fd (m_sockfd x)) as [->|]; [|done].
  apply Exists_exists in Hw as (b & Hb & (y & Hy & E)%fmap_Some). destruct (decide (a = b)) as [<-|Hab]; [done|]. destruct (led_apart _ _ L a b x y Hx Hy Hab (m_sockfd x)).
  - unfold own. rewrite (proj2 (Z.eqb_neq _ _) Hne). set_solver.
  - unfold own. rewrite <- E, (proj2 (Z.eqb_neq _ _) Hne). set_solver.
Qed.
Lemma destroy_no_fd w w' : destroy w = Ret tt w' → m_sockfd (obj w) = -1 → m_sockfd (obj w') = -1.
Proof using.
  unfold destroy, close. intros E Hfd. rewrite bind_assoc, bind_gets, Hfd in E. destruct (_ && _); revert E; [by intros [= <-]|]. by intros [= <-].
Qed.
Lemma release_accepts a s s' : release a s = Ret tt s' → accepts s' = accepts s ∨
  ∃ x, sockets s !! a = Some x ∧ referenced a s = false ∧ m_sockfd x ≠ -1 ∧ accepts s' = wake (m_sockfd x) <$> accepts s.
Proof using.
  unfold release. rewrite bind_gets. unfold id. destruct (referenced a s); [by intros [= <-]; left|]. unfold bind.
  destruct (on_socket a destroy s) as [[] s1| |] eqn:E; [|done..]. intros [= <-]. apply on_socket_inv in E as (x & w & Hx & E & ->). cbn.
  destruct (Z.eqb_spec (m_sockfd x) (m_sockfd (obj w))) as [|Hne]; [by left|]. right. exists x. split_and!; try done. intros Hfd. apply Hne.
  by rewrite Hfd, (destroy_no_fd _ _ E Hfd).
Qed.
Lemma stopping_step base s s' : stopping base s → good base s' → m_isStop s' = m_isStop s → m_socks s' = m_socks s →
  (StopTask ∈ accepts s → StopTask ∈ accepts s') → (∀ t, t ∈ accepts s' → t ∈ accepts s ∨ waits_for (m_socks s) s t) →
  (∀ b x, b ∈ m_socks s → sockets s !! b = Some x → sockets s' !! b = Some x) →
  (∀ b z, sockets s' !! b = Some z → sockets s !! b = Some z ∨ m_isConnected z = true) → stopping base s'.
Proof using.
  intros [G Hf Ht Hw] G' E1 E2 Hs Hold H1 H2. constructor; rewrite ?E1, ?E2; [done|done|by destruct Ht; auto|]. unfold waits_on in *. rewrite Forall_forall in Hw |- *. intros t Hin.
  apply (waits_for_mono _ s); [done|done|]. destruct (Hold t Hin); auto.
Qed.
Lemma in_insert {A} (l : list A) (i : nat) (x y : A) : y ∈ <[i := x]> l → y = x ∨ y ∈ l.
Proof using. clear. intros [j Hj]%list_elem_of_lookup_1. apply list_lookup_insert_Some in Hj as [(_ & -> & _)|[_ Hj]]; [by left|right; by eapply list_elem_of_lookup_2]. Qed.
Lemma in_delete {A} (l : list A) (i : nat) (y : A) : y ∈ delete i l → y ∈ l.
Proof using. clear. apply sublist_subseteq, sublist_delete. Qed.
Lemma call_progress base s i a : stopping base s → accepts s !! i = Some (AcceptTask a) →
  ∃ s', accept_call i a s = Ret tt s' ∧ stopping base s' ∧ (left_over s' < left_over s)%nat.
Proof using.
  clear cancel_open cancelAll. intros S Hi. pose proof S as [G Hf _ Hw]. unfold accept_call. rewrite bind_gets. unfold id. rewrite Hf, bind_modify. set (s1 := set_accepts _ s).
  destruct (drop_ref_ok base s s1 a G) as (s' & E & G' & (F1 & F2 & F3 & F4) & R1 & R2); [done..| |].
  { intros b. rewrite !referenced_spec. cbn. rewrite (exists_delete _ _ _ _ Hi). cbn. rewrite bool_decide_eq_true. tauto. }
  assert (accepts s' = delete i (accepts s)) as Ea.
  { destruct (release_accepts a s1 s' E) as [->|(x & Hx & Hr & Hne & ->)]; [done|]. apply (release_waits base s s1 a x); [by destruct G|done| |done..|].
    - intros Ha. revert Hr. unfold referenced. rewrite bool_decide_true by done. done.
    - intros t. apply in_delete. }
  exists s'. split; [done|]. split.
  - apply (stopping_step base s s' S G' F2 F1); rewrite ?Ea.
    + by apply (stop_stays _ _ _ Hi).
    + intros t Ht. left. by eapply in_delete.
    + intros b x Hb Hx. rewrite R1; [done|]. apply referenced_spec. by left.
    + intros b z Hb. left. by apply R2.
  - unfold left_over. rewrite Ea, F1. cbn [m_socks s1 set_accepts]. rewrite (sum_delete (task_left _) _ _ _ Hi). cbn [task_left]. lia.
Qed.
Lemma return_progress base s i a fd w : accept_registers (K := K) → stopping base s → accepts s !! i = Some (Accepting a fd w) → w ≠ Blocked →
  ∃ s', accept_return i a fd s = Ret tt s' ∧ stopping base s' ∧ (left_over s' < left_over s)%nat.
Proof using.
  clear cancel_open cancelAll. intros Hreg S Hi Hne. pose proof S as [G Hf _ Hw]. destruct (accept_return_ok base s i a fd w Hreg G Hi) as (s' & E & G' & Q1 & Q2 & Q3 & Q4 & Q5).
  exists s'. split; [done|]. split.
  - apply (stopping_step base s s' S G' Q1 Q2); rewrite ?Q3; [by apply (stop_stays_insert _ _ _ _ Hi)| |auto..].
    intros t [->|?]%in_insert; [by right|by left].
  - unfold left_over. rewrite Q2, Q3, (sum_delete (task_left _) _ _ _ Hi), (sum_insert (task_left _) _ _ _ _ Hi). destruct w, (bool_decide _); cbn [task_left]; lia || done.
Qed.
Lemma wait_progress base s i a fd : stopping base s → accepts s !! i = Some (Accepting a fd Cancelled) → taken fd s = true →
  let s' := set_accepts (<[i := Accepting a fd Blocked]> (accepts s)) s in stopping base s' ∧ (left_over s' < left_over s)%nat.
Proof using.
  clear cancel_open cancelAll. intros S Hi (b & x & Hx & Hfd & Hne & Hc)%bool_decide_eq_true s'. pose proof S as [G _ _ Hw].
  assert (b ∈ m_socks s) as Hb.
  { unfold waits_on in Hw. rewrite Forall_lookup in Hw. by apply (Hw i _ Hi b x). }
  split.
  - apply (stopping_step base s s' S); [by apply (good_insert base s i _ _ G Hi)|done|done|by apply (stop_stays_insert _ _ _ _ Hi)| |done|by left].
    intros t [->|?]%in_insert; [right|by left]. cbn. apply Exists_exists. exists b. split; [done|]. rewrite Hx. cbn. congruence.
  - unfold left_over, s'. cbn. rewrite (sum_delete (task_left _) _ _ _ Hi), (sum_insert (task_left _) _ _ _ _ Hi).
    rewrite bool_decide_false by (intros E; rewrite E in Hb; by apply elem_of_nil in Hb). cbn [task_left]. lia.
Qed.
Lemma close_progress base s i : stopping base s → accepts s !! i = Some StopTask →
  ∃ s', stop_turn cancelAll i s = Ret tt s' ∧ stopping base s' ∧ (left_over s' < left_over s)%nat.
Proof using cancel_open.
  intros S Hi. pose proof S as [G Hf _ Hw]. destruct (stop_turn_ok base s i G Hi) as (s' & E & G' & Q1 & Q2 & Q3 & Q4 & Q5). exists s'. split; [done|]. split.
  - constructor; [done|by rewrite Q1|by right|]. rewrite Q2. by apply Q5.
  - unfold left_over. rewrite Q2, bool_decide_true by done. pose proof (woken_left (bool_decide (m_socks s = [])) _ _ Q3).
    rewrite (sum_delete (task_left _) _ _ _ Hi). cbn [task_left]. lia.
Qed.
Lemma arrive_progress base s i : stopping base s → ∃ s', arrive i s = Ret tt s' ∧ stopping base s' ∧ (left_over s' ≤ left_over s)%nat.
Proof using.
  clear cancel_open cancelAll. intros S. pose proof S as [G _ _ _]. destruct (arrive_ok base s i G) as (s' & E & G'). exists s'. split; [done|]. revert E. unfold arrive. rewrite bind_gets. unfold id.
  destruct (accepts s !! i) as [[b|b fd []|]|] eqn:Hi; intros [= <-]; try done. split.
  - apply (stopping_step base s _ S G'); [done|done|by apply (stop_stays_insert _ _ _ _ Hi)| |done|by left]. intros t [->|?]%in_insert; [by right|by left].
  - unfold left_over. cbn. rewrite (sum_delete (task_left _) _ _ _ Hi), (sum_insert (task_left _) _ _ _ _ Hi). cbn [task_left]. lia.
Qed.
Lemma turn_progress base s i t : accept_registers (K := K) → stopping base s → accepts s !! i = Some t → runnable t = true →
  ∃ s', turn cancelAll i s = Ret tt s' ∧ stopping base s' ∧ (left_over s' < left_over s)%nat.
Proof using cancel_open.
  intros Hreg S Hi Hr. unfold turn. rewrite bind_gets. unfold id. rewrite Hi. destruct t as [a|a fd []|]; try done.
  - by apply call_progress.
  - by apply (return_progress _ _ _ _ _ Ends).
  - destruct (taken fd s) eqn:Et; [|by apply (return_progress _ _ _ _ _ Cancelled)]. eexists. split; [done|]. by apply wait_progress.
  - by apply close_progress.
Qed.
Lemma runnable_tasks_spec s i : i ∈ runnable_tasks s ↔ ∃ t, accepts s !! i = Some t ∧ runnable t = true.
Proof using.
  clear cancel_open cancelAll. unfold runnable_tasks. rewrite list_elem_of_filter, elem_of_seq. split.
  - intros [(t & Ht & E)%fmap_Some _]. by exists t.
  - intros (t & Ht & E). rewrite Ht. cbn. rewrite E. split; [done|]. apply lookup_lt_Some in Ht. lia.
Qed.
(** While a task is left, one can run. *)
Lemma never_stuck base s : stopping base s → accepts s ≠ [] → runnable_tasks s ≠ [].
Proof using.
  clear cancel_open cancelAll. intros [G _ Ht Hw] Hne. assert (∃ i t, accepts s !! i = Some t ∧ runnable t = true) as (i & t & R).
  { destruct Ht as [[i Hi]%list_elem_of_lookup_1|Hs]; [by exists i, StopTask|]. destruct (accepts s) as [|t l] eqn:Ea; [done|]. exists 0%nat, t. split; [done|].
    unfold waits_on in Hw. rewrite Ea, Hs in Hw. apply Forall_cons in Hw as [Hw _]. destruct t as [|a fd []|]; try done. by apply Exists_nil in Hw. }
  intros E. assert (i ∈ runnable_tasks s) as Hi by (apply runnable_tasks_spec; by exists t). rewrite E in Hi. by apply elem_of_nil in Hi.
Qed.
Lemma moments_drain base l : accept_registers (K := K) → ∀ s, stopping base s → (left_over s ≤ turns_in l)%nat →
  ∃ s', moments l s = Ret tt s' ∧ stopping base s' ∧ accepts s' = [].
Proof using cancel_open.
  intros Hreg. induction l as [|m l IH]; intros s S Hl; cbn [moments].
  - exists s. split_and!; [done..|]. unfold left_over in Hl. destruct (accepts s) as [|t q]; [done|]. rewrite fmap_cons in Hl. unfold list_sum in Hl. cbn in Hl.
    destruct t as [|a fd []|]; cbn in Hl; try lia. destruct (bool_decide _); lia.
  - assert (turns_in (m :: l) = (match m with TakesTurn _ => 1 | Arrives _ => 0 end + turns_in l)%nat) as E by done. rewrite E in Hl. clear E.
    unfold happens. rewrite bind_assoc, bind_gets. unfold id. destruct m as [n|i].
    + destruct (runnable_tasks s !! (n mod length (runnable_tasks s))%nat) as [i|] eqn:Ei.
      * apply list_elem_of_lookup_2, runnable_tasks_spec in Ei as (t & Hi & Hr). destruct (turn_progress base s i t Hreg S Hi Hr) as (s1 & E & S1 & Hlt).
        rewrite (bind_Ret _ _ _ _ _ E). apply IH; [done|]. cbn in Hl. lia.
      * rewrite bind_ret. apply IH; [done|]. assert (accepts s = []) as Ea; [|unfold left_over; rewrite Ea; cbn; lia].
        destruct (decide (accepts s = [])) as [|Hne]; [done|]. pose proof (never_stuck base s S Hne) as Hr. apply lookup_ge_None in Ei.
        pose proof (Nat.mod_upper_bound n (length (runnable_tasks s))) as Hm. destruct (runnable_tasks s); [done|]. cbn in *. specialize (Hm ltac:(lia)). lia.
    + destruct (arrive_progress base s i S) as (s1 & E & S1 & Hle). rewrite (bind_Ret _ _ _ _ _ E). apply IH; [done|]. cbn in Hl. lia.
Qed.
Lemma left_bound s : (left_over s ≤ 4 * length (accepts s))%nat.
Proof using.
  clear cancel_open cancelAll. unfold left_over. generalize (bool_decide (m_socks s = [])). intros b. induction (accepts s) as [|t q IH]; [done|]. rewrite fmap_cons. unfold list_sum in *. cbn [fold_right length] in *.
  assert (task_left b t ≤ 4)%nat by (destruct t as [|a fd []|], b; cbn; lia). lia.
Qed.
(** C25: Stopping a server ends it.  After any history in which the calls of
    [accept] that wait do so on the server's sockets - not on one that a failed
    [bind] has dropped, nor on a descriptor that was closed under them and belongs
    to another socket by then - [stop] is called, and from then on the tasks take
    turns in any order, only those that are not held inside [accept], while clients
    may arrive or not.  As long as a task is left, one can run, and after four
    turns for each task none is left: no loop stays in [accept], no listening
    socket is left, and the open descriptors are those that were open before and
    those of clients that are still being served. *)
Theorem stop_ends host SOMAXCONN ops rt (k : K) s1 : accept_registers →
  run_server host SOMAXCONN ops (TcpServer_new rt k) = Ret tt s1 → waits_on (m_socks s1) s1 →
  ∃ s, stop s1 = Ret tt s
  ∧ ∀ l, (4 * length (accepts s) ≤ turns_in l)%nat →
    ∃ s', moments l s = Ret tt s' ∧ accepts s' = [] ∧ m_socks s' = []
    ∧ ∀ fd, fd ∈ net_open (sys_ s') ↔ fd ∈ net_open k ∨ ∃ c x, c ∈ clients s' ∧ sockets s' !! c = Some x ∧ m_sockfd x = fd ∧ fd ≠ -1.
Proof using cancel_open.
  intros Hreg Er Hw. destruct (run_server_ok (net_open k) host SOMAXCONN ops Hreg _ (good_new rt k)) as (s1' & E1 & G1). rewrite Er in E1. injection E1 as <-.
  destruct (stop_ok _ s1 G1) as (s & E & G & Q1 & Q2 & Q3). exists s. split; [done|]. intros l Hl.
  assert (stopping (net_open k) s) as S.
  { injection E as <-. constructor; [done|done|left; cbn; set_solver|]. apply Forall_app. by split; [|repeat constructor]. }
  destruct (moments_drain _ l Hreg s S) as (s' & E' & [[L C _] _ Hsock _] & Ha); [pose proof (left_bound s); lia|]. exists s'.
  assert (m_socks s' = []) as Hs by (destruct Hsock as [Hx|]; [rewrite Ha in Hx; by apply elem_of_nil in Hx|done]). split_and!; try done.
  intros fd. rewrite (led_open _ _ L). f_equiv. split.
  - intros (a & x & Hx & Hfd). assert (a ∈ dom (sockets s')) as Hd%C by by eapply elem_of_dom_2. rewrite referenced_spec, Hs, Ha, Exists_nil in Hd.
    exists a, x. unfold own in Hfd. destruct (Z.eqb_spec (m_sockfd x) (-1)); set_solver.
  - intros (a & x & _ & Hx & <- & Hfd). exists a, x. split; [done|]. unfold own. rewrite (proj2 (Z.eqb_neq _ _) Hfd). set_solver.
Qed.
End ledger.

(** ** Bound and listening sockets *)
Section serves.
Context {K : Type} `{NetServes K} (host SOMAXCONN : Z).
Implicit Types (s : server K) (a : nat) (base : gset Z).

(** The socket [a] of the server is bound to [addr] and listens. *)
Definition bound_at (m : gmap nat Socket) (k : K) (addr : Address) (a : nat) : Prop :=
  ∃ x, m !! a = Some x ∧ m_sockfd x ≠ -1 ∧ net_serves (m_sockfd x) k = (Some addr, true).
(** The descriptors of others and the sockets of the server serve as before. *)
Definition serves_on base s s' : Prop :=
  (∀ fd, fd ∈ base → net_serves fd (sys_ s') = net_serves fd (sys_ s))
  ∧ ∀ b x, b ∈ m_socks s → sockets s !! b = Some x →
    sockets s' !! b = Some x ∧ (m_sockfd x ≠ -1 → net_serves (m_sockfd x) (sys_ s') = net_serves (m_sockfd x) (sys_ s)).
Lemma serves_on_intro base s s' : good base s → (∀ fd, fd ∈ net_open (sys_ s) → net_serves fd (sys_ s') = net_serves fd (sys_ s)) →
  (∀ b x, b ∈ m_socks s → sockets s !! b = Some x → sockets s' !! b = Some x) → serves_on base s s'.
Proof using.
  intros [[L1 _ _ _] _ _] R1 R2. split; [intros fd Hfd; apply R1, L1; by left|]. intros b x Hb Hx. split; [by apply R2|]. intros Hne. apply R1, L1.
  right. exists b, x. split; [done|]. unfold own. rewrite (proj2 (Z.eqb_neq _ _) Hne). set_solver.
Qed.
Lemma serves_on_trans base s1 s2 s3 : (∀ b, b ∈ m_socks s1 → b ∈ m_socks s2) → serves_on base s1 s2 → serves_on base s2 s3 → serves_on base s1 s3.
Proof using.
  intros Hs [A1 A2] [B1 B2]. split; [intros fd Hfd; by rewrite B1, A1|]. intros b x Hb Hx. destruct (A2 b x Hb Hx) as [A3 A4], (B2 b x (Hs b Hb) A3) as [B3 B4].
  split; [done|]. intros Hne. by rewrite B4, A4.
Qed.
Lemma bound_at_on base s s' addr a : serves_on base s s' → a ∈ m_socks s → bound_at (sockets s) (sys_ s) addr a → bound_at (sockets s') (sys_ s') addr a.
Proof using. intros [_ S2] Ha (x & Hx & Hne & E). destruct (S2 a x Ha Hx) as [Hx' Hs]. exists x. split_and!; [done..|]. by rewrite Hs. Qed.
Lemma release_serves h s s' a y : sockets s !! a = Some y → SocketTheorems.inv h (mkNet y (sys_ s)) → release a s = Ret tt s' →
  (∀ fd, fd ∈ h → net_serves fd (sys_ s') = net_serves fd (sys_ s)) ∧ m_socks s' = m_socks s ∧ ∀ b, b ≠ a → sockets s' !! b = sockets s !! b.
Proof using.
  intros Hy Hi. unfold release. rewrite bind_gets. unfold id. destruct (referenced a s); [by intros [= <-]|]. unfold bind.
  destruct (on_socket a destroy s) as [[] s1| |] eqn:E; [|done..]. intros [= <-]. apply on_socket_inv in E as (x & w & Hx & E & ->). assert (x = y) as -> by congruence.
  cbn. split_and!; [|done|intros b Hb; by rewrite lookup_delete_ne, lookup_insert_ne]. intros fd Hfd. unfold destroy, bind in E.
  destruct (close _) as [v w'| |] eqn:Ec; [|done..]. injection E as <-. by apply (close_serves h _ _ _ Hi Ec).
Qed.
(** Giving up the new socket [a], whose object is the only one that [s1] has besides [s]. *)
Lemma give_up_serves base s s1 s' a y ok : good base s → a ∉ dom (sockets s) → sockets s1 !! a = Some y → m_socks s1 = m_socks s →
  (∀ b, b ≠ a → sockets s1 !! b = sockets s !! b) → (∀ fd, fd ∈ net_open (sys_ s) → net_serves fd (sys_ s1) = net_serves fd (sys_ s)) →
  SocketTheorems.inv (net_open (sys_ s)) (mkNet y (sys_ s1)) → (release a ;;; ret false) s1 = Ret ok s' →
  serves_on base s s' ∧ ok = false ∧ m_socks s' = m_socks s.
Proof using.
  intros G Ha Hy M1 B1 S1 I1. unfold bind. destruct (release a s1) as [[] s2| |] eqn:E; [|done..]. intros [= <- <-].
  destruct (release_serves _ s1 s2 a y Hy I1 E) as (S2 & M2 & B2). split; [|by rewrite M2]. apply (serves_on_intro _ _ _ G).
  - intros fd Hfd. by rewrite S2, S1.
  - intros b x Hb Hx. assert (b ≠ a) as Hne by (intros ->; by apply Ha, (good_live base)). by rewrite B2, B1.
Qed.
Lemma bind_one_serves base s addr ok s' : good base s → bind_one host SOMAXCONN addr s = Ret ok s' → serves_on base s s' ∧
  if ok : bool then ∃ a, m_socks s' = m_socks s ++ [a] ∧ bound_at (sockets s') (sys_ s') addr a else m_socks s' = m_socks s.
Proof using.
  intros G. unfold bind_one, new_socket. set (a := fresh (dom (sockets s))). assert (a ∉ dom (sockets s)) as Ha by apply is_fresh.
  unfold bind at 1. fold a. set (s1 := set_sockets _ s). set (h := net_open (sys_ s)).
  assert (∀ b, b ∈ m_socks s → b ≠ a) as Hab by (intros b Hb%(good_live base s) ->; [done|exact G]).
  assert (SocketTheorems.inv h (mkNet (CreateTCP host addr) (sys_ s1))) as Hi.
  { constructor; cbn; [by rewrite union_empty_l_L|intros E; by destruct E|discriminate]. }
  unfold bind at 1. destruct (on_socket a (bind_ host addr) s1) as [bound s2| |] eqn:E2; [|done..]. apply on_socket_inv in E2 as (x & w & Hx & Eb & ->).
  cbn in Hx. rewrite lookup_insert_eq in Hx. injection Hx as <-. destruct (bind_serves host h _ addr bound w Hi Eb) as [Sb Tb].
  assert (SocketTheorems.inv h w) as Hiw.
  { destruct (keeps_bind_op host h addr _ Hi) as (b & w' & E & Hw). rewrite Eb in E. by injection E as _ <-. }
  set (s2 := put_socket _ _ _ _). assert (sockets s2 !! a = Some (obj w)) as Hw by (cbn; by rewrite lookup_insert_eq).
  assert (∀ b, b ≠ a → sockets s2 !! b = sockets s !! b) as K2 by (intros b Hb; cbn; by rewrite !lookup_insert_ne).
  destruct bound; cbn [negb].
  2: { intros E. destruct (give_up_serves base s s2 s' a _ ok G Ha Hw eq_refl K2 Sb) as (R & -> & M); [by destruct w|done|done]. }
  destruct (Tb eq_refl) as [Hne Hbound]. unfold bind at 1. destruct (on_socket a (listen SOMAXCONN) s2) as [li s3| |] eqn:E3; [|done..].
  apply on_socket_inv in E3 as (x & w3 & Hx & El & ->). rewrite Hw in Hx. injection Hx as <-. change (sys_ s2) with (system w) in El.
  assert (mkNet (obj w) (system w) = w) as Ew by by destruct w. rewrite Ew in El.
  destruct (listen_serves h w SOMAXCONN li w3 Hiw El) as (Eo & Sl & Tl).
  assert (SocketTheorems.inv h w3) as Hi3.
  { destruct (keeps_listen h SOMAXCONN w Hiw) as (b & w' & E & Hw'). rewrite El in E. by injection E as _ <-. }
  set (s3 := put_socket _ _ _ _). assert (sockets s3 !! a = Some (obj w)) as Hw3 by (cbn; by rewrite lookup_insert_eq, Eo).
  assert (∀ b, b ≠ a → sockets s3 !! b = sockets s !! b) as H3 by (intros b Hb; cbn; by rewrite !lookup_insert_ne).
  assert (∀ fd, fd ∈ h → net_serves fd (sys_ s3) = net_serves fd (sys_ s)) as S3 by (intros fd Hfd; cbn; by rewrite Sl, Sb).
  destruct li; cbn [negb].
  2: { intros E. destruct (give_up_serves base s s3 s' a _ ok G Ha Hw3 eq_refl H3 S3) as (R & -> & M); [by rewrite <- Eo; destruct w3|done|done]. }
  destruct (Tl eq_refl) as [_ Hl]. rewrite bind_modify. intros [= <- <-]. split.
  - apply (serves_on_intro _ _ _ G); [exact S3|]. intros b x Hb Hx. rewrite <- Hx. by apply H3, Hab.
  - exists a. split; [done|]. exists (obj w). split_and!; [exact Hw3|done|]. cbn. by rewrite Hl, Hbound.
Qed.
Lemma bind_loop_serves base addrs : ∀ s fails r s', good base s → bind_loop host SOMAXCONN addrs fails s = Ret r s' → serves_on base s s'
  ∧ (r = [] → ∃ new, m_socks s' = m_socks s ++ new ∧ Forall2 (bound_at (sockets s') (sys_ s')) addrs new).
Proof using.
  induction addrs as [|addr addrs IH]; intros s fails r s' G; cbn [bind_loop].
  - intros [= <- <-]. split; [by apply serves_on_intro|]. intros _. exists []. by rewrite app_nil_r.
  - destruct (bind_one_ok host SOMAXCONN base s addr G) as (ok & s1 & E & G1 & _). rewrite (bind_Ret _ _ _ _ _ E). intros E2.
    destruct (bind_one_serves base s addr ok s1 G E) as [S1 Hok]. destruct (IH s1 _ r s' G1 E2) as [S2 Hr]. split.
    { apply (serves_on_trans base s s1); [|done..]. intros b Hb. destruct ok; [destruct Hok as (a & -> & _)|rewrite Hok; done]. set_solver. }
    intros ->. destruct (Hr eq_refl) as (new & Em & Hn). destruct ok.
    + destruct Hok as (a & Ea & Hb). exists (a :: new). rewrite Em, Ea, <- app_assoc. split; [done|]. constructor; [|done].
      apply (bound_at_on base s1 s'); [done| |done]. rewrite Ea. set_solver.
    + destruct (bind_loop_ok host SOMAXCONN base addrs s1 (fails ++ [addr]) G1) as (failed & s2 & E3 & _). rewrite E2 in E3. injection E3 as E3 _.
      by destruct fails.
Qed.
(** A [bind] that succeeds has one socket for each address, bound to it and listening. *)
Lemma bind_addrs_serves base addrs s failed s' : good base s → m_socks s = [] → bind_addrs host SOMAXCONN addrs [] s = Ret (true, failed) s' →
  (∀ fd, fd ∈ base → net_serves fd (sys_ s') = net_serves fd (sys_ s)) ∧ Forall2 (bound_at (sockets s') (sys_ s')) addrs (m_socks s').
Proof using.
  intros G Hs. unfold bind_addrs. destruct (bind_loop_ok host SOMAXCONN base addrs s [] G) as (l & s1 & E & _). rewrite (bind_Ret _ _ _ _ _ E).
  destruct (bind_loop_serves base addrs s [] _ s1 G E) as [[S1 _] Hr]. cbn [Datatypes.app] in *. destruct l as [|f l].
  - intros [= _ <-]. split; [done|]. destruct (Hr eq_refl) as (new & -> & Hn). by rewrite Hs.
  - unfold bind. by destruct (clear_socks s1).
Qed.
End serves.

(** ** At work *)
Definition sample_addr : Address := UnknowAddress_new 2.
Definition sample_history : list server_op :=
  [DoBind [sample_addr; sample_addr] []; DoStart; DoTurn 0; DoTurn 1; DoArrive 0; DoTurn 0; DoUse 0 (OSend [65]); DoTurn 0; DoTurn 0; DoBind [sample_addr] [];
   DoClientDone 0; DoTurn 1; DoStart].
Definition sample_cancel (fd : Z) (k : SocketTheorems.sockets) : SocketTheorems.sockets := k.
Definition sample_system : SocketTheorems.sockets := mkSockets {[0; 1; 2]} 3.

(** The two loops wait; the first has had a client. *)
Definition sample_served : server SocketTheorems.sockets :=
  match run_server sample_cancel Endian.AZURE_LITTLE_ENDIAN 4096 sample_history (TcpServer_new 120000 sample_system) with
  | Ret _ s => s
  | _ => TcpServer_new 120000 sample_system
  end.
Lemma stop_ends_witness :
  accepts sample_served = [Accepting 0 3 Blocked; Accepting 1 4 Blocked] ∧
  ∃ s, stop sample_served = Ret tt s
  ∧ ∀ l, (4 * length (accepts s) ≤ turns_in l)%nat →
    ∃ s', moments sample_cancel l s = Ret tt s' ∧ accepts s' = [] ∧ m_socks s' = []
    ∧ ∀ fd, fd ∈ net_open (sys_ s') ↔ fd ∈ net_open sample_system ∨ ∃ c x, c ∈ clients s' ∧ sockets s' !! c = Some x ∧ m_sockfd x = fd ∧ fd ≠ -1.
Proof.
  split; [vm_compute; reflexivity|].
  apply (stop_ends sample_cancel ltac:(reflexivity) Endian.AZURE_LITTLE_ENDIAN 4096 sample_history 120000 sample_system sample_served);
    [exact sockets_register|vm_compute; reflexivity|refine (bool_decide_unpack _ _); vm_compute; exact I].
Defined.

(** ** Where the code departs from its purpose *)
(** A [bind] that fails drops the sockets that were bound before, also while they
    are served: the later [stop] then finds none to close, and the loop stays in
    [accept] on a descriptor that is open. *)
Lemma failed_bind_orphans :
  match run_server sample_cancel Endian.AZURE_LITTLE_ENDIAN 4096
          [DoBind [sample_addr] []; DoStart; DoTurn 0; DoBind [] [sample_addr]; DoStop; DoTurn 1; DoTurn 0] (TcpServer_new 120000 sample_system) with
  | Ret _ s => m_isStop s = true ∧ m_socks s = [] ∧ accepts s = [Accepting 0 3 Blocked] ∧ bool_decide (3 ∈ net_open (sys_ s)) = true
  | _ => False
  end.
Proof. by vm_compute. Qed.
(** A server that is started again before the task of [stop] has run has loops on
    closed sockets: their calls fail at once, and they go round without end. *)
Lemma restart_spins :
  let ops := [DoBind [sample_addr] []; DoStart; DoTurn 0; DoStop; DoStart; DoTurn 1; DoTurn 0; DoTurn 0] in
  match run_server sample_cancel Endian.AZURE_LITTLE_ENDIAN 4096 ops (TcpServer_new 120000 sample_system) with
  | Ret _ s => m_isStop s = false ∧ m_socks s = [] ∧ accepts s = [Accepting 0 (-1) Ends; AcceptTask 0]
  | _ => False
  end.
Proof. by vm_compute. Qed.
