(* ===== verification/Locks.v ===== *)
(** * Locks: guards and the spinning lock ([include/mutex.h])

    A guard is its [m_locked]; its operations say which call they make on the
    mutex that it refers to, so they are those of [ScopedLockImpl] over [lock],
    of [ReadScopedLockImpl] over [rdlock] and of [WriteScopedLockImpl] over
    [wrlock].  [CASLock] is a flag; a turn of the loop of its [lock] is one
    atomic step, and threads interleave between steps. *)
From S2P Require Import Prelude.

Inductive call := CLock | CUnlock.

(** ** Guards *)
(** The call that is made, and [m_locked] once it has returned. *)
Definition ScopedLockImpl_new : option call * bool := (Some CLock, true).
Definition scoped_lock (m_locked : bool) : option call * bool :=
  if negb m_locked then (Some CLock, true) else (None, m_locked).
Definition scoped_unlock (m_locked : bool) : option call * bool :=
  if m_locked then (Some CUnlock, false) else (None, m_locked).
Definition scoped_destroy (m_locked : bool) : option call := (scoped_unlock m_locked).1.

Inductive guard_op := GLock | GUnlock.
Definition guard_exec (o : guard_op) (m_locked : bool) : option call * bool :=
  match o with GLock => scoped_lock m_locked | GUnlock => scoped_unlock m_locked end.
(** The calls of a guard from the given state to its end. *)
Fixpoint guard_calls (ops : list guard_op) (m_locked : bool) : list call :=
  match ops with
  | [] => option_list (scoped_destroy m_locked)
  | o :: ops => let (c, l) := guard_exec o m_locked in option_list c ++ guard_calls ops l
  end.
Definition scope_calls (ops : list guard_op) : list call :=
  let (c, l) := ScopedLockImpl_new in option_list c ++ guard_calls ops l.

(** ** Threads that share a [CASLock] *)
(** [test_and_set] and [clear]: the old value and the new one. *)
Definition test_and_set (m_mutex : bool) : bool * bool := (m_mutex, true).
Definition clear_flag (m_mutex : bool) : bool := false.

(** A thread runs scopes, each with a guard of its own. *)
Inductive thread_op := Open | Use (o : guard_op) | Close.
Definition scope_prog (ops : list guard_op) : list thread_op := Open :: (Use <$> ops) ++ [Close].
Definition scopes_prog (l : list (list guard_op)) : list thread_op := concat (scope_prog <$> l).

(** [guard] is [m_locked] of the guard that is alive; [spins] is what it will be
    when the loop of [lock] ends, for a thread that is in it. *)
Record thread := mkThread { prog : list thread_op; guard : option bool; spins : option bool }.
Definition thread_new (l : list (list guard_op)) : thread := mkThread (scopes_prog l) None None.

(** [None] where the operation has no guard to work on. *)
Definition op_exec (o : thread_op) (g : option bool) : option (option call * option bool) :=
  match o, g with
  | Open, None => let (c, l) := ScopedLockImpl_new in Some (c, Some l)
  | Use o, Some l => let (c, l) := guard_exec o l in Some (c, Some l)
  | Close, Some l => Some (scoped_destroy l, None)
  | _, _ => None
  end.
(** A step of a thread on the flag; a finished thread stays. *)
Definition thread_step (m_mutex : bool) (t : thread) : option (bool * thread) :=
  match spins t with
  | Some l =>
      let (old, m_mutex) := test_and_set m_mutex in
      Some (m_mutex, if old then t else mkThread (prog t) (Some l) None)
  | None =>
      match prog t with
      | [] => Some (m_mutex, t)
      | o :: p =>
          match op_exec o (guard t) with
          | None => None
          | Some (None, g) => Some (m_mutex, mkThread p g None)
          | Some (Some CLock, g) => Some (m_mutex, mkThread p (guard t) g)
          | Some (Some CUnlock, g) => Some (clear_flag m_mutex, mkThread p g None)
          end
      end
  end.

Record locked_world := mkLocked { flag : bool; threads : list thread }.
(** [CASLock()] clears the flag. *)
Definition CASLock_new : bool := clear_flag true.
Definition locks_start (l : list (list (list guard_op))) : locked_world := mkLocked CASLock_new (thread_new <$> l).
Definition locks_step (i : nat) (w : locked_world) : option locked_world :=
  match threads w !! i with
  | None => Some w
  | Some t => r ← thread_step (flag w) t; Some (mkLocked r.1 (<[i := r.2]> (threads w)))
  end.
Fixpoint locks_run (sched : list nat) (w : locked_world) : option locked_world :=
  match sched with [] => Some w | i :: sched => w ← locks_step i w; locks_run sched w end.

(** Inside the scope of a guard that holds the lock. *)
Definition holds (t : thread) : bool := match guard t, spins t with Some true, None => true | _, _ => false end.
Definition finished (t : thread) : bool := match prog t, spins t with [], None => true | _, _ => false end.

(** ** The lock excludes, and no thread waits for ever *)
(** ** Guards *)
Fixpoint pairs (n : nat) : list call := match n with O => [] | S n => CLock :: CUnlock :: pairs n end.
Lemma guard_calls_balanced ops l : ∃ n, guard_calls ops l = (if l then [CUnlock] else []) ++ pairs n.
Proof.
  revert l. induction ops as [|o ops IH]; intros l; cbn; [exists 0%nat; by destruct l|].
  destruct o, l; cbn; [destruct (IH true) as [n ->]|destruct (IH true) as [n ->]|destruct (IH false) as [n ->]|destruct (IH false) as [n ->]].
  all: first [by exists n | by exists (S n)].
Qed.
(** A guard locks first, never twice in a row, and leaves the mutex unlocked. *)
Lemma scope_calls_balanced ops : ∃ n, scope_calls ops = pairs (S n).
Proof. unfold scope_calls. cbn. destruct (guard_calls_balanced ops true) as [n ->]. by exists n. Qed.

(** ** Threads *)
Definition rest_ok (g : option bool) (p : list thread_op) : Prop :=
  match g with
  | None => ∃ l, p = scopes_prog l
  | Some _ => ∃ ops l, p = (Use <$> ops) ++ Close :: scopes_prog l
  end.
(** Where a thread can be. *)
Definition thread_ok (t : thread) : Prop :=
  match spins t with
  | Some l => l = true ∧ rest_ok (Some l) (prog t) ∧ guard t ≠ Some true
  | None => rest_ok (guard t) (prog t)
  end.
Definition holding (t : thread) : nat := if holds t then 1%nat else 0%nat.
Definition left_to_do (t : thread) : nat := (2 * length (prog t) + match spins t with Some _ => 1 | None => 0 end)%nat.
Record locks_ok (w : locked_world) : Prop := {
  lo_threads : Forall thread_ok (threads w);
  lo_holder : list_sum (holding <$> threads w) = (if flag w then 1 else 0)%nat
}.

Lemma thread_step_ok (f : bool) t : thread_ok t → (holding t ≤ (if f then 1 else 0))%nat →
  ∃ f' t', thread_step f t = Some (f', t') ∧ thread_ok t'
  ∧ ((if f' then 1 else 0) + holding t = (if f then 1 else 0) + holding t')%nat
  ∧ ((finished t = true ∧ t' = t ∧ f' = f)
     ∨ (holds t = true ∨ f = false) ∧ (left_to_do t' < left_to_do t)%nat
     ∨ (holds t = false ∧ f = true)).
Proof.
  destruct t as [p g sp]. unfold thread_step, thread_ok, holding, holds, left_to_do, finished. cbn [prog guard spins]. destruct sp as [l|].
  - intros (-> & Hr & Hg) _. cbn. destruct f.
    + exists true. eexists. split; [done|]. cbn. split; [done|]. split; [by destruct g as [[]|]|]. right. right. by destruct g as [[]|].
    + exists true. eexists. split; [done|]. cbn. split; [done|]. split; [by destruct g as [[]|]|]. right. left. split; [by right|]. lia.
  - destruct g as [l|]; cbn.
    + intros ([|o ops] & q & ->) Hf; cbn.
      * destruct l; cbn.
        -- exists false. eexists. split; [done|]. cbn. split; [by exists q|]. split; [destruct f; cbn in *; lia|]. right. left. split; [by left|]. lia.
        -- exists f. eexists. split; [done|]. cbn. split; [by exists q|]. split; [lia|]. destruct f; [right; by right|right; left]. split; [by right|]. lia.
      * destruct o, l; cbn.
        -- exists f. eexists. split; [done|]. cbn. split; [by exists ops, q|]. split; [lia|]. right. left. split; [by left|]. lia.
        -- exists f. eexists. split; [done|]. cbn. split; [split_and!; [done|by exists ops, q|done]|]. split; [lia|]. destruct f; [right; by right|right; left]. split; [by right|]. lia.
        -- exists false. eexists. split; [done|]. cbn. split; [by exists ops, q|]. split; [destruct f; cbn in *; lia|]. right. left. split; [by left|]. lia.
        -- exists f. eexists. split; [done|]. cbn. split; [by exists ops, q|]. split; [lia|]. destruct f; [right; by right|right; left]. split; [by right|]. lia.
    + intros ([|ops q] & ->) _; cbn.
      * exists f. eexists. split; [done|]. cbn. split; [by exists []|]. split; [lia|]. by left.
      * exists f. eexists. split; [done|]. cbn. split; [split_and!; [done| |done]|].
        { exists ops, q. unfold scopes_prog. cbn. by rewrite <- (assoc_L (++)). }
        split; [lia|]. destruct f; [right; by right|right; left]. split; [by right|]. lia.
Qed.

Lemma locks_step_ok w i : locks_ok w → ∃ w', locks_step i w = Some w' ∧ locks_ok w' ∧ length (threads w') = length (threads w)
  ∧ ∀ t, threads w !! i = Some t → finished t = false → holds t = true ∨ flag w = false →
    (list_sum (left_to_do <$> threads w') < list_sum (left_to_do <$> threads w))%nat.
Proof.
  intros [Ht Hh]. unfold locks_step. destruct (threads w !! i) as [t|] eqn:Hi; [|by exists w].
  rewrite (sum_delete holding _ _ _ Hi) in Hh. destruct (thread_step_ok (flag w) t) as (f' & t' & E & Hok & Hb & Hp).
  { by eapply Forall_lookup_1. } { lia. }
  rewrite E. eexists. split; [done|]. split; [split|split].
  - cbn. by apply Forall_insert.
  - cbn. rewrite (sum_insert holding _ _ _ _ Hi). lia.
  - apply length_insert.
  - intros ? [= <-] Hf Hor. cbn. rewrite (sum_delete left_to_do _ _ _ Hi), (sum_insert left_to_do _ _ _ _ Hi).
    destruct Hp as [(? & _)|[[_ ?]|[? ?]]]; [congruence|lia|destruct Hor; congruence].
Qed.
Lemma locks_run_ok sched : ∀ w, locks_ok w → ∃ w', locks_run sched w = Some w' ∧ locks_ok w' ∧ length (threads w') = length (threads w).
Proof.
  induction sched as [|i sched IH]; intros w Hw; cbn; [by exists w|].
  destruct (locks_step_ok w i Hw) as (w1 & -> & H1 & L1 & _). cbn. destruct (IH w1 H1) as (w2 & E & H2 & L2). exists w2. split_and!; [done|done|by rewrite L2].
Qed.
Lemma thread_new_ok l : thread_ok (thread_new l) ∧ holding (thread_new l) = 0%nat.
Proof. split; [by exists l|done]. Qed.
Lemma locks_start_ok progs : locks_ok (locks_start progs).
Proof.
  split; cbn.
  - apply Forall_fmap, Forall_true. intros l. apply thread_new_ok.
  - apply sum_zero, Forall_fmap, Forall_true. intros l. apply thread_new_ok.
Qed.
(** The flag is set exactly when a thread holds the lock. *)
Lemma flag_held w : locks_ok w → flag w = true ↔ ∃ i t, threads w !! i = Some t ∧ holds t = true.
Proof.
  intros [Ht Hh]. split.
  - intros Ef. rewrite Ef in Hh. destruct (decide (Exists (λ t, holds t = true) (threads w))) as [He|Hn].
    + apply Exists_exists in He as (t & (i & Hi)%list_elem_of_lookup & Hht). by exists i, t.
    + exfalso. assert (list_sum (holding <$> threads w) = 0%nat) as Hz; [|lia]. apply sum_zero. apply not_Exists_Forall in Hn; [|apply _].
      eapply Forall_impl; [exact Hn|]. intros t Hnt. unfold holding. destruct (holds t) eqn:Eh; [by destruct (Hnt Eh)|done].
  - intros (i & t & Hi & Hht). rewrite (sum_delete holding _ _ _ Hi) in Hh. unfold holding at 1 in Hh. rewrite Hht in Hh. destruct (flag w); [done|lia].
Qed.
Lemma holder_unfinished t : thread_ok t → holds t = true → finished t = false.
Proof.
  destruct t as [p g [l|]]; unfold thread_ok, holds, finished; cbn; [by destruct g as [[]|]|]. destruct g as [[]|]; [|done..].
  intros (ops & q & ->) _. by destruct ops.
Qed.
(** While a thread is not finished, one of them can be run to its profit. *)
Lemma some_thread_runs w : locks_ok w → ¬ Forall (λ t, finished t = true) (threads w) →
  ∃ i t, threads w !! i = Some t ∧ finished t = false ∧ (holds t = true ∨ flag w = false).
Proof.
  intros Hw Hf. destruct (flag w) eqn:Ef.
  - destruct (proj1 (flag_held w Hw) Ef) as (i & t & Hi & Hht). exists i, t. split_and!; [done| |by left].
    apply holder_unfinished; [|done]. by eapply Forall_lookup_1, Hi; apply Hw.
  - apply not_Forall_Exists in Hf; [|apply _]. apply Exists_exists in Hf as (t & (i & Hi)%list_elem_of_lookup & Hft).
    exists i, t. split_and!; [done|destruct (finished t) eqn:Ft; [by destruct (Hft Ft)|done]|by right].
Qed.
Lemma locks_complete n : ∀ w, locks_ok w → (list_sum (left_to_do <$> threads w) ≤ n)%nat →
  ∃ more w', (length more ≤ n)%nat ∧ locks_run more w = Some w' ∧ locks_ok w' ∧ Forall (λ t, finished t = true) (threads w').
Proof.
  induction n as [|n IH]; intros w Hw Hn.
  all: destruct (decide (Forall (λ t, finished t = true) (threads w))) as [Hf|Hf]; [exists [], w; split_and!; [cbn; lia|done..]|].
  all: destruct (some_thread_runs w Hw Hf) as (i & t & Hi & Hft & Hor); destruct (locks_step_ok w i Hw) as (w1 & E & H1 & _ & Hd).
  all: specialize (Hd t Hi Hft Hor).
  { lia. }
  destruct (IH w1 H1) as (more & w2 & Hl & E2 & H2 & Hf2); [lia|]. exists (i :: more), w2. cbn. rewrite E. split_and!; [lia|done..].
Qed.

(** C30: [CASLock] excludes, and nobody is locked out.  Threads run scopes with
    guards that lock and unlock as often as they like, in any interleaving; two
    threads never hold the lock, its flag is set exactly when one does, and the
    threads can always be run to their ends, which leaves the lock free. *)
Theorem caslock_excludes progs sched :
  ∃ w, locks_run sched (locks_start progs) = Some w ∧ length (threads w) = length progs
  ∧ (∀ i j t u, threads w !! i = Some t → threads w !! j = Some u → holds t = true → holds u = true → i = j)
  ∧ (flag w = true ↔ ∃ t, t ∈ threads w ∧ holds t = true)
  ∧ ∃ more w', (length more ≤ list_sum (left_to_do <$> threads w))%nat
    ∧ locks_run more w = Some w' ∧ Forall (λ t, finished t = true) (threads w') ∧ flag w' = false.
Proof.
  destruct (locks_run_ok sched _ (locks_start_ok progs)) as (w & E & Hw & Hlen). exists w. split; [done|].
  split; [rewrite Hlen; apply length_fmap|]. pose proof Hw as [Ht Hh]. split_and!.
  - intros i j t u Hi Hj Hht Hhu. destruct (decide (i = j)) as [|Hne]; [done|].
    rewrite (sum_delete holding _ _ _ Hi) in Hh. assert (holding t = 1%nat) as Hht1 by (unfold holding; by rewrite Hht).
    assert (holding u = 1%nat) as Hhu1 by (unfold holding; by rewrite Hhu).
    assert (∃ k, delete i (threads w) !! k = Some u) as [k Hk].
    { apply list_elem_of_lookup. apply list_elem_of_lookup_2 in Hj as Hu. rewrite <- (take_drop_middle _ _ _ Hi) in Hj. rewrite delete_take_drop, elem_of_app.
      apply lookup_lt_Some in Hi as Hlt. destruct (decide (j < i)%nat).
      - left. rewrite lookup_app_l in Hj by (rewrite length_take; lia). by eapply list_elem_of_lookup_2.
      - right. rewrite lookup_app_r in Hj by (rewrite length_take; lia). rewrite length_take, Nat.min_l in Hj by lia.
        destruct (j - i)%nat as [|m] eqn:Em; [lia|]. cbn in Hj. by eapply list_elem_of_lookup_2. }
    rewrite (sum_delete holding _ _ _ Hk) in Hh. destruct (flag w); lia.
  - rewrite (flag_held w Hw). split; [intros (i & t & Hi & ?); exists t; split; [by eapply list_elem_of_lookup_2|done]|].
    intros (t & [i Hi]%list_elem_of_lookup & ?). by exists i, t.
  - destruct (locks_complete _ w Hw (le_n _)) as (more & w' & Hl & E' & Hw' & Hf). exists more, w'. split_and!; [done..|].
    destruct (flag w') eqn:Ef; [|done]. destruct (proj1 (flag_held w' Hw') Ef) as (i & t & Hi & Hht). exfalso.
    pose proof (holder_unfinished t (Forall_lookup_1 _ _ _ _ (lo_threads _ Hw') Hi) Hht). pose proof (Forall_lookup_1 _ _ _ _ Hf Hi). congruence.
Qed.
