(* ===== verification/Thread.v ===== *)
(** * Thread: starting a thread ([include/thread.h], [src/thread.cpp], [src/mutex.cpp])

    The constructor runs in the thread that makes the object, [Thread::run] in
    the new one; they meet at the object's semaphore.  Each access to the object
    is a step of its own, and the steps of all threads interleave; an access to
    an object that is gone is a crash.  Callbacks are named by numbers; what
    [pthread_create] and [pthread_join] return, and the numbers that the system
    gives to threads, come with the steps. *)
From S2P Require Import Prelude.

Definition loc : Type := nat.
Record Thread := mkThread { m_id : Z; m_thread : Z; m_cb : option Z; m_name : string; m_semaphore : Z }.
Definition set_id v t := mkThread v (m_thread t) (m_cb t) (m_name t) (m_semaphore t).
Definition set_thread v t := mkThread (m_id t) v (m_cb t) (m_name t) (m_semaphore t).
Definition set_cb v t := mkThread (m_id t) (m_thread t) v (m_name t) (m_semaphore t).
Definition set_m_name v t := mkThread (m_id t) (m_thread t) (m_cb t) v (m_semaphore t).
Definition set_semaphore v t := mkThread (m_id t) (m_thread t) (m_cb t) (m_name t) v.

(** Where a new thread is in [run]: before the named line. *)
Inductive place :=
  | AtStart (arg : loc) | AtId (arg : loc) | AtSetname (arg : loc) | AtSwap (arg : loc) | AtNotify (cb : option Z) | AtCall (cb : option Z) | AtEnd.
(** Its number, its place, and its [thread_local]s with the name that the system has for it. *)
Record runner := mkRunner { r_tid : Z; at_ : place; t_thread : option loc; t_thread_name : string; os_name : string }.
(** The owner of an object is in its constructor or has it. *)
Inductive owner := Constructing | Owned.
#[global] Instance owner_eq_dec : EqDecision owner.
Proof. solve_decision. Defined.
Record world := mkWorld { heap : gmap loc Thread; owners : gmap loc owner; next_loc : loc; runners : list runner; called : list Z }.
Definition set_heap v w := mkWorld v (owners w) (next_loc w) (runners w) (called w).
Definition set_owners v w := mkWorld (heap w) v (next_loc w) (runners w) (called w).
Definition set_next v w := mkWorld (heap w) (owners w) v (runners w) (called w).
Definition set_runners v w := mkWorld (heap w) (owners w) (next_loc w) v (called w).
Definition set_called v w := mkWorld (heap w) (owners w) (next_loc w) (runners w) v.
Definition threads_start : world := mkWorld ∅ ∅ 0%nat [] [].

Definition deref (o : loc) : ST world Thread := λ w,
  match heap w !! o with Some t => Ret t w | None => Crash UseAfterFree end.
Definition update (o : loc) (f : Thread → Thread) : ST world unit :=
  let* t := deref o in modify (λ w, set_heap (<[o := f t]> (heap w)) w).
Definition free (o : loc) : ST world unit :=
  modify (λ w, set_owners (delete o (owners w)) (set_heap (delete o (heap w)) w)).

(** ** [Semaphore]: [sem_post], and [sem_wait] when it does not block *)
Definition notify (o : loc) : ST world unit := update o (λ t, set_semaphore (m_semaphore t + 1) t).
Definition wait (o : loc) : ST world bool :=
  let* t := deref o in
  if 0 <? m_semaphore t then update o (λ t, set_semaphore (m_semaphore t - 1) t) ;;; ret true else ret false.

(** ** The constructor, up to the wait *)
Definition Thread_new (cb : Z) (name : string) : Thread := mkThread (-1) 0 (Some cb) name 0.
(** [rt] is what [pthread_create] returns, [handle] what it stores, [tid] the number of the new thread. *)
Definition construct (cb : Z) (name : string) (rt handle tid : Z) : ST world loc :=
  let* o := gets next_loc in
  modify (set_next (S o)) ;;;
  modify (λ w, set_owners (<[o := Constructing]> (owners w)) (set_heap (<[o := Thread_new cb name]> (heap w)) w)) ;;;
  if negb (rt =? 0) then free o ;;; throw logic_error
  else
    update o (set_thread handle) ;;;
    modify (λ w, set_runners (runners w ++ [mkRunner tid (AtStart o) None "UNKNOWN" ""]) w) ;;;
    ret o.
(** The wait; it stays in it while the semaphore is down. *)
Definition construct_wait (o : loc) : ST world unit :=
  let* up := wait o in
  if up : bool then modify (λ w, set_owners (<[o := Owned]> (owners w)) w) else ret tt.
(** [sem_wait] fails; the exception destroys the members. *)
Definition construct_interrupted (o : loc) : ST world unit :=
  let* _ := deref o in free o ;;; throw logic_error.
Definition destroy (o : loc) : ST world unit := let* _ := deref o in free o.
(** [rt] is what [pthread_join] returns, once the thread has ended. *)
Definition join (o : loc) (rt : Z) : ST world unit :=
  let* t := deref o in
  if negb (m_thread t =? 0) then
    if negb (rt =? 0) then throw logic_error else update o (set_thread 0)
  else ret tt.

(** ** [run] *)
Definition put_runner (i : nat) (r : runner) : ST world unit := modify (λ w, set_runners (<[i := r]> (runners w)) w).
Definition set_at v r := mkRunner (r_tid r) v (t_thread r) (t_thread_name r) (os_name r).
Definition run_step (i : nat) : ST world unit :=
  let* w := gets id in
  match runners w !! i with
  | None => ret tt
  | Some r =>
      match at_ r with
      | AtStart o =>
          let* t := deref o in
          put_runner i (mkRunner (r_tid r) (AtId o) (Some o) (m_name t) (os_name r))
      | AtId o => update o (set_id (r_tid r)) ;;; put_runner i (set_at (AtSetname o) r)
      | AtSetname o =>
          let* t := deref o in
          put_runner i (mkRunner (r_tid r) (AtSwap o) (t_thread r) (t_thread_name r) (String.substring 0%nat 15%nat (m_name t)))
      | AtSwap o =>
          let* t := deref o in
          update o (set_cb None) ;;;
          put_runner i (set_at (AtNotify (m_cb t)) r)
      | AtNotify cb =>
          match t_thread r with
          | None => crash NullDeref
          | Some o => notify o ;;; put_runner i (set_at (AtCall cb) r)
          end
      | AtCall cb =>
          match cb with
          | None => throw runtime_error
          | Some c => modify (λ w, set_called (called w ++ [c]) w) ;;; put_runner i (set_at AtEnd r)
          end
      | AtEnd => ret tt
      end
  end.

(** ** [GetThis], [GetName] and [SetName] in the [i]-th thread *)
Definition GetThis (r : runner) : option loc := t_thread r.
Definition GetName (r : runner) : string := t_thread_name r.
Definition SetName (i : nat) (name : string) : ST world unit :=
  let* w := gets id in
  match runners w !! i with
  | None => ret tt
  | Some r =>
      (match t_thread r with Some o => update o (set_m_name name) | None => ret tt end) ;;;
      put_runner i (mkRunner (r_tid r) (at_ r) (t_thread r) name (os_name r))
  end.

(** ** A thread that is started runs its callback once *)
Implicit Types (w : world) (r : runner) (t : Thread) (o : loc).

(** ** Each thread has an object of its own *)
Definition obj r : loc :=
  match at_ r with AtStart o | AtId o | AtSetname o | AtSwap o => o | _ => default 0%nat (t_thread r) end.
(** The object before [run] has told its maker, and after. *)
Definition untold (h : option Thread) (ow : option owner) (P : Thread → Prop) : Prop :=
  ∃ t, h = Some t ∧ ow = Some Constructing ∧ m_semaphore t = 0 ∧ P t.
Definition told (h : option Thread) (ow : option owner) (tid : Z) : Prop :=
  ∀ t, h = Some t → m_cb t = None ∧ m_id t = tid
  ∧ ((ow = Some Constructing ∧ m_semaphore t = 1) ∨ (ow = Some Owned ∧ m_semaphore t = 0)).
Definition runner_ok (h : option Thread) (ow : option owner) r : Prop :=
  match at_ r with
  | AtStart _ => untold h ow (λ t, is_Some (m_cb t))
  | AtId o => t_thread r = Some o ∧ untold h ow (λ t, is_Some (m_cb t))
  | AtSetname o | AtSwap o => t_thread r = Some o ∧ untold h ow (λ t, is_Some (m_cb t) ∧ m_id t = r_tid r)
  | AtNotify cb => is_Some (t_thread r) ∧ is_Some cb ∧ untold h ow (λ t, m_cb t = None ∧ m_id t = r_tid r)
  | AtCall cb => is_Some (t_thread r) ∧ is_Some cb ∧ told h ow (r_tid r)
  | AtEnd => is_Some (t_thread r) ∧ told h ow (r_tid r)
  end.
Record inv w : Prop := {
  inv_runners i r : runners w !! i = Some r → runner_ok (heap w !! obj r) (owners w !! obj r) r;
  inv_nodup : NoDup (obj <$> runners w);
  inv_bound o : o ∈ obj <$> runners w → (o < next_loc w)%nat;
  inv_heap : dom (heap w) ⊆ list_to_set (obj <$> runners w);
  inv_owners : dom (owners w) = dom (heap w)
}.

(** The callback that a thread has still to call. *)
Definition pend (h : option Thread) r : list Z :=
  match at_ r with
  | AtNotify cb | AtCall cb => option_list cb
  | AtEnd => []
  | _ => match h with Some t => option_list (m_cb t) | None => [] end
  end.
Definition pending w : list Z := concat ((λ r, pend (heap w !! obj r) r) <$> runners w).

(** A step of a thread, or of the owner of its object, which touches nothing else. *)
Lemma inv_touch w w' i r r' new : inv w → runners w !! i = Some r → runners w' = <[i := r']> (runners w) → obj r' = obj r →
  next_loc w' = next_loc w →
  (∀ o, o ≠ obj r → heap w' !! o = heap w !! o ∧ owners w' !! o = owners w !! o) →
  (is_Some (heap w' !! obj r) ↔ is_Some (owners w' !! obj r)) →
  runner_ok (heap w' !! obj r) (owners w' !! obj r) r' →
  called w' ++ pend (heap w' !! obj r) r' ≡ₚ new ++ called w ++ pend (heap w !! obj r) r →
  inv w' ∧ called w' ++ pending w' ≡ₚ new ++ called w ++ pending w.
Proof.
  intros [I1 I2 I3 I4 I5] Hi Hr Ho Hn Hf Hd Hok Hp.
  assert (obj <$> runners w' = obj <$> runners w) as Hobjs.
  { rewrite Hr, list_fmap_insert. apply list_insert_id. by rewrite list_lookup_fmap, Hi, Ho. }
  assert (∀ j r2, j ≠ i → runners w !! j = Some r2 → obj r2 ≠ obj r) as Hne.
  { intros j r2 Hji Hj E. apply Hji. eapply (NoDup_lookup _ _ _ (obj r) I2); rewrite list_lookup_fmap, ?Hj, ?Hi; cbn; congruence. }
  split; [constructor|].
  - intros j r2. rewrite Hr. destruct (decide (j = i)) as [->|Hji].
    + rewrite list_lookup_insert_eq by (by eapply lookup_lt_Some). intros [= <-]. by rewrite Ho.
    + rewrite list_lookup_insert_ne by done. intros Hj. destruct (Hf (obj r2)) as [-> ->]; [by eapply Hne|]. by eapply I1.
  - by rewrite Hobjs.
  - intros o. rewrite Hobjs, Hn. apply I3.
  - rewrite Hobjs. intros o Hdo. destruct (decide (o = obj r)) as [->|Hor].
    + apply elem_of_list_to_set, list_elem_of_fmap. exists r. split; [done|by eapply list_elem_of_lookup_2].
    + apply I4. rewrite elem_of_dom in *. by destruct (Hf o Hor) as [<- _].
  - apply set_eq. intros o. rewrite !elem_of_dom. destruct (decide (o = obj r)) as [->|Hor]; [by rewrite Hd|].
    destruct (Hf o Hor) as [-> ->]. rewrite <- !elem_of_dom. by rewrite I5.
  - unfold pending. rewrite Hr. rewrite insert_take_drop by (by eapply lookup_lt_Some). rewrite <- (take_drop_middle _ _ _ Hi) at 3.
    rewrite !fmap_app, !concat_app, !fmap_cons. cbn [concat]. rewrite Ho.
    assert (∀ l : list runner, (∀ r2, r2 ∈ l → ∃ j, j ≠ i ∧ runners w !! j = Some r2) →
      (λ r, pend (heap w' !! obj r) r) <$> l = (λ r, pend (heap w !! obj r) r) <$> l) as Hl.
    { intros l Hl. apply list_fmap_ext. intros k r2 Hk. destruct (Hl r2) as (j & Hji & Hj); [by eapply list_elem_of_lookup_2|].
      destruct (Hf (obj r2)) as [-> _]; [by eapply Hne|done]. }
    rewrite (Hl (take i (runners w))), (Hl (drop (S i) (runners w))).
    + set (A := concat _). set (B := concat _). clear -Hp. generalize dependent (pend (heap w' !! obj r) r'). intros P.
      generalize (pend (heap w !! obj r) r). intros Q Hp. transitivity (A ++ B ++ (called w' ++ P)); [solve_Permutation|]. rewrite Hp. solve_Permutation.
    + intros r2 [k Hk]%list_elem_of_lookup. rewrite lookup_drop in Hk. exists (S i + k)%nat. split; [lia|done].
    + intros r2 [k Hk]%list_elem_of_lookup. apply lookup_take_Some in Hk as [Hk ?]. exists k. split; [lia|done].
Qed.

Lemma run_deref {B} o (k : Thread → ST world B) w t : heap w !! o = Some t → (let* t := deref o in k t) w = k t w.
Proof. intros E. unfold bind, deref. by rewrite E. Qed.
Lemma run_update {B} o f (k : unit → ST world B) w t : heap w !! o = Some t →
  bind (update o f) k w = k tt (set_heap (<[o := f t]> (heap w)) w).
Proof. intros E. unfold bind at 1, update, deref, bind. by rewrite E. Qed.
Lemma run_put {B} i r (k : unit → ST world B) w : bind (put_runner i r) k w = k tt (set_runners (<[i := r]> (runners w)) w).
Proof. done. Qed.

(** A step of thread [i] that gives [r'], and [t'] to its object. *)
Lemma inv_run w i r r' t t' c : inv w → runners w !! i = Some r → obj r' = obj r → heap w !! obj r = Some t →
  runner_ok (Some t') (owners w !! obj r) r' → c ++ pend (Some t') r' ≡ₚ called w ++ pend (Some t) r →
  let w' := set_called c (set_runners (<[i := r']> (runners w)) (set_heap (<[obj r := t']> (heap w)) w)) in
  inv w' ∧ called w' ++ pending w' ≡ₚ called w ++ pending w.
Proof.
  intros Hi Hr Ho Ht Hok Hp w'. apply (inv_touch w w' i r r' []); cbn; try done.
  - intros o Hne. by rewrite lookup_insert_ne.
  - rewrite lookup_insert_eq. pose proof (inv_owners _ Hi) as E. split; [intros _|by eexists].
    apply elem_of_dom. rewrite E. by eapply elem_of_dom_2.
  - by rewrite lookup_insert_eq.
  - by rewrite lookup_insert_eq, Ht.
Qed.
Lemma inv_stay w i r r' c : inv w → runners w !! i = Some r → obj r' = obj r →
  runner_ok (heap w !! obj r) (owners w !! obj r) r' → c ++ pend (heap w !! obj r) r' ≡ₚ called w ++ pend (heap w !! obj r) r →
  let w' := set_called c (set_runners (<[i := r']> (runners w)) w) in
  inv w' ∧ called w' ++ pending w' ≡ₚ called w ++ pending w.
Proof.
  intros Hi Hr Ho Hok Hp w'. apply (inv_touch w w' i r r' []); cbn; try done.
  rewrite <- !elem_of_dom. by rewrite (inv_owners _ Hi).
Qed.

(** The steps that a thread has to do. *)
Definition rank r : nat :=
  match at_ r with AtStart _ => 6 | AtId _ => 5 | AtSetname _ => 4 | AtSwap _ => 3 | AtNotify _ => 2 | AtCall _ => 1 | AtEnd => 0 end%nat.
Lemma run_step_ok w i : inv w → ∃ w', run_step i w = Ret tt w' ∧ inv w' ∧ called w' ++ pending w' ≡ₚ called w ++ pending w
  ∧ match runners w !! i with Some r => ∃ r', runners w' = <[i := r']> (runners w) ∧ rank r' = pred (rank r) | None => w' = w end.
Proof.
  intros Hi. unfold run_step. rewrite bind_gets. unfold id. destruct (runners w !! i) as [r|] eqn:Hr; [|by exists w].
  pose proof (inv_runners _ Hi i r Hr) as Hok.
  assert (∀ r' t t' c, obj r' = obj r → heap w !! obj r = Some t → runner_ok (Some t') (owners w !! obj r) r' →
    c ++ pend (Some t') r' ≡ₚ called w ++ pend (Some t) r → rank r' = pred (rank r) →
    let w' := set_called c (set_runners (<[i := r']> (runners w)) (set_heap (<[obj r := t']> (heap w)) w)) in
    inv w' ∧ called w' ++ pending w' ≡ₚ called w ++ pending w ∧ ∃ r', runners w' = <[i := r']> (runners w) ∧ rank r' = pred (rank r)) as Hgo.
  { intros r' t t' c Ho Ht Hok' Hp Hk. destruct (inv_run w i r r' t t' c Hi Hr Ho Ht Hok' Hp) as [H1 H2]. split_and!; [done..|]. by exists r'. }
  assert (∀ r' c, obj r' = obj r → runner_ok (heap w !! obj r) (owners w !! obj r) r' → c ++ pend (heap w !! obj r) r' ≡ₚ called w ++ pend (heap w !! obj r) r →
    rank r' = pred (rank r) →
    let w' := set_called c (set_runners (<[i := r']> (runners w)) w) in
    inv w' ∧ called w' ++ pending w' ≡ₚ called w ++ pending w ∧ ∃ r', runners w' = <[i := r']> (runners w) ∧ rank r' = pred (rank r)) as Hstay.
  { intros r' c Ho Hok' Hp Hk. destruct (inv_stay w i r r' c Hi Hr Ho Hok' Hp) as [H1 H2]. split_and!; [done..|]. by exists r'. }
  destruct r as [tid p tt_ nm os]. unfold runner_ok, set_at in *. destruct p as [o|o|o|o|cb|cb|]; cbn in Hok, Hgo, Hstay |- *.
  - destruct Hok as (t & Ht & Ho & Hs & Hc). rewrite (run_deref _ _ _ _ Ht). eexists. split; [done|]. apply (Hstay (mkRunner tid (AtId o) (Some o) (m_name t) os) (called w)); cbn; try done.
    split; [done|]. rewrite Ht. by exists t.
  - destruct Hok as (-> & t & Ht & Ho & Hs & Hc). rewrite (run_update _ _ _ _ _ Ht). eexists. split; [done|].
    apply (Hgo (mkRunner tid (AtSetname o) (Some o) nm os) t (set_id tid t) (called w)); cbn; try done. split; [done|]. by exists (set_id tid t).
  - destruct Hok as (-> & t & Ht & Ho & Hs & Hc & Hid). rewrite (run_deref _ _ _ _ Ht). eexists. split; [done|].
    apply (Hstay (mkRunner tid (AtSwap o) (Some o) nm (String.substring 0 15 (m_name t))) (called w)); cbn; try done. split; [done|]. rewrite Ht. by exists t.
  - destruct Hok as (-> & t & Ht & Ho & Hs & Hc & Hid). rewrite (run_deref _ _ _ _ Ht), (run_update _ _ _ _ _ Ht). eexists. split; [done|].
    apply (Hgo (mkRunner tid (AtNotify (m_cb t)) (Some o) nm os) t (set_cb None t) (called w)); cbn; try done. split_and!; [done|done|]. by exists (set_cb None t).
  - destruct Hok as ([o ->] & Hcb & t & Ht & Ho & Hs & Hc & Hid). cbn in *. unfold notify. rewrite (run_update _ _ _ _ _ Ht). eexists. split; [done|].
    apply (Hgo (mkRunner tid (AtCall cb) (Some o) nm os) t (set_semaphore (m_semaphore t + 1) t) (called w)); cbn; try done. split_and!; [done|done|].
    intros ? [= <-]. cbn. split_and!; [done|done|]. left. split; [done|lia].
  - destruct Hok as (Htt & [c ->] & Hto). rewrite bind_modify. eexists. split; [done|].
    apply (Hstay (mkRunner tid AtEnd tt_ nm os) (called w ++ [c])); cbn; try done. by rewrite app_nil_r.
  - exists w. split_and!; [done..|]. exists (mkRunner tid AtEnd tt_ nm os). by rewrite list_insert_id.
Qed.

(** The owner of an object touches it. *)
Lemma find_runner w o : inv w → o ∈ dom (heap w) → ∃ i r, runners w !! i = Some r ∧ obj r = o.
Proof.
  intros Hi Ho. apply (inv_heap _ Hi), elem_of_list_to_set, list_elem_of_fmap in Ho as (r & -> & (i & Hr)%list_elem_of_lookup). by exists i, r.
Qed.
Lemma obj_inj w i j r r' : inv w → runners w !! i = Some r → runners w !! j = Some r' → obj r = obj r' → i = j.
Proof. intros Hi Hr Hr' E. apply (NoDup_lookup _ _ _ (obj r) (inv_nodup _ Hi)); rewrite list_lookup_fmap, ?Hr, ?Hr'; [done|by rewrite E]. Qed.
Lemma inv_own w w' i r : inv w → runners w !! i = Some r → runners w' = runners w → next_loc w' = next_loc w → called w' = called w →
  (∀ o, o ≠ obj r → heap w' !! o = heap w !! o ∧ owners w' !! o = owners w !! o) →
  (is_Some (heap w' !! obj r) ↔ is_Some (owners w' !! obj r)) →
  runner_ok (heap w' !! obj r) (owners w' !! obj r) r →
  pend (heap w' !! obj r) r = pend (heap w !! obj r) r →
  inv w' ∧ called w' ++ pending w' ≡ₚ called w ++ pending w.
Proof.
  intros Hi Hr Er En Ec Hf Hd Hok Hp. apply (inv_touch w w' i r r []); try done; [by rewrite Er, list_insert_id|by rewrite Ec, Hp].
Qed.
(** An object that is owned has been told. *)
Lemma owned_told w i r : inv w → runners w !! i = Some r → owners w !! obj r = Some Owned →
  (at_ r = AtEnd ∨ ∃ c, at_ r = AtCall (Some c)) ∧ is_Some (t_thread r) ∧ told (heap w !! obj r) (Some Owned) (r_tid r).
Proof.
  intros Hi Hr Ho. pose proof (inv_runners _ Hi i r Hr) as Hok. unfold runner_ok in Hok. rewrite Ho in Hok.
  destruct (at_ r); unfold untold in Hok; [naive_solver..| |naive_solver]. destruct Hok as (? & [c ->] & ?). split_and!; [right; by exists c|done..].
Qed.
Lemma owner_live w o : inv w → is_Some (owners w !! o) → is_Some (heap w !! o).
Proof. intros Hi. rewrite <- !elem_of_dom. by rewrite (inv_owners _ Hi). Qed.

Lemma construct_wait_ok w o : inv w → owners w !! o = Some Constructing →
  ∃ w', construct_wait o w = Ret tt w' ∧ inv w' ∧ called w' ++ pending w' ≡ₚ called w ++ pending w
  ∧ runners w' = runners w ∧ (∀ o', o' ≠ o → owners w' !! o' = owners w !! o')
  ∧ ∀ i r, runners w !! i = Some r → obj r = o → (at_ r = AtEnd ∨ ∃ c, at_ r = AtCall c) → owners w' !! o = Some Owned.
Proof.
  intros Hi Ho. destruct (owner_live w o Hi) as [t Ht]; [by eexists|]. destruct (find_runner w o Hi) as (i & r & Hr & Eo); [by eapply elem_of_dom_2|].
  pose proof (inv_runners _ Hi i r Hr) as Hok. rewrite Eo, Ht, Ho in Hok. unfold construct_wait, wait. rewrite bind_assoc, (run_deref _ _ _ _ Ht).
  assert ((m_semaphore t = 0 ∧ ¬ (at_ r = AtEnd ∨ ∃ c, at_ r = AtCall c)) ∨ m_semaphore t = 1 ∧ (at_ r = AtEnd ∨ ∃ c, at_ r = AtCall c) ∧ m_cb t = None ∧ m_id t = r_tid r) as [[Es Hn]|(Es & Hp & Ec & Eid)].
  { unfold runner_ok, untold, told in Hok. destruct (at_ r); naive_solver. }
  - rewrite Es. exists w. split_and!; try done. intros j r2 Hj Ej Hp. exfalso. assert (j = i) as ->; [|assert (r2 = r) as -> by congruence; done]. apply (obj_inj w j i r2 r Hi Hj Hr). congruence.
  - rewrite Es. cbn [Z.ltb Z.compare]. rewrite bind_assoc, (run_update _ _ _ _ _ Ht), bind_ret. eexists. split; [done|].
    destruct (inv_own w (set_owners (<[o := Owned]> (owners w)) (set_heap (<[o := set_semaphore (m_semaphore t - 1) t]> (heap w)) w)) i r) as [H1 H2]; cbn; try done.
    + intros o2 Hne. rewrite Eo in Hne. by rewrite !lookup_insert_ne.
    + rewrite Eo, !lookup_insert_eq. split; by eexists.
    + rewrite Eo, !lookup_insert_eq. unfold runner_ok in *. destruct Hp as [Hp|[c Hp]]; rewrite Hp in *; destruct Hok as (? & Hok); (split; [done|]).
      * intros ? [= <-]. cbn. split_and!; [done|done|right; split; [done|lia]].
      * split; [by destruct Hok|]. intros ? [= <-]. cbn. split_and!; [done|done|right; split; [done|lia]].
    + unfold pend. destruct Hp as [Hp|[c Hp]]; by rewrite Hp.
    + split_and!; try done; intros; cbn; [by rewrite lookup_insert_ne|by rewrite lookup_insert_eq].
Qed.
Lemma join_ok w o rt : inv w → owners w !! o = Some Owned →
  ∃ w', (join o rt w = Ret tt w' ∨ join o rt w = Throw logic_error w') ∧ inv w' ∧ called w' ++ pending w' ≡ₚ called w ++ pending w ∧ runners w' = runners w.
Proof.
  intros Hi Ho. destruct (owner_live w o Hi) as [t Ht]; [by eexists|]. destruct (find_runner w o Hi) as (i & r & Hr & Eo); [by eapply elem_of_dom_2|].
  unfold join. rewrite (run_deref _ _ _ _ Ht). destruct (negb (m_thread t =? 0)); [|exists w; by split; [left|]].
  destruct (negb (rt =? 0)); [exists w; by split; [right|]|].
  exists (set_heap (<[o := set_thread 0 t]> (heap w)) w). split; [left; unfold update; by rewrite (run_deref _ _ _ _ Ht)|].
  subst o. destruct (owned_told w i r Hi Hr Ho) as (Hp & Htt & Hto). rewrite Ht in Hto. destruct (Hto t eq_refl) as (Hc & Hid & Hs).
  assert (told (Some (set_thread 0 t)) (Some Owned) (r_tid r)) as Hto' by (intros ? [= <-]; done).
  destruct (inv_own w (set_heap (<[obj r := set_thread 0 t]> (heap w)) w) i r) as [H1 H2]; cbn; try done.
  - intros o2 Hne. by rewrite lookup_insert_ne.
  - rewrite lookup_insert_eq, Ho. split; by eexists.
  - rewrite lookup_insert_eq, Ho. unfold runner_ok. destruct Hp as [->|[c ->]]; [done|]. split_and!; [done|by eexists|done].
  - unfold pend. by destruct Hp as [->|[c ->]].
Qed.
Lemma destroy_ok w o : inv w → owners w !! o = Some Owned →
  ∃ w', destroy o w = Ret tt w' ∧ inv w' ∧ called w' ++ pending w' ≡ₚ called w ++ pending w ∧ runners w' = runners w.
Proof.
  intros Hi Ho. destruct (owner_live w o Hi) as [t Ht]; [by eexists|]. destruct (find_runner w o Hi) as (i & r & Hr & Eo); [by eapply elem_of_dom_2|].
  unfold destroy. rewrite (run_deref _ _ _ _ Ht). eexists. split; [done|]. subst o. destruct (owned_told w i r Hi Hr Ho) as (Hp & Htt & Hto).
  destruct (inv_own w (set_owners (delete (obj r) (owners w)) (set_heap (delete (obj r) (heap w)) w)) i r) as [H1 H2]; cbn; try done.
  - intros o2 Hne. by rewrite !lookup_delete_ne.
  - rewrite !lookup_delete_eq. split; by intros [].
  - rewrite !lookup_delete_eq. unfold runner_ok. destruct Hp as [->|[c ->]]; [by split|]. split_and!; [done|by eexists|done].
  - unfold pend. by destruct Hp as [->|[c ->]].
Qed.
Lemma construct_ok w cb name rt handle tid : inv w →
  ∃ w', (if rt =? 0 then construct cb name rt handle tid w = Ret (next_loc w) w' else construct cb name rt handle tid w = Throw logic_error w')
  ∧ inv w' ∧ called w' ++ pending w' ≡ₚ (if rt =? 0 then [cb] else []) ++ called w ++ pending w
  ∧ runners w' = runners w ++ (if rt =? 0 then [mkRunner tid (AtStart (next_loc w)) None "UNKNOWN" ""] else []).
Proof.
  intros Hi. pose proof Hi as [I1 I2 I3 I4 I5]. unfold construct. rewrite bind_gets, !bind_modify. cbn [heap owners set_next].
  assert (next_loc w ∉ (obj <$> runners w)) as Hnew by (intros H; specialize (I3 _ H); lia).
  assert (heap w !! next_loc w = None) as Hh by (apply not_elem_of_dom; intros H%I4%elem_of_list_to_set; done).
  assert (owners w !! next_loc w = None) as Ho by (apply not_elem_of_dom; rewrite I5; by apply not_elem_of_dom).
  destruct (Z.eqb_spec rt 0) as [->|Hrt]; cbn [negb].
  - set (o := next_loc w) in *. erewrite run_update by (cbn; apply lookup_insert_eq). rewrite bind_modify. eexists. split; [done|].
    assert (∀ r, r ∈ runners w → obj r ≠ o) as Hne by (intros r Hr E; apply Hnew, list_elem_of_fmap; by exists r).
    split; [constructor; cbn|split; [|done]].
    + intros i r. rewrite insert_insert_eq. destruct (decide (i = length (runners w))) as [->|Hi'].
      * rewrite lookup_app_r, Nat.sub_diag by done. intros [= <-]. unfold runner_ok, obj. cbn. rewrite !lookup_insert_eq. eexists. split_and!; done.
      * intros Hr. apply lookup_app_Some in Hr as [Hr|[? Hr]]; [|apply list_lookup_singleton_Some in Hr as [? _]; lia].
        rewrite !lookup_insert_ne by (symmetry; apply Hne; by eapply list_elem_of_lookup_2). by eapply I1.
    + rewrite fmap_app. apply NoDup_app. split_and!; [done| |apply NoDup_singleton]. intros x Hx ->%list_elem_of_singleton. by apply Hnew.
    + intros x. rewrite fmap_app, elem_of_app. intros [Hx| ->%list_elem_of_singleton]; [specialize (I3 x Hx)|change (o < S o)%nat]; lia.
    + rewrite !dom_insert_L, fmap_app, list_to_set_app_L. cbn. set_solver.
    + by rewrite !dom_insert_L, I5, (union_assoc_L _ _ (dom (heap w))), union_idemp_L.
    + unfold pending. cbn [runners called heap set_runners set_heap set_owners set_next]. rewrite fmap_app, concat_app. cbn [fmap list_fmap concat]. rewrite insert_insert_eq. unfold obj at 2, pend at 2. cbn.
      rewrite lookup_insert_eq. cbn. assert ((λ r, pend (<[o := set_thread handle (Thread_new cb name)]> (heap w) !! obj r) r) <$> runners w = (λ r, pend (heap w !! obj r) r) <$> runners w) as ->.
      { apply list_fmap_ext. intros k r Hk. rewrite lookup_insert_ne; [done|]. symmetry. apply Hne. by eapply list_elem_of_lookup_2. }
      solve_Permutation.
  - eexists. split; [done|]. cbn. rewrite !delete_insert_id by done. split; [|split; [done|by rewrite app_nil_r]].
    constructor; cbn; try done. intros x Hx. specialize (I3 x Hx). lia.
Qed.

(** ** Histories *)
(** What can happen to threads and their objects; owners wait in the constructor
    and use the objects that they have. *)
Inductive thread_op :=
  | HConstruct (cb : Z) (name : string) (rt handle tid : Z) | HWait (o : loc) | HRun (i : nat) | HJoin (o : loc) (rt : Z) | HDestroy (o : loc).
Definition thread_exec (op : thread_op) : ST world unit := λ w,
  match op with
  | HConstruct cb name rt handle tid => (let* _ := construct cb name rt handle tid in ret tt) w
  | HWait o => if bool_decide (owners w !! o = Some Constructing) then construct_wait o w else Ret tt w
  | HRun i => run_step i w
  | HJoin o rt => if bool_decide (owners w !! o = Some Owned) then join o rt w else Ret tt w
  | HDestroy o => if bool_decide (owners w !! o = Some Owned) then destroy o w else Ret tt w
  end.
(** Exceptions end the call only. *)
Fixpoint thread_history (ops : list thread_op) (w : world) : option world :=
  match ops with
  | [] => Some w
  | op :: ops => match thread_exec op w with Ret _ w | Throw _ w => thread_history ops w | Crash _ => None end
  end.
(** The callbacks of the threads that were made. *)
Definition started (op : thread_op) : list Z := match op with HConstruct cb _ rt _ _ => if rt =? 0 then [cb] else [] | _ => [] end.

Lemma thread_exec_ok w op : inv w → ∃ w', (thread_exec op w = Ret tt w' ∨ thread_exec op w = Throw logic_error w') ∧ inv w'
  ∧ called w' ++ pending w' ≡ₚ started op ++ called w ++ pending w.
Proof.
  intros Hi. destruct op as [cb name rt handle tid|o|i|o rt|o]; cbn [thread_exec started].
  - destruct (construct_ok w cb name rt handle tid Hi) as (w' & E & H1 & H2 & _). exists w'. split; [|done]. unfold bind.
    destruct (rt =? 0); rewrite E; [by left|by right].
  - case_bool_decide as Ho; [|exists w; by split; [left|]]. destruct (construct_wait_ok w o Hi Ho) as (w' & E & H1 & H2 & _). exists w'. by split; [left|].
  - destruct (run_step_ok w i Hi) as (w' & E & H1 & H2 & _). exists w'. by split; [left|].
  - case_bool_decide as Ho; [|exists w; by split; [left|]]. destruct (join_ok w o rt Hi Ho) as (w' & E & H1 & H2 & _). by exists w'.
  - case_bool_decide as Ho; [|exists w; by split; [left|]]. destruct (destroy_ok w o Hi Ho) as (w' & E & H1 & H2 & _). exists w'. by split; [left|].
Qed.
Lemma thread_history_ok ops : ∀ w, inv w → ∃ w', thread_history ops w = Some w' ∧ inv w'
  ∧ called w' ++ pending w' ≡ₚ concat (started <$> ops) ++ called w ++ pending w.
Proof.
  induction ops as [|op ops IH]; intros w Hi; [by exists w|]. cbn [thread_history].
  destruct (thread_exec_ok w op Hi) as (w1 & E & H1 & P1). destruct (IH w1 H1) as (w2 & E2 & H2 & P2). exists w2.
  split; [by destruct E as [-> | ->]|]. split; [done|]. rewrite P2, P1, fmap_cons. cbn [concat]. solve_Permutation.
Qed.
Lemma inv_start : inv threads_start.
Proof. constructor; cbn; [intros i r; by rewrite lookup_nil|constructor|set_solver..]. Qed.

(** ** Running to the end *)
Lemma runners_complete n : ∀ w, inv w → list_sum (rank <$> runners w) = n →
  ∃ more w', thread_history more w = Some w' ∧ inv w' ∧ called w' ++ pending w' ≡ₚ called w ++ pending w ∧ Forall (λ r, at_ r = AtEnd) (runners w').
Proof.
  assert (∀ r, rank r = 0%nat ↔ at_ r = AtEnd) as Hrank by (intros r; unfold rank; destruct (at_ r); naive_solver lia).
  induction n as [|n IH]; intros w Hi Hn.
  - exists [], w. split_and!; [done..|]. apply sum_zero in Hn. eapply Forall_impl; [exact Hn|]. intros r. by rewrite Hrank.
  - assert (¬ Forall (λ r, rank r = 0%nat) (runners w)) as Hf by (intros Hf%sum_zero; lia).
    apply not_Forall_Exists in Hf; [|apply _]. apply Exists_exists in Hf as (r & (i & Hr)%list_elem_of_lookup & Hne).
    destruct (run_step_ok w i Hi) as (w1 & E & H1 & P1 & Hx). rewrite Hr in Hx. destruct Hx as (r' & Er & Ek).
    destruct (IH w1 H1) as (more & w2 & E2 & H2 & P2 & Hend).
    { rewrite Er, (sum_insert rank _ _ _ _ Hr). rewrite (sum_delete rank _ _ _ Hr) in Hn. cbn in Hne. lia. }
    exists (HRun i :: more), w2. cbn [thread_history thread_exec]. rewrite E. split_and!; [done|done|by rewrite P2|done].
Qed.
Lemma waits_complete l : ∀ w, inv w → Forall (λ r, at_ r = AtEnd) (runners w) →
  ∃ w', thread_history (HWait <$> l) w = Some w' ∧ inv w' ∧ called w' ++ pending w' ≡ₚ called w ++ pending w ∧ runners w' = runners w
  ∧ ∀ o, owners w' !! o = Some Constructing → owners w !! o = Some Constructing ∧ o ∉ l.
Proof.
  induction l as [|o l IH]; intros w Hi Hend; [exists w; split_and!; [done..|set_solver]|]. rewrite fmap_cons. cbn [thread_history thread_exec].
  case_bool_decide as Ho.
  - destruct (construct_wait_ok w o Hi Ho) as (w1 & E & H1 & P1 & R1 & F1 & Hown). rewrite E.
    destruct (IH w1 H1) as (w2 & E2 & H2 & P2 & R2 & Hl); [by rewrite R1|]. exists w2. split_and!; [done|done|by rewrite P2|by rewrite R2|].
    destruct (owner_live w o Hi) as [t Ht]; [by eexists|]. destruct (find_runner w o Hi) as (i & r & Hr & Eo); [by eapply elem_of_dom_2|].
    pose proof (Forall_lookup_1 _ _ _ _ Hend Hr) as Hr'. specialize (Hown i r Hr Eo (or_introl Hr')).
    intros o2 Ho2. destruct (Hl o2 Ho2) as [Hc Hn]. destruct (decide (o2 = o)) as [->|Hne]; [congruence|]. rewrite (F1 o2 Hne) in Hc. set_solver.
  - destruct (IH w Hi Hend) as (w2 & E2 & H2 & P2 & R2 & Hl). exists w2. split_and!; [done..|]. intros o2 Ho2. destruct (Hl o2 Ho2) as [Hc Hn]. set_solver.
Qed.

(** C29: A thread that is started runs its callback, once, and can be relied on when
    its constructor returns.  However the steps of the makers and of the new
    threads interleave, and whenever owners destroy or join their objects, no
    thread touches an object that is gone; an object whose constructor returned has
    the number of its thread and has given its callback away; the callbacks that
    were called and those still to be called are those of the threads that were
    made; and everything can run to its end: every callback called, no maker
    waiting. *)
Theorem threads_run ops : ∃ w, thread_history ops threads_start = Some w
  ∧ called w ++ pending w ≡ₚ concat (started <$> ops)
  ∧ (∀ o, owners w !! o = Some Owned → ∃ t i r, heap w !! o = Some t ∧ runners w !! i = Some r ∧ GetThis r = Some o
       ∧ m_id t = r_tid r ∧ m_cb t = None)
  ∧ ∃ more w', thread_history more w = Some w' ∧ called w' ≡ₚ concat (started <$> ops) ∧ ∀ o, owners w' !! o ≠ Some Constructing.
Proof.
  destruct (thread_history_ok ops threads_start inv_start) as (w & E & Hi & P). exists w. cbn in P. rewrite app_nil_r in P. split; [done|]. split; [done|]. split.
  - intros o Ho. destruct (owner_live w o Hi) as [t Ht]; [by eexists|]. destruct (find_runner w o Hi) as (i & r & Hr & Eo); [by eapply elem_of_dom_2|].
    subst o. destruct (owned_told w i r Hi Hr Ho) as (Hp & [o Htt] & Hto). destruct (Hto t Ht) as (Hc & Hid & _). exists t, i, r. split_and!; try done.
    unfold GetThis, obj. by destruct Hp as [->|[c ->]]; rewrite Htt.
  - destruct (runners_complete _ w Hi eq_refl) as (more & w1 & E1 & H1 & P1 & Hend).
    destruct (waits_complete (elements (dom (owners w1))) w1 H1 Hend) as (w2 & E2 & H2 & P2 & R2 & Hl).
    exists (more ++ (HWait <$> elements (dom (owners w1)))), w2. split; [|split].
    + clear -E1 E2. revert w E1. induction more as [|op more IH]; intros w E1; cbn in *; [by injection E1 as ->|]. destruct (thread_exec op w); [by apply IH..|done].
    + rewrite <- P, <- P1, <- P2. assert (pending w2 = []) as ->; [|by rewrite app_nil_r]. unfold pending. rewrite R2. clear -Hend.
      induction Hend as [|r l Hr _ IH]; [done|]. rewrite fmap_cons. cbn [concat]. rewrite IH. unfold pend. by rewrite Hr.
    + intros o Ho. destruct (Hl o Ho) as [Hc Hn]. apply Hn, elem_of_elements, elem_of_dom. by eexists.
Qed.

(** ** Where the code departs from its purpose *)
(** A wait that is interrupted makes the constructor throw, which frees an object
    that the new thread still uses. *)
Lemma interrupted_wait :
  match construct 7 "worker" 0 140 31 threads_start with
  | Ret o w => match construct_interrupted o w with Throw logic_error w => run_step 0%nat w = Crash UseAfterFree | _ => False end
  | _ => False
  end.
Proof. by vm_compute. Qed.
(** [SetName] in a thread whose object is gone writes to that object. *)
Lemma setName_dangles :
  match thread_history [HConstruct 7 "worker" 0 140 31; HRun 0%nat; HRun 0%nat; HRun 0%nat; HRun 0%nat; HRun 0%nat; HWait 0%nat; HDestroy 0%nat] threads_start with
  | Some w => SetName 0%nat "renamed" w = Crash UseAfterFree
  | None => False
  end.
Proof. by vm_compute. Qed.
