(* ===== verification/Application.v ===== *)
(** * Application: starting the process ([include/application.h], [src/application.cpp], [src/daemon.cpp])

    Here the parts come together: the command line, the configuration, the file
    system, the process table, addresses and servers.  What the system answers
    comes as arguments or in the classes of the parts. *)
From S2P Require Import Prelude CLib Words OrderedSet LexicalCast Files Env Config Address Socket TcpServer.

(** ** The configuration of a server *)
Record HttpServerConf := mkConf { address : list string; keepalive : Z; timeout : Z; name : string }.
#[global] Instance HttpServerConf_eq : EqDecision HttpServerConf.
Proof. solve_decision. Defined.
Definition HttpServerConf_new : HttpServerConf := mkConf [] 0 (1000 * 2 * 60) "".
Definition isValid (c : HttpServerConf) : bool := negb (bool_decide (address c = [])).

(** [as<int>()] and a node assigned from an [int] *)
Class YamlInts `{YamlFields} := { as_int : node → option Z; int_node : Z → node }.

Section casts.
Context `{YamlInts}.
(** [node[key].as<T>(fallback)]; [None] when [node[key]] throws. *)
Definition as_or {A} (n : node) (key : string) (as_T : node → option A) (fallback : A) : option A :=
  f ← field n key; Some (match f with Some m => default fallback (as_T m) | None => fallback end).
#[export] Instance HttpServerConf_from : LexicalCast string HttpServerConf := λ v,
  n ← Load v;
  keepalive ← as_or n "keepalive" as_int (keepalive HttpServerConf_new);
  timeout ← as_or n "timeout" as_int (timeout HttpServerConf_new);
  name ← as_or n "name" as_string (name HttpServerConf_new);
  address ← field n "address";
  address ← match address with Some m => mapM (λ i, as_string (node_at m i)) (seq 0 (node_size m)) | None => Some [] end;
  Some (mkConf address keepalive timeout name).
#[export] Instance HttpServerConf_to : LexicalCast HttpServerConf string := λ conf,
  let n := set_key "name" (scalar_node (name conf)) null_node in
  let n := set_key "keepalive" (int_node (keepalive conf)) n in
  let n := set_key "timeout" (int_node (timeout conf)) n in
  let n := match address conf with [] => n | l => set_key "address" (foldl push_back null_node (scalar_node <$> l)) n end in
  Some (emit n).

(** The types of the variables that this part uses; [lexical_cast] of a string is that string. *)
Inductive app_code := CString | CServers.
#[export] Instance app_code_eq : EqDecision app_code.
Proof. solve_decision. Defined.
Definition app_El (c : app_code) : Type := match c with CString => string | CServers => vector HttpServerConf end.
Definition app_El_eq (c : app_code) : app_El c → app_El c → bool :=
  match c with
  | CString => λ a b, bool_decide (a = b)
  | CServers => λ a b, bool_decide (vector_elems a = vector_elems b)
  end.
Definition app_from (c : app_code) : LexicalCast string (app_El c) :=
  match c with CString => λ s, Some s | CServers => vector_from end.
Definition app_to (c : app_code) : LexicalCast (app_El c) string :=
  match c with CString => λ s, Some s | CServers => vector_to end.
#[export] Instance app_types : ConfigTypes := {
  code := app_code; El := app_El; El_eq := app_El_eq; El_from := app_from; El_to := app_to
}.
End casts.

(** ** The process ([daemon.h]) *)
Record ProcessInfo := mkProcess { parent_id : Z; main_id : Z; parent_start_time : Z; main_start_time : Z; restart_count : Z }.
Definition ProcessInfo_new : ProcessInfo := mkProcess 0 0 0 0 0.
Definition process_toString (Time2Str : Z → string) (p : ProcessInfo) : string :=
  "[ProcessInfo parent_id=" +:+ pretty (parent_id p) +:+ " main_id=" +:+ pretty (main_id p) +:+ " parent_start_time=" +:+
  Time2Str (main_start_time p) +:+ " restart_count=" +:+ pretty (restart_count p) +:+ "]".

(** What happens in one turn: what [fork] gives and, to the parent, [waitpid];
    [getpid] and [time] in the child. *)
Record fork_event := mkFork { fk_return : Z; fk_status : Z; fk_pid : Z; fk_time : Z }.

Section daemon.
Context {A : Type} (get_process : A → ProcessInfo) (set_process : ProcessInfo → A → A) (note_sleep : Z → A → A).
Definition process_with (f : ProcessInfo → ProcessInfo) : ST A unit := modify (λ s, set_process (f (get_process s)) s).
Fixpoint daemon_loop (interval : Z) (main_cb : ST A Z) (turns : list fork_event) : ST A Z :=
  match turns with
  | [] => crash Diverges
  | t :: turns =>
      if fk_return t =? 0 then
        process_with (λ p, mkProcess (parent_id p) (fk_pid t) (parent_start_time p) (fk_time t) (restart_count p)) ;;;
        main_cb
      else if fk_return t <? 0 then ret (-1)
      else if negb (fk_status t =? 0) then
        process_with (λ p, mkProcess (parent_id p) (main_id p) (parent_start_time p) (main_start_time p) (u32 (restart_count p + 1))) ;;;
        modify (note_sleep interval) ;;;
        daemon_loop interval main_cb turns
      else ret 0
  end.
Definition real_daemon (pid time interval : Z) (main_cb : ST A Z) (turns : list fork_event) : ST A Z :=
  process_with (λ p, mkProcess pid (main_id p) time (main_start_time p) (restart_count p)) ;;;
  daemon_loop interval main_cb turns.
Definition start_daemon (pid time interval : Z) (main_cb : ST A Z) (turns : list fork_event) (is_daemon : bool) : ST A Z :=
  if negb is_daemon then main_cb else real_daemon pid time interval main_cb turns.
End daemon.

(** ** [Application] *)
Section application.
Context {K : Type} `{Net K} {F : Type} `{FileSystem F} `{YamlInts} (host SOMAXCONN : Z).

(** A server without the system, which all of them share. *)
Record HttpServer := mkHttpServer { tcp : server unit; m_isKeepalive : bool }.
Definition with_system {A B} (b : B) (s : server A) : server B :=
  mkServer (sockets s) (m_socks s) (m_isStop s) (m_readTimeout s) (m_name s) (accepts s) (clients s) b.

(** [contents] are the files that are written here. *)
Record app := mkApp {
  m_env : Env; m_config : config unit; m_fs : F; contents : gmap string string; printed : list string;
  m_process : ProcessInfo; slept : list Z; m_sys : K; m_httpservers : list HttpServer
}.
Definition set_env v a := mkApp v (m_config a) (m_fs a) (contents a) (printed a) (m_process a) (slept a) (m_sys a) (m_httpservers a).
Definition set_config v a := mkApp (m_env a) v (m_fs a) (contents a) (printed a) (m_process a) (slept a) (m_sys a) (m_httpservers a).
Definition set_fs v a := mkApp (m_env a) (m_config a) v (contents a) (printed a) (m_process a) (slept a) (m_sys a) (m_httpservers a).
Definition set_contents v a := mkApp (m_env a) (m_config a) (m_fs a) v (printed a) (m_process a) (slept a) (m_sys a) (m_httpservers a).
Definition set_printed v a := mkApp (m_env a) (m_config a) (m_fs a) (contents a) v (m_process a) (slept a) (m_sys a) (m_httpservers a).
Definition set_process v a := mkApp (m_env a) (m_config a) (m_fs a) (contents a) (printed a) v (slept a) (m_sys a) (m_httpservers a).
Definition set_slept v a := mkApp (m_env a) (m_config a) (m_fs a) (contents a) (printed a) (m_process a) v (m_sys a) (m_httpservers a).
Definition set_sys v a := mkApp (m_env a) (m_config a) (m_fs a) (contents a) (printed a) (m_process a) (slept a) v (m_httpservers a).
Definition set_httpservers v a := mkApp (m_env a) (m_config a) (m_fs a) (contents a) (printed a) (m_process a) (slept a) (m_sys a) v.

(** A call on a part. *)
Definition on_part {P A} (part : app → P) (put : P → app → app) (m : ST P A) : ST app A := λ a,
  match m (part a) with
  | Ret x p => Ret x (put p a)
  | Throw e p => Throw e (put p a)
  | Crash f => Crash f
  end.
Definition on_env {A} (m : ST Env A) : ST app A := on_part m_env set_env m.
Definition on_config {A} (m : ST (config unit) A) : ST app A := on_part m_config set_config m.
Definition on_fs {A} (m : ST F A) : ST app A := on_part m_fs set_fs m.
Definition print_help : ST app unit :=
  let* s := on_env printHelp in modify (λ a, set_printed (printed a ++ [s]) a).

(** [g_server_work_path], [g_server_pid_file] and [g_http_servers_conf] *)
Definition work_path : ST app string := on_config (getValue CString "server.work_path").
Definition pid_path : ST app string :=
  let* w := work_path in
  let* p := on_config (getValue CString "service.pid_file") in
  ret (w +:+ "/" +:+ p).
(** [std::getline] of a whole file: nothing from an empty one. *)
Fixpoint until_newline (s : string) : string :=
  match s with ""%string => "" | String c s => if char_code c =? 10 then "" else String c (until_newline s) end.
Definition first_line (s : string) : option string := if bool_decide (s = ""%string) then None else Some (until_newline s).
Definition is_running (alive : Z → bool) (pidfile : string) (a : app) : bool :=
  IsRunningPidfile (bool_decide (is_Some (contents a !! pidfile))) (contents a !! pidfile ≫= first_line) alive.

Definition add_helps : ST Env unit :=
  addHelp "s" "start with the terminal" ;;;
  addHelp "d" "run as daemon" ;;;
  addHelp "c" "conf path default: ./conf" ;;;
  addHelp "p" "print help".
(** After the command line: the process, the configuration and the work path. *)
Definition init_rest (fuel dir_fuel : nat) (files : conf_files) (alive : Z → bool) : ST app bool :=
  let* pidfile := pid_path in
  let* a := gets id in
  if is_running alive pidfile a then ret false
  else
    let* c := on_env (get "c" "cfg") in
    let* conf_path := on_env (getAbsolutePath c) in
    let* a := gets id in
    on_config (LoadFromConfDir fuel dir_fuel (m_env a) files conf_path) ;;;
    let* w := work_path in
    let* made := on_fs (Mkdir w) in
    if negb made then ret false else ret true.
Definition init (exe_link : option string) (argv : list string) (fuel dir_fuel : nat) (files : conf_files) (alive : Z → bool) : ST app bool :=
  on_env add_helps ;;;
  let* ok := on_env (Env.init exe_link argv) in
  if negb ok then print_help ;;; ret false
  else
    let* p := on_env (has "p") in
    if p : bool then print_help ;;; ret false
    else
      let* s := on_env (has "s") in
      let* d := on_env (has "d") in
      let run_type := if d : bool then 2 else if s : bool then 1 else 0 in
      if run_type =? 0 then print_help ;;; ret false
      else init_rest fuel dir_fuel files alive.

(** [serve] is what the IOManager runs until it stops.  The stream keeps what is
    written to it until it is destroyed. *)
Definition main (can_open : string → F → bool) (pid : Z) (serve : ST app unit) : ST app Z :=
  let* pidfile := pid_path in
  let* a := gets id in
  if negb (can_open pidfile (m_fs a)) then ret 0
  else
    modify (λ a, set_contents (<[pidfile := ""%string]> (contents a)) a) ;;;
    serve ;;;
    modify (λ a, set_contents (<[pidfile := pretty pid]> (contents a)) a) ;;;
    ret 0.
(** The [int] of [start_daemon] becomes a [bool]. *)
Definition run (can_open : string → F → bool) (pid time interval : Z) (serve : ST app unit) (turns : list fork_event) : ST app bool :=
  let* is_daemon := on_env (has "d") in
  let* rt := start_daemon m_process set_process (λ n a, set_slept (slept a ++ [n]) a) pid time interval (main can_open pid serve) turns is_daemon in
  ret (negb (rt =? 0)).

(** ** [run_fiber] *)
Context (getaddrinfo : string → option string → Z → Z → Z → option (list (list Z))) (interfaces : option (list ifaddrs)).
(** The addresses of one entry; [None] among them is a null pointer. *)
Definition resolve {S} (a : string) : ST S (list (option Address)) :=
  let l := bytes_of_string a in
  match memchr 58 l with
  | None => ret []
  | Some pos =>
      let* addr := LookupAny host getaddrinfo a AF_INET 0 0 in
      match addr with
      | Some addr => ret [Some addr]
      | None =>
          let* r := GetInterfaceAddress_of host interfaces [] (string_of_bytes (take pos l)) AF_UNSPEC in
          if negb r.1 then ret []
          else ret ((λ x, if is_ip x.1 then Some (setPort host (u16 (atoi (drop (pos + 1) l))) x.1) else None) <$> r.2)
      end
  end.
Fixpoint resolve_all {S} (l : list string) : ST S (list (option Address)) :=
  match l with
  | [] => ret []
  | a :: l => let* x := resolve a in let* y := resolve_all l in ret (x ++ y)
  end.
(** [bind] works through the pointers. *)
Fixpoint all_there {S} (l : list (option Address)) : ST S (list Address) :=
  match l with
  | [] => ret []
  | None :: _ => crash NullDeref
  | Some a :: l => let* l := all_there l in ret (a :: l)
  end.
(** [None] when the process exits. *)
Definition start_server (read_timeout : Z) (conf : HttpServerConf) : ST app (option unit) :=
  let* addrs := resolve_all (address conf) in
  let* addrs := all_there addrs in
  λ a,
    match (let* r := bind_addrs host SOMAXCONN addrs [] in
           if negb r.1 then ret None
           else
             (if negb (bool_decide (name conf = ""%string)) then modify (set_name (name conf)) else ret tt) ;;;
             let* _ := start in ret (Some tt)) (TcpServer_new read_timeout (m_sys a)) with
    | Ret (Some _) s =>
        Ret (Some tt) (set_httpservers (m_httpservers a ++ [mkHttpServer (with_system tt s) (negb (keepalive conf =? 0))]) (set_sys (sys_ s) a))
    | Ret None s => Ret None (set_sys (sys_ s) a)
    | Throw e s => Throw e (set_sys (sys_ s) a)
    | Crash f => Crash f
    end.
Fixpoint start_servers (read_timeout : Z) (confs : list HttpServerConf) : ST app (option unit) :=
  match confs with
  | [] => ret (Some tt)
  | conf :: confs =>
      let* r := start_server read_timeout conf in
      match r with None => ret None | Some _ => start_servers read_timeout confs end
  end.
Definition run_fiber (read_timeout : Z) : ST app (option unit) :=
  let* confs := on_config (getValue CServers "http_servers") in
  start_servers read_timeout (vector_elems confs).
End application.
Arguments app K F {_ _ _}.
