(* ===== verification/ApplicationTheorems.v ===== *)
(** * ApplicationTheorems: what a process has when it has started *)
From S2P Require Import Prelude CLib Words OrderedSet LexicalCast Files Env Config ConfigTheorems.
From S2P Require Import Endian Address AddressFacts AddressOrder AddressLookup Socket SocketTheorems TcpServer TcpServerTheorems Application.

(** ** The command line *)
Lemma options_keys os m k : is_Some (options os m !! k) ↔ k ∈ os.*1 ∨ is_Some (m !! k).
Proof.
  unfold options. revert m. induction os as [|[k' v] os IH]; intros m; cbn [foldl fmap list_fmap fst snd]; [set_solver|].
  rewrite IH, lookup_insert_is_Some, elem_of_cons. destruct (decide (k' = k)); naive_solver.
Qed.
(** The process is to be started: there are only options, with [-s] or [-d] and without [-p]. *)
Definition wanted (args : list string) : Prop :=
  ∃ os, Forall opt_ok os ∧ args = render_opts os ∧ "p"%string ∉ os.*1 ∧ ("s"%string ∈ os.*1 ∨ "d"%string ∈ os.*1).
Definition asks (e : Env) : Prop := m_args e !! "p"%string = None ∧ (is_Some (m_args e !! "s"%string) ∨ is_Some (m_args e !! "d"%string)).
Lemma env_init_wanted link program args e : size (default ""%string link) < 1024 → m_args e = ∅ →
  ∃ b e', Env.init link (program :: args) e = Ret b e' ∧ (wanted args ↔ b = true ∧ asks e').
Proof.
  intros Hl He. destruct (init_cases link program args e Hl) as (H1 & H2 & b & e' & E). exists b, e'. split; [done|].
  assert (∀ os k, is_Some (options os (m_args e) !! k) ↔ k ∈ os.*1) as Hk.
  { intros os k. rewrite options_keys, He, lookup_empty. split; [intros [?|[]]; done|by left]. }
  unfold wanted, asks. split.
  - intros (os & Hos & Ea & Hp & Hsd). destruct (H2 os Hos Ea) as (e2 & E2 & Em). rewrite E in E2. injection E2 as -> ->. split; [done|].
    rewrite Em, eq_None_not_Some, !Hk. done.
  - intros [-> Hask]. destruct (H1 e' E) as (os & Hos & Ea & Em & _). exists os. rewrite Em, eq_None_not_Some, !Hk in Hask. by destruct Hask.
Qed.

(** ** The configuration *)
Section application.
Context {K : Type} `{Net K} {F : Type} `{FileLaws F} `{YamlInts}.
Implicit Types (a : app K F).

Definition has_var (c : app_code) (name : string) (s : config unit) : Prop := ∃ x : ConfigVar unit c, find_var name s = Some (existT c x).
Record ready (s : config unit) : Prop := {
  ready_inv : ConfigTheorems.inv s; ready_calm : calm s;
  ready_work : has_var CString "server.work_path" s; ready_pid : has_var CString "service.pid_file" s; ready_servers : has_var CServers "http_servers" s
}.
Lemma getValue_ret c name s : has_var c name s → ∃ v, getValue c name s = Ret v s.
Proof using. intros [x Hx]. exists (m_val x). unfold getValue. by rewrite (bind_Ret _ _ _ _ _ (var_of_ret name x s Hx)). Qed.
Lemma getAbsolutePath_ret p e : ∃ q, getAbsolutePath p e = Ret q e.
Proof using. unfold getAbsolutePath. destruct p as [|c p]; [by eexists|]. destruct (char_code c =? 47); by eexists. Qed.
Lemma load_ready k n e files p s : (∀ f root, LoadFile files f = Some root → bounded k root) → (∀ q, shallow (conf_dir files) n q) →
  ready s → ∃ s', LoadFromConfDir (S k) (S n) e files p s = Ret tt s' ∧ ready s'.
Proof using.
  intros Hb Hd [R1 R2 R3 R4 R5]. unfold LoadFromConfDir. destruct (getAbsolutePath_ret p e) as [q ->].
  destruct (listing_ret (conf_dir files) ".yml" n q [] (Hd q)) as (l & -> & _). cbn [Datatypes.app].
  destruct (load_files_ret k files l Hb s R1 R2) as (s' & E & I' & C' & F'). exists s'. split; [done|].
  assert (∀ c name, has_var c name s → has_var c name s') as Hv.
  { intros c name [x Hx]. destruct (F' _ _ Hx) as [texts Ht]. eexists. exact Ht. }
  split; auto.
Qed.

(** ** [init] *)
Lemma on_part_ret {P A} (part : app K F → P) put (m : ST P A) a x p : m (part a) = Ret x p → on_part part put m a = Ret x (put p a).
Proof using. intros E. unfold on_part. by rewrite E. Qed.
Lemma set_part_same a : set_config (m_config a) a = a ∧ set_env (m_env a) a = a ∧ set_fs (m_fs a) a = a.
Proof using. by destruct a. Qed.
Lemma work_path_ret a : has_var CString "server.work_path" (m_config a) → ∃ w, work_path a = Ret w a ∧ getValue CString "server.work_path" (m_config a) = Ret w (m_config a).
Proof using.
  intros Hv. destruct (getValue_ret _ _ _ Hv) as [w E]. exists w. split; [|done]. unfold work_path, on_config. rewrite (on_part_ret _ _ _ _ _ _ E). by destruct a.
Qed.
Lemma pid_path_ret a : ready (m_config a) → ∃ p, pid_path a = Ret p a.
Proof using.
  intros [_ _ R3 R4 _]. destruct (work_path_ret a R3) as (w & Ew & _). destruct (getValue_ret _ _ _ R4) as [p Ep]. eexists.
  unfold pid_path. rewrite (bind_Ret _ _ _ _ _ Ew). unfold on_config. rewrite (bind_Ret _ _ _ _ _ (on_part_ret _ _ _ _ _ _ Ep)). by destruct a.
Qed.

(** What [init_rest] does to a process that is asked for. *)
Definition rest_ended k n files alive a (r : outcome (app K F) bool) : Prop :=
  match r with
  | Ret true a' => printed a' = printed a ∧ ready (m_config a')
      ∧ (∃ pidfile, pid_path a = Ret pidfile a ∧ is_running alive pidfile a = false)
      ∧ ∃ w, work_path a' = Ret w a' ∧ (fs_lstat w (m_fs a) = true ∨ fs_access w (m_fs a') = true)
  | Ret false a' => printed a' = printed a
      ∧ ((a' = a ∧ ∃ pidfile, pid_path a = Ret pidfile a ∧ is_running alive pidfile a = true)
         ∨ ready (m_config a') ∧ ∃ w q g, work_path a' = Ret w a' ∧ fs_access q g = false ∧ (fs_mkdir q g).1 = false)
  | Throw _ _ => False
  | Crash f => f = OutOfBounds ∧ ∃ e p s, LoadFromConfDir (S k) (S n) e files p (m_config a) = Ret tt s ∧ getValue CString "server.work_path" s = Ret ""%string s
  end.
Lemma init_rest_ended k n files alive a : (∀ f root, LoadFile files f = Some root → bounded k root) → (∀ q, shallow (conf_dir files) n q) →
  ready (m_config a) → rest_ended k n files alive a (init_rest (S k) (S n) files alive a).
Proof using All.
  intros Hb Hd Hr. destruct (pid_path_ret a Hr) as [pidfile Ep]. unfold init_rest. rewrite (bind_Ret _ _ _ _ _ Ep), bind_gets. unfold id.
  destruct (is_running alive pidfile a) eqn:Erun; [cbn; split; [done|]; left; split; [done|by exists pidfile]|].
  assert (∃ c, on_env (get "c" "cfg") a = Ret c a) as [c Ec] by (eexists; unfold on_env, on_part, get, gets; destruct a; reflexivity).
  rewrite (bind_Ret _ _ _ _ _ Ec). destruct (getAbsolutePath_ret c (m_env a)) as [q Eq].
  assert (on_env (getAbsolutePath c) a = Ret q a) as Eq' by (unfold on_env; rewrite (on_part_ret _ _ _ _ _ _ Eq); by destruct a).
  rewrite (bind_Ret _ _ _ _ _ Eq'), bind_gets. unfold id. destruct (load_ready k n (m_env a) files q (m_config a) Hb Hd Hr) as (s & Es & Hs).
  unfold on_config at 1. rewrite (bind_Ret _ _ _ _ _ (on_part_ret _ _ _ _ _ _ Es)). set (a1 := set_config s a).
  destruct (work_path_ret a1 (ready_work _ Hs)) as (w & Ew & Egw). rewrite (bind_Ret _ _ _ _ _ Ew). cbn in Egw.
  destruct (decide (w = ""%string)) as [->|Hw].
  - unfold Mkdir, on_fs, on_part, bind. cbn [m_fs a1 set_config]. unfold gets, id. destruct (fs_lstat "" (m_fs a)) eqn:El.
    + cbn. split_and!; [done|done|by exists pidfile|]. exists ""%string. split; [|by left]. destruct a. exact Ew.
    + cbn. split; [done|]. by exists (m_env a), q, s.
  - destruct (Mkdir_ret w (m_fs a1) Hw) as (b & f' & Em & Ht & Hf). unfold on_fs. rewrite (bind_Ret _ _ _ _ _ (on_part_ret _ _ _ _ _ _ Em)).
    destruct (work_path_ret (set_fs f' a1) (ready_work _ Hs)) as (w' & Ew' & Egw').
    assert (w' = w) as -> by (cbn in Egw'; congruence). destruct b; cbn.
    + split_and!; [done|done|by exists pidfile|]. exists w. split; [done|]. destruct (Ht eq_refl) as [|[? _]]; [by left|by right].
    + split; [done|]. right. split; [done|]. destruct (Hf eq_refl) as (i & g & _ & Hm & Ha). by exists w, (prefix_path (String.list_ascii_of_string w) i), g.
Qed.

(** C31: [init] starts what is asked for, and nothing else.  It always returns, unless
    the configuration sets the work path to nothing.  It answers yes only if the
    command line is one of options with [-s] or [-d] and without [-p], the process
    file named before the configuration is read does not name a live process, and
    the configured work path is there; the configuration keeps its variables.  When
    it answers no, either the help was printed, once, because the process was not
    asked for, and nothing else changed; or the process is running, or a directory
    could not be made, and nothing was printed. *)
Theorem init_ready link program args k n files alive a :
  size (default ""%string link) < 1024 → m_args (m_env a) = ∅ → ready (m_config a) →
  (∀ f root, LoadFile files f = Some root → bounded k root) → (∀ q, shallow (conf_dir files) n q) →
  (wanted args ∧ ∃ e, rest_ended k n files alive (set_env e a) (init link (program :: args) (S k) (S n) files alive a))
  ∨ (¬ wanted args ∧ ∃ e text, init link (program :: args) (S k) (S n) files alive a = Ret false (set_printed (printed a ++ [text]) (set_env e a))).
Proof using All.
  intros Hl Ha Hr Hb Hd. remember (init link (program :: args) (S k) (S n) files alive a) as r eqn:Er. unfold init in Er.
  assert (∃ h, on_env add_helps a = Ret tt (set_env (set_helps h (m_env a)) a)) as [h Eh] by (eexists; reflexivity).
  rewrite (bind_Ret _ _ _ _ _ Eh) in Er. clear Eh. set (a0 := set_env _ a) in Er.
  destruct (env_init_wanted link program args (m_env a0) Hl Ha) as (b & e1 & E1 & Hw).
  unfold on_env at 1 in Er. rewrite (bind_Ret _ _ _ _ _ (on_part_ret _ _ _ _ _ _ E1)) in Er. set (a1 := set_env e1 a0) in Er.
  assert (∃ text, (print_help ;;; ret false) a1 = Ret false (set_printed (printed a ++ [text]) (set_env e1 a))) as [text Hhelp] by (eexists; reflexivity).
  assert (¬ (b = true ∧ asks e1) → r = (print_help ;;; ret false) a1 →
    ¬ wanted args ∧ ∃ e text, r = Ret false (set_printed (printed a ++ [text]) (set_env e a))) as Hno.
  { intros Hn ->. split; [by rewrite Hw|]. rewrite Hhelp. by exists e1, text. }
  destruct b; cbn [negb] in Er; [|right; apply Hno; [naive_solver|done]].
  assert (∀ key, on_env (has key) a1 = Ret (bool_decide (is_Some (m_args e1 !! key))) a1) as Hhas by done.
  rewrite (bind_Ret _ _ _ _ _ (Hhas "p"%string)) in Er.
  case_bool_decide as Hp; [right; apply Hno; [unfold asks; intros [_ [Hp' _]]; rewrite Hp' in Hp; by destruct Hp|done]|].
  rewrite (bind_Ret _ _ _ _ _ (Hhas "s"%string)), (bind_Ret _ _ _ _ _ (Hhas "d"%string)) in Er. rewrite <- eq_None_not_Some in Hp.
  assert (is_Some (m_args e1 !! "s"%string) ∨ is_Some (m_args e1 !! "d"%string) → r = init_rest (S k) (S n) files alive a1 →
    wanted args ∧ ∃ e, rest_ended k n files alive (set_env e a) r) as Hyes.
  { intros Hsd ->. split; [by apply Hw|]. exists e1. change (set_env e1 a) with a1. by apply init_rest_ended. }
  case_bool_decide as Hdd; [left; apply Hyes; [by right|done]|]. case_bool_decide as Hss; [left; apply Hyes; [by left|done]|].
  right. apply Hno; [unfold asks; naive_solver|done].
Qed.
End application.

(** ** Addresses *)
Section addresses.
Context (host : Z) (getaddrinfo : string → option string → Z → Z → Z → option (list (list Z))) (interfaces : option (list ifaddrs)).
(** The memory behind an answer of the resolver is large enough for its family. *)
Definition answer_ok (r : list Z) : Prop := 16 ≤ zlen r ∧ (unrepr host uint16_t (slice r 0 2) = AF_INET6 → 28 ≤ zlen r).
Definition resolver_ok : Prop := ∀ node service family type protocol l, getaddrinfo node service family type protocol = Some l → Forall answer_ok l.
Definition interfaces_ok : Prop := ∀ l, interfaces = Some l → Forall iface_ok l.

Lemma create_all_ret l : Forall answer_ok l → ∃ addrs, ∀ S (s : S), create_all host l s = Ret addrs s.
Proof using.
  induction 1 as [|r l [H16 H28] _ [addrs IH]]; [by exists []|].
  assert (∃ x, ∀ S (s : S), Create host (Some r) (zlen r) s = Ret (Some x) s) as [x Hx].
  { unfold Create. destruct (Z.eqb_spec (unrepr host uint16_t (slice r 0 2)) AF_INET) as [E|E]; [|destruct (Z.eqb_spec (unrepr host uint16_t (slice r 0 2)) AF_INET6) as [E6|E6]]; eexists; intros S s;
      (erewrite bind_Ret; [|apply load_ret; lia]).
    - rewrite E. cbn [Z.eqb AF_INET Pos.eqb]. (erewrite bind_Ret; [|apply load_ret; lia]). reflexivity.
    - specialize (H28 E6). rewrite E6. cbn [Z.eqb AF_INET AF_INET6 Pos.eqb]. (erewrite bind_Ret; [|apply load_ret; lia]). reflexivity.
    - rewrite (proj2 (Z.eqb_neq _ _) E), (proj2 (Z.eqb_neq _ _) E6). (erewrite bind_Ret; [|apply load_ret; lia]). reflexivity. }
  exists (x :: addrs). intros S s. cbn [create_all]. rewrite (bind_Ret _ _ _ _ _ (Hx S s)), (bind_Ret _ _ _ _ _ (IH S s)). done.
Qed.
Definition all_ip (m : multimap) : Prop := Forall (λ e, is_ip e.2.1 = true) m.
Lemma insert_all_ip e m : is_ip e.2.1 = true → all_ip m → all_ip (multimap_insert e m).
Proof using.
  intros He. unfold all_ip. induction 1 as [|y m Hy Hm IH]; cbn [multimap_insert]; [by repeat constructor|]. destruct (String.ltb e.1 y.1); by repeat constructor.
Qed.
Lemma interface_loop_ip family l : Forall iface_ok l → ∀ m, all_ip m → ∃ m', (∀ S (s : S), interface_loop host family l m s = Ret m' s) ∧ all_ip m'.
Proof using.
  induction 1 as [|i l Hi _ IH]; intros m Hm; [by exists m|]. cbn [interface_loop].
  destruct (IH (match contribution host family i with Some x => multimap_insert x m | None => m end)) as (m' & E & Hm').
  { destruct (contribution host family i) as [e|] eqn:Ec; [|done]. apply insert_all_ip; [|done]. revert Ec. unfold contribution.
    destruct (ifa_addr i), (ifa_netmask i); try done. destruct (_ && _); [done|]. destruct (_ =? AF_INET); [by intros [= <-]|]. destruct (_ =? AF_INET6); [by intros [= <-]|done]. }
  exists m'. split; [|done]. intros S s. by rewrite (bind_Ret _ _ _ _ _ (interface_ret host family i s Hi)).
Qed.
(** An entry of the configuration gives addresses, and no null pointer. *)
Lemma resolve_ret a : resolver_ok → interfaces_ok → ∃ addrs, ∀ S (s : S), resolve host getaddrinfo interfaces a s = Ret (Some <$> addrs) s.
Proof using.
  intros Hg Hi. unfold resolve. destruct (memchr 58 (bytes_of_string a)) as [pos|]; [|by exists []].
  assert (∃ o, ∀ S (s : S), LookupAny host getaddrinfo a AF_INET 0 0 s = Ret o s) as [o Ho].
  { unfold LookupAny, Lookup. destruct (Lookup_split a) as [node service]. destruct (getaddrinfo node service AF_INET 0 0) as [l|] eqn:Eg; [|by exists None].
    destruct (create_all_ret l (Hg _ _ _ _ _ _ Eg)) as [addrs Ha]. cbn [Datatypes.app].
    exists (if negb (bool_decide (addrs = [])) then head addrs else None). intros S s. rewrite bind_assoc, (bind_Ret _ _ _ _ _ (Ha S s)). unfold bind, ret. cbn.
    by destruct (negb _). }
  destruct o as [x|]; [exists [x]; intros S s; by rewrite (bind_Ret _ _ _ _ _ (Ho S s))|].
  assert (∃ b l, (∀ S (s : S), GetInterfaceAddress_of host interfaces [] (string_of_bytes (take pos (bytes_of_string a))) AF_UNSPEC s = Ret (b, l) s)
    ∧ Forall (λ x, is_ip x.1 = true) l) as (b & l & Hl & Hip).
  { unfold GetInterfaceAddress_of. destruct (_ || _); [eexists true, _; split; [done|]; cbn; repeat constructor|].
    unfold GetInterfaceAddress. destruct interfaces as [ifs|] eqn:Eifs; [|by exists false, []]. specialize (Hi ifs Eifs).
    destruct (interface_loop_ip AF_UNSPEC ifs Hi []) as (m & E & Hm); [constructor|].
    exists true, (equal_range (string_of_bytes (take pos (bytes_of_string a))) m). split; [intros S s; unfold bind; by rewrite E|].
    unfold equal_range. apply Forall_fmap, Forall_forall. intros e [He _]%list_elem_of_In%filter_In. eapply Forall_forall in Hm; [exact Hm|by apply list_elem_of_In]. }
  destruct b; [|exists []; intros S s; by rewrite (bind_Ret _ _ _ _ _ (Ho S s)), (bind_Ret _ _ _ _ _ (Hl S s))].
  exists ((λ x, setPort host (u16 (atoi (drop (pos + 1) (bytes_of_string a)))) x.1) <$> l). intros S s.
  rewrite (bind_Ret _ _ _ _ _ (Ho S s)), (bind_Ret _ _ _ _ _ (Hl S s)). cbn. unfold ret. f_equal. rewrite <- list_fmap_compose. apply list_fmap_ext.
  intros i x Hx. cbn. by rewrite (Forall_lookup_1 _ _ _ _ Hip Hx).
Qed.
Lemma resolve_all_ret l : resolver_ok → interfaces_ok → ∃ addrs, ∀ S (s : S), resolve_all host getaddrinfo interfaces l s = Ret (Some <$> addrs) s.
Proof using.
  intros Hg Hi. induction l as [|a l [addrs IH]]; [by exists []|]. destruct (resolve_ret a Hg Hi) as [x Hx]. exists (x ++ addrs). intros S s. cbn [resolve_all].
  rewrite (bind_Ret _ _ _ _ _ (Hx S s)), (bind_Ret _ _ _ _ _ (IH S s)). by rewrite fmap_app.
Qed.
Lemma all_there_ret {S} addrs (s : S) : all_there (Some <$> addrs) s = Ret addrs s.
Proof using. induction addrs as [|a addrs IH]; [done|]. rewrite fmap_cons. cbn [all_there]. by rewrite (bind_Ret _ _ _ _ _ IH). Qed.
End addresses.

(** ** [run_fiber] *)
Section servers.
Context {K : Type} `{NetServes K} {F : Type} `{FileSystem F} `{YamlInts} (host SOMAXCONN : Z).
Context (getaddrinfo : string → option string → Z → Z → Z → option (list (list Z))) (interfaces : option (list ifaddrs)).
Implicit Types (a : app K F).

(** The addresses that an entry asks for. *)
Definition addresses_of (conf : HttpServerConf) (addrs : list Address) : Prop :=
  ∀ S (s : S), resolve_all host getaddrinfo interfaces (address conf) s = Ret (Some <$> addrs) s.
(** In the state [k] of the system, there is for each of them, in order, one socket
    of the server, which is bound to it and listens, and a task is to accept from it. *)
Definition serving (k : K) (conf : HttpServerConf) (h : HttpServer) : Prop :=
  ∃ addrs, addresses_of conf addrs ∧ Forall2 (bound_at (sockets (tcp h)) k) addrs (m_socks (tcp h))
  ∧ NoDup (m_socks (tcp h)) ∧ accepts (tcp h) = AcceptTask <$> m_socks (tcp h) ∧ m_isStop (tcp h) = false
  ∧ (name conf ≠ ""%string → m_name (tcp h) = name conf) ∧ m_isKeepalive h = negb (keepalive conf =? 0).
Definition listens (h : HttpServer) (fd : Z) : Prop := ∃ s x, s ∈ m_socks (tcp h) ∧ sockets (tcp h) !! s = Some x ∧ m_sockfd x = fd ∧ fd ≠ -1.
(** The servers that were up stay up, when the descriptors that were open serve as before. *)
Lemma serving_later k k' conf h : serving k conf h → (∀ fd, listens h fd → net_serves fd k' = net_serves fd k) → serving k' conf h.
Proof using.
  intros (addrs & Ha & Hb & R) Hk. exists addrs. split; [done|]. split; [|done]. apply Forall2_same_length_lookup. split; [by eapply Forall2_length|].
  intros i addr b Hi Hs. destruct (Forall2_lookup_lr _ _ _ _ _ _ Hb Hi Hs) as (x & Hx & Hne & E). exists x. split_and!; [done..|]. rewrite Hk; [done|].
  exists b, x. split_and!; [by eapply list_elem_of_lookup_2|done..].
Qed.

Lemma start_server_ok rt conf a : resolver_ok host getaddrinfo → interfaces_ok interfaces →
  ∃ r a', start_server host SOMAXCONN getaddrinfo interfaces rt conf a = Ret r a' ∧ m_config a' = m_config a ∧
  match r with
  | Some _ => ∃ h, m_httpservers a' = m_httpservers a ++ [h] ∧ serving (m_sys a') conf h
      ∧ (∀ fd, fd ∈ net_open (m_sys a') ↔ fd ∈ net_open (m_sys a) ∨ listens h fd)
      ∧ ∀ fd, fd ∈ net_open (m_sys a) → net_serves fd (m_sys a') = net_serves fd (m_sys a)
  | None => m_httpservers a' = m_httpservers a ∧ net_open (m_sys a') = net_open (m_sys a) ∧ ∃ addrs failed, addresses_of conf addrs ∧ failed ≠ [] ∧ sublist failed addrs
  end.
Proof using All.
  intros Hg Hi. destruct (resolve_all_ret host getaddrinfo interfaces (address conf) Hg Hi) as [addrs Ha]. unfold start_server.
  rewrite (bind_Ret _ _ _ _ _ (Ha _ a)), (bind_Ret _ _ _ _ _ (all_there_ret addrs a)).
  destruct (bind_addrs_ok host SOMAXCONN (net_open (m_sys a)) addrs (TcpServer_new rt (m_sys a)) [] (good_new rt (m_sys a)))
    as (ok & failed & s & E & G & Es & Eacc & Ecl & Hsub & Hok & Hlen). cbn [Datatypes.app] in *. rewrite (bind_Ret _ _ _ _ _ E). cbn [fst].
  destruct ok; cbn [negb].
  - destruct (bind_addrs_serves host SOMAXCONN _ addrs _ failed s (good_new rt (m_sys a)) eq_refl E) as [Sb Sl].
    set (s1 := if negb (bool_decide (name conf = ""%string)) then set_name (name conf) s else s).
    assert (∀ (k : unit → ST (server K) (option unit)), bind (if negb (bool_decide (name conf = ""%string)) then modify (set_name (name conf)) else ret tt) k s = k tt s1) as ->
      by (intros k; unfold s1; by destruct (negb _)).
    apply woken_nil in Eacc. assert (good (net_open (m_sys a)) s1 ∧ m_isStop s1 = true ∧ accepts s1 = [] ∧ clients s1 = []
      ∧ m_socks s1 = m_socks s ∧ sockets s1 = sockets s ∧ sys_ s1 = sys_ s) as (G1 & Es1 & Ea1 & Ec1 & El1 & Eo1 & Ek1).
    { unfold s1. destruct (negb _); [split_and!; try done; by apply (good_step _ s)|done]. }
    destruct (start_ok _ s1 G1) as (s2 & E2 & G2 & _). rewrite (bind_Ret _ _ _ _ _ E2).
    assert (s2 = set_accepts (accepts s1 ++ (AcceptTask <$> m_socks s1)) (set_stop false s1)) as Es2.
    { revert E2. unfold start. rewrite bind_gets. unfold id. rewrite Es1. cbn [negb]. rewrite !bind_modify. by intros [= <-]. }
    rewrite Ea1 in Es2. eexists _, _. split; [reflexivity|]. split; [done|]. eexists. split; [done|]. split_and!.
    + exists addrs. rewrite Es2. cbn. rewrite Ek1, Eo1. split_and!; try done; [by rewrite El1|by destruct G1|]. intros Hn. unfold s1. by rewrite bool_decide_false.
    + intros fd. cbn. rewrite (led_open _ _ (good_ledger _ _ G2)). f_equiv. unfold listens. cbn. split.
      * intros (b & x & Hx & Hfd). exists b, x. assert (b ∈ dom (sockets s2)) as Hb%(good_counted _ _ G2) by by eapply elem_of_dom_2.
        apply referenced_spec in Hb. rewrite Es2 in Hb |- *. cbn in Hb |- *. rewrite Es2 in Hx. cbn in Hx. split_and!; [|done|..].
        -- destruct Hb as [?|[Hb|Hb]]; [done| |rewrite Ec1 in Hb; set_solver]. apply Exists_exists in Hb as (t & (c & -> & Hc)%list_elem_of_fmap & Ht).
           cbn in Ht. by apply bool_decide_eq_true in Ht as ->.
        -- unfold own in Hfd. destruct (Z.eqb_spec (m_sockfd x) (-1)); set_solver.
        -- unfold own in Hfd. destruct (Z.eqb_spec (m_sockfd x) (-1)); set_solver.
      * intros (b & x & _ & Hx & <- & Hne). exists b, x. split; [done|]. unfold own. rewrite (proj2 (Z.eqb_neq _ _) Hne). set_solver.
    + intros fd Hfd. rewrite Es2. cbn. rewrite Ek1. by apply Sb.
  - apply woken_nil in Eacc. eexists _, _. split; [reflexivity|]. split; [done|]. split; [done|]. split.
    + apply set_eq. intros fd. cbn. rewrite (led_open _ _ (good_ledger _ _ G)). split; [|by left]. intros [?|(b & x & Hx & _)]; [done|]. exfalso.
      assert (b ∈ dom (sockets s)) as Hb%(good_counted _ _ G) by by eapply elem_of_dom_2. apply referenced_spec in Hb.
      apply length_zero_iff_nil in Hlen. rewrite Hlen, Eacc, Ecl in Hb. cbn in Hb. rewrite Exists_nil in Hb. set_solver.
    + exists addrs, failed. split_and!; [done|intros ->; by apply proj2 in Hok; specialize (Hok eq_refl)|done].
Qed.
Lemma start_servers_ok rt confs : resolver_ok host getaddrinfo → interfaces_ok interfaces → ∀ a,
  ∃ r a', start_servers host SOMAXCONN getaddrinfo interfaces rt confs a = Ret r a' ∧ m_config a' = m_config a ∧
  match r with
  | Some _ => ∃ new, m_httpservers a' = m_httpservers a ++ new ∧ Forall2 (serving (m_sys a')) confs new
      ∧ (∀ fd, fd ∈ net_open (m_sys a') ↔ fd ∈ net_open (m_sys a) ∨ Exists (λ h, listens h fd) new)
      ∧ ∀ fd, fd ∈ net_open (m_sys a) → net_serves fd (m_sys a') = net_serves fd (m_sys a)
  | None => ∃ conf addrs failed, conf ∈ confs ∧ addresses_of conf addrs ∧ failed ≠ [] ∧ sublist failed addrs
  end.
Proof using All.
  intros Hg Hi. induction confs as [|conf confs IH]; intros a; cbn [start_servers].
  { exists (Some tt), a. split_and!; [done..|]. exists []. rewrite app_nil_r. split_and!; [done|constructor| |done]. intros fd. rewrite Exists_nil. tauto. }
  destruct (start_server_ok rt conf a Hg Hi) as (r & a1 & E & Ec & Hr). rewrite (bind_Ret _ _ _ _ _ E). destruct r as [[]|].
  - destruct Hr as (h & Eh & Hs & Ho & Hk). destruct (IH a1) as (r & a2 & E2 & Ec2 & Hr2). exists r, a2. split; [done|]. split; [congruence|]. destruct r as [[]|].
    + destruct Hr2 as (new & En & Hn & Ho2 & Hk2). exists (h :: new). split_and!; [rewrite En, Eh; by rewrite <- (assoc_L (++))|constructor; [|done]|..].
      * apply (serving_later _ _ _ _ Hs). intros fd Hfd. apply Hk2, Ho. by right.
      * intros fd. rewrite Ho2, Ho, Exists_cons. tauto.
      * intros fd Hfd. rewrite Hk2, Hk; [done..|]. apply Ho. by left.
    + destruct Hr2 as (c & addrs & failed & Hc & R). exists c, addrs, failed. split; [by right|done].
  - destruct Hr as (_ & _ & addrs & failed & R). exists None, a1. split_and!; [done..|]. exists conf, addrs, failed. split; [by left|done].
Qed.

End servers.

(** ** The daemon *)
Section daemon.
Context {K : Type} `{Net K} {F : Type} `{FileSystem F} `{YamlInts}.
Implicit Types (a : app K F).

Definition app_daemon (pid time interval : Z) (main_cb : ST (app K F) Z) (turns : list fork_event) : ST (app K F) Z :=
  real_daemon m_process set_process (λ n a, set_slept (slept a ++ [n]) a) pid time interval main_cb turns.
Definition crashed (t : fork_event) : Prop := 0 < fk_return t ∧ fk_status t ≠ 0.
(** The process table after [n] restarts. *)
Definition restarted (pid time interval : Z) (n : nat) a : app K F :=
  set_slept (slept a ++ replicate n interval)
    (set_process (mkProcess pid (main_id (m_process a)) time (main_start_time (m_process a)) (u32 (restart_count (m_process a) + Z.of_nat n))) a).

Lemma daemon_loop_crashes interval main_cb crashes turns : Forall crashed crashes → ∀ p a, is_u 32 (restart_count (m_process a)) →
  m_process a = p →
  daemon_loop m_process set_process (λ n a, set_slept (slept a ++ [n]) a) interval main_cb (crashes ++ turns) a
  = daemon_loop m_process set_process (λ n a, set_slept (slept a ++ [n]) a) interval main_cb turns
      (set_slept (slept a ++ replicate (length crashes) interval)
        (set_process (mkProcess (parent_id p) (main_id p) (parent_start_time p) (main_start_time p) (u32 (restart_count p + Z.of_nat (length crashes)))) a)).
Proof using.
  induction 1 as [|t crashes [Ht Hs] _ IH]; intros p a Hu <-.
  - cbn [List.app length replicate]. rewrite app_nil_r, Z.add_0_r, uwrap_small by done. by destruct a as [? ? ? ? ? [] ? ? ?].
  - cbn [List.app daemon_loop]. rewrite (proj2 (Z.eqb_neq (fk_return t) 0)) by lia. rewrite (proj2 (Z.ltb_ge (fk_return t) 0)) by lia.
    rewrite (proj2 (Z.eqb_neq _ _) Hs). cbn [negb]. unfold process_with. rewrite !bind_modify.
    erewrite IH; [|cbn; apply uwrap_range; lia|reflexivity]. f_equal. cbn [slept set_slept set_process m_process length replicate parent_id main_id parent_start_time main_start_time restart_count].
    unfold set_slept, set_process. cbn. f_equal; [f_equal|by rewrite <- (assoc_L (++))].
    unfold uwrap. rewrite Zplus_mod_idemp_l. f_equal. lia.
Qed.

(** The daemon starts its child again whenever it crashes, and only then.  After
    any number of crashes it has slept the interval once for each and counted them;
    it ends with 0 when a child ends normally and with -1 when a child cannot be
    made; and each child runs the program, with its own number and start time in
    the process table. *)
Theorem daemon_restarts pid time interval main_cb crashes last turns a :
  Forall crashed crashes → ¬ crashed last → is_u 32 (restart_count (m_process a)) →
  let a' := restarted pid time interval (length crashes) a in
  app_daemon pid time interval main_cb (crashes ++ last :: turns) a =
    if fk_return last =? 0
    then main_cb (set_process (mkProcess pid (fk_pid last) time (fk_time last) (restart_count (m_process a'))) a')
    else Ret (if fk_return last <? 0 then -1 else 0) a'.
Proof using.
  intros Hc Hl Hu a'. unfold app_daemon, real_daemon, process_with. rewrite bind_modify. erewrite (daemon_loop_crashes interval main_cb crashes (last :: turns) Hc); [|exact Hu|reflexivity].
  cbn [daemon_loop]. unfold process_with. destruct (Z.eqb_spec (fk_return last) 0) as [E|E]; [rewrite bind_modify; by destruct a|].
  destruct (Z.ltb_spec (fk_return last) 0) as [Hlt|Hge]; [by destruct a|]. destruct (Z.eqb_spec (fk_status last) 0) as [Es|Es]; [by destruct a|].
  destruct Hl. split; [lia|done].
Qed.

(** ** The process file *)
(** While the process serves, its file is empty, so that no other process finds it running. *)
Lemma serving_not_found (can_open : string → F → bool) pid (serve : ST (app K F) unit) pidfile a : pid_path a = Ret pidfile a → can_open pidfile (m_fs a) = true →
  ∃ a1, contents a1 !! pidfile = Some ""%string ∧ (∀ alive, is_running alive pidfile a1 = false)
  ∧ main can_open pid serve a = (serve ;;; modify (λ a, set_contents (<[pidfile := pretty pid]> (contents a)) a) ;;; ret 0) a1.
Proof using.
  intros Ep Ho. unfold main. rewrite (bind_Ret _ _ _ _ _ Ep), bind_gets. unfold id. rewrite Ho. cbn [negb]. rewrite bind_modify. eexists. split; [|split; [|reflexivity]].
  - cbn. by rewrite lookup_insert_eq.
  - intros alive. unfold is_running. cbn. by rewrite lookup_insert_eq.
Qed.
(** [run] says no to a process that ended well. *)
Lemma run_inverted (can_open : string → F → bool) pid time interval (serve : ST (app K F) unit) pidfile a a2 :
  m_args (m_env a) !! "d"%string = None → pid_path a = Ret pidfile a → can_open pidfile (m_fs a) = true →
  serve (set_contents (<[pidfile := ""%string]> (contents a)) a) = Ret tt a2 → ∃ a', run can_open pid time interval serve [] a = Ret false a'.
Proof using.
  intros Hd Ep Ho Hs. unfold run, on_env, on_part, has, gets. unfold bind at 1. rewrite Hd. cbn [is_Some_dec]. rewrite bool_decide_false by (intros []; done).
  unfold start_daemon. cbn [negb]. replace (set_env (m_env a) a) with a by by destruct a. unfold main. unfold bind at 1. rewrite (bind_Ret _ _ _ _ _ Ep), bind_gets. unfold id. rewrite Ho. cbn [negb].
  rewrite bind_modify. rewrite (bind_Ret _ _ _ _ _ Hs). by eexists.
Qed.
End daemon.

(** ** At work *)
#[local] Existing Instance tree_yaml.
#[local] Existing Instance tree_fields.
#[local] Existing Instance Files.sample_files.
#[local] Existing Instance Files.sample_file_laws.
#[local] Instance tree_ints : YamlInts := {
  as_int n := match n : tree with GenLeaf s => Some (atoi (bytes_of_string s)) | _ => None end;
  int_node z := (GenLeaf (pretty z) : tree)
}.
Definition sample_conf : HttpServerConf := mkConf ["*:8020"; "nowhere"]%string 1 0 "azure".
Definition sample_vars : config (H := app_types) unit := mkConfig
  [("http_servers"%string, existT CServers (ConfigVar_new (c := CServers) "http_servers" (mkVector [sample_conf]) ""));
   ("server.work_path"%string, existT CString (ConfigVar_new (c := CString) "server.work_path" "/apps/work"%string ""));
   ("service.pid_file"%string, existT CString (ConfigVar_new (c := CString) "service.pid_file" "azure.pid"%string ""))] (λ _, 0) ∅ tt.
Definition sample_app : app SocketTheorems.sockets (gset string) :=
  mkApp Env_new sample_vars ∅ ∅ [] ProcessInfo_new [] (mkSockets {[0; 1; 2]} 3) [].
Definition sample_dirs : conf_files := mkConfFiles (λ p, if bool_decide (p = "/azure/cfg"%string) then Some [("a.yml", DT_REG)]%string else None) (λ _, 7) (λ f, if bool_decide (f = "/azure/cfg/a.yml"%string) then Some (map_of [("server", map_of [("work_path", GenLeaf "/srv" : tree)])]%string) else None).
Lemma sample_ready : ready sample_vars.
Proof.
  split; [apply sortedb_sorted; vm_compute; reflexivity| |by eexists..].
  intros name x E. unfold find_var, map_find in E. destruct (set_find string_less (s_data sample_vars).*1 name) as [i|]; [|done].
  assert (Forall (λ kx : string * any_var unit, calm_var kx.2) (s_data sample_vars)) as Hall by (repeat constructor).
  rewrite Forall_forall in Hall. destruct (s_data sample_vars !! i) as [kx|] eqn:Ei; [|done]. cbn in E. injection E as <-. apply Hall. by eapply list_elem_of_lookup_2.
Qed.
Lemma sample_files_bounded : ∀ f root, LoadFile sample_dirs f = Some root → bounded 2 root.
Proof.
  intros f root. cbn. case_bool_decide; [|done]. intros [= <-]. vm_compute. repeat (constructor || discriminate || intros _).
Qed.
Lemma sample_dirs_shallow : ∀ q, shallow (conf_dir sample_dirs) 1 q.
Proof.
  intros q. cbn. case_bool_decide; [|done]. intros name Hn _. rewrite list_elem_of_singleton in Hn. discriminate.
Qed.
Lemma init_ready_witness : wanted ["-s"]%string ∧
  ((wanted ["-s"]%string ∧ ∃ e, rest_ended 2 1 sample_dirs (λ _, false) (set_env e sample_app)
      (init (Some "/azure/azure"%string) ["azure"; "-s"]%string 3 2 sample_dirs (λ _, false) sample_app))
   ∨ (¬ wanted ["-s"]%string ∧ ∃ e text, init (Some "/azure/azure"%string) ["azure"; "-s"]%string 3 2 sample_dirs (λ _, false) sample_app
      = Ret false (set_printed (printed sample_app ++ [text]) (set_env e sample_app)))).
Proof.
  split.
  - exists [("s"%string, None)]. split_and!; [by repeat constructor|done|set_solver|left; set_solver].
  - apply (init_ready (Some "/azure/azure"%string) "azure"%string ["-s"]%string 2 1 sample_dirs (λ _, false) sample_app);
      [done|done|exact sample_ready|exact sample_files_bounded|exact sample_dirs_shallow].
Defined.
(** The work path of the configuration file is the one that is made. *)
Lemma sample_inited :
  (λ a, (bool_decide ("/srv"%string ∈ m_fs a), printed a, out_val (getValue CString "server.work_path" (m_config a))))
    <$> (match init (Some "/azure/azure"%string) ["azure"; "-s"]%string 3 2 sample_dirs (λ _, false) sample_app with Ret true a => Some a | _ => None end)
  = Some (true, [], Some "/srv"%string).
Proof. vm_compute. reflexivity. Qed.

(** The star stands for two addresses; an entry without a port is skipped. *)
Lemma sample_servers :
  (λ a, (length (m_httpservers a), m_socks ∘ tcp <$> m_httpservers a, elements (net_open (m_sys a) ∖ {[0; 1; 2]})))
    <$> (match run_fiber AZURE_LITTLE_ENDIAN 4096 (λ _ _ _ _ _, None) None 120000 sample_app with Ret (Some _) a => Some a | _ => None end)
  = Some (1%nat, [[0; 1]%nat], [3; 4]).
Proof. vm_compute. reflexivity. Qed.

Definition sample_crash : fork_event := mkFork 7 139 0 0.
Definition sample_child : fork_event := mkFork 0 0 1001 77.
Lemma daemon_restarts_witness : crashed sample_crash ∧
  let a' := restarted 1000 5 5 2 sample_app in
  app_daemon 1000 5 5 (ret 0) ([sample_crash; sample_crash] ++ sample_child :: []) sample_app =
    if fk_return sample_child =? 0
    then ret 0 (set_process (mkProcess 1000 (fk_pid sample_child) 5 (fk_time sample_child) (restart_count (m_process a'))) a')
    else Ret (if fk_return sample_child <? 0 then -1 else 0) a'.
Proof.
  split; [by split|]. apply (daemon_restarts 1000 5 5 (ret 0) [sample_crash; sample_crash] sample_child [] sample_app);
    [by repeat constructor|intros [[=] _]|split; reflexivity + discriminate].
Defined.
